(* ===== verification/_CoqProject ===== *)
-Q . S2P
Prelude.v
PyTime.v
PyValue.v
Ordering.v
IsoTime.v
CoreScan.v
Utf8.v
PyText.v
ByteSearch.v
FileOrder.v
GapCatalog.v
HourCatalog.v
Storage.v
StorageFacts.v
StreamSearch.v
SearchPlan.v
LossyText.v
FullText.v
FullTextRun.v
LinePrefix.v
Buffering.v
Collector.v
LiveTail.v
Dispatcher.v
WritePressure.v
Performance.v
NodeHealth.v
Mongo.v
SnapshotQuota.v
Ownership.v
Commands.v
TaskRules.v
Lifecycle.v
AuthRecords.v
DeviceIdentity.v
Claim.v
Control.v
SshSlots.v
Recovery.v
Interleave.v
Deployment.v
DeploymentFacts.v
Isolation.v
LockRelease.v
Archive.v
FullTextRound.v
Idempotency.v
Access.v
Sessions.v
Submission.v
Jobs.v
JobRows.v
ArchiveQueue.v
ResourceHealth.v
Scheduler.v
Exports.v
Retention.v
Growth.v
GrowthFacts.v
