(* ===== verification/Prelude.v ===== *)
(** * Verification of the camera log recording service

    The program (Python, under [src/backend/camera_logs/]) keeps a connection to
    every camera, stores what the device prints byte for byte in hourly parts,
    merges sealed parts into one archive per hour, and lets users search and
    download them.  One platform process plans which node runs which task;
    Worker processes on the nodes hold the connections.  All of them meet only in
    MongoDB documents and, for one node, in the files of its log directory.

    ** How the parts interact

    - a user request ([tasks/control.py]) records an intent in the task document;
    - the scheduler ([tasks/scheduler.py]) gives a waiting task a node through
      the claim transaction ([tasks/claim.py]), after ranking the nodes by what
      they report ([node/health.py], [node/performance.py],
      [node/write_pressure.py]);
    - the Worker takes one of the device's connections
      ([collection/ssh_admission.py]), reserves memory before every read
      ([collection/buffering.py]), stamps lines ([collection/line_prefix.py])
      and writes parts ([logs/storage.py]); commands it sends are reserved
      ([commands/reservation.py]) or claimed ([commands/manual_claim.py]);
    - sealed hours are queued and published ([logs/compression.py]), listed
      ([logs/order.py], [logs/hour_catalog.py], [logs/gap_catalog.py]) and
      searched ([logs/search_plan.py], [logs/search_stream.py]) by jobs
      ([logs/job_lease.py], [logs/job_completion.py]);
    - a lost node's runs end only on evidence ([node/recovery.py],
      [node/failover.py], [administration/isolation.py],
      [node/deployment_recovery.py]); a device that fails authentication stops its tasks
      and gives them back later ([resources/health.py]); deletions are retried
      until nothing is held ([resources/lifecycle.py]).

    ** Which file models what

    Foundations.  [Prelude]: results, exceptions with state, lists.  [PyTime]:
    dates and instants.  [PyValue]: JSON and BSON values, their conversions and
    comparisons, documents.  [Ordering]: stable sort and heap.  [Utf8],
    [PyText], [ByteSearch]: strings and bytes.  [IsoTime]: the UTC texts the
    catalog compares.  [Mongo]: the document store.  [Interleave]: a coroutine
    among others that change the store between its steps.

    Collection.  [LinePrefix] is [collection/line_prefix.py]; [Buffering] is
    [collection/buffering.py]; [Collector] composes the two with the writer into
    the receive loop of [collection/collector.py]; [LiveTail] is the tail a
    browser follows ([collection/runtime.py], [logs/api.py]); [Dispatcher] is
    the sender of [collection/command_dispatcher.py]; [SshSlots] is
    [collection/ssh_admission.py].  [CoreScan] and [SnapshotQuota] are
    [coredumps/scanner.py] and the ledger of [coredumps/snapshots.py].

    Log files.  [Storage] is [logs/storage.py] and [logs/rotation_batch.py],
    with its theorems in [StorageFacts]; [Archive] is the publication in
    [logs/compression.py], [logs/archive_spool.py] and
    [logs/archive_receipts.py]; [ArchiveQueue] is the job queue of
    [logs/compression.py]; [Retention] and [Exports] are the deletions of
    [logs/maintenance.py] and the export files they spare; [FileOrder], [HourCatalog], [GapCatalog] are
    [logs/order.py], [logs/hour_catalog.py], [logs/gap_catalog.py].

    Search.  [StreamSearch] is [logs/search_stream.py]; [SearchPlan] is
    [logs/search_plan.py] with the member summary of [logs/search_index.py];
    [Jobs] is [logs/job_lease.py], [logs/job_completion.py] and the operations on
    jobs of [logs/jobs.py], with [JobRows] for what they leave alone;
    [Submission] is [logs/job_submission.py].  The full-text index is a process
    of its own: [FullText] is [indexing/client.py], [indexing/ingest.py],
    [indexing/checkpoints.py], [indexing/query.py] and the search's use of the
    evidence ([logs/search_candidates.py]) over texts decoded as in [LossyText];
    [FullTextRun] shows a complete run and [FullTextRound] the rounds
    ([indexing/runner.py], [indexing/archive.py], [indexing/retention.py],
    [indexing/api.py]).

    Nodes.  [WritePressure], [Performance], [NodeHealth] are
    [node/write_pressure.py], [node/performance.py] and [node/health.py] with
    [node/input_admission.py] and [node/resource_routing.py].

    Tasks.  [Ownership] and [TaskRules] hold what the transactions share
    ([common/ownership.py], [common/security.py], [resources/sharing.py]);
    [Claim] is [tasks/claim.py]; [Control] is [tasks/control.py]; [Commands] is
    [commands/reservation.py], [commands/manual_admission.py],
    [commands/manual_claim.py] and [node/manual_queue.py]; [Recovery] is
    [node/recovery.py], [tasks/recovery.py] and the consuming transaction of
    [node/failover.py]; [Isolation] is [administration/isolation.py];
    [Deployment], with lemmas in [DeploymentFacts], is the restart of Workers for a
    deployment ([node/deployment_recovery.py]); [LockRelease] states the evidence of
    every recovery; [Scheduler] is [tasks/scheduler.py] with the rest of the
    platform's side of [node/failover.py]; [Idempotency] is
    [common/audited_mutations.py].

    Resources.  [Lifecycle] is [resources/lifecycle.py] and
    [resources/address_claim.py]; [ResourceHealth] is [resources/health.py] and
    [resources/health_policy.py]; [AuthRecords] is
    [resources/authentication_records.py]; [DeviceIdentity] is
    [tasks/resource_binding.py] and [coredumps/resource_identity.py].

    Users.  [Access] is [users/roles.py], the rules of [users/sessions.py] and
    [access_policy/policy.py]; [Sessions] is the rest of [users/sessions.py],
    [users/session_mutations.py], [users/service_tokens.py] and the account
    changes of [users/api.py].

    Maintenance.  [Growth] is the purging and archiving of growing records
    ([common/record_archive.py], [common/record_purge.py],
    [common/run_archive_chunks.py], [common/audit_archive.py]); its theorems are in
    [GrowthFacts].

    ** What the theorems show

    - Bytes.  Line prefixes are those of a byte-wise reference for every
      chunking and can be taken off again; the writer stores exactly the bytes
      received, whatever write fails; the publication of an hour loses nothing
      wherever it is interrupted, as long as no two different entries of the hour
      share a name ([Archive] has the counterexample), and any later complete run ends
      in the same state.
    - Search.  Where no match overlaps another in its line, the chunk-wise search
      yields what a whole-line search of the concatenated parts yields; a search that
      trusts the full-text index drops no file that holds a byte of a matching line,
      whatever interrupted the indexing, as long as no run read a part other than as it
      is archived.  The examples of [StreamSearch] and [FullTextRun] show what happens
      otherwise.  Gap pages partition one snapshot.
    - Exclusion.  A claim binds one task, one lock and one run; a command is
      claimed once, a scheduled budget is never exceeded; an endpoint never has
      more claims than slots; creation with a key happens once; a job ends once.
    - Access.  What a user may do is what roles, scopes and expiry give; a login
      that ended stays ended; only managers change accounts.
    - Sessions.  The receive loop stores what the device sent, never leaves all
      sessions waiting for memory, and settles every queued command.
    - Evidence.  Each of the seven recoveries releases the locks of a lost run only
      on its own evidence: a receipt, a planned restart, a confirmed isolation or a
      frozen owner; a deletion is reported only when nothing is held; health
      recoveries never override a user's stop.
    - Records.  What the maintenance removes is past its retention and no longer
      needed; the archive of a run counts its commands and every purged audit record
      leaves a summary that outlives its year.
    - Bounds.  Buffers, queues, budgets, capacity of the cluster and file names
      stay within their limits.
    Most of these are invariants of every sequence of operations of several
    actors, proved operation by operation with [Mongo.wp] or [Prelude]'s state
    monad and then by induction on the sequence.

    ** Conventions

    A Python call is a function that returns [result] or, with state, a
    computation [stm]; an exception keeps the writes made before it.  An
    operation on the store is a [dbm]; a transaction commits all its writes or
    none and its [fate] says whether the caller learns it.  MongoDB, the time-zone
    database, [ipaddress], `fromisoformat`, float parsing, JSON, HMAC, SHA-256 and Elasticsearch
    are classes or section arguments with what the code relies on as laws, and
    each has an instance the witnesses compute with.  Documents are association
    lists ([PyValue.pydict]); a field that is absent reads as [PNone], as
    `dict.get` and a filter on `None` do, and [absent] tells the two apart where
    the code does.  Floats are exact rationals with infinities and NaN; instants
    are integers of microseconds, monotonic clocks are rationals; a clock is read
    once per transaction or cycle and is an argument.  Concurrency is modelled as
    sequences of atomic steps: what lies between two `await` points, one store
    operation, or one file operation.  Log calls, metrics and Chinese messages
    that are only shown are left out.

    Loops over lists are structural.  Where a loop runs on a counter the bound is
    the code's own (retries of [SshSlots], pages of [GapCatalog]); the heap merge
    of [FileOrder] runs on the number of remaining files, and the budget of
    file operations of [Archive] is universally quantified: an interruption is a
    small budget, and a run with enough budget is proved to complete.

    ** Not modelled

    Sockets, terminals and device protocols ([collection/connections.py],
    [collection/slave_shell.py] and the PSH dialogue), the runtime's and the
    Worker's supervision of asyncio tasks, process and thread pools, gzip, tar
    and SQLite, HTTP routing, password hashing and response contracts, the
    frontend, scripts and deployment.  They are input and output
    around the decisions modelled here, or third-party behaviour; the manifest
    lists them one by one. *)

From Stdlib Require Export ZArith QArith Qround Lia Lqa.
From Stdlib Require Export Strings.Byte Sorting.Sorted.
From stdpp Require Export base tactics list option gmap strings sorting.

#[global] Open Scope Z_scope.

Declare Scope camera_scope.
Delimit Scope camera_scope with camera.

(** ** Results: a Python call returns a value or raises *)

Inductive result (E A : Type) : Type :=
  | Ok (a : A)
  | Raise (e : E).
Arguments Ok {E A} a.
Arguments Raise {E A} e.

#[global] Instance result_ret E : MRet (result E) := fun A a => Ok a.
#[global] Instance result_bind E : MBind (result E) := fun A B f m =>
  match m with Ok a => f a | Raise e => Raise e end.
#[global] Instance result_fmap E : FMap (result E) := fun A B f m =>
  match m with Ok a => Ok (f a) | Raise e => Raise e end.

Definition is_ok {E A} (r : result E A) : bool :=
  match r with Ok _ => true | Raise _ => false end.

(** [raise_unless b e] is the guard `if not b: raise e`. *)
Definition raise_unless {E} (b : bool) (e : E) : result E unit :=
  if b then Ok tt else Raise e.

Lemma bind_Ok {E A B} (m : result E A) (f : A -> result E B) (b : B) :
  (m ≫= f) = Ok b <-> exists a, m = Ok a /\ f a = Ok b.
Proof.
  destruct m as [a | e]; cbn; split.
  - intros H. exists a. done.
  - intros (a' & [= ->] & H). done.
  - done.
  - intros (a' & H & _). done.
Qed.

(** An HTTP error: the status code and the message of `HTTPException`. *)
Record http_error := HTTPException { http_status : Z; http_detail : string }.

#[global] Instance http_error_eq_dec : EqDecision http_error.
Proof. solve_decision. Defined.

(** ** State with exceptions

    A method that mutates its object and may raise: the mutations made before
    the exception stay, as they do in Python. *)
Definition stm (S E A : Type) : Type := S -> result E A * S.

Definition st_ret {S E A} (a : A) : stm S E A := fun s => (Ok a, s).
Definition st_bind {S E A B} (m : stm S E A) (f : A -> stm S E B) : stm S E B :=
  fun s => match m s with
           | (Ok a, s') => f a s'
           | (Raise e, s') => (Raise e, s')
           end.
Definition st_raise {S E A} (e : E) : stm S E A := fun s => (Raise e, s).
Definition st_get {S E} : stm S E S := fun s => (Ok s, s).
Definition st_put {S E} (s : S) : stm S E unit := fun _ => (Ok tt, s).

Notation "'let!' x := m 'in' k" := (st_bind m (fun x => k))
  (at level 10, x pattern, m at level 100, k at level 200) : camera_scope.

(** ** Tactics *)

(** Case analysis on the `if` and `match` of a hypothesis, keeping equations. *)
Ltac case_if_in H :=
  match type of H with
  | context [if ?b then _ else _] => let E := fresh "E" in destruct b eqn:E
  end.

(** Turn boolean tests in the context into arithmetic facts. *)
Ltac breflect :=
  repeat match goal with
  | H : (_ && _) = true |- _ => apply andb_prop in H as [? ?]
  | H : (_ || _) = false |- _ => apply orb_false_elim in H as [? ?]
  | H : negb _ = true |- _ => apply negb_true_iff in H
  | H : negb _ = false |- _ => apply negb_false_iff in H
  | H : (_ <? _) = true |- _ => apply Z.ltb_lt in H
  | H : (_ <? _) = false |- _ => apply Z.ltb_ge in H
  | H : (_ <=? _) = true |- _ => apply Z.leb_le in H
  | H : (_ <=? _) = false |- _ => apply Z.leb_gt in H
  | H : (_ =? _) = true |- _ => apply Z.eqb_eq in H
  | H : (_ =? _) = false |- _ => apply Z.eqb_neq in H
  | H : bool_decide _ = true |- _ => apply bool_decide_eq_true in H
  | H : bool_decide _ = false |- _ => apply bool_decide_eq_false in H
  end.

Ltac blia := breflect; lia.

Create HintDb camera discriminated.
Create Rewrite HintDb zlen.

(** ** Lists *)

(** [zlen l] is `len(l)`, a Python integer. *)
Definition zlen {A} (l : list A) : Z := Z.of_nat (length l).

Lemma zlen_nil {A} : zlen (@nil A) = 0.
Proof. reflexivity. Qed.

Lemma zlen_cons {A} (x : A) l : zlen (x :: l) = 1 + zlen l.
Proof. unfold zlen. cbn. lia. Qed.

Lemma zlen_app {A} (l k : list A) : zlen (l ++ k) = zlen l + zlen k.
Proof. unfold zlen. rewrite length_app. lia. Qed.

Lemma zlen_nonneg {A} (l : list A) : 0 <= zlen l.
Proof. unfold zlen. lia. Qed.

#[export] Hint Rewrite @zlen_nil @zlen_cons @zlen_app : zlen.
#[export] Hint Resolve zlen_nonneg : camera.

(** `sum(...)` over integers. *)
Fixpoint zsum (l : list Z) : Z :=
  match l with [] => 0 | x :: l => x + zsum l end.

Lemma zsum_app l k : zsum (l ++ k) = zsum l + zsum k.
Proof. induction l as [|x l IH]; cbn; lia. Qed.

Lemma zsum_Permutation l k : l ≡ₚ k -> zsum l = zsum k.
Proof. induction 1; cbn in *; lia. Qed.

Lemma zsum_nonneg l : Forall (fun x => 0 <= x) l -> 0 <= zsum l.
Proof. induction 1; cbn in *; lia. Qed.

(** `l[-n:]` for a non-negative [n]; `l[-0:]` is the whole list. *)
Definition last_n {A} (n : nat) (l : list A) : list A :=
  match n with
  | O => l
  | _ => drop (length l - n) l
  end.

Lemma last_n_length {A} n (l : list A) :
  n <> O -> length (last_n n l) = Nat.min n (length l).
Proof. intros Hn. destruct n; [done|]. unfold last_n. rewrite length_drop. lia. Qed.

Lemma last_n_suffix {A} n (l : list A) : exists k, l = k ++ last_n n l.
Proof.
  destruct n; [by exists []|]. exists (take (length l - S n) l).
  unfold last_n. by rewrite take_drop.
Qed.

(** A filter that keeps nothing, and one that keeps everything. *)
Lemma filter_none {A} (P : A -> Prop) `{forall x, Decision (P x)} (l : list A) :
  (forall x, x ∈ l -> ~ P x) -> filter P l = [].
Proof.
  intros H'. destruct (filter P l) as [|x k] eqn:E; [done|]. exfalso.
  assert (Hx : x ∈ filter P l) by (rewrite E; apply list_elem_of_here).
  apply list_elem_of_filter in Hx as [Hp Hx]. by eapply H'.
Qed.

Lemma filter_all {A} (P : A -> Prop) `{forall x, Decision (P x)} (l : list A) :
  (forall x, x ∈ l -> P x) -> filter P l = l.
Proof.
  induction l as [|x l IH]; intros H'; [done|].
  rewrite filter_cons_True by (apply H', list_elem_of_here).
  f_equal. apply IH. intros y Hy. apply H'. by apply list_elem_of_further.
Qed.

(** ** Bytes *)

#[global] Instance byte_eq_dec : EqDecision byte := Byte.byte_eq_dec.

(** A Python `bytes` object. *)
Abbreviation bytes := (list byte).

(** The line feed, `b"\n"`, and the carriage return, `b"\r"`. *)
Definition LF : byte := x0a.
Definition CR : byte := x0d.

(** `s.encode()` of an ASCII literal. *)
Definition ascii_bytes (s : string) : bytes := String.list_byte_of_string s.
