(* ===== verification/PyTime.v ===== *)
(** * Date and time of the Python standard library, as the program uses it

    A [datetime] is a wall-clock reading in microseconds with an optional UTC
    offset; the proleptic Gregorian calendar turns days into civil dates.  The
    time-zone database behind [ZoneInfo] is not code of the repository: a zone
    is a function from instants to offsets, an argument of what uses it. *)

From S2P Require Import Prelude.

(** ** Instants and zones *)

Definition US_PER_SECOND : Z := 1000000.
Definition US_PER_HOUR : Z := 3600 * US_PER_SECOND.
Definition US_PER_DAY : Z := 86400 * US_PER_SECOND.

(** An aware value keeps its absolute instant; a naive one only a reading. *)
Inductive datetime : Type :=
  | Aware (utc_us : Z)
  | Naive (wall_us : Z).

#[global] Instance datetime_eq_dec : EqDecision datetime.
Proof. solve_decision. Defined.

(** A zone gives the UTC offset, in microseconds, in force at an instant. *)
Abbreviation zone := (Z -> Z).

(** `value.replace(tzinfo=UTC)` for a naive value, the instant otherwise. *)
Definition utc_instant (d : datetime) : Z :=
  match d with Aware u => u | Naive w => w end.

(** The wall clock of zone [z] at instant [u]. *)
Definition wall (z : zone) (u : Z) : Z := u + z u.

(** A zone whose offset never changes. *)
Definition fixed_zone (offset_seconds : Z) : zone :=
  fun _ => offset_seconds * US_PER_SECOND.

(** ** Civil dates

    The conversion between ordinals (day 1 is 0001-01-01) and civil dates that
    the library's [datetime] module documents. *)

Definition is_leap (y : Z) : bool :=
  (y mod 4 =? 0) && (negb (y mod 100 =? 0) || (y mod 400 =? 0)).

Definition b2z (b : bool) : Z := if b then 1 else 0.

(** Days of the common year before month [m]. *)
Definition days_before_month (m : Z) : Z :=
  nth (Z.to_nat (m - 1)) [0; 31; 59; 90; 120; 151; 181; 212; 243; 273; 304; 334] 0.

Definition days_in_month (m : Z) : Z :=
  nth (Z.to_nat (m - 1)) [31; 28; 31; 30; 31; 30; 31; 31; 30; 31; 30; 31] 0.

Definition days_before_year (year : Z) : Z :=
  let y := year - 1 in y * 365 + y / 4 - y / 100 + y / 400.

Definition ord_of_ymd (date : Z * Z * Z) : Z :=
  let '(y, m, d) := date in
  days_before_year y + days_before_month m + b2z ((2 <? m) && is_leap y) + d.

(** Month and day of the zero-based day [n] of a year. *)
Definition month_day (leap : bool) (n : Z) : Z * Z :=
  let m := (n + 50) / 32 in
  let preceding := days_before_month m + b2z ((2 <? m) && leap) in
  if n <? preceding
  then let m := m - 1 in
       (m, n - (preceding - (days_in_month m + b2z ((m =? 2) && leap))) + 1)
  else (m, n - preceding + 1).

Definition ymd_of_ord (ord : Z) : Z * Z * Z :=
  let n := ord - 1 in
  let n400 := n / 146097 in
  let n := n mod 146097 in
  let n100 := n / 36524 in
  let n := n mod 36524 in
  let n4 := n / 1461 in
  let n := n mod 1461 in
  let n1 := n / 365 in
  let n := n mod 365 in
  let year := n400 * 400 + 1 + n100 * 100 + n4 * 4 + n1 in
  if (n1 =? 4) || (n100 =? 4) then (year - 1, 12, 31)
  else let '(m, d) := month_day ((n1 =? 3) && (negb (n4 =? 24) || (n100 =? 3))) n in
       (year, m, d).

(** The civil date of a day number counted from 1970-01-01. *)
Definition civil_of_days (days : Z) : Z * Z * Z := ymd_of_ord (days + 719163).

(** The six fields of a wall-clock reading. *)
Record fields := Fields {
  f_year : Z; f_month : Z; f_day : Z; f_hour : Z; f_minute : Z; f_second : Z }.

Definition fields_of (w : Z) : fields :=
  let '(y, m, d) := civil_of_days (w / US_PER_DAY) in
  let s := (w mod US_PER_DAY) / US_PER_SECOND in
  Fields y m d (s / 3600) (s / 60 mod 60) (s mod 60).

(** ** Decimal fields of `strftime` *)

(** [n] in decimal on exactly [w] digits, most significant first, as code
    points. *)
Fixpoint zpad (w : nat) (n : Z) : list Z :=
  match w with
  | O => []
  | S w => zpad w (n / 10) ++ [48 + n mod 10]
  end.

Lemma zpad_length w n : length (zpad w n) = w.
Proof. revert n. induction w as [|w IH]; intros n; cbn; [done|]. rewrite length_app, IH. cbn. lia. Qed.

Lemma zpad_digits w n : Forall (fun c => 48 <= c <= 57) (zpad w n).
Proof.
  revert n. induction w as [|w IH]; intros n; cbn; [constructor|].
  apply Forall_app. split; [apply IH|].
  constructor; [|constructor]. pose proof (Z.mod_pos_bound n 10). lia.
Qed.

(** The value of a run of decimal digits. *)
Definition digits_value (l : list Z) : Z := foldl (fun acc c => acc * 10 + (c - 48)) 0 l.

Lemma digits_value_app l c : digits_value (l ++ [c]) = digits_value l * 10 + (c - 48).
Proof. unfold digits_value. rewrite foldl_app. reflexivity. Qed.

Lemma zpad_value w n : 0 <= n < 10 ^ Z.of_nat w -> digits_value (zpad w n) = n.
Proof.
  revert n. induction w as [|w IH]; intros n Hn; [cbn in *; lia|].
  cbn [zpad]. rewrite digits_value_app, IH.
  - pose proof (Z.div_mod n 10). lia.
  - rewrite Nat2Z.inj_succ, Z.pow_succ_r in Hn by lia.
    split; [apply Z.div_pos; lia|apply Z.div_lt_upper_bound; lia].
Qed.

Lemma zpad_inj w a b :
  0 <= a < 10 ^ Z.of_nat w -> 0 <= b < 10 ^ Z.of_nat w -> zpad w a = zpad w b -> a = b.
Proof. intros Ha Hb H. rewrite <- (zpad_value w a), <- (zpad_value w b) by done. by rewrite H. Qed.

(** ASCII code points as bytes. *)
Definition byte_of_cp (c : Z) : byte :=
  match Byte.of_N (Z.to_N (c mod 256)) with Some b => b | None => x00 end.

(** ** The calendar is a bijection *)

Fixpoint all_from (n : nat) (z : Z) (p : Z -> bool) : bool :=
  match n with O => true | S n => p z && all_from n (z + 1) p end.

Lemma all_from_spec n a p :
  all_from n a p = true -> forall z, a <= z < a + Z.of_nat n -> p z = true.
Proof.
  revert a. induction n as [|n IH]; cbn [all_from]; intros a H z Hz; [lia|].
  apply andb_prop in H as [Hn H].
  destruct (decide (z = a)) as [->|]; [done|]. apply (IH (a + 1)); [done|lia].
Qed.

(** Every day of a common and of a leap year decides the month table. *)
Definition month_day_ok (leap : bool) (n : Z) : bool :=
  let '(m, d) := month_day leap n in
  (days_before_month m + b2z ((2 <? m) && leap) + d =? n + 1)
  && (1 <=? m) && (m <=? 12) && (1 <=? d) && (d <=? 31).

Lemma month_days : all_from 365 0 (month_day_ok false) && all_from 366 0 (month_day_ok true) = true.
Proof. vm_compute. reflexivity. Qed.

Lemma month_day_spec leap n m d :
  month_day leap n = (m, d) -> 0 <= n < 365 + b2z leap ->
  days_before_month m + b2z ((2 <? m) && leap) + d = n + 1 /\ 1 <= m <= 12 /\ 1 <= d <= 31.
Proof.
  intros H Hn. pose proof month_days as Hall. apply andb_prop in Hall as [Hc Hl].
  assert (Hok : month_day_ok leap n = true).
  { destruct leap; [apply (all_from_spec _ _ _ Hl)|apply (all_from_spec _ _ _ Hc)]; cbn in *; lia. }
  unfold month_day_ok in Hok. rewrite H in Hok. blia.
Qed.

Lemma is_leap_cycle a b c d :
  0 <= b <= 3 -> 0 <= c <= 24 -> 0 <= d <= 3 ->
  is_leap (a * 400 + 1 + b * 100 + c * 4 + d) = (d =? 3) && (negb (c =? 24) || (b =? 3)).
Proof.
  intros Hb Hc Hd. unfold is_leap. apply eq_bool_prop_intro.
  rewrite !andb_True, !orb_True, !negb_True, !Is_true_true, !Z.eqb_eq.
  Z.to_euclidean_division_equations. lia.
Qed.

Lemma days_before_year_cycle a b c d :
  0 <= b <= 3 -> 0 <= c <= 24 -> 0 <= d <= 3 ->
  days_before_year (a * 400 + 1 + b * 100 + c * 4 + d)
  = a * 146097 + b * 36524 + c * 1461 + d * 365.
Proof. intros. unfold days_before_year. Z.to_euclidean_division_equations. lia. Qed.

Lemma ymd_of_ord_spec n y m d :
  ymd_of_ord n = (y, m, d) -> ord_of_ymd (y, m, d) = n /\ 1 <= m <= 12 /\ 1 <= d <= 31.
Proof.
  unfold ymd_of_ord. cbn zeta.
  set (n400 := (n - 1) / 146097). set (r400 := (n - 1) mod 146097).
  set (n100 := r400 / 36524). set (r100 := r400 mod 36524).
  set (n4 := r100 / 1461). set (r4 := r100 mod 1461).
  set (n1 := r4 / 365). set (r1 := r4 mod 365).
  assert (Hn : n - 1 = n400 * 146097 + n100 * 36524 + n4 * 1461 + n1 * 365 + r1
    /\ 0 <= n100 <= 4 /\ 0 <= n4 <= 24 /\ 0 <= n1 <= 4 /\ 0 <= r1 < 365
    /\ (n100 = 4 -> n4 = 0 /\ n1 = 0 /\ r1 = 0) /\ (n1 = 4 -> r1 = 0)
    /\ (n4 = 24 -> n1 = 4 -> False)).
  { subst n1 r1 n4 r4 n100 r100 n400 r400. Z.to_euclidean_division_equations. lia. }
  clearbody n400 n100 n4 n1 r1. destruct Hn as (Hn & H100 & H4 & H1 & Hr & Hc100 & Hc1 & Hc4).
  destruct ((n1 =? 4) || (n100 =? 4)) eqn:E.
  - intros [= <- <- <-]. split; [|lia]. unfold ord_of_ymd.
    apply orb_prop in E as [E|E]; apply Z.eqb_eq in E.
    + replace (n400 * 400 + 1 + n100 * 100 + n4 * 4 + n1 - 1)
        with (n400 * 400 + 1 + n100 * 100 + n4 * 4 + 3) by lia.
      rewrite is_leap_cycle, days_before_year_cycle by lia.
      replace (n4 =? 24) with false by lia.
      change (days_before_month 12) with 334. cbn [Z.ltb Z.compare Pos.compare Pos.compare_cont andb orb negb b2z Z.eqb Pos.eqb]. lia.
    + replace (n400 * 400 + 1 + n100 * 100 + n4 * 4 + n1 - 1)
        with (n400 * 400 + 1 + 3 * 100 + 24 * 4 + 3) by lia.
      rewrite is_leap_cycle, days_before_year_cycle by lia.
      change (days_before_month 12) with 334. cbn [Z.ltb Z.compare Pos.compare Pos.compare_cont andb orb negb b2z Z.eqb Pos.eqb]. lia.
  - breflect. destruct (month_day _ r1) as [m' d'] eqn:Em. intros [= <- <- <-].
    apply month_day_spec in Em as (Hm & ? & ?); [|destruct (_ && _); cbn; lia].
    split; [|lia]. unfold ord_of_ymd.
    rewrite is_leap_cycle, days_before_year_cycle by lia. lia.
Qed.

(** The civil fields determine the wall-clock second. *)
Lemma fields_of_inj w1 w2 :
  fields_of w1 = fields_of w2 -> w1 / US_PER_SECOND = w2 / US_PER_SECOND.
Proof.
  unfold fields_of.
  destruct (civil_of_days (w1 / US_PER_DAY)) as [[y1 m1] d1] eqn:E1.
  destruct (civil_of_days (w2 / US_PER_DAY)) as [[y2 m2] d2] eqn:E2.
  intros [= -> -> -> Hh Hm Hs].
  assert (Hd : w1 / US_PER_DAY = w2 / US_PER_DAY).
  { apply ymd_of_ord_spec in E1 as [H1 _], E2 as [H2 _]. lia. }
  unfold US_PER_DAY, US_PER_SECOND in *. clear E1 E2.
  revert Hd Hh Hm Hs. Z.to_euclidean_division_equations. lia.
Qed.

(** ** Parsing and durations *)

(** `datetime.fromisoformat`, an argument: [None] is its `ValueError`. *)
Class FromIso := from_iso : string -> option datetime.

(** Rounding to the nearest integer, ties to even, as `timedelta` rounds a
    float number of microseconds. *)
Definition round_half_even (q : Q) : Z :=
  let f := Qfloor q in
  let r := (q - inject_Z f)%Q in
  if Qle_bool r (1 # 2)
  then (if Qeq_bool r (1 # 2) then (if Z.even f then f else f + 1) else f)
  else f + 1.

(** `timedelta(seconds=s)` in microseconds. *)
Definition timedelta_seconds (s : Q) : Z := round_half_even (s * inject_Z US_PER_SECOND).
