(* ===== verification/PyValue.v ===== *)
(** * Dynamically typed values

    Configuration documents, heartbeats and metrics reach the program as JSON
    or BSON values whose types it checks itself.  [pyval] is such a value; the
    [isinstance] tests, the conversions and the comparisons the source uses are
    functions on it.

    Floats are exact rationals plus the three non-finite values: Python compares
    an [int] and a [float] exactly, and no theorem depends on the rounding of a
    float operation. *)

From S2P Require Import Prelude PyTime.

Inductive pyfloat : Type :=
  | Fin (q : Q)
  | Inf (negative : bool)
  | NaN.

Inductive pyval : Type :=
  | PNone
  | PBool (b : bool)
  | PInt (z : Z)
  | PFloat (f : pyfloat)
  | PStr (s : string)
  | PTime (d : datetime)
  | PList (l : list pyval)
  | PDict (d : list (string * pyval)).

(** `dict.get(key)`: [PNone] for a missing key. *)
Fixpoint dict_lookup (d : list (string * pyval)) (k : string) : option pyval :=
  match d with
  | [] => None
  | (k', v) :: d => if decide (k = k') then Some v else dict_lookup d k
  end.

Abbreviation pydict := (list (string * pyval)).

Definition dict_get (d : pydict) (k : string) : pyval := default PNone (dict_lookup d k).

(** `dict.get(key, fallback)`. *)
Definition dict_get_or (d : pydict) (k : string) (fallback : pyval) : pyval :=
  default fallback (dict_lookup d k).

(** `isinstance(v, Mapping)`. *)
Definition as_dict (v : pyval) : option pydict :=
  match v with PDict d => Some d | _ => None end.

(** `isinstance(v, bool)`. *)
Definition as_bool (v : pyval) : option bool :=
  match v with PBool b => Some b | _ => None end.

(** `isinstance(v, int) and not isinstance(v, bool)`: `bool` is a subclass of
    `int`, and the source excludes it. *)
Definition as_int (v : pyval) : option Z :=
  match v with PInt z => Some z | _ => None end.

(** `isinstance(v, (int, float)) and not isinstance(v, bool) and
    math.isfinite(v)`. *)
Definition as_finite (v : pyval) : option Q :=
  match v with
  | PInt z => Some (inject_Z z)
  | PFloat (Fin q) => Some q
  | _ => None
  end.

(** Truth of a value, `bool(v)`. *)
Definition truthy (v : pyval) : bool :=
  match v with
  | PNone => false
  | PBool b => b
  | PInt z => negb (z =? 0)
  | PFloat (Fin q) => negb (Qeq_bool q 0)
  | PFloat _ => true
  | PStr s => negb (String.eqb s EmptyString)
  | PTime _ => true
  | PList l => negb (bool_decide (l = []))
  | PDict d => match d with [] => false | _ => true end
  end.

(** `v is None`. *)
Definition is_none (v : pyval) : bool := match v with PNone => true | _ => false end.

(** ** Rational comparisons as booleans *)

Definition Qltb (a b : Q) : bool := negb (Qle_bool b a).

Lemma Qltb_lt a b : Qltb a b = true <-> (a < b)%Q.
Proof.
  unfold Qltb. rewrite negb_true_iff, <- not_true_iff_false, Qle_bool_iff.
  split; [apply Qnot_le_lt|apply Qlt_not_le].
Qed.

Lemma Qltb_ge a b : Qltb a b = false <-> (b <= a)%Q.
Proof. unfold Qltb. by rewrite negb_false_iff, Qle_bool_iff. Qed.

Lemma Qle_bool_false a b : Qle_bool a b = false <-> (b < a)%Q.
Proof. rewrite <- Qltb_lt. unfold Qltb. by rewrite negb_true_iff. Qed.

(** Turn rational and boolean tests in the context into facts. *)
Ltac qreflect :=
  breflect;
  repeat match goal with
  | H : Qltb _ _ = true |- _ => apply Qltb_lt in H
  | H : Qltb _ _ = false |- _ => apply Qltb_ge in H
  | H : Qle_bool _ _ = true |- _ => apply Qle_bool_iff in H
  | H : Qle_bool _ _ = false |- _ => apply Qle_bool_false in H
  end.

(** ** `float(value)`

    Parsing a string is the interpreter's `float(str)`, an argument of what
    needs it; an integer is converted exactly. *)
Class FloatOfStr := float_of_str : string -> option pyfloat.

(** [None] is the `TypeError` or `ValueError` the source catches. *)
Definition to_float `{FloatOfStr} (v : pyval) : option pyfloat :=
  match v with
  | PBool b => Some (Fin (if b then 1 else 0))
  | PInt z => Some (Fin (inject_Z z))
  | PFloat f => Some f
  | PStr s => float_of_str s
  | _ => None
  end.

(** The finite non-negative rational of a float, if it is one. *)
Definition finite_nonneg (f : pyfloat) : option Q :=
  match f with
  | Fin q => if Qle_bool 0 q then Some q else None
  | _ => None
  end.

Lemma finite_nonneg_spec f q : finite_nonneg f = Some q -> f = Fin q /\ (0 <= q)%Q.
Proof.
  destruct f as [q'| |]; cbn; try done. destruct (Qle_bool 0 q') eqn:E; [|done].
  intros [= ->]. split; [done|]. by apply Qle_bool_iff.
Qed.

(** ** Float comparisons

    Comparisons with a NaN are false; infinities are at the ends. *)
Definition float_lt (a b : pyfloat) : bool :=
  match a, b with
  | NaN, _ | _, NaN => false
  | Fin x, Fin y => Qltb x y
  | Inf n, Inf m => n && negb m
  | Inf n, Fin _ => n
  | Fin _, Inf m => negb m
  end.

Arguments float_lt : simpl never.

Definition float_of_Z (z : Z) : pyfloat := Fin (inject_Z z).

(** `math.isfinite(f) and f >= 0`, negated. *)
Definition not_finite_or_negative (f : pyfloat) : bool :=
  match finite_nonneg f with Some _ => false | None => true end.

(** The `TypeError` or `ValueError` a conversion raises when nothing catches
    it. *)
Inductive conversion_error : Type := ConversionError.

(** ** Mappings *)

(** `d | {k: v}`: the key keeps its place, a new key goes last. *)
Fixpoint dict_set (d : pydict) (k : string) (v : pyval) : pydict :=
  match d with
  | [] => [(k, v)]
  | (k', v') :: d => if decide (k = k') then (k, v) :: d else (k', v') :: dict_set d k v
  end.

(** `d.get(key) or {}` for a mapping-valued key. *)
Definition dict_sub (d : pydict) (k : string) : pydict := default [] (as_dict (dict_get d k)).

Lemma dict_lookup_set d k v k' :
  dict_lookup (dict_set d k v) k' = if decide (k' = k) then Some v else dict_lookup d k'.
Proof.
  induction d as [|[k0 v0] d IH]; cbn; [done|].
  destruct (decide (k = k0)) as [->|Hne]; cbn; [by destruct (decide (k' = k0))|].
  destruct (decide (k' = k0)) as [->|]; [by rewrite decide_False|done].
Qed.

(** The text of a string value. *)
Definition as_str (v : pyval) : option string := match v with PStr s => Some s | _ => None end.
