(* ===== verification/Ordering.v ===== *)
(** * Total preorders, stable sorting and k-way merging

    What the source uses of `list.sort`, tuple comparison and `heapq`: boolean
    total preorders on keys, the stable insertion sort with its permutation and
    sortedness lemmas, and extraction of a least element. *)

From S2P Require Import Prelude.

(** ** Boolean total preorders *)

Class BoolOrder {A} (leb : A -> A -> bool) : Prop := {
  bo_total : forall x y, leb x y = true \/ leb y x = true;
  bo_trans : forall x y z, leb x y = true -> leb y z = true -> leb x z = true }.

Lemma bo_refl {A} (leb : A -> A -> bool) `{BoolOrder A leb} x : leb x x = true.
Proof. by destruct (bo_total x x). Qed.

#[global] Instance Z_leb_order : BoolOrder Z.leb.
Proof. split; intros; rewrite ?Z.leb_le in *; lia. Qed.

#[global] Instance nat_leb_order : BoolOrder Nat.leb.
Proof. split; intros; rewrite ?Nat.leb_le in *; lia. Qed.

(** Tuple comparison: the first components decide unless they are equal. *)
Definition pair_leb {A B} (la : A -> A -> bool) (lb : B -> B -> bool) (p q : A * B) : bool :=
  la p.1 q.1 && (negb (la q.1 p.1) || lb p.2 q.2).

#[global] Instance pair_order {A B} (la : A -> A -> bool) (lb : B -> B -> bool) :
  BoolOrder la -> BoolOrder lb -> BoolOrder (pair_leb la lb).
Proof.
  intros Ha Hb. split.
  - intros [a b] [c d]. unfold pair_leb. cbn.
    destruct (la a c) eqn:E1, (la c a) eqn:E2; cbn; auto.
    + destruct (bo_total b d); auto.
    + destruct (bo_total a c); congruence.
  - intros [a b] [c d] [e f]. unfold pair_leb. cbn.
    rewrite !andb_true_iff, !orb_true_iff, !negb_true_iff.
    intros [H1 H2] [H3 H4]. split; [by eapply bo_trans|].
    destruct (la e a) eqn:E; [right|by left].
    assert (la c a = true) by (eapply bo_trans; eauto).
    assert (la e c = true) by (eapply bo_trans; eauto).
    destruct H2, H4; try congruence. by eapply bo_trans.
Qed.

(** Comparison of strings by code units. *)
Fixpoint str_leb (s t : string) : bool :=
  match s, t with
  | EmptyString, _ => true
  | String _ _, EmptyString => false
  | String a s, String b t =>
      let x := Ascii.N_of_ascii a in
      let y := Ascii.N_of_ascii b in
      if (x <? y)%N then true else if (y <? x)%N then false else str_leb s t
  end.

#[global] Instance str_leb_order : BoolOrder str_leb.
Proof.
  split.
  - intros s. induction s as [|a s IH]; intros [|b t]; cbn; auto.
    destruct (N.ltb_spec (Ascii.N_of_ascii a) (Ascii.N_of_ascii b)); auto.
    destruct (N.ltb_spec (Ascii.N_of_ascii b) (Ascii.N_of_ascii a)); auto.
  - intros s. induction s as [|a s IH]; intros [|b t] [|c u]; cbn; auto; try done.
    destruct (N.ltb_spec (Ascii.N_of_ascii a) (Ascii.N_of_ascii b)),
      (N.ltb_spec (Ascii.N_of_ascii b) (Ascii.N_of_ascii c)),
      (N.ltb_spec (Ascii.N_of_ascii a) (Ascii.N_of_ascii c)); auto; try lia;
    destruct (N.ltb_spec (Ascii.N_of_ascii b) (Ascii.N_of_ascii a)),
      (N.ltb_spec (Ascii.N_of_ascii c) (Ascii.N_of_ascii b)),
      (N.ltb_spec (Ascii.N_of_ascii c) (Ascii.N_of_ascii a)); auto; try done; try lia; apply IH.
Qed.

(** ** Stable sort by a key: `l.sort(key=...)` *)

Section sort.
Context {A K : Type} (key : A -> K) (leb : K -> K -> bool) `{!BoolOrder leb}.

Definition key_le (x y : A) : Prop := leb (key x) (key y) = true.

Fixpoint insert_sorted (x : A) (l : list A) : list A :=
  match l with
  | [] => [x]
  | y :: l => if leb (key x) (key y) then x :: y :: l else y :: insert_sorted x l
  end.

Definition sort_by (l : list A) : list A := foldr insert_sorted [] l.

Lemma insert_sorted_perm x l : insert_sorted x l ≡ₚ x :: l.
Proof.
  induction l as [|y l IH]; cbn; [done|].
  destruct (leb (key x) (key y)); [done|]. rewrite IH. apply Permutation_swap.
Qed.

Lemma sort_by_perm l : sort_by l ≡ₚ l.
Proof. induction l as [|x l IH]; cbn; [done|]. by rewrite insert_sorted_perm, IH. Qed.

Lemma insert_sorted_sorted x l : StronglySorted key_le l -> StronglySorted key_le (insert_sorted x l).
Proof.
  induction 1 as [|y l Hs IH Hy]; cbn; [repeat constructor|].
  destruct (leb (key x) (key y)) eqn:E.
  - constructor; [by constructor|]. constructor; [done|].
    eapply Forall_impl; [exact Hy|]. intros z. unfold key_le. by apply bo_trans.
  - constructor; [done|]. rewrite insert_sorted_perm. constructor; [|done].
    unfold key_le. destruct (bo_total (key x) (key y)); congruence.
Qed.

Lemma sort_by_sorted l : StronglySorted key_le (sort_by l).
Proof. induction l as [|x l IH]; cbn; [constructor|]. by apply insert_sorted_sorted. Qed.

(** `min(heap)` and the heap without it; the first of equal elements. *)
Fixpoint pop_min (x : A) (l : list A) : A * list A :=
  match l with
  | [] => (x, [])
  | y :: l =>
      let '(m, rest) := pop_min y l in
      if leb (key x) (key m) then (x, m :: rest) else (m, x :: rest)
  end.

Lemma pop_min_perm x l m rest : pop_min x l = (m, rest) -> m :: rest ≡ₚ x :: l.
Proof.
  revert x m rest. induction l as [|y l IH]; cbn; intros x m rest; [by intros [= <- <-]|].
  destruct (pop_min y l) as [m' rest'] eqn:E. specialize (IH _ _ _ E).
  destruct (leb (key x) (key m')); intros [= <- <-].
  - by rewrite IH.
  - rewrite <- IH. apply Permutation_swap.
Qed.

Lemma pop_min_least x l m rest : pop_min x l = (m, rest) -> Forall (key_le m) (x :: l).
Proof.
  revert x m rest. induction l as [|y l IH]; cbn; intros x m rest.
  { intros [= <- <-]. constructor; [apply (bo_refl leb)|constructor]. }
  destruct (pop_min y l) as [m' rest'] eqn:E. specialize (IH _ _ _ E).
  destruct (leb (key x) (key m')) eqn:Ex; intros [= <- <-]; constructor.
  - apply (bo_refl leb).
  - eapply Forall_impl; [exact IH|]. intros z. unfold key_le. by apply bo_trans.
  - unfold key_le. destruct (bo_total (key x) (key m')); congruence.
  - exact IH.
Qed.
End sort.

(** ** Grouping by key in first-appearance order: `groups.setdefault(k, [])` *)

Section groups.
Context {A K : Type} `{EqDecision K} (key : A -> K).

Fixpoint group_add (k : K) (x : A) (groups : list (K * list A)) : list (K * list A) :=
  match groups with
  | [] => [(k, [x])]
  | (k', l) :: groups =>
      if decide (k = k') then (k', l ++ [x]) :: groups else (k', l) :: group_add k x groups
  end.

Definition group_by (l : list A) : list (K * list A) :=
  foldl (fun groups x => group_add (key x) x groups) [] l.

Definition grouped (l : list A) (groups : list (K * list A)) : Prop :=
  NoDup groups.*1
  /\ Forall (fun '(k, g) => g <> [] /\ g = filter (fun x => key x = k) l) groups
  /\ concat groups.*2 ≡ₚ l.

Lemma group_add_fst k x groups :
  (k ∈ groups.*1 /\ (group_add k x groups).*1 = groups.*1)
  \/ (k ∉ groups.*1 /\ (group_add k x groups).*1 = groups.*1 ++ [k]).
Proof.
  induction groups as [|[k' l] groups IH]; cbn.
  - right. split; [apply not_elem_of_nil|done].
  - destruct (decide (k = k')) as [->|Hne]; cbn.
    + left. split; [by left|done].
    + destruct IH as [[Hin ->]|[Hin ->]]; [left|right]; (split; [|done]); set_solver.
Qed.

Lemma group_add_concat k x groups : concat (group_add k x groups).*2 ≡ₚ concat groups.*2 ++ [x].
Proof.
  induction groups as [|[k' l] groups IH]; cbn; [done|].
  destruct (decide (k = k')); cbn; [|by rewrite IH, app_assoc].
  rewrite <- !app_assoc. apply Permutation_app_head. cbn. by rewrite Permutation_app_comm.
Qed.

Lemma group_add_elem k x groups k' g :
  NoDup groups.*1 -> (k', g) ∈ group_add k x groups ->
  (k' = k /\ ((g = [x] /\ k ∉ groups.*1) \/ exists g0, (k, g0) ∈ groups /\ g = g0 ++ [x]))
  \/ (k' <> k /\ (k', g) ∈ groups).
Proof.
  induction groups as [|[k0 l] groups IH]; cbn; intros Hnd Hin.
  - apply list_elem_of_singleton in Hin as [= -> ->]. left. split; [done|]. left.
    split; [done|apply not_elem_of_nil].
  - inversion_clear Hnd as [|? ? Hk0 Hnd'].
    destruct (decide (k = k0)) as [->|Hne].
    + apply elem_of_cons in Hin as [[= -> ->]|Hin].
      * left. split; [done|]. right. exists l. split; [by left|done].
      * right. split; [|by right]. intros ->. apply Hk0.
        apply list_elem_of_fmap. by exists (k0, g).
    + apply elem_of_cons in Hin as [[= -> ->]|Hin]; [right; split; [done|by left]|].
      destruct (IH Hnd' Hin) as [[-> [[-> Hk]|(g0 & Hg & ->)]]|[Hk Hg]].
      * left. split; [done|]. left. split; [done|]. set_solver.
      * left. split; [done|]. right. exists g0. split; [by right|done].
      * right. split; [done|by right].
Qed.

Lemma group_by_grouped l : grouped l (group_by l).
Proof.
  unfold group_by. induction l as [|x l IH] using rev_ind.
  { split; [constructor|]. split; [constructor|done]. }
  rewrite foldl_app. cbn. set (groups := foldl _ [] l) in *.
  destruct IH as (Hnd & Hg & Hperm). split_and!.
  - destruct (group_add_fst (key x) x groups) as [[_ ->]|[Hin ->]]; [done|].
    apply NoDup_app. split; [done|]. split; [set_solver|apply NoDup_singleton].
  - apply Forall_forall. intros [k g] Hin. rewrite Forall_forall in Hg.
    rewrite filter_app, filter_cons, filter_nil.
    apply group_add_elem in Hin as [[-> Hc]|[Hk Hin]]; [|..|done].
    + rewrite decide_True by done. destruct Hc as [[-> Hk]|(g0 & Hg0 & ->)].
      * split; [done|]. rewrite filter_none; [done|]. intros y Hy Hky. apply Hk.
        rewrite <- Hperm in Hy. apply list_elem_of_In, in_concat in Hy as (g & Hgs & Hyg).
        apply list_elem_of_In in Hgs, Hyg.
        apply list_elem_of_fmap in Hgs as ([k' g'] & -> & Hkg).
        destruct (Hg _ Hkg) as [_ ->]. cbn in Hyg. apply list_elem_of_filter in Hyg as [<- _].
        apply list_elem_of_fmap. exists (key y, filter (fun x0 => key x0 = key y) l).
        split; [done|]. by rewrite <- Hky in *.
      * destruct (Hg _ Hg0) as [_ ->]. split; [|done]. by destruct (filter _ l).
    + destruct (Hg _ Hin) as [Hne ->]. rewrite decide_False by congruence.
      by rewrite app_nil_r.
  - rewrite group_add_concat, Hperm. done.
Qed.
End groups.
