(* ===== verification/IsoTime.v ===== *)
(** * UTC ISO texts ([common/presentation_time.py], [common/api_time.py])

    The catalog stores the hour of a file as the ISO text of its instant in UTC
    and compares such texts.  [utc_iso_order] shows that the order of the texts is
    the order of the instants, with and without microseconds. *)

From S2P Require Import Prelude PyTime Ordering.

(** `datetime.isoformat()` of an instant in UTC, as code points. *)
Definition iso_points (u : Z) : list Z :=
  let f := fields_of u in
  let micro := u mod US_PER_SECOND in
  zpad 4 (f_year f) ++ 45 :: zpad 2 (f_month f) ++ 45 :: zpad 2 (f_day f) ++ 84 :: zpad 2 (f_hour f) ++ 58 :: zpad 2 (f_minute f)
  ++ 58 :: zpad 2 (f_second f) ++ (if micro =? 0 then [] else 46 :: zpad 6 micro) ++ [43; 48; 48; 58; 48; 48].

(** [utc_iso] of an instant; [utc_instant] of [PyTime] reads a naive BSON date as
    UTC, as the source's does. *)
Definition utc_iso (u : Z) : string := String.string_of_list_byte (map byte_of_cp (iso_points u)).

Example utc_iso_hour : utc_iso (1792389600 * US_PER_SECOND) = "2026-10-19T06:00:00+00:00".
Proof. by vm_compute. Qed.

Example utc_iso_micro : utc_iso (- 1) = "1969-12-31T23:59:59.999999+00:00".
Proof. by vm_compute. Qed.

(** ** Order of texts *)

(** Comparison of lists of code points. *)
Fixpoint points_leb (l l' : list Z) : bool :=
  match l, l' with
  | [], _ => true
  | _ :: _, [] => false
  | a :: l, b :: l' => if a <? b then true else if b <? a then false else points_leb l l'
  end.

Definition ascii_points (l : list Z) : Prop := Forall (fun c => 0 <= c < 128) l.

Lemma ascii_of_point c : 0 <= c < 128 -> Ascii.N_of_ascii (Ascii.ascii_of_byte (byte_of_cp c)) = Z.to_N c.
Proof.
  intros Hc. assert (Hall : all_from 128 0 (fun c => N.eqb (Ascii.N_of_ascii (Ascii.ascii_of_byte (byte_of_cp c))) (Z.to_N c)) = true)
    by (vm_compute; reflexivity).
  apply N.eqb_eq. apply (all_from_spec _ _ _ Hall). lia.
Qed.

Lemma str_leb_points l l' : ascii_points l -> ascii_points l' ->
  str_leb (String.string_of_list_byte (map byte_of_cp l)) (String.string_of_list_byte (map byte_of_cp l')) = points_leb l l'.
Proof.
  intros Hl. revert l'. induction Hl as [|a l Ha Hl IH]; intros l' Hl'; [done|]. destruct Hl' as [|b l' Hb Hl']; [done|].
  unfold String.string_of_list_byte in *. cbn [map String.string_of_list_ascii str_leb points_leb]. rewrite !ascii_of_point by done. rewrite IH by done.
  replace (Z.to_N a <? Z.to_N b)%N with (a <? b) by (destruct (Z.ltb_spec a b), (N.ltb_spec (Z.to_N a) (Z.to_N b)); done || lia).
  replace (Z.to_N b <? Z.to_N a)%N with (b <? a) by (destruct (Z.ltb_spec b a), (N.ltb_spec (Z.to_N b) (Z.to_N a)); done || lia).
  done.
Qed.

(** A field decides unless it is the same in both. *)
Lemma points_leb_field w a b l l' : 0 <= a < 10 ^ Z.of_nat w -> 0 <= b < 10 ^ Z.of_nat w ->
  points_leb (zpad w a ++ l) (zpad w b ++ l') = if a <? b then true else if b <? a then false else points_leb l l'.
Proof.
  revert a b l l'. induction w as [|w IH]; intros a b l l' Ha Hb.
  - change (10 ^ Z.of_nat 0) with 1 in *. by replace b with a by lia; rewrite Z.ltb_irrefl.
  - rewrite Nat2Z.inj_succ, Z.pow_succ_r in Ha, Hb by lia. cbn [zpad]. rewrite <- !app_assoc, IH by (Z.to_euclidean_division_equations; lia).
    cbn [app points_leb]. pose proof (Z.div_mod a 10). pose proof (Z.div_mod b 10).
    pose proof (Z.mod_pos_bound a 10). pose proof (Z.mod_pos_bound b 10).
    destruct (Z.ltb_spec (a / 10) (b / 10)), (Z.ltb_spec (b / 10) (a / 10)), (Z.ltb_spec (48 + a mod 10) (48 + b mod 10)),
      (Z.ltb_spec (48 + b mod 10) (48 + a mod 10)), (Z.ltb_spec a b), (Z.ltb_spec b a); done || lia.
Qed.

Lemma points_leb_mark c l l' : points_leb (c :: l) (c :: l') = points_leb l l'.
Proof. cbn. by rewrite Z.ltb_irrefl. Qed.

(** ** The civil date grows with the day *)

(** Month and day of a day of the year as one number. *)
Definition day_code (leap : bool) (k : Z) : Z := let '(m, d) := month_day leap k in m * 32 + d.

Lemma day_code_step leap k : 0 <= k < 364 + b2z leap -> day_code leap k < day_code leap (k + 1).
Proof.
  assert (Hall : all_from 364 0 (fun k => day_code false k <? day_code false (k + 1))
    && all_from 365 0 (fun k => day_code true k <? day_code true (k + 1)) = true) by (vm_compute; reflexivity).
  apply andb_prop in Hall as [Hc Hl]. intros Hk. apply Z.ltb_lt.
  destruct leap; [apply (all_from_spec _ _ _ Hl)|apply (all_from_spec _ _ _ Hc)]; cbn in *; lia.
Qed.

Lemma day_code_mono leap k n : 0 <= k -> k + Z.of_nat n <= 364 + b2z leap -> day_code leap k <= day_code leap (k + Z.of_nat n).
Proof.
  intros Hk. induction n as [|n IH]; intros Hn; [by rewrite Z.add_0_r|].
  pose proof (day_code_step leap (k + Z.of_nat n)). replace (k + Z.of_nat (S n)) with (k + Z.of_nat n + 1) by lia. lia.
Qed.

(** The day of the year behind a civil date. *)
Lemma ymd_of_ord_year n y m d : ymd_of_ord n = (y, m, d) ->
  exists k, month_day (is_leap y) k = (m, d) /\ 0 <= k < 365 + b2z (is_leap y) /\ n = days_before_year y + k + 1.
Proof.
  unfold ymd_of_ord. cbn zeta.
  set (n400 := (n - 1) / 146097). set (r400 := (n - 1) mod 146097).
  set (n100 := r400 / 36524). set (r100 := r400 mod 36524).
  set (n4 := r100 / 1461). set (r4 := r100 mod 1461).
  set (n1 := r4 / 365). set (r1 := r4 mod 365).
  assert (Hn : n - 1 = n400 * 146097 + n100 * 36524 + n4 * 1461 + n1 * 365 + r1
    /\ 0 <= n100 <= 4 /\ 0 <= n4 <= 24 /\ 0 <= n1 <= 4 /\ 0 <= r1 < 365
    /\ (n100 = 4 -> n4 = 0 /\ n1 = 0 /\ r1 = 0) /\ (n1 = 4 -> r1 = 0) /\ (n4 = 24 -> n1 = 4 -> False)).
  { subst n1 r1 n4 r4 n100 r100 n400 r400. Z.to_euclidean_division_equations. lia. }
  clearbody n400 n100 n4 n1 r1. destruct Hn as (Hn & H100 & H4 & H1 & Hr & Hc100 & Hc1 & Hc4).
  destruct ((n1 =? 4) || (n100 =? 4)) eqn:E.
  - intros [= <- <- <-]. exists 365. apply orb_prop in E as [E|E]; apply Z.eqb_eq in E.
    + replace (n400 * 400 + 1 + n100 * 100 + n4 * 4 + n1 - 1) with (n400 * 400 + 1 + n100 * 100 + n4 * 4 + 3) by lia.
      rewrite is_leap_cycle, days_before_year_cycle by lia. replace (n4 =? 24) with false by lia. cbn. split_and!; [done|lia|lia|lia].
    + replace (n400 * 400 + 1 + n100 * 100 + n4 * 4 + n1 - 1) with (n400 * 400 + 1 + 3 * 100 + 24 * 4 + 3) by lia.
      rewrite is_leap_cycle, days_before_year_cycle by lia. cbn. split_and!; [done|lia|lia|lia].
  - breflect. destruct (month_day _ r1) as [m' d'] eqn:Em. intros [= <- <- <-]. exists r1.
    rewrite is_leap_cycle, days_before_year_cycle by lia. split_and!; [done|lia|destruct (_ && _); cbn; lia|lia].
Qed.

Lemma days_before_year_next y : days_before_year (y + 1) = days_before_year y + 365 + b2z (is_leap y).
Proof.
  unfold days_before_year, is_leap, b2z. replace (y + 1 - 1) with y by lia.
  destruct (y mod 4 =? 0) eqn:E4, (y mod 100 =? 0) eqn:E100, (y mod 400 =? 0) eqn:E400; cbn; breflect;
    Z.to_euclidean_division_equations; lia.
Qed.

Lemma days_before_year_mono y y' : y <= y' -> days_before_year y <= days_before_year y'.
Proof.
  intros Hy. replace y' with (y + Z.of_nat (Z.to_nat (y' - y))) by lia. induction (Z.to_nat (y' - y)) as [|n IH]; [by rewrite Z.add_0_r|].
  replace (y + Z.of_nat (S n)) with (y + Z.of_nat n + 1) by lia. rewrite days_before_year_next. unfold b2z. destruct (is_leap _); lia.
Qed.

(** An earlier day has an earlier date. *)
Lemma ymd_order n n' y m d y' m' d' : n < n' -> ymd_of_ord n = (y, m, d) -> ymd_of_ord n' = (y', m', d') ->
  y < y' \/ y = y' /\ (m < m' \/ m = m' /\ d < d').
Proof.
  intros Hn E E'. pose proof (ymd_of_ord_spec _ _ _ _ E) as (_ & Hm & Hd). pose proof (ymd_of_ord_spec _ _ _ _ E') as (_ & Hm' & Hd').
  apply ymd_of_ord_year in E as (k & Ek & Hk & ->). apply ymd_of_ord_year in E' as (k' & Ek' & Hk' & ->).
  destruct (Z.lt_trichotomy y y') as [Hy|[<-|Hy]]; [by left| |].
  - right. split; [done|]. assert (Hc : day_code (is_leap y) k < day_code (is_leap y) k').
    { pose proof (day_code_step (is_leap y) k). pose proof (day_code_mono (is_leap y) (k + 1) (Z.to_nat (k' - (k + 1)))) as Hmono.
      replace (k + 1 + Z.of_nat (Z.to_nat (k' - (k + 1)))) with k' in Hmono by lia. lia. }
    unfold day_code in Hc. rewrite Ek, Ek' in Hc. lia.
  - pose proof (days_before_year_mono (y' + 1) y). rewrite days_before_year_next in *. lia.
Qed.

(** ** The theorem *)

(** Instants of the years a [datetime] has. *)
Definition in_years (u : Z) : Prop := 0 <= f_year (fields_of u) < 10000.

Lemma fields_ranges u : let f := fields_of u in
  1 <= f_month f <= 12 /\ 1 <= f_day f <= 31 /\ 0 <= f_hour f < 24 /\ 0 <= f_minute f < 60 /\ 0 <= f_second f < 60.
Proof.
  unfold fields_of. destruct (civil_of_days (u / US_PER_DAY)) as [[y m] d] eqn:E. apply ymd_of_ord_spec in E as (_ & Hm & Hd). cbn.
  assert (0 <= (u mod US_PER_DAY) / US_PER_SECOND < 86400) by (unfold US_PER_DAY, US_PER_SECOND; Z.to_euclidean_division_equations; lia).
  split_and!; try lia; Z.to_euclidean_division_equations; lia.
Qed.

Lemma zpad_ascii w n : ascii_points (zpad w n).
Proof. eapply Forall_impl; [apply zpad_digits|]. cbn. lia. Qed.

Lemma iso_points_ascii u : ascii_points (iso_points u).
Proof.
  unfold iso_points, ascii_points. destruct (_ =? 0);
    repeat first [apply zpad_ascii|apply Forall_app_2|apply Forall_cons_2; [lia|]|apply Forall_nil_2].
Qed.

(** Hours, minutes and seconds of a second of the day. *)
Lemma clock_order s t : s < t ->
  s / 3600 < t / 3600 \/ s / 3600 = t / 3600 /\ (s / 60 mod 60 < t / 60 mod 60 \/ s / 60 mod 60 = t / 60 mod 60 /\ s mod 60 < t mod 60).
Proof.
  intros Hst. destruct (Z.lt_trichotomy (s / 60) (t / 60)) as [Hm|[Hm|Hm]].
  - assert (Hh : forall x, x / 3600 = x / 60 / 60) by (intros x; rewrite Zdiv_Zdiv by lia; done). rewrite !Hh.
    revert Hm. generalize (s / 60) (t / 60). intros a b Hab. Z.to_euclidean_division_equations. lia.
  - right. split; [|right; rewrite Hm; split; [done|]; Z.to_euclidean_division_equations; lia].
    assert (Hh : forall x, x / 3600 = x / 60 / 60) by (intros x; rewrite Zdiv_Zdiv by lia; done). by rewrite !Hh, Hm.
  - exfalso. Z.to_euclidean_division_equations. lia.
Qed.

(** The earlier instant has the lesser text. *)
Lemma iso_points_lt u v : in_years u -> in_years v -> u < v -> points_leb (iso_points u) (iso_points v) = true
  /\ points_leb (iso_points v) (iso_points u) = false.
Proof.
  unfold in_years. intros Hu Hv Huv. pose proof (fields_ranges u) as Ru. pose proof (fields_ranges v) as Rv. unfold iso_points. cbn zeta in *.
  assert (Hlex : let f := fields_of u in let g := fields_of v in
    f_year f < f_year g \/ f_year f = f_year g /\ (f_month f < f_month g \/ f_month f = f_month g /\ (f_day f < f_day g \/ f_day f = f_day g
    /\ (f_hour f < f_hour g \/ f_hour f = f_hour g /\ (f_minute f < f_minute g \/ f_minute f = f_minute g
    /\ (f_second f < f_second g \/ f_second f = f_second g /\ u mod US_PER_SECOND < v mod US_PER_SECOND)))))).
  { unfold fields_of. destruct (civil_of_days (u / US_PER_DAY)) as [[y m] d] eqn:E. destruct (civil_of_days (v / US_PER_DAY)) as [[y' m'] d'] eqn:E'. cbn.
    destruct (Z.lt_trichotomy (u / US_PER_DAY) (v / US_PER_DAY)) as [Hd|[Hd|Hd]].
    - unfold civil_of_days in *. assert (Hs : u / US_PER_DAY + 719163 < v / US_PER_DAY + 719163) by lia. pose proof (ymd_order _ _ _ _ _ _ _ _ Hs E E'). lia.
    - rewrite Hd, E' in E. injection E as -> -> ->. right. split; [done|]. right. split; [done|]. right. split; [done|].
      assert (Hmod : u mod US_PER_DAY < v mod US_PER_DAY) by (pose proof (Z.div_mod u US_PER_DAY ltac:(done)); pose proof (Z.div_mod v US_PER_DAY ltac:(done)); rewrite Hd in *; lia).
      assert (Hsub : forall x, x mod US_PER_SECOND = (x mod US_PER_DAY) mod US_PER_SECOND)
        by (intros x; symmetry; apply Z.mod_mod_divide; by exists 86400).
      rewrite (Hsub u), (Hsub v). revert Hmod. generalize (u mod US_PER_DAY) (v mod US_PER_DAY). intros a b Hab.
      destruct (Z.lt_trichotomy (a / US_PER_SECOND) (b / US_PER_SECOND)) as [Hs|[Hs|Hs]].
      + pose proof (clock_order _ _ Hs). lia.
      + rewrite Hs. right. split; [done|]. right. split; [done|]. right. split; [done|].
        pose proof (Z.div_mod a US_PER_SECOND ltac:(done)). pose proof (Z.div_mod b US_PER_SECOND ltac:(done)). rewrite Hs in *. lia.
      + exfalso. pose proof (Z.div_le_mono a b US_PER_SECOND ltac:(done)). lia.
    - exfalso. pose proof (Z.div_le_mono u v US_PER_DAY ltac:(done)). lia. }
  cbn zeta in Hlex. set (f := fields_of u) in *. set (g := fields_of v) in *.
  assert (Hmu : 0 <= u mod US_PER_SECOND < 1000000 /\ 0 <= v mod US_PER_SECOND < 1000000) by (split; apply Z.mod_pos_bound; done).
  set (mu := u mod US_PER_SECOND) in *. set (mv := v mod US_PER_SECOND) in *. clearbody f g mu mv.
  repeat (rewrite points_leb_field by (cbn; lia); rewrite ?points_leb_mark).
  destruct (Z.ltb_spec (f_year f) (f_year g)), (Z.ltb_spec (f_year g) (f_year f)); try (split; done || lia).
  destruct (Z.ltb_spec (f_month f) (f_month g)), (Z.ltb_spec (f_month g) (f_month f)); try (split; done || lia).
  destruct (Z.ltb_spec (f_day f) (f_day g)), (Z.ltb_spec (f_day g) (f_day f)); try (split; done || lia).
  destruct (Z.ltb_spec (f_hour f) (f_hour g)), (Z.ltb_spec (f_hour g) (f_hour f)); try (split; done || lia).
  destruct (Z.ltb_spec (f_minute f) (f_minute g)), (Z.ltb_spec (f_minute g) (f_minute f)); try (split; done || lia).
  destruct (Z.ltb_spec (f_second f) (f_second g)), (Z.ltb_spec (f_second g) (f_second f)); try (split; done || lia).
  assert (Hm : mu < mv) by lia. destruct (Z.eqb_spec mu 0), (Z.eqb_spec mv 0); try lia.
  - done.
  - cbn [app]. rewrite !points_leb_mark, !points_leb_field by (cbn; lia).
    destruct (Z.ltb_spec mu mv), (Z.ltb_spec mv mu); done || lia.
Qed.

(** C30: the texts of instants in UTC are ordered like the instants, whether or not
    they carry microseconds, for all years a date can have: comparing the stored
    hour of a file with the text of a limit decides what comparing the instants
    would decide. *)
Theorem utc_iso_order u v : in_years u -> in_years v -> str_leb (utc_iso u) (utc_iso v) = (u <=? v).
Proof.
  intros Hu Hv. unfold utc_iso. rewrite str_leb_points by apply iso_points_ascii.
  destruct (Z.lt_trichotomy u v) as [Huv|[<-|Huv]].
  - rewrite (proj1 (iso_points_lt u v Hu Hv Huv)). symmetry. apply Z.leb_le. lia.
  - rewrite Z.leb_refl. rewrite <- str_leb_points by apply iso_points_ascii. apply bo_refl, _.
  - rewrite (proj2 (iso_points_lt v u Hv Hu Huv)). symmetry. apply Z.leb_gt. lia.
Qed.

Lemma utc_iso_order_witness : in_years 0 /\ str_leb (utc_iso 0) (utc_iso 1) = (0 <=? 1).
Proof. split; [unfold in_years; vm_compute; split; discriminate || reflexivity|]. apply utc_iso_order; unfold in_years; vm_compute; split; discriminate || reflexivity. Defined.
