(* ===== verification/CoreScan.v ===== *)
(** * Scanning for core dumps ([coredumps/scanner.py])

    A Worker walks the directory of each device, at most two levels deep, and keeps
    the least names after its cursor with a heap of bounded size.  A name is the list
    of its code points.  Devices write their directories over NFS; a directory is a
    tree whose entries come in any order. *)

From S2P Require Import Prelude PyTime PyValue Ordering IsoTime.
Open Scope camera_scope.

(** ** The walk *)

Abbreviation name := (list Z).

(** `os.stat_result` of a regular file that is not a hard link. *)
Record info := Info { st_dev : Z; st_ino : Z; st_size : Z; st_mtime_ns : Z; st_ctime_ns : Z }.

#[global] Instance info_eq_dec : EqDecision info.
Proof. solve_decision. Defined.

Inductive entry : Type :=
  | Regular (stat : info)
  | Unsafe                                  (* a hard link or a file that has gone *)
  | Symlink
  | Special
  | Directory (readable : bool) (entries : list (name * entry)).

Definition SLASH : Z := 47.
Definition snapshots_name : name := [46; 115; 110; 97; 112; 115; 104; 111; 116; 115].
Definition flag_name : name := [99; 111; 114; 101; 100; 117; 109; 112; 95; 102; 108; 97; 103; 46; 99; 100; 102].

(** `str.lower()` on the letters of ASCII. *)
Definition lower (n : name) : name := map (fun c => if (65 <=? c) && (c <=? 90) then c + 32 else c) n.

Definition point_eqb (a b : name) : bool := bool_decide (a = b).

(** An entry of a directory at a depth: the files it holds, with their names
    relative to the root.  Listing a directory may fail at the start or stop
    half-way; the entries are those that were listed. *)
Fixpoint entry_files (depth : nat) (prefix : name) (n : name) (e : entry) : list (name * info) :=
  if point_eqb n snapshots_name then []
  else match e with
    | Symlink | Special | Unsafe => []
    | Directory readable inner =>
        if (depth <? 2)%nat && readable then flat_map (fun '(m, e) => entry_files (S depth) (prefix ++ n ++ [SLASH]) m e) inner else []
    | Regular stat => if point_eqb (lower n) flag_name then [] else [(prefix ++ n, stat)]
    end.

(** The files below the root, in the order in which they are met. *)
Definition walk (root : list (name * entry)) : list (name * info) := flat_map (fun '(n, e) => entry_files 0 [] n e) root.

(** ** The bounded selection *)

(** `"".join(chr(0x10FFFF - ord(char)) for char in relative)` *)
Definition inverted (n : name) : name := map (fun c => 1114111 - c) n.

Abbreviation candidate := (name * info)%type.
Definition inverted_of (c : candidate) : name := inverted c.1.

(** `values[0]`, the least candidate of the heap, and the others. *)
Definition heap_least (heap : list candidate) : option (candidate * list candidate) :=
  match heap with [] => None | c :: heap => Some (pop_min inverted_of points_leb c heap) end.

(** One candidate: `heappush` while there is room, else `heapreplace` of the least if
    the candidate is greater.  An empty heap that is full would raise; [limit] is
    positive where the source calls it. *)
Definition offer (limit : nat) (heap : list candidate) (c : candidate) : list candidate :=
  if (length heap <? limit)%nat then heap ++ [c]
  else match heap_least heap with
       | Some (least, others) => if negb (points_leb (inverted_of c) (inverted_of least)) then others ++ [c] else heap
       | None => heap
       end.

(** Names after the cursor. *)
Definition past (after : name) (c : candidate) : bool := negb (points_leb c.1 after).

Definition select (limit : nat) (after : name) (files : list candidate) : list candidate :=
  sort_by fst points_leb (foldl (offer limit) [] (filter (fun c => past after c = true) files)).

(** A device as the scanner reads it: its id, and its directory unless there is none
    or it is not a directory below the root. *)
Record device := Device { d_id : name; d_root : option (list (name * entry)) }.

Definition device_files (d : device) : list candidate := match d_root d with Some root => walk root | None => [] end.

Definition _scan_directory (d : device) (after : name) (limit : nat) : list candidate := select limit after (device_files d).

(** The reference: the least names after the cursor, in order. *)
Definition after_sorted (after : name) (files : list candidate) : list candidate :=
  sort_by fst points_leb (filter (fun c => past after c = true) files).

Definition least_after (limit : nat) (after : name) (files : list candidate) : list candidate :=
  take limit (after_sorted after files).

(** ** One round: `scan_once` up to the writes *)

(** `cursor.partition("\x00")` *)
Fixpoint partition_nul (cursor : name) : name * name :=
  match cursor with
  | [] => ([], [])
  | c :: cursor => if c =? 0 then ([], cursor) else let '(r, n) := partition_nul cursor in (c :: r, n)
  end.

Definition _token (resource_id n : name) : name := resource_id ++ 0 :: n.

Abbreviation found := (name * candidate)%type.

(** The first index at which the predicate holds, else 0. *)
Fixpoint first_index (p : device -> bool) (ds : list device) : option nat :=
  match ds with
  | [] => None
  | d :: ds => if p d then Some 0%nat else option_map S (first_index p ds)
  end.

(** The loop over the resources from the pivot: what is found, what remains of the
    quota, and whether the cursor's resource had entries. *)
Fixpoint sweep (cr cn : name) (remaining : nat) (ds : list device) : list found * nat * bool :=
  match ds with
  | [] => ([], remaining, false)
  | d :: ds =>
      if (remaining =? 0)%nat then ([], remaining, false)
      else
        let entries := _scan_directory d (if point_eqb cr (d_id d) then cn else []) remaining in
        let '(discovered, rest, seen) := sweep cr cn (remaining - length entries) ds in
        (map (pair (d_id d)) entries ++ discovered, rest,
         (point_eqb (d_id d) cr && negb (length entries =? 0)%nat) || seen)
  end.

Definition scan_selection (limit : nat) (resources : list device) (cursor : name) : list found :=
  let ordered := sort_by d_id points_leb resources in
  let '(cr, cn) := partition_nul cursor in
  let pivot := default 0%nat (first_index (fun d => points_leb cr (d_id d)) ordered) in
  let '(discovered, remaining, seen) := sweep cr cn limit (drop pivot ordered ++ take pivot ordered) in
  let wrapped :=
    match find (fun d => point_eqb (d_id d) cr) ordered with
    | Some d => if negb (remaining =? 0)%nat && negb (point_eqb cr []) && negb seen
                then map (pair cr) (filter (fun c => points_leb c.1 cn = true) (_scan_directory d [] remaining)) else []
    | None => []
    end in
  take limit (discovered ++ wrapped).

(** The cursor after a round that selected something. *)
Definition next_cursor (cursor : name) (selected : list found) : name :=
  match last selected with Some (r, (n, _)) => _token r n | None => cursor end.

(** Two names and room for one: the shorter name is taken for the greater one and
    dropped, since it is a prefix of the other. *)
Definition core : name := [99; 111; 114; 101].
Definition core_1 : name := core ++ [46; 49].
Definition stat0 : info := Info 1 1 1 1 1.
Definition two_cores : device := Device [100] (Some [(core, Regular stat0); (core_1, Regular stat0)]).

Example prefix_dropped :
  map fst (_scan_directory two_cores [] 1) = [core_1] /\ map fst (least_after 1 [] (device_files two_cores)) = [core].
Proof. by split; vm_compute. Qed.

(** ** The heap keeps the least names *)

#[global] Instance points_leb_order : BoolOrder points_leb.
Proof.
  split.
  - intros x. induction x as [|a x IH]; intros [|b y]; cbn; auto.
    destruct (Z.ltb_spec a b); auto. destruct (Z.ltb_spec b a); auto.
  - intros x. induction x as [|a x IH]; intros [|b y] [|c z]; cbn; auto; try done.
    destruct (Z.ltb_spec a b), (Z.ltb_spec b c), (Z.ltb_spec a c); auto; try lia;
      destruct (Z.ltb_spec b a), (Z.ltb_spec c b), (Z.ltb_spec c a); auto; try done; try lia; apply IH.
Qed.

Lemma points_leb_antisym a b : points_leb a b = true -> points_leb b a = true -> a = b.
Proof.
  revert b. induction a as [|x a IH]; intros [|y b]; cbn; try done.
  destruct (Z.ltb_spec x y), (Z.ltb_spec y x); try done; try lia. intros. f_equal; [lia|auto].
Qed.

Definition apart (a b : name) : Prop := a `prefix_of` b -> a = b.

(** Inversion turns the order around, except between a name and its prefixes. *)
Lemma inverted_leb a b : apart a b -> apart b a -> points_leb (inverted a) (inverted b) = points_leb b a.
Proof.
  revert b. induction a as [|x a IH]; intros [|y b] Ha Hb; cbn [inverted map points_leb]; try done.
  - discriminate Ha. apply prefix_nil.
  - discriminate Hb. apply prefix_nil.
  - destruct (Z.ltb_spec (1114111 - x) (1114111 - y)), (Z.ltb_spec y x); try done; try lia.
    destruct (Z.ltb_spec (1114111 - y) (1114111 - x)), (Z.ltb_spec x y); try done; try lia.
    assert (x = y) as -> by lia. apply IH.
    + intros Hp. enough (y :: a = y :: b) by congruence. by apply Ha, prefix_cons.
    + intros Hp. enough (y :: b = y :: a) by congruence. by apply Hb, prefix_cons.
Qed.

(** No name is a proper prefix of another. *)
Definition prefix_free (files : list candidate) : Prop := forall x y, x ∈ files -> y ∈ files -> apart x.1 y.1.

Lemma sorted_unique (l k : list candidate) : NoDup (map fst l) -> StronglySorted (key_le fst points_leb) l ->
  StronglySorted (key_le fst points_leb) k -> l ≡ₚ k -> l = k.
Proof.
  intros Hn Hl Hk Hp. eapply StronglySorted_unique_strong; [|exact Hl|exact Hk|exact Hp].
  intros x y Hx Hy Hxy Hyx. rewrite <- Hp in Hy.
  assert (E : x.1 = y.1) by by apply points_leb_antisym. clear -Hn Hx Hy E.
  induction l as [|z l IH]; [by apply elem_of_nil in Hx|]. cbn in Hn. apply NoDup_cons in Hn as [Hz Hn].
  apply elem_of_cons in Hx as [->|Hx], Hy as [->|Hy]; [done| | |by apply IH].
  - destruct Hz. rewrite E. by apply list_elem_of_fmap_2.
  - destruct Hz. rewrite <- E. by apply list_elem_of_fmap_2.
Qed.

(** What a heap of bounded size knows of the candidates it was offered. *)
Record keeps (limit : nat) (offered heap dropped : list candidate) : Prop := {
  keeps_perm : heap ++ dropped ≡ₚ offered;
  keeps_size : (length heap <= limit)%nat;
  keeps_full : dropped <> [] -> length heap = limit;
  keeps_least : forall x y, x ∈ heap -> y ∈ dropped -> points_leb x.1 y.1 = true }.

Lemma offer_keeps limit offered heap dropped c : (0 < limit)%nat -> prefix_free (offered ++ [c]) -> keeps limit offered heap dropped ->
  exists dropped', keeps limit (offered ++ [c]) (offer limit heap c) dropped'.
Proof.
  intros Hlim Hfree [Hp Hs Hf Hl]. unfold offer. destruct (Nat.ltb_spec (length heap) limit) as [Hlt|Hge].
  { destruct dropped as [|y dropped]; [|rewrite Hf in Hlt by done; lia]. exists []. split.
    - by rewrite app_nil_r, <- Hp, app_nil_r.
    - rewrite length_app. cbn. lia.
    - done.
    - intros x y _ Hy. by apply elem_of_nil in Hy. }
  destruct heap as [|h heap]; [cbn in *; lia|]. unfold heap_least.
  destruct (pop_min inverted_of points_leb h heap) as [m rest] eqn:E.
  pose proof (pop_min_perm _ _ _ _ _ _ E) as Pm. pose proof (pop_min_least _ _ _ _ _ _ E) as Hm.
  assert (Hin : forall x, x ∈ h :: heap -> x ∈ offered ++ [c]).
  { intros x Hx. apply elem_of_app. left. rewrite <- Hp. by apply elem_of_app; left. }
  assert (Hc : c ∈ offered ++ [c]) by (apply elem_of_app; right; apply list_elem_of_here).
  assert (Hmin : m ∈ h :: heap) by (rewrite <- Pm; apply list_elem_of_here).
  assert (Hrev : forall x y, x ∈ offered ++ [c] -> y ∈ offered ++ [c] ->
    points_leb (inverted_of x) (inverted_of y) = points_leb y.1 x.1).
  { intros x y Hx Hy. apply inverted_leb; by apply Hfree. }
  assert (Hmax : forall x, x ∈ h :: heap -> points_leb x.1 m.1 = true).
  { intros x Hx. rewrite <- Hrev by auto. rewrite Forall_forall in Hm. by apply Hm. }
  rewrite Hrev by auto. destruct (points_leb m.1 c.1) eqn:Emc; cbn [negb].
  - exists (c :: dropped). split.
    + rewrite <- Hp. rewrite <- app_assoc. apply Permutation_app_head. apply Permutation_cons_append.
    + done.
    + intros _. lia.
    + intros x y Hx [->|Hy]%elem_of_cons; [|by apply Hl]. eapply bo_trans; [by apply Hmax|done].
  - exists (m :: dropped). split.
    + rewrite <- Hp, <- Pm. rewrite (Permutation_app_comm rest [c]). cbn. rewrite <- Permutation_middle, Permutation_swap.
      constructor. rewrite app_comm_cons. apply (Permutation_app_comm [c]).
    + apply Permutation_length in Pm. rewrite length_app. cbn in *. lia.
    + intros _. apply Permutation_length in Pm. rewrite length_app. cbn in *. lia.
    + assert (Hcm : points_leb c.1 m.1 = true) by (destruct (bo_total c.1 m.1); congruence).
      assert (Hrest : forall x, x ∈ rest -> x ∈ h :: heap) by (intros x Hx; rewrite <- Pm; by apply list_elem_of_further).
      intros x y Hx Hy. apply elem_of_app in Hx as [Hx|Hx]; [|apply list_elem_of_singleton in Hx as ->];
        apply elem_of_cons in Hy as [->|Hy]; auto.
      eapply bo_trans; [exact Hcm|]. by apply Hl.
Qed.

Lemma foldl_keeps limit files offered heap dropped : (0 < limit)%nat -> prefix_free (offered ++ files) ->
  keeps limit offered heap dropped -> exists dropped', keeps limit (offered ++ files) (foldl (offer limit) heap files) dropped'.
Proof.
  intros Hlim. revert offered heap dropped. induction files as [|c files IH]; intros offered heap dropped Hfree Hk.
  { exists dropped. by rewrite app_nil_r. }
  replace (offered ++ c :: files) with ((offered ++ [c]) ++ files) in * by by rewrite <- app_assoc.
  destruct (offer_keeps limit offered heap dropped c) as [dropped' Hk']; [done| |done|by eapply IH].
  intros x y Hx Hy. apply Hfree; by apply elem_of_app; left.
Qed.

Lemma filter_nodup_fst after (files : list candidate) : NoDup (map fst files) -> NoDup (map fst (filter (fun c => past after c = true) files)).
Proof.
  induction files as [|c files IH]; [done|]. cbn [map]. intros [Hc Hn]%NoDup_cons. rewrite filter_cons. case_decide; [|auto].
  cbn [map]. apply NoDup_cons. split; [|auto]. intros (x & E & [_ Hx]%list_elem_of_filter)%list_elem_of_fmap.
  destruct Hc. rewrite E. by apply list_elem_of_fmap_2.
Qed.

(** ** The selection is the reference *)
Lemma select_least limit after (files : list candidate) : (0 < limit)%nat -> NoDup (map fst files) -> prefix_free files ->
  select limit after files = least_after limit after files.
Proof.
  intros Hlim Hn Hfree. unfold select, least_after, after_sorted. apply (filter_nodup_fst after) in Hn.
  assert (Hfree' : prefix_free (filter (fun c => past after c = true) files)).
  { intros x y [_ Hx]%list_elem_of_filter [_ Hy]%list_elem_of_filter. by apply Hfree. }
  set (kept := filter _ files) in *. destruct (foldl_keeps limit kept [] [] []) as [dropped [Hp Hs Hf Hl]]; [done|done| |].
  { split; [done|cbn; lia|done|]. intros x y Hx. by apply elem_of_nil in Hx. }
  cbn [app] in *. set (heap := foldl _ _ _) in *.
  assert (E : sort_by fst points_leb heap ++ sort_by fst points_leb dropped = sort_by fst points_leb kept).
  { symmetry. apply sorted_unique.
    - by rewrite (Permutation_map fst (sort_by_perm _ _ kept)).
    - apply sort_by_sorted. apply _.
    - apply StronglySorted_app. split; [|split; apply sort_by_sorted; apply _].
      intros x y Hx Hy. rewrite !sort_by_perm in Hx, Hy. by apply Hl.
    - by rewrite !sort_by_perm. }
  rewrite <- E. destruct dropped as [|d dropped].
  - cbn. rewrite app_nil_r, take_ge; [done|]. by rewrite sort_by_perm.
  - rewrite take_app_length'; [done|]. rewrite sort_by_perm. symmetry. by apply Hf.
Qed.

(** ** Positions: a resource and a name *)

Abbreviation position := (name * name)%type.

Definition pos_leb : position -> position -> bool := pair_leb points_leb points_leb.
Definition pos_lt (p q : position) : Prop := pos_leb q p = false.
Definition pos (f : found) : position := (f.1, f.2.1).

#[global] Instance pos_lt_dec p q : Decision (pos_lt p q).
Proof. unfold pos_lt. apply _. Defined.

Lemma pos_leb_antisym p q : pos_leb p q = true -> pos_leb q p = true -> p = q.
Proof.
  destruct p as [r n], q as [r' n']. unfold pos_leb, pair_leb. cbn. intros [H1 H2]%andb_prop [H3 H4]%andb_prop.
  rewrite H3 in H2. rewrite H1 in H4. f_equal; by apply points_leb_antisym.
Qed.

Lemma pos_lt_leb p q : pos_lt p q -> pos_leb p q = true.
Proof. unfold pos_lt. destruct (bo_total (leb := pos_leb) p q); congruence. Qed.

Lemma pos_leb_cases p q : pos_leb p q = true -> p = q \/ pos_lt p q.
Proof. intros Hle. unfold pos_lt. destruct (pos_leb q p) eqn:E; [left; by apply pos_leb_antisym|by right]. Qed.

Lemma pos_le_lt p q r : pos_leb p q = true -> pos_lt q r -> pos_lt p r.
Proof. unfold pos_lt. intros Hpq Hqr. destruct (pos_leb r p) eqn:E; [|done]. by rewrite (bo_trans (leb := pos_leb) r p q) in Hqr. Qed.

#[global] Instance pos_lt_strict : StrictOrder pos_lt.
Proof.
  split.
  - intros p Hp. unfold pos_lt in Hp. by rewrite (bo_refl pos_leb) in Hp.
  - intros p q r Hp Hq. eapply pos_le_lt; [by apply pos_lt_leb|done].
Qed.

(** Positions before a cursor's resource, in it and after it. *)
Lemma pos_lt_resource r n r' n' : points_leb r' r = false -> pos_lt (r, n) (r', n').
Proof. intros E. unfold pos_lt, pos_leb, pair_leb. cbn. by rewrite E. Qed.

Lemma pos_leb_same r n n' : pos_leb (r, n) (r, n') = points_leb n n'.
Proof. unfold pos_leb, pair_leb. cbn. by rewrite (bo_refl points_leb). Qed.

(** ** One round is a prefix of the rotation *)

Definition ids (ds : list device) : list name := map d_id ds.

Definition all_found (ds : list device) : list found := flat_map (fun d => map (pair (d_id d)) (device_files d)) ds.

(** What the loop would find with an unbounded quota. *)
Definition cursor_for (cr cn : name) (d : device) : name := if point_eqb cr (d_id d) then cn else [].

Definition following (cr cn : name) (ds : list device) : list found :=
  flat_map (fun d => map (pair (d_id d)) (after_sorted (cursor_for cr cn d) (device_files d))) ds.

(** A directory in which the selection is exact: distinct names that are not empty,
    none a proper prefix of another. *)
Record tidy (d : device) : Prop := {
  tidy_id : d_id d <> [] /\ 0 ∉ d_id d;
  tidy_names : NoDup (map fst (device_files d));
  tidy_filled : [] ∉ map fst (device_files d);
  tidy_prefix : prefix_free (device_files d) }.

Lemma point_eqb_spec a b : reflect (a = b) (point_eqb a b).
Proof. unfold point_eqb. apply bool_decide_reflect. Qed.

Lemma sweep_take cr cn remaining ds : Forall tidy ds ->
  (sweep cr cn remaining ds).1.1 = take remaining (following cr cn ds)
  /\ (sweep cr cn remaining ds).1.2 = (remaining - length (following cr cn ds))%nat.
Proof.
  intros Ht. revert remaining. induction Ht as [|d ds Hd _ IH]; intros remaining; cbn [sweep following flat_map].
  { rewrite take_nil. cbn. split; [done|lia]. }
  destruct (Nat.eqb_spec remaining 0) as [->|Hr]; [by rewrite take_0|]. unfold _scan_directory.
  rewrite select_least by (apply Hd || lia). unfold least_after. fold (cursor_for cr cn d).
  set (l := after_sorted _ _). specialize (IH (remaining - length (take remaining l))%nat).
  destruct (sweep _ _ _ ds) as [[discovered rest] seen]. cbn [fst snd] in *. fold (following cr cn ds).
  destruct IH as [-> ->]. rewrite length_app, length_map, take_app, length_map, length_take. split.
  - f_equal; [|f_equal; lia]. by rewrite <- fmap_take.
  - lia.
Qed.

Lemma sweep_not_seen cr cn remaining ds : cr ∉ ids ds -> (sweep cr cn remaining ds).2 = false.
Proof.
  revert remaining. induction ds as [|d ds IH]; intros remaining Hn; cbn [sweep]; [done|].
  destruct (remaining =? 0)%nat; [done|]. apply not_elem_of_cons in Hn as [Hd Hn].
  specialize (IH (remaining - length (_scan_directory d (if point_eqb cr (d_id d) then cn else []) remaining))%nat Hn).
  destruct (sweep _ _ _ ds) as [[discovered rest] seen]. cbn in *. subst seen.
  destruct (point_eqb_spec (d_id d) cr); [by subst|done].
Qed.

Lemma sweep_seen cr cn remaining d ds : tidy d -> (0 < remaining)%nat -> d_id d = cr -> cr ∉ ids ds ->
  (sweep cr cn remaining (d :: ds)).2 = negb (length (after_sorted cn (device_files d)) =? 0)%nat.
Proof.
  intros Hd Hr <- Hn. cbn [sweep]. destruct (Nat.eqb_spec remaining 0) as [->|_]; [lia|].
  destruct (point_eqb_spec (d_id d) (d_id d)); [|done]. unfold _scan_directory. rewrite select_least by (apply Hd || lia).
  pose proof (sweep_not_seen (d_id d) cn (remaining - length (least_after remaining cn (device_files d))) ds Hn) as Hs.
  destruct (sweep _ _ _ ds) as [[discovered rest] seen]. cbn in *. subst seen. rewrite orb_false_r.
  unfold least_after. rewrite length_take.
  destruct (Nat.eqb_spec (length (after_sorted cn (device_files d))) 0), (Nat.eqb_spec (remaining `min` length (after_sorted cn (device_files d))) 0);
    try done; lia.
Qed.

(** Strictly increasing positions. *)
Definition increasing : list found -> Prop := StronglySorted (fun x y => pos_lt (pos x) (pos y)).

Lemma after_sorted_elem after files c : c ∈ after_sorted after files <-> past after c = true /\ c ∈ files.
Proof. unfold after_sorted. by rewrite sort_by_perm, list_elem_of_filter. Qed.

Lemma after_sorted_increasing r after files : NoDup (map fst files) -> increasing (map (pair r) (after_sorted after files)).
Proof.
  intros Hn. apply (filter_nodup_fst after) in Hn. unfold after_sorted.
  pose proof (sort_by_sorted fst points_leb (filter (fun c => past after c = true) files)) as Hs.
  rewrite <- (sort_by_perm fst points_leb) in Hn. induction Hs as [|c l Hs IH Hc]; [constructor|].
  cbn [map] in *. apply NoDup_cons in Hn as [Hnc Hn]. constructor; [by apply IH|].
  apply Forall_map. rewrite !Forall_forall in *. intros x Hx. unfold pos. cbn [fst snd].
  destruct (pos_leb_cases (r, c.1) (r, x.1)) as [E|E]; [rewrite pos_leb_same; by apply Hc| |done].
  destruct Hnc. injection E as ->. by apply list_elem_of_fmap_2.
Qed.

Lemma following_elem cr cn ds f : f ∈ following cr cn ds <->
  exists d, d ∈ ds /\ f.1 = d_id d /\ past (cursor_for cr cn d) f.2 = true /\ f.2 ∈ device_files d.
Proof.
  unfold following. rewrite list_elem_of_In, in_flat_map. setoid_rewrite <- list_elem_of_In. split.
  - intros (d & Hd & (c & -> & Hc)%list_elem_of_fmap). apply after_sorted_elem in Hc. by exists d.
  - intros (d & Hd & E & Hc). exists d. split; [done|]. apply list_elem_of_fmap. exists f.2.
    rewrite after_sorted_elem, <- E. by destruct f.
Qed.

Lemma all_found_elem ds f : f ∈ all_found ds <-> exists d, d ∈ ds /\ f.1 = d_id d /\ f.2 ∈ device_files d.
Proof.
  unfold all_found. rewrite list_elem_of_In, in_flat_map. setoid_rewrite <- list_elem_of_In. split.
  - intros (d & Hd & (c & -> & Hc)%list_elem_of_fmap). by exists d.
  - intros (d & Hd & E & Hc). exists d. split; [done|]. apply list_elem_of_fmap. exists f.2. rewrite <- E. by destruct f.
Qed.

Lemma following_increasing cr cn ds : Forall tidy ds -> NoDup (ids ds) -> StronglySorted (key_le d_id points_leb) ds ->
  increasing (following cr cn ds).
Proof.
  intros Ht Hn Hs. induction Hs as [|d ds Hs IH Hd]; [constructor|]. cbn [following flat_map ids map] in *.
  apply Forall_cons in Ht as [Htd Ht]. apply NoDup_cons in Hn as [Hnd Hn].
  apply StronglySorted_app. split; [|split; [apply after_sorted_increasing, Htd|by apply IH]].
  intros x y (c & -> & _)%list_elem_of_fmap (d' & Hd' & E & _)%following_elem. destruct y as [r' y]. cbn in E. subst r'.
  apply pos_lt_resource. rewrite Forall_forall in Hd. specialize (Hd d' Hd'). unfold key_le in Hd.
  destruct (points_leb (d_id d') (d_id d)) eqn:E; [|done]. destruct Hnd.
  rewrite (points_leb_antisym _ _ Hd E). by apply list_elem_of_fmap_2.
Qed.

Lemma first_index_split p ds i : first_index p ds = Some i ->
  exists pre d post, ds = pre ++ d :: post /\ length pre = i /\ Forall (fun d => p d = false) pre /\ p d = true.
Proof.
  revert i. induction ds as [|d ds IH]; intros i; cbn; [done|]. destruct (p d) eqn:E.
  { intros [= <-]. by exists [], d, ds. }
  destruct (first_index p ds) as [j|]; cbn; [|done]. intros [= <-].
  destruct (IH j eq_refl) as (pre & d' & post & -> & <- & Hpre & Hd'). exists (d :: pre), d', post. repeat split; auto.
Qed.

Lemma first_index_none p ds : first_index p ds = None -> Forall (fun d => p d = false) ds.
Proof.
  induction ds as [|d ds IH]; cbn; [constructor|]. destruct (p d) eqn:E; [done|].
  destruct (first_index p ds); [done|]. constructor; auto.
Qed.

(** The resources from the pivot on, and those before it. *)
Lemma pivot_split cr ordered : StronglySorted (key_le d_id points_leb) ordered ->
  let pivot := default 0%nat (first_index (fun d => points_leb cr (d_id d)) ordered) in
  exists pre suf, ordered = pre ++ suf /\ drop pivot ordered ++ take pivot ordered = suf ++ pre
    /\ Forall (fun d => points_leb cr (d_id d) = false) pre /\ Forall (fun d => points_leb cr (d_id d) = true) suf.
Proof.
  intros Hs pivot. unfold pivot. destruct (first_index _ ordered) as [i|] eqn:E; cbn [from_option id].
  - apply first_index_split in E as (pre & d & post & -> & <- & Hpre & Hd). exists pre, (d :: post).
    rewrite drop_app_length, take_app_length. repeat split; auto. constructor; [done|].
    apply StronglySorted_app in Hs as (_ & _ & Hs). inversion Hs as [|? ? ? Hle]; subst. eapply Forall_impl; [exact Hle|].
    intros x Hx. by eapply bo_trans.
  - apply first_index_none in E. exists ordered, []. by rewrite app_nil_r, drop_0, take_0, app_nil_r.
Qed.

Lemma find_elem cr ds : cr ∈ ids ds -> exists d, find (fun d => point_eqb (d_id d) cr) ds = Some d /\ d ∈ ds /\ d_id d = cr.
Proof.
  induction ds as [|d ds IH]; cbn [ids map find]; [by intros ?%elem_of_nil|]. destruct (point_eqb_spec (d_id d) cr) as [<-|Hne].
  - intros _. exists d. repeat split. apply list_elem_of_here.
  - intros [?|Hin]%elem_of_cons; [congruence|]. destruct (IH Hin) as (d' & -> & Hd' & <-).
    exists d'. repeat split. by apply list_elem_of_further.
Qed.

Lemma find_absent cr ds : cr ∉ ids ds -> find (fun d => point_eqb (d_id d) cr) ds = None.
Proof.
  induction ds as [|d ds IH]; cbn [ids map find]; [done|]. intros [Hne Hin]%not_elem_of_cons.
  destruct (point_eqb_spec (d_id d) cr); [congruence|auto].
Qed.

(** What a round selects, in the order of the rotation: what lies after the cursor,
    then what does not; the cursor's own directory is left out of the second part
    while something lies after the cursor in it. *)
Record rotated (ds : list device) (at_ : position) (limit : nat) (S : list found) (A C : list found) : Prop := {
  rot_take : S = take limit (A ++ C);
  rot_ahead : increasing A;
  rot_behind : increasing C;
  rot_found : forall x, x ∈ A ++ C -> x ∈ all_found ds;
  rot_past : forall x, x ∈ A -> pos_lt at_ (pos x);
  rot_all_ahead : forall f, f ∈ all_found ds -> pos_lt at_ (pos f) -> f ∈ A;
  rot_all_behind : forall f, f ∈ all_found ds -> pos_leb (pos f) at_ = true ->
    f ∈ C \/ A <> [] /\ forall s, s ∈ C -> pos_lt (pos s) (pos f) }.

Lemma take_take_app {A} n (l k : list A) : take n (take n l ++ take (n - length l) k) = take n (l ++ k).
Proof.
  rewrite !take_app. f_equal; [by rewrite take_take, Nat.min_id|]. rewrite take_take, length_take. f_equal. lia.
Qed.

Section round.
Variables (cr cn : name) (pre suf : list device).
Hypothesis sorted : StronglySorted (key_le d_id points_leb) (pre ++ suf).
Hypothesis tidies : Forall tidy (pre ++ suf).
Hypothesis distinct : NoDup (ids (pre ++ suf)).
Hypothesis below : Forall (fun d => points_leb cr (d_id d) = false) pre.
Hypothesis above : Forall (fun d => points_leb cr (d_id d) = true) suf.

Lemma named d c : tidy d -> c ∈ device_files d -> past [] c = true.
Proof.
  intros Hd Hc. unfold past. destruct c as [[|x n] i]; [|done]. destruct (tidy_filled d Hd).
  by apply (list_elem_of_fmap_2 fst) in Hc.
Qed.

Lemma ahead_past x : x ∈ following cr cn suf -> pos_lt (cr, cn) (pos x).
Proof.
  intros (d & Hd & E & Hp & _)%following_elem. unfold pos. destruct x as [r [n i]]. cbn in *. subst r.
  rewrite Forall_forall in above. specialize (above d Hd). unfold cursor_for in Hp.
  destruct (point_eqb_spec cr (d_id d)) as [E|Hne].
  - unfold past in Hp. cbn in Hp. unfold pos_lt. rewrite E, pos_leb_same. by destruct (points_leb n cn).
  - apply pos_lt_resource. destruct (points_leb (d_id d) cr) eqn:E; [|done]. destruct Hne. by apply points_leb_antisym.
Qed.

Lemma ahead_all f : f ∈ all_found (pre ++ suf) -> pos_lt (cr, cn) (pos f) -> f ∈ following cr cn suf.
Proof.
  intros (d & Hd & E & Hf)%all_found_elem Hlt. apply following_elem. exists d. destruct f as [r [n i]]. cbn in *. subst r.
  assert (Ht : tidy d) by (rewrite Forall_forall in tidies; auto). apply elem_of_app in Hd as [Hd|Hd].
  - rewrite Forall_forall in below. specialize (below d Hd).
    assert (pos_lt (pos (d_id d, (n, i))) (cr, cn)) by by apply pos_lt_resource.
    destruct (irreflexivity pos_lt (cr, cn)). by eapply transitivity.
  - repeat split; auto. unfold cursor_for. destruct (point_eqb_spec cr (d_id d)) as [E|Hne]; [|by apply (named d)].
    unfold pos, pos_lt in Hlt. cbn in Hlt. rewrite E, pos_leb_same in Hlt. unfold past. cbn. by rewrite Hlt.
Qed.

Lemma behind_pre d x : d ∈ pre -> x.1 = d_id d -> pos_lt (pos x) (cr, cn).
Proof. intros Hd E. rewrite Forall_forall in below. apply pos_lt_resource. rewrite E. by apply below. Qed.

Lemma behind_all f : f ∈ all_found (pre ++ suf) -> pos_leb (pos f) (cr, cn) = true -> f.1 <> cr -> f ∈ following cr cn pre.
Proof.
  intros (d & Hd & E & Hf)%all_found_elem Hle Hne. apply following_elem. exists d. destruct f as [r [n i]]. cbn in *. subst r.
  assert (Ht : tidy d) by (rewrite Forall_forall in tidies; auto). apply elem_of_app in Hd as [Hd|Hd].
  - repeat split; auto. unfold cursor_for. destruct (point_eqb_spec cr (d_id d)); [congruence|]. by apply (named d).
  - rewrite Forall_forall in above. specialize (above d Hd). unfold pos_leb, pair_leb, pos in Hle. cbn in Hle.
    destruct Hne. apply points_leb_antisym; [|done]. by apply andb_prop in Hle as [].
Qed.
End round.

Lemma following_app cr cn ds ds' : following cr cn (ds ++ ds') = following cr cn ds ++ following cr cn ds'.
Proof. unfold following. apply flat_map_app. Qed.

Lemma following_found cr cn ds f : f ∈ following cr cn ds -> f ∈ all_found ds.
Proof. rewrite following_elem, all_found_elem. intros (d & Hd & E & _ & Hf). by exists d. Qed.

Lemma all_found_app ds ds' f : f ∈ all_found (ds ++ ds') <-> f ∈ all_found ds \/ f ∈ all_found ds'.
Proof. unfold all_found. by rewrite flat_map_app, elem_of_app. Qed.

(** The cursor's resource has nothing after the cursor, or is not there. *)
Lemma rotated_plain cr cn pre suf limit : StronglySorted (key_le d_id points_leb) (pre ++ suf) -> Forall tidy (pre ++ suf) ->
  NoDup (ids (pre ++ suf)) -> Forall (fun d => points_leb cr (d_id d) = false) pre ->
  Forall (fun d => points_leb cr (d_id d) = true) suf ->
  (cr ∈ ids suf -> exists x, x ∈ following cr cn suf /\ x.1 = cr) ->
  rotated (pre ++ suf) (cr, cn) limit (take limit (following cr cn suf ++ following cr cn pre))
    (following cr cn suf) (following cr cn pre).
Proof.
  intros Hs Ht Hn Hpre Hsuf Hseen. pose proof Hn as Hn'. unfold ids in Hn'. rewrite map_app in Hn'. apply NoDup_app in Hn' as (Hn1 & _ & Hn2).
  pose proof Hs as (_ & Hs1 & Hs2)%StronglySorted_app. pose proof Ht as [Ht1 Ht2]%Forall_app. split.
  - done.
  - by apply following_increasing.
  - by apply following_increasing.
  - intros x. rewrite elem_of_app, all_found_app. intros [Hx|Hx]; apply following_found in Hx; auto.
  - intros x. by apply ahead_past.
  - intros f. by apply (ahead_all cr cn pre suf).
  - intros f Hf Hle. destruct (decide (f.1 = cr)) as [E|Hne]; [right|left; by apply (behind_all cr cn pre suf)].
    assert (Hcr : cr ∈ ids suf).
    { apply all_found_elem in Hf as (d & Hd & E' & _). apply elem_of_app in Hd as [Hd|Hd].
      - rewrite Forall_forall in Hpre. specialize (Hpre d Hd). by rewrite <- E', E, (bo_refl points_leb) in Hpre.
      - rewrite <- E, E'. by apply list_elem_of_fmap_2. }
    destruct (Hseen Hcr) as (x & Hx & _). split; [intros E'; rewrite E' in Hx; by apply elem_of_nil in Hx|].
    intros s (d & Hd & E' & _)%following_elem. apply pos_lt_resource. rewrite E, E'. rewrite Forall_forall in Hpre. by apply Hpre.
Qed.

(** It is there, with nothing after the cursor: its own names come last. *)
Lemma rotated_wrapped cr cn pre d suf limit : let ds := pre ++ d :: suf in StronglySorted (key_le d_id points_leb) ds -> Forall tidy ds ->
  NoDup (ids ds) -> Forall (fun d => points_leb cr (d_id d) = false) pre ->
  Forall (fun d => points_leb cr (d_id d) = true) (d :: suf) -> d_id d = cr -> after_sorted cn (device_files d) = [] ->
  rotated ds (cr, cn) limit
    (take limit (following cr cn (d :: suf) ++ following cr cn pre ++ map (pair cr) (after_sorted [] (device_files d))))
    (following cr cn (d :: suf)) (following cr cn pre ++ map (pair cr) (after_sorted [] (device_files d))).
Proof.
  intros ds Hs Ht Hn Hpre Hsuf Hd E. subst ds.
  pose proof Hn as Hn'. unfold ids in Hn'. rewrite map_app in Hn'. apply NoDup_app in Hn' as (Hn1 & _ & Hn2).
  pose proof Hs as (_ & Hs1 & Hs2)%StronglySorted_app. pose proof Ht as [Ht1 Ht2]%Forall_app.
  pose proof Ht2 as [Htd _]%Forall_cons. split.
  - done.
  - by apply following_increasing.
  - apply StronglySorted_app. split; [|split; [by apply following_increasing|by apply after_sorted_increasing, Htd]].
    intros x y (d' & Hd' & E' & _)%following_elem (c & -> & _)%list_elem_of_fmap. apply pos_lt_resource.
    rewrite E'. rewrite Forall_forall in Hpre. by apply Hpre.
  - intros x. rewrite !elem_of_app, all_found_app. intros [Hx|[Hx|Hx]]; [apply following_found in Hx; auto..|right].
    apply list_elem_of_fmap in Hx as (c & -> & [_ Hc]%after_sorted_elem). apply all_found_elem. exists d.
    repeat split; auto. apply list_elem_of_here.
  - intros x. by apply ahead_past.
  - intros f. by apply (ahead_all cr cn pre (d :: suf)).
  - intros f Hf Hle. left. rewrite elem_of_app. destruct (decide (f.1 = cr)) as [Ef|Hne]; [right|left; by apply (behind_all cr cn pre (d :: suf))].
    apply list_elem_of_fmap. exists f.2. split; [rewrite <- Ef; by destruct f|]. apply all_found_elem in Hf as (d' & Hd' & E' & Hf).
    enough (d' = d) as -> by by rewrite after_sorted_elem; split; [apply (named d)|].
    apply elem_of_app in Hd' as [Hd'|[->|Hd']%elem_of_cons]; [|done|].
    + rewrite Forall_forall in Hpre. specialize (Hpre d' Hd'). by rewrite <- E', Ef, (bo_refl points_leb) in Hpre.
    + cbn in Hn2. apply NoDup_cons in Hn2 as [Hn2 _]. destruct Hn2. rewrite Hd, <- Ef, E'. by apply list_elem_of_fmap_2.
Qed.

Lemma rotated_same ds ds' at_ limit S A C : (forall f, f ∈ all_found ds <-> f ∈ all_found ds') ->
  rotated ds at_ limit S A C -> rotated ds' at_ limit S A C.
Proof. intros E [H1 H2 H3 H4 H5 H6 H7]. split; auto; intros; apply E || apply H6 || apply H7; auto; by apply E. Qed.

Lemma following_seen cn d suf : NoDup (ids (d :: suf)) -> after_sorted cn (device_files d) <> [] ->
  exists x, x ∈ following (d_id d) cn (d :: suf) /\ x.1 = d_id d.
Proof.
  intros _ Hne. destruct (after_sorted cn (device_files d)) as [|c l] eqn:E; [done|]. exists (d_id d, c).
  split; [|done]. apply following_elem. exists d. cbn. split; [apply list_elem_of_here|]. unfold cursor_for.
  destruct (point_eqb_spec (d_id d) (d_id d)); [|done]. split; [done|]. apply after_sorted_elem. rewrite E. apply list_elem_of_here.
Qed.

(** The cursor's resource is the first from the pivot on. *)
Lemma suffix_head cr pre suf d : StronglySorted (key_le d_id points_leb) suf -> NoDup (ids suf) ->
  Forall (fun d => points_leb cr (d_id d) = false) pre -> Forall (fun d => points_leb cr (d_id d) = true) suf ->
  d ∈ pre ++ suf -> d_id d = cr -> exists suf', suf = d :: suf'.
Proof.
  intros Hs Hn Hpre Hsuf Hd E. rewrite Forall_forall in Hpre, Hsuf. apply elem_of_app in Hd as [Hd|Hd].
  { specialize (Hpre d Hd). by rewrite E, (bo_refl points_leb) in Hpre. }
  destruct suf as [|e suf]; [by apply elem_of_nil in Hd|]. exists suf. apply elem_of_cons in Hd as [->|Hd]; [done|].
  apply NoDup_cons in Hn as [Hn _]. destruct Hn. inversion Hs as [|? ? _ Hle]; subst. rewrite Forall_forall in Hle.
  rewrite (points_leb_antisym (d_id e) (d_id d)); [by apply list_elem_of_fmap_2|by apply Hle|]. apply Hsuf, list_elem_of_here.
Qed.

Lemma wrapped_take (cr cn : name) d rest : tidy d -> (0 < rest)%nat -> after_sorted cn (device_files d) = [] ->
  map (pair cr) (filter (fun c => points_leb c.1 cn = true) (_scan_directory d [] rest))
  = take rest (map (pair cr) (after_sorted [] (device_files d))).
Proof.
  intros Ht Hr E. unfold _scan_directory. rewrite select_least by (done || apply Ht). unfold least_after.
  rewrite filter_all; [by rewrite firstn_map|]. intros c Hc%subseteq_take. apply after_sorted_elem in Hc as [_ Hc].
  destruct (points_leb c.1 cn) eqn:Ec; [done|]. assert (Hin : c ∈ after_sorted cn (device_files d)).
  { apply after_sorted_elem. unfold past. by rewrite Ec. }
  rewrite E in Hin. by apply elem_of_nil in Hin.
Qed.

Lemma scan_rotated limit ds cursor cr cn : (0 < limit)%nat -> Forall tidy ds -> NoDup (ids ds) -> partition_nul cursor = (cr, cn) ->
  exists A C, rotated ds (cr, cn) limit (scan_selection limit ds cursor) A C.
Proof.
  intros Hlim Ht Hn Hc. unfold scan_selection. rewrite Hc. set (ordered := sort_by d_id points_leb ds).
  assert (Hp : ordered ≡ₚ ds) by apply sort_by_perm.
  assert (Hs : StronglySorted (key_le d_id points_leb) ordered) by (apply sort_by_sorted; apply _).
  enough (Hex : exists A C, rotated ordered (cr, cn) limit
    (let '(cr, cn) := (cr, cn) in
     let '(discovered, remaining, seen) := sweep cr cn limit (drop (default 0%nat (first_index (fun d => points_leb cr (d_id d)) ordered)) ordered
       ++ take (default 0%nat (first_index (fun d => points_leb cr (d_id d)) ordered)) ordered) in
     take limit (discovered ++ match find (fun d => point_eqb (d_id d) cr) ordered with
       | Some d => if negb (remaining =? 0)%nat && negb (point_eqb cr []) && negb seen
                   then map (pair cr) (filter (fun c => points_leb c.1 cn = true) (_scan_directory d [] remaining)) else []
       | None => [] end)) A C).
  { destruct Hex as (A & C & HR). exists A, C. eapply rotated_same; [|exact HR]. intros f. rewrite !all_found_elem. by setoid_rewrite Hp. }
  rewrite <- Hp in Ht. assert (Hno : NoDup (ids ordered)) by (unfold ids; by rewrite Hp). clear Hn Hp. clearbody ordered.
  destruct (pivot_split cr ordered Hs) as (pre & suf & -> & -> & Hpre & Hsuf).
  assert (Ht' : Forall tidy (suf ++ pre)) by by rewrite Permutation_app_comm.
  pose proof (sweep_take cr cn limit (suf ++ pre) Ht') as [Et Er].
  destruct (sweep cr cn limit (suf ++ pre)) as [[discovered rest] seen] eqn:Ew. cbn [fst snd] in Et, Er. subst discovered rest.
  rewrite following_app. pose proof Hno as Hno'. unfold ids in Hno'. rewrite map_app in Hno'.
  apply NoDup_app in Hno' as (_ & Hdis & Hns).
  destruct (decide (cr ∈ ids (pre ++ suf))) as [Hin|Hout].
  - destruct (find_elem _ _ Hin) as (d & Ef & Hd & Ed). rewrite Ef.
    assert (Htd : tidy d) by (rewrite Forall_forall in Ht; auto). destruct (tidy_id d Htd) as [Hne _]. rewrite Ed in Hne.
    destruct (suffix_head cr pre suf d) as [suf' ->]; [by apply StronglySorted_app in Hs as (_ & _ & Hs)|done..|].
    assert (Eseen : seen = negb (length (after_sorted cn (device_files d)) =? 0)%nat).
    { change seen with (following cr cn [], 0%nat, seen).2. replace seen with (sweep cr cn limit ((d :: suf') ++ pre)).2 by by rewrite Ew.
      apply sweep_seen; [done..|]. unfold ids. rewrite map_app, not_elem_of_app. split.
      - cbn in Hns. rewrite <- Ed. by apply NoDup_cons in Hns as [].
      - intros Hcr. apply (Hdis cr Hcr). rewrite <- Ed. apply list_elem_of_here. }
    subst seen.
    destruct (point_eqb_spec cr []) as [->|_]; [done|]. cbn [negb]. rewrite andb_true_r, negb_involutive.
    destruct (after_sorted cn (device_files d)) as [|c l] eqn:El; cbn [length Nat.eqb].
    + rewrite andb_true_r. eexists _, _.
      assert (E := rotated_wrapped cr cn pre d suf' limit Hs Ht Hno Hpre Hsuf Ed El). rewrite app_assoc in E at 1.
      rewrite <- (take_take_app limit) in E. destruct (Nat.eqb_spec (limit - length (following cr cn (d :: suf') ++ following cr cn pre)) 0) as [E0|E0].
      * cbn [negb]. rewrite E0, take_0 in E. exact E.
      * cbn [negb]. rewrite wrapped_take by (done || lia). exact E.
    + rewrite andb_false_r, app_nil_r. eexists _, _. rewrite take_take, Nat.min_id. apply rotated_plain; auto.
      intros _. rewrite <- Ed. apply following_seen; [done|]. by rewrite El.
  - rewrite find_absent, app_nil_r, take_take, Nat.min_id by done. eexists _, _. apply rotated_plain; auto.
    intros Hcr. destruct Hout. unfold ids. rewrite map_app, elem_of_app. by right.
Qed.

(** ** Every file is reached *)

Lemma partition_token r n : 0 ∉ r -> partition_nul (_token r n) = (r, n).
Proof.
  unfold _token. induction r as [|c r IH]; cbn; [done|]. intros [Hc Hr]%not_elem_of_cons.
  destruct (Z.eqb_spec c 0); [congruence|]. by rewrite IH.
Qed.

Lemma increasing_parts l k x y : increasing (l ++ k) -> x ∈ l -> y ∈ k -> pos_lt (pos x) (pos y).
Proof. intros [Hlk _]%StronglySorted_app. auto. Qed.

Lemma last_taken {A} n (l : list A) : (0 < n)%nat -> l <> [] -> exists x, last (take n l) = Some x /\ x ∈ take n l.
Proof.
  intros Hn Hl. destruct (last (take n l)) as [x|] eqn:E.
  - exists x. split; [done|]. by apply last_Some_elem_of in E.
  - apply last_None in E. destruct l, n; try done; lia.
Qed.

(** A file that a round does not select is nearer at the next. *)
Lemma round_progress ds at_ limit S A C f : rotated ds at_ limit S A C -> (0 < limit)%nat -> f ∈ all_found ds -> f ∉ S ->
  exists s, last S = Some s /\ s ∈ all_found ds
    /\ (pos_lt at_ (pos f) -> pos_lt at_ (pos s) /\ pos_lt (pos s) (pos f))
    /\ (pos_leb (pos f) at_ = true -> pos_lt at_ (pos s) \/ pos_lt (pos s) (pos f)).
Proof.
  intros [-> HA HC Hfound Hpast Hahead Hbehind] Hlim Hf Hout.
  assert (Hne : A ++ C <> []).
  { destruct (pos_leb (pos f) at_) eqn:E.
    - destruct (Hbehind f Hf E) as [Hin|[Hin _]]; [|by destruct A]. intros [_ ->]%app_eq_nil. by apply elem_of_nil in Hin.
    - intros [HA0 _]%app_eq_nil. specialize (Hahead f Hf E). rewrite HA0 in Hahead. by apply elem_of_nil in Hahead. }
  destruct (last_taken limit (A ++ C) Hlim Hne) as (s & Es & Hs). exists s. split; [done|].
  split; [by apply Hfound, (subseteq_take limit)|]. destruct (Nat.le_gt_cases limit (length A)) as [Hle|Hgt].
  - rewrite take_app_le in Hs, Hout by done. assert (HsA : s ∈ A) by by apply (subseteq_take limit). split; [|auto].
    intros Hlt. split; [auto|]. specialize (Hahead f Hf Hlt). rewrite <- (take_drop limit A) in Hahead, HA.
    apply elem_of_app in Hahead as [?|Hd]; [done|]. by eapply increasing_parts.
  - rewrite take_app_ge in Hs, Hout, Es by lia. apply not_elem_of_app in Hout as [HoA HoC]. split.
    { intros Hlt. by destruct HoA; auto. }
    intros Hle. apply elem_of_app in Hs as [Hs|Hs]; [left; auto|right]. destruct (Hbehind f Hf Hle) as [Hin|[_ Hb]].
    + rewrite <- (take_drop (limit - length A) C) in Hin, HC. apply elem_of_app in Hin as [?|Hd]; [done|].
      by eapply increasing_parts.
    + by apply Hb, (subseteq_take (limit - length A)).
Qed.

(** How many files lie between a cursor and a file in the order of the rotation. *)
Definition count (P : found -> bool) (l : list found) : nat := length (filter (fun x => P x = true) l).

Definition ltb (p q : position) : bool := negb (pos_leb q p).

Definition distance (ds : list device) (at_ : position) (f : found) : nat :=
  if ltb at_ (pos f) then count (fun x => ltb at_ (pos x) && ltb (pos x) (pos f)) (all_found ds)
  else (count (fun x => ltb at_ (pos x)) (all_found ds) + count (fun x => ltb (pos x) (pos f)) (all_found ds))%nat.

Lemma ltb_spec p q : ltb p q = true <-> pos_lt p q.
Proof. unfold ltb, pos_lt. by destruct (pos_leb q p). Qed.

Lemma count_cons P x l : count P (x :: l) = ((if P x then 1 else 0) + count P l)%nat.
Proof. unfold count. rewrite filter_cons. case_decide as E; [by rewrite E|]. by destruct (P x). Qed.

Lemma count_le P Q l : (forall x, x ∈ l -> P x = true -> Q x = true) -> (count P l <= count Q l)%nat.
Proof.
  induction l as [|x l IH]; intros Hpq; [done|]. rewrite !count_cons.
  assert (count P l <= count Q l)%nat by (apply IH; intros; apply Hpq; auto; by apply list_elem_of_further).
  specialize (Hpq x (list_elem_of_here _ _)). destruct (P x); [rewrite Hpq by done|destruct (Q x)]; lia.
Qed.

Lemma count_lt P Q l s : s ∈ l -> P s = false -> Q s = true -> (forall x, x ∈ l -> P x = true -> Q x = true) -> (count P l < count Q l)%nat.
Proof.
  intros Hs HP HQ. induction Hs as [s l|s y l Hs IH]; intros Hpq; rewrite !count_cons.
  - rewrite HP, HQ. assert (count P l <= count Q l)%nat; [|lia]. apply count_le. intros. apply Hpq; auto. by apply list_elem_of_further.
  - assert (count P l < count Q l)%nat by (apply IH; auto; intros; apply Hpq; auto; by apply list_elem_of_further).
    specialize (Hpq y (list_elem_of_here _ _)). destruct (P y); [rewrite Hpq by done|destruct (Q y)]; lia.
Qed.

Lemma count_disjoint P Q l : (forall x, x ∈ l -> P x = true -> Q x = true -> False) ->
  (count P l + count Q l = count (fun x => P x || Q x) l)%nat.
Proof.
  induction l as [|x l IH]; intros Hd; [done|]. rewrite !count_cons.
  assert (count P l + count Q l = count (fun x => P x || Q x) l)%nat by (apply IH; intros y Hy; apply Hd; by apply list_elem_of_further).
  specialize (Hd x (list_elem_of_here _ _)). destruct (P x), (Q x); cbn; [by destruct Hd|lia..].
Qed.

Lemma count_all l : count (fun _ => true) l = length l.
Proof. induction l as [|x l IH]; [done|]. by rewrite count_cons, IH. Qed.

Lemma ltb_irrefl p : ltb p p = false.
Proof. unfold ltb. by rewrite (bo_refl pos_leb). Qed.

Lemma ltb_trans p q r : ltb p q = true -> ltb q r = true -> ltb p r = true.
Proof. rewrite !ltb_spec. apply transitivity. Qed.

Lemma distance_bound ds at_ f : f ∈ all_found ds -> (distance ds at_ f < length (all_found ds))%nat.
Proof.
  intros Hf. rewrite <- count_all. unfold distance. destruct (ltb at_ (pos f)) eqn:E.
  - apply (count_lt _ _ _ f); auto. by rewrite ltb_irrefl, andb_false_r.
  - rewrite count_disjoint.
    + apply (count_lt _ _ _ f); auto. by rewrite E, ltb_irrefl.
    + intros x _ H1 H2. by rewrite (ltb_trans _ _ _ H1 H2) in E.
Qed.

(** The selections of successive rounds over directories that stay the same. *)
Fixpoint cursor_after (limit : nat) (ds : list device) (cursor : name) (k : nat) : name :=
  match k with
  | O => cursor
  | S k => let cursor := cursor_after limit ds cursor k in next_cursor cursor (scan_selection limit ds cursor)
  end.

Lemma cursor_after_succ limit ds cursor k :
  cursor_after limit ds cursor (S k) = cursor_after limit ds (next_cursor cursor (scan_selection limit ds cursor)) k.
Proof. induction k as [|k IH]; [done|]. cbn [cursor_after] in *. by rewrite IH. Qed.

Lemma distance_decreases limit ds cursor f : (0 < limit)%nat -> Forall tidy ds -> NoDup (ids ds) -> f ∈ all_found ds ->
  f ∉ scan_selection limit ds cursor ->
  (distance ds (partition_nul (next_cursor cursor (scan_selection limit ds cursor))) f < distance ds (partition_nul cursor) f)%nat.
Proof.
  intros Hlim Ht Hn Hf Hout. destruct (partition_nul cursor) as [cr cn] eqn:Ec.
  destruct (scan_rotated limit ds cursor cr cn Hlim Ht Hn Ec) as (A & C & HR).
  destruct (round_progress _ _ _ _ _ _ _ HR Hlim Hf Hout) as (s & Es & Hs & Hlt & Hle). unfold next_cursor. rewrite Es.
  destruct s as [r [n i]] eqn:Esn. rewrite partition_token.
  2:{ apply all_found_elem in Hs as (d & Hd & E & _). cbn in E. rewrite E. rewrite Forall_forall in Ht. by apply (Ht d Hd). }
  rewrite <- Esn in Hs, Hlt, Hle. change (r, n) with (pos (r, (n, i))). rewrite <- Esn. clear Es Esn r n i HR Ec Hout.
  set (at_ := (cr, cn)) in *. clearbody at_. setoid_rewrite <- ltb_spec in Hlt. setoid_rewrite <- ltb_spec in Hle.
  unfold distance. destruct (ltb at_ (pos f)) eqn:E.
  - destruct (Hlt eq_refl) as [H1 H2]. rewrite H2. apply (count_lt _ _ _ s); [done| | |].
    + by rewrite ltb_irrefl.
    + by rewrite H1, H2.
    + intros x _ [H3 H4]%andb_prop. by rewrite (ltb_trans _ _ _ H1 H3), H4.
  - unfold ltb in E. rewrite negb_false_iff in E. specialize (Hle E). destruct (ltb (pos s) (pos f)) eqn:Esf.
    + apply Nat.lt_le_trans with (count (fun x => ltb (pos x) (pos f)) (all_found ds)); [|lia]. apply (count_lt _ _ _ s); [done| |done|].
      * by rewrite ltb_irrefl.
      * by intros x _ [_ H4]%andb_prop.
    + destruct Hle as [H1|]; [|congruence]. apply Nat.add_lt_mono_r. apply (count_lt _ _ _ s); [done|by rewrite ltb_irrefl|done|].
      intros x _ H3. by eapply ltb_trans.
Qed.

(** C40: the rotating scan of device directories is fair. *)
Theorem scan_reaches_every_file :
  (forall limit ds cursor f, (0 < limit)%nat -> Forall tidy ds -> NoDup (ids ds) -> f ∈ all_found ds ->
     exists k, (k < length (all_found ds))%nat /\ f ∈ scan_selection limit ds (cursor_after limit ds cursor k))
  /\ (all_found [two_cores] = [([100], (core, stat0)); ([100], (core_1, stat0))]
      /\ forall k, scan_selection 1 [two_cores] (cursor_after 1 [two_cores] [] k) = [([100], (core_1, stat0))]).
Proof.
  split; [|split; [done|]].
  - intros limit ds cursor f Hlim Ht Hn Hf. pose proof (distance_bound ds (partition_nul cursor) f Hf) as Hb.
    enough (Hk : exists k, (k <= distance ds (partition_nul cursor) f)%nat /\ f ∈ scan_selection limit ds (cursor_after limit ds cursor k)).
    { destruct Hk as (k & Hk & Hin). exists k. split; [lia|done]. }
    clear Hb. remember (distance ds (partition_nul cursor) f) as m eqn:Em. revert cursor Em.
    induction m as [m IH] using lt_wf_ind. intros cursor ->.
    destruct (decide (f ∈ scan_selection limit ds cursor)) as [Hin|Hout]; [exists 0%nat; split; [lia|done]|].
    pose proof (distance_decreases limit ds cursor f Hlim Ht Hn Hf Hout) as Hd.
    destruct (IH _ Hd _ eq_refl) as (k & Hk & Hin). exists (S k). rewrite cursor_after_succ. split; [lia|done].
  - intros k. assert (E : forall k, cursor_after 1 [two_cores] [] (S k) = _token [100] core_1).
    { clear k. intros k. induction k as [|k IH]; [by vm_compute|]. change (cursor_after 1 [two_cores] [] (S (S k))) with
        (let c := cursor_after 1 [two_cores] [] (S k) in next_cursor c (scan_selection 1 [two_cores] c)). cbv zeta. rewrite IH. by vm_compute. }
    destruct k as [|k]; [by vm_compute|]. rewrite E. by vm_compute.
Qed.

Definition core_2 : name := core ++ [46; 50].
Definition tidy_cores : device := Device [100] (Some [(core_2, Regular stat0); (core_1, Regular stat0)]).

Lemma scan_reaches_every_file_witness :
  exists k, (k < length (all_found [tidy_cores]))%nat
    /\ ([100], (core_2, stat0)) ∈ scan_selection 1 [tidy_cores] (cursor_after 1 [tidy_cores] (_token [100] core_2) k).
Proof.
  apply (proj1 scan_reaches_every_file 1%nat [tidy_cores] (_token [100] core_2)).
  - lia.
  - constructor; [|constructor]. split.
    + split; [done|]. apply (bool_decide_unpack _). by vm_compute.
    + apply (bool_decide_unpack _). by vm_compute.
    + apply (bool_decide_unpack _). by vm_compute.
    + intros x y Hx Hy. change (device_files tidy_cores) with [(core_2, stat0); (core_1, stat0)] in Hx, Hy.
      repeat (apply elem_of_cons in Hx as [->|Hx]); [..|by apply elem_of_nil in Hx];
        repeat (apply elem_of_cons in Hy as [->|Hy]); try (by apply elem_of_nil in Hy); cbn; try done; intros [l [=]].
  - apply (bool_decide_unpack _). by vm_compute.
  - apply list_elem_of_here.
Defined.
