(* ===== verification/Utf8.v ===== *)
(** * UTF-8 of the Python string type

    A [str] is a list of code points; [encode] and [decode] are the strict
    codec the source uses for keywords, file names and log lines, and the
    lemmas show that they are inverse to each other. *)

From S2P Require Import Prelude PyTime.

Definition bz (b : byte) : Z := Z.of_N (Byte.to_N b).

Lemma bz_range b : 0 <= bz b < 256.
Proof. unfold bz. pose proof (Byte.to_N_bounded b). lia. Qed.

Lemma byte_of_cp_bz b : byte_of_cp (bz b) = b.
Proof.
  unfold byte_of_cp. rewrite Z.mod_small by apply bz_range. unfold bz.
  rewrite N2Z.id. by rewrite Byte.of_to_N.
Qed.

Lemma bz_byte_of_cp z : 0 <= z < 256 -> bz (byte_of_cp z) = z.
Proof.
  intros Hz. unfold byte_of_cp. rewrite Z.mod_small by done.
  destruct (Byte.of_N (Z.to_N z)) as [b|] eqn:E.
  - apply Byte.to_of_N in E. unfold bz. lia.
  - apply Byte.of_N_None_iff in E. lia.
Qed.

Lemma bz_inj a b : bz a = bz b -> a = b.
Proof. intros H. by rewrite <- (byte_of_cp_bz a), H, byte_of_cp_bz. Qed.

(** Code points that UTF-8 encodes: no surrogates. *)
Definition scalar (c : Z) : bool :=
  (0 <=? c) && (c <? 0x110000) && negb ((0xD800 <=? c) && (c <? 0xE000)).

Definition encode_cp (c : Z) : bytes :=
  if c <? 0x80 then [byte_of_cp c]
  else if c <? 0x800 then [byte_of_cp (0xC0 + c / 64); byte_of_cp (0x80 + c mod 64)]
  else if c <? 0x10000 then
    [byte_of_cp (0xE0 + c / 4096); byte_of_cp (0x80 + c / 64 mod 64); byte_of_cp (0x80 + c mod 64)]
  else
    [byte_of_cp (0xF0 + c / 262144); byte_of_cp (0x80 + c / 4096 mod 64);
     byte_of_cp (0x80 + c / 64 mod 64); byte_of_cp (0x80 + c mod 64)].

(** `s.encode("utf-8")`: [None] is `UnicodeEncodeError`. *)
Definition encode (s : list Z) : option bytes :=
  if forallb scalar s then Some (concat (map encode_cp s)) else None.

(** A continuation byte. *)
Definition cont (b : byte) : bool := (0x80 <=? bz b) && (bz b <? 0xC0).

(** `bytes.decode("utf-8")`: [None] is `UnicodeDecodeError`. *)
Fixpoint decode (l : bytes) : option (list Z) :=
  match l with
  | [] => Some []
  | a :: l1 =>
      if bz a <? 0x80 then cons (bz a) <$> decode l1
      else
        match l1 with
        | [] => None
        | b :: l2 =>
            if (0xC2 <=? bz a) && (bz a <? 0xE0) && cont b
            then cons ((bz a - 0xC0) * 64 + (bz b - 0x80)) <$> decode l2
            else
              match l2 with
              | [] => None
              | c :: l3 =>
                  let v := (bz a - 0xE0) * 4096 + (bz b - 0x80) * 64 + (bz c - 0x80) in
                  if (0xE0 <=? bz a) && (bz a <? 0xF0) && cont b && cont c && (0x800 <=? v) && scalar v
                  then cons v <$> decode l3
                  else
                    match l3 with
                    | [] => None
                    | d :: l4 =>
                        let v := (bz a - 0xF0) * 262144 + (bz b - 0x80) * 4096
                                 + (bz c - 0x80) * 64 + (bz d - 0x80) in
                        if (0xF0 <=? bz a) && (bz a <? 0xF5) && cont b && cont c && cont d
                           && (0x10000 <=? v) && scalar v
                        then cons v <$> decode l4
                        else None
                    end
              end
        end
  end.

Definition utf8_valid (l : bytes) : bool := match decode l with Some _ => true | None => false end.

Lemma encode_cp_decode c l :
  scalar c = true -> decode (encode_cp c ++ l) = cons c <$> decode l.
Proof.
  unfold scalar. intros Hs. apply andb_prop in Hs as [Hs Hsur]. breflect.
  assert (Hsur' : c < 0xD800 \/ 0xE000 <= c).
  { apply andb_false_iff in Hsur as [?|?]; blia. }
  unfold encode_cp.
  destruct (c <? 0x80) eqn:E1; [|destruct (c <? 0x800) eqn:E2; [|destruct (c <? 0x10000) eqn:E3]]; breflect;
    cbn [app decode]; unfold cont, scalar; rewrite !bz_byte_of_cp by (Z.to_euclidean_division_equations; lia).
  - by rewrite (proj2 (Z.ltb_lt _ _)) by lia.
  - rewrite (proj2 (Z.ltb_ge (0xC0 + _) _)) by (Z.to_euclidean_division_equations; lia).
    match goal with |- (if ?b then _ else _) = _ => replace b with true end.
    + f_equal. f_equal. Z.to_euclidean_division_equations; lia.
    + symmetry. rewrite !andb_true_iff, !Z.leb_le, !Z.ltb_lt. Z.to_euclidean_division_equations; lia.
  - rewrite (proj2 (Z.ltb_ge (0xE0 + _) _)) by (Z.to_euclidean_division_equations; lia).
    match goal with |- (if ?b then _ else _) = _ => replace b with false end.
    2:{ symmetry. rewrite !andb_false_iff, !Z.ltb_ge. left. right. Z.to_euclidean_division_equations; lia. }
    cbn zeta. set (v := _ + (_ - 0x80)). replace v with c by (subst v; Z.to_euclidean_division_equations; lia).
    match goal with |- (if ?b then _ else _) = _ => replace b with true end; [done|].
    symmetry. rewrite !andb_true_iff, !negb_true_iff, !andb_false_iff, !Z.leb_le, !Z.ltb_lt, !Z.leb_gt, !Z.ltb_ge.
    Z.to_euclidean_division_equations; lia.
  - rewrite (proj2 (Z.ltb_ge (0xF0 + _) _)) by (Z.to_euclidean_division_equations; lia).
    match goal with |- (if ?b then _ else _) = _ => replace b with false end.
    2:{ symmetry. rewrite !andb_false_iff, !Z.ltb_ge. left. right. Z.to_euclidean_division_equations; lia. }
    cbn zeta.
    match goal with |- (if ?b then _ else _) = _ => replace b with false end.
    2:{ symmetry. rewrite !andb_false_iff, !Z.ltb_ge. do 4 left. right. Z.to_euclidean_division_equations; lia. }
    set (v := _ + (_ - 0x80)). replace v with c by (subst v; Z.to_euclidean_division_equations; lia).
    match goal with |- (if ?b then _ else _) = _ => replace b with true end; [done|].
    symmetry. rewrite !andb_true_iff, !negb_true_iff, !andb_false_iff, !Z.leb_le, !Z.ltb_lt, !Z.leb_gt, !Z.ltb_ge.
    Z.to_euclidean_division_equations; lia.
Qed.

Lemma decode_encode s l : encode s = Some l -> decode l = Some s.
Proof.
  unfold encode. destruct (forallb scalar s) eqn:E; [|done]. intros [= <-].
  induction s as [|c s IH]; [done|]. cbn in E. apply andb_prop in E as [Ec Es].
  cbn [map concat]. by rewrite encode_cp_decode, IH.
Qed.

(** The encoding of one code point, read back from the bytes that decode to it. *)
Ltac utf8_bytes :=
  unfold encode_cp;
  repeat match goal with
  | |- context [?x <? ?y] => destruct (Z.ltb_spec x y)
  end; try (exfalso; lia); repeat f_equal; apply bz_inj;
  rewrite bz_byte_of_cp; Z.to_euclidean_division_equations; lia.

Lemma decode_sound n l s :
  (length l <= n)%nat -> decode l = Some s -> forallb scalar s = true /\ concat (map encode_cp s) = l.
Proof.
  revert l s. induction n as [|n IH]; intros [|a l1] s Hn; cbn in Hn; try lia.
  1,2: by intros [= <-].
  cbn [decode]. destruct (bz a <? 0x80) eqn:Ea.
  { destruct (decode l1) as [s'|] eqn:E; [|done]. intros [= <-].
    apply IH in E as [Hs Hl]; [|lia]. cbn. rewrite Hs, Hl. pose proof (bz_range a). breflect.
    split; [unfold scalar; rewrite andb_true_r, !andb_true_iff, negb_true_iff, andb_false_iff, Z.leb_le, Z.ltb_lt, Z.leb_gt; lia|].
    unfold encode_cp. rewrite (proj2 (Z.ltb_lt _ _)) by done. cbn. by rewrite byte_of_cp_bz. }
  destruct l1 as [|b l2]; [done|].
  pose proof (bz_range a). pose proof (bz_range b).
  destruct ((0xC2 <=? bz a) && (bz a <? 0xE0) && cont b) eqn:E2.
  { destruct (decode l2) as [s'|] eqn:E; [|done]. intros [= <-]. cbn in Hn.
    apply IH in E as [Hs Hl]; [|lia]. cbn [forallb map concat]. rewrite Hs, Hl. unfold cont in E2. breflect.
    split; [unfold scalar; rewrite andb_true_r, !andb_true_iff, negb_true_iff, andb_false_iff, Z.leb_le, Z.ltb_lt, Z.leb_gt; lia|].
    change (a :: b :: l2) with ([a; b] ++ l2). f_equal. utf8_bytes. }
  destruct l2 as [|c l3]; [done|]. pose proof (bz_range c). cbn zeta.
  set (v := (bz a - 0xE0) * 4096 + _ + _).
  destruct ((0xE0 <=? bz a) && _ && cont b && cont c && _ && scalar v) eqn:E3.
  { destruct (decode l3) as [s'|] eqn:E; [|done]. intros [= <-]. cbn in Hn.
    apply IH in E as [Hs Hl]; [|lia]. cbn [forallb map concat]. rewrite Hs, Hl.
    apply andb_prop in E3 as [E3 Hsc]. rewrite Hsc. split; [done|]. unfold cont in E3. breflect.
    change (a :: b :: c :: l3) with ([a; b; c] ++ l3). f_equal. subst v. utf8_bytes. }
  destruct l3 as [|d l4]; [done|]. pose proof (bz_range d).
  set (w := (bz a - 0xF0) * 262144 + _ + _ + _).
  destruct ((0xF0 <=? bz a) && _ && cont b && cont c && cont d && _ && scalar w) eqn:E4; [|done].
  destruct (decode l4) as [s'|] eqn:E; [|done]. intros [= <-]. cbn in Hn.
  apply IH in E as [Hs Hl]; [|lia]. cbn [forallb map concat]. rewrite Hs, Hl.
  apply andb_prop in E4 as [E4 Hsc]. rewrite Hsc. split; [done|]. unfold cont in E4. breflect.
  change (a :: b :: c :: d :: l4) with ([a; b; c; d] ++ l4). f_equal. subst w. utf8_bytes.
Qed.

Lemma encode_decode l s : decode l = Some s -> encode s = Some l.
Proof. intros H. apply (decode_sound (length l)) in H as [Hs Hl]; [|done]. unfold encode. by rewrite Hs, Hl. Qed.

Lemma encode_app s t l k : encode s = Some l -> encode t = Some k -> encode (s ++ t) = Some (l ++ k).
Proof.
  unfold encode. rewrite forallb_app, map_app, concat_app.
  destruct (forallb scalar s), (forallb scalar t); cbn; by intros [= <-] [= <-].
Qed.
