(* ===== verification/PyText.v ===== *)
(** * Text of Python values

    Strings are their UTF-8 bytes.  [strip] removes what `str.isspace` holds of,
    at both ends; [isoformat] is that of a date. *)

From S2P Require Import Prelude PyTime PyValue Utf8.
Open Scope camera_scope.

(** The code points of `str.isspace`. *)
Definition space_points : list Z :=
  [0x09; 0x0A; 0x0B; 0x0C; 0x0D; 0x1C; 0x1D; 0x1E; 0x1F; 0x20; 0x85; 0xA0; 0x1680] ++ map Z.of_nat (seq 0x2000 11)
  ++ [0x2028; 0x2029; 0x202F; 0x205F; 0x3000].

Definition spaces : list bytes := map encode_cp space_points.

Fixpoint is_prefix (w l : bytes) : bool :=
  match w, l with
  | [], _ => true
  | a :: w, b :: l => Byte.eqb a b && is_prefix w l
  | _ :: _, [] => false
  end.

(** Each pass removes one space; the length bounds their number. *)
Fixpoint lstrip (fuel : nat) (words : list bytes) (l : bytes) : bytes :=
  match fuel with
  | O => l
  | S fuel => match List.find (fun w => is_prefix w l) words with
              | Some w => lstrip fuel words (drop (length w) l)
              | None => l
              end
  end.

(** `str.strip()`. *)
Definition py_strip (s : string) : string :=
  let l := ascii_bytes s in
  let l := lstrip (length l) spaces l in
  String.string_of_list_byte (rev (lstrip (length l) (map (@rev byte) spaces) (rev l))).

(** `date.isoformat()` of the UTC day of an instant. *)
Definition utc_day (instant : Z) : string :=
  let '(y, m, d) := civil_of_days (instant / US_PER_DAY) in
  String.string_of_list_byte (map byte_of_cp (zpad 4 y ++ [45] ++ zpad 2 m ++ [45] ++ zpad 2 d)).

Example py_strip_ends : py_strip " DS-2CD  " = "DS-2CD".
Proof. by vm_compute. Qed.

Example utc_day_epoch : utc_day (3 * US_PER_DAY - 1) = "1970-01-03".
Proof. by vm_compute. Qed.
