(* ===== verification/ByteSearch.v ===== *)
(** * Searching bytes: `bytes.find`, splitting at a byte

    [find_from l pat i] is `l.find(pat, i)` for `0 <= i <= len(l)`, with [None]
    for -1.  [occurs pat l i] is an occurrence. *)

From S2P Require Import Prelude.

Section find.
Context {A : Type} `{EqDecision A}.

Fixpoint starts_with (pat l : list A) : bool :=
  match pat, l with
  | [], _ => true
  | _, [] => false
  | x :: pat, y :: l => if decide (x = y) then starts_with pat l else false
  end.

(** The first occurrence in a suffix that begins at index [i]. *)
Fixpoint find_in (pat l : list A) (i : nat) : option nat :=
  if starts_with pat l then Some i
  else match l with [] => None | _ :: l => find_in pat l (S i) end.

Definition find_from (l pat : list A) (i : nat) : option nat := find_in pat (drop i l) i.

Definition occurs (pat l : list A) (i : nat) : Prop := starts_with pat (drop i l) = true.

Lemma starts_with_spec pat l : starts_with pat l = true <-> pat `prefix_of` l.
Proof.
  revert l. induction pat as [|x pat IH]; intros l; cbn; [split; [intros; apply prefix_nil|done]|].
  destruct l as [|y l]; [split; [done|by intros ?%prefix_nil_not]|].
  destruct (decide (x = y)) as [->|Hne].
  - rewrite IH. split; [apply prefix_cons|apply prefix_cons_inv_2].
  - split; [done|]. intros Hp. by apply prefix_cons_inv_1 in Hp.
Qed.

Lemma starts_with_length pat l : starts_with pat l = true -> (length pat <= length l)%nat.
Proof. intros H. apply starts_with_spec in H. by apply prefix_length. Qed.

Lemma occurs_length pat l i : pat <> [] -> occurs pat l i -> (i + length pat <= length l)%nat.
Proof.
  intros Hne Ho. apply starts_with_length in Ho. rewrite length_drop in Ho.
  destruct pat; [done|]. cbn in *. lia.
Qed.

Lemma find_in_spec pat l i j :
  find_in pat l i = Some j ->
  (i <= j)%nat /\ starts_with pat (drop (j - i) l) = true
  /\ forall k, (i <= k < j)%nat -> starts_with pat (drop (k - i) l) = false.
Proof.
  revert i. induction l as [|x l IH]; intros i; cbn.
  - destruct (starts_with pat []) eqn:E; [|done]. intros [= <-].
    rewrite Nat.sub_diag. split_and!; [done|done|lia].
  - destruct (starts_with pat (x :: l)) eqn:E.
    + intros [= <-]. rewrite Nat.sub_diag. split_and!; [done|done|lia].
    + intros (Hi & Hs & Hn)%IH. split_and!; [lia| |].
      * replace (j - i)%nat with (S (j - S i)) by lia. done.
      * intros k Hk. destruct (decide (k = i)) as [->|]; [by rewrite Nat.sub_diag|].
        replace (k - i)%nat with (S (k - S i)) by lia. apply Hn. lia.
Qed.

Lemma find_in_None pat l i :
  find_in pat l i = None -> forall k, starts_with pat (drop k l) = false.
Proof.
  revert i. induction l as [|x l IH]; intros i; cbn.
  - destruct (starts_with pat []) eqn:E; [done|]. intros _ k. by rewrite drop_nil.
  - destruct (starts_with pat (x :: l)) eqn:E; [done|]. intros Hf [|k]; [done|]. by eapply IH.
Qed.

Lemma find_from_spec pat l i j :
  find_from l pat i = Some j ->
  (i <= j)%nat /\ occurs pat l j /\ forall k, (i <= k < j)%nat -> ~ occurs pat l k.
Proof.
  unfold find_from, occurs. intros (Hi & Hs & Hn)%find_in_spec.
  rewrite drop_drop in Hs. replace (i + (j - i))%nat with j in Hs by lia.
  split_and!; [done|done|]. intros k Hk Hc. specialize (Hn k Hk).
  rewrite drop_drop in Hn. replace (i + (k - i))%nat with k in Hn by lia. congruence.
Qed.

Lemma find_from_None pat l i :
  find_from l pat i = None -> forall k, (i <= k)%nat -> ~ occurs pat l k.
Proof.
  unfold find_from, occurs. intros Hf k Hk Hc. pose proof (find_in_None _ _ _ Hf (k - i)) as Hn.
  rewrite drop_drop in Hn. replace (i + (k - i))%nat with k in Hn by lia. congruence.
Qed.

(** An occurrence depends only on the bytes under it. *)
Lemma occurs_app_l pat l k i :
  pat <> [] -> (i + length pat <= length l)%nat -> occurs pat (l ++ k) i <-> occurs pat l i.
Proof.
  intros Hne Hi. unfold occurs. rewrite !starts_with_spec, drop_app_le by lia.
  split; [|by intros ?; apply prefix_app_r].
  intros [r Hr]. rewrite <- (take_drop (length pat) (drop i l)).
  assert (take (length pat) (drop i l) = pat) as ->.
  { assert (Ht : take (length pat) (drop i l ++ k) = pat) by (rewrite Hr; apply take_app_length).
    rewrite take_app_le in Ht by (rewrite length_drop; lia). done. }
  by eexists.
Qed.

Lemma occurs_app_r pat l k i : occurs pat (l ++ k) (length l + i) <-> occurs pat k i.
Proof. unfold occurs. rewrite drop_app_ge by lia. by replace (length l + i - length l)%nat with i by lia. Qed.
End find.

(** `l.find(b"\n", i)` for a single element. *)
Lemma find_single {A} `{EqDecision A} (x : A) l i j :
  find_from l [x] i = Some j ->
  (i <= j)%nat /\ l !! j = Some x /\ (forall k, (i <= k < j)%nat -> l !! k <> Some x).
Proof.
  intros (Hi & Ho & Hn)%find_from_spec.
  assert (Hs : forall k, occurs [x] l k <-> l !! k = Some x).
  { intros k. unfold occurs. rewrite <- (Nat.add_0_r k) at 2. rewrite <- lookup_drop.
    destruct (drop k l) as [|y r]; cbn; [done|]. destruct (decide (x = y)) as [->|]; [done|].
    split; [done|]. congruence. }
  split_and!; [done|by apply Hs|]. intros k Hk. rewrite <- Hs. by apply Hn.
Qed.

Lemma find_single_None {A} `{EqDecision A} (x : A) l i :
  find_from l [x] i = None -> forall k, (i <= k)%nat -> l !! k <> Some x.
Proof.
  intros Hf k Hk Hx. apply (find_from_None _ _ _ Hf k Hk). unfold occurs.
  rewrite <- (Nat.add_0_r k), <- lookup_drop in Hx. destruct (drop k l) as [|y r]; [done|].
  injection Hx as ->. cbn. by rewrite decide_True.
Qed.
