(* ===== verification/FileOrder.v ===== *)
(** * Catalog order of log files ([logs/order.py])

    [ordered_files] sorts each stream of segments by its persistent numbers and
    merges the streams by receive time through a heap of stream heads. *)

From S2P Require Import Prelude PyTime Ordering.

(** ** Catalog documents *)

(** A stored time: a BSON date, or the text of any other value. *)
Inductive time_value : Type :=
  | TDate (d : datetime)
  | TText (s : string).

(** The fields of a `files` document that the catalog code reads; a missing
    key and a null are both [None], as for `file.get(...)`. *)
Record file := mkFile {
  id : string;
  taskId : option string;
  nodeId : option string;
  runId : option string;
  sessionId : option string;
  hour : option string;
  segmentNumber : option Z;
  firstSequence : option Z;
  firstReceivedAt : option time_value;
  sessionStartedAt : option time_value;
  runStartedAt : option time_value;
  status : option string;
  fbytes : option Z;
  archiveBytes : option Z;
  archiveGroupId : option string;
  sha256 : option string }.

(** `str` is true when non-empty. *)
Definition str_truthy (s : option string) : bool :=
  match s with Some (String _ _) => true | _ => false end.

(** ** Keys *)

(** The instant of one time field, in microseconds; [None] is `continue`. *)
Definition field_instant `{FromIso} (value : option time_value) : option Z :=
  match value with
  | None => None
  | Some (TDate d) => Some (utc_instant d)
  | Some (TText s) => utc_instant <$> from_iso s
  end.

Fixpoint first_some {A} (l : list (option A)) : option A :=
  match l with [] => None | Some x :: _ => Some x | None :: l => first_some l end.

(** [_time_key]. *)
Definition _time_key `{FromIso} (f : file) : Z :=
  default 0 (first_some (map field_instant
    [firstReceivedAt f; sessionStartedAt f; runStartedAt f; TText <$> hour f])).

(** The three shapes of a stream key. *)
Inductive stream_key : Type :=
  | KHour (taskId nodeId hour : option string)
  | KSession (taskId nodeId runId sessionId : option string)
  | KFile (id : string).

#[global] Instance stream_key_eq_dec : EqDecision stream_key.
Proof. solve_decision. Defined.

Definition stream_of (f : file) : stream_key :=
  let part := default 0 (segmentNumber f) in
  if 0 <? part then KHour (taskId f) (nodeId f) (hour f)
  else if str_truthy (sessionId f) then KSession (taskId f) (nodeId f) (runId f) (sessionId f)
  else KFile (id f).

(** The sort key inside a stream and the merge key across streams. *)
Definition part_key (f : file) : Z * (Z * string) :=
  (default 0 (segmentNumber f), (default 0 (firstSequence f), id f)).

Definition merge_key `{FromIso} (f : file) : Z * (Z * string) :=
  (_time_key f, (default 0 (firstSequence f), id f)).

Abbreviation key3_leb := (pair_leb Z.leb (pair_leb Z.leb str_leb)).

(** ** The heap merge *)

Section merge.
Context {A K : Type} (mkey : A -> K) (leb : K -> K -> bool) (streams : list (list A)).

(** A heap entry `(key, group, position)`, compared as a tuple. *)
Abbreviation entry := (K * (nat * nat))%type.

Definition entry_leb : entry -> entry -> bool := pair_leb leb (pair_leb Nat.leb Nat.leb).

(** `push(group, position)`; `streams[group][position]` raises out of range,
    which [None] stands for. *)
Definition push (group position : nat) (heap : list entry) : option (list entry) :=
  f ← (streams !! group ≫= fun s => s !! position);
  Some ((mkey f, (group, position)) :: heap).

(** `for group in range(len(streams)): push(group, 0)`. *)
Definition initial_heap : option (list entry) :=
  foldl (fun heap group => h ← heap; push group 0 h) (Some []) (seq 0 (length streams)).

(** `while heap`, one `heappop` a turn. *)
Fixpoint drain (fuel : nat) (heap : list entry) (result : list A) : option (list A) :=
  match heap with
  | [] => Some result
  | e :: heap =>
      match fuel with
      | O => None
      | S fuel =>
          let '((_, (group, position)), heap) := pop_min (fun x => x) entry_leb e heap in
          stream ← streams !! group;
          f ← stream !! position;
          let result := result ++ [f] in
          if decide (S position < length stream)%nat
          then heap ← push group (S position) heap; drain fuel heap result
          else drain fuel heap result
      end
  end.

Definition merge_streams : option (list A) :=
  heap ← initial_heap; drain (length (concat streams)) heap [].
End merge.

(** [ordered_files]; [None] would be an `IndexError`. *)
Definition ordered_files `{FromIso} (files : list file) : option (list file) :=
  let streams := map (fun '(_, g) => sort_by part_key key3_leb g) (group_by stream_of files) in
  merge_streams merge_key key3_leb streams.

(** ** Correctness of the merge *)

Section merge_correct.
Context {A K : Type} (mkey : A -> K) (leb : K -> K -> bool) `{!BoolOrder leb}.
Context (streams : list (list A)).

Abbreviation entry := (K * (nat * nat))%type.

(** [pos g] files of stream [g] are already in the result. *)
Record merging (pos : nat -> nat) (heap : list entry) (result : list A) : Prop := {
  mg_heap : forall k g p, (k, (g, p)) ∈ heap <->
    p = pos g /\ exists s f, streams !! g = Some s /\ s !! p = Some f /\ k = mkey f;
  mg_nodup : NoDup heap;
  mg_bound : forall g s, streams !! g = Some s -> (pos g <= length s)%nat;
  mg_result : result ≡ₚ concat (imap (fun g s => take (pos g) s) streams) }.

Definition remaining (pos : nat -> nat) : nat :=
  length (concat (imap (fun g s => drop (pos g) s) streams)).

Definition bump (g : nat) (pos : nat -> nat) : nat -> nat :=
  fun g' => if decide (g' = g) then S (pos g') else pos g'.

Lemma concat_imap_bump (h h' : nat -> list A -> list A) (l : list (list A)) g s x :
  l !! g = Some s -> h' g s ≡ₚ x :: h g s ->
  (forall g' s', g' <> g -> h' g' s' = h g' s') ->
  concat (imap h' l) ≡ₚ x :: concat (imap h l).
Proof.
  revert g h h'. induction l as [|s0 l IH]; intros [|g] h h' Hg Hx Hother; try done; cbn in *.
  - injection Hg as ->. rewrite Hx. cbn.
    rewrite (imap_ext (h' ∘ S) (h ∘ S)); [done|]. intros i y _. cbn. by rewrite Hother.
  - rewrite (Hother 0%nat) by lia.
    rewrite (IH g (h ∘ S) (h' ∘ S)); [|done..|].
    + by rewrite Permutation_middle.
    + intros g' s' Hne. apply Hother. lia.
Qed.

Lemma merging_pop pos heap result e0 heap0 k g p rest :
  merging pos heap result -> heap = e0 :: heap0 ->
  pop_min (fun x => x) (entry_leb leb) e0 heap0 = ((k, (g, p)), rest) ->
  exists s f, streams !! g = Some s /\ s !! p = Some f /\ k = mkey f /\ p = pos g
    /\ remaining pos = S (remaining (bump g pos))
    /\ merging (bump g pos)
         (if decide (S p < length s)%nat
          then (match s !! S p with Some f' => [(mkey f', (g, S p))] | None => [] end) ++ rest
          else rest)
         (result ++ [f]).
Proof.
  intros [Hh Hnd Hb Hr] -> Hpop. apply pop_min_perm in Hpop as Hperm.
  assert (Hin : (k, (g, p)) ∈ e0 :: heap0) by (rewrite <- Hperm; apply list_elem_of_here).
  apply Hh in Hin as (-> & s & f & Hs & Hf & ->). exists s, f.
  assert (Hlt : (pos g < length s)%nat) by by eapply lookup_lt_Some.
  split_and!; try done.
  - unfold remaining. erewrite (Permutation_length (concat_imap_bump
      (λ g' s', drop (bump g pos g') s') (λ g' s', drop (pos g') s') streams g s f Hs _ _)); [done|..].
    Unshelve.
    + unfold bump. rewrite decide_True by done. by rewrite (drop_S s f).
    + intros g' s' Hne. unfold bump. by rewrite decide_False.
  - rewrite <- Hperm in Hnd. inversion_clear Hnd as [|? ? Hnin Hnd'].
    assert (Hrest : forall k' g' p', (k', (g', p')) ∈ rest <->
      g' <> g /\ p' = pos g' /\ exists s f, streams !! g' = Some s /\ s !! p' = Some f /\ k' = mkey f).
    { intros k' g' p'. split.
      - intros Hin. assert (Hin' : (k', (g', p')) ∈ e0 :: heap0)
          by (rewrite <- Hperm; by apply list_elem_of_further).
        apply Hh in Hin' as (-> & s' & f' & Hs' & Hf' & ->).
        split; [|eauto 10]. intros ->. simplify_eq. done.
      - intros (Hne & -> & s' & f' & Hs' & Hf' & ->).
        assert (Hin : (mkey f', (g', pos g')) ∈ e0 :: heap0) by (apply Hh; eauto 10).
        rewrite <- Hperm in Hin. apply elem_of_cons in Hin as [[=]|]; [congruence|done]. }
    split.
    + intros k' g' p'. unfold bump at 1.
      destruct (decide (S (pos g) < length s)%nat) as [Hlt'|Hge].
      * destruct (lookup_lt_is_Some_2 s _ Hlt') as [f' Hf']. rewrite Hf'. cbn.
        rewrite elem_of_cons, Hrest. split.
        -- intros [[= -> -> ->]|(Hne & -> & H')]; [rewrite decide_True by done; eauto 10|].
           by rewrite decide_False by done.
        -- intros [-> (s' & f'' & Hs' & Hf'' & ->)]. destruct (decide (g' = g)) as [->|Hne].
           ++ left. by simplify_eq.
           ++ right. eauto 10.
      * rewrite Hrest. split.
        -- intros (Hne & -> & H'). by rewrite decide_False by done.
        -- intros [-> (s' & f'' & Hs' & Hf'' & ->)]. destruct (decide (g' = g)) as [->|Hne].
           ++ simplify_eq. apply lookup_lt_Some in Hf''. lia.
           ++ eauto 10.
    + destruct (decide _) as [Hlt'|]; [|done].
      destruct (lookup_lt_is_Some_2 s _ Hlt') as [f' Hf']. rewrite Hf'. cbn.
      constructor; [|done]. rewrite Hrest. naive_solver.
    + intros g' s' Hs'. unfold bump. case_decide; [subst; simplify_eq; lia|by apply Hb].
    + rewrite Hr. symmetry. rewrite <- Permutation_cons_append. eapply concat_imap_bump; [done|..].
      * unfold bump. rewrite decide_True by done. rewrite (take_S_r _ _ f) by done.
        by rewrite <- Permutation_cons_append.
      * intros g' s' Hne. unfold bump. by rewrite decide_False.
Qed.
Lemma initial_heap_spec n :
  Forall (fun s => s <> []) streams -> (n <= length streams)%nat ->
  exists heap,
    foldl (fun heap group => h ← heap; push mkey streams group 0 h) (Some []) (seq 0 n) = Some heap
    /\ NoDup heap
    /\ forall k g p, (k, (g, p)) ∈ heap <->
         (g < n)%nat /\ p = O /\ exists s f, streams !! g = Some s /\ s !! p = Some f /\ k = mkey f.
Proof.
  intros Hne. induction n as [|n IH]; intros Hn.
  { exists []. split_and!; [done|constructor|]. intros k g p. rewrite elem_of_nil. naive_solver lia. }
  destruct IH as (heap & Hf & Hnd & Hh); [lia|].
  rewrite seq_S, foldl_app, Hf. cbn. unfold push.
  destruct (lookup_lt_is_Some_2 streams n ltac:(lia)) as [s Hs]. rewrite Hs. cbn.
  assert (s <> []) by (rewrite Forall_forall in Hne; apply Hne; by eapply list_elem_of_lookup_2).
  destruct s as [|f s]; [done|]. cbn. eexists. split; [done|]. split.
  - constructor; [|done]. rewrite Hh. naive_solver lia.
  - intros k g p. rewrite elem_of_cons, Hh. split.
    + intros [[= -> -> ->]|(Hlt & -> & Hx)]; [|split_and!; [lia|done..]].
      split_and!; [lia|done|]. by exists (f :: s), f.
    + intros (Hlt & -> & s' & f' & Hs' & Hf' & ->). destruct (decide (g = n)) as [->|].
      * left. simplify_eq. by cbn in *; simplify_eq.
      * right. split_and!; [lia|done|]. eauto.
Qed.

Lemma initial_merging :
  Forall (fun s => s <> []) streams ->
  exists heap, initial_heap mkey streams = Some heap /\ merging (fun _ => O) heap [].
Proof.
  intros Hne. destruct (initial_heap_spec (length streams) Hne) as (heap & Hf & Hnd & Hh); [done|].
  exists heap. split; [done|]. split; [|done|intros; lia|].
  - intros k g p. rewrite Hh. split; [naive_solver|].
    intros (-> & s & f & Hs & Hx). split; [by eapply lookup_lt_Some|eauto].
  - clear. replace (concat (imap (λ _ s, take 0 s) streams)) with (@nil A); [done|].
    induction streams as [|s l IH]; [done|]. cbn. exact IH.
Qed.

(** Any invariant of single turns holds at the end, which is reached. *)
Lemma drain_ind (Inv : (nat -> nat) -> list entry -> list A -> Prop) :
  (forall pos heap result e0 heap0 g p rest s f,
     merging pos heap result -> Inv pos heap result -> heap = e0 :: heap0 ->
     pop_min (fun x => x) (entry_leb leb) e0 heap0 = ((mkey f, (g, p)), rest) ->
     streams !! g = Some s -> s !! p = Some f -> p = pos g ->
     Inv (bump g pos)
       (if decide (S p < length s)%nat
        then (match s !! S p with Some f' => [(mkey f', (g, S p))] | None => [] end) ++ rest
        else rest)
       (result ++ [f])) ->
  forall fuel pos heap result,
    merging pos heap result -> Inv pos heap result -> (remaining pos <= fuel)%nat ->
    exists pos' result', drain mkey leb streams fuel heap result = Some result'
      /\ merging pos' [] result' /\ Inv pos' [] result'.
Proof.
  intros Hstep fuel. induction fuel as [|fuel IH]; intros pos heap result Hm Hi Hf;
    (destruct heap as [|e0 heap0]; [by exists pos, result|]); cbn [drain];
    destruct (pop_min (λ x, x) (entry_leb leb) e0 heap0) as [[k [g p]] rest] eqn:Epop;
    destruct (merging_pop _ _ _ _ _ _ _ _ _ Hm eq_refl Epop)
      as (s & f & Hs & Hx & -> & -> & Hrem & Hm'); [lia|].
  rewrite Hs. cbn. rewrite Hx. cbn.
  specialize (Hstep _ _ _ _ _ _ _ _ _ _ Hm Hi eq_refl Epop Hs Hx eq_refl).
  destruct (decide (S (pos g) < length s)%nat) as [Hlt|Hge].
  - destruct (lookup_lt_is_Some_2 s _ Hlt) as [f' Hf']. rewrite Hf' in *.
    unfold push. rewrite Hs. cbn. rewrite Hf'. cbn. apply (IH (bump g pos)); [done..|lia].
  - apply (IH (bump g pos)); [done..|lia].
Qed.

Lemma merge_streams_ind (Inv : (nat -> nat) -> list entry -> list A -> Prop) :
  Forall (fun s => s <> []) streams ->
  (forall heap, initial_heap mkey streams = Some heap -> Inv (fun _ => O) heap []) ->
  (forall pos heap result e0 heap0 g p rest s f,
     merging pos heap result -> Inv pos heap result -> heap = e0 :: heap0 ->
     pop_min (fun x => x) (entry_leb leb) e0 heap0 = ((mkey f, (g, p)), rest) ->
     streams !! g = Some s -> s !! p = Some f -> p = pos g ->
     Inv (bump g pos)
       (if decide (S p < length s)%nat
        then (match s !! S p with Some f' => [(mkey f', (g, S p))] | None => [] end) ++ rest
        else rest)
       (result ++ [f])) ->
  exists pos result, merge_streams mkey leb streams = Some result
    /\ merging pos [] result /\ Inv pos [] result.
Proof.
  intros Hne Hinit Hstep. destruct (initial_merging Hne) as (heap & Hh & Hm).
  unfold merge_streams. rewrite Hh. cbn.
  apply (drain_ind Inv Hstep _ (fun _ => O)); [done|by apply Hinit|].
  unfold remaining. apply Nat.eq_le_incl. f_equal. f_equal. clear.
  induction streams as [|s l IH]; [done|]. cbn. f_equal. exact IH.
Qed.

(** At the end every stream is used up. *)
Lemma merging_done pos result :
  merging pos [] result -> forall g s, streams !! g = Some s -> pos g = length s.
Proof.
  intros [Hh _ Hb _] g s Hs. specialize (Hb g s Hs).
  destruct (decide (pos g < length s)%nat) as [Hlt|]; [|lia].
  destruct (lookup_lt_is_Some_2 s _ Hlt) as [f Hf].
  assert (Hin : (mkey f, (g, pos g)) ∈ []) by (apply Hh; split; [done|by exists s, f]).
  by apply elem_of_nil in Hin.
Qed.

Lemma merging_done_perm pos result : merging pos [] result -> result ≡ₚ concat streams.
Proof.
  intros Hm. rewrite (mg_result _ _ _ Hm).
  assert (Hd : forall g s, streams !! g = Some s -> take (pos g) s = s).
  { intros g s Hs. apply take_ge. by rewrite (merging_done pos result Hm g s Hs). }
  rewrite (imap_ext _ (λ _ s, s)) by (intros; by apply Hd). 
  change (concat (imap (const Datatypes.id) streams) ≡ₚ concat streams). by rewrite imap_const, list_fmap_id.
Qed.

(** *** Each stream keeps its own order *)

Lemma merge_streams_classes {C} `{EqDecision C} (cls : A -> C) (keys : list C) :
  NoDup keys -> Forall2 (fun k s => s <> [] /\ Forall (fun x => cls x = k) s) keys streams ->
  exists result, merge_streams mkey leb streams = Some result
    /\ result ≡ₚ concat streams
    /\ forall g k s, keys !! g = Some k -> streams !! g = Some s ->
         filter (fun x => cls x = k) result = s.
Proof.
  intros Hnd Hks.
  destruct (merge_streams_ind (fun pos _ result =>
    forall g k s, keys !! g = Some k -> streams !! g = Some s ->
      filter (fun x => cls x = k) result = take (pos g) s)) as (pos & result & Hr & Hm & Hi).
  - apply Forall_lookup_2. intros g s Hs.
    destruct (Forall2_lookup_r _ _ _ _ _ Hks Hs) as (k & _ & Hne & _). done.
  - intros heap _ g k s _ _. done.
  - intros pos heap result e0 heap0 g p rest s f _ Hi _ _ Hs Hf -> g' k' s' Hk' Hs'.
    rewrite filter_app, filter_singleton, (Hi g' k' s') by done. unfold bump.
    destruct (Forall2_lookup_r _ _ _ _ _ Hks Hs) as (k & Hk & _ & Hcls).
    assert (Hcf : cls f = k) by (rewrite Forall_lookup in Hcls; by eapply Hcls).
    destruct (decide (g' = g)) as [->|Hne].
    + simplify_eq. rewrite decide_True by done. by rewrite (take_S_r _ _ f).
    + rewrite (decide_False (P := cls f = k')), app_nil_r; [done|].
      intros Heq. apply Hne. eapply NoDup_lookup; [done..|]. congruence.
  - exists result. split; [done|]. split; [by eapply merging_done_perm|].
    intros g k s Hk Hs. rewrite (Hi g k s) by done.
    by rewrite (merging_done _ _ Hm g s Hs), take_ge.
Qed.

(** *** Streams in key order merge in key order *)

Lemma merge_streams_sorted :
  Forall (fun s => s <> []) streams -> Forall (StronglySorted (key_le mkey leb)) streams ->
  exists result, merge_streams mkey leb streams = Some result
    /\ StronglySorted (key_le mkey leb) result.
Proof.
  intros Hne Hsorted.
  destruct (merge_streams_ind (fun pos heap result =>
    StronglySorted (key_le mkey leb) result
    /\ Forall (fun x => Forall (fun e : entry => leb (mkey x) e.1 = true) heap) result))
    as (pos & result & Hr & _ & Hs & _); [done|..].
  - intros heap _. split; constructor.
  - intros pos heap result e0 heap0 g p rest s f Hm [Hss Hle] -> Hpop Hs Hf ->.
    pose proof (pop_min_perm _ _ _ _ _ _ Hpop) as Hperm.
    pose proof (pop_min_least _ _ _ _ _ _ Hpop) as Hleast.
    rewrite <- Hperm in Hleast. inversion_clear Hleast as [|? ? _ Hrest].
    assert (Hmin : Forall (fun e : entry => leb (mkey f) e.1 = true) rest).
    { eapply Forall_impl; [exact Hrest|]. intros [k gp] H. unfold key_le, entry_leb, pair_leb in H.
      apply andb_prop in H as [H _]. exact H. }
    assert (Hres : Forall (fun x => leb (mkey x) (mkey f) = true) result).
    { eapply Forall_impl; [exact Hle|]. intros x Hx. cbn beta in Hx. rewrite <- Hperm in Hx. by inversion_clear Hx. }
    assert (Hnext : forall f', s !! S (pos g) = Some f' -> leb (mkey f) (mkey f') = true).
    { intros f' Hf'. rewrite Forall_lookup in Hsorted. specialize (Hsorted _ _ Hs).
      rewrite <- (take_drop (pos g) s) in Hsorted.
      rewrite (drop_S s f) in Hsorted by done.
      apply StronglySorted_app_1_r in Hsorted. inversion_clear Hsorted as [|? ? _ Hf0].
      rewrite Forall_forall in Hf0. apply Hf0. apply list_elem_of_lookup.
      exists O. by rewrite lookup_drop, Nat.add_0_r. }
    split.
    + apply StronglySorted_app_2; [|done|repeat constructor].
      intros x1 x2 Hx1 Hx2. apply list_elem_of_singleton in Hx2 as ->.
      rewrite Forall_forall in Hres. by apply Hres.
    + assert (Hheap : forall x, leb (mkey x) (mkey f) = true ->
        Forall (fun e : entry => leb (mkey x) e.1 = true)
          (if decide (S (pos g) < length s)%nat
           then (match s !! S (pos g) with Some f' => [(mkey f', (g, S (pos g)))] | None => [] end) ++ rest
           else rest)).
      { intros x Hx. assert (Hr : Forall (fun e : entry => leb (mkey x) e.1 = true) rest).
        { eapply Forall_impl; [exact Hmin|]. intros e. by apply bo_trans. }
        destruct (decide _); [|done]. destruct (s !! S (pos g)) as [f'|] eqn:E; cbn; [|done].
        constructor; [|done]. cbn. eapply bo_trans; [exact Hx|by apply Hnext]. }
      apply Forall_app. split; [|constructor; [apply Hheap, bo_refl; apply _|constructor]].
      eapply Forall_impl; [exact Hres|]. intros x. apply Hheap.
  - exists result. done.
Qed.
End merge_correct.

(** ** The catalog order *)

Section ordered.
Context `{FromIso}.

Definition streams_of (files : list file) : list (list file) :=
  map (fun '(_, g) => sort_by part_key key3_leb g) (group_by stream_of files).

Lemma streams_of_classes files :
  Forall2 (fun k s => s <> [] /\ Forall (fun x => stream_of x = k) s)
    (group_by stream_of files).*1 (streams_of files).
Proof.
  destruct (group_by_grouped stream_of files) as (_ & Hg & _). unfold streams_of.
  apply Forall2_fmap_l, Forall2_fmap_r, Forall_Forall2_diag.
  eapply Forall_impl; [exact Hg|]. intros [k g] [Hne Heq]. cbn. split.
  - intros Hnil. apply Hne. apply Permutation_nil_r. rewrite <- Hnil. symmetry. apply sort_by_perm.
  - rewrite sort_by_perm, Heq. apply Forall_forall. intros x Hx.
    by apply list_elem_of_filter in Hx as [? _].
Qed.

Lemma streams_of_perm files : concat (streams_of files) ≡ₚ files.
Proof.
  destruct (group_by_grouped stream_of files) as (_ & _ & Hp).
  rewrite <- Hp at 2. unfold streams_of. generalize (group_by stream_of files). intros groups.
  induction groups as [|[k g] groups IH]; cbn; [done|]. by rewrite sort_by_perm, IH.
Qed.

(** [ordered_files] never fails, returns every file exactly once, and
    inside each stream (the segments of one task, node and hour; the files of
    one session; a single legacy file) the order is the stable sort by
    segment number, first sequence and id: a clock rollback or a reset
    session counter never moves a segment before its predecessor. *)
Theorem ordered_files_streams (files : list file) :
  exists result, ordered_files files = Some result
    /\ result ≡ₚ files
    /\ forall k, filter (fun f => stream_of f = k) result
         = sort_by part_key key3_leb (filter (fun f => stream_of f = k) files).
Proof.
  destruct (group_by_grouped stream_of files) as (Hnd & Hg & _).
  destruct (merge_streams_classes merge_key key3_leb (streams_of files) stream_of
    (group_by stream_of files).*1 Hnd (streams_of_classes files)) as (result & Hr & Hp & Hc).
  exists result. rewrite streams_of_perm in Hp. split_and!; [done|done|]. intros k.
  destruct (decide (k ∈ (group_by stream_of files).*1)) as [Hin|Hnin].
  - apply list_elem_of_lookup in Hin as [i Hi].
    pose proof Hi as Hi'. rewrite list_lookup_fmap in Hi'.
    destruct (group_by stream_of files !! i) as [[k' g]|] eqn:Ei; [|done]. injection Hi' as ->.
    rewrite (Hc i k (sort_by part_key key3_leb g)); [|done|].
    + rewrite Forall_lookup in Hg. by destruct (Hg _ _ Ei) as [_ ->].
    + unfold streams_of. by rewrite list_lookup_fmap, Ei.
  - assert (Hno : forall x, x ∈ files -> stream_of x <> k).
    { intros x Hx <-. apply Hnin. rewrite <- (streams_of_perm files) in Hx.
      apply list_elem_of_In, in_concat in Hx as (s & Hs & Hxs). apply list_elem_of_In in Hs, Hxs.
      apply list_elem_of_lookup in Hs as [i Hi].
      destruct (Forall2_lookup_r _ _ _ _ _ (streams_of_classes files) Hi) as (k & Hk & _ & Hall).
      rewrite Forall_forall in Hall. rewrite (Hall x Hxs). by eapply list_elem_of_lookup_2. }
    rewrite !filter_none; [done|done|]. intros x. rewrite Hp. apply Hno.
Qed.

(** When each stream's own order agrees with the merge key (first receive
    time, sequence, id), the catalog order is globally sorted by that key. *)
Theorem ordered_files_time_sorted (files : list file)
    (Hstreams : forall k, StronglySorted (key_le merge_key key3_leb)
                  (sort_by part_key key3_leb (filter (fun f => stream_of f = k) files))) :
  exists result, ordered_files files = Some result
    /\ StronglySorted (key_le merge_key key3_leb) result.
Proof.
  apply (merge_streams_sorted merge_key key3_leb (streams_of files)).
  - apply Forall_lookup_2. intros i s Hs.
    by destruct (Forall2_lookup_r _ _ _ _ _ (streams_of_classes files) Hs) as (k & _ & ? & _).
  - destruct (group_by_grouped stream_of files) as (_ & Hg & _).
    apply Forall_map. eapply Forall_impl; [exact Hg|]. intros [k g] [_ ->]. apply Hstreams.
Qed.
End ordered.

(** Two segments of one hour and a legacy file, in time order. *)
Definition sample_file (i : string) (seg : option Z) (t : Z) : file :=
  mkFile i (Some "t") (Some "n") None None (Some "h") seg None (Some (TDate (Aware t))) None None
    (Some "READY") (Some 10) None None None.

Definition sample_files : list file :=
  [sample_file "b" (Some 2) 20; sample_file "a" (Some 1) 10; sample_file "c" None 15].

Lemma ordered_files_time_sorted_witness :
  exists result, @ordered_files (fun _ => None) sample_files = Some result
    /\ StronglySorted (key_le (@merge_key (fun _ => None)) key3_leb) result
    /\ map id result = ["a"; "c"; "b"].
Proof.
  assert (Hk : forall k, StronglySorted (key_le (@merge_key (fun _ => None)) key3_leb)
    (sort_by part_key key3_leb (filter (fun f => stream_of f = k) sample_files))).
  { intros k. unfold sample_files. rewrite !filter_cons.
    repeat case_decide; try (vm_compute in *; congruence); repeat constructor. }
  destruct (@ordered_files_time_sorted (fun _ => None) sample_files Hk) as (r & Hr & Hs).
  exists r. split; [exact Hr|]. split; [exact Hs|].
  vm_compute in Hr. injection Hr as <-. reflexivity.
Defined.
