(* ===== verification/GapCatalog.v ===== *)
(** * Gap fragments and their paging ([logs/gap_catalog.py], [logs/hour_catalog.py])

    A live client that lost part of a stream asks for the saved bytes between
    two anchors.  The catalog order maps the anchors to fragments; the pages of
    one answer are cut from a snapshot carried, signed, in the cursor.  JSON,
    base64 and HMAC are the interpreter's, arguments of the section. *)

From Stdlib Require Import Ascii.
From S2P Require Import Prelude PyTime Ordering FileOrder.

Definition MAX_CURSOR_LENGTH : Z := 262144.

(** One end of a gap, `_anchor_key`. *)
Record anchor := Anchor { an_file : string; an_offset : Z; an_session : string }.

#[global] Instance anchor_eq_dec : EqDecision anchor.
Proof. solve_decision. Defined.

Definition _anchor_key (file_id : string) (offset : Z) (session_id : string) : anchor :=
  Anchor file_id offset session_id.

Record anchors := Anchors { an_before : anchor; an_after : anchor }.

#[global] Instance anchors_eq_dec : EqDecision anchors.
Proof. solve_decision. Defined.

(** A saved byte range `[start, end)` of a file. *)
Record fragment := Fragment { fr_file : string; fr_session : option string; fr_start : Z; fr_end : Z }.

Inductive issue : Type :=
  | ANCHORS_NOT_LOCATED             (* CATALOG_UNAVAILABLE *)
  | WATERMARK_UNKNOWN               (* CATALOG_UNAVAILABLE: no byte watermark *)
  | WATERMARK_NOT_READY
  | FILE_UNAVAILABLE (file_id : string)
  | CATALOG_TOO_BROAD.

(** What the cursor carries. *)
Record cursor_value := CursorValue {
  cv_anchors : anchors; cv_position : Z; cv_snapshot : list fragment; cv_unrecoverable : list issue }.

(** Why `_cursor` and [catalog_cursor_page] refuse a cursor; both are status 422. *)
Inductive gap_error : Type :=
  | CursorInvalid | AnchorsMismatch | PositionInvalid.

Record page := Page {
  pg_items : list fragment; pg_next : option string; pg_unrecoverable : list issue }.

(** The codec of the standard library: [dumps] is JSON in unpadded URL-safe
    base64, [loads] is its reading with the type checks of `_cursor` ([None]
    when any of them fails), [digest] the hexadecimal HMAC of a payload. *)
Class CursorCodec := {
  dumps : cursor_value -> string;
  loads : string -> option cursor_value;
  digest : string -> string -> string }.

(** `value.split(".", 1)`: [None] when there is no dot. *)
Fixpoint split_dot (s : string) : option (string * string) :=
  match s with
  | EmptyString => None
  | String c s =>
      if Ascii.eqb c "."%char then Some (EmptyString, s)
      else '(a, b) ← split_dot s; Some (String c a, b)
  end.

Section gaps.
Context `{CursorCodec} `{FromIso}.

(** [_cursor]: an absent or empty cursor is [None]. *)
Definition _cursor (value : option string) (signing_key : string) : result gap_error (option cursor_value) :=
  match value with
  | None | Some EmptyString => Ok None
  | Some value =>
      if MAX_CURSOR_LENGTH <? Z.of_nat (String.length value) then Raise CursorInvalid
      else match split_dot value with
           | None => Raise CursorInvalid
           | Some (payload, signature) =>
               if String.eqb signature (digest signing_key payload)
               then match loads payload with Some v => Ok (Some v) | None => Raise CursorInvalid end
               else Raise CursorInvalid
           end
  end.

(** [_encode_cursor]. *)
Definition _encode_cursor (value : cursor_value) (signing_key : string) : string :=
  let payload := dumps value in
  (payload ++ "." ++ digest signing_key payload)%string.

(** `l[a:b]` for non-negative bounds. *)
Definition slice {A} (a b : Z) (l : list A) : list A := drop (Z.to_nat a) (take (Z.to_nat b) l).

Definition fragment_ok (f : fragment) : bool := (0 <=? fr_start f) && (fr_start f <? fr_end f).

(** [catalog_cursor_page]. *)
Definition catalog_cursor_page (cursor : option string) (anch : anchors) (limit : Z) (signing_key : string)
  : result gap_error (option page) :=
  saved ← _cursor cursor signing_key;
  match saved with
  | None => Ok None
  | Some saved =>
      if negb (bool_decide (cv_anchors saved = anch)) then Raise AnchorsMismatch
      else
        let snapshot := cv_snapshot saved in
        let position := cv_position saved in
        if (position <? 0) || (zlen snapshot <? position) || negb (forallb fragment_ok snapshot)
        then Raise PositionInvalid
        else
          let next_position := position + limit in
          Ok (Some (Page (slice position next_position snapshot)
                (if next_position <? zlen snapshot
                 then Some (_encode_cursor (CursorValue anch next_position snapshot (cv_unrecoverable saved)) signing_key)
                 else None)
                (cv_unrecoverable saved)))
  end.

(** The dictionary of positions: the last file of an id wins. *)
Definition positions (ordered : list file) : gmap string nat :=
  foldl (fun d p => <[id p.2 := p.1]> d) ∅ (zip (seq 0 (length ordered)) ordered).

(** `isinstance(value, int) and value >= 0`. *)
Definition watermark (f : file) : option Z := b ← fbytes f; if 0 <=? b then Some b else None.

(** One turn of the loop over the selected files. *)
Definition gap_step (before_offset after_offset : Z) (count : nat) (st : list fragment * list issue) (p : nat * file)
  : list fragment * list issue :=
  let '(snapshot, issues) := st in
  let '(relative, f) := p in
  match watermark f with
  | Some b =>
      if bool_decide (status f = Some "DELETED") then (snapshot, issues ++ [FILE_UNAVAILABLE (id f)])
      else
        let start := if (relative =? 0)%nat then before_offset else 0 in
        let stop := if (relative =? count - 1)%nat then after_offset else b in
        (if start <? stop then snapshot ++ [Fragment (id f) (sessionId f) start stop] else snapshot, issues)
  | None => (snapshot, issues ++ [FILE_UNAVAILABLE (id f)])
  end.

(** The fragments between two positions of the ordered catalog. *)
Definition gap_snapshot (ordered : list file) (anch : anchors) : issue + (list fragment * list issue) :=
  match positions ordered !! an_file (an_before anch), positions ordered !! an_file (an_after anch) with
  | Some before_index, Some after_index =>
      if (after_index <? before_index)%nat then inl ANCHORS_NOT_LOCATED
      else
        match ordered !! before_index ≫= watermark, ordered !! after_index ≫= watermark with
        | Some before_bytes, Some after_bytes =>
            let before_offset := an_offset (an_before anch) in
            let after_offset := an_offset (an_after anch) in
            if (before_bytes <? before_offset) || (after_bytes <? after_offset)
               || ((before_index =? after_index)%nat && (after_offset <? before_offset))
            then inl WATERMARK_NOT_READY
            else
              let selected := drop before_index (take (S after_index) ordered) in
              let '(snapshot, issues) :=
                foldl (gap_step before_offset after_offset (length selected)) ([], [])
                  (zip (seq 0 (length selected)) selected) in
              if 200 <? zlen snapshot then inl CATALOG_TOO_BROAD else inr (snapshot, issues)
        | _, _ => inl WATERMARK_UNKNOWN
        end
  | _, _ => inl ANCHORS_NOT_LOCATED
  end.

(** [catalog_gap_fragments]. *)
Definition catalog_gap_fragments (files : list file) (anch : anchors) (limit : Z) (cursor : option string)
    (signing_key : string) : result gap_error page :=
  saved_page ← catalog_cursor_page cursor anch limit signing_key;
  match saved_page with
  | Some p => Ok p
  | None =>
      Ok match gap_snapshot (default [] (ordered_files files)) anch with
         | inl i => Page [] None [i]
         | inr (snapshot, issues) =>
             Page (slice 0 limit snapshot)
               (if limit <? zlen snapshot
                then Some (_encode_cursor (CursorValue anch limit snapshot issues) signing_key) else None)
               issues
         end
  end.

(** A client that follows the cursors, each request seeing its own catalog. *)
Fixpoint follow (fuel : nat) (catalogs : nat -> list file) (anch : anchors) (limit : Z) (signing_key : string)
    (cursor : option string) : result gap_error (list fragment) :=
  match fuel with
  | O => Ok []
  | S fuel =>
      p ← catalog_gap_fragments (catalogs fuel) anch limit cursor signing_key;
      match pg_next p with
      | None => Ok (pg_items p)
      | Some c => rest ← follow fuel catalogs anch limit signing_key (Some c); Ok (pg_items p ++ rest)
      end
  end.

(** ** Lemmas *)

Lemma split_dot_app a b :
  (forall c, c ∈ String.list_ascii_of_string a -> c <> "."%char) ->
  split_dot (a ++ "." ++ b)%string = Some (a, b).
Proof.
  induction a as [|c a IH]; intros Ha; [reflexivity|].
  change (String c a ++ "." ++ b)%string with (String c (a ++ "." ++ b)%string). cbn [split_dot].
  destruct (Ascii.eqb_spec c "."%char) as [->|]; [exfalso; apply (Ha "."%char); [by left|done]|].
  rewrite IH; [done|]. intros c' Hc'. apply Ha. by right.
Qed.

Lemma positions_spec ordered : NoDup (map id ordered) -> forall i n,
  positions ordered !! i = Some n <-> exists f, ordered !! n = Some f /\ id f = i.
Proof.
  intros Hnd. unfold positions.
  induction ordered as [|f ordered IH] using rev_ind; intros i n.
  { change (foldl _ ∅ _) with (∅ : gmap string nat). rewrite lookup_empty. split; [done|]. by intros (? & ? & _). }
  rewrite map_app in Hnd. apply NoDup_app in Hnd as (Hnd & Hdis & _). specialize (IH Hnd).
  rewrite length_app, Nat.add_1_r, seq_S, zip_with_app by (by rewrite length_seq).
  rewrite foldl_app. cbn [zip_with foldl fst snd]. rewrite lookup_insert_Some, IH. split.
  - intros [[<- <-]|[Hne (g & Hg & <-)]].
    + exists f. split; [by rewrite lookup_app_r, Nat.sub_diag|done].
    + exists g. split; [by apply lookup_app_l_Some|done].
  - intros (g & Hg & <-). apply lookup_app_Some in Hg as [Hg|[Hlen Hg]].
    + right. split; [|by exists g]. intros Heq. apply (Hdis (id g)).
      * apply list_elem_of_fmap. exists g. split; [done|by eapply list_elem_of_lookup_2].
      * rewrite <- Heq. by left.
    + apply list_lookup_singleton_Some in Hg as [Hz <-]. left. split; [done|lia].
Qed.
(** ** The snapshot *)

Definition unavailable (f : file) : Prop := watermark f = None \/ status f = Some "DELETED".

(** The fragments and issues of one selected file. *)
Definition gap_fragments (bo ao : Z) (count : nat) (p : nat * file) : list fragment * list issue :=
  gap_step bo ao count ([], []) p.

Lemma gap_step_app bo ao count st p :
  gap_step bo ao count st p
  = (st.1 ++ (gap_fragments bo ao count p).1, st.2 ++ (gap_fragments bo ao count p).2).
Proof.
  destruct st as [snapshot issues], p as [relative f]. unfold gap_fragments, gap_step. cbn.
  destruct (watermark f) as [b|]; [|by rewrite app_nil_r].
  case_bool_decide; cbn; [by rewrite app_nil_r|]. destruct (_ <? _); by rewrite !app_nil_r.
Qed.

Lemma gap_fold bo ao count l st :
  foldl (gap_step bo ao count) st l
  = (st.1 ++ concat (map (fun p => (gap_fragments bo ao count p).1) l),
     st.2 ++ concat (map (fun p => (gap_fragments bo ao count p).2) l)).
Proof.
  revert st. induction l as [|p l IH]; intros st; cbn [foldl map concat].
  - rewrite !app_nil_r. by destruct st.
  - rewrite IH, gap_step_app. cbn [fst snd]. by rewrite <- !app_assoc.
Qed.

Definition covered (snapshot : list fragment) (file_id : string) (off : Z) : Prop :=
  exists fr, fr ∈ snapshot /\ fr_file fr = file_id /\ fr_start fr <= off < fr_end fr.

Lemma gap_fragments_1 bo ao count relative f fr :
  fr ∈ (gap_fragments bo ao count (relative, f)).1 <->
  exists b, watermark f = Some b /\ status f <> Some "DELETED"
    /\ fr = Fragment (id f) (sessionId f) (if (relative =? 0)%nat then bo else 0)
              (if (relative =? count - 1)%nat then ao else b)
    /\ fr_start fr < fr_end fr.
Proof.
  unfold gap_fragments, gap_step. destruct (watermark f) as [b|]; cbn.
  2:{ split; [by intros ?%elem_of_nil|by intros (? & ? & _)]. }
  case_bool_decide as Hd; cbn; [split; [by intros ?%elem_of_nil|by intros (? & _ & ? & _)]|].
  destruct (Z.ltb_spec (if (relative =? 0)%nat then bo else 0) (if (relative =? count - 1)%nat then ao else b)).
  - split; [intros ->%list_elem_of_singleton; by exists b|].
    intros (b' & [= <-] & _ & -> & _). by left.
  - split; [by intros ?%elem_of_nil|]. intros (b' & [= <-] & _ & -> & Hlt). cbn in Hlt. lia.
Qed.

Lemma gap_fragments_2 bo ao count relative f i :
  i ∈ (gap_fragments bo ao count (relative, f)).2 <-> i = FILE_UNAVAILABLE (id f) /\ unavailable f.
Proof.
  unfold gap_fragments, gap_step, unavailable. destruct (watermark f) as [b|]; cbn.
  2:{ rewrite list_elem_of_singleton. split; [|tauto]. auto. }
  case_bool_decide as Hd; cbn; rewrite ?list_elem_of_singleton, ?elem_of_nil; split; intuition congruence.
Qed.

Lemma zip_seq_elem {A} (l : list A) n x : (n, x) ∈ zip (seq 0 (length l)) l <-> l !! n = Some x.
Proof.
  split.
  - intros [k Hk]%list_elem_of_lookup_1. rewrite lookup_zip_with in Hk.
    destruct (seq 0 (length l) !! k) as [m|] eqn:Em; cbn in Hk; [|done].
    apply lookup_seq in Em as [-> _]. cbn in Hk. destruct (l !! k) eqn:El; cbn in Hk; [|done].
    injection Hk as <- <-. done.
  - intros Hn. apply (list_elem_of_lookup_2 _ n). rewrite lookup_zip_with.
    rewrite lookup_seq_lt by (by apply lookup_lt_Some in Hn). cbn. by rewrite Hn.
Qed.

(** The snapshot of a gap is exact: a byte of the ordered catalog is in
    one of its fragments if and only if its file is available and its
    position, file first and offset second, lies between the two anchors; the
    issues name exactly the unavailable files in between. *)
Theorem gap_snapshot_exact (files : list file) (anch : anchors)
    (snapshot : list fragment) (issues : list issue) :
  let ordered := default [] (ordered_files files) in
  forall (Hids : NoDup (map id ordered)) (Hoff : 0 <= an_offset (an_before anch))
    (Hgap : gap_snapshot ordered anch = inr (snapshot, issues)),
  exists bi ai, (bi <= ai)%nat
    /\ (exists f, ordered !! bi = Some f /\ id f = an_file (an_before anch))
    /\ (exists f, ordered !! ai = Some f /\ id f = an_file (an_after anch))
    /\ (forall n f off, ordered !! n = Some f ->
         covered snapshot (id f) off <->
         ~ unavailable f /\ (exists b, fbytes f = Some b /\ 0 <= off < b)
         /\ ((bi < n)%nat \/ n = bi /\ an_offset (an_before anch) <= off)
         /\ ((n < ai)%nat \/ n = ai /\ off < an_offset (an_after anch)))
    /\ (forall n f, ordered !! n = Some f ->
         FILE_UNAVAILABLE (id f) ∈ issues <-> (bi <= n <= ai)%nat /\ unavailable f).
Proof.
  intros ordered Hids Hoff Hgap. unfold gap_snapshot in Hgap.
  destruct (positions ordered !! an_file (an_before anch)) as [bi|] eqn:Ebi; [|done].
  destruct (positions ordered !! an_file (an_after anch)) as [ai|] eqn:Eai; [|done].
  apply positions_spec in Ebi as (fb & Hfb & Hidb), Eai as (fa & Hfa & Hida); [|done|done].
  destruct (Nat.ltb_spec ai bi); [done|]. rewrite Hfb, Hfa in Hgap. cbn in Hgap.
  destruct (watermark fb) as [bb|] eqn:Ewb; [|done]. destruct (watermark fa) as [ba|] eqn:Ewa; [|done].
  destruct (_ || _ || _) eqn:Ew; [done|].
  set (bo := an_offset (an_before anch)) in *. set (ao := an_offset (an_after anch)) in *.
  set (selected := drop bi (take (S ai) ordered)) in *. rewrite gap_fold in Hgap. cbn [fst snd app] in Hgap.
  set (snap := concat (map (fun p => (gap_fragments bo ao (length selected) p).1) _)) in Hgap.
  destruct (200 <? zlen snap); [done|]. injection Hgap as <- <-.
  assert (Hal : (ai < length ordered)%nat) by by apply lookup_lt_Some in Hfa.
  assert (Hcount : length selected = (S ai - bi)%nat) by (unfold selected; rewrite length_drop, length_take; lia).
  assert (Hsel : forall r f, selected !! r = Some f <-> ordered !! (bi + r)%nat = Some f /\ (bi + r <= ai)%nat).
  { intros r f. unfold selected. rewrite lookup_drop, lookup_take_Some. intuition lia. }
  assert (Huniq : forall n m f g, ordered !! n = Some f -> ordered !! m = Some g -> id f = id g -> n = m).
  { intros n m f g Hn Hm Hid. eapply (NoDup_lookup (map id ordered)); [done| |].
    - by rewrite list_lookup_fmap, Hn.
    - rewrite list_lookup_fmap, Hm. cbn. by rewrite Hid. }
  breflect.
  assert (Hwm : forall f b, watermark f = Some b <-> fbytes f = Some b /\ 0 <= b).
  { intros f b. unfold watermark. destruct (fbytes f) as [b'|]; cbn; [|split; [done|by intros [? _]]].
    destruct (Z.leb_spec 0 b'); split; [intros [= <-]; done|intros [[= ->] _]; done|done|intros [[= ->] ?]; lia]. }
  exists bi, ai. split; [lia|]. split; [by exists fb|]. split; [by exists fa|]. split.
  - intros n f off Hn. unfold covered, snap. split.
    + intros (fr & Hin & Hid & Hr).
      apply list_elem_of_In, in_concat in Hin as (l & Hl & Hin). apply in_map_iff in Hl as ([r g] & <- & Hrg).
      apply list_elem_of_In in Hin, Hrg. apply zip_seq_elem, Hsel in Hrg as [Hg Hle].
      apply gap_fragments_1 in Hin as (b & Hb & Hd & -> & _). cbn in Hid, Hr.
      pose proof (Huniq _ _ _ _ Hg Hn Hid) as <-. rewrite Hn in Hg. injection Hg as <-.
      apply Hwm in Hb as Hb'. destruct Hb' as [Hfb' Hb0].
      split; [unfold unavailable; rewrite Hb; by intros [?|?]|].
      assert (Hlast : forall x y : Z, (if (r =? length selected - 1)%nat then x else y) = if (bi + r =? ai)%nat then x else y).
      { intros x y. destruct (Nat.eqb_spec r (length selected - 1)), (Nat.eqb_spec (bi + r) ai); lia. }
      rewrite Hlast in Hr.
      assert (Hbaf : (bi + r = ai)%nat -> b = ba).
      { intros Heq. rewrite Heq, Hfa in Hn. injection Hn as <-. congruence. }
      destruct (Nat.eqb_spec r 0), (Nat.eqb_spec (bi + r) ai);
        (split_and!; [exists b; split; [done|lia]|lia|lia]).
    + intros (Hav & (b & Hb & Hob) & Hlo & Hhi).
      set (r := (n - bi)%nat). assert (Hnr : n = (bi + r)%nat) by lia. rewrite Hnr in Hn, Hlo, Hhi.
      assert (Hwf : watermark f = Some b) by (apply Hwm; split; [done|lia]).
      eexists. split.
      * apply list_elem_of_In, in_concat. eexists. split; [apply in_map_iff; exists (r, f); split; [reflexivity|]|].
        -- apply list_elem_of_In, zip_seq_elem, Hsel. split; [done|lia].
        -- apply list_elem_of_In, gap_fragments_1. exists b. split_and!; [done| |reflexivity|].
           ++ intros Hd. apply Hav. by right.
           ++ cbn. rewrite Hcount. destruct (Nat.eqb_spec r 0), (Nat.eqb_spec r (S ai - bi - 1)); lia.
      * cbn. split; [done|]. rewrite Hcount. destruct (Nat.eqb_spec r 0), (Nat.eqb_spec r (S ai - bi - 1)); lia.
  - intros n f Hn. split.
    + intros Hin. apply list_elem_of_In, in_concat in Hin as (l & Hl & Hin).
      apply in_map_iff in Hl as ([r g] & <- & Hrg). apply list_elem_of_In in Hin, Hrg.
      apply zip_seq_elem, Hsel in Hrg as [Hg Hle]. apply gap_fragments_2 in Hin as [[= Hid] Hu].
      pose proof (Huniq _ _ _ _ Hn Hg Hid) as ->. rewrite Hn in Hg. injection Hg as <-. split; [lia|done].
    + intros [Hr Hu]. apply list_elem_of_In, in_concat. eexists. split.
      * apply in_map_iff. exists ((n - bi)%nat, f). split; [reflexivity|].
        apply list_elem_of_In, zip_seq_elem, Hsel. split; [|lia]. rewrite <- Hn. f_equal. lia.
      * by apply list_elem_of_In, gap_fragments_2.
Qed.
(** ** Pages *)

Lemma slice_drop {A} a b (l : list A) : 0 <= a <= b -> slice a b l ++ drop (Z.to_nat b) l = drop (Z.to_nat a) l.
Proof.
  intros Hab. unfold slice. rewrite <- (take_drop (Z.to_nat b) l) at 3.
  destruct (decide (Z.to_nat a <= length (take (Z.to_nat b) l))%nat).
  - by rewrite drop_app_le.
  - rewrite take_drop. rewrite length_take in *. by rewrite !drop_ge by (rewrite ?length_take; lia).
Qed.

Lemma slice_all {A} a b (l : list A) : zlen l <= b -> slice a b l = drop (Z.to_nat a) l.
Proof. intros Hb. unfold slice. rewrite take_ge; [done|unfold zlen in *; lia]. Qed.

Lemma snapshot_fragments_ok ordered anch snapshot issues :
  0 <= an_offset (an_before anch) -> gap_snapshot ordered anch = inr (snapshot, issues) ->
  forallb fragment_ok snapshot = true.
Proof.
  intros Hoff. unfold gap_snapshot. repeat case_match; try done. intros [= <- <-].
  match goal with H : foldl _ _ _ = _ |- _ => rewrite gap_fold in H; injection H as <- _ end.
  apply forallb_forall. intros fr Hin. cbn in Hin. apply in_concat in Hin as (l' & Hl & Hin).
  apply in_map_iff in Hl as ([r g] & <- & _). apply list_elem_of_In, gap_fragments_1 in Hin as (b & _ & _ & -> & Hlt).
  unfold fragment_ok. cbn [fr_start fr_end] in *. destruct (r =? 0)%nat; lia.
Qed.

Section paging.
Variables (anch : anchors) (limit : Z) (signing_key : string) (snapshot : list fragment) (issues : list issue).
Hypothesis limit_positive : 0 < limit.
Hypothesis fragments_ok : forallb fragment_ok snapshot = true.

(** The cursor at a position of the snapshot, and what it must satisfy: the
    codec reads back what it wrote, without a dot and within the length bound. *)
Definition cursor_at (position : Z) : cursor_value := CursorValue anch position snapshot issues.

Definition codec_ok : Prop := forall position, 0 <= position <= zlen snapshot ->
  loads (dumps (cursor_at position)) = Some (cursor_at position)
  /\ (forall c, c ∈ String.list_ascii_of_string (dumps (cursor_at position)) -> c <> "."%char)
  /\ Z.of_nat (String.length (_encode_cursor (cursor_at position) signing_key)) <= MAX_CURSOR_LENGTH.

Hypothesis codec : codec_ok.

Lemma cursor_roundtrip position : 0 <= position <= zlen snapshot ->
  _cursor (Some (_encode_cursor (cursor_at position) signing_key)) signing_key = Ok (Some (cursor_at position)).
Proof.
  intros Hp. destruct (codec position Hp) as (Hl & Hd & Hlen). unfold _cursor.
  set (c := _encode_cursor (cursor_at position) signing_key) in *.
  assert (Hs : split_dot c = Some (dumps (cursor_at position), digest signing_key (dumps (cursor_at position))))
    by by apply split_dot_app.
  destruct c as [|c0 c1] eqn:Ec; [by cbn in Hs|]. rewrite (proj2 (Z.ltb_ge _ _)) by done.
  rewrite Hs, String.eqb_refl, Hl. reflexivity.
Qed.

(** A page at a position of the snapshot, whatever the catalog now holds. *)
Lemma page_at position files : 0 <= position <= zlen snapshot ->
  catalog_gap_fragments files anch limit (Some (_encode_cursor (cursor_at position) signing_key)) signing_key
  = Ok (Page (slice position (position + limit) snapshot)
         (if position + limit <? zlen snapshot
          then Some (_encode_cursor (cursor_at (position + limit)) signing_key) else None) issues).
Proof.
  intros Hp. unfold catalog_gap_fragments, catalog_cursor_page.
  rewrite cursor_roundtrip by done. cbn -[slice Z.add].
  rewrite bool_decide_true by done. cbn -[slice Z.add].
  rewrite fragments_ok, (proj2 (Z.ltb_ge position 0)), (proj2 (Z.ltb_ge (zlen snapshot) position)) by lia.
  reflexivity.
Qed.

Lemma follow_from fuel catalogs position :
  0 <= position < zlen snapshot -> zlen snapshot - position <= Z.of_nat fuel ->
  follow fuel catalogs anch limit signing_key (Some (_encode_cursor (cursor_at position) signing_key))
  = Ok (drop (Z.to_nat position) snapshot).
Proof.
  revert position. induction fuel as [|fuel IH]; intros position Hp Hf; [lia|].
  cbn [follow]. rewrite page_at by lia. cbn -[slice Z.add follow].
  destruct (Z.ltb_spec (position + limit) (zlen snapshot)).
  - rewrite IH by lia. cbn -[slice Z.add]. by rewrite slice_drop by lia.
  - by rewrite slice_all by lia.
Qed.
End paging.

(** A client that follows the cursors of a gap receives the snapshot of its
    first request, every fragment once and in order, whatever page size it
    asks for and however the catalog changes between the requests. *)
Theorem gap_pages_partition (fuel : nat) (catalogs : nat -> list file) (anch : anchors) (limit : Z)
    (signing_key : string) (snapshot : list fragment) (issues : list issue)
    (Hlimit : 0 < limit) (Hoff : 0 <= an_offset (an_before anch))
    (Hfirst : gap_snapshot (default [] (ordered_files (catalogs fuel))) anch = inr (snapshot, issues))
    (Hcodec : codec_ok anch signing_key snapshot issues)
    (Hfuel : zlen snapshot <= Z.of_nat fuel) :
  follow (S fuel) catalogs anch limit signing_key None = Ok snapshot.
Proof.
  pose proof (snapshot_fragments_ok _ _ _ _ Hoff Hfirst) as Hok.
  cbn [follow]. unfold catalog_gap_fragments, catalog_cursor_page. cbn -[slice follow].
  rewrite Hfirst. cbn -[slice follow].
  destruct (Z.ltb_spec limit (zlen snapshot)).
  - change (CursorValue anch limit snapshot issues) with (cursor_at anch snapshot issues limit).
    rewrite (follow_from anch limit signing_key snapshot issues Hlimit Hok Hcodec) by lia.
    cbn -[slice]. rewrite slice_drop by lia. reflexivity.
  - rewrite slice_all by lia. reflexivity.
Qed.
End gaps.

(** ** Witnesses: three files, the gap from the middle of the first to the
    middle of the last *)

#[local] Instance no_iso : FromIso := fun _ => None.

Definition gap_file (i : string) (seg size : Z) (st : string) : file :=
  mkFile i (Some "t") (Some "n") (Some "r") (Some "s") (Some "h") (Some seg) (Some seg)
    (Some (TDate (Aware seg))) None None (Some st) (Some size) None None None.

Definition gap_files : list file :=
  [gap_file "c" 3 50 "READY"; gap_file "a" 1 100 "READY"; gap_file "d" 2 70 "DELETED"; gap_file "b" 2 80 "READY"].

Definition gap_anchors : anchors := Anchors (Anchor "a" 60 "s") (Anchor "c" 20 "s").

Definition gap_snapshot_value : list fragment :=
  [Fragment "a" (Some "s") 60 100; Fragment "b" (Some "s") 0 80; Fragment "c" (Some "s") 0 20].

(** A codec for the cursors of this answer: the position in unary. *)
#[local] Instance unary_codec : CursorCodec := {|
  dumps v := String.concat "" (replicate (Z.to_nat (cv_position v)) "p"%string);
  loads s := Some (CursorValue gap_anchors (Z.of_nat (String.length s)) gap_snapshot_value [FILE_UNAVAILABLE "d"]);
  digest key payload := (key ++ payload)%string |}.

Lemma gap_snapshot_exact_witness :
  covered gap_snapshot_value "b" 79 /\ ~ covered gap_snapshot_value "a" 59.
Proof.
  destruct (gap_snapshot_exact gap_files gap_anchors gap_snapshot_value [FILE_UNAVAILABLE "d"])
    as (bi & ai & Hle & (fb & Hfb & Hidb) & (fa & Hfa & Hida) & Hcov & _).
  - vm_compute. repeat (apply NoDup_cons; split; [set_solver|]). apply NoDup_nil_2.
  - cbn. lia.
  - vm_compute. reflexivity.
  - vm_compute in Hfb, Hfa. cbn in Hidb, Hida.
    destruct bi as [|[|[|[|bi]]]]; cbn in Hfb; try done; injection Hfb as <-; try done.
    destruct ai as [|[|[|[|ai]]]]; cbn in Hfa; try done; injection Hfa as <-; try done.
    split.
    + apply (Hcov 1%nat (gap_file "b" 2 80 "READY")); [vm_compute; reflexivity|]. split_and!.
      * intros [?|?]; done.
      * exists 80. split; [done|lia].
      * left. lia.
      * left. lia.
    + intros Hc. apply (Hcov 0%nat (gap_file "a" 1 100 "READY")) in Hc; [|vm_compute; reflexivity].
      destruct Hc as (_ & _ & Hlo & _). cbn in Hlo. lia.
Defined.

Lemma gap_pages_partition_witness :
  follow 5 (fun n => if (n =? 4)%nat then gap_files else []) gap_anchors 1 "key" None = Ok gap_snapshot_value.
Proof.
  apply (gap_pages_partition 4 _ gap_anchors 1 "key" gap_snapshot_value [FILE_UNAVAILABLE "d"]).
  - lia.
  - cbn. lia.
  - vm_compute. reflexivity.
  - intros position Hp. change (zlen gap_snapshot_value) with 3 in Hp.
    assert (position = 0 \/ position = 1 \/ position = 2 \/ position = 3) as [-> | [-> | [-> | ->]]] by lia.
    all: split; [reflexivity|split; [vm_compute dumps; cbn; set_solver|vm_compute; discriminate]].
  - vm_compute. discriminate.
Defined.
