(* ===== verification/HourCatalog.v ===== *)
(** * Hour summaries ([logs/hour_catalog.py])

    The catalog groups the saved parts of a task by logical hour and states,
    for each hour, its sizes, its counts and how far its integrity is known. *)

From S2P Require Import Prelude PyTime Ordering FileOrder.

Inductive hour_status := H_UNAVAILABLE | H_OPEN | H_READY.
Inductive integrity := I_UNAVAILABLE | I_OPEN | I_VERIFIED | I_UNVERIFIED.

Record hour_entry := HourEntry {
  he_hour : string; he_bytes : Z; he_archive_bytes : Z;
  he_fragments : Z; he_ready : Z; he_open : Z; he_unavailable : Z;
  he_status : hour_status; he_integrity : integrity;
  he_files : list file }.

(** `file["hour"]` raises when the key is missing. *)
Inductive key_error : Type := KeyError.

Section hours.
Context `{FromIso}.

Definition hour_of (f : file) : string := default ""%string (hour f).

(** Archives are counted once: the key of the group a part was archived in. *)
Definition archive_key (f : file) : string * option string * string :=
  (hour_of f, nodeId f,
   match archiveGroupId f with Some (String a s) => String a s | _ => id f end).

Definition archive_add (sizes : gmap (string * option string * string) Z) (f : file) :=
  <[archive_key f := Z.max (default 0 (sizes !! archive_key f)) (default 0 (archiveBytes f))]> sizes.

Definition archive_sizes (files : list file) : gmap (string * option string * string) Z :=
  foldl archive_add ∅ files.

Definition archive_total (files : list file) (h : string) : Z :=
  zsum (map snd (filter (fun e => e.1.1.1 = h) (map_to_list (archive_sizes files)))).

Definition has_status (s : string) (f : file) : bool := bool_decide (status f = Some s).

Definition zcount (p : file -> bool) (l : list file) : Z := zlen (filter (fun f => Is_true (p f)) l).

(** The final loop on one group. *)
Definition hour_entry_of (files : list file) (g : string * list file) : hour_entry :=
  let '(h, l) := g in
  let fragments := default [] (ordered_files l) in
  let ready := zcount (has_status "READY") l in
  let open := zcount (has_status "OPEN") l in
  let unavailable := zlen l - ready - open in
  HourEntry h (zsum (map (fun f => default 0 (fbytes f)) l)) (archive_total files h)
    (zlen l) ready open unavailable
    (if negb (unavailable =? 0) then H_UNAVAILABLE
     else if existsb (has_status "OPEN") l then H_OPEN else H_READY)
    (if negb (unavailable =? 0) then I_UNAVAILABLE
     else if negb (open =? 0) then I_OPEN
     else if forallb (fun f => str_truthy (sha256 f)) l then I_VERIFIED else I_UNVERIFIED)
    fragments.

(** [summarize_hours]: `sorted(..., reverse=True)`. *)
Definition summarize_hours (files : list file) : result key_error (list hour_entry) :=
  if forallb (fun f => bool_decide (is_Some (hour f))) files
  then Ok (sort_by he_hour (fun a b => str_leb b a) (map (hour_entry_of files) (group_by hour_of files)))
  else Raise KeyError.

(** The summary without the list of the parts. *)
Definition headline (e : hour_entry) :=
  (he_hour e, (he_bytes e, he_archive_bytes e), (he_fragments e, he_ready e, he_open e, he_unavailable e),
   (he_status e, he_integrity e)).

(** ** Lemmas *)

Lemma str_leb_antisym s t : str_leb s t = true -> str_leb t s = true -> s = t.
Proof.
  revert t. induction s as [|a s IH]; intros [|b t]; cbn; try done.
  destruct (N.ltb_spec (Ascii.N_of_ascii a) (Ascii.N_of_ascii b)),
    (N.ltb_spec (Ascii.N_of_ascii b) (Ascii.N_of_ascii a)); try done; try lia.
  intros Hle1 Hle2. f_equal; [|by apply IH].
  rewrite <- (Ascii.ascii_N_embedding a), <- (Ascii.ascii_N_embedding b). f_equal. lia.
Qed.

#[global] Instance str_geb_order : BoolOrder (fun a b => str_leb b a).
Proof. split; intros; [apply (bo_total (leb := str_leb))|by eapply (bo_trans (leb := str_leb))]. Qed.

Lemma archive_add_comm m f g : archive_add (archive_add m f) g = archive_add (archive_add m g) f.
Proof.
  unfold archive_add. destruct (decide (archive_key f = archive_key g)) as [Heq|Hne].
  - rewrite Heq, !lookup_insert_eq, !insert_insert_eq. cbn. f_equal. lia.
  - rewrite !lookup_insert_ne by congruence. by rewrite insert_insert_ne.
Qed.

Lemma archive_sizes_perm l k : l ≡ₚ k -> archive_sizes l = archive_sizes k.
Proof.
  unfold archive_sizes. intros Hp. generalize (∅ : gmap (string * option string * string) Z) as m.
  induction Hp as [|x l k _ IH|x y l|l k j _ IH1 _ IH2]; intros m; cbn [foldl]; [done|apply IH| |].
  - by rewrite archive_add_comm.
  - by rewrite IH1, IH2.
Qed.

Lemma zlen_perm {A} (l k : list A) : l ≡ₚ k -> zlen l = zlen k.
Proof. intros Hp. unfold zlen. by rewrite Hp. Qed.

Lemma zcount_perm p l k : l ≡ₚ k -> zcount p l = zcount p k.
Proof. intros Hp. unfold zcount. apply zlen_perm. by rewrite Hp. Qed.

Lemma existsb_perm {A} (p : A -> bool) l k : l ≡ₚ k -> existsb p l = existsb p k.
Proof.
  intros Hp. apply eq_bool_prop_intro. rewrite !existb_True, !Exists_exists. by setoid_rewrite Hp.
Qed.

Lemma forallb_perm {A} (p : A -> bool) l k : l ≡ₚ k -> forallb p l = forallb p k.
Proof. intros Hp. apply eq_bool_prop_intro. rewrite !forallb_True. by rewrite Hp. Qed.

Lemma headline_perm files files' h l l' :
  files ≡ₚ files' -> l ≡ₚ l' ->
  headline (hour_entry_of files (h, l)) = headline (hour_entry_of files' (h, l')).
Proof.
  intros Hf Hl. unfold headline, hour_entry_of, archive_total. cbn.
  rewrite (archive_sizes_perm _ _ Hf), (zlen_perm _ _ Hl), !(zcount_perm _ _ _ Hl),
    (existsb_perm _ _ _ Hl), (forallb_perm _ _ _ Hl).
  rewrite (zsum_Permutation _ (map (fun f => default 0 (fbytes f)) l')); [done|by rewrite Hl].
Qed.
Lemma hour_key fs h : h ∈ (group_by hour_of fs).*1 <-> exists f, f ∈ fs /\ hour_of f = h.
Proof.
  destruct (group_by_grouped hour_of fs) as (_ & Hgs & Hcs). rewrite Forall_forall in Hgs. split.
  - intros ([k g] & -> & Hin)%list_elem_of_fmap. destruct (Hgs _ Hin) as [Hne Heq]. cbn.
    destruct g as [|f g]; [done|]. exists f.
    assert (Hf : f ∈ filter (fun f => hour_of f = k) fs) by (rewrite <- Heq; by left).
    apply list_elem_of_filter in Hf as [? ?]. done.
  - intros (f & Hf & <-). rewrite <- Hcs in Hf. apply list_elem_of_In, in_concat in Hf as (g & Hg1 & Hfg).
    apply list_elem_of_In in Hg1, Hfg. apply list_elem_of_fmap in Hg1 as ([k g'] & -> & Hkg).
    apply list_elem_of_fmap. exists (k, g'). split; [|done].
    destruct (Hgs _ Hkg) as [_ Heq]. cbn in *. rewrite Heq in Hfg. by apply list_elem_of_filter in Hfg as [? _].
Qed.

Lemma hours_perm files files' : files ≡ₚ files' -> (group_by hour_of files).*1 ≡ₚ (group_by hour_of files').*1.
Proof.
  intros Hp. destruct (group_by_grouped hour_of files) as (Hnd & _).
  destruct (group_by_grouped hour_of files') as (Hnd' & _).
  apply NoDup_Permutation; [done|done|]. intros h. rewrite !hour_key. by setoid_rewrite Hp.
Qed.

Lemma entries_nodup files : NoDup (map he_hour (map (hour_entry_of files) (group_by hour_of files))).
Proof.
  destruct (group_by_grouped hour_of files) as (Hnd & _). rewrite map_map.
  erewrite map_ext; [exact Hnd|]. by intros [h g].
Qed.

Lemma entries_bytes files :
  zsum (map he_bytes (map (hour_entry_of files) (group_by hour_of files)))
  = zsum (map (fun f => default 0 (fbytes f)) files).
Proof.
  destruct (group_by_grouped hour_of files) as (_ & _ & Hc).
  trans (zsum ((fun f => default 0 (fbytes f)) <$> concat (group_by hour_of files).*2));
    [|by apply zsum_Permutation, fmap_Permutation]. clear Hc.
  induction (group_by hour_of files) as [|[h g] groups IH]; cbn; [done|].
  rewrite fmap_app, zsum_app. f_equal. exact IH.
Qed.

(** Sorted entries with distinct hours and the same headlines are listed alike. *)
Lemma headlines_equal (l l' : list hour_entry) :
  StronglySorted (key_le he_hour (fun a b => str_leb b a)) l ->
  StronglySorted (key_le he_hour (fun a b => str_leb b a)) l' ->
  NoDup (map he_hour l) -> map headline l ≡ₚ map headline l' -> map headline l = map headline l'.
Proof.
  intros Hs Hs' Hnd Hp.
  apply (StronglySorted_unique_strong (fun a b => str_leb b.1.1.1 a.1.1.1 = true)); [|..|done].
  - intros a b Ha Hb Hab Hba. rewrite <- Hp in Hb.
    apply list_elem_of_fmap in Ha as (x & -> & Hx), Hb as (y & -> & Hy). cbn in Hab, Hba.
    apply list_elem_of_lookup_1 in Hx as [i Hi], Hy as [j Hj].
    assert (i = j) as ->; [|congruence].
    eapply (NoDup_lookup (map he_hour l)); [done|by rewrite list_lookup_fmap, Hi|].
    rewrite list_lookup_fmap, Hj. cbn. f_equal. by apply str_leb_antisym.
  - eapply StronglySorted_fmap; [|exact Hs]. done.
  - eapply StronglySorted_fmap; [|exact Hs']. done.
Qed.

(** The groups of two orders of the same files agree up to order. *)
Lemma groups_perm files files' : files ≡ₚ files' ->
  map (fun g => headline (hour_entry_of files g)) (group_by hour_of files)
  ≡ₚ map (fun g => headline (hour_entry_of files' g)) (group_by hour_of files').
Proof.
  intros Hp. set (entry_at fs k := headline (hour_entry_of fs (k, filter (fun f => hour_of f = k) fs))).
  assert (Hmap : forall fs, map (fun g => headline (hour_entry_of fs g)) (group_by hour_of fs)
    = map (entry_at fs) (group_by hour_of fs).*1).
  { intros fs. destruct (group_by_grouped hour_of fs) as (_ & Hgs & _).
    induction Hgs as [|[k g] groups [_ Heq] _ IH]; cbn; [done|]. by rewrite IH, Heq. }
  rewrite !Hmap, (hours_perm _ _ Hp). erewrite map_ext; [reflexivity|]. intros k.
  unfold entry_at. apply headline_perm; [done|by rewrite Hp].
Qed.

(** The summary of the hours does not depend on the order the store
    returns the parts in: sizes, counts, status and integrity of every hour
    are those of any permutation, the hours are listed once each, latest first,
    and their byte counts add up to the catalog's. *)
Theorem hours_order_independent (files files' : list file) (entries : list hour_entry)
    (Hperm : files ≡ₚ files') (Hok : summarize_hours files = Ok entries) :
  (exists entries', summarize_hours files' = Ok entries' /\ map headline entries = map headline entries')
  /\ NoDup (map he_hour entries)
  /\ StronglySorted (fun a b => str_leb (he_hour b) (he_hour a) = true) entries
  /\ zsum (map he_bytes entries) = zsum (map (fun f => default 0 (fbytes f)) files)
  /\ Forall (fun e => he_fragments e = he_ready e + he_open e + he_unavailable e) entries.
Proof.
  unfold summarize_hours in *. rewrite (forallb_perm _ _ _ Hperm) in Hok.
  destruct (forallb _ files'); [|done]. injection Hok as <-.
  set (l := map (hour_entry_of files) (group_by hour_of files)).
  set (l' := map (hour_entry_of files') (group_by hour_of files')).
  pose proof (sort_by_perm he_hour (fun a b => str_leb b a) l) as Hl.
  pose proof (sort_by_perm he_hour (fun a b => str_leb b a) l') as Hl'.
  pose proof (sort_by_sorted he_hour (fun a b => str_leb b a) l) as Hs.
  pose proof (sort_by_sorted he_hour (fun a b => str_leb b a) l') as Hs'.
  split_and!.
  - eexists. split; [reflexivity|]. apply headlines_equal; [done|done| |].
    + rewrite Hl. unfold l. apply entries_nodup.
    + rewrite Hl, Hl'. unfold l, l'. rewrite !map_map. by apply groups_perm.
  - rewrite Hl. apply entries_nodup.
  - exact Hs.
  - rewrite (zsum_Permutation _ (map he_bytes l)) by by rewrite Hl. apply entries_bytes.
  - rewrite Hl. apply Forall_forall. intros e He. apply list_elem_of_fmap in He as ([h g] & -> & _). cbn. lia.
Qed.
End hours.

(** ** Witness: two hours, one archive group of two parts *)

#[local] Instance no_iso : FromIso := fun _ => None.

Definition hour_file (i h st : string) (size archive : Z) (group : option string) : file :=
  mkFile i (Some "t") (Some "n") (Some "r") (Some "s") (Some h) (Some 1) (Some 1)
    (Some (TDate (Aware 1))) None None (Some st) (Some size) (Some archive) group (Some "sum").

Definition hour_files : list file :=
  [hour_file "a" "2024-01-01T10" "READY" 10 7 (Some "g"); hour_file "b" "2024-01-01T11" "OPEN" 5 0 None;
   hour_file "c" "2024-01-01T10" "READY" 20 7 (Some "g")].

Lemma hours_order_independent_witness :
  exists entries, summarize_hours hour_files = Ok entries
  /\ map headline entries
     = [("2024-01-01T11", (5, 0), (1, 0, 1, 0), (H_OPEN, I_OPEN));
        ("2024-01-01T10", (30, 7), (2, 2, 0, 0), (H_READY, I_VERIFIED))]
  /\ exists entries', summarize_hours (reverse hour_files) = Ok entries'
     /\ map headline entries = map headline entries'.
Proof.
  eexists. split; [vm_compute; reflexivity|]. split; [vm_compute; reflexivity|].
  apply (hours_order_independent hour_files (reverse hour_files)); [by rewrite reverse_Permutation|].
  vm_compute. reflexivity.
Defined.
