(* ===== verification/Storage.v ===== *)
(** * The hourly log writer ([logs/storage.py], [logs/rotation_batch.py])

    [HourlyWriter] appends the received chunks of a session to numbered parts,
    one directory per natural hour, with a row of index for every appended
    piece.  A part is sealed when the hour changes, when the clock goes back or
    when it is full.  The file lock makes every public operation atomic, so an
    operation is one step on the record [writer]; the physical operations draw
    their outcome from [w_io], so a failure at any of them is modelled. *)

From S2P Require Import Prelude PyTime PyValue.
Open Scope camera_scope.

Definition MIB : Z := 1024 * 1024.
Definition MAX_LOG_BYTES : Z := 10 * MIB.

(** A part of an hour: the hour number on the zone's wall clock, and the
    number in the file name. *)
Abbreviation path := (Z * Z)%type.

(** One line of the index. *)
Record row := Row { row_sequence : Z; row_offset : Z; row_length : Z; row_received : Z }.

(** The two files of a part; [torn] marks an index whose last append failed. *)
Record physical := Physical { body : bytes; rows : list row; torn : bool }.

(** `_Segment`. *)
Record segment := Segment {
  sg_path : path; sg_size : Z; sg_digest : string; sg_index_size : Z; sg_index_digest : string;
  sg_first : option Z; sg_last : option Z; sg_first_at : option Z; sg_last_at : option Z }.

(** `ChunkPosition`. *)
Record position := Position {
  ps_sequence : Z; ps_offset : Z; ps_length : Z; ps_path : path;
  ps_rollback : option Z; ps_source_index : nat; ps_source_offset : Z }.

Inductive os_error : Type :=
  | BodyWriteFailed | IndexWriteFailed | SyncFailed | CloseFailed | PersistFailed | OpenFailed | UnlinkFailed.

(** The outcome of a physical operation; a failed append accepted some bytes. *)
Inductive outcome : Type := Done | Fails (accepted : nat).

Record writer := Writer {
  w_files : gmap path physical;
  w_hour : option Z;
  w_log : option path;          (* the open handles *)
  w_size : Z; w_durable : Z; w_sequence : Z;
  w_digest : bytes;             (* the bytes fed to the body hash *)
  w_index : list row;           (* the rows fed to the index hash *)
  w_first : option Z; w_last : option Z;
  w_first_at : option Z; w_last_at : option Z;
  w_max : Z;
  w_pending : list segment;
  w_spooled : list (list segment);   (* recovery manifests on disk *)
  w_last_sync : Q;
  w_error : option os_error;
  w_io : list outcome }.

Abbreviation wm := (stm writer os_error).

(** A normalised chunk: its index in the call, its bytes, its instant. *)
Abbreviation chunk := (nat * bytes * Z)%type.

Section storage.
(** The zone, SHA-256 and the JSON text of an index row. *)
Variables (z : zone) (sha256 : bytes -> string) (row_text : row -> bytes).

Definition index_text (l : list row) : bytes := concat (map row_text l).

(** [_hour_of]. *)
Definition _hour_of (instant : Z) : Z := wall z instant / US_PER_HOUR.

Definition set_files (f : gmap path physical) (w : writer) : writer :=
  Writer f (w_hour w) (w_log w) (w_size w) (w_durable w) (w_sequence w) (w_digest w) (w_index w)
    (w_first w) (w_last w) (w_first_at w) (w_last_at w) (w_max w) (w_pending w) (w_spooled w)
    (w_last_sync w) (w_error w) (w_io w).

Definition set_error (e : os_error) (w : writer) : writer :=
  Writer (w_files w) (w_hour w) (w_log w) (w_size w) (w_durable w) (w_sequence w) (w_digest w) (w_index w)
    (w_first w) (w_last w) (w_first_at w) (w_last_at w) (w_max w) (w_pending w) (w_spooled w)
    (w_last_sync w) (Some e) (w_io w).

(** The outcome of the next physical operation; past the list all succeed. *)
Definition next_io : wm outcome := fun w =>
  match w_io w with
  | [] => (Ok Done, w)
  | o :: io =>
      (Ok o, Writer (w_files w) (w_hour w) (w_log w) (w_size w) (w_durable w) (w_sequence w) (w_digest w)
         (w_index w) (w_first w) (w_last w) (w_first_at w) (w_last_at w) (w_max w) (w_pending w) (w_spooled w)
         (w_last_sync w) (w_error w) io)
  end.

(** ** Opening a part *)

(** [_open]: the provider's value, [None] when it is missing or raises. *)
Definition segment_limit (candidate : option pyval) : Z :=
  match candidate ≫= as_int with
  | Some c => if 0 <? c then c else MAX_LOG_BYTES
  | None => MAX_LOG_BYTES
  end.

(** The largest part number of the hour, from the index files. *)
Definition last_part (files : gmap path physical) (hour : Z) : Z :=
  foldr Z.max 0 (map (fun p => p.1.2) (filter (fun p => p.1.1 = hour) (map_to_list files))).

(** The loop over `FileExistsError`: the first free number from [part]. *)
Fixpoint free_part (fuel : nat) (files : gmap path physical) (hour part : Z) : Z :=
  match fuel with
  | O => part
  | S fuel => if decide (is_Some (files !! (hour, part))) then free_part fuel files hour (part + 1) else part
  end.

(** The writer on a new part. *)
Definition opened (hour : Z) (candidate : option pyval) (tick : Q) (w : writer) : writer :=
  let part := free_part (size (w_files w)) (w_files w) hour (last_part (w_files w) hour + 1) in
  Writer (<[(hour, part) := Physical [] [] false]> (w_files w)) (Some hour) (Some (hour, part))
    0 0 (w_sequence w) [] [] None None None None (segment_limit candidate)
    (w_pending w) (w_spooled w) tick (w_error w) (w_io w).

(** [_open_sync]: what a failure has created is removed. *)
Definition _open (hour : Z) (candidate : option pyval) (tick : Q) : wm unit :=
  let! o := next_io in
  let! w := st_get in
  match o with
  | Fails _ => st_raise OpenFailed
  | Done => st_put (opened hour candidate tick w)
  end.

(** ** Appending *)

(** The positions of the chunks of a batch. *)
Fixpoint batch_positions (sequence offset : Z) (p : path) (chunks : list chunk) : list position :=
  match chunks with
  | [] => []
  | (source_index, data, _) :: chunks =>
      Position (sequence + 1) offset (zlen data) p None source_index 0
      :: batch_positions (sequence + 1) (offset + zlen data) p chunks
  end.

Definition batch_rows (positions : list position) (chunks : list chunk) : list row :=
  zip_with (fun ps c => Row (ps_sequence ps) (ps_offset ps) (ps_length ps) c.2) positions chunks.

Definition payload_of (chunks : list chunk) : bytes := concat (map (fun c => c.1.2) chunks).

(** The watermark after the two `fsync` calls. *)
Definition sync_files (tick : Q) (w : writer) : writer :=
  Writer (w_files w) (w_hour w) (w_log w) (w_size w) (w_size w) (w_sequence w) (w_digest w) (w_index w)
    (w_first w) (w_last w) (w_first_at w) (w_last_at w) (w_max w) (w_pending w) (w_spooled w)
    tick (w_error w) (w_io w).

(** [_sync_files]. *)
Definition _sync_files (tick : Q) : wm unit :=
  let! o := next_io in
  let! w := st_get in
  match o with
  | Fails _ => st_raise SyncFailed
  | Done => st_put (sync_files tick w)
  end.

Definition or_else {A} (a b : option A) : option A := match a with Some _ => a | None => b end.

(** [_append_batch_sync]: the watermarks move only after both appends. *)
Definition _append_batch_sync (tick : Q) (chunks : list chunk) : wm (list position) :=
  let! w := st_get in
  match w_log w with
  | None => st_ret []
  | Some p =>
      let positions := batch_positions (w_sequence w) (w_size w) p chunks in
      let new_rows := batch_rows positions chunks in
      let payload := payload_of chunks in
      let old := default (Physical [] [] false) (w_files w !! p) in
      let! o := next_io in
      let! w := st_get in
      match o with
      | Fails k =>
          if (k <? length payload)%nat
          then let! _ := st_put (set_files (<[p := Physical (body old ++ take k payload) (rows old) (torn old)]>
                                   (w_files w)) w) in
               st_raise BodyWriteFailed
          else let! _ := st_put (set_files (<[p := Physical (body old ++ payload) (rows old) true]> (w_files w)) w) in
               st_raise IndexWriteFailed
      | Done =>
          let w := Writer (<[p := Physical (body old ++ payload) (rows old ++ new_rows) (torn old)]> (w_files w))
            (w_hour w) (w_log w) (w_size w + zlen payload) (w_durable w)
            (default (w_sequence w) (ps_sequence <$> last positions))
            (w_digest w ++ payload) (w_index w ++ new_rows)
            (or_else (w_first w) (ps_sequence <$> head positions))
            (or_else (ps_sequence <$> last positions) (w_last w))
            (or_else (w_first_at w) (snd <$> head chunks))
            (or_else (snd <$> last chunks) (w_last_at w))
            (w_max w) (w_pending w) (w_spooled w) (w_last_sync w) (w_error w) (w_io w) in
          let! _ := st_put w in
          let! _ := if Qle_bool 1 (tick - w_last_sync w) then _sync_files tick else st_ret tt in
          st_ret positions
      end
  end.

(** ** Sealing and publishing *)

(** Removing an empty part. *)
Definition unlink_part (p : path) : wm unit :=
  let! o := next_io in
  let! w := st_get in
  match o with
  | Fails _ => st_raise UnlinkFailed
  | Done => st_put (set_files (delete p (w_files w)) w)
  end.

(** [_seal_locked]: an empty part is removed. *)
Definition _seal_locked (tick : Q) : wm unit :=
  let! w := st_get in
  match w_error w, w_log w with
  | Some e, _ => st_raise e
  | None, None => st_ret tt
  | None, Some p =>
      let! o := next_io in
      let! w := st_get in
      match o with
      | Fails _ => let! _ := st_put (set_error CloseFailed w) in st_raise CloseFailed
      | Done =>
          let sealed := Segment p (w_size w) (sha256 (w_digest w)) (zlen (index_text (w_index w)))
            (sha256 (index_text (w_index w))) (w_first w) (w_last w) (w_first_at w) (w_last_at w) in
          let! _ := st_put (Writer (w_files w) None None
            (w_size w) (w_size w) (w_sequence w) (w_digest w) (w_index w)
            (w_first w) (w_last w) (w_first_at w) (w_last_at w) (w_max w)
            (if w_size w =? 0 then w_pending w else w_pending w ++ [sealed]) (w_spooled w)
            tick (w_error w) (w_io w)) in
          if w_size w =? 0 then unlink_part p else st_ret tt
      end
  end.

(** [_publish_pending_locked] up to the recovery manifest; the compression that
    follows reads only the manifest. *)
Definition _publish_pending_locked : wm unit :=
  let! w := st_get in
  match w_pending w with
  | [] => st_ret tt
  | segments =>
      let! o := next_io in
      let! w := st_get in
      let spool l := Writer (w_files w) (w_hour w) (w_log w) (w_size w) (w_durable w) (w_sequence w) (w_digest w)
        (w_index w) (w_first w) (w_last w) (w_first_at w) (w_last_at w) (w_max w) [] l
        (w_last_sync w) (w_error w) (w_io w) in
      match o with
      | Fails _ => let! _ := st_put (spool (w_spooled w)) in st_raise PersistFailed
      | Done => st_put (spool (w_spooled w ++ [segments]))
      end
  end.

(** ** [write_rotating] *)

(** The loop's variables: returned positions, the group, the source offsets and
    rollback marks of the group. *)
Record batch := Batch { b_positions : list position; b_group : list chunk; b_ids : list (Z * option Z) }.

Definition group_bytes (b : batch) : Z := zlen (payload_of (b_group b)).

(** `flush`. *)
Definition flush (tick : Q) (b : batch) : wm batch :=
  match b_group b with
  | [] => st_ret b
  | group =>
      let! written := _append_batch_sync tick group in
      st_ret (Batch (b_positions b ++
        zip_with (fun ps i => Position (ps_sequence ps) (ps_offset ps) (ps_length ps) (ps_path ps) i.2
                                (ps_source_index ps) i.1) written (b_ids b)) [] [])
  end.

(** The inner loop: the pieces of one chunk. *)
Fixpoint split_chunk (fuel : nat) (candidate : option pyval) (tick : Q) (hour : Z) (c : chunk) (rollback : option Z)
    (consumed : nat) (b : batch) : wm batch :=
  let data := c.1.2 in
  match fuel with
  | O => st_ret b
  | S fuel =>
      if (length data <=? consumed)%nat then st_ret b
      else
        let! w := st_get in
        let full := w_max w - w_size w - group_bytes b =? 0 in
        let! b := (if full
                   then let! b := flush tick b in
                        let! _ := _seal_locked tick in
                        let! _ := _open hour candidate tick in
                        st_ret b
                   else st_ret b) in
        let! w := st_get in
        let remaining := if full then w_max w - w_size w else w_max w - w_size w - group_bytes b in
        let count := Nat.min (Z.to_nat remaining) (length data - consumed) in
        split_chunk fuel candidate tick hour c rollback (consumed + count)
          (Batch (b_positions b) (b_group b ++ [(c.1.1, take count (drop consumed data), c.2)])
             (b_ids b ++ [(Z.of_nat consumed, if (consumed =? 0)%nat then rollback else None)]))
  end.

(** One turn of the outer loop. *)
Definition write_chunk (candidate : option pyval) (tick : Q) (c : chunk) (b : batch) : wm batch :=
  let! w := st_get in
  let instant := c.2 in
  let previous := match last (b_group b) with Some g => Some g.2 | None => w_last_at w end in
  let rollback := match previous with Some t => if instant <? t then Some t else None | None => None end in
  let hour := _hour_of instant in
  let! b := match w_hour w with
            | None => let! _ := _open hour candidate tick in st_ret b
            | Some h =>
                if negb (hour =? h) || match rollback with Some _ => true | None => false end
                then let! b := flush tick b in
                     let! _ := _seal_locked tick in
                     let! _ := _publish_pending_locked in
                     let! _ := _open hour candidate tick in
                     st_ret b
                else st_ret b
            end in
  split_chunk (S (length c.1.2)) candidate tick hour c rollback 0 b.

Fixpoint write_chunks (candidate : option pyval) (tick : Q) (chunks : list chunk) (b : batch) : wm batch :=
  match chunks with
  | [] => st_ret b
  | c :: chunks => let! b := write_chunk candidate tick c b in write_chunks candidate tick chunks b
  end.

Definition write_rotating (candidate : option pyval) (tick : Q) (chunks : list chunk) : wm (list position) :=
  let! b := write_chunks candidate tick chunks (Batch [] [] []) in
  let! b := flush tick b in
  st_ret (b_positions b).

(** ** [write_many] *)

(** Normalisation: empty chunks are dropped, a missing stamp is [now]. *)
Definition normalize (now : Z) (chunks : list (bytes * option datetime)) : list chunk :=
  filter (fun c => c.1.2 <> [])
    (imap (fun i c => (i, c.1, match c.2 with Some d => utc_instant d | None => now end)) chunks).

Fixpoint pairwise_le (l : list Z) : bool :=
  match l with
  | a :: (b :: _) as r => (a <=? b) && pairwise_le r
  | _ => true
  end.

(** The condition of the merged append. *)
Definition one_append (w : writer) (hour : Z) (chunks : list chunk) : bool :=
  bool_decide (w_hour w = Some hour)
  && forallb (fun c => _hour_of c.2 =? hour) chunks
  && pairwise_le (map snd chunks)
  && match w_last_at w, head chunks with Some t, Some c => t <=? c.2 | _, _ => true end
  && (w_size w + zlen (payload_of chunks) <=? w_max w).

Definition write_locked (candidate : option pyval) (tick : Q) (normalized : list chunk) : wm (list position) :=
  match normalized with
  | [] => write_rotating candidate tick []
  | c :: _ =>
      let hour := _hour_of c.2 in
      let! w := st_get in
      let! _ := match w_hour w with None => _open hour candidate tick | Some _ => st_ret tt end in
      let! w := st_get in
      if one_append w hour normalized then _append_batch_sync tick normalized
      else write_rotating candidate tick normalized
  end.

(** [_write_many_owned]: any failure is kept and refuses every later write. *)
Definition write_many (candidate : option pyval) (tick : Q) (now : Z) (chunks : list (bytes * option datetime))
  : wm (list position) := fun w =>
  match w_error w with
  | Some e => (Raise e, w)
  | None =>
      match write_locked candidate tick (normalize now chunks) w with
      | (Ok positions, w) => (Ok positions, w)
      | (Raise e, w) => (Raise e, set_error e w)
      end
  end.

(** [close] and the sealing part of [rotate]. *)
Definition close (tick : Q) : wm unit :=
  let! _ := _seal_locked tick in _publish_pending_locked.

(** [HourlyWriter.__init__] on a root that holds [files]. *)
Definition new_writer (files : gmap path physical) (tick : Q) (io : list outcome) : writer :=
  Writer files None None 0 0 0 [] [] None None None None MAX_LOG_BYTES [] [] tick None io.
End storage.
