(* ===== verification/StorageFacts.v ===== *)
(** * Correctness of the hourly log writer

    The invariant of [Storage.writer], the triples of its operations and the
    theorems: the parts hold exactly the received stream, the index of every
    part is a contiguous, chronological account of its bytes, and a failure
    never changes a byte already on disk. *)

From S2P Require Import Prelude PyTime PyValue Storage.

Definition sl (offset len : Z) (b : bytes) : bytes := take (Z.to_nat len) (drop (Z.to_nat offset) b).

Lemma sl_prefix offset len b b' :
  0 <= offset -> 0 <= len -> offset + len <= zlen b -> b `prefix_of` b' -> sl offset len b' = sl offset len b.
Proof.
  intros Ho Hp Hl [k ->]. unfold sl, zlen in *. rewrite drop_app_le by lia.
  rewrite take_app_le; [done|]. rewrite length_drop. lia.
Qed.

Section facts.
Variables (z : zone) (sha256 : bytes -> string) (row_text : row -> bytes).

Abbreviation hour_at := (_hour_of z).

(** ** The index of a part *)

(** Rows that begin at [offset], one after the other. *)
Fixpoint contiguous (offset : Z) (l : list row) : Prop :=
  match l with
  | [] => True
  | r :: l => row_offset r = offset /\ 0 < row_length r /\ contiguous (offset + row_length r) l
  end.

Definition total (l : list row) : Z := zsum (map row_length l).

Record part_ok (hour : Z) (b : bytes) (l : list row) : Prop := {
  po_contiguous : contiguous 0 l;
  po_total : total l = zlen b;
  po_hours : Forall (fun r => hour_at (row_received r) = hour) l;
  po_sorted : StronglySorted Z.le (map row_received l) }.

Lemma contiguous_app offset l k :
  contiguous offset (l ++ k) <-> contiguous offset l /\ contiguous (offset + total l) k.
Proof.
  revert offset. induction l as [|r l IH]; intros offset; cbn; [by rewrite Z.add_0_r; tauto|].
  rewrite IH. unfold total. cbn. rewrite Z.add_assoc. tauto.
Qed.

Lemma total_app l k : total (l ++ k) = total l + total k.
Proof. unfold total. by rewrite map_app, zsum_app. Qed.

(** ** The parts of a writer, in the order they were opened *)

Definition sealed (w : writer) : list segment := concat (w_spooled w) ++ w_pending w.
Definition parts (w : writer) : list path := map sg_path (sealed w) ++ option_list (w_log w).

Definition body_at (files : gmap path physical) (p : path) : bytes :=
  match files !! p with Some ph => body ph | None => [] end.
Definition rows_at (files : gmap path physical) (p : path) : list row :=
  match files !! p with Some ph => rows ph | None => [] end.

(** The stored stream and its index. *)
Definition content (w : writer) : bytes := concat (map (body_at (w_files w)) (parts w)).
Definition all_rows (w : writer) : list row := concat (map (rows_at (w_files w)) (parts w)).

(** A sealed part agrees with its files. *)
Definition segment_ok (w : writer) (s : segment) : Prop :=
  exists b l, w_files w !! sg_path s = Some (Physical b l false)
    /\ 0 < zlen b /\ sg_size s = zlen b /\ sg_digest s = sha256 b
    /\ sg_index_digest s = sha256 (index_text row_text l) /\ sg_index_size s = zlen (index_text row_text l)
    /\ sg_last_at s = last (map row_received l)
    /\ part_ok (sg_path s).1 b l.

(** The open part agrees with the writer's counters. *)
Definition open_ok (w : writer) : Prop :=
  match w_log w with
  | None => w_hour w = None
  | Some p =>
      w_hour w = Some p.1 /\
      exists b l, w_files w !! p = Some (Physical b l false)
        /\ w_size w = zlen b /\ w_digest w = b /\ w_index w = l
        /\ zlen b <= w_max w /\ 0 < w_max w
        /\ w_last_at w = last (map row_received l) /\ part_ok p.1 b l
  end.

Section root.
(** What the root held before the writer was made. *)
Variable files0 : gmap path physical.

Record writer_ok (w : writer) : Prop := {
  wo_nodup : NoDup (parts w);
  wo_new : Forall (fun p => files0 !! p = None) (parts w);
  wo_others : forall p, p ∉ parts w -> w_files w !! p = files0 !! p;
  wo_sealed : Forall (segment_ok w) (sealed w);
  wo_open : open_ok w;
  wo_sequence : map row_sequence (all_rows w) = seqZ 1 (w_sequence w);
  wo_positive : 0 <= w_sequence w;
  wo_durable : 0 <= w_durable w <= w_size w;
  wo_healthy : w_error w = None }.

(** ** Bytes on disk only grow *)

Definition extends (w w' : writer) : Prop :=
  forall p ph, w_files w !! p = Some ph -> body ph <> [] ->
    exists ph', w_files w' !! p = Some ph' /\ body ph `prefix_of` body ph' /\ rows ph `prefix_of` rows ph'.

Lemma extends_refl w : extends w w.
Proof. intros p ph Hp _. by exists ph. Qed.

Lemma extends_trans w1 w2 w3 : extends w1 w2 -> extends w2 w3 -> extends w1 w3.
Proof.
  intros H12 H23 p ph Hp Hne. destruct (H12 p ph Hp Hne) as (ph2 & Hp2 & Hb & Hr).
  destruct (H23 p ph2 Hp2) as (ph3 & Hp3 & Hb3 & Hr3).
  - intros Hz. rewrite Hz in Hb. by apply prefix_nil_inv in Hb.
  - exists ph3. split_and!; [done|by etrans|by etrans].
Qed.

Lemma extends_files w w' : w_files w' = w_files w -> extends w w'.
Proof. intros Hf p ph Hp _. exists ph. by rewrite Hf. Qed.

(** ** Triples

    From [w0], an operation either keeps [Q], or fails, which takes a failed
    physical operation, with the bytes on disk intact. *)

Definition no_failure (w : writer) : Prop := Forall (fun o => o = Done) (w_io w).

Definition since (w0 w : writer) : Prop := extends w0 w /\ (no_failure w0 -> no_failure w).

Definition triple {A} (w0 : writer) (P : writer -> Prop) (m : wm A) (Q : A -> writer -> Prop) : Prop :=
  forall w, P w -> since w0 w ->
    match m w with
    | (Ok a, w') => Q a w' /\ since w0 w'
    | (Raise _, w') => extends w0 w' /\ ~ no_failure w0
    end.

Lemma triple_bind {A B} w0 P (m : wm A) R (k : A -> wm B) Q :
  triple w0 P m R -> (forall a, triple w0 (R a) (k a) Q) -> triple w0 P (st_bind m k) Q.
Proof.
  intros Hm Hk w Hw Hs. unfold st_bind. specialize (Hm w Hw Hs).
  destruct (m w) as [[a|e] w']; [|done]. destruct Hm as [Hr Hs']. by apply Hk.
Qed.

Lemma triple_ret {A} w0 (P : writer -> Prop) (a : A) (Q : A -> writer -> Prop) :
  (forall w, P w -> Q a w) -> triple w0 P (st_ret a) Q.
Proof. intros H w Hw Hs. split; [by apply H|done]. Qed.

Lemma triple_get {A} w0 P (k : writer -> wm A) Q :
  (forall w, P w -> triple w0 (fun w' => w' = w) (k w) Q) -> triple w0 P (st_bind st_get k) Q.
Proof. intros Hk w Hw Hs. by apply (Hk w). Qed.

Lemma triple_pre {A} w0 (P P' : writer -> Prop) (m : wm A) Q :
  (forall w, P w -> P' w) -> triple w0 P' m Q -> triple w0 P m Q.
Proof. intros H Ht w Hw Hs. apply Ht; auto. Qed.

Lemma triple_post {A} w0 P (m : wm A) (Q Q' : A -> writer -> Prop) :
  (forall a w, Q a w -> Q' a w) -> triple w0 P m Q -> triple w0 P m Q'.
Proof.
  intros H Ht w Hw Hs. specialize (Ht w Hw Hs). destruct (m w) as [[a|e] w']; [|done].
  destruct Ht as [? ?]. auto.
Qed.
(** One physical operation. *)
Definition with_io (w : writer) (io : list outcome) : writer :=
  Writer (w_files w) (w_hour w) (w_log w) (w_size w) (w_durable w) (w_sequence w) (w_digest w) (w_index w)
    (w_first w) (w_last w) (w_first_at w) (w_last_at w) (w_max w) (w_pending w) (w_spooled w)
    (w_last_sync w) (w_error w) io.

(** One physical operation: done, or failed. *)
Lemma next_io_cases w :
  (exists io, next_io w = (Ok Done, with_io w io) /\ (no_failure w -> Forall (fun o => o = Done) io))
  \/ (exists k io, next_io w = (Ok (Fails k), with_io w io) /\ ~ no_failure w).
Proof.
  unfold next_io, no_failure. destruct (w_io w) as [|[|k] io] eqn:E.
  - left. exists []. split; [|by constructor]. rewrite <- E. by destruct w.
  - left. exists io. split; [done|]. by inversion 1.
  - right. exists k, io. split; [done|]. by inversion 1.
Qed.

(** ** Opening *)

Lemma last_part_max files hour n ph : files !! (hour, n) = Some ph -> n <= last_part files hour.
Proof.
  intros Hp. unfold last_part.
  assert (Hin : n ∈ map (fun p : path * physical => p.1.2) (filter (fun p => p.1.1 = hour) (map_to_list files))).
  { apply list_elem_of_fmap. exists ((hour, n), ph). split; [done|].
    apply list_elem_of_filter. split; [done|]. by apply elem_of_map_to_list. }
  induction (map _ _) as [|m l IH]; [by apply elem_of_nil in Hin|]. cbn.
  apply elem_of_cons in Hin as [->|Hin]; [lia|]. specialize (IH Hin). lia.
Qed.

Lemma next_part_free files hour fuel :
  free_part fuel files hour (last_part files hour + 1) = last_part files hour + 1
  /\ files !! (hour, last_part files hour + 1) = None.
Proof.
  assert (Hn : files !! (hour, last_part files hour + 1) = None).
  { apply eq_None_not_Some. intros [ph Hp]. apply last_part_max in Hp. lia. }
  split; [|done]. destruct fuel; cbn; [done|]. rewrite decide_False; [done|]. rewrite Hn. by intros [? ?].
Qed.

Lemma parts_exist w p : writer_ok w -> p ∈ parts w -> is_Some (w_files w !! p).
Proof.
  intros Hw Hp. unfold parts in Hp. apply elem_of_app in Hp as [Hp|Hp].
  - apply list_elem_of_fmap in Hp as (s & -> & Hs).
    destruct (proj1 (Forall_forall _ _) (wo_sealed _ Hw) s Hs) as (b & l & Hf & _). by eexists.
  - pose proof (wo_open _ Hw) as Ho. unfold open_ok in Ho. destruct (w_log w) as [q|]; [|by apply elem_of_nil in Hp].
    apply list_elem_of_singleton in Hp as ->. destruct Ho as (_ & b & l & Hf & _). by eexists.
Qed.

Lemma bodies_same f f' ps : (forall p, p ∈ ps -> f' !! p = f !! p) -> map (body_at f') ps = map (body_at f) ps.
Proof. intros H. apply map_ext_in. intros p Hp. unfold body_at. by rewrite H by by apply list_elem_of_In. Qed.

Lemma rows_same f f' ps : (forall p, p ∈ ps -> f' !! p = f !! p) -> map (rows_at f') ps = map (rows_at f) ps.
Proof. intros H. apply map_ext_in. intros p Hp. unfold rows_at. by rewrite H by by apply list_elem_of_In. Qed.

Lemma segment_ok_files w w' s : w_files w' !! sg_path s = w_files w !! sg_path s -> segment_ok w s -> segment_ok w' s.
Proof. intros Hf (b & l & H). exists b, l. by rewrite Hf. Qed.

Lemma sealed_keep w w' l :
  Forall (segment_ok w) l -> (forall q, q ∈ map sg_path l -> w_files w' !! q = w_files w !! q) ->
  Forall (segment_ok w') l.
Proof.
  intros Hl H. rewrite Forall_forall in *. intros s Hs. apply (segment_ok_files w); [|by apply Hl].
  apply H, list_elem_of_fmap. by exists s.
Qed.

Lemma part_ok_nil hour : part_ok hour [] [].
Proof. split; by constructor. Qed.

(** What an operation that stores nothing keeps. *)
Definition same_stream (w w' : writer) : Prop :=
  content w' = content w /\ w_sequence w' = w_sequence w.

Lemma open_step w hour candidate tick :
  writer_ok w -> w_log w = None ->
  let w' := opened hour candidate tick w in
  writer_ok w' /\ same_stream w w' /\ extends w w' /\ w_io w' = w_io w
  /\ w_hour w' = Some hour /\ (exists p, w_log w' = Some p) /\ w_size w' = 0 /\ w_last_at w' = None
  /\ w_max w' = segment_limit candidate.
Proof.
  intros Hw Hlog. cbv zeta. unfold opened. destruct (next_part_free (w_files w) hour (size (w_files w))) as [-> Hfree].
  set (p := (hour, last_part (w_files w) hour + 1)) in *.
  assert (Hp : p ∉ parts w) by (intros Hin; apply parts_exist in Hin as [? ?]; [congruence|done]).
  assert (H0 : files0 !! p = None) by (by rewrite <- (wo_others _ Hw)).
  set (w' := Writer _ _ _ _ _ _ _ _ _ _ _ _ _ _ _ _ _ _).
  assert (Hseal : sealed w' = sealed w) by done.
  assert (Hparts : parts w' = parts w ++ [p]).
  { unfold parts. rewrite Hseal. cbn. by rewrite Hlog, app_nil_r. }
  assert (Hold : forall q, q ∈ parts w -> w_files w' !! q = w_files w !! q).
  { intros q Hq. cbn. apply lookup_insert_ne. congruence. }
  assert (Hlim : 0 < segment_limit candidate).
  { unfold segment_limit, MAX_LOG_BYTES, MIB. destruct (candidate ≫= as_int) as [c|]; [|lia].
    destruct (Z.ltb_spec 0 c); lia. }
  assert (Hrows : all_rows w' = all_rows w).
  { unfold all_rows. rewrite Hparts, map_app, concat_app, (rows_same _ _ _ Hold). cbn.
    unfold rows_at at 2. rewrite lookup_insert_eq. cbn. by rewrite app_nil_r. }
  split_and!; try done.
  - split.
    + rewrite Hparts. apply NoDup_app. split_and!; [apply Hw| |apply NoDup_singleton].
      intros q Hq ->%list_elem_of_singleton. done.
    + rewrite Hparts. apply Forall_app. split; [apply Hw|by constructor].
    + intros q Hq. rewrite Hparts in Hq. cbn. rewrite lookup_insert_ne by set_solver.
      apply (wo_others _ Hw). set_solver.
    + rewrite Hseal. apply (sealed_keep w); [apply Hw|]. intros q Hq. apply Hold. by apply elem_of_app; left.
    + cbn. split; [done|]. exists [], []. rewrite lookup_insert_eq.
      split_and!; try done; [cbn; rewrite zlen_nil; lia|apply part_ok_nil].
    + rewrite Hrows. apply Hw.
    + apply Hw.
    + cbn. lia.
    + apply Hw.
  - split; [|done]. unfold content. rewrite Hparts, map_app, concat_app, (bodies_same _ _ _ Hold). cbn.
    unfold body_at at 2. rewrite lookup_insert_eq. cbn. by rewrite app_nil_r.
  - intros q ph Hq _. exists ph. cbn. rewrite lookup_insert_ne by congruence. by split_and!.
  - by exists p.
Qed.
(** ** Appending *)

Lemma batch_positions_length q off p l : length (batch_positions q off p l) = length l.
Proof. revert q off. induction l as [|[[i d] t] l IH]; intros q off; cbn; [done|]. by rewrite IH. Qed.

Lemma batch_rows_cons q off p i d t l :
  batch_rows (batch_positions q off p ((i, d, t) :: l)) ((i, d, t) :: l)
  = Row (q + 1) off (zlen d) t :: batch_rows (batch_positions (q + 1) (off + zlen d) p l) l.
Proof. reflexivity. Qed.

Lemma batch_rows_contiguous q off p l : Forall (fun c => c.1.2 <> []) l ->
  contiguous off (batch_rows (batch_positions q off p l) l)
  /\ total (batch_rows (batch_positions q off p l) l) = zlen (payload_of l).
Proof.
  revert q off. induction l as [|[[i d] t] l IH]; intros q off Hl; [done|].
  inversion_clear Hl as [|? ? Hd Hl']. cbn in Hd. rewrite batch_rows_cons. cbn [contiguous row_offset row_length].
  destruct (IH (q + 1) (off + zlen d) Hl') as [Hc Ht].
  assert (0 < zlen d) by (unfold zlen; destruct d; cbn; [done|lia]).
  split; [done|]. unfold total in *. cbn. rewrite Ht. unfold payload_of. cbn. by rewrite zlen_app.
Qed.

Lemma batch_rows_sequence q off p l :
  map row_sequence (batch_rows (batch_positions q off p l) l) = seqZ (q + 1) (zlen l).
Proof.
  revert q off. induction l as [|[[i d] t] l IH]; intros q off; [done|].
  rewrite batch_rows_cons. cbn [map row_sequence]. rewrite IH, zlen_cons.
  rewrite (seqZ_cons (q + 1)) by (pose proof (zlen_nonneg l); lia). f_equal. f_equal; lia.
Qed.

Lemma batch_rows_received q off p l : map row_received (batch_rows (batch_positions q off p l) l) = map snd l.
Proof.
  revert q off. induction l as [|[[i d] t] l IH]; intros q off; [done|].
  rewrite batch_rows_cons. cbn [map row_received snd]. by rewrite IH.
Qed.

Lemma last_sequence q off p l :
  default q (ps_sequence <$> last (batch_positions q off p l)) = q + zlen l.
Proof.
  revert q off. induction l as [|[[i d] t] l IH]; intros q off; [cbn; by rewrite Z.add_0_r|].
  cbn [batch_positions]. rewrite last_cons, zlen_cons. specialize (IH (q + 1) (off + zlen d)).
  destruct (last (batch_positions (q + 1) (off + zlen d) p l)) as [ps|] eqn:E; cbn in *.
  - lia.
  - apply last_None in E. destruct l as [|[[i' d'] t'] l]; [|done]. cbn. lia.
Qed.

(** What an append needs of its batch. *)
Record fits (w : writer) (p : path) (l : list chunk) : Prop := {
  ft_log : w_log w = Some p;
  ft_some : l <> [];
  ft_data : Forall (fun c => c.1.2 <> []) l;
  ft_hours : Forall (fun c => hour_at c.2 = p.1) l;
  ft_sorted : StronglySorted Z.le (map snd l);
  ft_after : forall t c, w_last_at w = Some t -> head l = Some c -> t <= c.2;
  ft_size : w_size w + zlen (payload_of l) <= w_max w }.

Lemma sorted_app (l k : list Z) :
  StronglySorted Z.le l -> StronglySorted Z.le k ->
  (forall a b, last l = Some a -> head k = Some b -> a <= b) -> StronglySorted Z.le (l ++ k).
Proof.
  intros Hl Hk Hlk. apply StronglySorted_app. split_and!; [|done|done].
  intros x y Hx Hy. destruct (last l) as [a|] eqn:Ea; [|apply last_None in Ea as ->; by apply elem_of_nil in Hx].
  destruct k as [|b k]; [by apply elem_of_nil in Hy|]. specialize (Hlk a b eq_refl eq_refl).
  apply last_Some in Ea as [l' ->]. apply StronglySorted_app in Hl as (Hl & _ & _).
  inversion_clear Hk as [|? ? Hk' Hb]. rewrite Forall_forall in Hb.
  assert (x <= a).
  { apply elem_of_app in Hx as [Hx|Hx]; [apply Hl; [done|by left]|].
    apply list_elem_of_singleton in Hx as ->. lia. }
  apply elem_of_cons in Hy as [->|Hy]; [lia|]. specialize (Hb y Hy). lia.
Qed.

(** The part keeps agreeing with its index. *)
Lemma part_ok_append hour b l q p k :
  part_ok hour b l -> Forall (fun c => c.1.2 <> []) k -> Forall (fun c => hour_at c.2 = hour) k ->
  StronglySorted Z.le (map snd k) ->
  (forall t c, last (map row_received l) = Some t -> head k = Some c -> t <= c.2) ->
  part_ok hour (b ++ payload_of k) (l ++ batch_rows (batch_positions q (zlen b) p k) k).
Proof.
  intros [Hc Ht Hh Hs] Hd Hhk Hsk Hlk. destruct (batch_rows_contiguous q (zlen b) p k Hd) as [Hck Htk]. split.
  - rewrite contiguous_app, Ht, Z.add_0_l. by split.
  - by rewrite total_app, Htk, Ht, zlen_app.
  - apply Forall_app. split; [done|]. apply Forall_forall. intros r Hr.
    assert (Hin : row_received r ∈ map snd k).
    { rewrite <- (batch_rows_received q (zlen b) p k). apply list_elem_of_fmap. by exists r. }
    apply list_elem_of_fmap in Hin as (c & -> & Hin). by apply (proj1 (Forall_forall _ _) Hhk).
  - rewrite map_app, batch_rows_received. apply sorted_app; [done|done|].
    intros a t Ha Hb. destruct k as [|c k]; [done|]. cbn in Hb. injection Hb as <-. by apply (Hlk a c).
Qed.

(** The outcome of a successful append on the record. *)
Definition appended (w : writer) (p : path) (l : list chunk) (w' : writer) : Prop :=
  content w' = content w ++ payload_of l /\ w_sequence w' = w_sequence w + zlen l
  /\ w_log w' = w_log w /\ w_hour w' = w_hour w /\ w_max w' = w_max w
  /\ w_size w' = w_size w + zlen (payload_of l) /\ w_last_at w' = snd <$> last l
  /\ (exists b, body_at (w_files w) p = b /\ body_at (w_files w') p = b ++ payload_of l /\ w_size w = zlen b).
(** An operation from [w]: success with [Q], or failure with the bytes kept. *)
Definition steps {A} (w : writer) (m : wm A) (Q : A -> writer -> Prop) : Prop :=
  match m w with
  | (Ok a, w') => Q a w' /\ since w w'
  | (Raise _, w') => extends w w' /\ ~ no_failure w
  end.

Lemma since_refl w : since w w.
Proof. split; [apply extends_refl|done]. Qed.

Lemma since_trans w1 w2 w3 : since w1 w2 -> since w2 w3 -> since w1 w3.
Proof. intros [? ?] [? ?]. split; [by eapply extends_trans|auto]. Qed.

Lemma steps_triple {A} w0 (P : writer -> Prop) (m : wm A) Q :
  (forall w, P w -> steps w m Q) -> triple w0 P m Q.
Proof.
  intros H w Hw Hs. specialize (H w Hw). unfold steps in H.
  destruct (m w) as [[a|e] w'].
  - destruct H as [Hq Hs']. split; [done|]. by eapply since_trans.
  - destruct H as [He Hf], Hs as [Hse Hsf]. split; [by eapply extends_trans|auto].
Qed.

Lemma steps_bind {A B} w (m : wm A) R (k : A -> wm B) Q :
  steps w m R -> (forall a w', R a w' -> since w w' -> steps w' (k a) Q) -> steps w (st_bind m k) Q.
Proof.
  intros Hm Hk. unfold steps, st_bind in *. destruct (m w) as [[a|e] w']; [|done].
  destruct Hm as [Hr Hs]. specialize (Hk a w' Hr Hs). destruct (k a w') as [[x|x] w''].
  - destruct Hk. split; [done|]. by eapply since_trans.
  - destruct Hk, Hs. split; [by eapply extends_trans|auto].
Qed.

Lemma steps_ret {A} w (a : A) (Q : A -> writer -> Prop) : Q a w -> steps w (st_ret a) Q.
Proof. intros H. split; [done|apply since_refl]. Qed.

Lemma steps_get {A} w (k : writer -> wm A) Q : steps w (k w) Q -> steps w (st_bind st_get k) Q.
Proof. done. Qed.

Lemma steps_post {A} w (m : wm A) (Q Q' : A -> writer -> Prop) :
  steps w m Q -> (forall a w', Q a w' -> Q' a w') -> steps w m Q'.
Proof. intros H HQ. unfold steps in *. destruct (m w) as [[a|e] w']; [|done]. destruct H. split; auto. Qed.

Lemma steps_put {A} w w1 (k : unit -> wm A) Q : since w w1 -> steps w1 (k tt) Q -> steps w (st_bind (st_put w1) k) Q.
Proof.
  intros Hs Hk. unfold steps, st_bind, st_put in *. destruct (k tt w1) as [[a|e] w'].
  - destruct Hk. split; [done|by eapply since_trans].
  - destruct Hk, Hs. split; [by eapply extends_trans|auto].
Qed.

(** One physical operation: the operation goes on, or raises with the bytes kept. *)
Lemma steps_io {A} w (k : outcome -> wm A) Q :
  (forall io, since w (with_io w io) -> steps (with_io w io) (k Done) Q) ->
  (forall n io, match k (Fails n) (with_io w io) with (Ok _, _) => False | (Raise _, w') => extends w w' end) ->
  steps w (st_bind next_io k) Q.
Proof.
  intros Hdone Hfails. unfold steps, st_bind.
  destruct (next_io_cases w) as [(io & -> & Hio)|(n & io & -> & Hnf)].
  - assert (Hs : since w (with_io w io)) by (split; [by apply extends_files|exact Hio]). specialize (Hdone io Hs). unfold steps in Hdone.
    destruct (k Done (with_io w io)) as [[a|e] w'].
    + destruct Hdone. split; [done|by eapply since_trans].
    + destruct Hdone, Hs. split; [by eapply extends_trans|auto].
  - specialize (Hfails n io). by destruct (k (Fails n) (with_io w io)) as [[a|e] w'].
Qed.

(** The state after the two appends of a batch. *)
Definition after_append (w : writer) (p : path) (l : list chunk) (io : list outcome) : writer :=
  let positions := batch_positions (w_sequence w) (w_size w) p l in
  let old := default (Physical [] [] false) (w_files w !! p) in
  Writer (<[p := Physical (body old ++ payload_of l) (rows old ++ batch_rows positions l) (torn old)]> (w_files w))
    (w_hour w) (w_log w) (w_size w + zlen (payload_of l)) (w_durable w)
    (default (w_sequence w) (ps_sequence <$> last positions))
    (w_digest w ++ payload_of l) (w_index w ++ batch_rows positions l)
    (or_else (w_first w) (ps_sequence <$> head positions))
    (or_else (ps_sequence <$> last positions) (w_last w))
    (or_else (w_first_at w) (snd <$> head l))
    (or_else (snd <$> last l) (w_last_at w))
    (w_max w) (w_pending w) (w_spooled w) (w_last_sync w) (w_error w) io.

Lemma open_last w p : writer_ok w -> w_log w = Some p ->
  parts w = map sg_path (sealed w) ++ [p] /\ p ∉ map sg_path (sealed w).
Proof.
  intros Hw Hl. pose proof (wo_nodup _ Hw) as Hnd. unfold parts in *. rewrite Hl in *. cbn in *.
  split; [done|]. apply NoDup_app in Hnd as (_ & Hd & _). intros Hin. apply (Hd p Hin). by left.
Qed.

Lemma after_append_ok w p l io :
  writer_ok w -> fits w p l ->
  writer_ok (after_append w p l io) /\ appended w p l (after_append w p l io)
  /\ extends w (after_append w p l io).
Proof.
  intros Hw Hf. destruct (open_last w p Hw (ft_log _ _ _ Hf)) as [Hparts Hnew].
  pose proof (wo_open _ Hw) as Ho. unfold open_ok in Ho. rewrite (ft_log _ _ _ Hf) in Ho.
  destruct Ho as (Hh & b & r & Hp & Hsz & Hdg & Hix & Hmx & Hpos & Hla & Hpo).
  set (w' := after_append w p l io).
  assert (Hfp : w_files w' !! p = Some (Physical (b ++ payload_of l) (r ++ batch_rows (batch_positions (w_sequence w) (w_size w) p l) l) false)).
  { unfold w', after_append. cbn. by rewrite lookup_insert_eq, Hp. }
  assert (Hfo : forall q, q <> p -> w_files w' !! q = w_files w !! q).
  { intros q Hq. unfold w', after_append. cbn. by rewrite lookup_insert_ne. }
  assert (Hparts' : parts w' = parts w) by (unfold parts, sealed, w', after_append; cbn; by rewrite (ft_log _ _ _ Hf)).
  assert (Hseal : sealed w' = sealed w) by done.
  assert (Hold : forall q, q ∈ map sg_path (sealed w) -> w_files w' !! q = w_files w !! q).
  { intros q Hq. apply Hfo. congruence. }
  assert (Hcontent : content w' = content w ++ payload_of l).
  { unfold content. rewrite Hparts', Hparts, !map_app, !concat_app, (bodies_same _ _ _ Hold). cbn [map concat].
    unfold body_at at 2 4. rewrite Hfp, Hp. cbn [body]. by rewrite !app_nil_r, app_assoc. }
  assert (Hrows : all_rows w' = all_rows w ++ batch_rows (batch_positions (w_sequence w) (w_size w) p l) l).
  { unfold all_rows. rewrite Hparts', Hparts, !map_app, !concat_app, (rows_same _ _ _ Hold). cbn [map concat].
    unfold rows_at at 2 4. rewrite Hfp, Hp. cbn [rows]. by rewrite !app_nil_r, app_assoc. }
  assert (Hseq : w_sequence w' = w_sequence w + zlen l) by apply last_sequence.
  assert (Hlast : w_last_at w' = snd <$> last l).
  { unfold w', after_append. cbn. destruct (last l) eqn:E; [done|]. apply last_None in E. by destruct (ft_some _ _ _ Hf). }
  split; [|split].
  - split.
    + rewrite Hparts'. apply Hw.
    + rewrite Hparts'. apply Hw.
    + intros q Hq. rewrite Hparts' in Hq. rewrite Hfo; [by apply (wo_others _ Hw)|].
      intros ->. apply Hq. rewrite Hparts. set_solver.
    + rewrite Hseal. apply (sealed_keep w); [apply Hw|done].
    + unfold open_ok. change (w_log w') with (w_log w). rewrite (ft_log _ _ _ Hf). split; [exact Hh|].
      exists (b ++ payload_of l), (r ++ batch_rows (batch_positions (w_sequence w) (w_size w) p l) l).
      split; [exact Hfp|]. split; [cbn; rewrite zlen_app; lia|]. split; [cbn; by rewrite Hdg|].
      split; [cbn; by rewrite Hix|]. split; [rewrite zlen_app; pose proof (ft_size _ _ _ Hf); cbn; lia|].
      split; [done|]. split.
      * rewrite Hlast, map_app, batch_rows_received, last_app, fmap_last. destruct (last l) eqn:E; [done|].
        apply last_None in E. by destruct (ft_some _ _ _ Hf).
      * rewrite Hsz. apply part_ok_append; [done|apply Hf|apply Hf|apply Hf|].
        intros t c Ht Hc. apply (ft_after _ _ _ Hf t c); [congruence|done].
    + rewrite Hrows, map_app, (wo_sequence _ Hw), batch_rows_sequence, Hseq.
      rewrite seqZ_app by (pose proof (wo_positive _ Hw); pose proof (zlen_nonneg l); lia). f_equal. f_equal. lia.
    + rewrite Hseq. pose proof (wo_positive _ Hw). pose proof (zlen_nonneg l). lia.
    + pose proof (wo_durable _ Hw). pose proof (zlen_nonneg (payload_of l)). cbn. lia.
    + apply Hw.
  - split_and!; try done. exists b. unfold body_at. by rewrite Hp, Hfp.
  - intros q ph Hq _. destruct (decide (q = p)) as [->|Hne].
    + rewrite Hp in Hq. injection Hq as <-. eexists. split; [exact Hfp|]. cbn. split; by apply prefix_app_r.
    + exists ph. rewrite Hfo by done. by split_and!.
Qed.

(** The disk after a failed append still extends the disk before it. *)
Lemma grown_extends w w' p b r t b' r' t' :
  w_files w !! p = Some (Physical b r t) -> b `prefix_of` b' -> r `prefix_of` r' ->
  w_files w' = <[p := Physical b' r' t']> (w_files w) -> extends w w'.
Proof.
  intros Hp Hb Hr Hf q ph Hq _. rewrite Hf. destruct (decide (q = p)) as [->|Hne].
  - rewrite lookup_insert_eq. rewrite Hp in Hq. injection Hq as <-. eexists. by split.
  - rewrite lookup_insert_ne by done. exists ph. by split_and!.
Qed.

Lemma sync_ok w tick : writer_ok w -> writer_ok (sync_files tick w).
Proof.
  intros [H1 H2 H3 H4 H5 H6 H7 H8 H9]. split; try done. cbn. lia.
Qed.

Lemma io_ok w io : writer_ok w -> writer_ok (with_io w io).
Proof. by intros []; split. Qed.

Lemma append_steps w p l tick :
  writer_ok w -> fits w p l ->
  steps w (_append_batch_sync tick l) (fun ps w' =>
    ps = batch_positions (w_sequence w) (w_size w) p l /\ writer_ok w' /\ appended w p l w').
Proof.
  intros Hw Hf. unfold _append_batch_sync. apply steps_get. rewrite (ft_log _ _ _ Hf). cbv zeta. apply steps_io.
  - intros io [_ Hio]. apply steps_get. destruct (after_append_ok w p l io Hw Hf) as (H1 & H2 & H3).
    apply (steps_put _ (after_append w p l io)); [split; [exact H3|done]|].
    eapply (steps_bind _ _ (fun _ w' => writer_ok w' /\ appended w p l w')).
    + destruct (Qle_bool 1 _); [|by apply steps_ret]. unfold _sync_files. apply steps_io.
      * intros io' _. apply steps_get. split; [|split; [by apply extends_files|done]]. split; [by apply sync_ok, io_ok|].
        destruct H2 as (? & ? & ? & ? & ? & ? & ? & ?). by split_and!.
      * intros n io'. by apply extends_files.
    + intros [] w' [? ?] _. by apply steps_ret.
  - pose proof (wo_open _ Hw) as Ho. unfold open_ok in Ho. rewrite (ft_log _ _ _ Hf) in Ho.
    destruct Ho as (_ & b & r & Hp & _). intros k io. unfold st_bind, st_get, st_put, st_raise. cbn [with_io w_files]. rewrite Hp. cbn [default body rows torn].
    destruct (k <? _)%nat; (eapply grown_extends; [exact Hp| | |reflexivity]); try done; by apply prefix_app_r.
Qed.
(** ** Sealing and publishing *)

(** The state after a part was closed. *)
Definition after_seal (w : writer) (p : path) (tick : Q) (io : list outcome) : writer :=
  let part := Segment p (w_size w) (sha256 (w_digest w)) (zlen (index_text row_text (w_index w)))
    (sha256 (index_text row_text (w_index w))) (w_first w) (w_last w) (w_first_at w) (w_last_at w) in
  Writer (if w_size w =? 0 then delete p (w_files w) else w_files w) None None
    (w_size w) (w_size w) (w_sequence w) (w_digest w) (w_index w)
    (w_first w) (w_last w) (w_first_at w) (w_last_at w) (w_max w)
    (if w_size w =? 0 then w_pending w else w_pending w ++ [part]) (w_spooled w)
    tick (w_error w) io.

Lemma after_seal_ok w p tick io :
  writer_ok w -> w_log w = Some p ->
  let w' := after_seal w p tick io in
  writer_ok w' /\ same_stream w w' /\ extends w w'.
Proof.
  intros Hw Hl w'. destruct (open_last w p Hw Hl) as [Hparts Hnew].
  pose proof (wo_open _ Hw) as Ho. unfold open_ok in Ho. rewrite Hl in Ho.
  destruct Ho as (Hh & b & r & Hp & Hsz & Hdg & Hix & Hmx & Hpos & Hla & Hpo).
  pose proof (wo_durable _ Hw). pose proof (wo_others _ Hw) as Hothers. pose proof (wo_nodup _ Hw) as Hnd.
  pose proof (wo_new _ Hw) as Hnews. rewrite Hparts in Hothers, Hnd, Hnews.
  destruct (Z.eqb_spec (w_size w) 0) as [Hz|Hnz].
  - destruct b as [|b0 b]; [|exfalso; unfold zlen in Hsz; cbn in Hsz; lia].
    assert (Hr : r = []).
    { destruct Hpo as [Hc Ht _ _]. destruct r as [|x r]; [done|]. exfalso. cbn in Hc. destruct Hc as (_ & Hx & Hc).
      unfold total, zlen in Ht. cbn in Ht.
      assert (0 <= total r); [|unfold total in *; lia]. clear -Hc. revert Hc. generalize (0 + row_length x).
      unfold total. induction r as [|y r IH]; intros o; cbn; [lia|]. intros (_ & ? & Hc). specialize (IH _ Hc). lia. }
    rewrite Hr in *. clear Hr r.
    assert (Hfiles : w_files w' = delete p (w_files w)) by (unfold w', after_seal; cbn; by rewrite (proj2 (Z.eqb_eq _ _) Hz)).
    assert (Hseal : sealed w' = sealed w) by (unfold sealed, w', after_seal; cbn; by rewrite (proj2 (Z.eqb_eq _ _) Hz)).
    assert (Hparts' : parts w' = map sg_path (sealed w)) by (unfold parts; rewrite Hseal; cbn; by rewrite app_nil_r).
    assert (Hold : forall q, q ∈ map sg_path (sealed w) -> w_files w' !! q = w_files w !! q).
    { intros q Hq. rewrite Hfiles. apply lookup_delete_ne. congruence. }
    assert (Hrows : all_rows w' = all_rows w).
    { unfold all_rows. rewrite Hparts', Hparts, map_app, concat_app, (rows_same _ _ _ Hold). cbn [map concat].
      unfold rows_at at 3. rewrite Hp. cbn. by rewrite app_nil_r. }
    split; [|split].
    + split.
      * rewrite Hparts'. by apply NoDup_app in Hnd as (? & _ & _).
      * rewrite Hparts'. by apply Forall_app in Hnews as [? _].
      * intros q Hq. rewrite Hparts' in Hq. rewrite Hfiles. destruct (decide (q = p)) as [->|Hne].
        -- rewrite lookup_delete_eq. apply Forall_app in Hnews as [_ Hn]. inversion_clear Hn. done.
        -- rewrite lookup_delete_ne by done. apply Hothers. set_solver.
      * rewrite Hseal. apply (sealed_keep w); [apply Hw|done].
      * done.
      * rewrite Hrows. apply Hw.
      * apply Hw.
      * cbn. lia.
      * apply Hw.
    + split; [|done]. unfold content. rewrite Hparts', Hparts, map_app, concat_app, (bodies_same _ _ _ Hold).
      cbn [map concat]. unfold body_at at 3. rewrite Hp. cbn. by rewrite app_nil_r.
    + intros q ph Hq Hne. exists ph. rewrite Hfiles. rewrite lookup_delete_ne; [by split_and!|].
      intros <-. rewrite Hp in Hq. injection Hq as <-. done.
  - assert (Hfiles : w_files w' = w_files w) by (unfold w', after_seal; cbn; by rewrite (proj2 (Z.eqb_neq _ _) Hnz)).
    set (part := Segment p (w_size w) (sha256 (w_digest w)) (zlen (index_text row_text (w_index w)))
      (sha256 (index_text row_text (w_index w))) (w_first w) (w_last w) (w_first_at w) (w_last_at w)).
    assert (Hseal : sealed w' = sealed w ++ [part]).
    { unfold sealed, w', after_seal. cbn. rewrite (proj2 (Z.eqb_neq _ _) Hnz). by rewrite app_assoc. }
    assert (Hparts' : parts w' = parts w).
    { rewrite Hparts. unfold parts. rewrite Hseal, map_app. cbn. by rewrite app_nil_r. }
    assert (Hrows : all_rows w' = all_rows w) by (unfold all_rows; by rewrite Hparts', Hfiles).
    split; [|split].
    + split.
      * rewrite Hparts'. apply Hw.
      * rewrite Hparts'. apply Hw.
      * intros q Hq. rewrite Hparts' in Hq. rewrite Hfiles. by apply Hw.
      * rewrite Hseal. apply Forall_app. split; [apply (sealed_keep w); [apply Hw|by rewrite Hfiles]|].
        constructor; [|constructor]. exists b, r. rewrite Hfiles. unfold part. cbn.
        rewrite Hdg, Hix. split_and!; try done. lia.
      * done.
      * rewrite Hrows. apply Hw.
      * apply Hw.
      * cbn. lia.
      * apply Hw.
    + split; [|done]. unfold content. by rewrite Hparts', Hfiles.
    + by apply extends_files.
Qed.

Lemma seal_steps w tick :
  writer_ok w ->
  steps w (_seal_locked sha256 row_text tick) (fun _ w' =>
    writer_ok w' /\ same_stream w w' /\ w_log w' = None /\ w_hour w' = None).
Proof.
  intros Hw. unfold _seal_locked. apply steps_get. rewrite (wo_healthy _ Hw). destruct (w_log w) as [p|] eqn:El.
  2:{ apply steps_ret. pose proof (wo_open _ Hw) as Ho. unfold open_ok in Ho. rewrite El in Ho. by split_and!. }
  apply steps_io; [|intros n io; by apply extends_files]. intros io [_ Hio]. apply steps_get. cbv zeta.
  assert (Hafter : forall io' w0, w0 = after_seal w p tick io' -> (no_failure w -> Forall (fun o => o = Done) io') ->
    (writer_ok w0 /\ same_stream w w0 /\ w_log w0 = None /\ w_hour w0 = None) /\ extends w w0).
  { intros io' w0 -> _. destruct (after_seal_ok w p tick io' Hw El) as (H1 & H2 & H3). by split_and!. }
  eapply steps_put; [split; [by apply extends_files|done]|]. cbn [with_io w_size].
  destruct (w_size w =? 0) eqn:Hz.
  - unfold unlink_part. apply steps_io; [|intros n io'; by apply extends_files]. intros io' [_ Hio']. apply steps_get.
    destruct (Hafter io' (set_files (delete p (w_files w)) (with_io
      (Writer (w_files w) None None (w_size w) (w_size w) (w_sequence w) (w_digest w) (w_index w)
        (w_first w) (w_last w) (w_first_at w) (w_last_at w) (w_max w) (w_pending w) (w_spooled w) tick (w_error w) io) io')))
      as [HQ He]; [unfold after_seal; by rewrite Hz|intros; by apply Hio', Hio|].
    split; [exact HQ|]. split; [|done].
    intros q ph Hq Hne. by apply He.
  - destruct (Hafter io (Writer (w_files w) None None (w_size w) (w_size w) (w_sequence w) (w_digest w) (w_index w)
        (w_first w) (w_last w) (w_first_at w) (w_last_at w) (w_max w)
        (w_pending w ++ [Segment p (w_size w) (sha256 (w_digest w)) (zlen (index_text row_text (w_index w)))
            (sha256 (index_text row_text (w_index w))) (w_first w) (w_last w) (w_first_at w) (w_last_at w)]) (w_spooled w) tick (w_error w) io))
      as [HQ _]; [unfold after_seal; by rewrite Hz|done|]. by apply steps_ret.
Qed.

Lemma publish_steps w :
  writer_ok w ->
  steps w _publish_pending_locked (fun _ w' =>
    writer_ok w' /\ same_stream w w' /\ w_log w' = w_log w /\ w_hour w' = w_hour w).
Proof.
  intros Hw. unfold steps, _publish_pending_locked, st_bind, st_get, st_put, st_raise, st_ret.
  destruct (w_pending w) as [|s l] eqn:Ep.
  { split; [by split_and!|apply since_refl]. }
  destruct (next_io_cases w) as [(io & -> & Hio)|(k & io & -> & Hnf)].
  2:{ split; [by apply extends_files|done]. }
  cbn [with_io w_files w_hour w_log w_size w_durable w_sequence w_digest w_index w_first w_last w_first_at
    w_last_at w_max w_pending w_spooled w_last_sync w_error w_io].
  set (w' := Writer _ _ _ _ _ _ _ _ _ _ _ _ _ _ _ _ _ _).
  assert (Hseal : sealed w' = sealed w).
  { unfold sealed, w'. cbn. rewrite concat_app. cbn. by rewrite !app_nil_r, Ep. }
  assert (Hparts : parts w' = parts w) by (unfold parts; by rewrite Hseal).
  split; [|split; [by apply extends_files|exact Hio]].
  split_and!; [|split; [|done]|done|done].
  - split; rewrite ?Hparts; try apply Hw.
    + rewrite Hseal. apply (sealed_keep w); [apply Hw|done].
    + unfold all_rows. rewrite Hparts. apply Hw.
  - unfold content. by rewrite Hparts.
Qed.

Lemma open_steps w hour candidate tick :
  writer_ok w -> w_log w = None ->
  steps w (_open hour candidate tick) (fun _ w' =>
    writer_ok w' /\ same_stream w w' /\ w_hour w' = Some hour /\ (exists p, w_log w' = Some p)
    /\ w_size w' = 0 /\ w_last_at w' = None /\ w_max w' = segment_limit candidate).
Proof.
  intros Hw Hl. unfold steps, _open, st_bind, st_get, st_put, st_raise.
  destruct (next_io_cases w) as [(io & -> & Hio)|(k & io & -> & Hnf)]; [|split; [by apply extends_files|done]].
  destruct (open_step (with_io w io) hour candidate tick) as (H1 & H2 & H3 & H4 & H5 & H6 & H7 & H8 & H9); [by apply io_ok|done|].
  split; [by split_and!|]. split; [exact H3|]. unfold no_failure. rewrite H4. exact Hio.
Qed.
(** ** Positions *)

Section positions.
(** The chunks of the call, by source index. *)
Variable src : nat -> bytes.

Definition src_slice (ps : position) : bytes := sl (ps_source_offset ps) (ps_length ps) (src (ps_source_index ps)).

(** A position names bytes on disk that are the bytes of its source. *)
Definition pos_ok (w : writer) (ps : position) : Prop :=
  0 < ps_length ps /\ 0 <= ps_offset ps /\ ps_offset ps + ps_length ps <= zlen (body_at (w_files w) (ps_path ps))
  /\ sl (ps_offset ps) (ps_length ps) (body_at (w_files w) (ps_path ps)) = src_slice ps.

Lemma pos_ok_extends w w' ps : extends w w' -> pos_ok w ps -> pos_ok w' ps.
Proof.
  intros He (Hl & Ho & Hb & Hs). unfold body_at in *.
  destruct (w_files w !! ps_path ps) as [ph|] eqn:Ep; [|rewrite zlen_nil in Hb; lia].
  destruct (He _ _ Ep) as (ph' & Hp' & Hpre & _); [intros Hz; rewrite Hz, zlen_nil in Hb; lia|].
  unfold pos_ok, body_at. rewrite Hp'. apply prefix_length in Hpre as Hlen.
  split_and!; [done|done|unfold zlen in *; lia|]. rewrite <- Hs. apply sl_prefix; [done|lia|done|done].
Qed.

(** A piece of a group: the bytes at an offset of its source. *)
Definition piece_ok (c : chunk) (i : Z * option Z) : Prop :=
  c.1.2 <> [] /\ sl i.1 (zlen c.1.2) (src c.1.1) = c.1.2.

(** The positions of an append, with the source offsets of the group. *)
Definition place (ps : position) (i : Z * option Z) : position :=
  Position (ps_sequence ps) (ps_offset ps) (ps_length ps) (ps_path ps) i.2 (ps_source_index ps) i.1.

Lemma placed_ok w p q old l ids rest :
  body_at (w_files w) p = old ++ payload_of l ++ rest -> Forall2 piece_ok l ids ->
  let ps := zip_with place (batch_positions q (zlen old) p l) ids in
  Forall (pos_ok w) ps /\ concat (map src_slice ps) = payload_of l
  /\ map ps_sequence ps = seqZ (q + 1) (zlen l).
Proof.
  intros Hb Hl. revert q old Hb. induction Hl as [|[[i d] t] id l ids [Hd Hsl] Hl IH]; intros q old Hb; [done|].
  cbn [batch_positions zip_with map concat]. cbn in Hd, Hsl.
  assert (Hpay : payload_of ((i, d, t) :: l) = d ++ payload_of l) by done. rewrite Hpay in Hb.
  destruct (IH (q + 1) (old ++ d)) as (Hok & Hc & Hs); [by rewrite <- !app_assoc in *|].
  set (first := place (Position (q + 1) (zlen old) (zlen d) p None i 0) id).
  assert (Hf : src_slice first = d) by exact Hsl.
  rewrite zlen_app in *. rewrite Hf, Hpay, Hc, Hs, zlen_cons. change (ps_sequence first) with (q + 1).
  split_and!; [|done|].
  - constructor; [|done]. unfold pos_ok. rewrite Hf. cbn. rewrite Hb.
    assert (0 < zlen d) by (unfold zlen; destruct d; [done|cbn; lia]).
    split_and!; [done|apply zlen_nonneg| |].
    + rewrite !zlen_app. pose proof (zlen_nonneg (payload_of l)). pose proof (zlen_nonneg rest). lia.
    + unfold sl, zlen. rewrite !Nat2Z.id, drop_app_length, <- app_assoc. apply take_app_length.
  - rewrite (seqZ_cons (q + 1)) by (pose proof (zlen_nonneg l); lia). f_equal. f_equal; lia.
Qed.

(** ** The rotating write *)

Variables (stream : bytes) (sequence0 : Z).

(** The loop's state after it consumed [consumed] of the chunks. *)
Record rotating (consumed : bytes) (b : batch) (w : writer) : Prop := {
  rt_ok : writer_ok w;
  rt_content : content w ++ payload_of (b_group b) = stream ++ consumed;
  rt_slices : concat (map src_slice (b_positions b)) ++ payload_of (b_group b) = consumed;
  rt_positions : Forall (pos_ok w) (b_positions b);
  rt_sequences : map ps_sequence (b_positions b) = seqZ (sequence0 + 1) (zlen (b_positions b));
  rt_sequence : w_sequence w = sequence0 + zlen (b_positions b);
  rt_pieces : Forall2 piece_ok (b_group b) (b_ids b);
  rt_fits : b_group b <> [] -> exists p, fits w p (b_group b) }.

Definition flushed (consumed : bytes) (b : batch) (w : writer) : Prop :=
  rotating consumed b w /\ b_group b = [] /\ b_ids b = [].

Lemma flush_steps consumed b w tick :
  rotating consumed b w ->
  steps w (flush tick b) (fun b' w' => flushed consumed b' w' /\ w_log w' = w_log w /\ w_hour w' = w_hour w
    /\ w_max w' = w_max w
    /\ w_last_at w' = match last (b_group b) with Some c => Some c.2 | None => w_last_at w end
    /\ w_size w' = w_size w + group_bytes b).
Proof.
  intros Hr. unfold flush. destruct (b_group b) as [|c l] eqn:Eg.
  { assert (Hids : b_ids b = []).
    { pose proof (rt_pieces _ _ _ Hr) as Hp. rewrite Eg in Hp. by inversion Hp. }
    assert (Hz : group_bytes b = 0) by (unfold group_bytes; by rewrite Eg).
    unfold steps. cbn. split; [|apply since_refl]. split; [by split_and!|]. rewrite Hz. split_and!; [done..|lia]. }
  destruct (rt_fits _ _ _ Hr) as [p Hf]; [by rewrite Eg|]. rewrite Eg in Hf.
  pose proof (append_steps w p (c :: l) tick (rt_ok _ _ _ Hr) Hf) as Ha.
  unfold steps, st_bind in *. destruct (_append_batch_sync tick (c :: l) w) as [[ps|e] w'] eqn:Eapp; [|done].
  destruct Ha as [(-> & Hok & Hcont & Hseq & Hlog & Hhour & Hmax & Hsize & Hlast & bb & Hb1 & Hb2 & Hb3) Hs].
  destruct Hr as [Hr1 Hr2 Hr3 Hr4 Hr5 Hr6 Hr7 Hr8]. rewrite Eg in *.
  destruct (placed_ok w' p (w_sequence w) bb (c :: l) (b_ids b) []) as (Hpos & Hsl & Hsq);
    [by rewrite app_nil_r|done|].
  rewrite <- Hb3 in Hpos, Hsl, Hsq. unfold st_ret. split; [|done].
  set (new := zip_with place _ _) in *.
  assert (Hnl : zlen new = zlen (c :: l)).
  { unfold zlen, new. rewrite length_zip_with, batch_positions_length.
    apply Forall2_length in Hr7. rewrite <- Hr7. lia. }
  split; [|split_and!; try done].
  - split_and!; [|done|done]. split; cbn [b_positions b_group b_ids].
    + done.
    + rewrite Hcont. cbn. rewrite app_nil_r. exact Hr2.
    + cbn. rewrite app_nil_r. change (zip_with _ _ (b_ids b)) with new. rewrite map_app, concat_app, Hsl. exact Hr3.
    + apply Forall_app. split; [|exact Hpos]. eapply Forall_impl; [exact Hr4|].
      intros ps. apply pos_ok_extends. apply Hs.
    + change (zip_with _ _ (b_ids b)) with new. rewrite map_app, Hsq, Hr5, zlen_app, Hnl, Hr6.
      rewrite seqZ_app by apply zlen_nonneg. f_equal. f_equal. lia.
    + change (zip_with _ _ (b_ids b)) with new. rewrite Hseq, zlen_app, Hnl. lia.
    + constructor.
    + done.
  - rewrite Hlast. destruct (last (c :: l)) eqn:E; [done|by apply last_None in E].
  - unfold group_bytes. by rewrite Eg.
Qed.

(** Operations that store nothing keep a flushed state. *)
Lemma flushed_same consumed b w w' :
  flushed consumed b w -> writer_ok w' -> same_stream w w' -> extends w w' -> flushed consumed b w'.
Proof.
  intros (Hr & Hg & Hi) Hok [Hc Hq] He. destruct Hr as [H1 H2 H3 H4 H5 H6 H7 H8].
  split_and!; [|done|done]. split; try done.
  - by rewrite Hc.
  - eapply Forall_impl; [exact H4|]. intros ps. by apply pos_ok_extends.
  - by rewrite Hq.
Qed.
(** ** The pieces of one chunk *)

(** The group, or the open part, does not end after [t]. *)
Definition before (t : Z) (b : batch) (w : writer) : Prop :=
  match last (b_group b) with
  | Some c => c.2 <= t
  | None => match w_last_at w with Some u => u <= t | None => True end
  end.

Lemma hour_open w h : writer_ok w -> w_hour w = Some h ->
  exists p, w_log w = Some p /\ p.1 = h /\ w_size w <= w_max w.
Proof.
  intros Hw Hh. pose proof (wo_open _ Hw) as Ho. unfold open_ok in Ho.
  destruct (w_log w) as [p|]; [|congruence]. destruct Ho as (Hhp & b & l & _ & Hs & _ & _ & Hm & _).
  exists p. split_and!; [done|congruence|lia].
Qed.

Lemma hour_closed w : writer_ok w -> w_hour w = None -> w_log w = None.
Proof.
  intros Hw Hh. pose proof (wo_open _ Hw) as Ho. unfold open_ok in Ho.
  destruct (w_log w) as [p|]; [|done]. destruct Ho as (Hhp & _). congruence.
Qed.

Lemma payload_snoc l c : payload_of (l ++ [c]) = payload_of l ++ c.1.2.
Proof. unfold payload_of. rewrite map_app, concat_app. cbn. by rewrite app_nil_r. Qed.

Lemma sl_take (d : bytes) n count :
  (n + count <= length d)%nat -> sl (Z.of_nat n) (zlen (take count (drop n d))) d = take count (drop n d).
Proof.
  intros Hl. unfold sl, zlen. rewrite !Nat2Z.id, length_take, length_drop. f_equal. lia.
Qed.

Lemma add_piece_ok done_ b w i d t n count rb :
  let piece := take count (drop n d) in
  src i = d -> (0 < count)%nat -> (n + count <= length d)%nat ->
  rotating (done_ ++ take n d) b w -> w_hour w = Some (hour_at t) -> before t b w ->
  w_size w + group_bytes b + zlen piece <= w_max w ->
  let b' := Batch (b_positions b) (b_group b ++ [(i, piece, t)]) (b_ids b ++ [(Z.of_nat n, rb)]) in
  rotating (done_ ++ take (n + count) d) b' w /\ before t b' w.
Proof.
  intros piece Hsrc Hc Hn Hr Hh Hbef Hsize b'. destruct Hr as [H1 H2 H3 H4 H5 H6 H7 H8].
  destruct (hour_open _ _ H1 Hh) as (p & Hlog & Hp & _).
  assert (Htake : take (n + count) d = take n d ++ piece).
  { unfold piece. by rewrite <- take_take_drop. }
  assert (Hpne : piece <> []).
  { intros Hz. assert (Hl : length piece = count) by (unfold piece; rewrite length_take, length_drop; lia).
    rewrite Hz in Hl. cbn in Hl. lia. }
  split; [|unfold before, b'; cbn; by rewrite last_snoc].
  split; unfold b'; cbn [b_positions b_group b_ids].
  - done.
  - rewrite payload_snoc, app_assoc, H2, Htake. cbn. by rewrite !app_assoc.
  - rewrite payload_snoc, app_assoc, H3, Htake. cbn. by rewrite !app_assoc.
  - done.
  - done.
  - done.
  - apply Forall2_app; [done|]. constructor; [|constructor]. split; [done|]. cbn. rewrite Hsrc. by apply sl_take.
  - intros _. exists p.
    assert (Hgp : group_bytes b = zlen (payload_of (b_group b))) by done.
    destruct (decide (b_group b = [])) as [Hg|Hg].
    + rewrite Hg in *. cbn [app]. split.
      * done.
      * done.
      * by repeat constructor.
      * constructor; [done|constructor].
      * by repeat constructor.
      * intros u c Hu [= <-]. unfold before in Hbef. rewrite Hg in Hbef. cbn in Hbef. by rewrite Hu in Hbef.
      * unfold payload_of. cbn. rewrite app_nil_r. rewrite Hgp in Hsize. cbn in Hsize. rewrite zlen_nil in Hsize. lia.
    + destruct (H8 Hg) as [p' Hf]. assert (p' = p) as -> by (destruct Hf; congruence).
      destruct Hf as [F1 F2 F3 F4 F5 F6 F7]. split.
      * done.
      * by destruct (b_group b).
      * apply Forall_app. split; [done|by repeat constructor].
      * apply Forall_app. split; [done|by repeat constructor].
      * rewrite map_app. apply sorted_app; [done|by repeat constructor|].
        intros x y Hx [= <-]. unfold before in Hbef. change (map snd (b_group b)) with (snd <$> b_group b) in Hx.
        rewrite fmap_last in Hx.
        destruct (last (b_group b)) as [c|]; [|done]. by injection Hx as <-.
      * intros u c Hu Hc'. apply (F6 u c Hu). by destruct (b_group b).
      * rewrite payload_snoc, zlen_app. cbn. rewrite <- Hgp. lia.
Qed.

(** The state in which the next piece of a chunk of instant [t] may be taken. *)
Definition ready (consumed : bytes) (t : Z) (b : batch) (w : writer) : Prop :=
  rotating consumed b w /\ w_hour w = Some (hour_at t) /\ before t b w.

Lemma group_fits consumed t b w : ready consumed t b w -> w_size w + group_bytes b <= w_max w.
Proof.
  intros (Hr & Hh & _). destruct (hour_open _ _ (rt_ok _ _ _ Hr) Hh) as (p & _ & _ & Hm).
  destruct (decide (b_group b = [])) as [Hg|Hg].
  - unfold group_bytes. rewrite Hg. cbn. rewrite zlen_nil. lia.
  - destruct (rt_fits _ _ _ Hr Hg) as [q Hf]. apply (ft_size _ _ _ Hf).
Qed.

Lemma segment_limit_pos candidate : 0 < segment_limit candidate.
Proof.
  unfold segment_limit, MAX_LOG_BYTES, MIB. destruct (candidate ≫= as_int) as [c|]; [|lia].
  destruct (Z.ltb_spec 0 c); lia.
Qed.

(** A part is replaced: flush, seal, publish or not, open. *)
Lemma replace_steps (publish : bool) consumed b w hour candidate tick :
  rotating consumed b w ->
  steps w (let! b := flush tick b in
           let! _ := _seal_locked sha256 row_text tick in
           let! _ := (if publish then _publish_pending_locked else st_ret tt) in
           let! _ := _open hour candidate tick in
           st_ret b)
    (fun b' w' => flushed consumed b' w' /\ w_hour w' = Some hour /\ w_size w' = 0
                  /\ w_last_at w' = None /\ 0 < w_max w').
Proof.
  intros Hr. eapply steps_bind; [by apply flush_steps|]. intros b1 w1 (Hf1 & _) _.
  eapply steps_bind; [apply seal_steps, Hf1|]. intros [] w2 (Hok2 & Hs2 & Hl2 & _) [He2 _].
  assert (Hf2 := flushed_same _ _ _ _ Hf1 Hok2 Hs2 He2).
  eapply (steps_bind _ _ (fun _ w' => flushed consumed b1 w' /\ w_log w' = None)).
  { destruct publish; [|by apply steps_ret].
    pose proof (publish_steps w2 Hok2) as Hp. unfold steps in *.
    destruct (_publish_pending_locked w2) as [[[]|e] w3]; [|done].
    destruct Hp as [(Hok3 & Hs3 & Hl3 & _) [He3 Hn3]]. split; [|done].
    split; [by apply (flushed_same _ _ w2)|by rewrite Hl3]. }
  intros [] w3 (Hf3 & Hl3) _.
  eapply steps_bind; [apply open_steps; [apply Hf3|done]|].
  intros [] w4 (Hok4 & Hs4 & Hh4 & _ & Hz4 & Hla4 & Hm4) [He4 _]. apply steps_ret.
  split; [by apply (flushed_same _ _ w3)|]. split_and!; [done..|]. rewrite Hm4. apply segment_limit_pos.
Qed.

Lemma flushed_ready consumed b w t :
  flushed consumed b w -> w_hour w = Some (hour_at t) ->
  (forall u, w_last_at w = Some u -> u <= t) -> ready consumed t b w.
Proof.
  intros (Hr & Hg & _) Hh Hl. split_and!; [done|done|]. unfold before. rewrite Hg. cbn.
  destruct (w_last_at w); auto.
Qed.

Lemma split_chunk_steps candidate tick i d t rb done_ fuel : forall n b w,
  src i = d -> (length d < fuel + n)%nat -> (n <= length d)%nat -> ready (done_ ++ take n d) t b w ->
  steps w (split_chunk sha256 row_text fuel candidate tick (hour_at t) (i, d, t) rb n b)
    (fun b' w' => ready (done_ ++ d) t b' w').
Proof.
  induction fuel as [|fuel IH]; intros n b w Hsrc Hfuel Hn Hr; [lia|].
  cbn [split_chunk fst snd]. destruct (Nat.leb_spec (length d) n) as [Hle|Hlt].
  { apply steps_ret. by rewrite take_ge in Hr by lia. }
  apply steps_get. set (full := w_max w - w_size w - group_bytes b =? 0). cbv zeta.
  pose proof (group_fits _ _ _ _ Hr) as Hfit.
  eapply (steps_bind _ _ (fun b' w' => ready (done_ ++ take n d) t b' w'
     /\ let r := if full then w_max w' - w_size w' else w_max w' - w_size w' - group_bytes b' in
        0 < r /\ r = w_max w' - w_size w' - group_bytes b')).
  - subst full. destruct (Z.eqb_spec (w_max w - w_size w - group_bytes b) 0) as [Hz|Hz].
    + eapply steps_post; [exact (replace_steps false _ b w (hour_at t) candidate tick (proj1 Hr))|].
      intros b' w' (Hf & Hh & Hs & Hla & Hm).
      split; [apply flushed_ready; [exact Hf|exact Hh|intros u Hu; congruence]|].
      destruct Hf as (_ & Hg & _). unfold group_bytes. rewrite Hg. change (zlen (payload_of [])) with 0. cbn. lia.
    + apply steps_ret. split; [exact Hr|]. cbn. lia.
  - intros b' w' [Hr' [Hpos Heq]] _. apply steps_get. cbv zeta in *.
    set (r := if full then w_max w' - w_size w' else w_max w' - w_size w' - group_bytes b') in *.
    set (count := Nat.min (Z.to_nat r) (length d - n)).
    assert (Hcount : (0 < count)%nat) by lia.
    assert (Hnc : (n + count <= length d)%nat) by lia.
    assert (Hpl : zlen (take count (drop n d)) = Z.of_nat count).
    { unfold zlen. rewrite length_take, length_drop. lia. }
    destruct Hr' as (Hrot & Hh & Hb).
    edestruct (add_piece_ok done_ b' w' i d t n count (if (n =? 0)%nat then rb else None)) as [Hrot' Hb'];
      [exact Hsrc|exact Hcount|exact Hnc|exact Hrot|exact Hh|exact Hb| |].
    { rewrite Hpl. lia. }
    apply IH; [done|lia|lia|]. exact (conj Hrot' (conj Hh Hb')).
Qed.

(** ** One chunk, then all of them *)

Lemma write_chunk_steps candidate tick i d t done_ b w :
  src i = d -> rotating done_ b w ->
  steps w (write_chunk z sha256 row_text candidate tick (i, d, t) b)
    (fun b' w' => ready (done_ ++ d) t b' w').
Proof.
  intros Hsrc Hr. unfold write_chunk. apply steps_get. cbn [fst snd]. cbv zeta.
  set (prev := match last (b_group b) with Some g => Some g.2 | None => w_last_at w end).
  set (rb := match prev with Some u => if t <? u then Some u else None | None => None end).
  eapply (steps_bind _ _ (fun b' w' => ready done_ t b' w')).
  2:{ intros b' w' Hr' _. apply split_chunk_steps; [done|lia|lia|].
      rewrite take_0, app_nil_r. exact Hr'. }
  destruct (w_hour w) as [h|] eqn:Hh.
  - destruct (negb (hour_at t =? h) || match rb with Some _ => true | None => false end) eqn:Hc.
    + eapply steps_post; [exact (replace_steps true _ b w (hour_at t) candidate tick Hr)|].
      intros b' w' (Hf & Hh' & _ & Hla & _). apply flushed_ready; [done|done|congruence].
    + apply orb_false_elim in Hc as [Hc1 Hc2]. apply steps_ret. split_and!; [done| |].
      * rewrite Hh. f_equal. blia.
      * unfold before. subst rb prev. destruct (last (b_group b)) as [g|].
        -- destruct (Z.ltb_spec t g.2); [done|lia].
        -- destruct (w_last_at w) as [u|]; [|done]. destruct (Z.ltb_spec t u); [done|lia].
  - assert (Hlog := hour_closed _ (rt_ok _ _ _ Hr) Hh).
    eapply steps_bind; [apply open_steps; [apply Hr|done]|].
    intros [] w' (Hok & Hs & Hh' & _ & _ & Hla & _) [He _]. apply steps_ret.
    assert (Hg : b_group b = []).
    { destruct (decide (b_group b = [])) as [Hg|Hg]; [done|]. destruct (rt_fits _ _ _ Hr Hg) as [q Hf].
      destruct Hf; congruence. }
    assert (Hi : b_ids b = []).
    { pose proof (rt_pieces _ _ _ Hr) as Hp. rewrite Hg in Hp. by inversion Hp. }
    apply flushed_ready; [|done|congruence]. by apply (flushed_same _ _ w).
Qed.

Lemma write_chunks_steps candidate tick l : forall done_ b w,
  Forall (fun c : chunk => src c.1.1 = c.1.2) l -> rotating done_ b w ->
  steps w (write_chunks z sha256 row_text candidate tick l b)
    (fun b' w' => rotating (done_ ++ payload_of l) b' w').
Proof.
  induction l as [|[[i d] t] l IH]; intros done_ b w Hl Hr; cbn [write_chunks].
  { apply steps_ret. unfold payload_of. cbn. by rewrite app_nil_r. }
  inversion_clear Hl as [|? ? Hsrc Hl']. eapply steps_bind; [by apply write_chunk_steps|].
  intros b' w' (Hr' & _) _. eapply steps_post; [by apply IH|]. intros b2 w2 H2.
  unfold payload_of in *. cbn. by rewrite app_assoc.
Qed.

(** What a write promises of its positions. *)
Definition written (payload : bytes) (ps : list position) (w : writer) : Prop :=
  writer_ok w /\ content w = stream ++ payload
  /\ concat (map src_slice ps) = payload /\ Forall (pos_ok w) ps
  /\ map ps_sequence ps = seqZ (sequence0 + 1) (zlen ps) /\ w_sequence w = sequence0 + zlen ps.

Lemma write_rotating_steps candidate tick l w :
  Forall (fun c : chunk => src c.1.1 = c.1.2) l ->
  writer_ok w -> content w = stream -> w_sequence w = sequence0 ->
  steps w (write_rotating z sha256 row_text candidate tick l) (written (payload_of l)).
Proof.
  intros Hl Hw Hc Hq. unfold write_rotating. eapply steps_bind.
  { apply (write_chunks_steps _ _ l []); [done|]. split; cbn; try done; rewrite ?app_nil_r, ?zlen_nil; try done; lia. }
  intros b w' Hr _. cbn [app] in Hr. eapply steps_bind; [by apply flush_steps|].
  intros b' w'' [(Hr' & Hg & _) _] _. apply steps_ret. destruct Hr' as [H1 H2 H3 H4 H5 H6 _ _].
  rewrite Hg in *. cbn in H2, H3. rewrite !app_nil_r in *. by split_and!.
Qed.

(** ** The merged append *)

Lemma pairwise_sorted l : pairwise_le l = true -> StronglySorted Z.le l.
Proof.
  intros H. apply Sorted_StronglySorted; [intros x y u; apply Z.le_trans|]. revert H.
  induction l as [|a [|b l] IH]; [by constructor|by repeat constructor|].
  cbn [pairwise_le]. intros H. apply andb_prop in H as [H1 H2]. constructor; [by apply IH|].
  constructor. blia.
Qed.

Lemma one_append_fits w hour l :
  writer_ok w -> l <> [] -> Forall (fun c : chunk => c.1.2 <> []) l -> one_append z w hour l = true ->
  exists p, fits w p l.
Proof.
  intros Hw Hne Hd H. unfold one_append in H.
  apply andb_prop in H as [H H5]. apply andb_prop in H as [H H4].
  apply andb_prop in H as [H H3]. apply andb_prop in H as [H1 H2]. apply bool_decide_eq_true in H1.
  destruct (hour_open _ _ Hw H1) as (p & Hl & Hp & _). exists p. split; try done.
  - rewrite Forall_forall. intros c Hc. rewrite forallb_forall in H2. apply list_elem_of_In, H2 in Hc. blia.
  - by apply pairwise_sorted.
  - intros t c Ht Hc. rewrite Ht, Hc in H4. blia.
  - blia.
Qed.

Lemma place_same q off p l :
  zip_with place (batch_positions q off p l) (repeat (0, None) (length l)) = batch_positions q off p l.
Proof. revert q off. induction l as [|[[i d] t] l IH]; intros q off; cbn; [done|]. by rewrite IH. Qed.

Lemma sl_all d : sl 0 (zlen d) d = d.
Proof. unfold sl, zlen. rewrite Nat2Z.id. cbn. by rewrite take_ge. Qed.

Lemma one_append_steps tick l p w :
  Forall (fun c : chunk => src c.1.1 = c.1.2) l -> fits w p l ->
  writer_ok w -> content w = stream -> w_sequence w = sequence0 ->
  steps w (_append_batch_sync tick l) (written (payload_of l)).
Proof.
  intros Hsrc Hf Hw Hc Hq. eapply steps_post; [by apply append_steps|].
  intros ps w' (-> & Hok & Hcont & Hseq & _ & _ & _ & Hsize & _ & bb & _ & Hb2 & Hb3).
  destruct (placed_ok w' p (w_sequence w) bb l (repeat (0, None) (length l)) []) as (H1 & H2 & H3).
  - by rewrite app_nil_r.
  - pose proof (ft_data _ _ _ Hf) as Hd. clear -Hsrc Hd. induction l as [|[[i d] t] l IH]; cbn; [constructor|].
    inversion_clear Hsrc as [|? ? Hs Hs']. inversion_clear Hd as [|? ? Hdd Hd'].
    constructor; [|by apply IH]. cbn in *. split; [done|]. cbn. rewrite Hs. apply sl_all.
  - rewrite place_same in *. rewrite <- Hb3 in *.
    assert (Hz : zlen (batch_positions (w_sequence w) (w_size w) p l) = zlen l)
      by (unfold zlen; by rewrite batch_positions_length).
    split_and!; try done; rewrite ?Hz, ?Hcont, ?Hseq; congruence.
Qed.

Lemma write_locked_steps candidate tick l w :
  Forall (fun c : chunk => c.1.2 <> []) l -> Forall (fun c : chunk => src c.1.1 = c.1.2) l ->
  writer_ok w -> content w = stream -> w_sequence w = sequence0 ->
  steps w (write_locked z sha256 row_text candidate tick l) (written (payload_of l)).
Proof.
  intros Hd Hsrc Hw Hc Hq. destruct l as [|c l]; [by apply write_rotating_steps|].
  cbn [write_locked]. cbv zeta. apply steps_get. set (l' := c :: l) in *.
  eapply (steps_bind _ _ (fun _ w' => writer_ok w' /\ same_stream w w')).
  - destruct (w_hour w) eqn:Hh; [by apply steps_ret|].
    eapply steps_post; [by apply open_steps, hour_closed|]. intros [] w' (? & ? & _). done.
  - intros [] w' (Hw' & Hc' & Hq') _. apply steps_get.
    assert (content w' = stream) by congruence. assert (w_sequence w' = sequence0) by congruence.
    destruct (one_append z w' (hour_at c.2) l') eqn:E; [|by apply write_rotating_steps].
    destruct (one_append_fits w' (hour_at c.2) l' Hw') as [p Hf]; [done|done|exact E|]. by eapply one_append_steps.
Qed.
End positions.

(** ** The whole write *)

(** The bytes of the chunk at an index of the call. *)
Definition source_of (chunks : list (bytes * option datetime)) (i : nat) : bytes :=
  match chunks !! i with Some c => c.1 | None => [] end.

Lemma normalize_data now chunks : Forall (fun c : chunk => c.1.2 <> []) (normalize now chunks).
Proof. apply Forall_forall. intros c Hc. unfold normalize in Hc. by apply list_elem_of_filter in Hc as [? _]. Qed.

Lemma normalize_source now chunks :
  Forall (fun c : chunk => source_of chunks c.1.1 = c.1.2) (normalize now chunks).
Proof.
  apply Forall_forall. intros c Hc. unfold normalize in Hc. apply list_elem_of_filter in Hc as [_ Hc].
  apply list_elem_of_lookup in Hc as [k Hk]. rewrite list_lookup_imap in Hk.
  destruct (chunks !! k) as [x|] eqn:E; [|done]. injection Hk as <-. cbn. unfold source_of. by rewrite E.
Qed.

Lemma normalize_payload now chunks : payload_of (normalize now chunks) = concat (map fst chunks).
Proof.
  unfold normalize. set (f := fun d : option datetime => match d with Some d => utc_instant d | None => now end).
  enough (H : forall n, payload_of (filter (fun c : chunk => c.1.2 <> [])
     (imap (fun i (c : bytes * option datetime) => (n + i, c.1, f c.2)%nat) chunks)) = concat (map fst chunks))
    by exact (H O).
  induction chunks as [|[d t] l IH]; intros n; [done|]. rewrite imap_cons.
  specialize (IH (S n)).
  rewrite (imap_ext _ (fun i (c : bytes * option datetime) => (S n + i, c.1, f c.2)%nat)) by
    (intros i x _; cbn; f_equal; f_equal; lia).
  cbn [map fst concat]. destruct d as [|b d].
  - rewrite filter_cons_False by (cbn; tauto). exact IH.
  - rewrite filter_cons_True by done. unfold payload_of in *. cbn [map concat fst snd]. by rewrite IH.
Qed.

Lemma write_many_steps candidate tick now chunks w :
  writer_ok w ->
  match write_many z sha256 row_text candidate tick now chunks w with
  | (Ok ps, w') =>
      written (source_of chunks) (content w) (w_sequence w) (concat (map fst chunks)) ps w' /\ since w w'
  | (Raise e, w') => extends w w' /\ ~ no_failure w /\ w_error w' = Some e
  end.
Proof.
  intros Hw. unfold write_many. rewrite (wo_healthy _ Hw).
  pose proof (write_locked_steps (source_of chunks) (content w) (w_sequence w) candidate tick (normalize now chunks) w
    (normalize_data now chunks) (normalize_source now chunks) Hw eq_refl eq_refl) as Hs.
  unfold steps in Hs. rewrite normalize_payload in Hs.
  destruct (write_locked _ _ _ _ _ _ w) as [[ps|e] w']; [done|].
  destruct Hs as [He Hn]. by split_and!.
Qed.

Lemma close_steps tick w :
  writer_ok w ->
  steps w (close sha256 row_text tick) (fun _ w' =>
    writer_ok w' /\ same_stream w w' /\ w_log w' = None).
Proof.
  intros Hw. eapply steps_bind; [by apply seal_steps|]. intros [] w1 (Hw1 & [Hc1 Hq1] & Hl1 & _) _.
  eapply steps_post; [by apply publish_steps|]. intros [] w2 (Hw2 & [Hc2 Hq2] & Hl2 & _).
  split_and!; [done| |congruence]. split; congruence.
Qed.
End root.

Lemma new_writer_ok files tick io : writer_ok files (new_writer files tick io).
Proof. by split; try constructor. Qed.

(** ** Sessions *)

Inductive call : Type :=
  | Write (candidate : option pyval) (tick : Q) (now : Z) (chunks : list (bytes * option datetime))
  | Close (tick : Q).

Definition call_bytes (c : call) : bytes :=
  match c with Write _ _ _ chunks => concat (map fst chunks) | Close _ => [] end.

Definition perform (c : call) : wm (list position) :=
  match c with
  | Write candidate tick now chunks => write_many z sha256 row_text candidate tick now chunks
  | Close tick => let! _ := close sha256 row_text tick in st_ret []
  end.

Fixpoint session (calls : list call) : wm (list (list position)) :=
  match calls with
  | [] => st_ret []
  | c :: calls => let! ps := perform c in let! rest := session calls in st_ret (ps :: rest)
  end.

Lemma session_steps files0 calls : forall w,
  writer_ok files0 w -> no_failure w ->
  exists pss w', session calls w = (Ok pss, w') /\ writer_ok files0 w' /\ no_failure w'
    /\ content w' = content w ++ concat (map call_bytes calls) /\ extends w w' /\ length pss = length calls
    /\ w_sequence w' = w_sequence w + zlen (concat pss)
    /\ map ps_sequence (concat pss) = seqZ (w_sequence w + 1) (zlen (concat pss)).
Proof.
  induction calls as [|c calls IH]; intros w Hw Hn.
  { exists [], w. rewrite app_nil_r. split_and!; try done; [by apply extends_refl|cbn; rewrite zlen_nil; lia]. }
  assert (Hc : exists ps w1, perform c w = (Ok ps, w1) /\ writer_ok files0 w1 /\ since w w1
    /\ content w1 = content w ++ call_bytes c /\ w_sequence w1 = w_sequence w + zlen ps
    /\ map ps_sequence ps = seqZ (w_sequence w + 1) (zlen ps)).
  { destruct c as [candidate tick now chunks|tick]; cbn [perform call_bytes].
    - pose proof (write_many_steps files0 candidate tick now chunks w Hw) as H.
      destruct (write_many _ _ _ _ _ _ _ w) as [[ps|e] w1]; [|by destruct H as (_ & H & _)].
      destruct H as [(H1 & H2 & H3 & H4 & H5 & H6) Hs]. by exists ps, w1.
    - pose proof (close_steps files0 tick w Hw) as H. unfold steps, st_bind, st_ret in *.
      destruct (close _ _ _ w) as [[[]|e] w1]; [|by destruct H].
      destruct H as [(H1 & [H2 H3] & _) Hs]. exists [], w1. rewrite app_nil_r, zlen_nil.
      split_and!; try done; lia. }
  destruct Hc as (ps & w1 & E & Hw1 & [He1 Hn1] & Hc1 & Hq1 & Hm1).
  destruct (IH w1 Hw1 (Hn1 Hn)) as (pss & w' & E' & Hw' & Hn' & Hc' & He' & Hl & Hq' & Hm').
  exists (ps :: pss), w'. cbn [session]. unfold st_bind, st_ret. rewrite E, E'. cbn [concat map].
  split_and!; try done.
  - by rewrite Hc', Hc1, <- app_assoc.
  - by eapply extends_trans.
  - cbn. by rewrite Hl.
  - rewrite Hq', Hq1, zlen_app. lia.
  - rewrite map_app, Hm1, Hm', Hq1, zlen_app, seqZ_app by apply zlen_nonneg. f_equal. f_equal. lia.
Qed.

(** Once an error is kept no call changes anything. *)
Lemma session_refused calls w e : w_error w = Some e -> calls <> [] -> session calls w = (Raise e, w).
Proof.
  intros He Hne. destruct calls as [|c calls]; [done|]. cbn [session]. unfold st_bind at 1.
  enough (E : perform c w = (Raise e, w)) by by rewrite E.
  destruct c as [candidate tick now chunks|tick]; cbn [perform].
  - unfold write_many. by rewrite He.
  - unfold close, _seal_locked, st_bind, st_get, st_raise. by rewrite He.
Qed.

(** ** Properties *)

(** C15: a write on a consistent writer either returns, and then the received
    bytes are exactly the continuation of the stored stream, no byte on disk
    was changed, the returned positions carry consecutive sequence numbers and
    cut the call's chunks into consecutive slices, each equal to the bytes on
    disk it names; or it raises, which takes a failed physical operation, and
    then the bytes on disk are kept and the error is retained. *)
Theorem write_many_stores files0 candidate tick now chunks w :
  writer_ok files0 w ->
  match write_many z sha256 row_text candidate tick now chunks w with
  | (Ok ps, w') =>
      writer_ok files0 w' /\ extends w w'
      /\ content w' = content w ++ concat (map fst chunks)
      /\ concat (map (src_slice (source_of chunks)) ps) = concat (map fst chunks)
      /\ Forall (pos_ok (source_of chunks) w') ps
      /\ map ps_sequence ps = seqZ (w_sequence w + 1) (zlen ps)
  | (Raise e, w') => ~ no_failure w /\ extends w w' /\ w_error w' = Some e
  end.
Proof.
  intros Hw. pose proof (write_many_steps files0 candidate tick now chunks w Hw) as H.
  destruct (write_many _ _ _ _ _ _ _ w) as [[ps|e] w'].
  - destruct H as [(H1 & H2 & H3 & H4 & H5 & H6) [He _]]. by split_and!.
  - destruct H as (H1 & H2 & H3). by split_and!.
Qed.

(** A whole session of writes and closes on a new writer, over a directory
    that already holds files, completes when the disk does: the parts, in the
    order they were opened, hold exactly the received bytes, every part holds
    rows of one natural hour in chronological order that account for all its
    bytes, sealed digests are those of the files, sequence numbers are
    consecutive over the session, and the files that were there are untouched. *)
Theorem session_stores_everything files tick calls :
  exists pss w, session calls (new_writer files tick []) = (Ok pss, w)
    /\ content w = concat (map call_bytes calls)
    /\ Forall (fun p => part_ok p.1 (body_at (w_files w) p) (rows_at (w_files w) p)) (parts w)
    /\ Forall (segment_ok w) (sealed w)
    /\ map row_sequence (all_rows w) = seqZ 1 (w_sequence w)
    /\ map ps_sequence (concat pss) = seqZ 1 (w_sequence w)
    /\ forall p ph, files !! p = Some ph -> w_files w !! p = Some ph.
Proof.
  destruct (session_steps files calls (new_writer files tick []) (new_writer_ok files tick []))
    as (pss & w & H1 & Hw & _ & Hc & _ & _ & Hq & Hm); [by constructor|].
  exists pss, w. cbn in Hq. rewrite Hq in *. split_and!; try done; try apply Hw.
  - apply Forall_forall. intros p Hp. unfold parts in Hp. apply elem_of_app in Hp as [Hp|Hp].
    + apply list_elem_of_fmap in Hp as (s & -> & Hs).
      destruct (proj1 (Forall_forall _ _) (wo_sealed _ _ Hw) s Hs) as (b & l & Hf & Hp).
      unfold body_at, rows_at. rewrite Hf. apply Hp.
    + pose proof (wo_open _ _ Hw) as Ho. unfold open_ok in Ho.
      destruct (w_log w) as [q|]; [|by apply elem_of_nil in Hp]. apply list_elem_of_singleton in Hp as ->.
      destruct Ho as (_ & b & l & Hf & Hp). unfold body_at, rows_at. rewrite Hf. apply Hp.
  - rewrite <- Hq. apply Hw.
  - intros p ph Hp. rewrite (wo_others _ _ Hw); [done|]. intros Hin.
    pose proof (proj1 (Forall_forall _ _) (wo_new _ _ Hw) p Hin) as Hn. cbn in Hn. congruence.
Qed.

(** After a failed write the writer refuses everything: whatever is called
    afterwards raises the kept error, and neither the files nor any other part
    of the state changes; what was stored before the failure is still there. *)
Theorem failed_write_is_final files0 candidate tick now chunks w e w' calls :
  writer_ok files0 w -> write_many z sha256 row_text candidate tick now chunks w = (Raise e, w') -> calls <> [] ->
  session calls w' = (Raise e, w') /\ (forall p ph, w_files w !! p = Some ph -> body ph <> [] ->
    exists ph', w_files w' !! p = Some ph' /\ body ph `prefix_of` body ph' /\ rows ph `prefix_of` rows ph').
Proof.
  intros Hw E Hne. pose proof (write_many_steps files0 candidate tick now chunks w Hw) as H. rewrite E in H.
  destruct H as (He & _ & Herr). split; [by apply session_refused|exact He].
Qed.
End facts.

(** ** Witnesses *)

Definition example_chunks : list (bytes * option datetime) :=
  [([x61; x62], Some (Aware 3599000000)); ([x63], Some (Aware 3601000000)); ([x64], Some (Aware 3600500000))].

Lemma write_many_stores_witness :
  exists ps w', write_many (fixed_zone 0) (fun _ => "") (fun _ => []) None 0 0 example_chunks (new_writer ∅ 0 [])
      = (Ok ps, w')
    /\ content w' = [x61; x62; x63; x64] /\ map sg_path (sealed w') = [(0, 1); (1, 1)] /\ w_log w' = Some (1, 2).
Proof.
  pose proof (write_many_stores (fixed_zone 0) (fun _ => "") (fun _ => []) ∅ None 0 0 example_chunks
    (new_writer ∅ 0 []) (new_writer_ok _ _ _ ∅ 0 [])) as H.
  destruct (write_many _ _ _ _ _ _ _ _) as [[ps|e] w'] eqn:E.
  - destruct H as (_ & _ & Hc & _). exists ps, w'. split_and!; [done|exact Hc| |];
      vm_compute in E; injection E as _ <-; vm_compute; reflexivity.
  - destruct H as (H & _). destruct H. constructor.
Defined.

Lemma failed_write_is_final_witness :
  exists w', write_many (fixed_zone 0) (fun _ => "") (fun _ => []) None 0 0 example_chunks (new_writer ∅ 0 [Done; Done; Done; Done; Done; Fails 0])
      = (Raise BodyWriteFailed, w')
    /\ session (fixed_zone 0) (fun _ => "") (fun _ => []) [Close 1] w' = (Raise BodyWriteFailed, w').
Proof.
  eexists. split; [vm_compute; reflexivity|].
  eapply (failed_write_is_final (fixed_zone 0) (fun _ => "") (fun _ => []) ∅ None 0 0 example_chunks
    (new_writer ∅ 0 [Done; Done; Done; Done; Done; Fails 0])); [apply new_writer_ok|vm_compute; reflexivity|done].
Defined.
