(* ===== verification/StreamSearch.v ===== *)
(** * Line-wise keyword search over chunks and files ([logs/search_stream.py])

    [StreamSearch] scans the files of a search job chunk by chunk and yields the
    lines that contain the keyword inside the time window; a line, and the
    keyword's overlap, continue over chunks and over consecutive parts of one
    session.  A generator is a [gen]: what it yields, then a state or an
    exception. *)

From S2P Require Import Prelude PyTime Utf8 ByteSearch FileOrder.

Definition MAX_RESULT_TEXT_BYTES : Z := 256 * 1024.

(** One record of the byte index of a log file; `receivedAt` is parsed. *)
Record index_entry := IndexEntry {
  ie_offset : Z; ie_length : Z; ie_sequence : option Z; ie_received : Z }.

Inductive search_error : Type :=
  | LineTooLong     (* ValueError: the matched line cannot be stored whole *)
  | JobCancelled.   (* InterruptedError *)

(** The triple (file id, position, stamp) [origin] returns. *)
Record source := Source { s_file : option string; s_pos : Z; s_stamp : option Z }.

(** The text of a line: decoded, or decoded with replacement characters and
    marked `encodingError`. *)
Inductive line_text : Type :=
  | Decoded (s : list Z)
  | Replaced (payload : bytes).

Record line_result := LineResult {
  r_file : option string; r_offset : Z;
  r_line_file : option string; r_line_offset : Z;
  r_text : line_text }.

Inductive gen (S : Type) : Type :=
  | Yielded (out : list line_result) (s : S)
  | Failed (out : list line_result) (e : search_error).
Arguments Yielded {S} out s.
Arguments Failed {S} out e.

Definition gbind {S T} (g : gen S) (k : S -> gen T) : gen T :=
  match g with
  | Failed out e => Failed out e
  | Yielded out s =>
      match k s with
      | Yielded out' t => Yielded (out ++ out') t
      | Failed out' e => Failed (out ++ out') e
      end
  end.

(** ** [IndexCursor] *)

(** [c_rest] is the pending record followed by the iterator's remainder. *)
Record cursor := Cursor { c_current : option index_entry; c_rest : list index_entry }.

Definition new_cursor (index : list index_entry) : cursor := Cursor None index.

Fixpoint advance (position : Z) (current : option index_entry) (rest : list index_entry) : cursor :=
  match rest with
  | e :: rest' => if ie_offset e <=? position then advance position (Some e) rest' else Cursor current rest
  | [] => Cursor current []
  end.

Definition covers (e : index_entry) (position : Z) : bool := position <? ie_offset e + ie_length e.

(** [locate]. *)
Definition locate (position : Z) (c : cursor) : option index_entry * cursor :=
  let c := advance position (c_current c) (c_rest c) in
  (match c_current c with Some e => if covers e position then Some e else None | None => None end, c).

(** The closure [origin] of [scan]: the cursor and the cached record. *)
Record origin_state := OriginState {
  o_cursor : cursor; o_entry : option index_entry; o_end : Z; o_stamp : option Z }.

Definition new_origin (index : list index_entry) : origin_state :=
  OriginState (new_cursor index) None (-1) None.

Definition origin (file_id : option string) (position : Z) (o : origin_state) : source * origin_state :=
  let relocate := match o_entry o with None => true | Some _ => o_end o <=? position end in
  let o := if relocate
           then let '(e, c) := locate position (o_cursor o) in
                OriginState c e match e with Some e => ie_offset e + ie_length e | None => -1 end
                  (ie_received <$> e)
           else o in
  (Source file_id position (o_stamp o), o).

(** ** [StreamSearch] *)

Record state := State {
  tail : bytes; origins : list source;
  previous_identity : option (list (option string)); previous_sequence : option Z;
  line : bytes; line_bytes : Z; line_overflow : bool;
  line_origin : option source; match_ : option source }.

Definition initial_state : state := State [] [] None None [] 0 false None None.

(** [_clear_line]. *)
Definition clear_line (s : state) : state :=
  State [] [] (previous_identity s) (previous_sequence s) [] 0 false None None.

(** `payload[:-1]` when it ends in a carriage return. *)
Definition strip_cr (payload : bytes) : bytes :=
  match last payload with
  | Some b => if decide (b = CR) then removelast payload else payload
  | None => payload
  end.

Definition text_of (payload : bytes) : line_text :=
  match decode payload with Some s => Decoded s | None => Replaced payload end.

(** [_complete_line]; the `finally` clause clears the line on every path. *)
Definition complete_line {W} (so : state * W) : gen (state * W) :=
  let s := so.1 in
  match match_ s with
  | None => Yielded [] (clear_line s, so.2)
  | Some m =>
      if line_overflow s then Failed [] LineTooLong
      else
        let l := default m (line_origin s) in
        Yielded [LineResult (s_file m) (s_pos m) (s_file l) (s_pos l) (text_of (strip_cr (line s)))]
          (clear_line s, so.2)
  end.

Section search.
Variables (needle : bytes) (start stop : Z).

(** `source[2] is None or self.start <= source[2] < self.end`. *)
Definition accepted (src : source) : bool :=
  match s_stamp src with None => true | Some t => (start <=? t) && (t <? stop) end.

Section segment.
Context {W : Type} (org : Z -> W -> source * W).

(** The loop over the occurrences in [data]; an index below the old tail's
    length has its recorded origin, which the state keeps for every tail byte. *)
Fixpoint match_loop (fuel : nat) (data : bytes) (old : list source) (segment_offset : Z) (found : nat) (o : W)
  : option source * W :=
  match fuel with
  | O => (None, o)
  | S fuel =>
      match find_from data needle found with
      | None => (None, o)
      | Some found =>
          let '(src, o) := match old !! found with
                           | Some src => (src, o)
                           | None => org (segment_offset + Z.of_nat (found - length old)) o
                           end in
          if accepted src then (Some src, o)
          else match_loop fuel data old segment_offset (found + length needle) o
      end
  end.

(** `origins.extend(origin(segment_offset + item) for item in range(...))`. *)
Fixpoint origin_range (count : nat) (position : Z) (o : W) : list source * W :=
  match count with
  | O => ([], o)
  | S count =>
      let '(src, o) := org position o in
      let '(l, o) := origin_range count (position + 1) o in
      (src :: l, o)
  end.

(** The retained tail and its origins. *)
Definition retain (s : state) (segment : bytes) (segment_offset : Z) (o : W) : bytes * list source * W :=
  let data := tail s ++ segment in
  let keep := Nat.min (length data) (length needle - 1) in
  if decide (keep = 0%nat) then ([], [], o)
  else
    let retained_from := (length data - keep)%nat in
    let before := (length (tail s) <=? retained_from)%nat in
    let source_start := if before then (retained_from - length (tail s))%nat else 0%nat in
    let '(l, o) := origin_range (length segment - source_start)
                     (segment_offset + Z.of_nat source_start) o in
    ((if before then [] else drop retained_from (tail s)) ++ drop source_start segment,
     (if before then [] else drop retained_from (origins s)) ++ l, o).

(** [_append_segment]. *)
Definition append_segment (segment : bytes) (segment_offset : Z) (so : state * W) : state * W :=
  let '(s, o) := so in
  if decide (segment = []) then so
  else
    let '(first, o) := match line_origin s with
                       | Some src => (src, o)
                       | None => org segment_offset o
                       end in
    let remaining := MAX_RESULT_TEXT_BYTES - zlen (line s) in
    let line' := if line_overflow s then line s
                 else line s ++ take (Z.to_nat (Z.max 0 remaining)) segment in
    let overflow' := if line_overflow s then true else remaining <? zlen segment in
    let '(match', o) := match match_ s with
                        | Some m => (Some m, o)
                        | None => match_loop (S (length (tail s ++ segment))) (tail s ++ segment)
                                    (origins s) segment_offset 0 o
                        end in
    let '(tail', origins', o) := retain s segment segment_offset o in
    (State tail' origins' (previous_identity s) (previous_sequence s) line' (line_bytes s + zlen segment)
       overflow' (Some first) match', o).

(** The inner loop of [scan]: the segments of one chunk. *)
Fixpoint scan_chunk (fuel : nat) (chunk : bytes) (from : nat) (offset : Z) (so : state * W) : gen (state * W) :=
  match fuel with
  | O => Yielded [] so
  | S fuel =>
      let newline := find_from chunk [LF] from in
      let upto := default (length chunk) newline in
      let so := append_segment (take (upto - from) (drop from chunk)) (offset + Z.of_nat from) so in
      match newline with
      | None => Yielded [] so
      | Some n => gbind (complete_line so) (scan_chunk fuel chunk (S n) offset)
      end
  end.

(** The reads of a stream, each with the answer of [cancelled]. *)
Fixpoint scan_chunks (reads : list (bytes * bool)) (offset : Z) (so : state * W) : gen (Z * (state * W)) :=
  match reads with
  | [] => Yielded [] (offset, so)
  | (chunk, cancelled) :: reads =>
      if decide (chunk = []) then Yielded [] (offset, so)
      else if (cancelled : bool) then Failed [] JobCancelled
      else gbind (scan_chunk (S (length chunk)) chunk 0 offset so)
             (scan_chunks reads (offset + zlen chunk))
  end.
End segment.

Definition identity_of (f : file) : list (option string) := [taskId f; runId f; sessionId f; nodeId f].

Definition continuous (previous : option (list (option string))) (sequence : option Z)
    (f : file) (first : option index_entry) : bool :=
  forallb str_truthy (identity_of f)
  && bool_decide (Some (identity_of f) = previous)
  && match first, sequence with
     | Some e, Some n => (ie_offset e =? 0) && bool_decide (ie_sequence e = Some (n + 1))
     | _, _ => false
     end.

(** [scan]. *)
Definition scan (f : file) (index : list index_entry) (reads : list (bytes * bool)) (s : state) : gen state :=
  let begin := if continuous (previous_identity s) (previous_sequence s) f (head index)
               then Yielded [] (s, new_origin index)
               else complete_line (s, new_origin index) in
  gbind begin (fun so =>
  gbind (scan_chunks (origin (Some (FileOrder.id f))) reads 0 so) (fun '(offset, (s, o)) =>
    let '(last, c) := if offset =? 0 then (None, o_cursor o) else locate (offset - 1) (o_cursor o) in
    let sequence := match last with
                    | Some e => if bool_decide (c_rest c = []) && (ie_offset e + ie_length e =? offset)
                                then ie_sequence e else None
                    | None => None
                    end in
    Yielded [] (State (tail s) (origins s) (Some (identity_of f)) sequence (line s) (line_bytes s)
                  (line_overflow s) (line_origin s) (match_ s)))).

(** One search: [scan] on every file, then [finish]. *)
Fixpoint scan_files (files : list (file * list index_entry * list (bytes * bool))) (s : state) : gen state :=
  match files with
  | [] => Yielded [] s
  | (f, index, reads) :: files => gbind (scan f index reads s) (scan_files files)
  end.

Definition search (files : list (file * list index_entry * list (bytes * bool))) : gen unit :=
  gbind (scan_files files initial_state) (fun s =>
  gbind (complete_line (s, tt)) (fun _ => Yielded [] tt)).

End search.

(** ** Reference: whole lines of located bytes *)

Abbreviation located := (list (byte * source)).

Section reference.
Variables (needle : bytes) (start stop : Z).

(** The first occurrence of the keyword that the time window accepts. *)
Fixpoint first_accepted (l : located) : option source :=
  match l with
  | [] => None
  | (b, src) :: r =>
      if starts_with needle (b :: r.*1) && accepted start stop src then Some src else first_accepted r
  end.

Definition line_report (l : located) : option (result search_error line_result) :=
  m ← first_accepted l;
  first ← head l;
  Some (if MAX_RESULT_TEXT_BYTES <? zlen l then Raise LineTooLong
        else Ok (LineResult (s_file m) (s_pos m) (s_file first.2) (s_pos first.2) (text_of (strip_cr l.*1)))).

(** The reports of the lines in order, up to the first line that cannot be
    stored. *)
Fixpoint report_lines (lines : list located) : gen unit :=
  match lines with
  | [] => Yielded [] tt
  | l :: lines =>
      match line_report l with
      | None => report_lines lines
      | Some (Raise e) => Failed [] e
      | Some (Ok r) => gbind (Yielded [r] tt) (fun _ => report_lines lines)
      end
  end.

(** An event is a located byte, or the end of a run of consecutive files. *)
Abbreviation event := (option (byte * source)).

Definition ends_line (e : event) : bool :=
  match e with None => true | Some (b, _) => bool_decide (b = LF) end.

(** The complete lines of the events after [cur], and the line left open. *)
Fixpoint feed (cur : located) (ev : list event) : list located * located :=
  match ev with
  | [] => ([], cur)
  | e :: ev =>
      match e with
      | Some p => if ends_line e then let '(ls, c) := feed [] ev in (cur :: ls, c)
                  else feed (cur ++ [p]) ev
      | None => let '(ls, c) := feed [] ev in (cur :: ls, c)
      end
  end.

Definition lines_of (cur : located) (ev : list event) : list located :=
  let '(ls, c) := feed cur ev in ls ++ [c].

(** The origin of a position: the index record that covers it. *)
Definition entry_at (index : list index_entry) (position : Z) : option index_entry :=
  List.find (fun e => (ie_offset e <=? position) && covers e position) index.

Definition source_at (f : file) (index : list index_entry) (position : Z) : source :=
  Source (Some (FileOrder.id f)) position (ie_received <$> entry_at index position).

Fixpoint locate_bytes (at_ : Z -> source) (position : Z) (l : bytes) : located :=
  match l with [] => [] | b :: l => (b, at_ position) :: locate_bytes at_ (position + 1) l end.

(** The sequence a file hands to its successor: that of the last record, when
    the record ends with the content. *)
Definition last_sequence (index : list index_entry) (size : Z) : option Z :=
  if size =? 0 then None
  else match entry_at index (size - 1) with
       | Some e => if forallb (fun e => ie_offset e <=? size - 1) index && (ie_offset e + ie_length e =? size)
                   then ie_sequence e else None
       | None => None
       end.

Fixpoint events_of (previous : option (list (option string))) (sequence : option Z)
    (files : list (file * list index_entry * bytes)) : list event :=
  match files with
  | [] => []
  | (f, index, content) :: files =>
      (if continuous previous sequence f (head index) then [] else [None])
      ++ map Some (locate_bytes (source_at f index) 0 content)
      ++ events_of (Some (identity_of f)) (last_sequence index (zlen content)) files
  end.

Definition search_spec (files : list (file * list index_entry * bytes)) : gen unit :=
  report_lines (lines_of [] (events_of None None files)).

(** The loop resumes after a rejected occurrence: an occurrence that overlaps
    it is not considered.  On a line where no accepted occurrence overlaps an
    earlier rejected one, that is no loss. *)
Definition skip_ok (l : located) : Prop :=
  forall i j bi bj si sj, l !! i = Some (bi, si) -> l !! j = Some (bj, sj) ->
    occurs needle l.*1 i -> occurs needle l.*1 j -> (i < j < i + length needle)%nat ->
    accepted start stop si = false -> accepted start stop sj = false.

(** Index records are consecutive and disjoint. *)
Definition index_ok (index : list index_entry) : Prop :=
  StronglySorted (fun e e' => ie_offset e + ie_length e <= ie_offset e') index
  /\ Forall (fun e => 0 < ie_length e) index.

(** ** Lemmas on the reference *)

Lemma locate_bytes_fst at_ p l : (locate_bytes at_ p l).*1 = l.
Proof. revert p. induction l as [|b l IH]; intros p; cbn; [done|]. by rewrite IH. Qed.

Lemma locate_bytes_length at_ p l : length (locate_bytes at_ p l) = length l.
Proof. revert p. induction l as [|b l IH]; intros p; cbn; [done|]. by rewrite IH. Qed.

Lemma locate_bytes_app at_ p l k :
  locate_bytes at_ p (l ++ k) = locate_bytes at_ p l ++ locate_bytes at_ (p + zlen l) k.
Proof.
  revert p. induction l as [|b l IH]; intros p; cbn; [by rewrite Z.add_0_r|].
  rewrite IH, zlen_cons. do 3 f_equal. lia.
Qed.

Lemma locate_bytes_drop at_ p n l :
  drop n (locate_bytes at_ p l) = locate_bytes at_ (p + Z.of_nat n) (drop n l).
Proof.
  revert p l. induction n as [|n IH]; intros p l; cbn [drop]; [by rewrite Z.add_0_r|].
  destruct l as [|b l]; cbn [locate_bytes drop]; [done|]. rewrite IH. f_equal. lia.
Qed.

Lemma locate_bytes_lookup at_ p l i b :
  l !! i = Some b -> locate_bytes at_ p l !! i = Some (b, at_ (p + Z.of_nat i)).
Proof.
  revert p i. induction l as [|b' l IH]; intros p [|i]; cbn; try done.
  - intros [= ->]. by rewrite Z.add_0_r.
  - intros Hi. rewrite IH by done. do 3 f_equal. lia.
Qed.

Lemma feed_app cur e1 e2 :
  feed cur (e1 ++ e2)
  = let '(ls, c) := feed cur e1 in let '(ls', c') := feed c e2 in (ls ++ ls', c').
Proof.
  revert cur. induction e1 as [|e e1 IH]; intros cur; cbn [app feed].
  { by destruct (feed cur e2). }
  destruct e as [p|].
  - destruct (ends_line (Some p)); [|apply IH]. rewrite IH.
    destruct (feed [] e1) as [ls c]. by destruct (feed c e2).
  - rewrite IH. destruct (feed [] e1) as [ls c]. by destruct (feed c e2).
Qed.

Lemma feed_plain cur l : Forall (fun p => p.1 <> LF) l -> feed cur (map Some l) = ([], cur ++ l).
Proof.
  revert cur. induction l as [|[b src] l IH]; intros cur Hl; cbn; [by rewrite app_nil_r|].
  inversion_clear Hl as [|? ? Hb Hl']. cbn in Hb. rewrite bool_decide_false by done.
  rewrite IH by done. by rewrite <- app_assoc.
Qed.

(** The open line is a prefix of the next complete one. *)
Lemma feed_prefix cur ev : match feed cur ev with
  | (l :: _, _) => cur `prefix_of` l
  | ([], c) => cur `prefix_of` c
  end.
Proof.
  revert cur. induction ev as [|[p|] ev IH]; intros cur; cbn [feed]; [done| |].
  - destruct (ends_line _); [by destruct (feed [] ev)|].
    specialize (IH (cur ++ [p])). destruct (feed (cur ++ [p]) ev) as [[|l ls] c];
      (etrans; [by apply prefix_app_r|exact IH]).
  - by destruct (feed [] ev).
Qed.

Lemma skip_ok_prefix l k : needle <> [] -> l `prefix_of` k -> skip_ok k -> skip_ok l.
Proof.
  intros Hn [r ->] Hk i j bi bj si sj Hi Hj Hoi Hoj Hij. apply (Hk i j bi bj si sj); [..|done].
  - by apply lookup_app_l_Some.
  - by apply lookup_app_l_Some.
  - rewrite fmap_app. apply occurs_app_l; [done|by apply occurs_length|done].
  - rewrite fmap_app. apply occurs_app_l; [done|by apply occurs_length|done].
Qed.

Lemma skip_ok_suffix x l : skip_ok (x ++ l) -> skip_ok l.
Proof.
  intros Hk i j bi bj si sj Hi Hj Hoi Hoj Hij.
  apply (Hk (length x + i)%nat (length x + j)%nat bi bj si sj).
  - by rewrite lookup_app_r, Nat.add_sub_swap, Nat.sub_diag by lia.
  - by rewrite lookup_app_r, Nat.add_sub_swap, Nat.sub_diag by lia.
  - rewrite fmap_app, <- (length_fmap fst x). by apply occurs_app_r.
  - rewrite fmap_app, <- (length_fmap fst x). by apply occurs_app_r.
  - lia.
Qed.

Lemma skip_ok_open cur ev : needle <> [] -> Forall skip_ok (lines_of cur ev) -> skip_ok cur.
Proof.
  intros Hn Hl. unfold lines_of in Hl. pose proof (feed_prefix cur ev) as Hp.
  destruct (feed cur ev) as [[|l ls] c]; inversion_clear Hl; by eapply skip_ok_prefix.
Qed.

(** Characterisation of [first_accepted] by indices. *)
Lemma first_accepted_None l :
  first_accepted l = None <->
  forall i b src, l !! i = Some (b, src) -> occurs needle l.*1 i -> accepted start stop src = false.
Proof.
  induction l as [|[b src] l IH]; cbn [first_accepted]; [split; [done|done]|].
  destruct (starts_with needle (b :: l.*1) && accepted start stop src) eqn:E.
  - split; [done|]. intros H. apply andb_prop in E as [E1 E2]. specialize (H 0%nat b src eq_refl E1). congruence.
  - rewrite IH. split; intros H.
    + intros [|i] b' src' Hi Ho; cbn in Hi.
      * injection Hi as <- <-. unfold occurs in Ho. cbn [drop fmap list_fmap fst] in Ho.
        change (starts_with needle (b :: l.*1) = true) in Ho. rewrite Ho in E. done.
      * by apply (H i b' src').
    + intros i b' src' Hi Ho. by apply (H (S i) b' src').
Qed.

Lemma first_accepted_Some l i b src :
  l !! i = Some (b, src) -> occurs needle l.*1 i -> accepted start stop src = true ->
  (forall j b' src', (j < i)%nat -> l !! j = Some (b', src') -> occurs needle l.*1 j ->
     accepted start stop src' = false) ->
  first_accepted l = Some src.
Proof.
  revert i. induction l as [|[b0 s0] l IH]; intros [|i] Hi Ho Ha Hf; try done; cbn in Hi.
  - injection Hi as <- <-. cbn [first_accepted]. unfold occurs in Ho. cbn in Ho.
    change (starts_with needle (b0 :: l.*1) = true) in Ho. by rewrite Ho, Ha.
  - cbn [first_accepted]. destruct (starts_with needle (b0 :: l.*1)) eqn:E.
    + rewrite (Hf 0%nat b0 s0) by (done || lia). cbn. apply (IH i); [done|done|done|].
      intros j b' src' Hj Hl Hoj. apply (Hf (S j) b' src'); [lia|done|done].
    + cbn. apply (IH i); [done|done|done|].
      intros j b' src' Hj Hl Hoj. apply (Hf (S j) b' src'); [lia|done|done].
Qed.

(** An accepted occurrence is not overtaken by later bytes. *)
Lemma first_accepted_app l k src : needle <> [] ->
  first_accepted l = Some src -> first_accepted (l ++ k) = Some src.
Proof.
  intros Hn. induction l as [|[b s0] l IH]; cbn [first_accepted app]; [done|].
  assert (Heq : (length needle <= S (length l))%nat ->
    starts_with needle (b :: (l ++ k).*1) = starts_with needle (b :: l.*1)).
  { intros Hlen. apply eq_bool_prop_intro. rewrite !Is_true_true.
    pose proof (occurs_app_l needle (b :: l.*1) k.*1 0 Hn) as Ho. unfold occurs in Ho.
    rewrite drop_0, drop_0 in Ho. rewrite fmap_app. apply Ho. cbn. rewrite length_fmap. lia. }
  destruct (starts_with needle (b :: l.*1)) eqn:E; cbn [andb].
  - rewrite Heq; [|apply starts_with_length in E; cbn in E; rewrite length_fmap in E; lia].
    cbn [andb]. destruct (accepted start stop s0); [done|]. exact IH.
  - intros Hf. rewrite Heq; [cbn [andb]; by apply IH|].
    destruct (decide (length needle <= S (length l))%nat) as [|Hl]; [done|]. exfalso.
    assert (first_accepted l = None) as Hc; [|congruence].
    apply first_accepted_None. intros i b' s' Hi Ho. apply occurs_length in Ho; [|done].
    rewrite length_fmap in Ho. lia.
Qed.

(** When nothing was accepted before, only the last [length needle - 1] bytes
    can begin a new occurrence. *)
Lemma first_accepted_skip x y k : needle <> [] ->
  first_accepted (x ++ y) = None -> (length needle - 1 <= length y)%nat ->
  first_accepted (x ++ y ++ k) = first_accepted (y ++ k).
Proof.
  intros Hn. induction x as [|[b s0] x IH]; intros Hf Hl; [done|]. cbn [app first_accepted] in *.
  assert (Heq : starts_with needle (b :: (x ++ y ++ k).*1) = starts_with needle (b :: (x ++ y).*1)).
  { apply eq_bool_prop_intro. rewrite !Is_true_true.
    pose proof (occurs_app_l needle (b :: (x ++ y).*1) k.*1 0 Hn) as Ho. unfold occurs in Ho.
    rewrite drop_0, drop_0 in Ho. rewrite app_assoc, fmap_app. apply Ho. cbn.
    rewrite length_fmap, length_app. lia. }
  rewrite Heq. destruct (_ && _); [done|]. by apply IH.
Qed.
End reference.

(** ** [append_segment] refines the reference *)

Section refinement.
Variables (needle : bytes) (start stop : Z).
Hypothesis needle_nonempty : needle <> [].

(** A closure [org] that answers queries below [limit], made in increasing
    order, like [at_]. *)
Section segment.
Context {W : Type} (org : Z -> W -> source * W) (at_ : Z -> source) (good : Z -> W -> Prop) (limit : Z).

Record answers : Prop := {
  an_query : forall p q o, good p o -> p <= q -> q < limit -> (org q o).1 = at_ q /\ good q (org q o).2;
  an_weaken : forall p q o, good p o -> p <= q -> good q o }.
Hypothesis Hans : answers.

Lemma origin_range_spec count p q o :
  good p o -> p <= q -> q + Z.of_nat count <= limit ->
  (origin_range org count q o).1 = (locate_bytes at_ q (replicate count LF)).*2
  /\ good (q + Z.of_nat count) (origin_range org count q o).2.
Proof.
  revert p q o. induction count as [|count IH]; intros p q o Hg Hp Hlim; cbn [origin_range replicate locate_bytes].
  - split; [done|]. eapply (an_weaken Hans); [done|lia].
  - destruct (an_query Hans p q o Hg Hp) as [Hq Hg']; [lia|].
    destruct (org q o) as [src o'] eqn:E. cbn in Hq, Hg'.
    destruct (IH q (q + 1) o' Hg') as [Hl Hg'']; [lia..|].
    destruct (origin_range org count (q + 1) o') as [l o''] eqn:E2. cbn in *. subst src l.
    split; [done|]. eapply (an_weaken Hans); [done|lia].
Qed.

Lemma locate_bytes_snd p l k : length l = length k -> (locate_bytes at_ p l).*2 = (locate_bytes at_ p k).*2.
Proof.
  revert p k. induction l as [|b l IH]; intros p [|c k] Hk; cbn in *; try done.
  f_equal. apply IH. lia.
Qed.

(** The matching loop finds the first accepted occurrence of the located
    bytes, the old tail followed by the segment. *)
Lemma match_loop_spec (old : located) segment off fuel found o p :
  let D := old ++ locate_bytes at_ off segment in
  skip_ok needle start stop D -> off + zlen segment <= limit ->
  good p o -> p <= off + Z.max 0 (Z.of_nat found - zlen old) ->
  p <= off + Z.max 0 (zlen D - zlen needle - zlen old) ->
  (length D < fuel + found)%nat ->
  (forall i b src, (i < found)%nat -> D !! i = Some (b, src) -> occurs needle D.*1 i ->
     accepted start stop src = false) ->
  let '(m, o') := match_loop needle start stop org fuel D.*1 old.*2 off found o in
  m = first_accepted needle start stop D
  /\ exists q, good q o' /\ q <= off + Z.max 0 (zlen D - zlen needle - zlen old).
Proof.
  intros D Hskip Hlim. revert found o p. induction fuel as [|fuel IH]; intros found o p Hg Hp Hp2 Hfuel Hbefore.
  - cbn [match_loop]. split; [|by exists p]. symmetry. apply first_accepted_None.
    intros i b src Hi Ho. apply (Hbefore i b src); [|done|done].
    apply occurs_length in Ho; [|done]. rewrite length_fmap in Ho. lia.
  - cbn [match_loop]. destruct (find_from D.*1 needle found) as [f|] eqn:Ef.
    + apply find_from_spec in Ef as (Hf & Ho & Hnone).
      pose proof (occurs_length _ _ _ needle_nonempty Ho) as Hlen. rewrite length_fmap in Hlen.
      assert (0 < length needle)%nat by (destruct needle; [done|cbn; lia]).
      destruct (lookup_lt_is_Some_2 D f) as [[b src] Hsrc]; [lia|].
      assert (Hq : let '(src', o') := match old.*2 !! f with
                   | Some s => (s, o) | None => org (off + Z.of_nat (f - length old.*2)) o end in
                 src' = src /\ exists q, good q o' /\ q <= off + Z.max 0 (Z.of_nat f - zlen old)).
      { rewrite list_lookup_fmap, length_fmap. subst D. rewrite lookup_app in Hsrc.
        destruct (old !! f) as [[b' s']|] eqn:Eo; cbn.
        - injection Hsrc as -> ->. split; [done|]. exists p. split; [done|]. unfold zlen in *. lia.
        - apply lookup_ge_None in Eo.
          assert (Hseg : (f - length old < length segment)%nat).
          { apply lookup_lt_Some in Hsrc. by rewrite locate_bytes_length in Hsrc. }
          destruct (lookup_lt_is_Some_2 segment (f - length old)) as [bb Hbb]; [done|].
          rewrite (locate_bytes_lookup _ _ _ _ _ Hbb) in Hsrc. injection Hsrc as -> <-.
          destruct (an_query Hans p (off + Z.of_nat (f - length old)) o Hg) as [H1 H2]; [unfold zlen in *; lia..|].
          destruct (org _ o) as [s' o']. cbn in *. split; [done|]. eexists. split; [exact H2|].
          unfold zlen in *. lia. }
      destruct (match old.*2 !! f with Some s => (s, o) | None => _ end) as [src' o'].
      destruct Hq as (-> & q & Hgq & Hq).
      assert (Hbefore' : forall i b src, (i < f)%nat -> D !! i = Some (b, src) ->
                occurs needle D.*1 i -> accepted start stop src = false).
      { intros i b' s' Hi HD Hoi. destruct (decide (i < found)%nat); [by apply (Hbefore i b' s')|].
        exfalso. apply (Hnone i); [lia|done]. }
      destruct (accepted start stop src) eqn:Ea.
      * split; [|exists q; split; [done|unfold zlen in *; lia]].
        symmetry. by apply (first_accepted_Some needle start stop D f b).
      * apply (IH _ _ q); [done|unfold zlen in *; lia|unfold zlen in *; lia|lia|].
        intros i b' s' Hi HD Hoi. destruct (decide (i < f)%nat) as [|Hge]; [by apply (Hbefore' i b' s')|].
        destruct (decide (i = f)) as [->|Hne]; [congruence|].
        apply (Hskip f i b b' src s'); [done..|lia|done].
    + split; [|by exists p]. symmetry. apply first_accepted_None.
      intros i b src Hi Ho. destruct (decide (i < found)%nat); [by apply (Hbefore i b src)|].
      exfalso. apply (find_from_None _ _ _ Ef i); [lia|done].
Qed.

(** ** The state represents the open line *)

Definition kept (cur : located) : located := drop (length cur - (length needle - 1)) cur.

Record represents (s : state) (cur : located) : Prop := {
  rp_tail : tail s = (kept cur).*1;
  rp_origins : origins s = (kept cur).*2;
  rp_line : line s = take (Z.to_nat MAX_RESULT_TEXT_BYTES) cur.*1;
  rp_bytes : line_bytes s = zlen cur;
  rp_overflow : line_overflow s = (MAX_RESULT_TEXT_BYTES <? zlen cur);
  rp_first : line_origin s = snd <$> head cur;
  rp_match : match_ s = first_accepted needle start stop cur }.

Lemma represents_clear s : represents (clear_line s) [].
Proof. split; cbn; by rewrite ?take_nil. Qed.

Lemma kept_length cur : length (kept cur) = Nat.min (length cur) (length needle - 1).
Proof. unfold kept. rewrite length_drop. lia. Qed.

Lemma kept_app cur l : kept (cur ++ l) = kept (kept cur ++ l).
Proof.
  unfold kept. rewrite !length_app, length_drop.
  destruct (decide (length cur <= length needle - 1)%nat) as [Hle|Hgt].
  - replace (length cur - (length needle - 1))%nat with 0%nat by lia. rewrite drop_0. f_equal. lia.
  - rewrite <- (take_drop (length cur - (length needle - 1)) cur) at 2. rewrite <- app_assoc.
    rewrite (drop_app_ge (take _ _)) by (rewrite length_take; lia). rewrite length_take.
    f_equal. lia.
Qed.

(** The retained tail is that of the longer line. *)
Lemma retain_spec s cur segment off o p :
  represents s cur -> segment <> [] -> off + zlen segment <= limit -> good p o -> p <= off + Z.max 0 (zlen segment - zlen needle) ->
  let '(t, l, o') := retain needle org s segment off o in
  let cur' := cur ++ locate_bytes at_ off segment in
  t = (kept cur').*1 /\ l = (kept cur').*2 /\ good (off + zlen segment) o'.
Proof.
  intros Hr Hne Hlim Hg Hp. unfold retain. rewrite (rp_tail _ _ Hr), (rp_origins _ _ Hr).
  rewrite kept_app. set (y := kept cur). cbn zeta.
  assert (0 < length needle)%nat by (destruct needle; [done|cbn; lia]).
  assert (0 < length segment)%nat by (destruct segment; [done|cbn; lia]).
  assert (Hy : (length y <= length needle - 1)%nat) by (unfold y; rewrite kept_length; lia).
  rewrite !length_app, !length_fmap.
  set (keep := Nat.min _ _).
  destruct (decide (keep = 0%nat)) as [Hk|Hk].
  - unfold kept. rewrite length_app, locate_bytes_length.
    rewrite drop_ge by (rewrite length_app, locate_bytes_length; lia).
    split_and!; [done|done|]. eapply (an_weaken Hans); [done|unfold zlen in *; lia].
  - set (rf := (length y + length segment - keep)%nat).
    set (ss := if (length y <=? rf)%nat then (rf - length y)%nat else 0%nat).
    assert (Hss : p <= off + Z.of_nat ss /\ (ss <= length segment)%nat).
    { unfold ss. destruct (Nat.leb_spec (length y) rf); unfold zlen in *; lia. }
    destruct Hss as [Hss Hss'].
    destruct (origin_range_spec (length segment - ss) p (off + Z.of_nat ss) o Hg Hss) as [Hl Hg'];
      [unfold zlen in *; lia|].
    destruct (origin_range org _ _ o) as [l o']. cbn in Hl, Hg'. subst l.
    rewrite (locate_bytes_snd _ _ (drop ss segment)) by (rewrite length_replicate, length_drop; lia).
    assert (Hkept : kept (y ++ locate_bytes at_ off segment)
      = (if (length y <=? rf)%nat then [] else drop rf y)
        ++ locate_bytes at_ (off + Z.of_nat ss) (drop ss segment)).
    { unfold kept. rewrite length_app, locate_bytes_length.
      replace (length y + length segment - (length needle - 1))%nat with rf by lia.
      unfold ss. destruct (Nat.leb_spec (length y) rf).
      - rewrite drop_app_ge by lia. by rewrite locate_bytes_drop.
      - rewrite drop_app_le by lia. by rewrite Z.add_0_r, drop_0. }
    rewrite Hkept, !fmap_app, locate_bytes_fst.
    split_and!.
    + f_equal. destruct (length y <=? rf)%nat; [done|]. by rewrite fmap_drop.
    + f_equal. destruct (length y <=? rf)%nat; [done|]. by rewrite fmap_drop.
    + eapply (an_weaken Hans); [exact Hg'|unfold zlen; lia].
Qed.

Lemma first_accepted_kept cur l :
  first_accepted needle start stop cur = None ->
  first_accepted needle start stop (cur ++ l) = first_accepted needle start stop (kept cur ++ l).
Proof.
  intros Hf. unfold kept. set (n := (length cur - (length needle - 1))%nat).
  rewrite <- (take_drop n cur) at 1. rewrite <- app_assoc.
  destruct (decide (length needle - 1 <= length cur)%nat) as [Hle|Hgt].
  - apply first_accepted_skip; [done|by rewrite take_drop|]. rewrite length_drop. lia.
  - by replace n with 0%nat by lia.
Qed.

Definition same_run (s s' : state) : Prop :=
  previous_identity s' = previous_identity s /\ previous_sequence s' = previous_sequence s.

Lemma append_segment_spec s cur segment off o :
  let l := locate_bytes at_ off segment in
  represents s cur -> skip_ok needle start stop (cur ++ l) -> off + zlen segment <= limit -> good off o ->
  let '(s', o') := append_segment needle start stop org segment off (s, o) in
  represents s' (cur ++ l) /\ same_run s s' /\ good (off + zlen segment) o'.
Proof.
  intros l Hr Hskip Hlim Hg. unfold append_segment.
  destruct (decide (segment = [])) as [->|Hne].
  { subst l. cbn [locate_bytes]. rewrite app_nil_r, Z.add_0_r. by split_and!. }
  assert (Hfirst : let '(first, o1) := match line_origin s with
             | Some src => (src, o) | None => org off o end in
           Some first = snd <$> head (cur ++ l) /\ good off o1).
  { rewrite (rp_first _ _ Hr). subst l. destruct cur as [|[b src] cur]; cbn; [|done].
    destruct segment as [|b segment]; [done|]. cbn.
    destruct (an_query Hans off off o Hg) as [Hq Hg']; [lia|rewrite zlen_cons in Hlim; pose proof (zlen_nonneg segment); lia|].
    destruct (org off o). cbn in *. by subst. }
  destruct (match line_origin s with Some src => (src, o) | None => _ end) as [first o1].
  destruct Hfirst as [Hfirst Hg1]. cbn zeta.
  assert (Hmatch : let '(m, o2) := match match_ s with
             | Some m => (Some m, o1)
             | None => match_loop needle start stop org (S (length (tail s ++ segment)))
                         (tail s ++ segment) (origins s) off 0 o1 end in
           m = first_accepted needle start stop (cur ++ l)
           /\ exists q, good q o2 /\ q <= off + Z.max 0 (zlen segment - zlen needle)).
  { rewrite (rp_match _ _ Hr). destruct (first_accepted needle start stop cur) as [src|] eqn:Ef.
    - split; [|exists off; split; [done|lia]]. symmetry. by apply first_accepted_app.
    - rewrite (rp_tail _ _ Hr), (rp_origins _ _ Hr).
      assert (Hdata : (kept cur).*1 ++ segment = (kept cur ++ l).*1) by (by rewrite fmap_app; unfold l; rewrite locate_bytes_fst).
      rewrite Hdata, length_fmap.
      pose proof (first_accepted_kept cur l Ef) as Hk. rewrite Hk.
      assert (Hskip' : skip_ok needle start stop (kept cur ++ l)).
      { apply (skip_ok_suffix needle start stop (take (length cur - (length needle - 1)) cur)).
        unfold kept. by rewrite app_assoc, take_drop. }
      pose proof (match_loop_spec (kept cur) segment off (S (length (kept cur ++ l))) 0 o1 off Hskip' Hlim Hg1) as Hml.
      change (locate_bytes at_ off segment) with l in Hml.
      destruct (match_loop _ _ _ _ _ _ _ _ _ _) as [m o2].
      destruct Hml as (Hm & q & Hgq & Hq); [lia|lia|lia|intros; lia|].
      split; [done|]. exists q. split; [done|].
      replace (zlen (kept cur ++ l)) with (zlen (kept cur) + zlen segment) in Hq; [lia|].
      rewrite zlen_app. unfold l, zlen. by rewrite locate_bytes_length. }
  destruct (match match_ s with Some m => (Some m, o1) | None => _ end) as [m o2].
  destruct Hmatch as (Hm & q & Hgq & Hq).
  pose proof (retain_spec s cur segment off o2 q Hr Hne Hlim Hgq Hq) as Hret.
  destruct (retain needle org s segment off o2) as [[t ors] o3]. destruct Hret as (Ht & Ho & Hg3).
  split_and!; [|done|done]. split; cbn; try done.
  - rewrite (rp_line _ _ Hr), (rp_overflow _ _ Hr), fmap_app. unfold l. rewrite locate_bytes_fst.
    unfold zlen. rewrite length_take, length_fmap.
    destruct (Z.ltb_spec MAX_RESULT_TEXT_BYTES (Z.of_nat (length cur))) as [Hlt|Hge].
    + rewrite take_app_le; [done|]. rewrite length_fmap. lia.
    + rewrite take_app, length_fmap. rewrite (take_ge cur.*1) by (rewrite length_fmap; lia).
      do 2 f_equal. lia.
  - rewrite (rp_bytes _ _ Hr), zlen_app. f_equal. unfold zlen, l. by rewrite locate_bytes_length.
  - rewrite (rp_line _ _ Hr), (rp_overflow _ _ Hr), zlen_app.
    replace (zlen l) with (zlen segment) by (unfold zlen, l; by rewrite locate_bytes_length).
    unfold zlen. rewrite length_take, length_fmap.
    destruct (Z.ltb_spec MAX_RESULT_TEXT_BYTES (Z.of_nat (length cur))) as [Hlt|Hge].
    + symmetry. apply Z.ltb_lt. lia.
    + apply eq_bool_prop_intro. rewrite !Is_true_true, !Z.ltb_lt. lia.
Qed.
(** ** Generators that report the lines of the reference *)

Definition simulates {S} (g : gen S) (lines : list located) (P : S -> Prop) : Prop :=
  match report_lines needle start stop lines with
  | Failed out e => g = Failed out e
  | Yielded out _ => exists s, g = Yielded out s /\ P s
  end.

Lemma gbind_assoc {S T U} (g : gen S) (k : S -> gen T) (h : T -> gen U) :
  gbind (gbind g k) h = gbind g (fun s => gbind (k s) h).
Proof.
  destruct g as [out s|]; cbn; [|done]. destruct (k s) as [out' t|]; cbn; [|done].
  destruct (h t); cbn; by rewrite app_assoc.
Qed.

Lemma report_lines_app a b :
  report_lines needle start stop (a ++ b)
  = gbind (report_lines needle start stop a) (fun _ => report_lines needle start stop b).
Proof.
  induction a as [|l a IH]; cbn [app report_lines gbind]; [by destruct (report_lines needle start stop b)|].
  destruct (line_report needle start stop l) as [[r|e]|]; [|done|done].
  rewrite IH. cbn. destruct (report_lines needle start stop a); cbn; [|done].
  by destruct (report_lines needle start stop b).
Qed.

Lemma simulates_bind {S T} (g : gen S) (k : S -> gen T) a b P Q :
  simulates g a P -> (forall s, P s -> simulates (k s) b Q) -> simulates (gbind g k) (a ++ b) Q.
Proof.
  unfold simulates. rewrite report_lines_app. intros Hg Hk.
  destruct (report_lines needle start stop a) as [out []|out e]; [|by rewrite Hg].
  destruct Hg as (s & -> & Hs). specialize (Hk s Hs). cbn.
  destruct (report_lines needle start stop b) as [out' []|out' e]; [|by rewrite Hk].
  destruct Hk as (t & -> & Ht). by exists t.
Qed.

Lemma simulates_ret {S} (s : S) (P : S -> Prop) : P s -> simulates (Yielded [] s) [] P.
Proof. intros Hs. by exists s. Qed.

Lemma complete_line_sim s cur (o : W) :
  represents s cur ->
  simulates (complete_line (s, o)) [cur] (fun so => represents so.1 [] /\ same_run s so.1 /\ so.2 = o).
Proof.
  intros Hr. unfold simulates, complete_line. cbn [report_lines fst snd].
  unfold line_report. rewrite (rp_match _ _ Hr).
  destruct (first_accepted needle start stop cur) as [m|] eqn:Em; cbn.
  2:{ eexists. split; [done|]. split_and!; [apply represents_clear|by split|done]. }
  destruct cur as [|p cur]; [done|]. cbn. rewrite (rp_overflow _ _ Hr).
  destruct (Z.ltb_spec MAX_RESULT_TEXT_BYTES (zlen (p :: cur))) as [Hlt|Hge]; [done|].
  cbn. exists (clear_line s, o). split; [|split_and!; [apply represents_clear|by split|done]].
  rewrite (rp_first _ _ Hr), (rp_line _ _ Hr). cbn [head fmap option_fmap option_map default].
  rewrite take_ge; [done|]. rewrite length_fmap. unfold zlen in Hge. lia.
Qed.

Lemma no_newline (l : bytes) p (from : nat) :
  (forall k, (k < length l)%nat -> l !! k <> Some LF) -> Forall (fun q => q.1 <> LF) (locate_bytes at_ p l).
Proof.
  revert p. induction l as [|b l IH]; intros p Hl; cbn; constructor.
  - cbn. intros ->. apply (Hl 0%nat); [cbn; lia|done].
  - apply IH. intros k Hk. apply (Hl (S k)). cbn. lia.
Qed.

Lemma scan_chunk_sim fuel chunk from offset s o cur ev :
  (length chunk < fuel + from)%nat -> (from <= length chunk)%nat ->
  let rest := map Some (locate_bytes at_ (offset + Z.of_nat from) (drop from chunk)) in
  represents s cur -> offset + zlen chunk <= limit -> good (offset + Z.of_nat from) o ->
  Forall (skip_ok needle start stop) (lines_of cur (rest ++ ev)) ->
  simulates (scan_chunk needle start stop org fuel chunk from offset (s, o)) (feed cur rest).1
    (fun so => represents so.1 (feed cur rest).2 /\ same_run s so.1 /\ good (offset + zlen chunk) so.2).
Proof.
  revert from s o cur. induction fuel as [|fuel IH]; intros from s o cur Hfuel Hfrom rest Hr Hlim Hg Hskip; [lia|].
  cbn [scan_chunk]. destruct (find_from chunk [LF] from) as [n|] eqn:En;
    [change (default (length chunk) (Some n)) with n|change (default (length chunk) None) with (length chunk)].
  - apply find_single in En as (Hn & Hlf & Hbefore).
    pose proof (lookup_lt_Some _ _ _ Hlf) as Hnl.
    set (segment := take (n - from) (drop from chunk)).
    assert (Hsplit : drop from chunk = segment ++ LF :: drop (S n) chunk).
    { unfold segment. rewrite <- (take_drop (n - from) (drop from chunk)) at 1. f_equal.
      rewrite drop_drop. replace (from + (n - from))%nat with n by lia. by apply drop_S. }
    assert (Hlen : length segment = (n - from)%nat) by (unfold segment; rewrite length_take, length_drop; lia).
    assert (Hplain : Forall (fun q => q.1 <> LF) (locate_bytes at_ (offset + Z.of_nat from) segment)).
    { apply (no_newline _ _ from). intros k Hk. unfold segment. rewrite lookup_take_lt, lookup_drop by lia.
      apply Hbefore. lia. }
    set (rest' := map Some (locate_bytes at_ (offset + Z.of_nat (S n)) (drop (S n) chunk))).
    assert (Hfeed : forall ev', feed cur (rest ++ ev')
      = let '(ls, c) := feed [] (rest' ++ ev') in
        ((cur ++ locate_bytes at_ (offset + Z.of_nat from) segment) :: ls, c)).
    { intros ev'. unfold rest. rewrite Hsplit, locate_bytes_app. cbn [locate_bytes].
      rewrite map_app, <- app_assoc, feed_app, feed_plain by done. cbn [map app feed ends_line].
      rewrite bool_decide_true by done. unfold zlen. rewrite Hlen.
      replace (offset + Z.of_nat from + Z.of_nat (n - from) + 1) with (offset + Z.of_nat (S n)) by lia.
      fold rest'. by destruct (feed [] (rest' ++ ev')). }
    pose proof (Hfeed []) as Hfeed0. rewrite !app_nil_r in Hfeed0.
    unfold lines_of in Hskip. rewrite Hfeed in Hskip.
    destruct (feed [] (rest' ++ ev)) as [lsr cr] eqn:Er.
    inversion_clear Hskip as [|? ? Hsk Hskr].
    assert (Hlim' : offset + Z.of_nat from + zlen segment <= limit) by (unfold zlen in *; lia).
    pose proof (append_segment_spec s cur segment (offset + Z.of_nat from) o Hr Hsk Hlim' Hg) as Happ.
    destruct (append_segment needle start stop org segment (offset + Z.of_nat from) (s, o)) as [s1 o1].
    destruct Happ as (Hr1 & Hrun1 & Hg1).
    rewrite Hfeed0. destruct (feed [] rest') as [ls c] eqn:Erest. cbn [fst snd].
    change (?x :: ls) with ([x] ++ ls).
    eapply simulates_bind; [by apply complete_line_sim|].
    intros [s2 o2] (Hr2 & Hrun2 & Ho2). cbn in Hr2, Hrun2, Ho2. subst o2.
    specialize (IH (S n) s2 o1 [] ltac:(lia) ltac:(lia)). cbn zeta in IH. fold rest' in IH.
    rewrite Erest in IH. cbn [fst snd] in IH.
    assert (Hsim := IH Hr2 Hlim).
    assert (Hg1' : good (offset + Z.of_nat (S n)) o1).
    { eapply (an_weaken Hans); [exact Hg1|]. unfold zlen. lia. }
    specialize (Hsim Hg1'). unfold lines_of in Hsim. rewrite Er in Hsim. specialize (Hsim Hskr).
    unfold simulates in *. destruct (report_lines _ _ _ ls); [|done].
    destruct Hsim as (so & -> & Hso1 & Hso2 & Hso3). exists so. split_and!; [done|done| |done].
    destruct Hso2, Hrun1, Hrun2. split; congruence.
  - set (segment := take (length chunk - from) (drop from chunk)).
    assert (Hsegment : segment = drop from chunk) by (unfold segment; rewrite take_ge; [done|rewrite length_drop; lia]).
    assert (Hplain : Forall (fun q => q.1 <> LF) (locate_bytes at_ (offset + Z.of_nat from) segment)).
    { apply (no_newline _ _ from). intros k Hk. rewrite Hsegment, lookup_drop.
      apply (find_single_None _ _ _ En). lia. }
    subst rest. rewrite <- Hsegment in *. rewrite feed_plain by done. cbn [fst snd].
    unfold lines_of in Hskip. rewrite feed_app, feed_plain in Hskip by done.
    assert (Hsk : skip_ok needle start stop (cur ++ locate_bytes at_ (offset + Z.of_nat from) segment)).
    { eapply (skip_ok_open needle start stop _ ev); [done|]. unfold lines_of.
      by destruct (feed _ ev). }
    assert (Hlim' : offset + Z.of_nat from + zlen segment <= limit).
    { rewrite Hsegment. unfold zlen in *. rewrite length_drop. lia. }
    pose proof (append_segment_spec s cur segment (offset + Z.of_nat from) o Hr Hsk Hlim' Hg) as Happ.
    destruct (append_segment needle start stop org segment (offset + Z.of_nat from) (s, o)) as [s1 o1].
    destruct Happ as (Hr1 & Hrun1 & Hg1).
    apply simulates_ret. cbn. split_and!; [done|done|].
    eapply (an_weaken Hans); [exact Hg1|]. rewrite Hsegment. unfold zlen. rewrite length_drop. lia.
Qed.
Lemma scan_chunks_sim reads offset s o cur ev :
  let content := concat reads.*1 in
  let rest := map Some (locate_bytes at_ offset content) in
  Forall (fun r => r.1 <> [] /\ r.2 = false) reads ->
  represents s cur -> offset + zlen content <= limit -> good offset o ->
  Forall (skip_ok needle start stop) (lines_of cur (rest ++ ev)) ->
  simulates (scan_chunks needle start stop org reads offset (s, o)) (feed cur rest).1
    (fun '(offset', so) => offset' = offset + zlen content /\ represents so.1 (feed cur rest).2
       /\ same_run s so.1 /\ good offset' so.2).
Proof.
  revert offset s o cur. induction reads as [|[chunk c] reads IH]; intros offset s o cur content rest Hreads Hr Hlim Hg Hskip.
  { apply simulates_ret. cbn. unfold content. cbn. rewrite zlen_nil, Z.add_0_r. by split_and!. }
  inversion_clear Hreads as [|? ? [Hne Hc] Hreads']. cbn in Hne, Hc. subst c.
  cbn [scan_chunks]. rewrite decide_False by done.
  subst content rest. change (concat ((chunk, false) :: reads).*1) with (chunk ++ concat reads.*1) in *.
  rewrite locate_bytes_app, map_app in Hskip |- *. rewrite zlen_app in Hlim |- *.
  set (r1 := map Some (locate_bytes at_ offset chunk)) in *.
  set (r2 := map Some (locate_bytes at_ (offset + zlen chunk) (concat reads.*1))) in *.
  pose proof (scan_chunk_sim (S (length chunk)) chunk 0 offset s o cur (r2 ++ ev)) as Hchunk.
  cbn zeta in Hchunk. rewrite !Z.add_0_r, drop_0 in Hchunk. fold r1 in Hchunk.
  rewrite <- app_assoc in Hskip.
  pose proof (zlen_nonneg (concat reads.*1)).
  specialize (Hchunk ltac:(lia) ltac:(lia) Hr ltac:(lia) Hg Hskip).
  rewrite feed_app. destruct (feed cur r1) as [ls1 c1] eqn:E1.
  destruct (feed c1 r2) as [ls2 c2] eqn:E2. cbn [fst snd] in *.
  eapply simulates_bind; [exact Hchunk|].
  intros [s1 o1] (Hr1 & Hrun1 & Hg1). cbn in Hr1, Hrun1, Hg1.
  assert (Hskip2 : Forall (skip_ok needle start stop) (lines_of c1 (r2 ++ ev))).
  { unfold lines_of in *. rewrite feed_app, E1 in Hskip.
    destruct (feed c1 (r2 ++ ev)) as [ls3 c3]. rewrite <- app_assoc in Hskip.
    by apply Forall_app in Hskip as [_ ?]. }
  specialize (IH (offset + zlen chunk) s1 o1 c1 Hreads' Hr1 ltac:(lia) Hg1 Hskip2).
  fold r2 in IH. rewrite E2 in IH. cbn [fst snd] in IH.
  unfold simulates in *. destruct (report_lines _ _ _ ls2); [|done].
  destruct IH as ([off' so] & -> & -> & Hr2 & Hrun2 & Hg2). eexists. split; [done|].
  split_and!; [lia|done| |done].
  destruct Hrun1, Hrun2. split; congruence.
Qed.
End segment.
End refinement.

(** ** The index cursor answers increasing queries *)

Section origins.
Variables (f : file) (index : list index_entry).
Hypothesis Hindex : index_ok index.

Lemma entry_at_Some e q :
  e ∈ index -> ie_offset e <= q -> covers e q = true -> entry_at index q = Some e.
Proof.
  destruct Hindex as [Hs _]. unfold entry_at. clear Hindex.
  induction Hs as [|x l Hs IH Hx]; intros Hin Hq Hc; [by apply elem_of_nil in Hin|].
  cbn [List.find]. apply elem_of_cons in Hin as [->|Hin].
  - by rewrite (proj2 (Z.leb_le _ _) Hq), Hc.
  - rewrite Forall_forall in Hx. specialize (Hx e Hin).
    replace ((ie_offset x <=? q) && covers x q) with false; [by apply IH|].
    symmetry. apply andb_false_iff. right. unfold covers. apply Z.ltb_ge. lia.
Qed.

Lemma entry_at_None q :
  (forall e, e ∈ index -> ie_offset e <= q -> covers e q = false) -> entry_at index q = None.
Proof.
  intros H. unfold entry_at. destruct (List.find _ index) as [e|] eqn:E; [|done]. exfalso.
  apply List.find_some in E as [Hin Hc]. apply andb_prop in Hc as [H1 H2]. apply Z.leb_le in H1.
  rewrite H in H2; [done| |done]. by apply list_elem_of_In.
Qed.

(** The cursor has consumed exactly records that begin at or before [r]. *)
Record cursor_at (r : Z) (c : cursor) : Prop := {
  ca_index : exists passed, index = passed ++ c_rest c /\ c_current c = last passed
               /\ Forall (fun e => ie_offset e <= r) passed }.

Lemma advance_spec q current rest passed :
  index = passed ++ rest -> current = last passed -> Forall (fun e => ie_offset e <= q) passed ->
  let c := advance q current rest in
  cursor_at q c /\ (forall e, head (c_rest c) = Some e -> q < ie_offset e).
Proof.
  revert current passed. induction rest as [|e rest IH]; intros current passed Hi Hc Hp; cbn [advance].
  - split; [|done]. split. exists passed. by split_and!.
  - destruct (Z.leb_spec (ie_offset e) q) as [Hle|Hgt].
    + apply (IH (Some e) (passed ++ [e])); [by rewrite <- app_assoc|by rewrite last_snoc|].
      apply Forall_app. split; [done|]. by repeat constructor.
    + split; [|by intros ? [= <-]]. split. exists passed. by split_and!.
Qed.

(** After a query, the result is the covering record and the rest is beyond. *)
Lemma locate_spec r q c : cursor_at r c -> r <= q ->
  let '(e, c') := locate q c in
  e = entry_at index q /\ cursor_at q c'
  /\ (c_rest c' = [] <-> Forall (fun e => ie_offset e <= q) index)
  /\ (forall e0, e = Some e0 -> e0 ∈ index /\ ie_offset e0 <= q).
Proof.
  intros [(passed & Hi & Hc & Hp)] Hrq. unfold locate.
  pose proof (advance_spec q (c_current c) (c_rest c) passed Hi Hc) as Ha.
  destruct Ha as [Hca Hhead]; [by eapply Forall_impl; [exact Hp|]; cbn; lia|].
  set (c' := advance q (c_current c) (c_rest c)) in *. clearbody c'.
  destruct (ca_index _ _ Hca) as (passed' & Hi' & Hc' & Hp').
  assert (Hrest : Forall (fun e => q < ie_offset e) (c_rest c')).
  { destruct Hindex as [Hs Hl]. rewrite Hi' in Hs, Hl. apply StronglySorted_app in Hs as (_ & _ & Hs).
    apply Forall_app in Hl as [_ Hl].
    destruct (c_rest c') as [|e rest]; [done|]. specialize (Hhead e eq_refl).
    inversion_clear Hs as [|? ? Hs' He]. inversion_clear Hl as [|? ? Hle _].
    constructor; [done|]. eapply Forall_impl; [exact He|]. cbn. lia. }
  assert (Hin : forall e, e ∈ index -> ie_offset e <= q -> e ∈ passed').
  { intros e Hin Hq. rewrite Hi' in Hin. apply elem_of_app in Hin as [|Hin]; [done|].
    rewrite Forall_forall in Hrest. specialize (Hrest e Hin). lia. }
  split_and!.
  - rewrite Hc'. destruct (last passed') as [e|] eqn:El.
    + apply last_Some in El as [l' El]. 
      assert (Hel : e ∈ index) by (rewrite Hi', El; set_solver).
      assert (Heq : ie_offset e <= q) by (rewrite El in Hp'; apply Forall_app in Hp' as [_ Hp']; by inversion Hp').
      destruct (covers e q) eqn:Ec.
      * symmetry. by apply entry_at_Some.
      * symmetry. apply entry_at_None. intros e0 Hin0 Hq0. specialize (Hin e0 Hin0 Hq0).
        rewrite El in Hin. apply elem_of_app in Hin as [Hin|Hin].
        -- destruct Hindex as [Hs Hl]. rewrite Hi', El in Hs.
           apply StronglySorted_app in Hs as (_ & Hs & _). apply StronglySorted_app in Hs as (Hx & _ & _).
           specialize (Hx e0 e Hin ltac:(set_solver)). unfold covers. apply Z.ltb_ge. lia.
        -- apply list_elem_of_singleton in Hin as ->. done.
    + apply last_None in El. subst passed'. symmetry. apply entry_at_None.
      intros e He Hq. by apply Hin, elem_of_nil in He.
  - done.
  - split; intros Hx.
    + rewrite Hi', Hx, app_nil_r. done.
    + rewrite Hi' in Hx. apply Forall_app in Hx as [_ Hx].
      destruct (c_rest c') as [|e rest]; [done|]. inversion_clear Hx. inversion_clear Hrest. lia.
  - intros e0 He0. rewrite Hc' in He0. destruct (last passed') as [e|] eqn:El; [|done].
    destruct (covers e q); [|done]. injection He0 as ->. apply last_Some in El as [l' El].
    split; [rewrite Hi', El; set_solver|]. rewrite El in Hp'. apply Forall_app in Hp' as [_ Hp']. by inversion Hp'.
Qed.

(** The closure: the cursor, and a cached record that begins at or before. *)
Definition closure_at (limit p : Z) (o : origin_state) : Prop :=
  exists r, r <= p /\ r < limit /\ cursor_at r (o_cursor o)
    /\ match o_entry o with
       | None => o_stamp o = None
       | Some e => o_end o = ie_offset e + ie_length e /\ o_stamp o = Some (ie_received e)
                   /\ e ∈ index /\ ie_offset e <= r
       end.

Lemma origin_answers limit :
  answers (origin (Some (FileOrder.id f))) (source_at f index) (closure_at limit) limit.
Proof.
  split.
  - intros p q o (r & Hrp & Hrl & Hcur & Hent) Hpq Hql. unfold origin, source_at.
    destruct (match o_entry o with None => true | Some _ => o_end o <=? q end) eqn:Erel.
    + pose proof (locate_spec r q (o_cursor o) Hcur ltac:(lia)) as Hl.
      destruct (locate q (o_cursor o)) as [e c']. destruct Hl as (-> & Hc' & _ & Hin). cbn [fst snd o_stamp].
      split; [done|]. exists q. split_and!; [lia|done|done|]. cbn.
      destruct (entry_at index q) as [e|] eqn:Ee; [|done]. destruct (Hin e eq_refl). by split_and!.
    + destruct (o_entry o) as [e|] eqn:Ee; [|done]. destruct Hent as (Hend & Hst & Hin & Her).
      cbn [fst snd]. rewrite Hst. split.
      * f_equal. rewrite (entry_at_Some e); [done|done|lia|].
        unfold covers. apply Z.ltb_lt. apply Z.leb_gt in Erel. lia.
      * exists r. split_and!; [lia|done|done|]. rewrite Ee. by split_and!.
  - intros p q o (r & ? & ? & ? & ?) Hpq. exists r. split_and!; [lia|done|done|done].
Qed.

Lemma new_origin_at limit : 0 <= limit -> closure_at limit 0 (new_origin index).
Proof.
  intros Hl. exists (-1). split_and!; [lia|lia| |done]. split. exists []. by split_and!.
Qed.
End origins.

Section files.
Variables (needle : bytes) (start stop : Z).
Hypothesis needle_nonempty : needle <> [].

(** The reads of a file are those of its content, uncancelled. *)
Definition reads_ok (reads : list (bytes * bool)) : Prop :=
  Forall (fun r => r.1 <> [] /\ r.2 = false) reads.

Definition content_of (t : file * list index_entry * list (bytes * bool)) : file * list index_entry * bytes :=
  let '(f, index, reads) := t in (f, index, concat reads.*1).

Lemma scan_sim f index reads s cur ev :
  index_ok index -> reads_ok reads -> represents needle start stop s cur ->
  let content := concat reads.*1 in
  let now_ := (if continuous (previous_identity s) (previous_sequence s) f (head index) then [] else [None])
              ++ map Some (locate_bytes (source_at f index) 0 content) in
  Forall (skip_ok needle start stop) (lines_of cur (now_ ++ ev)) ->
  simulates needle start stop (scan needle start stop f index reads s) (feed cur now_).1
    (fun s' => represents needle start stop s' (feed cur now_).2
       /\ previous_identity s' = Some (identity_of f)
       /\ previous_sequence s' = last_sequence index (zlen content)).
Proof.
  intros Hindex Hreads Hr content now_ Hskip. unfold scan.
  set (pre := if continuous _ _ _ _ then [] else [None]) in *.
  set (rest := map Some (locate_bytes (source_at f index) 0 content)) in *. subst now_.
  rewrite feed_app. destruct (feed cur pre) as [ls1 c1] eqn:E1.
  destruct (feed c1 rest) as [ls2 c2] eqn:E2. cbn [fst snd].
  assert (Hskip2 : Forall (skip_ok needle start stop) (lines_of c1 (rest ++ ev))).
  { unfold lines_of in *. rewrite <- app_assoc, feed_app, E1 in Hskip.
    destruct (feed c1 (rest ++ ev)) as [ls3 c3]. rewrite <- app_assoc in Hskip.
    by apply Forall_app in Hskip as [_ ?]. }
  eapply (simulates_bind _ _ _ _ _ _ _
    (fun so => represents needle start stop so.1 c1 /\ so.2 = new_origin index)).
  { unfold pre in E1. destruct (continuous _ _ _ _).
    - injection E1 as <- <-. by apply simulates_ret.
    - injection E1 as <- <-. pose proof (complete_line_sim needle start stop s cur (new_origin index) Hr) as Hc.
      unfold simulates in *. destruct (report_lines _ _ _ _); [|done].
      destruct Hc as (so & -> & ? & _ & ?). by exists so. }
  intros [s1 o1] [Hr1 Ho1]. cbn in Hr1, Ho1. subst o1.
  pose proof (scan_chunks_sim needle start stop needle_nonempty (origin (Some (FileOrder.id f)))
    (source_at f index) (closure_at index (zlen content)) (zlen content) (origin_answers f index Hindex _)
    reads 0 s1 (new_origin index) c1 ev Hreads Hr1) as Hs.
  cbn zeta in Hs. fold content rest in Hs. rewrite E2 in Hs. cbn [fst snd] in Hs.
  specialize (Hs ltac:(lia) (new_origin_at index (zlen content) (zlen_nonneg _)) Hskip2).
  rewrite <- (app_nil_r ls2). eapply simulates_bind; [exact Hs|].
  intros [offset [s2 o2]] (Hoff & Hr2 & _ & Hg). cbn [fst snd] in *.
  rewrite Z.add_0_l in Hoff. subst offset. unfold last_sequence.
  destruct (zlen content =? 0) eqn:Ez.
  { apply simulates_ret. by split; [destruct Hr2; split|]. }
  destruct Hg as (r & Hr0 & Hrl & Hcur & _).
  pose proof (locate_spec index Hindex r (zlen content - 1) (o_cursor o2) Hcur ltac:(lia)) as Hl.
  destruct (locate (zlen content - 1) (o_cursor o2)) as [e c']. destruct Hl as (-> & _ & Hrest & _).
  apply simulates_ret. split; [destruct Hr2; by split|]. split; [done|]. cbn [previous_sequence].
  destruct (entry_at index (zlen content - 1)) as [e|]; [|done].
  replace (bool_decide (c_rest c' = [])) with (forallb (fun e => ie_offset e <=? zlen content - 1) index); [done|].
  apply eq_bool_prop_intro. rewrite bool_decide_spec, Hrest, forallb_True.
  apply Forall_iff. intros x. by rewrite Is_true_true, Z.leb_le.
Qed.

Lemma scan_files_sim files s cur :
  Forall (fun '(f, index, reads) => index_ok index /\ reads_ok reads) files ->
  represents needle start stop s cur ->
  let ev := events_of (previous_identity s) (previous_sequence s) (map content_of files) in
  Forall (skip_ok needle start stop) (lines_of cur ev) ->
  simulates needle start stop (scan_files needle start stop files s) (feed cur ev).1
    (fun s' => represents needle start stop s' (feed cur ev).2).
Proof.
  revert s cur. induction files as [|[[f index] reads] files IH]; intros s cur Hfiles Hr ev Hskip.
  { by apply simulates_ret. }
  inversion_clear Hfiles as [|? ? Hf Hfiles']. destruct Hf as [Hindex Hreads]. subst ev. cbn [map content_of events_of] in *.
  rewrite app_assoc in *. set (now_ := _ ++ map Some _) in *.
  pose proof (scan_sim f index reads s cur _ Hindex Hreads Hr Hskip) as Hs. cbn zeta in Hs. fold now_ in Hs.
  rewrite feed_app. unfold lines_of in Hskip. rewrite feed_app in Hskip.
  destruct (feed cur now_) as [ls1 c1]. cbn [fst snd] in Hs.
  set (ev2 := events_of (Some (identity_of f)) _ _) in *.
  destruct (feed c1 ev2) as [ls2 c2] eqn:E2. cbn [fst snd scan_files].
  eapply simulates_bind; [exact Hs|]. intros s1 (Hr1 & Hid & Hseq).
  specialize (IH s1 c1 Hfiles' Hr1). rewrite Hid, Hseq in IH. fold ev2 in IH.
  unfold lines_of in IH. rewrite E2 in IH. apply IH.
  rewrite <- app_assoc in Hskip. by apply Forall_app in Hskip as [_ ?].
Qed.

(** C2: A search reports what whole lines give, where the overlap of occurrences
    cannot matter.  For any cutting of the files into reads, with line indexes that
    are in order ([index_ok]) and in which no line pairs an occurrence inside the time
    window with one outside it that overlaps it ([skip_ok]), the search yields, in
    order, one result for each line of the concatenated consecutive parts in which an
    occurrence of the keyword falls inside the window, with the position of the first
    such occurrence, the position of the line and its whole text, up to the first
    matching line that is too long to store.  Without [skip_ok] the result depends on
    where the reads end ([overlap_depends_on_reads]). *)
Theorem search_reports_lines (files : list (file * list index_entry * list (bytes * bool)))
    (Hfiles : Forall (fun '(f, index, reads) => index_ok index /\ reads_ok reads) files)
    (Hskip : Forall (skip_ok needle start stop) (lines_of [] (events_of None None (map content_of files)))) :
  search needle start stop files = search_spec needle start stop (map content_of files).
Proof.
  unfold search_spec.
  pose proof (scan_files_sim files initial_state [] Hfiles) as Hs. cbn zeta in Hs.
  specialize (Hs (represents_clear needle start stop initial_state) Hskip). cbn in Hs.
  clear Hskip. unfold lines_of.
  destruct (feed [] (events_of None None (map content_of files))) as [ls c]. cbn [fst snd] in Hs.
  assert (Hsim : simulates needle start stop (search needle start stop files) (ls ++ [c]) (fun _ => True)).
  { unfold search. eapply simulates_bind; [exact Hs|]. intros s Hr.
    rewrite <- (app_nil_r [c]). eapply simulates_bind; [by apply complete_line_sim|].
    intros _ _. by apply simulates_ret. }
  unfold simulates in Hsim.
  destruct (report_lines needle start stop (ls ++ [c])) as [out []|out e]; [|done].
  by destruct Hsim as ([] & -> & _).
Qed.
End files.

(** ** Witness and the limits of the resumed search *)

Lemma skip_ok_accepted needle start stop l :
  Forall (fun p => accepted start stop p.2 = true) l -> skip_ok needle start stop l.
Proof.
  intros Hl i j bi bj si sj Hi _ _ _ _ Hf. rewrite Forall_forall in Hl.
  apply list_elem_of_lookup_2, Hl in Hi. cbn in Hi. congruence.
Qed.

Definition sample_part (name : string) : file :=
  mkFile name (Some "t") (Some "n") (Some "r") (Some "s") None None None None None None
    (Some "READY") None None None None.

(** Two consecutive parts; the keyword "ERR" is cut by a read and by the end
    of the first part. *)
Definition sample_parts : list (file * list index_entry * list (bytes * bool)) :=
  [(sample_part "a", [IndexEntry 0 4 (Some 0) 10; IndexEntry 4 3 (Some 1) 20],
    [(ascii_bytes "ok" ++ [LF], false); (ascii_bytes "x ER", false)]);
   (sample_part "b", [IndexEntry 0 6 (Some 2) 30],
    [(ascii_bytes "R y", false); ([CR; LF] ++ ascii_bytes "z", false)])].

Lemma search_reports_lines_witness :
  search (ascii_bytes "ERR") 0 100 sample_parts
  = Yielded [LineResult (Some "a") 5 (Some "a") 3
      (Decoded [120; 32; 69; 82; 82; 32; 121])] tt.
Proof.
  rewrite (search_reports_lines (ascii_bytes "ERR") 0 100 ltac:(discriminate) sample_parts).
  - vm_compute. reflexivity.
  - repeat constructor; cbn; try discriminate; lia.
  - vm_compute lines_of. repeat constructor; apply skip_ok_accepted; repeat constructor.
Defined.

(** After a rejected occurrence the scan resumes past its end, so an occurrence
    that overlaps it is found or missed depending on where a read ended: "aa" in
    "aaa" with only the first byte outside the window. *)
Theorem overlap_depends_on_reads :
  let index := [IndexEntry 0 1 (Some 0) 100; IndexEntry 1 2 (Some 1) 5] in
  let run reads := search (ascii_bytes "aa") 0 10 [(sample_part "a", index, reads)] in
  run [(ascii_bytes "aaa", false)] = Yielded [] tt
  /\ run [(ascii_bytes "aa", false); (ascii_bytes "a", false)]
     = Yielded [LineResult (Some "a") 1 (Some "a") 0 (Decoded [97; 97; 97])] tt.
Proof. vm_compute. split; reflexivity. Qed.
