(* ===== verification/SearchPlan.v ===== *)
(** * Conservative search planning ([logs/search_plan.py], the member summary of
    [logs/search_index.py])

    Before a search reads log files, the planner drops those the trigram index
    proves irrelevant.  [plan_candidate_files] is modelled with its boundary
    joins and its expansion to whole lines; the summary of a member (head, tail,
    newline flag, size) is the loop that builds the index. *)

From S2P Require Import Prelude PyTime Utf8 ByteSearch.

(** ** Keyword prefix *)

(** A `str` or a `bytes` keyword. *)
Inductive keyword := KStr (s : list Z) | KBytes (b : bytes).

(** An uncaught `UnicodeEncodeError`. *)
Inductive encode_error : Type := UnicodeEncodeError.

Definition encode_or_raise (s : list Z) : result encode_error bytes :=
  match encode s with Some b => Ok b | None => Raise UnicodeEncodeError end.

(** [_keyword_prefix]; [None] cannot be planned. *)
Definition _keyword_prefix (k : keyword) : result encode_error (option bytes) :=
  match k with
  | KStr s =>
      if existsb (fun c => bool_decide (c = 10 \/ c = 13 \/ c = 0)) s then Ok None
      else let characters := take 3 s in
           if (length characters <? 3)%nat then Ok None else Some <$> encode_or_raise characters
  | KBytes b =>
      if existsb (fun c => bool_decide (c = LF \/ c = CR \/ c = x00)) b then Ok None
      else match decode b with
           | None => Ok None
           | Some s => let characters := take 3 s in
                       if (length characters =? 3)%nat then Some <$> encode_or_raise characters else Ok None
           end
  end.

(** The bytes a search looks for. *)
Definition keyword_bytes (k : keyword) : option bytes :=
  match k with KStr s => encode s | KBytes b => Some b end.

(** ** Evidence *)

(** A frozen catalog file: `bytes` is [None] when `int` rejects it. *)
Record plan_file := PlanFile {
  pf_id : option string; pf_status : option string; pf_bytes : option Z }.

(** An index answer before its types are checked: a field is [None] when its
    `isinstance` test or its `int` conversion fails. *)
Record answer := Answer {
  an_bytes : option Z; an_head : option bytes; an_tail : option bytes;
  an_newline : option bool; an_may : option bool }.

Record evidence := Evidence {
  e_bytes : Z; e_head : bytes; e_tail : bytes; e_newline : bool; e_may : bool }.

(** [_evidence]. *)
Definition _evidence (f : plan_file) (value : option answer) : option evidence :=
  v ← value;
  if negb (bool_decide (pf_status f = Some "READY")) then None
  else
    size ← pf_bytes f;
    b ← an_bytes v;
    if negb (size =? b) then None
    else
      h ← an_head v;
      t ← an_tail v;
      n ← an_newline v;
      m ← an_may v;
      Some (Evidence b h t n m).

(** ** Planning *)

Abbreviation item := (string * option evidence)%type.
Abbreviation tagged := (list (byte * string)).

(** The candidates the occurrences of the prefix in [joined] add; every start
    is tried. *)
Fixpoint joins (fuel : nat) (prefix : bytes) (identifier : string) (joined : tagged) (start : nat)
    (candidates : gset string) : gset string :=
  match fuel with
  | O => candidates
  | S fuel =>
      match find_from joined.*1 prefix start with
      | None => candidates
      | Some start =>
          let sources : gset string := list_to_set (take (length prefix) (drop start joined)).*2 in
          let candidates := if bool_decide (identifier ∈ sources) && (1 <? size sources)%nat
                            then candidates ∪ sources else candidates in
          joins fuel prefix identifier joined (S start) candidates
      end
  end.

Definition tag (identifier : string) (l : bytes) : tagged := map (fun b => (b, identifier)) l.

(** One step of the boundary loop: suffix, previous id, candidates. *)
Definition boundary_step (prefix : bytes) (st : tagged * option string * gset string) (x : item)
  : tagged * option string * gset string :=
  let '(suffix, previous, candidates) := st in
  let '(identifier, ev) := x in
  match ev with
  | None =>
      ([], Some identifier,
       match previous with Some p => candidates ∪ {[p; identifier]} | None => candidates end)
  | Some e =>
      let keep := (length prefix - 1)%nat in
      let head := take (length prefix) (e_head e) in
      let joined := suffix ++ tag identifier head in
      let candidates := joins (S (length joined)) prefix identifier joined 0 candidates in
      let content := if e_bytes e <=? Z.of_nat keep then head else last_n keep (e_tail e) in
      (last_n keep (suffix ++ tag identifier content), Some identifier, candidates)
  end.

(** The expansion from one position: the ids up to a file with a newline. *)
Fixpoint walk (l : list item) : list string :=
  match l with
  | [] => []
  | (identifier, ev) :: l =>
      identifier :: match ev with
                    | Some e => if e_newline e then [] else walk l
                    | None => walk l
                    end
  end.

(** The body of the expansion loop at position [p]. *)
Definition expand_at (items : list item) (seeds candidates : gset string) (p : nat) : gset string :=
  match items !! p with
  | Some (identifier, _) =>
      if bool_decide (identifier ∈ seeds)
      then candidates ∪ list_to_set (walk (reverse (take p items))) ∪ list_to_set (walk (drop (S p) items))
      else candidates
  | None => candidates
  end.

Definition expand (items : list item) (seeds : gset string) : gset string :=
  foldl (expand_at items seeds) seeds (seq 0 (length items)).

(** The ids the index alone cannot exclude. *)
Definition initial_candidates (items : list item) : gset string :=
  list_to_set (omap (fun x : item => match x.2 with
                     | Some e => if e_may e then Some x.1 else None
                     | None => Some x.1
                     end) items).

(** [plan_candidate_files]. *)
Definition plan_candidate_files (files : list plan_file) (answers : string -> option answer) (k : keyword)
  : result encode_error (gset string) :=
  match _keyword_prefix k with
  | Raise e => Raise e
  | Ok prefix =>
      let identifiers := omap pf_id files in
      match prefix with
      | None => Ok (list_to_set identifiers)
      | Some prefix =>
          if negb (length identifiers =? length files)%nat then Ok (list_to_set identifiers)
          else
            let items := omap (fun f => (fun i => (i, _evidence f (answers i))) <$> pf_id f) files in
            let '(_, _, seeds) := foldl (boundary_step prefix) ([], None, initial_candidates items) items in
            Ok (expand items seeds)
      end
  end.

(** ** The member summary of the index *)

Definition EDGE : nat := 16.

Record summary := Summary { sm_head : bytes; sm_tail : bytes; sm_newline : bool; sm_read : Z }.

(** The reading loop of [build_index] on the chunks of one member. *)
Definition summary_step (s : summary) (raw : bytes) : summary :=
  Summary
    (if (length (sm_head s) <? EDGE)%nat then sm_head s ++ take (EDGE - length (sm_head s)) raw else sm_head s)
    (last_n EDGE (sm_tail s ++ raw))
    (sm_newline s || bool_decide (LF ∈ raw))
    (sm_read s + zlen raw).

Definition member_summary (chunks : list bytes) : summary :=
  foldl summary_step (Summary [] [] false 0) chunks.

Lemma last_n_app {A} n (l k : list A) : n <> 0%nat -> last_n n (last_n n l ++ k) = last_n n (l ++ k).
Proof.
  intros Hn. destruct n as [|n]; [done|]. unfold last_n. rewrite !length_app, length_drop.
  destruct (decide (length l <= S n)%nat) as [Hle|Hgt].
  - replace (length l - S n)%nat with 0%nat by lia. by rewrite drop_0, Nat.sub_0_r.
  - set (a := (length l - S n)%nat).
    trans (drop (length l + length k - S n) ((take a l ++ drop a l) ++ k)); [|by rewrite take_drop].
    rewrite <- app_assoc, (drop_app_ge (take a l)) by (rewrite length_take; lia). rewrite length_take. f_equal. lia.
Qed.

Lemma last_n_all {A} n (l : list A) : (length l <= n)%nat -> last_n n l = l.
Proof. intros Hl. destruct n; [done|]. unfold last_n. by replace (length l - S n)%nat with 0%nat by lia. Qed.

Lemma member_summary_spec chunks :
  let content := concat chunks in
  member_summary chunks
  = Summary (take EDGE content) (last_n EDGE content) (bool_decide (LF ∈ content)) (zlen content).
Proof.
  cbn zeta. unfold member_summary. induction chunks as [|raw chunks IH] using rev_ind; [reflexivity|].
  rewrite foldl_app. cbn [foldl]. rewrite IH, concat_app. cbn [concat]. rewrite app_nil_r.
  set (content := concat chunks). unfold summary_step. cbn [sm_head sm_tail sm_newline sm_read].
  f_equal.
  - rewrite length_take. destruct (Nat.ltb_spec (Nat.min EDGE (length content)) EDGE).
    + rewrite !(take_ge content) by lia. rewrite take_app. f_equal.
      * by rewrite take_ge by lia.
      * f_equal. lia.
    + by rewrite take_app_le by lia.
  - by apply last_n_app.
  - apply eq_bool_prop_intro. rewrite orb_True, !bool_decide_spec, elem_of_app. done.
  - by rewrite zlen_app.
Qed.

(** ** Lemmas on the candidates *)

Lemma last_n_app_r {A} n (l k : list A) : n <> 0%nat -> last_n n (l ++ last_n n k) = last_n n (l ++ k).
Proof.
  intros Hn. destruct n as [|n]; [done|]. unfold last_n. rewrite !length_app, length_drop.
  destruct (decide (length k <= S n)%nat) as [Hle|Hgt].
  - replace (length k - S n)%nat with 0%nat by lia. by rewrite drop_0, Nat.sub_0_r.
  - rewrite !drop_app_ge by lia. rewrite drop_drop. f_equal. lia.
Qed.

Lemma last_n_map {A B} (f : A -> B) n l : last_n n (map f l) = map f (last_n n l).
Proof. destruct n; [done|]. unfold last_n. rewrite length_map. symmetry. apply fmap_drop. Qed.

Lemma last_n_last_n {A} n m (l : list A) : n <> 0%nat -> (n <= m)%nat -> last_n n (last_n m l) = last_n n l.
Proof.
  intros Hn Hm. destruct n as [|n], m as [|m]; try lia. unfold last_n.
  rewrite length_drop, drop_drop. f_equal. lia.
Qed.

Lemma joins_mono fuel prefix i joined start cs : cs ⊆ joins fuel prefix i joined start cs.
Proof.
  revert start cs. induction fuel as [|fuel IH]; intros start cs; cbn [joins]; [done|].
  destruct (find_from _ _ _); [|done]. cbn zeta. etrans; [|apply IH].
  destruct (_ && _); [apply union_subseteq_l|done].
Qed.

(** Every occurrence that mixes the current file with another is joined. *)
Lemma joins_spec fuel prefix i joined start cs k :
  (length joined < fuel + start)%nat -> (start <= k)%nat -> prefix <> [] ->
  occurs prefix joined.*1 k ->
  let sources : gset string := list_to_set (take (length prefix) (drop k joined)).*2 in
  i ∈ sources -> (1 < size sources)%nat ->
  sources ⊆ joins fuel prefix i joined start cs.
Proof.
  revert start cs. induction fuel as [|fuel IH]; intros start cs Hf Hk Hne Ho sources Hi Hs.
  { apply occurs_length in Ho; [|done]. rewrite length_fmap in Ho. lia. }
  cbn [joins]. destruct (find_from joined.*1 prefix start) as [f|] eqn:Ef.
  - apply find_from_spec in Ef as (Hsf & Hof & Hno). cbn zeta.
    destruct (decide (k = f)) as [->|Hne'].
    + fold sources. rewrite bool_decide_true by done.
      replace (1 <? size sources)%nat with true by (symmetry; by apply Nat.ltb_lt). cbn.
      etrans; [|apply joins_mono]. set_solver.
    + apply IH; [lia| |done|done|done|done].
      destruct (decide (k < f)%nat); [|lia]. exfalso. apply (Hno k); [lia|done].
  - exfalso. by apply (find_from_None _ _ _ Ef k).
Qed.

Lemma expand_fold_mono items seeds l cs : cs ⊆ foldl (expand_at items seeds) cs l.
Proof.
  revert cs. induction l as [|p l IH]; intros cs; cbn [foldl]; [done|]. etrans; [|apply IH].
  unfold expand_at. destruct (items !! p) as [[i e]|]; [|done]. case_bool_decide; set_solver.
Qed.

Lemma expand_mono items seeds : seeds ⊆ expand items seeds.
Proof. apply expand_fold_mono. Qed.

Lemma expand_step items seeds p i ev :
  items !! p = Some (i, ev) -> i ∈ seeds ->
  list_to_set (walk (reverse (take p items))) ∪ list_to_set (walk (drop (S p) items)) ⊆ expand items seeds.
Proof.
  intros Hp Hi. unfold expand. generalize seeds at 2 as cs.
  assert (Hin : p ∈ seq 0 (length items)) by (apply elem_of_seq; apply lookup_lt_Some in Hp; lia).
  induction (seq 0 (length items)) as [|p' l IH]; intros cs; [by apply elem_of_nil in Hin|]. cbn [foldl].
  apply elem_of_cons in Hin as [<-|Hin]; [|by apply IH].
  etrans; [|apply expand_fold_mono]. unfold expand_at. rewrite Hp, bool_decide_true by done. set_solver.
Qed.

(** Walking reaches every file up to the first with a known newline. *)
Definition known_newline (x : item) : bool := match x.2 with Some e => e_newline e | None => false end.

Lemma walk_reaches l k x :
  l !! k = Some x -> (forall m y, (m < k)%nat -> l !! m = Some y -> known_newline y = false) -> x.1 ∈ walk l.
Proof.
  revert k. induction l as [|[i ev] l IH]; intros [|k] Hk Hm; try done; cbn in Hk.
  - injection Hk as <-. cbn [walk]. apply list_elem_of_here.
  - cbn [walk]. apply list_elem_of_further.
    pose proof (Hm 0%nat (i, ev) ltac:(lia) eq_refl) as Hn. unfold known_newline in Hn. cbn in Hn.
    assert (x.1 ∈ walk l) by (apply (IH k); [done|]; intros m y Hmk Hy; apply (Hm (S m)); [lia|done]).
    destruct ev as [e|]; [by rewrite Hn|done].
Qed.

(** A seed covers every file up to the nearest known newlines. *)
Lemma expand_covers items seeds s k x y :
  items !! s = Some x -> x.1 ∈ seeds -> items !! k = Some y ->
  (forall m z, (s < m < k \/ k < m < s)%nat -> items !! m = Some z -> known_newline z = false) ->
  y.1 ∈ expand items seeds.
Proof.
  intros Hs Hx Hk Hm. destruct x as [i ev]. cbn in Hx.
  destruct (lt_eq_lt_dec s k) as [[Hlt|Heq]|Hgt].
  - eapply (expand_step items seeds s i ev); [done..|]. apply elem_of_union_r, elem_of_list_to_set.
    apply (walk_reaches _ (k - S s)).
    + rewrite lookup_drop. by replace (S s + (k - S s))%nat with k by lia.
    + intros m z Hmk Hz. rewrite lookup_drop in Hz. apply (Hm (S s + m)%nat); [lia|done].
  - subst k. rewrite Hk in Hs. injection Hs as ->. by apply expand_mono.
  - eapply (expand_step items seeds s i ev); [done..|]. apply elem_of_union_l, elem_of_list_to_set.
    assert (Hlen : (s < length items)%nat) by by apply lookup_lt_Some in Hs.
    apply (walk_reaches _ (s - 1 - k)).
    + rewrite reverse_lookup by (rewrite length_take; lia). rewrite length_take.
      rewrite lookup_take_lt by lia. by replace (Nat.min s (length items) - S (s - 1 - k))%nat with k by lia.
    + intros m z Hmk Hz. rewrite reverse_lookup in Hz by (rewrite length_take; lia). rewrite length_take in Hz.
      rewrite lookup_take_lt in Hz by lia. apply (Hm (Nat.min s (length items) - S m)%nat); [lia|done].
Qed.

(** ** The boundary loop *)

(** What an index answer promises of a member's content: it is the summary of
    the member, and a negative answer is right. *)
Record truthful (prefix content : bytes) (e : evidence) : Prop := {
  tr_summary : exists chunks, concat chunks = content
    /\ member_summary chunks = Summary (e_head e) (e_tail e) (e_newline e) (e_bytes e);
  tr_negative : e_may e = false -> forall i, ~ occurs prefix content i }.

Lemma truthful_fields prefix content e : truthful prefix content e ->
  e_head e = take EDGE content /\ e_tail e = last_n EDGE content
  /\ e_newline e = bool_decide (LF ∈ content) /\ e_bytes e = zlen content.
Proof.
  intros [(chunks & <- & Hm) _]. rewrite member_summary_spec in Hm. by injection Hm as <- <- <- <-.
Qed.

Section boundary.
Variable prefix : bytes.
Hypothesis prefix_long : (2 <= length prefix <= EDGE)%nat.

Definition tagged_all (zs : list (item * bytes)) : tagged := concat (map (fun z => tag z.1.1 z.2) zs).

Definition true_answers (zs : list (item * bytes)) : Prop :=
  Forall (fun z => forall e, z.1.2 = Some e -> truthful prefix z.2 e) zs.

(** The suffix is the end of the files since the last one without evidence. *)
Record suffix_of_run (zs : list (item * bytes)) (suffix : tagged) : Prop := {
  sr_split : exists old run, zs = old ++ run
    /\ (forall z, last old = Some z -> z.1.2 = None)
    /\ Forall (fun z => is_Some z.1.2) run
    /\ suffix = last_n (length prefix - 1) (tagged_all run) }.

Definition state_after (zs : list (item * bytes)) (cs : gset string) :=
  foldl (boundary_step prefix) ([], None, cs) zs.*1.

Lemma tag_last_n i n l : last_n n (tag i l) = tag i (last_n n l).
Proof. apply last_n_map. Qed.

Lemma tagged_all_snoc zs z : tagged_all (zs ++ [z]) = tagged_all zs ++ tag z.1.1 z.2.
Proof. unfold tagged_all. rewrite map_app, concat_app. cbn. by rewrite app_nil_r. Qed.

Lemma suffix_invariant zs cs : true_answers zs -> suffix_of_run zs (state_after zs cs).1.1.
Proof.
  unfold state_after. induction zs as [|[[i ev] c] zs IH] using rev_ind; intros Ht.
  { split. exists [], []. split_and!; [done|done|done|]. cbn. by destruct (length prefix - 1)%nat. }
  apply Forall_app in Ht as [Ht Hz]. specialize (IH Ht). inversion_clear Hz as [|? ? Hz' _]. clear Ht.
  rewrite fmap_app, foldl_app. cbn [fmap list_fmap foldl fst].
  destruct (foldl (boundary_step prefix) ([], None, cs) zs.*1) as [[suffix previous] candidates].
  destruct IH as [(old & run & -> & Hold & Hrun & Hs)]. cbn [fst] in Hs.
  assert (Hn : (length prefix - 1)%nat <> 0%nat) by lia.
  destruct ev as [e|]; cbn [boundary_step fst snd].
  - split. exists old, (run ++ [((i, Some e), c)]). split_and!; [by rewrite <- app_assoc|done| |].
    + apply Forall_app. split; [done|]. constructor; [by exists e|constructor].
    + rewrite tagged_all_snoc. cbn [fst snd]. rewrite Hs, last_n_app by done.
      destruct (truthful_fields _ _ _ (Hz' e eq_refl)) as (Hh & Htl & _ & Hb). cbn [snd] in *.
      rewrite Hh, Htl, Hb. destruct (Z.leb_spec (zlen c) (Z.of_nat (length prefix - 1))) as [Hle|Hgt].
      * rewrite (take_ge (take EDGE c)), (take_ge c); [done|unfold zlen in *; lia|].
        rewrite length_take. unfold zlen in *. lia.
      * rewrite <- (last_n_app_r _ (tagged_all run) (tag i c)) by done.
        rewrite tag_last_n, last_n_last_n by lia. done.
  - split. exists ((old ++ run) ++ [((i, None), c)]), []. split_and!; [by rewrite app_nil_r| |done|].
    + intros z. rewrite last_snoc. by intros [= <-].
    + cbn. by destruct (length prefix - 1)%nat.
Qed.

Lemma boundary_mono st x : st.2 ⊆ (boundary_step prefix st x).2.
Proof.
  destruct st as [[suffix previous] cs], x as [i [e|]]; cbn [boundary_step snd].
  - apply joins_mono.
  - destruct previous; set_solver.
Qed.

Lemma boundary_fold_mono l st : st.2 ⊆ (foldl (boundary_step prefix) st l).2.
Proof.
  revert st. induction l as [|x l IH]; intros st; cbn; [done|]. etrans; [apply boundary_mono|apply IH].
Qed.
End boundary.

(** ** Which file holds a position *)

(** Where file [i] begins in the concatenation. *)
Definition start_of (contents : list bytes) (i : nat) : nat := length (concat (take i contents)).

Definition owns (contents : list bytes) (i p : nat) : Prop :=
  (i < length contents)%nat /\ (start_of contents i <= p < start_of contents (S i))%nat.

Lemma start_of_S contents i c : contents !! i = Some c -> start_of contents (S i) = (start_of contents i + length c)%nat.
Proof.
  intros Hi. unfold start_of. rewrite (take_S_r _ _ _ Hi), concat_app, length_app. cbn. by rewrite app_nil_r.
Qed.

Lemma start_of_mono contents i j : (i <= j)%nat -> (start_of contents i <= start_of contents j)%nat.
Proof.
  intros Hij. unfold start_of. rewrite <- (take_drop i (take j contents)), concat_app, length_app.
  rewrite take_take, Nat.min_l by done. lia.
Qed.

Lemma owns_exists contents p : (p < length (concat contents))%nat -> exists i, owns contents i p.
Proof.
  revert p. induction contents as [|c contents IH]; intros p Hp; cbn in Hp; [lia|]. rewrite length_app in Hp.
  destruct (decide (p < length c)%nat) as [Hlt|Hge].
  - exists 0%nat. unfold owns, start_of. cbn. rewrite app_nil_r. lia.
  - destruct (IH (p - length c)%nat) as (i & Hi & Hs); [lia|]. exists (S i).
    unfold owns, start_of in *. cbn [take concat length] in *. rewrite !length_app. lia.
Qed.

Lemma owns_order contents i j p q : owns contents i p -> owns contents j q -> (p <= q)%nat -> (i <= j)%nat.
Proof.
  intros [_ Hi] [_ Hj] Hpq. destruct (decide (i <= j)%nat); [done|].
  pose proof (start_of_mono contents (S j) i ltac:(lia)). lia.
Qed.

Lemma concat_split (contents : list bytes) i c :
  contents !! i = Some c -> concat contents = concat (take i contents) ++ c ++ concat (drop (S i) contents).
Proof. intros Hi. rewrite <- (take_drop_middle _ _ _ Hi) at 1. by rewrite concat_app. Qed.

Section crossing.
Variable prefix : bytes.
Hypothesis prefix_long : (2 <= length prefix <= EDGE)%nat.

Lemma tag_fst i l : (tag i l).*1 = l.
Proof. unfold tag. rewrite <- list_fmap_compose. apply list_fmap_id. Qed.

Lemma tagged_all_fst zs : (tagged_all zs).*1 = concat zs.*2.
Proof.
  unfold tagged_all. induction zs as [|z zs IH]; cbn; [done|]. rewrite fmap_app, tag_fst. by f_equal.
Qed.

(** An occurrence that starts in the run before a file and ends in the file is
    found when the file is processed. *)
Lemma crossing_found zs i e c (cs : gset string) k b0 i0 :
  true_answers prefix (zs ++ [((i, Some e), c)]) ->
  (k < length (tagged_all zs))%nat -> (length (tagged_all zs) < k + length prefix)%nat ->
  occurs prefix (tagged_all zs ++ tag i c).*1 k ->
  (tagged_all zs) !! k = Some (b0, i0) -> i0 <> i ->
  (* the occurrence lies within the run without missing evidence *)
  (forall old run, zs = old ++ run -> (forall z, last old = Some z -> z.1.2 = None) ->
     Forall (fun z => is_Some z.1.2) run -> (length (tagged_all old) <= k)%nat) ->
  i ∈ (boundary_step prefix (state_after prefix zs cs) (i, Some e)).2.
Proof.
  intros Ht Hk Hcross Ho Hb0 Hne Hrun.
  assert (Hpne : prefix <> []) by (intros ->; cbn in prefix_long; lia). apply Forall_app in Ht as [Ht Hz]. inversion_clear Hz as [|? ? Hz' _].
  destruct (truthful_fields _ _ _ (Hz' e eq_refl)) as (Hh & _). cbn [snd] in Hh.
  pose proof (suffix_invariant prefix prefix_long zs cs Ht) as Hs.
  destruct (state_after prefix zs cs) as [[suffix previous] cands]. cbn [fst] in Hs.
  destruct Hs as [(old & run & -> & Hold & Hsome & ->)].
  specialize (Hrun old run eq_refl Hold Hsome).
  set (n := length prefix) in *. set (keep := (n - 1)%nat).
  assert (Happ : tagged_all (old ++ run) = tagged_all old ++ tagged_all run).
  { unfold tagged_all. by rewrite map_app, concat_app. }
  rewrite Happ in *. set (O := tagged_all old) in *. set (R := tagged_all run) in *.
  rewrite length_app in *. set (d := (length R - keep)%nat).
  assert (Hkeep : last_n keep R = drop d R) by (unfold last_n, d, keep, n in *; destruct (length prefix) as [|[|?]]; cbn in *; [lia..|done]).
  cbn [boundary_step snd]. fold n keep. rewrite Hkeep, Hh, take_take, Nat.min_l by (unfold n; lia).
  set (joined := drop d R ++ tag i (take n c)).
  set (X := O ++ take d R).
  assert (HX : length X = (length O + d)%nat) by (unfold X; rewrite length_app, length_take; lia).
  assert (Hsplit : (O ++ R) ++ tag i c = X ++ joined ++ tag i (drop n c)).
  { unfold X, joined. rewrite <- !app_assoc. f_equal.
    rewrite (app_assoc (take d R)), take_drop. f_equal. unfold tag. rewrite <- map_app, take_drop. done. }
  assert (Hlen : (k + n <= length (O ++ R) + length c)%nat).
  { apply occurs_length in Ho; [|done].
    rewrite length_fmap, length_app in Ho. unfold tag in Ho. rewrite length_map in Ho. exact Ho. }
  rewrite length_app in Hlen.
  assert (Hjl : length joined = (length R - d + Nat.min n (length c))%nat).
  { unfold joined, tag. rewrite length_app, length_drop, length_map, length_take. done. }
  assert (Hoj : occurs prefix joined.*1 (k - length X)).
  { rewrite Hsplit, fmap_app in Ho.
    assert (Ho2 : occurs prefix (X.*1 ++ (joined ++ tag i (drop n c)).*1) (length X.*1 + (k - length X))).
    { rewrite length_fmap. by replace (length X + (k - length X))%nat with k by lia. }
    apply occurs_app_r in Ho2. rewrite fmap_app in Ho2. eapply occurs_app_l; [done| |exact Ho2].
    rewrite length_fmap, Hjl. fold n. lia. }
  assert (Hj0 : joined !! (k - length X)%nat = Some (b0, i0)).
  { rewrite lookup_app_r in Hb0 by lia. unfold joined.
    rewrite lookup_app_l by (rewrite length_drop; lia). rewrite lookup_drop. rewrite <- Hb0. f_equal. lia. }
  destruct c as [|b1 c]; [cbn in *; lia|].
  assert (Hj1 : joined !! (length R - d)%nat = Some (b1, i)).
  { unfold joined. rewrite lookup_app_r by (rewrite length_drop; lia). rewrite length_drop, Nat.sub_diag.
    by destruct n; [lia|]. }
  assert (Hin : forall m x, joined !! m = Some x -> (k - length X <= m < k - length X + n)%nat ->
    x ∈ take n (drop (k - length X) joined)).
  { intros m x Hm Hr. apply (list_elem_of_lookup_2 _ (m - (k - length X))).
    rewrite lookup_take_lt, lookup_drop by lia. rewrite <- Hm. f_equal. lia. }
  assert (Hi0 : i0 ∈ (take n (drop (k - length X) joined)).*2).
  { apply list_elem_of_fmap. exists (b0, i0). split; [done|]. apply (Hin _ _ Hj0). lia. }
  assert (Hi1 : i ∈ (take n (drop (k - length X) joined)).*2).
  { apply list_elem_of_fmap. exists (b1, i). split; [done|]. apply (Hin _ _ Hj1). lia. }
  apply (joins_spec _ _ _ joined 0 cands (k - length X)); [lia|lia|done|done| | |].
  - by apply elem_of_list_to_set.
  - assert (Hsub : ({[i0; i]} : gset string) ⊆ list_to_set (take n (drop (k - length X) joined)).*2) by set_solver.
    apply subseteq_size in Hsub. rewrite size_union, !size_singleton in Hsub by set_solver. cbn in Hsub. fold n. lia.
  - by apply elem_of_list_to_set.
Qed.
End crossing.

Section planning.
Variable prefix : bytes.
Hypothesis prefix_long : (2 <= length prefix <= EDGE)%nat.

Lemma tagged_all_length zs : length (tagged_all zs) = length (concat zs.*2).
Proof. by rewrite <- tagged_all_fst, length_fmap. Qed.

Lemma tagged_all_app zs1 zs2 : tagged_all (zs1 ++ zs2) = tagged_all zs1 ++ tagged_all zs2.
Proof. unfold tagged_all. by rewrite map_app, concat_app. Qed.

Lemma tagged_lookup zs i x c p :
  zs !! i = Some (x, c) -> owns zs.*2 i p -> exists b, tagged_all zs !! p = Some (b, x.1).
Proof.
  intros Hi [_ Hp].
  assert (Hc : zs.*2 !! i = Some c) by (by rewrite list_lookup_fmap, Hi).
  rewrite (start_of_S _ _ _ Hc) in Hp. unfold start_of in Hp.
  rewrite <- (take_drop_middle _ _ _ Hi), tagged_all_app.
  rewrite lookup_app_r by (rewrite tagged_all_length, fmap_take; lia).
  rewrite tagged_all_length, fmap_take.
  set (q := (p - length (concat (take i zs.*2)))%nat).
  assert (Hq : (q < length c)%nat) by (unfold q; lia).
  destruct (lookup_lt_is_Some_2 c q Hq) as [b Hb]. exists b.
  change (tagged_all ((x, c) :: drop (S i) zs)) with (tag x.1 c ++ tagged_all (drop (S i) zs)).
  rewrite lookup_app_l by (unfold tag; rewrite length_map; done).
  unfold tag. rewrite list_lookup_fmap. by rewrite Hb.
Qed.

Lemma initial_unknown items s x : items !! s = Some x -> x.2 = None -> x.1 ∈ initial_candidates items.
Proof.
  intros Hs Hn. unfold initial_candidates. apply elem_of_list_to_set, list_elem_of_omap.
  exists x. split; [by eapply list_elem_of_lookup_2|]. by rewrite Hn.
Qed.

Lemma initial_may items s x e :
  items !! s = Some x -> x.2 = Some e -> e_may e = true -> x.1 ∈ initial_candidates items.
Proof.
  intros Hs He Hm. unfold initial_candidates. apply elem_of_list_to_set, list_elem_of_omap.
  exists x. split; [by eapply list_elem_of_lookup_2|]. by rewrite He, Hm.
Qed.

(** Among the files an occurrence touches, one is a seed of the expansion. *)
Lemma seed_exists zs p i j :
  let items := zs.*1 in
  let contents := zs.*2 in
  true_answers prefix zs -> NoDup items.*1 -> occurs prefix (concat contents) p ->
  owns contents i p -> owns contents j (p + length prefix - 1) ->
  exists s x, (i <= s <= j)%nat /\ items !! s = Some x
    /\ x.1 ∈ (state_after prefix zs (initial_candidates items)).2.
Proof.
  intros items contents Ht Hnd Ho Hi Hj.
  assert (Hpne : prefix <> []) by (intros ->; cbn in prefix_long; lia).
  pose proof (owns_order _ _ _ _ _ Hi Hj ltac:(lia)) as Hij.
  assert (Hjl : (j < length zs)%nat) by (destruct Hj as [Hj _]; unfold contents in Hj; by rewrite length_fmap in Hj).
  assert (Hinit : initial_candidates items ⊆ (state_after prefix zs (initial_candidates items)).2).
  { apply (boundary_fold_mono prefix prefix_long zs.*1 ([], None, initial_candidates items)). }
  destruct (decide (Exists (fun x => x.2 = None) (take (S j - i) (drop i items)))) as [Hex|Hall].
  { apply Exists_exists in Hex as (x & Hin & Hx). apply list_elem_of_lookup_1 in Hin as [m Hm].
    pose proof (lookup_lt_Some _ _ _ Hm) as Hml. rewrite length_take in Hml.
    rewrite lookup_take_lt, lookup_drop in Hm by lia.
    exists (i + m)%nat, x. split_and!; [lia|lia|done|]. by eapply Hinit, initial_unknown. }
  assert (Hsome : forall s x, (i <= s <= j)%nat -> items !! s = Some x -> exists e, x.2 = Some e).
  { intros s x Hs Hx. destruct x as [id [e|]]; [by exists e|]. exfalso. apply Hall, Exists_exists.
    exists (id, None). split; [|done]. apply (list_elem_of_lookup_2 _ (s - i)).
    rewrite lookup_take_lt, lookup_drop by lia. rewrite <- Hx. f_equal. lia. }
  clear Hall. destruct (lookup_lt_is_Some_2 zs j Hjl) as [[xj cj] Hzj].
  assert (Hxj : items !! j = Some xj) by (unfold items; by rewrite list_lookup_fmap, Hzj).
  assert (Hcj : contents !! j = Some cj) by (unfold contents; by rewrite list_lookup_fmap, Hzj).
  destruct (Hsome j xj ltac:(lia) Hxj) as [ej Hej].
  pose proof (proj1 (Forall_forall _ _) Ht (xj, cj) (list_elem_of_lookup_2 _ _ _ Hzj) ej Hej) as Htj. cbn in Htj.
  exists j, xj. split; [lia|]. split; [done|].
  destruct Hj as [_ Hj]. rewrite (start_of_S _ _ _ Hcj) in Hj. unfold start_of in Hj.
  rewrite (concat_split _ _ _ Hcj) in Ho.
  destruct (decide (i = j)) as [->|Hne].
  - apply Hinit. eapply initial_may; [done..|]. destruct (e_may ej) eqn:Em; [done|]. exfalso.
    destruct Hi as [_ Hi]. unfold start_of in Hi.
    apply (tr_negative _ _ _ Htj Em (p - length (concat (take j contents)))).
    eapply occurs_app_l; [done| |].
    + lia.
    + apply (occurs_app_r prefix (concat (take j contents))).
      replace (length (concat (take j contents)) + (p - length (concat (take j contents))))%nat with p by lia.
      exact Ho.
  - assert (Hlt : (i < j)%nat) by lia.
    assert (Hil : (i < length zs)%nat) by lia.
    destruct (lookup_lt_is_Some_2 zs i Hil) as [[xi ci] Hzi].
    assert (Htake : (take j zs).*2 = take j contents) by (unfold contents; by rewrite fmap_take).
    assert (Hlen : length (tagged_all (take j zs)) = length (concat (take j contents)))
      by (by rewrite tagged_all_length, Htake).
    assert (Hpi : (p < length (concat (take j contents)))%nat).
    { destruct Hi as [_ Hi]. pose proof (start_of_mono contents (S i) j ltac:(lia)). unfold start_of in *. lia. }
    assert (Hown : owns (take j zs).*2 i p).
    { rewrite Htake. destruct Hi as [_ Hi]. unfold owns, start_of in *. rewrite length_take.
      rewrite !take_take, (Nat.min_l i j), (Nat.min_l (S i) j) by lia.
      unfold contents in *. rewrite length_fmap. lia. }
    destruct (tagged_lookup (take j zs) i xi ci p) as [b0 Hb0]; [by rewrite lookup_take_lt|done|].
    assert (Hids : xi.1 <> xj.1).
    { intros Heq. apply Hne. eapply (NoDup_lookup items.*1); [done| |].
      - rewrite list_lookup_fmap. unfold items. rewrite list_lookup_fmap, Hzi. reflexivity.
      - rewrite list_lookup_fmap, Hxj. cbn. by rewrite Heq. }
    assert (Hsplit : zs = take j zs ++ (xj, cj) :: drop (S j) zs) by (by rewrite take_drop_middle).
    destruct xj as [idj evj]. cbn in Hej, Hids |- *. subst evj.
    assert (Hstep : idj ∈ (boundary_step prefix (state_after prefix (take j zs) (initial_candidates items)) (idj, Some ej)).2).
    { apply (crossing_found prefix prefix_long (take j zs) idj ej cj _ p b0 xi.1).
      - unfold true_answers. rewrite Hsplit in Ht. apply Forall_app in Ht as [Ht1 Ht2].
        apply Forall_app. split; [done|]. inversion_clear Ht2. by constructor.
      - lia.
      - lia.
      - rewrite fmap_app, tagged_all_fst, tag_fst, Htake. rewrite app_assoc in Ho.
        refine (proj1 (occurs_app_l prefix _ _ _ Hpne _) Ho). rewrite length_app. lia.
      - done.
      - done.
      - intros old run Hor Hold _. destruct (last old) as [z|] eqn:El; [|apply last_None in El as ->; cbn; lia].
        specialize (Hold z eq_refl). rewrite last_lookup in El.
        assert (Hol : old <> []) by (by intros ->).
        assert (Hlt' : (length old <= i)%nat).
        { destruct (decide (length old <= i)%nat); [done|]. exfalso.
          assert (Hz : zs !! Nat.pred (length old) = Some z).
          { rewrite Hsplit, Hor, <- app_assoc. by apply lookup_app_l_Some. }
          assert (length old <= j)%nat.
          { assert (Hlo : length (take j zs) = length (old ++ run)) by by rewrite Hor.
            rewrite length_take, length_app in Hlo. lia. }
          destruct (Hsome (Nat.pred (length old)) z.1) as [e He]; [lia| |congruence].
          unfold items. by rewrite list_lookup_fmap, Hz. }
        rewrite tagged_all_length.
        assert (Hold2 : old.*2 = take (length old) contents).
        { unfold contents. rewrite Hsplit, Hor, <- app_assoc, fmap_app, take_app_le by (by rewrite length_fmap).
          by rewrite take_ge by (by rewrite length_fmap). }
        rewrite Hold2. destruct Hi as [_ Hi].
        pose proof (start_of_mono contents (length old) i Hlt'). unfold start_of in *. lia. }
    assert (Hz : zs.*1 = (take j zs).*1 ++ (idj, Some ej) :: (drop (S j) zs).*1).
    { rewrite Hsplit at 1. by rewrite fmap_app. }
    unfold state_after in *. rewrite Hz, foldl_app. cbn [foldl].
    by apply (boundary_fold_mono prefix prefix_long).
Qed.
End planning.

(** ** The planner keeps every file of a matching line *)

(** No line feed between two positions (the terminator may be the later one). *)
Definition same_line (l : bytes) (p q : nat) : Prop :=
  forall r, (p <= r < q \/ q <= r < p)%nat -> l !! r <> Some LF.

Lemma take_bytes_length (s : list Z) b :
  encode s = Some b -> (length s <= length b)%nat /\ (length b <= 4 * length s)%nat.
Proof.
  unfold encode. destruct (forallb scalar s); [|done]. intros [= <-].
  induction s as [|c s IH]; cbn; [lia|]. rewrite length_app.
  assert (1 <= length (encode_cp c) <= 4)%nat; [|lia].
  unfold encode_cp. repeat case_match; cbn; lia.
Qed.

Lemma encode_prefix s t b k :
  encode (s ++ t) = Some k -> encode s = Some b -> b `prefix_of` k.
Proof.
  unfold encode. rewrite forallb_app, map_app, concat_app.
  destruct (forallb scalar s), (forallb scalar t); cbn; try done. intros [= <-] [= <-].
  by apply prefix_app_r.
Qed.

Lemma length_omap_le {A B} (f : A -> option B) l : (length (omap f l) <= length l)%nat.
Proof. induction l as [|x l IH]; cbn; [done|]. destruct (f x); cbn; lia. Qed.

Lemma encode_cp_lf c : scalar c = true -> LF ∈ encode_cp c -> c = 10.
Proof.
  unfold scalar. intros Hs Hin. apply andb_prop in Hs as [Hs _]. breflect.
  assert (Hbz : 10 ∈ map bz (encode_cp c)) by (apply (list_elem_of_fmap_2 bz) in Hin; exact Hin).
  unfold encode_cp in Hbz.
  destruct (Z.ltb_spec c 0x80); [|destruct (Z.ltb_spec c 0x800); [|destruct (Z.ltb_spec c 0x10000)]];
    cbn [map] in Hbz; rewrite !bz_byte_of_cp in Hbz by (Z.to_euclidean_division_equations; lia);
    repeat (apply elem_of_cons in Hbz as [Hbz|Hbz]); try (by apply elem_of_nil in Hbz);
    Z.to_euclidean_division_equations; lia.
Qed.

(** With an id in every file the items are those of the files, in order. *)
Lemma plan_items files answers :
  length (omap pf_id files) = length files ->
  let items := omap (fun f => (fun i => (i, _evidence f (answers i))) <$> pf_id f) files in
  length items = length files /\ items.*1 = omap pf_id files
  /\ forall n f, files !! n = Some f -> exists i, pf_id f = Some i /\ items !! n = Some (i, _evidence f (answers i)).
Proof.
  induction files as [|f files IH]; cbn; [done|].
  pose proof (length_omap_le pf_id files).
  destruct (pf_id f) as [i|] eqn:Ei; cbn; [|lia]. intros [= Hl]. destruct (IH Hl) as (H1 & H2 & H3).
  split_and!; [by rewrite H1|by rewrite H2|]. intros [|n] f' Hn; cbn in *; [|by apply H3].
  injection Hn as <-. by exists i.
Qed.

(** The prefix begins the keyword, has two to sixteen bytes and no line feed. *)
Lemma keyword_prefix_spec k prefix kb :
  _keyword_prefix k = Ok (Some prefix) -> keyword_bytes k = Some kb ->
  prefix `prefix_of` kb /\ (2 <= length prefix <= EDGE)%nat /\ LF ∉ prefix.
Proof.
  intros Hp Hk.
  assert (Hgen : forall s, encode s = Some kb -> encode (take 3 s) = Some prefix -> length (take 3 s) = 3%nat ->
            prefix `prefix_of` kb /\ (2 <= length prefix <= EDGE)%nat).
  { intros s Hs Ht Hl. split.
    - eapply encode_prefix; [|exact Ht]. by rewrite take_drop.
    - apply take_bytes_length in Ht. unfold EDGE. lia. }
  assert (Hlf : forall s b, encode s = Some b -> 10 ∉ s -> LF ∉ b).
  { intros s b Hs H10 Hin. unfold encode in Hs. destruct (forallb scalar s) eqn:E; [|done]. injection Hs as <-.
    apply list_elem_of_In, in_concat in Hin as (l & Hl & Hin). apply in_map_iff in Hl as (c & <- & Hc).
    apply H10. apply list_elem_of_In. apply list_elem_of_In in Hin.
    rewrite forallb_forall in E. specialize (E c Hc). by rewrite <- (encode_cp_lf c). }
  unfold _keyword_prefix, encode_or_raise in Hp. destruct k as [s|b]; cbn in Hk.
  - destruct (existsb _ s) eqn:Ex; [done|].
    destruct (length (take 3 s) <? 3)%nat eqn:El; [done|].
    destruct (encode (take 3 s)) as [pre|] eqn:Ee; [|done]. injection Hp as ->.
    apply Nat.ltb_ge in El. destruct (Hgen s Hk Ee) as [H1 H2]; [rewrite length_take in *; lia|].
    split_and!; [done|lia|lia|]. apply (Hlf _ _ Ee). intros Hin. apply elem_of_take in Hin as (m & Hm & _).
    apply list_elem_of_lookup_2, list_elem_of_In in Hm.
    assert (Ht : existsb (fun c => bool_decide (c = 10 \/ c = 13 \/ c = 0)) s = true); [|congruence].
    apply existsb_exists. exists 10. split; [done|]. by apply bool_decide_true; left.
  - injection Hk as ->. destruct (existsb _ kb) eqn:Ex; [done|].
    destruct (decode kb) as [s|] eqn:Ed; [|done]. apply encode_decode in Ed.
    destruct (length (take 3 s) =? 3)%nat eqn:El; [|done]. apply Nat.eqb_eq in El.
    destruct (encode (take 3 s)) as [pre|] eqn:Ee; [|done]. injection Hp as ->.
    destruct (Hgen s Ed Ee El) as [H1 H2]. split_and!; [done|lia|lia|]. intros Hin.
    destruct H1 as [r ->].
    assert (Ht : existsb (fun c => bool_decide (c = LF \/ c = CR \/ c = x00)) (prefix ++ r) = true); [|congruence].
    apply existsb_exists. exists LF. split; [apply list_elem_of_In; by apply elem_of_app; left|].
    by apply bool_decide_true; left.
Qed.

(** The planner never drops a file of a matching line.  When the index
    answers are the summaries of the members and its negative answers are
    right, every file that holds a byte of the line of an occurrence of the
    keyword, across any number of parts, is in the plan. *)
Lemma plan_complete (files : list plan_file) (contents : list bytes)
    (answers : string -> option answer) (k : keyword) (kb : bytes) (plan : gset string)
    (Hplan : plan_candidate_files files answers k = Ok plan)
    (Hlen : length contents = length files)
    (Hids : NoDup (omap pf_id files))
    (Hkb : keyword_bytes k = Some kb)
    (Htruth : forall prefix n f i c e, _keyword_prefix k = Ok (Some prefix) ->
       files !! n = Some f -> pf_id f = Some i -> contents !! n = Some c ->
       _evidence f (answers i) = Some e -> truthful prefix c e)
    (p q n : nat) (f : plan_file) (i : string)
    (Hocc : occurs kb (concat contents) p)
    (Hline : same_line (concat contents) p q)
    (Hq : owns contents n q) (Hf : files !! n = Some f) (Hi : pf_id f = Some i) :
  i ∈ plan.
Proof.
  assert (Hall : i ∈ (list_to_set (omap pf_id files) : gset string)).
  { apply elem_of_list_to_set, list_elem_of_omap. exists f. split; [by eapply list_elem_of_lookup_2|done]. }
  unfold plan_candidate_files in Hplan.
  destruct (_keyword_prefix k) as [[prefix|]|] eqn:Ek; [|by injection Hplan as <-|done].
  destruct (negb _) eqn:El; [by injection Hplan as <-|]. apply negb_false_iff, Nat.eqb_eq in El.
  destruct (keyword_prefix_spec k prefix kb Ek Hkb) as ([rest ->] & Hlong & Hlf).
  set (items := omap (fun f => (fun i => (i, _evidence f (answers i))) <$> pf_id f) files) in *.
  pose proof (plan_items files answers El) as Hitems. fold items in Hitems.
  destruct Hitems as (Hil & Hifst & Hin).
  destruct (foldl (boundary_step prefix) ([], None, initial_candidates items) items) as [st seeds] eqn:Est.
  destruct st. injection Hplan as <-.
  set (zs := zip items contents).
  assert (Hz1 : zs.*1 = items) by (apply fst_zip; lia).
  assert (Hz2 : zs.*2 = contents) by (apply snd_zip; lia).
  assert (Htrue : true_answers prefix zs).
  { apply Forall_forall. intros [x c] Hx e He. apply list_elem_of_lookup_1 in Hx as [m Hm].
    assert (Hxm : items !! m = Some x) by (by rewrite <- Hz1, list_lookup_fmap, Hm).
    assert (Hcm : contents !! m = Some c) by (by rewrite <- Hz2, list_lookup_fmap, Hm).
    destruct (lookup_lt_is_Some_2 files m) as [g Hg]; [apply lookup_lt_Some in Hxm; lia|].
    destruct (Hin m g Hg) as (i' & Hi' & Hxi). rewrite Hxm in Hxi. injection Hxi as ->.
    by apply (Htruth prefix m g i' c e). }
  assert (Hpne : prefix <> []) by (intros ->; cbn in Hlong; lia).
  assert (Ho : occurs prefix (concat contents) p).
  { unfold occurs in *. rewrite starts_with_spec in *. etrans; [by apply prefix_app_r|exact Hocc]. }
  pose proof (occurs_length _ _ _ Hpne Ho) as Hend.
  destruct (owns_exists contents p) as [a Ha]; [lia|].
  destruct (owns_exists contents (p + length prefix - 1)) as [b Hb]; [lia|].
  destruct (seed_exists prefix Hlong zs p a b Htrue) as (s & x & Hs & Hxs & Hseed);
    [by rewrite Hz1, Hifst|by rewrite Hz2|by rewrite Hz2|by rewrite Hz2|].
  unfold state_after in Hseed. rewrite Hz1 in Hxs, Hseed. rewrite Est in Hseed. cbn in Hseed.
  destruct (Hin n f Hf) as (i' & Hi' & Hxn). rewrite Hi in Hi'. injection Hi' as <-.
  apply (expand_covers items seeds s n x (i, _evidence f (answers i)) Hxs Hseed Hxn).
  intros m [im evm] Hm Hxm. unfold known_newline. cbn. destruct evm as [e|]; [|done].
  destruct (e_newline e) eqn:En; [|done]. exfalso.
  destruct (lookup_lt_is_Some_2 contents m) as [c Hc]; [apply lookup_lt_Some in Hxm; lia|].
  assert (Htr : truthful prefix c e).
  { apply (proj1 (Forall_forall _ _) Htrue ((im, Some e), c)); [|done].
    apply (list_elem_of_lookup_2 _ m). unfold zs. rewrite lookup_zip_with, Hxm, Hc. reflexivity. }
  destruct (truthful_fields _ _ _ Htr) as (_ & _ & Hnl & _). rewrite En in Hnl.
  symmetry in Hnl. apply bool_decide_eq_true, list_elem_of_lookup_1 in Hnl as [r Hr].
  pose proof (lookup_lt_Some _ _ _ Hr) as Hrl.
  assert (Hpos : concat contents !! (start_of contents m + r)%nat = Some LF).
  { rewrite (concat_split _ _ _ Hc). unfold start_of.
    rewrite lookup_app_r by lia. replace (_ + r - _)%nat with r by lia. by apply lookup_app_l_Some. }
  pose proof (start_of_S _ _ _ Hc) as HSm.
  destruct Hq as [_ Hq], Ha as [_ Ha], Hb as [_ Hb].
  destruct Hm as [Hm|Hm].
  - pose proof (start_of_mono contents (S a) m ltac:(lia)). pose proof (start_of_mono contents (S m) n ltac:(lia)).
    apply (Hline (start_of contents m + r)%nat); [lia|done].
  - pose proof (start_of_mono contents (S n) m ltac:(lia)). pose proof (start_of_mono contents (S m) b ltac:(lia)).
    destruct (decide (start_of contents m + r < p)%nat) as [Hlt|Hge].
    + apply (Hline (start_of contents m + r)%nat); [lia|done].
    + apply Hlf. apply (list_elem_of_lookup_2 _ (start_of contents m + r - p)).
      unfold occurs in Ho. apply starts_with_spec in Ho as [t Ht].
      rewrite <- (lookup_app_l _ t) by lia. rewrite <- Ht, lookup_drop, <- Hpos. f_equal. lia.
Qed.

(** ** Witness: the keyword "ERROR" cut by the end of a part *)

Definition ready (i : string) (size : Z) : plan_file := PlanFile (Some i) (Some "READY") (Some size).

Definition summary_answer (may : bool) (chunks : list bytes) : answer :=
  let s := member_summary chunks in
  Answer (Some (sm_read s)) (Some (sm_head s)) (Some (sm_tail s)) (Some (sm_newline s)) (Some may).

Definition sample_contents : list bytes :=
  [ascii_bytes "old" ++ [LF]; ascii_bytes "x ER"; ascii_bytes "ROR y" ++ [LF]; ascii_bytes "z"].

Definition sample_answers (i : string) : option answer :=
  if decide (i = "a") then Some (summary_answer false [ascii_bytes "ol"; ascii_bytes "d" ++ [LF]])
  else if decide (i = "b") then Some (summary_answer false [ascii_bytes "x ER"])
  else if decide (i = "c") then Some (summary_answer false [ascii_bytes "ROR y" ++ [LF]])
  else Some (summary_answer false [ascii_bytes "z"]).

Definition sample_files : list plan_file := [ready "a" 4; ready "b" 4; ready "c" 6; ready "d" 1].

(** Executable reading of a negative answer. *)
Lemma no_occurrence (prefix content : bytes) :
  find_from content prefix 0 = None -> forall i, ~ occurs prefix content i.
Proof. intros Hf i. apply (find_from_None _ _ _ Hf). lia. Qed.

Lemma plan_complete_witness :
  exists plan, plan_candidate_files sample_files sample_answers (KStr [69; 82; 82; 79; 82]) = Ok plan
    /\ "b" ∈ plan.
Proof.
  eexists. split; [vm_compute; reflexivity|].
  eapply (plan_complete sample_files sample_contents sample_answers
    (KStr [69; 82; 82; 79; 82]) (ascii_bytes "ERROR") _).
  - vm_compute. reflexivity.
  - reflexivity.
  - cbn. repeat (apply NoDup_cons; split; [set_solver|]). apply NoDup_nil_2.
  - reflexivity.
  - intros prefix n f i c e Hp Hf Hi Hc He. vm_compute in Hp. injection Hp as <-.
    destruct n as [|[|[|[|n]]]]; cbn in Hf, Hc; try done; injection Hf as <-; injection Hc as <-;
      cbn in Hi; injection Hi as <-; vm_compute in He; injection He as <-; split.
    all: try (intros _; apply no_occurrence; vm_compute; reflexivity).
    + exists [ascii_bytes "ol"; ascii_bytes "d" ++ [LF]]. split; reflexivity.
    + exists [ascii_bytes "x ER"]. split; reflexivity.
    + exists [ascii_bytes "ROR y" ++ [LF]]. split; reflexivity.
    + exists [ascii_bytes "z"]. split; reflexivity.
  - instantiate (1 := 6%nat). vm_compute. reflexivity.
  - instantiate (1 := 4%nat). intros r Hr. destruct Hr as [Hr|Hr]; [lia|].
    assert (r = 4 \/ r = 5)%nat as [-> | ->] by lia; vm_compute; discriminate.
  - instantiate (1 := 1%nat). unfold owns, start_of. cbn. lia.
  - reflexivity.
  - reflexivity.
Defined.
