(* ===== verification/LossyText.v ===== *)
(** * Text of a chunk: `bytes.decode("utf-8", "replace")` and wildcard patterns

    The full-text index stores the text of a chunk decoded with replacement
    characters and asks for the first three characters of a keyword with a
    wildcard pattern.  A keyword that lies in the bytes lies in the text, wherever
    the chunk was cut, and the escaped pattern means just that. *)

From S2P Require Import Prelude PyTime Utf8 ByteSearch.

(** ** Decoding with replacement characters *)

Definition REPLACEMENT : Z := 0xFFFD.

(** The second byte a lead byte allows. *)
Definition second3 (a b : byte) : bool :=
  cont b && (if bz a =? 0xE0 then 0xA0 <=? bz b else if bz a =? 0xED then bz b <? 0xA0 else true).
Definition second4 (a b : byte) : bool :=
  cont b && (if bz a =? 0xF0 then 0x90 <=? bz b else if bz a =? 0xF4 then bz b <? 0x90 else true).

(** Each longest prefix of a sequence that the text does not continue is one
    replacement character; the end of the text cuts a sequence the same way. *)
Fixpoint decode_replace (l : bytes) : list Z :=
  match l with
  | [] => []
  | a :: l1 =>
      if bz a <? 0x80 then bz a :: decode_replace l1
      else if (0xC2 <=? bz a) && (bz a <? 0xE0) then
        match l1 with
        | [] => [REPLACEMENT]
        | b :: l2 =>
            if cont b then (bz a - 0xC0) * 64 + (bz b - 0x80) :: decode_replace l2
            else REPLACEMENT :: decode_replace l1
        end
      else if (0xE0 <=? bz a) && (bz a <? 0xF0) then
        match l1 with
        | [] => [REPLACEMENT]
        | b :: l2 =>
            if second3 a b then
              match l2 with
              | [] => [REPLACEMENT]
              | c :: l3 =>
                  if cont c
                  then (bz a - 0xE0) * 4096 + (bz b - 0x80) * 64 + (bz c - 0x80) :: decode_replace l3
                  else REPLACEMENT :: decode_replace l2
              end
            else REPLACEMENT :: decode_replace l1
        end
      else if (0xF0 <=? bz a) && (bz a <? 0xF5) then
        match l1 with
        | [] => [REPLACEMENT]
        | b :: l2 =>
            if second4 a b then
              match l2 with
              | [] => [REPLACEMENT]
              | c :: l3 =>
                  if cont c then
                    match l3 with
                    | [] => [REPLACEMENT]
                    | d :: l4 =>
                        if cont d
                        then (bz a - 0xF0) * 262144 + (bz b - 0x80) * 4096 + (bz c - 0x80) * 64 + (bz d - 0x80)
                             :: decode_replace l4
                        else REPLACEMENT :: decode_replace l3
                    end
                  else REPLACEMENT :: decode_replace l2
              end
            else REPLACEMENT :: decode_replace l1
        end
      else REPLACEMENT :: decode_replace l1
  end.

Example replace_cut : decode_replace [byte_of_cp 0x9C; byte_of_cp 0xE4; byte_of_cp 0xB8; byte_of_cp 0x41]
  = [REPLACEMENT; REPLACEMENT; 0x41].
Proof. reflexivity. Qed.

(** A range test on the bytes of one encoded code point. *)
Ltac point_range :=
  unfold second3, second4, cont; rewrite ?bz_byte_of_cp by (Z.to_euclidean_division_equations; lia);
  repeat match goal with |- context [if ?x =? ?y then _ else _] => destruct (Z.eqb_spec x y) end;
  rewrite ?andb_true_iff, ?Z.leb_le, ?Z.ltb_lt, ?Z.ltb_ge; Z.to_euclidean_division_equations; lia.

Ltac point_false := apply Z.ltb_ge; rewrite ?bz_byte_of_cp; Z.to_euclidean_division_equations; lia.

Lemma decode_replace_cp c l : scalar c = true -> decode_replace (encode_cp c ++ l) = c :: decode_replace l.
Proof.
  unfold scalar. intros Hs. apply andb_prop in Hs as [Hs Hsur]. breflect.
  assert (Hsur' : c < 0xD800 \/ 0xE000 <= c) by (apply andb_false_iff in Hsur as [?|?]; blia). clear Hsur.
  unfold encode_cp.
  destruct (c <? 0x80) eqn:E1; [|destruct (c <? 0x800) eqn:E2; [|destruct (c <? 0x10000) eqn:E3]]; breflect.
  - cbn [app decode_replace]. rewrite bz_byte_of_cp by lia. by rewrite (proj2 (Z.ltb_lt _ _)) by lia.
  - set (a := byte_of_cp _). set (b := byte_of_cp (0x80 + c mod 64)). cbn [app decode_replace].
    assert (bz a <? 0x80 = false) as -> by (subst a; point_false).
    assert ((0xC2 <=? bz a) && (bz a <? 0xE0) = true) as -> by (subst a; point_range).
    assert (cont b = true) as -> by (subst b; point_range).
    f_equal. subst a b. rewrite !bz_byte_of_cp by (Z.to_euclidean_division_equations; lia).
    Z.to_euclidean_division_equations; lia.
  - set (a := byte_of_cp (0xE0 + _)). set (b := byte_of_cp (0x80 + c / 64 mod 64)).
    set (d := byte_of_cp (0x80 + c mod 64)). cbn [app decode_replace].
    assert (bz a <? 0x80 = false) as -> by (subst a; point_false).
    assert (bz a <? 0xE0 = false) as -> by (subst a; point_false). rewrite andb_false_r.
    assert ((0xE0 <=? bz a) && (bz a <? 0xF0) = true) as -> by (subst a; point_range).
    assert (second3 a b = true) as -> by (subst a b; point_range).
    assert (cont d = true) as -> by (subst d; point_range).
    f_equal. subst a b d. rewrite !bz_byte_of_cp by (Z.to_euclidean_division_equations; lia).
    Z.to_euclidean_division_equations; lia.
  - set (a := byte_of_cp (0xF0 + _)). set (b := byte_of_cp (0x80 + c / 4096 mod 64)).
    set (d := byte_of_cp (0x80 + c / 64 mod 64)). set (e := byte_of_cp (0x80 + c mod 64)). cbn [app decode_replace].
    assert (bz a <? 0x80 = false) as -> by (subst a; point_false).
    assert (bz a <? 0xE0 = false) as -> by (subst a; point_false). rewrite andb_false_r.
    assert (bz a <? 0xF0 = false) as -> by (subst a; point_false). rewrite andb_false_r.
    assert ((0xF0 <=? bz a) && (bz a <? 0xF5) = true) as -> by (subst a; point_range).
    assert (second4 a b = true) as -> by (subst a b; point_range).
    assert (cont d = true) as -> by (subst d; point_range).
    assert (cont e = true) as -> by (subst e; point_range).
    f_equal. subst a b d e. rewrite !bz_byte_of_cp by (Z.to_euclidean_division_equations; lia).
    Z.to_euclidean_division_equations; lia.
Qed.

Lemma decode_replace_encoded s l :
  forallb scalar s = true -> decode_replace (concat (map encode_cp s) ++ l) = s ++ decode_replace l.
Proof.
  induction s as [|c s IH]; [done|]. cbn [forallb map concat app]. intros [Hc Hs]%andb_prop.
  by rewrite <- app_assoc, decode_replace_cp, IH.
Qed.

(** A character begins with a byte that continues none. *)
Lemma encode_cp_start c : scalar c = true -> exists a r, encode_cp c = a :: r /\ cont a = false.
Proof.
  unfold scalar. intros Hs. apply andb_prop in Hs as [Hs _]. breflect. unfold encode_cp.
  destruct (c <? 0x80) eqn:E1; [|destruct (c <? 0x800) eqn:E2; [|destruct (c <? 0x10000) eqn:E3]]; breflect.
  all: eexists _, _; split; [reflexivity|]; unfold cont; rewrite bz_byte_of_cp by (Z.to_euclidean_division_equations; lia).
  all: apply andb_false_iff; rewrite Z.leb_gt, Z.ltb_ge; Z.to_euclidean_division_equations; lia.
Qed.

Lemma second3_cont a b : cont b = false -> second3 a b = false.
Proof. unfold second3. by intros ->. Qed.

Lemma second4_cont a b : cont b = false -> second4 a b = false.
Proof. unfold second4. by intros ->. Qed.

(** Decoding is back in step at every byte that continues no sequence. *)
Lemma decode_replace_sync n x z l : (length x <= n)%nat -> cont z = false ->
  exists dx, decode_replace (x ++ z :: l) = dx ++ decode_replace (z :: l).
Proof.
  revert x. induction n as [|n IH]; intros [|a x] Hn Hz; cbn in Hn; try lia; try by exists [].
  assert (Hrec : forall v r, r `suffix_of` x ->
    exists dx, v :: decode_replace (r ++ z :: l) = dx ++ decode_replace (z :: l)).
  { intros v r Hr. apply suffix_length in Hr. destruct (IH r) as [dx ->]; [lia|done|]. by exists (v :: dx). }
  assert (Hx : x `suffix_of` x) by done.
  remember (z :: l) as zl eqn:Ezl. cbn [app decode_replace].
  destruct (bz a <? 0x80); [by apply Hrec|].
  destruct x as [|b x].
  { pose proof (Hrec REPLACEMENT [] Hx) as Hr0. cbn [app] in Hr0 |- *. set (rest := decode_replace zl) in *.
    clearbody rest. subst zl. rewrite Hz, (second3_cont _ _ Hz), (second4_cont _ _ Hz). by repeat case_match. }
  cbn [app].
  assert (Hb : x `suffix_of` b :: x) by by exists [b].
  pose proof (Hrec REPLACEMENT _ Hx) as Hr1. cbn [app] in Hr1.
  case_match; [case_match; [by apply Hrec|done]|].
  destruct x as [|c x].
  { pose proof (Hrec REPLACEMENT [] Hb) as Hr2. cbn [app] in Hr2 |- *. set (rest := decode_replace zl) in *.
    clearbody rest. subst zl. rewrite Hz. by repeat case_match. }
  cbn [app].
  assert (Hc : x `suffix_of` b :: c :: x) by by exists [b; c].
  pose proof (Hrec REPLACEMENT _ Hb) as Hr2. cbn [app] in Hr2.
  case_match; [case_match; [case_match; [by apply Hrec|done]|done]|].
  destruct x as [|d x].
  { pose proof (Hrec REPLACEMENT [] Hc) as Hr3. cbn [app] in Hr3 |- *. set (rest := decode_replace zl) in *.
    clearbody rest. subst zl. rewrite Hz. by repeat case_match. }
  cbn [app].
  assert (Hd : x `suffix_of` b :: c :: d :: x) by by exists [b; c; d].
  pose proof (Hrec REPLACEMENT _ Hc) as Hr3. cbn [app] in Hr3.
  repeat case_match; first [done|by apply Hrec].
Qed.

(** The characters whose encoding lies in the bytes lie in the text. *)
Lemma decode_replace_infix s p x y : s <> [] -> encode s = Some p ->
  exists dx dy, decode_replace (x ++ p ++ y) = dx ++ s ++ dy.
Proof.
  unfold encode. intros Hne. destruct (forallb scalar s) eqn:Es; [|done]. intros [= <-].
  destruct s as [|c s]; [done|]. cbn [forallb] in Es. pose proof Es as [Hc _]%andb_prop.
  destruct (encode_cp_start c Hc) as (a & r & Ha & Hca).
  assert (Hp : concat (map encode_cp (c :: s)) ++ y = a :: (r ++ concat (map encode_cp s)) ++ y)
    by (cbn [map concat]; by rewrite Ha).
  destruct (decode_replace_sync (length x) x a ((r ++ concat (map encode_cp s)) ++ y)) as [dx Hdx]; [lia|done|].
  rewrite Hp, Hdx, <- Hp, decode_replace_encoded by done. by exists dx, (decode_replace y).
Qed.

(** ** Wildcard patterns *)

Definition STAR : Z := 42.
Definition QUESTION : Z := 63.
Definition BACKSLASH : Z := 92.

(** The documented meaning of a `wildcard` pattern: `*` matches any characters,
    `?` one, and a backslash quotes the next character. *)
Inductive glob : list Z -> list Z -> Prop :=
  | glob_nil : glob [] []
  | glob_star p t u : glob p u -> glob (STAR :: p) (t ++ u)
  | glob_any p c u : glob p u -> glob (QUESTION :: p) (c :: u)
  | glob_quoted p c u : glob p u -> glob (BACKSLASH :: c :: p) (c :: u)
  | glob_char p c u : c <> STAR -> c <> QUESTION -> c <> BACKSLASH -> glob p u -> glob (c :: p) (c :: u).

(** `''.join('\\' + c if c in '*?\\' else c for c in keyword[:3])`. *)
Definition escaped (s : list Z) : list Z :=
  concat (map (fun c => if bool_decide (c = STAR \/ c = QUESTION \/ c = BACKSLASH) then [BACKSLASH; c] else [c]) s).

Lemma glob_escaped s p u : glob p u -> glob (escaped s ++ p) (s ++ u).
Proof.
  intros Hp. induction s as [|c s IH]; [done|]. unfold escaped in *. cbn [map concat app].
  case_bool_decide as Hc; cbn [app]; [by apply glob_quoted|]. apply glob_char; tauto.
Qed.

(** The pattern that asks for [s] anywhere. *)
Definition infix_pattern (s : list Z) : list Z := [STAR] ++ escaped s ++ [STAR].

Lemma infix_matches s x y : glob (infix_pattern s) (x ++ s ++ y).
Proof.
  unfold infix_pattern. apply (glob_star _ x). apply glob_escaped. rewrite <- (app_nil_r y).
  apply glob_star, glob_nil.
Qed.

Lemma escaped_matches s p t : glob (escaped s ++ p) t -> exists u, t = s ++ u /\ glob p u.
Proof.
  revert t. induction s as [|c s IH]; intros t; [by exists t|]. unfold escaped in *. cbn [map concat].
  case_bool_decide as Hc; cbn [app]; intros Hg; inversion Hg; subst; try (exfalso; tauto || done).
  all: match goal with H : glob (_ ++ _) ?u |- _ => apply IH in H as (w & -> & Hw) end; by exists w.
Qed.

(** The escaped pattern means what it should: the characters, whatever they are. *)
Lemma infix_pattern_exact s t : glob (infix_pattern s) t <-> exists x y, t = x ++ s ++ y.
Proof.
  split; [|intros (x & y & ->); apply infix_matches].
  unfold infix_pattern. cbn [app]. intros Hg. inversion Hg; subst; try done.
  match goal with H : glob (_ ++ _) _ |- _ => apply escaped_matches in H as (w & -> & Hw) end. by eexists _, w.
Qed.
