(* ===== verification/FullText.v ===== *)
(** * The full-text index ([indexing/client.py], [indexing/ingest.py],
    [indexing/checkpoints.py], [indexing/query.py])

    A separate process sends the sealed parts of its node to Elasticsearch in
    chunks, remembers the confirmed position in a local table and publishes a
    manifest once the whole part was read, its digest agreed and the index counts
    all of its chunks.  A search asks for the manifests, has the chunks counted
    again and takes "no chunk matches" as a proof that the part need not be read.

    Elasticsearch is not code of the repository: [Elastic] lists the requests and
    [ElasticLaws] what its documentation promises.  A request may fail after it
    was applied, a bulk request may apply some of its items, and searches see the
    documents of the last refresh, not the stored ones. *)

From stdpp Require Import pretty sets.
From S2P Require Import Prelude PyTime PyValue Utf8 ByteSearch LossyText FileOrder StreamSearch SearchPlan.
Open Scope Z_scope.

(** ** Files and documents *)

Definition CHUNK_BYTES : nat := Z.to_nat (32 * 1024).
Definition OVERLAP : nat := 16.
Definition VERSION : Z := 1.

(** A catalog row, its times as instants. *)
Record part := Part {
  pt_id : string; pt_taskId : option string; pt_resourceId : option string; pt_nodeId : option string;
  pt_runId : option string; pt_sessionId : option string; pt_status : option string;
  pt_bytes : Z; pt_sha256 : option string; pt_hour : Z; pt_firstReceivedAt : option Z }.

(** The fields every document of a file carries. *)
Record doc_base := DocBase {
  db_fileId : string; db_revision : string; db_taskId : string; db_resourceId : string; db_nodeId : string;
  db_runId : string; db_sessionId : string; db_hour : Z }.

(** The two kinds of documents; the ends of a manifest are kept as the bytes their
    hexadecimal texts denote. *)
Inductive es_doc : Type :=
  | ChunkDoc (b : doc_base) (offset length_ : Z) (text : list Z) (receivedAt : option Z) (indexedAt : Z)
  | ManifestDoc (b : doc_base) (bytes_ chunks : Z) (head_ tail_ : bytes) (hasNewline : bool)
      (indexedAt : Z) (receivedAt : option Z).

Definition doc_of (d : es_doc) : doc_base :=
  match d with ChunkDoc b _ _ _ _ _ => b | ManifestDoc b _ _ _ _ _ _ _ => b end.

(** `hashlib.sha256(...).hexdigest()` and `json.dumps(fields, sort_keys=True).encode()`. *)
Class Hashing := { sha256_hex : bytes -> string; dump_fields : list pyval -> bytes }.

Definition opt_str (o : option string) : pyval := match o with Some s => PStr s | None => PNone end.

(** [fingerprint]. *)
Definition fingerprint `{Hashing} (f : part) : string :=
  sha256_hex (dump_fields [PInt VERSION; PStr (pt_id f); opt_str (pt_taskId f); opt_str (pt_nodeId f);
    opt_str (pt_runId f); opt_str (pt_sessionId f); PInt (pt_bytes f); opt_str (pt_sha256 f)]).

(** `hashlib.sha256(f'{revision}:{offset}'.encode()).hexdigest()`. *)
Definition chunk_id `{Hashing} (revision : string) (offset : Z) : string :=
  sha256_hex (ascii_bytes (revision +:+ ":" +:+ pretty offset)).

Definition manifest_id (revision : string) : string := "manifest-" +:+ revision.

(** ** Elasticsearch *)

(** A successful response may still be partial. *)
Record reply (A : Type) := Reply { r_timed_out : bool; r_failed_shards : Z; r_body : A }.
Arguments Reply {A} _ _ _.
Arguments r_timed_out {A} _.
Arguments r_failed_shards {A} _.
Arguments r_body {A} _.

(** The answer to a bulk request: its flag and the status of each item. *)
Record bulk_reply := BulkReply { br_errors : bool; br_statuses : list Z }.

(** One term of the aggregation over revisions; the count of matches is there only
    when a pattern was asked for. *)
Record bucket := Bucket { bk_key : string; bk_count : Z; bk_matches : option Z }.
Record groups := Groups { g_other : Z; g_bound : Z; g_buckets : list bucket }.

(** A request raises `httpx.TransportError` or `HTTPStatusError`, or answers. *)
Class Elastic := {
  es : Type;
  stored : es -> gmap string es_doc;
  visible : es -> gmap string es_doc;
  healthy : es -> Prop;
  es_mget : list string -> es -> result unit (reply (list (option es_doc))) * es;
  es_count : (es_doc -> bool) -> es -> result unit (reply Z) * es;
  es_search : list string -> option (list Z) -> es -> result unit (reply groups) * es;
  es_bulk : list (string * es_doc) -> es -> result unit (reply bulk_reply) * es;
  es_refresh : es -> result unit (reply unit) * es;
  es_put : string -> es_doc -> es -> result unit (reply unit) * es;
  es_delete : (es_doc -> bool) -> es -> result unit (reply unit) * es }.

Definition clean {A} (r : reply A) : bool := negb (r_timed_out r) && (r_failed_shards r =? 0).

Definition status_ok (z : Z) : bool := (200 <=? z) && (z <? 300).

Definition is_chunk_of (revision : string) (d : es_doc) : bool :=
  match d with ChunkDoc b _ _ _ _ _ => bool_decide (db_revision b = revision) | _ => false end.

Definition is_chunk_below (revision : string) (limit : Z) (d : es_doc) : bool :=
  match d with ChunkDoc b offset _ _ _ _ => bool_decide (db_revision b = revision) && (offset <? limit) | _ => false end.

Definition text_of_doc (d : es_doc) : list Z := match d with ChunkDoc _ _ _ t _ _ => t | _ => [] end.

(** The number of documents of an index that satisfy a filter. *)
Definition docs_where (q : es_doc -> bool) (m : gmap string es_doc) : list (string * es_doc) :=
  filter (fun p => q p.2 = true) (map_to_list m).

Definition put_all (items : list (string * es_doc)) (m : gmap string es_doc) : gmap string es_doc :=
  foldl (fun m p => <[p.1 := p.2]> m) m items.

(** A request that writes nothing; the index may have been refreshed meanwhile. *)
Definition reads_only `{Elastic} (s s' : es) : Prop :=
  stored s' = stored s /\ (visible s' = visible s \/ visible s' = stored s).

(** What can be in the index after the items were sent, whatever was applied. *)
Definition within `{Elastic} (items : list (string * es_doc)) (s s' : es) : Prop :=
  forall i d, stored s' !! i = Some d \/ visible s' !! i = Some d ->
    stored s !! i = Some d \/ visible s !! i = Some d \/ (i, d) ∈ items.

(** What an answer says of one revision. *)
Definition bucket_right `{Elastic} (pattern : option (list Z)) (s : es) (b : bucket) : Prop :=
  bk_count b = zlen (docs_where (is_chunk_of (bk_key b)) (visible s))
  /\ (pattern = None -> bk_matches b = None)
  /\ forall p m, pattern = Some p -> bk_matches b = Some m -> m <= 0 ->
       forall i d, visible s !! i = Some d -> is_chunk_of (bk_key b) d = true -> ~ glob p (text_of_doc d).

Class ElasticLaws `{Elastic} := {
  mget_law ids s : let '(r, s') := es_mget ids s in reads_only s s'
    /\ forall a, r = Ok a -> clean a = true -> r_body a = map (fun i => stored s !! i) ids;
  count_law q s : let '(r, s') := es_count q s in reads_only s s'
    /\ forall a, r = Ok a -> clean a = true -> r_body a = zlen (docs_where q (visible s'));
  search_law revisions pattern s : let '(r, s') := es_search revisions pattern s in reads_only s s'
    /\ forall a, r = Ok a -> clean a = true -> g_other (r_body a) = 0 -> g_bound (r_body a) = 0 ->
       Forall (bucket_right pattern s') (g_buckets (r_body a))
       /\ (forall b m, b ∈ g_buckets (r_body a) -> bk_matches b = Some m -> pattern <> None)
       /\ (pattern <> None -> Forall (fun b => is_Some (bk_matches b)) (g_buckets (r_body a)))
       /\ NoDup (map bk_key (g_buckets (r_body a)))
       /\ (forall v, v ∈ revisions -> docs_where (is_chunk_of v) (visible s') <> [] ->
             v ∈ map bk_key (g_buckets (r_body a)));
  bulk_law items s : let '(r, s') := es_bulk items s in within items s s'
    /\ forall a, r = Ok a -> clean a = true -> br_errors (r_body a) = false ->
       length (br_statuses (r_body a)) = length items -> Forall (fun z => status_ok z = true) (br_statuses (r_body a)) ->
       stored s' = put_all items (stored s);
  refresh_law s : let '(r, s') := es_refresh s in reads_only s s'
    /\ forall a, r = Ok a -> clean a = true -> visible s' = stored s;
  put_law i d s : let '(r, s') := es_put i d s in within [(i, d)] s s'
    /\ forall a, r = Ok a -> clean a = true ->
       stored s' = <[i := d]> (stored s) /\ visible s' = <[i := d]> (stored s);
  delete_law q s : let '(r, s') := es_delete q s in within [] s s' }.

(** An index that answers every request fully, and keeps doing so. *)
Class HealthyLaws `{Elastic} := {
  healthy_mget ids s : healthy s -> exists a, (es_mget ids s).1 = Ok a /\ clean a = true /\ healthy (es_mget ids s).2;
  healthy_count q s : healthy s -> exists a, (es_count q s).1 = Ok a /\ clean a = true /\ healthy (es_count q s).2;
  healthy_search l p s : healthy s -> exists a, (es_search l p s).1 = Ok a /\ clean a = true
    /\ g_other (r_body a) = 0 /\ g_bound (r_body a) = 0 /\ healthy (es_search l p s).2;
  healthy_bulk l s : healthy s -> exists a, (es_bulk l s).1 = Ok a /\ clean a = true /\ br_errors (r_body a) = false
    /\ length (br_statuses (r_body a)) = length l /\ Forall (fun z => status_ok z = true) (br_statuses (r_body a))
    /\ healthy (es_bulk l s).2;
  healthy_refresh s : healthy s -> exists a, (es_refresh s).1 = Ok a /\ clean a = true /\ healthy (es_refresh s).2;
  healthy_put i d s : healthy s -> exists a, (es_put i d s).1 = Ok a /\ clean a = true /\ healthy (es_put i d s).2 }.

(** ** The process: the index, the table of positions, local failures *)

Record position := Position { po_offset : Z; po_chunks : Z; po_updatedAt : Z }.

Inductive ix_exn : Type :=
  | HttpxError
  | IxValueError (detail : string)
  | IxOSError
  | MissingMember (name : string).

Record world `{Elastic} := World {
  w_es : es;
  w_positions : gmap string position;
  w_io : list bool   (* whether the next local operations fail; then none does *) }.
Arguments World {_} _ _ _.
Arguments w_es {_} _.
Arguments w_positions {_} _.
Arguments w_io {_} _.

Section client.
Context `{Hashing, Elastic}.
Open Scope camera_scope.

Abbreviation run := (stm world ix_exn).

(** [checked] on the outcome of a request. *)
Definition request {A} (m : es -> result unit (reply A) * es) : run A := fun w =>
  let '(r, s) := m (w_es w) in
  (match r with
   | Raise _ => Raise HttpxError
   | Ok a => if clean a then Ok (r_body a) else Raise (IxValueError "Elasticsearch查询不完整")
   end, World s (w_positions w) (w_io w)).

(** A local operation: a file, or the table of positions. *)
Definition local_io : run unit := fun w =>
  match w_io w with
  | [] => (Ok tt, w)
  | fails :: rest => (if fails : bool then Raise IxOSError else Ok tt, World (w_es w) (w_positions w) rest)
  end.

(** [bulk]. *)
Definition bulk (documents : list (string * es_doc)) : run unit :=
  let! result_ := request (es_bulk documents) in
  if negb (length (br_statuses result_) =? length documents)%nat || br_errors result_
     || existsb (fun z => negb (status_ok z)) (br_statuses result_)
  then st_raise (IxValueError "Elasticsearch批量部分失败，检查点未推进")
  else st_ret tt.

(** [manifests]: by the `fileId` of the document, the last of equal ones. *)
Definition manifests (files : list part) : run (gmap string es_doc) :=
  let! docs := request (es_mget (map (fun f => manifest_id (fingerprint f)) files)) in
  st_ret (foldl (fun m d => match d with
                            | Some (ManifestDoc b _ _ _ _ _ _ _ as d) => <[db_fileId b := d]> m
                            | _ => m
                            end) ∅ docs).

(** `counts.get(revision)`: a dictionary keeps the last of equal keys. *)
Definition bucket_of (l : list bucket) (revision : string) : option bucket :=
  List.find (fun b => bool_decide (bk_key b = revision)) (rev l).

(** The evidence on one file, from its manifest and its bucket. *)
Definition file_answer (keyword_ : option (list Z)) (proof : gmap string es_doc) (buckets : list bucket) (f : part)
    : option answer :=
  match proof !! pt_id f with
  | Some (ManifestDoc b bytes_ chunks head_ tail_ newline _ _) =>
      let count := bucket_of buckets (fingerprint f) in
      if bool_decide (db_revision b = fingerprint f) && (bytes_ =? pt_bytes f)
         && (default 0 (bk_count <$> count) =? chunks)
      then Some (Answer (Some bytes_) (Some head_) (Some tail_) (Some newline)
                   (Some match keyword_ with
                         | None => true
                         | Some _ => 0 <? default 0 (c ← count; bk_matches c)
                         end))
      else None
  | _ => None
  end.

(** [evidence] of [client.py]. *)
Definition file_evidence (files : list part) (keyword_ : option (list Z)) : run (gmap string answer) :=
  let! proof := manifests files in
  let revisions := map fingerprint (filter (fun f => is_Some (proof !! pt_id f)) files) in
  match revisions with
  | [] => st_ret ∅
  | _ =>
    let! result_ := request (es_search revisions ((fun k => infix_pattern (take 3 k)) <$> keyword_)) in
    if negb (g_other result_ =? 0) || negb (g_bound result_ =? 0)
    then st_raise (IxValueError "Elasticsearch覆盖统计不完整")
    else st_ret (foldl (fun m f => match file_answer keyword_ proof (g_buckets result_) f with
                                   | Some a => <[pt_id f := a]> m
                                   | None => m
                                   end) ∅ files)
  end.

(** ** Positions ([Checkpoints]) *)

Definition get_position (revision : string) : run (Z * Z) :=
  let! _ := local_io in
  fun w => (Ok match w_positions w !! revision with Some p => (po_offset p, po_chunks p) | None => (0, 0) end, w).

Definition save_position (revision : string) (offset chunks : Z) (now : Z) : run unit :=
  let! _ := local_io in
  fun w => (Ok tt, World (w_es w) (<[revision := Position offset chunks now]> (w_positions w)) (w_io w)).

(** [prune]: `days + 1` days after the last change. *)
Definition prune_positions (days now : Z) : run unit :=
  let! _ := local_io in
  fun w => (Ok tt, World (w_es w)
     (filter (fun p => negb (po_updatedAt p.2 <? now - (days + 1) * US_PER_DAY) = true) (w_positions w)) (w_io w)).

(** ** [index_stream] *)

Definition or_empty (o : option string) : string := default "" o.

Definition base_of (f : part) : doc_base :=
  DocBase (pt_id f) (fingerprint f) (or_empty (pt_taskId f)) (or_empty (pt_resourceId f)) (or_empty (pt_nodeId f))
    (or_empty (pt_runId f)) (or_empty (pt_sessionId f)) (pt_hour f).

(** The variables of the reading loop; [s_read] is what the digest has seen. *)
Record pass := Pass {
  s_offset : Z; s_chunks : Z; s_read : bytes; s_head : bytes; s_tail : bytes; s_newline : bool;
  s_batch : list (string * es_doc); s_cursor : cursor }.

(** Sending a batch: confirm it, then remember the position. *)
Definition send_batch (revision : string) (now : Z) (s : pass) : run pass :=
  let! _ := bulk (s_batch s) in
  let! _ := save_position revision (s_offset s) (s_chunks s) now in
  st_ret (Pass (s_offset s) (s_chunks s) (s_read s) (s_head s) (s_tail s) (s_newline s) [] (s_cursor s)).

(** The variables after one more chunk, before the batch is looked at. *)
Definition take_chunk (f : part) (from now : Z) (data : bytes) (s : pass) : pass :=
  let revision := fingerprint f in
  let offset := s_offset s in
  let text := decode_replace (s_tail s ++ data) in
  let '(batch, cursor_) :=
    if from <=? offset then
      let '(entry, c) := locate offset (s_cursor s) in
      (s_batch s ++ [(chunk_id revision offset, ChunkDoc (base_of f) offset (zlen data) text (ie_received <$> entry) now)], c)
    else (s_batch s, s_cursor s) in
  Pass (offset + zlen data) (s_chunks s + 1) (s_read s ++ data)
    (if offset =? 0 then take OVERLAP data else s_head s)
    (last_n OVERLAP (s_tail s ++ data)) (s_newline s || bool_decide (LF ∈ data)) batch cursor_.

(** One round of the loop. *)
Definition index_chunk (f : part) (batch_chunks : nat) (from now : Z) (data : bytes) (s : pass) : run pass :=
  let! _ := local_io in
  let s := take_chunk f from now data s in
  if (batch_chunks <=? length (s_batch s))%nat then send_batch (fingerprint f) now s else st_ret s.

Fixpoint index_chunks (f : part) (batch_chunks : nat) (from now : Z) (reads : list bytes) (s : pass) : run pass :=
  match reads with
  | [] => st_ret s
  | data :: reads => let! s := index_chunk f batch_chunks from now data s in
                     index_chunks f batch_chunks from now reads s
  end.

(** The successive results of `stream.read(n)`. *)
Fixpoint reads_of (fuel n : nat) (stream : bytes) : list bytes :=
  match fuel, stream with
  | S fuel, _ :: _ => take n stream :: reads_of fuel n (drop n stream)
  | _, _ => []
  end.

(** Where the sending starts: the remembered position, if the index still counts
    its chunks. *)
Definition resume_from (revision : string) : run Z :=
  let! state := get_position revision in
  let! count := request (es_count (is_chunk_below revision state.1)) in
  st_ret (if count =? state.2 then state.1 else 0).

(** After the last chunk: the digest, the count, the manifest. *)
Definition publish_proof (f : part) (now : Z) (s : pass) : run bool :=
  let revision := fingerprint f in
  if negb (s_offset s =? pt_bytes f) || negb (bool_decide (pt_sha256 f = Some (sha256_hex (s_read s))))
     || bool_decide (pt_sha256 f = Some "")
  then st_raise (IxValueError "索引来源摘要不符，不发布覆盖证明")
  else
    let! _ := request es_refresh in
    let! actual := request (es_count (is_chunk_of revision)) in
    if negb (actual =? s_chunks s) then st_raise (IxValueError "索引分块数量不符")
    else
      let! _ := request (es_put (manifest_id revision)
        (ManifestDoc (base_of f) (s_offset s) (s_chunks s) (s_head s) (s_tail s) (s_newline s) now (pt_firstReceivedAt f))) in
      let! _ := save_position revision (s_offset s) (s_chunks s) now in
      st_ret true.

(** [index_stream]: [index] are the records of the byte index, none without it. *)
Definition index_stream (f : part) (index : list index_entry) (batch_chunks : nat) (stream : bytes) (size now : Z)
    : run bool :=
  let revision := fingerprint f in
  let! _ := local_io in
  let! known := file_evidence [f] None in
  if bool_decide (known <> ∅) then st_ret false
  else
    let! from := resume_from revision in
    let! _ := local_io in
    if negb (size =? pt_bytes f) then st_raise (IxValueError "已封存文件水位不一致")
    else
      let! s := index_chunks f batch_chunks from now (reads_of (length stream) CHUNK_BYTES stream)
                  (Pass 0 0 [] [] [] false [] (new_cursor index)) in
      let! s := match s_batch s with [] => st_ret s | _ => send_batch revision now s end in
      publish_proof f now s.

(** ** Removal *)

(** [cleanup]: the positions, then the documents of the node older than the hot
    window. *)
Definition cleanup (node : string) (days cutoff now : Z) : run unit :=
  let! _ := prune_positions days now in
  request (es_delete (fun d => bool_decide (db_nodeId (doc_of d) = node) && (db_hour (doc_of d) <? cutoff))).

(** [delete_files]. *)
Definition delete_files (node : string) (identifiers : list string) : run unit :=
  request (es_delete (fun d => bool_decide (db_nodeId (doc_of d) = node)
                               && bool_decide (db_fileId (doc_of d) ∈ identifiers))).

(** ** Queries ([query.py]) *)

(** [fetch_evidence]: batches of 128 files; [stop] is the number of batches before
    the deadline or the stop event ends the loop. *)
Fixpoint fetch_evidence (fuel stop : nat) (files : list part) (keyword_ : option (list Z)) (found : gmap string answer)
    : run (gmap string answer) :=
  match fuel, stop, files with
  | S fuel, S stop, _ :: _ =>
      let! more := file_evidence (take 128 files) keyword_ in
      fetch_evidence fuel stop (drop 128 files) keyword_ (more ∪ found)
  | _, _, _ => st_ret found
  end.

Inductive index_status := Disabled | Available | Unavailable.

(** [query_evidence]: any failure, or the timeout, is no evidence. *)
Definition query_evidence (enabled : bool) (timed_out : bool) (stop : nat) (files : list part)
    (keyword_ : option (list Z)) (w : world) : gmap string answer * index_status * world :=
  if negb enabled then (∅, Disabled, w)
  else
    let ready := filter (fun f => pt_status f = Some "READY" /\ default "" (pt_sha256 f) <> "") files in
    match ready with
    | [] => (∅, Available, w)
    | _ => match fetch_evidence (length ready) stop ready keyword_ ∅ w with
           | (Ok found, w) => if timed_out then (∅, Unavailable, w) else (found, Available, w)
           | (Raise _, w) => (∅, Unavailable, w)
           end
    end.
End client.

(** ** Facts on chunks *)

Lemma chunk_long : (OVERLAP <= CHUNK_BYTES)%nat.
Proof. apply Nat.leb_le. by vm_compute. Qed.

#[global] Opaque CHUNK_BYTES.

(** The chunk number [k] of a content and the bytes its text comes from. *)
Definition chunk_of (body : bytes) (k : nat) : bytes := take CHUNK_BYTES (drop (k * CHUNK_BYTES) body).
Definition window_of (body : bytes) (k : nat) : bytes := last_n OVERLAP (take (k * CHUNK_BYTES) body) ++ chunk_of body k.
Definition chunk_count (body : bytes) : nat := length (reads_of (length body) CHUNK_BYTES body).

Lemma reads_lookup fuel n stream k : (0 < n)%nat -> (length stream <= fuel)%nat ->
  reads_of fuel n stream !! k
  = if decide (k * n < length stream)%nat then Some (take n (drop (k * n) stream)) else None.
Proof.
  intros Hn. revert stream k. induction fuel as [|fuel IH]; intros stream k Hf.
  { destruct stream; [|cbn in Hf; lia]. cbn. by rewrite decide_False by lia. }
  destruct stream as [|x stream]; [cbn; by rewrite decide_False by lia|].
  set (l := x :: stream) in *. assert (Hl : (0 < length l)%nat) by (subst l; cbn; lia).
  change (reads_of (S fuel) n l) with (take n l :: reads_of fuel n (drop n l)).
  destruct k as [|k]; [cbn [lookup list_lookup]; rewrite decide_True by (cbn; lia); by rewrite Nat.mul_0_l, drop_0|].
  cbn [lookup list_lookup]. rewrite IH by (rewrite length_drop; lia). rewrite length_drop, drop_drop.
  replace (n + k * n)%nat with (S k * n)%nat by lia.
  destruct (decide (S k * n < length l)%nat); [rewrite decide_True by lia|rewrite decide_False by lia]; done.
Qed.

Lemma chunk_lookup body k :
  reads_of (length body) CHUNK_BYTES body !! k
  = if decide (k * CHUNK_BYTES < length body)%nat then Some (chunk_of body k) else None.
Proof. apply reads_lookup; [pose proof chunk_long; unfold OVERLAP in *; lia|done]. Qed.

Lemma chunk_count_spec body k : (k < chunk_count body <-> k * CHUNK_BYTES < length body)%nat.
Proof.
  unfold chunk_count. rewrite <- lookup_lt_is_Some, chunk_lookup.
  destruct (decide _) as [Hd|Hd]; [by split; [|by eexists]|by split; [intros [? ?]|]].
Qed.

Lemma take_chunk_of body k : take (S k * CHUNK_BYTES) body = take (k * CHUNK_BYTES) body ++ chunk_of body k.
Proof. unfold chunk_of. rewrite take_take_drop. f_equal. lia. Qed.

(** The bytes under a short string lie in the window of the chunk of its end. *)
Lemma window_covers body p i : p <> [] -> (length p <= OVERLAP)%nat -> occurs p body i ->
  exists k x y, (k < chunk_count body)%nat /\ window_of body k = x ++ p ++ y.
Proof.
  intros Hne Hlen Ho. pose proof (occurs_length _ _ _ Hne Ho) as Hend. pose proof chunk_long as Hlong.
  assert (Hp : (0 < length p)%nat) by (destruct p; [done|cbn; lia]).
  set (n := CHUNK_BYTES) in *. unfold OVERLAP in *.
  set (j := (i + length p - 1)%nat). set (k := (j / n)%nat).
  assert (Hk : (k * n <= j < k * n + n)%nat).
  { subst k. pose proof (Nat.div_mod j n ltac:(lia)). pose proof (Nat.mod_upper_bound j n ltac:(lia)). lia. }
  assert (Hc : (k < chunk_count body)%nat) by (apply chunk_count_spec; fold n; lia).
  set (a := (k * n - 16)%nat).
  assert (Hw : window_of body k = take (k * n - a + n) (drop a body)).
  { unfold window_of, chunk_of, last_n, OVERLAP. fold n. rewrite length_take.
    replace (Nat.min (k * n) (length body) - 16)%nat with a by lia.
    replace (k * n)%nat with (a + (k * n - a))%nat at 1 2 by lia.
    rewrite <- take_drop_commute, <- drop_drop, take_take_drop. done. }
  apply starts_with_spec in Ho as [r Hr].
  exists k, (take (i - a) (drop a body)).
  exists (drop (length p + (i - a)) (take (k * n - a + n) (drop a body))).
  split; [done|]. rewrite Hw.
  rewrite <- (take_drop (i - a) (take (k * n - a + n) (drop a body))) at 1. rewrite take_take, Nat.min_l by lia.
  f_equal. set (t := take (k * n - a + n) (drop a body)). rewrite <- (take_drop (length p) (drop (i - a) t)).
  rewrite drop_drop. f_equal; [|by rewrite Nat.add_comm].
  subst t. rewrite skipn_firstn_comm, take_take, drop_drop. replace (a + (i - a))%nat with i by lia.
  rewrite Hr, take_app_le, firstn_all2; [done| |]; lia.
Qed.

(** ** What is in the index *)

Section faithful.
Context `{Hashing, Elastic, !ElasticLaws}.
Open Scope camera_scope.

(** The bytes of every revision: sealed parts do not change. *)
Variable body : string -> bytes.

(** A document tells the truth about its revision. *)
Definition faithful (i : string) (d : es_doc) : Prop :=
  let B := body (db_revision (doc_of d)) in
  match d with
  | ChunkDoc b offset length_ text _ _ => exists k, (k < chunk_count B)%nat
      /\ offset = Z.of_nat (k * CHUNK_BYTES) /\ i = chunk_id (db_revision b) offset
      /\ length_ = zlen (chunk_of B k) /\ text = decode_replace (window_of B k)
  | ManifestDoc b bytes_ chunks head_ tail_ newline _ _ =>
      i = manifest_id (db_revision b) /\
      bytes_ = zlen B /\ chunks = Z.of_nat (chunk_count B) /\ head_ = take OVERLAP B /\ tail_ = last_n OVERLAP B
      /\ newline = bool_decide (LF ∈ B)
  end.

Definition docs_faithful (s : es) : Prop :=
  forall i d, stored s !! i = Some d \/ visible s !! i = Some d -> faithful i d.

Lemma reads_only_faithful s s' : reads_only s s' -> docs_faithful s -> docs_faithful s'.
Proof.
  intros [Hs Hv] Hf i d Hd. rewrite Hs in Hd. destruct Hd as [Hd|Hd]; [by apply Hf; left|].
  destruct Hv as [Hv|Hv]; rewrite Hv in Hd; apply Hf; auto.
Qed.

Lemma within_faithful items s s' : within items s s' -> Forall (fun p => faithful p.1 p.2) items ->
  docs_faithful s -> docs_faithful s'.
Proof.
  intros Hw Hi Hf i d Hd. apply Hw in Hd as [Hd|[Hd|Hd]]; [apply Hf; by left|apply Hf; by right|].
  by apply (proj1 (Forall_forall _ _) Hi (i, d)).
Qed.

(** A remembered position is the end of its chunks. *)
Definition position_right (v : string) (offset chunks : Z) : Prop :=
  exists k, (k <= chunk_count (body v))%nat /\ chunks = Z.of_nat k
    /\ offset = zlen (take (k * CHUNK_BYTES) (body v)).

Definition sound (w : world) : Prop :=
  docs_faithful (w_es w)
  /\ forall v p, w_positions w !! v = Some p -> position_right v (po_offset p) (po_chunks p).

(** [m] keeps the state sound and its answer satisfies [Q]. *)
Definition ensures {A} (m : stm world ix_exn A) (Q : A -> Prop) : Prop :=
  forall w, sound w -> sound (m w).2 /\ forall a, (m w).1 = Ok a -> Q a.

Lemma ensures_ret {A} (a : A) (Q : A -> Prop) : Q a -> ensures (st_ret a) Q.
Proof. intros Hq w Hw. split; [done|]. by intros ? [= <-]. Qed.

Lemma ensures_raise {A} e (Q : A -> Prop) : ensures (st_raise e) Q.
Proof. intros w Hw. by split. Qed.

Lemma ensures_bind {A B} (m : stm world ix_exn A) (f : A -> stm world ix_exn B) Q R :
  ensures m Q -> (forall a, Q a -> ensures (f a) R) -> ensures (st_bind m f) R.
Proof.
  intros Hm Hf w Hw. destruct (Hm w Hw) as [Hk Hq]. unfold st_bind. destruct (m w) as [[a|e] w']; cbn in *; [|done].
  by apply Hf; [apply Hq|].
Qed.

Lemma ensures_weaken {A} (m : stm world ix_exn A) (Q R : A -> Prop) :
  ensures m Q -> (forall a, Q a -> R a) -> ensures m R.
Proof. intros Hm Hr w Hw. destruct (Hm w Hw) as [Hk Hq]. split; [done|]. intros a Ha. by apply Hr, Hq. Qed.

Lemma ensures_request {A} (m : es -> result unit (reply A) * es) (Q : A -> Prop) :
  (forall s, docs_faithful s -> docs_faithful (m s).2 /\ forall a, (m s).1 = Ok a -> clean a = true -> Q (r_body a)) ->
  ensures (request m) Q.
Proof.
  intros Hm w [Hw Hp]. destruct (Hm (w_es w) Hw) as [Hk Hq]. unfold request.
  destruct (m (w_es w)) as [[a|e] s]; cbn in *; [|done]. split; [done|].
  destruct (clean a) eqn:Ec; [|done]. intros ? [= <-]. by apply Hq.
Qed.

Lemma ensures_io : ensures local_io (fun _ => True).
Proof. intros [s p [|[] io]] Hw; by split. Qed.

Lemma ensures_get v : ensures (get_position v) (fun a => position_right v a.1 a.2).
Proof.
  eapply ensures_bind; [apply ensures_io|]. intros _ _ w Hw. split; [done|]. cbn. intros ? [= <-].
  destruct (w_positions w !! v) as [p|] eqn:Ep; [by apply Hw|]. exists 0%nat. cbn. split_and!; [lia|done|done].
Qed.

Lemma ensures_save v o c now : position_right v o c -> ensures (save_position v o c now) (fun _ => True).
Proof.
  intros Hr. eapply ensures_bind; [apply ensures_io|]. intros _ _ w [Hd Hp]. split; [|done]. split; [done|].
  cbn. intros v' p [[<- <-]|[Hv Hl]]%lookup_insert_Some; [done|by apply Hp].
Qed.

Lemma ensures_prune days now : ensures (prune_positions days now) (fun _ => True).
Proof.
  eapply ensures_bind; [apply ensures_io|]. intros _ _ w [Hd Hp]. split; [|done]. split; [done|].
  cbn. intros v p [Hl _]%map_lookup_filter_Some. by apply Hp.
Qed.

Lemma ensures_mget ids :
  ensures (request (es_mget ids)) (Forall (fun o => forall d, o = Some d -> exists i, faithful i d)).
Proof.
  apply ensures_request. intros s Hs. pose proof (mget_law ids s) as Hl. destruct (es_mget ids s) as [r s'].
  destruct Hl as [Hro Hb]. split; [by eapply reads_only_faithful|]. cbn. intros a Ha Hc. rewrite (Hb a Ha Hc).
  apply Forall_forall. intros o (i & -> & Hi)%list_elem_of_fmap d Hd. exists i. apply Hs. by left.
Qed.

Lemma ensures_count q : ensures (request (es_count q)) (fun _ => True).
Proof.
  apply ensures_request. intros s Hs. pose proof (count_law q s) as Hl. destruct (es_count q s) as [r s'].
  destruct Hl as [Hro Hb]. split; [by eapply reads_only_faithful|done].
Qed.

Lemma ensures_search l p : ensures (request (es_search l p)) (fun g => g_other g = 0 -> g_bound g = 0 ->
  Forall (fun b => exists s, docs_faithful s /\ bucket_right p s b) (g_buckets g)
  /\ (p <> None -> Forall (fun b => is_Some (bk_matches b)) (g_buckets g))).
Proof.
  apply ensures_request. intros s Hs. pose proof (search_law l p s) as Hl. destruct (es_search l p s) as [r s'].
  destruct Hl as [Hro Hb]. assert (Hs' : docs_faithful s') by by eapply reads_only_faithful.
  split; [done|]. cbn. intros a Ha Hc Ho Hd. destruct (Hb a Ha Hc Ho Hd) as (Hf & _ & Hm & _).
  split; [|done]. eapply Forall_impl; [exact Hf|]. intros b Hr. by exists s'.
Qed.

Lemma ensures_bulk items : Forall (fun p => faithful p.1 p.2) items -> ensures (bulk items) (fun _ => True).
Proof.
  intros Hi. unfold bulk. eapply (ensures_bind _ _ (fun _ => True)).
  - apply ensures_request. intros s Hs. pose proof (bulk_law items s) as Hl. destruct (es_bulk items s) as [r s'].
    destruct Hl as [Hw _]. split; [by eapply within_faithful|done].
  - intros a _. case_match; [apply ensures_raise|by apply ensures_ret].
Qed.

Lemma ensures_refresh : ensures (request es_refresh) (fun _ => True).
Proof.
  apply ensures_request. intros s Hs. pose proof (refresh_law s) as Hl. destruct (es_refresh s) as [r s'].
  destruct Hl as [Hro Hb]. split; [by eapply reads_only_faithful|done].
Qed.

Lemma ensures_put i d : faithful i d -> ensures (request (es_put i d)) (fun _ => True).
Proof.
  intros Hd. apply ensures_request. intros s Hs. pose proof (put_law i d s) as Hl. destruct (es_put i d s) as [r s'].
  destruct Hl as [Hw _]. split; [|done]. eapply within_faithful; [exact Hw| |done]. by apply Forall_singleton.
Qed.

Lemma ensures_delete q : ensures (request (es_delete q)) (fun _ => True).
Proof.
  apply ensures_request. intros s Hs. pose proof (delete_law q s) as Hl. destruct (es_delete q s) as [r s'].
  split; [|done]. by eapply within_faithful.
Qed.

(** ** A counted revision is complete *)

Lemma counted_chunks s v k : docs_faithful s ->
  zlen (docs_where (is_chunk_of v) (visible s)) = Z.of_nat (chunk_count (body v)) -> (k < chunk_count (body v))%nat ->
  exists i d, visible s !! i = Some d /\ is_chunk_of v d = true /\ text_of_doc d = decode_replace (window_of (body v) k).
Proof.
  intros Hs Hcount Hk. set (L := docs_where (is_chunk_of v) (visible s)) in *.
  pose proof chunk_long as Hlong. unfold OVERLAP in Hlong.
  set (number := fun p : string * es_doc => match p.2 with ChunkDoc _ o _ _ _ _ => o | _ => -1 end).
  assert (HL : forall p, p ∈ L -> exists j, (j < chunk_count (body v))%nat /\ number p = Z.of_nat (j * CHUNK_BYTES)
             /\ p.1 = chunk_id v (number p) /\ visible s !! p.1 = Some p.2 /\ is_chunk_of v p.2 = true
             /\ text_of_doc p.2 = decode_replace (window_of (body v) j)).
  { intros [i d] Hp. subst L. apply list_elem_of_filter in Hp as [Hd Hp]. cbn in Hd. apply elem_of_map_to_list in Hp.
    pose proof (Hs i d (or_intror Hp)) as Hf. destruct d as [b o n t rc ia|]; [|done]. cbn in Hd.
    apply bool_decide_eq_true in Hd. destruct Hf as (j & Hj & Ho & Hi & _ & Ht). cbn in *. subst v.
    exists j. split_and!; try done. by rewrite bool_decide_eq_true_2. }
  assert (Hnd : NoDup (map number L)).
  { apply NoDup_fmap_2_strong.
    - intros p q Hp Hq E. destruct (HL p Hp) as (? & _ & _ & Hip & Hvp & _), (HL q Hq) as (? & _ & _ & Hiq & Hvq & _).
      rewrite E, <- Hiq in Hip. rewrite Hip, Hvq in Hvp. destruct p, q; cbn in *. congruence.
    - apply NoDup_filter, NoDup_map_to_list. }
  set (T := map (fun j => Z.of_nat (j * CHUNK_BYTES)) (seq 0 (chunk_count (body v)))).
  assert (Hsub : map number L ⊆+ T).
  { apply NoDup_submseteq; [done|]. intros z (p & -> & Hp)%list_elem_of_fmap.
    destruct (HL p Hp) as (j & Hj & -> & _). apply list_elem_of_fmap. exists j. split; [done|].
    apply elem_of_seq. lia. }
  assert (Hperm : map number L ≡ₚ T).
  { apply submseteq_length_Permutation; [done|]. subst T. rewrite !length_map, length_seq. unfold zlen in Hcount. lia. }
  assert (Hin : Z.of_nat (k * CHUNK_BYTES) ∈ map number L).
  { rewrite Hperm. apply list_elem_of_fmap. exists k. split; [done|]. apply elem_of_seq. lia. }
  apply list_elem_of_fmap in Hin as (p & Hkp & Hp). destruct (HL p Hp) as (j & _ & Hj & _ & Hv & Hc & Ht).
  exists p.1, p.2. split_and!; try done. rewrite Ht. do 2 f_equal.
  rewrite Hj in Hkp. apply Nat2Z.inj in Hkp. by apply Nat.mul_cancel_r in Hkp; [|lia].
Qed.

(** ** An answer is truthful *)

(** The fields of an answer as the planner reads them. *)
Definition plan_of (f : part) : plan_file := PlanFile (Some (pt_id f)) (pt_status f) (Some (pt_bytes f)).

Lemma bucket_of_in l v b : bucket_of l v = Some b -> b ∈ l /\ bk_key b = v.
Proof.
  unfold bucket_of. intros [Hin Hk]%List.find_some. apply bool_decide_eq_true in Hk. split; [|done].
  apply in_rev in Hin. by apply list_elem_of_In.
Qed.

Lemma file_answer_truthful keyword_ proof buckets f a e prefix :
  (forall i d, proof !! i = Some d -> exists j, faithful j d) ->
  Forall (fun b => exists s, docs_faithful s /\ bucket_right ((fun k => infix_pattern (take 3 k)) <$> keyword_) s b) buckets ->
  (keyword_ <> None -> Forall (fun b => is_Some (bk_matches b)) buckets) ->
  file_answer keyword_ proof buckets f = Some a -> _evidence (plan_of f) (Some a) = Some e ->
  (keyword_ = None \/ exists k, keyword_ = Some k /\ encode (take 3 k) = Some prefix /\ take 3 k <> []
     /\ prefix <> [] /\ (length prefix <= OVERLAP)%nat) ->
  truthful prefix (body (fingerprint f)) e.
Proof.
  intros Hproof Hb Hm Ha He Hkw. unfold file_answer in Ha.
  destruct (proof !! pt_id f) as [[|b bytes_ chunks head_ tail_ nl ia rc]|] eqn:Ep; try done.
  destruct (Hproof _ _ Ep) as (j & _ & Hbytes & Hchunks & Hhead & Htail & Hnl). cbn [doc_of] in *.
  destruct (_ && _) eqn:Eg in Ha; [|done]. injection Ha as <-. breflect.
  match goal with E : db_revision b = _ |- _ => rewrite E in * end.
  assert (Hev : e = Evidence bytes_ head_ tail_ nl
     (match keyword_ with None => true | Some _ => 0 <? default 0 (bucket_of buckets (fingerprint f) ≫= bk_matches) end)).
  { revert He. unfold _evidence. cbn. repeat case_match; try done; by intros [= <-]. }
  subst e. clear He. split; cbn [e_head e_tail e_newline e_bytes e_may].
  - exists [body (fingerprint f)]. cbn [concat]. rewrite app_nil_r. split; [done|].
    rewrite member_summary_spec. cbn [concat]. rewrite app_nil_r.
    by rewrite Hbytes, Hhead, Htail, Hnl.
  - intros Hmay i Ho. destruct Hkw as [->|(k & -> & Henc & Hne & Hpne & Hlen)]; [done|].
    destruct (window_covers _ _ _ Hpne Hlen Ho) as (c & x & y & Hc & Hw).
    destruct (bucket_of buckets (fingerprint f)) as [bk|] eqn:Eb; cbn in Hmay.
    + apply bucket_of_in in Eb as [Hbin Hkey].
      destruct (proj1 (Forall_forall _ _) Hb bk Hbin) as (s & Hs & Hcount & _ & Hneg).
      destruct (proj1 (Forall_forall _ _) (Hm ltac:(done)) bk Hbin) as [m Hmm].
      cbn [fmap option_fmap option_map from_option] in *. rewrite Hmm in Hmay. cbn in Hmay. breflect. rewrite Hkey in *.
      destruct (counted_chunks s (fingerprint f) c Hs) as (ci & d & Hv & Hcd & Ht); [unfold Datatypes.id in *; congruence|done|].
      apply (Hneg _ m eq_refl Hmm ltac:(lia) ci d Hv Hcd). rewrite Ht, Hw.
      destruct (decode_replace_infix (take 3 k) prefix x y Hne Henc) as (dx & dy & ->). apply infix_matches.
    + cbn in *. lia.
Qed.

(** ** The operations *)

Definition answer_right (keyword_ : option (list Z)) (f : part) (a : answer) : Prop :=
  forall e prefix, _evidence (plan_of f) (Some a) = Some e ->
    (keyword_ = None \/ exists k, keyword_ = Some k /\ encode (take 3 k) = Some prefix /\ take 3 k <> []
       /\ prefix <> [] /\ (length prefix <= OVERLAP)%nat) ->
    truthful prefix (body (fingerprint f)) e.

Definition answers_right (keyword_ : option (list Z)) (files : list part) (m : gmap string answer) : Prop :=
  forall i a, m !! i = Some a -> exists f, f ∈ files /\ pt_id f = i /\ answer_right keyword_ f a.

Lemma ensures_manifests files :
  ensures (manifests files) (fun m => forall i d, m !! i = Some d -> exists j, faithful j d).
Proof.
  eapply ensures_bind; [apply ensures_mget|]. cbn beta. intros docs Hd. apply ensures_ret.
  assert (Hgen : forall m : gmap string es_doc, (forall i d, m !! i = Some d -> exists j, faithful j d) ->
    forall i d, foldl (fun m d => match d with
                            | Some (ManifestDoc b _ _ _ _ _ _ _ as d) => <[db_fileId b := d]> m
                            | _ => m
                            end) m docs !! i = Some d -> exists j, faithful j d); [|apply Hgen; by intros ? ? ?%lookup_empty_Some].
  induction Hd as [|o docs Ho Hd IH]; intros m Hm; [done|]. cbn [foldl]. apply IH.
  destruct o as [[|b n c h t nl ia rc]|]; try done.
  intros i d [[_ <-]|[_ Hl]]%lookup_insert_Some; [by apply Ho|by eapply Hm].
Qed.

Lemma ensures_evidence files keyword_ : ensures (file_evidence files keyword_) (answers_right keyword_ files).
Proof.
  unfold file_evidence. eapply ensures_bind; [apply ensures_manifests|]. cbn beta. intros proof Hproof.
  case_match; [by apply ensures_ret; intros ? ? ?%lookup_empty_Some|].
  eapply ensures_bind; [apply ensures_search|]. cbn beta. intros g Hg.
  destruct (negb _ || _) eqn:Eg; [apply ensures_raise|]. breflect. destruct Hg as [Hb Hm]; [done|done|].
  apply ensures_ret.
  assert (Hgen : forall l m, answers_right keyword_ files m -> (forall f, f ∈ l -> f ∈ files) ->
    answers_right keyword_ files (foldl (fun m f => match file_answer keyword_ proof (g_buckets g) f with
                                   | Some a => <[pt_id f := a]> m
                                   | None => m
                                   end) m l)); [|apply Hgen; [by intros ? ? ?%lookup_empty_Some|done]].
  intros fl. induction fl as [|f fl IH]; intros m Hmm Hin; [done|]. cbn [foldl].
  apply IH; [|intros g' Hg'; apply Hin; by right].
  destruct (file_answer _ _ _ f) as [a|] eqn:Ea; [|done].
  intros i a' [[<- <-]|[_ Hl]]%lookup_insert_Some; [|by apply Hmm].
  exists f. split_and!; [apply Hin; by left|done|]. intros e prefix He Hk.
  eapply file_answer_truthful; eauto. intros Hne. apply Hm. by destruct keyword_.
Qed.

(** The variables after [k] chunks of a part. *)
Record pass_at (f : part) (k : nat) (s : pass) : Prop := {
  pa_offset : s_offset s = zlen (take (k * CHUNK_BYTES) (body (fingerprint f)));
  pa_chunks : s_chunks s = Z.of_nat k;
  pa_read : s_read s = take (k * CHUNK_BYTES) (body (fingerprint f));
  pa_head : s_head s = if (k =? 0)%nat then [] else take OVERLAP (body (fingerprint f));
  pa_tail : s_tail s = last_n OVERLAP (take (k * CHUNK_BYTES) (body (fingerprint f)));
  pa_newline : s_newline s = bool_decide (LF ∈ take (k * CHUNK_BYTES) (body (fingerprint f)));
  pa_batch : Forall (fun p => faithful p.1 p.2) (s_batch s) }.

Lemma zlen_take_before v k : (k < chunk_count (body v))%nat ->
  zlen (take (k * CHUNK_BYTES) (body v)) = Z.of_nat (k * CHUNK_BYTES).
Proof. intros Hk%chunk_count_spec. unfold zlen. rewrite length_take. lia. Qed.

Lemma take_chunk_at f from now k s : pass_at f k s -> (k < chunk_count (body (fingerprint f)))%nat ->
  pass_at f (S k) (take_chunk f from now (chunk_of (body (fingerprint f)) k) s).
Proof.
  intros Hs Hk. set (B := body (fingerprint f)) in *.
  pose proof (zlen_take_before _ _ Hk) as Ho. fold B in Ho. pose proof (pa_offset _ _ _ Hs) as Hof. fold B in Hof.
  assert (Hnew : faithful (chunk_id (fingerprint f) (s_offset s))
    (ChunkDoc (base_of f) (s_offset s) (zlen (chunk_of B k)) (decode_replace (s_tail s ++ chunk_of B k))
       (ie_received <$> (locate (s_offset s) (s_cursor s)).1) now)).
  { exists k. cbn [doc_of base_of db_revision]. split_and!; try done; [by rewrite Hof|].
    by rewrite (pa_tail _ _ _ Hs). }
  unfold take_chunk. destruct (locate (s_offset s) (s_cursor s)) as [entry c] eqn:El. cbn [fst] in Hnew.
  destruct (if from <=? s_offset s then _ else _) as [batch cur] eqn:Eb.
  assert (Hbatch : Forall (fun p => faithful p.1 p.2) batch).
  { destruct (from <=? s_offset s); injection Eb as <- <-; [|by apply Hs]. apply Forall_app. split; [by apply Hs|].
    by apply Forall_singleton. }
  pose proof (take_chunk_of B k) as HS. split; cbn [s_offset s_chunks s_read s_head s_tail s_newline s_batch]; fold B.
  - rewrite HS, zlen_app. by rewrite Hof.
  - rewrite (pa_chunks _ _ _ Hs). lia.
  - by rewrite HS, (pa_read _ _ _ Hs).
  - cbn [Nat.eqb]. rewrite Hof, Ho, (pa_head _ _ _ Hs). pose proof chunk_long as Hl.
    destruct k as [|k]; cbn [Nat.eqb].
    + cbn [Z.of_nat Nat.mul Z.eqb]. unfold chunk_of. by rewrite Nat.mul_0_l, drop_0, take_take, Nat.min_l.
    + rewrite (proj2 (Z.eqb_neq _ _)); [done|]. unfold OVERLAP in Hl. lia.
  - rewrite HS, (pa_tail _ _ _ Hs). apply last_n_app. done.
  - rewrite HS, (pa_newline _ _ _ Hs). fold B. apply eq_bool_prop_intro. by rewrite orb_True, !bool_decide_spec, elem_of_app.
  - done.
Qed.

Lemma pass_at_position f k s : pass_at f k s -> (k <= chunk_count (body (fingerprint f)))%nat ->
  position_right (fingerprint f) (s_offset s) (s_chunks s).
Proof. intros Hs Hk. exists k. split_and!; [done|by apply Hs|by apply Hs]. Qed.

Lemma ensures_send f now k s : pass_at f k s -> (k <= chunk_count (body (fingerprint f)))%nat ->
  ensures (send_batch (fingerprint f) now s) (pass_at f k).
Proof.
  intros Hs Hk. eapply ensures_bind; [apply ensures_bulk, Hs|]. intros _ _.
  eapply ensures_bind; [apply ensures_save; by eapply pass_at_position|]. intros _ _. apply ensures_ret.
  destruct Hs. by split.
Qed.

Lemma ensures_index_chunk f batch_chunks from now k s : pass_at f k s -> (k < chunk_count (body (fingerprint f)))%nat ->
  ensures (index_chunk f batch_chunks from now (chunk_of (body (fingerprint f)) k) s) (pass_at f (S k)).
Proof.
  intros Hs Hk. eapply ensures_bind; [apply ensures_io|]. intros _ _. cbn zeta.
  pose proof (take_chunk_at f from now k s Hs Hk) as Ht. case_match; [apply ensures_send; [done|lia]|by apply ensures_ret].
Qed.

Lemma ensures_index_chunks f batch_chunks from now k reads s :
  reads = drop k (reads_of (length (body (fingerprint f))) CHUNK_BYTES (body (fingerprint f))) ->
  (k <= chunk_count (body (fingerprint f)))%nat -> pass_at f k s ->
  ensures (index_chunks f batch_chunks from now reads s) (pass_at f (chunk_count (body (fingerprint f)))).
Proof.
  revert k s. induction reads as [|data reads IH]; intros k s Hr Hk Hs; cbn [index_chunks].
  - apply ensures_ret. assert (Hl : (chunk_count (body (fingerprint f)) <= k)%nat).
    { unfold chunk_count. apply (f_equal length) in Hr. rewrite length_drop in Hr. cbn in Hr. lia. }
    by replace (chunk_count _) with k by lia.
  - assert (Hlook : reads_of (length (body (fingerprint f))) CHUNK_BYTES (body (fingerprint f)) !! k = Some data).
    { rewrite <- (Nat.add_0_r k), <- lookup_drop, <- Hr. done. }
    assert (Hk' : (k < chunk_count (body (fingerprint f)))%nat) by (by eapply lookup_lt_Some).
    rewrite chunk_lookup in Hlook. case_decide; [|done]. injection Hlook as <-.
    eapply ensures_bind; [by apply ensures_index_chunk|]. cbn beta. intros s' Hs'.
    apply (IH (S k)); [|lia|done]. replace (S k) with (k + 1)%nat by lia. by rewrite <- drop_drop, <- Hr.
Qed.

Lemma manifest_faithful f s now rc : pass_at f (chunk_count (body (fingerprint f))) s -> s_offset s = pt_bytes f ->
  faithful (manifest_id (fingerprint f))
    (ManifestDoc (base_of f) (s_offset s) (s_chunks s) (s_head s) (s_tail s) (s_newline s) now rc).
Proof.
  intros Hs Ho. set (B := body (fingerprint f)) in *.
  assert (Hall : take (chunk_count B * CHUNK_BYTES) B = B).
  { apply take_ge. pose proof (chunk_count_spec B (chunk_count B)). lia. }
  cbn [faithful doc_of base_of db_revision]. fold B.
  rewrite (pa_offset _ _ _ Hs), (pa_chunks _ _ _ Hs), (pa_head _ _ _ Hs), (pa_tail _ _ _ Hs), (pa_newline _ _ _ Hs).
  fold B. rewrite Hall. split_and!; try done. destruct (chunk_count B) eqn:Ec; [|done]. cbn in Hall. by rewrite <- Hall.
Qed.

Lemma ensures_publish f now s : pass_at f (chunk_count (body (fingerprint f))) s ->
  ensures (publish_proof f now s) (fun _ => True).
Proof.
  intros Hs. unfold publish_proof. cbn zeta. destruct (_ || _) eqn:Eg; [apply ensures_raise|]. breflect.
  eapply ensures_bind; [apply ensures_refresh|]. intros _ _.
  eapply ensures_bind; [apply ensures_count|]. intros actual _. case_match; [apply ensures_raise|].
  eapply ensures_bind; [apply ensures_put, manifest_faithful; done|]. intros _ _.
  eapply ensures_bind; [apply ensures_save; by eapply pass_at_position|]. intros _ _. by apply ensures_ret.
Qed.

Lemma pass_at_start f index : pass_at f 0 (Pass 0 0 [] [] [] false [] (new_cursor index)).
Proof. by split. Qed.

Lemma ensures_resume v : ensures (resume_from v) (fun from => exists k, (k <= chunk_count (body v))%nat
  /\ from = zlen (take (k * CHUNK_BYTES) (body v))).
Proof.
  eapply ensures_bind; [apply ensures_get|]. cbn beta. intros [o c] Hp.
  eapply ensures_bind; [apply ensures_count|]. intros n _. apply ensures_ret. cbn [fst snd] in *.
  destruct (n =? c); [|exists 0%nat; cbn; split; [lia|done]]. destruct Hp as (k & Hk & _ & ->). by exists k.
Qed.

Lemma ensures_index f index batch_chunks size now :
  ensures (index_stream f index batch_chunks (body (fingerprint f)) size now) (fun _ => True).
Proof.
  unfold index_stream. eapply ensures_bind; [apply ensures_io|]. intros _ _.
  eapply ensures_bind; [apply ensures_evidence|]. cbn beta. intros known _.
  case_match; [by apply ensures_ret|].
  eapply ensures_bind; [apply ensures_resume|]. intros from _.
  eapply ensures_bind; [apply ensures_io|]. intros _ _. case_match; [apply ensures_raise|].
  eapply ensures_bind; [apply (ensures_index_chunks _ _ _ _ 0); [done|lia|apply pass_at_start]|]. cbn beta. intros s Hs.
  eapply (ensures_bind _ _ (pass_at f (chunk_count (body (fingerprint f))))).
  - case_match; [by apply ensures_ret|by apply ensures_send].
  - cbn beta. intros s' Hs'. by apply ensures_publish.
Qed.

(** Everything the process and the searches do to the index. *)
Inductive operation : Type :=
  | OpIndex (f : part) (index : list index_entry) (batch_chunks : nat) (stream : bytes) (size now : Z)
  | OpCleanup (node : string) (days cutoff now : Z)
  | OpDeleteFiles (node : string) (identifiers : list string)
  | OpQuery (enabled timed_out : bool) (stop : nat) (files : list part) (keyword_ : option (list Z))
  | OpRefresh   (* the index's own periodic refresh *).

Definition apply_operation (o : operation) (w : world) : world :=
  match o with
  | OpIndex f index n stream size now => (index_stream f index n stream size now w).2
  | OpCleanup node days cutoff now => (cleanup node days cutoff now w).2
  | OpDeleteFiles node l => (delete_files node l w).2
  | OpQuery enabled timed_out stop files k => (query_evidence enabled timed_out stop files k w).2
  | OpRefresh => (request es_refresh w).2
  end.

(** Sealed parts do not change: what is read is what the revision names. *)
Definition sealed (o : operation) : Prop :=
  match o with OpIndex f _ _ stream _ _ => stream = body (fingerprint f) | _ => True end.

(** A new index, then any operations; whether a local operation fails is decided
    anew before each, an interruption at any point being a failure there. *)
Inductive reachable : world -> Prop :=
  | reach_new s io : stored s = ∅ -> visible s = ∅ -> reachable (World s ∅ io)
  | reach_step w io o : reachable w -> sealed o -> reachable (apply_operation o (World (w_es w) (w_positions w) io)).

Lemma answers_right_mono keyword_ files files' m : (forall f, f ∈ files -> f ∈ files') ->
  answers_right keyword_ files m -> answers_right keyword_ files' m.
Proof. intros Hin Hm i a Ha. destruct (Hm i a Ha) as (f & Hf & Hr). exists f. split; [by apply Hin|done]. Qed.

Lemma ensures_fetch fuel stop files keyword_ found all : (forall f, f ∈ files -> f ∈ all) ->
  answers_right keyword_ all found ->
  ensures (fetch_evidence fuel stop files keyword_ found) (answers_right keyword_ all).
Proof.
  revert stop files found. induction fuel as [|fuel IH]; intros stop files found Hin Hf; [by apply ensures_ret|].
  cbn [fetch_evidence]. destruct stop as [|stop]; [by apply ensures_ret|].
  destruct files as [|f0 fl]; [by apply ensures_ret|]. remember (f0 :: fl) as l eqn:El.
  eapply ensures_bind; [apply ensures_evidence|]. cbn beta. intros more Hmore.
  apply IH; [intros f Hx; apply Hin; by eapply subseteq_drop|].
  intros i a [Ha|[_ Ha]]%lookup_union_Some_raw; [|by apply Hf].
  destruct (Hmore i a Ha) as (f & Hx & Hr). exists f. split; [|done]. apply Hin. by eapply subseteq_take.
Qed.

Lemma query_right enabled timed_out stop files keyword_ w : sound w ->
  sound (query_evidence enabled timed_out stop files keyword_ w).2
  /\ answers_right keyword_ files (query_evidence enabled timed_out stop files keyword_ w).1.1.
Proof.
  intros Hw. assert (He : answers_right keyword_ files ∅) by by intros ? ? ?%lookup_empty_Some.
  unfold query_evidence. destruct enabled; [|done]. cbn [negb]. cbn zeta.
  set (ready := filter _ files). assert (Hin : forall f, f ∈ ready -> f ∈ files) by (intros f Hf; by apply list_elem_of_filter in Hf as [_ ?]).
  destruct ready as [|f0 fl] eqn:Er; [done|]. rewrite <- Er in *.
  destruct (ensures_fetch (length ready) stop ready keyword_ ∅ files Hin He w Hw) as [Hs Hq].
  destruct (fetch_evidence _ _ _ _ _ w) as [[found|e] w'] eqn:Ef; cbn in *; [|done].
  destruct timed_out; cbn; split; try done. by apply Hq.
Qed.

Lemma reachable_sound w : reachable w -> sound w.
Proof.
  induction 1 as [s io Hs Hv|w io o _ [Hd Hp] Ho].
  - split; cbn; [|by intros ? ? ?%lookup_empty_Some]. intros i d. rewrite Hs, Hv. by intros [?|?]%or_comm; simplify_map_eq.
  - assert (Hw : sound (World (w_es w) (w_positions w) io)) by by split.
    destruct o as [f index n stream size now|node days cutoff now|node l|enabled timed_out stop files k|]; cbn [apply_operation].
    + cbn in Ho. subst stream. by apply (ensures_index f index n size now).
    + eapply (ensures_bind _ _ _ (fun _ => True)); [apply ensures_prune| |exact Hw]. intros _ _. apply ensures_delete.
    + by apply (ensures_delete _ _ Hw).
    + by apply query_right.
    + by apply (ensures_refresh _ Hw).
Qed.
End faithful.

(** ** Searching with the index ([logs/search_candidates.py]) *)

Section search.
Context `{Hashing, Elastic}.

(** [search_candidates]: [others] is the evidence of the trigram indexes, which is
    asked for the files the full-text index did not answer. *)
Definition search_candidates (enabled timed_out : bool) (stop : nat) (frozen : list part) (keyword_ : list Z)
    (others : gmap string answer) (w : world) : result encode_error (gset string) * world :=
  if (length keyword_ <? 3)%nat || existsb (fun c => bool_decide (c = 13 \/ c = 10 \/ c = 0)) keyword_
  then (Ok (list_to_set (map pt_id frozen)), w)
  else
    let '(found, _, w) := query_evidence enabled timed_out stop frozen (Some keyword_) w in
    (plan_candidate_files (map plan_of frozen) (fun i => (found ∪ others) !! i) (KStr keyword_), w).

Context `{!ElasticLaws}.

Lemma planned (files : list part) answers keyword_ kb : encode keyword_ = Some kb ->
  exists plan, plan_candidate_files (map plan_of files) answers (KStr keyword_) = Ok plan.
Proof.
  intros Hk. unfold plan_candidate_files, _keyword_prefix. destruct (existsb _ keyword_); [by eexists|]. cbn zeta.
  destruct (_ <? 3)%nat; [by eexists|]. unfold encode_or_raise.
  destruct (encode (take 3 keyword_)) as [p|] eqn:Ep.
  - cbn [fmap result_fmap]. destruct (negb _); [by eexists|]. destruct (foldl _ _ _) as [[? ?] ?]. by eexists.
  - exfalso. revert Hk Ep. unfold encode. rewrite <- (take_drop 3 keyword_) at 1. rewrite forallb_app.
    by destruct (forallb scalar (take 3 keyword_)).
Qed.

Lemma plan_ids files : omap pf_id (map plan_of files) = map pt_id files.
Proof. induction files as [|f files IH]; [done|]. cbn. by rewrite <- IH. Qed.

(** C3: A search that trusts the full-text index misses nothing, provided that every
    indexing run read its sealed part with the bytes of its fingerprint ([sealed];
    after a misread, [digest_mismatch_survives] in FullTextRun shows an evidence that
    denies a present keyword).  After any such history of indexing runs interrupted
    anywhere, partial bulk requests, removals and failing queries, and with the
    trigram indexes' answers right, the plan exists and contains every file that holds
    a byte of the line of an occurrence of the keyword. *)
Theorem indexed_search_complete (body : string -> bytes) (w : world) (enabled timed_out : bool) (stop : nat)
    (files : list part) (keyword_ : list Z) (kb : bytes) (others : gmap string answer)
    (Hreach : reachable body w)
    (Hids : NoDup (map pt_id files))
    (Hkb : encode keyword_ = Some kb)
    (Hothers : forall f a e prefix, f ∈ files -> others !! pt_id f = Some a ->
       _keyword_prefix (KStr keyword_) = Ok (Some prefix) -> _evidence (plan_of f) (Some a) = Some e ->
       truthful prefix (body (fingerprint f)) e) :
  let contents := map (fun f => body (fingerprint f)) files in
  exists plan, (search_candidates enabled timed_out stop files keyword_ others w).1 = Ok plan
    /\ forall p q n f, occurs kb (concat contents) p -> same_line (concat contents) p q -> owns contents n q ->
         files !! n = Some f -> pt_id f ∈ plan.
Proof.
  cbn zeta. unfold search_candidates. case_match eqn:Eshort.
  { eexists. split; [done|]. intros p q n f _ _ _ Hf. apply elem_of_list_to_set, list_elem_of_fmap.
    exists f. split; [done|]. by eapply list_elem_of_lookup_2. }
  destruct (query_right body enabled timed_out stop files (Some keyword_) w) as [_ Hq]; [by apply reachable_sound|].
  destruct (query_evidence _ _ _ _ _ w) as [[found st] w']. cbn [fst] in *.
  destruct (planned files (fun i => (found ∪ others) !! i) keyword_ kb Hkb) as [plan Hplan].
  exists plan. split; [done|]. intros p q n f Hocc Hline Hown Hf.
  eapply (plan_complete _ (map (fun f => body (fingerprint f)) files) _ (KStr keyword_) kb plan Hplan); try done.
  - by rewrite !length_map.
  - by rewrite plan_ids.
  - intros prefix m g i c e Hp Hg Hi Hc He.
    rewrite list_lookup_fmap in Hg. destruct (files !! m) as [h|] eqn:Eh; [|done]. injection Hg as <-.
    cbn in Hi. injection Hi as <-. rewrite list_lookup_fmap, Eh in Hc. injection Hc as <-.
    destruct ((found ∪ others) !! pt_id h) as [a|] eqn:Ea; [|done].
    apply lookup_union_Some_raw in Ea as [Ea|[_ Ea]].
    + destruct (Hq _ _ Ea) as (h' & Hh' & Hid & Hright).
      assert (h' = h) as ->.
      { apply list_elem_of_lookup_1 in Hh' as [m' Hm']. assert (m' = m) as ->; [|congruence].
        eapply (NoDup_lookup (map pt_id files)); [done| |]; rewrite list_lookup_fmap; [by rewrite Hm'|].
        rewrite Eh. cbn. by rewrite Hid. }
      apply (Hright e prefix He). right. exists keyword_. split; [done|].
      destruct (keyword_prefix_spec _ _ _ Hp Hkb) as (_ & Hlong & _).
      unfold _keyword_prefix in Hp. case_match; [done|]. cbn zeta in Hp. case_match; [done|].
      unfold encode_or_raise in Hp. destruct (encode (take 3 keyword_)) as [pr|] eqn:Epr; [|done].
      cbn in Hp. injection Hp as ->. split_and!; [done| | |unfold EDGE, OVERLAP in *; lia].
      * intros E. rewrite E in *. done.
      * intros ->. cbn in Hlong. lia.
    + eapply Hothers; eauto. by eapply list_elem_of_lookup_2.
  - by rewrite list_lookup_fmap, Hf.
  - done.
Qed.
End search.
