(* ===== verification/FullTextRun.v ===== *)
(** * A complete indexing run, and the index's searches at work

    [FullText] shows that the evidence of the index is right whatever happened.
    Here: after any history, one run that meets no failure publishes the proof of
    its part and later searches find it; a reference index the witnesses compute
    with; and what a digest mismatch leaves behind. *)

From stdpp Require Import pretty sets.
From S2P Require Import Prelude PyTime PyValue Utf8 ByteSearch LossyText FileOrder StreamSearch SearchPlan FullText.
Open Scope Z_scope.

(** The digest of [hashlib]: no collisions, hexadecimal digits. *)
Class HashingLaws `{Hashing} := {
  sha256_free a b : sha256_hex a = sha256_hex b -> a = b;
  sha256_not_manifest b v : sha256_hex b <> manifest_id v;
  sha256_not_empty b : sha256_hex b <> "" }.

Section live.
Context `{Hashing, Elastic, !ElasticLaws, !HealthyLaws, !HashingLaws}.
Variable body : string -> bytes.
Open Scope camera_scope.

Lemma chunk_id_inj v o o' : chunk_id v o = chunk_id v o' -> o = o'.
Proof.
  unfold chunk_id, ascii_bytes. intros E%sha256_free. apply (f_equal String.string_of_list_byte) in E.
  rewrite !String.string_of_list_byte_of_string in E. by apply (inj _), (inj _), (inj _) in E.
Qed.

Abbreviation number k := (Z.of_nat (k * CHUNK_BYTES)).
Abbreviation faithful := (faithful body).
Abbreviation sound := (sound body).

(** The index holds the chunk [k] of a revision. *)
Definition present (v : string) (m : gmap string es_doc) (k : nat) : Prop :=
  exists d, m !! chunk_id v (number k) = Some d /\ is_chunk_of v d = true.

Lemma number_inj j k : number j = number k -> j = k.
Proof.
  intros E%Nat2Z.inj. pose proof chunk_long as Hl. unfold OVERLAP in Hl. by apply Nat.mul_cancel_r in E; [|lia].
Qed.

Definition map_faithful (m : gmap string es_doc) : Prop := forall i d, m !! i = Some d -> faithful i d.

(** The chunk documents of a revision that satisfy a filter, as their numbers. *)
Lemma chunk_docs v (m : gmap string es_doc) (q : es_doc -> bool) p : map_faithful m ->
  (forall d, q d = true -> is_chunk_of v d = true) -> p ∈ docs_where q m ->
  exists k b t n rc ia, (k < chunk_count (body v))%nat /\ p.1 = chunk_id v (number k)
    /\ p.2 = ChunkDoc b (number k) n t rc ia /\ db_revision b = v /\ q p.2 = true.
Proof.
  intros Hm Hq Hp. apply list_elem_of_filter in Hp as [Hd Hp]. destruct p as [i d]. cbn in Hd.
  apply elem_of_map_to_list in Hp. pose proof (Hm i d Hp) as Hf. pose proof (Hq d Hd) as Hc.
  destruct d as [b o n t rc ia|]; [|done]. cbn in Hc. apply bool_decide_eq_true in Hc. subst v.
  destruct Hf as (k & Hk & -> & -> & _ & _). by exists k, b, t, n, rc, ia.
Qed.

Lemma docs_keys_NoDup q (m : gmap string es_doc) : NoDup (docs_where q m).*1.
Proof.
  apply NoDup_fmap_2_strong; [|apply NoDup_filter, NoDup_map_to_list].
  intros [i d] [j e] Hp Hp' E. cbn in E. subst j. apply list_elem_of_filter in Hp as [_ Hp], Hp' as [_ Hp'].
  apply elem_of_map_to_list in Hp, Hp'. congruence.
Qed.

Definition targets (v : string) (n : nat) : list string := map (fun k => chunk_id v (number k)) (seq 0 n).

Lemma targets_NoDup v n : NoDup (targets v n).
Proof. apply NoDup_fmap_2_strong; [|apply NoDup_seq]. intros j k _ _ E%chunk_id_inj. by apply number_inj. Qed.

(** A count that reaches the number of chunks means that all are there. *)
Lemma counted_present v m q n : map_faithful m -> (forall d, q d = true -> is_chunk_of v d = true) ->
  (forall b k l t rc ia, db_revision b = v -> q (ChunkDoc b (number k) l t rc ia) = true -> (k < chunk_count (body v))%nat -> (k < n)%nat) ->
  zlen (docs_where q m) = Z.of_nat n -> forall k, (k < n)%nat -> present v m k.
Proof.
  intros Hm Hq Hlt Hcount k Hk.
  assert (Hperm : (docs_where q m).*1 ≡ₚ targets v n).
  { apply submseteq_length_Permutation; [|unfold targets; rewrite !length_fmap, length_seq; unfold zlen in Hcount; lia].
    apply NoDup_submseteq; [apply docs_keys_NoDup|]. intros i (p & -> & Hp)%list_elem_of_fmap.
    destruct (chunk_docs v m q p Hm Hq Hp) as (j & b & t & l & rc & ia & Hj & Hi & Hd & Hb & Hqp).
    rewrite Hi. apply list_elem_of_fmap. exists j. split; [done|]. apply elem_of_seq. rewrite Hd in Hqp.
    pose proof (Hlt b j l t rc ia Hb Hqp Hj). lia. }
  assert (Hin : chunk_id v (number k) ∈ (docs_where q m).*1).
  { rewrite Hperm. apply list_elem_of_fmap. exists k. split; [done|]. apply elem_of_seq. lia. }
  apply list_elem_of_fmap in Hin as (p & Hpk & Hp).
  destruct (chunk_docs v m q p Hm Hq Hp) as (j & b & t & l & rc & ia & _ & _ & _ & _ & Hqp).
  apply list_elem_of_filter in Hp as [_ Hp]. destruct p as [i d]. apply elem_of_map_to_list in Hp. cbn in *. subst i.
  exists d. split; [done|by apply Hq].
Qed.

(** When all are there, the count is the number of chunks. *)
Lemma present_counted v m : map_faithful m -> (forall k, (k < chunk_count (body v))%nat -> present v m k) ->
  zlen (docs_where (is_chunk_of v) m) = Z.of_nat (chunk_count (body v)).
Proof.
  intros Hm Hall.
  assert (Hperm : (docs_where (is_chunk_of v) m).*1 ≡ₚ targets v (chunk_count (body v))).
  { apply NoDup_Permutation; [apply docs_keys_NoDup|apply targets_NoDup|]. intros i. split.
    - intros (p & -> & Hp)%list_elem_of_fmap.
      destruct (chunk_docs v m _ p Hm (fun _ h => h) Hp) as (j & b & t & l & rc & ia & Hj & Hi & _).
      rewrite Hi. apply list_elem_of_fmap. exists j. split; [done|]. apply elem_of_seq. lia.
    - intros (k & -> & Hk)%list_elem_of_fmap. apply elem_of_seq in Hk. destruct (Hall k) as (d & Hd & Hc); [lia|].
      apply list_elem_of_fmap. exists (chunk_id v (number k), d). split; [done|]. apply list_elem_of_filter.
      split; [done|]. by apply elem_of_map_to_list. }
  unfold zlen. rewrite <- (length_fmap fst), Hperm. unfold targets. by rewrite length_fmap, length_seq.
Qed.

(** What a batch puts in. *)
Lemma put_all_keeps (P : es_doc -> Prop) items (m : gmap string es_doc) i :
  Forall (fun p => P p.2) items -> (exists d, m !! i = Some d /\ P d) \/ i ∈ items.*1 ->
  exists d, put_all items m !! i = Some d /\ P d.
Proof.
  unfold put_all. intros Hp. revert m. induction Hp as [|[j e] items Hj Hp IH]; intros m Hi.
  - destruct Hi as [Hi|Hi]; [done|by apply elem_of_nil in Hi].
  - cbn [foldl fst snd] in *. apply IH. destruct (decide (i = j)) as [->|Hne].
    + left. exists e. by rewrite lookup_insert_eq.
    + rewrite lookup_insert_ne by done. cbn in Hi. rewrite elem_of_cons in Hi. destruct Hi as [?|[?|?]]; [by left|done|by right].
Qed.

(** ** Steps that succeed *)

Definition live (w : world) : Prop := healthy (w_es w) /\ w_io w = [].

Definition succeeds {A} (m : stm world ix_exn A) (w : world) (Q : A -> world -> Prop) : Prop :=
  exists a w', m w = (Ok a, w') /\ live w' /\ sound w' /\ Q a w'.

Lemma succeeds_ret {A} (a : A) w (Q : A -> world -> Prop) : live w -> sound w -> Q a w -> succeeds (st_ret a) w Q.
Proof. intros Hl Hs Hq. by exists a, w. Qed.

Lemma succeeds_bind {A B} (m : stm world ix_exn A) (f : A -> stm world ix_exn B) w Q R :
  succeeds m w Q -> (forall a w', live w' -> sound w' -> Q a w' -> succeeds (f a) w' R) -> succeeds (st_bind m f) w R.
Proof.
  intros (a & w' & Hm & Hl & Hs & Hq) Hf. unfold succeeds, st_bind. rewrite Hm. by apply Hf.
Qed.

Lemma succeeds_weaken {A} (m : stm world ix_exn A) w (Q R : A -> world -> Prop) :
  succeeds m w Q -> (forall a w', sound w' -> Q a w' -> R a w') -> succeeds m w R.
Proof. intros (a & w' & Hm & Hl & Hs & Hq) Hr. exists a, w'. split_and!; try done. by apply Hr. Qed.

Lemma succeeds_io w : live w -> sound w -> succeeds local_io w (fun _ w' => w' = w).
Proof. intros [Hh Hio] Hs. exists tt, w. unfold local_io. rewrite Hio. by split. Qed.

(** The result of a request that is answered fully. *)
Lemma succeeds_request {A} (m : es -> result unit (reply A) * es) w (T : A -> Prop) (Q : A -> world -> Prop) :
  live w -> sound w -> ensures body (request m) T ->
  (exists a, (m (w_es w)).1 = Ok a /\ clean a = true /\ healthy (m (w_es w)).2
     /\ Q (r_body a) (World (m (w_es w)).2 (w_positions w) (w_io w))) -> succeeds (request m) w Q.
Proof.
  intros [Hh Hio] Hs He (a & Ha & Hc & Hh' & Hq). destruct (He w Hs) as [Hs' _]. unfold succeeds, request in *.
  destruct (m (w_es w)) as [r s]. cbn in *. subst r. rewrite Hc in *. by exists (r_body a), (World s (w_positions w) (w_io w)).
Qed.

(** Only the index may have been refreshed. *)
Definition same (w w' : world) : Prop := reads_only (w_es w) (w_es w') /\ w_positions w' = w_positions w.

Lemma succeeds_mget ids w : live w -> sound w ->
  succeeds (request (es_mget ids)) w (fun l w' => same w w' /\ l = map (fun i => stored (w_es w) !! i) ids).
Proof.
  intros Hl Hs. eapply succeeds_request; try done; [apply ensures_mget|].
  destruct (healthy_mget ids _ (proj1 Hl)) as (a & Ha & Hc & Hh). pose proof (mget_law ids (w_es w)) as Hlaw.
  destruct (es_mget ids (w_es w)) as [r s]. cbn in *. subst r. destruct Hlaw as [Hr Hb].
  exists a. split_and!; try done. by apply Hb.
Qed.

Lemma succeeds_count q w : live w -> sound w ->
  succeeds (request (es_count q)) w (fun n w' => same w w' /\ n = zlen (docs_where q (visible (w_es w')))).
Proof.
  intros Hl Hs. eapply succeeds_request; try done; [apply ensures_count|].
  destruct (healthy_count q _ (proj1 Hl)) as (a & Ha & Hc & Hh). pose proof (count_law q (w_es w)) as Hlaw.
  destruct (es_count q (w_es w)) as [r s]. cbn in *. subst r. destruct Hlaw as [Hr Hb].
  exists a. split_and!; try done. by apply Hb.
Qed.

Lemma succeeds_search l p w : live w -> sound w ->
  succeeds (request (es_search l p)) w (fun g w' => same w w' /\ g_other g = 0 /\ g_bound g = 0
    /\ Forall (bucket_right p (w_es w')) (g_buckets g)
    /\ forall v, v ∈ l -> docs_where (is_chunk_of v) (visible (w_es w')) <> [] -> v ∈ map bk_key (g_buckets g)).
Proof.
  intros Hl Hs. eapply succeeds_request; try done; [apply ensures_search|].
  destruct (healthy_search l p _ (proj1 Hl)) as (a & Ha & Hc & Ho & Hb & Hh). pose proof (search_law l p (w_es w)) as Hlaw.
  destruct (es_search l p (w_es w)) as [r s]. cbn in *. subst r. destruct Hlaw as [Hr Hg].
  destruct (Hg a eq_refl Hc Ho Hb) as (Hf & _ & _ & _ & Hk). exists a. split_and!; done.
Qed.

Lemma succeeds_refresh w : live w -> sound w ->
  succeeds (request es_refresh) w (fun _ w' => stored (w_es w') = stored (w_es w) /\ visible (w_es w') = stored (w_es w)
    /\ w_positions w' = w_positions w).
Proof.
  intros Hl Hs. eapply succeeds_request; try done; [apply ensures_refresh|].
  destruct (healthy_refresh _ (proj1 Hl)) as (a & Ha & Hc & Hh). pose proof (refresh_law (w_es w)) as Hlaw.
  destruct (es_refresh (w_es w)) as [r s]. cbn in *. subst r. destruct Hlaw as [[Hr _] Hb].
  exists a. split_and!; try done. by apply (Hb a).
Qed.

Lemma succeeds_put i d w : live w -> sound w -> faithful i d ->
  succeeds (request (es_put i d)) w (fun _ w' => stored (w_es w') = <[i := d]> (stored (w_es w))
    /\ visible (w_es w') = <[i := d]> (stored (w_es w))).
Proof.
  intros Hl Hs Hf. eapply succeeds_request; try done; [by apply ensures_put|].
  destruct (healthy_put i d _ (proj1 Hl)) as (a & Ha & Hc & Hh). pose proof (put_law i d (w_es w)) as Hlaw.
  destruct (es_put i d (w_es w)) as [r s]. cbn in *. subst r. destruct Hlaw as [_ Hb].
  exists a. split_and!; try done; by apply (Hb a).
Qed.

Lemma succeeds_bulk items w : live w -> sound w -> Forall (fun p => faithful p.1 p.2) items ->
  succeeds (bulk items) w (fun _ w' => stored (w_es w') = put_all items (stored (w_es w)) /\ w_positions w' = w_positions w).
Proof.
  intros Hl Hs Hf. unfold bulk.
  destruct (healthy_bulk items _ (proj1 Hl)) as (a & Ha & Hc & He & Hlen & Hst & Hh).
  destruct (ensures_bulk body items Hf w Hs) as [Hs' _].
  pose proof (bulk_law items (w_es w)) as Hlaw. unfold bulk, succeeds, st_bind, request in *.
  destruct (es_bulk items (w_es w)) as [r s]. cbn in *. subst r. rewrite Hc in *. destruct Hlaw as [_ Hb].
  assert (Hcond : negb (length (br_statuses (r_body a)) =? length items)%nat || br_errors (r_body a)
     || existsb (fun z => negb (status_ok z)) (br_statuses (r_body a)) = false).
  { rewrite Hlen, Nat.eqb_refl, He. cbn. apply not_true_is_false. intros (z & Hz & Hn)%existsb_exists.
    apply list_elem_of_In in Hz. rewrite (proj1 (Forall_forall _ _) Hst z Hz) in Hn. done. }
  rewrite Hcond in *. exists tt. eexists. split_and!; [reflexivity|split; [done|apply Hl]|done|by apply (Hb a)|done].
Qed.

Lemma succeeds_save v o c now w : live w -> sound w -> position_right body v o c ->
  succeeds (save_position v o c now) w (fun _ w' => w_es w' = w_es w).
Proof.
  intros Hl Hs Hp. destruct (ensures_save body v o c now Hp w Hs) as [Hs' _].
  destruct Hl as [Hh Hio]. unfold succeeds, save_position, st_bind, local_io in *. rewrite Hio in *.
  exists tt. eexists. by split.
Qed.

Lemma succeeds_get v w : live w -> sound w ->
  succeeds (get_position v) w (fun a w' => w' = w /\ position_right body v a.1 a.2).
Proof.
  intros Hl Hs. destruct (ensures_get body v w Hs) as [_ Hq]. destruct Hl as [Hh Hio].
  unfold succeeds, get_position, st_bind, local_io in *. rewrite Hio in *. eexists _, w. split; [done|].
  split_and!; try done. by apply Hq.
Qed.

(** ** The run *)

Section run.
Variables (f : part) (batch_chunks : nat) (now : Z).
Abbreviation v := (fingerprint f).
Abbreviation B := (body (fingerprint f)).

(** Between two chunks: what was read is stored or waits in the batch; the chunks
    below the position where the sending starts are stored. *)
Record holds (k0 k : nat) (s : pass) (w : world) : Prop := {
  ho_pass : pass_at body f k s;
  ho_known : forall j, (j < k0)%nat -> present v (stored (w_es w)) j;
  ho_read : forall j, (j < k)%nat -> present v (stored (w_es w)) j \/ chunk_id v (number j) ∈ (s_batch s).*1;
  ho_batch : Forall (fun p => is_chunk_of v p.2 = true) (s_batch s) }.

Lemma succeeds_resume w : live w -> sound w -> visible (w_es w) = stored (w_es w) ->
  succeeds (resume_from v) w (fun from w' => exists k0, (k0 <= chunk_count B)%nat
    /\ from = zlen (take (k0 * CHUNK_BYTES) B) /\ forall j, (j < k0)%nat -> present v (stored (w_es w')) j).
Proof.
  intros Hl Hs Hv. eapply succeeds_bind; [by apply succeeds_get|]. cbn beta.
  intros [o c] w1 Hl1 Hs1 [-> (k0 & Hk0 & Hc & Ho)]. cbn [fst snd] in *.
  eapply succeeds_bind; [by apply succeeds_count|]. cbn beta. intros n w2 Hl2 Hs2 [[[Hst Hvis] Hp] Hn].
  apply succeeds_ret; [done|done|]. destruct (n =? c) eqn:E; [|exists 0%nat; cbn; split_and!; [lia|done|lia]].
  exists k0. split_and!; [done|done|]. apply Z.eqb_eq in E.
  assert (Hm : visible (w_es w2) = stored (w_es w2)) by (rewrite Hst; destruct Hvis as [->| ->]; [by rewrite Hv|done]).
  rewrite <- Hm. apply (counted_present v _ (is_chunk_below v o)).
  - intros i d Hd. apply (proj1 Hs2). by right.
  - intros [b o' l t rc ia|]; [|done]. cbn. by intros [? _]%andb_prop.
  - intros b k l t rc ia Hb Hq Hk. cbn in Hq. apply andb_prop in Hq as [_ Hlt]. apply Z.ltb_lt in Hlt.
    rewrite Ho in Hlt. unfold zlen in Hlt. rewrite length_take in Hlt. pose proof chunk_long as Hlong. unfold OVERLAP in Hlong. nia.
  - congruence.
Qed.

Lemma present_put items m j : Forall (fun p => is_chunk_of v p.2 = true) items ->
  present v m j \/ chunk_id v (number j) ∈ items.*1 -> present v (put_all items m) j.
Proof. intros Hi Hj. by apply (put_all_keeps (fun d => is_chunk_of v d = true)). Qed.

Lemma succeeds_send k0 k s w : live w -> sound w -> holds k0 k s w -> (k <= chunk_count B)%nat ->
  succeeds (send_batch v now s) w (fun s' w' => holds k0 k s' w' /\ s_batch s' = []).
Proof.
  intros Hl Hs Hh Hk. unfold send_batch.
  eapply succeeds_bind; [apply succeeds_bulk; [done|done|apply Hh]|]. cbn beta. intros _ w1 Hl1 Hs1 [Hst _].
  eapply succeeds_bind; [apply succeeds_save; [done|done|eapply pass_at_position; [apply Hh|done]]|].
  cbn beta. intros _ w2 Hl2 Hs2 He. apply succeeds_ret; [done|done|]. split; [|done].
  split; cbn [s_batch].
  - destruct (ho_pass _ _ _ _ Hh). by split.
  - intros j Hj. rewrite He, Hst. apply present_put; [apply Hh|]. left. by apply (ho_known _ _ _ _ Hh).
  - intros j Hj. left. rewrite He, Hst. apply present_put; [apply Hh|]. by apply (ho_read _ _ _ _ Hh).
  - constructor.
Qed.

Lemma take_chunk_holds k0 k from s w : holds k0 k s w -> (k < chunk_count B)%nat ->
  from = zlen (take (k0 * CHUNK_BYTES) B) -> holds k0 (S k) (take_chunk f from now (chunk_of B k) s) w.
Proof.
  intros Hh Hk Hfrom. pose proof (take_chunk_at body f from now k s (ho_pass _ _ _ _ Hh) Hk) as Hp.
  assert (Ho : s_offset s = number k).
  { rewrite (pa_offset _ _ _ _ (ho_pass _ _ _ _ Hh)). by apply zlen_take_before. }
  split; [done|apply Hh| |]; unfold take_chunk; rewrite Ho;
    destruct (locate (number k) (s_cursor s)) as [entry c]; destruct (from <=? number k) eqn:Ef; cbn [s_batch].
  - intros j Hj. rewrite fmap_app, elem_of_app. cbn. rewrite list_elem_of_singleton.
    destruct (decide (j = k)) as [->|Hne]; [by right; right|].
    destruct (ho_read _ _ _ _ Hh j) as [?|?]; [lia|by left|by right; left].
  - intros j Hj. destruct (decide (j = k)) as [->|Hne]; [|apply (ho_read _ _ _ _ Hh); lia].
    left. apply (ho_known _ _ _ _ Hh). apply Z.leb_gt in Ef. rewrite Hfrom in Ef. unfold zlen in Ef.
    rewrite length_take in Ef. pose proof chunk_long as Hlong. unfold OVERLAP in Hlong. nia.
  - apply Forall_app. split; [apply Hh|]. apply Forall_singleton. cbn. by rewrite bool_decide_eq_true_2.
  - apply Hh.
Qed.

Lemma succeeds_chunks k0 from k reads s w : live w -> sound w -> holds k0 k s w ->
  from = zlen (take (k0 * CHUNK_BYTES) B) ->
  reads = drop k (reads_of (length B) CHUNK_BYTES B) -> (k <= chunk_count B)%nat ->
  succeeds (index_chunks f batch_chunks from now reads s) w (holds k0 (chunk_count B)).
Proof.
  intros Hl Hs Hh Hfrom. revert k s w Hl Hs Hh.
  induction reads as [|data reads IH]; intros k s w Hl Hs Hh Hr Hk; cbn [index_chunks].
  - apply succeeds_ret; [done|done|]. assert (Hle : (chunk_count B <= k)%nat).
    { unfold chunk_count. apply (f_equal length) in Hr. rewrite length_drop in Hr. cbn in Hr. lia. }
    by replace (chunk_count B) with k by lia.
  - assert (Hlook : reads_of (length B) CHUNK_BYTES B !! k = Some data).
    { rewrite <- (Nat.add_0_r k), <- lookup_drop, <- Hr. done. }
    assert (Hk' : (k < chunk_count B)%nat) by (by eapply lookup_lt_Some).
    rewrite chunk_lookup in Hlook. case_decide; [|done]. injection Hlook as <-.
    pose proof (take_chunk_holds k0 k from s w Hh Hk' Hfrom) as Ht.
    eapply (succeeds_bind _ _ _ (holds k0 (S k))).
    + eapply succeeds_bind; [by apply succeeds_io|]. cbn beta. intros _ w' Hl' Hs' ->. cbn zeta.
      case_match; [|by apply succeeds_ret].
      eapply succeeds_weaken; [by apply succeeds_send|]. by intros s' w' _ [? _].
    + intros s' w' Hl' Hs' Hh'. apply (IH (S k)); [done|done|done| |lia].
      replace (S k) with (k + 1)%nat by lia. by rewrite <- drop_drop, <- Hr.
Qed.

(** What a published part leaves: its manifest, and all of its chunks visible. *)
Definition published (w : world) : Prop :=
  visible (w_es w) = stored (w_es w) /\ (forall k, (k < chunk_count B)%nat -> present v (stored (w_es w)) k)
  /\ exists b n c h t nl ia rc, stored (w_es w) !! manifest_id v = Some (ManifestDoc b n c h t nl ia rc)
       /\ db_fileId b = pt_id f /\ db_revision b = v.

Lemma succeeds_publish k0 s w : live w -> sound w -> holds k0 (chunk_count B) s w -> s_batch s = [] ->
  pt_bytes f = zlen B -> pt_sha256 f = Some (sha256_hex B) ->
  succeeds (publish_proof f now s) w (fun b w' => b = true /\ published w').
Proof.
  intros Hl Hs Hh Hb Hbytes Hsha. unfold publish_proof. cbn zeta. pose proof (ho_pass _ _ _ _ Hh) as Hp.
  assert (Hall : take (chunk_count B * CHUNK_BYTES) B = B).
  { apply take_ge. pose proof (chunk_count_spec B (chunk_count B)). lia. }
  assert (Hoff : s_offset s = pt_bytes f) by (rewrite (pa_offset _ _ _ _ Hp), Hall; done).
  rewrite (proj2 (Z.eqb_eq _ _) Hoff), (pa_read _ _ _ _ Hp), Hall, Hsha.
  rewrite (bool_decide_eq_true_2 _ (eq_refl (Some (sha256_hex B)))).
  rewrite bool_decide_eq_false_2 by (intros [= E]; by apply (sha256_not_empty B)). cbn [negb orb].
  assert (Hpres : forall k, (k < chunk_count B)%nat -> present v (stored (w_es w)) k).
  { intros k Hk. destruct (ho_read _ _ _ _ Hh k Hk) as [?|Hin]; [done|]. rewrite Hb in Hin. by apply elem_of_nil in Hin. }
  eapply succeeds_bind; [by apply succeeds_refresh|]. cbn beta. intros _ w1 Hl1 Hs1 (Hst1 & Hv1 & _).
  eapply succeeds_bind; [by apply succeeds_count|]. cbn beta. intros n w2 Hl2 Hs2 [[[Hst2 Hv2] _] Hn].
  assert (Hvis : visible (w_es w2) = stored (w_es w)) by (destruct Hv2 as [->| ->]; congruence).
  rewrite Hvis in Hn. rewrite present_counted in Hn; [|intros i d Hd; apply (proj1 Hs); by left|done].
  rewrite (proj2 (Z.eqb_eq n (s_chunks s))) by (rewrite (pa_chunks _ _ _ _ Hp); done). cbn [negb].
  eapply succeeds_bind; [apply succeeds_put; [done|done|by apply manifest_faithful]|]. cbn beta.
  intros _ w3 Hl3 Hs3 [Hst3 Hv3].
  eapply succeeds_bind; [apply succeeds_save; [done|done|by eapply pass_at_position]|]. cbn beta.
  intros _ w4 Hl4 Hs4 He. apply succeeds_ret; [done|done|]. split; [done|]. unfold published. rewrite He, Hst3, Hv3.
  split_and!; [done| |].
  - intros k Hk. destruct (Hpres k Hk) as (d & Hd & Hc). exists d. split; [|done]. rewrite lookup_insert_ne.
    + by rewrite Hst2, Hst1.
    + intros E. by apply (sha256_not_manifest (ascii_bytes (v +:+ ":" +:+ pretty (number k))) v).
  - eexists _, _, _, _, _, _, _, _. split; [by rewrite lookup_insert_eq|done].
Qed.

(** A published part is found. *)
Lemma succeeds_found keyword_ w : live w -> sound w -> published w -> pt_bytes f = zlen B ->
  succeeds (file_evidence [f] keyword_) w (fun m _ => is_Some (m !! pt_id f)).
Proof.
  intros Hl Hs (Hv & Hpres & b & n & c & h & t & nl & ia & rc & Hman & Hfile & Hrev) Hbytes. unfold file_evidence.
  assert (Hf : faithful (manifest_id v) (ManifestDoc b n c h t nl ia rc)) by (apply (proj1 Hs); by left).
  eapply (succeeds_bind _ _ _ (fun m w' => m = {[pt_id f := ManifestDoc b n c h t nl ia rc]} /\ same w w')).
  { eapply succeeds_bind; [by apply succeeds_mget|]. cbn beta. intros l w1 Hl1 Hs1 [Hsame ->].
    apply succeeds_ret; [done|done|]. split; [|done]. cbn [map foldl]. rewrite Hman, <- Hfile. done. }
  cbn beta. intros m w1 Hl1 Hs1 [-> [[Hst1 Hv1] _]].
  rewrite filter_cons_True by (rewrite lookup_singleton_eq; by eexists). rewrite filter_nil. cbn [map].
  eapply succeeds_bind; [by apply succeeds_search|]. cbn beta. intros g w2 Hl2 Hs2 ([[Hst2 Hv2] _] & Ho & Hd & Hb & Hk).
  rewrite Ho, Hd. cbn [Z.eqb negb orb]. apply succeeds_ret; [done|done|]. cbn [foldl].
  assert (Hvis : visible (w_es w2) = stored (w_es w)).
  { destruct Hv1 as [Hv1|Hv1], Hv2 as [Hv2|Hv2]; congruence. }
  assert (Hcount : zlen (docs_where (is_chunk_of v) (visible (w_es w2))) = Z.of_nat (chunk_count B)).
  { rewrite Hvis. apply present_counted; [|done]. intros i d Hi. apply (proj1 Hs). by left. }
  assert (Hbk : default 0 (bk_count <$> bucket_of (g_buckets g) v) = c).
  { destruct Hf as (_ & _ & -> & _). cbn [doc_of]. rewrite Hrev. rewrite <- Hcount.
    destruct (bucket_of (g_buckets g) v) as [bk|] eqn:Eb; cbn.
    - apply bucket_of_in in Eb as [Hin <-]. apply (proj1 (Forall_forall _ _) Hb bk Hin).
    - destruct (docs_where (is_chunk_of v) (visible (w_es w2))) as [|p l] eqn:El; [done|]. exfalso.
      assert (Hin : v ∈ map bk_key (g_buckets g)) by (apply Hk; [by apply list_elem_of_singleton|by rewrite El]).
      apply list_elem_of_fmap in Hin as (bk & Hkey & Hin). unfold bucket_of in Eb.
      assert (Hin' : In bk (rev (g_buckets g))) by (by apply in_rev; rewrite rev_involutive; apply list_elem_of_In).
      pose proof (List.find_none _ _ Eb bk Hin') as Hno. cbn in Hno. apply bool_decide_eq_false in Hno. by apply Hno. }
  unfold file_answer. rewrite lookup_singleton_eq, Hbk.
  destruct Hf as (_ & Hn & _). cbn [doc_of] in Hn. rewrite Hrev in Hn.
  rewrite (bool_decide_eq_true_2 _ Hrev), (proj2 (Z.eqb_eq n _)), Z.eqb_refl by congruence. cbn [andb].
  rewrite lookup_insert_eq. by eexists.
Qed.
End run.

(** An evidence query that finds the part shows that it is published. *)
Lemma succeeds_known f w : live w -> sound w -> visible (w_es w) = stored (w_es w) ->
  succeeds (file_evidence [f] None) w (fun m w' => w_positions w' = w_positions w
    /\ visible (w_es w') = stored (w_es w') /\ (m <> ∅ -> published f w')).
Proof.
  intros Hl Hs Hv. unfold file_evidence.
  eapply (succeeds_bind _ _ _ (fun m w' => same w w' /\ forall b n c h t nl ia rc,
    m !! pt_id f = Some (ManifestDoc b n c h t nl ia rc) ->
    stored (w_es w) !! manifest_id (fingerprint f) = Some (ManifestDoc b n c h t nl ia rc) /\ db_fileId b = pt_id f)).
  { eapply succeeds_bind; [by apply succeeds_mget|]. cbn beta. intros l w1 Hl1 Hs1 [Hsame ->].
    apply succeeds_ret; [done|done|]. split; [done|]. cbn [map foldl]. intros b n c h t nl ia rc.
    destruct (stored (w_es w) !! manifest_id (fingerprint f)) as [[|b' n' c' h' t' nl' ia' rc']|]; try by intros ?%lookup_empty_Some.
    intros [[E [= -> -> -> -> -> -> -> ->]]|[_ ?%lookup_empty_Some]]%lookup_insert_Some; [done|done]. }
  cbn beta. intros m w1 Hl1 Hs1 [[[Hst1 Hv1] Hpos1] Hm].
  assert (Hvis1 : visible (w_es w1) = stored (w_es w1)) by (destruct Hv1; congruence).
  destruct (map fingerprint _) as [|r rs] eqn:Er; [by apply succeeds_ret|]. rewrite <- Er. clear Er.
  eapply succeeds_bind; [by apply succeeds_search|]. cbn beta.
  intros g w2 Hl2 Hs2 ([[Hst2 Hv2] Hpos2] & Ho & Hd & Hb & Hk).
  rewrite Ho, Hd. cbn [Z.eqb negb orb]. apply succeeds_ret; [done|done|].
  assert (Hvis2 : visible (w_es w2) = stored (w_es w2)) by (destruct Hv2; congruence).
  split_and!; [congruence|done|]. cbn [foldl]. destruct (file_answer None m (g_buckets g) f) as [a|] eqn:Ea; [|done].
  intros _. unfold file_answer in Ea.
  destruct (m !! pt_id f) as [[|b n c h t nl ia rc]|] eqn:Em; try done.
  destruct (Hm _ _ _ _ _ _ _ _ eq_refl) as [Hman Hfile]. destruct (_ && _) eqn:Eg in Ea; [|done].
  apply andb_prop in Eg as [[Hrev _]%andb_prop Hcount]. apply bool_decide_eq_true in Hrev. apply Z.eqb_eq in Hcount.
  assert (Hst : stored (w_es w2) = stored (w_es w)) by congruence.
  split; [done|]. rewrite Hst. split; [|by exists b, n, c, h, t, nl, ia, rc].
  assert (Hf : faithful (manifest_id (fingerprint f)) (ManifestDoc b n c h t nl ia rc)) by (apply (proj1 Hs); by left).
  destruct Hf as (_ & _ & Hc & _). cbn [doc_of] in Hc. rewrite Hrev in Hc.
  intros k Hkk. rewrite <- Hst, <- Hvis2. eapply (counted_present _ _ (is_chunk_of (fingerprint f))); [..|exact Hkk].
  - intros i d Hi. apply (proj1 Hs2). by right.
  - done.
  - done.
  - destruct (bucket_of (g_buckets g) (fingerprint f)) as [bk|] eqn:Eb.
    + apply bucket_of_in in Eb as [Hin Hkey]. destruct (proj1 (Forall_forall _ _) Hb bk Hin) as [Hbk _].
      rewrite Hkey in Hbk. cbn in Hcount. unfold Datatypes.id in Hcount. congruence.
    + cbn in Hcount. exfalso. lia.
Qed.

(** C32: One indexing run that meets no failure publishes its part, whatever happened
    before.  After any history of interrupted runs, partial bulk requests, removals
    and lost positions in which sealed parts were read rightly, a run on a sealed part
    whose catalogued size and digest are those of its bytes, over an answering index
    that has been refreshed since the last write, ends; and the evidence query that
    follows it finds the part, whatever the keyword. *)
Theorem index_run_publishes (w : world) (f : part) (index : list index_entry) (batch_chunks : nat) (now : Z)
    (Hreach : reachable body w)
    (Hlive : live w)
    (Hfresh : visible (w_es w) = stored (w_es w))
    (Hbytes : pt_bytes f = zlen (body (fingerprint f)))
    (Hsha : pt_sha256 f = Some (sha256_hex (body (fingerprint f)))) :
  exists sent w', index_stream f index batch_chunks (body (fingerprint f)) (pt_bytes f) now w = (Ok sent, w')
    /\ forall keyword_, exists m w'', file_evidence [f] keyword_ w' = (Ok m, w'') /\ is_Some (m !! pt_id f).
Proof.
  pose proof (reachable_sound body w Hreach) as Hs.
  enough (Hrun : succeeds (index_stream f index batch_chunks (body (fingerprint f)) (pt_bytes f) now) w
    (fun _ w' => published f w')).
  { destruct Hrun as (sent & w' & Hrun & Hl' & Hs' & Hp). exists sent, w'. split; [done|]. intros keyword_.
    destruct (succeeds_found f keyword_ w' Hl' Hs' Hp Hbytes) as (m & w'' & He & _ & _ & Hm). by exists m, w''. }
  unfold index_stream. eapply succeeds_bind; [by apply succeeds_io|]. cbn beta. intros _ w0 Hl0 Hs0 ->.
  eapply succeeds_bind; [by apply succeeds_known|]. cbn beta. intros known w1 Hl1 Hs1 (_ & Hv1 & Hknown).
  case_bool_decide as Hk; [apply succeeds_ret; auto|].
  eapply succeeds_bind; [by apply succeeds_resume|]. cbn beta. intros from w2 Hl2 Hs2 (k0 & Hk0 & Hfrom & Hpres).
  eapply succeeds_bind; [by apply succeeds_io|]. cbn beta. intros _ w3 Hl3 Hs3 ->. rewrite Z.eqb_refl. cbn [negb].
  eapply (succeeds_bind _ _ _ (holds f k0 (chunk_count (body (fingerprint f))))).
  { apply (succeeds_chunks f batch_chunks now k0 from 0); try done; [|lia].
    split; [apply pass_at_start|done|lia|constructor]. }
  cbn beta. intros s w4 Hl4 Hs4 Hh.
  eapply (succeeds_bind _ _ _ (fun s' w' => holds f k0 (chunk_count (body (fingerprint f))) s' w' /\ s_batch s' = [])).
  { destruct (s_batch s) eqn:Eb; [by apply succeeds_ret|by apply succeeds_send]. }
  cbn beta. intros s' w5 Hl5 Hs5 [Hh' Hb]. eapply succeeds_weaken; [by eapply succeeds_publish|]. by intros b w' _ [_ ?].
Qed.
End live.

(** ** A reference index *)

(** Executable reading of [glob]. *)
Fixpoint glob_match (p : list Z) (t : list Z) {struct p} : bool :=
  match p with
  | [] => match t with [] => true | _ => false end
  | a :: p =>
      if a =? STAR then
        (fix go t := glob_match p t || match t with [] => false | _ :: t => go t end) t
      else if a =? QUESTION then match t with [] => false | _ :: t => glob_match p t end
      else if a =? BACKSLASH then
        match p, t with
        | c :: p, d :: t => (c =? d) && glob_match p t
        | _, _ => false
        end
      else match t with [] => false | d :: t => (a =? d) && glob_match p t end
  end.

Lemma glob_match_star p t u : glob_match p u = true -> glob_match (STAR :: p) (t ++ u) = true.
Proof.
  intros Hu. induction t as [|c t IH].
  - cbn [app]. destruct u; cbn; by rewrite Hu.
  - cbn in IH |- *. by rewrite IH, orb_true_r.
Qed.

Lemma glob_matches p t : glob p t -> glob_match p t = true.
Proof.
  induction 1 as [|p t u _ IH|p c u _ IH|p c u _ IH|p c u H1 H2 H3 _ IH].
  - done.
  - by apply glob_match_star.
  - done.
  - cbn. by rewrite Z.eqb_refl.
  - cbn. rewrite (proj2 (Z.eqb_neq _ _) H1), (proj2 (Z.eqb_neq _ _) H2), (proj2 (Z.eqb_neq _ _) H3), Z.eqb_refl. done.
Qed.

Record ref_es := RefEs { re_stored : gmap string es_doc; re_visible : gmap string es_doc }.

Definition whole {A} (a : A) : result unit (reply A) := Ok (Reply false 0 a).

Definition ref_bucket (pattern : option (list Z)) (m : gmap string es_doc) (v : string) : bucket :=
  let d := docs_where (is_chunk_of v) m in
  Bucket v (zlen d) ((fun p => zlen (filter (fun x => glob_match p (text_of_doc x.2) = true) d)) <$> pattern).

(** Every request succeeds; a search sees the last refresh. *)
Definition ref_elastic : Elastic := {|
  es := ref_es;
  stored := re_stored;
  visible := re_visible;
  healthy _ := True;
  es_mget ids s := (whole (map (fun i => re_stored s !! i) ids), s);
  es_count q s := (whole (zlen (docs_where q (re_visible s))), s);
  es_search l p s := (whole (Groups 0 0 (map (ref_bucket p (re_visible s)) (remove_dups l))), s);
  es_bulk l s := (whole (BulkReply false (map (fun _ => 201) l)), RefEs (put_all l (re_stored s)) (re_visible s));
  es_refresh s := (whole tt, RefEs (re_stored s) (re_stored s));
  es_put i d s := let m := <[i := d]> (re_stored s) in (whole tt, RefEs m m);
  es_delete q s := let m := filter (fun p => q p.2 = false) (re_stored s) in (whole tt, RefEs m m) |}.

Lemma put_all_within items (m : gmap string es_doc) i d :
  put_all items m !! i = Some d -> m !! i = Some d \/ (i, d) ∈ items.
Proof.
  unfold put_all. revert m. induction items as [|[j e] items IH]; intros m; cbn [foldl]; [by left|].
  intros [Hm|Hin]%IH; [|by right; right]. cbn in Hm. apply lookup_insert_Some in Hm as [[<- <-]|[_ Hm]]; [by right; left|by left].
Qed.

Lemma ref_elastic_laws : @ElasticLaws ref_elastic.
Proof.
  split; cbn.
  - intros ids s. split; [by split; [|left]|]. by intros a [= <-] _.
  - intros q s. split; [by split; [|left]|]. by intros a [= <-] _.
  - intros l p s. split; [by split; [|left]|]. intros a [= <-] _ _ _. cbn.
    assert (Hall : Forall (fun b => exists v, b = ref_bucket p (re_visible s) v) (map (ref_bucket p (re_visible s)) (remove_dups l))).
    { apply Forall_forall. intros b (v & -> & _)%list_elem_of_fmap. by exists v. }
    split_and!.
    + eapply Forall_impl; [exact Hall|]. intros b [v ->]. split_and!; [done|by intros ->|].
      intros q m -> [= <-] Hm i d Hd Hc Hg%glob_matches. cbn in Hc.
      assert (Hin : (i, d) ∈ filter (fun x : string * es_doc => glob_match q (text_of_doc x.2) = true)
                (docs_where (is_chunk_of v) (re_visible s))).
      { apply list_elem_of_filter. split; [done|]. apply list_elem_of_filter. split; [done|]. by apply elem_of_map_to_list. }
      unfold zlen in Hm. destruct (filter _ _) as [|x r]; [by apply elem_of_nil in Hin|cbn in Hm; lia].
    + intros b m Hb Hm ->. destruct (proj1 (Forall_forall _ _) Hall b Hb) as [v ->]. done.
    + intros Hp. eapply Forall_impl; [exact Hall|]. intros b [v ->]. destruct p; [|done]. by eexists.
    + rewrite map_map. cbn. rewrite map_id. apply NoDup_remove_dups.
    + intros v Hv _. rewrite map_map. cbn. rewrite map_id. by apply elem_of_remove_dups.
  - intros l s. split.
    + intros i d [Hd|Hd]; cbn in Hd; [|by right; left]. apply put_all_within in Hd as [?|?]; auto.
    + by intros a [= <-] _.
  - intros s. split; [split; [done|by right]|]. by intros a [= <-] _.
  - intros i d s. split; [|by intros a [= <-] _].
    intros j e Hj. cbn in Hj. rewrite list_elem_of_singleton.
    assert (Hi : <[i := d]> (re_stored s) !! j = Some e) by tauto.
    apply lookup_insert_Some in Hi as [[-> ->]|[_ Hi]]; auto.
  - intros q s i d Hd. cbn in Hd. left. by destruct Hd as [[Hd _]%map_lookup_filter_Some|[Hd _]%map_lookup_filter_Some].
Qed.

Lemma ref_healthy_laws : @HealthyLaws ref_elastic.
Proof.
  split; cbn; intros; eexists; split_and!; try reflexivity; try done; cbn.
  - by rewrite length_map.
  - by apply Forall_map, Forall_true.
Qed.

(** Stand-ins for the digest and the JSON text. *)
Definition field_bytes (v : pyval) : bytes :=
  match v with
  | PStr s => ascii_bytes ("s" +:+ s +:+ ";")
  | PInt z => ascii_bytes ("i" +:+ pretty z +:+ ";")
  | _ => ascii_bytes "n;"
  end.

Definition ref_hashing : Hashing := {|
  sha256_hex b := "0" +:+ String.string_of_list_byte b;
  dump_fields l := concat (map field_bytes l) |}.

Lemma ref_hashing_laws : @HashingLaws ref_hashing.
Proof.
  split; [|done|done]. intros a b E. unfold sha256_hex, ref_hashing in E. apply (inj _) in E.
  by rewrite <- (String.list_byte_of_string_of_list_byte a), E, String.list_byte_of_string_of_list_byte.
Qed.

(** ** The index at work *)

#[local] Existing Instances ref_elastic ref_hashing ref_elastic_laws ref_healthy_laws ref_hashing_laws.
#[local] Transparent CHUNK_BYTES.

Definition sample_part_of (i : string) (content : bytes) : part :=
  Part i (Some "task") None (Some "node") (Some "run") (Some "session") (Some "READY") (zlen content)
    (Some (sha256_hex content)) 0 None.

Definition text_a : bytes := ascii_bytes "x ER".
Definition text_b : bytes := ascii_bytes "ROR y" ++ [LF].
Definition text_c : bytes := ascii_bytes "quiet" ++ [LF].
Definition text_d : bytes := ascii_bytes "idle" ++ [LF].
Definition part_a : part := sample_part_of "a" text_a.
Definition part_b : part := sample_part_of "b" text_b.
Definition part_c : part := sample_part_of "c" text_c.
Definition part_d : part := sample_part_of "d" text_d.

Definition sample_body (v : string) : bytes :=
  if bool_decide (v = fingerprint part_a) then text_a
  else if bool_decide (v = fingerprint part_b) then text_b
  else if bool_decide (v = fingerprint part_c) then text_c
  else if bool_decide (v = fingerprint part_d) then text_d else [].

Definition new_world : world := World (RefEs ∅ ∅) ∅ [].

(** The runs over the parts; the first over [part_b] fails after its bulk request,
    when it saves the position. *)
Definition sample_history : list (list bool * operation) :=
  [([], OpIndex part_a [] 1 text_a 4 0); ([false; false; false; false; true], OpIndex part_b [] 1 text_b 6 0);
   ([], OpQuery true false 9 [part_a; part_b] None);
   ([], OpRefresh);
   ([], OpIndex part_b [] 1 text_b 6 1); ([], OpIndex part_c [] 2 text_c 6 1); ([], OpIndex part_d [] 2 text_d 5 1)].

Definition play (l : list (list bool * operation)) (w : world) : world :=
  foldl (fun w o => apply_operation o.2 (World (w_es w) (w_positions w) o.1)) w l.

Lemma play_reachable body l w : reachable body w -> Forall (fun o => sealed body o.2) l -> reachable body (play l w).
Proof.
  intros Hw Hl. revert w Hw. induction Hl as [|[io o] l Ho Hl IH]; intros w Hw; [done|].
  apply IH. by apply (reach_step body w io o).
Qed.

Lemma new_reachable body : reachable body new_world.
Proof. by apply reach_new. Qed.

Example played_failure :
  bool_decide (size (re_stored (w_es (play (take 2 sample_history) new_world))) = 3%nat)
  && bool_decide (w_positions (play (take 2 sample_history) new_world) !! fingerprint part_b = None) = true.
Proof. by vm_compute. Qed.

Definition error_keyword : list Z := [69; 82; 82; 79; 82].

(** The index excludes a part; it keeps the one after the line of the keyword. *)
Example search_skips :
  match (search_candidates true false 9 [part_a; part_b; part_c; part_d] error_keyword ∅ (play sample_history new_world)).1 with
  | Ok plan => bool_decide (plan = {["a"; "b"; "c"]})
  | Raise _ => false
  end = true.
Proof. by vm_compute. Qed.

Lemma indexed_search_complete_witness :
  exists plan, (search_candidates true false 9 [part_a; part_b; part_c; part_d] error_keyword ∅ (play sample_history new_world)).1 = Ok plan
    /\ "b" ∈ plan.
Proof.
  destruct (indexed_search_complete sample_body (play sample_history new_world) true false 9 [part_a; part_b; part_c; part_d]
    error_keyword (ascii_bytes "ERROR") ∅) as (plan & Hplan & Hin).
  - apply play_reachable; [apply new_reachable|]. repeat constructor; by vm_compute.
  - by apply (bool_decide_unpack _).
  - reflexivity.
  - intros f a e prefix _ Ha. by apply lookup_empty_Some in Ha.
  - exists plan. split; [done|].
    assert (Hc : map (fun f => sample_body (fingerprint f)) [part_a; part_b; part_c; part_d]
      = [text_a; text_b; text_c; text_d]) by (by vm_compute).
    rewrite Hc in Hin. apply (Hin 2%nat 4%nat 1%nat part_b).
    + by vm_compute.
    + intros r Hr. destruct Hr as [Hr|Hr]; [|lia]. assert (r = 2 \/ r = 3)%nat as [-> | ->] by lia; vm_compute; discriminate.
    + unfold owns, start_of. cbn. lia.
    + done.
Defined.

Lemma index_run_publishes_witness :
  exists sent w', index_stream part_b [] 1 (sample_body (fingerprint part_b)) 6 1
      (play (take 4 sample_history) new_world) = (Ok sent, w')
    /\ forall keyword_, exists m w'', file_evidence [part_b] keyword_ w' = (Ok m, w'') /\ is_Some (m !! "b").
Proof.
  apply (index_run_publishes sample_body (play (take 4 sample_history) new_world) part_b [] 1 1).
  - apply play_reachable; [apply new_reachable|]. repeat constructor; by vm_compute.
  - split; [exact I|vm_compute; reflexivity].
  - vm_compute; reflexivity.
  - vm_compute; reflexivity.
  - vm_compute; reflexivity.
Defined.

(** ** What a digest mismatch leaves behind *)

(** A part read wrongly once.  The run stops at the digest, but its chunks are
    indexed and its position remembered; once the index has refreshed itself, the
    next run, which reads the part rightly, skips them, counts them and publishes
    the proof.  The evidence then denies a keyword the part contains. *)
Definition text_wrong : bytes := ascii_bytes "x OK".

Lemma digest_mismatch_survives :
  let w1 := index_stream part_a [] 1 text_wrong 4 0 new_world in
  let w2 := index_stream part_a [] 1 text_a 4 1 (request es_refresh w1.2).2 in
  w1.1 = Raise (IxValueError "索引来源摘要不符，不发布覆盖证明") /\ w2.1 = Ok true
  /\ match (file_evidence [part_a] (Some [120; 32; 69]) w2.2).1 with
     | Ok m => an_may <$> (m !! "a") = Some (Some false)
     | Raise _ => False
     end
  /\ occurs (ascii_bytes "x E") text_a 0.
Proof. cbn zeta. split_and!; vm_compute; reflexivity. Qed.
