(* ===== verification/LinePrefix.v ===== *)
(** * Line prefixes ([collection/line_prefix.py])

    [LinePrefixer] puts a server time stamp in front of every logical line of a
    device stream that arrives in chunks.  The code works on whole chunks with
    [bytes.replace]; the reference definition works byte by byte. *)

From S2P Require Import Prelude PyTime.

(** ** The stamp *)

(** `received_at.astimezone(zone).strftime("[%Y-%m-%d %H:%M:%S] ").encode()`,
    for the years 1000 to 9999 that a server clock shows. *)
Definition stamp_of (z : zone) (received_at : Z) : bytes :=
  let f := fields_of (wall z received_at) in
  ascii_bytes "[" ++ map byte_of_cp (zpad 4 (f_year f)) ++ ascii_bytes "-"
    ++ map byte_of_cp (zpad 2 (f_month f)) ++ ascii_bytes "-"
    ++ map byte_of_cp (zpad 2 (f_day f)) ++ ascii_bytes " "
    ++ map byte_of_cp (zpad 2 (f_hour f)) ++ ascii_bytes ":"
    ++ map byte_of_cp (zpad 2 (f_minute f)) ++ ascii_bytes ":"
    ++ map byte_of_cp (zpad 2 (f_second f)) ++ ascii_bytes "] ".

Definition STAMP_BYTES : nat := 22.

(** ** The chunk transformer *)

(** `data.replace(bytes([c]), r)` for a one-byte pattern. *)
Definition replace_byte (c : byte) (r : bytes) (data : bytes) : bytes :=
  flat_map (fun b => if decide (b = c) then r else [b]) data.

(** `data.endswith(b"\n")`. *)
Definition ends_with_lf (data : bytes) : bool := bool_decide (last data = Some LF).

(** The body of [LinePrefixer.prefix] once the stamp is known: the state is
    `_at_line_start`, the result the output and the next state. *)
Definition prefix_with (stamp : bytes) (at_line_start : bool) (data : bytes) : bytes * bool :=
  if decide (data = []) then (data, at_line_start)
  else
    let output := replace_byte LF (LF :: stamp) data in
    let '(output, start) :=
      if ends_with_lf data
      then (take (length output - length stamp) output, true)
      else (output, false) in
    ((if at_line_start then stamp else []) ++ output, start).

(** [LinePrefixer.prefix]. *)
Definition prefix (z : zone) (at_line_start : bool) (data : bytes) (received_at : Z) : bytes * bool :=
  prefix_with (stamp_of z received_at) at_line_start data.

(** [LinePrefixer.__init__]: a fresh session is at the start of a line. *)
Definition initial_line_state : bool := true.

(** A session: the chunks in order, each with its receive time. *)
Fixpoint prefix_stream (z : zone) (st : bool) (chunks : list (bytes * Z)) : bytes * bool :=
  match chunks with
  | [] => ([], st)
  | (data, t) :: chunks =>
      let '(out, st) := prefix z st data t in
      let '(rest, st) := prefix_stream z st chunks in
      (out ++ rest, st)
  end.

(** ** The reference: one byte at a time *)

Fixpoint reference (st : bool) (input : list (byte * bytes)) : bytes :=
  match input with
  | [] => []
  | (b, stamp) :: input =>
      (if st then stamp else []) ++ b :: reference (bool_decide (b = LF)) input
  end.

Definition line_start_after (st : bool) (data : bytes) : bool :=
  match last data with None => st | Some b => bool_decide (b = LF) end.

(** Each byte with the stamp of the chunk that brought it. *)
Definition stamped (z : zone) (chunks : list (bytes * Z)) : list (byte * bytes) :=
  concat (map (fun '(data, t) => map (fun b => (b, stamp_of z t)) data) chunks).

(** ** Removing the prefixes *)

(** Drop the stamp at the start of every line. *)
Fixpoint strip (fuel : nat) (st : bool) (l : bytes) : bytes :=
  match fuel with
  | O => []
  | S fuel =>
      match (if st then drop STAMP_BYTES l else l) with
      | [] => []
      | b :: l => b :: strip fuel (bool_decide (b = LF)) l
      end
  end.

(** ** Lemmas *)

Lemma stamp_length z t : length (stamp_of z t) = STAMP_BYTES.
Proof. unfold stamp_of. rewrite !length_app, !length_map, !zpad_length. reflexivity. Qed.

Lemma line_start_after_app st l k :
  line_start_after st (l ++ k) = line_start_after (line_start_after st l) k.
Proof.
  unfold line_start_after. rewrite last_app.
  destruct (last k); [done|]. by destruct (last l).
Qed.

Lemma line_start_after_snoc st l b : line_start_after st (l ++ [b]) = bool_decide (b = LF).
Proof. unfold line_start_after. by rewrite last_snoc. Qed.

Lemma reference_app st l k :
  reference st (l ++ k) = reference st l ++ reference (line_start_after st (map fst l)) k.
Proof.
  revert st. induction l as [|[b s] l IH]; intros st; [done|].
  cbn [app reference map fst]. rewrite IH.
  replace (line_start_after st (b :: map fst l))
    with (line_start_after (bool_decide (b = LF)) (map fst l)).
  2: { change (b :: map fst l) with ([b] ++ map fst l). by rewrite line_start_after_app. }
  by rewrite <- app_assoc.
Qed.

(** Replacing every LF and cutting the last stamp is the reference on a chunk
    whose bytes share one stamp. *)
Lemma replace_byte_reference stamp data :
  replace_byte LF (LF :: stamp) data
  = reference false (map (fun b => (b, stamp)) data)
    ++ (if line_start_after false data then stamp else []).
Proof.
  induction data as [|b data IH] using rev_ind; [done|].
  unfold replace_byte in *. rewrite flat_map_app, IH, map_app, reference_app.
  rewrite map_map, map_id, line_start_after_snoc, <- !app_assoc. cbn. rewrite app_nil_r.
  destruct (decide (b = LF)) as [->|Hb]; [rewrite bool_decide_eq_true_2 by done|
    rewrite bool_decide_eq_false_2 by done]; destruct (line_start_after false data); cbn;
    by rewrite ?app_nil_r, <- ?app_assoc.
Qed.

Lemma prefix_with_reference stamp st data :
  prefix_with stamp st data
  = (reference st (map (fun b => (b, stamp)) data), line_start_after st data).
Proof.
  unfold prefix_with. case_decide as Hd; [by subst|].
  rewrite replace_byte_reference. unfold ends_with_lf, line_start_after.
  induction data as [|b data _] using rev_ind; [done|].
  rewrite last_snoc.
  assert (Hst : reference st (map (λ c, (c, stamp)) (data ++ [b]))
    = (if st then stamp else []) ++ reference false (map (λ c, (c, stamp)) (data ++ [b]))).
  { destruct data; cbn; by destruct st. }
  rewrite Hst. destruct (decide (b = LF)) as [->|Hb].
  - rewrite !bool_decide_eq_true_2 by done. rewrite length_app, Nat.add_sub.
    by rewrite take_app_length.
  - rewrite !bool_decide_eq_false_2 by congruence. by rewrite app_nil_r.
Qed.

Lemma stamped_fst z chunks : map fst (stamped z chunks) = concat (map fst chunks).
Proof.
  unfold stamped. rewrite concat_map, map_map. f_equal.
  apply map_ext. intros [data t]. cbn. rewrite map_map. apply map_id.
Qed.

Lemma strip_reference st fuel input :
  Forall (fun '(_, s) => length s = STAMP_BYTES) input ->
  (length (reference st input) <= fuel)%nat ->
  strip fuel st (reference st input) = map fst input.
Proof.
  revert st input. induction fuel as [|fuel IH]; intros st [|[b s] input] Hs Hf; try done.
  - cbn in Hf. rewrite length_app in Hf. cbn in Hf. lia.
  - cbn. by destruct st.
  - inversion_clear Hs as [|? ? Hlen Hrest]. cbn [reference strip map fst].
    replace (if st then drop STAMP_BYTES _ else _)
      with (b :: reference (bool_decide (b = LF)) input).
    + f_equal. apply IH; [done|]. cbn in Hf. rewrite length_app in Hf. cbn in Hf. lia.
    + destruct st; cbn [app]; [|done]. by rewrite <- Hlen, drop_app_length.
Qed.

Lemma stamped_lengths z chunks :
  Forall (fun '(_, s) => length s = STAMP_BYTES) (stamped z chunks).
Proof.
  unfold stamped. apply Forall_concat, Forall_map, Forall_forall. intros [data t] _. cbn.
  apply Forall_map, Forall_forall. intros b _. apply stamp_length.
Qed.

Lemma reference_length st input :
  Forall (fun '(_, s) => length s = STAMP_BYTES) input ->
  (length (reference st input) <= length input * (1 + STAMP_BYTES))%nat.
Proof.
  intros H. revert st. induction H as [|[b s] input Hs _ IH]; intros st; cbn [reference length]; [lia|].
  rewrite length_app. cbn [length]. specialize (IH (bool_decide (b = LF))).
  destruct st; cbn [length]; unfold STAMP_BYTES in *; lia.
Qed.

Lemma prefix_length z st data t :
  (length (prefix z st data t).1 <= length data * (1 + STAMP_BYTES))%nat.
Proof.
  unfold prefix. rewrite prefix_with_reference. cbn.
  pose proof (reference_length st (map (λ b, (b, stamp_of z t)) data)) as H.
  rewrite length_map in H. apply H, Forall_map, Forall_forall. intros b _. apply stamp_length.
Qed.

Lemma prefix_stream_reference z st chunks :
  prefix_stream z st chunks
  = (reference st (stamped z chunks), line_start_after st (concat (map fst chunks))).
Proof.
  revert st. induction chunks as [|[data t] chunks IH]; intros st; [done|].
  cbn [prefix_stream]. unfold prefix. rewrite prefix_with_reference, IH.
  unfold stamped. cbn [map concat fst]. rewrite reference_app, map_map, map_id.
  by rewrite line_start_after_app.
Qed.

(** ** Theorems *)

(** C37: The chunk-at-a-time prefixer of a session computes the byte-at-a-time
    reference: whatever the chunk boundaries, each logical line gets exactly
    one stamp, that of the chunk with its first byte, and nothing else is
    added, dropped or reordered. *)
Theorem prefix_stream_correct (z : zone) (chunks : list (bytes * Z)) :
  (prefix_stream z initial_line_state chunks).1 = reference true (stamped z chunks).
Proof. by rewrite prefix_stream_reference. Qed.

(** C38: Round trip: removing the 22-byte stamp at each line start of a
    session's output gives back the concatenation of the received chunks. *)
Theorem prefix_stream_roundtrip (z : zone) (chunks : list (bytes * Z)) :
  let out := (prefix_stream z initial_line_state chunks).1 in
  strip (length out) true out = concat (map fst chunks).
Proof.
  cbn zeta. rewrite prefix_stream_reference. cbn [fst].
  rewrite strip_reference; [apply stamped_fst|apply stamped_lengths|done].
Qed.
