(* ===== verification/Buffering.v ===== *)
(** * Node-wide receive budget ([collection/buffering.py])

    One [BufferBudget] per event loop bounds the bytes all sessions hold; each
    session owns a [BufferReservation], reserves before a read, settles the
    net size after it and releases everything after the physical write. *)

From S2P Require Import Prelude PyTime PyValue LinePrefix.

Definition READ_BYTES : Z := 4096.
Definition RESERVATION_BYTES : Z := READ_BYTES * 32.

(** `_configuration`. *)
Record config := Config { bufferMiB : Z; batchKiB : Z; flushIntervalMs : Z }.

Definition default_config : config := Config 64 256 100.

(** [BufferReservation]: `held` and `read_pending`. *)
Record reservation := Reservation { held : Z; read_pending : bool }.

Definition new_reservation : reservation := Reservation 0 false.

(** The state of one event loop: `budget().used`, `budget().pending` (write
    start readings of the monotonic clock, in seconds, by owner), the
    configuration, whether `_changed` is set, and the reservations by owner. *)
Record world := World {
  used : Z;
  pending : list (string * Q);
  cfg : config;
  changed : bool;
  sessions : gmap string reservation }.

Definition initial_world : world := World 0 [] default_config false ∅.

Inductive buffer_error : Type :=
  | SettlementViolation   (* "采集缓冲结算违规" *)
  | ReadSettlement        (* "采集读取结算违规" *)
  | DuplicateReservation  (* "重复预留采集读取" *).

Abbreviation buf A := (stm world buffer_error A).
Local Open Scope camera_scope.

(** ** [BufferBudget] *)

Definition limit_bytes (w : world) : Z := bufferMiB (cfg w) * 1024 * 1024.

Definition available (w : world) : bool := used w + RESERVATION_BYTES <=? limit_bytes w.

Definition with_used (w : world) (u : Z) (c : bool) : world :=
  World u (pending w) (cfg w) c (sessions w).

(** [acquire]: one turn of its loop.  [None] is a suspension on `_changed`: the
    coroutine is woken by the next `set`, clears the event and looks again. *)
Definition acquire (w : world) : option world :=
  if available w then Some (with_used w (used w + RESERVATION_BYTES) (changed w)) else None.

Definition clear_changed (w : world) : world := with_used w (used w) false.

(** [release(size)]: rejects a non-integer, a bool, and a size out of range. *)
Definition release (size : pyval) : buf unit := fun w =>
  match as_int size with
  | Some n => if (0 <=? n) && (n <=? used w)
              then (Ok tt, with_used w (used w - n) true)
              else (Raise SettlementViolation, w)
  | None => (Raise SettlementViolation, w)
  end.

Definition notify_configuration_changed (w : world) : world := with_used w (used w) true.

(** [configure]: replaces the three values and wakes the waiters. *)
Definition configure (effective : config) (w : world) : world :=
  notify_configuration_changed (World (used w) (pending w) effective (changed w) (sessions w)).

(** [batch_parameters]: bytes and seconds. *)
Definition batch_parameters (w : world) : Z * Q :=
  (Z.min (batchKiB (cfg w) * 1024) (limit_bytes w / 8),
   (inject_Z (flushIntervalMs (cfg w)) / 1000)%Q).

Definition Qmin (a b : Q) : Q := if Qle_bool a b then a else b.

Definition min_list (x : Q) (l : list Q) : Q := foldr Qmin x l.

(** [snapshot]: reserved bytes, limit, and the age of the oldest pending write
    in milliseconds. *)
Definition snapshot (monotonic : Q) (w : world) : Z * Z * Q :=
  (used w, limit_bytes w,
   match map snd (pending w) with
   | [] => 0%Q
   | t :: l => let age := (monotonic - min_list t l)%Q in
               ((if Qle_bool age 0 then 0 else age) * 1000)%Q
   end).

(** ** [BufferReservation] *)

Definition session (w : world) (owner : string) : reservation :=
  default new_reservation (sessions w !! owner).

Definition set_session (owner : string) (r : reservation) (w : world) : world :=
  World (used w) (pending w) (cfg w) (changed w) (<[owner := r]> (sessions w)).

(** [acquire_read]: raises on a second pending read; [Ok false] is the
    suspension inside `budget().acquire()`, before any balance changed. *)
Definition acquire_read (owner : string) : buf bool := fun w =>
  let r := session w owner in
  if read_pending r then (Raise DuplicateReservation, w)
  else match acquire w with
       | None => (Ok false, w)
       | Some w' => (Ok true, set_session owner (Reservation (held r + RESERVATION_BYTES) true) w')
       end.

(** [settle_read(size)]. *)
Definition settle_read (owner : string) (size : pyval) : buf unit := fun w =>
  let r := session w owner in
  match as_int size with
  | Some n =>
      if read_pending r && (0 <=? n) && (n <=? RESERVATION_BYTES)
      then let returned := RESERVATION_BYTES - n in
           (let! _ := release (PInt returned) in
            fun w' => (Ok tt, set_session owner (Reservation (held r - returned) false) w')) w
      else (Raise ReadSettlement, w)
  | None => (Raise ReadSettlement, w)
  end.

(** [release_all]. *)
Definition release_all (owner : string) : buf unit := fun w =>
  (let! _ := release (PInt (held (session w owner))) in
   fun w' => (Ok tt, set_session owner (Reservation 0 false) w')) w.

(** ** Runs of the event loop *)

(** One atomic step between two awaits, by any session. *)
Inductive step : world -> world -> Prop :=
  | step_acquire w w' o b : acquire_read o w = (Ok b, w') -> step w w'
  | step_settle w w' o n r : settle_read o n w = (r, w') -> step w w'
  | step_release_all w w' o r : release_all o w = (r, w') -> step w w'
  | step_configure w c : step w (configure c w)
  | step_wake w : step w (clear_changed w).

Inductive reachable : world -> Prop :=
  | reachable_init : reachable initial_world
  | reachable_step w w' : reachable w -> step w w' -> reachable w'.

(** ** The accounting invariant *)

Definition total_held (w : world) : Z := map_fold (fun _ r acc => held r + acc) 0 (sessions w).

Definition reservation_ok (r : reservation) : Prop :=
  0 <= held r /\ (read_pending r = true -> RESERVATION_BYTES <= held r).

Record accounted (w : world) : Prop := {
  acc_balance : used w = total_held w;
  acc_sessions : map_Forall (fun _ r => reservation_ok r) (sessions w) }.

Definition fold_held (m : gmap string reservation) : Z := map_fold (fun _ r acc => held r + acc) 0 m.

Lemma fold_held_insert_new m o r : m !! o = None -> fold_held (<[o := r]> m) = held r + fold_held m.
Proof.
  intros H. unfold fold_held. rewrite map_fold_insert_L; [done| |done].
  intros. lia.
Qed.

Lemma fold_held_insert m o r :
  fold_held (<[o := r]> m) = fold_held m - held (default new_reservation (m !! o)) + held r.
Proof.
  destruct (m !! o) as [r'|] eqn:E; cbn.
  - rewrite <- (insert_delete_id m o r') at 2 by done.
    rewrite <- insert_delete_eq. rewrite !fold_held_insert_new by apply lookup_delete_eq. lia.
  - rewrite fold_held_insert_new by done. lia.
Qed.

Lemma session_ok w o : accounted w -> reservation_ok (session w o).
Proof.
  intros [_ H]. unfold session. destruct (sessions w !! o) as [r|] eqn:E; cbn.
  - exact (H _ _ E).
  - split; cbn; [lia|done].
Qed.

Lemma fold_held_nonneg m : map_Forall (fun _ r => reservation_ok r) m -> 0 <= fold_held m.
Proof.
  induction m as [|o r m Hm IH] using map_ind; intros H.
  - unfold fold_held. rewrite map_fold_empty. lia.
  - apply map_Forall_insert in H as [[Hr _] H]; [|done].
    rewrite fold_held_insert_new by done. specialize (IH H). lia.
Qed.

(** One session never holds more than the whole budget has handed out. *)
Lemma session_held_used w o : accounted w -> held (session w o) <= used w.
Proof.
  intros [Hb Hs]. rewrite Hb. change (total_held w) with (fold_held (sessions w)).
  unfold session. destruct (sessions w !! o) as [r|] eqn:E; cbn; [|by apply fold_held_nonneg].
  rewrite <- (insert_delete_id (sessions w) o r) by done.
  rewrite fold_held_insert_new by apply lookup_delete_eq.
  pose proof (fold_held_nonneg (delete o (sessions w)) (map_Forall_delete _ _ _ Hs)). lia.
Qed.

Lemma session_set_session o r w : session (set_session o r w) o = r.
Proof. unfold session, set_session. cbn [sessions]. by rewrite lookup_insert_eq. Qed.

Lemma set_session_accounted w w0 o r :
  accounted w -> sessions w0 = sessions w ->
  used w0 = used w - held (session w o) + held r -> reservation_ok r ->
  accounted (set_session o r w0).
Proof.
  intros [Hb Hs] Hsame Hu Hr. split; cbn.
  - unfold total_held in *. cbn. rewrite Hu, Hsame, Hb. symmetry. apply fold_held_insert.
  - rewrite Hsame. apply map_Forall_insert_2; done.
Qed.

Lemma acquire_read_accounted w w' o r :
  accounted w -> acquire_read o w = (r, w') -> accounted w'.
Proof.
  intros Hw. unfold acquire_read, acquire.
  destruct (read_pending (session w o)) eqn:Ep; [by intros [= <- <-]|].
  destruct (available w); intros [= <- <-]; [|done].
  apply (set_session_accounted w); [done..|cbn; lia|].
  destruct (session_ok w o Hw). split; cbn; unfold RESERVATION_BYTES, READ_BYTES; lia.
Qed.

Lemma settle_read_ok w o n :
  accounted w -> read_pending (session w o) = true -> 0 <= n <= RESERVATION_BYTES ->
  settle_read o (PInt n) w
  = (Ok tt, set_session o (Reservation (held (session w o) - (RESERVATION_BYTES - n)) false)
              (with_used w (used w - (RESERVATION_BYTES - n)) true)).
Proof.
  intros Hw Hp Hn. unfold settle_read. cbn [as_int]. rewrite Hp.
  replace (true && (0 <=? n) && (n <=? RESERVATION_BYTES)) with true by lia.
  unfold st_bind, release. cbn [as_int].
  pose proof (session_held_used w o Hw). destruct (session_ok w o Hw) as [_ Hge].
  specialize (Hge Hp).
  replace ((0 <=? RESERVATION_BYTES - n) && (RESERVATION_BYTES - n <=? used w)) with true by lia.
  reflexivity.
Qed.

Lemma settle_read_accounted w w' o v r :
  accounted w -> settle_read o v w = (r, w') -> accounted w'.
Proof.
  intros Hw. destruct (as_int v) as [n|] eqn:Ev.
  2: { unfold settle_read. rewrite Ev. by intros [= <- <-]. }
  assert (Hv : v = PInt n) by (destruct v; cbn in Ev; congruence). subst v.
  destruct (read_pending (session w o) && (0 <=? n) && (n <=? RESERVATION_BYTES)) eqn:E.
  2: { unfold settle_read. rewrite Ev, E. by intros [= <- <-]. }
  breflect. rewrite settle_read_ok by done. intros [= <- <-].
  apply (set_session_accounted w); [done..|cbn; lia|].
  destruct (session_ok w o Hw) as [? Hge]. split; cbn; [|done]. specialize (Hge ltac:(done)). lia.
Qed.

Lemma release_all_ok w o :
  accounted w ->
  release_all o w = (Ok tt, set_session o (Reservation 0 false)
                              (with_used w (used w - held (session w o)) true)).
Proof.
  intros Hw. unfold release_all, st_bind, release. cbn [as_int].
  pose proof (session_held_used w o Hw). destruct (session_ok w o Hw) as [? _].
  replace ((0 <=? held (session w o)) && (held (session w o) <=? used w)) with true by lia.
  reflexivity.
Qed.

Lemma release_all_accounted w w' o r :
  accounted w -> release_all o w = (r, w') -> accounted w'.
Proof.
  intros Hw. rewrite release_all_ok by done. intros [= <- <-].
  apply (set_session_accounted w); [done..|cbn; lia|]. split; cbn; [lia|done].
Qed.

Lemma step_accounted w w' : accounted w -> step w w' -> accounted w'.
Proof.
  intros Hw Hs. inversion Hs; subst;
    eauto using acquire_read_accounted, settle_read_accounted, release_all_accounted;
    destruct Hw; by split.
Qed.

Lemma reachable_accounted w : reachable w -> accounted w.
Proof.
  induction 1 as [|w w' _ IH Hstep]; [|by eapply step_accounted].
  split; [done|]. apply map_Forall_empty.
Qed.

(** ** Theorems *)

(** In every reachable state of the event loop the budget's `used` is the
    sum of what the sessions hold and no balance is negative; so releasing
    everything a session holds never raises a settlement violation, leaves it
    at zero and gives back exactly what it held. *)
Theorem budget_accounting (w : world) (o : string) (H : reachable w) :
  used w = total_held w /\ 0 <= used w
  /\ exists w', release_all o w = (Ok tt, w')
       /\ held (session w' o) = 0 /\ used w' = used w - held (session w o)
       /\ release_all o w' = (Ok tt, w').
Proof.
  pose proof (reachable_accounted w H) as Hw.
  split; [apply Hw|]. split.
  { destruct (session_ok w o Hw). pose proof (session_held_used w o Hw). lia. }
  eexists. split; [by apply release_all_ok|].
  set (w' := set_session _ _ _).
  assert (Hs : session w' o = Reservation 0 false).
  { apply session_set_session. }
  rewrite Hs. split_and!; [done|done|].
  assert (Hw' : accounted w') by (eapply release_all_accounted; [done|by apply release_all_ok]).
  rewrite release_all_ok, Hs by done. unfold set_session, with_used, w'. cbn.
  by rewrite insert_insert_eq, Z.sub_0_r.
Qed.

Lemma budget_accounting_witness :
  reachable initial_world /\
  exists w', release_all "s" initial_world = (Ok tt, w') /\ used w' = 0.
Proof.
  split; [constructor|].
  destruct (budget_accounting initial_world "s" reachable_init) as (_ & _ & w' & Hr & _ & Hu & _).
  exists w'. split; [exact Hr|exact Hu].
Defined.

(** A read reserved by [acquire_read] can always be settled with the prefixed
    bytes: for any chunk of at most [READ_BYTES] received bytes, the output of
    the line prefixer fits the reservation, so [settle_read] with its length
    succeeds and the session then holds exactly those bytes more; and the
    reservation itself never takes the budget above the configured limit. *)
Theorem prefixed_read_settles (z : zone) (w w' : world) (o : string) (st : bool)
    (data : bytes) (t : Z)
    (H : reachable w) (Ha : acquire_read o w = (Ok true, w')) (Hd : zlen data <= READ_BYTES) :
  used w' <= limit_bytes w'
  /\ exists w'', settle_read o (PInt (zlen (prefix z st data t).1)) w' = (Ok tt, w'')
       /\ held (session w'' o) = held (session w o) + zlen (prefix z st data t).1
       /\ used w'' = used w + zlen (prefix z st data t).1.
Proof.
  pose proof (reachable_accounted w H) as Hw.
  pose proof (acquire_read_accounted w w' o _ Hw Ha) as Hw'.
  unfold acquire_read, acquire in Ha. destruct (read_pending (session w o)); [done|].
  destruct (available w) eqn:Eav; [|done]. injection Ha as <-.
  set (w1 := set_session _ _ _) in *.
  assert (Hs : session w1 o = Reservation (held (session w o) + RESERVATION_BYTES) true).
  { apply session_set_session. }
  split. { apply Z.leb_le in Eav. exact Eav. }
  eexists. split.
  - apply settle_read_ok; [done|by rewrite Hs|].
    pose proof (prefix_length z st data t). unfold zlen, RESERVATION_BYTES, READ_BYTES, STAMP_BYTES in *. lia.
  - rewrite session_set_session, Hs. subst w1. cbn [held used with_used set_session]. lia.
Qed.

Definition witness_world : world :=
  match acquire_read "s" initial_world with (_, w) => w end.

Lemma prefixed_read_settles_witness :
  acquire_read "s" initial_world = (Ok true, witness_world)
  /\ used witness_world <= limit_bytes witness_world.
Proof.
  split; [reflexivity|].
  refine (proj1 (prefixed_read_settles (fixed_zone 28800) initial_world witness_world "s" true [LF] 0
    _ _ _)); [constructor|reflexivity|vm_compute; discriminate].
Defined.
