(* ===== verification/Collector.v ===== *)
(** * The receive loop of a session ([collection/collector.py])

    [_reader_loop] reads the connection under the node's receive budget, stamps the
    lines, and writes what has gathered in batches; it composes [Buffering],
    [LinePrefix] and [Storage].  One [turn] is one pass through its loop: what the
    world does at each of its awaits (other sessions on the budget, the outcome of
    the read, the clocks, whether a callback raises) is data of the turn, so that
    every execution is a list of turns.  The positions a write returns become the
    chunks of `on_log`.  The archives that a write queues for publication are those
    of [Storage]; their callbacks, the latency counters and the flags that the
    health check reads are left out, and the callback of states does not raise. *)

From S2P Require Import Prelude PyTime PyValue LinePrefix Buffering Storage StorageFacts.
Open Scope camera_scope.

(** ** State *)

(** `LogChunk`. *)
Record LogChunk := Chunk { lc_sequence : Z; lc_data : bytes; lc_offset : Z; lc_path : path }.

Inductive failure : Type :=
  | Storage_error (e : os_error) | Settlement_error (e : buffer_error) | Callback_error | Read_error | Close_error | Cancelled.

(** What the loop does outside its own variables: bytes given to the observers with
    their instant, bytes that an observer refused, chunks given to `on_log`, and
    the states it reports. *)
Inductive event : Type :=
  | Received (data : bytes) (received_at : Z) | Refused (data : bytes) | Log (c : LogChunk) | State (name : string).

(** The writer, the event loop's budget, `_prefixer`, and the variables of the loop:
    `pending`, `pending_bytes`, `flush_deadline` and
    `liveness_read_observation_started`. *)
Record reader := Reader {
  rd_writer : writer; rd_world : world; rd_line : bool;
  rd_pending : list (bytes * Z); rd_bytes : Z; rd_deadline : Q; rd_observed : Q;
  rd_trace : list event }.

Abbreviation rm := (stm reader failure).

(** The environment of a flush: the segment size, the clocks, what other sessions do
    while the batch is written, and the first `on_log` call that raises. *)
Record flushing := Flushing {
  fl_candidate : option pyval; fl_tick : Q; fl_now : Z; fl_others : world -> world; fl_raises : option nat }.

Inductive outcome : Type :=
  | Data (data : bytes) (received_at : Z) (observed : bool)
  | Eof
  | Timed_out
  | Lost              (* `ConnectionError`, `OSError`, `DisconnectError` *)
  | Fails_to_read     (* any other exception *)
  | Cancelled_read.

(** [tn_more] is the loop's condition. *)
Record turn := Turn {
  tn_more : bool; tn_before : world -> world; tn_first : flushing; tn_granted : world -> world; tn_granted_tick : Q;
  tn_reading : world -> world; tn_outcome : outcome; tn_tick : Q; tn_second : flushing; tn_after : Q }.

(** The `finally` block: whether the recovery, the monitor and the connection close
    without an exception. *)
Record ending := Ending { en_closes : bool; en_flush : flushing; en_tick : Q }.

Inductive control : Type := Continue | Break | Waits.

Section collector.
Variables (z : zone) (sha256 : bytes -> string) (row_text : row -> bytes).
(** `id(self)` and the settings of the task. *)
Variables (owner : string) (idle_timeout : Q) (protocol_initializing : bool).

Definition set_reader (s : reader) (w : writer) (b : world) (t : list event) : reader :=
  Reader w b (rd_line s) (rd_pending s) (rd_bytes s) (rd_deadline s) (rd_observed s) t.

Definition emit (e : event) : rm unit := fun s => (Ok tt, set_reader s (rd_writer s) (rd_world s) (rd_trace s ++ [e])).

Definition others (f : world -> world) : rm unit := fun s => (Ok tt, set_reader s (rd_writer s) (f (rd_world s)) (rd_trace s)).

Definition on_writer {A} (m : wm A) : rm A := fun s =>
  match m (rd_writer s) with
  | (Ok a, w) => (Ok a, set_reader s w (rd_world s) (rd_trace s))
  | (Raise e, w) => (Raise (Storage_error e), set_reader s w (rd_world s) (rd_trace s))
  end.

Definition on_world {A} (m : stm world buffer_error A) : rm A := fun s =>
  match m (rd_world s) with
  | (Ok a, b) => (Ok a, set_reader s (rd_writer s) b (rd_trace s))
  | (Raise e, b) => (Raise (Settlement_error e), set_reader s (rd_writer s) b (rd_trace s))
  end.

(** `try: ... finally: ...` *)
Definition finally_ {A} (m : rm A) (after : rm unit) : rm A := fun s =>
  match m s with
  | (r, s) => match after s with (Ok _, s) => (r, s) | (Raise e, s) => (Raise e, s) end
  end.

(** `budget().pending.setdefault(id(self), t)` and `.pop(id(self), None)`. *)
Definition note_pending (t : Q) (b : world) : world :=
  World (used b) (if existsb (fun p => String.eqb p.1 owner) (pending b) then pending b else pending b ++ [(owner, t)])
    (cfg b) (changed b) (sessions b).
Definition pop_pending (b : world) : world :=
  World (used b) (filter (fun p => p.1 <> owner) (pending b)) (cfg b) (changed b) (sessions b).

Definition observe_from (t : Q) : rm unit := fun s =>
  (Ok tt, Reader (rd_writer s) (rd_world s) (rd_line s) (rd_pending s) (rd_bytes s) (rd_deadline s) t (rd_trace s)).

Definition set_deadline (t : Q) : rm unit := fun s =>
  (Ok tt, Reader (rd_writer s) (rd_world s) (rd_line s) (rd_pending s) (rd_bytes s) t (rd_observed s) (rd_trace s)).

(** `to_flush, pending = pending, []` with `pending_bytes = 0`. *)
Definition take_pending : rm (list (bytes * Z)) := fun s =>
  (Ok (rd_pending s), Reader (rd_writer s) (rd_world s) (rd_line s) [] 0 (rd_deadline s) (rd_observed s) (rd_trace s)).

Definition push_pending (line : bool) (prefixed : bytes) (received_at : Z) : rm unit := fun s =>
  (Ok tt, Reader (rd_writer s) (rd_world s) line (rd_pending s ++ [(prefixed, received_at)]) (rd_bytes s + zlen prefixed)
    (rd_deadline s) (rd_observed s) (rd_trace s)).

(** ** [_flush] *)

(** `data[source_offset:source_offset + length]` of the chunk of a position. *)
Definition chunk_of (batch : list (bytes * Z)) (ps : position) : LogChunk :=
  let data := match batch !! ps_source_index ps with Some c => c.1 | None => [] end in
  Chunk (ps_sequence ps) (take (Z.to_nat (ps_length ps)) (drop (Z.to_nat (ps_source_offset ps)) data)) (ps_offset ps) (ps_path ps).

Fixpoint report_positions (raises : option nat) (batch : list (bytes * Z)) (positions : list position) : rm unit :=
  match positions with
  | [] => st_ret tt
  | ps :: positions =>
      match raises with
      | Some O => st_raise Callback_error
      | _ =>
          let! _ := emit (Log (chunk_of batch ps)) in
          let! _ := match ps_rollback ps with Some _ => emit (State "CLOCK_ROLLBACK") | None => st_ret tt end in
          report_positions (Nat.pred <$> raises) batch positions
      end
  end.

Definition stamped_chunks (batch : list (bytes * Z)) : list (bytes * option datetime) :=
  map (fun c => (c.1, Some (Aware c.2))) batch.

Definition release_session : rm unit :=
  let! _ := on_world (release_all owner) in others pop_pending.

Definition _flush (fl : flushing) (batch : list (bytes * Z)) : rm unit :=
  match batch with
  | [] => st_ret tt
  | _ =>
      let! _ := others (fl_others fl) in
      let! positions := finally_
        (on_writer (write_many z sha256 row_text (fl_candidate fl) (fl_tick fl) (fl_now fl) (stamped_chunks batch)))
        release_session in
      let! _ := observe_from (fl_tick fl) in
      report_positions (fl_raises fl) batch positions
  end.

(** [HourlyWriter.sync_due]. *)
Definition sync_due (tick : Q) : wm bool := fun w =>
  match w_error w with
  | Some e => (Raise e, w)
  | None => if negb (w_size w =? w_durable w) && Qle_bool 1 (tick - w_last_sync w) then (Ok true, sync_files tick w) else (Ok false, w)
  end.

Definition when (b : bool) (m : rm unit) : rm unit := if b then m else st_ret tt.
Definition nonempty {A} (l : list A) : bool := match l with [] => false | _ => true end.

Definition flush_pending (fl : flushing) : rm unit := let! batch := take_pending in _flush fl batch.

(** The next deadline: the clock and the batch's longest wait. *)
Definition renew_deadline (clock : Q) : rm unit :=
  let! s := st_get in set_deadline (clock + (batch_parameters (rd_world s)).2)%Q.

(** ** [_read_budgeted] and the body of the loop *)

(** The wait for the budget: [false] while it is not granted. *)
Definition _acquire (t : turn) : rm bool :=
  let! s := st_get in
  let waited := negb (available (rd_world s)) in
  let! _ := when waited (others (tn_granted t)) in
  let! granted := on_world (acquire_read owner) in
  if negb granted then st_ret false
  else let! _ := when waited (observe_from (tn_granted_tick t)) in let! _ := others (tn_reading t) in st_ret true.

Definition settle_nothing : rm unit := on_world (settle_read owner (PInt 0)).

(** The bytes of a read. *)
Definition receive (t : turn) (data : bytes) (received_at : Z) (observed : bool) : rm control :=
  let! _ := observe_from (tn_tick t) in
  if negb observed then let! _ := emit (Refused data) in st_raise Callback_error
  else
    let! _ := emit (Received data received_at) in
    let! s := st_get in
    let '(prefixed, line) := prefix z (rd_line s) data received_at in
    let! _ := on_world (settle_read owner (PInt (zlen prefixed))) in
    let! _ := others (note_pending (tn_tick t)) in
    let! _ := push_pending line prefixed received_at in
    let! s := st_get in
    let! _ := when (((batch_parameters (rd_world s)).1 <=? rd_bytes s) || Qle_bool (rd_deadline s) (tn_tick t))
                (let! _ := flush_pending (tn_second t) in renew_deadline (tn_after t)) in
    st_ret Continue.

(** `except TimeoutError`. *)
Definition quiet (t : turn) : rm control :=
  let! s := st_get in
  let! _ := when (nonempty (rd_pending s)) (flush_pending (tn_second t)) in
  let! synced := on_writer (sync_due (tn_after t)) in
  let! _ := when synced (observe_from (tn_after t)) in
  let! _ := renew_deadline (tn_after t) in
  let! s := st_get in
  if negb protocol_initializing && Qle_bool idle_timeout (tn_after t - rd_observed s)
  then let! _ := emit (State "IDLE_TIMEOUT") in st_ret Break
  else st_ret Continue.

Definition pass (t : turn) : rm control :=
  if negb (tn_more t) then st_ret Break
  else
    let! _ := others (tn_before t) in
    let! s := st_get in
    let! _ := when (nonempty (rd_pending s) && negb (available (rd_world s))) (flush_pending (tn_first t)) in
    let! granted := _acquire t in
    if negb granted then st_ret Waits
    else
      match tn_outcome t with
      | Data data received_at observed => receive t data received_at observed
      | Eof => let! _ := settle_nothing in st_ret Break
      | Timed_out => let! _ := settle_nothing in quiet t
      | Lost => let! _ := settle_nothing in let! _ := emit (State "READ_ERROR") in st_ret Break
      | Fails_to_read => let! _ := settle_nothing in st_raise Read_error
      | Cancelled_read => let! _ := settle_nothing in st_raise Cancelled
      end.

(** The loop over some turns: [Continue] while it has not ended, [Waits] while it
    waits for the budget. *)
Fixpoint loop (turns : list turn) : rm control :=
  match turns with
  | [] => st_ret Continue
  | t :: turns => let! c := pass t in match c with Continue => loop turns | Break | Waits => st_ret c end
  end.

(** ** The end of the session *)

Definition cleanup (en : ending) : rm unit :=
  if negb (en_closes en) then st_raise Close_error
  else
    let! s := st_get in
    let! _ := when (nonempty (rd_pending s)) (flush_pending (en_flush en)) in
    on_writer (close sha256 row_text (en_tick en)).

Definition report_error (r : result failure unit) (s : reader) : reader :=
  match r with
  | Ok _ | Raise Cancelled => s
  | Raise _ => (emit (State "READ_ERROR") s).2
  end.

Inductive status : Type := Reading | Waiting | Closed (error : option failure).

(** [_reader_loop]. *)
Definition _reader_loop (turns : list turn) (en : ending) (s : reader) : status * reader :=
  match loop turns s with
  | (Ok Continue, s) => (Reading, s)
  | (Ok Waits, s) => (Waiting, s)
  | (r, s) =>
      let r := match r with Ok _ => Ok tt | Raise e => Raise e end in
      let s := report_error r s in
      let '(c, s) := cleanup en s in
      let s := report_error c s in
      let s := (let! _ := release_session in emit (State "CLOSED")) s in
      (Closed match c, r with Raise e, _ => Some e | Ok _, Raise e => Some e | Ok _, Ok _ => None end, s.2)
  end.

(** The reader at the start of a session. *)
Definition new_reader (w : writer) (b : world) (tick : Q) : reader :=
  Reader w b initial_line_state [] 0 (tick + (batch_parameters b).2) tick [].
End collector.

(** ** What the trace tells *)

Definition received_of (trace : list event) : list (bytes * Z) :=
  omap (fun e => match e with Received data t => Some (data, t) | _ => None end) trace.
Definition logs_of (trace : list event) : list LogChunk := omap (fun e => match e with Log c => Some c | _ => None end) trace.

(** A chunk names bytes on disk that are its data. *)
Definition on_disk (w : writer) (c : LogChunk) : Prop :=
  0 <= lc_offset c /\ lc_offset c + zlen (lc_data c) <= zlen (body_at (w_files w) (lc_path c))
  /\ sl (lc_offset c) (zlen (lc_data c)) (body_at (w_files w) (lc_path c)) = lc_data c /\ lc_data c <> [].

Definition logged (s : reader) : bytes := concat (map lc_data (logs_of (rd_trace s))).
Definition numbered (s : reader) : list Z := map lc_sequence (logs_of (rd_trace s)).
Definition waiting (s : reader) : bytes := concat (map fst (rd_pending s)).

(** Other sessions keep the accounts of the budget and this session's balance. *)
Definition fair (owner : string) (f : world -> world) : Prop :=
  forall b, accounted b -> accounted (f b) /\ Buffering.session (f b) owner = Buffering.session b owner.

Definition fair_flush (owner : string) (fl : flushing) : Prop := fair owner (fl_others fl).

Record turn_ok (owner : string) (t : turn) : Prop := {
  to_before : fair owner (tn_before t); to_first : fair_flush owner (tn_first t); to_granted : fair owner (tn_granted t);
  to_reading : fair owner (tn_reading t); to_second : fair_flush owner (tn_second t);
  to_data : forall data at_ ok, tn_outcome t = Data data at_ ok -> data <> [] /\ zlen data <= READ_BYTES }.

Section facts.
Variables (z : zone) (sha256 : bytes -> string) (row_text : row -> bytes).
Variables (owner : string) (idle_timeout : Q) (protocol_initializing : bool).
(** The root and the writer at the start of the session. *)
Variables (files0 : gmap path physical) (w0 : writer).

Abbreviation ok_writer := (writer_ok z sha256 row_text files0).

(** The received bytes, stamped, are those stored and those that wait. *)
Record stored (s : reader) : Prop := Stored {
  st_writer : ok_writer (rd_writer s);
  st_disk : no_failure w0 -> no_failure (rd_writer s);
  st_world : accounted (rd_world s);
  st_stream : (prefix_stream z true (received_of (rd_trace s))).1 = content (rd_writer s) ++ waiting s;
  st_line : (prefix_stream z true (received_of (rd_trace s))).2 = rd_line s;
  st_logs : logged s `prefix_of` content (rd_writer s);
  st_numbers : numbered s `prefix_of` seqZ 1 (w_sequence (rd_writer s));
  st_chunks : Forall (on_disk (rd_writer s)) (logs_of (rd_trace s)) }.

(** Every stored byte has been reported. *)
Definition told (s : reader) : Prop := logged s = content (rd_writer s) /\ numbered s = seqZ 1 (w_sequence (rd_writer s)).

Definition holds (s : reader) (n : Z) : Prop := Buffering.session (rd_world s) owner = Reservation n false.

(** At the head of the loop. *)
Record looping (s : reader) : Prop := Looping {
  lp_stored : stored s;
  lp_told : told s;
  lp_bytes : rd_bytes s = zlen (waiting s);
  lp_holds : holds s (zlen (waiting s)) }.

(** The disk has failed: the writer refuses, what was reported is on disk. *)
Record failed (s : reader) : Prop := Failed {
  fd_error : w_error (rd_writer s) <> None;
  fd_disk : ~ no_failure w0;
  fd_world : accounted (rd_world s);
  fd_chunks : Forall (on_disk (rd_writer s)) (logs_of (rd_trace s)) }.

(** After an exception: the disk has failed, or everything is kept and what waits
    has not been reported. *)
Definition broken (e : failure) (s : reader) : Prop :=
  match e with
  | Storage_error _ => failed s
  | Settlement_error _ => False
  | _ => stored s /\ (rd_pending s <> [] -> told s)
  end.

Definition ends {A} (m : rm A) (Q : A -> reader -> Prop) (s : reader) : Prop :=
  match m s with (Ok a, s') => Q a s' | (Raise e, s') => broken e s' end.

Lemma ends_bind {A B} (m : rm A) (k : A -> rm B) Q s : ends m (fun a s => ends (k a) Q s) s -> ends (st_bind m k) Q s.
Proof. unfold ends, st_bind. by destruct (m s) as [[a|e] s']. Qed.

Lemma ends_ret {A} (a : A) (Q : A -> reader -> Prop) s : Q a s -> ends (st_ret a) Q s.
Proof. done. Qed.

Lemma ends_get {A} (k : reader -> rm A) Q s : ends (k s) Q s -> ends (st_bind st_get k) Q s.
Proof. done. Qed.

Lemma ends_mono {A} (m : rm A) (Q Q' : A -> reader -> Prop) s : ends m Q s -> (forall a s', Q a s' -> Q' a s') -> ends m Q' s.
Proof. unfold ends. intros Hm HQ. destruct (m s) as [[a|e] s']; auto. Qed.

Lemma ends_when b (m : rm unit) Q s : (b = true -> ends m Q s) -> (b = false -> Q tt s) -> ends (when b m) Q s.
Proof. destruct b; cbn; auto. Qed.

(** What other sessions do to the budget does not matter. *)
Definition with_world (s : reader) (b : world) : reader := set_reader s (rd_writer s) b (rd_trace s).

Lemma stored_world s b : stored s -> accounted b -> stored (with_world s b).
Proof. intros [] ?. by split. Qed.

Lemma looping_world s b : looping s -> accounted b -> Buffering.session b owner = Buffering.session (rd_world s) owner -> looping (with_world s b).
Proof. intros [Hs [] Hb Hh] Ha E. split; [by apply stored_world|done|done|]. unfold holds in *. cbn. by rewrite E. Qed.

Lemma others_looping f s : fair owner f -> looping s -> ends (others f) (fun _ => looping) s.
Proof.
  intros Hf Hs. unfold ends, others. destruct (Hf (rd_world s)) as [Ha E]; [by apply st_world, lp_stored|].
  by apply looping_world.
Qed.

(** Fields of the loop that nothing else depends on. *)
Lemma looping_clock s d o : looping s ->
  looping (Reader (rd_writer s) (rd_world s) (rd_line s) (rd_pending s) (rd_bytes s) d o (rd_trace s)).
Proof. intros [[] [] Hb Hh]. by split. Qed.

Lemma pending_accounted b l : accounted b -> accounted (World (used b) l (cfg b) (changed b) (sessions b)).
Proof. by intros []. Qed.

(** ** A flush *)

Lemma chunk_data batch ps : lc_data (chunk_of batch ps) = src_slice (source_of (stamped_chunks batch)) ps.
Proof.
  unfold chunk_of, src_slice, sl, source_of, stamped_chunks. cbn. rewrite list_lookup_fmap. by destruct (batch !! ps_source_index ps).
Qed.

Lemma chunk_on_disk w batch ps : pos_ok (source_of (stamped_chunks batch)) w ps -> on_disk w (chunk_of batch ps).
Proof.
  intros (Hl & Ho & Hb & E). unfold on_disk. rewrite chunk_data, <- E. cbn [chunk_of lc_offset lc_path].
  assert (Hlen : zlen (sl (ps_offset ps) (ps_length ps) (body_at (w_files w) (ps_path ps))) = ps_length ps).
  { unfold sl, zlen in *. rewrite length_take, length_drop. lia. }
  rewrite Hlen. split_and!; [done|done|done|]. intros E0. rewrite E0, zlen_nil in Hlen. lia.
Qed.

Lemma on_disk_extends w w' c : extends w w' -> on_disk w c -> on_disk w' c.
Proof.
  intros He (Ho & Hb & E & Hne). unfold on_disk, body_at in *. destruct (w_files w !! lc_path c) as [ph|] eqn:Ep.
  - destruct (He _ _ Ep) as (ph' & -> & Hpre & _).
    { intros E0. rewrite E0 in E. unfold sl in E. rewrite drop_nil, take_nil in E. by destruct Hne. }
    assert (Hlen : zlen (body ph) <= zlen (body ph')).
    { destruct Hpre as [k ->]. rewrite zlen_app. pose proof (zlen_nonneg k). lia. }
    split_and!; [done|lia| |done].
    rewrite <- E at 2. apply sl_prefix; [done|apply zlen_nonneg|done|done].
  - unfold sl in E. rewrite drop_nil, take_nil in E. by destruct Hne.
Qed.

Lemma received_snoc l e : received_of (l ++ [e]) = received_of l ++ match e with Received d t => [(d, t)] | _ => [] end.
Proof. unfold received_of. rewrite omap_app. by destruct e. Qed.

Lemma logs_snoc l e : logs_of (l ++ [e]) = logs_of l ++ match e with Log c => [c] | _ => [] end.
Proof. unfold logs_of. rewrite omap_app. by destruct e. Qed.

(** Reporting the positions of a write. *)
Lemma report_ends raises batch ps s : ok_writer (rd_writer s) -> (no_failure w0 -> no_failure (rd_writer s)) -> accounted (rd_world s) ->
  rd_pending s = [] -> (prefix_stream z true (received_of (rd_trace s))).1 = content (rd_writer s) ->
  (prefix_stream z true (received_of (rd_trace s))).2 = rd_line s ->
  Forall (on_disk (rd_writer s)) (logs_of (rd_trace s)) ->
  Forall (on_disk (rd_writer s)) (map (chunk_of batch) ps) ->
  logged s ++ concat (map lc_data (map (chunk_of batch) ps)) = content (rd_writer s) ->
  numbered s ++ map lc_sequence (map (chunk_of batch) ps) = seqZ 1 (w_sequence (rd_writer s)) ->
  ends (report_positions raises batch ps) (fun _ s' => stored s' /\ told s' /\ rd_writer s' = rd_writer s /\ rd_world s' = rd_world s
    /\ rd_pending s' = [] /\ rd_bytes s' = rd_bytes s) s.
Proof.
  intros Hw Hf Ha Hp. revert s raises Hw Hf Ha Hp. induction ps as [|ps l IH]; intros s raises Hw Hf Ha Hp Hst Hline Hlogs Hnew Hcat Hseq.
  { cbn [map concat] in *. rewrite app_nil_r in *. split; [|done]. split; auto.
    - unfold waiting. by rewrite Hp, app_nil_r.
    - by rewrite Hcat.
    - by rewrite Hseq. }
  cbn [report_positions map concat] in *. apply Forall_cons in Hnew as [Hc Hnew].
  assert (Hgo : forall raises', ends (let! _ := emit (Log (chunk_of batch ps)) in
      let! _ := match ps_rollback ps with Some _ => emit (State "CLOCK_ROLLBACK") | None => st_ret tt end in
      report_positions raises' batch l)
    (fun _ s' => stored s' /\ told s' /\ rd_writer s' = rd_writer s /\ rd_world s' = rd_world s
      /\ rd_pending s' = [] /\ rd_bytes s' = rd_bytes s) s).
  { intros raises'. apply ends_bind. set (s1 := set_reader s (rd_writer s) (rd_world s) (rd_trace s ++ [Log (chunk_of batch ps)])).
    change (ends (let! _ := match ps_rollback ps with Some _ => emit (State "CLOCK_ROLLBACK") | None => st_ret tt end in
      report_positions raises' batch l) (fun _ s' => stored s' /\ told s' /\ rd_writer s' = rd_writer s /\ rd_world s' = rd_world s
      /\ rd_pending s' = [] /\ rd_bytes s' = rd_bytes s) s1).
    apply ends_bind. set (s2 := match ps_rollback ps with
      Some _ => set_reader s1 (rd_writer s1) (rd_world s1) (rd_trace s1 ++ [State "CLOCK_ROLLBACK"]) | None => s1 end).
    assert (El : logs_of (rd_trace s2) = logs_of (rd_trace s) ++ [chunk_of batch ps]).
    { unfold s2, s1. destruct (ps_rollback ps); cbn; rewrite ?logs_snoc, ?app_nil_r; done. }
    assert (Er : received_of (rd_trace s2) = received_of (rd_trace s)).
    { unfold s2, s1. destruct (ps_rollback ps); cbn; rewrite ?received_snoc, ?app_nil_r; done. }
    assert (Es : rd_writer s2 = rd_writer s /\ rd_world s2 = rd_world s /\ rd_pending s2 = rd_pending s /\ rd_bytes s2 = rd_bytes s /\ rd_line s2 = rd_line s)
      by (unfold s2, s1; by destruct (ps_rollback ps)).
    destruct Es as (Ew & Eb & Ep & En & Eli).
    assert (Hrun : ends (report_positions raises' batch l) (fun _ s' => stored s' /\ told s' /\ rd_writer s' = rd_writer s /\ rd_world s' = rd_world s
      /\ rd_pending s' = [] /\ rd_bytes s' = rd_bytes s) s2).
    { eapply ends_mono; [apply IH|]; rewrite ?Ew, ?Eb, ?Er, ?Eli; auto; try congruence.
      - rewrite El. by apply Forall_app; split; [|constructor].
      - unfold logged. rewrite El, map_app, concat_app. cbn. rewrite app_nil_r, <- app_assoc. exact Hcat.
      - unfold numbered. rewrite El, map_app, <- app_assoc. exact Hseq. }
    unfold ends in *. unfold s2 in Hrun. by destruct (ps_rollback ps). }
  destruct raises as [[|n]|]; [|apply Hgo..]. cbn. split; [|by rewrite Hp]. split; auto.
  - unfold waiting. by rewrite Hp, app_nil_r.
  - rewrite <- Hcat. apply prefix_app_r. done.
  - rewrite <- Hseq. apply prefix_app_r. done.
Qed.

Lemma release_world b n : accounted b -> Buffering.session b owner = n ->
  exists b', release_all owner b = (Ok tt, b') /\ accounted (pop_pending owner b') /\ Buffering.session (pop_pending owner b') owner = Reservation 0 false.
Proof.
  intros Ha _. eexists. split; [by apply release_all_ok|]. split.
  - apply pending_accounted. eapply release_all_accounted; [exact Ha|by apply release_all_ok].
  - change (Buffering.session (pop_pending owner ?b) owner) with (Buffering.session b owner). apply session_set_session.
Qed.

(** What waits is written, reported and gives its balance back. *)
Lemma flush_ends fl s : fair_flush owner fl -> stored s -> (rd_pending s <> [] -> told s) -> rd_pending s <> [] ->
  ends (flush_pending z sha256 row_text owner fl) (fun _ s' => looping s' /\ rd_pending s' = []) s.
Proof.
  intros Hfl Hs Hrep Hne. destruct Hs as [Hw Hdisk Ha Hst Hli Hlg Hnu Hch]. destruct (Hrep Hne) as [Ht1 Ht2].
  unfold flush_pending. apply ends_bind. cbn [take_pending ends]. unfold ends at 1, take_pending.
  set (s1 := Reader _ _ _ [] 0 _ _ _). set (batch := rd_pending s) in *. unfold _flush.
  destruct batch as [|c0 batch0] eqn:Eb; [done|]. rewrite <- Eb in *. clear Eb.
  apply ends_bind. unfold ends at 1, others. set (s2 := set_reader s1 _ _ _). destruct (Hfl (rd_world s1) Ha) as [Ha2 _].
  change (fl_others fl (rd_world s1)) with (rd_world s2) in Ha2.
  apply ends_bind. unfold ends at 1, finally_, on_writer.
  pose proof (write_many_steps z sha256 row_text files0 (fl_candidate fl) (fl_tick fl) (fl_now fl) (stamped_chunks batch) (rd_writer s2) Hw) as Hwrite.
  destruct (write_many _ _ _ _ _ _ _ (rd_writer s2)) as [[ps|e] w'].
  - destruct Hwrite as [(Hw' & Hc' & Hdata & Hpos & Hsq & Hq) [He Hn]].
    unfold release_session, on_world, st_bind. cbn [rd_world set_reader].
    destruct (release_world (rd_world s2) _ Ha2 eq_refl) as (b' & Erel & Hb' & Hs0). cbn [rd_world set_reader] in Erel. rewrite Erel. cbn [others].
    unfold others. apply ends_bind. unfold ends at 1, observe_from. set (s3 := Reader _ _ _ _ _ _ _ _).
    assert (Epay : concat (map fst (stamped_chunks batch)) = waiting s) by (unfold stamped_chunks, waiting; by rewrite map_map).
    rewrite Epay in *. assert (Hst3 : (prefix_stream z true (received_of (rd_trace s3))).1 = content w') by by rewrite Hc'.
    eapply ends_mono; [apply (report_ends (fl_raises fl) batch ps s3)|]; try done.
    + intros Hn0. apply Hn. by apply Hdisk.
    + eapply Forall_impl; [exact Hch|]. intros c. by apply on_disk_extends.
    + apply Forall_map. eapply Forall_impl; [exact Hpos|]. intros x. apply chunk_on_disk.
    + rewrite map_map, (map_ext _ (src_slice (source_of (stamped_chunks batch)))) by (intros; apply chunk_data).
      rewrite Hdata. change (logged s3) with (logged s). rewrite Ht1. change (rd_writer s3) with w'. by rewrite Hc'.
    + change (numbered s3) with (numbered s). rewrite Ht2, map_map. change (map (fun x => lc_sequence (chunk_of batch x)) ps) with (map ps_sequence ps).
      rewrite Hsq. change (rd_writer s3) with w'. rewrite Hq, seqZ_app by (apply (wo_positive _ _ _ _ _ Hw) || apply zlen_nonneg). f_equal. f_equal. cbn. lia.
    + intros _ s' (Hs' & Ht' & Ew & Ewd & Ep & En). split; [|done]. split; [done|done| |].
      * unfold waiting. by rewrite Ep, En.
      * unfold holds, waiting. rewrite Ewd, Ep. exact Hs0.
  - destruct Hwrite as (He & Hn & Herr). unfold release_session, on_world, st_bind. cbn [rd_world set_reader].
    destruct (release_world (rd_world s2) _ Ha2 eq_refl) as (b' & Erel & Hb' & Hs0). cbn [rd_world set_reader] in Erel. rewrite Erel.
    cbn. split; cbn; [by rewrite Herr|tauto|done|]. eapply Forall_impl; [exact Hch|]. intros c. by apply on_disk_extends.
Qed.

(** ** A pass through the loop *)

(** Between the reservation and its settlement. *)
Record reading (s : reader) : Prop := Reading_ {
  rg_stored : stored s; rg_told : told s; rg_bytes : rd_bytes s = zlen (waiting s);
  rg_holds : Buffering.session (rd_world s) owner = Reservation (zlen (waiting s) + RESERVATION_BYTES) true }.

Lemma looping_reading s b : looping s -> acquire_read owner (rd_world s) = (Ok true, b) -> reading (with_world s b).
Proof.
  intros [Hs Ht Hb Hh] Ha. assert (Hacc : accounted b) by (eapply acquire_read_accounted; [apply Hs|exact Ha]).
  unfold acquire_read, holds in *. rewrite Hh in Ha. cbn in Ha. destruct (acquire (rd_world s)) as [b'|]; [|done]. injection Ha as <-.
  split; [by apply stored_world|done|done|]. cbn. by rewrite session_set_session.
Qed.

Lemma reading_clock s o : reading s ->
  reading (Reader (rd_writer s) (rd_world s) (rd_line s) (rd_pending s) (rd_bytes s) (rd_deadline s) o (rd_trace s)).
Proof. intros [[] [] Hb Hh]. by split. Qed.

Lemma reading_world s b : reading s -> accounted b -> Buffering.session b owner = Buffering.session (rd_world s) owner -> reading (with_world s b).
Proof. intros [Hs [] Hb Hh] Ha E. split; [by apply stored_world|done|done|]. cbn. by rewrite E. Qed.

(** The wait for the budget is entered with nothing in hand. *)
Definition parked (s : reader) : Prop := looping s /\ rd_pending s = [] /\ available (rd_world s) = false.

Lemma acquire_ends t s : turn_ok owner t -> looping s -> (rd_pending s <> [] -> available (rd_world s) = true) ->
  ends (_acquire owner t) (fun granted s' => if granted then reading s' /\ rd_pending s' = rd_pending s else parked s') s.
Proof.
  intros Ht Hs Hav. unfold _acquire. apply ends_get. set (waited := negb (available (rd_world s))).
  apply ends_bind. apply (ends_mono _ (fun _ s' => looping s' /\ rd_pending s' = rd_pending s
    /\ (available (rd_world s') = false -> rd_pending s' = []))).
  { apply ends_when.
    - intros Hw. unfold others, ends. destruct (to_granted owner t Ht (rd_world s)) as [Ha E]; [apply Hs|].
      split; [by apply looping_world|]. split; [done|]. intros _. cbn. destruct (rd_pending s) eqn:Ep; [done|].
      unfold waited in Hw. by rewrite Hav in Hw.
    - intros Hw. split; [done|]. split; [done|]. intros Hno. unfold waited in Hw. rewrite Hno in Hw. done. }
  intros [] s1 (Hs1 & Ep & Hpark). rewrite <- Ep. clear Ep. apply ends_bind. unfold ends at 1, on_world.
  destruct (acquire_read owner (rd_world s1)) as [[granted|e] b] eqn:E.
  - destruct granted; cbn [negb].
    + apply ends_bind. apply (ends_mono _ (fun _ s' => reading s' /\ rd_pending s' = rd_pending s1)).
      { pose proof (looping_reading s1 b Hs1 E) as Hr. apply ends_when; intros _; [|done]. unfold ends, observe_from.
        split; [exact (reading_clock _ _ Hr)|done]. }
      intros [] s2 (Hr & Ep). rewrite <- Ep. apply ends_bind. unfold ends at 1, others.
      destruct (to_reading owner t Ht (rd_world s2)) as [Ha Es]; [apply Hr|]. split; [by apply reading_world|done].
    + unfold acquire_read, acquire in E. pose proof (lp_holds _ Hs1) as Hh. unfold holds in Hh. rewrite Hh in E. cbn in E.
      destruct (available (rd_world s1)) eqn:Ea; [done|]. injection E as <-. split; [|by split; [apply Hpark|]].
      destruct s1. exact Hs1.
  - unfold acquire_read in E. pose proof (lp_holds _ Hs1) as Hh. unfold holds in Hh. rewrite Hh in E. cbn in E.
    destruct (acquire _); done.
Qed.

Lemma settle_ends (Q : unit -> reader -> Prop) s n : reading s -> 0 <= n <= RESERVATION_BYTES ->
  (forall b, accounted b -> Buffering.session b owner = Reservation (zlen (waiting s) + n) false -> Q tt (with_world s b)) ->
  ends (on_world (settle_read owner (PInt n))) Q s.
Proof.
  intros [Hs _ _ Hh] Hn HQ. unfold ends, on_world. rewrite settle_read_ok by (done || apply Hs || by rewrite Hh). apply HQ.
  - eapply settle_read_accounted; [apply Hs|]. by apply settle_read_ok; [apply Hs|rewrite Hh|].
  - rewrite session_set_session, Hh. cbn. f_equal. lia.
Qed.

Lemma settle_nothing_ends s : reading s -> ends (settle_nothing owner) (fun _ s' => looping s' /\ rd_pending s' = rd_pending s) s.
Proof.
  intros Hs. apply settle_ends; [done|unfold RESERVATION_BYTES, READ_BYTES; lia|]. intros b Ha Hb. split; [|done].
  destruct Hs as [Hst [] Hby _]. split; [by apply stored_world|done|done|]. unfold holds. cbn. by rewrite Hb, Z.add_0_r.
Qed.

Lemma prefix_stream_snoc st l d t : prefix_stream z st (l ++ [(d, t)])
  = ((prefix_stream z st l).1 ++ (prefix z (prefix_stream z st l).2 d t).1, (prefix z (prefix_stream z st l).2 d t).2).
Proof.
  revert st. induction l as [|[d' t'] l IH]; intros st; cbn [app prefix_stream].
  - cbn. destruct (prefix z st d t) as [o st']. cbn. by rewrite app_nil_r.
  - destruct (prefix z st d' t') as [o st']. rewrite IH. destruct (prefix_stream z st' l) as [o2 st2]. cbn. by rewrite app_assoc.
Qed.

(** A report that is neither bytes nor a chunk. *)
Lemma stored_trace s e : stored s -> received_of [e] = [] -> logs_of [e] = [] ->
  stored (set_reader s (rd_writer s) (rd_world s) (rd_trace s ++ [e])).
Proof.
  intros [] Hr Hl. assert (Er : received_of (rd_trace s ++ [e]) = received_of (rd_trace s)) by (unfold received_of in *; by rewrite omap_app, Hr, app_nil_r).
  assert (El : logs_of (rd_trace s ++ [e]) = logs_of (rd_trace s)) by (unfold logs_of in *; by rewrite omap_app, Hl, app_nil_r).
  unfold logged, numbered, waiting in *. split; unfold logged, numbered, waiting; cbn [rd_writer rd_world rd_trace set_reader rd_line rd_pending]; by rewrite ?Er, ?El.
Qed.

Lemma told_trace s e : told s -> logs_of [e] = [] -> told (set_reader s (rd_writer s) (rd_world s) (rd_trace s ++ [e])).
Proof.
  intros [H1 H2] Hl. unfold told, logged, numbered in *. cbn. unfold logs_of in *. by rewrite omap_app, Hl, app_nil_r.
Qed.

Lemma looping_trace s e : looping s -> received_of [e] = [] -> logs_of [e] = [] ->
  looping (set_reader s (rd_writer s) (rd_world s) (rd_trace s ++ [e])).
Proof. intros [Hs Ht Hb Hh] Hr Hl. split; [by apply stored_trace|by apply told_trace|done|done]. Qed.

Lemma renew_ends clock s : looping s -> ends (renew_deadline clock) (fun _ s' => looping s' /\ rd_pending s' = rd_pending s) s.
Proof. intros Hs. unfold renew_deadline. apply ends_get. split; [by apply looping_clock|done]. Qed.

Lemma flush_renew_ends fl clock s : fair_flush owner fl -> looping s -> rd_pending s <> [] ->
  ends (let! _ := flush_pending z sha256 row_text owner fl in renew_deadline clock) (fun _ => looping) s.
Proof.
  intros Hfl Hs Hne. apply ends_bind. eapply ends_mono; [apply flush_ends; [done|apply Hs|intros; apply Hs|done]|].
  intros [] s' [Hs' _]. eapply ends_mono; [by apply renew_ends|]. by intros [] ? [? _].
Qed.

Lemma receive_ends t s data received_at observed : turn_ok owner t -> reading s -> data <> [] -> zlen data <= READ_BYTES ->
  ends (receive z sha256 row_text owner t data received_at observed) (fun c s' => c = Continue /\ looping s') s.
Proof.
  intros Ht Hs Hne Hlen. unfold receive. apply ends_bind. unfold ends at 1, observe_from.
  pose proof (reading_clock s (tn_tick t) Hs) as Hs1. clear Hs. set (s1 := Reader _ _ _ _ _ _ _ _) in *. clearbody s1. clear s.
  destruct observed; cbn [negb].
  2:{ apply ends_bind. cbn. split; [by apply (stored_trace s1); [apply Hs1|..]|]. intros _. by apply (told_trace s1); [apply Hs1|]. }
  apply ends_bind. unfold ends at 1, emit. apply ends_get.
  destruct (prefix z (rd_line (set_reader s1 (rd_writer s1) (rd_world s1) (rd_trace s1 ++ [Received data received_at]))) data received_at)
    as [prefixed line] eqn:Ep. cbn [rd_line set_reader] in Ep.
  set (s2 := set_reader s1 (rd_writer s1) (rd_world s1) (rd_trace s1 ++ [Received data received_at])).
  destruct Hs1 as [[Hw Hd Ha Hst Hli Hlg Hnu Hch] [Ht1 Ht2] Hb Hh].
  assert (Elogs : logs_of (rd_trace s2) = logs_of (rd_trace s1)) by (cbn; by rewrite logs_snoc, app_nil_r).
  assert (Hsize : 0 <= zlen prefixed <= RESERVATION_BYTES).
  { pose proof (prefix_length z (rd_line s1) data received_at) as Hp. rewrite Ep in Hp. cbn in Hp.
    unfold zlen, RESERVATION_BYTES, READ_BYTES, STAMP_BYTES in *. lia. }
  apply ends_bind. unfold ends at 1, on_world. rewrite settle_read_ok; [|exact Ha|cbn; by rewrite Hh|done].
  set (b := set_session owner _ _). assert (Hb' : accounted b).
  { eapply settle_read_accounted; [exact Ha|]. apply settle_read_ok; [exact Ha|cbn; by rewrite Hh|done]. }
  assert (Hbo : Buffering.session b owner = Reservation (zlen (waiting s1) + zlen prefixed) false).
  { unfold b. rewrite session_set_session. change (rd_world s2) with (rd_world s1). rewrite Hh. cbn. f_equal. lia. }
  clearbody b. apply ends_bind. unfold ends at 1, others. apply ends_bind. unfold ends at 1, push_pending.
  match goal with |- ends _ _ ?s => set (s3 := s) end.
  assert (Hs3 : looping s3).
  { unfold s3. split; [split|..].
    - exact Hw.
    - exact Hd.
    - by apply pending_accounted.
    - cbn. rewrite received_snoc, prefix_stream_snoc. cbn. rewrite Hst, Hli, Ep. cbn. unfold waiting. cbn. by rewrite map_app, concat_app, <- app_assoc; cbn; rewrite app_nil_r.
    - cbn. rewrite received_snoc, prefix_stream_snoc. cbn. by rewrite Hli, Ep.
    - unfold logged in *. cbn in *. by rewrite Elogs.
    - unfold numbered in *. cbn in *. by rewrite Elogs.
    - cbn in *. by rewrite Elogs.
    - unfold told, logged, numbered in *. cbn in *. by rewrite Elogs.
    - cbn. unfold waiting in *. cbn. rewrite map_app, concat_app, zlen_app, Hb. cbn. by rewrite app_nil_r.
    - unfold holds, waiting in *. cbn. change (Buffering.session (note_pending owner (tn_tick t) b) owner) with (Buffering.session b owner).
      rewrite Hbo, map_app, concat_app, zlen_app. cbn. by rewrite app_nil_r. }
  assert (Hne3 : rd_pending s3 <> []) by (unfold s3; cbn; by destruct (rd_pending s1)).
  clearbody s3. apply ends_get, ends_bind. apply (ends_mono _ (fun _ => looping)); [|by intros [] s' Hs'; apply ends_ret].
  apply ends_when; intros _; [|done]. by apply flush_renew_ends; [apply Ht|..].
Qed.

Lemma sync_due_ends tick s : looping s -> ends (on_writer (sync_due tick)) (fun _ s' => looping s' /\ rd_pending s' = rd_pending s) s.
Proof.
  intros [[Hw Hd Ha Hst Hli Hlg Hnu Hch] [Ht1 Ht2] Hb Hh]. unfold ends, on_writer, sync_due. rewrite (wo_healthy _ _ _ _ _ Hw).
  assert (Hs : looping s) by by split.
  destruct (negb _ && _); (split; [|done]); [|by destruct s]. split; [split|split|..]; try done. by apply sync_ok.
Qed.

Lemma quiet_ends t s : turn_ok owner t -> looping s -> ends (quiet z sha256 row_text owner idle_timeout protocol_initializing t)
  (fun c s' => c <> Waits /\ looping s') s.
Proof.
  intros Ht Hs. unfold quiet. apply ends_get, ends_bind. apply (ends_mono _ (fun _ => looping)).
  { apply ends_when; [|done]. intros Hne. eapply ends_mono; [apply flush_ends; [apply Ht|apply Hs|intros; apply Hs|]|].
    - by destruct (rd_pending s).
    - by intros [] s' [? _]. }
  intros [] s1 Hs1. apply ends_bind. eapply ends_mono; [by apply sync_due_ends|]. intros synced s2 [Hs2 _]. apply ends_bind.
  apply (ends_mono _ (fun _ => looping)); [apply ends_when; [|done]; intros _; by apply looping_clock|]. intros [] s3 Hs3.
  apply ends_bind. eapply ends_mono; [by apply renew_ends|]. intros [] s4 [Hs4 _]. apply ends_get. destruct (_ && _); [|by apply ends_ret].
  apply ends_bind. unfold ends at 1, emit. apply ends_ret. split; [done|]. by apply (looping_trace s4).
Qed.

Lemma pass_ends t s : turn_ok owner t -> looping s -> ends (pass z sha256 row_text owner idle_timeout protocol_initializing t)
  (fun c s' => match c with Waits => parked s' | _ => looping s' end) s.
Proof.
  intros Ht Hs. unfold pass. destruct (tn_more t); cbn [negb]; [|done]. apply ends_bind.
  eapply ends_mono; [by apply others_looping; [apply Ht|]|]. intros [] s1 Hs1. apply ends_get, ends_bind.
  apply (ends_mono _ (fun _ s' => looping s' /\ (rd_pending s' <> [] -> available (rd_world s') = true))).
  { apply ends_when.
    - intros Hb. eapply ends_mono; [apply flush_ends; [apply Ht|apply Hs1|intros; apply Hs1|]|].
      + intros E. rewrite E in Hb. done.
      + intros [] s' [Hs' E]. by rewrite E.
    - intros Hb. split; [done|]. intros Hne. destruct (rd_pending s1); [done|]. cbn in Hb. by destruct (available _). }
  intros [] s2 [Hs2 Hav]. apply ends_bind. eapply ends_mono; [by apply acquire_ends|]. intros [] s3 Hs3; cbn [negb]; [|by apply ends_ret].
  destruct Hs3 as [Hs3 _]. destruct (tn_outcome t) as [data at_ observed| | | | |] eqn:Eo.
  - destruct (to_data owner t Ht data at_ observed Eo). eapply ends_mono; [by apply receive_ends|]. by intros c s' [-> ?].
  - apply ends_bind. eapply ends_mono; [by apply settle_nothing_ends|]. by intros [] s' [? _].
  - apply ends_bind. eapply ends_mono; [by apply settle_nothing_ends|]. intros [] s' [Hs' _].
    eapply ends_mono; [by apply quiet_ends|]. intros c s'' [Hc Hs'']. by destruct c.
  - apply ends_bind. eapply ends_mono; [by apply settle_nothing_ends|]. intros [] s' [Hs' _]. apply ends_bind. unfold ends at 1, emit.
    apply ends_ret. by apply (looping_trace s').
  - apply ends_bind. eapply ends_mono; [by apply settle_nothing_ends|]. intros [] s' [Hs' _]. cbn. split; [apply Hs'|intros; apply Hs'].
  - apply ends_bind. eapply ends_mono; [by apply settle_nothing_ends|]. intros [] s' [Hs' _]. cbn. split; [apply Hs'|intros; apply Hs'].
Qed.

Lemma loop_ends turns s : Forall (turn_ok owner) turns -> looping s -> ends (loop z sha256 row_text owner idle_timeout protocol_initializing turns)
  (fun c s' => match c with Waits => parked s' | _ => looping s' end) s.
Proof.
  intros Ht. revert s. induction Ht as [|t turns Ht _ IH]; intros s Hs; [done|]. cbn [loop]. apply ends_bind.
  eapply ends_mono; [by apply pass_ends|]. intros c s' Hs'. destruct c; [by apply IH|done|done].
Qed.

(** ** The end of the session *)

(** Computations that leave the variables of the batch alone. *)
Definition still {A} (m : rm A) : Prop := forall s, rd_pending (m s).2 = rd_pending s.

Lemma still_bind {A B} (m : rm A) (k : A -> rm B) : still m -> (forall a, still (k a)) -> still (st_bind m k).
Proof. intros Hm Hk s. unfold st_bind. specialize (Hm s). destruct (m s) as [[a|e] s']; [|done]. by rewrite Hk. Qed.

Lemma still_ret {A} (a : A) : still (st_ret a).
Proof. done. Qed.

Lemma still_on_writer {A} (m : wm A) : still (on_writer m).
Proof. intros s. unfold on_writer. by destruct (m (rd_writer s)) as [[a|e] w]. Qed.

Lemma still_on_world {A} (m : stm world buffer_error A) : still (on_world m).
Proof. intros s. unfold on_world. by destruct (m (rd_world s)) as [[a|e] w]. Qed.

Lemma still_finally {A} (m : rm A) k : still m -> still k -> still (finally_ m k).
Proof.
  intros Hm Hk s. unfold finally_. specialize (Hm s). destruct (m s) as [r s']. specialize (Hk s').
  destruct (k s') as [[a|e] s'']; cbn in *; congruence.
Qed.

Lemma still_report raises batch ps : still (report_positions raises batch ps).
Proof.
  revert raises. induction ps as [|p ps IH]; intros raises; [done|]. cbn [report_positions].
  destruct raises as [[|n]|]; [done|..]; (apply still_bind; [done|intros []]; apply still_bind; [by destruct (ps_rollback p)|intros []; apply IH]).
Qed.

Lemma still_flush fl batch : still (_flush z sha256 row_text owner fl batch).
Proof.
  unfold _flush. destruct batch as [|c batch]; [done|]. apply still_bind; [done|intros []]. apply still_bind.
  - apply still_finally; [apply still_on_writer|]. apply still_bind; [apply still_on_world|done].
  - intros ps. apply still_bind; [done|intros []; apply still_report].
Qed.

(** Whatever becomes of a flush, its batch no longer waits. *)
Lemma flush_empties fl s : rd_pending (flush_pending z sha256 row_text owner fl s).2 = [].
Proof. unfold flush_pending, take_pending, st_bind. by rewrite still_flush. Qed.

(** What the loop leaves behind. *)
Definition kept (s : reader) : Prop := stored s /\ (rd_pending s <> [] -> told s).

Definition lost (s : reader) : Prop :=
  ~ no_failure w0 /\ accounted (rd_world s) /\ Forall (on_disk (rd_writer s)) (logs_of (rd_trace s)).

Lemma failed_lost s : failed s -> lost s.
Proof. by intros []. Qed.

Lemma kept_trace s name : kept s -> kept (emit (State name) s).2.
Proof. intros [Hs Ht]. split; [by apply (stored_trace s)|]. intros Hne. apply (told_trace s); [by apply Ht|done]. Qed.

Lemma lost_trace s name : lost s -> lost (emit (State name) s).2.
Proof. intros (H1 & H2 & H3). split_and!; [done|done|]. cbn. by rewrite logs_snoc, app_nil_r. Qed.

Lemma failed_trace s name : failed s -> failed (emit (State name) s).2.
Proof. intros [H1 H2 H3 H4]. split; [done|done|done|]. cbn. by rewrite logs_snoc, app_nil_r. Qed.

Lemma report_error_same r s : report_error r s = s \/ report_error r s = (emit (State "READ_ERROR") s).2.
Proof. destruct r as [[]|[]]; auto. Qed.

Lemma close_writer tick s : stored s ->
  match on_writer (close sha256 row_text tick) s with
  | (Ok _, s') => stored s' /\ w_log (rd_writer s') = None /\ (told s -> told s') /\ rd_pending s' = rd_pending s
  | (Raise e, s') => lost s' /\ rd_pending s' = rd_pending s
  end.
Proof.
  intros [Hw Hd Ha Hst Hli Hlg Hnu Hch]. unfold on_writer. pose proof (close_steps z sha256 row_text files0 tick (rd_writer s) Hw) as Hc.
  unfold steps in Hc. destruct (close sha256 row_text tick (rd_writer s)) as [[[]|e] w'] eqn:E.
  - destruct Hc as [(Hw' & [Ec Eq] & El) [He Hn]]. split_and!; [|done| |done].
    + split; unfold logged, numbered, waiting in *; cbn; rewrite ?Ec, ?Eq; auto.
      eapply Forall_impl; [exact Hch|]. intros c. by apply on_disk_extends.
    + unfold told, logged, numbered in *. cbn. by rewrite Ec, Eq.
  - destruct Hc as [He Hn]. split; [|done]. split_and!; cbn; [tauto|done|].
    eapply Forall_impl; [exact Hch|]. intros c. by apply on_disk_extends.
Qed.

Lemma cleanup_kept en s : fair_flush owner (en_flush en) -> kept s ->
  match cleanup z sha256 row_text owner en s with
  | (Ok _, s') => stored s' /\ w_log (rd_writer s') = None /\ rd_pending s' = [] /\ (told s -> told s')
  | (Raise e, s') => kept s' \/ lost s'
  end.
Proof.
  intros Hfl [Hs Ht]. unfold cleanup. destruct (en_closes en); cbn [negb]; [|by left]. unfold st_bind at 1, st_get. unfold st_bind.
  assert (Hgo : forall s1, stored s1 -> rd_pending s1 = [] -> (told s -> told s1) ->
    match on_writer (close sha256 row_text (en_tick en)) s1 with
    | (Ok _, s') => stored s' /\ w_log (rd_writer s') = None /\ rd_pending s' = [] /\ (told s -> told s')
    | (Raise e, s') => kept s' \/ lost s' end).
  { intros s1 Hs1 Hp1 Ht1. pose proof (close_writer (en_tick en) s1 Hs1) as Hc.
    destruct (on_writer _ s1) as [[[]|e] s2]; [|by right; apply Hc]. destruct Hc as (H1 & H2 & H3 & H4). split_and!; [done|done|congruence|auto]. }
  unfold when. destruct (nonempty (rd_pending s)) eqn:En.
  - assert (Hne : rd_pending s <> []) by by destruct (rd_pending s). pose proof (flush_ends (en_flush en) s Hfl Hs Ht Hne) as Hf.
    unfold ends in Hf. destruct (flush_pending _ _ _ _ _ s) as [[[]|e] s1].
    + destruct Hf as [Hl Hp]. apply Hgo; [apply Hl|done|intros; apply Hl].
    + destruct e; cbn in Hf; (by left) || (right; by apply failed_lost) || done.
  - cbn [st_ret]. apply Hgo; [done| |done]. by destruct (rd_pending s).
Qed.

Lemma on_writer_refused {A} (m : wm A) e s : (forall w, w_error w = Some e -> m w = (Raise e, w)) -> w_error (rd_writer s) = Some e ->
  on_writer m s = (Raise (Storage_error e), s).
Proof. intros Hm He. unfold on_writer. rewrite Hm by done. by destruct s. Qed.

Lemma cleanup_failed en s : fair_flush owner (en_flush en) -> failed s -> exists e s', cleanup z sha256 row_text owner en s = (Raise e, s') /\ lost s'.
Proof.
  intros Hfl Hs. pose proof Hs as [He Hd Ha Hc]. unfold cleanup. destruct (en_closes en); cbn [negb].
  2:{ exists Close_error, s. split; [done|by apply failed_lost]. }
  unfold st_bind at 1, st_get. unfold st_bind, when. destruct (w_error (rd_writer s)) as [e|] eqn:Ee; [|done].
  destruct (nonempty (rd_pending s)) eqn:En.
  - unfold flush_pending, take_pending, st_bind. destruct (rd_pending s) as [|c l] eqn:Ep; [done|]. cbn [_flush].
    unfold st_bind at 1, others at 1. set (s1 := set_reader _ _ _ _).
    assert (Ha1 : accounted (rd_world s1)) by (unfold s1; cbn; by apply Hfl).
    unfold st_bind at 1, finally_. rewrite (on_writer_refused _ e) by (done || by intros w Hw; unfold write_many; rewrite Hw).
    unfold release_session, st_bind, on_world. destruct (release_world (rd_world s1) _ Ha1 eq_refl) as (b' & -> & Hb' & _).
    cbn. eexists _, _. split; [done|]. by split_and!.
  - cbn [st_ret]. rewrite (on_writer_refused _ e).
    + eexists _, _. split; [done|]. by split_and!.
    + intros w Hw. unfold close, _seal_locked, st_bind, st_get, st_raise. by rewrite Hw.
    + done.
Qed.

Lemma cleanup_empties en s : en_closes en = true -> rd_pending (cleanup z sha256 row_text owner en s).2 = [].
Proof.
  intros E. unfold cleanup. rewrite E. cbn [negb]. unfold st_bind at 1, st_get. unfold st_bind, when.
  destruct (nonempty (rd_pending s)) eqn:En.
  - pose proof (flush_empties (en_flush en) s) as Hf. destruct (flush_pending _ _ _ _ _ s) as [[[]|e] s1]; [|done]. by rewrite still_on_writer.
  - cbn [st_ret]. rewrite still_on_writer. by destruct (rd_pending s).
Qed.

Lemma released s : accounted (rd_world s) ->
  let s' := ((let! _ := release_session owner in emit (State "CLOSED")) s).2 in
  rd_writer s' = rd_writer s /\ rd_pending s' = rd_pending s /\ logs_of (rd_trace s') = logs_of (rd_trace s)
  /\ received_of (rd_trace s') = received_of (rd_trace s) /\ holds s' 0.
Proof.
  intros Ha. unfold release_session, st_bind, on_world. destruct (release_world (rd_world s) _ Ha eq_refl) as (b' & -> & _ & Hb').
  cbn. rewrite logs_snoc, received_snoc, !app_nil_r. by split_and!.
Qed.

Lemma report_same r s : rd_writer (report_error r s) = rd_writer s /\ rd_pending (report_error r s) = rd_pending s
  /\ logs_of (rd_trace (report_error r s)) = logs_of (rd_trace s) /\ received_of (rd_trace (report_error r s)) = received_of (rd_trace s)
  /\ rd_world (report_error r s) = rd_world s.
Proof.
  destruct (report_error_same r s) as [->| ->]; [done|]. cbn. by rewrite logs_snoc, received_snoc, !app_nil_r.
Qed.
End facts.

(** What holds of a session that is open or over. *)
Definition kept_or_failed (z : zone) (io : list Storage.outcome) (s : reader) : Prop :=
  (prefix_stream z initial_line_state (received_of (rd_trace s))).1 = content (rd_writer s) ++ waiting s
    /\ logged s `prefix_of` content (rd_writer s)
  \/ ~ Forall (fun o => o = Done) io.

Section theorems.
Variables (z : zone) (sha256 : bytes -> string) (row_text : row -> bytes).
Variables (owner : string) (idle_timeout : Q) (protocol_initializing : bool).

Abbreviation reader_loop := (_reader_loop z sha256 row_text owner idle_timeout protocol_initializing).

Lemma new_reader_looping files tick io b : accounted b -> Buffering.session b owner = new_reservation ->
  looping z sha256 row_text owner files (new_writer files tick io) (new_reader (new_writer files tick io) b tick).
Proof. intros Ha Hb. split; [split|split|..]; try done. apply new_writer_ok. Qed.

Lemma stored_kept files tick io s : stored z sha256 row_text files (new_writer files tick io) s -> kept_or_failed z io s.
Proof. intros Hs. left. by split; [apply (st_stream _ _ _ _ _ _ Hs)|apply (st_logs _ _ _ _ _ _ Hs)]. Qed.

(** After the loop: the cleanup, the report of its error and the release. *)
Lemma closing files tick io en (r : result failure unit) s : let w0 := new_writer files tick io in fair_flush owner (en_flush en) ->
  kept z sha256 row_text files w0 s \/ failed w0 s ->
  (r = Ok tt -> told s) ->
  let '(c, s1) := cleanup z sha256 row_text owner en s in
  let s2 := ((let! _ := release_session owner in emit (State "CLOSED")) (report_error c s1)).2 in
  Forall (on_disk (rd_writer s2)) (logs_of (rd_trace s2)) /\ kept_or_failed z io s2 /\ holds owner s2 0
  /\ (en_closes en = true -> waiting s2 = [])
  /\ (c = Ok tt -> r = Ok tt -> logged s2 = content (rd_writer s2) /\ w_log (rd_writer s2) = None /\ waiting s2 = []).
Proof.
  intros w0 Hfl Hs Htold. pose proof (cleanup_empties z sha256 row_text owner en s) as Hempty.
  destruct (cleanup z sha256 row_text owner en s) as [c s1] eqn:E. cbn [snd] in Hempty.
  set (s2 := _.2). destruct (report_same c s1) as (W1 & P1 & L1 & R1 & B1).
  assert (Hres : (kept z sha256 row_text files w0 s1 \/ lost w0 s1)
    /\ (c = Ok tt -> r = Ok tt -> told s1 /\ w_log (rd_writer s1) = None /\ rd_pending s1 = [])).
  { destruct Hs as [Hs|Hs].
    - pose proof (cleanup_kept z sha256 row_text owner files w0 en s Hfl Hs) as Hc. rewrite E in Hc. destruct c as [[]|e]; [|by split].
      destruct Hc as (H1 & H2 & H3 & H4). split; [left; split; [done|by rewrite H3]|]. intros _ Er. auto.
    - destruct (cleanup_failed z sha256 row_text owner w0 en s Hfl Hs) as (e & s' & E' & Hl). rewrite E in E'. injection E' as -> ->. by split; [right|]. }
  destruct Hres as [Hres Hok]. assert (Ha : accounted (rd_world s1)) by (destruct Hres as [[Hk _]|(_ & Hk & _)]; [apply Hk|done]).
  destruct (released owner (report_error c s1)) as (W2 & P2 & L2 & R2 & Hh); [by rewrite B1|]. fold s2 in W2, P2, L2, R2, Hh.
  unfold kept_or_failed, logged, waiting in *. rewrite W2, W1, P2, P1, L2, L1, R2, R1. split_and!.
  - destruct Hres as [[Hk _]|(_ & _ & Hk)]; [apply Hk|done].
  - destruct Hres as [[Hk _]|(Hk & _ & _)]; [|by right]. left. by split; [apply (st_stream _ _ _ _ _ _ Hk)|apply (st_logs _ _ _ _ _ _ Hk)].
  - done.
  - intros Hc. by rewrite Hempty.
  - intros Ec Er. destruct (Hok Ec Er) as ([Ht _] & Hl & Hp). by rewrite Hp.
Qed.

(** C1: nothing a session receives is lost or reordered between the connection and the
    disk.  Whatever other sessions do to the budget, whatever the reads bring, the
    clocks show and the callbacks raise: the stamped stream of the received bytes is
    the stored content followed by what waits in the batch, unless the disk has
    failed; what is given to `on_log` is stored, at the place it names, and is a
    prefix of the content.  While the loop reads, the session holds exactly the bytes
    that wait; while it waits for the budget, nothing.  At the end it holds nothing,
    and nothing waits if the connection closed without an exception; when the session
    ends without an error, the content is the whole stream, all of it was given to
    `on_log` and the last part is sealed. *)
Theorem session_loses_nothing files tick io b turns en :
  Forall (turn_ok owner) turns -> fair_flush owner (en_flush en) -> accounted b -> Buffering.session b owner = new_reservation ->
  let '(status, s) := reader_loop turns en (new_reader (new_writer files tick io) b tick) in
  Forall (on_disk (rd_writer s)) (logs_of (rd_trace s)) /\ kept_or_failed z io s
  /\ match status with
     | Reading => logged s = content (rd_writer s) /\ holds owner s (zlen (waiting s))
     | Waiting => logged s = content (rd_writer s) /\ holds owner s 0 /\ waiting s = [] /\ available (rd_world s) = false
     | Closed e => holds owner s 0 /\ (en_closes en = true -> waiting s = [])
         /\ (e = None -> logged s = content (rd_writer s) /\ w_log (rd_writer s) = None /\ waiting s = [])
     end.
Proof.
  intros Ht Hfl Ha Hb. set (w0 := new_writer files tick io).
  pose proof (loop_ends z sha256 row_text owner idle_timeout protocol_initializing files w0 turns _ Ht (new_reader_looping files tick io b Ha Hb)) as Hl.
  unfold ends in Hl. unfold _reader_loop. destruct (loop _ _ _ _ _ _ turns _) as [[c|e] s].
  - assert (Hpark : c <> Waits -> looping z sha256 row_text owner files w0 s) by by destruct c.
    destruct c.
    + split; [apply Hl|]. split; [by eapply stored_kept, Hl|]. split; [apply Hl|apply Hl].
    + pose proof (closing files tick io en (Ok tt) s Hfl) as Hc. cbn [report_error].
      specialize (Hc (or_introl (conj (lp_stored _ _ _ _ _ _ _ Hl) (fun _ => lp_told _ _ _ _ _ _ _ Hl))) (fun _ => lp_told _ _ _ _ _ _ _ Hl)).
      destruct (cleanup _ _ _ _ en s) as [c s1]. destruct Hc as (H1 & H2 & H3 & H4 & H5). split_and!; [done|done|done|done|].
      destruct c as [[]|e]; [|done]. intros _. by apply H5.
    + destruct Hl as (Hl & Hp & Hav). split; [apply Hl|]. split; [by eapply stored_kept, Hl|]. pose proof (lp_holds _ _ _ _ _ _ _ Hl) as Hh.
      unfold waiting in *. rewrite Hp in *. split_and!; [apply Hl|done|done|done].
  - assert (Hs : kept z sha256 row_text files w0 (report_error (Raise e) s) \/ failed w0 (report_error (Raise e) s)).
    { destruct e; cbn in Hl; try done; ((left; by apply kept_trace) || (right; by apply failed_trace) || (left; exact Hl)). }
    pose proof (closing files tick io en (Raise e) _ Hfl Hs) as Hc.
    assert (Hno : @Raise failure unit e = Ok tt -> told (report_error (Raise e) s)) by done. specialize (Hc Hno).
    destruct (cleanup _ _ _ _ en _) as [c s1]. destruct Hc as (H1 & H2 & H3 & H4 & H5). split_and!; [done|done|done|done|].
    by destruct c.
Qed.

(** A session whose reader waits for the budget in a state of the event loop. *)
Definition waits_at (b : world) (o : string) : Prop :=
  exists files tick io b0 turns en, Forall (turn_ok o) turns /\ fair_flush o (en_flush en) /\ accounted b0
    /\ Buffering.session b0 o = new_reservation
    /\ let r := _reader_loop z sha256 row_text o idle_timeout protocol_initializing turns en (new_reader (new_writer files tick io) b0 tick) in
       r.1 = Waiting /\ rd_world r.2 = b.
End theorems.

Lemma nothing_held b : (forall o r, sessions b !! o = Some r -> held r = 0) -> total_held b = 0.
Proof.
  unfold total_held. fold (fold_held (sessions b)). generalize (sessions b). intros m. induction m as [|o r m Hm IH] using map_ind; intros Hall.
  - unfold fold_held. by rewrite map_fold_empty.
  - rewrite fold_held_insert_new by done. rewrite (Hall o r) by apply lookup_insert_eq. rewrite IH; [done|].
    intros o' r' Ho. apply (Hall o' r'). rewrite lookup_insert_ne; [done|]. intros ->. by rewrite Hm in Ho.
Qed.

(** C31: the sessions of a node never all wait for the receive budget: a reader writes
    what it holds before it waits, so that if every session waited the budget would be
    free, and it admits one read. *)
Theorem sessions_never_all_wait z sha256 row_text idle_timeout protocol_initializing (b : world) :
  accounted b -> RESERVATION_BYTES <= limit_bytes b -> sessions b <> ∅ ->
  ~ forall o r, sessions b !! o = Some r -> waits_at z sha256 row_text idle_timeout protocol_initializing b o.
Proof.
  intros Ha Hlim Hne Hall.
  assert (Hwait : forall o r, sessions b !! o = Some r -> held r = 0 /\ available b = false).
  { intros o r Ho. destruct (Hall o r Ho) as (files & tick & io & b0 & turns & en & Ht & Hfl & Hb0 & Hs0 & Hst & Hb).
    pose proof (loop_ends z sha256 row_text o idle_timeout protocol_initializing files (new_writer files tick io) turns _ Ht
      (new_reader_looping z sha256 row_text o files tick io b0 Hb0 Hs0)) as Hl. unfold ends, _reader_loop in *.
    destruct (loop _ _ _ _ _ _ turns _) as [[[| |]|e] s]; [done| | |].
    - cbn in Hst. by destruct (cleanup _ _ _ _ en s) as [[]].
    - destruct Hl as (Hl & Hp & Hav). cbn in Hb. subst b. split; [|done]. pose proof (lp_holds _ _ _ _ _ _ _ Hl) as Hh.
      unfold holds, Buffering.session, waiting in Hh. rewrite Ho, Hp in Hh. cbn in Hh. by rewrite Hh.
    - cbn in Hst. by destruct (cleanup _ _ _ _ en _) as [[]]. }
  assert (Hused : used b = 0) by (rewrite (acc_balance _ Ha); apply nothing_held; intros o r Ho; by apply (Hwait o r)).
  assert (Hex : exists o r, sessions b !! o = Some r).
  { destruct (map_choose (sessions b) Hne) as (o & r & Ho). by exists o, r. }
  destruct Hex as (o & r & Ho). destruct (Hwait o r Ho) as [_ Hav]. unfold available in Hav. rewrite Hused in Hav. breflect. lia.
Qed.

(** ** A session of three reads *)

Definition quick : flushing := Flushing None 0 0 (fun b => b) None.
Definition example_turn (o : outcome) (tick : Q) : turn := Turn true (fun b => b) quick (fun b => b) tick (fun b => b) o tick quick tick.
Definition example_turns : list turn :=
  [example_turn (Data [x61; LF] 0 true) 0; example_turn Timed_out (1 # 10); example_turn (Data [x62] 1000000 true) (15 # 100); example_turn Eof (3 # 10)].
Definition example_run (closes : bool) : status * reader :=
  _reader_loop (fixed_zone 0) (fun _ => "") (fun _ => []) "s" 10 false example_turns (Ending closes quick 1)
    (new_reader (new_writer ∅ 0 []) initial_world 0).

Lemma example_turn_ok o tick : (forall data at_ ok, o = Data data at_ ok -> data <> [] /\ zlen data <= READ_BYTES) -> turn_ok "s" (example_turn o tick).
Proof. intros Ho. split; try (by intros b Hb); exact Ho. Qed.

(** The last byte is stored when the connection closes; when its close raises it is
    kept nowhere. *)
Lemma session_loses_nothing_witness :
  (example_run true).1 = Closed None
  /\ content (rd_writer (example_run true).2) = (prefix_stream (fixed_zone 0) true [([x61; LF], 0); ([x62], 1000000)]).1
  /\ (example_run false).1 = Closed (Some Close_error)
  /\ content (rd_writer (example_run false).2) = (prefix_stream (fixed_zone 0) true [([x61; LF], 0)]).1
  /\ logged (example_run true).2 = content (rd_writer (example_run true).2).
Proof.
  split; [by vm_compute|]. split; [by vm_compute|]. split; [by vm_compute|]. split; [by vm_compute|].
  assert (Ht : Forall (turn_ok "s") example_turns).
  { unfold example_turns. repeat (apply Forall_cons; split; [apply example_turn_ok; intros data at_ ok [=]; subst; (split; [done|unfold zlen, READ_BYTES; cbn; lia])|]).
    apply Forall_nil_2. }
  assert (Ha : accounted initial_world) by (split; [done|apply map_Forall_empty]).
  pose proof (session_loses_nothing (fixed_zone 0) (fun _ => "") (fun _ => []) "s" 10 false ∅ 0 [] initial_world example_turns (Ending true quick 1)
    Ht (fun b Hb => conj Hb eq_refl) Ha eq_refl) as H.
  unfold example_run. destruct (_reader_loop _ _ _ _ _ _ _ _ _) as [status s] eqn:E.
  assert (Es : status = Closed None) by (change status with (status, s).1; rewrite <- E; by vm_compute).
  subst status. destruct H as (_ & _ & _ & _ & H). by apply H.
Defined.

Definition one_session : world := set_session "s" new_reservation initial_world.

Lemma sessions_never_all_wait_witness :
  ~ forall o r, sessions one_session !! o = Some r -> waits_at (fixed_zone 0) (fun _ => "") (fun _ => []) 10 false one_session o.
Proof.
  apply (sessions_never_all_wait (fixed_zone 0) (fun _ => "") (fun _ => []) 10 false one_session).
  - by split; [by vm_compute|]; apply map_Forall_insert_2; [by split; cbn|apply map_Forall_empty].
  - by vm_compute.
  - intros E. by apply (f_equal (fun m => m !! "s")) in E.
Defined.
