(* ===== verification/LiveTail.v ===== *)
(** * The live tail of a run ([collection/runtime.py], the subscription of [logs/api.py])

    [SessionRuntime.on_log] numbers the chunks a session reports and keeps the last
    eight MiB of them; [tail] answers a subscriber that gives back the cursor of the
    last frame it got.  The text of a cursor is `run:number` and is split at its last
    colon; a cursor whose number is not an integer counts as zero. *)

From S2P Require Import Prelude PyTime PyValue Storage StorageFacts Buffering Collector.
Open Scope camera_scope.

Definition FRAME_LIMIT : Z := 8 * 1024 * 1024.
Definition FIRST_FRAMES : nat := 4.

(** `DataFrame`; `data` before its Base64 text. *)
Record frame := Frame {
  fr_file : string; fr_session : string; fr_offset : Z; fr_end : Z; fr_number : Z; fr_data : bytes }.

Definition fr_size (f : frame) : Z := zlen (fr_data f).

(** The fields of a runtime: `task["runId"]`, `frames`, `frame_bytes`,
    `frame_number`, `paths` and `input_bytes`. *)
Record runtime := Runtime {
  rt_run : string; rt_frames : list frame; rt_bytes : Z; rt_number : Z; rt_paths : gmap string Z; rt_input : Z }.

Definition new_runtime (run : string) : runtime := Runtime run [] 0 0 ∅ 0.

(** `while self.frame_bytes > 8*1024*1024 and self.frames` *)
Fixpoint evict (bytes_ : Z) (frames : list frame) : Z * list frame :=
  match frames with
  | f :: rest => if FRAME_LIMIT <? bytes_ then evict (bytes_ - fr_size f) rest else (bytes_, frames)
  | [] => (bytes_, [])
  end.

Section tail.
(** [file_id] of a path. *)
Variable file_id : path -> string.

(** [on_log] up to the publication of the catalog. *)
Definition on_log (session_id : string) (chunk : LogChunk) (r : runtime) : runtime :=
  let id := file_id (lc_path chunk) in
  let previous := default (lc_offset chunk) (rt_paths r !! id) in
  let end_offset := lc_offset chunk + zlen (lc_data chunk) in
  let number := rt_number r + 1 in
  let f := Frame id session_id (lc_offset chunk) end_offset number (lc_data chunk) in
  let '(bytes_, frames) := evict (rt_bytes r + fr_size f) (rt_frames r ++ [f]) in
  Runtime (rt_run r) frames bytes_ number (<[id := Z.max previous end_offset]> (rt_paths r)) (rt_input r + zlen (lc_data chunk)).

(** A cursor: none, or the run and the number of its text. *)
Inductive cursor : Type := No_cursor | Cursor (run : string) (number : option Z).

Definition cursor_number (c : cursor) (r : runtime) : Z :=
  match c with Cursor run (Some n) => if String.eqb run (rt_run r) then n else 0 | _ => 0 end.

(** [tail]: the frames after the cursor, and whether some were evicted. *)
Definition tail (c : cursor) (r : runtime) : list frame * bool :=
  let number := cursor_number c r in
  let frames := filter (fun f => number < fr_number f) (rt_frames r) in
  match c with
  | No_cursor => (last_n FIRST_FRAMES frames, false)
  | _ => (frames, match frames with f :: _ => number + 1 <? fr_number f | [] => false end)
  end.

(** ** A subscriber: the loop of [live] *)

Inductive sent : Type := Gap | Data_frame (f : frame).

Record subscriber := Subscriber { sb_cursor : cursor; sb_sent : list sent }.

Definition new_subscriber : subscriber := Subscriber No_cursor [].

(** One answer of the node: the notice of a gap, then the frames, whose cursor is
    kept. *)
Definition poll (r : runtime) (s : subscriber) : subscriber :=
  let '(frames, gap) := tail (sb_cursor s) r in
  Subscriber (match last frames with Some f => Cursor (rt_run r) (Some (fr_number f)) | None => sb_cursor s end)
    (sb_sent s ++ (if gap then [Gap] else []) ++ map Data_frame frames).

Inductive action : Type := Log_chunk (session_id : string) (chunk : LogChunk) | Poll.

Definition act (a : action) (rs : runtime * subscriber) : runtime * subscriber :=
  match a with
  | Log_chunk session_id chunk => (on_log session_id chunk rs.1, rs.2)
  | Poll => (rs.1, poll rs.1 rs.2)
  end.

Definition run_actions (actions : list action) (rs : runtime * subscriber) : runtime * subscriber := foldl (fun rs a => act a rs) rs actions.

(** ** What a subscriber should see *)

(** All frames of the run, from the chunks in order. *)
Definition frame_of (number : Z) (session_id : string) (chunk : LogChunk) : frame :=
  Frame (file_id (lc_path chunk)) session_id (lc_offset chunk) (lc_offset chunk + zlen (lc_data chunk)) number (lc_data chunk).

Fixpoint history (n : Z) (actions : list action) : list frame :=
  match actions with
  | [] => []
  | Log_chunk session_id chunk :: actions => frame_of (n + 1) session_id chunk :: history (n + 1) actions
  | Poll :: actions => history n actions
  end.

(** Each frame follows the one before, or a notice says that some are missing. *)
Fixpoint chained (previous : option Z) (gap : bool) (l : list sent) : Prop :=
  match l with
  | [] => True
  | Gap :: l => chained previous true l
  | Data_frame f :: l =>
      match previous with Some p => if gap then p + 1 < fr_number f else fr_number f = p + 1 | None => gap = false end
      /\ chained (Some (fr_number f)) false l
  end.

Definition frames_sent (l : list sent) : list frame := omap (fun x => match x with Data_frame f => Some f | Gap => None end) l.
Definition last_sent (l : list sent) : option Z := fr_number <$> last (frames_sent l).

(** ** Lemmas *)

Lemma evict_suffix bytes_ frames : exists dropped, frames = dropped ++ (evict bytes_ frames).2.
Proof.
  revert bytes_. induction frames as [|f frames IH]; intros b; cbn; [by exists []|]. destruct (FRAME_LIMIT <? b); [|by exists []].
  destruct (IH (b - fr_size f)) as [dropped E]. exists (f :: dropped). by rewrite E at 1.
Qed.

Lemma evict_size bytes_ frames : bytes_ = zsum (map fr_size frames) -> (evict bytes_ frames).1 = zsum (map fr_size (evict bytes_ frames).2).
Proof.
  revert bytes_. induction frames as [|f frames IH]; intros b E; cbn; [done|]. destruct (FRAME_LIMIT <? b); [|done].
  apply IH. rewrite E. cbn. lia.
Qed.

(** The newest frame stays while a frame is not larger than the buffer. *)
Lemma evict_keeps bytes_ frames f : bytes_ = zsum (map fr_size (frames ++ [f])) -> fr_size f <= FRAME_LIMIT ->
  exists kept, (evict bytes_ (frames ++ [f])).2 = kept ++ [f].
Proof.
  revert bytes_. induction frames as [|g frames IH]; intros b E Hf; cbn.
  - cbn in E. destruct (Z.ltb_spec FRAME_LIMIT b); [lia|]. by exists [].
  - destruct (FRAME_LIMIT <? b); [|by exists (g :: frames)]. apply IH; [|done]. rewrite E. cbn. lia.
Qed.

Lemma history_app n l k : history n (l ++ k) = history n l ++ history (n + zlen (history n l)) k.
Proof.
  revert n. induction l as [|[session_id chunk|] l IH]; intros n; cbn [app history]; [by rewrite zlen_nil, Z.add_0_r| |apply IH].
  rewrite IH, zlen_cons. cbn. do 3 f_equal. lia.
Qed.

Lemma history_numbers n l : map fr_number (history n l) = seqZ (n + 1) (zlen (history n l)).
Proof.
  revert n. induction l as [|[session_id chunk|] l IH]; intros n; cbn [history map]; [done| |apply IH].
  rewrite zlen_cons, seqZ_cons by (pose proof (zlen_nonneg (history (n + 1) l)); lia). f_equal. rewrite IH. f_equal; lia.
Qed.

Lemma chained_app previous gap l k : chained previous gap (l ++ k)
  <-> chained previous gap l /\ chained (match last_sent l with Some n => Some n | None => previous end)
        (match last l with Some Gap => true | Some (Data_frame _) => false | None => gap end) k.
Proof.
  revert previous gap. induction l as [|[|f] l IH]; intros previous gap; cbn [app chained].
  - cbn. tauto.
  - rewrite IH, last_cons. change (last_sent (Gap :: l)) with (last_sent l). destruct (last l) as [[|]|]; done.
  - rewrite IH, last_cons. assert (E : last_sent (Data_frame f :: l) = match last_sent l with Some n => Some n | None => Some (fr_number f) end).
    { unfold last_sent, frames_sent. cbn. rewrite last_cons. by destruct (last (omap _ l)). }
    rewrite E. destruct (last l) as [[|]|], (last_sent l); cbn; tauto.
Qed.

(** What the runtime keeps is the end of the history; what the subscriber has is a
    part of it. *)
Record follows (run : string) (done_ : list action) (rs : runtime * subscriber) : Prop := {
  fo_run : rt_run rs.1 = run;
  fo_number : rt_number rs.1 = zlen (history 0 done_);
  fo_suffix : exists dropped, history 0 done_ = dropped ++ rt_frames rs.1;
  fo_bytes : rt_bytes rs.1 = zsum (map fr_size (rt_frames rs.1));
  fo_chained : chained None false (sb_sent rs.2);
  fo_sent : Forall (fun f => f ∈ history 0 done_) (frames_sent (sb_sent rs.2));
  fo_cursor : sb_cursor rs.2 = match last_sent (sb_sent rs.2) with Some n => Cursor run (Some n) | None => No_cursor end;
  fo_settled : last (sb_sent rs.2) <> Some Gap;
  fo_reached : match last_sent (sb_sent rs.2) with Some n => 0 < n <= zlen (history 0 done_) | None => sb_sent rs.2 = [] end }.

Lemma history_log done_ session_id chunk :
  history 0 (done_ ++ [Log_chunk session_id chunk]) = history 0 done_ ++ [frame_of (zlen (history 0 done_) + 1) session_id chunk].
Proof. by rewrite history_app. Qed.

Lemma history_poll done_ : history 0 (done_ ++ [Poll]) = history 0 done_.
Proof. rewrite history_app. cbn. apply app_nil_r. Qed.

Lemma log_follows run done_ session_id chunk rs : follows run done_ rs ->
  follows run (done_ ++ [Log_chunk session_id chunk]) (act (Log_chunk session_id chunk) rs).
Proof.
  intros [H1 H2 [dropped H3] H4 H5 H6 H7 H8 H9]. cbn [act]. unfold on_log.
  set (f := Frame _ _ _ _ (rt_number rs.1 + 1) _). assert (Ef : f = frame_of (zlen (history 0 done_) + 1) session_id chunk) by (unfold f; by rewrite H2).
  destruct (evict_suffix (rt_bytes rs.1 + fr_size f) (rt_frames rs.1 ++ [f])) as [d Ed].
  pose proof (evict_size (rt_bytes rs.1 + fr_size f) (rt_frames rs.1 ++ [f])) as Es.
  destruct (evict _ _) as [b frames]. cbn [fst snd] in *. split; cbn [fst snd rt_run rt_frames rt_bytes rt_number]; rewrite ?history_log, ?zlen_app; auto.
  - rewrite H2. unfold zlen. cbn [length]. lia.
  - exists (dropped ++ d). rewrite <- app_assoc, <- Ed, app_assoc, <- H3, Ef. done.
  - apply Es. rewrite map_app, zsum_app, H4. cbn. lia.
  - eapply Forall_impl; [exact H6|]. intros g Hg. by apply elem_of_app; left.
  - destruct (last_sent _); [|done]. unfold zlen in *. cbn [length]. lia.
Qed.

(** The frames after a number among those at the end of the history. *)
Lemma after_number h dropped frames n : h = dropped ++ frames -> map fr_number h = seqZ 1 (zlen h) -> 0 <= n <= zlen h ->
  filter (fun f => n < fr_number f) frames = drop (Z.to_nat (n - zlen dropped)) frames.
Proof.
  intros -> Hn Hle. rewrite map_app in Hn. rewrite zlen_app in *. rewrite seqZ_app in Hn by apply zlen_nonneg.
  assert (Hf : map fr_number frames = seqZ (1 + zlen dropped) (zlen frames)).
  { apply app_inj_1 in Hn as [_ Hn]; [done|]. rewrite length_map, length_seqZ. unfold zlen. lia. }
  clear Hn. pose proof (zlen_nonneg dropped) as Hd. revert Hd Hle Hf. generalize (zlen dropped). intros k Hk. revert k Hk.
  induction frames as [|f frames IH]; intros k Hk Hle Hf; [by rewrite drop_nil|].
  rewrite zlen_cons in *. pose proof (zlen_nonneg frames). rewrite seqZ_cons in Hf by lia. cbn in Hf. injection Hf as Hf1 Hf2.
  rewrite filter_cons. case_decide as Hlt.
  - replace (Z.to_nat (n - k)) with 0%nat by lia. cbn. f_equal.
    rewrite (IH (k + 1)) by (try lia; rewrite Hf2; f_equal; lia). by replace (Z.to_nat (n - (k + 1))) with 0%nat by lia.
  - replace (Z.to_nat (n - k)) with (S (Z.to_nat (n - (k + 1)))) by lia. cbn. apply IH; [lia|lia|]. rewrite Hf2. f_equal; lia.
Qed.

(** Consecutive numbers are a chain. *)
Lemma consecutive_chained frames p n : map fr_number frames = seqZ n (zlen frames) ->
  (match p with Some p => p + 1 = n | None => True end) -> chained p false (map Data_frame frames).
Proof.
  revert p n. induction frames as [|f frames IH]; intros p n Hn Hp; [done|]. rewrite zlen_cons in Hn. pose proof (zlen_nonneg frames).
  rewrite seqZ_cons in Hn by lia. cbn in Hn. injection Hn as Hf Hn. cbn. split; [destruct p; [lia|done]|].
  apply (IH _ (n + 1)); [|lia]. rewrite Hn. f_equal; lia.
Qed.

Lemma frames_sent_data frames : frames_sent (map Data_frame frames) = frames.
Proof. unfold frames_sent. induction frames as [|f frames IH]; [done|]. cbn. by rewrite IH. Qed.

Lemma last_number h f : map fr_number h = seqZ 1 (zlen h) -> last h = Some f -> fr_number f = zlen h.
Proof.
  intros Hn Hl. apply last_Some in Hl as [k ->]. rewrite map_app, zlen_app, zlen_cons, zlen_nil, seqZ_app in Hn by (apply zlen_nonneg || lia).
  apply app_inj_1 in Hn as [_ Hn]; [|rewrite length_map, length_seqZ; unfold zlen; lia]. cbn in Hn. injection Hn as Hn. rewrite zlen_app, zlen_cons, zlen_nil. lia.
Qed.

Lemma suffix_numbers h pre frames : h = pre ++ frames -> map fr_number h = seqZ 1 (zlen h) ->
  map fr_number frames = seqZ (zlen pre + 1) (zlen frames).
Proof.
  intros -> Hn. rewrite map_app, zlen_app, seqZ_app in Hn by apply zlen_nonneg.
  apply app_inj_1 in Hn as [_ Hn]; [|rewrite length_map, length_seqZ; unfold zlen; lia]. rewrite Hn. f_equal; lia.
Qed.

Lemma last_map {A B} (f : A -> B) l : last (map f l) = f <$> last l.
Proof. apply fmap_last. Qed.

(** Some frames at the end of the history are sent, after a notice if need be. *)
Lemma send_follows run done_ rs pre frames gap : follows run done_ rs -> history 0 done_ = pre ++ frames ->
  (gap = true -> frames <> []) ->
  (match last_sent (sb_sent rs.2) with Some n => if gap then n < zlen pre else frames <> [] -> n = zlen pre | None => gap = false end) ->
  follows run (done_ ++ [Poll]) (rs.1, Subscriber
    (match last frames with Some f => Cursor run (Some (fr_number f)) | None => sb_cursor rs.2 end)
    (sb_sent rs.2 ++ (if gap then [Gap] else []) ++ map Data_frame frames)).
Proof.
  intros [H1 H2 H3 H4 H5 H6 H7 H8 H9] Hpre Hgap Hn. pose proof (history_numbers 0 done_) as Hnum. cbn in Hnum.
  pose proof (suffix_numbers _ _ _ Hpre Hnum) as Hf.
  assert (Esent : frames_sent (sb_sent rs.2 ++ (if gap then [Gap] else []) ++ map Data_frame frames) = frames_sent (sb_sent rs.2) ++ frames).
  { unfold frames_sent. rewrite !omap_app. fold (frames_sent (map Data_frame frames)). rewrite frames_sent_data. by destruct gap. }
  assert (Elast : last_sent (sb_sent rs.2 ++ (if gap then [Gap] else []) ++ map Data_frame frames)
    = match last frames with Some f => Some (fr_number f) | None => last_sent (sb_sent rs.2) end).
  { unfold last_sent. rewrite Esent, last_app. by destruct (last frames). }
  split; cbn [fst snd sb_cursor sb_sent]; rewrite ?history_poll; auto.
  - apply chained_app. split; [done|]. assert (Eg : match last (sb_sent rs.2) with Some Gap => true | Some (Data_frame _) => false | None => false end = false).
    { destruct (last (sb_sent rs.2)) as [[|]|]; done. }
    rewrite Eg. destruct gap; cbn [app chained].
    + destruct frames as [|f frames]; [by destruct Hgap|]. cbn [map chained]. rewrite zlen_cons in Hf. pose proof (zlen_nonneg frames).
      rewrite seqZ_cons in Hf by lia. cbn in Hf. injection Hf as Hf1 Hf2. split; [destruct (last_sent _); [lia|done]|].
      apply (consecutive_chained frames (Some (fr_number f)) (zlen pre + 1 + 1)); [rewrite Hf2; f_equal; lia|lia].
    + destruct frames as [|f frames]; [done|]. apply (consecutive_chained _ _ _ Hf). destruct (last_sent _); [|done]. by rewrite Hn.
  - rewrite Esent. apply Forall_app. split; [done|]. apply Forall_forall. intros f Hin. rewrite Hpre. by apply elem_of_app; right.
  - rewrite Elast. destruct (last frames); [done|]. exact H7.
  - rewrite app_assoc, last_app, last_map. destruct (last frames) as [f|] eqn:El; [done|]. apply last_None in El as ->.
    destruct gap; [by destruct Hgap|]. by rewrite app_nil_r.
  - rewrite Elast. destruct (last frames) as [f|] eqn:El.
    + assert (Hlh : last (history 0 done_) = Some f) by by rewrite Hpre, last_app, El.
      pose proof (last_number _ _ Hnum Hlh) as ->. assert (Hl0 : history 0 done_ <> []) by (intros E; by rewrite E in Hlh).
      destruct (history 0 done_) as [|g h]; [done|]. rewrite zlen_cons. pose proof (zlen_nonneg h). lia.
    + destruct (last_sent (sb_sent rs.2)); [done|]. apply last_None in El as ->. rewrite H9, Hn. done.
Qed.

Lemma poll_follows run done_ rs : follows run done_ rs -> follows run (done_ ++ [Poll]) (act Poll rs).
Proof.
  intros Hfo. pose proof Hfo as [H1 H2 [dropped H3] H4 H5 H6 H7 H8 H9]. cbn [act]. unfold poll, tail, cursor_number. rewrite H7, H1.
  pose proof (history_numbers 0 done_) as Hnum. cbn in Hnum. pose proof (zlen_nonneg dropped) as Hd.
  destruct (last_sent (sb_sent rs.2)) as [n|] eqn:En.
  - rewrite String.eqb_refl. rewrite (after_number _ _ _ n H3 Hnum) by lia. set (frames := drop _ (rt_frames rs.1)).
    set (k := Z.to_nat (n - zlen dropped)).
    assert (Hsplit : history 0 done_ = (dropped ++ take k (rt_frames rs.1)) ++ frames) by (unfold frames; by rewrite <- app_assoc, take_drop).
    pose proof (suffix_numbers _ _ _ Hsplit Hnum) as Hf.
    pose proof (send_follows run done_ rs _ frames (match frames with f :: _ => n + 1 <? fr_number f | [] => false end) Hfo Hsplit) as Hs.
    rewrite H7, En in Hs. apply Hs; clear Hs.
    + by destruct frames.
    + destruct frames as [|f frames'] eqn:Ef; [done|]. rewrite zlen_cons in Hf. pose proof (zlen_nonneg frames').
      rewrite seqZ_cons in Hf by lia. cbn in Hf. injection Hf as Hf1 _. rewrite Hf1.
      assert (Hlen : zlen (dropped ++ take k (rt_frames rs.1)) = zlen dropped + Z.of_nat k).
      { rewrite zlen_app. unfold zlen at 2. rewrite length_take, Nat.min_l; [done|]. assert (length (drop k (rt_frames rs.1)) <> 0%nat) by (unfold frames in Ef; fold k in Ef; by rewrite Ef).
        rewrite length_drop in *. lia. }
      destruct (Z.ltb_spec (n + 1) (zlen (dropped ++ take k (rt_frames rs.1)) + 1)); [lia|]. intros _. lia.
  - rewrite (filter_all (fun f => 0 < fr_number f)).
    + destruct (last_n_suffix FIRST_FRAMES (rt_frames rs.1)) as [k Ek]. rewrite Ek, app_assoc in H3.
      pose proof (send_follows run done_ rs _ _ false Hfo H3) as Hs. rewrite H7, En in Hs. by apply Hs.
    + intros f Hf. assert (Hin : fr_number f ∈ map fr_number (history 0 done_)).
      { apply list_elem_of_fmap_2. rewrite H3. by apply elem_of_app; right. }
      rewrite Hnum in Hin. apply elem_of_seqZ in Hin. lia.
Qed.

Lemma actions_follow run done_ actions rs : follows run done_ rs -> follows run (done_ ++ actions) (run_actions actions rs).
Proof.
  revert done_ rs. induction actions as [|a actions IH]; intros done_ rs Hrs; [by rewrite app_nil_r|].
  cbn [run_actions foldl]. replace (done_ ++ a :: actions) with ((done_ ++ [a]) ++ actions) by by rewrite <- app_assoc.
  apply IH. destruct a; [by apply log_follows|by apply poll_follows].
Qed.

Lemma new_follows run : follows run [] (new_runtime run, new_subscriber).
Proof. split; try done. by exists []. Qed.

Lemma run_follows run actions : follows run actions (run_actions actions (new_runtime run, new_subscriber)).
Proof. apply (actions_follow run [] actions), new_follows. Qed.

(** ** The newest frame and the size of the buffer *)

Definition small (a : action) : Prop := match a with Log_chunk _ chunk => zlen (lc_data chunk) <= FRAME_LIMIT | Poll => True end.

Lemma evict_bound bytes_ frames : bytes_ = zsum (map fr_size frames) -> (evict bytes_ frames).1 <= FRAME_LIMIT.
Proof.
  revert bytes_. induction frames as [|f frames IH]; intros b E; cbn; [rewrite E; by vm_compute|].
  destruct (Z.ltb_spec FRAME_LIMIT b); [|done]. apply IH. rewrite E. cbn. lia.
Qed.

Lemma run_snoc actions a rs : run_actions (actions ++ [a]) rs = act a (run_actions actions rs).
Proof. unfold run_actions. by rewrite foldl_app. Qed.

Lemma run_bound run actions : rt_bytes (run_actions actions (new_runtime run, new_subscriber)).1 <= FRAME_LIMIT.
Proof.
  induction actions as [|a actions IH] using rev_ind; [by vm_compute|]. rewrite run_snoc. destruct a as [session_id chunk|]; [|exact IH].
  pose proof (fo_bytes _ _ _ (run_follows run actions)) as Hb. cbn [act fst]. unfold on_log. set (f := Frame _ _ _ _ _ _).
  pose proof (evict_bound (rt_bytes (run_actions actions (new_runtime run, new_subscriber)).1 + fr_size f)
    (rt_frames (run_actions actions (new_runtime run, new_subscriber)).1 ++ [f])) as He.
  destruct (evict _ _) as [b frames]. cbn in *. apply He. rewrite map_app, zsum_app, Hb. cbn. lia.
Qed.

Lemma run_newest run actions : Forall small actions ->
  last (rt_frames (run_actions actions (new_runtime run, new_subscriber)).1) = last (history 0 actions).
Proof.
  intros Hs. destruct (fo_suffix _ _ _ (run_follows run actions)) as [dropped E]. rewrite E, last_app.
  enough (Hne : history 0 actions <> [] -> rt_frames (run_actions actions (new_runtime run, new_subscriber)).1 <> []).
  { destruct (last (rt_frames _)) eqn:El; [done|]. apply last_None in El. rewrite El, app_nil_r in *.
    destruct (history 0 actions) as [|f h]; [by rewrite <- E|]. by destruct Hne. }
  clear E dropped. induction actions as [|a actions IH] using rev_ind; [done|]. apply Forall_app in Hs as [Hs Ha]. rewrite Forall_singleton in Ha.
  specialize (IH Hs). rewrite run_snoc. destruct a as [session_id chunk|]; [|rewrite history_poll; exact IH]. intros _.
  pose proof (fo_bytes _ _ _ (run_follows run actions)) as Hb. cbn [act fst]. unfold on_log. set (f := Frame _ _ _ _ _ _).
  destruct (evict_keeps (rt_bytes (run_actions actions (new_runtime run, new_subscriber)).1 + fr_size f)
    (rt_frames (run_actions actions (new_runtime run, new_subscriber)).1) f) as [kept E].
  - rewrite map_app, zsum_app, Hb. cbn. lia.
  - exact Ha.
  - destruct (evict _ _) as [b frames]. cbn in *. rewrite E. by destruct kept.
Qed.

(** After an answer the subscriber has the newest frame. *)
Lemma poll_newest run actions : Forall small actions -> history 0 actions <> [] ->
  last_sent (sb_sent (run_actions (actions ++ [Poll]) (new_runtime run, new_subscriber)).2) = Some (zlen (history 0 actions)).
Proof.
  intros Hs Hne. pose proof (run_newest run actions Hs) as Hnew. pose proof (run_follows run actions) as Hfo.
  rewrite run_snoc. set (rs := run_actions actions (new_runtime run, new_subscriber)) in *. clearbody rs.
  destruct Hfo as [H1 H2 [dropped H3] _ _ _ H7 _ H9]. pose proof (history_numbers 0 actions) as Hnum. cbn in Hnum.
  assert (Hl : exists f, last (history 0 actions) = Some f).
  { destruct (last (history 0 actions)) as [f|] eqn:E; [by exists f|]. by apply last_None in E. }
  destruct Hl as [f Hl]. rewrite Hl in Hnew. pose proof (last_number _ _ Hnum Hl) as Hfn.
  assert (Hlast : forall n, 0 <= n < zlen (history 0 actions) -> last (filter (fun f => n < fr_number f) (rt_frames rs.1)) = Some f).
  { intros n Hn. apply last_Some in Hnew as [k ->]. rewrite filter_app, filter_cons_True by lia. by rewrite last_app. }
  cbn [act]. unfold poll, tail, cursor_number. rewrite H7, H1. destruct (last_sent (sb_sent rs.2)) as [n|] eqn:En.
  - rewrite String.eqb_refl. cbn [snd sb_sent]. set (frames := filter _ _) in *. unfold last_sent, frames_sent. rewrite !omap_app, !last_app.
    fold (frames_sent (map Data_frame frames)). rewrite frames_sent_data. destruct (decide (n = zlen (history 0 actions))) as [->|Hlt].
    + unfold last_sent, frames_sent in En. destruct (last frames) as [g|] eqn:El; [|destruct (match frames with [] => _ | _ => _ end); cbn; by rewrite En].
      assert (Hg : g ∈ frames) by by apply last_Some_elem_of. unfold frames in Hg. apply list_elem_of_filter in Hg as [Hgn Hg].
      assert (Hin : fr_number g ∈ map fr_number (history 0 actions)) by (apply list_elem_of_fmap_2; rewrite H3; by apply elem_of_app; right).
      rewrite Hnum in Hin. apply elem_of_seqZ in Hin. lia.
    + unfold frames. rewrite Hlast by lia. cbn. by rewrite Hfn.
  - cbn [snd sb_sent app]. rewrite H9. cbn [app]. unfold last_sent. rewrite frames_sent_data.
    destruct (last_n_suffix FIRST_FRAMES (filter (fun f => 0 < fr_number f) (rt_frames rs.1))) as [k Ek].
    assert (Hf : last (filter (fun f => 0 < fr_number f) (rt_frames rs.1)) = Some f).
    { apply Hlast. destruct (history 0 actions) as [|g h]; [done|]. rewrite zlen_cons. pose proof (zlen_nonneg h). lia. }
    assert (Hn4 : last_n FIRST_FRAMES (filter (fun f => 0 < fr_number f) (rt_frames rs.1)) <> []).
    { intros E. apply (f_equal length) in E. rewrite last_n_length in E by done. unfold FIRST_FRAMES in E.
      apply last_Some in Hf as [k' Ek']. rewrite Ek', length_app in E. cbn [length] in E. lia. }
    rewrite Ek, last_app in Hf. destruct (last (last_n _ _)) as [g|] eqn:Eg; [|by apply last_None in Eg]. injection Hf as ->. cbn. by rewrite Hfn.
Qed.

(** C7: the live tail of a run is exact.  Whatever the session reports and whenever the
    subscriber asks: it gets frames of the run in order, none twice, each directly
    after the one before unless a notice of a gap stands between them, the first time
    the newest four; after an answer it has the newest frame; and the buffer never
    holds more than eight MiB.  But frames are numbered by the runtime, not by the run:
    a task that is paused and resumed keeps its run and gets a new runtime, and its
    first frames, up to the number the subscriber has reached, are neither sent nor
    announced as a gap. *)
Theorem live_tail_exact run actions :
  (let '(r, s) := run_actions actions (new_runtime run, new_subscriber) in
   chained None false (sb_sent s) /\ Forall (fun f => f ∈ history 0 actions) (frames_sent (sb_sent s))
   /\ (Forall small actions -> history 0 actions <> [] -> last_sent (sb_sent (poll r s)) = Some (zlen (history 0 actions)))
   /\ rt_bytes r = zsum (map fr_size (rt_frames r)) /\ rt_bytes r <= FRAME_LIMIT)
  /\ forall s n resumed, sb_cursor s = Cursor run (Some n) -> zlen (history 0 resumed) <= n ->
     poll (run_actions resumed (new_runtime run, new_subscriber)).1 s = Subscriber (Cursor run (Some n)) (sb_sent s).
Proof.
  split.
  - pose proof (run_follows run actions) as Hfo. pose proof (run_bound run actions) as Hb. pose proof (poll_newest run actions) as Hn.
    rewrite run_snoc in Hn. destruct (run_actions actions _) as [r s]. split_and!; [apply Hfo|apply Hfo|exact Hn|apply Hfo|exact Hb].
  - intros s n resumed Hc Hle. destruct (run_follows run resumed) as [H1 _ [dropped H3] _ _ _ _ _ _].
    unfold poll, tail, cursor_number. rewrite Hc, H1, String.eqb_refl. rewrite filter_none; [by rewrite app_nil_r|].
    intros f Hf. assert (Hin : fr_number f ∈ map fr_number (history 0 resumed)) by (apply list_elem_of_fmap_2; rewrite H3; by apply elem_of_app; right).
    rewrite history_numbers in Hin. apply elem_of_seqZ in Hin. lia.
Qed.
End tail.

(** Two chunks, an answer, a pause and one more chunk: the subscriber hears nothing. *)
Definition note (n : Z) : action := Log_chunk "s" (Chunk n [x61] (n - 1) (0, 1)).

Lemma live_tail_exact_witness :
  let s := (run_actions (fun _ => "f") [note 1; note 2; Poll] (new_runtime "r", new_subscriber)).2 in
  last_sent (sb_sent s) = Some 2 /\ sb_sent (poll (run_actions (fun _ => "f") [note 1] (new_runtime "r", new_subscriber)).1 s) = sb_sent s.
Proof.
  cbv zeta. split; [by vm_compute|]. rewrite (proj2 (live_tail_exact (fun _ => "f") "r" []) _ 2 [note 1]); by vm_compute.
Defined.
