(* ===== verification/Dispatcher.v ===== *)
(** * The command queue of a session ([collection/command_dispatcher.py])

    One sender takes the queued commands of a session by priority and arrival, checks
    again that the session may send, asks for the budget and writes.  What each await
    brings (the state of the session, the answers of the callbacks, the outcome of the
    write) is data of a [moment]; what the sender does outside itself is a trace.
    The dialogue with a device in PSH mode is such data too: it ends with success or an
    exception and says whether the shell is known.  [scheduled] is the loop of
    [collection/collector.py] that sends a scheduled command: it is proved against what
    [attempt] promises. *)

From stdpp Require Import sets.
From S2P Require Import Prelude PyTime PyValue PyText Ordering.
Open Scope camera_scope.

(** ** Items and moments *)

Inductive raised : Type :=
  | Connection_error        (* `ConnectionError`, `OSError`, `TimeoutError` *)
  | Channel_blocked | Budget_exhausted | Psh_switch | Capture_error
  | Other_error.

(** A `CommandItem`; `counter` also names its future. *)
Record item := Item {
  it_priority : Z; it_counter : Z; it_command : string; it_newline : string; it_prompt : bool;
  it_before_send : bool; it_guard : bool; it_shutdown : bool; it_safe : bool; it_capture : bool }.

(** What the sender sees of the session and of the future at a check. *)
Record view := View { v_connected : bool; v_closed : bool; v_accepting : bool; v_stopping : bool; v_cancelled : bool }.

(** The awaits of one item, in order.  [mo_known] is whether the dialogue knows the shell
    at the end; meanwhile the waiter may have left ([mo_gone]) or the connection may have
    been closed, which fails every waiter ([mo_closes]). *)
Record moment := Moment {
  mo_start : view; mo_guard1 : option raised; mo_view1 : view; mo_known1 : bool; mo_recover : result raised bool; mo_view2 : view;
  mo_guard2 : option raised; mo_view3 : view; mo_before : result raised bool; mo_view4 : view; mo_debug : option raised;
  mo_write : option raised; mo_written : option raised; mo_prompt : option raised; mo_capture : option raised;
  mo_gone : bool; mo_known : bool; mo_closes : bool }.

Inductive event : Type :=
  | Guarded (n : Z) | Recovering (n : Z)
  | Asked (n : Z) (answer : result raised bool)      (* `before_send` *)
  | Dialogue (n : Z)                                  (* a PSH dialogue writes *)
  | Wrote (n : Z) (data : string)
  | Closing.                                          (* the connection of a slave is closed *)

(** `_command_blocked` and the trace. *)
Record channel := Channel { ch_blocked : bool; ch_trace : list event }.

Abbreviation dm := (stm channel raised).

Definition emit (e : event) : dm unit := fun s => (Ok tt, Channel (ch_blocked s) (ch_trace s ++ [e])).
Definition set_blocked (b : bool) : dm unit := fun s => (Ok tt, Channel b (ch_trace s)).
Definition raise_some (e : option raised) : dm unit := match e with Some e => st_raise e | None => st_ret tt end.
Definition raise_when (b : bool) (e : raised) : dm unit := if b then st_raise e else st_ret tt.
Definition when (b : bool) (m : dm unit) : dm unit := if b then m else st_ret tt.

(** [Skipped] is `continue` on a cancelled future. *)
Inductive outcome : Type := Skipped | Finished.

(** `if future.cancelled(): continue` *)
Definition unless_cancelled (v : view) (m : dm outcome) : dm outcome := if v_cancelled v then st_ret Skipped else m.

Definition is_debug (it : item) : bool := String.eqb (py_strip (it_command it)) "debug".

(** ** One item *)

Definition closed_to (it : item) (v : view) : bool :=
  negb (v_connected v) || v_closed v || ((negb (v_accepting v) || v_stopping v) && negb (it_shutdown it)).
Definition stops (it : item) (v : view) : bool := v_stopping v && negb (it_shutdown it).

Definition answer_of (r : result raised bool) : dm bool := match r with Ok b => st_ret b | Raise e => st_raise e end.

(** `recover_command_channel` *)
Definition recover (it : item) (m : moment) : dm unit :=
  let! _ := emit (Recovering (it_counter it)) in
  let! back := answer_of (mo_recover m) in
  let! _ := raise_when (negb back) Channel_blocked in
  set_blocked false.

Definition guard (it : item) (answer : option raised) : dm unit :=
  when (it_guard it) (let! _ := emit (Guarded (it_counter it)) in raise_some answer).

(** The budget: nothing is asked before this point. *)
Definition ask (it : item) (m : moment) : dm unit :=
  when (it_before_send it)
    (let! _ := emit (Asked (it_counter it) (mo_before m)) in
     let! allowed := answer_of (mo_before m) in
     raise_when (negb allowed) Budget_exhausted).

(** The dialogue or the bytes of the command, and what is waited for after them. *)
Definition send (it : item) (m : moment) : dm outcome :=
  let! _ := if is_debug it
            then let! _ := emit (Dialogue (it_counter it)) in let! _ := raise_some (mo_debug m) in set_blocked false
            else st_ret tt in
  let! _ := when (negb (is_debug it))
              (let! _ := emit (Wrote (it_counter it) (it_command it ++ it_newline it)) in
               let! _ := raise_some (mo_write m) in raise_some (mo_written m)) in
  let! _ := when (it_prompt it && negb (is_debug it)) (raise_some (mo_prompt m)) in
  let! _ := when (it_capture it) (raise_some (mo_capture m)) in
  st_ret Finished.

Definition attempt (it : item) (m : moment) : dm outcome :=
  unless_cancelled (mo_start m)
    (let! _ := raise_when (closed_to it (mo_start m)) Connection_error in
     let! _ := guard it (mo_guard1 m) in
     unless_cancelled (mo_view1 m)
       (let! _ := raise_when (stops it (mo_view1 m)) Connection_error in
        let! s := st_get in
        let! _ := raise_when (it_safe it && negb (negb (ch_blocked s) && mo_known1 m)) Channel_blocked in
        let! s := st_get in
        let! _ := when (ch_blocked s) (recover it m) in
        unless_cancelled (mo_view2 m)
          (let! _ := guard it (mo_guard2 m) in
           unless_cancelled (mo_view3 m)
             (let! _ := raise_when (stops it (mo_view3 m)) Connection_error in
              let! _ := ask it m in
              unless_cancelled (mo_view4 m)
                (let! _ := raise_when (stops it (mo_view4 m)) Connection_error in
                 send it m))))).

(** ** The sender *)

Inductive future : Type := Pending | Cancelled | Resolved (r : result raised unit).

(** `future.cancelled()` *)
Definition is_cancelled (f : option future) : bool := match f with Some Cancelled => true | _ => false end.

(** The queue, the futures of the items by counter, the item that is being sent, and
    whether the sender has ended. *)
Record dispatcher := Dispatcher {
  d_queue : list item; d_counter : Z; d_futures : gmap Z future; d_channel : channel; d_ended : bool }.

Definition new_dispatcher : dispatcher := Dispatcher [] 0 ∅ (Channel false []) false.

(** The head of the heap entry; the counters are distinct, so nothing else is compared. *)
Definition item_key (it : item) : Z * Z := (it_priority it, it_counter it).
Definition key_leb : Z * Z -> Z * Z -> bool := pair_leb Z.leb Z.leb.

(** `if not future.done(): future.set_...` *)
Definition resolve (n : Z) (r : result raised unit) (f : gmap Z future) : gmap Z future :=
  match f !! n with Some Pending => <[n := Resolved r]> f | _ => f end.

(** [fail_queued]. *)
Definition fail_all (items : list item) (e : raised) (f : gmap Z future) : gmap Z future :=
  foldl (fun f it => resolve (it_counter it) (Raise e) f) f items.

Definition fail_queued (sending : list item) (e : raised) (d : dispatcher) : dispatcher :=
  Dispatcher [] (d_counter d) (fail_all (sending ++ d_queue d) e (d_futures d)) (d_channel d) (d_ended d).

(** [enqueue]: refused when the session does not accept. *)
Definition enqueue (accepts : bool) (it : item) (d : dispatcher) : dispatcher :=
  if negb (it_shutdown it) && negb accepts then d
  else
    let n := d_counter d + 1 in
    let it := Item (it_priority it) n (it_command it) (it_newline it) (it_prompt it) (it_before_send it) (it_guard it)
                (it_shutdown it) (it_safe it) (it_capture it) in
    Dispatcher (d_queue d ++ [it]) n (<[n := Pending]> (d_futures d)) (d_channel d) (d_ended d).

(** The task that waits for the future is cancelled. *)
Definition cancel (n : Z) (d : dispatcher) : dispatcher :=
  Dispatcher (d_queue d) (d_counter d) (match d_futures d !! n with Some Pending => <[n := Cancelled]> (d_futures d) | _ => d_futures d end)
    (d_channel d) (d_ended d).

(** One pass of [sender_loop].  [slave] is whether the task runs on a slave device. *)
Definition finish (slave : bool) (it : item) (m : moment) (r : result raised outcome) (d : dispatcher) : dispatcher :=
  let n := it_counter it in
  match r with
  | Ok Skipped => d
  | Ok Finished => Dispatcher (d_queue d) (d_counter d) (resolve n (Ok tt) (d_futures d)) (d_channel d) (d_ended d)
  | Raise e =>
      if slave && match e with Psh_switch => true | _ => false end
      then let d := fail_queued [it] Connection_error d in
           Dispatcher (d_queue d) (d_counter d) (d_futures d) (Channel true (ch_trace (d_channel d) ++ [Closing])) true
      else Dispatcher (d_queue d) (d_counter d) (resolve n (Raise e) (d_futures d))
             (match e with Psh_switch => Channel (negb (mo_known m)) (ch_trace (d_channel d)) | _ => d_channel d end) (d_ended d)
  end.

Definition skipped (r : result raised outcome) : bool := match r with Ok Skipped => true | _ => false end.

(** The start of the attempt reads the future of the item. *)
Definition seen_by (it : item) (d : dispatcher) (m : moment) : moment :=
  let v := mo_start m in
  Moment (View (v_connected v) (v_closed v) (v_accepting v) (v_stopping v) (is_cancelled (d_futures d !! it_counter it)))
    (mo_guard1 m) (mo_view1 m) (mo_known1 m) (mo_recover m) (mo_view2 m) (mo_guard2 m) (mo_view3 m) (mo_before m) (mo_view4 m)
    (mo_debug m) (mo_write m) (mo_written m) (mo_prompt m) (mo_capture m) (mo_gone m) (mo_known m) (mo_closes m).

(** What happened to the futures during the pass; a skipped item is one whose waiter has
    left. *)
Definition meanwhile (it : item) (m : moment) (r : result raised outcome) (d : dispatcher) : dispatcher :=
  let d := if mo_gone m || skipped r then cancel (it_counter it) d else d in
  if mo_closes m then fail_queued [it] Connection_error d else d.

(** Commands that arrive during the pass
    only lengthen the queue: they are [enqueue] steps after it. *)
Definition sender_step (slave : bool) (m : moment) (d : dispatcher) : dispatcher :=
  if d_ended d then d
  else
    match d_queue d with
    | [] => d
    | it :: queue =>
        let '(it, queue) := pop_min item_key key_leb it queue in
        let m := seen_by it d m in
        let '(r, c) := attempt it m (d_channel d) in
        finish slave it m r (meanwhile it m r (Dispatcher queue (d_counter d) (d_futures d) c (d_ended d)))
    end.

(** The session: commands arrive, waiters leave, the sender works, the connection closes. *)
Inductive operation : Type :=
  | Enqueue (accepts : bool) (it : item) | Leave (n : Z) | Pass (m : moment) | Close (e : raised).

Definition operate (slave : bool) (o : operation) (d : dispatcher) : dispatcher :=
  match o with
  | Enqueue accepts it => enqueue accepts it d
  | Leave n => cancel n d
  | Pass m => sender_step slave m d
  | Close e => fail_queued [] e d
  end.

(** ** The loop of a scheduled command *)

Inductive report : Type := R_sent | R_failed | R_unknown | R_unsent.

(** One interval.  The enqueue is refused or fails ([ro_refused]), the item is failed
    with the connection while it waits ([ro_dropped]) or while it is sent ([ro_lost]);
    [ro_sent] is what the report of the success raises, [ro_report] whether the report of
    a failure is stored. *)
Record round := Round {
  ro_closed : bool; ro_refused : option raised; ro_dropped : bool; ro_blocked : bool; ro_counter : Z; ro_moment : moment;
  ro_lost : bool; ro_sent : option raised; ro_report : bool }.

(** The item of a scheduled command always asks, has no guard and priority 2. *)
Definition scheduled_item (command newline : string) (prompt : bool) (n : Z) : item :=
  Item 2 n command newline prompt true false false false false.

(** What the loop did in an interval with the number [execution + 1]. *)
Record turn := Turn { t_number : Z; t_events : list event; t_reports : list report }.

Inductive ending : Type := Exhausted | Session_closed | Budget_over | Uncertain (e : raised) | Task_cancelled | Waiting.

(** Whether the next interval comes, with which number of executions, or the loop ends. *)
Definition after : Type := Z + ending.

Definition entered (ev : list event) : bool := existsb (fun e => match e with Asked _ _ => true | _ => false end) ev.

(** `await self._enqueue(...)` *)
Definition waited (it : item) (ro : round) : result raised outcome * list event :=
  match ro_refused ro with
  | Some e => (Raise e, [])
  | None =>
      if ro_dropped ro then (Raise Connection_error, [])
      else
        let '(r, c) := attempt it (ro_moment ro) (Channel (ro_blocked ro) []) in
        (if ro_lost ro && negb (skipped r) then Raise Connection_error else r, ch_trace c)
  end.

(** The `except` clauses, for the counter [execution] they find. *)
Definition handle (e : raised) (ev : list event) (execution : Z) (stored : bool) : list report * after :=
  let next (reports : list report) (execution : Z) := (reports, if stored then inl execution else inr (Uncertain Other_error)) in
  match e with
  | Budget_exhausted => ([], inr Budget_over)
  | Channel_blocked => next [R_unsent] execution
  | Psh_switch => next [R_failed] (execution + 1)
  | Connection_error => ([R_unknown], inr (Uncertain e))
  | _ => if negb (entered ev) then next [R_failed; R_unsent] (execution + 1) else ([R_unknown], inr (Uncertain e))
  end.

(** What the loop makes of an interval, once the sender has answered. *)
Definition conclude (execution : Z) (ro : round) (r : result raised outcome) (ev : list event) : turn * after :=
  match r with
  | Ok Finished =>
      match ro_sent ro with
      | None => (Turn (execution + 1) ev [R_sent], inl (execution + 1))
      | Some e => let '(reports, a) := handle e ev (execution + 1) (ro_report ro) in (Turn (execution + 1) ev (R_sent :: reports), a)
      end
  | Ok Skipped => (Turn (execution + 1) ev [], inr Task_cancelled)
  | Raise e => let '(reports, a) := handle e ev execution (ro_report ro) in (Turn (execution + 1) ev reports, a)
  end.

Definition one_round (it : Z -> item) (execution : Z) (ro : round) : turn * after :=
  let '(r, ev) := waited (it (ro_counter ro)) ro in conclude execution ro r ev.

(** [_scheduled_loop] *)
Fixpoint scheduled (it : Z -> item) (total : Z) (rounds : list round) (execution : Z) : list turn * ending :=
  if total <=? execution then ([], Exhausted)
  else
    match rounds with
    | [] => ([], Waiting)
    | ro :: rounds =>
        if ro_closed ro then ([], Session_closed)
        else
          let '(t, a) := one_round it execution ro in
          match a with
          | inr e => ([t], e)
          | inl execution => let '(ts, e) := scheduled it total rounds execution in (t :: ts, e)
          end
    end.

(** ** What one attempt does *)

Definition run {A} (m : dm A) (Q : result raised A -> channel -> Prop) (c : channel) : Prop := let '(r, c') := m c in Q r c'.

Lemma run_bind {A B} (m : dm A) (k : A -> dm B) Q c :
  run m (fun r c' => match r with Ok a => run (k a) Q c' | Raise e => Q (Raise e) c' end) c -> run (st_bind m k) Q c.
Proof. unfold run, st_bind. destruct (m c) as [[a|e] c']; auto. Qed.

Lemma run_mono {A} (m : dm A) (Q Q' : result raised A -> channel -> Prop) c :
  run m Q c -> (forall r c', Q r c' -> Q' r c') -> run m Q' c.
Proof. unfold run. destruct (m c). auto. Qed.

(** What callers rely on: the budget's callback and the writes do not raise the errors of the
    sender itself, and only a dialogue raises the error of a dialogue. *)
Definition own_error (e : raised) : bool := match e with Channel_blocked | Budget_exhausted => true | _ => false end.
Definition plain (e : raised) : bool := match e with Channel_blocked | Budget_exhausted | Psh_switch => false | _ => true end.
Definition all_opt (p : raised -> bool) (e : option raised) : bool := match e with Some e => p e | None => true end.
Definition all_res (p : raised -> bool) (r : result raised bool) : bool := match r with Raise e => p e | Ok _ => true end.
Definition no_budget (e : raised) : bool := match e with Budget_exhausted => false | _ => true end.

Definition honest (m : moment) : bool :=
  all_opt no_budget (mo_guard1 m) && all_opt no_budget (mo_guard2 m) && all_res no_budget (mo_recover m)
  && all_res plain (mo_before m) && all_opt (fun e => negb (own_error e)) (mo_debug m)
  && all_opt plain (mo_write m) && all_opt plain (mo_written m) && all_opt plain (mo_prompt m) && all_opt plain (mo_capture m).

(** The answers of the guards and of the budget that stand behind a write. *)
Definition cleared (it : item) (m : moment) : Prop :=
  (it_guard it = true -> mo_guard1 m = None /\ mo_guard2 m = None)
  /\ (it_before_send it = true -> mo_before m = Ok true)
  /\ v_cancelled (mo_view4 m) = false /\ stops it (mo_view4 m) = false.

Definition question (it : item) (m : moment) : list event :=
  if it_before_send it then [Asked (it_counter it) (mo_before m)] else [].

Definition bytes_of (it : item) : event :=
  if is_debug it then Dialogue (it_counter it) else Wrote (it_counter it) (it_command it ++ it_newline it).

Definition preparing (n : Z) (e : event) : Prop := e = Guarded n \/ e = Recovering n.

(** The three ways an attempt ends, with the events after the checks. *)
Inductive stage (it : item) (m : moment) : result raised outcome -> list event -> Prop :=
  | Stopped r : r <> Ok Finished -> r <> Raise Budget_exhausted -> stage it m r []
  | Asked_only r :
      it_before_send it = true -> r <> Ok Finished -> r <> Raise Channel_blocked -> r <> Raise Psh_switch ->
      (r = Raise Budget_exhausted <-> mo_before m = Ok false) ->
      stage it m r (question it m)
  | Sent r :
      cleared it m -> r <> Ok Skipped -> r <> Raise Channel_blocked -> r <> Raise Budget_exhausted ->
      (is_debug it = false -> r <> Raise Psh_switch) ->
      stage it m r (question it m ++ [bytes_of it]).

Definition attempted (it : item) (m : moment) (c : channel) (r : result raised outcome) (c' : channel) : Prop :=
  exists checks events, ch_trace c' = (ch_trace c ++ checks) ++ events /\ Forall (preparing (it_counter it)) checks
    /\ stage it m r events /\ (r = Ok Finished -> ch_blocked c' = false).

Lemma run_ret {A} (a : A) (Q : result raised A -> channel -> Prop) c : Q (Ok a) c -> run (st_ret a) Q c.
Proof. done. Qed.

Lemma run_raise {A} e (Q : result raised A -> channel -> Prop) c : Q (Raise e) c -> run (st_raise e) Q c.
Proof. done. Qed.

Lemma run_get (Q : result raised channel -> channel -> Prop) c : Q (Ok c) c -> run st_get Q c.
Proof. done. Qed.

Lemma run_emit e (Q : result raised unit -> channel -> Prop) c :
  Q (Ok tt) (Channel (ch_blocked c) (ch_trace c ++ [e])) -> run (emit e) Q c.
Proof. done. Qed.

Lemma run_set b (Q : result raised unit -> channel -> Prop) c : Q (Ok tt) (Channel b (ch_trace c)) -> run (set_blocked b) Q c.
Proof. done. Qed.

Lemma run_raise_some o (Q : result raised unit -> channel -> Prop) c :
  (forall e, o = Some e -> Q (Raise e) c) -> (o = None -> Q (Ok tt) c) -> run (raise_some o) Q c.
Proof. destruct o; cbn; auto. Qed.

Lemma run_raise_when b e (Q : result raised unit -> channel -> Prop) c :
  (b = true -> Q (Raise e) c) -> (b = false -> Q (Ok tt) c) -> run (raise_when b e) Q c.
Proof. destruct b; cbn; auto. Qed.

Lemma run_when b m (Q : result raised unit -> channel -> Prop) c :
  (b = true -> run m Q c) -> (b = false -> Q (Ok tt) c) -> run (when b m) Q c.
Proof. destruct b; cbn; auto. Qed.

Lemma run_answer r (Q : result raised bool -> channel -> Prop) c :
  (forall b, r = Ok b -> Q (Ok b) c) -> (forall e, r = Raise e -> Q (Raise e) c) -> run (answer_of r) Q c.
Proof. destruct r; cbn; auto. Qed.

Lemma run_unless v m (Q : result raised outcome -> channel -> Prop) c :
  (v_cancelled v = true -> Q (Ok Skipped) c) -> (v_cancelled v = false -> run m Q c) -> run (unless_cancelled v m) Q c.
Proof. unfold unless_cancelled. destruct (v_cancelled v); cbn; auto. Qed.

Ltac run_step :=
  match goal with
  | |- run (st_bind _ _) _ _ => apply run_bind
  | |- run (emit _) _ _ => apply run_emit
  | |- run (set_blocked _) _ _ => apply run_set
  | |- run (raise_some _) _ _ => apply run_raise_some; [intros ? ?|intros ?]
  | |- run (raise_when _ _) _ _ => apply run_raise_when; intros ?
  | |- run (when _ _) _ _ => apply run_when; intros ?
  | |- run (answer_of _) _ _ => apply run_answer; intros ? ?
  | |- run (unless_cancelled _ _) _ _ => apply run_unless; intros ?
  | |- run (if ?b then _ else _) _ _ => destruct b eqn:?
  | |- run (st_ret _) _ _ => apply run_ret
  | |- run (st_raise _) _ _ => apply run_raise
  | |- run st_get _ _ => apply run_get
  end; cbn [ch_blocked ch_trace].

Lemma send_stage it m c :
  honest m = true -> cleared it m -> ch_blocked c = false ->
  run (send it m) (fun r c' => ch_trace c' = ch_trace c ++ [bytes_of it] /\ (r = Ok Finished -> ch_blocked c' = false)
    /\ r <> Ok Skipped /\ r <> Raise Channel_blocked /\ r <> Raise Budget_exhausted
    /\ (is_debug it = false -> r <> Raise Psh_switch)) c.
Proof.
  unfold honest. intros Hh _ Hb. rewrite !andb_true_iff in Hh. destruct_and! Hh. unfold send, bytes_of.
  repeat run_step.
  all: try done.
  all: repeat match goal with Hs : all_opt _ ?o = true, E : ?o = Some _ |- _ => rewrite E in Hs; cbn in Hs end.
  all: try (match goal with e : raised |- _ => destruct e end; try done).
Qed.

(** The checks before the budget is asked. *)
Definition prepares (it : item) (m : moment) (k : dm outcome) : dm outcome :=
  unless_cancelled (mo_start m)
    (let! _ := raise_when (closed_to it (mo_start m)) Connection_error in
     let! _ := guard it (mo_guard1 m) in
     unless_cancelled (mo_view1 m)
       (let! _ := raise_when (stops it (mo_view1 m)) Connection_error in
        let! s := st_get in
        let! _ := raise_when (it_safe it && negb (negb (ch_blocked s) && mo_known1 m)) Channel_blocked in
        let! s := st_get in
        let! _ := when (ch_blocked s) (recover it m) in
        unless_cancelled (mo_view2 m)
          (let! _ := guard it (mo_guard2 m) in
           unless_cancelled (mo_view3 m)
             (let! _ := raise_when (stops it (mo_view3 m)) Connection_error in k)))).

Lemma prepares_run it m k c (Q : result raised outcome -> channel -> Prop) :
  honest m = true ->
  (forall r c' checks, ch_trace c' = ch_trace c ++ checks -> Forall (preparing (it_counter it)) checks ->
     r <> Ok Finished -> r <> Raise Budget_exhausted -> Q r c') ->
  (forall c' checks, ch_trace c' = ch_trace c ++ checks -> Forall (preparing (it_counter it)) checks -> ch_blocked c' = false ->
     (it_guard it = true -> mo_guard1 m = None /\ mo_guard2 m = None) -> run k Q c') ->
  run (prepares it m k) Q c.
Proof.
  unfold honest. intros Hh Hstop Hgo. rewrite !andb_true_iff in Hh. destruct_and! Hh. unfold prepares, guard, recover.
  repeat run_step.
  all: repeat match goal with
    | Hs : all_opt _ ?o = true, E : ?o = Some _ |- _ => rewrite E in Hs; cbn in Hs
    | Hs : all_res _ ?o = true, E : ?o = Raise _ |- _ => rewrite E in Hs; cbn in Hs
    end.
  all: try (eapply Hstop; cbn [ch_trace];
    [first [by rewrite app_nil_r|by rewrite <- ?app_assoc]|by cbn [app]; unfold preparing; auto 10|done|by first [done|intros [= ->]]]).
  all: eapply Hgo; cbn [ch_trace ch_blocked];
    [first [by rewrite app_nil_r|by rewrite <- ?app_assoc]|by cbn [app]; unfold preparing; auto 10|done|by intros; try congruence].
Qed.

Lemma attempt_ends it m c c' r checks events b :
  c' = ch_trace c ++ checks -> Forall (preparing (it_counter it)) checks -> stage it m r events -> r <> Ok Finished ->
  attempted it m c r (Channel b (c' ++ events)).
Proof. intros -> Hp Hs Hr. by exists checks, events. Qed.

Lemma attempt_sends it m c c' checks :
  honest m = true -> ch_trace c' = (ch_trace c ++ checks) ++ question it m -> Forall (preparing (it_counter it)) checks ->
  ch_blocked c' = false -> cleared it m -> run (send it m) (attempted it m c) c'.
Proof.
  intros Hh Hc Hp Hb Hcl. eapply run_mono; [by apply send_stage|]. intros r c'' (Ht & Hf & H1 & H2 & H3 & H4).
  exists checks, (question it m ++ [bytes_of it]). rewrite Ht, Hc, <- !app_assoc. split_and!; [done|done|by constructor|auto].
Qed.

Lemma attempt_run it m c : honest m = true -> run (attempt it m) (attempted it m c) c.
Proof.
  intros Hh. apply (prepares_run it m _ c _ Hh).
  { intros r c' checks Hc Hp H1 H2. destruct c' as [b t]. cbn in Hc. rewrite <- (app_nil_r t).
    by apply (attempt_ends it m c t r checks []); [..|constructor|]. }
  intros c' checks Hc Hp Hb Hg.
  assert (Hplain : all_res plain (mo_before m) = true) by (unfold honest in Hh; rewrite !andb_true_iff in Hh; tauto).
  assert (Hask : it_before_send it = true -> [Asked (it_counter it) (mo_before m)] = question it m) by (unfold question; by intros ->).
  assert (Hskip : it_before_send it = false -> question it m = []) by (unfold question; by intros ->).
  destruct c' as [b t]. cbn in Hc, Hb. subst b. unfold ask. repeat run_step; try rewrite Hask by done.
  all: try (apply (attempt_sends it m c _ checks); cbn [ch_trace ch_blocked];
    [done|first [by rewrite Hc, Hskip, app_nil_r|by rewrite Hc]|done|done|];
    split_and!; [done|intros; try congruence; by destruct b|done|done]).
  all: try (eapply attempt_ends; [exact Hc|exact Hp| |done]; apply Asked_only; try done;
    destruct b; try done; rewrite H0; split; congruence).
  - rewrite H0 in Hplain. eapply attempt_ends; [exact Hc|exact Hp| |done].
    apply Asked_only; rewrite ?H0; destruct e; done.
  - rewrite <- (app_nil_r t). eapply attempt_ends; [exact Hc|exact Hp|by constructor|done].
  - rewrite <- (app_nil_r t). eapply attempt_ends; [exact Hc|exact Hp|by constructor|done].
Qed.

(** ** The scheduled loop *)

Definition business (e : event) : bool := match e with Wrote _ _ | Dialogue _ => true | _ => false end.

(** What the reports of an interval say of its events. *)
Record truthful (t : turn) : Prop := Truthful {
  tr_bytes : existsb business (t_events t) = true ->
    exists checks k b, t_events t = checks ++ [Asked k (Ok true); b] /\ business b = true /\ existsb business checks = false /\ entered checks = false;
  tr_sent : In R_sent (t_reports t) -> existsb business (t_events t) = true;
  tr_failed : In R_failed (t_reports t) -> forall k data, ~ In (Wrote k data) (t_events t);
  tr_unsent : In R_unsent (t_reports t) -> entered (t_events t) = false /\ existsb business (t_events t) = false }.

Definition honest_round (ro : round) : bool :=
  honest (ro_moment ro) && all_opt plain (ro_refused ro) && all_opt plain (ro_sent ro).

Lemma preparing_silent n l : Forall (preparing n) l -> existsb business l = false /\ entered l = false.
Proof.
  induction 1 as [|e l [-> | ->] _ [IH1 IH2]]; cbn; auto.
Qed.

(** The events of an interval, by what the sender answered. *)
Inductive answered (it : item) : result raised outcome -> list event -> Prop :=
  | A_quiet r ev : existsb business ev = false -> entered ev = false -> r <> Ok Finished -> r <> Raise Budget_exhausted ->
      answered it r ev
  | A_asked r ev : existsb business ev = false -> entered ev = true -> r <> Ok Finished -> r <> Raise Channel_blocked ->
      r <> Raise Psh_switch -> answered it r ev
  | A_bytes r checks : existsb business checks = false -> entered checks = false -> r <> Ok Skipped -> r <> Raise Channel_blocked ->
      r <> Raise Budget_exhausted -> (is_debug it = false -> r <> Raise Psh_switch) ->
      answered it r (checks ++ [Asked (it_counter it) (Ok true); bytes_of it]).

Lemma entered_app l l' : entered (l ++ l') = entered l || entered l'.
Proof. apply existsb_app. Qed.

Lemma waited_answered it ro r ev :
  honest_round ro = true -> it_before_send it = true -> waited it ro = (r, ev) -> answered it r ev.
Proof.
  unfold honest_round. rewrite !andb_true_iff. intros [[Hm Hr] _] Hb. unfold waited.
  destruct (ro_refused ro) as [e|]; [intros [= <- <-]; constructor; by destruct e|].
  destruct (ro_dropped ro); [intros [= <- <-]; by constructor|].
  pose proof (attempt_run it (ro_moment ro) (Channel (ro_blocked ro) []) Hm) as Ha. unfold run in Ha.
  destruct (attempt it (ro_moment ro) _) as [r0 c'] eqn:E. destruct Ha as (checks & events & Ht & Hp & Hs & _). cbn in Ht.
  apply preparing_silent in Hp as [Hp1 Hp2]. intros [= <- <-]. rewrite Ht.
  destruct Hs as [r0 H1 H2|r0 _ H1 H2 H3 _|r0 (_ & Hq & _) H1 H2 H3 H4].
  - rewrite app_nil_r. constructor; [done|done|by destruct (_ && _)..].
  - unfold question. rewrite Hb. apply A_asked; [by rewrite existsb_app, Hp1|by rewrite entered_app, Hp2|by destruct (_ && _)..].
  - unfold question. rewrite Hb, Hq by done. apply A_bytes; [done|done|by destruct (_ && _)..|].
    intros Hd. specialize (H4 Hd). by destruct (_ && _).
Qed.

Definition numbered (command newline : string) (prompt : bool) : Z -> item := scheduled_item command newline prompt.

(** How an interval moves the counter. *)
Definition moves (execution : Z) (t : turn) (a : after) : Prop :=
  match a with
  | inl next => (next = execution + 1 /\ (In R_sent (t_reports t) \/ In R_failed (t_reports t)) \/ next = execution /\ t_reports t = [R_unsent])
                /\ ~ In R_unknown (t_reports t)
  | inr e => e <> Exhausted /\ (In R_unknown (t_reports t) -> exists x, e = Uncertain x)
  end.

Lemma silent_no_bytes ev : existsb business ev = false -> forall k data, ~ In (Wrote k data) ev.
Proof. intros H k data Hin. assert (existsb business ev = true) by (apply existsb_exists; by exists (Wrote k data)). congruence. Qed.

Lemma truthful_quiet number ev reports :
  existsb business ev = false -> ~ In R_sent reports -> (In R_unsent reports -> entered ev = false) -> truthful (Turn number ev reports).
Proof.
  intros H Hs Hu. split; cbn; [by rewrite H|done|intros _; by apply silent_no_bytes|auto].
Qed.

Lemma truthful_bytes it number checks reports :
  existsb business checks = false -> entered checks = false -> ~ In R_unsent reports -> (is_debug it = false -> ~ In R_failed reports) ->
  truthful (Turn number (checks ++ [Asked (it_counter it) (Ok true); bytes_of it]) reports).
Proof.
  intros H1 H2 Hu Hf. assert (Hb : business (bytes_of it) = true) by (unfold bytes_of; by destruct (is_debug it)).
  split; cbn.
  - intros _. by exists checks, (it_counter it), (bytes_of it).
  - intros _. rewrite existsb_app. cbn. rewrite Hb. by rewrite !orb_true_r.
  - intros Hin k data [Hc|[Hc|[Hc|[]]]]%in_app_iff; [by eapply silent_no_bytes|done|].
    unfold bytes_of in Hc. destruct (is_debug it) eqn:Hd; [done|by apply Hf].
  - done.
Qed.

Ltac solve_moves :=
  cbn; first
    [ split; [left; split; [done|auto]|intuition discriminate]
    | split; [by right|intuition discriminate]
    | split; [done|first [intros _; eexists; reflexivity|intuition discriminate]] ].

Definition concluded (execution : Z) (x : turn * after) : Prop :=
  t_number (fst x) = execution + 1 /\ truthful (fst x) /\ moves execution (fst x) (snd x).

Lemma conclude_quiet execution ro r ev :
  existsb business ev = false -> entered ev = false -> r <> Ok Finished -> r <> Raise Budget_exhausted ->
  concluded execution (conclude execution ro r ev).
Proof.
  intros H1 H2 H3 H4.
  destruct r as [[]|[]]; cbn [conclude handle]; rewrite ?H2; cbn [negb]; try done; (split; [done|split]);
    try (apply truthful_quiet; [done|cbn; intuition discriminate|done]); cbn [fst snd]; destruct (ro_report ro); solve_moves.
Qed.

Lemma conclude_asked execution ro r ev :
  existsb business ev = false -> entered ev = true -> r <> Ok Finished -> r <> Raise Channel_blocked -> r <> Raise Psh_switch ->
  concluded execution (conclude execution ro r ev).
Proof.
  intros H1 H2 H3 H4 H5.
  destruct r as [[]|[]]; cbn [conclude handle]; rewrite ?H2; cbn [negb]; try done; (split; [done|split]);
    try (apply truthful_quiet; [done|cbn; intuition discriminate|cbn; intuition discriminate]); cbn [fst snd]; solve_moves.
Qed.

Lemma conclude_bytes execution ro it r checks :
  all_opt plain (ro_sent ro) = true -> existsb business checks = false -> entered checks = false ->
  r <> Ok Skipped -> r <> Raise Channel_blocked -> r <> Raise Budget_exhausted -> (is_debug it = false -> r <> Raise Psh_switch) ->
  concluded execution (conclude execution ro r (checks ++ [Asked (it_counter it) (Ok true); bytes_of it])).
Proof.
  intros Hs H1 H2 H3 H4 H5 H6.
  assert (Ht : forall reports, ~ In R_unsent reports -> (is_debug it = false -> ~ In R_failed reports) ->
    truthful (Turn (execution + 1) (checks ++ [Asked (it_counter it) (Ok true); bytes_of it]) reports))
    by (intros; by apply truthful_bytes).
  assert (He : entered (checks ++ [Asked (it_counter it) (Ok true); bytes_of it]) = true)
    by (rewrite entered_app; cbn; by rewrite orb_true_r).
  set (ev := checks ++ _) in *. clearbody ev. set (debug := is_debug it) in *. clearbody debug.
  destruct r as [[]|[]]; cbn [conclude handle]; try done;
    [destruct (ro_sent ro) as [[]|]; cbn [handle]; try done|..]; rewrite ?He; cbn [negb]; (split; [done|split]);
    try (apply Ht; [cbn; intuition discriminate|cbn; intros Hd; try (specialize (H6 Hd)); intuition discriminate]);
    cbn [fst snd]; try (destruct (ro_report ro)); solve_moves.
Qed.

Lemma one_round_turn command newline prompt execution ro t a :
  honest_round ro = true -> one_round (numbered command newline prompt) execution ro = (t, a) ->
  t_number t = execution + 1 /\ truthful t /\ moves execution t a.
Proof.
  intros Hh. unfold one_round, numbered. destruct (waited _ ro) as [r ev] eqn:Ew.
  apply waited_answered in Ew; [|done|done].
  assert (Hsent : all_opt plain (ro_sent ro) = true) by (unfold honest_round in Hh; rewrite !andb_true_iff in Hh; tauto).
  intros E. change (concluded execution (t, a)). rewrite <- E.
  destruct Ew; [by apply conclude_quiet|by apply conclude_asked|by apply conclude_bytes].
Qed.

Definition asked_numbers (ts : list turn) : list Z := map t_number (List.filter (fun t => entered (t_events t)) ts).

Definition settled (t : turn) : bool :=
  existsb (fun r => match r with R_sent | R_failed => true | _ => false end) (t_reports t).

Definition settled_numbers (ts : list turn) : list Z := map t_number (List.filter settled ts).

Record run_spec (execution total : Z) (ts : list turn) (e : ending) : Prop := RunSpec {
  rs_truthful : Forall truthful ts;
  rs_asked : StronglySorted Z.lt (asked_numbers ts);
  rs_bounds : Forall (fun n => execution < n <= total) (asked_numbers ts);
  rs_settled : exists k, settled_numbers ts = seqZ (execution + 1) k /\ 0 <= k /\ (e = Exhausted -> execution + k = Z.max execution total);
  rs_unknown : forall pre t post, ts = pre ++ t :: post -> In R_unknown (t_reports t) -> post = [] /\ exists x, e = Uncertain x }.

Lemma settled_in t : In R_sent (t_reports t) \/ In R_failed (t_reports t) -> settled t = true.
Proof. intros [H|H]; apply existsb_exists; eauto. Qed.

Lemma run_spec_nil execution total e : e <> Exhausted \/ total <= execution -> run_spec execution total [] e.
Proof.
  intros He. split; [constructor|constructor|constructor|exists 0; split_and!; [done|lia|]|by intros [] ? ? ?].
  intros ->. destruct He; [done|lia].
Qed.

Lemma run_spec_end execution total t e :
  t_number t = execution + 1 -> execution < total -> truthful t -> moves execution t (inr e) -> run_spec execution total [t] e.
Proof.
  intros Hn Hlt Ht [He Hu]. split.
  - by constructor.
  - unfold asked_numbers. cbn. destruct (entered _); repeat constructor.
  - unfold asked_numbers. cbn. destruct (entered _); repeat constructor; lia.
  - unfold settled_numbers. cbn. destruct (settled t); [exists 1|exists 0]; (split_and!; [|lia|done]); cbn; by rewrite ?Hn.
  - intros [|? [|]] ? ? ? Hin; simplify_eq/=; auto.
Qed.

Lemma run_spec_cons execution next total t ts e :
  t_number t = execution + 1 -> execution < total -> truthful t -> moves execution t (inl next) -> run_spec next total ts e ->
  run_spec execution total (t :: ts) e.
Proof.
  intros Hn Hlt Ht [Hmove Hu] [H1 H2 H3 (k & H4 & Hk & Hx) H5].
  assert (Hs : next = execution + 1 /\ settled t = true \/ next = execution /\ settled t = false /\ entered (t_events t) = false).
  { destruct Hmove as [[-> Hin]|[-> Hr]]; [left; split; [done|by apply settled_in]|right].
    unfold settled. rewrite Hr. split_and!; [done|done|]. apply (tr_unsent t Ht). rewrite Hr. by left. }
  assert (Hlow : forall n, next < n <= total -> execution < n <= total) by (destruct Hs as [[-> _]|[-> _]]; lia).
  split.
  - by constructor.
  - unfold asked_numbers in *. cbn. destruct (entered (t_events t)) eqn:E; [|done]. destruct Hs as [[-> _]|(_ & _ & ?)]; [|done].
    cbn. constructor; [done|]. eapply Forall_impl; [exact H3|]. cbn. lia.
  - unfold asked_numbers in *. cbn. destruct (entered (t_events t)) eqn:E; cbn; [constructor; [lia|]|];
      (eapply Forall_impl; [exact H3|exact Hlow]).
  - unfold settled_numbers in *. cbn. destruct Hs as [[-> ->]|(-> & -> & _)].
    + exists (k + 1). cbn. rewrite H4, Hn. split_and!; [|lia|intros He; specialize (Hx He); lia].
      rewrite (seqZ_cons (execution + 1)) by lia. f_equal. f_equal; lia.
    + exists k. split_and!; [done|lia|done].
  - intros [|t' pre] t0 post [= <- ->] Hin; [done|]. eapply H5; [done|exact Hin].
Qed.

Lemma scheduled_spec command newline prompt total rounds : forall execution ts e,
  Forall (fun ro => honest_round ro = true) rounds ->
  scheduled (numbered command newline prompt) total rounds execution = (ts, e) -> run_spec execution total ts e.
Proof.
  induction rounds as [|ro rounds IH]; intros execution ts e Hr; cbn; destruct (Z.leb_spec total execution) as [Hle|Hlt].
  1-3: intros [= <- <-]; apply run_spec_nil; auto.
  apply Forall_cons_1 in Hr as [Hro Hr]. destruct (ro_closed ro); [intros [= <- <-]; apply run_spec_nil; by left|].
  destruct (one_round _ execution ro) as [t a] eqn:Et. apply one_round_turn in Et as (Hn & Ht & Hm); [|done].
  destruct a as [next|e']; [|intros [= <- <-]; by apply run_spec_end].
  destruct (scheduled _ total rounds next) as [ts' e'] eqn:Es. intros [= <- <-].
  eapply run_spec_cons; [done|done|done|exact Hm|by eapply IH].
Qed.

(** ** The session *)

Definition event_of (e : event) : option Z :=
  match e with
  | Guarded n | Recovering n | Asked n _ | Dialogue n | Wrote n _ => Some n
  | Closing => None
  end.

(** The events of command [n]. *)
Definition of_command (n : Z) (l : list event) : list event := filter (fun e => event_of e = Some n) l.

Definition queued (d : dispatcher) : list Z := it_counter <$> d_queue d.

(** A command writes at most once, and only with a budget that was granted. *)
Definition proper (l : list event) : Prop :=
  Nat.le (length (List.filter business l)) 1
  /\ (existsb business l = true -> forall n a, Asked n a ∈ l -> a = Ok true).

Record dispatcher_ok (d : dispatcher) : Prop := DispatcherOk {
  dk_counter : 0 <= d_counter d;
  dk_distinct : NoDup (queued d);
  dk_queued : forall n, n ∈ queued d -> 1 <= n <= d_counter d /\ of_command n (ch_trace (d_channel d)) = [];
  dk_futures : forall n, 1 <= n <= d_counter d -> exists f, d_futures d !! n = Some f;
  dk_known : forall n f, d_futures d !! n = Some f -> 1 <= n <= d_counter d;
  dk_pending : forall n, d_futures d !! n = Some Pending -> n ∈ queued d;
  dk_future_events : forall n, d_counter d < n -> of_command n (ch_trace (d_channel d)) = [];
  dk_proper : forall n, proper (of_command n (ch_trace (d_channel d))) }.

Lemma resolve_lookup n r f k :
  resolve n r f !! k = if decide (k = n) then match f !! n with Some Pending => Some (Resolved r) | x => x end else f !! k.
Proof.
  unfold resolve. destruct (decide (k = n)) as [->|Hn].
  - destruct (f !! n) as [[]|] eqn:E; rewrite ?lookup_insert_eq; auto.
  - destruct (f !! n) as [[]|] eqn:E; rewrite ?lookup_insert_ne; auto.
Qed.

Lemma fail_all_lookup items e : forall f k,
  fail_all items e f !! k
  = if decide (k ∈ it_counter <$> items) then match f !! k with Some Pending => Some (Resolved (Raise e)) | x => x end else f !! k.
Proof.
  induction items as [|it items IH]; intros f k; cbn [fail_all foldl fmap list_fmap].
  { rewrite decide_False; [done|apply not_elem_of_nil]. }
  change (foldl _ _ items) with (fail_all items e (resolve (it_counter it) (Raise e) f)). rewrite IH, resolve_lookup.
  destruct (decide (k = it_counter it)) as [->|Hk].
  - rewrite (decide_True (P := it_counter it ∈ it_counter it :: _)) by left.
    destruct (decide _); destruct (f !! it_counter it) as [[]|]; done.
  - destruct (decide (k ∈ it_counter <$> items)); [rewrite decide_True by (by right)|rewrite decide_False by (by rewrite elem_of_cons; intros [|])]; done.
Qed.

(** Moving a future on: what a pending one becomes; the others stay. *)
Definition moved (f f' : gmap Z future) : Prop :=
  forall k, match f !! k with Some Pending => exists x, f' !! k = Some x | x => f' !! k = x end.

Lemma moved_refl f : moved f f.
Proof. intros k. destruct (f !! k) as [[]|]; eauto. Qed.

Lemma moved_trans f g h : moved f g -> moved g h -> moved f h.
Proof.
  intros H1 H2 k. specialize (H1 k). specialize (H2 k). destruct (f !! k) as [[]|].
  - destruct H1 as [x Hx]. rewrite Hx in H2. destruct x; eauto.
  - by rewrite H1 in H2.
  - by rewrite H1 in H2.
  - by rewrite H1 in H2.
Qed.

Lemma moved_resolve n r f : moved f (resolve n r f).
Proof. intros k. rewrite resolve_lookup. destruct (decide (k = n)) as [->|]; [|destruct (f !! k) as [[]|]; eauto]. destruct (f !! n) as [[]|]; eauto. Qed.

Lemma moved_fail_all items e f : moved f (fail_all items e f).
Proof. intros k. rewrite fail_all_lookup. destruct (f !! k) as [[]|]; destruct (decide _); eauto. Qed.

Lemma moved_cancel n d : moved (d_futures d) (d_futures (cancel n d)).
Proof.
  intros k. cbn. destruct (decide (k = n)) as [->|Hn].
  - destruct (d_futures d !! n) as [[]|] eqn:E; rewrite ?lookup_insert_eq, ?E; eauto.
  - destruct (d_futures d !! n) as [[]|]; rewrite ?lookup_insert_ne by done; destruct (d_futures d !! k) as [[]|]; eauto.
Qed.

Lemma moved_pending f f' k : moved f f' -> f' !! k = Some Pending -> f !! k = Some Pending.
Proof. intros H E. specialize (H k). destruct (f !! k) as [[]|]; congruence. Qed.

Lemma resolve_settles n r f : resolve n r f !! n <> Some Pending.
Proof. rewrite resolve_lookup, decide_True by done. by destruct (f !! n) as [[]|]. Qed.

Lemma cancel_settles n d : d_futures (cancel n d) !! n <> Some Pending.
Proof. cbn. destruct (d_futures d !! n) as [[]|] eqn:E; rewrite ?lookup_insert_eq, ?E; done. Qed.

Lemma fail_settles items e f k : k ∈ it_counter <$> items -> fail_all items e f !! k <> Some Pending.
Proof. intros Hk. rewrite fail_all_lookup, decide_True by done. by destruct (f !! k) as [[]|]. Qed.

(** What taking an item from the queue does. *)
Record popped (it : item) (q : list item) (d d' : dispatcher) : Prop := Popped {
  po_queue : d_queue d' = q \/ d_queue d' = [];
  po_counter : d_counter d' = d_counter d;
  po_moved : moved (d_futures d) (d_futures d');
  po_own : d_futures d' !! it_counter it <> Some Pending;
  po_rest : d_queue d' = [] -> forall k, k ∈ it_counter <$> q -> d_futures d' !! k <> Some Pending;
  po_other : forall k, k <> it_counter it -> of_command k (ch_trace (d_channel d')) = of_command k (ch_trace (d_channel d));
  po_proper : of_command (it_counter it) (ch_trace (d_channel d)) = [] -> proper (of_command (it_counter it) (ch_trace (d_channel d'))) }.

Lemma of_command_app n l l' : of_command n (l ++ l') = of_command n l ++ of_command n l'.
Proof. apply filter_app. Qed.

Lemma of_command_own n l : Forall (fun e => event_of e = Some n) l -> of_command n l = l.
Proof. induction 1 as [|e l He Hl IH]; [done|]. unfold of_command in *. rewrite filter_cons_True by done. by rewrite IH. Qed.

Lemma of_command_other n k l : Forall (fun e => event_of e = Some n) l -> k <> n -> of_command k l = [].
Proof.
  intros H Hk. induction H as [|e l He Hl IH]; [done|]. unfold of_command in *. rewrite filter_cons_False; [done|]. rewrite He. congruence.
Qed.

Lemma stage_own it m r events : stage it m r events -> Forall (fun e => event_of e = Some (it_counter it)) events.
Proof.
  intros [r0|r0|r0]; unfold question, bytes_of; [by apply Forall_nil_2|..]; destruct (it_before_send it), (is_debug it); cbn;
    by repeat constructor.
Qed.

Lemma stage_proper it m r checks events :
  Forall (preparing (it_counter it)) checks -> stage it m r events -> proper (checks ++ events).
Proof.
  intros Hp Hs. destruct (preparing_silent _ _ Hp) as [H1 H2].
  assert (Hc : List.filter business checks = []).
  { clear -Hp. induction Hp as [|e l [-> | ->] _ IH]; auto. }
  assert (Hq : forall n a, ~ Asked n a ∈ checks).
  { intros n a Hin. rewrite Forall_forall in Hp. apply Hp in Hin as [|]; done. }
  unfold proper. rewrite List.filter_app, existsb_app, Hc, H1. cbn [orb].
  destruct Hs as [r|r|r (_ & Hb & _)]; unfold question, bytes_of; destruct (it_before_send it), (is_debug it); cbn; split; try lia; try done;
    intros _ n a [Hin|Hin]%elem_of_app; try (by destruct (Hq n a)); rewrite !elem_of_cons, elem_of_nil in Hin;
    naive_solver.
Qed.

Lemma preparing_own n l : Forall (preparing n) l -> Forall (fun e => event_of e = Some n) l.
Proof. intros H. eapply Forall_impl; [exact H|]. by intros e [-> | ->]. Qed.

Lemma attempt_events it m c r c' :
  honest m = true -> attempt it m c = (r, c') ->
  (forall k, k <> it_counter it -> of_command k (ch_trace c') = of_command k (ch_trace c))
  /\ (of_command (it_counter it) (ch_trace c) = [] -> proper (of_command (it_counter it) (ch_trace c'))).
Proof.
  intros Hh E. pose proof (attempt_run it m c Hh) as H. unfold run in H. rewrite E in H.
  destruct H as (checks & events & -> & Hp & Hs & _). rewrite <- app_assoc.
  assert (Ho : Forall (fun e => event_of e = Some (it_counter it)) (checks ++ events))
    by (apply Forall_app_2; [by apply preparing_own|exact (stage_own _ _ _ _ Hs)]).
  split; [intros k Hk|intros Hn]; rewrite of_command_app.
  - by rewrite (of_command_other _ _ _ Ho Hk), app_nil_r.
  - rewrite Hn, (of_command_own _ _ Ho). exact (stage_proper _ _ _ _ _ Hp Hs).
Qed.

(** What a step of a pass may do to a session, the item [n] being sent. *)
Record effect (n : Z) (d d' : dispatcher) : Prop := Effect {
  ef_queue : d_queue d' = d_queue d \/ d_queue d' = [] /\ forall k, k ∈ queued d -> d_futures d' !! k <> Some Pending;
  ef_counter : d_counter d' = d_counter d;
  ef_moved : moved (d_futures d) (d_futures d');
  ef_trace : forall k, of_command k (ch_trace (d_channel d')) = of_command k (ch_trace (d_channel d)) }.

Lemma cancel_effect n k d : effect n d (cancel k d).
Proof. split; [by left|done|apply moved_cancel|done]. Qed.

Lemma fail_effect n items e d : effect n d (fail_queued items e d).
Proof.
  split; [|done|apply moved_fail_all|done]. right. split; [done|]. intros k Hk.
  apply (fail_settles (items ++ d_queue d)). rewrite fmap_app. apply elem_of_app. by right.
Qed.

Lemma effect_refl n d : effect n d d.
Proof. split; auto using moved_refl. Qed.

Lemma effect_trans n d d' d'' : effect n d d' -> effect n d' d'' -> effect n d d''.
Proof.
  intros [Hq Hc Hm Ht] [Hq' Hc' Hm' Ht']. split; [|congruence|by eapply moved_trans|intros k; by rewrite Ht', Ht].
  assert (Hback : forall k, d_futures d' !! k <> Some Pending -> d_futures d'' !! k <> Some Pending)
    by (intros k Hk Hp; by apply Hk, (moved_pending _ _ _ Hm')).
  destruct Hq as [Hq|[Hq Hn]].
  - destruct Hq' as [Hq'|[Hq' Hn']]; [left; congruence|right]. split; [done|]. intros k Hk. apply Hn'. unfold queued. by rewrite Hq.
  - right. split; [destruct Hq' as [Hq'|[Hq' _]]; congruence|auto].
Qed.

Lemma meanwhile_effect it m r d :
  effect (it_counter it) d (meanwhile it m r d)
  /\ (skipped r = true -> d_futures (meanwhile it m r d) !! it_counter it <> Some Pending)
  /\ ch_trace (d_channel (meanwhile it m r d)) = ch_trace (d_channel d).
Proof.
  unfold meanwhile. set (d1 := if mo_gone m || skipped r then _ else d).
  assert (H1 : effect (it_counter it) d d1) by (unfold d1; destruct (_ || _); auto using cancel_effect, effect_refl).
  assert (H2 : skipped r = true -> d_futures d1 !! it_counter it <> Some Pending).
  { unfold d1. intros ->. rewrite orb_true_r. apply cancel_settles. }
  assert (H3 : ch_trace (d_channel d1) = ch_trace (d_channel d)) by (unfold d1; by destruct (_ || _)).
  destruct (mo_closes m); [|done]. split_and!; [eapply effect_trans; [exact H1|apply fail_effect]| |done].
  intros Hs Hp. apply (H2 Hs). eapply moved_pending; [|exact Hp]. apply moved_fail_all.
Qed.

(** What `finish` adds to what the pass has done. *)
Lemma finish_effect slave it m r d :
  effect (it_counter it) d (finish slave it m r d)
  /\ (skipped r = false -> d_futures (finish slave it m r d) !! it_counter it <> Some Pending).
Proof.
  destruct r as [[]|e]; cbn [finish skipped].
  - split; [apply effect_refl|done].
  - split; [|intros _; apply resolve_settles]. split; cbn; auto using moved_resolve.
  - destruct (slave && _); cbn -[fail_all of_command].
    + split; [|intros _; apply (fail_settles (it :: d_queue d)); by left].
      eapply effect_trans; [apply (fail_effect _ [it] Connection_error)|]. split; cbn -[of_command]; auto using moved_refl.
      intros k. rewrite of_command_app. by rewrite app_nil_r.
    + split; [|intros _; apply resolve_settles]. split; cbn -[of_command]; auto using moved_resolve. intros k. by destruct e.
Qed.

Lemma sender_popped slave m d :
  honest m = true -> d_ended d = false ->
  d_queue d = [] /\ sender_step slave m d = d
  \/ exists it q, it :: q ≡ₚ d_queue d /\ Forall (fun x => key_leb (item_key it) (item_key x) = true) (d_queue d) /\ popped it q d (sender_step slave m d)
       /\ (d_futures d !! it_counter it = Some Cancelled -> ch_trace (d_channel (sender_step slave m d)) = ch_trace (d_channel d)).
Proof.
  intros Hh He. unfold sender_step. rewrite He. destruct (d_queue d) as [|it0 q0] eqn:Eq; [by left|right].
  destruct (pop_min item_key key_leb it0 q0) as [it q] eqn:Ep.
  pose proof (pop_min_least item_key key_leb _ _ _ _ Ep) as Hleast. apply pop_min_perm in Ep.
  set (m' := seen_by it d m). assert (Hm' : honest m' = true) by exact Hh.
  destruct (attempt it m' (d_channel d)) as [r c] eqn:Ea.
  set (d1 := Dispatcher q (d_counter d) (d_futures d) c false).
  destruct (attempt_events _ _ _ _ _ Hm' Ea) as [Hother Hown].
  destruct (meanwhile_effect it m' r d1) as (H1 & Hs1 & Ht1). destruct (finish_effect slave it m' r (meanwhile it m' r d1)) as (H2 & Hs2).
  destruct (effect_trans _ _ _ _ H1 H2) as [Hq Hc Hmv Ht].
  exists it, q. split_and!; [done|done| |].
  - assert (Hone : forall k, k ∈ it_counter <$> q -> d_queue (finish slave it m' r (meanwhile it m' r d1)) = [] ->
      d_futures (finish slave it m' r (meanwhile it m' r d1)) !! k <> Some Pending).
    { intros k Hk Hnil. destruct Hq as [Hq|[_ Hn]]; [|by apply Hn]. rewrite Hq in Hnil. cbn in Hnil. subst q. by apply not_elem_of_nil in Hk. }
    split; [destruct Hq as [Hq|[Hq _]]; auto|done|done| |by intros ? ? ?; apply Hone|..].
    + destruct (skipped r) eqn:E; [|by apply Hs2]. intros Hp. apply (Hs1 eq_refl). eapply moved_pending; [apply H2|exact Hp].
    + intros k Hk. rewrite Ht. by apply Hother.
    + rewrite Ht. exact Hown.
  - intros Hcan. assert (Hskip : attempt it m' (d_channel d) = (Ok Skipped, d_channel d)).
    { unfold attempt, unless_cancelled, m', seen_by. cbn. by rewrite Hcan. }
    rewrite Hskip in Ea. injection Ea as <- <-. exact Ht1.
Qed.

Lemma new_ok : dispatcher_ok new_dispatcher.
Proof.
  split; cbn; [lia|constructor|by intros n ?%not_elem_of_nil|lia|by intros n f [=]|by intros n [=]|done|].
  intros n. split; [cbn; lia|done].
Qed.

Lemma futures_moved f f' n x : moved f f' -> f' !! n = Some x -> exists y, f !! n = Some y.
Proof. intros H E. specialize (H n). destruct (f !! n) as [[]|]; [eauto..|congruence]. Qed.

Lemma futures_kept f f' n x : moved f f' -> f !! n = Some x -> exists y, f' !! n = Some y.
Proof. intros H E. specialize (H n). rewrite E in H. destruct x; eauto. Qed.

Lemma popped_ok it q d d' : dispatcher_ok d -> it :: q ≡ₚ d_queue d -> popped it q d d' -> dispatcher_ok d'.
Proof.
  intros [D0 D1 D2 D3 D4 D5 D6 D7] Hp [P1 P2 P3 P4 P5 P6 P7].
  assert (Hin : forall k, k ∈ queued d <-> k = it_counter it \/ k ∈ it_counter <$> q).
  { intros k. unfold queued. rewrite <- Hp. apply elem_of_cons. }
  assert (Hnd : NoDup (it_counter it :: (it_counter <$> q))) by (unfold queued in D1; rewrite <- Hp in D1; exact D1).
  apply NoDup_cons in Hnd as [Hnot Hnd].
  assert (Hsub : forall k, k ∈ queued d' -> k ∈ it_counter <$> q).
  { intros k. unfold queued. destruct P1 as [-> | ->]; [done|by intros ?%not_elem_of_nil]. }
  assert (Hfresh : of_command (it_counter it) (ch_trace (d_channel d)) = []) by (apply D2, Hin; by left).
  split.
  - by rewrite P2.
  - unfold queued. destruct P1 as [-> | ->]; [done|constructor].
  - intros n Hn%Hsub. rewrite P2, P6 by (intros ->; done). apply D2, Hin. by right.
  - intros n Hn. rewrite P2 in Hn. destruct (D3 _ Hn). by eapply futures_kept.
  - intros n f Hf. rewrite P2. destruct (futures_moved _ _ _ _ P3 Hf). by eapply D4.
  - intros n Hf. pose proof (moved_pending _ _ _ P3 Hf) as Hd. apply D5, Hin in Hd as [-> |Hq]; [done|].
    unfold queued. destruct P1 as [-> |Hnil]; [done|]. by destruct (P5 Hnil n Hq).
  - intros n Hn. rewrite P2 in Hn. rewrite P6; [by apply D6|]. intros ->. destruct (D2 (it_counter it)) as [? _]; [apply Hin; by left|lia].
  - intros n. destruct (decide (n = it_counter it)) as [-> |Hne]; [by apply P7|rewrite P6 by done; apply D7].
Qed.

Lemma effect_ok n d d' : dispatcher_ok d -> effect n d d' -> dispatcher_ok d'.
Proof.
  intros [D0 D1 D2 D3 D4 D5 D6 D7] [E1 E2 E3 E4].
  assert (Hsub : forall k, k ∈ queued d' -> k ∈ queued d).
  { intros k. unfold queued. destruct E1 as [-> |[-> _]]; [done|by intros ?%not_elem_of_nil]. }
  split.
  - by rewrite E2.
  - unfold queued. destruct E1 as [-> |[-> _]]; [done|constructor].
  - intros k Hk. rewrite E2, E4. by apply D2, Hsub.
  - intros k Hk. rewrite E2 in Hk. destruct (D3 _ Hk). by eapply futures_kept.
  - intros k f Hf. rewrite E2. destruct (futures_moved _ _ _ _ E3 Hf). by eapply D4.
  - intros k Hf. pose proof (moved_pending _ _ _ E3 Hf) as Hd. apply D5 in Hd.
    unfold queued. destruct E1 as [-> |[_ Hn]]; [done|by destruct (Hn k)].
  - intros k Hk. rewrite E2 in Hk. rewrite E4. by apply D6.
  - intros k. rewrite E4. apply D7.
Qed.

Lemma enqueue_ok accepts it d : dispatcher_ok d -> dispatcher_ok (enqueue accepts it d).
Proof.
  intros Hd. unfold enqueue. destruct (_ && _); [done|]. destruct Hd as [D0 D1 D2 D3 D4 D5 D6 D7].
  assert (Hq : forall q n, it_counter <$> (q ++ [Item (it_priority it) n (it_command it) (it_newline it) (it_prompt it) (it_before_send it)
    (it_guard it) (it_shutdown it) (it_safe it) (it_capture it)]) = (it_counter <$> q) ++ [n]) by (intros; by rewrite fmap_app).
  assert (Hn : forall n, n ∈ queued d -> 1 <= n <= d_counter d) by (intros n Hn; by apply D2).
  split; cbn -[of_command]; unfold queued; cbn [d_queue]; rewrite ?Hq.
  - lia.
  - apply NoDup_app. split_and!; [done| |apply NoDup_singleton]. intros x Hx ->%list_elem_of_singleton. apply Hn in Hx. lia.
  - intros n. rewrite elem_of_app, list_elem_of_singleton. intros [Hx| ->]; [specialize (D2 _ Hx); intuition lia|].
    split; [lia|apply D6; lia].
  - intros n Hk. destruct (decide (n = d_counter d + 1)) as [-> |]; [rewrite lookup_insert_eq; eauto|].
    rewrite lookup_insert_ne by done. apply D3. lia.
  - intros n f. destruct (decide (n = d_counter d + 1)) as [-> |]; [lia|]. rewrite lookup_insert_ne by done. intros Hf.
    apply D4 in Hf. lia.
  - intros n. rewrite elem_of_app, list_elem_of_singleton. destruct (decide (n = d_counter d + 1)) as [-> |]; [by right|].
    rewrite lookup_insert_ne by done. left. by apply D5.
  - intros n Hk. apply D6. lia.
  - exact D7.
Qed.

Definition honest_op (o : operation) : bool := match o with Pass m => honest m | _ => true end.

Lemma operate_ok slave o d : honest_op o = true -> dispatcher_ok d -> dispatcher_ok (operate slave o d).
Proof.
  intros Ho Hd. destruct o as [accepts it|n|m|e]; cbn [operate].
  - by apply enqueue_ok.
  - exact (effect_ok n _ _ Hd (cancel_effect n n d)).
  - destruct (d_ended d) eqn:He; [unfold sender_step; by rewrite He|].
    destruct (sender_popped slave m d Ho He) as [[_ ->]|(it & q & Hp & _ & Hpop & _)]; [done|exact (popped_ok _ _ _ _ Hd Hp Hpop)].
  - exact (effect_ok 0 _ _ Hd (fail_effect 0 [] e d)).
Qed.

(** The session after a history. *)
Definition history (slave : bool) (os : list operation) (d : dispatcher) : dispatcher := foldl (fun d o => operate slave o d) d os.

Lemma history_ok slave os : forall d, Forall (fun o => honest_op o = true) os -> dispatcher_ok d -> dispatcher_ok (history slave os d).
Proof. induction os as [|o os IH]; intros d; [done|]. intros [Ho Hos]%Forall_cons Hd. apply IH; [done|by apply operate_ok]. Qed.

Lemma close_settles e d k : dispatcher_ok d -> d_futures (fail_queued [] e d) !! k <> Some Pending.
Proof.
  intros Hd Hp. pose proof (moved_pending _ _ _ (moved_fail_all _ _ _) Hp) as Hq. apply (dk_pending d Hd) in Hq.
  by apply (fail_settles (d_queue d) e (d_futures d) k).
Qed.

Lemma sender_ends slave m d :
  d_ended d = false -> d_ended (sender_step slave m d) = true -> d_queue (sender_step slave m d) = [].
Proof.
  intros He. unfold sender_step. rewrite He. destruct (d_queue d) as [|it0 q0]; [congruence|].
  destruct (pop_min _ _ _ _) as [it q], (attempt _ _ _) as [r c]. unfold meanwhile, finish.
  destruct r as [[]|e]; [..|destruct (slave && _)]; cbn -[fail_queued]; destruct (mo_closes m), (mo_gone m); done.
Qed.

(** The sender empties the queue unless it ends, and it ends with an empty queue. *)
Lemma passes_empty slave ms : forall d,
  Forall (fun m => honest m = true) ms -> (d_ended d = true -> d_queue d = []) -> (length (d_queue d) <= length ms)%nat ->
  d_queue (history slave (map Pass ms) d) = [].
Proof.
  induction ms as [|m ms IH]; intros d Hm He Hl; [cbn in *; destruct (d_queue d); [done|cbn in Hl; lia]|].
  apply Forall_cons in Hm as [Hm Hms]. cbn in Hl. change (d_queue (history slave (map Pass ms) (sender_step slave m d)) = []).
  destruct (d_ended d) eqn:E.
  - unfold sender_step. rewrite E. apply IH; [done|auto|]. rewrite (He eq_refl). cbn. lia.
  - apply IH; [done|by apply sender_ends|].
    destruct (sender_popped slave m d Hm E) as [[Hq ->]|(it & q & Hp & _ & [Hq _ _ _ _ _ _] & _)]; [rewrite Hq; cbn; lia|].
    apply Permutation_length in Hp. cbn in Hp. destruct Hq as [-> | ->]; cbn; lia.
Qed.

(** A waiter that has left before its turn. *)
Definition abandoned (n : Z) (d : dispatcher) : Prop :=
  of_command n (ch_trace (d_channel d)) = [] /\ 1 <= n <= d_counter d /\ d_futures d !! n = Some Cancelled.

Lemma abandoned_step slave n o d :
  honest_op o = true -> abandoned n d -> abandoned n (operate slave o d).
Proof.
  intros Ho (Ht & Hn & Hf). destruct o as [accepts it|k|m|e]; cbn [operate].
  - unfold enqueue. destruct (_ && _); [done|]. unfold abandoned. cbn -[of_command]. rewrite lookup_insert_ne by lia. split_and!; [done|lia..|done].
  - destruct (cancel_effect 0 k d) as [_ Hc Hm Hk]. unfold abandoned. rewrite Hk, Hc. specialize (Hm n). by rewrite Hf in Hm.
  - destruct (d_ended d) eqn:He; [unfold sender_step; by rewrite He|].
    destruct (sender_popped slave m d Ho He) as [[_ ->]|(it & q & Hp & _ & [_ Hc Hm _ _ Hk _] & Hcan)]; [done|].
    unfold abandoned. rewrite Hc. specialize (Hm n). rewrite Hf in Hm. split_and!; [|lia..|done].
    destruct (decide (n = it_counter it)) as [-> |Hne]; [by rewrite Hcan|by rewrite Hk].
  - destruct (fail_effect 0 [] e d) as [_ Hc Hm Hk]. unfold abandoned. rewrite Hk, Hc. specialize (Hm n). by rewrite Hf in Hm.
Qed.

Lemma abandoned_history slave n os : forall d,
  Forall (fun o => honest_op o = true) os -> abandoned n d -> abandoned n (history slave os d).
Proof. induction os as [|o os IH]; intros d; [done|]. intros [Ho Hos]%Forall_cons Hd. apply IH; [done|by apply abandoned_step]. Qed.

(** C12: The command queue of a session.  Over every history of arrivals, waiters that
    leave, passes of the sender with whatever its awaits bring, and closes: every accepted
    command has a future, which is pending only while the command is queued; a command
    writes to the device at most once, and every time its budget was asked the answer was
    yes if it wrote; a command whose waiter left before its turn has no event at all, ever
    after; a pass serves the most urgent command, the first of its priority, and touches no
    other; closing the session settles every future; and so does the sender itself, in as
    many passes as commands are queued. *)
Theorem session_commands_settle slave os d :
  Forall (fun o => honest_op o = true) os -> d = history slave os new_dispatcher ->
  (forall n, 1 <= n <= d_counter d -> exists f, d_futures d !! n = Some f /\ (f = Pending -> n ∈ queued d))
  /\ (forall n, proper (of_command n (ch_trace (d_channel d))))
  /\ (forall n later, n ∈ queued d -> d_futures d !! n = Some Cancelled -> Forall (fun o => honest_op o = true) later ->
        of_command n (ch_trace (d_channel (history slave later d))) = [])
  /\ (forall m, honest m = true -> d_ended d = false -> d_queue d <> [] ->
        exists it, it ∈ d_queue d /\ Forall (fun x => key_leb (item_key it) (item_key x) = true) (d_queue d)
          /\ forall k, k <> it_counter it ->
               of_command k (ch_trace (d_channel (sender_step slave m d))) = of_command k (ch_trace (d_channel d)))
  /\ (forall e n, d_futures (operate slave (Close e) d) !! n <> Some Pending)
  /\ (forall ms n, d_ended d = false -> Forall (fun m => honest m = true) ms -> (length (d_queue d) <= length ms)%nat ->
        d_futures (history slave (map Pass ms) d) !! n <> Some Pending).
Proof.
  intros Hos ->. pose proof (history_ok slave os _ Hos new_ok) as Hd. split_and!.
  - intros n Hn. destruct (dk_futures _ Hd n Hn) as [f Hf]. exists f. split; [done|]. intros ->. by apply (dk_pending _ Hd).
  - apply (dk_proper _ Hd).
  - intros n later Hq Hc Hl. apply (abandoned_history slave n later _ Hl).
    destruct (dk_queued _ Hd n Hq) as [Hn He]. exact (conj He (conj Hn Hc)).
  - intros m Hm He Hq. destruct (sender_popped slave m _ Hm He) as [[? _]|(it & q & Hp & Hleast & Hpop & _)]; [done|].
    exists it. split_and!; [rewrite <- Hp; by left|done|apply Hpop].
  - intros e n. by apply close_settles.
  - intros ms n He Hms Hl Hp. assert (Hms' : Forall (fun o => honest_op o = true) (map Pass ms)).
    { apply Forall_fmap. eapply Forall_impl; [exact Hms|done]. }
    apply (dk_pending _ (history_ok slave _ _ Hms' Hd)) in Hp. unfold queued in Hp. rewrite passes_empty in Hp; [|done|congruence|done].
    by apply not_elem_of_nil in Hp.
Qed.

(** C14: A scheduled command.  Whatever the intervals bring, the loop asks the budget for
    strictly increasing numbers between 1 and `totalExecutions`; an interval writes only
    after a granted budget, as its last event; a number reported SENT was written, one
    reported FAILED put no bytes of the command on the wire, and an interval reported
    unsent did not even ask; the numbers settled are 1, 2, 3, ... without a gap or a
    repetition, all of them when the loop is exhausted; and after an UNKNOWN outcome the
    loop sends nothing more and ends the session. *)
Theorem scheduled_numbers_once command newline prompt total rounds ts e :
  Forall (fun ro => honest_round ro = true) rounds ->
  scheduled (numbered command newline prompt) total rounds 0 = (ts, e) ->
  Forall truthful ts
  /\ StronglySorted Z.lt (asked_numbers ts) /\ Forall (fun n => 1 <= n <= total) (asked_numbers ts)
  /\ (exists k, settled_numbers ts = seqZ 1 k /\ 0 <= k /\ (e = Exhausted -> k = Z.max 0 total))
  /\ (forall pre t post, ts = pre ++ t :: post -> In R_unknown (t_reports t) -> post = [] /\ exists x, e = Uncertain x).
Proof.
  intros Hr Hs. destruct (scheduled_spec _ _ _ _ _ _ _ _ Hr Hs) as [H1 H2 H3 H4 H5]. split_and!; [done|done| |done|done].
  eapply Forall_impl; [exact H3|]. cbn. lia.
Qed.

(** ** Witnesses *)

Definition open_view : view := View true false true false false.

(** Everything goes well: the budget answers [answer], the rest is quiet. *)
Definition quiet_moment (answer : bool) : moment :=
  Moment open_view None open_view true (Ok true) open_view None open_view (Ok answer) open_view None None None None None false true false.

Definition dialogue_fails : moment :=
  Moment open_view None open_view true (Raise Psh_switch) open_view None open_view (Ok true) open_view None None None None None false false false.

Definition write_fails : moment :=
  Moment open_view None open_view true (Ok true) open_view None open_view (Ok true) open_view None (Some Connection_error) None None None
    false true false.

Definition good_round (n : Z) : round := Round false None false false n (quiet_moment true) false None true.

(** Two commands of different priorities, one abandoned; the later but more urgent is
    written first. *)
Definition sample_item (priority : Z) (command : string) (budget : bool) : item :=
  Item priority 0 command "!" false budget false false false false.

Definition sample_history : list operation :=
  [Enqueue true (sample_item 3 "uptime" false); Enqueue true (sample_item 2 "status" true); Enqueue true (sample_item 3 "df" false);
   Leave 3; Pass (quiet_moment true)].

Lemma session_commands_settle_witness :
  ch_trace (d_channel (history false sample_history new_dispatcher)) = [Asked 2 (Ok true); Wrote 2 "status!"]
  /\ of_command 3 (ch_trace (d_channel (history false (map Pass [quiet_moment true; quiet_moment true]) (history false sample_history new_dispatcher)))) = []
  /\ d_futures (history false (map Pass [quiet_moment true; quiet_moment true]) (history false sample_history new_dispatcher)) !! 1 <> Some Pending.
Proof.
  split; [by vm_compute|].
  assert (H : Forall (fun o => honest_op o = true) sample_history) by (repeat constructor).
  destruct (session_commands_settle false sample_history _ H eq_refl) as (_ & _ & Hl & _ & _ & Hp). split.
  - apply Hl; [apply list_elem_of_In; vm_compute; auto|by vm_compute|by repeat constructor].
  - apply Hp; [done|by repeat constructor|vm_compute; lia].
Defined.

(** A blocked channel, a dialogue that fails after the budget was asked, a success, and a
    write whose outcome is unknown. *)
Definition sample_rounds : list round :=
  [Round false None false true 1 dialogue_fails false None true; good_round 2;
   Round false None false true 3 (quiet_moment true) false None true;
   Round false None false false 4 write_fails false None true; good_round 5].

Lemma scheduled_numbers_once_witness :
  map (fun t => (t_number t, t_reports t)) (fst (scheduled (numbered "status" "!" false) 5 sample_rounds 0))
  = [(1, [R_failed]); (2, [R_sent]); (3, [R_sent]); (4, [R_unknown])]
  /\ asked_numbers (fst (scheduled (numbered "status" "!" false) 5 sample_rounds 0)) = [2; 3; 4]
  /\ StronglySorted Z.lt (asked_numbers (fst (scheduled (numbered "status" "!" false) 5 sample_rounds 0))).
Proof.
  split; [by vm_compute|]. split; [by vm_compute|].
  destruct (scheduled (numbered "status" "!" false) 5 sample_rounds 0) as [ts e] eqn:E.
  apply (scheduled_numbers_once "status" "!" false 5 sample_rounds ts e); [by repeat constructor|exact E].
Defined.
