(* ===== verification/WritePressure.v ===== *)
(** * Write-latency admission ([node/write_pressure.py])

    A node stops admitting sessions when its write latency passes the
    configured limit, unless its own diagnostics prove that only a few sessions
    are slow.  [WritePressure] records a transition event per threshold
    crossing. *)

From S2P Require Import Prelude PyTime PyValue.

Definition DEFAULT_WRITE_LATENCY_LIMIT_MS : Z := 200.
Definition MAX_WRITE_LATENCY_LIMIT_MS : Z := 60000.

Section write_pressure.
Context `{FloatOfStr}.

(** [write_latency_limit]; `(config or {})` makes [None] and an empty mapping
    the same. *)
Definition write_latency_limit (config : option pydict) : Z :=
  match as_int (dict_get_or (default [] config) "writeLatencyLimitMs" (PInt DEFAULT_WRITE_LATENCY_LIMIT_MS)) with
  | Some value =>
      if (1 <=? value) && (value <=? MAX_WRITE_LATENCY_LIMIT_MS) then value
      else DEFAULT_WRITE_LATENCY_LIMIT_MS
  | None => DEFAULT_WRITE_LATENCY_LIMIT_MS
  end.

(** The heartbeat's own conclusion, when it was computed with limit [limit]. *)
Definition adopted_admission (node : pydict) (limit : Z) : option bool :=
  admission ← as_dict (dict_get node "writeAdmission");
  blocked ← as_bool (dict_get admission "blocked");
  limit_ms ← as_int (dict_get admission "limitMs");
  if limit_ms =? limit then Some blocked else None.

(** [write_latency_blocked]. *)
Definition write_latency_blocked (node : pydict) (config : option pydict) : bool :=
  let limit := write_latency_limit (Some (default node config)) in
  match adopted_admission node limit with
  | Some blocked => blocked
  | None =>
      match to_float (dict_get_or node "writeLatencyMs" (PInt 0)) with
      | None => false
      | Some latency =>
          if not_finite_or_negative latency then false
          else float_lt (float_of_Z limit) latency
      end
  end.

(** [_nonnegative_number], [_nonnegative_int], [_positive_int]. *)
Definition _nonnegative_number (value : pyval) : option Q :=
  q ← as_finite value; if Qle_bool 0 q then Some q else None.

Definition _nonnegative_int (value : pyval) : option Z :=
  z ← as_int value; if 0 <=? z then Some z else None.

Definition _positive_int (value : pyval) : option Z :=
  z ← _nonnegative_int value; if 0 <? z then Some z else None.

Inductive admission_reason : Type :=
  | LEGACY_WORST_LATENCY
  | WITHIN_LIMIT
  | INCOMPLETE_DIAGNOSTICS
  | BUFFER_BACKPRESSURE
  | EXECUTOR_SATURATED
  | SINGLE_SESSION
  | TOO_MANY_SLOW_SESSIONS
  | MULTI_SESSION_PRESSURE
  | ISOLATED_SLOW_SESSIONS.

Inductive admission_scope : Type := NODE | SESSION.

(** The dictionary [write_admission] returns; the counts (slow, normal, active)
    are present on the paths that read them. *)
Record admission := Admission {
  ad_blocked : bool;
  ad_reason : admission_reason;
  ad_scope : admission_scope;
  ad_limit : Z;
  ad_counts : option (Z * Z * Z) }.

(** The numbers of a complete diagnostic. *)
Record diagnostics := Diagnostics {
  dg_slow : Z; dg_total : Z; dg_normal : Z;
  dg_concurrency : Z; dg_active : Z; dg_waiting : Z;
  dg_reserved : Q; dg_limit_bytes : Z }.

Definition parse_diagnostics (sessions executor buffer : pydict) : option diagnostics :=
  slow ← _nonnegative_int (dict_get sessions "slowSessions");
  total ← _nonnegative_int (dict_get sessions "activeSessions");
  normal ← _nonnegative_int (dict_get sessions "normalSessions");
  concurrency ← _positive_int (dict_get executor "concurrency");
  active ← _nonnegative_int (dict_get executor "active");
  waiting ← _nonnegative_int (dict_get executor "waiting");
  reserved ← _nonnegative_number (dict_get buffer "reservedBytes");
  limit_bytes ← _positive_int (dict_get buffer "limitBytes");
  Some (Diagnostics slow total normal concurrency active waiting reserved limit_bytes).

(** The `if`/`elif` chain on complete diagnostics: [None] is the last `else`. *)
Definition pressure_verdict (d : diagnostics) : option admission_reason :=
  if Qle_bool (inject_Z (dg_limit_bytes d) * (9 # 10)) (dg_reserved d) then Some BUFFER_BACKPRESSURE
  else if (dg_concurrency d <=? dg_active d) || (0 <? dg_waiting d) then Some EXECUTOR_SATURATED
  else if dg_total d <=? 1 then Some SINGLE_SESSION
  else if Z.max 1 (dg_concurrency d / 4) <? dg_slow d then Some TOO_MANY_SLOW_SESSIONS
  else if (dg_total d <=? dg_slow d * 2) || (dg_normal d <? 1) then Some MULTI_SESSION_PRESSURE
  else None.

(** [write_admission]; an unconvertible latency raises. *)
Definition write_admission (metrics diagnostic : pydict) (config : option pydict)
  : result conversion_error admission :=
  let limit := write_latency_limit config in
  match to_float (dict_get_or metrics "writeLatencyMs" (PInt 0)) with
  | None => Raise ConversionError
  | Some latency =>
      let slow_latency := float_lt (float_of_Z limit) latency in
      Ok match as_dict (dict_get diagnostic "sessions"),
               as_dict (dict_get diagnostic "writeExecutor"),
               as_dict (dict_get diagnostic "buffer") with
         | Some sessions, Some executor, Some buffer =>
             let within := match latency with
                           | Fin q => Qle_bool q (inject_Z limit)
                           | Inf negative => negative
                           | NaN => false
                           end in
             if within then Admission false WITHIN_LIMIT NODE limit None
             else match parse_diagnostics sessions executor buffer with
                  | None => Admission true INCOMPLETE_DIAGNOSTICS NODE limit None
                  | Some d =>
                      let counts := Some (dg_slow d, dg_normal d, dg_total d) in
                      match pressure_verdict d with
                      | Some reason => Admission true reason NODE limit counts
                      | None => Admission false ISOLATED_SLOW_SESSIONS SESSION limit counts
                      end
                  end
         | _, _, _ => Admission slow_latency LEGACY_WORST_LATENCY NODE limit None
         end
  end.

(** ** [WritePressure] *)

Inductive level : Type := NORMAL | NO_ADMISSION.

#[global] Instance level_eq_dec : EqDecision level.
Proof. solve_decision. Defined.

(** A `WRITE_PRESSURE_CHANGED` event. *)
Record pressure_event := PressureEvent {
  pe_node : string;
  pe_level : level;
  pe_previous : level;
  pe_latency : pyfloat;
  pe_limit : Z;
  pe_reason : admission_reason;
  pe_created : Z }.

(** The state of one node: the controller's level and the event collection. *)
Record pressure_state := PressureState { ps_level : level; ps_events : list pressure_event }.

Definition initial_pressure : pressure_state := PressureState NORMAL [].

(** One call of [report]: `metrics["writeLatencyMs"]` as a float, the
    configuration, the admission if the caller passes one, and the time. *)
Record observation := Observation {
  ob_latency : pyfloat; ob_config : option pydict; ob_admission : option admission; ob_now : Z }.

Definition level_of (o : observation) : level :=
  let limit := write_latency_limit (ob_config o) in
  let blocked := match ob_admission o with
                 | Some a => ad_blocked a
                 | None => float_lt (float_of_Z limit) (ob_latency o)
                 end in
  if blocked then NO_ADMISSION else NORMAL.

(** [WritePressure.report]: the event is inserted before the level changes. *)
Definition report (node_id : string) (o : observation) (s : pressure_state) : pressure_state :=
  let l := level_of o in
  if decide (l = ps_level s) then s
  else PressureState l
    (ps_events s ++
     [PressureEvent node_id l (ps_level s) (ob_latency o) (write_latency_limit (ob_config o))
        match ob_admission o with Some a => ad_reason a | None => LEGACY_WORST_LATENCY end
        (ob_now o)]).

Definition run_reports (node_id : string) (obs : list observation) : pressure_state :=
  foldl (fun s o => report node_id o s) initial_pressure obs.

(** The number of times the observed level differs from the one before it,
    starting from [NORMAL]. *)
Fixpoint crossings (l : level) (obs : list observation) : nat :=
  match obs with
  | [] => O
  | o :: obs => (if decide (level_of o = l) then 0 else 1) + crossings (level_of o) obs
  end.

(** The events form a chain from [l] to [l']. *)
Fixpoint chained (l : level) (events : list pressure_event) (l' : level) : Prop :=
  match events with
  | [] => l = l'
  | e :: events => pe_previous e = l /\ pe_level e <> l /\ chained (pe_level e) events l'
  end.

(** ** Lemmas *)

Lemma write_latency_limit_range config :
  1 <= write_latency_limit config <= MAX_WRITE_LATENCY_LIMIT_MS.
Proof.
  unfold write_latency_limit, MAX_WRITE_LATENCY_LIMIT_MS, DEFAULT_WRITE_LATENCY_LIMIT_MS.
  destruct (as_int _) as [v|]; [|lia]. destruct ((1 <=? v) && (v <=? 60000)) eqn:E; blia.
Qed.

Lemma chained_snoc l events l' e :
  chained l events l' -> pe_previous e = l' -> pe_level e <> l' -> chained l (events ++ [e]) (pe_level e).
Proof.
  revert l. induction events as [|e' events IH]; intros l; cbn.
  - intros -> Hp Hl. by rewrite Hp.
  - intros (Hp & Hl & Hc) He Hne. split_and!; [done|done|]. by apply IH.
Qed.

Lemma report_chained node_id o s :
  chained NORMAL (ps_events s) (ps_level s) ->
  chained NORMAL (ps_events (report node_id o s)) (ps_level (report node_id o s)).
Proof.
  intros Hc. unfold report. case_decide as Hl; [done|]. cbn.
  by eapply (chained_snoc _ _ _ (PressureEvent _ _ _ _ _ _ _)).
Qed.

Lemma report_level node_id o s : ps_level (report node_id o s) = level_of o.
Proof. unfold report. by case_decide. Qed.

(** ** Theorems *)

(** Above the limit a session is still admitted only on complete evidence
    of isolated slow sessions: the buffer is under nine tenths of its limit,
    the executor has a free worker and no waiter, several sessions are active,
    the slow ones are a strict minority and at most a quarter of the workers
    (or one), and some session is normal. *)
Theorem write_admission_evidence (metrics diagnostic : pydict) (config : option pydict)
    (latency : pyfloat) (a : admission)
    (Hlat : to_float (dict_get_or metrics "writeLatencyMs" (PInt 0)) = Some latency)
    (Hslow : float_lt (float_of_Z (write_latency_limit config)) latency = true)
    (Hok : write_admission metrics diagnostic config = Ok a)
    (Hopen : ad_blocked a = false) :
  ad_reason a = ISOLATED_SLOW_SESSIONS /\ ad_scope a = SESSION
  /\ exists sessions executor buffer d,
       dict_get diagnostic "sessions" = PDict sessions
       /\ dict_get diagnostic "writeExecutor" = PDict executor
       /\ dict_get diagnostic "buffer" = PDict buffer
       /\ parse_diagnostics sessions executor buffer = Some d
       /\ (dg_reserved d < inject_Z (dg_limit_bytes d) * (9 # 10))%Q
       /\ dg_active d < dg_concurrency d /\ dg_waiting d <= 0
       /\ 1 < dg_total d /\ dg_slow d <= Z.max 1 (dg_concurrency d / 4)
       /\ dg_slow d * 2 < dg_total d /\ 1 <= dg_normal d.
Proof.
  unfold write_admission in Hok. rewrite Hlat in Hok. injection Hok as <-.
  rewrite ?Hslow in *.
  destruct (dict_get diagnostic "sessions") as [| | | | | | |ss] eqn:Es; try done.
  destruct (dict_get diagnostic "writeExecutor") as [| | | | | | |ex] eqn:Ee; try done.
  destruct (dict_get diagnostic "buffer") as [| | | | | | |bu] eqn:Eb; try done.
  cbn [as_dict] in *.
  replace (match latency with
           | Fin q => Qle_bool q (inject_Z (write_latency_limit config))
           | Inf negative => negative | NaN => false end) with false in *.
  2: { destruct latency as [q|[]|]; [|done..]. symmetry. apply Qle_bool_false. by apply Qltb_lt. }
  destruct (parse_diagnostics ss ex bu) as [d|] eqn:Ed; [|done]. cbn in Hopen |- *.
  destruct (pressure_verdict d) eqn:Ev; [done|]. split_and!; [done|done|].
  exists ss, ex, bu, d. unfold pressure_verdict in Ev.
  repeat case_match; try done. qreflect. split_and!; try done; lia.
Qed.

(** The event log of a node is a chain: it starts from [NORMAL], every event
    leaves the level its predecessor entered, no event repeats a level, the
    last one entered the level of the latest observation, and the number of
    events is the number of threshold crossings. *)
Theorem pressure_events_chain (node_id : string) (obs : list observation) :
  let s := run_reports node_id obs in
  chained NORMAL (ps_events s) (ps_level s)
  /\ ps_level s = default NORMAL (level_of <$> last obs)
  /\ length (ps_events s) = crossings NORMAL obs.
Proof.
  cbn zeta. unfold run_reports.
  assert (Hgen : forall s, chained NORMAL (ps_events s) (ps_level s) ->
    let s' := foldl (fun s o => report node_id o s) s obs in
    chained NORMAL (ps_events s') (ps_level s')
    /\ ps_level s' = default (ps_level s) (level_of <$> last obs)
    /\ length (ps_events s') = (length (ps_events s) + crossings (ps_level s) obs)%nat).
  { induction obs as [|o obs IH]; intros s Hs; cbn -[last].
    - split_and!; [done|done|lia].
    - destruct (IH (report node_id o s)) as (Hc & Hl & Hn); [by apply report_chained|].
      split_and!; [done| |].
      + rewrite Hl, report_level. destruct obs as [|o' obs]; [done|].
        change (last (o :: o' :: obs)) with (last (o' :: obs)).
        by destruct (last (o' :: obs)) eqn:E; [|apply last_None in E].
      + rewrite Hn, report_level. unfold report. destruct (decide _); cbn; [lia|].
        rewrite length_app. cbn. lia. }
  by apply (Hgen initial_pressure).
Qed.

End write_pressure.

(** ** Witness: one slow session of four, with a free worker and buffer *)

#[local] Instance no_float : FloatOfStr := fun _ => None.

Definition slow_metrics : pydict := [("writeLatencyMs", PInt 350)].

Definition slow_diagnostic : pydict :=
  [("sessions", PDict [("slowSessions", PInt 1); ("activeSessions", PInt 4); ("normalSessions", PInt 3)]);
   ("writeExecutor", PDict [("concurrency", PInt 8); ("active", PInt 2); ("waiting", PInt 0)]);
   ("buffer", PDict [("reservedBytes", PInt 10); ("limitBytes", PInt 100)])].

Lemma write_admission_evidence_witness :
  exists a, write_admission slow_metrics slow_diagnostic None = Ok a /\ ad_blocked a = false
  /\ ad_reason a = ISOLATED_SLOW_SESSIONS.
Proof.
  eexists. split; [vm_compute; reflexivity|]. split; [reflexivity|].
  apply (write_admission_evidence slow_metrics slow_diagnostic None (float_of_Z 350)).
  - reflexivity.
  - vm_compute. reflexivity.
  - vm_compute. reflexivity.
  - reflexivity.
Defined.
