(* ===== verification/Performance.v ===== *)
(** * Per-node performance budget ([node/performance.py])

    [PerformanceController.evaluate] lowers the AUTO budget slowly under
    sustained pressure and raises it again after a stable window; MANUAL only
    meets the hard resource limits. *)

From S2P Require Import Prelude PyTime PyValue.

Definition MIB : Z := 1024 * 1024.
Definition PRESSURE_SAMPLES : Z := 3.
Definition COOLDOWN_SECONDS : Q := 30.
Definition RECOVERY_SECONDS : Q := 60.

(** ** Data *)

Inductive policy_mode : Type := AUTO | MANUAL.

#[global] Instance policy_mode_eq_dec : EqDecision policy_mode.
Proof. solve_decision. Defined.

(** The five integers of a policy, a baseline or an effective budget. *)
Record budget := Budget {
  bufferMiB : Z;
  writeConcurrency : Z;
  batchKiB : Z;
  flushIntervalMs : Z;
  readMiBPerSecond : Z }.

#[global] Instance budget_eq_dec : EqDecision budget.
Proof. solve_decision. Defined.

(** [PerformancePolicy]: the mode and the validated fields. *)
Record policy := PerformancePolicy { mode : policy_mode; limits_of_policy : budget }.

(** The ranges the model's fields declare. *)
Definition policy_valid (p : policy) : bool :=
  let b := limits_of_policy p in
  (16 <=? bufferMiB b) && (bufferMiB b <=? 4096)
  && (1 <=? writeConcurrency b) && (writeConcurrency b <=? 32)
  && (16 <=? batchKiB b) && (batchKiB b <=? 1024)
  && (10 <=? flushIntervalMs b) && (flushIntervalMs b <=? 200)
  && (1 <=? readMiBPerSecond b) && (readMiBPerSecond b <=? 200).

Definition default_policy : policy := PerformancePolicy AUTO (Budget 64 4 256 100 50).

(** [ResourceLimits]. *)
Record resource_limits := ResourceLimits {
  effectiveCpu : Q;
  memoryLimitBytes : Z;
  memoryAvailableBytes : Z;
  source : string }.

Inductive controller_state : Type := S_NORMAL | S_MANUAL | S_THROTTLED | S_RECOVERING.

#[global] Instance controller_state_eq_dec : EqDecision controller_state.
Proof. solve_decision. Defined.

(** [PerformanceController]: ticks are seconds, moments microseconds. *)
Record controller := Controller {
  effective : option budget;
  state : controller_state;
  reason : string;
  changed_at : option Z;
  pressure_samples : Z;
  stable_since : option Q;
  last_adjusted : option Q;
  cmode : option policy_mode;
  baseline : option budget;
  pressure_active : bool }.

Definition new_controller : controller :=
  Controller None S_NORMAL "初始预算" None 0 None None None None false.

(** `int(q)` truncates toward zero. *)
Definition Qtrunc (q : Q) : Z := if Qle_bool 0 q then Qround.Qfloor q else Qround.Qceiling q.

Section performance.
Context `{FloatOfStr}.

(** ** Input checks *)

(** [_number]. *)
Definition _number (value : pyval) : option Q :=
  match value with
  | PBool _ => None
  | _ => f ← to_float value; finite_nonneg f
  end.

(** [_at_least], [_greater]. *)
Definition _at_least (value : pyval) (threshold : Q) : bool :=
  match _number value with Some q => Qle_bool threshold q | None => false end.

Definition _greater (value limit : pyval) : bool :=
  match _number value, _number limit with
  | Some l, Some r => Qltb r l
  | _, _ => false
  end.

(** [_positive_float], [_positive_int]. *)
Definition _positive_float (value : pyval) (fallback : Q) : Q :=
  match _number value with Some q => if Qltb 0 q then q else fallback | None => fallback end.

Definition positive_int (value : pyval) : Z :=
  match _number value with Some q => Qtrunc q | None => 0 end.

(** [_limits] on a mapping; `str(value or "UNKNOWN")` of a string source. *)
Definition _limits (value : pydict) : resource_limits :=
  ResourceLimits
    (_positive_float (dict_get value "effectiveCpu") 1)
    (positive_int (dict_get value "memoryLimitBytes"))
    (positive_int (dict_get value "memoryAvailableBytes"))
    match dict_get value "source" with PStr s => if decide (s = "") then "UNKNOWN" else s | _ => "UNKNOWN" end.

(** [_pressure_reason]. *)
Definition join (sep : string) (l : list string) : string := String.concat sep l.

Definition _pressure_reason (telemetry write_latency : option pydict) : option string :=
  let values := default [] telemetry in
  let wl := default [] write_latency in
  let reasons :=
    (if _at_least (dict_get values "cpuPercent") 90 then ["CPU"] else [])
    ++ (if _at_least (dict_get values "memoryPercent") 90 then ["内存"] else [])
    ++ (if _greater (dict_get wl "writeLatencyMs") (dict_get wl "limitMs") then ["写入延迟"] else []) in
  match reasons with
  | [] => None
  | _ => Some ("持续" +:+ join "、" reasons +:+ "压力")
  end.

(** [_compute_pressure], [_telemetry_known]. *)
Definition _compute_pressure (telemetry : option pydict) : bool :=
  let values := default [] telemetry in
  _at_least (dict_get values "cpuPercent") 90 || _at_least (dict_get values "memoryPercent") 90.

Definition _telemetry_known (telemetry : option pydict) : bool :=
  let values := default [] telemetry in
  match _number (dict_get values "cpuPercent"), _number (dict_get values "memoryPercent") with
  | Some _, Some _ => true
  | _, _ => false
  end.

(** ** Budgets *)

(** [_safe_budget]: the baseline, the safety reason, whether admission stops. *)
Definition _safe_budget (p : policy) (limits : resource_limits) : budget * option string * bool :=
  let b := limits_of_policy p in
  let cpu_cap := Z.max 1 (Qtrunc (effectiveCpu limits * 2)) in
  let with_buffer buffer :=
    Budget buffer (Z.min (writeConcurrency b) cpu_cap) (batchKiB b) (flushIntervalMs b)
      (readMiBPerSecond b) in
  let available := memoryAvailableBytes limits in
  if available <=? 0 then (with_buffer 2, Some "内存未知，拒绝新准入", true)
  else
    let memory_cap := Z.max 2 (available / MIB / 4) in
    let constrained := memory_cap <? bufferMiB b in
    (with_buffer (Z.min (bufferMiB b) memory_cap),
     if constrained then Some "内存安全上限" else None,
     available <? 2 * MIB).

(** [_bounded]: buffer, batch and flush follow the ceiling. *)
Definition _bounded (current ceiling : budget) : budget :=
  Budget (bufferMiB ceiling)
    (Z.min (writeConcurrency current) (writeConcurrency ceiling))
    (batchKiB ceiling) (flushIntervalMs ceiling)
    (Z.min (readMiBPerSecond current) (readMiBPerSecond ceiling)).

(** [_recover_step]: `math.ceil(remaining / 2)` on integers. *)
Definition _recover_step (current ceiling : Z) : Z :=
  let remaining := Z.max 0 (ceiling - current) in
  if remaining =? 0 then current
  else Z.min ceiling (current + Z.max 1 ((remaining + 1) / 2)).

(** The lowered budget of a throttle and the raised one of a recovery. *)
Definition lower (compute : bool) (b : budget) : budget :=
  Budget (bufferMiB b)
    (if compute then Z.max 1 (writeConcurrency b - 1) else writeConcurrency b)
    (batchKiB b) (flushIntervalMs b)
    (Z.max 1 (readMiBPerSecond b / 2)).

Definition raise_toward (b base : budget) : budget :=
  Budget (bufferMiB b) (_recover_step (writeConcurrency b) (writeConcurrency base))
    (batchKiB b) (flushIntervalMs b)
    (_recover_step (readMiBPerSecond b) (readMiBPerSecond base)).

(** ** [evaluate] *)

(** [_adjustable]. *)
Definition _adjustable (c : controller) (tick : Q) : bool :=
  match last_adjusted c with
  | None => true
  | Some t => Qle_bool COOLDOWN_SECONDS (tick - t)
  end.

(** What [_result] reports of a controller. *)
Record report := Report {
  rp_effective : option budget;
  rp_state : controller_state;
  rp_reason : string;
  rp_changed_at : option Z;
  rp_resources : resource_limits;
  rp_admission_blocked : bool;
  rp_baseline : option budget;
  rp_budget_reduced : bool;
  rp_pressure_active : bool;
  rp_pressure_samples : Z;
  rp_recovery_stable_seconds : Z }.

Definition _result (c : controller) (limits : resource_limits) (blocked : bool) (tick : Q) : report :=
  Report (effective c) (state c) (reason c) (changed_at c) limits blocked (baseline c)
    match baseline c with Some b => negb (bool_decide (effective c = Some b)) | None => false end
    (pressure_active c) (pressure_samples c)
    match stable_since c with
    | Some s => if pressure_active c then 0 else Z.max 0 (Qtrunc (tick - s))
    | None => 0
    end.

(** One call's inputs; `clock()` gives the moment and the tick. *)
Record sample := Sample {
  s_policy : policy;
  s_telemetry : option pydict;
  s_latency : option pydict;
  s_limits : resource_limits;
  s_moment : Z;
  s_tick : Q }.

Definition set_changed (c : controller) (st : controller_state) (r : string) (moment : Z) : controller :=
  Controller (effective c) st r (Some moment) (pressure_samples c) (stable_since c)
    (last_adjusted c) (cmode c) (baseline c) (pressure_active c).

Definition set_effective (c : controller) (e : budget) : controller :=
  Controller (Some e) (state c) (reason c) (changed_at c) (pressure_samples c) (stable_since c)
    (last_adjusted c) (cmode c) (baseline c) (pressure_active c).

Definition set_window (c : controller) (samples : Z) (stable : option Q) : controller :=
  Controller (effective c) (state c) (reason c) (changed_at c) samples stable
    (last_adjusted c) (cmode c) (baseline c) (pressure_active c).

(** The first call and a change of mode start over from the baseline. *)
Definition restart (c : controller) (p : policy) (base : budget) (safety : option string) (moment : Z)
  : controller :=
  if bool_decide (effective c = None) || negb (bool_decide (cmode c = Some (mode p)))
  then Controller (Some base)
         match mode p with MANUAL => S_MANUAL | AUTO => S_NORMAL end
         (default match mode p with MANUAL => "手动预算" | AUTO => "初始预算" end safety)
         (Some moment) 0 None None (Some (mode p)) (Some base) (pressure_active c)
  else c.

(** AUTO, before pressure is looked at: follow the baseline, leave a throttle
    that no longer restricts anything, publish a safety reason. *)
Definition follow_baseline (c : controller) (changed_baseline : bool) (base : budget)
    (safety : option string) (moment : Z) : controller :=
  let current := default base (effective c) in
  let c :=
    if changed_baseline
    then Controller
           (Some (if decide (state c = S_NORMAL) then base else _bounded current base))
           (state c) (default "策略或资源预算已更新" safety) (Some moment)
           (pressure_samples c) (stable_since c) (last_adjusted c) (cmode c) (Some base)
           (pressure_active c)
    else set_effective c (_bounded current base) in
  if bool_decide (effective c = Some base) && bool_decide (state c = S_THROTTLED)
  then set_changed c S_NORMAL (default "当前预算已满足" safety) moment
  else match safety with
       | Some r => if bool_decide (state c = S_NORMAL) && negb (bool_decide (reason c = r))
                   then set_changed c (state c) r moment else c
       | None => c
       end.

(** A sample under pressure. *)
Definition under_pressure (c : controller) (why : string) (compute : bool) (moment : Z) (tick : Q)
  : controller :=
  let c := set_window c (pressure_samples c + 1) None in
  if PRESSURE_SAMPLES <=? pressure_samples c then
    let c := if negb (bool_decide (state c = S_THROTTLED)) || negb (bool_decide (reason c = why))
             then set_changed c S_THROTTLED why moment else c in
    if negb (_adjustable c tick) then c
    else
      match effective c with
      | None => c
      | Some e =>
          let lowered := lower compute e in
          let c := if decide (lowered = e) then c
                   else Controller (Some lowered) (state c) (reason c) (Some moment)
                          (pressure_samples c) (stable_since c) (Some tick) (cmode c) (baseline c)
                          (pressure_active c) in
          set_window c (pressure_samples c) (Some tick)
      end
  else c.

(** `self.stable_since or tick`: a zero reading counts as unset. *)
Definition stable_or (s : option Q) (tick : Q) : Q :=
  match s with Some t => if Qeq_bool t 0 then tick else t | None => tick end.

(** A sample without pressure. *)
Definition without_pressure (c : controller) (known : bool) (base : budget) (moment : Z) (tick : Q)
  : controller :=
  let c := set_window c 0 (stable_since c) in
  if negb known then set_window c 0 None
  else
    let since := stable_or (stable_since c) tick in
    let c := set_window c 0 (Some since) in
    if (bool_decide (state c = S_THROTTLED) || bool_decide (state c = S_RECOVERING))
       && _adjustable c tick && Qle_bool RECOVERY_SECONDS (tick - since)
    then
      match effective c with
      | None => c
      | Some e =>
          let raised := raise_toward e base in
          if decide (raised = e)
          then if bool_decide (e = base) && bool_decide (state c = S_THROTTLED)
               then set_changed c S_NORMAL "已恢复至当前预算" moment
               else c
          else
            let st := if decide (raised = base) then S_NORMAL else S_RECOVERING in
            let why := if decide (raised = base) then "已恢复至当前预算" else "持续稳定后小步恢复" in
            Controller (Some raised) st why (Some moment) (pressure_samples c) (Some tick)
              (Some tick) (cmode c) (baseline c) (pressure_active c)
      end
    else c.

Definition evaluate (c : controller) (s : sample) : controller * report :=
  let '(base, safety, blocked) := _safe_budget (s_policy s) (s_limits s) in
  let pressure := _pressure_reason (s_telemetry s) (s_latency s) in
  let c := Controller (effective c) (state c) (reason c) (changed_at c) (pressure_samples c)
             (stable_since c) (last_adjusted c) (cmode c) (baseline c)
             (match pressure with Some _ => true | None => false end) in
  let changed_baseline := negb (bool_decide (baseline c = Some base)) in
  let c := restart c (s_policy s) base safety (s_moment s) in
  let c :=
    match mode (s_policy s) with
    | MANUAL =>
        Controller (Some base) S_MANUAL (default "手动预算" safety)
          (if changed_baseline then Some (s_moment s) else changed_at c)
          (pressure_samples c) (stable_since c) (last_adjusted c) (cmode c) (Some base)
          (pressure_active c)
    | AUTO =>
        let c := follow_baseline c changed_baseline base safety (s_moment s) in
        match pressure with
        | Some why =>
            under_pressure c why (_compute_pressure (s_telemetry s)) (s_moment s) (s_tick s)
        | None => without_pressure c (_telemetry_known (s_telemetry s)) base (s_moment s) (s_tick s)
        end
    end in
  (c, _result c (s_limits s) blocked (s_tick s)).

(** A node's life: a fresh controller and its samples in order. *)
Definition run (samples : list sample) : controller :=
  foldl (fun c s => (evaluate c s).1) new_controller samples.

(** ** Lemmas *)

(** [b] is a positive budget under ceiling [t]. *)
Record within (b t : budget) : Prop := {
  in_buffer : bufferMiB b = bufferMiB t;
  in_write : 1 <= writeConcurrency b <= writeConcurrency t;
  in_batch : batchKiB b = batchKiB t;
  in_flush : flushIntervalMs b = flushIntervalMs t;
  in_read : 1 <= readMiBPerSecond b <= readMiBPerSecond t }.

Definition positive_budget (b : budget) : Prop := 1 <= writeConcurrency b /\ 1 <= readMiBPerSecond b.

Lemma safe_budget_positive p l base safety blocked :
  policy_valid p = true -> _safe_budget p l = (base, safety, blocked) -> positive_budget base.
Proof.
  unfold policy_valid, _safe_budget, positive_budget. intros Hp Hs. breflect.
  destruct (memoryAvailableBytes l <=? 0); simplify_eq; cbn; lia.
Qed.

Lemma within_refl b : positive_budget b -> within b b.
Proof. intros [? ?]. split; lia. Qed.

Lemma bounded_within c t : positive_budget c -> positive_budget t -> within (_bounded c t) t.
Proof. intros [? ?] [? ?]. split; cbn; lia. Qed.

Lemma within_positive b t : within b t -> positive_budget b.
Proof. intros []. split; lia. Qed.

Lemma lower_within compute b t : within b t -> within (lower compute b) t.
Proof.
  intros []. pose proof (Z.div_le_upper_bound (readMiBPerSecond b) 2 (readMiBPerSecond b)).
  split; cbn; try done; destruct compute; lia.
Qed.

Lemma recover_step_bounds current ceiling :
  current <= ceiling -> current <= _recover_step current ceiling <= ceiling.
Proof.
  intros Hle. unfold _recover_step. destruct (Z.max 0 (ceiling - current) =? 0) eqn:E; lia.
Qed.

(** A step leaves at most half of the gap. *)
Lemma recover_step_halves current ceiling :
  current <= ceiling -> 2 * (ceiling - _recover_step current ceiling) <= ceiling - current.
Proof.
  intros Hle. unfold _recover_step. destruct (Z.max 0 (ceiling - current) =? 0) eqn:E; [lia|].
  breflect. Z.to_euclidean_division_equations. lia.
Qed.

Lemma raise_within b t : within b t -> within (raise_toward b t) t.
Proof.
  intros []. pose proof (recover_step_bounds (writeConcurrency b) (writeConcurrency t)).
  pose proof (recover_step_bounds (readMiBPerSecond b) (readMiBPerSecond t)).
  split; cbn; try done; lia.
Qed.

(** The part of the invariant every stage keeps. *)
Definition holds (c : controller) (base : budget) : Prop :=
  exists e, effective c = Some e /\ within e base /\ baseline c = Some base.

Lemma under_pressure_holds c base why compute moment tick :
  holds c base -> holds (under_pressure c why compute moment tick) base.
Proof.
  intros (e & He & Hw & Hb). unfold under_pressure, holds.
  repeat (case_match || case_decide); cbn in *; simplify_eq; eauto using lower_within.
Qed.

Lemma without_pressure_holds c base known moment tick :
  holds c base -> holds (without_pressure c known base moment tick) base.
Proof.
  intros (e & He & Hw & Hb). unfold without_pressure, holds.
  repeat (case_match || case_decide); cbn in *; simplify_eq; eauto using raise_within.
Qed.

Lemma follow_baseline_holds c changed base safety moment :
  positive_budget base -> (forall e, effective c = Some e -> positive_budget e) ->
  (changed = false -> baseline c = Some base) ->
  holds (follow_baseline c changed base safety moment) base.
Proof.
  intros Hbase He Hb.
  assert (Hcur : positive_budget (default base (effective c))).
  { destruct (effective c); cbn; auto. }
  assert (Hset : forall c' st r, holds c' base -> holds (set_changed c' st r moment) base) by done.
  unfold follow_baseline. cbn zeta.
  match goal with |- context [if changed then ?a else ?b] =>
    assert (H1 : holds (if changed then a else b) base); [|generalize dependent (if changed then a else b)]
  end.
  - destruct changed; [destruct (decide _)|]; eexists; cbn;
      eauto using bounded_within, within_refl.
  - intros c' H1. repeat case_match; auto.
Qed.

Lemma evaluate_holds c s base safety blocked :
  policy_valid (s_policy s) = true ->
  _safe_budget (s_policy s) (s_limits s) = (base, safety, blocked) ->
  (forall e, effective c = Some e -> positive_budget e) ->
  holds (evaluate c s).1 base.
Proof.
  intros Hp Hs He. assert (Hbase := safe_budget_positive _ _ _ _ _ Hp Hs).
  unfold evaluate. rewrite Hs. cbn [fst].
  destruct (mode (s_policy s)) eqn:Em; [|exists base; cbn; eauto using within_refl].
  match goal with |- holds (match _ with _ => _ end) _ => idtac end.
  assert (Hf : holds (follow_baseline
    (restart (Controller (effective c) (state c) (reason c) (changed_at c) (pressure_samples c)
       (stable_since c) (last_adjusted c) (cmode c) (baseline c)
       (match _pressure_reason (s_telemetry s) (s_latency s) with Some _ => true | None => false end))
       (s_policy s) base safety (s_moment s))
    (negb (bool_decide (baseline c = Some base))) base safety (s_moment s)) base).
  { apply follow_baseline_holds; [done|..]; unfold restart; cbn;
      destruct (bool_decide (effective c = None) || _); cbn.
    - by intros e [= <-].
    - done.
    - done.
    - intros Hn. by apply negb_false_iff, bool_decide_eq_true in Hn. }
  cbn [baseline] in *. destruct (_pressure_reason _ _);
    [by apply under_pressure_holds|by apply without_pressure_holds].
Qed.

Lemma run_positive samples e :
  Forall (fun s => policy_valid (s_policy s) = true) samples ->
  effective (run samples) = Some e -> positive_budget e.
Proof.
  intros Hall. revert e. unfold run. induction samples as [|s samples IH] using rev_ind; [done|].
  rewrite foldl_app. cbn. intros e. apply Forall_app in Hall as [Hall Hs]. inversion_clear Hs as [|? ? Hp _].
  destruct (_safe_budget (s_policy s) (s_limits s)) as [[base safety] blocked] eqn:Es.
  destruct (evaluate_holds (foldl (λ c s, (evaluate c s).1) new_controller samples) s base safety blocked)
    as (e' & He & Hw & _); [done|done|by apply IH|].
  rewrite He. intros [= <-]. by eapply within_positive.
Qed.

(** ** Theorems *)

(** Whatever samples a node has seen, after one more sample with a valid
    policy the effective budget is the current baseline except for a write
    concurrency and a read rate between 1 and the baseline's: automatic
    adjustment never exceeds the policy or the CPU and memory caps, and never
    stops reading or writing. *)
Theorem evaluate_within_baseline (samples : list sample) (s : sample)
    (Hall : Forall (fun s => policy_valid (s_policy s) = true) (samples ++ [s])) :
  let '(base, _, _) := _safe_budget (s_policy s) (s_limits s) in
  exists e, rp_effective (evaluate (run samples) s).2 = Some e
    /\ within e base
    /\ rp_baseline (evaluate (run samples) s).2 = Some base
    /\ writeConcurrency base <= Z.max 1 (Qtrunc (effectiveCpu (s_limits s) * 2))
    /\ writeConcurrency base <= writeConcurrency (limits_of_policy (s_policy s))
    /\ readMiBPerSecond base <= readMiBPerSecond (limits_of_policy (s_policy s))
    /\ bufferMiB base <= Z.max 2 (memoryAvailableBytes (s_limits s) / MIB / 4).
Proof.
  apply Forall_app in Hall as [Hall Hs]. inversion_clear Hs as [|? ? Hp _].
  destruct (_safe_budget (s_policy s) (s_limits s)) as [[base safety] blocked] eqn:Es.
  destruct (evaluate_holds (run samples) s base safety blocked) as (e & He & Hw & Hb);
    [done|done|by intros e; apply run_positive|].
  exists e. unfold evaluate in *. rewrite Es in *. cbn in He, Hb |- *. split_and!; try done;
    unfold _safe_budget in Es; destruct (_ <=? 0); simplify_eq; cbn; lia.
Qed.

Lemma bounded_id e base : within e base -> _bounded e base = e.
Proof. intros []. destruct e. unfold _bounded. cbn in *. f_equal; lia. Qed.

Lemma stable_or_ready s tick :
  Qle_bool RECOVERY_SECONDS (tick - stable_or s tick) = true ->
  exists t, s = Some t /\ (RECOVERY_SECONDS <= tick - t)%Q.
Proof.
  intros H1. apply Qle_bool_iff in H1. unfold stable_or in H1.
  assert (Hz : ~ (RECOVERY_SECONDS <= tick - tick)%Q).
  { intros Hc. assert (E : (tick - tick == 0)%Q) by ring. rewrite E in Hc. by apply Hc. }
  destruct s as [t|]; [|done]. destruct (Qeq_bool t 0); [done|]. by exists t.
Qed.

(** With an unchanged AUTO baseline, the stages before the pressure test leave
    everything the adjustment reads as it was, except that a throttle which no
    longer restricts anything ends. *)
Lemma follow_baseline_stable c base safety moment e :
  effective c = Some e -> within e base -> baseline c = Some base ->
  let c' := follow_baseline c false base safety moment in
  effective c' = Some e /\ pressure_samples c' = pressure_samples c
  /\ stable_since c' = stable_since c /\ last_adjusted c' = last_adjusted c
  /\ (state c' = state c \/ (e = base /\ state c' = S_NORMAL)).
Proof.
  intros He Hw Hb. cbn zeta. unfold follow_baseline. rewrite He. cbn [default].
  rewrite bounded_id by done. cbn.
  destruct (bool_decide (e = base)) eqn:E1; destruct (bool_decide (state c = S_THROTTLED)) eqn:E2;
    repeat case_match; breflect; simplify_eq; cbn in *; simplify_eq; eauto 10.
Qed.

(** With an unchanged AUTO policy and baseline the effective budget changes
    only by one of two moves, both at least thirty seconds after the previous
    one: a halving of the read rate after three consecutive samples under
    pressure, or a step back toward the baseline from a reduced state after
    sixty stable seconds of known, pressure-free telemetry. *)
Theorem evaluate_adjustment (c : controller) (s : sample) (e e' base : budget)
    (safety : option string) (blocked : bool)
    (Hmode : mode (s_policy s) = AUTO) (Hc : cmode c = Some AUTO)
    (Hs : _safe_budget (s_policy s) (s_limits s) = (base, safety, blocked))
    (Hb : baseline c = Some base) (He : effective c = Some e) (Hw : within e base)
    (He' : effective (evaluate c s).1 = Some e') (Hne : e' <> e) :
  (forall t, last_adjusted c = Some t -> (30 <= s_tick s - t)%Q)
  /\ last_adjusted (evaluate c s).1 = Some (s_tick s)
  /\ ((exists why, _pressure_reason (s_telemetry s) (s_latency s) = Some why
        /\ 2 <= pressure_samples c /\ state (evaluate c s).1 = S_THROTTLED
        /\ e' = lower (_compute_pressure (s_telemetry s)) e)
      \/ (_pressure_reason (s_telemetry s) (s_latency s) = None
          /\ _telemetry_known (s_telemetry s) = true
          /\ (state c = S_THROTTLED \/ state c = S_RECOVERING)
          /\ (exists t, stable_since c = Some t /\ (60 <= s_tick s - t)%Q)
          /\ e' = raise_toward e base)).
Proof.
  unfold evaluate in *. rewrite Hs, Hmode in *. cbn [fst] in *.
  set (pressure := _pressure_reason (s_telemetry s) (s_latency s)) in *.
  set (c0 := Controller (effective c) _ _ _ _ _ _ _ _ _) in *.
  assert (Hr : restart c0 (s_policy s) base safety (s_moment s) = c0).
  { unfold restart. cbn. rewrite He, Hmode, Hc. rewrite bool_decide_eq_false_2 by done.
    by rewrite bool_decide_eq_true_2. }
  rewrite Hr in *. cbn [baseline c0] in *. rewrite Hb, bool_decide_eq_true_2 in * by done. cbn [negb] in *.
  destruct (follow_baseline_stable c0 base safety (s_moment s) e He Hw Hb)
    as (Ee & Eps & Ess & Ela & Est).
  set (c1 := follow_baseline c0 false base safety (s_moment s)) in *. clearbody c1.
  cbn in Eps, Ess, Ela, Est. rewrite <- Eps, <- Ess, <- Ela.
  assert (Hadj : forall tick, _adjustable c1 tick = true ->
    forall t, last_adjusted c1 = Some t -> (30 <= tick - t)%Q).
  { intros tick Ha t Ht. unfold _adjustable in Ha. rewrite Ht in Ha. by apply Qle_bool_iff. }
  destruct pressure as [why|].
  - unfold under_pressure in *. cbn zeta in *. cbn [pressure_samples set_window] in *.
    destruct (PRESSURE_SAMPLES <=? pressure_samples c1 + 1) eqn:E3; [|cbn in *; congruence].
    breflect. unfold PRESSURE_SAMPLES in E3.
    set (c2 := if negb _ || _ then _ else _) in *.
    assert (Hc2 : effective c2 = Some e /\ last_adjusted c2 = last_adjusted c1 /\ state c2 = S_THROTTLED).
    { subst c2. cbn. destruct (bool_decide (state c1 = S_THROTTLED)) eqn:E1; cbn; [|done].
      breflect. destruct (bool_decide (reason c1 = why)); cbn; split_and!; done. }
    clearbody c2. destruct Hc2 as (Hc2e & Hc2l & Hc2s).
    destruct (_adjustable c2 (s_tick s)) eqn:Ea; cbn [negb] in *; [|congruence].
    rewrite Hc2e in *. destruct (decide (lower _ e = e)) as [Hl|Hl]; cbn in *; [congruence|].
    split_and!; [|done|].
    + apply Hadj. unfold _adjustable in *. by rewrite Hc2l in Ea.
    + left. exists why. split_and!; [done|lia|done|congruence].
  - unfold without_pressure in *. cbn zeta in *.
    destruct (_telemetry_known _) eqn:Ek; cbn [negb] in *; [|cbn in *; congruence].
    cbn [stable_since state effective set_window] in *.
    set (ready := (_ || _) && _ && _) in *. destruct ready eqn:Er; [|cbn in *; congruence].
    rewrite Ee in *. destruct (decide (raise_toward e base = e)) as [Hl|Hl].
    { exfalso. revert He'. repeat case_match; cbn; congruence. }
    subst ready. cbn in He' |- *. breflect.
    assert (Hst : state c1 = S_THROTTLED \/ state c1 = S_RECOVERING).
    { apply orb_prop in H0 as [Hx|Hx]; breflect; auto. }
    split_and!; [|done|].
    + by apply Hadj.
    + right. split_and!; [done|done| | |congruence].
      * destruct Est as [<-|[_ Hn]]; [done|]. rewrite Hn in Hst. by destruct Hst.
      * by apply stable_or_ready.
Qed.

(** Recovery terminates: eight stable steps take any budget under a valid
    policy's ceiling back to it. *)
Theorem recovery_reaches_baseline (b t : budget) (Hw : within b t)
    (Hmax : writeConcurrency t <= 32 /\ readMiBPerSecond t <= 200) :
  Nat.iter 8 (fun b => raise_toward b t) b = t.
Proof.
  assert (Hn : forall n, let b' := Nat.iter n (fun b => raise_toward b t) b in
    within b' t
    /\ 2 ^ Z.of_nat n * (writeConcurrency t - writeConcurrency b') <= 199
    /\ 2 ^ Z.of_nat n * (readMiBPerSecond t - readMiBPerSecond b') <= 199).
  { induction n as [|n IH]; cbn zeta in *; [destruct Hw; split_and!; [done|cbn; lia..]|].
    rewrite Nat2Z.inj_succ, Z.pow_succ_r by lia. cbn [Nat.iter nat_rect].
    set (b' := Nat.iter n _ b) in *. change (nat_rect _ b _ n) with b'. clearbody b'.
    destruct IH as (Hwi & H1 & H2). split; [by apply raise_within|]. cbn.
    pose proof (recover_step_halves (writeConcurrency b') (writeConcurrency t) (proj2 (in_write _ _ Hwi))).
    pose proof (recover_step_halves (readMiBPerSecond b') (readMiBPerSecond t) (proj2 (in_read _ _ Hwi))).
    assert (0 < 2 ^ Z.of_nat n) by (apply Z.pow_pos_nonneg; lia). nia. }
  destruct (Hn 8%nat) as (H8 & H1 & H2). destruct (Nat.iter 8 _ b) as [b1 b2 b3 b4 b5], t as [t1 t2 t3 t4 t5].
  destruct H8. cbn in *. f_equal; lia.
Qed.

End performance.

(** Witnesses: a node with four CPUs and one GiB, one throttled controller. *)
Definition no_parse : FloatOfStr := fun _ => None.

Definition sample_limits : resource_limits := ResourceLimits 4 0 (1024 * MIB) "HOST".

Definition busy : pydict := [("cpuPercent", PInt 97); ("memoryPercent", PInt 50)].

Definition busy_sample (tick : Q) : sample :=
  Sample default_policy (Some busy) None sample_limits 0 tick.

Lemma evaluate_within_baseline_witness :
  exists e, rp_effective (@evaluate no_parse (@run no_parse [busy_sample 1; busy_sample 2]) (busy_sample 3)).2 = Some e
    /\ within e (Budget 64 4 256 100 50) /\ readMiBPerSecond e = 25.
Proof.
  assert (Hall : Forall (fun s => policy_valid (s_policy s) = true) ([busy_sample 1; busy_sample 2] ++ [busy_sample 3]))
    by (repeat constructor).
  destruct (@evaluate_within_baseline no_parse _ (busy_sample 3) Hall) as (e & He & Hw & _).
  exists e. split; [exact He|]. split; [exact Hw|].
  vm_compute in He. injection He as <-. reflexivity.
Defined.

Definition two_samples : controller := @run no_parse [busy_sample 1; busy_sample 2].

Lemma evaluate_adjustment_witness :
  last_adjusted (@evaluate no_parse two_samples (busy_sample 3)).1 = Some 3%Q.
Proof.
  refine (proj1 (proj2 (@evaluate_adjustment no_parse two_samples (busy_sample 3)
    (Budget 64 4 256 100 50) (Budget 64 3 256 100 25) (Budget 64 4 256 100 50) None false
    eq_refl eq_refl eq_refl eq_refl eq_refl _ eq_refl _))); [|discriminate].
  split; cbn; lia.
Defined.

Lemma recovery_reaches_baseline_witness :
  Nat.iter 8 (fun b => raise_toward b (Budget 64 4 256 100 50)) (Budget 64 1 256 100 1)
  = Budget 64 4 256 100 50.
Proof.
  apply (recovery_reaches_baseline (Budget 64 1 256 100 1) (Budget 64 4 256 100 50));
    [split; cbn; lia|cbn; lia].
Defined.
