(* ===== verification/NodeHealth.v ===== *)
(** * Node health, admission and ranking ([node/health.py],
    [node/input_admission.py], [node/resource_routing.py])

    A node is offered to the scheduler only after hard admission checks on its
    heartbeat, metrics and routing rules; the admitted nodes are ranked by a
    weighted cost.  Address parsing is the interpreter's [ipaddress]. *)

From S2P Require Import Prelude PyTime PyValue Ordering WritePressure.

Definition DEFAULT_NODE_CAPACITY : Z := 100.

(** `ipaddress`: parsing and membership. *)
Class IpLib := {
  ip_addr : Type;
  ip_net : Type;
  ip_address : pyval -> option ip_addr;
  ip_network : pyval -> option ip_net;
  addr_version : ip_addr -> Z;
  net_version : ip_net -> Z;
  in_network : ip_addr -> ip_net -> bool }.

(** ** Input rate ([input_admission.py]) *)

Definition INPUT_MIB : Z := 1024 * 1024.

(** [InputRateMeter]: the counter value of each runtime object at the last
    sample, and its tick.  Objects are named by `id(runtime)`. *)
Record meter := Meter { m_previous : gmap nat Z; m_tick : Q }.

Definition Qmax (a b : Q) : Q := if Qle_bool a b then b else a.

Definition sum_map (f : nat -> Z) (ids : gset nat) : Z := zsum (map f (elements ids)).

(** [sample]: [input_bytes] reads the live counters, also of the runtimes that
    left since the last sample. *)
Definition meter_sample (input_bytes : nat -> Z) (runtimes : list nat) (timestamp : Q) (m : meter)
  : Q * meter :=
  let current : gset nat := list_to_set runtimes in
  let combined := dom (m_previous m) ∪ current in
  let value i := Z.max 0 (input_bytes i) in
  let delta := sum_map (fun i => Z.max 0 (value i - default 0 (m_previous m !! i))) combined in
  let rate := (inject_Z delta / Qmax (1 # 100) (timestamp - m_tick m))%Q in
  (rate, Meter (set_to_map (fun i => (i, value i)) current) timestamp).

(** [input_rate_limit], in MiB per second; zero disables it. *)
Definition input_rate_limit (config : pydict) : Z :=
  match as_int (dict_get_or config "inputRateLimitMiB" (PInt 0)) with
  | Some value => if 0 <=? value then value else 0
  | None => 0
  end.

(** [input_rate_blocked]: a missing measure blocks when the limit is on. *)
Definition input_rate_blocked (node : pydict) (config : option pydict) : bool :=
  let limit := input_rate_limit (default node config) in
  if limit =? 0 then false
  else match as_finite (dict_get node "inputBytesPerSecond") with
       | Some rate => if Qltb rate 0 then true else Qle_bool (inject_Z (limit * INPUT_MIB)) rate
       | None => true
       end.

Section health.
Context `{FloatOfStr} `{FromIso} `{IpLib}.

(** ** Routing ([resource_routing.py]) *)

(** [accepts_resource]. *)
Definition accepts_resource (node : pydict) (resource_ip : pyval) : bool :=
  if truthy (dict_get_or node "isGeneralNode" (PBool true)) then true
  else
    match ip_address resource_ip with
    | None => false
    | Some address =>
        existsb (fun value =>
          match ip_network value with
          | Some network => (addr_version address =? net_version network) && in_network address network
          | None => false
          end)
          match dict_get_or node "resourceNetworks" (PList []) with PList l => l | _ => [] end
    end.

(** ** Measurements ([health.py]) *)

(** [number]. *)
Definition number (value : pyval) : option Q :=
  q ← as_finite value; if Qle_bool 0 q then Some q else None.

(** `number(value) or 0`. *)
Definition number_or_0 (value : pyval) : Q := default 0%Q (number value).

Inductive heartbeat_reason : Type :=
  | HeartbeatMissing              (* "未收到节点心跳" *)
  | HeartbeatInvalid              (* "节点心跳时间无效" *)
  | HeartbeatInFuture             (* "心跳接收时间晚于API时间..." *)
  | HeartbeatStale (seconds : Z)  (* "超过{seconds}秒未收到节点心跳" *).

(** The date of a stored time: BSON date or ISO text. *)
Definition as_datetime (v : pyval) : option datetime :=
  match v with PTime d => Some d | PStr s => from_iso s | _ => None end.

(** [heartbeat_freshness_reason]: [None] is fresh; [current] is aware. *)
Definition heartbeat_freshness_reason (timestamp : pyval) (current seconds : Z) : option heartbeat_reason :=
  if is_none timestamp then Some HeartbeatMissing
  else match as_datetime timestamp with
       | None => Some HeartbeatInvalid
       | Some d =>
           let age := current - utc_instant d in
           if age <? -2 * US_PER_SECOND then Some HeartbeatInFuture
           else if seconds * US_PER_SECOND <? age then Some (HeartbeatStale seconds)
           else None
       end.

(** [fresh]. *)
Definition fresh (timestamp : pyval) (current seconds : Z) : bool :=
  match heartbeat_freshness_reason timestamp current seconds with None => true | Some _ => false end.

(** [measurements]: the empty mapping when nothing can be trusted. *)
Definition measurements (node : pydict) (current : Z) : pydict :=
  let sample := dict_sub node "telemetry" in
  let check sample := if fresh (dict_get sample "sampledAt") current 15 then sample else [] in
  match dict_lookup node "telemetryAgeSeconds" with
  | None => check sample
  | Some raw =>
      match number raw with
      | None => []
      | Some age =>
          let received := dict_get node "heartbeat" in
          if Qltb 15 age || negb (truthy (dict_get sample "sampledAt")) then []
          else if negb (fresh received current 15) then []
          else
            match as_datetime received with
            | None => []
            | Some d =>
                check (dict_set (dict_set sample "workerSampledAt" (dict_get sample "sampledAt"))
                         "sampledAt" (PTime (Aware (utc_instant d - timedelta_seconds age))))
            end
      end
  end.

(** `number(v) is not None and v >= bound`. *)
Definition reaches (v : pyval) (bound : Q) : bool :=
  match number v with Some q => Qle_bool bound q | None => false end.

(** [resource_pressure]. *)
Definition resource_pressure (node : pydict) (current : Z) : bool :=
  let sample := measurements node current in
  truthy (dict_get (dict_sub node "performanceStatus") "admissionBlocked")
  || existsb (fun key => reaches (dict_get sample key) 95) ["cpuPercent"; "memoryPercent"].

(** ** [node_health] *)

Inductive health_status : Type := OFFLINE | CRITICAL | WARNING | UNKNOWN | HEALTHY.

#[global] Instance health_status_eq_dec : EqDecision health_status.
Proof. solve_decision. Defined.

Inductive metric : Type := CPU | MEMORY | DISK | WRITE_LATENCY.

Inductive health_reason : Type :=
  | R_Heartbeat (r : heartbeat_reason)
  | R_AdmissionBlocked
  | R_ArchivesQueued (waiting running : pyval)
  | R_ArchivesWaiting
  | R_InputRate (limit : Z)
  | R_Isolated
  | R_ConfigurationMismatch
  | R_NoData (m : metric)
  | R_IsolatedSlowSessions (value : Q)
  | R_TooHigh (m : metric) (value : Q)
  | R_NearLimit (m : metric) (value : Q)
  | R_NotSampled
  | R_NetworkNotSampled
  | R_CapacityFull
  | R_NotAccepting.

(** The three lists, in the order critical, warnings, unknown. *)
Abbreviation triage := (list health_reason * list health_reason * list health_reason)%type.

Definition add_critical (r : health_reason) (t : triage) : triage := (t.1.1 ++ [r], t.1.2, t.2).
Definition add_warning (r : health_reason) (t : triage) : triage := (t.1.1, t.1.2 ++ [r], t.2).
Definition add_unknown (r : health_reason) (t : triage) : triage := (t.1.1, t.1.2, t.2 ++ [r]).
Definition add_if (b : bool) (f : triage -> triage) (t : triage) : triage := if b then f t else t.

(** One row of the metric table: key, warning and critical bounds, source. *)
Definition triage_metric (node : pydict) (row : metric * string * Q * Q * pydict) (t : triage) : triage :=
  let '(m, key, warning, limit, source) := row in
  let admission := dict_sub node "writeAdmission" in
  match number (dict_get source key) with
  | None => add_unknown (R_NoData m) t
  | Some value =>
      let is_write := match m with WRITE_LATENCY => true | _ => false end in
      if is_write && Qltb limit value
         && match dict_get admission "blocked" with PBool false => true | _ => false end
         && match dict_get admission "scope" with PStr s => bool_decide (s = "SESSION") | _ => false end
         && match as_finite (dict_get admission "limitMs") with Some l => Qeq_bool l limit | None => false end
         && negb (write_latency_blocked node None)
      then add_warning (R_IsolatedSlowSessions value) t
      else if (if is_write then Qltb limit value else Qle_bool limit value)
      then add_critical (R_TooHigh m value) t
      else if Qle_bool warning value then add_warning (R_NearLimit m value) t
      else t
  end.

Definition node_triage (node : pydict) (current : Z) : triage :=
  let performance := dict_sub node "performanceStatus" in
  let archives := dict_sub performance "archives" in
  let sample := measurements node current in
  let write_limit := inject_Z (write_latency_limit (Some node)) in
  let t : triage := ([], [], []) in
  let t := add_if (truthy (dict_get performance "admissionBlocked")) (add_critical R_AdmissionBlocked) t in
  let t := add_if (match dict_get_or archives "oldestSeconds" (PInt 0) with
                   | PInt z => 300 <=? z
                   | PFloat (Fin q) => Qle_bool 300 q
                   | PFloat (Inf negative) => negb negative
                   | _ => false
                   end)
             (add_warning match dict_lookup archives "waitingJobs" with
                          | Some w => R_ArchivesQueued w (dict_get_or archives "runningJobs" (PInt 0))
                          | None => R_ArchivesWaiting
                          end) t in
  let t := add_if (input_rate_blocked node None) (add_critical (R_InputRate (input_rate_limit node))) t in
  let t := add_if (truthy (dict_get node "isolated")) (add_critical R_Isolated) t in
  let t := add_if (truthy (dict_get node "configurationMismatch")) (add_critical R_ConfigurationMismatch) t in
  let t := foldl (fun t row => triage_metric node row t) t
    [(CPU, "cpuPercent", 80%Q, 95%Q, sample);
     (MEMORY, "memoryPercent", 85%Q, 95%Q, sample);
     (DISK, "diskPercent", 80%Q, 90%Q, node);
     (WRITE_LATENCY, "writeLatencyMs", (write_limit * (3 # 4))%Q, write_limit, node)] in
  let t := match sample with
           | [] => add_unknown R_NotSampled t
           | _ =>
               let missing key := match number (dict_get sample key) with None => true | Some _ => false end in
               add_if (missing "networkUploadBytesPerSecond" || missing "networkDownloadBytesPerSecond")
                 (add_unknown R_NetworkNotSampled) t
           end in
  let capacity := let c := number_or_0 (dict_get node "capacity") in
                  if Qeq_bool c 0 then inject_Z DEFAULT_NODE_CAPACITY else c in
  let t := add_if (Qle_bool capacity (number_or_0 (dict_get node "activeTasks"))) (add_warning R_CapacityFull) t in
  add_if (negb (truthy (dict_get_or node "accepting" (PBool false)))) (add_warning R_NotAccepting) t.

Definition node_health (node : pydict) (current : Z) : health_status * list health_reason :=
  match heartbeat_freshness_reason (dict_get node "heartbeat") current 30 with
  | Some r => (OFFLINE, [R_Heartbeat r])
  | None =>
      let '(critical, warnings, unknown) := node_triage node current in
      (match critical, warnings, unknown with
       | _ :: _, _, _ => CRITICAL
       | [], _ :: _, _ => WARNING
       | [], [], _ :: _ => UNKNOWN
       | [], [], [] => HEALTHY
       end, critical ++ warnings ++ unknown)
  end.

(** ** [rank_nodes] *)

(** The conditions of the first loop's two `continue`s, negated. *)
Definition routed (task : option pydict) (node : pydict) : bool :=
  match task with
  | None => true
  | Some t =>
      accepts_resource node (dict_get_or t "resourceIp" (dict_get t "ip"))
      && negb (truthy (dict_get t "requiresNfs")
               && negb (truthy (dict_get (dict_sub node "capabilities") "coredumpNfs")))
  end.

Definition node_id (node : pydict) : string := default "" (as_str (dict_get node "id")).

Definition hard_admission (occupancy : string -> Z) (current : Z) (node : pydict) : bool :=
  match number (dict_get_or node "capacity" (PInt DEFAULT_NODE_CAPACITY)) with
  | None => false
  | Some capacity =>
      Qltb 0 capacity
      && fresh (dict_get node "heartbeat") current 15
      && truthy (dict_get node "accepting")
      && negb (truthy (dict_get node "isolated"))
      && negb (truthy (dict_get node "deletedAt"))
      && negb (truthy (dict_get node "configurationMismatch"))
      && negb (Qle_bool capacity (inject_Z (occupancy (node_id node))))
      && negb (Qle_bool 90 (number_or_0 (dict_get node "diskPercent")))
      && negb (write_latency_blocked node None)
      && negb (resource_pressure node current)
      && negb (input_rate_blocked node None)
  end.

Definition eligible (task : option pydict) (occupancy : string -> Z) (current : Z) (node : pydict) : bool :=
  routed task node && hard_admission occupancy current node.

(** The total network rate, when both directions are measured. *)
Definition network_rate (sample : pydict) : option Q :=
  match number (dict_get sample "networkUploadBytesPerSecond"),
        number (dict_get sample "networkDownloadBytesPerSecond") with
  | Some u, Some d => Some (u + d)%Q
  | _, _ => None
  end.

Definition peak_network (current : Z) (candidates : list pydict) : Q :=
  foldr Qmax 1%Q (map (fun n => default 0%Q (network_rate (measurements n current))) candidates).

Definition Qcap1 (q : Q) : Q := if Qle_bool 1 q then 1%Q else q.

Definition fraction (v : pyval) : Q := match number v with Some q => q / 100 | None => 3 # 4 end%Q.

(** The weighted cost of a candidate. *)
Definition node_score (occupancy : string -> Z) (current : Z) (peak : Q) (node : pydict) : Q :=
  let sample := measurements node current in
  let capacity := number_or_0 (dict_get_or node "capacity" (PInt DEFAULT_NODE_CAPACITY)) in
  let buffer := dict_sub (dict_sub node "performanceStatus") "buffer" in
  let limit := let l := number_or_0 (dict_get buffer "limitBytes") in if Qeq_bool l 0 then 1%Q else l in
  ((3 # 10) * (inject_Z (occupancy (node_id node)) / capacity)
   + (2 # 10) * fraction (dict_get sample "cpuPercent")
   + (2 # 10) * fraction (dict_get sample "memoryPercent")
   + (1 # 10) * (number_or_0 (dict_get node "diskPercent") / 100)
   + (1 # 10) * Qcap1 (number_or_0 (dict_get node "writeLatencyMs")
                       / inject_Z (write_latency_limit (Some node)))
   + (1 # 10) * match network_rate sample with Some n => n / peak | None => 3 # 4 end
   + (1 # 10) * Qcap1 (number_or_0 (dict_get buffer "reservedBytes") / limit))%Q.

Definition node_priority (task : option pydict) (node : pydict) : Q :=
  match task with
  | Some _ => if truthy (dict_get_or node "isGeneralNode" (PBool true)) then 2 else 0
  | None => 0
  end.

Definition node_cost (task : option pydict) (occupancy : string -> Z) (current : Z) (peak : Q)
    (node : pydict) : Q :=
  (node_priority task node + node_score occupancy current peak node)%Q.

(** [rank_nodes]: `sorted` on the pairs of cost and id. *)
Definition rank_nodes (nodes : list pydict) (occupancy : string -> Z) (task : option pydict) (current : Z)
  : list (Q * string) :=
  let candidates := filter (fun n => Is_true (eligible task occupancy current n)) nodes in
  let peak := peak_network current candidates in
  sort_by (fun e => e) (pair_leb Qle_bool str_leb)
    (map (fun n => (node_cost task occupancy current peak n, node_id n)) candidates).

(** ** Lemmas on the score *)

Lemma number_nonneg v q : number v = Some q -> (0 <= q)%Q.
Proof.
  unfold number. destruct (as_finite v) as [q'|]; cbn; [|done].
  destruct (Qle_bool 0 q') eqn:E; [|done]. intros [= ->]. by apply Qle_bool_iff.
Qed.

Lemma number_or_0_nonneg v : (0 <= number_or_0 v)%Q.
Proof.
  unfold number_or_0. destruct (number v) as [q|] eqn:E; cbn; [by eapply number_nonneg|apply Qle_refl].
Qed.

Lemma Qcap1_le q : (Qcap1 q <= 1)%Q.
Proof. unfold Qcap1. destruct (Qle_bool 1 q) eqn:E; qreflect; [apply Qle_refl|by apply Qlt_le_weak]. Qed.

Lemma Qcap1_nonneg q : (0 <= q)%Q -> (0 <= Qcap1 q)%Q.
Proof. intros Hq. unfold Qcap1. destruct (Qle_bool 1 q); [lra|done]. Qed.

Lemma Qdiv_nonneg a b : (0 <= a)%Q -> (0 < b)%Q -> (0 <= a / b)%Q.
Proof. intros Ha Hb. apply Qle_shift_div_l; [done|]. by rewrite Qmult_0_l. Qed.

Lemma Qdiv_le_1 a b : (a <= b)%Q -> (0 < b)%Q -> (a / b <= 1)%Q.
Proof. intros Ha Hb. apply Qle_shift_div_r; [done|]. by rewrite Qmult_1_l. Qed.

Lemma Qmax_l a b : (a <= Qmax a b)%Q.
Proof. unfold Qmax. destruct (Qle_bool a b) eqn:E; qreflect; [done|apply Qle_refl]. Qed.

Lemma Qmax_r a b : (b <= Qmax a b)%Q.
Proof. unfold Qmax. destruct (Qle_bool a b) eqn:E; qreflect; [apply Qle_refl|by apply Qlt_le_weak]. Qed.

Lemma peak_network_ge current candidates n :
  n ∈ candidates -> (default 0%Q (network_rate (measurements n current)) <= peak_network current candidates)%Q.
Proof.
  unfold peak_network. induction candidates as [|c l IH]; [by intros ?%elem_of_nil|].
  cbn. intros [->|Hin]%elem_of_cons; [apply Qmax_l|]. eapply Qle_trans; [by apply IH|apply Qmax_r].
Qed.

Lemma peak_network_ge_1 current candidates : (1 <= peak_network current candidates)%Q.
Proof.
  unfold peak_network. induction candidates as [|c l IH]; cbn; [apply Qle_refl|].
  eapply Qle_trans; [exact IH|apply Qmax_r].
Qed.

Lemma network_rate_nonneg s q : network_rate s = Some q -> (0 <= q)%Q.
Proof.
  unfold network_rate.
  destruct (number (dict_get s "networkUploadBytesPerSecond")) as [u|] eqn:Eu; [|done].
  destruct (number (dict_get s "networkDownloadBytesPerSecond")) as [d|] eqn:Ed; [|done].
  intros [= <-]. apply number_nonneg in Eu, Ed. lra.
Qed.

Lemma fraction_bound v : reaches v 95 = false -> (0 <= fraction v <= 1)%Q.
Proof.
  unfold reaches, fraction. destruct (number v) as [q|] eqn:E; intros Hr; [|split; lra].
  apply number_nonneg in E. qreflect. split; [by apply Qdiv_nonneg|apply Qdiv_le_1; lra].
Qed.

Lemma hard_admission_spec occupancy current node :
  hard_admission occupancy current node = true ->
  (0 < number_or_0 (dict_get_or node "capacity" (PInt DEFAULT_NODE_CAPACITY)))%Q
  /\ (inject_Z (occupancy (node_id node))
       < number_or_0 (dict_get_or node "capacity" (PInt DEFAULT_NODE_CAPACITY)))%Q
  /\ fresh (dict_get node "heartbeat") current 15 = true
  /\ truthy (dict_get node "accepting") = true
  /\ truthy (dict_get node "isolated") = false
  /\ truthy (dict_get node "deletedAt") = false
  /\ truthy (dict_get node "configurationMismatch") = false
  /\ (number_or_0 (dict_get node "diskPercent") < 90)%Q
  /\ write_latency_blocked node None = false
  /\ resource_pressure node current = false
  /\ input_rate_blocked node None = false.
Proof.
  unfold hard_admission, number_or_0.
  destruct (number (dict_get_or node "capacity" _)) as [c|]; [|done]. cbn [default].
  intros Hh. qreflect. split_and!; done.
Qed.

Lemma Qdiv_unit a b : (0 <= a)%Q -> (a <= b)%Q -> (0 < b)%Q -> (0 <= a / b <= 1)%Q.
Proof. split; [by apply Qdiv_nonneg|by apply Qdiv_le_1]. Qed.

Lemma Qcap1_unit q : (0 <= q)%Q -> (0 <= Qcap1 q <= 1)%Q.
Proof. split; [by apply Qcap1_nonneg|apply Qcap1_le]. Qed.

Lemma write_latency_limit_pos node : (0 < inject_Z (write_latency_limit node))%Q.
Proof. change 0%Q with (inject_Z 0). rewrite <- Zlt_Qlt. pose proof (write_latency_limit_range node). lia. Qed.

Lemma or_1_pos v :
  (0 < (let l := number_or_0 v in if Qeq_bool l 0 then 1 else l))%Q.
Proof.
  cbn zeta. pose proof (number_or_0_nonneg v) as Hl. destruct (Qeq_bool _ 0) eqn:E; [lra|].
  apply Qeq_bool_neq in E. apply Qle_lteq in Hl as [|Hz]; [done|]. by rewrite <- Hz in E.
Qed.

(** The terms of the score lie between zero and their weights. *)
Lemma node_score_bound occupancy current candidates node :
  0 <= occupancy (node_id node) -> node ∈ candidates ->
  hard_admission occupancy current node = true ->
  (0 <= node_score occupancy current (peak_network current candidates) node < 2)%Q.
Proof.
  intros Hocc Hin Hh.
  apply hard_admission_spec in Hh as (Hc & Hlt & _ & _ & _ & _ & _ & Hdisk & _ & Hp & _).
  unfold resource_pressure in Hp. apply orb_false_elim in Hp as [_ Hp].
  cbn [existsb] in Hp. apply orb_false_elim in Hp as [Hcpu Hp]. apply orb_false_elim in Hp as [Hmem _].
  assert (Hoc : (0 <= inject_Z (occupancy (node_id node)))%Q) by (change 0%Q with (inject_Z 0); by rewrite <- Zle_Qle).
  pose proof (Qdiv_unit _ _ Hoc (Qlt_le_weak _ _ Hlt) Hc) as Hu.
  apply fraction_bound in Hcpu, Hmem.
  pose proof (Qdiv_unit (number_or_0 (dict_get node "diskPercent")) 100
    (number_or_0_nonneg _) ltac:(lra) ltac:(lra)) as Hd.
  assert (Hn : (0 <= match network_rate (measurements node current) with
                     | Some n => n / peak_network current candidates | None => 3 # 4 end <= 1)%Q).
  { pose proof (peak_network_ge current candidates node Hin) as Hpk.
    pose proof (peak_network_ge_1 current candidates).
    destruct (network_rate (measurements node current)) as [n|] eqn:En; [|lra]. cbn in Hpk.
    apply network_rate_nonneg in En. apply Qdiv_unit; [done|done|lra]. }
  unfold node_score. cbn zeta.
  match goal with |- context [(_ + (1 # 10) * Qcap1 ?w + _ + _)%Q] => assert (Hw : (0 <= Qcap1 w <= 1)%Q) end.
  { apply Qcap1_unit, Qdiv_nonneg; [apply number_or_0_nonneg|apply write_latency_limit_pos]. }
  match goal with |- context [(_ + (1 # 10) * Qcap1 ?w)%Q] => assert (Hb : (0 <= Qcap1 w <= 1)%Q) end.
  { apply Qcap1_unit, Qdiv_nonneg; [apply number_or_0_nonneg|apply or_1_pos]. }
  lra.
Qed.

#[global] Instance Qle_bool_order : BoolOrder Qle_bool.
Proof.
  split.
  - intros x y. rewrite !Qle_bool_iff. destruct (Qlt_le_dec x y); [left; by apply Qlt_le_weak|by right].
  - intros x y z. rewrite !Qle_bool_iff. apply Qle_trans.
Qed.

(** ** Lemmas on the ranking *)

Lemma rank_nodes_perm nodes occupancy task current :
  let candidates := filter (fun n => Is_true (eligible task occupancy current n)) nodes in
  rank_nodes nodes occupancy task current
  ≡ₚ map (fun n => (node_cost task occupancy current (peak_network current candidates) n, node_id n)) candidates.
Proof. apply sort_by_perm. Qed.

Lemma eligible_spec task occupancy current n (nodes : list pydict) :
  n ∈ filter (fun n => Is_true (eligible task occupancy current n)) nodes <->
  n ∈ nodes /\ routed task n = true /\ hard_admission occupancy current n = true.
Proof.
  rewrite list_elem_of_filter. unfold eligible. rewrite andb_True, !Is_true_true. tauto.
Qed.

(** ** Lemmas on the triage *)

Definition clear (t : triage) : Prop := t = ([], [], []).

Definition adds (f : triage -> triage) : Prop := forall t, ~ clear (f t).

Lemma adds_critical r : adds (add_critical r).
Proof. intros t [= H' _ _]. by apply app_nil in H' as [_ ?]. Qed.

Lemma adds_warning r : adds (add_warning r).
Proof. intros t [= _ H' _]. by apply app_nil in H' as [_ ?]. Qed.

Lemma adds_unknown r : adds (add_unknown r).
Proof. intros t [= _ _ H']. by apply app_nil in H' as [_ ?]. Qed.

Lemma add_if_clear b f t : clear (add_if b f t) -> adds f -> b = false /\ clear t.
Proof. destruct b; cbn; [|done]. intros Hc Hf. by destruct (Hf t). Qed.

Lemma triage_metric_clear node m key warning limit source t :
  clear (triage_metric node (m, key, warning, limit, source) t) ->
  clear t /\ exists value, number (dict_get source key) = Some value /\ (value < warning)%Q.
Proof.
  unfold triage_metric. destruct (number (dict_get source key)) as [value|]; [|by intros ?%adds_unknown].
  cbn zeta. destruct (_ && _); [by intros ?%adds_warning|].
  assert (Hlow : clear (if Qle_bool warning value then add_warning (R_NearLimit m value) t else t) ->
    clear t /\ exists value0, Some value = Some value0 /\ (value0 < warning)%Q).
  { destruct (Qle_bool warning value) eqn:E; [by intros ?%adds_warning|].
    qreflect. intros Ht. split; [done|]. by exists value. }
  destruct m; cbn [andb];
    match goal with |- context [if ?b then add_critical _ _ else _] => destruct b end;
    try exact Hlow; by intros ?%adds_critical.
Qed.

(** Nothing is critical. *)
Definition calm (t : triage) : Prop := t.1.1 = [].

Lemma calm_add_if b f t : calm t -> (b = true -> calm t -> calm (f t)) -> calm (add_if b f t).
Proof. destruct b; cbn; auto. Qed.

(** The triage of the sample itself adds at most an unknown. *)
Definition sampled {A} (sample : list A) (b : bool) (r r' : health_reason) (t : triage) : triage :=
  match sample with [] => add_unknown r t | _ => add_if b (add_unknown r') t end.

Lemma calm_sampled {A} (sample : list A) b r r' t : calm t -> calm (sampled sample b r r' t).
Proof. by destruct sample, b. Qed.

Lemma sampled_clear {A} (sample : list A) b r r' t : clear (sampled sample b r r' t) -> clear t.
Proof.
  destruct sample; cbn; [by intros ?%adds_unknown|].
  by intros [_ ?]%add_if_clear; [|apply adds_unknown].
Qed.

Lemma calm_metric node m key warning limit source t :
  calm t ->
  (forall value, number (dict_get source key) = Some value ->
     match m with WRITE_LATENCY => (value <= limit)%Q
       \/ write_latency_blocked node None = false
          /\ (let admission := dict_sub node "writeAdmission" in
              dict_get admission "blocked" = PBool false /\ dict_get admission "scope" = PStr "SESSION"
              /\ exists l, as_finite (dict_get admission "limitMs") = Some l /\ (l == limit)%Q)
     | _ => (value < limit)%Q end) ->
  calm (triage_metric node (m, key, warning, limit, source) t).
Proof.
  intros Ht Hv. unfold triage_metric. destruct (number (dict_get source key)) as [value|]; [|done].
  specialize (Hv value eq_refl).
  assert (Hlow : calm (if Qle_bool warning value then add_warning (R_NearLimit m value) t else t))
    by (by destruct (Qle_bool warning value)).
  assert (Hhigh : (value < limit)%Q -> Qle_bool limit value = false) by apply Qle_bool_false.
  destruct m; cbn [andb]; [by rewrite Hhigh..|].
  destruct (Qltb limit value) eqn:E; [|done]. qreflect.
  destruct Hv as [Hv|[Hb (Had & Hs & l & Hl & Heq)]]; [lra|].
  cbn zeta in Had, Hs, Hl. rewrite Had, Hs, Hl, Hb. apply Qeq_bool_iff in Heq. by rewrite Heq.
Qed.

Lemma fresh_longer t current s s' : s <= s' -> fresh t current s = true -> fresh t current s' = true.
Proof.
  unfold fresh, heartbeat_freshness_reason. intros Hs.
  destruct (is_none t); [done|]. destruct (as_datetime t) as [d|]; [|done]. cbn zeta.
  set (age := current - utc_instant d). destruct (age <? _); [done|].
  destruct (s * _ <? age) eqn:E; [done|]. intros _.
  replace (s' * US_PER_SECOND <? age) with false by (symmetry; unfold US_PER_SECOND in *; blia). done.
Qed.

Lemma fresh_no_reason t current s : fresh t current s = true <-> heartbeat_freshness_reason t current s = None.
Proof. unfold fresh. by destruct (heartbeat_freshness_reason t current s). Qed.

Lemma reaches_false v bound value : reaches v bound = false -> number v = Some value -> (value < bound)%Q.
Proof. unfold reaches. intros Hr Hv. rewrite Hv in Hr. by qreflect. Qed.

(** A latency over the limit that does not block was cleared by the worker's
    own conclusion. *)
Lemma latency_cleared node value :
  write_latency_blocked node None = false -> number (dict_get node "writeLatencyMs") = Some value ->
  (inject_Z (write_latency_limit (Some node)) < value)%Q ->
  let admission := dict_sub node "writeAdmission" in
  dict_get admission "blocked" = PBool false
  /\ exists l, as_finite (dict_get admission "limitMs") = Some l
        /\ (l == inject_Z (write_latency_limit (Some node)))%Q.
Proof.
  unfold write_latency_blocked. cbn [default]. intros Hb Hv Hlt. cbn zeta.
  destruct (adopted_admission node _) as [b|] eqn:Ea.
  - subst b. unfold adopted_admission, dict_sub in *.
    destruct (as_dict (dict_get node "writeAdmission")) as [a|]; cbn in *; [|done].
    destruct (dict_get a "blocked") as [|b| | | | | |] eqn:E1; cbn in Ea; try done.
    destruct (dict_get a "limitMs") as [| |z| | | | |] eqn:E2; cbn in Ea; try done.
    destruct (z =? _) eqn:E3; [|done]. injection Ea as ->. split; [done|].
    exists (inject_Z z). split; [unfold dict_get in E2; by rewrite E2|]. breflect. by rewrite E3.
  - exfalso. unfold dict_get_or in Hb. unfold dict_get in Hv. unfold number in Hv.
    destruct (dict_lookup node "writeLatencyMs") as [v|]; cbn in *; [|done].
    destruct v as [| |z|[q| |]| | | |]; cbn in Hv; try done;
      (case_match eqn:E; [|done]); injection Hv as <-;
      cbn in Hb; unfold not_finite_or_negative in Hb; cbn in Hb; rewrite E in Hb;
      unfold float_lt in Hb; cbn in Hb; qreflect; lra.
Qed.

(** A low latency does not block, unless the worker concluded a block. *)
Lemma low_latency_open node value :
  adopted_admission node (write_latency_limit (Some node)) <> Some true ->
  number (dict_get node "writeLatencyMs") = Some value ->
  (value <= inject_Z (write_latency_limit (Some node)))%Q ->
  write_latency_blocked node None = false.
Proof.
  intros Ha Hv Hle. unfold write_latency_blocked. cbn [default].
  destruct (adopted_admission node _) as [[]|]; [done..|].
  unfold dict_get_or. unfold dict_get in Hv.
  destruct (dict_lookup node "writeLatencyMs") as [v|]; cbn in *; [|done].
  destruct v as [| |z|[q| |]| | | |]; cbn in Hv; try done;
    (case_match eqn:E; [|done]); injection Hv as <-;
    cbn; unfold not_finite_or_negative; cbn; rewrite E; unfold float_lt; cbn; by apply Qltb_ge.
Qed.

(** The two readings of the capacity agree when it is positive. *)
Lemma capacity_agrees node cap :
  number (dict_get_or node "capacity" (PInt DEFAULT_NODE_CAPACITY)) = Some cap -> (0 < cap)%Q ->
  (let c := number_or_0 (dict_get node "capacity") in
   if Qeq_bool c 0 then inject_Z DEFAULT_NODE_CAPACITY else c) = cap.
Proof.
  unfold number_or_0, dict_get_or, dict_get. intros Hc Hpos.
  destruct (dict_lookup node "capacity") as [v|]; cbn [default] in *.
  - rewrite Hc. cbn. destruct (Qeq_bool cap 0) eqn:E; [|done].
    apply Qeq_bool_eq in E. lra.
  - injection Hc as <-. reflexivity.
Qed.

(** ** Theorems *)

(** The ranking is the ascending order of (cost, id) over exactly the nodes
    that pass the routing rules and the hard admission checks, and every ranked
    node has room, a heartbeat of the last 15 seconds, a disk under 90 %, no
    latency, memory, CPU or input-rate block, and a cost in [0, 4). *)
Theorem rank_nodes_exact (nodes : list pydict) (occupancy : string -> Z) (task : option pydict) (current : Z)
    (Hocc : forall i, 0 <= occupancy i) :
  let ranked := rank_nodes nodes occupancy task current in
  StronglySorted (fun a b => pair_leb Qle_bool str_leb a b = true) ranked
  /\ ranked.*2 ≡ₚ map node_id (filter (fun n => Is_true (eligible task occupancy current n)) nodes)
  /\ Forall (fun '(cost, i) => exists n, n ∈ nodes /\ node_id n = i
        /\ (0 <= cost < 4)%Q /\ routed task n = true
        /\ (inject_Z (occupancy i)
             < number_or_0 (dict_get_or n "capacity" (PInt DEFAULT_NODE_CAPACITY)))%Q
        /\ fresh (dict_get n "heartbeat") current 15 = true
        /\ (number_or_0 (dict_get n "diskPercent") < 90)%Q
        /\ truthy (dict_get n "accepting") = true /\ truthy (dict_get n "isolated") = false
        /\ write_latency_blocked n None = false
        /\ resource_pressure n current = false /\ input_rate_blocked n None = false) ranked.
Proof.
  cbn zeta. pose proof (rank_nodes_perm nodes occupancy task current) as Hp. cbn zeta in Hp.
  split_and!.
  - apply (sort_by_sorted (fun e => e) (pair_leb Qle_bool str_leb)).
  - rewrite Hp. by rewrite <- !list_fmap_compose.
  - rewrite Hp. apply Forall_fmap, Forall_forall. intros n Hn. cbn.
    pose proof (node_score_bound occupancy current _ n (Hocc _) Hn) as Hb.
    apply eligible_spec in Hn as (Hin & Hr & Hh). specialize (Hb Hh).
    apply hard_admission_spec in Hh as (? & ? & ? & ? & ? & ? & ? & ? & ? & ? & ?).
    exists n. split_and!; try done; unfold node_cost, node_priority; repeat case_match; lra.
Qed.

(** When a task is placed, every eligible node dedicated to its address
    costs less than every eligible general node: a dedicated node wins whatever
    its load. *)
Theorem dedicated_nodes_first (nodes : list pydict) (occupancy : string -> Z) (task : pydict) (current : Z)
    (dedicated general : pydict) (Hocc : forall i, 0 <= occupancy i)
    (Hd : dedicated ∈ nodes) (Hg : general ∈ nodes)
    (Hed : eligible (Some task) occupancy current dedicated = true)
    (Heg : eligible (Some task) occupancy current general = true)
    (Hnd : truthy (dict_get_or dedicated "isGeneralNode" (PBool true)) = false)
    (Hng : truthy (dict_get_or general "isGeneralNode" (PBool true)) = true) :
  exists cd cg, (cd, node_id dedicated) ∈ rank_nodes nodes occupancy (Some task) current
    /\ (cg, node_id general) ∈ rank_nodes nodes occupancy (Some task) current /\ (cd < cg)%Q.
Proof.
  pose proof (rank_nodes_perm nodes occupancy (Some task) current) as Hp. cbn zeta in Hp.
  set (candidates := filter _ nodes) in *.
  assert (Hmem : forall n, n ∈ nodes -> eligible (Some task) occupancy current n = true -> n ∈ candidates).
  { intros n Hin He. subst candidates. apply list_elem_of_filter. by rewrite He. }
  pose proof (node_score_bound occupancy current _ dedicated (Hocc _) (Hmem _ Hd Hed)) as Bd.
  pose proof (node_score_bound occupancy current _ general (Hocc _) (Hmem _ Hg Heg)) as Bg.
  specialize (Bd (proj2 (andb_prop _ _ Hed))). specialize (Bg (proj2 (andb_prop _ _ Heg))).
  eexists _, _. split_and!.
  - rewrite Hp. apply list_elem_of_fmap. exists dedicated. split; [reflexivity|by apply Hmem].
  - rewrite Hp. apply list_elem_of_fmap. exists general. split; [reflexivity|by apply Hmem].
  - unfold node_cost, node_priority. rewrite Hnd, Hng. lra.
Qed.

(** A node the scheduler admits is never shown as offline or critical,
    provided its diagnostics name the slow sessions whenever the latency is
    over the limit. *)
Theorem admitted_not_critical (occupancy : string -> Z) (current : Z) (node : pydict)
    (Hh : hard_admission occupancy current node = true)
    (Hscope : forall v, number (dict_get node "writeLatencyMs") = Some v ->
       (inject_Z (write_latency_limit (Some node)) < v)%Q ->
       dict_get (dict_sub node "writeAdmission") "scope" = PStr "SESSION") :
  (node_health node current).1 ∈ [HEALTHY; UNKNOWN; WARNING].
Proof.
  apply hard_admission_spec in Hh as (_ & _ & Hf & _ & Hi & _ & Hm & Hd & Hw & Hp & Hr).
  unfold resource_pressure in Hp. apply orb_false_elim in Hp as [Hab Hp].
  cbn [existsb] in Hp. apply orb_false_elim in Hp as [Hcpu Hp]. apply orb_false_elim in Hp as [Hmem _].
  unfold node_health.
  rewrite (proj1 (fresh_no_reason _ current 30)) by (by eapply fresh_longer; [|exact Hf]).
  assert (Hcalm : calm (node_triage node current)).
  { unfold node_triage. cbn [foldl].
    apply calm_add_if; [|done]. apply calm_add_if; [|done].
    assert (Hrow : forall t : triage, calm t -> calm (foldl (fun t row => triage_metric node row t) t
      [(CPU, "cpuPercent", 80%Q, 95%Q, measurements node current);
       (MEMORY, "memoryPercent", 85%Q, 95%Q, measurements node current);
       (DISK, "diskPercent", 80%Q, 90%Q, node);
       (WRITE_LATENCY, "writeLatencyMs", (inject_Z (write_latency_limit (Some node)) * (3 # 4))%Q,
         inject_Z (write_latency_limit (Some node)), node)])).
    { intros t Ht. cbn [foldl]. apply calm_metric.
      - apply calm_metric; [|intros v Hv; unfold number_or_0 in Hd; by rewrite Hv in Hd].
        apply calm_metric; [|intros v; by apply reaches_false].
        apply calm_metric; [done|intros v; by apply reaches_false].
      - intros v Hv. destruct (Qlt_le_dec (inject_Z (write_latency_limit (Some node))) v) as [Hl|Hl]; [|by left].
        right. split; [done|]. destruct (latency_cleared node v Hw Hv Hl) as [? ?].
        split; [done|]. split; [by eapply Hscope|done]. }
    apply (calm_sampled (measurements node current)).
    apply (Hrow (add_if _ _ (add_if _ _ _))).
    rewrite Hm, Hi, Hr, Hab. cbn [add_if]. by apply calm_add_if. }
  destruct (node_triage node current) as [[critical warnings] unknown]. unfold calm in Hcalm. cbn in Hcalm.
  subst critical. destruct warnings, unknown; set_solver.
Qed.

(** Conversely a node shown as healthy is admitted: with a heartbeat of the
    last 15 seconds, a positive capacity, no deletion mark, an occupancy within
    the reported one and no block concluded by the worker itself, it passes the
    hard admission checks. *)
Theorem healthy_admitted (occupancy : string -> Z) (current : Z) (node : pydict)
    (reasons : list health_reason)
    (Hhealthy : node_health node current = (HEALTHY, reasons))
    (Hf : fresh (dict_get node "heartbeat") current 15 = true)
    (Hcap : (0 < number_or_0 (dict_get_or node "capacity" (PInt DEFAULT_NODE_CAPACITY)))%Q)
    (Hdel : truthy (dict_get node "deletedAt") = false)
    (Hocc : (inject_Z (occupancy (node_id node)) <= number_or_0 (dict_get node "activeTasks"))%Q)
    (Hadopt : adopted_admission node (write_latency_limit (Some node)) <> Some true) :
  hard_admission occupancy current node = true.
Proof.
  unfold node_health in Hhealthy.
  rewrite (proj1 (fresh_no_reason _ current 30)) in Hhealthy by (by eapply fresh_longer; [|exact Hf]).
  assert (Hclear : clear (node_triage node current)).
  { by destruct (node_triage node current) as [[[|] [|]] [|]]; cbn in Hhealthy. }
  clear Hhealthy. unfold node_triage in Hclear. cbn [foldl] in Hclear.
  apply add_if_clear in Hclear as [Hacc Hclear]; [|apply adds_warning].
  apply add_if_clear in Hclear as [Hroom Hclear]; [|apply adds_warning].
  apply (sampled_clear (measurements node current)) in Hclear as Hc. clear Hclear.
  apply triage_metric_clear in Hc as [Hc (lat & Hlat & Hlatv)].
  apply triage_metric_clear in Hc as [Hc (disk & Hdisk & Hdiskv)].
  apply triage_metric_clear in Hc as [Hc (mem & Hmem & Hmemv)].
  apply triage_metric_clear in Hc as [Hc (cpu & Hcpu & Hcpuv)].
  apply add_if_clear in Hc as [Hmis Hc]; [|apply adds_critical].
  apply add_if_clear in Hc as [Hiso Hc]; [|apply adds_critical].
  apply add_if_clear in Hc as [Hin Hc]; [|apply adds_critical].
  apply add_if_clear in Hc as [_ Hc]; [|apply adds_warning].
  apply add_if_clear in Hc as [Hab _]; [|apply adds_critical].
  unfold hard_admission. unfold number_or_0 in Hcap.
  destruct (number (dict_get_or node "capacity" _)) as [cap|] eqn:Ecap; [|by apply Qlt_irrefl in Hcap].
  cbn in Hcap.
  assert (Hw : write_latency_blocked node None = false).
  { apply (low_latency_open _ lat); [done|done|].
    pose proof (write_latency_limit_pos (Some node)). lra. }
  assert (Hp : resource_pressure node current = false).
  { unfold resource_pressure, reaches. cbn [existsb]. rewrite Hab, Hcpu, Hmem.
    rewrite (proj2 (Qle_bool_false 95 cpu)), (proj2 (Qle_bool_false 95 mem)) by lra. done. }
  apply negb_false_iff in Hacc.
  assert (Hacc' : truthy (dict_get node "accepting") = true).
  { unfold dict_get_or, dict_get in *. by destruct (dict_lookup node "accepting"). }
  rewrite Hf, Hdel, Hmis, Hiso, Hin, Hw, Hp, Hacc'. rewrite (proj2 (Qltb_lt _ _) Hcap).
  unfold number_or_0 at 1. rewrite Hdisk. change (default 0%Q (Some disk)) with disk.
  rewrite (proj2 (Qle_bool_false 90 disk)) by lra.
  pose proof (capacity_agrees _ _ Ecap Hcap) as Hk. cbn zeta in Hk, Hroom. rewrite Hk in Hroom. qreflect.
  rewrite (proj2 (Qle_bool_false cap _)) by lra. done.
Qed.
End health.

(** ** Witnesses: single-address networks, and two nodes *)

#[local] Instance text_ip : IpLib := {|
  ip_addr := string;
  ip_net := string;
  ip_address := as_str;
  ip_network := as_str;
  addr_version _ := 4;
  net_version _ := 4;
  in_network := String.eqb |}.

#[local] Instance no_iso : FromIso := fun _ => None.
#[local] Instance no_float : FloatOfStr := fun _ => None.

Definition sample_telemetry : pydict :=
  [("sampledAt", PTime (Aware 0)); ("cpuPercent", PInt 20); ("memoryPercent", PFloat (Fin (81 # 2)));
   ("networkUploadBytesPerSecond", PInt 100); ("networkDownloadBytesPerSecond", PInt 300)].

Definition sample_node (name : string) (general : bool) : pydict :=
  [("id", PStr name); ("isGeneralNode", PBool general); ("resourceNetworks", PList [PStr "10.0.0.1"]);
   ("heartbeat", PTime (Aware 0)); ("accepting", PBool true); ("capacity", PInt 10);
   ("activeTasks", PInt 3); ("diskPercent", PInt 50); ("writeLatencyMs", PInt 5);
   ("telemetry", PDict sample_telemetry)].

Definition sample_occupancy (i : string) : Z := if decide (i = "a") then 3 else 1.

Lemma sample_occupancy_nonneg i : 0 <= sample_occupancy i.
Proof. unfold sample_occupancy. case_decide; lia. Qed.

Lemma rank_nodes_exact_witness :
  let ranked := rank_nodes [sample_node "b" true; sample_node "a" false] sample_occupancy
                  (Some [("resourceIp", PStr "10.0.0.1")]) US_PER_SECOND in
  ranked.*2 = ["a"; "b"]
  /\ StronglySorted (fun a b => pair_leb Qle_bool str_leb a b = true) ranked.
Proof.
  cbn zeta. split; [vm_compute; reflexivity|].
  apply (rank_nodes_exact [sample_node "b" true; sample_node "a" false] sample_occupancy
           (Some [("resourceIp", PStr "10.0.0.1")]) US_PER_SECOND sample_occupancy_nonneg).
Defined.

Lemma dedicated_nodes_first_witness :
  exists cd cg,
    (cd, "a") ∈ rank_nodes [sample_node "b" true; sample_node "a" false] sample_occupancy
                  (Some [("resourceIp", PStr "10.0.0.1")]) US_PER_SECOND
    /\ (cg, "b") ∈ rank_nodes [sample_node "b" true; sample_node "a" false] sample_occupancy
                  (Some [("resourceIp", PStr "10.0.0.1")]) US_PER_SECOND /\ (cd < cg)%Q.
Proof.
  apply (dedicated_nodes_first [sample_node "b" true; sample_node "a" false] sample_occupancy
           [("resourceIp", PStr "10.0.0.1")] US_PER_SECOND (sample_node "a" false) (sample_node "b" true)
           sample_occupancy_nonneg).
  - right. left.
  - left.
  - vm_compute. reflexivity.
  - vm_compute. reflexivity.
  - reflexivity.
  - reflexivity.
Defined.

Lemma admitted_not_critical_witness :
  (node_health (sample_node "a" true) US_PER_SECOND).1 ∈ [HEALTHY; UNKNOWN; WARNING].
Proof.
  apply (admitted_not_critical sample_occupancy).
  - vm_compute. reflexivity.
  - intros v [= <-] Hlt. apply Qltb_lt in Hlt. vm_compute in Hlt. done.
Defined.

Lemma healthy_admitted_witness :
  hard_admission sample_occupancy US_PER_SECOND (sample_node "a" true) = true.
Proof.
  apply (healthy_admitted sample_occupancy US_PER_SECOND (sample_node "a" true) []).
  - vm_compute. reflexivity.
  - vm_compute. reflexivity.
  - apply Qltb_lt. vm_compute. reflexivity.
  - vm_compute. reflexivity.
  - apply Qle_bool_iff. vm_compute. reflexivity.
  - vm_compute. discriminate.
Defined.
