(* ===== verification/Mongo.v ===== *)
(** * The document store

    MongoDB is not code of the repository: [Mongo] lists the driver operations
    the program calls and [MongoLaws] what their documentation promises.  A
    filter is the predicate it denotes and an update the function it applies to
    the matched document.  [docs] enumerates a collection in insertion order;
    no operation promises which of several matching documents it takes.

    Every operation of the program is a computation on [database] that may
    raise; a transaction commits all of its writes or none. *)

From stdpp Require Import sets.
From S2P Require Import Prelude PyTime PyValue.

(** ** Documents *)

Fixpoint pyval_eq_dec (a b : pyval) : {a = b} + {a <> b}.
Proof.
  assert (Hf : forall x y : pyfloat, {x = y} + {x <> y}).
  { decide equality; try apply Bool.bool_dec. destruct q as [n d], q0 as [n' d'].
    destruct (Z.eq_dec n n') as [->|Hn]; [|right; congruence].
    destruct (Pos.eq_dec d d') as [->|Hd]; [by left|right; congruence]. }
  decide equality; first [apply Hf|apply Bool.bool_dec|apply Z.eq_dec|apply String.string_dec|apply datetime_eq_dec|idtac].
  - by apply List.list_eq_dec.
  - apply List.list_eq_dec. decide equality. apply String.string_dec.
Defined.

#[global] Instance pyval_eq_decision : EqDecision pyval := pyval_eq_dec.

(** `d.pop(key, None)`, `$unset`. *)
Definition dict_unset (d : pydict) (k : string) : pydict := filter (fun kv => kv.1 <> k) d.

(** `$set`, `dict.update`: one key after the other. *)
Definition set_all (changes d : pydict) : pydict := foldl (fun d kv => dict_set d kv.1 kv.2) d changes.
Definition unset_all (keys : list string) (d : pydict) : pydict := foldl dict_unset d keys.

(** `$inc` of an integer field. *)
Definition dict_inc (k : string) (n : Z) (d : pydict) : pydict :=
  dict_set d k (PInt (default 0 (as_int (dict_get d k)) + n)).

Lemma get_set_eq d k v : dict_get (dict_set d k v) k = v.
Proof. unfold dict_get. by rewrite dict_lookup_set, decide_True. Qed.

Lemma get_set_ne d k v k' : k' <> k -> dict_get (dict_set d k v) k' = dict_get d k'.
Proof. intros H. unfold dict_get. by rewrite dict_lookup_set, decide_False. Qed.

Lemma lookup_unset_ne d k k' : k' <> k -> dict_lookup (dict_unset d k) k' = dict_lookup d k'.
Proof.
  intros H. induction d as [|[k0 v0] d IH]; [done|]. unfold dict_unset in *. rewrite filter_cons. cbn.
  destruct (decide (k0 <> k)) as [Hk|Hk]; cbn; [by rewrite IH|].
  rewrite decide_False; [done|]. intros ->. apply Hk. congruence.
Qed.

Lemma get_unset_ne d k k' : k' <> k -> dict_get (dict_unset d k) k' = dict_get d k'.
Proof. intros H. unfold dict_get. by rewrite lookup_unset_ne. Qed.

Lemma lookup_unset_eq d k : dict_lookup (dict_unset d k) k = None.
Proof.
  induction d as [|[k0 v0] d IH]; [done|]. unfold dict_unset in *. rewrite filter_cons. cbn.
  destruct (decide (k0 <> k)) as [Hk|Hk]; cbn; [|done]. by rewrite decide_False.
Qed.

Lemma get_unset_eq d k : dict_get (dict_unset d k) k = PNone.
Proof. unfold dict_get. by rewrite lookup_unset_eq. Qed.

Lemma get_inc_ne k n d k' : k' <> k -> dict_get (dict_inc k n d) k' = dict_get d k'.
Proof. apply get_set_ne. Qed.

#[global] Arguments dict_set : simpl never.
#[global] Arguments dict_unset : simpl never.
#[global] Arguments dict_get : simpl never.
#[global] Arguments dict_inc : simpl never.

Notation "d '.[' k ']'" := (dict_get d k) (at level 1, left associativity, format "d .[ k ]") : camera_scope.
Open Scope camera_scope.

(** Fields of a document after updates of literal keys. *)
Ltac dget :=
  repeat first [rewrite get_set_eq | rewrite get_set_ne by discriminate | rewrite get_inc_ne by discriminate
               | rewrite get_unset_eq | rewrite get_unset_ne by discriminate].

Ltac dget_in H :=
  repeat first [rewrite get_set_eq in H | rewrite get_set_ne in H by discriminate
               | rewrite get_inc_ne in H by discriminate
               | rewrite get_unset_eq in H | rewrite get_unset_ne in H by discriminate].

(** ** Filter conditions *)

(** `{k: v}`: a null value also matches a missing field. *)
Definition fld (d : pydict) (k : string) (v : pyval) : bool := bool_decide (d.[k] = v).

(** `{k: {"$in": l}}`. *)
Definition fld_in (d : pydict) (k : string) (l : list pyval) : bool := existsb (fun v => fld d k v) l.

(** `{k: {"$exists": False}}`. *)
Definition absent (d : pydict) (k : string) : bool :=
  match dict_lookup d k with None => true | Some _ => false end.

(** Date comparisons, false on values of another type. *)
Definition time_lt (d : pydict) (k : string) (t : Z) : bool :=
  match d.[k] with PTime u => utc_instant u <? t | _ => false end.
Definition time_le (d : pydict) (k : string) (t : Z) : bool :=
  match d.[k] with PTime u => utc_instant u <=? t | _ => false end.
Definition time_ge (d : pydict) (k : string) (t : Z) : bool :=
  match d.[k] with PTime u => t <=? utc_instant u | _ => false end.
Definition time_gt (d : pydict) (k : string) (t : Z) : bool :=
  match d.[k] with PTime u => t <? utc_instant u | _ => false end.

(** `{k: {"$lt": n}}` on numbers. *)
Definition num_lt (d : pydict) (k : string) (n : Z) : bool :=
  match d.[k] with
  | PInt z => z <? n
  | PFloat f => float_lt f (float_of_Z n)
  | _ => false
  end.

Lemma fld_true d k v : fld d k v = true <-> d.[k] = v.
Proof. apply bool_decide_eq_true. Qed.

Lemma fld_false d k v : fld d k v = false <-> d.[k] <> v.
Proof. apply bool_decide_eq_false. Qed.

(** Filters in the context become facts about fields. *)
Ltac freflect :=
  repeat match goal with
  | H : (_ && _) = true |- _ => apply andb_prop in H as [? ?]
  | H : negb _ = true |- _ => apply negb_true_iff in H
  | H : negb _ = false |- _ => apply negb_false_iff in H
  | H : fld _ _ _ = true |- _ => apply fld_true in H
  | H : fld _ _ _ = false |- _ => apply fld_false in H
  end.

(** ** The driver *)

Class Mongo := {
  coll : Type;
  docs : coll -> list pydict;
  coll_find_one : (pydict -> bool) -> coll -> option pydict;
  coll_find : (pydict -> bool) -> coll -> list pydict;
  (** `find_one_and_update(..., return_document=AFTER)`. *)
  coll_update : (pydict -> bool) -> (pydict -> pydict) -> coll -> option (pydict * coll);
  (** The number of matched documents. *)
  coll_update_many : (pydict -> bool) -> (pydict -> pydict) -> coll -> Z * coll;
  (** [None] is `DuplicateKeyError`; [clash] is the unique indexes' relation. *)
  coll_insert : (pydict -> pydict -> bool) -> pydict -> coll -> option coll;
  coll_delete : (pydict -> bool) -> coll -> option coll;
  (** The number of deleted documents. *)
  coll_delete_many : (pydict -> bool) -> coll -> Z * coll }.

Definition no_match (q : pydict -> bool) (l : list pydict) : Prop := forall d, d ∈ l -> q d = false.

Definition apply_if (q : pydict -> bool) (f : pydict -> pydict) (d : pydict) : pydict := if q d then f d else d.

Class MongoLaws `{Mongo} := {
  find_one_law q c : match coll_find_one q c with
    | Some d => d ∈ docs c /\ q d = true
    | None => no_match q (docs c) end;
  find_law q c : coll_find q c ≡ₚ filter (fun d => q d = true) (docs c);
  update_law q f c : match coll_update q f c with
    | Some (d', c') => exists l d r, docs c = l ++ d :: r /\ q d = true /\ d' = f d /\ docs c' = l ++ f d :: r
    | None => no_match q (docs c) end;
  update_many_law q f c :
    docs (coll_update_many q f c).2 = map (apply_if q f) (docs c)
    /\ (coll_update_many q f c).1 = zlen (filter (fun d => q d = true) (docs c));
  insert_law clash d c : match coll_insert clash d c with
    | Some c' => no_match (clash d) (docs c) /\ docs c' = docs c ++ [d]
    | None => exists d', d' ∈ docs c /\ clash d d' = true end;
  delete_law q c : match coll_delete q c with
    | Some c' => exists l d r, docs c = l ++ d :: r /\ q d = true /\ docs c' = l ++ r
    | None => no_match q (docs c) end;
  delete_many_law q c :
    docs (coll_delete_many q c).2 = filter (fun d => q d = false) (docs c)
    /\ (coll_delete_many q c).1 = zlen (filter (fun d => q d = true) (docs c)) }.

(** ** The reference store *)

Fixpoint list_update (q : pydict -> bool) (f : pydict -> pydict) (l : list pydict) : option (pydict * list pydict) :=
  match l with
  | [] => None
  | d :: l => if q d then Some (f d, f d :: l)
              else match list_update q f l with Some (d', l') => Some (d', d :: l') | None => None end
  end.

Fixpoint list_delete (q : pydict -> bool) (l : list pydict) : option (list pydict) :=
  match l with
  | [] => None
  | d :: l => if q d then Some l else match list_delete q l with Some l' => Some (d :: l') | None => None end
  end.

Definition list_mongo : Mongo := {|
  coll := list pydict;
  docs c := c;
  coll_find_one q c := List.find q c;
  coll_find q c := filter (fun d => q d = true) c;
  coll_update := list_update;
  coll_update_many q f c := (zlen (filter (fun d => q d = true) c), map (apply_if q f) c);
  coll_insert clash d c := if existsb (clash d) c then None else Some (c ++ [d]);
  coll_delete := list_delete;
  coll_delete_many q c := (zlen (filter (fun d => q d = true) c), filter (fun d => q d = false) c) |}.

Lemma list_mongo_laws : @MongoLaws list_mongo.
Proof.
  split; cbn.
  - intros q c. destruct (List.find q c) as [d|] eqn:E.
    + apply List.find_some in E as [? ?]. split; [by apply list_elem_of_In|done].
    + intros d Hd. apply (List.find_none _ _ E). by apply list_elem_of_In.
  - done.
  - intros q f c. induction c as [|d c IH]; cbn; [by intros d ?%elem_of_nil|].
    destruct (q d) eqn:E; [by exists [], d, c|].
    destruct (list_update q f c) as [[d' c']|].
    + destruct IH as (l & x & r & -> & Hq & -> & ->). by exists (d :: l), x, r.
    + intros x [->|Hx]%elem_of_cons; auto.
  - done.
  - intros clash d c. destruct (existsb (clash d) c) eqn:E.
    + apply existsb_exists in E as (x & Hx & Hc). exists x. split; [by apply list_elem_of_In|done].
    + split; [|done]. intros x Hx. destruct (clash d x) eqn:Ec; [|done]. exfalso.
      enough (existsb (clash d) c = true) by congruence. apply existsb_exists. exists x.
      split; [by apply list_elem_of_In|done].
  - intros q c. induction c as [|d c IH]; cbn; [by intros d ?%elem_of_nil|].
    destruct (q d) eqn:E; [by exists [], d, c|].
    destruct (list_delete q c) as [c'|].
    + destruct IH as (l & x & r & -> & Hq & ->). by exists (d :: l), x, r.
    + intros x [->|Hx]%elem_of_cons; auto.
  - done.
Qed.

(** ** The database and its computations *)

Inductive cname : Type :=
  | Tasks | Nodes | NodeConfigs | Leaders | Resources | EndpointLocks | Runs | Operations | Commands
  | CommonCommands | Budgets | Events | Audit | Users | Idempotency | SshSlots | PlatformSettings
  | Jobs | Files | Templates | CoredumpExports | ResourceAddresses | AuthRecords | AuthHeads | CoredumpFiles
  | DownloadSessions | UserSessions | Tokens | SnapshotClaims | SnapshotReservations
  | CoredumpExportReservations | CoredumpExportClaims | IpPolicy | MetricHours
  | RecordMaintenance | RunArchives | PurgeDays | AuditChunks
  | LoginLimits.

#[global] Instance cname_eq_dec : EqDecision cname.
Proof. solve_decision. Defined.

(** `HTTPException(status, detail)` and the other exceptions of the program and
    of the driver. *)
Inductive exn : Type :=
  | Http (status : Z) (detail : string)
  | PyMongoError
  | DuplicateKeyError
  | ValueError (detail : string)
  | RuntimeError (detail : string)
  | Rejected                          (* `_ReservationRejected`, `_ClaimRejected` *)
  | SchedulerLeaseLost
  | ReservationUncertain (execution_id : string)
  | ManualClaimUncertain
  | SshCapacityError
  | SshSlotUncertain (token : string)
  | TypeError | OSError
  | OverflowError (detail : string)
  | FileNotFoundError
  | CancelledError
  | KeyError (key : string).

#[global] Instance exn_eq_dec : EqDecision exn.
Proof. solve_decision. Defined.

Section database.
Context `{Mongo}.

Definition database : Type := cname -> coll.

Abbreviation dbm := (stm database exn).

Definition replace (c : cname) (x : coll) (db : database) : database :=
  fun c' => if decide (c' = c) then x else db c'.

(** The documents of a collection. *)
Definition content (db : database) (c : cname) : list pydict := docs (db c).

(** The unique indexes of `Repository.initialize`: the first of each collection. *)
Definition unique_keys (c : cname) : list string :=
  match c with
  | EndpointLocks => ["taskId"]
  | Idempotency => ["actor"; "key"]
  | Leaders | Budgets | SshSlots | ResourceAddresses | AuthHeads | LoginLimits
  | RecordMaintenance | PurgeDays | AuditChunks => ["_id"]
  | RunArchives => ["runId"]
  | DownloadSessions | UserSessions => ["tokenHash"]
  | Events | Audit => []
  | _ => ["id"]
  end.

(** Six collections have a second unique index.  The authentication records set both
    `_id` and `id`; a token is also unique by its hash; a template by its author and
    name; a common command by its text; an audit chunk by its day and part; a user name
    is unique among the users that are not deleted. *)
Definition clash (c : cname) (d d' : pydict) : bool :=
  match c with
  | AuthRecords => fld d' "id" d.["id"] || fld d' "_id" d.["_id"]
  | Tokens => fld d' "id" d.["id"] || fld d' "tokenHash" d.["tokenHash"]
  | Templates => fld d' "id" d.["id"] || (fld d' "createdBy" d.["createdBy"] && fld d' "name" d.["name"])
  | CommonCommands => fld d' "id" d.["id"] || fld d' "command" d.["command"]
  | AuditChunks => fld d' "_id" d.["_id"] || (fld d' "day" d.["day"] && fld d' "part" d.["part"])
  | Users => fld d' "id" d.["id"]
             || (fld d "deletedAt" PNone && fld d' "deletedAt" PNone && fld d' "username" d.["username"])
  | _ => match unique_keys c with
         | [] => false
         | keys => forallb (fun k => fld d' k d.[k]) keys
         end
  end.

Lemma clash_id c d d' : unique_keys c = ["id"] -> clash c d d' = false -> fld d' "id" d.["id"] = false.
Proof.
  intros E. destruct c; try discriminate; unfold clash; cbn; rewrite ?andb_true_r; try done; by intros [? _]%orb_false_iff.
Qed.

Definition find_one (c : cname) (q : pydict -> bool) : dbm (option pydict) := fun db =>
  (Ok (coll_find_one q (db c)), db).

Definition find_all (c : cname) (q : pydict -> bool) : dbm (list pydict) := fun db =>
  (Ok (coll_find q (db c)), db).

Definition count_documents (c : cname) (q : pydict -> bool) : dbm Z :=
  let! l := find_all c q in st_ret (zlen l).

Definition find_one_and_update (c : cname) (q : pydict -> bool) (f : pydict -> pydict) : dbm (option pydict) := fun db =>
  match coll_update q f (db c) with
  | Some (d, x) => (Ok (Some d), replace c x db)
  | None => (Ok None, db)
  end.

(** `find_one_and_update` without `return_document`: the document before the
    update. *)
Definition find_one_and_update_before (c : cname) (q : pydict -> bool) (f : pydict -> pydict) : dbm (option pydict) :=
  let! found := find_one c q in
  match found with
  | None => st_ret None
  | Some d => let! _ := find_one_and_update c (fun d' => q d' && bool_decide (d' = d)) f in st_ret (Some d)
  end.

(** `matched_count` as a boolean. *)
Definition update_one (c : cname) (q : pydict -> bool) (f : pydict -> pydict) : dbm bool :=
  let! d := find_one_and_update c q f in st_ret (match d with Some _ => true | None => false end).

Definition update_many (c : cname) (q : pydict -> bool) (f : pydict -> pydict) : dbm Z := fun db =>
  let '(n, x) := coll_update_many q f (db c) in (Ok n, replace c x db).

Definition insert_one (c : cname) (d : pydict) : dbm unit := fun db =>
  match coll_insert (clash c) d (db c) with
  | Some x => (Ok tt, replace c x db)
  | None => (Raise DuplicateKeyError, db)
  end.

Definition delete_one (c : cname) (q : pydict -> bool) : dbm bool := fun db =>
  match coll_delete q (db c) with
  | Some x => (Ok true, replace c x db)
  | None => (Ok false, db)
  end.

Definition delete_many (c : cname) (q : pydict -> bool) : dbm Z := fun db =>
  let '(n, x) := coll_delete_many q (db c) in (Ok n, replace c x db).

(** `find_one_and_delete`: the document as it was. *)
Definition find_one_and_delete (c : cname) (q : pydict -> bool) : dbm (option pydict) :=
  let! found := find_one c q in
  match found with
  | None => st_ret None
  | Some d => let! _ := delete_one c (fun d' => q d' && bool_decide (d' = d)) in st_ret (Some d)
  end.

(** `update_one(q, ..., upsert=True)`; [fresh] is the inserted document. *)
Definition upsert_one (c : cname) (q : pydict -> bool) (f : pydict -> pydict) (fresh : pydict) : dbm unit :=
  let! matched := update_one c q f in
  if matched then st_ret tt else insert_one c fresh.

(** `find_one_and_update(..., upsert=True, return_document=AFTER)` *)
Definition find_one_and_upsert (c : cname) (q : pydict -> bool) (f : pydict -> pydict) (key : pydict) : dbm pydict :=
  let! found := find_one_and_update c q f in
  match found with
  | Some d => st_ret d
  | None => let! _ := insert_one c (f key) in st_ret (f key)
  end.

(** `update_one(...).modified_count`: zero also when nothing changes. *)
Definition update_modified (c : cname) (q : pydict -> bool) (f : pydict -> pydict) : dbm bool :=
  let! before := find_one_and_update_before c q f in
  st_ret match before with Some d => negb (bool_decide (f d = d)) | None => false end.

(** How the driver's transaction ends: committed, or an error that leaves it
    unknown whether the commit was applied. *)
Inductive fate : Type := Committed | Uncertain (applied : bool).

(** `session.with_transaction(callback)`. *)
Definition transaction {A} (f : fate) (callback : dbm A) : dbm A := fun db =>
  match callback db with
  | (Raise e, _) => (Raise e, db)
  | (Ok a, db') =>
      match f with
      | Committed => (Ok a, db')
      | Uncertain applied => (Raise PyMongoError, if applied then db' else db)
      end
  end.

(** `try: ... except ...`: [None] lets the exception through. *)
Definition st_catch {A} (m : dbm A) (handler : exn -> option (dbm A)) : dbm A := fun db =>
  match m db with
  | (Ok a, db') => (Ok a, db')
  | (Raise e, db') => match handler e with Some k => k db' | None => (Raise e, db') end
  end.

(** `except PyMongoError`: a duplicate key is one. *)
Definition is_pymongo (e : exn) : bool :=
  match e with PyMongoError | DuplicateKeyError => true | _ => false end.

(** `raise` under a condition. *)
Definition raise_if (b : bool) (e : exn) : dbm unit := if b then st_raise e else st_ret tt.

(** ** Reasoning *)

Definition wp {A} (m : dbm A) (Q : result exn A -> database -> Prop) (db : database) : Prop :=
  let '(r, db') := m db in Q r db'.

(** Continue on success; an exception goes to the postcondition. *)
Definition on_ok {A B} (k : A -> dbm B) (Q : result exn B -> database -> Prop) (r : result exn A) (db : database) : Prop :=
  match r with Ok a => wp (k a) Q db | Raise e => Q (Raise e) db end.

Lemma wp_bind {A B} (m : dbm A) (k : A -> dbm B) Q db : wp m (on_ok k Q) db -> wp (st_bind m k) Q db.
Proof. unfold wp, st_bind, on_ok. destruct (m db) as [[a|e] db']; auto. Qed.

Lemma wp_ret {A} (a : A) (Q : result exn A -> database -> Prop) db : Q (Ok a) db -> wp (st_ret a) Q db.
Proof. done. Qed.

Lemma wp_raise {A} e (Q : result exn A -> database -> Prop) db : Q (Raise e) db -> wp (st_raise e) Q db.
Proof. done. Qed.

Lemma wp_raise_if b e (Q : result exn unit -> database -> Prop) db :
  (b = true -> Q (Raise e) db) -> (b = false -> Q (Ok tt) db) -> wp (raise_if b e) Q db.
Proof. intros H1 H2. destruct b; [by apply H1|by apply H2]. Qed.

Lemma wp_mono {A} (m : dbm A) (Q Q' : result exn A -> database -> Prop) db :
  wp m Q db -> (forall r db', Q r db' -> Q' r db') -> wp m Q' db.
Proof. unfold wp. destruct (m db). auto. Qed.

Lemma wp_catch {A} (m : dbm A) h (Q : result exn A -> database -> Prop) db :
  wp m (fun r db' => match r with
    | Ok a => Q (Ok a) db'
    | Raise e => match h e with Some k => wp k Q db' | None => Q (Raise e) db' end end) db ->
  wp (st_catch m h) Q db.
Proof. unfold wp, st_catch. destruct (m db) as [[a|e] db']; [done|]. by destruct (h e). Qed.

Lemma content_replace_eq c x db : content (replace c x db) c = docs x.
Proof. unfold content, replace. by rewrite decide_True. Qed.

Lemma content_replace_ne c x db c' : c' <> c -> content (replace c x db) c' = content db c'.
Proof. intros. unfold content, replace. by rewrite decide_False. Qed.

(** Only the collections of [cs] may differ. *)
Definition frame (cs : list cname) (db db' : database) : Prop :=
  forall c, c ∉ cs -> content db' c = content db c.

Lemma frame_refl cs db : frame cs db db.
Proof. done. Qed.

Lemma frame_trans cs1 cs2 db1 db2 db3 : frame cs1 db1 db2 -> frame cs2 db2 db3 -> frame (cs1 ++ cs2) db1 db3.
Proof. intros H1 H2 c Hc. rewrite H2, H1; [done|set_solver|set_solver]. Qed.

Lemma frame_weaken cs cs' db db' : frame cs db db' -> cs ⊆ cs' -> frame cs' db db'.
Proof. intros H1 Hs c Hc. apply H1. set_solver. Qed.

Lemma frame_one c db db' : (forall c', c' <> c -> content db' c' = content db c') -> frame [c] db db'.
Proof. intros H1 c' Hc. apply H1. intros ->. apply Hc. by left. Qed.

Context `{!MongoLaws}.

Lemma wp_find_one c q (Q : result exn (option pydict) -> database -> Prop) db :
  (forall d, d ∈ content db c -> q d = true -> Q (Ok (Some d)) db) ->
  (no_match q (content db c) -> Q (Ok None) db) -> wp (find_one c q) Q db.
Proof.
  intros H1 H2. unfold wp, find_one. pose proof (find_one_law q (db c)) as L.
  destruct (coll_find_one q (db c)); [destruct L; auto|auto].
Qed.

Lemma wp_find_all c q (Q : result exn (list pydict) -> database -> Prop) db :
  (forall l, l ≡ₚ filter (fun d => q d = true) (content db c) -> Q (Ok l) db) -> wp (find_all c q) Q db.
Proof. intros H1. apply H1, find_law. Qed.

(** A document [d] of [c] becomes [f d]; nothing else changes. *)
Definition updated (c : cname) (q : pydict -> bool) (f : pydict -> pydict) (d : pydict) (db db' : database) : Prop :=
  q d = true /\ (exists l r, content db c = l ++ d :: r /\ content db' c = l ++ f d :: r)
  /\ forall c', c' <> c -> content db' c' = content db c'.

Lemma wp_update c q f (Q : result exn (option pydict) -> database -> Prop) db :
  (forall d db', updated c q f d db db' -> Q (Ok (Some (f d))) db') ->
  (no_match q (content db c) -> Q (Ok None) db) -> wp (find_one_and_update c q f) Q db.
Proof.
  intros H1 H2. unfold wp, find_one_and_update. pose proof (update_law q f (db c)) as L.
  destruct (coll_update q f (db c)) as [[d x]|]; [|auto].
  destruct L as (l & d0 & r & Hl & Hq & -> & Hx). apply (H1 d0). split; [done|]. split.
  - exists l, r. split; [done|]. by rewrite content_replace_eq.
  - intros c' Hc. by apply content_replace_ne.
Qed.

Lemma wp_update_before c q f (Q : result exn (option pydict) -> database -> Prop) db :
  (forall d db', updated c q f d db db' -> Q (Ok (Some d)) db') ->
  (no_match q (content db c) -> Q (Ok None) db) -> wp (find_one_and_update_before c q f) Q db.
Proof.
  intros H1 H2. apply wp_bind, wp_find_one; cbn [on_ok]; [|done]. intros d Hin Hq. apply wp_bind, wp_update; cbn [on_ok].
  - intros d' db' (Hq' & Hrest). apply andb_prop in Hq' as [_ ->%bool_decide_eq_true_1]. by apply wp_ret, H1.
  - intros Hno. specialize (Hno d Hin). cbn in Hno. rewrite Hq, bool_decide_eq_true_2 in Hno by done. done.
Qed.

Lemma wp_update_one c q f (Q : result exn bool -> database -> Prop) db :
  (forall d db', updated c q f d db db' -> Q (Ok true) db') ->
  (no_match q (content db c) -> Q (Ok false) db) -> wp (update_one c q f) Q db.
Proof. intros H1 H2. apply wp_bind, wp_update; cbn; eauto. Qed.

Lemma wp_update_many c q f (Q : result exn Z -> database -> Prop) db :
  (forall db', content db' c = map (apply_if q f) (content db c) ->
     (forall c', c' <> c -> content db' c' = content db c') ->
     Q (Ok (zlen (filter (fun d => q d = true) (content db c)))) db') ->
  wp (update_many c q f) Q db.
Proof.
  intros H1. unfold wp, update_many. destruct (update_many_law q f (db c)) as [L1 L2].
  destruct (coll_update_many q f (db c)) as [n x]. cbn in *. subst n. apply H1.
  - by rewrite content_replace_eq.
  - intros c' Hc. by apply content_replace_ne.
Qed.

Lemma wp_insert c d (Q : result exn unit -> database -> Prop) db :
  (forall db', no_match (clash c d) (content db c) -> content db' c = content db c ++ [d] ->
     (forall c', c' <> c -> content db' c' = content db c') -> Q (Ok tt) db') ->
  (forall d', d' ∈ content db c -> clash c d d' = true -> Q (Raise DuplicateKeyError) db) ->
  wp (insert_one c d) Q db.
Proof.
  intros H1 H2. unfold wp, insert_one. pose proof (insert_law (clash c) d (db c)) as L.
  destruct (coll_insert (clash c) d (db c)) as [x|].
  - destruct L as [L1 L2]. apply H1; [done|by rewrite content_replace_eq|].
    intros c' Hc. by apply content_replace_ne.
  - destruct L as (d' & ? & ?). by apply (H2 d').
Qed.

Lemma wp_delete c q (Q : result exn bool -> database -> Prop) db :
  (forall l d r db', q d = true -> content db c = l ++ d :: r -> content db' c = l ++ r ->
     (forall c', c' <> c -> content db' c' = content db c') -> Q (Ok true) db') ->
  (no_match q (content db c) -> Q (Ok false) db) -> wp (delete_one c q) Q db.
Proof.
  intros H1 H2. unfold wp, delete_one. pose proof (delete_law q (db c)) as L.
  destruct (coll_delete q (db c)) as [x|]; [|auto]. destruct L as (l & d & r & Hl & Hq & Hx).
  apply (H1 l d r); [done|done|by rewrite content_replace_eq|].
  intros c' Hc. by apply content_replace_ne.
Qed.

Lemma wp_find_and_delete c q (Q : result exn (option pydict) -> database -> Prop) db :
  (forall l d r db', q d = true -> content db c = l ++ d :: r -> content db' c = l ++ r ->
     (forall c', c' <> c -> content db' c' = content db c') -> Q (Ok (Some d)) db') ->
  (no_match q (content db c) -> Q (Ok None) db) -> wp (find_one_and_delete c q) Q db.
Proof.
  intros H1 H2. apply wp_bind, wp_find_one; cbn [on_ok]; [|done]. intros d Hin Hq. apply wp_bind, wp_delete; cbn [on_ok].
  - intros l d' r db' (Hq' & ->%bool_decide_eq_true_1)%andb_prop. intros. by eapply wp_ret, H1.
  - intros Hno. specialize (Hno d Hin). cbn in Hno. rewrite Hq, bool_decide_eq_true_2 in Hno by done. done.
Qed.

Lemma wp_delete_many c q (Q : result exn Z -> database -> Prop) db :
  (forall db', content db' c = filter (fun d => q d = false) (content db c) ->
     (forall c', c' <> c -> content db' c' = content db c') ->
     Q (Ok (zlen (filter (fun d => q d = true) (content db c)))) db') ->
  wp (delete_many c q) Q db.
Proof.
  intros H1. unfold wp, delete_many. destruct (delete_many_law q (db c)) as [L1 L2].
  destruct (coll_delete_many q (db c)) as [n x]. cbn in *. subst n. apply H1.
  - by rewrite content_replace_eq.
  - intros c' Hc. by apply content_replace_ne.
Qed.

(** A transaction changes nothing unless its callback returns. *)
Lemma wp_transaction {A} f (m : dbm A) (Q : result exn A -> database -> Prop) db :
  wp m (fun r db' => match r with
    | Ok a => match f with Committed => Q (Ok a) db' | Uncertain b => Q (Raise PyMongoError) (if b then db' else db) end
    | Raise e => Q (Raise e) db end) db -> wp (transaction f m) Q db.
Proof. unfold wp, transaction. destruct (m db) as [[a|e] db']; [|done]. by destruct f. Qed.

Lemma wp_upsert c q f fresh (Q : result exn unit -> database -> Prop) db :
  (forall d db', updated c q f d db db' -> Q (Ok tt) db') ->
  (forall db', no_match q (content db c) -> no_match (clash c fresh) (content db c) -> content db' c = content db c ++ [fresh] ->
     (forall c', c' <> c -> content db' c' = content db c') -> Q (Ok tt) db') ->
  (forall d', no_match q (content db c) -> d' ∈ content db c -> clash c fresh d' = true -> Q (Raise DuplicateKeyError) db) ->
  wp (upsert_one c q f fresh) Q db.
Proof.
  intros H1 H2 H3. apply wp_bind, wp_update_one; cbn [on_ok]; [intros d db' Hu; by eapply wp_ret, H1|].
  intros Hno. apply wp_insert; eauto.
Qed.

(** ** The collections a computation writes *)

Definition touches {A} (cs : list cname) (m : dbm A) : Prop := forall db, wp m (fun _ db' => frame cs db db') db.

Lemma touches_ret {A} cs (a : A) : touches cs (st_ret a).
Proof. by intros db. Qed.

Lemma touches_raise {A} cs e : touches (A := A) cs (st_raise e).
Proof. by intros db. Qed.

Lemma touches_raise_if cs b e : touches cs (raise_if b e).
Proof. by destruct b. Qed.

Lemma frame_join cs db1 db2 db3 : frame cs db1 db2 -> frame cs db2 db3 -> frame cs db1 db3.
Proof. intros H1 H2 c Hc. by rewrite H2, H1. Qed.

Lemma touches_bind {A B} cs (m : dbm A) (k : A -> dbm B) : touches cs m -> (forall a, touches cs (k a)) -> touches cs (st_bind m k).
Proof.
  intros Hm Hk db. apply wp_bind. eapply wp_mono; [apply Hm|]. intros [a|e] db1 Hf; cbn [on_ok]; [|done].
  eapply wp_mono; [apply Hk|]. intros r db2 Hf2. by eapply frame_join.
Qed.

Lemma touches_find_one cs c q : touches cs (find_one c q).
Proof. intros db. by apply wp_find_one. Qed.

Lemma touches_find_all cs c q : touches cs (find_all c q).
Proof. intros db. by apply wp_find_all. Qed.

Lemma frame_in cs c db db' : c ∈ cs -> (forall c', c' <> c -> content db' c' = content db c') -> frame cs db db'.
Proof. intros Hc Ho c' Hc'. apply Ho. by intros ->. Qed.

Lemma touches_update cs c q f : c ∈ cs -> touches cs (find_one_and_update c q f).
Proof. intros Hc db. apply wp_update; [|done]. intros d db' (_ & _ & Ho). by eapply frame_in. Qed.

Lemma touches_update_one cs c q f : c ∈ cs -> touches cs (update_one c q f).
Proof. intros Hc. apply touches_bind; [by apply touches_update|]. intros. apply touches_ret. Qed.

Lemma touches_insert cs c d : c ∈ cs -> touches cs (insert_one c d).
Proof. intros Hc db. apply wp_insert; [|done]. intros db' _ _ Ho. by eapply frame_in. Qed.

Lemma touches_upsert cs c q f fresh : c ∈ cs -> touches cs (upsert_one c q f fresh).
Proof.
  intros Hc. apply touches_bind; [by apply touches_update_one|]. intros []; [apply touches_ret|by apply touches_insert].
Qed.

Lemma touches_delete cs c q : c ∈ cs -> touches cs (delete_one c q).
Proof. intros Hc db. apply wp_delete; [|done]. intros l d r db' _ _ _ Ho. by eapply frame_in. Qed.

Lemma touches_delete_many cs c q : c ∈ cs -> touches cs (delete_many c q).
Proof. intros Hc db. apply wp_delete_many. intros db' _ Ho. by eapply frame_in. Qed.

Lemma touches_transaction {A} cs (m : dbm A) f : touches cs m -> touches cs (transaction f m).
Proof.
  intros Hm db. apply wp_transaction. eapply wp_mono; [apply Hm|]. intros [a|e] db' Hf; [|done]. by destruct f as [|[]].
Qed.

Lemma touches_catch {A} cs (m : dbm A) h : touches cs m -> (forall e k, h e = Some k -> touches cs k) -> touches cs (st_catch m h).
Proof.
  intros Hm Hh db. apply wp_catch. eapply wp_mono; [apply Hm|]. intros [a|e] db1 Hf; [done|].
  destruct (h e) as [k|] eqn:E; [|done]. eapply wp_mono; [apply (Hh e k E)|]. intros r db2 Hf2. by eapply frame_join.
Qed.
End database.

(** One step of a proof that a computation writes only some collections. *)
Ltac touch_step :=
  lazymatch goal with
  | |- touches _ (st_bind _ _) => apply touches_bind; [|intros ?]
  | |- touches _ (st_ret _) => apply touches_ret
  | |- touches _ (st_raise _) => apply touches_raise
  | |- touches _ (raise_if _ _) => apply touches_raise_if
  | |- touches _ (find_one _ _) => apply touches_find_one
  | |- touches _ (find_all _ _) => apply touches_find_all
  | |- touches _ (find_one_and_update _ _ _) => apply touches_update; by apply (bool_decide_unpack _)
  | |- touches _ (update_one _ _ _) => apply touches_update_one; by apply (bool_decide_unpack _)
  | |- touches _ (upsert_one _ _ _ _) => apply touches_upsert; by apply (bool_decide_unpack _)
  | |- touches _ (insert_one _ _) => apply touches_insert; by apply (bool_decide_unpack _)
  | |- touches _ (delete_one _ _) => apply touches_delete; by apply (bool_decide_unpack _)
  | |- touches _ (delete_many _ _) => apply touches_delete_many; by apply (bool_decide_unpack _)
  | |- touches _ (transaction _ _) => apply touches_transaction
  | |- touches _ (if ?b then _ else _) => destruct b
  | |- touches _ (match ?x with _ => _ end) => destruct x
  | |- touches _ (let '_ := ?x in _) => destruct x
  end.

#[global] Arguments database {_}.
Abbreviation dbm := (stm database exn).

(** Membership in a list with one element in the middle. *)
Lemma elem_of_middle {A} (l r : list A) x : x ∈ l ++ x :: r.
Proof. apply elem_of_app. right. by left. Qed.

Lemma elem_of_snoc {A} (l : list A) x y : x ∈ l ++ [y] <-> x ∈ l \/ x = y.
Proof. by rewrite elem_of_app, list_elem_of_singleton. Qed.

(** A key that is unique in a list identifies its element. *)
Lemma NoDup_map_eq {A B} (f : A -> B) (l : list A) x y : NoDup (map f l) -> x ∈ l -> y ∈ l -> f x = f y -> x = y.
Proof.
  induction l as [|z l IH]; cbn; [by intros _ ?%elem_of_nil|]. intros [Hn Hnd]%NoDup_cons.
  assert (Hno : forall w, w ∈ l -> f w <> f z) by (intros w Hw E; apply Hn; rewrite <- E; by apply list_elem_of_fmap_2).
  intros [->|Hx]%elem_of_cons [->|Hy]%elem_of_cons E; [done| | |by apply IH].
  - by destruct (Hno y Hy).
  - by destruct (Hno x Hx).
Qed.

(** A doubled key would occur twice. *)
Lemma unique_middle (g : pydict -> pyval) l d r x : NoDup (map g (l ++ d :: r)) -> x ∈ l ++ r -> g x <> g d.
Proof.
  intros Hn Hx E. rewrite <- Permutation_middle in Hn. cbn in Hn. apply NoDup_cons in Hn as [Hd _]. apply Hd.
  rewrite <- E. by apply list_elem_of_fmap_2.
Qed.

(** One step of a computation: the branches of the next operation. *)
Ltac wp_step :=
  lazymatch goal with
  | |- wp (st_bind _ _) _ _ => apply wp_bind
  | |- wp (st_ret _) _ _ => apply wp_ret
  | |- wp (st_raise _) _ _ => apply wp_raise
  | |- wp (raise_if _ _) _ _ => apply wp_raise_if; intros ?
  | |- wp (if ?b then _ else _) _ _ => destruct b eqn:?
  | |- on_ok _ _ _ _ => unfold on_ok; cbv beta iota
  end.
