(* ===== verification/SnapshotQuota.v ===== *)
(** * The quota of core dump snapshots ([coredumps/snapshots.py])

    One document per node counts the bytes reserved for frozen copies and lists
    the tokens that hold them; one document per token is its claim.  Reservations
    and releases are transactions whose commit may end unknown.  The ledger of
    [entry]s is the specification: what each node has reserved, by token. *)

From stdpp Require Import sets.
From S2P Require Import Prelude PyTime PyValue Mongo.
Open Scope camera_scope.

Definition RESERVATION_LEASE_SECONDS : Z := 900.
Definition RESERVED := PStr "RESERVED".
Definition PUBLISHED := PStr "PUBLISHED".
Definition RELEASED := PStr "RELEASED".
Definition RECLAIMING := PStr "RECLAIMING".

(** `{k: {"$lte": n}}` and `{k: {"$gte": n}}` on integers. *)
Definition int_le (d : pydict) (k : string) (n : Z) : bool := match d.[k] with PInt z => z <=? n | _ => false end.
Definition int_ge (d : pydict) (k : string) (n : Z) : bool := match d.[k] with PInt z => n <=? z | _ => false end.

Definition tokens (d : pydict) : list pyval := match d.["activeTokens"] with PList l => l | _ => [] end.
Definition has_token (token : string) (d : pydict) : bool := bool_decide (PStr token ∈ tokens d).

(** `$addToSet` and `$pull` of a token. *)
Definition add_token (token : string) (d : pydict) : pydict :=
  dict_set d "activeTokens" (PList (if has_token token d then tokens d else tokens d ++ [PStr token])).
Definition pull_token (token : string) (d : pydict) : pydict :=
  dict_set d "activeTokens" (PList (filter (fun v => v <> PStr token) (tokens d))).

Section quota.
Context `{Mongo}.

(** The settings of a node: its name and its quota. *)
Variable quota : string -> Z.

Definition claim_fields (n token file_id : string) (version : pyval) (size stamp : Z) : pydict :=
  [("nodeId", PStr n); ("fileId", PStr file_id); ("version", version); ("bytes", PInt size); ("state", RESERVED);
   ("expiresAt", PTime (Aware (stamp + RESERVATION_LEASE_SECONDS * US_PER_SECOND))); ("updatedAt", PTime (Aware stamp))].

(** The document of the node, made when it is missing, takes the bytes if they fit. *)
Definition count_bytes (n token : string) (size stamp : Z) : dbm bool :=
  let! _ := upsert_one SnapshotReservations (fun d => fld d "id" (PStr n)) (fun d => d)
    [("id", PStr n); ("used", PInt 0); ("activeTokens", PList []); ("updatedAt", PTime (Aware stamp))] in
  update_one SnapshotReservations
    (fun d => fld d "id" (PStr n) && int_le d "used" (quota n - size) && negb (has_token token d))
    (fun d => set_all [("updatedAt", PTime (Aware stamp))] (add_token token (dict_inc "used" size d))).

Definition record_claim (n token file_id : string) (version : pyval) (size stamp : Z) : dbm unit :=
  upsert_one SnapshotClaims (fun d => fld d "id" (PStr token)) (set_all (claim_fields n token file_id version size stamp))
    (("id", PStr token) :: claim_fields n token file_id version size stamp ++ [("createdAt", PTime (Aware stamp))]).

(** The callback of [_reserve]. *)
Definition reserve_commit (n token file_id : string) (version : pyval) (size stamp : Z) : dbm bool :=
  let! existing := find_one SnapshotClaims (fun d => fld d "id" (PStr token)) in
  if match existing with Some c => fld_in c "state" [RESERVED; PUBLISHED] | None => false end then st_ret true
  else
    let! reserved := count_bytes n token size stamp in
    if negb reserved then st_ret false
    else let! _ := record_claim n token file_id version size stamp in st_ret true.

(** After an exception: is the reservation recorded? *)
Definition reservation_recorded (n token : string) : dbm bool :=
  let! claim := find_one SnapshotClaims (fun d => fld d "id" (PStr token) && fld d "nodeId" (PStr n)) in
  let! aggregate := find_one SnapshotReservations (fun d => fld d "id" (PStr n)) in
  st_ret (match claim with Some c => fld_in c "state" [RESERVED; PUBLISHED] | None => false end
          && match aggregate with Some d => has_token token d | None => false end).

(** `except Exception`: [recorded] decides whether the commit counts; [readable] is
    whether the reads work. *)
Definition confirm (readable : bool) (recorded : dbm bool) (m : dbm bool) : dbm bool := fun db =>
  match m db with
  | (Raise e, db') =>
      if readable
      then (let! ok := recorded in if ok then st_ret true else st_raise e) db'
      else (Raise PyMongoError, db')
  | r => r
  end.

(** [_reserve]. *)
Definition _reserve (n token file_id : string) (version : pyval) (size stamp : Z) (f : fate) (readable : bool) : dbm unit :=
  let! _ := raise_if (size <=? 0) (ValueError "零字节 coredump 不创建快照配额声明") in
  let! confirmed := confirm readable (reservation_recorded n token) (transaction f (reserve_commit n token file_id version size stamp)) in
  raise_if (negb confirmed) (OverflowError "节点 coredump 快照配额不足").

(** `int(claim.get("bytes", 0))`. *)
Definition bytes_of (c : pydict) : Z := default 0 (as_int c.["bytes"]).

(** The callback of [_release]. *)
Definition release_commit (n token : string) (stamp : Z) : dbm bool :=
  let! claim := find_one SnapshotClaims (fun d => fld d "id" (PStr token) && fld d "nodeId" (PStr n)) in
  match claim with
  | None => st_ret true
  | Some c =>
      if (bytes_of c <=? 0) || fld c "state" RELEASED then st_ret true
      else
        let! released := update_one SnapshotReservations
          (fun d => fld d "id" (PStr n) && has_token token d && int_ge d "used" (bytes_of c))
          (fun d => set_all [("updatedAt", PTime (Aware stamp))] (pull_token token (dict_inc "used" (- bytes_of c) d))) in
        if negb released then st_ret false
        else
          let! _ := update_one SnapshotClaims (fun d => fld d "id" (PStr token))
            (set_all [("state", RELEASED); ("releasedAt", PTime (Aware stamp))]) in
          st_ret true
  end.

Definition release_recorded (n token : string) : dbm bool :=
  let! claim := find_one SnapshotClaims (fun d => fld d "id" (PStr token) && fld d "nodeId" (PStr n)) in
  let! aggregate := find_one SnapshotReservations (fun d => fld d "id" (PStr n)) in
  st_ret (match claim with Some c => fld c "state" RELEASED | None => false end
          && negb match aggregate with Some d => has_token token d | None => false end).

(** [_release]. *)
Definition _release (n token : string) (stamp : Z) (f : fate) (readable : bool) : dbm unit :=
  let! confirmed := confirm readable (release_recorded n token) (transaction f (release_commit n token stamp)) in
  raise_if (negb confirmed) (RuntimeError "coredump 快照配额声明无法释放").

(** The other writes of a claim: its publication with the copy ([freeze]), the
    promotion of a forgotten one and the mark of an orphan. *)
Definition publish_claim (token : string) (stamp expires : Z) : dbm bool :=
  update_one SnapshotClaims (fun d => fld d "id" (PStr token))
    (set_all [("state", PUBLISHED); ("publishedAt", PTime (Aware stamp)); ("expiresAt", PTime (Aware expires))]).

Definition promote_claim (token : string) (stamp expires : Z) : dbm bool :=
  update_one SnapshotClaims (fun d => fld d "id" (PStr token) && fld d "state" RESERVED)
    (set_all [("state", PUBLISHED); ("publishedAt", PTime (Aware stamp)); ("expiresAt", PTime (Aware expires))]).

Definition reclaim_claim (n token : string) (stamp : Z) : dbm bool :=
  update_one SnapshotClaims
    (fun d => fld d "id" (PStr token) && fld d "nodeId" (PStr n) && fld_in d "state" [RESERVED; PUBLISHED; RECLAIMING])
    (set_all [("state", RECLAIMING); ("reclaimStartedAt", PTime (Aware stamp))]).

(** A write by any node.  A token is drawn at random by one node. *)
Inductive quota_step (db : database) : database -> Prop :=
  | Reserves n token file_id version size stamp f readable :
      (forall c, c ∈ content db SnapshotClaims -> c.["id"] = PStr token -> c.["nodeId"] = PStr n) ->
      quota_step db (_reserve n token file_id version size stamp f readable db).2
  | Releases n token stamp f readable : quota_step db (_release n token stamp f readable db).2
  | Publishes token stamp expires : quota_step db (publish_claim token stamp expires db).2
  | Promotes token stamp expires : quota_step db (promote_claim token stamp expires db).2
  | Reclaims n token stamp : quota_step db (reclaim_claim n token stamp db).2.

(** ** The ledger *)

Record entry := Entry { e_token : string; e_node : string; e_bytes : Z }.

Definition held_by (n : string) (L : list entry) : list entry := filter (fun e => e_node e = n) L.
Definition total (n : string) (L : list entry) : Z := zsum (map e_bytes (held_by n L)).
Definition names (n : string) (L : list entry) : list pyval := map (fun e => PStr (e_token e)) (held_by n L).
Definition without (token : string) (L : list entry) : list entry := filter (fun e => e_token e <> token) L.

Inductive ledger_step (L : list entry) : list entry -> Prop :=
  | Ledger_same : ledger_step L L
  | Ledger_add token n size : 0 < size -> total n L + size <= quota n -> (forall e, e ∈ L -> e_token e <> token) ->
      ledger_step L (L ++ [Entry token n size])
  | Ledger_remove token : ledger_step L (without token L).

Definition is_live (c : pydict) : Prop := c.["state"] = RESERVED \/ c.["state"] = PUBLISHED \/ c.["state"] = RECLAIMING.

(** The claim of an entry. *)
Definition claims_entry (c : pydict) (e : entry) : Prop :=
  c.["id"] = PStr (e_token e) /\ c.["nodeId"] = PStr (e_node e) /\ c.["bytes"] = PInt (e_bytes e) /\ is_live c.

(** The document of a node. *)
Definition counts_entries (d : pydict) (n : string) (L : list entry) : Prop :=
  d.["activeTokens"] = PList (names n L) /\ d.["used"] = PInt (total n L).

Record represents (db : database) (L : list entry) : Prop := Represents {
  rp_claim_ids : NoDup (map (fun d => d.["id"]) (content db SnapshotClaims));
  rp_row_ids : NoDup (map (fun d => d.["id"]) (content db SnapshotReservations));
  rp_tokens : NoDup (map e_token L);
  rp_rows : forall d n, d ∈ content db SnapshotReservations -> d.["id"] = PStr n -> counts_entries d n L;
  rp_has_row : forall e, e ∈ L -> exists d, d ∈ content db SnapshotReservations /\ d.["id"] = PStr (e_node e);
  rp_entries : forall e, e ∈ L -> 0 < e_bytes e /\ exists c, c ∈ content db SnapshotClaims /\ claims_entry c e;
  rp_reserved : forall c, c ∈ content db SnapshotClaims -> c.["state"] = RESERVED -> exists e, e ∈ L /\ c.["id"] = PStr (e_token e);
  rp_bounded : forall n, n ∈ map e_node L -> total n L <= quota n }.
End quota.

(** ** Sums of the ledger *)

Lemma held_by_app n L L' : held_by n (L ++ L') = held_by n L ++ held_by n L'.
Proof. apply filter_app. Qed.

Lemma ledger_total_app n L L' : total n (L ++ L') = total n L + total n L'.
Proof. unfold total. by rewrite held_by_app, map_app, zsum_app. Qed.

Lemma names_app n L L' : names n (L ++ L') = names n L ++ names n L'.
Proof. unfold names. by rewrite held_by_app, map_app. Qed.

Lemma total_single n token m size : total n [Entry token m size] = if decide (m = n) then size else 0.
Proof. unfold total, held_by. rewrite filter_cons. cbn. destruct (decide (m = n)); cbn; lia. Qed.

Lemma names_single n token m size : names n [Entry token m size] = if decide (m = n) then [PStr token] else [].
Proof. unfold names, held_by. rewrite filter_cons. cbn. by destruct (decide (m = n)). Qed.

Lemma names_in n L token : PStr token ∈ names n L <-> exists e, e ∈ L /\ e_token e = token /\ e_node e = n.
Proof.
  unfold names, held_by. split.
  - intros (e & [= ->] & [Hn He]%list_elem_of_filter)%list_elem_of_fmap. by exists e.
  - intros (e & He & <- & Hn). apply (list_elem_of_fmap_2 (fun e => PStr (e_token e))). by apply list_elem_of_filter.
Qed.

Lemma names_without token n L : names n (without token L) = filter (fun v => v <> PStr token) (names n L).
Proof.
  unfold names, held_by, without. induction L as [|e L IH]; [done|]. rewrite (filter_cons _ e L).
  destruct (decide (e_token e <> token)) as [He|He]; rewrite !filter_cons; destruct (decide (e_node e = n)); cbn; rewrite ?filter_cons; cbn; try done.
  - rewrite decide_True by congruence. by rewrite IH.
  - rewrite decide_False by (intros Hc; apply He; congruence). done.
Qed.

(** Without an entry its node holds that much less; other nodes hold the same. *)
Lemma total_without e n L : NoDup (map e_token L) -> e ∈ L ->
  total n (without (e_token e) L) = total n L - (if decide (e_node e = n) then e_bytes e else 0).
Proof.
  intros Hn He. apply elem_of_Permutation in He as [L' HL]. 
  assert (Hp : forall (L1 L2 : list entry) m, L1 ≡ₚ L2 -> total m L1 = total m L2).
  { intros L1 L2 m Hp. unfold total, held_by. apply zsum_Permutation. by rewrite Hp. }
  assert (Hw : without (e_token e) L ≡ₚ L').
  { unfold without. rewrite HL, filter_cons, decide_False by (intros Hne; by apply Hne). rewrite HL in Hn. cbn in Hn. apply NoDup_cons in Hn as [Hn _].
    rewrite filter_all; [done|]. intros x Hx E. apply Hn. rewrite <- E. by apply list_elem_of_fmap_2. }
  rewrite (Hp _ _ n Hw), (Hp _ _ n HL). change (e :: L') with ([e] ++ L'). rewrite ledger_total_app. destruct e as [t m b]. rewrite total_single. cbn. lia.
Qed.

Lemma without_same token L : (forall e, e ∈ L -> e_token e <> token) -> without token L = L.
Proof. intros H. by apply filter_all. Qed.

(** ** The writes follow the ledger *)

Section follows.
Context `{Mongo} `{!MongoLaws}.
Variable quota : string -> Z.

Abbreviation rep := (represents quota).

Lemma wp_confirm readable (recorded m : dbm bool) (Q : result exn bool -> database -> Prop) db :
  wp m (fun r db' => match r with
    | Ok a => Q (Ok a) db'
    | Raise e => Q (Raise PyMongoError) db' /\ wp (let! ok := recorded in if ok then st_ret true else st_raise e) Q db' end) db ->
  wp (confirm readable recorded m) Q db.
Proof. unfold wp, confirm. destruct (m db) as [[a|e] db']; [done|]. destruct readable; tauto. Qed.

Lemma represents_same db db' L : rep db L -> content db' SnapshotClaims = content db SnapshotClaims ->
  content db' SnapshotReservations = content db SnapshotReservations -> rep db' L.
Proof. intros [H1 H2 H3 H4 H5 H6 H7 H8] Ec Er. split; rewrite ?Ec, ?Er; done. Qed.

(** The document of a node exists after the upsert. *)
Lemma upsert_row n stamp db L : rep db L ->
  wp (upsert_one SnapshotReservations (fun d => fld d "id" (PStr n)) (fun d => d)
       [("id", PStr n); ("used", PInt 0); ("activeTokens", PList []); ("updatedAt", PTime (Aware stamp))])
     (fun _ db' => rep db' L /\ content db' SnapshotClaims = content db SnapshotClaims) db.
Proof.
  intros HL. apply wp_bind, wp_update_one; cbn [on_ok].
  - intros d db' (Hq & (l & r & E & E') & Ho). apply wp_ret. split; [|by apply Ho]. apply (represents_same db); [done|by apply Ho|congruence].
  - intros Hno. apply wp_insert; [|done]. intros db' _ E Ho. split; [|by apply Ho]. destruct HL as [H1 H2 H3 H4 H5 H6 H7 H8].
    assert (Hnone : forall e, e ∈ L -> e_node e <> n).
    { intros e He Hn. destruct (H5 e He) as (d & Hd & Hi). specialize (Hno d Hd). apply fld_false in Hno. congruence. }
    assert (Hheld : held_by n L = []) by (apply filter_none; intros e He; by apply Hnone).
    split; rewrite ?E, ?Ho by done; try done.
    + rewrite map_app. apply NoDup_app. split_and!; [done| |apply NoDup_singleton].
      intros x (d & -> & Hd)%list_elem_of_fmap Hx%list_elem_of_singleton. specialize (Hno d Hd). by apply fld_false in Hno.
    + intros d m [Hd| ->]%elem_of_snoc Hi; [by apply H4|]. injection Hi as <-. unfold counts_entries, names, total. by rewrite Hheld.
    + intros e He. destruct (H5 e He) as (d & Hd & Hi). exists d. split; [apply elem_of_snoc; by left|done].
Qed.

(** A document of a node counts one entry more or one less. *)
Lemma rows_swap rows l d d' r n (L L' : list entry) : rows = l ++ d :: r -> NoDup (map (fun x : pydict => x.["id"]) rows) ->
  d.["id"] = PStr n -> d'.["id"] = PStr n -> (forall x m, x ∈ rows -> x.["id"] = PStr m -> counts_entries x m L) ->
  counts_entries d' n L' -> (forall m, m <> n -> names m L' = names m L /\ total m L' = total m L) ->
  NoDup (map (fun x : pydict => x.["id"]) (l ++ d' :: r))
  /\ (forall x m, x ∈ l ++ d' :: r -> x.["id"] = PStr m -> counts_entries x m L')
  /\ forall x, x ∈ rows -> exists x', x' ∈ l ++ d' :: r /\ x'.["id"] = x.["id"].
Proof.
  intros -> Hn Hd Hd' Hrows Hc Hm. split_and!.
  - rewrite map_app, map_cons in *. by rewrite Hd', <- Hd.
  - intros x m Hx Hi. destruct (decide (m = n)) as [->|Hne].
    + apply elem_of_app in Hx as [Hx|[->|Hx]%elem_of_cons]; [|done|]; exfalso;
        apply (unique_middle (fun x : pydict => x.["id"]) l d r x Hn); [set_solver|congruence|set_solver|congruence].
    + assert (Hx' : x ∈ l ++ d :: r) by (apply elem_of_app in Hx as [Hx|[->|Hx]%elem_of_cons]; [set_solver|congruence|set_solver]).
      destruct (Hrows x m Hx' Hi) as [Ht Hu]. destruct (Hm m Hne) as [En Et].
      unfold counts_entries. by rewrite En, Et.
  - intros x Hx. apply elem_of_app in Hx as [Hx|[->|Hx]%elem_of_cons]; [exists x; set_solver| |exists x; set_solver].
    exists d'. split; [apply elem_of_middle|congruence].
Qed.

(** Claims change at one token only. *)
Record claims_at (token : string) (cs cs' : list pydict) : Prop := Claims_at {
  ca_ids : NoDup (map (fun x : pydict => x.["id"]) cs');
  ca_keep : forall c, c ∈ cs -> c.["id"] <> PStr token -> c ∈ cs';
  ca_new : forall c, c ∈ cs' -> c ∈ cs \/ c.["id"] = PStr token }.

Lemma claims_swap token cs l c c' r : cs = l ++ c :: r -> NoDup (map (fun x : pydict => x.["id"]) cs) -> c.["id"] = PStr token ->
  c'.["id"] = PStr token -> claims_at token cs (l ++ c' :: r).
Proof.
  intros -> Hn Hc Hc'. split.
  - rewrite map_app, map_cons in *. by rewrite Hc', <- Hc.
  - intros x Hx Hne. apply elem_of_app in Hx as [Hx|[->|Hx]%elem_of_cons]; [set_solver|done|set_solver].
  - intros x Hx. apply elem_of_app in Hx as [Hx|[->|Hx]%elem_of_cons]; [left; set_solver|by right|left; set_solver].
Qed.

(** The claim of an entry of another token stays. *)
Lemma entry_kept token cs cs' e : claims_at token cs cs' -> e_token e <> token ->
  (exists c, c ∈ cs /\ claims_entry c e) -> exists c, c ∈ cs' /\ claims_entry c e.
Proof.
  intros [_ Hk _] Hne (c & Hc & Hce). exists c. split; [|done]. apply Hk; [done|]. destruct Hce as (Hi & _). rewrite Hi. congruence.
Qed.

(** The two writes of a reservation add an entry. *)
Lemma represents_add db db' L l d d' r n token size : rep db L -> 0 < size -> total n L + size <= quota n ->
  (forall e, e ∈ L -> e_token e <> token) ->
  content db SnapshotReservations = l ++ d :: r -> content db' SnapshotReservations = l ++ d' :: r ->
  d.["id"] = PStr n -> d'.["id"] = PStr n -> counts_entries d' n (L ++ [Entry token n size]) ->
  claims_at token (content db SnapshotClaims) (content db' SnapshotClaims) ->
  (exists c, c ∈ content db' SnapshotClaims /\ claims_entry c (Entry token n size)) -> rep db' (L ++ [Entry token n size]).
Proof.
  intros [H1 H2 H3 H4 H5 H6 H7 H8] Hs Hq Hfresh E E' Hd Hd' Hc Hcl Hnew.
  destruct (rows_swap _ l d d' r n L (L ++ [Entry token n size]) E H2 Hd Hd' H4 Hc) as (R1 & R2 & R3).
  { intros m Hm. rewrite names_app, ledger_total_app, names_single, total_single, !decide_False by congruence. by rewrite app_nil_r, Z.add_0_r. }
  split; rewrite ?E'; try done.
  - by apply Hcl.
  - rewrite map_app. apply NoDup_app. split_and!; [done| |apply NoDup_singleton].
    intros x (e & -> & He)%list_elem_of_fmap Hx%list_elem_of_singleton. by apply (Hfresh e).
  - intros e [He| ->]%elem_of_snoc; cbn; [|exists d'; split; [apply elem_of_middle|done]].
    destruct (H5 e He) as (x & Hx & Hi). destruct (R3 x Hx) as (x' & Hx' & Hi'). exists x'. split; [done|congruence].
  - intros e [He| ->]%elem_of_snoc; [|by split]. destruct (H6 e He) as [Hb Hce]. split; [done|]. eapply entry_kept; [done|by apply Hfresh|done].
  - intros c Hcc Hst. destruct (ca_new _ _ _ Hcl c Hcc) as [Hold|Hi].
    + destruct (H7 c Hold Hst) as (e & He & Hi). exists e. split; [apply elem_of_snoc; by left|done].
    + exists (Entry token n size). split; [apply elem_of_snoc; by right|done].
  - intros m Hm. rewrite ledger_total_app, total_single. destruct (decide (n = m)) as [<-|Hne]; [done|]. rewrite Z.add_0_r.
    rewrite map_app in Hm. apply H8. apply elem_of_app in Hm as [Hm|Hm%list_elem_of_singleton]; [done|]. by cbn in Hm.
Qed.

(** The two writes of a release remove an entry. *)
Lemma represents_remove db db' L e l d d' r : rep db L -> e ∈ L ->
  content db SnapshotReservations = l ++ d :: r -> content db' SnapshotReservations = l ++ d' :: r ->
  d.["id"] = PStr (e_node e) -> d'.["id"] = PStr (e_node e) -> counts_entries d' (e_node e) (without (e_token e) L) ->
  claims_at (e_token e) (content db SnapshotClaims) (content db' SnapshotClaims) ->
  (forall c, c ∈ content db' SnapshotClaims -> c.["id"] = PStr (e_token e) -> c.["state"] <> RESERVED) -> rep db' (without (e_token e) L).
Proof.
  intros [H1 H2 H3 H4 H5 H6 H7 H8] He E E' Hd Hd' Hc Hcl Hend.
  assert (Hin : forall x, x ∈ without (e_token e) L <-> x ∈ L /\ e_token x <> e_token e) by (intros x; unfold without; rewrite list_elem_of_filter; tauto).
  assert (Hone : forall x, x ∈ L -> e_token x = e_token e -> x = e) by (intros x Hx Et; by apply (NoDup_map_eq e_token L)).
  destruct (rows_swap _ l d d' r (e_node e) L (without (e_token e) L) E H2 Hd Hd' H4 Hc) as (R1 & R2 & R3).
  { intros m Hm. rewrite total_without, names_without, decide_False by (done || congruence). split; [|lia].
    apply filter_all. intros v Hv ->. apply names_in in Hv as (x & Hx & Et & <-). apply Hm. by rewrite (Hone x Hx Et). }
  split; rewrite ?E'; try done.
  - by apply Hcl.
  - apply (sublist_NoDup _ _ H3), (fmap_sublist e_token), sublist_filter.
  - intros x [Hx _]%Hin. destruct (H5 x Hx) as (y & Hy & Hi). destruct (R3 y Hy) as (y' & Hy' & Hi'). exists y'. split; [done|congruence].
  - intros x [Hx Hne]%Hin. destruct (H6 x Hx) as [Hb Hce]. split; [done|]. by eapply entry_kept.
  - intros c Hcc Hst. destruct (ca_new _ _ _ Hcl c Hcc) as [Hold|Hi]; [|by destruct (Hend c Hcc Hi)].
    destruct (H7 c Hold Hst) as (x & Hx & Hi). exists x. split; [|done]. apply Hin. split; [done|]. intros Et.
    apply (Hend c Hcc); [by rewrite Hi, Et|done].
  - intros m Hm. assert (Hm' : m ∈ map e_node L).
    { apply list_elem_of_fmap in Hm as (x & -> & [Hx _]%Hin). by apply list_elem_of_fmap_2. }
    rewrite total_without by done. specialize (H8 m Hm'). destruct (decide _); [|lia]. destruct (H6 e He). lia.
Qed.

(** A claim gets another live state. *)
Lemma represents_relabel db db' L l c c' r : rep db L -> content db' SnapshotReservations = content db SnapshotReservations ->
  content db SnapshotClaims = l ++ c :: r -> content db' SnapshotClaims = l ++ c' :: r ->
  c'.["id"] = c.["id"] -> c'.["nodeId"] = c.["nodeId"] -> c'.["bytes"] = c.["bytes"] -> is_live c' -> c'.["state"] <> RESERVED -> rep db' L.
Proof.
  intros [H1 H2 H3 H4 H5 H6 H7 H8] Er E E' Hi Hn Hb Hl Hr. split; rewrite ?Er; try done.
  - rewrite E'. rewrite E in H1. rewrite map_app, map_cons in *. by rewrite Hi.
  - intros e He. destruct (H6 e He) as [Hpos (x & Hx & Hxi & Hxn & Hxb & Hxl)]. split; [done|]. rewrite E in Hx. rewrite E'.
    apply elem_of_app in Hx as [Hx|[->|Hx]%elem_of_cons]; [exists x; split; [set_solver|by split_and!]| |exists x; split; [set_solver|by split_and!]].
    exists c'. split; [apply elem_of_middle|]. by split_and!; rewrite ?Hi, ?Hn, ?Hb.
  - intros x Hx Hst. rewrite E' in Hx. apply elem_of_app in Hx as [Hx|[->|Hx]%elem_of_cons]; [|done|]; apply H7; rewrite ?E; set_solver.
Qed.

(** ** The operations *)

Definition counted (n token : string) (L : list entry) : Prop := exists e, e ∈ L /\ e_token e = token /\ e_node e = n.

Definition own_token (n token : string) (db : database) : Prop :=
  forall c, c ∈ content db SnapshotClaims -> c.["id"] = PStr token -> c.["nodeId"] = PStr n.

Lemma own_entry n token db L e : rep db L -> own_token n token db -> e ∈ L -> e_token e = token -> e_node e = n.
Proof.
  intros HL Hown He Et. destruct (rp_entries _ _ _ HL e He) as (_ & c & Hc & Hi & Hn & _). specialize (Hown c Hc). rewrite Et in Hi.
  specialize (Hown Hi). rewrite Hn in Hown. by injection Hown.
Qed.

(** The reservation, or the claim was published before. *)
Definition reserved_or_published (n token : string) (L : list entry) (db : database) : Prop :=
  counted n token L \/ exists c, c ∈ content db SnapshotClaims /\ c.["id"] = PStr token /\ c.["state"] = PUBLISHED.

Lemma reservation_fields_get n token file_id version size stamp d : d.["id"] = PStr token ->
  let c := set_all (claim_fields n token file_id version size stamp) d in
  c.["id"] = PStr token /\ claims_entry c (Entry token n size).
Proof.
  intros Hi. cbv zeta. unfold claim_fields, set_all. cbn [foldl fst snd]. split; [by dget|].
  split_and!; dget; try done. left. by dget.
Qed.

(** The claim of the token is the new one, the others stay. *)
Lemma record_claim_wp n token file_id version size stamp db : NoDup (map (fun d => d.["id"]) (content db SnapshotClaims)) ->
  wp (record_claim n token file_id version size stamp) (fun r db' => r = Ok tt ->
    claims_at token (content db SnapshotClaims) (content db' SnapshotClaims)
    /\ (exists c, c ∈ content db' SnapshotClaims /\ claims_entry c (Entry token n size))
    /\ content db' SnapshotReservations = content db SnapshotReservations) db.
Proof.
  intros Hn. apply wp_bind, wp_update_one; cbn [on_ok].
  - intros c db' (Hq & (l & r & E & E') & Ho). apply fld_true in Hq. apply wp_ret. intros _.
    destruct (reservation_fields_get n token file_id version size stamp c Hq) as [Hi He]. rewrite E'. split_and!; [| |by apply Ho].
    + rewrite E in Hn |- *. by eapply claims_swap.
    + exists (set_all (claim_fields n token file_id version size stamp) c). split; [apply elem_of_middle|done].
  - intros Hno. apply wp_insert; [|done]. intros db' _ E Ho _. rewrite E. split_and!; [split| |by apply Ho].
    + rewrite map_app. apply NoDup_app. split_and!; [done| |apply NoDup_singleton].
      intros x (d & -> & Hd)%list_elem_of_fmap Hx%list_elem_of_singleton. specialize (Hno d Hd). by apply fld_false in Hno.
    + intros c Hc _. apply elem_of_snoc. by left.
    + intros c [Hc| ->]%elem_of_snoc; [by left|by right].
    + eexists. split; [apply elem_of_snoc; by right|]. split_and!; try done. by left.
Qed.

Lemma tokens_names d n L : counts_entries d n L -> tokens d = names n L.
Proof. intros [Ht _]. unfold tokens. by rewrite Ht. Qed.

Lemma counts_added d n token size stamp L : counts_entries d n L -> has_token token d = false ->
  counts_entries (set_all [("updatedAt", PTime (Aware stamp))] (add_token token (dict_inc "used" size d))) n (L ++ [Entry token n size]).
Proof.
  intros Hc Hno. destruct Hc as [Ht Hu]. unfold set_all. cbn [foldl fst snd]. unfold add_token, counts_entries, has_token, tokens in *.
  rewrite names_app, ledger_total_app, names_single, total_single, !decide_True by done. unfold dict_inc. dget. rewrite Hu, Ht in *. cbn.
  by rewrite Hno.
Qed.

Lemma reserve_new_wp n token file_id version size stamp db L : rep db L -> own_token n token db -> 0 < size ->
  wp (let! reserved := count_bytes quota n token size stamp in
      if negb reserved then st_ret false else let! _ := record_claim n token file_id version size stamp in st_ret true)
    (fun r db' => match r with
      | Ok true => rep db' (L ++ [Entry token n size]) /\ ledger_step quota L (L ++ [Entry token n size])
      | Ok false => rep db' L
      | Raise _ => True end) db.
Proof.
  intros HL Hown Hs. apply wp_bind. unfold count_bytes at 1. apply wp_bind. eapply wp_mono; [by apply (upsert_row n stamp db L)|].
  intros [[]|e] db1 [HL1 Ec]; cbn [on_ok]; [|done]. apply wp_update_one; cbn [on_ok]; [|intros _; by apply wp_ret].
  intros d db2 (Hq & (l & r & E & E') & Ho). cbn [negb]. apply andb_prop in Hq as [[Hi%fld_true Hle]%andb_prop Hno%negb_true_iff].
  assert (Hc : counts_entries d n L) by (eapply rp_rows; [exact HL1|rewrite E; apply elem_of_middle|done]).
  assert (Hfit : total n L + size <= quota n).
  { destruct Hc as [_ Hu]. unfold int_le in Hle. rewrite Hu in Hle. breflect. lia. }
  assert (Hfresh : forall e, e ∈ L -> e_token e <> token).
  { intros e He Et. unfold has_token in Hno. apply bool_decide_eq_false in Hno. apply Hno. rewrite (tokens_names d n L Hc).
    apply names_in. exists e. split_and!; [done|done|by apply (own_entry n token db L)]. }
  apply wp_bind. eapply wp_mono.
  - apply record_claim_wp. rewrite Ho by done. by eapply rp_claim_ids.
  - intros [[]|e] db3 Hrec; cbn [on_ok]; [|done]. apply wp_ret. destruct (Hrec eq_refl) as (Hcl & Hnew & Er). split; [|by constructor].
    apply (represents_add db1 db3 L l d (set_all [("updatedAt", PTime (Aware stamp))] (add_token token (dict_inc "used" size d))) r n token size);
      try done.
    + by rewrite Er.
    + unfold set_all, add_token, dict_inc. cbn [foldl fst snd]. by dget.
    + by apply counts_added.
    + by rewrite Ho in Hcl by done.
Qed.

Lemma reserve_bytes_wp n token file_id version size stamp db L : rep db L -> own_token n token db -> 0 < size ->
  wp (reserve_commit quota n token file_id version size stamp) (fun r db' => match r with
    | Ok true => exists L', rep db' L' /\ ledger_step quota L L' /\ reserved_or_published n token L' db'
    | Ok false => rep db' L
    | Raise _ => True end) db.
Proof.
  intros HL Hown Hs. unfold reserve_commit.
  assert (Hrest := reserve_new_wp n token file_id version size stamp db L HL Hown Hs).
  eapply wp_mono in Hrest; [apply wp_bind, wp_find_one; cbn [on_ok]; [|intros _; exact Hrest]|].
  - intros c Hc Hq%fld_true. destruct (fld_in c "state" [RESERVED; PUBLISHED]) eqn:Es; [|exact Hrest].
    apply wp_ret. exists L. split_and!; [done|constructor|]. unfold fld_in in Es. cbn in Es. apply orb_prop in Es as [Es%fld_true|Es].
    + left. destruct (rp_reserved _ _ _ HL c Hc Es) as (e & He & Hi). exists e. rewrite Hq in Hi. injection Hi as Hi.
      split_and!; [done|done|by eapply own_entry].
    + rewrite orb_false_r in Es. right. exists c. split_and!; [done|done|by apply fld_true].
  - intros [[]|e] db' Hr; [|done|done]. destruct Hr as [HL' Hst]. exists (L ++ [Entry token n size]). split_and!; [done|done|].
    left. exists (Entry token n size). split_and!; [apply elem_of_snoc; by right|done|done].
Qed.

(** Reading the evidence after an exception. *)
Lemma recorded_wp n token e db L (Q : result exn bool -> database -> Prop) : rep db L ->
  (forall r, (r = Ok true -> counted n token L) -> r <> Ok false -> Q r db) ->
  wp (let! ok := reservation_recorded n token in if ok then st_ret true else st_raise e) Q db.
Proof.
  intros HL HQ. apply wp_bind. unfold reservation_recorded. apply wp_bind.
  assert (Hagg : forall b, wp (let! aggregate := find_one SnapshotReservations (fun d => fld d "id" (PStr n)) in
    st_ret (b && match aggregate with Some d => has_token token d | None => false end))
    (on_ok (fun ok : bool => if ok then st_ret true else st_raise e) Q) db).
  { intros b. apply wp_bind, wp_find_one; cbn [on_ok].
    - intros d Hd Hi%fld_true. apply wp_ret. cbn [on_ok]. destruct b; cbn [andb]; [|by apply wp_raise, HQ].
      destruct (has_token token d) eqn:Et; [|by apply wp_raise, HQ]. apply wp_ret, HQ; [|done]. intros _.
      unfold has_token in Et. apply bool_decide_eq_true in Et. rewrite (tokens_names d n L) in Et by by eapply rp_rows. by apply names_in in Et.
    - intros _. rewrite andb_false_r. apply wp_ret. cbn [on_ok]. by apply wp_raise, HQ. }
  apply wp_find_one; cbn [on_ok]; intros; apply Hagg.
Qed.

Lemma _reserve_wp n token file_id version size stamp f readable db L : rep db L -> own_token n token db ->
  wp (_reserve quota n token file_id version size stamp f readable) (fun r db' =>
    exists L', rep db' L' /\ ledger_step quota L L' /\ (r = Ok tt -> reserved_or_published n token L' db')) db.
Proof.
  intros HL Hown. unfold _reserve. apply wp_bind, wp_raise_if; [intros _; exists L; split_and!; [done|constructor|done]|].
  intros Hs. cbn [on_ok]. apply wp_bind, wp_confirm, wp_transaction. eapply wp_mono; [apply reserve_bytes_wp; [done|done|lia]|].
  assert (Hafter : forall db' L' e, rep db' L' -> ledger_step quota L L' ->
    wp (let! ok := reservation_recorded n token in if ok then st_ret true else st_raise e)
      (on_ok (fun confirmed => raise_if (negb confirmed) (OverflowError "节点 coredump 快照配额不足")) (fun r db' =>
        exists L', rep db' L' /\ ledger_step quota L L' /\ (r = Ok tt -> reserved_or_published n token L' db'))) db').
  { intros db' L' e HL' Hst. apply (recorded_wp n token e db' L'); [done|]. intros [[]|e'] Hr Hne; cbn [on_ok].
    - apply wp_ret. exists L'. split_and!; [done|done|]. intros _. left. by apply Hr.
    - by destruct Hne.
    - by exists L'. }
  intros [b|e] db1 Hr.
  - assert (HL' : exists L', rep db1 L' /\ ledger_step quota L L' /\ (b = true -> reserved_or_published n token L' db1)).
    { destruct b; [destruct Hr as (L' & ? & ? & ?); by exists L'|]. exists L. split; [done|]. by split; [constructor|]. }
    clear Hr. destruct HL' as (L' & HL' & Hst & Hb). destruct f as [|applied].
    + cbn [on_ok]. apply wp_raise_if; intros Eb; exists L'; split_and!; try done. intros _. apply Hb. by apply negb_false_iff in Eb.
    + set (db2 := if applied then db1 else db). assert (H2 : exists L2, rep db2 L2 /\ ledger_step quota L L2)
        by (subst db2; destruct applied; [by exists L'|exists L; split; [done|constructor]]).
      destruct H2 as (L2 & HL2 & Hst2). split; [by exists L2|]. by apply (Hafter db2 L2).
  - split; [exists L; split_and!; [done|constructor|done]|]. apply (Hafter db L); [done|constructor].
Qed.

Lemma counts_removed d token size stamp L e : counts_entries d (e_node e) L -> NoDup (map e_token L) -> e ∈ L -> token = e_token e -> size = e_bytes e ->
  counts_entries (set_all [("updatedAt", PTime (Aware stamp))] (pull_token token (dict_inc "used" (- size) d))) (e_node e) (without (e_token e) L).
Proof.
  intros [Ht Hu] Hn He -> ->. unfold set_all. cbn [foldl fst snd]. unfold pull_token, counts_entries, tokens in *.
  rewrite total_without, names_without, decide_True by done. unfold dict_inc. dget. rewrite Hu, Ht in *. cbn. split; [done|f_equal; lia].
Qed.

(** A release takes the entry away, or there is none of the token with a claim. *)
Lemma release_commit_wp n token stamp db L : rep db L ->
  wp (release_commit n token stamp) (fun r db' => match r with
    | Ok b => exists L', rep db' L' /\ ledger_step quota L L' /\ (b = true -> ~ counted n token L')
    | Raise _ => True end) db.
Proof.
  intros HL. unfold release_commit.
  assert (Hsame : forall b : bool, (b = true -> ~ counted n token L) -> exists L', rep db L' /\ ledger_step quota L L' /\ (b = true -> ~ counted n token L'))
    by (intros b Hb; exists L; split_and!; [done|constructor|done]).
  (** An entry of the token has its claim. *)
  assert (Hclaim : counted n token L -> exists e c, e ∈ L /\ e_token e = token /\ e_node e = n /\ 0 < e_bytes e
    /\ c ∈ content db SnapshotClaims /\ claims_entry c e).
  { intros (e & He & Et & En). destruct (rp_entries _ _ _ HL e He) as [Hb (c & Hc & Hce)]. by exists e, c. }
  apply wp_bind, wp_find_one; cbn [on_ok].
  - intros c Hc [Hi%fld_true Hn%fld_true]%andb_prop.
    assert (Huniq : forall c', c' ∈ content db SnapshotClaims -> c'.["id"] = PStr token -> c' = c).
    { intros c' Hc' Hi'. apply (NoDup_map_eq (fun d : pydict => d.["id"]) (content db SnapshotClaims)); [by eapply rp_claim_ids|done|done|congruence]. }
    destruct ((bytes_of c <=? 0) || fld c "state" RELEASED) eqn:Eskip.
    + apply wp_ret, Hsame. intros _ Hcount. destruct (Hclaim Hcount) as (e & c' & He & Et & En & Hb & Hc' & Hci & _ & Hcb & Hlive).
      rewrite Et in Hci. pose proof (Huniq c' Hc' Hci) as ->. apply orb_prop in Eskip as [E|E%fld_true].
      * unfold bytes_of in E. rewrite Hcb in E. cbn in E. breflect. lia.
      * unfold is_live in Hlive. rewrite E in Hlive. by destruct Hlive as [?|[?|?]].
    + apply wp_bind, wp_update_one; cbn [on_ok]; [|intros _; apply wp_ret; by apply Hsame].
      intros d db1 (Hq & (l & r & E & E') & Ho). cbn [negb]. apply andb_prop in Hq as [[Hdi%fld_true Htok]%andb_prop _].
      assert (Hd : d ∈ content db SnapshotReservations) by (rewrite E; apply elem_of_middle).
      pose proof (rp_rows _ _ _ HL d n Hd Hdi) as Hcd. unfold has_token in Htok. apply bool_decide_eq_true in Htok.
      rewrite (tokens_names d n L Hcd) in Htok. apply names_in in Htok. destruct (Hclaim Htok) as (e & c' & He & Et & En & Hb & Hc' & Hci & Hcn & Hcb & Hlive).
      rewrite Et in Hci. pose proof (Huniq c' Hc' Hci) as ->. subst token n.
      apply wp_bind, wp_update_one; cbn [on_ok].
      * intros c1 db2 (Hq1%fld_true & (l1 & r1 & E1 & E1') & Ho1). apply wp_ret. exists (without (e_token e) L). split_and!; [|constructor|].
        -- eapply (represents_remove db db2 L e l d _ r); [done|done|done|by rewrite Ho1|done| | | |].
           ++ unfold set_all, pull_token, dict_inc. cbn [foldl fst snd]. by dget.
           ++ apply counts_removed; [done|by eapply rp_tokens|done|done|]. unfold bytes_of. by rewrite Hcb.
           ++ rewrite E1'. rewrite Ho in E1 by done. eapply claims_swap; [exact E1|by eapply rp_claim_ids|done|]. unfold set_all. cbn [foldl fst snd]. by dget.
           ++ intros x Hx Hxi. rewrite E1' in Hx. rewrite Ho in E1 by done. pose proof (rp_claim_ids _ _ _ HL) as Hnd. rewrite E1 in Hnd.
              apply elem_of_app in Hx as [Hx|[->|Hx]%elem_of_cons].
              ** exfalso. apply (unique_middle (fun x : pydict => x.["id"]) l1 c1 r1 x Hnd); [set_solver|congruence].
              ** unfold set_all. cbn [foldl fst snd]. by dget.
              ** exfalso. apply (unique_middle (fun x : pydict => x.["id"]) l1 c1 r1 x Hnd); [set_solver|congruence].
        -- intros _ (x & [Hne _]%list_elem_of_filter & Hxt & _). by apply Hne.
      * intros Hno. exfalso. rewrite Ho in Hno by done. specialize (Hno c Hc). by apply fld_false in Hno.
  - intros Hno. apply wp_ret, Hsame. intros _ Hcount. destruct (Hclaim Hcount) as (e & c & He & Et & En & _ & Hc & Hi & Hn & _).
    specialize (Hno c Hc). cbv beta in Hno. apply andb_false_iff in Hno as [Hno%fld_false|Hno%fld_false]; congruence.
Qed.

Lemma release_recorded_wp n token e db L (Q : result exn bool -> database -> Prop) : rep db L ->
  (forall r, (r = Ok true -> ~ counted n token L) -> r <> Ok false -> Q r db) ->
  wp (let! ok := release_recorded n token in if ok then st_ret true else st_raise e) Q db.
Proof.
  intros HL HQ. apply wp_bind. unfold release_recorded. apply wp_bind.
  assert (Hagg : forall b, wp (let! aggregate := find_one SnapshotReservations (fun d => fld d "id" (PStr n)) in
    st_ret (b && negb match aggregate with Some d => has_token token d | None => false end))
    (on_ok (fun ok : bool => if ok then st_ret true else st_raise e) Q) db).
  { intros b. apply wp_bind, wp_find_one; cbn [on_ok].
    - intros d Hd Hi%fld_true. apply wp_ret. cbn [on_ok]. destruct b; cbn [andb]; [|by apply wp_raise, HQ].
      destruct (has_token token d) eqn:Et; cbn [negb]; [by apply wp_raise, HQ|]. apply wp_ret, HQ; [|done]. intros _ Hc.
      unfold has_token in Et. apply bool_decide_eq_false in Et. rewrite (tokens_names d n L) in Et by by eapply rp_rows. by apply Et, names_in.
    - intros Hno. cbn [negb]. apply wp_ret. cbn [on_ok]. destruct b; cbn [andb]; [|by apply wp_raise, HQ]. apply wp_ret, HQ; [|done].
      intros _ (x & Hx & _ & Hn). destruct (rp_has_row _ _ _ HL x Hx) as (d & Hd & Hi). specialize (Hno d Hd). apply fld_false in Hno. congruence. }
  apply wp_find_one; cbn [on_ok]; intros; apply Hagg.
Qed.

Lemma _release_wp n token stamp f readable db L : rep db L ->
  wp (_release n token stamp f readable) (fun r db' =>
    exists L', rep db' L' /\ ledger_step quota L L' /\ (r = Ok tt -> ~ counted n token L')) db.
Proof.
  intros HL. unfold _release. apply wp_bind, wp_confirm, wp_transaction. eapply wp_mono; [by apply release_commit_wp|].
  assert (Hafter : forall db' L' e, rep db' L' -> ledger_step quota L L' ->
    wp (let! ok := release_recorded n token in if ok then st_ret true else st_raise e)
      (on_ok (fun confirmed => raise_if (negb confirmed) (RuntimeError "coredump 快照配额声明无法释放")) (fun r db' =>
        exists L', rep db' L' /\ ledger_step quota L L' /\ (r = Ok tt -> ~ counted n token L'))) db').
  { intros db' L' e HL' Hst. apply (release_recorded_wp n token e db' L'); [done|]. intros [[]|e'] Hr Hne; cbn [on_ok].
    - apply wp_ret. exists L'. split_and!; [done|done|]. intros _. by apply Hr.
    - by destruct Hne.
    - by exists L'. }
  intros [b|e] db1 Hr.
  - destruct Hr as (L' & HL' & Hst & Hb). destruct f as [|applied].
    + cbn [on_ok]. apply wp_raise_if; intros Eb; exists L'; split_and!; try done. intros _. apply Hb. by apply negb_false_iff in Eb.
    + set (db2 := if applied then db1 else db). assert (H2 : exists L2, rep db2 L2 /\ ledger_step quota L L2)
        by (subst db2; destruct applied; [by exists L'|exists L; split; [done|constructor]]).
      destruct H2 as (L2 & HL2 & Hst2). split; [by exists L2|]. by apply (Hafter db2 L2).
  - split; [exists L; split_and!; [done|constructor|done]|]. apply (Hafter db L); [done|constructor].
Qed.

(** The writes of a claim's state leave the ledger alone. *)
Lemma relabel_wp q token state extra db L : rep db L -> (forall c, q c = true -> c.["id"] = PStr token) ->
  (state = PUBLISHED \/ state = RECLAIMING) ->
  (forall k, k ∈ map fst extra -> k ∉ ["id"; "nodeId"; "bytes"; "state"]) ->
  wp (update_one SnapshotClaims q (set_all (("state", state) :: extra))) (fun _ db' => rep db' L) db.
Proof.
  intros HL Hq Hst Hex. apply wp_update_one; [|done]. intros c db' (Hqc & (l & r & E & E') & Ho).
  assert (Hget : forall k, k ∈ ["id"; "nodeId"; "bytes"] -> (set_all (("state", state) :: extra) c).[k] = c.[k]).
  { intros k Hk. unfold set_all. cbn [foldl fst snd]. assert (Hs : k <> "state") by set_solver.
    rewrite <- (get_set_ne c "state" state k Hs). generalize (dict_set c "state" state). intros c0. clear -Hk Hex.
    revert c0. induction extra as [|[k' v'] ex IH]; intros c0; [done|]. cbn [foldl fst snd]. rewrite IH by set_solver. apply get_set_ne.
    intros ->. apply (Hex k'); set_solver. }
  assert (Hs : (set_all (("state", state) :: extra) c).["state"] = state).
  { unfold set_all. cbn [foldl fst snd]. assert (Hs0 : (dict_set c "state" state).["state"] = state) by by dget. revert Hs0.
    generalize (dict_set c "state" state). clear -Hex. induction extra as [|[k' v'] ex IH]; intros c0 Hs0; [done|]. cbn [foldl fst snd]. apply IH; [set_solver|].
    rewrite get_set_ne; [done|]. intros <-. apply (Hex "state"); set_solver. }
  eapply represents_relabel; [exact HL|by apply Ho|exact E|exact E'|apply Hget; set_solver|apply Hget; set_solver|apply Hget; set_solver| |].
  - unfold is_live. rewrite Hs. destruct Hst; auto.
  - rewrite Hs. by destruct Hst as [->| ->].
Qed.

Lemma quota_step_ledger db db' L : rep db L -> quota_step quota db db' -> exists L', rep db' L' /\ ledger_step quota L L'.
Proof.
  intros HL Hs. assert (Hrun : forall A (m : dbm A) (Q : result exn A -> database -> Prop), wp m Q db -> Q (m db).1 (m db).2)
    by (intros A m Q Hm; unfold wp in Hm; by destruct (m db)).
  destruct Hs as [n token file_id version size stamp f readable Hown|n token stamp f readable|token stamp expires|token stamp expires|n token stamp].
  - destruct (Hrun _ _ _ (_reserve_wp n token file_id version size stamp f readable db L HL Hown)) as (L' & ? & ? & _). by exists L'.
  - destruct (Hrun _ _ _ (_release_wp n token stamp f readable db L HL)) as (L' & ? & ? & _). by exists L'.
  - exists L. split; [|constructor]. apply (Hrun _ _ (fun _ db' => rep db' L)). apply (relabel_wp _ token); [done|by intros c ?%fld_true|by left|set_solver].
  - exists L. split; [|constructor]. apply (Hrun _ _ (fun _ db' => rep db' L)).
    apply (relabel_wp _ token); [done|by intros c [?%fld_true _]%andb_prop|by left|set_solver].
  - exists L. split; [|constructor]. apply (Hrun _ _ (fun _ db' => rep db' L)).
    apply (relabel_wp _ token); [done|by intros c [[?%fld_true _]%andb_prop _]%andb_prop|by right|set_solver].
Qed.

Lemma empty_represents db : content db SnapshotClaims = [] -> content db SnapshotReservations = [] -> rep db [].
Proof.
  intros Ec Er. split; rewrite ?Ec, ?Er; try (by constructor); try (by intros ? ?%elem_of_nil); try (by intros ? ? ?%elem_of_nil).
Qed.

(** C39: the quota of snapshots follows a ledger.  After any writes of any nodes,
    however their commits end, there is a ledger such that the document of each node
    lists exactly its tokens and counts exactly their bytes, no node holds more than
    its quota and every reserved claim is counted.  A further reservation or release
    adds or takes away at most one entry; a reservation that returns has its bytes
    counted, unless its claim was published before; a release that returns leaves none,
    so that repeating it gives nothing back twice. *)
Theorem snapshot_quota_refines_ledger db0 db :
  content db0 SnapshotClaims = [] -> content db0 SnapshotReservations = [] -> rtc (quota_step quota) db0 db ->
  exists L, rep db L
    /\ (forall n token file_id version size stamp f readable, own_token n token db ->
        wp (_reserve quota n token file_id version size stamp f readable) (fun r db' =>
          exists L', rep db' L' /\ ledger_step quota L L' /\ (r = Ok tt -> reserved_or_published n token L' db')) db)
    /\ forall n token stamp f readable,
        wp (_release n token stamp f readable) (fun r db' =>
          exists L', rep db' L' /\ ledger_step quota L L' /\ (r = Ok tt -> ~ counted n token L')) db.
Proof.
  intros Ec Er Hs. assert (HL : exists L, rep db L).
  { pose proof (empty_represents db0 Ec Er) as Hempty. revert Hempty. generalize (@nil entry). clear Ec Er.
    induction Hs as [db0|db0 db1 db2 H1 _ IH]; intros L HL; [by exists L|]. destruct (quota_step_ledger _ _ L HL H1) as (L' & HL' & _). by apply (IH L'). }
  destruct HL as [L HL]. exists L. split_and!; [done|intros; by apply _reserve_wp|intros; by apply _release_wp].
Qed.
End follows.

(** ** A reservation whose commit was lost *)

Definition empty_store : @database list_mongo := fun _ => [].
Definition hundred : string -> Z := fun _ => 100.
Definition quota_store : @database list_mongo := (@_reserve list_mongo hundred "n" "t1" "f" (PInt 1) 60 0 (Uncertain true) true empty_store).2.

Lemma snapshot_quota_refines_ledger_witness :
  (@_reserve list_mongo hundred "n" "t1" "f" (PInt 1) 60 0 (Uncertain true) true empty_store).1 = Ok tt
  /\ (@_reserve list_mongo hundred "n" "t2" "g" (PInt 1) 60 0 Committed true quota_store).1 = Raise (OverflowError "节点 coredump 快照配额不足")
  /\ rtc (@quota_step list_mongo hundred) empty_store quota_store
  /\ exists L, @represents list_mongo hundred quota_store L
    /\ (forall n token file_id version size stamp f readable, own_token n token quota_store ->
        wp (_reserve hundred n token file_id version size stamp f readable) (fun r db' =>
          exists L', represents hundred db' L' /\ ledger_step hundred L L' /\ (r = Ok tt -> reserved_or_published n token L' db')) quota_store)
    /\ forall n token stamp f readable,
        wp (_release n token stamp f readable) (fun r db' =>
          exists L', represents hundred db' L' /\ ledger_step hundred L L' /\ (r = Ok tt -> ~ counted n token L')) quota_store.
Proof.
  split; [by vm_compute|]. split; [by vm_compute|].
  assert (Hs : rtc (@quota_step list_mongo hundred) empty_store quota_store).
  { apply rtc_once. apply Reserves. intros c Hc. by apply elem_of_nil in Hc. }
  split; [exact Hs|].
  exact (@snapshot_quota_refines_ledger list_mongo list_mongo_laws hundred empty_store quota_store eq_refl eq_refl Hs).
Defined.
