(* ===== verification/Ownership.v ===== *)
(** * Ownership and audit ([common/ownership.py], [common/database.py])

    A claimed task is identified by its run, node and generation; every write
    back to it repeats that identity, so a superseded instance matches nothing.
    The audit record is part of the transaction that writes it. *)

From S2P Require Import Prelude PyTime PyValue Mongo.
Open Scope camera_scope.

(** `owner_filter(task)`, as the predicate it denotes. *)
Definition owner_filter (task d : pydict) : bool :=
  fld d "id" task.["id"] && fld d "runId" task.["runId"]
  && fld d "nodeId" task.["nodeId"] && fld d "generation" task.["generation"].

Lemma owner_filter_spec task d :
  owner_filter task d = true <->
  d.["id"] = task.["id"] /\ d.["runId"] = task.["runId"] /\ d.["nodeId"] = task.["nodeId"]
  /\ d.["generation"] = task.["generation"].
Proof. unfold owner_filter. rewrite !andb_true_iff, !fld_true. tauto. Qed.

(** The text of an identifier field. *)
Definition text (v : pyval) : string := default "" (as_str v).

Section ownership.
Context `{Mongo}.

(** `Repository.audit`; [context] is the request's. *)
Definition audit (context : pydict) (now : Z) (actor : pyval) (action : string) (target : pyval) : dbm unit :=
  let document := [("actor", actor); ("action", PStr action); ("targetId", target);
    ("requestId", context.["requestId"]); ("clientIp", context.["clientIp"]); ("createdAt", PTime (Aware now))] in
  insert_one Audit (if truthy context.["serviceTokenId"]
                    then dict_set document "serviceTokenId" context.["serviceTokenId"] else document).

Context `{!MongoLaws}.

(** The audit collection has no unique index: the record is always added. *)
Lemma wp_audit context now actor action target (Q : result exn unit -> database -> Prop) db :
  (forall d db', content db' Audit = content db Audit ++ [d] -> d.["action"] = PStr action ->
     (forall c, c <> Audit -> content db' c = content db c) -> Q (Ok tt) db') ->
  wp (audit context now actor action target) Q db.
Proof.
  intros H1. unfold audit. apply wp_insert.
  - intros db' _ Hc Ho. eapply H1; [exact Hc| |exact Ho].
    destruct (truthy _); [by rewrite get_set_ne|done].
  - intros d' _ Hc. done.
Qed.

(** The same, with the target of the record. *)
Lemma wp_audit_target context now actor action target (Q : result exn unit -> database -> Prop) db :
  (forall d db', content db' Audit = content db Audit ++ [d] -> d.["action"] = PStr action -> d.["targetId"] = target ->
     (forall c, c <> Audit -> content db' c = content db c) -> Q (Ok tt) db') ->
  wp (audit context now actor action target) Q db.
Proof.
  intros H1. unfold audit. apply wp_insert.
  - intros db' _ Hc Ho. eapply H1; [exact Hc| | |exact Ho]; (destruct (truthy _); [by rewrite get_set_ne|done]).
  - intros d' _ Hc. done.
Qed.
End ownership.
