(* ===== verification/Commands.v ===== *)
(** * Command reservation, admission and claiming ([commands/reservation.py],
    [commands/manual_admission.py], [commands/manual_claim.py],
    [node/manual_queue.py])

    A command reaches a device only after a transaction that increments the
    task document, which makes it conflict with a stop, a takeover or another
    claim.  Scheduled commands spend a budget per run; manual commands queue,
    at most a hundred per session, and leave the queue once. *)

From S2P Require Import Prelude PyTime PyValue Ordering Mongo Ownership.
Open Scope camera_scope.

Definition MANUAL_QUEUE_LIMIT : Z := 100.

Definition QUEUED := PStr "QUEUED".
Definition SENDING := PStr "SENDING".
Definition CANCELLED := PStr "CANCELLED".
Definition MANUAL := PStr "MANUAL".
Definition SCHEDULED := PStr "SCHEDULED".

(** `$inc: commandClaimVersion` *)
Definition claim_version (d : pydict) : pydict := dict_inc "commandClaimVersion" 1 d.

(** [_scheduled_command]. *)
Definition _scheduled_command (task : pydict) (command_id : string) : option pydict :=
  List.find (fun c => fld c "id" (PStr command_id))
    (omap as_dict match dict_get_or task "scheduledCommands" (PList []) with PList l => l | _ => [] end).

(** The filter of a task this instance may send commands for. *)
Definition collecting (task : pydict) (session_id : pyval) (d : pydict) : bool :=
  owner_filter task d && fld d "sessionId" session_id && fld d "status" (PStr "COLLECTING")
  && fld d "desiredState" (PStr "RUNNING").

Definition not_removed (d : pydict) : bool := negb (fld d "resourceDeleted" (PBool true)).

Section commands.
Context `{Mongo}.

(** ** Scheduled commands ([reservation.py]) *)

Definition budget_key (run_id : pyval) (command_id : string) : pyval := PStr (text run_id +:+ ":" +:+ command_id).

(** `command["totalExecutions"]`, an integer by the schema; `$lt` with any other value
    matches no counter. *)
Definition total_executions (command : pydict) : Z := default 0 (as_int command.["totalExecutions"]).

(** The execution record. *)
Definition execution_of (execution_id command_id : string) (session_id : pyval) (now : Z) (current command budget : pydict)
  : pydict :=
  [("id", PStr execution_id); ("taskId", current.["id"]); ("runId", current.["runId"]); ("sessionId", session_id);
   ("commandId", PStr command_id); ("command", command.["command"]);
   ("totalExecutions", command.["totalExecutions"]); ("intervalSeconds", command.["intervalSeconds"]);
   ("kind", SCHEDULED); ("attempt", budget.["attempts"]); ("status", SENDING); ("createdAt", PTime (Aware now))].

(** `reserve_scheduled.commit`. *)
Definition reserve_commit (task : pydict) (command_id : string) (session_id : pyval) (execution_id : string) (now : Z)
  : dbm (option pydict) :=
  let! current := find_one_and_update Tasks (fun d => collecting task session_id d && not_removed d) claim_version in
  match current with
  | None => st_ret None
  | Some current =>
      match _scheduled_command current command_id with
      | None => st_raise Rejected
      | Some command =>
          let key := budget_key current.["runId"] command_id in
          let! _ := upsert_one Budgets (fun d => fld d "_id" key) id [("_id", key); ("attempts", PInt 0)] in
          let! _ := raise_if (absent command "totalExecutions") (KeyError "totalExecutions") in
          let! budget := find_one_and_update Budgets
            (fun d => fld d "_id" key && num_lt d "attempts" (total_executions command)) (dict_inc "attempts" 1) in
          match budget with
          | None => st_raise Rejected
          | Some budget =>
              let execution := execution_of execution_id command_id session_id now current command budget in
              let! _ := insert_one Commands execution in
              st_ret (Some execution)
          end
      end
  end.

(** [reserve_scheduled]: the execution identifier is fixed before the
    transaction; an unconfirmed commit keeps it. *)
Definition reserve_scheduled (task : pydict) (command_id : string) (session_id : pyval) (execution_id : string) (now : Z)
    (f : fate) : dbm (option pydict) :=
  match _scheduled_command task command_id with
  | None => st_ret None
  | Some _ =>
      st_catch (transaction f (reserve_commit task command_id session_id execution_id now))
        (fun e => match e with
                  | Rejected => Some (st_ret None)
                  | _ => if is_pymongo e then Some (st_raise (ReservationUncertain execution_id)) else None
                  end)
  end.

(** ** Manual commands *)

(** The records of a session's manual commands in a state. *)
Definition manual_in (task_id run_id session_id status : pyval) (d : pydict) : bool :=
  fld d "taskId" task_id && fld d "runId" run_id && fld d "sessionId" session_id && fld d "kind" MANUAL
  && fld d "status" status.

(** [admit_manual]'s transaction body. *)
Definition admit_commit (task : pydict) (identifier : string) (body : pydict) (actor_id : pyval)
    (actor_username : option string) (now : Z) : dbm pydict :=
  let! current := find_one_and_update Tasks
    (fun d => collecting task task.["sessionId"] d && fld d "deletedAt" PNone && not_removed d) claim_version in
  match current with
  | None => st_raise (Http 409 "任务会话或归属已变化，请刷新后重试")
  | Some current =>
      let scope := [("taskId", current.["id"]); ("runId", current.["runId"]);
                    ("sessionId", current.["sessionId"]); ("kind", MANUAL)] in
      let! queued := count_documents Commands
        (manual_in current.["id"] current.["runId"] current.["sessionId"] QUEUED) in
      let! _ := raise_if (MANUAL_QUEUE_LIMIT <=? queued) (Http 429 "命令队列已满") in
      let document := set_all (scope ++ [("id", PStr identifier); ("actor", actor_id); ("status", QUEUED);
                                         ("createdAt", PTime (Aware now))]) body in
      let document := match actor_username with
                      | Some name => if String.eqb name "" then document else dict_set document "actorUsername" (PStr name)
                      | None => document
                      end in
      let! _ := insert_one Commands document in
      st_ret document
  end.

(** [admit_manual] in a transaction of its own. *)
Definition admit_manual (task : pydict) (identifier : string) (body : pydict) (actor_id : pyval)
    (actor_username : option string) (now : Z) (f : fate) : dbm pydict :=
  transaction f (admit_commit task identifier body actor_id actor_username now).

(** [_scope]. *)
Definition _scope (task record d : pydict) : bool :=
  fld d "id" record.["id"] && fld d "taskId" task.["id"] && fld d "kind" MANUAL
  && fld d "runId" record.["runId"] && fld d "sessionId" record.["sessionId"].

Definition finish (status : pyval) (now : Z) (d : pydict) : pydict :=
  set_all [("status", status); ("completedAt", PTime (Aware now))] d.

(** `claim_manual.commit`. *)
Definition claim_manual_commit (task : pydict) (session_id : pyval) (record : pydict) (now : Z) : dbm (option pydict) :=
  let! current := find_one_and_update Tasks
    (fun d => collecting task session_id d && fld d "deletedAt" PNone && not_removed d) claim_version in
  match current with
  | None => st_ret None
  | Some current =>
      if negb (fld record "runId" current.["runId"]) || negb (fld record "sessionId" current.["sessionId"])
      then
        let! _ := update_one Commands (fun d => _scope task record d && fld d "status" QUEUED) (finish CANCELLED now) in
        st_ret None
      else
        find_one_and_update Commands
          (fun d => fld d "id" record.["id"]
                    && manual_in current.["id"] current.["runId"] current.["sessionId"] QUEUED d)
          (set_all [("status", SENDING); ("startedAt", PTime (Aware now))])
  end.

(** [claim_manual]. *)
Definition claim_manual (task : pydict) (session_id : pyval) (record : pydict) (now : Z) (f : fate)
  : dbm (option pydict) :=
  st_catch (transaction f (claim_manual_commit task session_id record now))
    (fun e => if is_pymongo e then Some (st_raise ManualClaimUncertain) else None).

(** ** The queue of a session ([manual_queue.py]) *)

(** `sort=[("createdAt", 1), ("id", 1)]`. *)
Definition queue_key (d : pydict) : Z * string :=
  (match d.["createdAt"] with PTime t => utc_instant t | _ => 0 end, text d.["id"]).

Definition queue_order : list pydict -> list pydict := sort_by queue_key (pair_leb Z.leb str_leb).

(** The live object the queue belongs to. *)
Record session_runtime := SessionRuntime {
  sr_task : pydict;
  sr_session : option pyval;   (* the session of `runtime.collector`, if there is one *)
  sr_stopping : bool;
  sr_retired : bool }.

Definition queued_manual (task_id : pyval) (d : pydict) : bool :=
  fld d "taskId" task_id && fld d "kind" MANUAL && fld d "status" QUEUED.

(** [next_manual_command]; [still] is whether the runtime is unchanged after the
    awaits. *)
Definition next_manual_command (runtime : session_runtime) (still : bool) (now : Z) : dbm (option pydict) :=
  match sr_session runtime with
  | None => st_ret None
  | Some session_id =>
      if sr_stopping runtime || sr_retired runtime then st_ret None
      else
        let task_id := (sr_task runtime).["id"] in
        let run_id := (sr_task runtime).["runId"] in
        let! others := find_all Commands (fun d => queued_manual task_id d
          && (negb (fld d "runId" run_id) || negb (fld d "sessionId" session_id))) in
        let stale := take 100 (queue_order others) in
        let! current := find_one Tasks
          (fun d => collecting (sr_task runtime) session_id d && fld d "deletedAt" PNone) in
        match current with
        | None => st_ret None
        | Some _ =>
            if negb still then st_ret None
            else
              let! _ := (match stale with
                | [] => st_ret 0
                | _ => update_many Commands
                    (fun d => queued_manual task_id d
                      && existsb (fun s => fld d "id" s.["id"] && fld d "runId" s.["runId"]
                                           && fld d "sessionId" s.["sessionId"]) stale)
                    (finish CANCELLED now)
                end) in
              let! mine := find_all Commands (fun d => queued_manual task_id d
                && fld d "runId" run_id && fld d "sessionId" session_id) in
              st_ret (head (queue_order mine))
        end
  end.

(** ** Properties of the budget *)

Definition spent_of (budgets : list pydict) (key : pyval) : Z :=
  match List.find (fun d => fld d "_id" key) budgets with
  | Some d => default 0 (as_int d.["attempts"])
  | None => 0
  end.

(** The executions charged to a budget, in the order they were recorded. *)
Definition executions (key : pyval) (commands : list pydict) : list pydict :=
  filter (fun d => d.["kind"] = SCHEDULED /\ budget_key d.["runId"] (text d.["commandId"]) = key) commands.

Record budget_inv (db : database) : Prop := {
  bi_unique : NoDup (map (fun d => d.["_id"]) (content db Budgets));
  bi_attempts : forall key, map (fun d => d.["attempt"]) (executions key (content db Commands))
                            = map PInt (seqZ 1 (spent_of (content db Budgets) key));
  bi_counts : Forall (fun d => exists n, d.["attempts"] = PInt n /\ 0 <= n) (content db Budgets) }.

Lemma collecting_spec task session_id d :
  collecting task session_id d = true <->
  d.["id"] = task.["id"] /\ d.["runId"] = task.["runId"] /\ d.["nodeId"] = task.["nodeId"]
  /\ d.["generation"] = task.["generation"] /\ d.["sessionId"] = session_id
  /\ d.["status"] = PStr "COLLECTING" /\ d.["desiredState"] = PStr "RUNNING".
Proof. unfold collecting. rewrite !andb_true_iff, !fld_true, owner_filter_spec. tauto. Qed.

Lemma manual_in_spec t r s status d :
  manual_in t r s status d = true <->
  d.["taskId"] = t /\ d.["runId"] = r /\ d.["sessionId"] = s /\ d.["kind"] = MANUAL /\ d.["status"] = status.
Proof. unfold manual_in. rewrite !andb_true_iff, !fld_true. tauto. Qed.

Lemma find_app_some {A} (p : A -> bool) l r : List.find p (l ++ r) =
  match List.find p l with Some x => Some x | None => List.find p r end.
Proof. induction l as [|x l IH]; cbn; [done|]. by destruct (p x). Qed.

Lemma find_none_iff {A} (p : A -> bool) l : (forall x, x ∈ l -> p x = false) -> List.find p l = None.
Proof.
  intros H1. destruct (List.find p l) as [x|] eqn:E; [|done]. apply List.find_some in E as [Hx Hp].
  rewrite H1 in Hp; [done|by apply list_elem_of_In].
Qed.

Lemma spent_insert l key k :
  no_match (fun d => fld d "_id" key) l ->
  spent_of (l ++ [[("_id", key); ("attempts", PInt 0)]]) k = spent_of l k.
Proof.
  intros Hn. unfold spent_of. rewrite find_app_some. destruct (List.find _ l); [done|]. cbn.
  by destruct (fld _ _ _).
Qed.

Lemma spent_inc l d r key k n :
  NoDup (map (fun d : pydict => d.["_id"]) (l ++ d :: r)) -> d.["_id"] = key -> d.["attempts"] = PInt n ->
  spent_of (l ++ dict_inc "attempts" 1 d :: r) k
  = if decide (k = key) then n + 1 else spent_of (l ++ d :: r) k.
Proof.
  intros Hnd Hk Hn. unfold spent_of. rewrite !find_app_some. cbn [List.find].
  assert (Hid : fld (dict_inc "attempts" 1 d) "_id" k = fld d "_id" k) by (unfold fld; by dget).
  rewrite Hid. destruct (decide (k = key)) as [->|Hne].
  - rewrite (find_none_iff _ l); [|].
    + rewrite (proj2 (fld_true _ _ _) Hk). unfold dict_inc. rewrite get_set_eq, Hn. done.
    + intros x Hx. apply fld_false. intros Hxk. rewrite map_app in Hnd. apply NoDup_app in Hnd as (_ & Hd & _).
      apply (Hd (d.["_id"])); [apply list_elem_of_fmap; exists x; split; congruence|]. cbn. by left.
  - destruct (List.find _ l); [done|]. rewrite (proj2 (fld_false _ _ _)) by congruence. done.
Qed.

Lemma spent_at l d r key n :
  NoDup (map (fun d : pydict => d.["_id"]) (l ++ d :: r)) -> d.["_id"] = key -> d.["attempts"] = PInt n ->
  spent_of (l ++ d :: r) key = n.
Proof.
  intros Hnd Hk Hn. unfold spent_of. rewrite find_app_some. cbn [List.find].
  rewrite (find_none_iff _ l), (proj2 (fld_true _ _ _) Hk); [by rewrite Hn|].
  intros x Hx. apply fld_false. intros Hxk. rewrite map_app in Hnd. apply NoDup_app in Hnd as (_ & Hd & _).
  apply (Hd (d.["_id"])); [apply list_elem_of_fmap; exists x; split; congruence|]. cbn. by left.
Qed.

Context `{!MongoLaws}.

Lemma scheduled_claimed d cid : _scheduled_command (claim_version d) cid = _scheduled_command d cid.
Proof.
  unfold _scheduled_command, claim_version, dict_inc, dict_get_or. by rewrite dict_lookup_set, decide_False.
Qed.

(** What a recorded execution satisfies. *)
Definition authorised (task : pydict) (command_id : string) (session_id : pyval) (db : database) (e : pydict) : Prop :=
  exists current command n, current ∈ content db Tasks
    /\ collecting task session_id current = true /\ not_removed current = true
    /\ _scheduled_command current command_id = Some command
    /\ e.["attempt"] = PInt n /\ 1 <= n <= total_executions command.

Definition recorded (task : pydict) (command_id execution_id : string) (session_id : pyval) (db db' : database)
    (e : pydict) : Prop :=
  budget_inv db' /\ authorised task command_id session_id db e
  /\ content db' Commands = content db Commands ++ [e] /\ e.["id"] = PStr execution_id /\ e.["status"] = SENDING.

(** The two budget operations: a fresh budget is empty, and the increment takes
    the budget of the key below its total. *)
Lemma charge_wp key missing total db (Q : result exn (option pydict) -> database -> Prop) :
  budget_inv db ->
  (forall n db' b, 0 <= n < total -> b.["attempts"] = PInt (n + 1) -> spent_of (content db Budgets) key = n ->
     NoDup (map (fun d : pydict => d.["_id"]) (content db' Budgets)) ->
     (forall k, spent_of (content db' Budgets) k = if decide (k = key) then n + 1 else spent_of (content db Budgets) k) ->
     Forall (fun d : pydict => exists n, d.["attempts"] = PInt n /\ 0 <= n) (content db' Budgets) ->
     (forall c, c <> Budgets -> content db' c = content db c) -> Q (Ok (Some b)) db') ->
  (forall db', Q (Ok None) db') -> (forall e db', e = DuplicateKeyError \/ (e = KeyError "totalExecutions" /\ missing = true) -> Q (Raise e) db') ->
  wp (let! _ := upsert_one Budgets (fun d => fld d "_id" key) id [("_id", key); ("attempts", PInt 0)] in
      let! _ := raise_if missing (KeyError "totalExecutions") in
      find_one_and_update Budgets (fun d => fld d "_id" key && num_lt d "attempts" total) (dict_inc "attempts" 1)) Q db.
Proof.
  intros [Hu Ha Hc] HS HN HR. apply wp_bind.
  enough (Hinc : forall db1, NoDup (map (fun d : pydict => d.["_id"]) (content db1 Budgets)) ->
    (forall k, spent_of (content db1 Budgets) k = spent_of (content db Budgets) k) ->
    Forall (fun d : pydict => exists n, d.["attempts"] = PInt n /\ 0 <= n) (content db1 Budgets) ->
    (forall c, c <> Budgets -> content db1 c = content db c) ->
    wp (find_one_and_update Budgets (fun d => fld d "_id" key && num_lt d "attempts" total) (dict_inc "attempts" 1)) Q db1).
  - assert (Hmissing : forall db1, wp (find_one_and_update Budgets (fun d => fld d "_id" key && num_lt d "attempts" total) (dict_inc "attempts" 1)) Q db1 ->
      wp (let! _ := raise_if missing (KeyError "totalExecutions") in
          find_one_and_update Budgets (fun d => fld d "_id" key && num_lt d "attempts" total) (dict_inc "attempts" 1)) Q db1).
    { intros db1 Hd. apply wp_bind, wp_raise_if; [|by intros _]. intros Hm. apply HR. by right. }
    unfold upsert_one. apply wp_bind, wp_update_one; cbn.
    + intros d db1 (_ & (l & r & E1 & E2) & Ho). assert (E : content db1 Budgets = content db Budgets) by (by rewrite E1, E2).
      apply Hmissing, Hinc; rewrite ?E; auto.
    + intros Hno. apply wp_insert; [|intros; apply HR; by left]. intros db1 _ E Ho. cbn. apply Hmissing, Hinc; rewrite ?E.
      * rewrite map_app. apply NoDup_app. split_and!; [done| |apply NoDup_singleton].
        intros x Hx Hx'. cbn in Hx'. apply list_elem_of_singleton in Hx'. subst x.
        apply list_elem_of_fmap in Hx as (d & Hd & Hin). specialize (Hno d Hin). apply fld_false in Hno.
        apply Hno. symmetry. exact Hd.
      * intros k. by apply spent_insert.
      * apply Forall_app. split; [done|]. constructor; [|constructor]. by exists 0.
      * done.
  - intros db1 Hu1 Hs1 Hc1 Ho1. apply wp_update; [|intros; apply HN].
    intros d db2 (Hq & (l & r & E1 & E2) & Ho2). apply andb_prop in Hq as [Hk Hlt]. apply fld_true in Hk.
    rewrite E1 in Hu1, Hc1. apply Forall_app in Hc1 as [Hcl Hcr]. inversion_clear Hcr as [|? ? [n [Hn Hn0]] Hcr'].
    unfold num_lt in Hlt. rewrite Hn in Hlt. apply Z.ltb_lt in Hlt.
    assert (Hmap : map (fun d : pydict => d.["_id"]) (l ++ dict_inc "attempts" 1 d :: r)
      = map (fun d : pydict => d.["_id"]) (l ++ d :: r)) by (rewrite !map_app; cbn; by dget).
    assert (Hat : (dict_inc "attempts" 1 d).["attempts"] = PInt (n + 1))
      by (unfold dict_inc; rewrite get_set_eq, Hn; done).
    apply (HS n); rewrite ?E2; try done.
    + rewrite <- Hs1, E1. by apply (spent_at _ _ _ _ _ Hu1).
    + by rewrite Hmap.
    + intros k. rewrite (spent_inc _ _ _ _ _ _ Hu1 Hk Hn). destruct (decide (k = key)); [done|]. by rewrite <- Hs1, E1.
    + apply Forall_app. split; [done|]. constructor; [|done]. exists (n + 1). split; [done|lia].
    + intros c Hc'. by rewrite Ho2, Ho1.
Qed.

Lemma budget_inv_same db db' :
  content db' Budgets = content db Budgets -> content db' Commands = content db Commands ->
  budget_inv db -> budget_inv db'.
Proof. intros E1 E2 [H1 H2 H3]. split; by rewrite ?E1, ?E2. Qed.

Lemma executions_snoc key commands e :
  executions key (commands ++ [e]) =
  executions key commands ++ (if decide (e.["kind"] = SCHEDULED /\ budget_key e.["runId"] (text e.["commandId"]) = key)
                              then [e] else []).
Proof. unfold executions. rewrite filter_app, filter_cons. by destruct (decide _). Qed.

Lemma wp_bind_assoc {A B C D} (m : dbm A) (k : A -> dbm B) (l : B -> dbm C) (k' : C -> dbm D) Q db :
  wp (st_bind (st_bind m (fun a => st_bind (k a) l)) k') Q db ->
  wp (st_bind m (fun a => st_bind (k a) (fun b => st_bind (l b) k'))) Q db.
Proof. unfold wp, st_bind. destruct (m db) as [[a|e] db']; [|done]. by destruct (k a db') as [[b|e] db2]. Qed.

(** A stored task has the command without its total. *)
Definition untotalled (command_id : string) (db : database) : Prop :=
  exists current command, current ∈ content db Tasks /\ _scheduled_command current command_id = Some command
    /\ absent command "totalExecutions" = true.

Lemma reserve_commit_wp task command_id session_id execution_id now db :
  budget_inv db ->
  wp (reserve_commit task command_id session_id execution_id now) (fun r db' => match r with
    | Ok (Some e) => recorded task command_id execution_id session_id db db' e
    | Ok None => db' = db
    | Raise e => e = Rejected \/ e = DuplicateKeyError \/ (e = KeyError "totalExecutions" /\ untotalled command_id db) end) db.
Proof.
  intros Hinv. unfold reserve_commit. apply wp_bind, wp_update; cbn; [|by intros].
  intros d db1 (Hq & (l & r & E1 & E2) & Ho). apply andb_prop in Hq as [Hcol Hnr].
  assert (Hinv1 : budget_inv db1) by (apply (budget_inv_same db); [by apply Ho|by apply Ho|done]).
  rewrite scheduled_claimed. destruct (_scheduled_command d command_id) as [command|] eqn:Ec; [|by left].
  assert (Hrun : (claim_version d).["runId"] = d.["runId"]) by (unfold claim_version; by dget).
  set (key := budget_key (claim_version d).["runId"] command_id).
  apply wp_bind_assoc, wp_bind, charge_wp; [done| |cbn; auto|].
  2:{ cbn. intros x db' [->|[-> Hm]]; [by right; left|]. right; right. split; [done|]. exists d, command.
      split_and!; [rewrite E1; apply elem_of_middle|done|done]. }
  intros n db2 b Hn Hb Hsp Hu2 Hs2 Hc2 Ho2. cbn.
  set (e := execution_of _ _ _ _ _ _ _). apply wp_bind, wp_insert; cbn; [|by right; left].
  intros db3 Hnoc E3 Ho3. split; [|split; [|split; [|done]]].
  - destruct Hinv1 as [I1 I2 I3]. split.
    + rewrite Ho3 by done. done.
    + intros k. rewrite E3, Ho3, Hs2 by done. rewrite Ho2 by done. rewrite executions_snoc, map_app, I2.
      destruct (decide (k = key)) as [->|Hne].
      * rewrite decide_True by done. cbn. change (e.["attempt"]) with (b.["attempts"]). rewrite Hb, Hsp.
        rewrite seqZ_app, map_app by lia. cbn. by rewrite Z.add_comm.
      * rewrite decide_False; [by rewrite app_nil_r|]. intros [_ Hk]. apply Hne. rewrite <- Hk. done.
    + rewrite Ho3 by done. done.
  - exists d, command, (n + 1). rewrite E1. split_and!; try done; [by apply elem_of_app; right; left|lia..].
  - rewrite E3, Ho2, Ho by done. done.
Qed.

(** C33: the budget of a scheduled command is never exceeded and never leaks.
    Whatever the outcome of the reservation, the executions recorded for every
    budget are numbered 1, 2, ... up to its counter.  A returned execution was
    recorded once, in SENDING, for a task this instance still owned and
    collected for the session, with a number within the command's total; [None]
    changed nothing; an unconfirmed commit raises the uncertain error with the
    identifier of the record it may have left; and the only other error is that of
    a stored command without a total, which changes nothing. *)
Theorem reserve_scheduled_budget task command_id session_id execution_id now f db :
  budget_inv db ->
  let '(r, db') := reserve_scheduled task command_id session_id execution_id now f db in
  budget_inv db' /\ match r with
  | Ok (Some e) => f = Committed /\ recorded task command_id execution_id session_id db db' e
  | Ok None => db' = db
  | Raise (ReservationUncertain i) =>
      i = execution_id /\ (db' = db \/ exists e, recorded task command_id execution_id session_id db db' e)
  | Raise e => e = KeyError "totalExecutions" /\ db' = db /\ untotalled command_id db
  end.
Proof.
  intros Hinv. enough (Hwp : wp (reserve_scheduled task command_id session_id execution_id now f) (fun r db' =>
    budget_inv db' /\ match r with
    | Ok (Some e) => f = Committed /\ recorded task command_id execution_id session_id db db' e
    | Ok None => db' = db
    | Raise (ReservationUncertain i) =>
        i = execution_id /\ (db' = db \/ exists e, recorded task command_id execution_id session_id db db' e)
    | Raise e => e = KeyError "totalExecutions" /\ db' = db /\ untotalled command_id db end) db) by exact Hwp.
  unfold reserve_scheduled. destruct (_scheduled_command task command_id); [|done].
  apply wp_catch, wp_transaction. eapply wp_mono; [by apply reserve_commit_wp|].
  intros [[e|]|x] db' Hr; cbn in Hr.
  - destruct f as [|[]]; cbn; (split; [|try done]); try apply Hr; try done; (split; [done|]); [right; by exists e|by left].
  - subst db'. destruct f as [|[]]; cbn; auto.
  - destruct Hr as [->|[->|[-> ?]]]; cbn; auto.
Qed.

(** ** Properties of the manual queue *)

Definition queued_in (task_id run_id session_id : pyval) (l : list pydict) : Z :=
  zlen (filter (fun d => manual_in task_id run_id session_id QUEUED d = true) l).

Definition queue_inv (db : database) : Prop :=
  forall t r s, queued_in t r s (content db Commands) <= MANUAL_QUEUE_LIMIT.

Lemma zlen_filter_perm {A} (P : A -> Prop) `{forall x, Decision (P x)} l k :
  l ≡ₚ filter P k -> zlen l = zlen (filter P k).
Proof. intros Hp. unfold zlen. by rewrite Hp. Qed.

(** The manual queue of a session never holds more than its limit, and
    admission says why it refuses.  An admitted command is one new QUEUED record
    of a session this instance owned and collected, whose queue was not full;
    a refusal for lost ownership, for a full queue or for a duplicate identifier
    happens exactly then and changes nothing; only an unconfirmed commit leaves
    the outcome open. *)
Theorem admit_manual_bounded task identifier body actor_id actor_username now f db :
  queue_inv db ->
  let '(r, db') := admit_manual task identifier body actor_id actor_username now f db in
  let owned d := collecting task task.["sessionId"] d && fld d "deletedAt" PNone && not_removed d in
  queue_inv db' /\ match r with
  | Ok doc => f = Committed /\ content db' Commands = content db Commands ++ [doc]
      /\ doc.["id"] = PStr identifier /\ manual_in task.["id"] task.["runId"] task.["sessionId"] QUEUED doc = true
      /\ queued_in task.["id"] task.["runId"] task.["sessionId"] (content db Commands) < MANUAL_QUEUE_LIMIT
      /\ exists current, current ∈ content db Tasks /\ owned current = true
  | Raise e =>
      (e = Http 409 "任务会话或归属已变化，请刷新后重试" /\ db' = db /\ no_match owned (content db Tasks))
      \/ (e = Http 429 "命令队列已满" /\ db' = db
          /\ queued_in task.["id"] task.["runId"] task.["sessionId"] (content db Commands) = MANUAL_QUEUE_LIMIT)
      \/ (e = DuplicateKeyError /\ db' = db /\ exists d, d ∈ content db Commands /\ d.["id"] = PStr identifier)
      \/ (e = PyMongoError /\ f <> Committed
          /\ (db' = db \/ exists doc, content db' Commands = content db Commands ++ [doc] /\ doc.["id"] = PStr identifier))
  end.
Proof.
  intros Hinv. cbv zeta. set (owned := fun d => collecting task task.["sessionId"] d && fld d "deletedAt" PNone && not_removed d).
  enough (Hwp : wp (admit_commit task identifier body actor_id actor_username now) (fun r db' => match r with
    | Ok doc => content db' Commands = content db Commands ++ [doc]
      /\ doc.["id"] = PStr identifier /\ manual_in task.["id"] task.["runId"] task.["sessionId"] QUEUED doc = true
      /\ queued_in task.["id"] task.["runId"] task.["sessionId"] (content db Commands) < MANUAL_QUEUE_LIMIT
      /\ exists current, current ∈ content db Tasks /\ owned current = true
    | Raise e => (e = Http 409 "任务会话或归属已变化，请刷新后重试" /\ no_match owned (content db Tasks))
      \/ (e = Http 429 "命令队列已满"
          /\ queued_in task.["id"] task.["runId"] task.["sessionId"] (content db Commands) = MANUAL_QUEUE_LIMIT)
      \/ (e = DuplicateKeyError /\ exists d, d ∈ content db Commands /\ d.["id"] = PStr identifier) end) db).
  - unfold admit_manual, transaction, wp in *.
    destruct (admit_commit _ _ _ _ _ _ db) as [[doc|e] db1].
    + destruct Hwp as (E & Hid & Hm & Hlt & Hcur).
      assert (Hinv1 : queue_inv db1).
      { intros t r s. unfold queued_in in *. rewrite E, filter_app, zlen_app, filter_cons.
        destruct (decide (manual_in t r s QUEUED doc = true)) as [Hd|]; [|cbn; rewrite zlen_nil, Z.add_0_r; apply Hinv].
        apply manual_in_spec in Hm as (? & ? & ? & _), Hd as (? & ? & ? & _).
        replace t with task.["id"] by congruence. replace r with task.["runId"] by congruence.
        replace s with task.["sessionId"] by congruence. cbn. rewrite zlen_cons, zlen_nil. lia. }
      destruct f as [|[]]; cbn; [by split_and!|split; [done|]; right; right; right..].
      * split_and!; [done|done|]. right. by exists doc.
      * split_and!; [done|done|by left].
    + cbn. split; [done|]. destruct Hwp as [[-> ?]|[[-> ?]|[-> ?]]]; [left|right; left|right; right; left]; by split_and!.
  - unfold admit_commit. apply wp_bind, wp_update; cbn; [|by left].
    intros d db1 (Hq & (l & r & E1 & E2) & Ho). fold owned in Hq.
    assert (Hown : collecting task task.["sessionId"] d = true) by (unfold owned in Hq; freflect; done).
    apply collecting_spec in Hown as (Hid & Hrun & _ & _ & Hses & _).
    unfold count_documents. apply wp_bind, wp_bind, wp_find_all. intros k Hk. cbn.
    unfold claim_version in *. rewrite (zlen_filter_perm _ _ _ Hk), Ho by done. dget_in Hk. dget.
    rewrite Hid, Hrun, Hses. pose proof (Hinv task.["id"] task.["runId"] task.["sessionId"]) as Hle.
    change (zlen (filter _ (content db Commands))) with (queued_in task.["id"] task.["runId"] task.["sessionId"] (content db Commands)).
    apply wp_bind, wp_raise_if; cbn.
    + intros Hge. apply Z.leb_le in Hge. right. left. split; [done|lia].
    + intros Hlt. apply Z.leb_gt in Hlt. set (doc := match actor_username with Some _ => _ | None => _ end).
      assert (Hdoc : manual_in task.["id"] task.["runId"] task.["sessionId"] QUEUED doc = true /\ doc.["id"] = PStr identifier).
      { rewrite manual_in_spec. unfold doc.
        destruct actor_username as [name|]; [destruct (String.eqb name "")|]; cbn [set_all foldl app fst snd]; by dget. }
      apply wp_bind, wp_insert; cbn.
      * intros db2 _ E Ho2. split_and!; [by rewrite E, Ho by done|apply Hdoc|apply Hdoc|done|].
        exists d. rewrite E1. split; [by apply elem_of_app; right; left|done].
      * intros x Hx Hc. right. right. split; [done|]. exists x. rewrite Ho in Hx by done. split; [done|].
        unfold clash in Hc. cbn in Hc. rewrite andb_true_r in Hc. apply fld_true in Hc. by rewrite Hc, (proj2 Hdoc).
Qed.

(** A queued record [d] of the claimed identity became [e], in SENDING. *)
Definition claimed (record : pydict) (db db' : database) (e : pydict) : Prop :=
  exists l d r, content db Commands = l ++ d :: r /\ content db' Commands = l ++ e :: r
    /\ manual_in d.["taskId"] record.["runId"] record.["sessionId"] QUEUED d = true /\ d.["id"] = record.["id"]
    /\ e.["status"] = SENDING /\ e.["id"] = record.["id"].

Lemma claim_manual_commit_wp task session_id record now db :
  wp (claim_manual_commit task session_id record now) (fun r db' => match r with
    | Ok (Some e) => claimed record db db' e | _ => True end) db.
Proof.
  unfold claim_manual_commit. apply wp_bind, wp_update; cbn; [|done].
  intros t db1 (_ & _ & Ho). destruct (negb _ || negb _) eqn:E.
  - apply wp_bind, wp_update_one; cbn; done.
  - apply orb_false_elim in E as [E1 E2]. freflect. apply wp_update; [|done].
    intros d db2 (Hq & (l & r & H1 & H2) & _). apply andb_prop in Hq as [Hid Hm]. apply fld_true in Hid.
    rewrite Ho in H1 by done. exists l, d, r. apply manual_in_spec in Hm as (? & ? & ? & ? & ?).
    rewrite manual_in_spec. cbn [set_all foldl fst snd]. dget.
    split_and!; first [exact H1|exact H2|congruence].
Qed.

Lemma claim_manual_spec task s record now f db e db1 :
  claim_manual task s record now f db = (Ok (Some e), db1) -> f = Committed /\ claimed record db db1 e.
Proof.
  pose proof (claim_manual_commit_wp task s record now db) as Hwp.
  unfold claim_manual, st_catch, transaction, wp in *.
  destruct (claim_manual_commit task s record now db) as [[r|x] db2].
  - destruct f; cbn; [|done]. by intros [= -> <-].
  - destruct x; cbn; done.
Qed.

(** C34: a manual command is claimed at most once.  A successful claim moves
    exactly one record, the one asked for, from QUEUED to SENDING, and leaves
    all the other records as they were; afterwards no instance, with whatever
    task snapshot, session or clock, can claim the same command again. *)
Theorem claim_manual_once task session_id record now f db e db1 :
  NoDup (map (fun d => d.["id"]) (content db Commands)) ->
  claim_manual task session_id record now f db = (Ok (Some e), db1) ->
  f = Committed /\ claimed record db db1 e
  /\ forall task' session_id' record' now' f' e' db2, record'.["id"] = record.["id"] ->
       claim_manual task' session_id' record' now' f' db1 <> (Ok (Some e'), db2).
Proof.
  intros Hnd Hclaim.
  destruct (claim_manual_spec _ _ _ _ _ _ _ _ Hclaim) as [Hf Hc]. split; [done|]. split; [done|].
  intros task' s' record' now' f' e' db2 Hid Hclaim'.
  destruct (claim_manual_spec _ _ _ _ _ _ _ _ Hclaim') as [_ (l' & d' & r' & E' & _ & Hm' & Hd' & _)].
  destruct Hc as (l & d & r & E1 & E2 & _ & Hd & Hst & He). apply manual_in_spec in Hm' as (_ & _ & _ & _ & Hq').
  assert (Hin : d' ∈ l ++ e :: r) by (rewrite <- E2, E'; apply elem_of_app; right; left).
  rewrite E1, map_app in Hnd. cbn in Hnd. apply elem_of_app in Hin as [Hin|[->|Hin]%elem_of_cons].
  - apply NoDup_app in Hnd as (_ & Hn & _). apply (Hn d.["id"]); [|by left].
    apply list_elem_of_fmap. exists d'. split; [congruence|done].
  - rewrite Hst in Hq'. done.
  - apply NoDup_app in Hnd as (_ & _ & Hn). apply NoDup_cons in Hn as [Hn _]. apply Hn.
    apply list_elem_of_fmap. exists d'. split; [congruence|done].
Qed.

Lemma queue_order_in d l : d ∈ queue_order l <-> d ∈ l.
Proof. unfold queue_order. by rewrite sort_by_perm. Qed.

Lemma queue_head l d : head (queue_order l) = Some d ->
  d ∈ l /\ forall d', d' ∈ l -> pair_leb Z.leb str_leb (queue_key d) (queue_key d') = true.
Proof.
  intros Hh. destruct (queue_order l) as [|x k] eqn:E; [done|]. injection Hh as ->. split.
  - apply queue_order_in. rewrite E. by left.
  - intros d' Hd'. apply queue_order_in in Hd'. rewrite E in Hd'.
    pose proof (sort_by_sorted queue_key (pair_leb Z.leb str_leb) l) as Hs. unfold queue_order in E. rewrite E in Hs.
    apply elem_of_cons in Hd' as [->|Hd']; [apply bo_refl; apply _|].
    inversion_clear Hs as [|? ? _ Hf]. rewrite Forall_forall in Hf. by apply Hf.
Qed.

(** The effect and the result of one look at the queue. *)
Definition queue_served (runtime : session_runtime) (still : bool) (session_id : pyval) (now : Z) (db : database)
    (r : result exn (option pydict)) (db' : database) : Prop :=
  let task := sr_task runtime in
  let mine := manual_in task.["id"] task.["runId"] session_id QUEUED in
  (forall c, c <> Commands -> content db' c = content db c)
  /\ (exists q, content db' Commands = map (apply_if q (finish CANCELLED now)) (content db Commands)
        /\ forall d, q d = true -> queued_manual task.["id"] d = true /\ mine d = false)
  /\ match r with
     | Ok (Some d) => d ∈ content db' Commands /\ mine d = true
         /\ forall d', d' ∈ content db' Commands -> mine d' = true ->
              pair_leb Z.leb str_leb (queue_key d) (queue_key d') = true
     | Ok None => sr_stopping runtime || sr_retired runtime || negb still = true
         \/ no_match (fun d => collecting task session_id d && fld d "deletedAt" PNone) (content db Tasks)
         \/ no_match mine (content db' Commands)
     | Raise _ => False
     end.

Lemma queue_unserved runtime still session_id now db :
  sr_stopping runtime || sr_retired runtime || negb still = true
  \/ no_match (fun d => collecting (sr_task runtime) session_id d && fld d "deletedAt" PNone) (content db Tasks) ->
  queue_served runtime still session_id now db (Ok None) db.
Proof.
  intros Hc. split_and!; [done| |tauto]. exists (fun _ => false). split; [|done]. by rewrite map_id.
Qed.

(** The last query, after the cancellations. *)
Lemma queue_query runtime still session_id now db db1 :
  (forall c, c <> Commands -> content db1 c = content db c) ->
  (exists q, content db1 Commands = map (apply_if q (finish CANCELLED now)) (content db Commands)
        /\ forall d, q d = true -> queued_manual (sr_task runtime).["id"] d = true
             /\ manual_in (sr_task runtime).["id"] (sr_task runtime).["runId"] session_id QUEUED d = false) ->
  wp (let! mine := find_all Commands (fun d => queued_manual (sr_task runtime).["id"] d
        && fld d "runId" (sr_task runtime).["runId"] && fld d "sessionId" session_id) in
      st_ret (head (queue_order mine))) (queue_served runtime still session_id now db) db1.
Proof.
  intros Ho Hq. apply wp_bind, wp_find_all. intros l Hl. cbn. split; [done|]. split; [done|].
  set (mine := manual_in _ _ _ _). assert (Hmem : forall d, d ∈ l <-> d ∈ content db1 Commands /\ mine d = true).
  { intros d. rewrite Hl, list_elem_of_filter. unfold mine, queued_manual, manual_in.
    rewrite !andb_true_iff, !fld_true. tauto. }
  destruct (head (queue_order l)) as [d|] eqn:E.
  - apply queue_head in E as [Hd Hmin]. apply Hmem in Hd as [? ?]. split_and!; [done|done|].
    intros d' ? ?. by apply Hmin, Hmem.
  - right. right. intros d Hd. destruct (mine d) eqn:Em; [|done]. exfalso.
    assert (Hin : d ∈ queue_order l) by (apply queue_order_in, Hmem; done).
    destruct (queue_order l); [by apply elem_of_nil in Hin|done].
Qed.

(** The dispatcher takes the commands of a session in the order they were
    created.  The returned command is queued for the current run and session
    and no other queued command of theirs precedes it; [None] from an owned,
    unchanged runtime means that the queue is empty; the only writes cancel
    queued commands of other runs or sessions of the same task. *)
Theorem next_manual_fifo runtime still now db session_id :
  sr_session runtime = Some session_id ->
  let '(r, db') := next_manual_command runtime still now db in
  queue_served runtime still session_id now db r db'.
Proof.
  intros Hs. enough (Hwp : wp (next_manual_command runtime still now)
    (queue_served runtime still session_id now db) db) by exact Hwp.
  unfold next_manual_command. rewrite Hs. cbv zeta.
  destruct (sr_stopping runtime || sr_retired runtime) eqn:Est; [apply queue_unserved; left; by rewrite Est|].
  apply wp_bind, wp_find_all. intros others Hoth. cbn.
  apply wp_bind, wp_find_one; cbn; [|intros Hn; apply queue_unserved; by right].
  intros cur _ _. destruct still; [|apply queue_unserved; left; apply orb_true_r]. cbn [negb].
  destruct (take 100 (queue_order others)) as [|s0 ss] eqn:Estale.
  - apply wp_bind. cbn. apply queue_query; [done|]. exists (fun _ => false). split; [|done]. by rewrite map_id.
  - apply wp_bind, wp_update_many. intros db1 E1 Ho1. cbn [on_ok]. apply queue_query; [done|].
    eexists. split; [exact E1|]. intros d Hd. apply andb_prop in Hd as [Hqm Hex]. split; [done|].
    apply existsb_exists in Hex as (s & Hsin & Hsd). apply list_elem_of_In in Hsin.
    assert (Hino : s ∈ others).
    { apply queue_order_in. rewrite <- (take_drop 100 (queue_order others)), Estale. by apply elem_of_app; left. }
    rewrite Hoth, list_elem_of_filter in Hino. destruct Hino as [Hso _].
    apply not_true_iff_false. intros Hm. apply manual_in_spec in Hm as (_ & Hr & Hse & _).
    rewrite !andb_true_iff, !fld_true in Hsd. destruct Hsd as [[_ Hsr] Hss].
    apply andb_prop in Hso as [_ Hor]. apply orb_true_iff in Hor as [Hor|Hor];
      apply negb_true_iff, fld_false in Hor; congruence.
Qed.
End commands.

(** ** Witnesses *)

#[local] Existing Instance list_mongo.
#[local] Existing Instance list_mongo_laws.

Definition sample_task : pydict :=
  [("id", PStr "t"); ("runId", PStr "r"); ("nodeId", PStr "n"); ("generation", PInt 1); ("sessionId", PStr "s");
   ("status", PStr "COLLECTING"); ("desiredState", PStr "RUNNING");
   ("scheduledCommands", PList [PDict [("id", PStr "c"); ("totalExecutions", PInt 2); ("command", PStr "date")]])].

Definition sample_command (i session : string) (created : Z) : pydict :=
  [("id", PStr i); ("taskId", PStr "t"); ("runId", PStr "r"); ("sessionId", PStr session); ("kind", MANUAL);
   ("status", QUEUED); ("createdAt", PTime (Aware created))].

Definition sample_db (commands : list pydict) : database := fun c =>
  match c with Tasks => [sample_task] | Commands => commands | _ => [] end.

Lemma reserve_scheduled_budget_witness :
  exists e db', reserve_scheduled sample_task "c" (PStr "s") "e1" 5 Committed (sample_db []) = (Ok (Some e), db')
    /\ budget_inv db' /\ e.["attempt"] = PInt 1.
Proof.
  assert (Hinv : budget_inv (sample_db [])) by (split; [constructor|done|constructor]).
  pose proof (reserve_scheduled_budget sample_task "c" (PStr "s") "e1" 5 Committed (sample_db []) Hinv) as Hp.
  destruct (reserve_scheduled _ _ _ _ _ _ _) as [r db'] eqn:E.
  assert (Hr : r = (reserve_scheduled sample_task "c" (PStr "s") "e1" 5 Committed (sample_db [])).1) by by rewrite E.
  vm_compute in Hr. subst r. eexists _, db'. split; [reflexivity|]. split; [apply Hp|reflexivity].
Defined.

Lemma admit_manual_bounded_witness :
  exists doc db', admit_manual sample_task "m1" [("command", PStr "ls")] (PStr "u") None 7 Committed (sample_db [])
      = (Ok doc, db') /\ queue_inv db' /\ doc.["sessionId"] = PStr "s".
Proof.
  assert (Hinv : queue_inv (sample_db [])) by (intros t r s; unfold queued_in; cbn; rewrite zlen_nil; done).
  pose proof (admit_manual_bounded sample_task "m1" [("command", PStr "ls")] (PStr "u") None 7 Committed (sample_db [])
    Hinv) as Hp.
  destruct (admit_manual _ _ _ _ _ _ _ _) as [r db'] eqn:E.
  assert (Hr : r = (admit_manual sample_task "m1" [("command", PStr "ls")] (PStr "u") None 7 Committed (sample_db [])).1)
    by by rewrite E.
  vm_compute in Hr. subst r. eexists _, db'. split; [reflexivity|]. split; [apply Hp|reflexivity].
Defined.

Lemma claim_manual_once_witness :
  exists e db1, claim_manual sample_task (PStr "s") (sample_command "m1" "s" 1) 9 Committed
      (sample_db [sample_command "m1" "s" 1]) = (Ok (Some e), db1)
    /\ forall e' db2, claim_manual sample_task (PStr "s") (sample_command "m1" "s" 1) 10 Committed db1 <> (Ok (Some e'), db2).
Proof.
  destruct (claim_manual sample_task (PStr "s") (sample_command "m1" "s" 1) 9 Committed
      (sample_db [sample_command "m1" "s" 1])) as [r db1] eqn:E.
  assert (Hr : r = (claim_manual sample_task (PStr "s") (sample_command "m1" "s" 1) 9 Committed
      (sample_db [sample_command "m1" "s" 1])).1) by by rewrite E.
  vm_compute in Hr. subst r. eexists _, db1. split; [reflexivity|]. intros e' db2.
  assert (Hnd : NoDup (map (fun d => d.["id"]) (content (sample_db [sample_command "m1" "s" 1]) Commands)))
    by apply NoDup_singleton.
  apply (claim_manual_once _ _ _ _ _ _ _ _ Hnd E). reflexivity.
Defined.

Lemma next_manual_fifo_witness :
  let commands := [sample_command "m2" "s" 2; sample_command "m1" "s" 1; sample_command "old" "z" 0] in
  let '(r, db') := next_manual_command (SessionRuntime sample_task (Some (PStr "s")) false false) true 9 (sample_db commands) in
  queue_served (SessionRuntime sample_task (Some (PStr "s")) false false) true (PStr "s") 9 (sample_db commands) r db'
  /\ r = Ok (Some (sample_command "m1" "s" 1)).
Proof.
  intros commands.
  pose proof (next_manual_fifo (SessionRuntime sample_task (Some (PStr "s")) false false) true 9 (sample_db commands)
    (PStr "s") eq_refl) as Hp.
  destruct (next_manual_command _ _ _ _) as [r db'] eqn:E. split; [exact Hp|].
  assert (Hr : r = (next_manual_command (SessionRuntime sample_task (Some (PStr "s")) false false) true 9
    (sample_db commands)).1) by by rewrite E.
  rewrite Hr. vm_compute. reflexivity.
Defined.
