(* ===== verification/TaskRules.v ===== *)
(** * Rules on tasks shared by control, claiming and recovery

    Authorization ([common/security.py], [resources/sharing.py]), the health
    gate ([resources/health_policy.py]), the resource guard
    ([tasks/control.py]) and the closing receipts that prove that an old run
    has ended ([node/recovery.py], [node/failover.py]). *)

From S2P Require Import Prelude PyTime PyValue Ordering Mongo Ownership.
Open Scope camera_scope.

(** ** Identities *)

Definition scopes (identity : pydict) : list pyval :=
  match identity.["scopes"] with PList l => l | _ => [] end.

Definition has_scope (identity : pydict) (scope : string) : bool :=
  bool_decide (PStr "*" ∈ scopes identity) || bool_decide (PStr scope ∈ scopes identity).

(** [authorize_owner] as a test; the exception is its negation. *)
Definition owns (identity document : pydict) : bool :=
  truthy identity.["isAdmin"] || bool_decide (PStr "*" ∈ scopes identity)
  || fld document "createdBy" identity.["id"].

Definition shared_users (resource : pydict) : list pyval :=
  match resource.["sharedUserIds"] with PList l => l | _ => [] end.

(** [resource_is_shared]. *)
Definition resource_is_shared (identity resource : pydict) : bool :=
  is_none resource.["deletedAt"] && bool_decide (identity.["id"] ∈ shared_users resource).

(** [authorize_resource_operation]. *)
Definition may_operate_resource (identity resource : pydict) : bool :=
  resource_is_shared identity resource || owns identity resource.

(** ** Health *)

Definition BAD_HEALTH_STATUSES : list pyval := [PStr "AUTH_FAILED"; PStr "OFFLINE"; PStr "ERROR"].
Definition ACTIVE_RUNTIME_STATUSES : list pyval :=
  [PStr "PENDING"; PStr "CONNECTING"; PStr "COLLECTING"; PStr "RECONNECTING"; PStr "PAUSING"].

(** [resource_health_blocks_task]: a serial console is independent of HTTP. *)
Definition resource_health_blocks_task (task resource : pydict) : bool :=
  negb (fld task "protocol" (PStr "TELNET_SERIAL")) && fld_in resource "healthStatus" BAD_HEALTH_STATUSES.

(** [has_live_runtime_ownership]. *)
Definition has_live_runtime_ownership (task : pydict) : bool :=
  negb (fld task "nodeId" PNone) && fld_in task "status" ACTIVE_RUNTIME_STATUSES
  && fld task "desiredState" (PStr "RUNNING").

(** ** Receipts *)

Definition AUTO_FAILOVER_FENCED := PStr "AUTO_FAILOVER_FENCED".
Definition FAILOVER_RETURN_STABLE_SECONDS : Z := 30.
Definition FAILOVER_RETURN_OBSERVATION_GAP_SECONDS : Z := 15.

Definition receipt_of (task : pydict) : pydict := dict_sub task "closedReceipt".

(** `all(task.get(k) is not None and receipt.get(k) == task.get(k) ...)`. *)
Definition same_fields (receipt task : pydict) (keys : list string) : bool :=
  forallb (fun k => negb (fld task k PNone) && fld receipt k task.[k]) keys.

(** [matching_closed_receipt]. *)
Definition matching_closed_receipt (task : pydict) : bool :=
  let receipt := receipt_of task in
  same_fields receipt task ["runId"; "generation"; "nodeId"; "sessionId"]
  && fld receipt "taskId" task.["id"] && truthy receipt.["instanceId"] && negb (fld receipt "closedAt" PNone).

(** [is_confirmed_failover_receipt]. *)
Definition is_confirmed_failover_receipt (task : pydict) : bool :=
  matching_closed_receipt task && fld (receipt_of task) "reason" AUTO_FAILOVER_FENCED.

Definition is_time (v : pyval) : bool := match v with PTime _ => true | _ => false end.

(** [has_retained_failover_receipt]: after the release the receipt is compared
    with the excluded node. *)
Definition has_retained_failover_receipt (task : pydict) : bool :=
  let receipt := receipt_of task in
  fld receipt "reason" AUTO_FAILOVER_FENCED && fld receipt "taskId" task.["id"]
  && same_fields receipt task ["runId"; "generation"; "sessionId"]
  && fld receipt "nodeId" task.["failoverExcludedNodeId"] && truthy receipt.["instanceId"]
  && is_time receipt.["closedAt"].

(** [failover_origin_healthy]; [node] is [None] when it is missing or empty. *)
Definition failover_origin_healthy (task : pydict) (node : option pydict) (current : Z) : bool :=
  match node with
  | None => false
  | Some node =>
      fld task "failoverExcludedNodeId" node.["id"] && has_retained_failover_receipt task
      && match task.["failoverReleasedAt"], node.["heartbeat"] with
         | PTime released, PTime heartbeat =>
             (utc_instant released <? utc_instant heartbeat)
             && (current - 15 * US_PER_SECOND <=? utc_instant heartbeat)
         | _, _ => false
         end
  end.

(** [failover_origin_return_ready]. *)
Definition failover_origin_return_ready (task : pydict) (node : option pydict) (current : Z) : bool :=
  match task.["failoverOriginalHealthySince"], task.["failoverOriginalHealthyObservedAt"] with
  | PTime since, PTime observed =>
      failover_origin_healthy task node current
      && (utc_instant since <=? current - FAILOVER_RETURN_STABLE_SECONDS * US_PER_SECOND)
      && (current - FAILOVER_RETURN_OBSERVATION_GAP_SECONDS * US_PER_SECOND <=? utc_instant observed)
  | _, _ => false
  end.

(** [is_exact_fence_response]. *)
Definition is_exact_fence_response (task : pydict) (payload : pyval) : bool :=
  match payload with
  | PDict payload =>
      fld payload "closed" (PBool true)
      && match payload.["closedReceipt"] with
         | PDict receipt =>
             fld receipt "reason" AUTO_FAILOVER_FENCED && fld receipt "taskId" task.["id"]
             && forallb (fun k => fld receipt k task.[k]) ["runId"; "generation"; "nodeId"; "sessionId"]
             && truthy receipt.["instanceId"] && negb (fld receipt "closedAt" PNone)
         | _ => false
         end
  | _ => false
  end.

Section rules.
Context `{Mongo}.

(** `authorize(identity, scope)`. *)
Definition authorize (identity : pydict) (scope : string) : dbm unit :=
  raise_if (negb (has_scope identity scope)) (Http 403 "权限不足").

Definition control_version (d : pydict) : pydict := dict_inc "controlClaimVersion" 1 d.

(** [authorize_task_operation] in a transaction: the owner passes; a shared user
    writes the resource, so that revoking the sharing conflicts. *)
Definition authorize_task_operation (identity task : pydict) : dbm unit :=
  if owns identity task then st_ret tt
  else
    let! resource := find_one_and_update Resources
      (fun d => fld d "id" task.["resourceId"] && fld d "deletedAt" PNone
                && bool_decide (identity.["id"] ∈ shared_users d)) control_version in
    match resource with
    | None => st_raise (Http 403 "仅任务创建者、管理员或设备资源指定共享用户可以执行此操作")
    | Some _ => st_ret tt
    end.

(** The sorted set of the task's resources. *)
Definition guard_identifiers (task : pydict) : list pyval :=
  sort_by text str_leb (remove_dups (filter (fun v => truthy v = true) [task.["resourceId"]; task.["serialServerResourceId"]])).

Fixpoint guard_each (task : pydict) (identifiers : list pyval) : dbm unit :=
  match identifiers with
  | [] => st_ret tt
  | identifier :: identifiers =>
      let! resource := find_one_and_update Resources
        (fun d => fld d "id" identifier && fld d "deletedAt" PNone) control_version in
      let! _ := (match resource with
        | None =>
            let! known := find_one Resources (fun d => fld d "id" identifier) in
            st_raise match known with
                     | None => Http 404 "设备资源不存在"
                     | Some _ => Http 409 "设备资源已删除，仅可查询已有日志"
                     end
        | Some resource =>
            raise_if (resource_health_blocks_task task resource) (Http 409 "设备资源认证或连通性异常，暂不能启动采集")
        end) in
      guard_each task identifiers
  end.

Definition task_removed (task : pydict) : bool :=
  negb (fld task "deletedAt" PNone) || truthy task.["resourceDeleted"].

(** [_guard_resources]. *)
Definition _guard_resources (task : pydict) : dbm unit :=
  let! _ := raise_if (task_removed task) (Http 409 "设备资源已删除，仅可查询已有日志") in
  guard_each task (guard_identifiers task).

Context `{!MongoLaws}.

(** The operations of this file write resources only. *)
Definition only_resources (db db' : database) : Prop := forall c, c <> Resources -> content db' c = content db c.

Lemma only_resources_refl db : only_resources db db.
Proof. done. Qed.

Lemma only_resources_trans db1 db2 db3 : only_resources db1 db2 -> only_resources db2 db3 -> only_resources db1 db3.
Proof. intros H1 H2 c Hc. by rewrite H2, H1. Qed.

Lemma authorize_task_operation_wp identity task db (Q : result exn unit -> database -> Prop) :
  (forall db', only_resources db db' -> Q (Ok tt) db') ->
  (owns identity task = false -> Q (Raise (Http 403 "仅任务创建者、管理员或设备资源指定共享用户可以执行此操作")) db) ->
  wp (authorize_task_operation identity task) Q db.
Proof.
  intros H1 H2. unfold authorize_task_operation. destruct (owns identity task) eqn:E; [by apply wp_ret, H1|].
  apply wp_bind, wp_update; cbn; [|intros _; by apply H2]. intros d db' (_ & _ & Ho). apply H1. exact Ho.
Qed.

(** A resource that lets the task run. *)
Definition healthy_for (task : pydict) (db : database) (identifier : pyval) : Prop :=
  exists d, d ∈ content db Resources /\ d.["id"] = identifier /\ d.["deletedAt"] = PNone
    /\ resource_health_blocks_task task d = false.

Lemma blocks_control_version task d :
  resource_health_blocks_task task (control_version d) = resource_health_blocks_task task d.
Proof. unfold resource_health_blocks_task, fld_in, fld, control_version. by dget. Qed.

Lemma healthy_for_back task db db' d l r identifier :
  content db Resources = l ++ d :: r -> content db' Resources = l ++ control_version d :: r ->
  healthy_for task db' identifier -> healthy_for task db identifier.
Proof.
  intros E1 E2 (x & Hx & Hid & Hdel & Hb). rewrite E2 in Hx. apply elem_of_app in Hx as [Hx|[->|Hx]%elem_of_cons].
  - exists x. rewrite E1. split; [by apply elem_of_app; left|done].
  - exists d. rewrite E1. split; [by apply elem_of_app; right; left|]. rewrite blocks_control_version in Hb.
    unfold control_version in *. dget_in Hid. dget_in Hdel. done.
  - exists x. rewrite E1. split; [by apply elem_of_app; right; right|done].
Qed.

Lemma guard_each_wp task identifiers : forall db,
  wp (guard_each task identifiers) (fun r db' => only_resources db db' /\ match r with
    | Ok _ => Forall (healthy_for task db) identifiers
    | Raise e => exists detail, e = Http 404 detail \/ e = Http 409 detail end) db.
Proof.
  induction identifiers as [|i l IH]; intros db; cbn [guard_each]; [by apply wp_ret|].
  apply wp_bind, wp_update; cbn [on_ok].
  - intros d db1 (Hq & (k & r & E1 & E2) & Ho). freflect.
    apply wp_bind, wp_raise_if; cbn [on_ok].
    + intros _. split; [exact Ho|]. eexists. by right.
    + intros Hb. eapply wp_mono; [apply IH|]. cbn. intros [[]|e] db' [Ho' Hr].
      * split; [by eapply only_resources_trans|]. constructor.
        -- exists d. rewrite E1. split; [by apply elem_of_app; right; left|]. by rewrite blocks_control_version in Hb.
        -- eapply Forall_impl; [exact Hr|]. intros x. by apply (healthy_for_back _ _ _ _ _ _ _ E1 E2).
      * split; [by eapply only_resources_trans|done].
  - intros _. apply wp_bind, wp_bind, wp_find_one; cbn [on_ok]; intros; apply wp_raise; (split; [done|]); eexists; auto.
Qed.

Lemma guard_wp task db :
  wp (_guard_resources task) (fun r db' => only_resources db db' /\ match r with
    | Ok _ => task_removed task = false /\ Forall (healthy_for task db) (guard_identifiers task)
    | Raise e => exists detail, e = Http 404 detail \/ e = Http 409 detail end) db.
Proof.
  unfold _guard_resources. apply wp_bind, wp_raise_if; cbn.
  - intros _. split; [done|]. eexists. by right.
  - intros Hr. eapply wp_mono; [apply guard_each_wp|]. cbn. intros [[]|e] db'; tauto.
Qed.
End rules.
