(* ===== verification/Lifecycle.v ===== *)
(** * Soft deletion of tasks and resources ([resources/lifecycle.py])

    A deletion only marks the documents and asks for a stop; the scheduler then
    retries until the node, the run lock and the run are given up, and says so in
    `deletionState`.  The operations are not transactions (except the marking):
    each write is conditional by itself.  Exceptions that a retry loop swallows are
    caught by [st_catch]. *)

From S2P Require Import Prelude PyTime PyValue Mongo Ownership TaskRules.
Open Scope camera_scope.

Section lifecycle.
Context `{Mongo}.

Definition STOPPED := PStr "STOPPED".
Definition PENDING := PStr "PENDING".
Definition DONE := PStr "DONE".
Definition PAUSED := PStr "PAUSED".

(** [task_resource_query]. *)
Definition task_resource_query (identifier : string) (d : pydict) : bool :=
  fld d "resourceId" (PStr identifier) || fld d "serialServerResourceId" (PStr identifier).

Definition is_deleted (d : pydict) : bool := negb (fld d "deletedAt" PNone).

(** ** Addresses ([resources/address_claim.py]) *)

Definition claim_address (document : pydict) : dbm unit :=
  let! taken := find_one Resources (fun d => fld d "ip" document.["ip"] && fld d "deletedAt" PNone) in
  let! _ := raise_if (match taken with Some r => truthy (PDict r) | None => false end)
              (Http 409 "该网络地址已存在设备资源，请使用已有资源") in
  insert_one ResourceAddresses [("_id", document.["ip"]); ("resourceId", document.["id"])].

Definition release_address (document : pydict) : dbm unit :=
  let! _ := delete_one ResourceAddresses (fun d => fld d "_id" document.["ip"] && fld d "resourceId" document.["id"]) in
  st_ret tt.

(** ** Stopped tasks without a node

    The first write of the scheduler's [reconcile_stopped_tasks] ([tasks/scheduler.py]):
    a task that shall stop and that no node holds is stopped, unless its status is final. *)
Definition stop_unheld : dbm unit :=
  let! _ := update_many Tasks
    (fun d => fld d "desiredState" STOPPED && fld d "nodeId" PNone && negb (fld_in d "status" [STOPPED; PStr "BLOCKED"; PStr "ERROR"]))
    (set_all [("status", STOPPED)]) in
  st_ret tt.

(** ** Marking *)

(** The fields a linked task gets. *)
Definition removed_with_resource (timestamp : pyval) : pydict -> pydict :=
  set_all [("deletedAt", timestamp); ("deletionState", PENDING); ("desiredState", STOPPED);
           ("restartRequested", PBool false); ("resourceDeleted", PBool true); ("updatedAt", timestamp)].

(** The start operations of the tasks are cancelled. *)
Definition cancel_starts (identifiers : list pyval) (timestamp : pyval) : dbm unit :=
  let! _ := update_many Operations
    (fun d => fld_in d "taskId" identifiers && negb (fld d "desiredState" STOPPED) && fld d "status" PENDING)
    (set_all [("status", PStr "CANCELLED"); ("completedAt", timestamp)]) in
  st_ret tt.

Definition mark_tasks (linked : list pydict) (timestamp : pyval) : dbm unit :=
  match linked with
  | [] => st_ret tt
  | _ =>
      let identifiers := map (fun task => task.["id"]) linked in
      let! _ := update_many Tasks (fun d => fld_in d "id" identifiers && fld d "deletedAt" PNone)
                  (removed_with_resource timestamp) in
      cancel_starts identifiers timestamp
  end.

(** [mark_resource_deletion], in the caller's transaction. *)
Definition mark_resource_deletion (identifier : string) (timestamp : Z) (version : option Z) : dbm pydict :=
  let! changed := find_one_and_update_before Resources
    (fun d => fld d "id" (PStr identifier) && fld d "deletedAt" PNone
              && match version with Some v => fld d "version" (PInt v) | None => true end)
    (fun d => dict_inc "controlClaimVersion" 1 (dict_inc "version" 1
       (set_all [("deletedAt", PTime (Aware timestamp)); ("deletionState", PENDING); ("updatedAt", PTime (Aware timestamp))] d))) in
  match changed with
  | None => st_raise (ValueError "资源版本已变化或已删除")
  | Some changed =>
      let! _ := release_address changed in
      let! linked := find_all Tasks (fun d => task_resource_query identifier d && fld d "deletedAt" PNone) in
      let! _ := mark_tasks linked (PTime (Aware timestamp)) in
      st_ret changed
  end.

(** ** Completion *)

Definition final_status (task : pydict) : bool := fld_in task "status" [STOPPED; PStr "ERROR"; PStr "BLOCKED"].

(** The fields that show the task given up. *)
Definition given_up (task : pydict) : bool :=
  fld task "nodeId" PNone && fld task "desiredState" STOPPED && final_status task.

(** [_task_deletion_complete]. *)
Definition _task_deletion_complete (task : pydict) : dbm bool :=
  if negb (given_up task) then st_ret false
  else
    let! locks := count_documents EndpointLocks (fun d => fld d "taskId" task.["id"]) in
    st_ret (locks =? 0).

(** A run that no node holds is released at once. *)
Definition releasable (identifier : string) (d : pydict) : bool :=
  fld d "id" (PStr identifier) && is_deleted d && fld d "nodeId" PNone && fld d "desiredState" STOPPED
  && fld_in d "status" [PAUSED; STOPPED; PStr "ERROR"; PStr "BLOCKED"]
  && negb (fld d "runId" PNone) && negb (fld d "runId" (PStr "")).

Definition release_run (identifier : string) (stopped : pydict) (timestamp : Z) : dbm unit :=
  let! _ := delete_one EndpointLocks (fun d => fld d "taskId" (PStr identifier) && fld d "runId" stopped.["runId"]) in
  let! _ := update_one Runs (fun d => fld d "id" stopped.["runId"] && absent d "endedAt")
              (set_all [("endedAt", PTime (Aware timestamp))]) in
  st_ret tt.

Definition finish_deletion (identifier : string) (timestamp : Z) : dbm unit :=
  let! current := find_one Tasks (fun d => fld d "id" (PStr identifier)) in
  match current with
  | None => st_ret tt
  | Some current =>
      let! complete := _task_deletion_complete current in
      if complete
      then
        let! _ := update_one Tasks
          (fun d => fld d "id" (PStr identifier) && is_deleted d && fld d "deletionState" PENDING)
          (set_all [("deletionState", DONE); ("deletionCompletedAt", PTime (Aware timestamp));
                    ("updatedAt", PTime (Aware timestamp))]) in
        st_ret tt
      else st_ret tt
  end.

(** [reconcile_task_deletion]. *)
Definition reconcile_task_deletion (identifier : string) (resource_deleted : bool) (timestamp : Z) : dbm (option pydict) :=
  let! task := find_one Tasks (fun d => fld d "id" (PStr identifier) && is_deleted d) in
  match task with
  | None => st_ret None
  | Some _ =>
      let changes := [("desiredState", STOPPED); ("restartRequested", PBool false); ("updatedAt", PTime (Aware timestamp))]
                     ++ (if resource_deleted then [("resourceDeleted", PBool true)] else []) in
      let! _ := update_one Tasks (fun d => fld d "id" (PStr identifier) && is_deleted d) (set_all changes) in
      let! _ := cancel_starts [PStr identifier] (PTime (Aware timestamp)) in
      let! _ := update_one Tasks
        (fun d => fld d "id" (PStr identifier) && is_deleted d && fld d "nodeId" PNone && fld d "desiredState" STOPPED
                  && fld d "status" PAUSED)
        (set_all [("status", STOPPED); ("updatedAt", PTime (Aware timestamp))]) in
      let! stopped := find_one Tasks (releasable identifier) in
      let! _ := (match stopped with Some stopped => release_run identifier stopped timestamp | None => st_ret tt end) in
      let! _ := finish_deletion identifier timestamp in
      find_one Tasks (fun d => fld d "id" (PStr identifier))
  end.

(** The scheduler's loops swallow what one item raises. *)
Definition swallow {A} (m : dbm A) : dbm unit :=
  st_catch (let! _ := m in st_ret tt) (fun _ => Some (st_ret tt)).

Fixpoint each (items : list pydict) (f : string -> dbm unit) : dbm unit :=
  match items with
  | [] => st_ret tt
  | d :: items => let! _ := f (text d.["id"]) in each items f
  end.

(** The tasks or resources whose deletion waits. *)
Definition waiting (d : pydict) : bool := is_deleted d && fld d "deletionState" PENDING.

Definition reconcile_deleted_tasks (limit : nat) (timestamp : Z) : dbm unit :=
  let! tasks := find_all Tasks waiting in
  each (take limit tasks) (fun identifier => swallow (reconcile_task_deletion identifier false timestamp)).

(** [deletion_cleanup_complete]. *)
Fixpoint all_complete (tasks : list pydict) : dbm bool :=
  match tasks with
  | [] => st_ret true
  | task :: tasks =>
      let! complete := _task_deletion_complete task in
      if complete then all_complete tasks else st_ret false
  end.

Definition deletion_cleanup_complete (identifier : string) : dbm bool :=
  let! tasks := find_all Tasks (task_resource_query identifier) in
  all_complete tasks.

(** The tasks of early deletions are marked first; the result is the state the
    resource document is taken to have. *)
Definition mark_visible (identifier : string) (resource : pydict) (timestamp : Z) : dbm pydict :=
  let! visible := find_all Tasks (fun d => task_resource_query identifier d && fld d "deletedAt" PNone) in
  match visible with
  | [] => st_ret resource
  | _ =>
      let at_ := if truthy resource.["deletedAt"] then resource.["deletedAt"] else PTime (Aware timestamp) in
      let! _ := mark_tasks visible at_ in
      let! _ := update_one Resources (fun d => fld d "id" (PStr identifier) && is_deleted d)
                  (set_all [("deletionState", PENDING); ("updatedAt", at_)]) in
      st_ret (dict_set resource "deletionState" PENDING)
  end.

(** [reconcile_resource_deletion]. *)
Definition reconcile_resource_deletion (identifier : string) (timestamp : Z) : dbm (option pydict) :=
  let! resource := find_one Resources (fun d => fld d "id" (PStr identifier) && is_deleted d) in
  match resource with
  | None => st_ret None
  | Some resource =>
      let! resource := mark_visible identifier resource timestamp in
      if fld resource "deletionState" DONE then st_ret (Some resource)
      else
        let! tasks := find_all Tasks (task_resource_query identifier) in
        let! _ := each tasks (fun t => let! _ := reconcile_task_deletion t true timestamp in st_ret tt) in
        let! complete := deletion_cleanup_complete identifier in
        let! _ := (if complete
                   then update_one Resources
                     (fun d => fld d "id" (PStr identifier) && is_deleted d && fld d "deletionState" PENDING)
                     (set_all [("deletionState", DONE); ("deletionCompletedAt", PTime (Aware timestamp));
                               ("updatedAt", PTime (Aware timestamp))])
                   else st_ret false) in
        find_one Resources (fun d => fld d "id" (PStr identifier))
  end.

Definition reconcile_deleted_resources (limit : nat) (timestamp : Z) : dbm unit :=
  let! resources := find_all Resources waiting in
  each (take limit resources) (fun identifier => swallow (reconcile_resource_deletion identifier timestamp)).

(** ** Properties *)

Context `{!MongoLaws}.

Implicit Types db : database.

Definition touched : list cname := [Tasks; Operations; EndpointLocks; Runs; Resources; ResourceAddresses].

(** Nothing of the task is left: no node, a final status, no run lock. *)
Definition released (db : database) (task : pydict) : Prop :=
  given_up task = true /\ no_match (fun l => fld l "taskId" task.["id"]) (content db EndpointLocks).

(** A task whose deletion is said to be done is released. *)
Definition done_released (db : database) : Prop :=
  NoDup (map (fun d => d.["id"]) (content db Tasks))
  /\ forall t, t ∈ content db Tasks -> is_deleted t = true -> t.["deletionState"] = DONE -> released db t.

Definition advanced (db db' : database) : Prop := (done_released db -> done_released db') /\ frame touched db db'.

Definition safe {A} (m : dbm A) : Prop := forall db, wp m (fun _ db' => advanced db db') db.

Lemma advanced_refl db : advanced db db.
Proof. done. Qed.

Lemma advanced_trans db1 db2 db3 : advanced db1 db2 -> advanced db2 db3 -> advanced db1 db3.
Proof.
  intros [I1 F1] [I2 F2]. split; [auto|]. eapply frame_weaken; [by eapply frame_trans|]. unfold touched. set_solver.
Qed.

Lemma safe_bind {A B} (m : dbm A) (k : A -> dbm B) : safe m -> (forall a, safe (k a)) -> safe (st_bind m k).
Proof.
  intros Hm Hk db. apply wp_bind. eapply wp_mono; [apply Hm|]. intros [a|e] db1 H1; cbn; [|done].
  eapply wp_mono; [apply Hk|]. intros r db2 H2. cbn in *. by eapply advanced_trans.
Qed.

Lemma safe_ret {A} (a : A) : safe (st_ret a).
Proof. intros db. by apply wp_ret. Qed.

Lemma safe_raise {A} e : safe (A := A) (st_raise e).
Proof. intros db. by apply wp_raise. Qed.

Lemma safe_find_one c q : safe (find_one c q).
Proof. intros db. by apply wp_find_one. Qed.

Lemma safe_find_all c q : safe (find_all c q).
Proof. intros db. by apply wp_find_all. Qed.

Lemma safe_swallow {A} (m : dbm A) : safe m -> safe (swallow m).
Proof.
  intros Hm db. unfold swallow. apply wp_catch, wp_bind. eapply wp_mono; [apply Hm|].
  intros [a|e] db1 Hadv; exact Hadv.
Qed.

(** Only the tasks and the locks matter. *)
Lemma done_released_same db db' :
  content db' Tasks = content db Tasks -> content db' EndpointLocks = content db EndpointLocks ->
  done_released db -> done_released db'.
Proof. intros E1 E2. unfold done_released, released. by rewrite E1, E2. Qed.

Lemma same_advanced c db db' :
  c ∈ touched -> c <> Tasks -> c <> EndpointLocks -> (forall c', c' <> c -> content db' c' = content db c') -> advanced db db'.
Proof.
  intros Hc Ht Hl Ho. split; [apply done_released_same; apply Ho; congruence|].
  eapply frame_weaken; [by apply frame_one|]. intros x ->%list_elem_of_singleton. done.
Qed.

Lemma safe_update c q f : c ∈ touched -> c <> Tasks -> c <> EndpointLocks -> safe (find_one_and_update c q f).
Proof.
  intros Hc Ht Hl db. apply wp_update; [|done]. intros d db' (_ & _ & Ho). by eapply same_advanced.
Qed.

Lemma safe_update_many c q f : c ∈ touched -> c <> Tasks -> c <> EndpointLocks -> safe (update_many c q f).
Proof. intros Hc Ht Hl db. apply wp_update_many. intros db' _ Ho. by eapply same_advanced. Qed.

Lemma safe_delete_other c q : c ∈ touched -> c <> Tasks -> c <> EndpointLocks -> safe (delete_one c q).
Proof. intros Hc Ht Hl db. apply wp_delete; [|done]. intros l d r db' _ _ _ Ho. by eapply same_advanced. Qed.

Lemma safe_delete_lock q : safe (delete_one EndpointLocks q).
Proof.
  intros db. apply wp_delete; [|done]. intros l d r db' _ E E' Ho. split.
  - intros [Hn HD]. split; [by rewrite Ho|]. intros t Ht Hd Hs. rewrite Ho in Ht by done.
    destruct (HD t Ht Hd Hs) as [Hg Hl]. split; [done|]. intros x Hx. apply Hl. rewrite E. rewrite E' in Hx.
    apply elem_of_app in Hx as [?|?]; apply elem_of_app; [by left|right; by right].
  - eapply frame_weaken; [by apply frame_one|]. unfold touched. set_solver.
Qed.

(** A write on tasks that keeps what is done released. *)
Definition keeps (q : pydict -> bool) (f : pydict -> pydict) : Prop := forall d, q d = true ->
  (f d).["id"] = d.["id"]
  /\ (is_deleted (f d) = true -> (f d).["deletionState"] = DONE ->
      is_deleted d = true /\ d.["deletionState"] = DONE /\ (given_up d = true -> given_up (f d) = true)).

(** One task becomes another with the same identifier. *)
Lemma task_write db db' l d d' r :
  content db Tasks = l ++ d :: r -> content db' Tasks = l ++ d' :: r -> (forall c, c <> Tasks -> content db' c = content db c) ->
  d'.["id"] = d.["id"] ->
  (done_released db -> is_deleted d' = true -> d'.["deletionState"] = DONE -> released db d') ->
  advanced db db'.
Proof.
  intros E E' Ho Hid Hrel. split; [|eapply frame_weaken; [by apply frame_one|unfold touched; set_solver]].
  assert (El : content db' EndpointLocks = content db EndpointLocks) by by apply Ho.
  intros I. split.
  - rewrite E'. destruct I as [Hn _]. rewrite E, map_app in Hn. rewrite map_app. cbn in *. by rewrite Hid.
  - intros t Ht Hd Hs. unfold released. rewrite El. rewrite E' in Ht.
    apply elem_of_app in Ht as [Ht|[->|Ht]%elem_of_cons]; [|by apply Hrel|].
    + apply (proj2 I); [|done..]. rewrite E. apply elem_of_app. by left.
    + apply (proj2 I); [|done..]. rewrite E. apply elem_of_app. right. by right.
Qed.

Lemma keeps_released q f db d :
  keeps q f -> q d = true -> done_released db -> d ∈ content db Tasks ->
  is_deleted (f d) = true -> (f d).["deletionState"] = DONE -> released db (f d).
Proof.
  intros K Hq [_ HD] Hin Hd Hs. destruct (K d Hq) as [Hid Hk]. destruct (Hk Hd Hs) as (Hd' & Hs' & Hg).
  destruct (HD d Hin Hd' Hs') as [Hg' Hl]. split; [by auto|]. by rewrite Hid.
Qed.

Lemma safe_update_tasks q f : keeps q f -> safe (find_one_and_update Tasks q f).
Proof.
  intros K db. apply wp_update; [|done]. intros d db' (Hq & (l & r & E & E') & Ho).
  eapply task_write; [exact E|exact E'|done|by apply K|]. intros I. eapply keeps_released; try done.
  rewrite E. apply elem_of_middle.
Qed.

Lemma safe_update_many_tasks q f : keeps q f -> safe (update_many Tasks q f).
Proof.
  intros K db. apply wp_update_many. intros db' E Ho.
  split; [|eapply frame_weaken; [by apply frame_one|unfold touched; set_solver]].
  intros I. split.
  - rewrite E, map_map. erewrite map_ext; [apply I|]. intros d. unfold apply_if. destruct (q d) eqn:Hq; [|done].
    by apply K.
  - assert (El : content db' EndpointLocks = content db EndpointLocks) by by apply Ho.
    intros t Ht Hd Hs. rewrite E in Ht. apply list_elem_of_fmap in Ht as (d & -> & Hin). unfold apply_if, released in *.
    rewrite El. destruct (q d) eqn:Hq; [by eapply keeps_released|]. by apply I.
Qed.

Lemma safe_update_one c q f : safe (find_one_and_update c q f) -> safe (update_one c q f).
Proof. intros Hs. apply safe_bind; [done|]. intros d. apply safe_ret. Qed.

(** ** The operations *)

Lemma safe_cancel_starts identifiers timestamp : safe (cancel_starts identifiers timestamp).
Proof. apply safe_bind; [by apply safe_update_many; [unfold touched; set_solver|..]|]. intros n. apply safe_ret. Qed.

Lemma safe_mark_tasks linked timestamp : safe (mark_tasks linked timestamp).
Proof.
  unfold mark_tasks. destruct linked as [|t linked]; [apply safe_ret|].
  apply safe_bind; [|intros n; apply safe_cancel_starts]. apply safe_update_many_tasks.
  intros d _. unfold removed_with_resource, set_all. cbn [foldl fst snd]. dget. done.
Qed.

Lemma safe_mark identifier timestamp version : safe (mark_resource_deletion identifier timestamp version).
Proof.
  unfold mark_resource_deletion. apply safe_bind.
  - apply safe_bind; [apply safe_find_one|]. intros [d|]; [|apply safe_ret].
    apply safe_bind; [|intros; apply safe_ret]. by apply safe_update; [unfold touched; set_solver|..].
  - intros [changed|]; [|apply safe_raise]. apply safe_bind.
    { apply safe_bind; [by apply safe_delete_other; [unfold touched; set_solver|..]|]. intros b. apply safe_ret. }
    intros _. apply safe_bind; [apply safe_find_all|]. intros linked.
    apply safe_bind; [apply safe_mark_tasks|]. intros _. apply safe_ret.
Qed.

Lemma complete_wp task db (Q : result exn bool -> database -> Prop) :
  (released db task -> Q (Ok true) db) -> (~ released db task -> Q (Ok false) db) -> wp (_task_deletion_complete task) Q db.
Proof.
  intros HT HF. unfold _task_deletion_complete. destruct (given_up task) eqn:Hg; cbn [negb].
  2:{ apply wp_ret, HF. intros [E _]. congruence. }
  unfold count_documents. apply wp_bind, wp_bind, wp_find_all. intros l Hl. cbn [on_ok].
  apply wp_ret. cbn [on_ok]. apply wp_ret. destruct l as [|x l].
  - apply HT. split; [done|]. intros y Hy. destruct (fld y "taskId" task.["id"]) eqn:Ey; [|done].
    symmetry in Hl. apply Permutation_nil_r in Hl.
    assert (Hf : y ∈ filter (fun d => fld d "taskId" task.["id"] = true) (content db EndpointLocks))
      by by apply list_elem_of_filter.
    rewrite Hl in Hf. by apply elem_of_nil in Hf.
  - rewrite zlen_cons. pose proof (zlen_nonneg l). replace (1 + zlen l =? 0) with false by (symmetry; apply Z.eqb_neq; lia).
    apply HF. intros [_ Hn]. assert (Hx : x ∈ filter (fun d => fld d "taskId" task.["id"] = true) (content db EndpointLocks))
      by (rewrite <- Hl; by left).
    apply list_elem_of_filter in Hx as [Hx Hin]. by rewrite Hn in Hx.
Qed.

Lemma safe_complete task : safe (_task_deletion_complete task).
Proof. intros db. by apply complete_wp. Qed.

Lemma safe_finish identifier timestamp : safe (finish_deletion identifier timestamp).
Proof.
  intros db. unfold finish_deletion. apply wp_bind, wp_find_one; cbn [on_ok]; [|intros _; by apply wp_ret].
  intros current Hin Hid. apply wp_bind, complete_wp; cbn [on_ok]; [intros Hrel|intros _; by apply wp_ret].
  apply wp_bind, wp_update_one; cbn [on_ok]; [|intros _; by apply wp_ret].
  intros d db' (Hq & (l & r & E & E') & Ho). apply wp_ret.
  eapply task_write; [exact E|exact E'|done|cbn [set_all foldl fst snd]; by dget|].
  intros I Hd Hs. apply fld_true in Hid. freflect.
  assert (Hdc : d = current).
  { eapply (NoDup_map_eq (fun d => d.["id"])); [apply I|rewrite E; apply elem_of_middle|done|congruence]. }
  subst d. unfold released, given_up, final_status, fld_in, fld in *. cbn [set_all foldl fst snd] in *. dget. done.
Qed.

Lemma safe_release identifier stopped timestamp : safe (release_run identifier stopped timestamp).
Proof.
  apply safe_bind; [apply safe_delete_lock|]. intros b.
  apply safe_bind; [by apply safe_update_one, safe_update; [unfold touched; set_solver|..]|]. intros c. apply safe_ret.
Qed.

Lemma stopping_given_up d d' :
  d'.["nodeId"] = d.["nodeId"] -> d'.["desiredState"] = STOPPED -> d'.["status"] = d.["status"] ->
  given_up d = true -> given_up d' = true.
Proof.
  unfold given_up, final_status, fld_in, fld. intros -> -> ->. rewrite (bool_decide_eq_true_2 (STOPPED = STOPPED)) by done.
  rewrite !andb_true_iff. naive_solver.
Qed.

Lemma safe_reconcile_task identifier rd timestamp : safe (reconcile_task_deletion identifier rd timestamp).
Proof.
  unfold reconcile_task_deletion. apply safe_bind; [apply safe_find_one|]. intros [task|]; [|apply safe_ret].
  apply safe_bind.
  { apply safe_update_one, safe_update_tasks. intros d Hq. unfold is_deleted, fld.
    destruct rd; cbn [app set_all foldl fst snd]; dget; (split; [done|]; intros Hd Hs; split_and!; [done..|]);
      apply stopping_given_up; by dget. }
  intros _. apply safe_bind; [apply safe_cancel_starts|]. intros _. apply safe_bind.
  { apply safe_update_one, safe_update_tasks. intros d Hq. freflect. unfold is_deleted, fld.
    cbn [set_all foldl fst snd]. dget. split; [done|]. intros Hd Hs. split_and!; [done..|]. intros _.
    unfold given_up, final_status, fld_in, fld. dget. rewrite !bool_decide_eq_true_2 by done. done. }
  intros _. apply safe_bind; [apply safe_find_one|]. intros stopped. apply safe_bind.
  { destruct stopped; [apply safe_release|apply safe_ret]. }
  intros _. apply safe_bind; [apply safe_finish|]. intros _. apply safe_find_one.
Qed.

Lemma safe_stop_unheld : safe stop_unheld.
Proof.
  apply safe_bind; [|intros; apply safe_ret]. apply safe_update_many_tasks. intros d [_ Hq]%andb_prop. apply negb_true_iff in Hq.
  unfold is_deleted, given_up, final_status, fld_in, fld in *. cbn [set_all foldl fst snd]. dget. split; [done|].
  intros Hd Hs. split_and!; [done|done|]. intros [Hg _]%andb_prop. by rewrite Hg.
Qed.

Lemma safe_each items f : (forall i, safe (f i)) -> safe (each items f).
Proof.
  intros Hf. induction items as [|d items IH]; cbn; [apply safe_ret|]. apply safe_bind; [apply Hf|]. intros _. exact IH.
Qed.

Lemma safe_reconcile_tasks limit timestamp : safe (reconcile_deleted_tasks limit timestamp).
Proof.
  apply safe_bind; [apply safe_find_all|]. intros tasks. apply safe_each. intros i. apply safe_swallow, safe_reconcile_task.
Qed.

Lemma safe_all_complete tasks : safe (all_complete tasks).
Proof.
  induction tasks as [|t tasks IH]; cbn; [apply safe_ret|]. apply safe_bind; [apply safe_complete|].
  intros []; [exact IH|apply safe_ret].
Qed.

Lemma safe_reconcile_resource identifier timestamp : safe (reconcile_resource_deletion identifier timestamp).
Proof.
  assert (Hres : forall q f, safe (update_one Resources q f))
    by (intros q f; by apply safe_update_one, safe_update; [unfold touched; set_solver|..]).
  unfold reconcile_resource_deletion. apply safe_bind; [apply safe_find_one|]. intros [resource|]; [|apply safe_ret].
  apply safe_bind.
  { unfold mark_visible. apply safe_bind; [apply safe_find_all|]. intros [|v visible]; [apply safe_ret|].
    apply safe_bind; [apply safe_mark_tasks|]. intros _. apply safe_bind; [apply Hres|]. intros _. apply safe_ret. }
  intros res. destruct (fld _ _ _); [apply safe_ret|]. apply safe_bind; [apply safe_find_all|]. intros tasks.
  apply safe_bind.
  { apply safe_each. intros i. apply safe_bind; [apply safe_reconcile_task|]. intros _. apply safe_ret. }
  intros _. apply safe_bind; [apply safe_bind; [apply safe_find_all|intros l; apply safe_all_complete]|].
  intros complete. apply safe_bind; [destruct complete; [apply Hres|apply safe_ret]|]. intros _. apply safe_find_one.
Qed.

Lemma safe_reconcile_resources limit timestamp : safe (reconcile_deleted_resources limit timestamp).
Proof.
  apply safe_bind; [apply safe_find_all|]. intros rs. apply safe_each. intros i. apply safe_swallow, safe_reconcile_resource.
Qed.

(** ** Progress *)

(** [t] is the only task with its identifier. *)
Definition only_task (t : pydict) (db : database) : Prop :=
  exists l r, content db Tasks = l ++ t :: r /\ forall x, x ∈ l ++ r -> x.["id"] <> t.["id"].

Definition about (t : pydict) (q : pydict -> bool) : Prop := forall d, q d = true -> d.["id"] = t.["id"].

Lemma only_task_is t db d : only_task t db -> d ∈ content db Tasks -> d.["id"] = t.["id"] -> d = t.
Proof.
  intros (l & r & E & Hno) Hd Hid. rewrite E in Hd. apply elem_of_app in Hd as [Hd|[->|Hd]%elem_of_cons]; [|done|].
  - destruct (Hno d); [apply elem_of_app; by left|done].
  - destruct (Hno d); [apply elem_of_app; by right|done].
Qed.

Lemma only_task_in t db : only_task t db -> t ∈ content db Tasks.
Proof. intros (l & r & E & _). rewrite E. apply elem_of_middle. Qed.

Lemma wp_find_only t q (Q : result exn (option pydict) -> database -> Prop) db :
  only_task t db -> about t q -> Q (Ok (if q t then Some t else None)) db -> wp (find_one Tasks q) Q db.
Proof.
  intros Ho Ha HQ. apply wp_find_one.
  - intros d Hd Hq. assert (d = t) as -> by (eapply only_task_is; eauto). by rewrite Hq in HQ.
  - intros Hno. by rewrite (Hno t (only_task_in t db Ho)) in HQ.
Qed.

Lemma wp_update_only t q f (Q : result exn bool -> database -> Prop) db :
  only_task t db -> about t q -> (f t).["id"] = t.["id"] ->
  (forall db', only_task (if q t then f t else t) db' -> (forall c, c <> Tasks -> content db' c = content db c) -> Q (Ok (q t)) db') ->
  wp (update_one Tasks q f) Q db.
Proof.
  intros Ho Ha Hid HQ. apply wp_update_one.
  - intros d db' (Hq & (l & r & E & E') & Hoth).
    assert (Hd : d = t) by (eapply only_task_is; [exact Ho|rewrite E; apply elem_of_middle|by apply Ha]). subst d.
    specialize (HQ db'). rewrite Hq in HQ. apply HQ; [|done]. destruct Ho as (l0 & r0 & E0 & Hno).
    assert (Hno' : forall x, x ∈ l ++ r -> x.["id"] <> t.["id"]).
    { rewrite E in E0. assert (Hp : t :: l ++ r ≡ₚ t :: l0 ++ r0).
      { by rewrite !Permutation_middle, E0. }
      apply Permutation.Permutation_cons_inv in Hp. intros x Hx. apply Hno. by rewrite <- Hp. }
    exists l, r. split; [done|]. by rewrite Hid.
  - intros Hno. specialize (HQ db). rewrite (Hno t (only_task_in t db Ho)) in HQ. by apply HQ.
Qed.

(** The locks of the task are those of its run. *)
Definition own_lock (t : pydict) (db : database) : Prop :=
  NoDup (map (fun l => l.["taskId"]) (content db EndpointLocks))
  /\ forall l, l ∈ content db EndpointLocks -> l.["taskId"] = t.["id"] ->
       l.["runId"] = t.["runId"] /\ t.["runId"] <> PNone /\ t.["runId"] <> PStr "".

Lemma release_run_wp t identifier timestamp (Q : result exn unit -> database -> Prop) db :
  t.["id"] = PStr identifier -> own_lock t db ->
  (forall db', content db' Tasks = content db Tasks ->
     no_match (fun l => fld l "taskId" t.["id"]) (content db' EndpointLocks) -> Q (Ok tt) db') ->
  wp (release_run identifier t timestamp) Q db.
Proof.
  intros Hid [Hn Hown] HQ. unfold release_run. apply wp_bind.
  assert (Hrest : forall db1, content db1 Tasks = content db Tasks ->
    no_match (fun l => fld l "taskId" t.["id"]) (content db1 EndpointLocks) ->
    wp (let! _ := update_one Runs (fun d => fld d "id" t.["runId"] && absent d "endedAt")
          (set_all [("endedAt", PTime (Aware timestamp))]) in st_ret tt) Q db1).
  { intros db1 Et Hl. apply wp_bind, wp_update_one; cbn [on_ok]; [|intros _; by apply wp_ret, HQ].
    intros d db2 (_ & _ & Ho). apply wp_ret, HQ; [by rewrite Ho|]. by rewrite Ho. }
  apply wp_delete; cbn [on_ok].
  - intros l d r db1 Hq E E' Ho. freflect. apply Hrest; [by rewrite Ho|]. intros x Hx. apply fld_false. intros Hx'.
    rewrite E in Hn. apply (unique_middle (fun l => l.["taskId"]) l d r x Hn); [by rewrite <- E'|congruence].
  - intros Hno. apply Hrest; [done|]. intros x Hx. apply fld_false. intros Hx'.
    destruct (Hown x Hx Hx') as [Hr _]. specialize (Hno x Hx). unfold fld in Hno.
    rewrite !bool_decide_eq_true_2 in Hno by congruence. done.
Qed.

Lemma only_task_same t db db' : content db' Tasks = content db Tasks -> only_task t db -> only_task t db'.
Proof. intros E. unfold only_task. by rewrite E. Qed.

Lemma own_lock_same t t' db db' :
  content db' EndpointLocks = content db EndpointLocks -> t'.["id"] = t.["id"] -> t'.["runId"] = t.["runId"] ->
  own_lock t db -> own_lock t' db'.
Proof. intros E E1 E2. unfold own_lock. by rewrite E, E1, E2. Qed.

(** What the reconciliation has established of the task. *)
Definition stopping (t0 t : pydict) : Prop :=
  t.["id"] = t0.["id"] /\ is_deleted t = true /\ t.["deletionState"] = PENDING /\ t.["nodeId"] = PNone
  /\ t.["desiredState"] = STOPPED /\ t.["runId"] = t0.["runId"].

Lemma finish_completes identifier timestamp db t :
  only_task t db -> t.["id"] = PStr identifier -> is_deleted t = true -> t.["deletionState"] = PENDING -> released db t ->
  wp (finish_deletion identifier timestamp)
    (fun r db' => exists t', r = Ok tt /\ only_task t' db' /\ t'.["id"] = t.["id"] /\ t'.["deletionState"] = DONE /\ released db' t') db.
Proof.
  intros Ho Hid Hd Hp Hr. unfold finish_deletion.
  assert (Hab : forall d, fld d "id" (PStr identifier) = true -> d.["id"] = t.["id"]) by (intros d ?%fld_true; congruence).
  assert (Hqid : fld t "id" (PStr identifier) = true) by by apply fld_true.
  apply wp_bind, (wp_find_only t); [done|exact Hab|]. rewrite Hqid. cbn [on_ok].
  apply wp_bind, complete_wp; cbn [on_ok]; [|done]. intros _.
  assert (Hst : fld t "deletionState" PENDING = true) by by apply fld_true.
  apply wp_bind, (wp_update_only t); [done| |cbn [set_all foldl fst snd]; by dget|].
  { intros d Hq. apply Hab. by apply andb_prop in Hq as [[? _]%andb_prop _]. }
  intros db1 Ho1 Hoth. rewrite Hqid, Hd, Hst in *. cbn [on_ok andb] in *. apply wp_ret.
  eexists. split; [done|]. split; [exact Ho1|]. destruct Hr as [Hg Hl].
  unfold released. rewrite Hoth by done. unfold given_up, final_status, fld_in, fld in *. cbn [set_all foldl fst snd]. dget.
  split_and!; try done; by dget.
Qed.

(** A deleted task without a node is finished by one reconciliation. *)
Lemma reconcile_task_completes identifier rd timestamp db t :
  only_task t db -> t.["id"] = PStr identifier -> is_deleted t = true -> t.["deletionState"] = PENDING ->
  t.["nodeId"] = PNone -> fld_in t "status" [PAUSED; STOPPED; PStr "ERROR"; PStr "BLOCKED"] = true -> own_lock t db ->
  wp (reconcile_task_deletion identifier rd timestamp)
    (fun r db' => exists t', r = Ok (Some t') /\ only_task t' db' /\ t'.["deletionState"] = DONE /\ released db' t') db.
Proof.
  intros Ho Hid Hd Hp Hn Hs Hl. unfold reconcile_task_deletion.
  assert (Hab : forall t', t'.["id"] = t.["id"] -> forall d, fld d "id" (PStr identifier) = true -> d.["id"] = t'.["id"])
    by (intros t' E d ?%fld_true; congruence).
  assert (Hqid : forall t', t'.["id"] = t.["id"] -> fld t' "id" (PStr identifier) = true) by (intros; apply fld_true; congruence).
  apply wp_bind, (wp_find_only t); [done| |]. { intros d [Hq _]%andb_prop. by apply (Hab t). }
  rewrite (Hqid t), Hd by done. cbn [on_ok andb]. set (changes := _ ++ _).
  assert (Hc : stopping t (set_all changes t) /\ (set_all changes t).["status"] = t.["status"]).
  { subst changes. unfold stopping, is_deleted, fld in *. destruct rd; cbn [app set_all foldl fst snd]; dget; done. }
  apply wp_bind, (wp_update_only t); [done| |apply Hc|]. { intros d [Hq _]%andb_prop. by apply (Hab t). }
  rewrite (Hqid t), Hd by done. cbn [on_ok andb]. destruct Hc as [Hc Hst]. set (t1 := set_all changes t) in *. clearbody t1.
  intros db1 Ho1 Hoth1. apply wp_bind. unfold cancel_starts. apply wp_bind, wp_update_many. cbn [on_ok].
  intros db2 _ Hoth2. apply wp_ret. cbn [on_ok].
  apply (only_task_same _ _ db2) in Ho1; [|by apply Hoth2].
  assert (Hl2 : own_lock t1 db2).
  { eapply (own_lock_same t); [|by apply Hc..|exact Hl]. by rewrite Hoth2, Hoth1. }
  clear Hoth1 Hoth2 Ho Hl. destruct Hc as (C1 & C2 & C3 & C4 & C5 & C6).
  apply wp_bind, (wp_update_only t1); [done| |cbn [set_all foldl fst snd]; by dget|].
  { intros d Hq. apply (Hab t1 C1). by do 4 apply andb_prop in Hq as [Hq _]. }
  rewrite (Hqid t1 C1), C2. rewrite (proj2 (fld_true t1 "nodeId" PNone)), (proj2 (fld_true t1 "desiredState" STOPPED)) by done.
  cbn [andb]. intros db3 Ho3 Hoth3. cbn [on_ok].
  set (t2 := if fld t1 "status" PAUSED then _ else t1) in *.
  assert (C : stopping t1 t2 /\ final_status t2 = true).
  { subst t2. unfold stopping, is_deleted, final_status, fld_in, fld in *. rewrite <- Hst in Hs.
    destruct (bool_decide (t1.["status"] = PAUSED)) eqn:Ep; cbn [set_all foldl fst snd].
    - dget. done.
    - cbn [existsb] in Hs. by rewrite Ep in Hs. }
  clearbody t2. destruct C as [(D1 & D2 & D3 & D4 & D5 & D6) Df].
  assert (Hl3 : own_lock t2 db3) by (eapply (own_lock_same t1); [by apply Hoth3|done..]).
  assert (Hrest : forall db4, content db4 Tasks = content db3 Tasks ->
    no_match (fun l => fld l "taskId" t2.["id"]) (content db4 EndpointLocks) ->
    wp (let! _ := finish_deletion identifier timestamp in find_one Tasks (fun d => fld d "id" (PStr identifier)))
      (fun r db' => exists t', r = Ok (Some t') /\ only_task t' db' /\ t'.["deletionState"] = DONE /\ released db' t') db4).
  { intros db4 Et Hno. apply wp_bind. eapply wp_mono; [eapply (finish_completes _ _ _ t2)|].
    - by eapply only_task_same.
    - congruence.
    - done.
    - done.
    - split; [|done]. unfold given_up. rewrite Df, !(proj2 (fld_true _ _ _)) by done. done.
    - intros r db5 (t3 & -> & Ho5 & Hid5 & Hd5 & Hr5). cbn [on_ok].
      apply (wp_find_only t3); [done|exact (Hab t3 ltac:(congruence))|]. rewrite Hqid by congruence. by exists t3. }
  assert (Hrel : releasable identifier t2 = negb (fld t2 "runId" PNone) && negb (fld t2 "runId" (PStr ""))).
  { unfold releasable. rewrite (Hqid t2), D2, (proj2 (fld_true t2 "nodeId" PNone)), (proj2 (fld_true t2 "desiredState" STOPPED))
      by congruence. cbn [andb]. unfold final_status, fld_in in *. cbn [existsb] in *.
    rewrite Df, orb_true_r. done. }
  apply wp_bind, (wp_find_only t2); [done| |].
  { intros d Hq. unfold releasable in Hq. apply (Hab t2 ltac:(congruence)). by do 6 apply andb_prop in Hq as [Hq _]. }
  rewrite Hrel. destruct (negb _ && negb _) eqn:Er; cbn [on_ok].
  - apply wp_bind, (release_run_wp t2); [congruence|done|]. intros db4 Et Hno. cbn [on_ok]. by apply Hrest.
  - apply wp_bind, wp_ret. cbn [on_ok]. apply Hrest; [done|]. intros x Hx. apply fld_false. intros Hx'.
    destruct (proj2 Hl3 x Hx Hx') as (_ & R1 & R2).
    rewrite !(proj2 (fld_false _ _ _)) in Er by done. done.
Qed.

Lemma safe_transaction {A} f (m : dbm A) : safe m -> safe (transaction f m).
Proof.
  intros Hm db. apply wp_transaction. eapply wp_mono; [apply Hm|]. intros [a|e] db' Hadv; [|apply advanced_refl].
  destruct f as [|[]]; [done|done|apply advanced_refl].
Qed.

(** ** The calls of the program *)

Inductive deletion_call : Type :=
  | Mark (identifier : string) (timestamp : Z) (version : option Z) (f : fate)
  | ReconcileTask (identifier : string) (resource_deleted : bool) (timestamp : Z)
  | ReconcileTasks (limit : nat) (timestamp : Z)
  | ReconcileResource (identifier : string) (timestamp : Z)
  | ReconcileResources (limit : nat) (timestamp : Z)
  | StopUnheld.

Definition perform (c : deletion_call) : dbm unit :=
  match c with
  | Mark i t v f => transaction f (let! _ := mark_resource_deletion i t v in st_ret tt)
  | ReconcileTask i r t => let! _ := reconcile_task_deletion i r t in st_ret tt
  | ReconcileTasks l t => reconcile_deleted_tasks l t
  | ReconcileResource i t => let! _ := reconcile_resource_deletion i t in st_ret tt
  | ReconcileResources l t => reconcile_deleted_resources l t
  | StopUnheld => stop_unheld
  end.

Definition perform_all (calls : list deletion_call) (db : database) : database :=
  foldl (fun db c => (perform c db).2) db calls.

Lemma safe_perform c : safe (perform c).
Proof.
  destruct c; cbn; [apply safe_transaction| | | | |apply safe_stop_unheld];
    try (apply safe_bind; [|intros; apply safe_ret]);
    auto using safe_mark, safe_reconcile_task, safe_reconcile_tasks, safe_reconcile_resource, safe_reconcile_resources.
Qed.

Lemma perform_all_advanced calls : forall db, advanced db (perform_all calls db).
Proof.
  induction calls as [|c calls IH]; intros db; [apply advanced_refl|]. unfold perform_all in *. cbn.
  eapply advanced_trans; [|apply IH]. pose proof (safe_perform c db) as Hp. unfold wp in Hp. by destruct (perform c db).
Qed.

(** The stop of the scheduler makes the status of a task without a node final. *)
Lemma stop_unheld_only t db : only_task t db -> t.["nodeId"] = PNone -> t.["desiredState"] = STOPPED ->
  exists t', stop_unheld db = (Ok tt, (stop_unheld db).2) /\ only_task t' (stop_unheld db).2
    /\ (forall k, k <> "status" -> t'.[k] = t.[k]) /\ fld_in t' "status" [PAUSED; STOPPED; PStr "ERROR"; PStr "BLOCKED"] = true
    /\ content (stop_unheld db).2 EndpointLocks = content db EndpointLocks.
Proof.
  intros (l & r & E & Hno) Hn Hd.
  assert (Hwp : wp stop_unheld (fun res db' => res = Ok tt /\ exists t', only_task t' db' /\ (forall k, k <> "status" -> t'.[k] = t.[k])
    /\ fld_in t' "status" [PAUSED; STOPPED; PStr "ERROR"; PStr "BLOCKED"] = true /\ content db' EndpointLocks = content db EndpointLocks) db).
  { apply wp_bind, wp_update_many; cbn [on_ok]. intros db' E' Ho. apply wp_ret. split; [done|]. set (f := apply_if _ _) in E'.
    assert (Hid : forall d k, k <> "status" -> (f d).[k] = d.[k]).
    { intros d k Hk. unfold f, apply_if. destruct (_ && _); [|done]. unfold set_all. cbn [foldl fst snd]. by rewrite get_set_ne. }
    exists (f t). split_and!; [|by apply Hid| |by apply Ho].
    - exists (map f l), (map f r). split; [by rewrite E', E, map_app|]. intros x. rewrite <- map_app. intros (y & -> & Hy)%list_elem_of_fmap.
      rewrite !Hid by done. by apply Hno.
    - unfold f, apply_if. rewrite (proj2 (fld_true t "desiredState" STOPPED)), (proj2 (fld_true t "nodeId" PNone)) by done. cbn [andb].
      destruct (fld_in t "status" _) eqn:Ef; cbn [negb].
      + unfold fld_in in *. cbn [existsb] in *. repeat (apply orb_prop in Ef as [Ef|Ef]; [by rewrite Ef, ?orb_true_r|]). done.
      + unfold set_all. cbn [foldl fst snd]. unfold fld_in, fld. by dget. }
  unfold wp in Hwp. destruct (stop_unheld db) as [res db']. destruct Hwp as (-> & t' & H1 & H2 & H3 & H4). by exists t'.
Qed.

(** C20: a deletion is reported done only when nothing is left of the task, and it
    does get done.  Whatever sequence of markings, reconciliations and stops of the
    scheduler runs, a deleted task whose state says DONE has no node, a final status
    and no run lock, and no collection of log files, downloads or exports is written.
    And from any state so reached, for a deleted task that no node holds and whose
    lock, if any, is that of its run: when its status is PAUSED, STOPPED, ERROR or
    BLOCKED one reconciliation ends with the task DONE and released; whatever its
    status, when it shall stop, the next stop of the scheduler and one reconciliation
    do. *)
Theorem soft_deletion_sound calls db :
  done_released db ->
  let db' := perform_all calls db in
  done_released db' /\ frame touched db db'
  /\ forall identifier rd timestamp t,
       only_task t db' -> t.["id"] = PStr identifier -> is_deleted t = true -> t.["deletionState"] = PENDING ->
       t.["nodeId"] = PNone -> own_lock t db' ->
       (fld_in t "status" [PAUSED; STOPPED; PStr "ERROR"; PStr "BLOCKED"] = true ->
        exists t' db2, reconcile_task_deletion identifier rd timestamp db' = (Ok (Some t'), db2)
          /\ only_task t' db2 /\ t'.["deletionState"] = DONE /\ released db2 t')
       /\ (t.["desiredState"] = STOPPED ->
        exists t' db2, reconcile_task_deletion identifier rd timestamp (perform StopUnheld db').2 = (Ok (Some t'), db2)
          /\ only_task t' db2 /\ t'.["deletionState"] = DONE /\ released db2 t').
Proof.
  intros I db'. destruct (perform_all_advanced calls db) as [HI HF]. split_and!; [by apply HI|done|].
  intros identifier rd timestamp t Ho Hid Hd Hp Hn Hl. split.
  - intros Hs. pose proof (reconcile_task_completes identifier rd timestamp db' t Ho Hid Hd Hp Hn Hs Hl) as Hwp. unfold wp in Hwp.
    destruct (reconcile_task_deletion identifier rd timestamp db') as [r db2]. destruct Hwp as (t' & -> & Hrest). by exists t', db2.
  - intros Hs. cbn [perform]. destruct (stop_unheld_only t db' Ho Hn Hs) as (t1 & _ & Ho1 & Hk & Hs1 & El).
    assert (Hd1 : is_deleted t1 = true) by (unfold is_deleted, fld in *; by rewrite Hk).
    pose proof (reconcile_task_completes identifier rd timestamp (stop_unheld db').2 t1) as Hwp. rewrite !Hk in Hwp by done.
    specialize (Hwp Ho1 Hid Hd1 Hp Hn Hs1 (own_lock_same t t1 db' _ El (Hk "id" ltac:(done)) (Hk "runId" ltac:(done)) Hl)). unfold wp in Hwp.
    destruct (reconcile_task_deletion identifier rd timestamp (stop_unheld db').2) as [r db2]. destruct Hwp as (t' & -> & Hrest). by exists t', db2.
Qed.
End lifecycle.

(** ** Witness: a resource with one paused task is deleted *)

#[local] Existing Instance list_mongo.
#[local] Existing Instance list_mongo_laws.

Definition paused_run : pydict :=
  [("id", PStr "t"); ("resourceId", PStr "dev"); ("status", PStr "PAUSED"); ("desiredState", PStr "PAUSED"); ("runId", PStr "r")].

Definition deletion_db : database := fun c =>
  match c with
  | Tasks => [paused_run]
  | Resources => [[("id", PStr "dev"); ("ip", PStr "10.0.0.1"); ("version", PInt 1)]]
  | EndpointLocks => [[("taskId", PStr "t"); ("runId", PStr "r")]]
  | Runs => [[("id", PStr "r")]]
  | ResourceAddresses => [[("_id", PStr "10.0.0.1"); ("resourceId", PStr "dev")]]
  | _ => []
  end.

Definition deletion_calls : list deletion_call := [Mark "dev" 5 (Some 1) Committed].

(** A second task that waits for its device. *)
Definition waiting_run : pydict :=
  [("id", PStr "w"); ("resourceId", PStr "dev"); ("status", PStr "WAITING_DEVICE"); ("desiredState", PStr "RUNNING")].

Definition waiting_db : database := fun c => match c with Tasks => [waiting_run] | _ => deletion_db c end.

Lemma soft_deletion_sound_witness :
  (exists t' db2, reconcile_task_deletion "t" false 6 (perform_all deletion_calls deletion_db) = (Ok (Some t'), db2)
    /\ t'.["deletionState"] = DONE /\ content db2 EndpointLocks = [])
  /\ content (perform_all (deletion_calls ++ [ReconcileResources 100 6]) deletion_db) ResourceAddresses = []
  /\ map (fun r => r.["deletionState"])
         (content (perform_all (deletion_calls ++ [ReconcileResources 100 6]) deletion_db) Resources) = [DONE]
  /\ exists t' db2, reconcile_task_deletion "w" false 6 (perform StopUnheld (perform_all deletion_calls waiting_db)).2 = (Ok (Some t'), db2)
    /\ t'.["deletionState"] = DONE.
Proof.
  assert (I : done_released deletion_db /\ done_released waiting_db).
  { split; (split; [apply NoDup_singleton|]; intros t ->%list_elem_of_singleton Hd; done). }
  split_and!; [|by vm_compute|by vm_compute|].
  - destruct (soft_deletion_sound deletion_calls deletion_db (proj1 I)) as (_ & _ & Hp).
    set (db' := perform_all deletion_calls deletion_db) in *.
    assert (E : exists t, content db' Tasks = [t]) by (eexists; vm_compute; reflexivity). destruct E as [t E].
    assert (Et : [t] = content db' Tasks) by done. vm_compute in Et. injection Et as Et.
    destruct (Hp "t" false 6 t) as [Hdone _]; try (by rewrite Et).
    + exists [], []. split; [done|]. by intros x Hx%elem_of_nil.
    + split; [apply NoDup_singleton|]. rewrite Et. intros l ->%list_elem_of_singleton _. done.
    + destruct Hdone as (t' & db2 & Hr & _ & Hd & _); [by rewrite Et|]. exists t', db2. split; [done|]. split; [done|].
      assert (Hl : content db2 EndpointLocks = content (reconcile_task_deletion "t" false 6 db').2 EndpointLocks) by by rewrite Hr.
      rewrite Hl. by vm_compute.
  - destruct (soft_deletion_sound deletion_calls waiting_db (proj2 I)) as (_ & _ & Hp).
    set (db' := perform_all deletion_calls waiting_db) in *.
    assert (E : exists t, content db' Tasks = [t]) by (eexists; vm_compute; reflexivity). destruct E as [t E].
    assert (Et : [t] = content db' Tasks) by done. vm_compute in Et. injection Et as Et.
    destruct (Hp "w" false 6 t) as [_ Hdone]; try (by rewrite Et).
    + exists [], []. split; [done|]. by intros x Hx%elem_of_nil.
    + split; [apply NoDup_singleton|]. rewrite Et. intros l ->%list_elem_of_singleton Hl. done.
    + destruct Hdone as (t' & db2 & Hr & _ & Hd & _); [by rewrite Et|]. by exists t', db2.
Defined.
