(* ===== verification/AuthRecords.v ===== *)
(** * The authentication history of a resource ([resources/authentication_records.py])

    Every authentication of a device is recorded.  Equal periodic results of one
    day are merged into one record with a count, through a head document per
    resource that orders the records and is written first, so that concurrent
    transactions conflict there. *)

From stdpp Require Import pretty.
From S2P Require Import Prelude PyTime PyValue PyText Mongo.
Open Scope camera_scope.

(** The arguments of one call; [ob_now] is the clock, [ob_id] and [ob_row] the
    identifiers a new record would get. *)
Record observation := Obs {
  ob_resource : pydict; ob_source : string; ob_result : string; ob_before : pydict; ob_after : pydict;
  ob_message : pyval; ob_completed : option datetime; ob_now : Z; ob_retention : Z; ob_id : string; ob_row : string }.

(** The text that `str` gives a float, a date, a list or a dict; only its equality matters
    here. *)
Class ValueText := value_text : pyval -> string.

Definition str (v : pyval) `{ValueText} : string :=
  match v with
  | PStr s => s
  | PInt z => pretty z
  | PBool b => if b then "True" else "False"
  | PNone => "None"
  | _ => value_text v
  end.

Section values.
Context `{ValueText}.

(** `str(d.get(key) or "").strip()`. *)
Definition cleaned (d : pydict) (key : string) : string := py_strip (if truthy d.[key] then str d.[key] else "").

Definition ob_time (o : observation) : Z := match ob_completed o with Some d => utc_instant d | None => ob_now o end.

Definition succeeded (o : observation) : bool := bool_decide (ob_result o = "SUCCESS").
Definition initial (o : observation) : bool := succeeded o && is_none (ob_before o).["authenticatedAt"].

Definition identity_before (o : observation) : string * string := (cleaned (ob_before o) "model", cleaned (ob_before o) "subSerialNumber").
Definition identity_after (o : observation) : string * string := (cleaned (ob_after o) "model", cleaned (ob_after o) "subSerialNumber").

Definition identity_changed (o : observation) : bool :=
  succeeded o && negb (initial o) && negb (bool_decide (identity_before o = identity_after o)).

Definition mergeable (o : observation) : bool :=
  bool_decide (ob_source o = "PERIODIC") && negb (initial o) && negb (identity_changed o).

(** The latest record continues with this observation. *)
Definition continues (o : observation) (latest : pydict) : bool :=
  truthy (PDict latest) && fld latest "source" (PStr "PERIODIC") && fld latest "result" (PStr (ob_result o))
  && negb (truthy latest.["initialAuthentication"]) && negb (truthy latest.["identityChanged"])
  && fld latest "utcDay" (PStr (utc_day (ob_time o)))
  && bool_decide (dict_get_or latest "modelAfter" (PStr "") = PStr (identity_after o).1)
  && bool_decide (dict_get_or latest "serialAfter" (PStr "") = PStr (identity_after o).2)
  && match dict_get_or latest "latestAt" latest.["createdAt"] with PTime d => utc_instant d <=? ob_time o | _ => false end.

(** `$max` with a date. *)
Definition dict_max_time (k : string) (t : Z) (d : pydict) : pydict :=
  match d.[k] with
  | PTime u => if utc_instant u <? t then dict_set d k (PTime (Aware t)) else d
  | _ => dict_set d k (PTime (Aware t))
  end.

(** The count of the latest record. *)
Definition merge_update (o : observation) (head : pydict) (d : pydict) : pydict :=
  set_all [("historyLatestRevision", head.["revision"]); ("message", ob_message o)]
    (dict_max_time "latestAt" (ob_time o) (dict_inc "occurrenceCount" 1 d)).

Definition record_of (o : observation) (head : pydict) : pydict :=
  [("id", PStr (ob_id o)); ("resourceId", (ob_resource o).["id"]);
   ("createdAt", PTime (Aware (ob_time o))); ("latestAt", PTime (Aware (ob_time o)));
   ("occurrenceCount", PInt 1); ("utcDay", PStr (utc_day (ob_time o)));
   ("historyFirstRevision", head.["revision"]); ("historyLatestRevision", head.["revision"])]
  ++ (if 0 <? ob_retention o then [("expiresAt", PTime (Aware (ob_time o + ob_retention o * US_PER_DAY)))] else [])
  ++ [("source", PStr (ob_source o)); ("result", PStr (ob_result o));
      ("modelBefore", PStr (identity_before o).1); ("modelAfter", PStr (identity_after o).1);
      ("serialBefore", PStr (identity_before o).2); ("serialAfter", PStr (identity_after o).2);
      ("identityChanged", PBool (identity_changed o)); ("initialAuthentication", PBool (initial o));
      ("message", ob_message o); ("_id", PStr (ob_row o))].

End values.

Section records.
Context `{ValueText} `{Mongo}.

(** The latest record of the head, when it is still there. *)
Definition latest_of (o : observation) (head : pydict) : dbm (option pydict) :=
  if truthy head.["latestRecordId"]
  then find_one AuthRecords (fun d => fld d "id" head.["latestRecordId"] && fld d "resourceId" (ob_resource o).["id"])
  else st_ret None.

Definition new_record (o : observation) (head : pydict) : dbm pyval :=
  let! _ := insert_one AuthRecords (record_of o head) in
  let! advanced := update_modified AuthHeads
    (fun d => fld d "_id" (ob_resource o).["id"] && fld d "revision" head.["revision"])
    (set_all [("latestRecordId", PStr (ob_id o)); ("updatedAt", PTime (Aware (ob_time o)))]) in
  let! _ := raise_if (negb advanced) (RuntimeError "认证历史并发顺序已变化，请重试事务") in
  st_ret (PStr (ob_id o)).

(** The call after the head is written. *)
Definition merge_or_insert (o : observation) (head : pydict) : dbm pyval :=
  if mergeable o
  then
    let! latest := latest_of o head in
    match latest with
    | Some latest =>
        if continues o latest
        then
          let! _ := update_one AuthRecords (fun d => fld d "_id" latest.["_id"]) (merge_update o head) in
          st_ret latest.["id"]
        else new_record o head
    | None => new_record o head
    end
  else new_record o head.

Definition head_update (o : observation) (d : pydict) : pydict :=
  set_all [("updatedAt", PTime (Aware (ob_time o)))] (dict_inc "revision" 1 d).

(** [_record_authentication_in_session]. *)
Definition _record_authentication_in_session (o : observation) : dbm pyval :=
  let! head := find_one_and_upsert AuthHeads (fun d => fld d "_id" (ob_resource o).["id"]) (head_update o)
                 [("_id", (ob_resource o).["id"])] in
  merge_or_insert o head.

(** [record_authentication]: in the caller's session, or a transaction of its
    own. *)
Definition record_authentication (o : observation) (own : option fate) : dbm pyval :=
  match own with
  | None => _record_authentication_in_session o
  | Some f => transaction f (_record_authentication_in_session o)
  end.

(** ** What the history says *)

(** The records of a resource, in the order they were made. *)
Definition for_resource (rid : pyval) (l : list pydict) : list pydict := filter (fun d => d.["resourceId"] = rid) l.

Definition of_resource (rid : pyval) (db : database) : list pydict := for_resource rid (content db AuthRecords).

(** A result and the identity it saw. *)
Definition seen (d : pydict) : pyval * pyval * pyval := (d.["result"], d.["modelAfter"], d.["serialAfter"]).
Definition observed (o : observation) : pyval * pyval * pyval :=
  (PStr (ob_result o), PStr (identity_after o).1, PStr (identity_after o).2).

(** A record stands for as many observations as it counts. *)
Definition expand (d : pydict) : list (pyval * pyval * pyval) :=
  replicate (Z.to_nat (default 0 (as_int d.["occurrenceCount"]))) (seen d).

Definition history (rid : pyval) (db : database) : list (pyval * pyval * pyval) := concat (map expand (of_resource rid db)).

Definition well_formed (d : pydict) : Prop :=
  (exists i, d.["id"] = PStr i) /\ (exists n, d.["occurrenceCount"] = PInt n /\ 1 <= n)
  /\ is_Some (dict_lookup d "modelAfter") /\ is_Some (dict_lookup d "serialAfter").

(** The head of a resource names no record but its last one. *)
Record chained (db : database) : Prop := Chained {
  ch_ids : NoDup (map (fun d => d.["id"]) (content db AuthRecords));
  ch_rows : NoDup (map (fun d => d.["_id"]) (content db AuthRecords));
  ch_heads : NoDup (map (fun d => d.["_id"]) (content db AuthHeads));
  ch_records : forall d, d ∈ content db AuthRecords -> well_formed d;
  ch_last : forall h d, h ∈ content db AuthHeads -> d ∈ content db AuthRecords ->
    d.["id"] = h.["latestRecordId"] -> d.["resourceId"] = h.["_id"] -> last (of_resource h.["_id"] db) = Some d }.

Context `{!MongoLaws}.

(** ** Merging *)

Lemma merge_update_fields o head d k :
  k <> "historyLatestRevision" -> k <> "message" -> k <> "latestAt" -> k <> "occurrenceCount" ->
  (merge_update o head d).[k] = d.[k].
Proof.
  intros. unfold merge_update, dict_max_time. cbn [set_all foldl fst snd]. rewrite !get_set_ne by done.
  repeat case_match; rewrite ?get_set_ne by done; by rewrite get_inc_ne.
Qed.

Lemma merge_update_count o head d :
  (merge_update o head d).["occurrenceCount"] = PInt (default 0 (as_int d.["occurrenceCount"]) + 1).
Proof.
  unfold merge_update, dict_max_time. cbn [set_all foldl fst snd]. rewrite !get_set_ne by done.
  repeat case_match; rewrite ?get_set_ne by done; unfold dict_inc; by rewrite get_set_eq.
Qed.

Lemma merge_update_lookup o head d k :
  is_Some (dict_lookup d k) -> is_Some (dict_lookup (merge_update o head d) k).
Proof.
  assert (Hset : forall d k' v, is_Some (dict_lookup d k) -> is_Some (dict_lookup (dict_set d k' v) k)).
  { intros d0 k' v Hs. rewrite dict_lookup_set. case_decide; [done|exact Hs]. }
  intros Hs. unfold merge_update, dict_max_time, dict_inc. cbn [set_all foldl fst snd]. repeat case_match; auto 10.
Qed.

Lemma merge_well_formed o head d : well_formed d -> well_formed (merge_update o head d).
Proof.
  intros (Hi & (n & Hn & Hle) & H1' & H2'). split_and!.
  - by rewrite merge_update_fields.
  - exists (n + 1). rewrite merge_update_count, Hn. cbn. split; [done|lia].
  - by apply merge_update_lookup.
  - by apply merge_update_lookup.
Qed.

Lemma merge_expand o head d : well_formed d -> continues o d = true -> expand (merge_update o head d) = expand d ++ [observed o].
Proof.
  intros (_ & (n & Hn & Hle) & [m Hm] & [s Hs]) Hc. unfold continues in Hc. freflect.
  unfold expand. rewrite merge_update_count, Hn. cbn [as_int from_option id].
  replace (Z.to_nat (n + 1)) with (Z.to_nat n + 1)%nat by lia. rewrite replicate_add. cbn [replicate].
  assert (E : seen (merge_update o head d) = seen d) by (unfold seen; by rewrite !merge_update_fields).
  rewrite E. do 2 f_equal. unfold seen, observed, dict_get_or, dict_get in *.
  rewrite Hm, Hs in *. cbn in *. repeat match goal with Hb : bool_decide _ = true |- _ => apply bool_decide_eq_true_1 in Hb end.
  congruence.
Qed.

(** ** The records of a resource in a list of records *)

Lemma for_resource_middle rid l d r :
  for_resource rid (l ++ d :: r)
  = for_resource rid l ++ (if decide (d.["resourceId"] = rid) then [d] else []) ++ for_resource rid r.
Proof.
  unfold for_resource. rewrite filter_app, filter_cons. f_equal. by case_decide.
Qed.

Lemma last_filter_nil (l r : list pydict) d : last (l ++ d :: r) = Some d -> d ∉ r -> r = [].
Proof.
  intros E Hd. destruct r as [|x r] using rev_ind; [done|]. rewrite app_comm_cons, app_assoc, last_snoc in E.
  injection E as ->. destruct Hd. apply elem_of_app. right. by left.
Qed.

Lemma last_for_resource l d r :
  last (for_resource d.["resourceId"] (l ++ d :: r)) = Some d -> (forall x, x ∈ r -> x <> d) -> for_resource d.["resourceId"] r = [].
Proof.
  rewrite for_resource_middle, decide_True by done. intros E Hno. eapply last_filter_nil; [exact E|].
  intros [_ Hx]%list_elem_of_filter. by apply (Hno d).
Qed.

(** The last record of a resource grows. *)
Lemma merge_history o head db db' d :
  chained db -> d ∈ content db AuthRecords -> d.["resourceId"] = (ob_resource o).["id"] ->
  last (of_resource (ob_resource o).["id"] db) = Some d -> continues o d = true ->
  updated AuthRecords (fun x => fld x "_id" d.["_id"]) (merge_update o head) d db db' ->
  chained db' /\ forall rid, history rid db' = history rid db ++ (if decide (rid = (ob_resource o).["id"]) then [observed o] else []).
Proof.
  intros C Hin Hrid Hlast Hc (_ & (l & r & E & E') & Ho). set (f := merge_update o head) in *.
  assert (Hk : forall k, k ∈ ["id"; "_id"; "resourceId"] -> (f d).[k] = d.[k]).
  { intros k Hk. apply merge_update_fields; set_solver. }
  assert (Hwf : well_formed d) by by apply C.
  assert (Hno : forall x, x ∈ l ++ r -> x <> d).
  { intros x Hx ->. pose proof (ch_rows _ C) as Hn. rewrite E in Hn.
    by apply (unique_middle (fun d => d.["_id"]) l d r d Hn). }
  assert (Hr : for_resource d.["resourceId"] r = []).
  { unfold of_resource in Hlast. rewrite E, <- Hrid in Hlast. apply (last_for_resource l d r Hlast).
    intros x Hx. apply Hno, elem_of_app. by right. }
  assert (Hsplit : forall rid, of_resource rid db' = for_resource rid l ++ (if decide (d.["resourceId"] = rid) then [f d] else []) ++ for_resource rid r).
  { intros rid. unfold of_resource. rewrite E'. rewrite for_resource_middle.
    rewrite (Hk "resourceId") by set_solver. done. }
  assert (Hsplit0 : forall rid, of_resource rid db = for_resource rid l ++ (if decide (d.["resourceId"] = rid) then [d] else []) ++ for_resource rid r).
  { intros rid. unfold of_resource. rewrite E. apply for_resource_middle. }
  assert (Eh : content db' AuthHeads = content db AuthHeads) by by apply Ho.
  split.
  - destruct C as [C1 C2 C3 C4 C5]. split.
    + rewrite E', map_app. rewrite E, map_app in C1. cbn in *. by rewrite (Hk "id") by set_solver.
    + rewrite E', map_app. rewrite E, map_app in C2. cbn in *. by rewrite (Hk "_id") by set_solver.
    + by rewrite Eh.
    + intros x Hx. rewrite E' in Hx. apply elem_of_app in Hx as [Hx|[->|Hx]%elem_of_cons].
      * apply C4. rewrite E. apply elem_of_app. by left.
      * by apply merge_well_formed.
      * apply C4. rewrite E. apply elem_of_app. right. by right.
    + intros h x Hh Hx Hid Hrx. rewrite Eh in Hh. rewrite Hsplit.
      destruct (decide (d.["resourceId"] = h.["_id"])) as [Er|Er].
      * rewrite <- Er, Hr, app_nil_r, last_snoc. f_equal.
        rewrite E' in Hx. apply elem_of_app in Hx as [Hx|[->|Hx]%elem_of_cons]; [exfalso|done|exfalso].
        all: assert (Hx' : x ∈ content db AuthRecords) by (rewrite E; apply elem_of_app; first [by left|right; by right]).
        all: pose proof (C5 h x Hh Hx' Hid Hrx) as Hl; rewrite <- Er, Hrid, Hlast in Hl; injection Hl as <-.
        all: apply (Hno d); [apply elem_of_app; by auto|done].
      * cbn [app]. rewrite E' in Hx. apply elem_of_app in Hx as [Hx|[->|Hx]%elem_of_cons].
        2:{ rewrite (Hk "resourceId") in Hrx by set_solver. done. }
        all: assert (Hx' : x ∈ content db AuthRecords) by (rewrite E; apply elem_of_app; first [by left|right; by right]).
        all: pose proof (C5 h x Hh Hx' Hid Hrx) as Hl; rewrite Hsplit0, decide_False in Hl by done; exact Hl.
  - intros rid. unfold history. rewrite Hsplit, Hsplit0, !map_app, !concat_app, Hrid.
    destruct (decide ((ob_resource o).["id"] = rid)) as [<-|Hne].
    + rewrite decide_True by done. rewrite <- Hrid, Hr. cbn [map concat app]. rewrite !app_nil_r. unfold f. rewrite merge_expand by done.
      by rewrite app_assoc.
    + rewrite decide_False by congruence. cbn. by rewrite app_nil_r.
Qed.

(** A new record follows the others, and the head names it. *)
Lemma record_fields o head :
  (record_of o head).["id"] = PStr (ob_id o) /\ (record_of o head).["_id"] = PStr (ob_row o)
  /\ (record_of o head).["resourceId"] = (ob_resource o).["id"]
  /\ well_formed (record_of o head) /\ expand (record_of o head) = [observed o].
Proof.
  unfold record_of, well_formed, expand, seen, observed. destruct (0 <? ob_retention o); cbn;
    (split_and!; [done..|eexists; reflexivity|exists 1; split; [reflexivity|lia]|eexists; reflexivity|eexists; reflexivity|done]).
Qed.

Lemma insert_history o head db db1 db2 h :
  chained db -> no_match (clash AuthRecords (record_of o head)) (content db AuthRecords) ->
  content db1 AuthRecords = content db AuthRecords ++ [record_of o head] ->
  (forall c, c <> AuthRecords -> content db1 c = content db c) ->
  updated AuthHeads (fun d => fld d "_id" (ob_resource o).["id"] && fld d "revision" head.["revision"])
    (set_all [("latestRecordId", PStr (ob_id o)); ("updatedAt", PTime (Aware (ob_time o)))]) h db1 db2 ->
  chained db2 /\ forall rid, history rid db2 = history rid db ++ (if decide (rid = (ob_resource o).["id"]) then [observed o] else []).
Proof.
  intros [C1 C2 C3 C4 C5] Hfresh E1 O1 (Hq & (l & r & Eh & Eh') & O2). set (d := record_of o head) in *.
  destruct (record_fields o head) as (Fi & Fr & Frid & Fwf & Fex). fold d in Fi, Fr, Frid, Fwf, Fex. freflect.
  set (f := set_all _) in *. rewrite O1 in Eh by done.
  assert (Hf : (f h).["_id"] = h.["_id"] /\ (f h).["latestRecordId"] = PStr (ob_id o))
    by (subst f; cbn [set_all foldl fst snd]; by dget).
  assert (E2 : content db2 AuthRecords = content db AuthRecords ++ [d]) by (rewrite <- E1; by apply O2).
  assert (Hnew : forall x, x ∈ content db AuthRecords -> x.["id"] <> d.["id"] /\ x.["_id"] <> d.["_id"]).
  { intros x Hx. specialize (Hfresh x Hx). cbn [clash] in Hfresh. apply orb_false_iff in Hfresh as [? ?]. by freflect. }
  assert (Hof : forall rid, of_resource rid db2 = of_resource rid db ++ (if decide (d.["resourceId"] = rid) then [d] else [])).
  { intros rid. unfold of_resource. by rewrite E2, for_resource_middle, app_nil_r. }
  split; [split|].
  - rewrite E2, map_app. apply NoDup_app. split_and!; [done| |apply NoDup_singleton].
    intros x (y & -> & Hy)%list_elem_of_fmap Hx%list_elem_of_singleton. by destruct (Hnew y Hy).
  - rewrite E2, map_app. apply NoDup_app. split_and!; [done| |apply NoDup_singleton].
    intros x (y & -> & Hy)%list_elem_of_fmap Hx%list_elem_of_singleton. by destruct (Hnew y Hy).
  - rewrite Eh', map_app. rewrite Eh, map_app in C3. cbn in *. by rewrite (proj1 Hf).
  - intros x Hx. rewrite E2 in Hx. apply elem_of_snoc in Hx as [Hx| ->]; [by apply C4|done].
  - assert (Hother : forall h', h' ∈ l ++ r -> h'.["_id"] <> (ob_resource o).["id"] /\ h' ∈ content db AuthHeads).
    { intros h' Hh'. split; [|rewrite Eh; apply elem_of_app; apply elem_of_app in Hh' as [?|?]; [by left|right; by right]].
      intros Hid. rewrite Eh in C3. apply (unique_middle (fun d => d.["_id"]) l h r h' C3 Hh'). congruence. }
    assert (Hcase : forall h' x, h' ∈ l ++ r -> x ∈ content db2 AuthRecords -> x.["id"] = h'.["latestRecordId"] ->
      x.["resourceId"] = h'.["_id"] -> last (of_resource h'.["_id"] db2) = Some x).
    { intros h' x Hh' Hx Hid Hrid. destruct (Hother h' Hh') as [Hne Hin]. rewrite Hof, decide_False, app_nil_r by congruence.
      rewrite E2 in Hx. apply elem_of_snoc in Hx as [Hx| ->]; [by apply C5|congruence]. }
    intros h' x Hh' Hx Hid Hrid. rewrite Eh' in Hh'. apply elem_of_app in Hh' as [Hh'|[->|Hh']%elem_of_cons].
    1,3: apply Hcase; [apply elem_of_app; by auto|done..].
    destruct Hf as [Hf1 Hf2]. rewrite Hf1, Hof, decide_True by congruence. rewrite last_snoc. f_equal.
    rewrite E2 in Hx. apply elem_of_snoc in Hx as [Hx| ->]; [|done].
    destruct (Hnew x Hx) as [Hne _]. congruence.
  - intros rid. unfold history. rewrite Hof, map_app, concat_app, Frid.
    destruct (decide ((ob_resource o).["id"] = rid)) as [<-|Hne].
    + rewrite decide_True by done. cbn [map concat]. by rewrite Fex, app_nil_r.
    + by rewrite decide_False by congruence.
Qed.

(** ** A call adds its observation *)

Definition recorded (o : observation) (db : database) (r : result exn pyval) (db' : database) : Prop :=
  match r with
  | Ok _ => chained db' /\ forall rid, history rid db' = history rid db ++ (if decide (rid = (ob_resource o).["id"]) then [observed o] else [])
  | Raise _ => True
  end.

Lemma history_same rid db db' : content db' AuthRecords = content db AuthRecords -> history rid db' = history rid db.
Proof. intros E. unfold history, of_resource. by rewrite E. Qed.

Lemma recorded_same o db0 db r db' :
  content db AuthRecords = content db0 AuthRecords -> recorded o db r db' -> recorded o db0 r db'.
Proof.
  intros E. destruct r; [|done]. cbn. intros [C Hh]. split; [done|]. intros rid. rewrite Hh. by rewrite (history_same rid db0 db).
Qed.

Lemma new_record_wp o head db : chained db -> wp (new_record o head) (recorded o db) db.
Proof.
  intros C. unfold new_record. apply wp_bind, wp_insert; cbn [on_ok]; [|done].
  intros db1 Hfresh E1 O1. apply wp_bind, wp_bind, wp_update_before; cbn [on_ok].
  2:{ intros _. apply wp_ret. cbn [on_ok]. by apply wp_bind, wp_raise. }
  intros h db2 Hu. apply wp_ret. cbn [on_ok]. apply wp_bind, wp_raise_if; cbn [on_ok]; [done|]. intros _. apply wp_ret.
  eapply insert_history; eauto.
Qed.

Lemma merge_or_insert_wp o head db :
  chained db -> head ∈ content db AuthHeads -> head.["_id"] = (ob_resource o).["id"] ->
  wp (merge_or_insert o head) (recorded o db) db.
Proof.
  intros C Hhead Hid. unfold merge_or_insert. pose proof (new_record_wp o head db C) as Hnew.
  destruct (mergeable o); [|done]. apply wp_bind. unfold latest_of.
  destruct (truthy head.["latestRecordId"]); [|by apply wp_ret].
  apply wp_find_one; cbn [on_ok]; [|done]. intros latest Hin Hq. freflect.
  destruct (continues o latest) eqn:Hc; [|done].
  assert (Hlast : last (of_resource (ob_resource o).["id"] db) = Some latest).
  { rewrite <- Hid. apply (ch_last _ C); [done|done|done|congruence]. }
  apply wp_bind, wp_update_one; cbn [on_ok].
  - intros d db2 Hu. apply wp_ret. assert (d = latest) as ->; [|by eapply merge_history].
    destruct Hu as (Hq & (l & r & E & _) & _). apply fld_true in Hq.
    eapply (NoDup_map_eq (fun d => d.["_id"])); [apply C|rewrite E; apply elem_of_middle|done|done].
  - intros Hno. specialize (Hno latest Hin). cbn in Hno. by apply fld_false in Hno.
Qed.

Lemma head_update_fields o d :
  (head_update o d).["_id"] = d.["_id"] /\ (head_update o d).["latestRecordId"] = d.["latestRecordId"].
Proof. unfold head_update. cbn [set_all foldl fst snd]. by dget. Qed.

Lemma head_updated_chained o db db' h q :
  chained db -> updated AuthHeads q (head_update o) h db db' -> chained db'.
Proof.
  intros [C1 C2 C3 C4 C5] (_ & (l & r & E & E') & Ho). destruct (head_update_fields o h) as [F1 F2].
  split; rewrite ?Ho by done; try done.
  - rewrite E', map_app. rewrite E, map_app in C3. cbn in *. by rewrite F1.
  - intros h' x Hh' Hx Hid Hrid. unfold of_resource. rewrite Ho in Hx |- * by done. rewrite E' in Hh'.
    apply elem_of_app in Hh' as [Hh'|[->|Hh']%elem_of_cons].
    + apply C5; try done. rewrite E. apply elem_of_app. by left.
    + rewrite F1, F2 in *. apply C5; try done. rewrite E. apply elem_of_middle.
    + apply C5; try done. rewrite E. apply elem_of_app. right. by right.
Qed.

Lemma head_inserted_chained o db db' :
  chained db -> no_match (fun d => fld d "_id" (ob_resource o).["id"]) (content db AuthHeads) ->
  content db' AuthHeads = content db AuthHeads ++ [head_update o [("_id", (ob_resource o).["id"])]] ->
  (forall c, c <> AuthHeads -> content db' c = content db c) -> chained db'.
Proof.
  intros [C1 C2 C3 C4 C5] Hno E Ho. destruct (head_update_fields o [("_id", (ob_resource o).["id"])]) as [F1 F2].
  split; rewrite ?Ho by done; try done.
  - rewrite E, map_app. apply NoDup_app. split_and!; [done| |apply NoDup_singleton].
    intros x (y & -> & Hy)%list_elem_of_fmap Hx%list_elem_of_singleton. specialize (Hno y Hy). apply fld_false in Hno.
    by rewrite F1 in Hx.
  - intros h x Hh Hx Hid Hrid. unfold of_resource. rewrite Ho in Hx |- * by done. rewrite E in Hh.
    apply elem_of_snoc in Hh as [Hh| ->]; [by apply C5|]. rewrite F2 in Hid. destruct (C4 x Hx) as [[i Hi] _].
    by rewrite Hi in Hid.
Qed.

Lemma observed_wp o db : chained db -> wp (_record_authentication_in_session o) (recorded o db) db.
Proof.
  intros C. apply wp_bind, wp_bind, wp_update; cbn [on_ok].
  - intros h db1 Hu. apply wp_ret. cbn [on_ok]. pose proof Hu as (Hq & (l & r & E & E') & Ho). apply fld_true in Hq.
    eapply wp_mono; [eapply merge_or_insert_wp|].
    + by eapply head_updated_chained.
    + rewrite E'. apply elem_of_middle.
    + by rewrite (proj1 (head_update_fields o h)).
    + intros res db2. apply recorded_same. by apply Ho.
  - intros Hno. apply wp_bind, wp_insert; cbn [on_ok]; [|done]. intros db1 Hfresh E1 Ho. apply wp_ret. cbn [on_ok].
    eapply wp_mono; [eapply merge_or_insert_wp|].
    + by eapply head_inserted_chained.
    + rewrite E1. apply elem_of_app. right. by left.
    + by rewrite (proj1 (head_update_fields o _)).
    + intros res db2. apply recorded_same. by apply Ho.
Qed.

(** ** A sequence of calls *)

(** Whether a call in a transaction of its own was applied. *)
Definition applied (o : observation) (f : fate) (db : database) : bool :=
  match _record_authentication_in_session o db, f with
  | (Ok _, _), Committed => true
  | (Ok _, _), Uncertain b => b
  | (Raise _, _), _ => false
  end.

Fixpoint observe (calls : list (observation * fate)) (db : database) : list observation * database :=
  match calls with
  | [] => ([], db)
  | (o, f) :: calls =>
      let '(l, db') := observe calls (record_authentication o (Some f) db).2 in
      (if applied o f db then o :: l else l, db')
  end.

Lemma observe_step o f db :
  chained db ->
  let db' := (record_authentication o (Some f) db).2 in
  chained db' /\ forall rid, history rid db'
    = history rid db ++ (if applied o f db then if decide (rid = (ob_resource o).["id"]) then [observed o] else [] else []).
Proof.
  intros C. pose proof (observed_wp o db C) as Hwp. unfold record_authentication, transaction, applied, wp in *.
  destruct (_record_authentication_in_session o db) as [[v|e] db2]; [destruct f as [|[]]|]; cbn in *; try done.
  all: split; [done|]; intros rid; by rewrite app_nil_r.
Qed.

(** C36: the merged history loses nothing and mixes nothing up.  Whatever
    authentications are recorded, of any resources and with any results,
    replaying a resource's records in their order, each as often as it counts,
    gives exactly the sequence of results and device identities of the calls that
    were applied, in the order of the calls; a call that raised and was not
    applied leaves no trace. *)
Theorem history_replays calls db :
  chained db ->
  let '(done, db') := observe calls db in
  chained db' /\ forall rid, history rid db' = history rid db
    ++ map observed (filter (fun o => (ob_resource o).["id"] = rid) done).
Proof.
  revert db. induction calls as [|[o f] calls IH]; intros db C; cbn [observe].
  - split; [done|]. intros rid. by rewrite app_nil_r.
  - destruct (observe_step o f db C) as [C1 H1']. specialize (IH _ C1).
    destruct (observe calls _) as [l db'] eqn:E. destruct IH as [C2 H2']. split; [done|]. intros rid.
    rewrite H2', H1', <- app_assoc. f_equal. destruct (applied o f db); [|done]. rewrite filter_cons.
    destruct (decide (rid = (ob_resource o).["id"])) as [->|Hne]; [by rewrite decide_True|].
    by rewrite decide_False.
Qed.
End records.

(** ** Witness: an outage of a device *)

#[local] Existing Instance list_mongo.
#[local] Existing Instance list_mongo_laws.
#[local] Instance no_text : ValueText := fun _ => "".

Definition camera : pydict := [("id", PStr "dev"); ("model", PStr "DS-1"); ("authenticatedAt", PTime (Aware 0))].

Definition probe (result : string) (at_ : Z) (id : string) : observation * fate :=
  (Obs camera "PERIODIC" result camera camera PNone None (at_ * US_PER_SECOND) 90 id ("row-" +:+ id), Committed).

Definition probes : list (observation * fate) :=
  [probe "SUCCESS" 0 "a"; probe "SUCCESS" 60 "b"; probe "OFFLINE" 120 "c"; probe "OFFLINE" 180 "d"; probe "OFFLINE" 240 "e";
   probe "SUCCESS" 300 "f"].

Definition no_records : database := fun c => [].

Lemma history_replays_witness :
  let db' := (observe probes no_records).2 in
  map (fun d => (d.["result"], d.["occurrenceCount"])) (content db' AuthRecords)
    = [(PStr "SUCCESS", PInt 2); (PStr "OFFLINE", PInt 3); (PStr "SUCCESS", PInt 1)]
  /\ history (PStr "dev") db' = map observed (filter (fun o => (ob_resource o).["id"] = PStr "dev") (observe probes no_records).1).
Proof.
  assert (C : chained no_records).
  { split; try apply NoDup_nil_2; [by intros d Hd%elem_of_nil|by intros h d Hh%elem_of_nil]. }
  pose proof (history_replays probes no_records C) as Hp. cbv zeta. split; [by vm_compute|].
  destruct (observe probes no_records) as [l db']. destruct Hp as [_ Hp]. exact (Hp (PStr "dev")).
Defined.
