(* ===== verification/DeviceIdentity.v ===== *)
(** * The identity of a device ([tasks/resource_binding.py], [coredumps/resource_identity.py])

    The directory of a device's logs and the history of its core dumps follow the
    authenticated identity, address, model and serial number, not the resource
    that happens to describe it. *)

From stdpp Require Import pretty.
From S2P Require Import Prelude PyTime PyValue PyText Mongo Ownership.
Open Scope camera_scope.

(** `hashlib.sha256(text.encode()).hexdigest()` and `json.dumps` of a list of
    strings, with the source's options. *)
Class Digest := { sha256_hex : bytes -> string; dump_strings : list string -> string }.

(** A character the readable part keeps. *)
Definition safe_byte (b : byte) : bool :=
  let z := Z.of_N (Byte.to_N b) in
  ((48 <=? z) && (z <=? 57)) || ((65 <=? z) && (z <=? 90)) || ((97 <=? z) && (z <=? 122))
  || (z =? 46) || (z =? 95) || (z =? 45).

(** `re.sub(r"[^A-Za-z0-9._-]+", "_", text)`: a run of other characters becomes
    one underscore; [in_run] tells whether the previous character was in one. *)
Fixpoint replace_runs (in_run : bool) (l : bytes) : bytes :=
  match l with
  | [] => []
  | b :: l =>
      if safe_byte b then b :: replace_runs false l
      else if in_run then replace_runs true l else "_"%byte :: replace_runs true l
  end.

Definition marks : list bytes := [["."]; ["_"]; ["-"]]%byte.

(** `rstrip("._-")` and `strip("._-")`. *)
Definition rstrip_marks (l : bytes) : bytes := rev (lstrip (length l) marks (rev l)).
Definition strip_marks (l : bytes) : bytes := rstrip_marks (lstrip (length l) marks l).

(** [_safe_component]. *)
Definition _safe_component (value : string) : bytes :=
  let text := strip_marks (replace_runs false (ascii_bytes value)) in
  take 96 match text with [] => ascii_bytes "unknown" | _ => text end.

(** `(resource.get(key) or "").strip()`. *)
Definition stripped (resource : pydict) (key : string) : string :=
  py_strip (text (if truthy resource.[key] then resource.[key] else PStr "")).

(** `"-".join`. *)
Fixpoint join_dash (parts : list bytes) : bytes :=
  match parts with
  | [] => []
  | [p] => p
  | p :: parts => p ++ "-"%byte :: join_dash parts
  end.

Section identity.
Context `{Digest}.

(** [storage_identity]. *)
Definition storage_identity (resource : pydict) : pyval :=
  if negb (fld resource "kind" (PStr "HIKVISION_NETWORK")) then resource.["id"]
  else
    let identity := [text resource.["ip"]; stripped resource "model"; stripped resource "subSerialNumber"] in
    let readable := join_dash (map _safe_component identity) in
    let digest := take 16 (ascii_bytes (sha256_hex (ascii_bytes (dump_strings identity)))) in
    PStr (String.string_of_list_byte (rstrip_marks (take 63 readable) ++ "-"%byte :: digest)).

(** [coredump_device_identity]. *)
Definition coredump_device_identity (resource : pydict) : option (string * string * string) :=
  if negb (fld resource "kind" (PStr "HIKVISION_NETWORK")) then None
  else match resource.["ip"], resource.["model"], resource.["subSerialNumber"] with
       | PStr ip, PStr model, PStr serial =>
           if bool_decide (py_strip ip <> "") && bool_decide (py_strip model <> "") && bool_decide (py_strip serial <> "")
           then Some (py_strip ip, py_strip model, py_strip serial) else None
       | _, _, _ => None
       end.

Definition nul : string := String.string_of_list_byte [x00].

(** [stable_source_key]. *)
Definition stable_source_key (node_id : string) (resource : pydict) (name : string) (device inode : Z) : option string :=
  match coredump_device_identity resource with
  | None => None
  | Some (ip, model, serial) =>
      Some (sha256_hex (ascii_bytes (node_id +:+ nul +:+ ip +:+ nul +:+ model +:+ nul +:+ serial +:+ nul +:+ name
              +:+ nul +:+ pretty device +:+ nul +:+ pretty inode)))
  end.

Section store.
Context `{Mongo}.

Definition identity_document (i : string * string * string) : pyval :=
  PDict [("ip", PStr i.1.1); ("model", PStr i.1.2); ("subSerialNumber", PStr i.2)].

(** What a catalogued core gets from the resource. *)
Definition core_changes (resource : pydict) (i : string * string * string) (catalog : pydict) : pydict :=
  let source := dict_sub catalog "source" in
  let replacement := match source.["device"], source.["inode"] with
                     | PInt device, PInt inode =>
                         stable_source_key (text (dict_get_or catalog "nodeId" (PStr ""))) resource
                           (text (dict_get_or catalog "name" (PStr ""))) device inode
                     | _, _ => None
                     end in
  [("resourceId", resource.["id"]); ("deviceIdentity", identity_document i)]
  ++ match replacement with Some k => if bool_decide (k <> "") then [("sourceKey", PStr k)] else [] | None => [] end.

Fixpoint migrate (resource : pydict) (i : string * string * string) (previous : list pyval) (catalogs : list pydict) : dbm Z :=
  match catalogs with
  | [] => st_ret 0
  | catalog :: catalogs =>
      let! modified := update_modified CoredumpFiles
        (fun d => fld d "id" catalog.["id"] && fld_in d "resourceId" previous)
        (set_all (core_changes resource i catalog)) in
      let! n := migrate resource i previous catalogs in
      st_ret ((if modified then 1 else 0) + n)
  end.

(** [reassociate_coredump_history]. *)
Definition reassociate_coredump_history (resource : pydict) : dbm Z :=
  match coredump_device_identity resource with
  | None => st_ret 0
  | Some i =>
      let! previous := find_all Resources
        (fun d => negb (fld d "id" resource.["id"]) && fld d "kind" (PStr "HIKVISION_NETWORK") && negb (fld d "deletedAt" PNone)
                  && fld d "ip" (PStr i.1.1) && fld d "model" (PStr i.1.2) && fld d "subSerialNumber" (PStr i.2)) in
      match previous with
      | [] => st_ret 0
      | _ =>
          let ids := map (fun d => d.["id"]) previous in
          let! catalogs := find_all CoredumpFiles
            (fun d => fld_in d "resourceId" ids && fld d "deviceIp" (PStr i.1.1)
                      && (fld d "deviceIdentity" (identity_document i) || absent d "deviceIdentity")) in
          migrate resource i ids catalogs
      end
  end.
End store.
End identity.

(** ** Properties *)

Definition is_mark (b : byte) : bool := Byte.eqb b "." || Byte.eqb b "_" || Byte.eqb b "-".

Lemma is_mark_find b l : List.find (fun w => is_prefix w (b :: l)) marks = if is_mark b then Some [b] else None.
Proof. by destruct b. Qed.

(** Stripping ends at the first byte that is no mark. *)
Lemma lstrip_marks fuel l : (length l <= fuel)%nat ->
  exists k, l = k ++ lstrip fuel marks l /\ Forall (fun b => is_mark b = true) k
    /\ match lstrip fuel marks l with [] => True | b :: _ => is_mark b = false end.
Proof.
  revert l. induction fuel as [|fuel IH]; intros l Hl; cbn [lstrip].
  - destruct l; [by exists []|cbn in Hl; lia].
  - destruct l as [|b l]; [by exists []|]. rewrite is_mark_find. destruct (is_mark b) eqn:E.
    + cbn [length drop]. destruct (IH l) as (k & Hk & Hf & Hd); [cbn in Hl; lia|].
      exists (b :: k). cbn. split_and!; [by f_equal|by constructor|done].
    + by exists [].
Qed.

Lemma rstrip_marks_spec l : exists k, l = rstrip_marks l ++ k /\ Forall (fun b => is_mark b = true) k.
Proof.
  unfold rstrip_marks. destruct (lstrip_marks (length l) (rev l)) as (k & Hk & Hf & _); [by rewrite length_rev|].
  exists (rev k). split; [|by apply Forall_rev]. rewrite <- rev_app_distr, <- Hk. by rewrite rev_involutive.
Qed.

(** The first byte survives when it is no mark. *)
Lemma rstrip_marks_head b l : is_mark b = false -> exists l', rstrip_marks (b :: l) = b :: l' /\ (length l' <= length l)%nat.
Proof.
  intros Hb. destruct (rstrip_marks_spec (b :: l)) as (k & Hk & Hf). destruct (rstrip_marks (b :: l)) as [|b' l'].
  - cbn in Hk. subst k. apply Forall_cons in Hf as [Hf _]. congruence.
  - cbn in Hk. injection Hk as <- ->. exists l'. split; [done|]. rewrite length_app. lia.
Qed.

Definition safe_text (l : bytes) : Prop := Forall (fun b => safe_byte b = true) l.

Lemma replace_runs_safe r l : safe_text (replace_runs r l).
Proof.
  revert r. induction l as [|b l IH]; intros r; cbn; [constructor|]. destruct (safe_byte b) eqn:E; [constructor; [done|apply IH]|].
  destruct r; [apply IH|]. constructor; [done|apply IH].
Qed.

Lemma safe_take n l : safe_text l -> safe_text (take n l).
Proof. apply Forall_take. Qed.

Lemma safe_rstrip l : safe_text l -> safe_text (rstrip_marks l).
Proof.
  intros Hs. destruct (rstrip_marks_spec l) as (k & Hk & _). unfold safe_text in *. rewrite Hk in Hs. apply Forall_app in Hs. apply Hs.
Qed.

Lemma safe_lstrip l : safe_text l -> safe_text (lstrip (length l) marks l).
Proof.
  intros Hs. destruct (lstrip_marks (length l) l) as (k & Hk & _); [done|]. unfold safe_text in *.
  rewrite Hk in Hs. apply Forall_app in Hs. apply Hs.
Qed.

(** A component is safe, and starts with a letter or a digit. *)
Lemma component_ok value : safe_text (_safe_component value) /\ exists b l, _safe_component value = b :: l /\ is_mark b = false.
Proof.
  unfold _safe_component. set (t := replace_runs false (ascii_bytes value)).
  assert (Ht : safe_text t) by apply replace_runs_safe.
  assert (Hs : safe_text (strip_marks t)) by by apply safe_rstrip, safe_lstrip.
  unfold strip_marks in *. destruct (lstrip_marks (length t) t) as (k & Hk & Hf & Hd); [done|].
  destruct (lstrip (length t) marks t) as [|b l].
  - cbn. split; [|by eexists _, _]. unfold safe_text. by repeat constructor.
  - destruct (rstrip_marks_head b l Hd) as (l' & E & _). rewrite E in *. split; [by apply safe_take|].
    by exists b, (take 95 l').
Qed.

Lemma join_safe parts : Forall safe_text parts -> safe_text (join_dash parts).
Proof.
  induction 1 as [|p parts Hp Hps IH]; [constructor|]. cbn. destruct parts as [|q parts]; [done|].
  apply Forall_app. split; [done|]. by constructor.
Qed.

Section component.
Context `{Digest}.

(** The directory of a network device's logs is one safe path component,
    whatever the device reports.  It consists of letters, digits and `._-`, is
    not empty, starts with a letter or a digit (so it is never `.`, `..` or
    hidden), and has at most 80 bytes, the bound of the storage; and it ends
    with the first sixteen digits of the digest of the exact identity, so that
    shortening and replacing characters cannot merge two devices whose digests
    differ. *)
Theorem storage_identity_component resource :
  (forall t, (16 <= length (ascii_bytes (sha256_hex t)))%nat /\ safe_text (ascii_bytes (sha256_hex t))) ->
  resource.["kind"] = PStr "HIKVISION_NETWORK" ->
  exists b l, storage_identity resource = PStr (String.string_of_list_byte (b :: l))
    /\ safe_text (b :: l) /\ is_mark b = false /\ (length (b :: l) <= 80)%nat
    /\ drop (length (b :: l) - 16) (b :: l) = take 16 (ascii_bytes (sha256_hex (ascii_bytes (dump_strings
         [text resource.["ip"]; stripped resource "model"; stripped resource "subSerialNumber"])))).
Proof.
  intros Hsha Hkind. unfold storage_identity. rewrite (proj2 (fld_true _ _ _)) by done. cbn [negb].
  set (identity := [_; _; _]). set (digest := take 16 _).
  assert (Hd : length digest = 16%nat /\ safe_text digest).
  { destruct (Hsha (ascii_bytes (dump_strings identity))) as [Hl Hs]. subst digest. split; [|by apply safe_take].
    rewrite length_take. lia. }
  assert (Hsafe : safe_text (join_dash (map _safe_component identity))).
  { apply join_safe, Forall_map, Forall_true. intros v. apply component_ok. }
  destruct (proj2 (component_ok (text resource.["ip"]))) as (b & l & E & Hb).
  assert (Hj : exists l', join_dash (map _safe_component identity) = b :: l').
  { subst identity. cbn [map join_dash]. rewrite E. by eexists. }
  destruct Hj as [l' Hj]. rewrite Hj in *. cbn [take].
  destruct (rstrip_marks_head b (take 62 l') Hb) as (l2 & E2 & Hl2). rewrite E2.
  assert (Hs2 : safe_text (b :: l2)) by (rewrite <- E2; apply safe_rstrip; by apply (safe_take 63) in Hsafe).
  assert (Hlen : (length l2 <= 62)%nat) by (rewrite length_take in Hl2; lia).
  exists b, (l2 ++ "-"%byte :: digest). destruct Hd as [Hd1 Hd2]. split_and!; [done| |done| |].
  - change (safe_text ((b :: l2) ++ "-"%byte :: digest)). apply Forall_app. split; [done|]. by constructor.
  - cbn. rewrite length_app. cbn. rewrite Hd1. lia.
  - assert (X : (b :: l2) ++ "-"%byte :: digest = ((b :: l2) ++ ["-"%byte]) ++ digest) by by rewrite <- app_assoc.
    change (b :: l2 ++ "-"%byte :: digest) with ((b :: l2) ++ "-"%byte :: digest). rewrite X.
    rewrite length_app, Hd1, Nat.add_sub. by rewrite drop_app_length.
Qed.
End component.

(** ** Witness *)

Definition fixed_digest : Digest :=
  {| sha256_hex := fun _ => "0123456789abcdef0123456789abcdef"; dump_strings := fun l => default "" (head l) |}.

Definition odd_device : pydict :=
  [("kind", PStr "HIKVISION_NETWORK"); ("ip", PStr "10.0.0.1"); ("model", PStr " ../DS 2CD "); ("subSerialNumber", PStr "")].

Lemma storage_identity_component_witness :
  @storage_identity fixed_digest odd_device = PStr "10.0.0.1-DS_2CD-unknown-0123456789abcdef"
  /\ exists b l, @storage_identity fixed_digest odd_device = PStr (String.string_of_list_byte (b :: l)) /\ is_mark b = false
       /\ (length (b :: l) <= 80)%nat.
Proof.
  split; [by vm_compute|].
  destruct (@storage_identity_component fixed_digest odd_device) as (b & l & E & _ & Hb & Hl & _).
  - intros t. split; [cbn; lia|]. by repeat constructor.
  - reflexivity.
  - exists b, l. exact (conj E (conj Hb Hl)).
Defined.
