(* ===== verification/Claim.v ===== *)
(** * Claiming a task ([tasks/claim.py])

    One transaction binds a task to a node, its run lock and its run record.
    The callback re-reads the scheduling lease, the node, the task, its resource
    and the node's configuration; a compare-and-set that misses rolls back the
    lock it created. *)

From stdpp Require Import pretty.
From S2P Require Import Prelude PyTime PyValue Ordering WritePressure NodeHealth Mongo Ownership TaskRules.
Open Scope camera_scope.

(** The scheduler's lease. *)
Record lease := Lease { lease_owner : string; lease_fence : Z }.

(** `requires_coredump_nfs(task, resource)`. *)
Definition requires_coredump_nfs (task : pydict) (resource : option pydict) : bool :=
  match resource with
  | None => false
  | Some resource =>
      if negb (truthy resource.["enableCoredumpMonitor"]) || truthy resource.["coredumpLeaseTarget"] then false
      else if fld task "protocol" (PStr "TELNET_DEVICE") then true
      else fld task "protocol" (PStr "SSH") && bool_decide (dict_get_or task "sshTarget" (PStr "HOST") = PStr "HOST")
  end.

(** The text of a scalar in an f-string. *)
Definition py_str (v : pyval) : string :=
  match v with PStr s => s | PInt z => pretty z | _ => "" end.

Section claim.
Context `{FloatOfStr} `{FromIso} `{IpLib} `{Mongo}.

(** The arguments of one call: the run identifier is chosen before the
    transaction; [at_*] are its readings of the clock. *)
Record request := Request {
  rq_task : pydict; rq_node : string; rq_lease : option lease; rq_occupied : Z;
  rq_run : pyval; rq_current : Z; rq_started : Z; rq_migrated : Z }.

Definition resuming (task : pydict) : bool := fld task "status" (PStr "PAUSED") && truthy task.["runId"].

(** The call's run: a paused run continues, otherwise [fresh]. *)
Definition run_of (task : pydict) (fresh : string) : pyval := if resuming task then task.["runId"] else PStr fresh.

(** The filters of the two first writes. *)
Definition lease_query (l : lease) (current : Z) (d : pydict) : bool :=
  fld d "_id" (PStr "scheduler") && fld d "owner" (PStr (lease_owner l)) && fld d "fence" (PInt (lease_fence l))
  && time_gt d "expires" current.

Definition node_query (node_id : string) (current : Z) (d : pydict) : bool :=
  fld d "id" (PStr node_id) && time_ge d "heartbeat" (current - 15 * US_PER_SECOND) && num_lt d "diskPercent" 90
  && fld d "accepting" (PBool true) && fld d "deletedAt" PNone.

Definition node_refused (node : pydict) (current : Z) : bool :=
  truthy node.["isolated"] || truthy node.["configurationMismatch"] || resource_pressure node current.

(** `task_query` before the failover conditions. *)
Definition task_query (rq : request) (d : pydict) : bool :=
  fld d "id" (rq_task rq).["id"] && fld d "nodeId" PNone && fld d "desiredState" (PStr "RUNNING")
  && fld d "deletedAt" PNone && negb (fld d "resourceDeleted" (PBool true)) && fld d "status" (rq_task rq).["status"]
  && (negb (resuming (rq_task rq))
      || (fld d "runId" (rq_run rq)
          && (absent d "resumeClaimToken" || absent d "resumeClaimExpires" || time_lt d "resumeClaimExpires" (rq_current rq)))).

(** The conditions a return to the excluded node adds, from the task just read. *)
Definition return_query (rq : request) (current : pydict) (d : pydict) : bool :=
  let receipt := receipt_of current in
  let kept := receipt_of d in
  let floor := match current.["failoverReleasedAt"] with PTime t => utc_instant t / 1000 * 1000 | _ => 0 end in
  fld d "failoverExcludedNodeId" (PStr (rq_node rq))
  && time_le d "failoverOriginalHealthySince" (rq_current rq - FAILOVER_RETURN_STABLE_SECONDS * US_PER_SECOND)
  && time_ge d "failoverOriginalHealthyObservedAt"
       (rq_current rq - FAILOVER_RETURN_OBSERVATION_GAP_SECONDS * US_PER_SECOND)
  && time_ge d "failoverReleasedAt" floor && time_lt d "failoverReleasedAt" (floor + 1000)
  && fld d "runId" current.["runId"] && fld d "generation" current.["generation"]
  && fld d "sessionId" current.["sessionId"] && fld kept "reason" AUTO_FAILOVER_FENCED
  && fld kept "nodeId" (PStr (rq_node rq)) && fld kept "instanceId" receipt.["instanceId"]
  && fld kept "closedAt" receipt.["closedAt"].

Definition is_origin (rq : request) (current : pydict) : bool :=
  fld current "failoverExcludedNodeId" (PStr (rq_node rq)).

(** The final `task_query`. *)
Definition final_query (rq : request) (current d : pydict) : bool :=
  task_query rq d
  && (if is_origin rq current then return_query rq current d
      else negb (fld d "failoverExcludedNodeId" (PStr (rq_node rq)))).

(** `claim_update`. *)
Definition claim_update (rq : request) (current d : pydict) : pydict :=
  let d := set_all [("nodeId", PStr (rq_node rq)); ("runId", rq_run rq); ("status", PStr "PENDING"); ("error", PNone)] d in
  let d := dict_inc "generation" 1 d in
  let d := if truthy current.["failoverExcludedNodeId"]
           then unset_all ["failoverExcludedNodeId"; "failoverFromNodeId"; "failoverReason"; "failoverFenceRetryAt";
                           "failoverConsumeRetryAt"; "failoverOriginalHealthySince"; "failoverOriginalHealthyObservedAt";
                           "failoverReleasedAt"] d
           else d in
  if resuming (rq_task rq) then unset_all ["resumeClaimToken"; "resumeClaimExpires"] d else d.

(** The event of an automatic migration. *)
Definition migration_event (rq : request) (current : pydict) : dbm unit :=
  if truthy current.["failoverFromNodeId"]
  then insert_one Events
    [("type", PStr "TASK_AUTO_MIGRATED"); ("taskId", (rq_task rq).["id"]); ("runId", rq_run rq);
     ("oldNodeId", current.["failoverFromNodeId"]); ("newNodeId", PStr (rq_node rq));
     ("nodeId", PStr (rq_node rq)); ("actor", PStr "system"); ("reason", current.["failoverReason"]);
     ("createdAt", PTime (Aware (rq_migrated rq)))]
  else st_ret tt.

(** The run record and the event. *)
Definition claim_record (rq : request) (current claimed : pydict) : dbm (option pydict) :=
  let owner := [("nodeId", PStr (rq_node rq)); ("generation", claimed.["generation"])] in
  let! _ := upsert_one Runs (fun d => fld d "id" (rq_run rq)) (set_all owner)
    (set_all owner [("id", rq_run rq); ("taskId", (rq_task rq).["id"]); ("startedAt", PTime (Aware (rq_started rq)))]) in
  let! _ := migration_event rq current in
  st_ret (Some claimed).

(** From the run lock on. *)
Definition claim_bind (rq : request) (current : pydict) : dbm (option pydict) :=
  let id := (rq_task rq).["id"] in
  let! lock := find_one EndpointLocks (fun d => fld d "taskId" id) in
  let foreign := match lock with
                 | Some l => negb (resuming (rq_task rq)) || negb (fld l "runId" (rq_run rq))
                 | None => false
                 end in
  if foreign
  then
    let! _ := update_one Tasks (final_query rq current)
      (set_all [("status", PStr "BLOCKED"); ("error", PStr "同一任务已有活动运行锁")]) in
    st_ret None
  else
    let! _ := match lock with
      | Some _ => st_ret tt
      | None => insert_one EndpointLocks
          [("endpoint", PStr (py_str current.["ip"] +:+ ":" +:+ py_str current.["port"])); ("taskId", id);
           ("runId", rq_run rq)]
      end in
    let! claimed := find_one_and_update Tasks (final_query rq current) (claim_update rq current) in
    match claimed with
    | None => st_raise Rejected
    | Some claimed =>
        let! _ := (if resuming (rq_task rq)
                   then update_one EndpointLocks (fun d => fld d "taskId" id && fld d "runId" (rq_run rq))
                          (unset_all ["claimToken"])
                   else st_ret true) in
        claim_record rq current claimed
    end.

(** The configured admission of the node. *)
Definition config_refused (rq : request) (node : pydict) (config : option pydict) (resource_ip : pyval) (capacity : Q) : bool :=
  negb (truthy (dict_get_or (default [] config) "accepting" (PBool true)))
  || Qle_bool capacity (inject_Z (rq_occupied rq))
  || input_rate_blocked node config
  || write_latency_blocked node (Some (default node config))
  || match config with
     | Some config => truthy config.["deletedAt"] || negb (accepts_resource config resource_ip)
     | None => false
     end.

Definition capacity_of (node : pydict) (config : option pydict) : option Q :=
  as_finite (dict_get_or (default [] config) "capacity" (dict_get_or node "capacity" (PInt DEFAULT_NODE_CAPACITY))).

(** The writes of the configuration and what follows; comparing with a capacity
    that is no number is Python's `TypeError`. *)
Definition claim_configured (rq : request) (node current : pydict) (resource_ip : pyval) : dbm (option pydict) :=
  let! config := find_one_and_update NodeConfigs (fun d => fld d "id" (PStr (rq_node rq))) (dict_inc "assignmentRevision" 1) in
  match capacity_of node config with
  | None => st_raise (RuntimeError "TypeError")
  | Some capacity =>
      if config_refused rq node config resource_ip capacity then st_ret None else claim_bind rq current
  end.

(** The task, its resource and the capabilities of the node. *)
Definition claim_on_node (rq : request) (node : pydict) : dbm (option pydict) :=
  let! current := find_one Tasks (task_query rq) in
  match current with
  | None => st_ret None
  | Some current =>
      if is_origin rq current && negb (failover_origin_return_ready current (Some node) (rq_current rq)) then st_ret None
      else if truthy current.["resourceId"]
      then
        let! resource := find_one Resources (fun d => fld d "id" current.["resourceId"] && fld d "deletedAt" PNone) in
        match resource with
        | None => st_ret None
        | Some resource =>
            if resource_health_blocks_task current resource then st_ret None
            else if requires_coredump_nfs current (Some resource)
                    && negb (truthy (dict_sub node "capabilities").["coredumpNfs"]) then st_ret None
            else claim_configured rq node current resource.["ip"]
        end
      else claim_configured rq node current current.["ip"]
  end.

(** `commit`. *)
Definition claim_commit (rq : request) : dbm (option pydict) :=
  let! _ := (match rq_lease rq with
    | None => st_ret tt
    | Some l =>
        let! held := find_one_and_update Leaders (lease_query l (rq_current rq)) (dict_inc "claimVersion" 1) in
        match held with None => st_raise SchedulerLeaseLost | Some _ => st_ret tt end
    end) in
  let! node := find_one_and_update Nodes (node_query (rq_node rq) (rq_current rq)) (dict_inc "claimVersion" 1) in
  match node with
  | None => st_ret None
  | Some node => if node_refused node (rq_current rq) then st_ret None else claim_on_node rq node
  end.

(** [claim_task]. *)
Definition claim_task (rq : request) (f : fate) : dbm (option pydict) :=
  st_catch (transaction f (claim_commit rq))
    (fun e => match e with Rejected => Some (st_ret None) | _ => None end).

(** ** Properties *)

Context `{!MongoLaws}.

Definition lock_keys (db : database) : list (pyval * pyval) :=
  map (fun d => (d.["taskId"], d.["runId"])) (content db EndpointLocks).

(** What a claim leaves in the database. *)
Record bound (rq : request) (current : pydict) (db db' : database) (claimed : pydict) : Prop := {
  bd_frame : frame [Tasks; EndpointLocks; Runs; Events] db db';
  bd_task : exists l d r, content db Tasks = l ++ d :: r /\ content db' Tasks = l ++ claimed :: r
    /\ final_query rq current d = true /\ claimed = claim_update rq current d;
  bd_lock : lock_keys db' = lock_keys db /\ ((rq_task rq).["id"], rq_run rq) ∈ lock_keys db
    \/ lock_keys db' = lock_keys db ++ [((rq_task rq).["id"], rq_run rq)]
       /\ (rq_task rq).["id"] ∉ map fst (lock_keys db);
  bd_run : exists run, run ∈ content db' Runs /\ run.["id"] = rq_run rq
    /\ run.["nodeId"] = PStr (rq_node rq) /\ run.["generation"] = claimed.["generation"] }.

(** What any other outcome may leave: nothing but a task marked BLOCKED. *)
Definition unbound (rq : request) (db db' : database) : Prop :=
  content db' EndpointLocks = content db EndpointLocks /\ content db' Runs = content db Runs
  /\ content db' Events = content db Events
  /\ (content db' Tasks = content db Tasks
      \/ exists l d r b, content db Tasks = l ++ d :: r /\ content db' Tasks = l ++ b :: r
           /\ d.["id"] = (rq_task rq).["id"] /\ b.["status"] = PStr "BLOCKED" /\ b.["nodeId"] = PNone
           /\ (rq_task rq).["id"] ∈ map fst (lock_keys db)).

Lemma lock_keys_frame db db' : content db' EndpointLocks = content db EndpointLocks -> lock_keys db' = lock_keys db.
Proof. intros E. unfold lock_keys. by rewrite E. Qed.

Lemma migration_event_wp rq current db (Q : result exn unit -> database -> Prop) :
  (forall db', frame [Events] db db' -> Q (Ok tt) db') -> wp (migration_event rq current) Q db.
Proof.
  intros HS. unfold migration_event. destruct (truthy _); [|by apply wp_ret, HS].
  apply wp_insert; [|done]. intros db2 _ E Ho. by apply HS, frame_one.
Qed.

Lemma claim_record_wp rq current claimed db (Q : result exn (option pydict) -> database -> Prop) :
  (forall db', frame [Runs; Events] db db' -> (exists run, run ∈ content db' Runs /\ run.["id"] = rq_run rq
      /\ run.["nodeId"] = PStr (rq_node rq) /\ run.["generation"] = claimed.["generation"]) -> Q (Ok (Some claimed)) db') ->
  (forall db', Q (Raise DuplicateKeyError) db') ->
  wp (claim_record rq current claimed) Q db.
Proof.
  intros HS HD. unfold claim_record. apply wp_bind.
  assert (Hlast : forall db1, frame [Runs] db db1 -> (exists run, run ∈ content db1 Runs /\ run.["id"] = rq_run rq
      /\ run.["nodeId"] = PStr (rq_node rq) /\ run.["generation"] = claimed.["generation"]) ->
    wp (let! _ := migration_event rq current in st_ret (Some claimed)) Q db1).
  { intros db1 Hf Hrun. apply wp_bind, migration_event_wp. intros db2 Hf2. apply wp_ret, HS.
    - eapply frame_weaken; [by eapply frame_trans|done].
    - rewrite Hf2; [done|set_solver]. }
  unfold upsert_one. apply wp_bind, wp_update_one; cbn [on_ok].
  - intros d db1 (Hq & (l & r & E1 & E2) & Ho). apply fld_true in Hq. apply Hlast; [by apply frame_one|].
    eexists. rewrite E2. split; [apply elem_of_middle|]. cbn [set_all foldl fst snd]. by dget.
  - intros _. apply wp_insert; cbn [on_ok]; [|auto]. intros db1 _ E Ho. apply Hlast; [by apply frame_one|].
    eexists. rewrite E. split; [apply elem_of_middle|]. cbn [set_all foldl fst snd]. by dget.
Qed.

(** The lock after the first step of [claim_bind]. *)
Definition locked (rq : request) (db db' : database) : Prop :=
  lock_keys db' = lock_keys db /\ ((rq_task rq).["id"], rq_run rq) ∈ lock_keys db
  \/ lock_keys db' = lock_keys db ++ [((rq_task rq).["id"], rq_run rq)]
     /\ (rq_task rq).["id"] ∉ map fst (lock_keys db).

Lemma updated_at (d : pydict) (g : pydict -> pydict) c c' q db db' :
  updated c q g d db db' -> c' <> c -> content db' c' = content db c'.
Proof. intros (_ & _ & Ho). apply Ho. Qed.

Lemma unset_claim_token rq db (Q : result exn bool -> database -> Prop) :
  (forall b db', frame [EndpointLocks] db db' -> lock_keys db' = lock_keys db -> Q (Ok b) db') ->
  wp (if resuming (rq_task rq)
      then update_one EndpointLocks (fun d => fld d "taskId" (rq_task rq).["id"] && fld d "runId" (rq_run rq))
             (unset_all ["claimToken"])
      else st_ret true) Q db.
Proof.
  intros HS. destruct (resuming _); [|by apply wp_ret, HS]. apply wp_update_one; [|intros _; by apply HS].
  intros d db' (_ & (l & r & E1 & E2) & Ho). apply HS; [by apply frame_one|].
  unfold lock_keys. rewrite E1, E2, !map_app. cbn [map unset_all foldl]. by dget.
Qed.

Lemma take_lock rq current lock db (Q : result exn unit -> database -> Prop) :
  match lock with
  | Some x => x ∈ content db EndpointLocks /\ fld x "taskId" (rq_task rq).["id"] = true
  | None => no_match (fun d => fld d "taskId" (rq_task rq).["id"]) (content db EndpointLocks) end ->
  match lock with Some l => negb (resuming (rq_task rq)) || negb (fld l "runId" (rq_run rq)) | None => false end = false ->
  (forall db', frame [EndpointLocks] db db' -> locked rq db db' -> Q (Ok tt) db') ->
  wp (match lock with
      | Some _ => st_ret tt
      | None => insert_one EndpointLocks
          [("endpoint", PStr (py_str current.["ip"] +:+ ":" +:+ py_str current.["port"])); ("taskId", (rq_task rq).["id"]);
           ("runId", rq_run rq)]
      end) Q db.
Proof.
  intros Hl Hf HS. destruct lock as [x|].
  - apply wp_ret, HS; [done|]. destruct Hl as [Hx Ht]. left. split; [done|].
    apply orb_false_elim in Hf as [_ Hf]. freflect. apply list_elem_of_fmap. exists x. by rewrite <- Ht, <- Hf.
  - apply wp_insert.
    + intros db' _ E Ho. apply HS; [by apply frame_one|]. right. unfold lock_keys. rewrite E, map_app. split; [done|].
      intros Hin. rewrite map_map in Hin. apply list_elem_of_fmap in Hin as (d & Hd & Hin). cbn in Hd.
      specialize (Hl d Hin). apply fld_false in Hl. by apply Hl.
    + intros d' Hd' Hc. exfalso. unfold clash in Hc. cbn in Hc. rewrite andb_true_r in Hc. by rewrite Hl in Hc.
Qed.

Lemma block_foreign rq current x db :
  x ∈ content db EndpointLocks -> x.["taskId"] = (rq_task rq).["id"] ->
  wp (let! _ := update_one Tasks (final_query rq current)
        (set_all [("status", PStr "BLOCKED"); ("error", PStr "同一任务已有活动运行锁")]) in st_ret (@None pydict))
     (fun r db' => r = Ok None /\ unbound rq db db') db.
Proof.
  intros Hx Ht. apply wp_bind, wp_update_one; cbn [on_ok].
  - intros d db' (Hq & (l & r & E1 & E2) & Ho). apply wp_ret. split; [done|].
    unfold unbound. rewrite !Ho by done. split_and!; [done..|]. right.
    unfold final_query, task_query in Hq. freflect. eexists l, d, r, _. split_and!; [done|exact E2|done| | |].
    + cbn [set_all foldl fst snd]. by dget.
    + cbn [set_all foldl fst snd]. by dget.
    + unfold lock_keys. rewrite map_map. apply list_elem_of_fmap. by exists x.
  - intros _. apply wp_ret. split; [done|]. unfold unbound. by split_and!; auto.
Qed.

(** From the write of the task on. *)
Lemma bind_task_wp rq current db db1 :
  frame [EndpointLocks] db db1 -> locked rq db db1 ->
  wp (let! claimed := find_one_and_update Tasks (final_query rq current) (claim_update rq current) in
      match claimed with
      | None => st_raise Rejected
      | Some claimed =>
          let! _ := (if resuming (rq_task rq)
                   then update_one EndpointLocks (fun d => fld d "taskId" (rq_task rq).["id"] && fld d "runId" (rq_run rq))
                          (unset_all ["claimToken"])
                   else st_ret true) in
          claim_record rq current claimed
      end) (fun r db' => match r with
    | Ok (Some c) => bound rq current db db' c
    | Ok None => False
    | Raise e => e = Rejected \/ e = DuplicateKeyError end) db1.
Proof.
  intros Hf1 Hl1. apply wp_bind, wp_update; cbn [on_ok]; [|intros _; apply wp_raise; by left].
  intros d db2 (Hq & (l & r & E1 & E2) & Ho2). apply wp_bind, unset_claim_token. intros b db3 Hf3 Hl3. cbn [on_ok].
  apply claim_record_wp; [|by right]. intros db4 Hf4 Hrun.
  assert (Hk : lock_keys db4 = lock_keys db1).
  { rewrite (lock_keys_frame db3 db4) by (apply Hf4; set_solver). rewrite Hl3. apply lock_keys_frame. by apply Ho2. }
  split.
  - eapply frame_weaken; [eapply frame_trans; [exact Hf1|eapply frame_trans; [by apply frame_one|
      eapply frame_trans; [exact Hf3|exact Hf4]]]|]. set_solver.
  - exists l, d, r. split_and!; [|rewrite Hf4, Hf3 by set_solver; exact E2|done|done].
    rewrite <- E1. symmetry. apply Hf1. set_solver.
  - rewrite Hk. exact Hl1.
  - exact Hrun.
Qed.

Lemma claim_bind_wp rq current db :
  wp (claim_bind rq current) (fun r db' => match r with
    | Ok (Some c) => bound rq current db db' c
    | Ok None => unbound rq db db'
    | Raise e => e = Rejected \/ e = DuplicateKeyError end) db.
Proof.
  unfold claim_bind. cbv zeta. apply wp_bind, wp_find_one; cbn [on_ok].
  - intros x Hx Ht. destruct (negb _ || negb _) eqn:E.
    + eapply wp_mono; [apply (block_foreign rq current x); [done|by apply fld_true]|]. by intros ? ? [-> ?].
    + apply wp_bind. apply (take_lock rq current (Some x)); [done|done|]. intros db1 Hf1 Hl1. cbn [on_ok].
      eapply wp_mono; [by apply (bind_task_wp rq current db)|]. by intros [[c|]|e] db'.
  - intros Hno. apply wp_bind. apply (take_lock rq current None); [done|done|]. intros db1 Hf1 Hl1. cbn [on_ok].
    eapply wp_mono; [by apply (bind_task_wp rq current db)|]. by intros [[c|]|e] db'.
Qed.

(** What the resource of the task must allow; [ip] is the address routed. *)
Definition resource_allows (current node : pydict) (ip : pyval) (db : database) : Prop :=
  if truthy current.["resourceId"]
  then exists res, res ∈ content db Resources /\ res.["id"] = current.["resourceId"] /\ res.["deletedAt"] = PNone
    /\ resource_health_blocks_task current res = false
    /\ (requires_coredump_nfs current (Some res) = true -> truthy (dict_sub node "capabilities").["coredumpNfs"] = true)
    /\ ip = res.["ip"]
  else ip = current.["ip"].

(** The node's configuration as the transaction sees it. *)
Definition configured (rq : request) (config : option pydict) (db : database) : Prop :=
  match config with
  | Some c => exists d, d ∈ content db NodeConfigs /\ d.["id"] = PStr (rq_node rq) /\ c = dict_inc "assignmentRevision" 1 d
  | None => no_match (fun d => fld d "id" (PStr (rq_node rq))) (content db NodeConfigs)
  end.

Definition lease_held (rq : request) (db : database) : Prop :=
  match rq_lease rq with
  | Some l => exists d, d ∈ content db Leaders /\ lease_query l (rq_current rq) d = true
  | None => True
  end.

(** Every admission condition of a claim. *)
Definition admitted (rq : request) (current : pydict) (db : database) : Prop :=
  lease_held rq db /\ current ∈ content db Tasks /\ task_query rq current = true
  /\ exists n node config capacity ip,
       n ∈ content db Nodes /\ node_query (rq_node rq) (rq_current rq) n = true /\ node = dict_inc "claimVersion" 1 n
       /\ node_refused node (rq_current rq) = false
       /\ (is_origin rq current = true -> failover_origin_return_ready current (Some node) (rq_current rq) = true)
       /\ resource_allows current node ip db /\ configured rq config db
       /\ capacity_of node config = Some capacity /\ config_refused rq node config ip capacity = false.

(** The outcome of the callback on a database [db0] that differs from the initial
    [db] in version counters only. *)
Definition claim_post (rq : request) (P : pydict -> Prop) (L : Prop) (db : database) (r : result exn (option pydict)) (db' : database)
  : Prop :=
  match r with
  | Ok (Some c) => exists current db0, P current /\ frame [Leaders; Nodes; NodeConfigs] db db0 /\ bound rq current db0 db' c
  | Ok None => unbound rq db db'
  | Raise SchedulerLeaseLost => L
  | Raise e => e = Rejected \/ e = DuplicateKeyError \/ e = RuntimeError "TypeError"
  end.

Lemma unbound_frame rq db0 db db' : frame [Leaders; Nodes; NodeConfigs] db db0 -> unbound rq db0 db' -> unbound rq db db'.
Proof.
  intros Hf. unfold unbound. rewrite (lock_keys_frame db db0) by (apply Hf; set_solver).
  by rewrite !Hf by set_solver.
Qed.

Lemma claim_configured_wp rq node current ip db (P : pydict -> Prop) :
  (forall config capacity, configured rq config db -> capacity_of node config = Some capacity ->
     config_refused rq node config ip capacity = false -> P current) ->
  wp (claim_configured rq node current ip) (claim_post rq P False db) db.
Proof.
  intros HP. unfold claim_configured. apply wp_bind.
  assert (Hrest : forall config db0, configured rq config db -> frame [NodeConfigs] db db0 ->
    wp (match capacity_of node config with
        | None => st_raise (RuntimeError "TypeError")
        | Some capacity =>
            if config_refused rq node config ip capacity then st_ret None else claim_bind rq current
        end) (claim_post rq P False db) db0).
  { intros config db0 Hc Hf. assert (Hf' : frame [Leaders; Nodes; NodeConfigs] db db0)
      by (eapply frame_weaken; [exact Hf|set_solver]).
    destruct (capacity_of node config) as [capacity|] eqn:Ec; [|apply wp_raise; right; by right].
    destruct (config_refused _ _ _ _ _) eqn:Er.
    - apply wp_ret. apply (unbound_frame rq db0); [done|]. split_and!; auto. 
    - eapply wp_mono; [apply claim_bind_wp|]. intros [[x|]|e] db' Hr; cbn.
      + exists current, db0. split_and!; [by eapply HP|done|done].
      + by apply (unbound_frame rq db0).
      + destruct Hr as [-> | ->]; auto. }
  apply wp_update; cbn [on_ok].
  - intros d db0 (Hq & (l & r & E1 & E2) & Ho). apply Hrest; [|by apply frame_one].
    exists d. apply fld_true in Hq. split_and!; [rewrite E1; apply elem_of_middle|done|done].
  - intros Hno. by apply Hrest.
Qed.

Lemma claim_post_mono rq (P P' : pydict -> Prop) (L L' : Prop) db db0 r db' :
  (forall c, P c -> P' c) -> (L -> L') -> frame [Leaders; Nodes; NodeConfigs] db db0 ->
  claim_post rq P L db0 r db' -> claim_post rq P' L' db r db'.
Proof.
  intros HP HL Hf. destruct r as [[c|]|e]; cbn.
  - intros (current & db1 & ? & ? & ?). exists current, db1. split_and!; auto.
    eapply frame_weaken; [by eapply frame_trans|set_solver].
  - by apply unbound_frame.
  - destruct e; auto.
Qed.

Lemma unbound_refl rq db : unbound rq db db.
Proof. unfold unbound. by split_and!; auto. Qed.

Lemma claim_on_node_wp rq node db (P : pydict -> Prop) :
  (forall current ip config capacity, current ∈ content db Tasks -> task_query rq current = true ->
     (is_origin rq current = true -> failover_origin_return_ready current (Some node) (rq_current rq) = true) ->
     resource_allows current node ip db ->
     configured rq config db -> capacity_of node config = Some capacity ->
     config_refused rq node config ip capacity = false -> P current) ->
  wp (claim_on_node rq node) (claim_post rq P False db) db.
Proof.
  intros HP. unfold claim_on_node. apply wp_bind, wp_find_one; cbn [on_ok]; [|intros _; apply wp_ret, unbound_refl].
  intros current Hin Hq. destruct (is_origin rq current && _) eqn:Eo; [apply wp_ret, unbound_refl|].
  assert (Ho : is_origin rq current = true -> failover_origin_return_ready current (Some node) (rq_current rq) = true).
  { intros E. rewrite E in Eo. cbn in Eo. by apply negb_false_iff in Eo. }
  destruct (truthy current.["resourceId"]) eqn:Et.
  2:{ apply claim_configured_wp. intros config capacity. apply HP; try done. unfold resource_allows. by rewrite Et. }
  apply wp_bind, wp_find_one; cbn [on_ok]; [|intros _; apply wp_ret, unbound_refl].
  intros res Hres Hrq. freflect. destruct (resource_health_blocks_task current res) eqn:Eb; [apply wp_ret, unbound_refl|].
  destruct (requires_coredump_nfs current (Some res) && _) eqn:En; [apply wp_ret, unbound_refl|].
  apply claim_configured_wp. intros config capacity. apply HP; try done. unfold resource_allows. rewrite Et.
  exists res. split_and!; try done. intros E. rewrite E in En. cbn in En. by apply negb_false_iff in En.
Qed.

Lemma claim_commit_wp rq db :
  wp (claim_commit rq) (claim_post rq (fun current => admitted rq current db) (~ lease_held rq db) db) db.
Proof.
  unfold claim_commit. apply wp_bind.
  assert (Hrest : forall db0, lease_held rq db -> frame [Leaders] db db0 ->
    wp (let! node := find_one_and_update Nodes (node_query (rq_node rq) (rq_current rq)) (dict_inc "claimVersion" 1) in
        match node with
        | None => st_ret None
        | Some node => if node_refused node (rq_current rq) then st_ret None else claim_on_node rq node
        end) (claim_post rq (fun current => admitted rq current db) (~ lease_held rq db) db) db0).
  { intros db0 Hl Hf. assert (Hf' : frame [Leaders; Nodes; NodeConfigs] db db0)
      by (eapply frame_weaken; [exact Hf|set_solver]).
    apply wp_bind, wp_update; cbn [on_ok].
    2:{ intros _. apply wp_ret. cbn. apply (unbound_frame rq db0); [done|apply unbound_refl]. }
    intros n db1 (Hq & (l & r & E1 & E2) & Ho).
    assert (Hf1 : frame [Leaders; Nodes; NodeConfigs] db db1).
    { eapply frame_weaken; [eapply frame_trans; [exact Hf|by apply frame_one]|set_solver]. }
    destruct (node_refused _ _) eqn:Er; [apply wp_ret; cbn; apply (unbound_frame rq db1); [done|apply unbound_refl]|].
    eapply wp_mono; [apply (claim_on_node_wp rq _ _ (fun current => admitted rq current db))|].
    - intros current ip config capacity Hin Htq Horig Hres Hcfg Hcap Hadm. unfold admitted.
      rewrite Hf1 in Hin by set_solver. split_and!; [done..|].
      exists n, (dict_inc "claimVersion" 1 n), config, capacity, ip.
      rewrite <- (Hf Nodes) by set_solver. rewrite E1. split_and!; try done; [apply elem_of_middle| |].
      + unfold resource_allows in *. by rewrite <- (Hf1 Resources) by set_solver.
      + unfold configured in *. rewrite <- (Hf NodeConfigs) by set_solver. rewrite <- Ho by done. done.
    - intros r0 db2. by apply claim_post_mono. }
  destruct (rq_lease rq) as [le|] eqn:El.
  - apply wp_bind, wp_update; cbn [on_ok].
    + intros d db0 (Hq & (l & r & E1 & E2) & Ho). apply wp_ret. apply Hrest; [|by apply frame_one].
      unfold lease_held. rewrite El. exists d. rewrite E1. split; [apply elem_of_middle|done].
    + intros Hno. apply wp_raise. cbn. unfold lease_held. rewrite El. intros (d & Hd & Hq). by rewrite Hno in Hq.
  - apply wp_ret. apply Hrest; [|done]. unfold lease_held. by rewrite El.
Qed.

Lemma claim_update_fields rq current d :
  (claim_update rq current d).["nodeId"] = PStr (rq_node rq) /\ (claim_update rq current d).["runId"] = rq_run rq
  /\ (claim_update rq current d).["status"] = PStr "PENDING" /\ (claim_update rq current d).["id"] = d.["id"].
Proof.
  unfold claim_update. destruct (truthy _), (resuming _); cbn [set_all unset_all foldl fst snd]; by dget.
Qed.

Lemma claim_task_spec rq f db c db' :
  claim_task rq f db = (Ok (Some c), db') ->
  f = Committed /\ exists current db0, admitted rq current db /\ frame [Leaders; Nodes; NodeConfigs] db db0
    /\ bound rq current db0 db' c.
Proof.
  pose proof (claim_commit_wp rq db) as Hwp. unfold claim_task, st_catch, transaction, wp in *.
  destruct (claim_commit rq db) as [[r|x] db2].
  - destruct f; cbn; [|done]. intros [= -> ->]. done.
  - destruct x; cbn; done.
Qed.

(** C6: a claim is exclusive and happens under all of its conditions.  A
    returned claim was committed in a transaction that saw the lease held, a
    fresh healthy node with room, an unassigned task that should run and a
    resource that allows it; it bound exactly that task to the node with a new
    generation, left one run lock for it, with its run, and a run record of the
    same generation; and afterwards no scheduler, whatever its snapshot, lease
    or node, can claim the task again. *)
Theorem claim_task_exclusive rq f db c db' :
  NoDup (map (fun d => d.["id"]) (content db Tasks)) -> NoDup (map fst (lock_keys db)) ->
  claim_task rq f db = (Ok (Some c), db') ->
  f = Committed
  /\ (exists current db0, admitted rq current db /\ frame [Leaders; Nodes; NodeConfigs] db db0 /\ bound rq current db0 db' c)
  /\ c.["nodeId"] = PStr (rq_node rq) /\ c.["runId"] = rq_run rq /\ c.["status"] = PStr "PENDING"
  /\ NoDup (map fst (lock_keys db')) /\ ((rq_task rq).["id"], rq_run rq) ∈ lock_keys db'
  /\ forall rq' f' c' db2, (rq_task rq').["id"] = (rq_task rq).["id"] -> claim_task rq' f' db' <> (Ok (Some c'), db2).
Proof.
  intros Hids Hlocks Hclaim. destruct (claim_task_spec _ _ _ _ _ Hclaim) as [Hf (current & db0 & Hadm & Hfr & Hb)].
  split; [done|]. split; [by exists current, db0|]. destruct Hb as [Hbf (l & d & r & E1 & E2 & Hfq & ->) Hbl _].
  destruct (claim_update_fields rq current d) as (Hn & Hr & Hs & Hid).
  assert (Hkeys : lock_keys db0 = lock_keys db) by (apply lock_keys_frame, Hfr; set_solver). rewrite Hkeys in Hbl.
  split_and!; [done..| | |].
  - destruct Hbl as [[-> _]|[-> Hno]]; [done|]. rewrite map_app. apply NoDup_app. split_and!; [done| |apply NoDup_singleton].
    intros x Hx ->%list_elem_of_singleton. done.
  - destruct Hbl as [[-> ?]|[-> _]]; [done|]. apply elem_of_app. right. by left.
  - intros rq' f' c' db2 Heq Hclaim'.
    destruct (claim_task_spec _ _ _ _ _ Hclaim') as [_ (cur' & db0' & (_ & Hin' & Hq' & _) & _)].
    assert (Hdid : d.["id"] = (rq_task rq).["id"]) by (unfold final_query, task_query in Hfq; freflect; done).
    unfold task_query in Hq'. apply andb_prop in Hq' as [Hq' _]. freflect.
    rewrite E2 in Hin'. rewrite <- (Hfr Tasks) in Hids by set_solver. rewrite E1 in Hids.
    apply elem_of_app in Hin' as [Hin'|[->|Hin']%elem_of_cons].
    + apply (unique_middle (fun d => d.["id"]) l d r cur' Hids); [apply elem_of_app; by left|congruence].
    + rewrite Hn in *. done.
    + apply (unique_middle (fun d => d.["id"]) l d r cur' Hids); [apply elem_of_app; by right|congruence].
Qed.

(** Without the lease the transaction ends at its first write. *)
Lemma lease_needed rq db : lease_held rq db \/ claim_commit rq db = (Raise SchedulerLeaseLost, db).
Proof.
  unfold claim_commit, lease_held. destruct (rq_lease rq) as [l|]; [|by left].
  unfold st_bind, find_one_and_update. pose proof (update_law (lease_query l (rq_current rq)) (dict_inc "claimVersion" 1) (db Leaders)) as L.
  destruct (coll_update _ _ (db Leaders)) as [[d c]|]; [left|by right].
  destruct L as (l0 & d0 & r0 & E & Hq & _). exists d0. unfold content. rewrite E. split; [apply elem_of_middle|done].
Qed.

(** C8: a claim that is not made binds nothing.  When no claim is returned from
    a committed transaction, no lock, run or event changed, and the tasks are as
    they were or one unassigned task with a foreign lock was marked BLOCKED; the
    lost lease is reported exactly when no scheduler document grants the lease,
    never as a refused claim, and then nothing is written; an uncertain commit is
    reported as such, with the database before or after the transaction. *)
Theorem claim_task_otherwise rq f db :
  let '(r, db') := claim_task rq f db in
  (r = Raise SchedulerLeaseLost <-> ~ lease_held rq db)
  /\ match r with
     | Ok (Some _) => f = Committed
     | Ok None => f = Committed /\ unbound rq db db' \/ db' = db
     | Raise SchedulerLeaseLost => db' = db
     | Raise e => db' = db \/ (e = PyMongoError /\ f = Uncertain true
         /\ (unbound rq db db' \/ exists c current db0, admitted rq current db
              /\ frame [Leaders; Nodes; NodeConfigs] db db0 /\ bound rq current db0 db' c))
     end.
Proof.
  pose proof (claim_commit_wp rq db) as Hwp. pose proof (lease_needed rq db) as Hl. unfold claim_task, st_catch, transaction, wp in *.
  destruct (claim_commit rq db) as [[r|x] db2].
  - destruct Hl as [Hl|[=]]. destruct f as [|[]]; cbn; (split; [by split|]); [| |by left].
    + destruct r as [c|]; [done|]. left. split; [done|exact Hwp].
    + right. split_and!; [done|done|]. destruct r as [c|]; [right|by left].
      destruct Hwp as (current & db0 & Hx). by exists c, current, db0.
  - destruct x; try (destruct Hl as [Hl|[=]]; cbn; split; [by split|by auto]). cbn. split; [|done]. split; [intros _; exact Hwp|done].
Qed.
End claim.

(** ** Witness: the claim of a new task by a healthy node *)

#[local] Existing Instance text_ip.
#[local] Existing Instance no_iso.
#[local] Existing Instance no_float.
#[local] Existing Instance list_mongo.
#[local] Existing Instance list_mongo_laws.

Definition waiting_task : pydict :=
  [("id", PStr "t"); ("desiredState", PStr "RUNNING"); ("status", PStr "PENDING"); ("generation", PInt 3);
   ("resourceId", PStr "dev"); ("ip", PStr "10.0.0.1"); ("port", PInt 22); ("protocol", PStr "SSH")].

Definition claim_db : database := fun c =>
  match c with
  | Tasks => [waiting_task]
  | Nodes => [sample_node "a" true]
  | Resources => [[("id", PStr "dev"); ("ip", PStr "10.0.0.1"); ("healthStatus", PStr "ONLINE")]]
  | Leaders => [[("_id", PStr "scheduler"); ("owner", PStr "s1"); ("fence", PInt 4); ("expires", PTime (Aware 9000000))]]
  | _ => []
  end.

Definition claim_request : request :=
  Request waiting_task "a" (Some (Lease "s1" 4)) 3 (PStr "run1") US_PER_SECOND US_PER_SECOND US_PER_SECOND.

Lemma claim_task_exclusive_witness :
  exists c db', claim_task claim_request Committed claim_db = (Ok (Some c), db')
    /\ c.["generation"] = PInt 4 /\ lock_keys db' = [(PStr "t", PStr "run1")]
    /\ forall c' db2, claim_task claim_request Committed db' <> (Ok (Some c'), db2).
Proof.
  destruct (claim_task claim_request Committed claim_db) as [r db'] eqn:E.
  assert (Hr : r = (claim_task claim_request Committed claim_db).1) by by rewrite E.
  vm_compute in Hr. subst r. eexists _, db'. split; [reflexivity|]. split; [reflexivity|].
  assert (Hl : lock_keys db' = lock_keys (claim_task claim_request Committed claim_db).2) by by rewrite E.
  split; [rewrite Hl; vm_compute; reflexivity|]. intros c' db2.
  assert (Hids : NoDup (map (fun d => d.["id"]) (content claim_db Tasks))) by apply NoDup_singleton.
  assert (Hlocks : NoDup (map fst (lock_keys claim_db))) by constructor.
  apply (claim_task_exclusive claim_request Committed claim_db _ db' Hids Hlocks E). reflexivity.
Defined.

(** A scheduler that lost the lease claims nothing. *)
Lemma claim_task_otherwise_witness :
  let rq := Request waiting_task "a" (Some (Lease "s2" 4)) 3 (PStr "run1") US_PER_SECOND US_PER_SECOND US_PER_SECOND in
  exists db', claim_task rq Committed claim_db = (Raise SchedulerLeaseLost, db') /\ ~ lease_held rq claim_db /\ db' = claim_db.
Proof.
  set (rq := Request _ _ _ _ _ _ _ _). pose proof (claim_task_otherwise rq Committed claim_db) as Hp.
  destruct (claim_task rq Committed claim_db) as [r db'] eqn:E.
  assert (Hr : r = (claim_task rq Committed claim_db).1) by by rewrite E.
  vm_compute in Hr. subst r. exists db'. split; [by rewrite E|]. destruct Hp as [[Hno _] Hsame]. split; [by apply Hno|exact Hsame].
Defined.
