(* ===== verification/Control.v ===== *)
(** * Control of tasks ([tasks/control.py])

    Starting, pausing, resuming and stopping record an intent, an operation and
    an audit event in one transaction; the Worker that owns the connection
    carries the intent out.  Every request first increments the task, so that
    requests on the same task conflict. *)

From S2P Require Import Prelude PyTime PyValue Ordering Mongo Ownership TaskRules.
Open Scope camera_scope.

Definition RUNNING := PStr "RUNNING".
Definition STOPPED := PStr "STOPPED".
Definition PAUSED := PStr "PAUSED".
Definition WAITING_DEVICE := PStr "WAITING_DEVICE".
Definition PENDING := PStr "PENDING".
Definition SUCCEEDED := PStr "SUCCEEDED".
Definition CANCELLED := PStr "CANCELLED".

(** One control request; [cr_identifier] is the operation's fixed identifier. *)
Record control := Control {
  cr_task : string; cr_desired : pyval; cr_user : pydict; cr_require_paused : bool;
  cr_identifier : string; cr_now : Z; cr_context : pydict }.

(** [_validate]: the exception, if any. *)
Definition _validate (task : pydict) (desired : pyval) (require_paused : bool) : option exn :=
  if require_paused && (negb (fld task "status" PAUSED) || negb (fld task "desiredState" PAUSED)
                        || negb (fld task "nodeId" PNone))
  then Some (Http 409 "任务尚未完成SSH暂停")
  else if fld task "protocol" (PStr "TELNET_SERIAL") && (require_paused || bool_decide (desired = PAUSED))
  then Some (Http 409 "串口 Telnet 任务不支持暂停或恢复")
  else if bool_decide (desired = PAUSED) && negb (fld_in task "desiredState" [RUNNING; PAUSED])
  then Some (Http 409 "仅运行中的任务可以暂停")
  else None.

(** [_reached]. *)
Definition _reached (task : pydict) (desired : pyval) : bool :=
  if bool_decide (desired = RUNNING)
  then fld task "desiredState" RUNNING && fld task "status" (PStr "COLLECTING") && negb (fld task "nodeId" PNone)
       && truthy task.["runId"] && truthy task.["generation"] && negb (truthy task.["restartRequested"])
  else fld task "status" desired && fld task "nodeId" PNone.

Section control.
Context `{Mongo}.

(** [_previous_operation]. *)
Definition _previous_operation (task : pydict) (desired : pyval) : dbm (option pydict) :=
  if negb (fld task "desiredState" desired) then st_ret None
  else
    let! previous := find_one Operations (fun d =>
      fld d "taskId" task.["id"] && fld d "desiredState" desired
      && (if truthy task.["controlOperationId"] then fld d "id" task.["controlOperationId"]
          else fld d "status" PENDING)) in
    st_ret match previous with
           | Some p => if fld p "status" PENDING || (fld p "status" SUCCEEDED && _reached task desired)
                       then Some p else None
           | None => None
           end.

(** [_validate_paused_run]. *)
Definition _validate_paused_run (task : pydict) : dbm unit :=
  if negb (fld task "status" PAUSED) || negb (fld task "nodeId" PNone) then st_ret tt
  else
    let! lock := find_one EndpointLocks (fun d => fld d "taskId" task.["id"]) in
    let run_id := task.["runId"] in
    if negb (truthy run_id)
    then match lock with Some _ => st_raise (Http 409 "暂停任务仍有旧运行锁，请先停止并核查") | None => st_ret tt end
    else
      let! run := find_one Runs (fun d => fld d "id" run_id) in
      let complete := match lock, run with
        | Some lock, Some run => fld lock "runId" run_id && negb (truthy run.["endedAt"])
        | _, _ => false
        end in
      raise_if (negb complete) (Http 409 "暂停运行或运行锁不完整，请先停止任务再重新启动").

(** [_local_transition]: the changes of a task without a node. *)
Definition _local_transition (task : pydict) (desired : pyval) (now : Z) : dbm (pydict * list string) :=
  if negb (fld task "nodeId" PNone) then st_ret ([], [])
  else if bool_decide (desired = STOPPED) && fld_in task "status" [PAUSED; WAITING_DEVICE]
  then
    let run_id := task.["runId"] in
    let! foreign := find_one EndpointLocks (fun d =>
      fld d "taskId" task.["id"] && (negb (truthy run_id) || negb (fld d "runId" run_id))) in
    let! _ := raise_if (match foreign with Some _ => true | None => false end)
      (Http 409 "暂停任务存在不匹配的运行锁，请先核查旧运行") in
    let! _ := (if truthy run_id
               then
                 let! _ := delete_one EndpointLocks (fun d => fld d "taskId" task.["id"] && fld d "runId" run_id) in
                 let! _ := update_one Runs (fun d => fld d "id" run_id && fld d "endedAt" PNone)
                   (set_all [("endedAt", PTime (Aware now))]) in
                 st_ret tt
               else st_ret tt) in
    st_ret ([("status", STOPPED)], [])
  else if bool_decide (desired = PAUSED) && fld task "status" WAITING_DEVICE
  then st_ret ([("status", PAUSED)], [])
  else if bool_decide (desired = PAUSED) && fld_in task "status" [STOPPED; PENDING]
  then
    let! lock := find_one EndpointLocks (fun d => fld d "taskId" task.["id"]) in
    let! _ := raise_if (match lock with Some _ => true | None => false end)
      (Http 409 "任务仍有运行锁，请先确认旧运行已停止") in
    let! _ := (if truthy task.["runId"]
               then
                 let! run := find_one Runs (fun d => fld d "id" task.["runId"]) in
                 raise_if (match run with Some run => negb (truthy run.["endedAt"]) | None => true end)
                   (Http 409 "任务旧运行尚未确认结束，请先停止并核查")
               else st_ret tt) in
    st_ret ([("status", PAUSED); ("pausedAt", PTime (Aware now))], ["runId"; "sessionId"])
  else if bool_decide (desired = RUNNING) && fld task "status" (PStr "ERROR")
  then st_ret ([("status", STOPPED); ("error", PNone)], [])
  else st_ret ([], []).

Definition cancel (now : Z) : pydict -> pydict := set_all [("status", CANCELLED); ("completedAt", PTime (Aware now))].

(** A new operation record. *)
Definition operation_of (c : control) (desired : pyval) (action : string) (status : pyval) : pydict :=
  [("id", PStr (cr_identifier c)); ("taskId", PStr (cr_task c)); ("desiredState", desired); ("action", PStr action);
   ("actor", (cr_user c).["id"]); ("status", status); ("createdAt", PTime (Aware (cr_now c)))].

(** Resuming a paused device task whose device is probed over HTTP first. *)
Definition resume_waiting (c : control) (task resource : pydict) : dbm pydict :=
  let! _ := _validate_paused_run task in
  let operation := operation_of c RUNNING "resume-wait-device" PENDING in
  let! _ := update_many Operations (fun d => fld d "taskId" (PStr (cr_task c)) && fld d "status" PENDING)
    (cancel (cr_now c)) in
  let! _ := insert_one Operations operation in
  let waiting := PDict [("operationId", PStr (cr_identifier c)); ("pausedRunId", task.["runId"]);
    ("generation", task.["generation"]); ("requestedAt", PTime (Aware (cr_now c)));
    ("waitingReason", if truthy resource.["healthStatus"] then resource.["healthStatus"] else PStr "CHECKING")] in
  let! _ := update_one Tasks (fun d => fld d "id" (PStr (cr_task c)) && fld d "desiredState" PAUSED)
    (set_all [("desiredState", RUNNING); ("status", WAITING_DEVICE); ("controlOperationId", PStr (cr_identifier c));
              ("resumeWaiting", waiting); ("updatedAt", PTime (Aware (cr_now c)))]) in
  let! _ := update_one Resources (fun d => fld d "id" resource.["id"])
    (set_all [("nextHealthCheckAt", PTime (Aware (cr_now c)))]) in
  let! _ := audit (cr_context c) (cr_now c) (cr_user c).["id"] "control:RUNNING" (PStr (cr_task c)) in
  st_ret operation.

Definition action_of (c : control) : string :=
  if cr_require_paused c then "resume"
  else if bool_decide (cr_desired c = RUNNING) then "start"
  else if bool_decide (cr_desired c = STOPPED) then "stop" else "pause".

(** `observed`. *)
Definition observed_after (changes task : pydict) (desired : pyval) : pydict :=
  let observed := set_all changes task in
  if fld changes "status" PAUSED then dict_set observed "desiredState" desired else observed.

(** The update of the task. *)
Definition intent_update (c : control) (changes : pydict) (unset : list string) (d : pydict) : pydict :=
  let desired := cr_desired c in
  let changes := changes ++ [("desiredState", desired); ("updatedAt", PTime (Aware (cr_now c)));
                             ("controlOperationId", PStr (cr_identifier c))] in
  let changes := if bool_decide (desired = STOPPED) then changes ++ [("restartRequested", PBool false)] else changes in
  let unset := if bool_decide (desired = STOPPED) || bool_decide (desired = PAUSED)
               then unset ++ ["resumeWaiting"] else unset in
  unset_all unset (set_all changes d).

(** The new intent, from the local transition on. *)
Definition record_intent (c : control) (task : pydict) : dbm pydict :=
  let desired := cr_desired c in
  let! transition := _local_transition task desired (cr_now c) in
  let '(changes, unset) := transition in
  let reached := _reached (observed_after changes task desired) desired in
  let operation := operation_of c desired (action_of c) (if reached then SUCCEEDED else PENDING) in
  let operation := if reached then dict_set operation "completedAt" (PTime (Aware (cr_now c))) else operation in
  let! _ := update_many Operations
    (fun d => fld d "taskId" (PStr (cr_task c)) && negb (fld d "desiredState" desired) && fld d "status" PENDING)
    (cancel (cr_now c)) in
  let! _ := insert_one Operations operation in
  let! matched := update_one Tasks
    (fun d => fld d "id" (PStr (cr_task c))
              && (bool_decide (desired = STOPPED)
                  || fld d "deletedAt" PNone && negb (fld d "resourceDeleted" (PBool true))))
    (intent_update c changes unset) in
  let! _ := raise_if (negb matched) (Http 409 "设备资源已删除，仅可查询已有日志") in
  let! _ := audit (cr_context c) (cr_now c) (cr_user c).["id"] ("control:" +:+ text desired) (PStr (cr_task c)) in
  st_ret operation.

Definition device_protocol (task : pydict) : bool := fld_in task "protocol" [PStr "SSH"; PStr "TELNET_DEVICE"].

(** A reusable operation, the checks, then the new intent. *)
Definition control_intent (c : control) (task : pydict) : dbm pydict :=
  let desired := cr_desired c in
  let! _ := (if negb (bool_decide (desired = STOPPED))
                && negb (bool_decide (desired = PAUSED) && fld task "status" WAITING_DEVICE)
             then _guard_resources task else st_ret tt) in
  let! previous := _previous_operation task desired in
  let resumed := match previous with
    | Some p => cr_require_paused c && fld p "action" (PStr "resume") && device_protocol task
    | None => false
    end in
  if resumed then st_ret (default [] previous)
  else
    let! _ := (match _validate task desired (cr_require_paused c) with Some e => st_raise e | None => st_ret tt end) in
    let! _ := (if negb (bool_decide (desired = STOPPED)) then _validate_paused_run task else st_ret tt) in
    match previous with
    | Some p => st_ret p
    | None => record_intent c task
    end.

(** Whether the resume waits for the device. *)
Definition waits_for_device (c : control) (task resource : pydict) : bool :=
  cr_require_paused c && device_protocol task && fld task "status" PAUSED && fld task "nodeId" PNone
  && fld task "desiredState" PAUSED && fld resource "kind" (PStr "HIKVISION_NETWORK").

(** `request_control.commit`. *)
Definition control_commit (c : control) : dbm pydict :=
  let desired := cr_desired c in
  let! task := find_one_and_update Tasks (fun d => fld d "id" (PStr (cr_task c)))
    (fun d => let d := control_version d in
              if bool_decide (desired = STOPPED) then dict_unset d "resourceHealthRecovery" else d) in
  match task with
  | None => st_raise (Http 404 "任务不存在")
  | Some task =>
      let! _ := authorize_task_operation (cr_user c) task in
      let! _ := raise_if (negb (fld task "deletedAt" PNone) && negb (bool_decide (desired = STOPPED)))
        (Http 409 "任务已删除，仅可查询已有日志") in
      let! _ := raise_if (bool_decide (desired = RUNNING) && fld task "status" (PStr "BLOCKED"))
        (Http 409 "任务阻塞，必须使用重新启动或隔离确认") in
      let! waiting := (if cr_require_paused c && fld task "status" WAITING_DEVICE
        then find_one Operations (fun d => fld d "id" task.["controlOperationId"] && fld d "taskId" (PStr (cr_task c))
               && fld d "action" (PStr "resume-wait-device") && fld d "status" PENDING)
        else st_ret None) in
      match waiting with
      | Some previous => st_ret previous
      | None =>
          let! resource := find_one Resources (fun d => fld d "id" task.["resourceId"] && fld d "deletedAt" PNone) in
          match resource with
          | Some resource =>
              if waits_for_device c task resource then resume_waiting c task resource else control_intent c task
          | None => control_intent c task
          end
      end
  end.

(** [request_control]; [reread] is whether the confirming read after an
    uncertain commit works. *)
Definition request_control (c : control) (f : fate) (reread : bool) : dbm pydict :=
  let! _ := authorize (cr_user c) "tasks:control" in
  if negb (bool_decide (cr_desired c ∈ [RUNNING; STOPPED; PAUSED])) then st_raise (ValueError "不支持的任务控制状态")
  else
    st_catch (transaction f (control_commit c)) (fun e =>
      if is_pymongo e then Some (
        let unknown := Http 503 "任务控制提交结果未知，请查询任务与操作状态后再操作" in
        if reread
        then
          let! confirmed := find_one Operations (fun d =>
            fld d "id" (PStr (cr_identifier c)) && fld d "taskId" (PStr (cr_task c))
            && fld d "actor" (cr_user c).["id"] && fld d "desiredState" (cr_desired c)
            && fld d "action" (PStr (action_of c))) in
          match confirmed with Some d => st_ret d | None => st_raise unknown end
        else st_raise unknown)
      else None).

(** ** Properties *)

Context `{!MongoLaws}.

(** [task] is the one document of the controlled task. *)
Definition one_task (c : control) (db : database) (task : pydict) : Prop :=
  exists l r, content db Tasks = l ++ task :: r /\ NoDup (map (fun d => d.["id"]) (l ++ task :: r))
    /\ task.["id"] = PStr (cr_task c).

Lemma one_task_frame c db db' task : content db' Tasks = content db Tasks -> one_task c db task -> one_task c db' task.
Proof. intros E (l & r & H1). exists l, r. by rewrite E. Qed.

Lemma unique_doc (g : pydict -> pyval) l r l' r' d d' :
  l ++ d :: r = l' ++ d' :: r' -> NoDup (map g (l ++ d :: r)) -> g d = g d' -> l = l' /\ d = d' /\ r = r'.
Proof.
  revert l'. induction l as [|x l IH]; intros [|x' l'] E Hnd Hg; cbn in *.
  - by injection E as -> ->.
  - injection E as -> ->. exfalso. apply NoDup_cons in Hnd as [Hn _]. apply Hn. rewrite Hg, map_app.
    apply elem_of_app. right. by left.
  - injection E as <- <-. exfalso. apply NoDup_cons in Hnd as [Hn _]. apply Hn. rewrite <- Hg, map_app.
    apply elem_of_app. right. by left.
  - injection E as <- E. apply NoDup_cons in Hnd as [_ Hnd]. destruct (IH l' E Hnd Hg) as (-> & -> & ->). done.
Qed.

(** An update of the controlled task rewrites its document. *)
Lemma one_task_update c q f d db db' task :
  one_task c db task -> (forall x, q x = true -> x.["id"] = PStr (cr_task c)) ->
  (f task).["id"] = task.["id"] -> updated Tasks q f d db db' -> d = task /\ one_task c db' (f task).
Proof.
  intros (l & r & E & Hnd & Hid) Hq Hf (Hqd & (l' & r' & E1 & E2) & _). specialize (Hq d Hqd).
  rewrite E in E1. destruct (unique_doc (fun d => d.["id"]) _ _ _ _ _ _ E1 Hnd) as (<- & <- & <-); [by rewrite Hid, Hq|].
  split; [done|]. exists l, r. split; [done|]. rewrite Hf. split; [|done].
  rewrite !map_app in *. cbn in *. by rewrite Hf.
Qed.

Lemma one_task_present c db task q : one_task c db task -> q task = true -> no_match q (content db Tasks) -> False.
Proof. intros (l & r & E & _) Hq Hno. rewrite (Hno task) in Hq; [done|]. rewrite E. apply elem_of_middle. Qed.

Definition is_http (e : exn) : Prop := exists status detail, e = Http status detail.

(** The possible local transitions. *)
Definition transition_ok (task : pydict) (desired : pyval) (now : Z) (p : pydict * list string) : Prop :=
  p = ([], [])
  \/ task.["nodeId"] = PNone
     /\ (desired = STOPPED /\ p = ([("status", STOPPED)], [])
         \/ desired = PAUSED /\ p = ([("status", PAUSED)], [])
         \/ desired = PAUSED /\ p = ([("status", PAUSED); ("pausedAt", PTime (Aware now))], ["runId"; "sessionId"])
         \/ desired = RUNNING /\ p = ([("status", STOPPED); ("error", PNone)], [])).

Lemma local_transition_wp task desired now db :
  wp (_local_transition task desired now) (fun r db' => frame [EndpointLocks; Runs] db db' /\ match r with
    | Ok p => transition_ok task desired now p
    | Raise e => is_http e end) db.
Proof.
  unfold _local_transition. destruct (fld task "nodeId" PNone) eqn:En; cbn [negb]; [apply fld_true in En|by apply wp_ret; split; [|left]].
  assert (Herr : forall s, is_http (Http 409 s)) by (intros s; by exists 409, s).
  destruct (bool_decide (desired = STOPPED) && _) eqn:E1.
  { apply andb_prop in E1 as [E1 _]. apply bool_decide_eq_true in E1.
    apply wp_bind, wp_find_one; cbn [on_ok]; [intros; apply wp_bind, wp_raise_if; cbn [on_ok]; [intros _; by split|done]|].
    intros _. apply wp_bind, wp_raise_if; cbn [on_ok]; [done|intros _]. apply wp_bind.
    assert (Hlast : forall db', frame [EndpointLocks; Runs] db db' ->
      wp (st_ret ([("status", STOPPED)], [])) (fun r db' => frame [EndpointLocks; Runs] db db' /\ match r with
        | Ok p => transition_ok task desired now p | Raise e => is_http e end) db').
    { intros db' Hf. apply wp_ret. split; [done|]. right. split; [done|]. by left. }
    destruct (truthy task.["runId"]); [|apply wp_ret; by apply Hlast].
    apply wp_bind, wp_delete; cbn [on_ok].
    - intros l d r db1 _ _ _ Ho. apply wp_bind, wp_update_one; cbn [on_ok].
      + intros d' db2 (_ & _ & Ho'). apply wp_ret, Hlast.
        eapply frame_weaken; [eapply frame_trans; by apply frame_one|done].
      + intros _. apply wp_ret, Hlast. eapply frame_weaken; [by apply frame_one|set_solver].
    - intros _. apply wp_bind, wp_update_one; cbn [on_ok].
      + intros d' db2 (_ & _ & Ho'). apply wp_ret, Hlast. eapply frame_weaken; [by apply frame_one|set_solver].
      + intros _. by apply wp_ret, Hlast. }
  destruct (bool_decide (desired = PAUSED) && fld task "status" WAITING_DEVICE) eqn:E2.
  { apply andb_prop in E2 as [E2 _]. apply bool_decide_eq_true in E2. apply wp_ret. split; [done|]. right. auto. }
  destruct (bool_decide (desired = PAUSED) && fld_in _ _ _) eqn:E3.
  { apply andb_prop in E3 as [E3 _]. apply bool_decide_eq_true in E3.
    apply wp_bind, wp_find_one; cbn [on_ok]; [intros; apply wp_bind, wp_raise_if; cbn [on_ok]; [intros _; by split|done]|].
    intros _. apply wp_bind, wp_raise_if; cbn [on_ok]; [done|intros _]. apply wp_bind.
    assert (Hlast : wp (st_ret ([("status", PAUSED); ("pausedAt", PTime (Aware now))], ["runId"; "sessionId"]))
      (fun r db' => frame [EndpointLocks; Runs] db db' /\ match r with
        | Ok p => transition_ok task desired now p | Raise e => is_http e end) db).
    { apply wp_ret. split; [done|]. right. split; [done|]. auto. }
    destruct (truthy task.["runId"]); [|apply wp_ret; exact Hlast].
    apply wp_bind, wp_find_one; cbn [on_ok]; intros; apply wp_raise_if; intros _; try exact Hlast; by split. }
  destruct (bool_decide (desired = RUNNING) && _) eqn:E4.
  { apply andb_prop in E4 as [E4 _]. apply bool_decide_eq_true in E4. apply wp_ret. split; [done|]. right. auto 6. }
  apply wp_ret. split; [done|]. by left.
Qed.

Lemma intent_update_fields c changes unset task :
  transition_ok task (cr_desired c) (cr_now c) (changes, unset) ->
  let t := intent_update c changes unset task in
  t.["id"] = task.["id"] /\ t.["desiredState"] = cr_desired c /\ t.["controlOperationId"] = PStr (cr_identifier c)
  /\ t.["resourceHealthRecovery"] = task.["resourceHealthRecovery"]
  /\ (_reached (observed_after changes task (cr_desired c)) (cr_desired c) = true -> _reached t (cr_desired c) = true).
Proof.
  intros Ht t.
  assert (Hc : (changes, unset) ∈ [([], []); ([("status", STOPPED)], []); ([("status", PAUSED)], []);
      ([("status", PAUSED); ("pausedAt", PTime (Aware (cr_now c)))], ["runId"; "sessionId"]);
      ([("status", STOPPED); ("error", PNone)], [])]
    /\ (cr_desired c = RUNNING -> changes = [] \/ changes = [("status", STOPPED); ("error", PNone)])).
  { destruct Ht as [[= -> ->]|[_ [[-> [= -> ->]]|[[-> [= -> ->]]|[[-> [= -> ->]]|[-> [= -> ->]]]]]]];
      (split; [set_solver|intros Hd; first [by left|by right|done]]). }
  destruct Hc as [Hc Hrun]. unfold t, intent_update, observed_after, _reached, fld.
  rewrite !elem_of_cons, elem_of_nil in Hc.
  destruct Hc as [[= -> ->]|[[= -> ->]|[[= -> ->]|[[= -> ->]|[[= -> ->]|[]]]]]];
    destruct (bool_decide (cr_desired c = STOPPED)) eqn:E1, (bool_decide (cr_desired c = PAUSED)) eqn:E2,
      (bool_decide (cr_desired c = RUNNING)) eqn:E3;
    repeat match goal with
    | H : bool_decide _ = true |- _ => apply bool_decide_eq_true in H
    end; try (rewrite E1 in E2; discriminate); try (rewrite E1 in E3; discriminate); try (rewrite E2 in E3; discriminate);
    try (destruct (Hrun E3); congruence);
    cbn [app set_all unset_all foldl fst snd orb]; destruct (bool_decide (_.["status"] = PAUSED)); dget;
    split_and!; try done; rewrite ?andb_true_iff, ?bool_decide_eq_true; tauto.
Qed.

Definition used_identifier (c : control) (db : database) : Prop :=
  exists d, d ∈ content db Operations /\ d.["id"] = PStr (cr_identifier c).

(** What a new operation leaves in the database; [task] is the task the
    transaction read. *)
Record intent_recorded (c : control) (desired : pyval) (task : pydict) (db db' : database) (op : pydict) : Prop := {
  ir_id : op.["id"] = PStr (cr_identifier c) /\ op.["taskId"] = PStr (cr_task c) /\ op.["desiredState"] = desired;
  ir_stored : op ∈ content db' Operations;
  ir_consistent : forall o, o ∈ content db' Operations -> o.["taskId"] = PStr (cr_task c) -> o.["status"] = PENDING ->
    o.["desiredState"] = desired;
  ir_intent : exists t, one_task c db' t /\ t.["desiredState"] = desired
    /\ t.["controlOperationId"] = PStr (cr_identifier c)
    /\ t.["resourceHealthRecovery"] = task.["resourceHealthRecovery"]
    /\ (op.["status"] = SUCCEEDED -> _reached t desired = true);
  ir_audit : exists a, content db' Audit = content db Audit ++ [a];
  ir_only : forall o, o ∈ content db' Operations -> o.["id"] = PStr (cr_identifier c) -> o = op \/ used_identifier c db }.

Lemma clash_operation c op db d :
  op.["id"] = PStr (cr_identifier c) -> d ∈ content db Operations -> clash Operations op d = true -> used_identifier c db.
Proof.
  intros Hid Hd Hc. exists d. split; [done|]. unfold clash in Hc. cbn in Hc. rewrite andb_true_r in Hc.
  apply fld_true in Hc. congruence.
Qed.

(** Cancelled and new operations are consistent with the intent. *)
Lemma cancel_fields now d : (cancel now d).["status"] = CANCELLED /\ (cancel now d).["id"] = d.["id"].
Proof. unfold cancel. cbn [set_all foldl fst snd]. by dget. Qed.

Lemma consistent_after (q : pydict -> bool) t desired now l op :
  (forall d, d.["taskId"] = t -> d.["status"] = PENDING -> q d = false -> d.["desiredState"] = desired) ->
  op.["desiredState"] = desired ->
  forall o, o ∈ map (apply_if q (cancel now)) l ++ [op] -> o.["taskId"] = t -> o.["status"] = PENDING ->
    o.["desiredState"] = desired.
Proof.
  intros Hq Hop o Ho Ht Hs. apply elem_of_app in Ho as [Ho|Ho%list_elem_of_singleton]; [|by subst o].
  apply list_elem_of_fmap in Ho as (d & -> & Hd). unfold apply_if in *. destruct (q d) eqn:E; [|by apply Hq].
  destruct (cancel_fields now d) as [Hc _]. rewrite Hc in Hs. done.
Qed.

Lemma used_after_cancel c q now db db' :
  content db' Operations = map (apply_if q (cancel now)) (content db Operations) ->
  used_identifier c db' -> used_identifier c db.
Proof.
  intros E (d & Hd & Hid). rewrite E in Hd. apply list_elem_of_fmap in Hd as (x & -> & Hx). exists x. split; [done|].
  unfold apply_if in Hid. destruct (q x); [|done]. by rewrite (proj2 (cancel_fields now x)) in Hid.
Qed.

Lemma only_new c q now db db' op :
  content db' Operations = map (apply_if q (cancel now)) (content db Operations) ++ [op] ->
  forall o, o ∈ content db' Operations -> o.["id"] = PStr (cr_identifier c) -> o = op \/ used_identifier c db.
Proof.
  intros E o Ho Hid. rewrite E in Ho. apply elem_of_app in Ho as [Ho|Ho%list_elem_of_singleton]; [right|by left].
  apply list_elem_of_fmap in Ho as (x & -> & Hx). exists x. split; [done|].
  unfold apply_if in Hid. destruct (q x); [|done]. by rewrite (proj2 (cancel_fields now x)) in Hid.
Qed.

Lemma record_intent_wp c task db :
  one_task c db task ->
  wp (record_intent c task) (fun r db' => match r with
    | Ok op => intent_recorded c (cr_desired c) task db db' op
    | Raise e => is_http e \/ e = DuplicateKeyError /\ used_identifier c db end) db.
Proof.
  intros Hone. unfold record_intent. cbv zeta. apply wp_bind. eapply wp_mono; [apply local_transition_wp|].
  intros [[changes unset]|e] db1 [Hf1 Ht]; [|by left]. cbn [on_ok].
  destruct (intent_update_fields c changes unset task Ht) as (Uid & Ud & Uc & Uh & Ur).
  set (op := if _reached (observed_after changes task (cr_desired c)) (cr_desired c) then _ else _).
  assert (Hop : (op.["id"] = PStr (cr_identifier c) /\ op.["taskId"] = PStr (cr_task c) /\ op.["desiredState"] = cr_desired c)
    /\ (op.["status"] = SUCCEEDED -> _reached (observed_after changes task (cr_desired c)) (cr_desired c) = true)).
  { unfold op. destruct (_reached _ _); [|done]. dget. done. }
  destruct Hop as [Hop Hst]. assert (Hone1 : one_task c db1 task) by (apply (one_task_frame c db); [apply Hf1; set_solver|done]).
  apply wp_bind, wp_update_many. intros db2 E2 Ho2. cbn [on_ok].
  apply wp_bind, wp_insert; cbn [on_ok].
  2:{ intros d Hd Hc. right. split; [done|]. apply (clash_operation c op db2 d (proj1 Hop) Hd) in Hc.
      unfold used_identifier. rewrite <- (Hf1 Operations) by set_solver. by apply (used_after_cancel c _ _ db1 db2 E2). }
  intros db3 _ E3 Ho3. assert (Hone3 : one_task c db3 task).
  { apply (one_task_frame c db1); [|done]. by rewrite Ho3, Ho2. }
  assert (Hops : forall o, o ∈ content db3 Operations -> o.["taskId"] = PStr (cr_task c) -> o.["status"] = PENDING ->
    o.["desiredState"] = cr_desired c).
  { rewrite E3, E2. apply consistent_after; [|apply Hop]. intros d Hd Hs Hq.
    rewrite (proj2 (fld_true _ _ _) Hd), (proj2 (fld_true _ _ _) Hs), andb_true_r in Hq. cbn in Hq. by freflect. }
  apply wp_bind, wp_update_one; cbn [on_ok].
  - intros d db4 Hupd. destruct (one_task_update c _ _ _ _ _ _ Hone3 (fun x Hx => proj1 (fld_true x "id" _) (proj1 (andb_prop _ _ Hx)))
      Uid Hupd) as [-> Hone4]. destruct Hupd as (_ & _ & Ho4).
    apply wp_bind, wp_raise_if; cbn [on_ok]; [done|intros _].
    apply wp_bind, wp_audit. intros a db5 Ea _ Ho5. cbn [on_ok]. apply wp_ret. split.
    + exact Hop.
    + rewrite Ho5, Ho4, E3 by done. apply elem_of_middle.
    + intros o. rewrite Ho5, Ho4 by done. apply Hops.
    + eexists. split; [apply (one_task_frame c db4); [by apply Ho5|exact Hone4]|]. split_and!; auto.
    + exists a. rewrite Ea, Ho4, Ho3, Ho2 by done. by rewrite (Hf1 Audit) by set_solver.
    + rewrite Ho5, Ho4 by done. unfold used_identifier. rewrite <- (Hf1 Operations) by set_solver.
      eapply only_new. by rewrite E3, E2.
  - intros _. apply wp_bind, wp_raise_if; cbn [on_ok]; [|done]. intros _. left. by eexists _, _.
Qed.

Lemma validate_paused_wp task db :
  wp (_validate_paused_run task) (fun r db' => db' = db /\ match r with Ok _ => True | Raise e => is_http e end) db.
Proof.
  unfold _validate_paused_run. assert (Herr : forall s, is_http (Http 409 s)) by (intros s; by exists 409, s).
  destruct (negb _ || negb _); [by apply wp_ret|]. apply wp_bind, wp_find_one; cbn [on_ok]; cbv zeta.
  - intros lock _ _. destruct (negb (truthy _)); [by apply wp_raise|].
    apply wp_bind, wp_find_one; cbn [on_ok]; intros; apply wp_raise_if; intros _; by split.
  - intros _. destruct (negb (truthy _)); [by apply wp_ret|].
    apply wp_bind, wp_find_one; cbn [on_ok]; intros; apply wp_raise_if; intros _; by split.
Qed.

Lemma resume_waiting_wp c task resource db :
  one_task c db task -> task.["desiredState"] = PAUSED ->
  wp (resume_waiting c task resource) (fun r db' => match r with
    | Ok op => intent_recorded c RUNNING task db db' op
    | Raise e => is_http e \/ e = DuplicateKeyError /\ used_identifier c db end) db.
Proof.
  intros Hone Hpaused. unfold resume_waiting. cbv zeta. apply wp_bind. eapply wp_mono; [apply validate_paused_wp|].
  intros [[]|e] db1 [-> Hr]; cbn [on_ok]; [|by left].
  set (op := operation_of c RUNNING "resume-wait-device" PENDING).
  apply wp_bind, wp_update_many. intros db2 E2 Ho2. cbn [on_ok]. apply wp_bind, wp_insert; cbn [on_ok].
  2:{ intros d Hd Hc. right. split; [done|]. apply (clash_operation c op db2 d) in Hc; [|done|done].
      by apply (used_after_cancel c _ _ db db2 E2). }
  intros db3 _ E3 Ho3. assert (Hone3 : one_task c db3 task) by (apply (one_task_frame c db); [by rewrite Ho3, Ho2|done]).
  assert (Hops : forall o, o ∈ content db3 Operations -> o.["taskId"] = PStr (cr_task c) -> o.["status"] = PENDING ->
    o.["desiredState"] = RUNNING).
  { rewrite E3, E2. apply consistent_after; [|done]. intros d Hd Hs Hq.
    by rewrite (proj2 (fld_true _ _ _) Hd), (proj2 (fld_true _ _ _) Hs) in Hq. }
  apply wp_bind, wp_update_one; cbn [on_ok].
  2:{ intros Hno. exfalso. eapply one_task_present; [exact Hone3| |exact Hno]. cbn beta.
      destruct Hone as (? & ? & _ & _ & Hid). by rewrite (proj2 (fld_true _ _ _) Hid), (proj2 (fld_true _ _ _) Hpaused). }
  intros d db4 Hupd.
  set (f := set_all _) in Hupd. assert (Hf : (f task).["id"] = task.["id"] /\ (f task).["desiredState"] = RUNNING
    /\ (f task).["controlOperationId"] = PStr (cr_identifier c)
    /\ (f task).["resourceHealthRecovery"] = task.["resourceHealthRecovery"]).
  { unfold f. cbn [set_all foldl fst snd]. by dget. }
  destruct Hf as (Fid & Fd & Fc & Fh).
  destruct (one_task_update c _ _ _ _ _ _ Hone3 (fun x Hx => proj1 (fld_true x "id" _) (proj1 (andb_prop _ _ Hx)))
    Fid Hupd) as [-> Hone4]. destruct Hupd as (_ & _ & Ho4).
  assert (Hlast : forall db5, (forall k, k <> Resources -> content db5 k = content db4 k) ->
    wp (let! _ := audit (cr_context c) (cr_now c) (cr_user c).["id"] "control:RUNNING" (PStr (cr_task c)) in st_ret op)
      (fun r db' => match r with
        | Ok op => intent_recorded c RUNNING task db db' op
        | Raise e => is_http e \/ e = DuplicateKeyError /\ used_identifier c db end) db5).
  { intros db5 Ho5. apply wp_bind, wp_audit. intros a db6 Ea _ Ho6. cbn [on_ok]. apply wp_ret. split.
    - done.
    - rewrite Ho6, Ho5, Ho4, E3 by done. apply elem_of_middle.
    - intros o. rewrite Ho6, Ho5, Ho4 by done. apply Hops.
    - exists (f task). split; [apply (one_task_frame c db4); [by rewrite Ho6, Ho5|exact Hone4]|]. by split_and!.
    - exists a. by rewrite Ea, Ho5, Ho4, Ho3, Ho2 by done.
    - rewrite Ho6, Ho5, Ho4 by done. eapply only_new. by rewrite E3, E2. }
  apply wp_bind, wp_update_one; cbn [on_ok]; [intros x db5 (_ & _ & Ho5)|intros _]; by apply Hlast.
Qed.

Lemma previous_operation_wp task desired db :
  wp (_previous_operation task desired) (fun r db' => db' = db /\ match r with
    | Ok (Some p) => p ∈ content db Operations /\ p.["taskId"] = task.["id"]
        /\ (p.["status"] = PENDING \/ p.["status"] = SUCCEEDED /\ _reached task desired = true)
    | Ok None => True
    | Raise _ => False end) db.
Proof.
  unfold _previous_operation. destruct (negb _); [by apply wp_ret|].
  apply wp_bind, wp_find_one; cbn [on_ok]; [|intros _; by apply wp_ret].
  intros p Hp Hq. apply wp_ret. split; [done|]. apply andb_prop in Hq as [Hq _]. freflect.
  destruct (fld p "status" PENDING || _) eqn:E; [|done]. split_and!; [done|done|].
  apply orb_true_iff in E as [E|E]; freflect; auto.
Qed.

(** A replay: nothing was written but the versions. *)
Definition reused (c : control) (task : pydict) (db db' : database) (op : pydict) : Prop :=
  op ∈ content db Operations /\ op.["taskId"] = PStr (cr_task c)
  /\ (op.["status"] = PENDING \/ op.["status"] = SUCCEEDED /\ _reached task (cr_desired c) = true)
  /\ content db' Operations = content db Operations /\ content db' Audit = content db Audit
  /\ content db' Tasks = content db Tasks.

(** The outcome of the transaction on a database whose task is [task]. *)
Definition control_done (c : control) (task : pydict) (db : database) (r : result exn pydict) (db' : database) : Prop :=
  match r with
  | Ok op => reused c task db db' op \/ intent_recorded c (cr_desired c) task db db' op
  | Raise e => is_http e \/ e = DuplicateKeyError /\ used_identifier c db
  end.

Lemma control_done_resources c task db db0 r db' :
  only_resources db db0 -> control_done c task db0 r db' -> control_done c task db r db'.
Proof.
  intros Hf. destruct r as [op|e]; cbn.
  - intros [Hr|[H1 H2 H3 H4 H5 H6]]; [left|right].
    + unfold reused in *. by rewrite <- !Hf by done.
    + unfold used_identifier in *. rewrite (Hf Operations) in H6 by done.
      split; try done. by rewrite <- Hf by done.
  - intros [?|[? ?]]; [by left|right]. split; [done|]. unfold used_identifier in *. by rewrite <- Hf by done.
Qed.

Lemma control_intent_wp c task db :
  one_task c db task -> wp (control_intent c task) (control_done c task db) db.
Proof.
  intros Hone. unfold control_intent. cbv zeta. apply wp_bind.
  eapply (wp_mono _ (fun r db0 => only_resources db db0 /\ match r with Ok _ => True | Raise e => is_http e end)).
  { destruct (_ && _); [|by apply wp_ret]. eapply wp_mono; [apply guard_wp|]. intros [[]|e] db0 [Hf Hr]; [done|].
    split; [done|]. destruct Hr as (s & [-> | ->]); eexists _, _; reflexivity. }
  intros [[]|e] db0 [Hf Hr]; cbn [on_ok]; [|by left].
  assert (Hone0 : one_task c db0 task) by (apply (one_task_frame c db); [by apply Hf|done]).
  assert (Hid : task.["id"] = PStr (cr_task c)) by (destruct Hone as (? & ? & _ & _ & ?); done).
  eapply wp_mono; [|intros r db'; apply (control_done_resources c task db db0 r db' Hf)].
  apply wp_bind. eapply wp_mono; [apply previous_operation_wp|]. intros [prev|e] db1 [-> Hp]; [|done]. cbn [on_ok].
  assert (Hre : forall p, prev = Some p -> reused c task db0 db0 p).
  { intros p ->. destruct Hp as (? & ? & ?). unfold reused. split_and!; try done. congruence. }
  destruct (match prev with Some p => _ | None => false end) eqn:Eres.
  { apply wp_ret. left. destruct prev as [p|]; [|done]. by apply Hre. }
  apply wp_bind. destruct (_validate task (cr_desired c) (cr_require_paused c)) as [e|] eqn:Ev.
  { apply wp_raise. left. unfold _validate in Ev.
    repeat match type of Ev with context [if ?b then _ else _] => destruct b end; try done;
      injection Ev as <-; eexists _, _; reflexivity. }
  apply wp_ret. cbn [on_ok]. apply wp_bind.
  eapply (wp_mono _ (fun r db1 => db1 = db0 /\ match r with Ok _ => True | Raise e => is_http e end)).
  { destruct (negb _); [apply validate_paused_wp|by apply wp_ret]. }
  intros [[]|e] db1 [-> Hv]; cbn [on_ok]; [|by left].
  destruct prev as [p|]; [apply wp_ret; left; by apply Hre|].
  eapply wp_mono; [by apply record_intent_wp|]. intros [op|e] db' Hrec; [by right|exact Hrec].
Qed.

Definition claimed_task (desired : pyval) (d : pydict) : pydict :=
  if bool_decide (desired = STOPPED) then dict_unset (control_version d) "resourceHealthRecovery" else control_version d.

(** The transaction: replay or new operation, on the task as it was found. *)
Lemma control_commit_wp c db :
  NoDup (map (fun d => d.["id"]) (content db Tasks)) ->
  (cr_require_paused c = true -> cr_desired c = RUNNING) ->
  wp (control_commit c) (fun r db' => match r with
    | Ok op => exists d db0, d ∈ content db Tasks /\ d.["id"] = PStr (cr_task c)
        /\ (forall k, k <> Tasks -> content db0 k = content db k) /\ one_task c db0 (claimed_task (cr_desired c) d)
        /\ (only_resources db0 db' /\ op ∈ content db Operations /\ op.["taskId"] = PStr (cr_task c)
            /\ op.["status"] = PENDING
            \/ control_done c (claimed_task (cr_desired c) d) db0 (Ok op) db')
    | Raise e => is_http e \/ e = DuplicateKeyError /\ used_identifier c db end) db.
Proof.
  intros Hnd Hreq. unfold control_commit. cbv zeta. apply wp_bind, wp_update; cbn [on_ok].
  2:{ intros _. apply wp_raise. left. by eexists _, _. }
  intros d db0 (Hq & (l & r & E1 & E2) & Ho). apply fld_true in Hq.
  change (if bool_decide (cr_desired c = STOPPED) then dict_unset (control_version d) "resourceHealthRecovery"
          else control_version d) with (claimed_task (cr_desired c) d) in *.
  set (task := claimed_task (cr_desired c) d) in *.
  assert (Hid : task.["id"] = d.["id"]).
  { unfold task, claimed_task, control_version. destruct (bool_decide _); by dget. }
  assert (Hone : one_task c db0 task).
  { exists l, r. split_and!; [done| |by rewrite Hid]. rewrite E1, !map_app in *. cbn in *. by rewrite Hid. }
  assert (Hin : d ∈ content db Tasks) by (rewrite E1; apply elem_of_middle).
  assert (Hhttp : forall s t, is_http (Http s t) \/ Http s t = DuplicateKeyError /\ used_identifier c db) by
    (intros; left; by eexists _, _).
  apply wp_bind, authorize_task_operation_wp; cbn [on_ok]; [|intros _; apply Hhttp]. intros db1 Hf1.
  apply wp_bind, wp_raise_if; cbn [on_ok]; [intros _; apply Hhttp|intros _].
  apply wp_bind, wp_raise_if; cbn [on_ok]; [intros _; apply Hhttp|intros _].
  assert (Hone1 : one_task c db1 task) by (apply (one_task_frame c db0); [by apply Hf1|done]).
  assert (Hdone : forall r db', control_done c task db1 r db' -> match r with
    | Ok op => exists d db0, d ∈ content db Tasks /\ d.["id"] = PStr (cr_task c)
        /\ (forall k, k <> Tasks -> content db0 k = content db k) /\ one_task c db0 (claimed_task (cr_desired c) d)
        /\ (only_resources db0 db' /\ op ∈ content db Operations /\ op.["taskId"] = PStr (cr_task c)
            /\ op.["status"] = PENDING
            \/ control_done c (claimed_task (cr_desired c) d) db0 (Ok op) db')
    | Raise e => is_http e \/ e = DuplicateKeyError /\ used_identifier c db end).
  { intros res db' Hd. apply (control_done_resources c task db0) in Hd; [|done]. destruct res as [op|e].
    - exists d, db0. split_and!; try done. by right.
    - unfold used_identifier in *. cbn in Hd. unfold used_identifier in Hd. by rewrite Ho in Hd by done. }
  assert (Hrest : wp (let! resource := find_one Resources (fun d => fld d "id" task.["resourceId"] && fld d "deletedAt" PNone) in
          match resource with
          | Some resource =>
              if waits_for_device c task resource then resume_waiting c task resource else control_intent c task
          | None => control_intent c task
          end) (control_done c task db1) db1).
  { apply wp_bind, wp_find_one; cbn [on_ok]; [|intros _; by apply control_intent_wp]. intros resource _ _.
    destruct (waits_for_device c task resource) eqn:Ew; [|by apply control_intent_wp].
    unfold waits_for_device in Ew. freflect. eapply wp_mono; [by apply resume_waiting_wp|].
    intros [op|e] db' Hr; [|exact Hr]. right. rewrite Hreq by done. exact Hr. }
  apply wp_bind. destruct (cr_require_paused c && _).
  - apply wp_find_one; cbn [on_ok].
    + intros p Hp Hpq. freflect. apply wp_ret. exists d, db0. split_and!; try done. left.
      split_and!; [done| |done|done]. rewrite <- (Ho Operations), <- (Hf1 Operations) by done. done.
    + intros _. eapply wp_mono; [exact Hrest|exact Hdone].
  - apply wp_ret. cbn [on_ok]. eapply wp_mono; [exact Hrest|exact Hdone].
Qed.

(** C16: a control request that returns has an operation behind it.  Either it
    replays an operation of the task that is pending, or succeeded with the
    state really reached, and then writes no operation, audit event or intent;
    or one new operation and one audit event are stored, the task carries the
    intent and the operation's identifier, an operation marked succeeded means
    that the task has reached the state, no pending operation of the task
    contradicts the intent, and a stop has revoked the system's right to restart
    the task.  After an uncertain commit only a confirmed new operation is
    returned.  A request that raises changed nothing, unless the commit was
    applied without being confirmed. *)
Theorem request_control_recorded c f reread db :
  NoDup (map (fun d => d.["id"]) (content db Tasks)) ->
  (cr_require_paused c = true -> cr_desired c = RUNNING) -> ~ used_identifier c db ->
  let '(r, db') := request_control c f reread db in
  match r with
  | Ok op => exists d db0, d ∈ content db Tasks /\ d.["id"] = PStr (cr_task c)
      /\ (forall k, k <> Tasks -> content db0 k = content db k) /\ one_task c db0 (claimed_task (cr_desired c) d)
      /\ (f = Committed /\ only_resources db0 db' /\ op ∈ content db Operations /\ op.["taskId"] = PStr (cr_task c)
            /\ op.["status"] = PENDING
          \/ f = Committed /\ reused c (claimed_task (cr_desired c) d) db0 db' op
          \/ intent_recorded c (cr_desired c) (claimed_task (cr_desired c) d) db0 db' op)
  | Raise e => db' = db \/ (f = Uncertain true /\ e = Http 503 "任务控制提交结果未知，请查询任务与操作状态后再操作")
  end.
Proof.
  intros Hnd Hreq Hfresh. pose proof (control_commit_wp c db Hnd Hreq) as Hwp.
  unfold request_control, authorize, raise_if, st_bind. destruct (negb (has_scope _ _)); [by left|]. cbn.
  destruct (negb (bool_decide _)); [by left|].
  unfold st_catch, transaction, wp in *. destruct (control_commit c db) as [[op|e] db1].
  - destruct Hwp as (d & db0 & Hd & Hid & Ho & Hone & Hcase). destruct f as [|applied]; cbn.
    { exists d, db0. split_and!; try done. destruct Hcase as [Hc|[Hc|Hc]]; auto. }
    set (dbf := if applied then db1 else db). destruct reread; cbn; [|destruct applied; auto].
    unfold find_one, st_bind. pose proof (find_one_law (fun d => fld d "id" (PStr (cr_identifier c))
      && fld d "taskId" (PStr (cr_task c)) && fld d "actor" (cr_user c).["id"]
      && fld d "desiredState" (cr_desired c) && fld d "action" (PStr (action_of c))) (dbf Operations)) as L.
    destruct (coll_find_one _ _) as [o|]; cbn; [|unfold dbf; destruct applied; auto].
    destruct L as [Hin Hq]. freflect. change (docs (dbf Operations)) with (content dbf Operations) in Hin.
    unfold dbf in *. destruct applied; [|exfalso; apply Hfresh; by exists o].
    exists d, db0. split_and!; try done. do 2 right.
    assert (Hops : content db1 Operations = content db Operations -> False).
    { intros E. apply Hfresh. exists o. split; [by rewrite <- E|done]. }
    destruct Hcase as [(Hc & _)|[Hc|Hc]].
    + exfalso. apply Hops. rewrite Hc, Ho by done. done.
    + exfalso. apply Hops. destruct Hc as (_ & _ & _ & Hc & _). rewrite Hc, Ho by done. done.
    + destruct (ir_only _ _ _ _ _ _ Hc o Hin) as [->|Hu]; [done|exact Hc|].
      exfalso. apply Hfresh. destruct Hu as (x & Hx & Hxid). exists x. split; [by rewrite <- Ho|done].
  - destruct Hwp as [(s & t & ->)|[-> Hu]]; [by left|]. done.
Qed.

(** The confirming read after an uncertain commit looks for the action
    "resume", but the operation of a resume that waits for the device is stored
    with the action "resume-wait-device": even when the transaction was applied
    the request answers that the outcome is unknown. *)
Theorem resume_wait_never_confirmed c db op db1 :
  cr_require_paused c = true -> ~ used_identifier c db -> NoDup (map (fun d => d.["id"]) (content db Tasks)) ->
  cr_desired c = RUNNING -> has_scope (cr_user c) "tasks:control" = true ->
  control_commit c db = (Ok op, db1) -> op.["action"] = PStr "resume-wait-device" -> op.["id"] = PStr (cr_identifier c) ->
  op ∈ content db1 Operations
  /\ request_control c (Uncertain true) true db
     = (Raise (Http 503 "任务控制提交结果未知，请查询任务与操作状态后再操作"), db1).
Proof.
  intros Hreq Hfresh Hnd Hdes Hscope E Hact Hid. pose proof (control_commit_wp c db Hnd (fun _ => Hdes)) as Hwp.
  unfold wp in Hwp. rewrite E in Hwp. destruct Hwp as (d & db0 & Hd & Hdid & Ho & Hone & Hcase).
  assert (Hrec : intent_recorded c (cr_desired c) (claimed_task (cr_desired c) d) db0 db1 op).
  { destruct Hcase as [(_ & Hin & _)|[(Hin & _)|Hc]]; [| |done]; exfalso; apply Hfresh; exists op; split; try done.
    by rewrite <- Ho. }
  split; [apply Hrec|]. unfold request_control, authorize, raise_if, st_bind. rewrite Hscope, Hdes. cbn.
  rewrite bool_decide_true by by left. cbn. unfold st_catch, transaction. rewrite E. cbn.
  unfold st_bind, find_one, action_of. rewrite Hreq.
  match goal with |- context [coll_find_one ?q ?x] => pose proof (find_one_law q x) as L; destruct (coll_find_one q x) as [o|] end;
    [exfalso|done].
  destruct L as [Hin Hq]. freflect. change (docs (db1 Operations)) with (content db1 Operations) in Hin.
  destruct (ir_only _ _ _ _ _ _ Hrec o Hin) as [->|(x & Hx & Hxid)]; [done|congruence|].
  apply Hfresh. exists x. split; [by rewrite <- Ho|done].
Qed.
End control.

(** ** Witnesses *)

#[local] Existing Instance list_mongo.
#[local] Existing Instance list_mongo_laws.

Definition paused_task : pydict :=
  [("id", PStr "t"); ("createdBy", PStr "u"); ("desiredState", PAUSED); ("status", PAUSED); ("runId", PStr "r");
   ("resourceId", PStr "dev"); ("protocol", PStr "SSH"); ("resourceHealthRecovery", PDict [("reason", PStr "OFFLINE")])].

Definition paused_db : database := fun c =>
  match c with
  | Tasks => [paused_task]
  | Resources => [[("id", PStr "dev"); ("kind", PStr "HIKVISION_NETWORK"); ("healthStatus", PStr "ONLINE")]]
  | EndpointLocks => [[("taskId", PStr "t"); ("runId", PStr "r")]]
  | Runs => [[("id", PStr "r"); ("taskId", PStr "t")]]
  | _ => []
  end.

Definition sample_user : pydict := [("id", PStr "u"); ("scopes", PList [PStr "tasks:control"])].

Definition stop_request : control := Control "t" STOPPED sample_user false "op1" 10 [].
Definition resume_request : control := Control "t" RUNNING sample_user true "op1" 10 [].

Lemma request_control_recorded_witness :
  exists op db', request_control stop_request Committed true paused_db = (Ok op, db')
    /\ op.["status"] = SUCCEEDED
    /\ exists t, t ∈ content db' Tasks /\ t.["status"] = STOPPED /\ t.["resourceHealthRecovery"] = PNone.
Proof.
  assert (Hnd : NoDup (map (fun d => d.["id"]) (content paused_db Tasks))) by apply NoDup_singleton.
  assert (Hfresh : ~ used_identifier stop_request paused_db) by (intros (x & Hx & _); by apply elem_of_nil in Hx).
  assert (Hreq : cr_require_paused stop_request = true -> cr_desired stop_request = RUNNING) by done.
  pose proof (request_control_recorded stop_request Committed true paused_db Hnd Hreq Hfresh) as Hp.
  destruct (request_control stop_request Committed true paused_db) as [r db'] eqn:E.
  assert (Hr : r = (request_control stop_request Committed true paused_db).1) by by rewrite E.
  vm_compute in Hr. subst r. eexists _, db'. split; [reflexivity|]. split; [reflexivity|].
  destruct Hp as (d & db0 & Hd & _ & _ & _ & Hcase). apply list_elem_of_singleton in Hd. subst d.
  destruct Hcase as [(_ & _ & Hin & _)|[(_ & _ & _ & Hst & _)|Hrec]].
  - exfalso. apply Hfresh. eexists. split; [exact Hin|reflexivity].
  - exfalso. destruct Hst as [Hst|[_ Hst]]; vm_compute in Hst; discriminate.
  - destruct (ir_intent _ _ _ _ _ _ Hrec) as (t & (l & r & El & _) & _ & _ & Hrev & Hreached).
    exists t. split; [rewrite El; apply elem_of_middle|]. split; [|rewrite Hrev; reflexivity].
    specialize (Hreached eq_refl). change (fld t "status" STOPPED && fld t "nodeId" PNone = true) in Hreached.
    by freflect.
Defined.

Lemma resume_wait_never_confirmed_witness :
  exists op db1, control_commit resume_request paused_db = (Ok op, db1)
    /\ op ∈ content db1 Operations
    /\ request_control resume_request (Uncertain true) true paused_db
       = (Raise (Http 503 "任务控制提交结果未知，请查询任务与操作状态后再操作"), db1).
Proof.
  destruct (control_commit resume_request paused_db) as [r db1] eqn:E.
  assert (Hr : r = (control_commit resume_request paused_db).1) by by rewrite E.
  vm_compute in Hr. subst r. eexists _, db1. split; [reflexivity|].
  apply resume_wait_never_confirmed; try reflexivity; [|apply NoDup_singleton|exact E].
  intros (x & Hx & _). by apply elem_of_nil in Hx.
Defined.
