(* ===== verification/SshSlots.v ===== *)
(** * SSH connection slots ([collection/ssh_admission.py])

    A device accepts five SSH connections per endpoint.  One document per
    endpoint holds the claims of all Workers; an update that requires room adds
    a claim.  A claim whose write is uncertain is fenced by the endpoint's
    admission epoch before it is taken back. *)

From Stdlib Require Import Ascii.
From stdpp Require Import pretty.
From S2P Require Import Prelude PyTime PyValue Mongo Ownership.
Open Scope camera_scope.

Definition MAX_SSH_CONNECTIONS_PER_DEVICE : nat := 5.
Definition _INITIAL_UPSERT_RETRIES : nat := 3.

(** `str(ip_address(text.strip()))` and `int(text)`: [None] is `ValueError`. *)
Class AddressText := { normal_address : string -> option string; int_of_str : string -> option Z }.

(** `int(value)`: [None] is `TypeError` or `ValueError`. *)
Definition py_int `{AddressText} (v : pyval) : option Z :=
  match v with
  | PInt z => Some z
  | PBool b => Some (if b then 1 else 0)
  | PFloat (Fin q) => Some (if Qle_bool 0 q then Qfloor q else Qceiling q)
  | PStr s => int_of_str s
  | _ => None
  end.

(** `str(value)` of a scalar identifier. *)
Definition str_of (v : pyval) : string := match v with PStr s => s | PInt z => pretty z | _ => "None" end.

Definition has_colon (s : string) : bool := existsb (fun a => Ascii.eqb a ":"%char) (String.list_ascii_of_string s).

Section slots.
Context `{AddressText} `{Mongo}.

(** [normalize_ssh_address], [normalize_ssh_endpoint]. *)
Definition normalize_ssh_address (value : pyval) : option string := normal_address (str_of value).

Definition normalize_ssh_endpoint (value port : pyval) : option string :=
  address ← normalize_ssh_address value;
  number ← py_int port;
  if negb ((1 <=? number) && (number <=? 65535)) then None
  else if number =? 22 then Some address
  else Some (if has_colon address then "[" +:+ address +:+ "]:" +:+ pretty number else address +:+ ":" +:+ pretty number).

Definition task_endpoint (task : pydict) : option string :=
  normalize_ssh_endpoint task.["ip"] (dict_get_or task "port" (PInt 22)).

(** [_owner]: [None] when an identity field is missing or the port is no number. *)
Definition _owner (task : pydict) (token : string) (epoch : option Z) (now : Z) : option pydict :=
  if existsb (fun k => fld task k PNone) ["id"; "runId"; "generation"; "nodeId"] then None
  else
    port ← py_int (dict_get_or task "port" (PInt 22));
    let claim := [("taskId", PStr (str_of task.["id"])); ("runId", PStr (str_of task.["runId"]));
      ("generation", task.["generation"]); ("nodeId", PStr (str_of task.["nodeId"])); ("token", PStr token);
      ("port", PInt port); ("claimedAt", PTime (Aware now))] in
    Some match epoch with Some e => claim ++ [("admissionEpoch", PInt e)] | None => claim end.

(** The claims of an endpoint document. *)
Definition claims_of (d : pydict) : list pyval := match d.["claims"] with PList l => l | _ => [] end.

(** [_epoch_filter]. *)
Definition _epoch_filter (endpoint : string) (epoch : Z) (d : pydict) : bool :=
  fld d "_id" (PStr endpoint)
  && (fld d "admissionEpoch" (PInt epoch) || ((epoch =? 0) && absent d "admissionEpoch")).

(** `$elemMatch`, `$pull`: a claim with all the fields of [pattern]. *)
Definition claim_matches (pattern : pydict) (claim : pyval) : bool :=
  match claim with PDict c => forallb (fun kv => fld c kv.1 kv.2) pattern | _ => false end.

Definition pull (pattern : pydict) (now : Z) (d : pydict) : pydict :=
  set_all [("claims", PList (filter (fun c => claim_matches pattern c = false) (claims_of d)));
           ("updatedAt", PTime (Aware now))] d.

(** `int(state.get("admissionEpoch", 0)) if state else 0`: [None] is `TypeError` or
    `ValueError`, which leaves [acquire]. *)
Definition stored_epoch (state : option pydict) : option Z :=
  match state with Some d => py_int (dict_get_or d "admissionEpoch" (PInt 0)) | None => Some 0 end.

(** The conditional push, an upsert: a document that does not match makes the
    insertion a duplicate. *)
Definition push_claim (endpoint : string) (epoch : Z) (claim : pydict) (now : Z) : dbm pydict :=
  let changes := [("updatedAt", PTime (Aware now)); ("admissionEpoch", PInt epoch)] in
  let! slot := find_one_and_update SshSlots
    (fun d => _epoch_filter endpoint epoch d && (length (claims_of d) <=? MAX_SSH_CONNECTIONS_PER_DEVICE - 1)%nat)
    (fun d => set_all (("claims", PList (claims_of d ++ [PDict claim])) :: changes) d) in
  match slot with
  | Some d => st_ret d
  | None =>
      let fresh := [("_id", PStr endpoint); ("claims", PList [PDict claim])] ++ changes in
      let! _ := insert_one SshSlots fresh in
      st_ret fresh
  end.

(** ** [SshAdmission] *)

Record admission := Admission {
  ad_task : pydict; ad_endpoint : string; ad_claim : option pydict; ad_uncertain : bool }.

(** How the driver answers an attempt: as computed, with an error of the read,
    or with an error of the write, which may have been applied. *)
Inductive answer : Type := Answered | LostRead | LostWrite (applied : bool).

Inductive slot_error : Type := CapacityError | SlotUncertain (token : string) (epoch : option Z) | OwnerInvalid | EpochInvalid.

Definition token_of (claim : pydict) : string := text claim.["token"].

(** The attempts of [acquire]: [env] is what other Workers do between the read
    of the epoch and the write.  [claim] and [epoch] are the loop's variables. *)
Fixpoint acquire_loop (attempts : nat) (a : admission) (token : string) (claim : pydict) (epoch : option Z) (now : Z)
    (env : nat -> database -> database) (io : nat -> answer) (db : database)
  : result slot_error string * admission * database :=
  match attempts with
  | O => (Raise CapacityError, a, db)
  | S attempts =>
      let uncertain claim epoch db :=
        (Raise (SlotUncertain token epoch), Admission (ad_task a) (ad_endpoint a) (Some claim) true, db) in
      match io attempts with
      | LostRead => uncertain claim epoch db
      | write =>
          match stored_epoch (coll_find_one (fun d => fld d "_id" (PStr (ad_endpoint a))) (db SshSlots)) with
          | None => (Raise EpochInvalid, a, db)
          | Some epoch =>
          match _owner (ad_task a) token (Some epoch) now with
          | None => (Raise OwnerInvalid, a, db)
          | Some claim =>
              let db := env attempts db in
              let '(r, db') := push_claim (ad_endpoint a) epoch claim now db in
              match write, r with
              | LostWrite applied, _ => uncertain claim (Some epoch) (if applied then db' else db)
              | _, Ok _ => (Ok token, Admission (ad_task a) (ad_endpoint a) (Some claim) (ad_uncertain a), db')
              | _, Raise _ =>
                  match attempts with
                  | O => (Raise CapacityError, a, db')
                  | _ => acquire_loop attempts a token claim (Some epoch) now env io db'
                  end
              end
          end
          end
      end
  end.

(** [acquire]; [token] is the fresh identifier. *)
Definition acquire (a : admission) (token : string) (now : Z) (env : nat -> database -> database) (io : nat -> answer)
    (db : database) : result slot_error string * admission * database :=
  if ad_uncertain a
  then (Raise (SlotUncertain match ad_claim a with Some c => token_of c | None => "" end None), a, db)
  else
    match ad_claim a with
    | Some c => (Ok (token_of c), a, db)
    | None =>
        match _owner (ad_task a) token None now with
        | None => (Raise OwnerInvalid, a, db)
        | Some claim => acquire_loop _INITIAL_UPSERT_RETRIES a token claim None now env io db
        end
    end.

(** [release]; an error, cancellation included, keeps the claim and marks it
    uncertain. *)
Definition release (a : admission) (now : Z) (io : answer) (db : database) : result slot_error bool * admission * database :=
  match ad_claim a with
  | None => (Ok false, a, db)
  | Some claim =>
      let '(r, db') := update_one SshSlots
        (fun d => fld d "_id" (PStr (ad_endpoint a)) && existsb (claim_matches claim) (claims_of d)) (pull claim now) db in
      match io with
      | Answered => (Ok (match r with Ok b => b | Raise _ => false end), Admission (ad_task a) (ad_endpoint a) None false, db')
      | LostRead => (Raise (SlotUncertain (token_of claim) None), Admission (ad_task a) (ad_endpoint a) (Some claim) true, db)
      | LostWrite applied =>
          (Raise (SlotUncertain (token_of claim) None), Admission (ad_task a) (ad_endpoint a) (Some claim) true,
           if applied then db' else db)
      end
  end.

(** [reconcile_preconnect_uncertain_slot], its two writes: fence, then pull. *)
Definition fence (endpoint : string) (now : Z) : dbm unit :=
  upsert_one SshSlots (fun d => fld d "_id" (PStr endpoint))
    (fun d => set_all [("updatedAt", PTime (Aware now))] (dict_inc "admissionEpoch" 1 d))
    [("_id", PStr endpoint); ("admissionEpoch", PInt 1); ("updatedAt", PTime (Aware now))].

Definition exact_claim (claim : pydict) : pydict := filter (fun kv => kv.1 <> "claimedAt") claim.

Definition reconcile (task : pydict) (token : string) (epoch : option Z) (now : Z) : dbm bool :=
  match task_endpoint task, _owner task token epoch now with
  | Some endpoint, Some claim =>
      st_catch
        (let! _ := fence endpoint now in
         let! _ := update_one SshSlots (fun d => fld d "_id" (PStr endpoint)) (pull (exact_claim claim) now) in
         st_ret true)
        (fun e => if is_pymongo e then Some (st_raise (SshSlotUncertain token)) else None)
  | _, _ => st_raise (ValueError "SSH")
  end.

(** [release_task_slots]: every claim of the run and generation. *)
Definition release_task_slots (task : pydict) (now : Z) : dbm Z :=
  if existsb (fun k => fld task k PNone) ["id"; "runId"; "generation"]
  then st_raise (ValueError "释放 SSH 名额需要任务、运行和代次身份")
  else
    let owner := [("taskId", PStr (str_of task.["id"])); ("runId", PStr (str_of task.["runId"]));
                  ("generation", task.["generation"])] in
    update_many SshSlots (fun d => existsb (claim_matches owner) (claims_of d)) (pull owner now).

(** ** Properties *)

Context `{!MongoLaws}.

(** Never more claims than the device accepts. *)
Definition slots_inv (db : database) : Prop :=
  forall d, d ∈ content db SshSlots -> (length (claims_of d) <= MAX_SSH_CONNECTIONS_PER_DEVICE)%nat.

Definition held (endpoint : string) (claim : pydict) (db : database) : Prop :=
  exists d, d ∈ content db SshSlots /\ d.["_id"] = PStr endpoint /\ PDict claim ∈ claims_of d.

Lemma claims_of_set l d rest :
  claims_of (set_all (("claims", PList l) :: [("updatedAt", rest)]) d) = l.
Proof. unfold claims_of. cbn [set_all foldl fst snd]. by dget. Qed.

Lemma pull_claims pattern now d :
  claims_of (pull pattern now d) = filter (fun c => claim_matches pattern c = false) (claims_of d).
Proof. apply claims_of_set. Qed.

Lemma push_claim_wp endpoint epoch claim now db :
  slots_inv db -> wp (push_claim endpoint epoch claim now) (fun r db' => slots_inv db' /\ match r with
    | Ok _ => held endpoint claim db'
    | Raise e => e = DuplicateKeyError /\ db' = db end) db.
Proof.
  intros Hinv. unfold push_claim. cbv zeta. apply wp_bind, wp_update; cbn [on_ok].
  - intros d db' (Hq & (l & r & E1 & E2) & _). apply wp_ret. apply andb_prop in Hq as [He Hl].
    unfold _epoch_filter in He. apply andb_prop in He as [Hid _]. apply fld_true in Hid.
    apply Nat.leb_le in Hl. set (d' := set_all _ d) in *.
    assert (Hc : claims_of d' = claims_of d ++ [PDict claim] /\ d'.["_id"] = PStr endpoint).
    { unfold d', claims_of at 1. cbn [set_all foldl fst snd]. by dget. }
    destruct Hc as [Hc Hid']. split.
    + intros x Hx. rewrite E2 in Hx. apply elem_of_app in Hx as [Hx|[->|Hx]%elem_of_cons].
      * apply Hinv. rewrite E1. apply elem_of_app. by left.
      * rewrite Hc, length_app. unfold MAX_SSH_CONNECTIONS_PER_DEVICE in *. cbn [length]. lia.
      * apply Hinv. rewrite E1. apply elem_of_app. right. by right.
    + exists d'. rewrite E2, Hc. split_and!; [apply elem_of_middle|done|]. apply elem_of_app. right. by left.
  - intros _. apply wp_bind, wp_insert; cbn [on_ok].
    + intros db' _ E _. apply wp_ret. split.
      * intros x Hx. rewrite E in Hx. apply elem_of_app in Hx as [Hx|Hx%list_elem_of_singleton]; [by apply Hinv|].
        subst x. apply Nat.leb_le. reflexivity.
      * eexists. rewrite E. split; [apply elem_of_middle|]. split; [reflexivity|]. by left.
    + by intros.
Qed.

Lemma owner_token task token epoch now c : _owner task token epoch now = Some c -> token_of c = token.
Proof.
  unfold _owner. destruct (existsb _ _); [done|]. destruct (py_int _); [|done]. cbn. intros [= <-]. by destruct epoch.
Qed.

(** What the caller learns from [acquire]. *)
Definition acquired (a : admission) (r : result slot_error string) (a' : admission) (db' : database) : Prop :=
  slots_inv db' /\ match r with
  | Ok t => exists claim, ad_claim a' = Some claim /\ token_of claim = t /\ held (ad_endpoint a) claim db'
  | Raise (SlotUncertain t _) => ad_uncertain a' = true /\ exists claim, ad_claim a' = Some claim /\ token_of claim = t
  | Raise _ => a' = a
  end.

Lemma acquire_loop_ok attempts : forall a token claim epoch now env io db,
  (forall n db, slots_inv db -> slots_inv (env n db)) -> slots_inv db -> token_of claim = token ->
  let '(r, a', db') := acquire_loop attempts a token claim epoch now env io db in acquired a r a' db'.
Proof.
  induction attempts as [|n IH]; intros a token claim epoch now env io db Henv Hinv Htok; [done|]. cbn [acquire_loop].
  assert (Hunc : forall claim e db, slots_inv db -> token_of claim = token ->
    acquired a (Raise (SlotUncertain token e)) (Admission (ad_task a) (ad_endpoint a) (Some claim) true) db).
  { intros c e db1 ? ?. split; [done|]. split; [done|]. by exists c. }
  destruct (stored_epoch _) as [e0|]; [|by destruct (io n); [|apply Hunc|]].
  destruct (_owner (ad_task a) token (Some e0) now) as [c|] eqn:Eo.
  2:{ destruct (io n); [done|by apply Hunc|done]. }
  apply owner_token in Eo. specialize (Henv n db Hinv) as He.
  pose proof (push_claim_wp (ad_endpoint a) e0 c now (env n db) He) as Hp. unfold wp in Hp.
  destruct (push_claim (ad_endpoint a) e0 c now (env n db)) as [pr db1]. destruct Hp as [Hi Hp].
  destruct (io n) as [| |applied].
  - destruct pr as [d|x].
    + split; [done|]. by exists c.
    + destruct n as [|n']; [done|]. by apply IH.
  - by apply Hunc.
  - apply Hunc; [by destruct applied|done].
Qed.

(** C35: at most five claims per endpoint, with any number of Workers.  If the
    other Workers keep the bound, [acquire] keeps it; a returned token is that
    of a claim stored on the endpoint; after an uncertain write the object keeps
    the claim and every later [acquire] refuses without writing, so a second
    claim is never pushed; other failures leave the object as it was. *)
Theorem ssh_slots_bounded a token now env io db :
  (forall n db, slots_inv db -> slots_inv (env n db)) -> slots_inv db -> ad_claim a = None -> ad_uncertain a = false ->
  let '(r, a', db') := acquire a token now env io db in
  acquired a r a' db'
  /\ (forall t e, r = Raise (SlotUncertain t e) -> forall token' now' env' io' db2,
        acquire a' token' now' env' io' db2 = (Raise (SlotUncertain t None), a', db2)).
Proof.
  intros Henv Hinv Hc Hu. unfold acquire at 1. rewrite Hu, Hc.
  destruct (_owner (ad_task a) token None now) as [claim|] eqn:Eo; [|by split_and!].
  apply owner_token in Eo.
  pose proof (acquire_loop_ok _INITIAL_UPSERT_RETRIES a token claim None now env io db Henv Hinv Eo) as Hl.
  destruct (acquire_loop _ _ _ _ _ _ _ _ _) as [[r a'] db']. split; [done|].
  intros t e -> token' now' env' io' db2. destruct Hl as (_ & Hun & c & Hcl & Ht).
  unfold acquire. by rewrite Hun, Hcl, Ht.
Qed.

(** The document of the endpoint, if any, is not behind [epoch]. *)
Definition not_behind (endpoint : string) (epoch : Z) (db : database) : Prop :=
  (forall d, d ∈ content db SshSlots -> d.["_id"] = PStr endpoint -> epoch <= default 0 (as_int d.["admissionEpoch"]))
  /\ (no_match (fun d => fld d "_id" (PStr endpoint)) (content db SshSlots) -> epoch <= 0).

(** The endpoint's only document is beyond [epoch]. *)
Definition beyond (endpoint : string) (epoch : Z) (db : database) : Prop :=
  NoDup (map (fun d => d.["_id"]) (content db SshSlots))
  /\ exists d e, d ∈ content db SshSlots /\ d.["_id"] = PStr endpoint /\ d.["admissionEpoch"] = PInt e /\ epoch < e.

Lemma unique_by_id {A} (g : A -> pyval) (l : list A) x y : NoDup (map g l) -> x ∈ l -> y ∈ l -> g x = g y -> x = y.
Proof.
  induction l as [|z l IH]; cbn; intros Hnd Hx Hy He; [by apply elem_of_nil in Hx|].
  apply NoDup_cons in Hnd as [Hn Hnd]. apply elem_of_cons in Hx as [->|Hx]; apply elem_of_cons in Hy as [->|Hy].
  - done.
  - exfalso. apply Hn. apply list_elem_of_fmap. exists y. by split.
  - exfalso. apply Hn. apply list_elem_of_fmap. exists x. by split.
  - by apply IH.
Qed.

Lemma fence_wp endpoint epoch now db :
  NoDup (map (fun d => d.["_id"]) (content db SshSlots)) -> not_behind endpoint epoch db ->
  wp (fence endpoint now) (fun r db' => match r with Ok _ => beyond endpoint epoch db' | Raise _ => True end) db.
Proof.
  intros Hnd [Hb Hb0]. unfold fence, upsert_one. apply wp_bind, wp_update_one; cbn [on_ok].
  - intros d db' (Hq & (l & r & E1 & E2) & _). apply wp_ret. apply fld_true in Hq.
    assert (Hd : d ∈ content db SshSlots) by (rewrite E1; apply elem_of_middle). specialize (Hb d Hd Hq).
    set (d' := set_all _ _) in E2. assert (Hf : d'.["_id"] = d.["_id"]
      /\ d'.["admissionEpoch"] = PInt (default 0 (as_int d.["admissionEpoch"]) + 1)).
    { unfold d', dict_inc. cbn [set_all foldl fst snd]. by dget. }
    destruct Hf as [Hf1 Hf2]. split.
    + rewrite E2. rewrite E1 in Hnd. rewrite !map_app in *. cbn in *. by rewrite Hf1.
    + exists d', (default 0 (as_int d.["admissionEpoch"]) + 1). rewrite E2, Hf1. split_and!; [apply elem_of_middle|done|done|lia].
  - intros Hno. specialize (Hb0 Hno). apply wp_insert; [|done]. intros db' _ E _. split.
    + rewrite E, map_app. apply NoDup_app. split_and!; [done| |apply NoDup_singleton].
      intros x Hx Hx'. cbn in Hx'. apply list_elem_of_singleton in Hx'. subst x.
      apply list_elem_of_fmap in Hx as (d & Hd & Hin). specialize (Hno d Hin). apply fld_false in Hno. by apply Hno.
    + eexists _, 1. rewrite E. split_and!; [apply elem_of_middle|reflexivity|reflexivity|lia].
Qed.

Lemma exact_matches task token epoch now now' c c' :
  _owner task token epoch now = Some c -> _owner task token epoch now' = Some c' ->
  claim_matches (exact_claim c') (PDict c) = true.
Proof.
  unfold _owner. destruct (existsb _ _); [done|]. destruct (py_int _); [|done]. cbn [mbind option_bind].
  intros [= <-] [= <-]. cbn [claim_matches]. apply forallb_forall. intros kv Hin. apply list_elem_of_In in Hin.
  unfold exact_claim in Hin. apply list_elem_of_filter in Hin as [Hne Hin].
  destruct epoch; cbn [app] in Hin; rewrite !elem_of_cons, elem_of_nil in Hin;
    repeat (destruct Hin as [->|Hin]; [first [by exfalso; apply Hne|by apply fld_true]|]); done.
Qed.

Lemma pull_wp endpoint epoch pattern claim now db :
  beyond endpoint epoch db -> claim_matches pattern (PDict claim) = true ->
  wp (let! _ := update_one SshSlots (fun d => fld d "_id" (PStr endpoint)) (pull pattern now) in st_ret true)
    (fun _ db' => beyond endpoint epoch db' /\ ~ held endpoint claim db') db.
Proof.
  intros (Hnd & d0 & e & Hd0 & Hid0 & He & Hlt) Hm. apply wp_bind, wp_update_one; cbn [on_ok].
  - intros d db' (Hq & (l & r & E1 & E2) & _). apply wp_ret. apply fld_true in Hq.
    assert (Hd : d ∈ content db SshSlots) by (rewrite E1; apply elem_of_middle).
    assert (d0 = d) as -> by (apply (unique_by_id (fun d => d.["_id"]) _ _ _ Hnd); [done|done|congruence]).
    assert (Hf : (pull pattern now d).["_id"] = PStr endpoint /\ (pull pattern now d).["admissionEpoch"] = PInt e).
    { unfold pull. cbn [set_all foldl fst snd]. by dget. }
    destruct Hf as [Hf1 Hf2].
    assert (Hnd' : NoDup (map (fun d => d.["_id"]) (content db' SshSlots))).
    { rewrite E2. rewrite E1 in Hnd. rewrite !map_app in *. cbn in *. by rewrite Hf1, <- Hq. }
    assert (Hin : pull pattern now d ∈ content db' SshSlots) by (rewrite E2; apply elem_of_middle).
    split; [split; [done|by exists (pull pattern now d), e]|].
    intros (x & Hx & Hxid & Hc).
    assert (x = pull pattern now d) as -> by (apply (unique_by_id (fun d => d.["_id"]) _ _ _ Hnd'); [done|done|congruence]).
    rewrite pull_claims, list_elem_of_filter in Hc. destruct Hc as [Hc _]. congruence.
  - intros Hno. exfalso. specialize (Hno d0 Hd0). by apply fld_false in Hno.
Qed.

(** An uncertain claim is taken back for good.  After a reconciliation that
    returned, the claim is not stored on the endpoint, and a write of the
    uncertain attempt that arrives later, bound to the epoch it had read, is
    refused without changing anything. *)
Theorem reconcile_fences task token epoch now now0 db db1 endpoint claim :
  task_endpoint task = Some endpoint -> _owner task token (Some epoch) now0 = Some claim ->
  NoDup (map (fun d => d.["_id"]) (content db SshSlots)) -> not_behind endpoint epoch db ->
  reconcile task token (Some epoch) now db = (Ok true, db1) ->
  ~ held endpoint claim db1
  /\ forall late, push_claim endpoint epoch claim late db1 = (Raise DuplicateKeyError, db1).
Proof.
  intros He Ho Hnd Hb Hrec. unfold reconcile in Hrec. rewrite He in Hrec.
  destruct (_owner task token (Some epoch) now) as [claim'|] eqn:Eo'; [|done].
  pose proof (exact_matches _ _ _ _ _ _ _ Ho Eo') as Hm.
  assert (Hwp : wp (let! _ := fence endpoint now in
         let! _ := update_one SshSlots (fun d => fld d "_id" (PStr endpoint)) (pull (exact_claim claim') now) in
         st_ret true) (fun r db' => match r with
           | Ok _ => beyond endpoint epoch db' /\ ~ held endpoint claim db' | Raise _ => True end) db).
  { apply wp_bind. eapply wp_mono; [by apply fence_wp|]. intros [[]|x] db' Hf; [|done]. cbn [on_ok].
    eapply wp_mono; [by apply pull_wp|]. intros [?|?] db2 ?; done. }
  unfold wp, st_catch in *. destruct (st_bind _ _ db) as [[b|x] db2].
  2:{ destruct (is_pymongo x); cbn in Hrec; done. }
  injection Hrec as _ ->. destruct Hwp as [(Hnd1 & d & e & Hd & Hid & Hep & Hlt) Hh]. split; [done|]. intros late.
  unfold push_claim, st_bind, find_one_and_update. pose proof (update_law
    (fun d => _epoch_filter endpoint epoch d && (length (claims_of d) <=? MAX_SSH_CONNECTIONS_PER_DEVICE - 1)%nat)
    (fun d => set_all (("claims", PList (claims_of d ++ [PDict claim]))
       :: [("updatedAt", PTime (Aware late)); ("admissionEpoch", PInt epoch)]) d) (db1 SshSlots)) as L.
  destruct (coll_update _ _ _) as [[y c']|].
  - exfalso. destruct L as (l & x & r & El & Hq & _). apply andb_prop in Hq as [Hq _]. unfold _epoch_filter in Hq.
    apply andb_prop in Hq as [Hxid Hxe]. apply fld_true in Hxid.
    assert (x = d) as ->.
    { apply (unique_by_id (fun d => d.["_id"]) _ _ _ Hnd1); [|done|congruence]. unfold content. rewrite El. apply elem_of_middle. }
    apply orb_true_iff in Hxe as [Hxe|Hxe].
    + apply fld_true in Hxe. rewrite Hep in Hxe. injection Hxe as ->. lia.
    + apply andb_prop in Hxe as [_ Hxe]. unfold absent in Hxe. unfold dict_get in Hep. by destruct (dict_lookup d "admissionEpoch").
  - unfold insert_one. pose proof (insert_law (clash SshSlots) ([("_id", PStr endpoint); ("claims", PList [PDict claim])]
      ++ [("updatedAt", PTime (Aware late)); ("admissionEpoch", PInt epoch)]) (db1 SshSlots)) as L2.
    destruct (coll_insert _ _ _) as [c'|]; [|done]. exfalso. destruct L2 as [L2 _]. specialize (L2 d Hd).
    unfold clash in L2. cbn in L2. rewrite andb_true_r in L2. apply fld_false in L2. by apply L2.
Qed.
End slots.

(** ** Witnesses *)

#[local] Instance sample_text : AddressText := {| normal_address := Some; int_of_str _ := None |}.
#[local] Existing Instance list_mongo.
#[local] Existing Instance list_mongo_laws.

Definition ssh_task : pydict :=
  [("id", PStr "t"); ("runId", PStr "r"); ("generation", PInt 1); ("nodeId", PStr "n"); ("ip", PStr "10.0.0.1");
   ("port", PInt 22)].

Definition no_slots : database := fun _ => [].

Lemma no_slots_inv : slots_inv no_slots.
Proof. intros d Hd. by apply elem_of_nil in Hd. Qed.

Lemma ssh_slots_bounded_witness :
  exists a' db', acquire (Admission ssh_task "10.0.0.1" None false) "tok" 5 (fun _ db => db) (fun _ => Answered) no_slots
      = (Ok "tok", a', db')
    /\ slots_inv db' /\ exists claim, ad_claim a' = Some claim /\ held "10.0.0.1" claim db'.
Proof.
  pose proof (ssh_slots_bounded (Admission ssh_task "10.0.0.1" None false) "tok" 5 (fun _ db => db) (fun _ => Answered)
    no_slots (fun _ _ H => H) no_slots_inv eq_refl eq_refl) as Hp.
  destruct (acquire _ _ _ _ _ _) as [[r a'] db'] eqn:E.
  assert (Hr : r = (acquire (Admission ssh_task "10.0.0.1" None false) "tok" 5 (fun _ db => db) (fun _ => Answered)
    no_slots).1.1) by by rewrite E.
  vm_compute in Hr. subst r. exists a', db'. split; [reflexivity|]. destruct Hp as [(Hi & c & Hc & _ & Hh) _].
  split; [exact Hi|]. exists c. by split.
Defined.

Definition uncertain_claim : pydict :=
  default [] (_owner ssh_task "tok" (Some 0) 5).

Definition applied_db : database := (push_claim "10.0.0.1" 0 uncertain_claim 5 no_slots).2.

Lemma reconcile_fences_witness :
  exists db1, reconcile ssh_task "tok" (Some 0) 9 applied_db = (Ok true, db1)
    /\ ~ held "10.0.0.1" uncertain_claim db1
    /\ push_claim "10.0.0.1" 0 uncertain_claim 11 db1 = (Raise DuplicateKeyError, db1).
Proof.
  destruct (reconcile ssh_task "tok" (Some 0) 9 applied_db) as [r db1] eqn:E.
  assert (Hr : r = (reconcile ssh_task "tok" (Some 0) 9 applied_db).1) by by rewrite E.
  vm_compute in Hr. subst r. exists db1. split; [reflexivity|].
  assert (Hnd : NoDup (map (fun d => d.["_id"]) (content applied_db SshSlots))) by apply NoDup_singleton.
  assert (Hb : not_behind "10.0.0.1" 0 applied_db).
  { split; [|done]. intros d Hd _. apply list_elem_of_singleton in Hd. subst d. vm_compute. discriminate. }
  assert (He : task_endpoint ssh_task = Some "10.0.0.1") by (vm_compute; reflexivity).
  assert (Ho : _owner ssh_task "tok" (Some 0) 5 = Some uncertain_claim) by (vm_compute; reflexivity).
  destruct (reconcile_fences ssh_task "tok" 0 9 5 applied_db db1 "10.0.0.1" uncertain_claim He Ho Hnd Hb E)
    as [H1 H2]. split; [exact H1|apply H2].
Defined.
