(* ===== verification/Recovery.v ===== *)
(** * Ending runs whose node is gone ([node/recovery.py], [tasks/recovery.py],
    [node/failover.py])

    A lost heartbeat does not prove that a device connection is closed.  The run
    of a BLOCKED task is ended, its lock and SSH claims released, only on a
    receipt of exactly its run, generation, node and session, on the record of a
    planned restart, or on an administrator's confirmation. *)

From S2P Require Import Prelude PyTime PyValue Ordering Mongo Ownership TaskRules SshSlots.
Open Scope camera_scope.

Definition BLOCKED := PStr "BLOCKED".
Definition RUNNING := PStr "RUNNING".
Definition STOPPED := PStr "STOPPED".
Definition PENDING := PStr "PENDING".

Definition ended_command (status : string) (now : Z) : pydict -> pydict :=
  set_all [("status", PStr status); ("completedAt", PTime (Aware now))].

Definition alive (d : pydict) : bool := fld d "deletedAt" PNone && negb (fld d "resourceDeleted" (PBool true)).

Section recovery.
Context `{AddressText} `{Mongo}.

(** The commands of a run: those being sent become unknown, the queued are
    cancelled. *)
Definition end_commands (task_id run_id : pyval) (now : Z) : dbm unit :=
  let of_run status d := fld d "taskId" task_id && fld d "runId" run_id && fld d "status" (PStr status) in
  let! _ := update_many Commands (of_run "SENDING") (ended_command "UNKNOWN" now) in
  let! _ := update_many Commands (of_run "QUEUED") (ended_command "CANCELLED" now) in
  st_ret tt.

(** The lock, the run and the commands; [run_query] narrows the run record. *)
Definition end_run (task_id run_id : pyval) (ended : pydict) (run_query : pydict -> bool) (now : Z) : dbm unit :=
  let! _ := delete_one EndpointLocks (fun d => fld d "taskId" task_id && fld d "runId" run_id) in
  let! _ := update_one Runs (fun d => fld d "id" run_id && fld d "taskId" task_id && run_query d) (set_all ended) in
  end_commands task_id run_id now.

Definition release_slots (task : pydict) (now : Z) : dbm unit :=
  if fld task "protocol" (PStr "SSH") then let! _ := release_task_slots task now in st_ret tt else st_ret tt.

Definition foreign_lock (task_id run_id : pyval) : dbm bool :=
  let! foreign := find_one EndpointLocks (fun d => fld d "taskId" task_id && negb (fld d "runId" run_id)) in
  st_ret match foreign with Some _ => true | None => false end.

(** The update of [finish_blocked_run]; [evidence] is the redacted text. *)
Definition finish_update (restart : bool) (operation_id : pyval) (evidence : option string) (now : Z) (d : pydict) : pydict :=
  let d := set_all [("nodeId", PNone); ("status", STOPPED); ("desiredState", if restart then RUNNING else STOPPED);
                    ("restartRequested", PBool false); ("error", PNone); ("updatedAt", PTime (Aware now))] d in
  let d := if truthy operation_id then dict_set d "controlOperationId" operation_id else d in
  match evidence with Some e => dict_set d "isolationEvidence" (PStr e) | None => d end.

Definition pending_operation (task_id : pyval) (desired : pyval) (d : pydict) : bool :=
  fld d "taskId" task_id && fld d "desiredState" desired && fld d "status" PENDING.

Definition end_operation (status : string) (now : Z) (d : pydict) : pydict :=
  dict_unset (set_all [("status", PStr status); ("completedAt", PTime (Aware now))] d) "phase".

(** [finish_blocked_run], within the caller's transaction. *)
Definition finish_blocked_run (task : pydict) (restart : bool) (operation_id : pyval) (evidence : option string) (now : Z)
  : dbm unit :=
  let task_id := task.["id"] in
  let run_id := task.["runId"] in
  let! _ := release_slots task now in
  let! foreign := foreign_lock task_id run_id in
  let! _ := raise_if foreign (Http 409 "任务存在后继运行锁，不能释放旧运行") in
  let! _ := end_run task_id run_id [("endedAt", PTime (Aware now))] (fun _ => true) now in
  let! matched := update_one Tasks
    (fun d => owner_filter task d && fld d "status" BLOCKED && fld d "controlOperationId" task.["controlOperationId"]
              && (negb restart || alive d))
    (finish_update restart operation_id evidence now) in
  let! _ := raise_if (negb matched) (Http 409 "任务控制意图或旧运行归属已变化，请重新查询") in
  let! _ := (if truthy operation_id
             then update_one Operations
               (fun d => fld d "id" operation_id && fld d "taskId" task_id && fld d "status" PENDING)
               (fun d => set_all [("updatedAt", PTime (Aware now))] (dict_unset d "phase"))
             else st_ret true) in
  let! _ := update_many Operations (pending_operation task_id STOPPED) (end_operation "SUCCEEDED" now) in
  let! _ := (if restart then st_ret 0
             else update_many Operations (pending_operation task_id RUNNING) (end_operation "CANCELLED" now)) in
  st_ret tt.

(** ** Planned restarts *)

Definition restart_statuses : list pyval :=
  [BLOCKED; PENDING; PStr "CONNECTING"; PStr "COLLECTING"; PStr "RECONNECTING"].

Definition planned (token : string) (d : pydict) : bool :=
  fld d "plannedRestart" (PBool true) && fld d "plannedRestartToken" (PStr token) && fld d "desiredState" RUNNING.

Definition closing_node (node_id token : string) (d : pydict) : bool :=
  fld d "id" (PStr node_id) && fld d "accepting" (PBool false) && fld d "shutdownToken" (PStr token)
  && negb (absent d "shuttingDownAt") && negb (absent d "shutdownCompletedAt").

(** Whether the old connection is known to be closed. *)
Definition planned_closed (task : pydict) : bool :=
  if fld task "status" PENDING then fld task "sessionId" PNone else matching_closed_receipt task.

Definition planned_update (now : Z) (d : pydict) : pydict :=
  unset_all ["plannedRestart"; "plannedRestartNodeId"; "plannedRestartToken"; "closedReceipt"; "failoverFenceRetryAt";
             "failoverConsumeRetryAt"]
    (set_all [("nodeId", PNone); ("status", STOPPED); ("error", PNone); ("restartRequested", PBool false);
              ("updatedAt", PTime (Aware now)); ("recoveryReason", PStr "PLANNED_NODE_RESTART")] d).

(** `_recover_planned_restart_task.commit`. *)
Definition recover_commit (task : pydict) (node_id token : string) (now : Z) : dbm bool :=
  let! node := find_one_and_update Nodes (closing_node node_id token) (dict_inc "plannedRestartRecoveryVersion" 1) in
  match node with
  | None => st_ret false
  | Some _ =>
      let! current := find_one Tasks (fun d =>
        owner_filter task d && planned token d && alive d && fld_in d "status" restart_statuses) in
      match current with
      | None => st_ret false
      | Some current =>
          let run_id := current.["runId"] in
          if negb (planned_closed current) || negb (truthy run_id) || fld current "generation" PNone then st_ret false
          else
            let! foreign := foreign_lock current.["id"] run_id in
            if foreign then st_ret false
            else
              let! _ := release_slots current now in
              let! _ := end_run current.["id"] run_id
                [("endedAt", PTime (Aware now)); ("endReason", PStr "PLANNED_NODE_RESTART")]
                (fun d => fld d "endedAt" PNone) now in
              let! matched := update_one Tasks
                (fun d => owner_filter current d && planned token d && fld d "status" current.["status"])
                (planned_update now) in
              let! _ := raise_if (negb matched) (RuntimeError "计划重启回收任务归属在事务中变化") in
              st_ret true
      end
  end.

(** [recover_planned_restart_tasks]: the tasks one after the other, each in a
    transaction; an exception ends the loop. *)
Fixpoint recover_each (tasks : list pydict) (node_id token : string) (now : Z) (fates : nat -> fate) : dbm Z :=
  match tasks with
  | [] => st_ret 0
  | task :: tasks =>
      let! recovered := transaction (fates (length tasks)) (recover_commit task node_id token now) in
      let! rest := recover_each tasks node_id token now fates in
      st_ret ((if recovered then 1 else 0) + rest)
  end.

Definition recover_planned_restart_tasks (node_id : string) (now : Z) (fates : nat -> fate) : dbm Z :=
  let! node := find_one Nodes (fun d => fld d "id" (PStr node_id)) in
  match node with
  | None => st_ret 0
  | Some node =>
      if truthy node.["accepting"] || negb (truthy node.["shuttingDownAt"])
         || negb (truthy node.["shutdownCompletedAt"]) || negb (truthy node.["shutdownToken"])
      then st_ret 0
      else
        let token := text node.["shutdownToken"] in
        let! tasks := find_all Tasks (fun d =>
          fld d "nodeId" (PStr node_id) && planned token d && alive d && fld_in d "status" restart_statuses) in
        recover_each tasks node_id token now fates
  end.

(** ** Receipts *)

(** [record_closed_receipt]. *)
Definition record_closed_receipt (task : pydict) (instance_id : string) (session_id : pyval) (reason : option string) (now : Z)
  : dbm unit :=
  let! _ := raise_if (negb (truthy session_id)) (RuntimeError "运行关闭后缺少实际会话标识，不能确认收据") in
  let receipt := [("taskId", task.["id"]); ("runId", task.["runId"]); ("generation", task.["generation"]);
    ("nodeId", task.["nodeId"]); ("sessionId", session_id); ("instanceId", PStr instance_id);
    ("closedAt", PTime (Aware now))] in
  let reasoned := match reason with
    | Some r => if String.eqb r "" then receipt else receipt ++ [("reason", PStr r)]
    | None => receipt
    end in
  let! kept := (match reason with
    | Some _ => st_ret false
    | None =>
        let! current := find_one Tasks (owner_filter task) in
        let existing := receipt_of (default [] current) in
        st_ret (fld existing "reason" AUTO_FAILOVER_FENCED
                && forallb (fun k => fld existing k receipt.[k])
                     ["taskId"; "runId"; "generation"; "nodeId"; "sessionId"; "instanceId"])
    end) in
  if kept then st_ret tt
  else
    let! _ := update_one Tasks (owner_filter task) (set_all [("closedReceipt", PDict reasoned)]) in
    st_ret tt.

(** [accepted_restart]. *)
Definition accepted_restart (task : pydict) : dbm (option pydict) :=
  if negb (fld task "desiredState" RUNNING) || fld task "status" BLOCKED then st_ret None
  else
    let statuses := PENDING :: (if fld task "status" (PStr "COLLECTING") then [PStr "SUCCEEDED"] else []) in
    find_one Operations (fun d => fld d "id" task.["controlOperationId"] && fld d "taskId" task.["id"]
      && fld d "action" (PStr "restart-blocked") && fld_in d "status" statuses).

(** `finalize_closed_task.commit`. *)
Definition finalize_commit (task : pydict) (now : Z) : dbm bool :=
  let! current := find_one_and_update Tasks (fun d => owner_filter task d && fld d "status" BLOCKED) control_version in
  match current with
  | None => st_ret false
  | Some current =>
      if negb (matching_closed_receipt current) then st_ret false
      else
        let removed := negb (alive current) in
        let restart := truthy current.["restartRequested"] && negb removed in
        if negb restart && negb (fld current "desiredState" STOPPED) && negb removed then st_ret false
        else
          let operation_id := current.["controlOperationId"] in
          let! ready := (if restart
            then
              let! operation := find_one Operations (fun d => fld d "id" operation_id && fld d "taskId" current.["id"]
                && fld d "action" (PStr "restart-blocked") && fld d "status" PENDING) in
              match operation with
              | None => st_ret false
              | Some _ => let! _ := _guard_resources current in st_ret true
              end
            else st_ret true) in
          if ready
          then let! _ := finish_blocked_run current restart operation_id None now in st_ret true
          else st_ret false
  end.

Definition finalize_closed_task (task : pydict) (now : Z) (f : fate) : dbm bool :=
  transaction f (finalize_commit task now).

(** A restart operation. *)
Definition restart_operation (identifier task_id : string) (user : pydict) (now : Z) : pydict :=
  [("id", PStr identifier); ("taskId", PStr task_id); ("desiredState", RUNNING); ("action", PStr "restart-blocked");
   ("actor", user.["id"]); ("status", PENDING); ("createdAt", PTime (Aware now))].

(** The task of a recovery request, or why there is none. *)
Definition claim_blocked (task_id : string) : dbm pydict :=
  let! task := find_one_and_update Tasks (fun d => fld d "id" (PStr task_id) && alive d) control_version in
  match task with
  | Some task => st_ret task
  | None =>
      let! existing := find_one Tasks (fun d => fld d "id" (PStr task_id)) in
      st_raise match existing with
               | None => Http 404 "任务不存在"
               | Some _ => Http 409 "任务已删除，仅可查询已有日志"
               end
  end.

(** The pending restart operation, the end of the run, and the audit: the tail
    of an accepted recovery. *)
Definition finish_and_record (task_id identifier : string) (user task : pydict) (previous : option pydict)
    (evidence : option string) (action : string) (context : pydict) (now : Z) : dbm pydict :=
  let operation := default (restart_operation identifier task_id user now) previous in
  let! _ := finish_blocked_run task true operation.["id"] evidence now in
  let operation := dict_unset operation "phase" in
  let! _ := (match previous with None => insert_one Operations operation | Some _ => st_ret tt end) in
  let! _ := audit context now user.["id"] action (PStr task_id) in
  st_ret operation.

Definition pending_restart (task_id : string) (d : pydict) : bool :=
  fld d "taskId" (PStr task_id) && fld d "action" (PStr "restart-blocked") && fld d "status" PENDING.

(** `confirm_task_isolation.commit`. *)
Definition isolation_commit (task_id identifier : string) (user : pydict) (evidence : string) (context : pydict) (now : Z)
  : dbm pydict :=
  let! task := claim_blocked task_id in
  let! accepted := accepted_restart task in
  match accepted with
  | Some operation => st_ret operation
  | None =>
      let! _ := raise_if (negb (fld task "status" BLOCKED)) (Http 409 "任务不处于阻塞状态") in
      let! _ := _guard_resources task in
      let! previous := find_one Operations (pending_restart task_id) in
      finish_and_record task_id identifier user task previous (Some evidence) "confirm_task_isolation" context now
  end.

(** [confirm_task_isolation]. *)
Definition confirm_task_isolation (task_id identifier : string) (user : pydict) (evidence : string) (context : pydict)
    (now : Z) (f : fate) : dbm pydict :=
  let! _ := authorize user "admin" in
  st_catch (transaction f (isolation_commit task_id identifier user evidence context now))
    (fun e => if is_pymongo e then Some (st_raise (Http 503 "单任务隔离确认提交结果未知，请查询任务与操作状态")) else None).

(** ** [tasks/recovery.py] *)

(** The request to a reachable old Worker: stop, then restart. *)
Definition request_old_worker (task_id identifier : string) (user task context : pydict) (now : Z) : dbm pydict :=
  let! node := find_one Nodes (fun d => fld d "id" task.["nodeId"]) in
  let reachable := match node with
    | Some node => time_ge node "heartbeat" (now - 30 * US_PER_SECOND)
    | None => false
    end in
  let! _ := raise_if (negb reachable) (Http 409 "ISOLATION_REQUIRED") in
  let operation := restart_operation identifier task_id user now in
  let! matched := update_one Tasks
    (fun d => fld d "id" (PStr task_id) && fld d "status" BLOCKED && fld d "nodeId" task.["nodeId"]
              && fld d "runId" task.["runId"] && fld d "generation" task.["generation"] && alive d)
    (set_all [("desiredState", STOPPED); ("restartRequested", PBool true); ("controlOperationId", PStr identifier);
              ("updatedAt", PTime (Aware now))]) in
  let! _ := raise_if (negb matched) (Http 409 "任务已删除或运行归属已变化，请重新查询") in
  let! _ := update_many Operations (pending_operation (PStr task_id) RUNNING) (ended_command "CANCELLED" now) in
  let! _ := insert_one Operations operation in
  let! _ := audit context now user.["id"] "restart_blocked" (PStr task_id) in
  st_ret operation.

(** `request_blocked_restart.commit`. *)
Definition restart_commit (task_id identifier : string) (user context : pydict) (now : Z) : dbm pydict :=
  let! task := claim_blocked task_id in
  let! _ := authorize_task_operation user task in
  let! accepted := accepted_restart task in
  match accepted with
  | Some operation => st_ret operation
  | None =>
      let! _ := raise_if (negb (fld task "status" BLOCKED)) (Http 409 "仅阻塞任务可以请求重新启动") in
      let! _ := _guard_resources task in
      let! previous := find_one Operations (pending_restart task_id) in
      if matching_closed_receipt task
      then finish_and_record task_id identifier user task previous None "restart_blocked_receipt" context now
      else
        match previous with
        | Some operation => st_ret operation
        | None => request_old_worker task_id identifier user task context now
        end
  end.

(** [request_blocked_restart]. *)
Definition request_blocked_restart (task_id identifier : string) (user context : pydict) (now : Z) (f : fate) : dbm pydict :=
  let! _ := authorize user "tasks:control" in
  st_catch (transaction f (restart_commit task_id identifier user context now))
    (fun e => if is_pymongo e then Some (st_raise (Http 503 "阻塞任务恢复提交结果未知，请查询任务与操作状态")) else None).

(** ** Automatic failover ([node/failover.py]) *)

(** `consume_confirmed_failovers.commit`; [server_now] is `$currentDate`. *)
Definition consume_commit (task_id : pyval) (now server_now : Z) : dbm bool :=
  let! task := find_one_and_update Tasks
    (fun d => fld d "id" task_id && fld d "status" BLOCKED && fld d "desiredState" RUNNING && fld d "deletedAt" PNone)
    control_version in
  match task with
  | None => st_ret false
  | Some task =>
      if negb (is_confirmed_failover_receipt task) || truthy task.["resourceDeleted"] then st_ret false
      else
        let! _ := _guard_resources task in
        let old_node_id := task.["nodeId"] in
        let! _ := finish_blocked_run task true PNone None now in
        let! matched := update_one Tasks
          (fun d => fld d "id" task.["id"] && fld d "nodeId" PNone && fld d "status" STOPPED
                    && fld d "desiredState" RUNNING && fld d "deletedAt" PNone)
          (set_all [("failoverExcludedNodeId", old_node_id); ("failoverFromNodeId", old_node_id);
                    ("failoverReason", AUTO_FAILOVER_FENCED); ("updatedAt", PTime (Aware now));
                    ("failoverReleasedAt", PTime (Aware server_now))]) in
        let! _ := raise_if (negb matched) (Http 409 "故障转移归属已变化") in
        st_ret true
  end.

(** ** Properties *)

Context `{!MongoLaws}.

(** Locks of the run may go, the others stay; no lock appears. *)
Definition locks_freed (task_id run_id : pyval) (db db' : database) : Prop :=
  content db' EndpointLocks ⊆ content db EndpointLocks
  /\ forall x, x ∈ content db EndpointLocks ->
       x ∈ content db' EndpointLocks \/ x.["taskId"] = task_id /\ x.["runId"] = run_id.

Lemma locks_freed_same task_id run_id db db' :
  content db' EndpointLocks = content db EndpointLocks -> locks_freed task_id run_id db db'.
Proof. intros E. unfold locks_freed. rewrite E. split; auto. Qed.

Lemma release_slots_wp task now db (Q : result exn unit -> database -> Prop) :
  (forall db', frame [SshSlots] db db' -> Q (Ok tt) db') -> (forall s, Q (Raise (ValueError s)) db) ->
  wp (release_slots task now) Q db.
Proof.
  intros HS HE. unfold release_slots. destruct (fld _ _ _); [|by apply wp_ret, HS]. apply wp_bind.
  unfold release_task_slots. destruct (existsb _ _); [by apply wp_raise, HE|].
  apply wp_update_many. intros db' _ Ho. cbn [on_ok]. by apply wp_ret, HS, frame_one.
Qed.

(** The commands of a run that are over. *)
Definition commands_ended (task_id run_id : pyval) (db : database) : Prop :=
  forall d, d ∈ content db Commands -> d.["taskId"] = task_id -> d.["runId"] = run_id ->
    d.["status"] <> PStr "SENDING" /\ d.["status"] <> PStr "QUEUED".

Lemma ended_status status now d : (ended_command status now d).["status"] = PStr status.
Proof. unfold ended_command. cbn [set_all foldl fst snd]. by dget. Qed.

Lemma end_commands_wp task_id run_id now db (Q : result exn unit -> database -> Prop) :
  (forall db', frame [Commands] db db' -> commands_ended task_id run_id db' -> Q (Ok tt) db') ->
  wp (end_commands task_id run_id now) Q db.
Proof.
  intros HS. unfold end_commands. cbv zeta. apply wp_bind, wp_update_many. intros db1 E1 Ho1. cbn [on_ok].
  apply wp_bind, wp_update_many. intros db2 E2 Ho2. cbn [on_ok]. apply wp_ret, HS.
  - eapply frame_weaken; [eapply frame_trans; by apply frame_one|]. set_solver.
  - intros d Hd Ht Hr. rewrite E2, E1 in Hd. apply list_elem_of_fmap in Hd as (y & -> & Hy).
    apply list_elem_of_fmap in Hy as (x & -> & _). unfold apply_if in *.
    repeat match goal with
    | |- context [if ?b then _ else _] => destruct b eqn:?
    | H : context [if ?b then _ else _] |- _ => destruct b eqn:?
    end; rewrite ?ended_status; try (split; congruence);
    split; intros Hs; freflect; rewrite ?ended_status in *; try congruence;
    repeat match goal with H : _ && _ = false |- _ => rewrite !andb_false_iff, !fld_false in H end; tauto.
Qed.

(** The end of a run: its lock is gone if it had one. *)
Lemma end_run_wp task_id run_id ended q now db (Q : result exn unit -> database -> Prop) :
  (forall db', frame [EndpointLocks; Runs; Commands] db db' -> locks_freed task_id run_id db db' ->
     (NoDup (map (fun d => d.["taskId"]) (content db EndpointLocks)) ->
        no_match (fun d => fld d "taskId" task_id && fld d "runId" run_id) (content db' EndpointLocks)) ->
     commands_ended task_id run_id db' -> Q (Ok tt) db') ->
  wp (end_run task_id run_id ended q now) Q db.
Proof.
  intros HS. unfold end_run.
  set (mine := fun d => fld d "taskId" task_id && fld d "runId" run_id).
  assert (Hrest : forall db1, frame [EndpointLocks] db db1 -> locks_freed task_id run_id db db1 ->
    (NoDup (map (fun d => d.["taskId"]) (content db EndpointLocks)) -> no_match mine (content db1 EndpointLocks)) ->
    wp (let! _ := update_one Runs (fun d => fld d "id" run_id && fld d "taskId" task_id && q d) (set_all ended) in
        end_commands task_id run_id now) Q db1).
  { intros db1 Hf Hl Hno. apply wp_bind.
    assert (Hlast : forall db2, frame [Runs] db1 db2 -> wp (end_commands task_id run_id now) Q db2).
    { intros db2 Hf2. apply end_commands_wp. intros db3 Hf3 Hc. assert (E : content db3 EndpointLocks = content db1 EndpointLocks)
        by (rewrite Hf3, Hf2; [done|set_solver|set_solver]). apply HS.
      - eapply frame_weaken; [eapply frame_trans; [exact Hf|eapply frame_trans; [exact Hf2|exact Hf3]]|set_solver].
      - unfold locks_freed in *. by rewrite E.
      - by rewrite E.
      - done. }
    apply wp_update_one; cbn [on_ok]; [intros d db2 (_ & _ & Ho); by apply Hlast, frame_one|intros _; by apply Hlast]. }
  apply wp_bind, wp_delete; cbn [on_ok].
  - intros l d r db1 Hq E1 E2 Ho. apply Hrest; [by apply frame_one| |].
    + unfold locks_freed. rewrite E1, E2. apply andb_prop in Hq as [Ht Hr]. apply fld_true in Ht, Hr. split.
      * intros x Hx. apply elem_of_app in Hx as [?|?]; apply elem_of_app; [by left|right; by right].
      * intros x Hx. apply elem_of_app in Hx as [Hx|[->|Hx]%elem_of_cons]; [left|by right|left]; apply elem_of_app; auto.
    + intros Hnd x Hx. rewrite E2 in Hx. destruct (mine x) eqn:Em; [|done]. exfalso.
      unfold mine in *. freflect. rewrite E1, map_app in Hnd. cbn in Hnd.
      apply NoDup_app in Hnd as (_ & Hd & Hr'). apply NoDup_cons in Hr' as [Hr' _].
      apply elem_of_app in Hx as [Hx|Hx].
      * apply (Hd x.["taskId"]); [apply list_elem_of_fmap; by exists x|]. apply elem_of_cons. left. congruence.
      * apply Hr'. apply list_elem_of_fmap. exists x. split; [congruence|done].
  - intros Hno. apply Hrest; [done|by apply locks_freed_same|done].
Qed.

Lemma foreign_lock_wp task_id run_id db (Q : result exn bool -> database -> Prop) :
  Q (Ok true) db ->
  (no_match (fun d => fld d "taskId" task_id && negb (fld d "runId" run_id)) (content db EndpointLocks) -> Q (Ok false) db) ->
  wp (foreign_lock task_id run_id) Q db.
Proof.
  intros HT HF. unfold foreign_lock. apply wp_bind, wp_find_one; cbn [on_ok]; [intros; by apply wp_ret|].
  intros Hno. by apply wp_ret, HF.
Qed.

(** The outcome of ending a blocked run. *)
Record finished (task : pydict) (restart : bool) (operation_id : pyval) (evidence : option string) (now : Z)
    (db db' : database) : Prop := {
  fi_frame : frame [SshSlots; EndpointLocks; Runs; Commands; Tasks; Operations] db db';
  fi_locks : locks_freed task.["id"] task.["runId"] db db';
  fi_unlocked : NoDup (map (fun d => d.["taskId"]) (content db EndpointLocks)) ->
    no_match (fun d => fld d "taskId" task.["id"]) (content db' EndpointLocks);
  fi_commands : commands_ended task.["id"] task.["runId"] db';
  fi_task : exists l d r, content db Tasks = l ++ d :: r
    /\ content db' Tasks = l ++ finish_update restart operation_id evidence now d :: r
    /\ owner_filter task d = true /\ d.["status"] = BLOCKED /\ (restart = true -> alive d = true);
  fi_operations : forall o, o ∈ content db' Operations -> o.["taskId"] = task.["id"] -> o.["status"] = PENDING ->
    o.["desiredState"] <> STOPPED /\ (restart = false -> o.["desiredState"] <> RUNNING) }.

Lemma end_operation_status status now d : (end_operation status now d).["status"] = PStr status.
Proof. unfold end_operation. cbn [set_all foldl fst snd]. by dget. Qed.

(** The pending operations after one kind of them was ended. *)
Lemma ended_operations task_id desired status now l o :
  status <> "PENDING" -> o ∈ map (apply_if (pending_operation task_id desired) (end_operation status now)) l ->
  o.["taskId"] = task_id -> o.["status"] = PENDING -> o ∈ l /\ o.["desiredState"] <> desired.
Proof.
  intros Hs Ho Ht Hp. apply list_elem_of_fmap in Ho as (x & -> & Hx). unfold apply_if in *.
  destruct (pending_operation task_id desired x) eqn:E.
  - rewrite end_operation_status in Hp. unfold PENDING in Hp. congruence.
  - split; [done|]. intros Hd. unfold pending_operation in E.
    by rewrite (proj2 (fld_true _ _ _) Ht), (proj2 (fld_true _ _ _) Hd), (proj2 (fld_true _ _ _) Hp) in E.
Qed.

Lemma finish_operations_wp task_id restart now db (Q : result exn unit -> database -> Prop) :
  (forall db', frame [Operations] db db' ->
     (forall o, o ∈ content db' Operations -> o.["taskId"] = task_id -> o.["status"] = PENDING ->
        o.["desiredState"] <> STOPPED /\ (restart = false -> o.["desiredState"] <> RUNNING)) -> Q (Ok tt) db') ->
  wp (let! _ := update_many Operations (pending_operation task_id STOPPED) (end_operation "SUCCEEDED" now) in
      let! _ := (if restart then st_ret 0
                 else update_many Operations (pending_operation task_id RUNNING) (end_operation "CANCELLED" now)) in
      st_ret tt) Q db.
Proof.
  intros HS. apply wp_bind, wp_update_many. intros db1 E1 Ho1. cbn [on_ok]. apply wp_bind. destruct restart.
  - apply wp_ret. cbn [on_ok]. apply wp_ret, HS; [by apply frame_one|]. intros o Ho Ht Hs. rewrite E1 in Ho.
    apply ended_operations in Ho; [|done..]. by split; [apply Ho|].
  - apply wp_update_many. intros db2 E2 Ho2. cbn [on_ok]. apply wp_ret, HS.
    + eapply frame_weaken; [eapply frame_trans; by apply frame_one|]. set_solver.
    + intros o Ho Ht Hs. rewrite E2, E1 in Ho. apply ended_operations in Ho; [|done..]. destruct Ho as [Ho Hr].
      apply ended_operations in Ho; [|done..]. split; [apply Ho|done].
Qed.

Lemma finish_wp task restart operation_id evidence now db :
  wp (finish_blocked_run task restart operation_id evidence now) (fun r db' => match r with
    | Ok _ => finished task restart operation_id evidence now db db' | Raise _ => True end) db.
Proof.
  unfold finish_blocked_run. cbv zeta. apply wp_bind, release_slots_wp; [|done]. intros db1 Hf1. cbn [on_ok].
  apply wp_bind, foreign_lock_wp; cbn [on_ok]; [by apply wp_bind, wp_raise_if|]. intros Hfor.
  apply wp_bind, wp_raise_if; cbn [on_ok]; [done|intros _].
  apply wp_bind, end_run_wp. intros db2 Hf2 Hl2 Hno2 Hc2. cbn [on_ok].
  apply wp_bind, wp_update_one; cbn [on_ok]; [|intros _; by apply wp_bind, wp_raise_if].
  intros d db3 (Hq & (l & r & E1 & E2) & Ho3). freflect.
  apply wp_bind, wp_raise_if; cbn [on_ok]; [done|intros _]. apply wp_bind.
  assert (HelDB : content db1 EndpointLocks = content db EndpointLocks) by (apply Hf1; set_solver).
  assert (Hlast : forall db4, frame [Operations] db3 db4 ->
    wp (let! _ := update_many Operations (pending_operation task.["id"] STOPPED) (end_operation "SUCCEEDED" now) in
        let! _ := (if restart then st_ret 0
                 else update_many Operations (pending_operation task.["id"] RUNNING) (end_operation "CANCELLED" now)) in
        st_ret tt) (fun r db' => match r with
    | Ok _ => finished task restart operation_id evidence now db db' | Raise _ => True end) db4).
  { intros db4 Hf4. apply finish_operations_wp. intros db5 Hf5 Hops.
    assert (Hel : content db5 EndpointLocks = content db2 EndpointLocks)
      by (rewrite Hf5, Hf4, Ho3; [done|done|set_solver|set_solver]).
    split.
    - eapply frame_weaken; [eapply frame_trans; [exact Hf1|eapply frame_trans; [exact Hf2|eapply frame_trans;
        [apply frame_one; exact Ho3|eapply frame_trans; [exact Hf4|exact Hf5]]]]|]. set_solver.
    - unfold locks_freed in *. by rewrite Hel, <- HelDB.
    - intros Hnd x Hx. rewrite <- HelDB in Hnd. rewrite Hel in Hx. apply not_true_iff_false. intros Ht.
      specialize (Hno2 Hnd x Hx). assert (Hx1 : x ∈ content db1 EndpointLocks) by by apply (proj1 Hl2).
      specialize (Hfor x Hx1). cbn beta in Ht, Hno2, Hfor. rewrite Ht in Hno2, Hfor. cbn in Hno2, Hfor.
      by rewrite Hno2 in Hfor.
    - intros x Hx. apply Hc2. rewrite <- Ho3, <- Hf4, <- Hf5 by (done || set_solver). done.
    - exists l, d, r. rewrite Hf5, Hf4 by set_solver.
      assert (Ht : content db2 Tasks = content db Tasks) by (rewrite Hf2, Hf1; [done|set_solver|set_solver]).
      rewrite <- Ht. split_and!; try done. intros ->. done.
    - exact Hops. }
  destruct (truthy operation_id); [|apply wp_ret; by apply Hlast].
  apply wp_update_one; cbn [on_ok]; [intros x db4 (_ & _ & Ho4); by apply Hlast, frame_one|intros _; by apply Hlast].
Qed.

(** ** Locks are released on evidence only *)

(** The evidence that the connection of the task's run is closed. *)
Definition closed_evidence (t : pydict) : Prop :=
  t.["status"] = BLOCKED /\ matching_closed_receipt t = true
  \/ exists token, planned token t = true
       /\ (matching_closed_receipt t = true \/ t.["status"] = PENDING /\ t.["sessionId"] = PNone).

Lemma planned_closed_evidence t : planned_closed t = true -> matching_closed_receipt t = true \/ t.["status"] = PENDING /\ t.["sessionId"] = PNone.
Proof.
  unfold planned_closed. destruct (fld t "status" PENDING) eqn:E; [|by left]. intros Hs%fld_true. apply fld_true in E. by right.
Qed.

Definition evidenced (db db' : database) : Prop :=
  forall x, x ∈ content db EndpointLocks -> x ∈ content db' EndpointLocks
    \/ exists t, t ∈ content db Tasks /\ t.["id"] = x.["taskId"] /\ t.["runId"] = x.["runId"] /\ closed_evidence t.

Lemma evidenced_same db db' : content db' EndpointLocks = content db EndpointLocks -> evidenced db db'.
Proof. intros E x Hx. left. by rewrite E. Qed.

Lemma evidenced_freed db db' t :
  t ∈ content db Tasks -> closed_evidence t -> locks_freed t.["id"] t.["runId"] db db' -> evidenced db db'.
Proof. intros Ht Hc [_ Hl] x Hx. destruct (Hl x Hx) as [?|[H2 H3]]; [by left|right]. exists t. by rewrite H2, H3. Qed.

(** The version counter does not matter to the evidence. *)
Lemma version_fields k d : k <> "controlClaimVersion" -> (control_version d).[k] = d.[k].
Proof. intros Hk. unfold control_version, dict_inc. by rewrite get_set_ne. Qed.

Lemma version_receipt d : matching_closed_receipt (control_version d) = matching_closed_receipt d.
Proof.
  unfold matching_closed_receipt, same_fields, receipt_of, dict_sub, fld. cbn [forallb].
  by rewrite !(version_fields _ d) by discriminate.
Qed.

Lemma version_owner task d : owner_filter task (control_version d) = owner_filter task d.
Proof. unfold owner_filter, fld. by rewrite !(version_fields _ d) by discriminate. Qed.

Lemma locks_freed_from db db0 db' task_id run_id :
  content db0 EndpointLocks = content db EndpointLocks -> locks_freed task_id run_id db0 db' -> locks_freed task_id run_id db db'.
Proof. intros E. unfold locks_freed. by rewrite E. Qed.

(** A blocked task of the database, after its version was incremented. *)
Definition blocked_now (current : pydict) (db db0 : database) : Prop :=
  (exists d, d ∈ content db Tasks /\ current = control_version d)
  /\ content db0 EndpointLocks = content db EndpointLocks.

Lemma finish_evidenced current restart operation_id evidence now db db0 :
  blocked_now current db db0 -> current.["status"] = BLOCKED -> matching_closed_receipt current = true ->
  wp (finish_blocked_run current restart operation_id evidence now) (fun r db' => match r with
    | Ok _ => evidenced db db' | Raise _ => True end) db0.
Proof.
  intros [(d & Hd & ->) E] Hs Hm. eapply wp_mono; [apply finish_wp|]. intros [[]|e] db' Hf; [|done].
  pose proof (fi_locks _ _ _ _ _ _ _ Hf) as Hl. apply (locks_freed_from db) in Hl; [|done].
  rewrite !(version_fields _ d) in Hl by discriminate. apply (evidenced_freed db db' d Hd); [|done].
  left. rewrite version_fields in Hs by discriminate. by rewrite version_receipt in Hm.
Qed.

(** The sequel of [finish_blocked_run] does not touch the locks. *)
Lemma evidenced_trans db db1 db2 :
  evidenced db db1 -> content db2 EndpointLocks = content db1 EndpointLocks -> evidenced db db2.
Proof. intros H2 E x Hx. rewrite E. by apply H2. Qed.

Definition ok_evidenced {A} (db : database) (r : result exn A) (db' : database) : Prop :=
  match r with Ok _ => evidenced db db' | Raise _ => True end.

Lemma finalize_evidenced task now db : wp (finalize_commit task now) (ok_evidenced db) db.
Proof.
  unfold finalize_commit. apply wp_bind, wp_update; cbn [on_ok]; [|intros _; apply wp_ret; by apply evidenced_same].
  intros d db0 (Hq & (l & r & E1 & E2) & Ho). apply andb_prop in Hq as [_ Hs]. apply fld_true in Hs.
  assert (Hel : content db0 EndpointLocks = content db EndpointLocks) by by apply Ho.
  assert (Hb : blocked_now (control_version d) db db0).
  { split; [|done]. exists d. split; [rewrite E1; apply elem_of_middle|done]. }
  destruct (matching_closed_receipt (control_version d)) eqn:Em; cbn [negb]; [|apply wp_ret; by apply evidenced_same].
  cbv zeta. set (restart := truthy _ && _). destruct (negb restart && _ && _); [apply wp_ret; by apply evidenced_same|].
  apply wp_bind.
  assert (Hlast : forall b db1, content db1 EndpointLocks = content db0 EndpointLocks ->
    on_ok (fun ready : bool => if ready
      then let! _ := finish_blocked_run (control_version d) restart (control_version d).["controlOperationId"] None now in
           st_ret true
      else st_ret false) (ok_evidenced db) (Ok b) db1).
  { intros [] db1 E; cbn [on_ok]; [|apply wp_ret; apply evidenced_same; by rewrite E].
    apply wp_bind. eapply wp_mono; [apply (finish_evidenced _ _ _ _ _ db db1)|].
    - destruct Hb. split; [done|]. by rewrite E.
    - rewrite version_fields by discriminate. done.
    - done.
    - intros [[]|e] db'; cbn [on_ok]; [|done]. intros Hx. by apply wp_ret. }
  destruct restart; [|by apply wp_ret, Hlast].
  apply wp_bind, wp_find_one; cbn [on_ok]; [|intros _; by apply wp_ret, Hlast].
  intros op _ _. apply wp_bind. eapply wp_mono; [apply guard_wp|]. intros [[]|e] db1 [Hr _]; [|done]. cbn [on_ok].
  apply wp_ret, Hlast. by apply Hr.
Qed.

Lemma consume_evidenced task_id now server_now db : wp (consume_commit task_id now server_now) (ok_evidenced db) db.
Proof.
  unfold consume_commit. apply wp_bind, wp_update; cbn [on_ok]; [|intros _; apply wp_ret; by apply evidenced_same].
  intros d db0 (Hq & (l & r & E1 & E2) & Ho). freflect.
  assert (Hel : content db0 EndpointLocks = content db EndpointLocks) by by apply Ho.
  destruct (is_confirmed_failover_receipt _) eqn:Er; cbn [negb orb]; [|apply wp_ret; by apply evidenced_same].
  destruct (truthy _); [apply wp_ret; by apply evidenced_same|]. unfold is_confirmed_failover_receipt in Er.
  apply andb_prop in Er as [Em _]. apply wp_bind. eapply wp_mono; [apply guard_wp|].
  intros [[]|e] db1 [Hr _]; [|done]. cbn [on_ok]. cbv zeta. apply wp_bind.
  eapply wp_mono; [apply (finish_evidenced _ _ _ _ _ db db1)|].
  - split; [exists d; split; [rewrite E1; apply elem_of_middle|done]|]. by rewrite Hr.
  - rewrite version_fields by discriminate. done.
  - done.
  - intros [[]|e] db2; cbn [on_ok]; [|done]. intros Hev. apply wp_bind, wp_update_one; cbn [on_ok].
    + intros x db3 (_ & _ & Ho3). apply wp_bind, wp_raise_if; cbn [on_ok]; [done|intros _]. apply wp_ret.
      eapply evidenced_trans; [exact Hev|by apply Ho3].
    + intros _. by apply wp_bind, wp_raise_if.
Qed.

Lemma recover_evidenced task node_id token now db : wp (recover_commit task node_id token now) (ok_evidenced db) db.
Proof.
  unfold recover_commit. apply wp_bind, wp_update; cbn [on_ok]; [|intros _; apply wp_ret; by apply evidenced_same].
  intros n db0 (_ & _ & Ho). assert (Hel : content db0 EndpointLocks = content db EndpointLocks) by by apply Ho.
  apply wp_bind, wp_find_one; cbn [on_ok]; [|intros _; apply wp_ret; by apply evidenced_same].
  intros t Ht Hq. rewrite Ho in Ht by done.
  assert (Hpl : planned token t = true) by (apply andb_prop in Hq as [Hq _]; apply andb_prop in Hq as [Hq _]; by apply andb_prop in Hq as [_ Hq]).
  cbv zeta. destruct (planned_closed t) eqn:Epc; cbn [negb orb]; [|apply wp_ret; by apply evidenced_same].
  destruct (negb (truthy _) || _); [apply wp_ret; by apply evidenced_same|].
  apply wp_bind, foreign_lock_wp; cbn [on_ok]; [apply wp_ret; by apply evidenced_same|]. intros _.
  apply wp_bind, release_slots_wp; [|done]. intros db1 Hf1. cbn [on_ok].
  apply wp_bind, end_run_wp. intros db2 Hf2 Hl2 _ _. cbn [on_ok].
  apply wp_bind, wp_update_one; cbn [on_ok].
  - intros x db3 (_ & _ & Ho3). apply wp_bind, wp_raise_if; cbn [on_ok]; [done|intros _]. apply wp_ret.
    apply (evidenced_freed db db3 t Ht); [right; exists token; split; [done|by apply planned_closed_evidence]|].
    apply (locks_freed_from db db1); [by rewrite Hf1 by set_solver|]. unfold locks_freed in *.
    by rewrite Ho3 by done.
  - intros _. by apply wp_bind, wp_raise_if.
Qed.

(** Computations that leave locks and tasks alone. *)
Definition quiet {A} (m : dbm A) : Prop := forall db,
  wp m (fun _ db' => content db' EndpointLocks = content db EndpointLocks /\ content db' Tasks = content db Tasks) db.

Lemma guard_quiet task : quiet (_guard_resources task).
Proof. intros db. eapply wp_mono; [apply guard_wp|]. intros r db' [Hr _]. by rewrite !Hr by done. Qed.

Lemma authorize_quiet user task : quiet (authorize_task_operation user task).
Proof.
  intros db. apply authorize_task_operation_wp; [|done]. intros db' Hr. by rewrite !Hr by done.
Qed.

Lemma accepted_quiet task : quiet (accepted_restart task).
Proof.
  intros db. unfold accepted_restart. destruct (_ || _); [by apply wp_ret|]. by apply wp_find_one.
Qed.

Lemma record_evidenced task_id identifier user task previous evidence action context now db db0 :
  blocked_now task db db0 -> task.["status"] = BLOCKED -> matching_closed_receipt task = true ->
  wp (finish_and_record task_id identifier user task previous evidence action context now) (ok_evidenced db) db0.
Proof.
  intros Hb Hs Hm. unfold finish_and_record. cbv zeta. apply wp_bind.
  eapply wp_mono; [by apply (finish_evidenced _ _ _ _ _ db db0)|]. intros [[]|e] db1; cbn [on_ok]; [|done].
  intros Hev. apply wp_bind.
  assert (Hlast : forall db2 (op : pydict), content db2 EndpointLocks = content db1 EndpointLocks ->
    wp (let! _ := audit context now user.["id"] action (PStr task_id) in st_ret op) (ok_evidenced db) db2).
  { intros db2 op E. apply wp_bind, wp_audit. intros a db3 _ _ Ho. cbn [on_ok]. apply wp_ret.
    eapply evidenced_trans; [exact Hev|]. by rewrite Ho. }
  destruct previous as [p|]; [by apply wp_ret, Hlast|].
  apply wp_insert; cbn [on_ok]; [|done]. intros db2 _ _ Ho. apply Hlast. by apply Ho.
Qed.

Lemma old_worker_quiet task_id identifier user task context now db :
  wp (request_old_worker task_id identifier user task context now)
    (fun r db' => content db' EndpointLocks = content db EndpointLocks) db.
Proof.
  unfold request_old_worker. apply wp_bind.
  assert (Hrest : forall reachable : bool, wp (let! _ := raise_if (negb reachable) (Http 409 "ISOLATION_REQUIRED") in
    let operation := restart_operation identifier task_id user now in
    let! matched := update_one Tasks
      (fun d => fld d "id" (PStr task_id) && fld d "status" BLOCKED && fld d "nodeId" task.["nodeId"]
              && fld d "runId" task.["runId"] && fld d "generation" task.["generation"] && alive d)
      (set_all [("desiredState", STOPPED); ("restartRequested", PBool true); ("controlOperationId", PStr identifier);
              ("updatedAt", PTime (Aware now))]) in
    let! _ := raise_if (negb matched) (Http 409 "任务已删除或运行归属已变化，请重新查询") in
    let! _ := update_many Operations (pending_operation (PStr task_id) RUNNING) (ended_command "CANCELLED" now) in
    let! _ := insert_one Operations operation in
    let! _ := audit context now user.["id"] "restart_blocked" (PStr task_id) in
    st_ret operation) (fun r db' => content db' EndpointLocks = content db EndpointLocks) db).
  { intros reachable. apply wp_bind, wp_raise_if; cbn [on_ok]; [done|intros _]. cbv zeta.
    apply wp_bind, wp_update_one; cbn [on_ok]; [|intros _; by apply wp_bind, wp_raise_if].
    intros d db1 (_ & _ & Ho1). apply wp_bind, wp_raise_if; cbn [on_ok]; [by rewrite Ho1|intros _].
    apply wp_bind, wp_update_many. intros db2 _ Ho2. cbn [on_ok].
    apply wp_bind, wp_insert; cbn [on_ok]; [|intros; by rewrite Ho2, Ho1].
    intros db3 _ _ Ho3. apply wp_bind, wp_audit. intros a db4 _ _ Ho4. cbn [on_ok]. apply wp_ret.
    by rewrite Ho4, Ho3, Ho2, Ho1. }
  apply wp_find_one; cbn [on_ok]; intros; apply Hrest.
Qed.

Lemma restart_evidenced task_id identifier user context now db :
  wp (restart_commit task_id identifier user context now) (ok_evidenced db) db.
Proof.
  unfold restart_commit, claim_blocked. apply wp_bind, wp_bind, wp_update; cbn [on_ok].
  2:{ intros _. apply wp_bind, wp_find_one; cbn [on_ok]; intros; by apply wp_raise. }
  intros d db0 (_ & (l & r & E1 & E2) & Ho). apply wp_ret. cbn [on_ok].
  assert (Hb0 : blocked_now (control_version d) db db0).
  { split; [exists d; split; [rewrite E1; apply elem_of_middle|done]|by apply Ho]. }
  assert (Hsame : forall db1, content db1 EndpointLocks = content db0 EndpointLocks ->
    blocked_now (control_version d) db db1 /\ evidenced db db1).
  { intros db1 E. destruct Hb0 as [Hb0 Hel]. split; [split; [done|by rewrite E]|]. apply evidenced_same. by rewrite E. }
  apply wp_bind. eapply wp_mono; [apply authorize_quiet|]. intros [[]|e] db1 [Hq1 _]; cbn [on_ok]; [|done].
  apply wp_bind. eapply wp_mono; [apply accepted_quiet|]. intros [[op|]|e] db2 [Hq2 _]; cbn [on_ok]; [| |done].
  { apply wp_ret. apply Hsame. congruence. }
  apply wp_bind, wp_raise_if; cbn [on_ok]; [done|intros Hs]. freflect.
  apply wp_bind. eapply wp_mono; [apply guard_quiet|]. intros [[]|e] db3 [Hq3 _]; cbn [on_ok]; [|done].
  destruct (Hsame db3) as [Hb3 Hev3]; [congruence|].
  apply wp_bind. 
  assert (Hrest : forall previous, wp (if matching_closed_receipt (control_version d)
      then finish_and_record task_id identifier user (control_version d) previous None "restart_blocked_receipt" context now
      else
        match previous with
        | Some operation => st_ret operation
        | None => request_old_worker task_id identifier user (control_version d) context now
        end) (ok_evidenced db) db3).
  { intros previous. destruct (matching_closed_receipt (control_version d)) eqn:Em; [by apply record_evidenced|].
    destruct previous as [p|]; [by apply wp_ret|]. eapply wp_mono; [apply old_worker_quiet|].
    intros [op|e] db4 E; [|done]. by eapply evidenced_trans. }
  apply wp_find_one; cbn [on_ok]; intros; apply Hrest.
Qed.

(** A task that an administrator may declare isolated. *)
Definition blocked_task_of (task_id : string) (t : pydict) : Prop :=
  t.["id"] = PStr task_id /\ t.["status"] = BLOCKED /\ alive t = true.

Lemma isolation_release task_id identifier user evidence context now db :
  wp (isolation_commit task_id identifier user evidence context now) (fun r db' => match r with
    | Ok _ => forall x, x ∈ content db EndpointLocks -> x ∈ content db' EndpointLocks
        \/ exists t, t ∈ content db Tasks /\ t.["id"] = x.["taskId"] /\ t.["runId"] = x.["runId"] /\ blocked_task_of task_id t
    | Raise _ => True end) db.
Proof.
  unfold isolation_commit, claim_blocked. apply wp_bind, wp_bind, wp_update; cbn [on_ok].
  2:{ intros _. apply wp_bind, wp_find_one; cbn [on_ok]; intros; by apply wp_raise. }
  intros d db0 (Hq & (l & r & E1 & E2) & Ho). apply wp_ret. cbn [on_ok]. apply andb_prop in Hq as [Hid%fld_true Hal].
  apply wp_bind. eapply wp_mono; [apply accepted_quiet|]. intros [[op|]|e] db1 [Hq1 _]; cbn [on_ok]; [| |done].
  { apply wp_ret. intros x Hx. left. by rewrite Hq1, Ho. }
  apply wp_bind, wp_raise_if; cbn [on_ok]; [done|intros Hs]. freflect. rewrite version_fields in * by discriminate.
  apply wp_bind. eapply wp_mono; [apply guard_quiet|]. intros [[]|e] db2 [Hq2 _]; cbn [on_ok]; [|done].
  assert (Hfree : forall db3, locks_freed d.["id"] d.["runId"] db2 db3 ->
    forall x, x ∈ content db EndpointLocks -> x ∈ content db3 EndpointLocks
      \/ exists t, t ∈ content db Tasks /\ t.["id"] = x.["taskId"] /\ t.["runId"] = x.["runId"] /\ blocked_task_of task_id t).
  { intros db3 [_ Hl] x Hx. rewrite <- Ho, <- Hq1, <- Hq2 in Hx by done. destruct (Hl x Hx) as [?|[-> ->]]; [by left|right].
    exists d. split_and!; try done. rewrite E1. apply elem_of_middle. }
  apply wp_bind.
  assert (Hrest : forall previous, wp (finish_and_record task_id identifier user (control_version d) previous (Some evidence) "confirm_task_isolation" context now)
    (fun r db' => match r with
    | Ok _ => forall x, x ∈ content db EndpointLocks -> x ∈ content db' EndpointLocks
        \/ exists t, t ∈ content db Tasks /\ t.["id"] = x.["taskId"] /\ t.["runId"] = x.["runId"] /\ blocked_task_of task_id t
    | Raise _ => True end) db2).
  { intros previous. unfold finish_and_record. cbv zeta. apply wp_bind. eapply wp_mono; [apply finish_wp|].
    intros [[]|e] db3 Hf; cbn [on_ok]; [|done]. pose proof (fi_locks _ _ _ _ _ _ _ Hf) as Hl. rewrite !version_fields in Hl by discriminate.
    apply wp_bind. assert (Hlast : forall db4 (op : pydict), content db4 EndpointLocks = content db3 EndpointLocks ->
      wp (let! _ := audit context now user.["id"] "confirm_task_isolation" (PStr task_id) in st_ret op) (fun r db' => match r with
        | Ok _ => forall x, x ∈ content db EndpointLocks -> x ∈ content db' EndpointLocks
            \/ exists t, t ∈ content db Tasks /\ t.["id"] = x.["taskId"] /\ t.["runId"] = x.["runId"] /\ blocked_task_of task_id t
        | Raise _ => True end) db4).
    { intros db4 op E. apply wp_bind, wp_audit. intros a db5 _ _ Ho5. cbn [on_ok]. apply wp_ret. apply Hfree.
      unfold locks_freed in *. by rewrite Ho5, E by done. }
    destruct previous as [p|]; [by apply wp_ret, Hlast|].
    apply wp_insert; cbn [on_ok]; [|done]. intros db4 _ _ Ho4. apply Hlast. by apply Ho4. }
  apply wp_find_one; cbn [on_ok]; intros; apply Hrest.
Qed.

(** The transactions that may end a run without an administrator. *)
Inductive recovery_step : Type :=
  | PlannedRestart (task : pydict) (node_id token : string)
  | Finalize (task : pydict)
  | RestartBlocked (task_id identifier : string) (user context : pydict)
  | Failover (task_id : pyval) (server_now : Z).

Definition recover (s : recovery_step) (now : Z) (f : fate) : dbm unit :=
  let drop {A} (m : dbm A) : dbm unit := let! _ := m in st_ret tt in
  match s with
  | PlannedRestart task node_id token => drop (transaction f (recover_commit task node_id token now))
  | Finalize task => drop (finalize_closed_task task now f)
  | RestartBlocked task_id identifier user context =>
      drop (request_blocked_restart task_id identifier user context now f)
  | Failover task_id server_now => drop (transaction f (consume_commit task_id now server_now))
  end.

Lemma transaction_evidenced {A} (m : dbm A) f db :
  wp m (ok_evidenced db) db -> wp (transaction f m) (fun _ db' => evidenced db db') db.
Proof.
  intros Hm. apply wp_transaction. eapply wp_mono; [exact Hm|]. intros [a|e] db' He; [|by apply evidenced_same].
  destruct f as [|[]]; [done|done|by apply evidenced_same].
Qed.

(** Whichever of these runs, and however its commit ends, a lock that disappears
    belonged to the run of a task with evidence. *)
Lemma recover_released s now f db :
  let '(_, db') := recover s now f db in
  forall x, x ∈ content db EndpointLocks -> x ∉ content db' EndpointLocks ->
    exists t, t ∈ content db Tasks /\ t.["id"] = x.["taskId"] /\ t.["runId"] = x.["runId"] /\ closed_evidence t.
Proof.
  enough (Hwp : wp (recover s now f) (fun _ db' => evidenced db db') db).
  { unfold wp in Hwp. destruct (recover s now f db) as [r db']. intros x Hx Hx'. by destruct (Hwp x Hx). }
  destruct s as [task node_id token|task|task_id identifier user context|task_id server_now]; unfold recover.
  - apply wp_bind. eapply wp_mono; [apply transaction_evidenced, recover_evidenced|]. by intros [?|?] db' ?.
  - apply wp_bind. eapply wp_mono; [apply transaction_evidenced, finalize_evidenced|]. by intros [?|?] db' ?.
  - apply wp_bind. unfold request_blocked_restart. apply wp_bind, wp_raise_if; cbn [on_ok]; [intros _; by apply evidenced_same|].
    intros _. apply wp_catch. eapply wp_mono; [apply transaction_evidenced, restart_evidenced|].
    intros [?|e] db' ?; [done|]. by destruct (is_pymongo e).
  - apply wp_bind. eapply wp_mono; [apply transaction_evidenced, consume_evidenced|]. by intros [?|?] db' ?.
Qed.

(** The outcome of the finalizing transaction. *)
Definition finalized (task : pydict) (now : Z) (db : database) (r : result exn bool) (db' : database) : Prop :=
  match r with
  | Ok true => exists d db1 restart, d ∈ content db Tasks /\ owner_filter task d = true /\ d.["status"] = BLOCKED
      /\ matching_closed_receipt d = true /\ (restart = true -> truthy d.["restartRequested"] = true /\ alive d = true)
      /\ content db1 EndpointLocks = content db EndpointLocks
      /\ finished (control_version d) restart (control_version d).["controlOperationId"] None now db1 db'
  | Ok false => forall c, c ∈ [EndpointLocks; Runs; Commands; Operations] -> content db' c = content db c
  | Raise _ => True
  end.

Lemma alive_version d : alive (control_version d) = alive d.
Proof. unfold alive, fld. by rewrite !(version_fields _ d) by discriminate. Qed.

Lemma finalize_commit_wp task now db : wp (finalize_commit task now) (finalized task now db) db.
Proof.
  unfold finalize_commit. apply wp_bind, wp_update; cbn [on_ok]; [|intros _; by apply wp_ret].
  intros d db0 (Hq & (l & r & E1 & E2) & Ho). apply andb_prop in Hq as [Hown Hs]. apply fld_true in Hs.
  assert (Hno : forall db1, only_resources db0 db1 -> finalized task now db (Ok false) db1).
  { intros db1 Hf c Hc. rewrite Hf, Ho; [done| |]; intros ->; set_solver. }
  destruct (matching_closed_receipt (control_version d)) eqn:Em; cbn [negb]; [|apply wp_ret; by apply Hno].
  cbv zeta. set (restart := truthy _ && _). destruct (negb restart && _ && _); [apply wp_ret; by apply Hno|].
  assert (Hre : restart = true -> truthy d.["restartRequested"] = true /\ alive d = true).
  { unfold restart. rewrite version_fields, alive_version, negb_involutive by discriminate. apply andb_prop. }
  apply wp_bind.
  assert (Hlast : forall b db1, only_resources db0 db1 ->
    on_ok (fun ready : bool => if ready
      then let! _ := finish_blocked_run (control_version d) restart (control_version d).["controlOperationId"] None now in
           st_ret true
      else st_ret false) (finalized task now db) (Ok b) db1).
  { intros [] db1 Hf; cbn [on_ok]; [|apply wp_ret; by apply Hno].
    apply wp_bind. eapply wp_mono; [apply finish_wp|]. intros [[]|e] db'; cbn [on_ok]; [|done]. intros Hfin. apply wp_ret.
    exists d, db1, restart. rewrite version_receipt in Em. split_and!; try done.
    - rewrite E1. apply elem_of_middle.
    - rewrite Hf, Ho by done. done. }
  destruct restart; [|by apply wp_ret, Hlast].
  apply wp_bind, wp_find_one; cbn [on_ok]; [|intros _; by apply wp_ret, Hlast].
  intros op _ _. apply wp_bind. eapply wp_mono; [apply guard_wp|]. intros [[]|e] db1 [Hr _]; [|done]. cbn [on_ok].
  by apply wp_ret, Hlast.
Qed.

Lemma finish_update_fields restart operation_id evidence now d :
  let t := finish_update restart operation_id evidence now d in
  t.["id"] = d.["id"] /\ t.["nodeId"] = PNone /\ t.["status"] = STOPPED
  /\ t.["desiredState"] = if restart then RUNNING else STOPPED.
Proof. unfold finish_update. destruct (truthy _), evidence; cbn [set_all foldl fst snd]; by dget. Qed.

(** Consuming a closing receipt ends the run completely.  When the
    finalization of a blocked task reports success, the task carried the exact
    receipt and lost its node; no lock of it is left; none of the run's commands
    is still queued or being sent; no stop of it is pending; and it is restarted
    only if that was requested and neither the task nor its resource is deleted.
    When it reports that there is nothing to do, locks, runs, commands and
    operations are as they were. *)
Theorem finalize_ends_run task now f db :
  NoDup (map (fun d => d.["taskId"]) (content db EndpointLocks)) ->
  let '(r, db') := finalize_closed_task task now f db in
  match r with
  | Ok true => f = Committed /\ exists d t, d ∈ content db Tasks /\ owner_filter task d = true /\ d.["status"] = BLOCKED
      /\ matching_closed_receipt d = true
      /\ t ∈ content db' Tasks /\ t.["id"] = d.["id"] /\ t.["nodeId"] = PNone /\ t.["status"] = STOPPED
      /\ (t.["desiredState"] = RUNNING -> truthy d.["restartRequested"] = true /\ alive d = true)
      /\ no_match (fun x => fld x "taskId" d.["id"]) (content db' EndpointLocks)
      /\ commands_ended d.["id"] d.["runId"] db'
      /\ no_match (fun o => pending_operation d.["id"] STOPPED o) (content db' Operations)
  | Ok false => f = Committed /\ forall c, c ∈ [EndpointLocks; Runs; Commands; Operations] -> content db' c = content db c
  | Raise _ => True
  end.
Proof.
  intros Hnd. pose proof (finalize_commit_wp task now db) as Hwp. unfold finalize_closed_task, transaction, wp in *.
  destruct (finalize_commit task now db) as [[b|e] db']; [|done]. destruct f as [|applied]; [|done].
  destruct b; [|by split]. split; [done|]. destruct Hwp as (d & db1 & restart & Hd & Hown & Hs & Hm & Hre & Hel & Hfin).
  destruct Hfin as [_ _ Hun Hcmd (l & d' & r & E1 & E2 & Hown' & Hs' & _) Hops].
  rewrite (version_fields "id" d) in Hun, Hcmd, Hops by discriminate.
  rewrite (version_fields "runId" d) in Hcmd by discriminate.
  apply owner_filter_spec in Hown' as (Hid & _). rewrite version_fields in Hid by discriminate.
  destruct (finish_update_fields restart (control_version d).["controlOperationId"] None now d') as (F1 & F2 & F3 & F4).
  eexists d, _. split_and!; [done|done|done|done|rewrite E2; apply elem_of_middle|congruence|exact F2|exact F3| | |exact Hcmd|].
  - rewrite F4. destruct restart; [auto|done].
  - apply Hun. by rewrite Hel.
  - intros o Ho. apply not_true_iff_false. intros Hp. unfold pending_operation in Hp. freflect.
    by destruct (Hops o Ho) as [Hn _].
Qed.
End recovery.

(** ** Witness: a closed run of a blocked task that should stop *)

#[local] Instance plain_text : AddressText := {| normal_address := Some; int_of_str _ := None |}.
#[local] Existing Instance list_mongo.
#[local] Existing Instance list_mongo_laws.

Definition blocked_task : pydict :=
  [("id", PStr "t"); ("runId", PStr "r"); ("nodeId", PStr "n"); ("generation", PInt 1); ("sessionId", PStr "s");
   ("status", BLOCKED); ("desiredState", STOPPED);
   ("closedReceipt", PDict [("taskId", PStr "t"); ("runId", PStr "r"); ("generation", PInt 1); ("nodeId", PStr "n");
     ("sessionId", PStr "s"); ("instanceId", PStr "i"); ("closedAt", PTime (Aware 3))])].

Definition blocked_db : database := fun c =>
  match c with
  | Tasks => [blocked_task]
  | EndpointLocks => [[("taskId", PStr "t"); ("runId", PStr "r")]]
  | Commands => [[("id", PStr "c"); ("taskId", PStr "t"); ("runId", PStr "r"); ("status", PStr "SENDING")]]
  | _ => []
  end.

Lemma finalize_ends_run_witness :
  exists db', finalize_closed_task blocked_task 9 Committed blocked_db = (Ok true, db')
    /\ content db' EndpointLocks = [] /\ commands_ended (PStr "t") (PStr "r") db'.
Proof.
  assert (Hnd : NoDup (map (fun d => d.["taskId"]) (content blocked_db EndpointLocks))) by apply NoDup_singleton.
  pose proof (finalize_ends_run blocked_task 9 Committed blocked_db Hnd) as Hp.
  destruct (finalize_closed_task blocked_task 9 Committed blocked_db) as [r db'] eqn:E.
  assert (Hr : r = (finalize_closed_task blocked_task 9 Committed blocked_db).1) by by rewrite E.
  vm_compute in Hr. subst r. exists db'. split; [reflexivity|].
  assert (Hl : content db' EndpointLocks = content (finalize_closed_task blocked_task 9 Committed blocked_db).2 EndpointLocks)
    by by rewrite E.
  split; [rewrite Hl; vm_compute; reflexivity|].
  destruct Hp as (_ & d & t & Hd & _ & _ & _ & _ & _ & _ & _ & _ & _ & Hc & _).
  apply list_elem_of_singleton in Hd. subst d. exact Hc.
Defined.
