(* ===== verification/Interleave.v ===== *)
(** * A coroutine among others

    A coroutine runs alone between two `await`s; at an `await` other coroutines and
    processes act, and the awaited operation may answer, or fail with or without
    having been applied.  [Environment] is what they do, the same at every run of
    the coroutine from the same state; the theorems hold for every environment
    that acts by the steps it is allowed.  [triple] is the Hoare triple of a
    coroutine that keeps an invariant the others keep too. *)

From S2P Require Import Prelude PyValue Mongo.

(** A state that contains the documents of the store. *)
Class World `{Mongo} (S : Type) := { rows : S -> database; with_rows : S -> database -> S }.

(** What the others do before the [n]-th `await` ends, and how it ends: [None] is
    an answer; an exception may come after the operation was applied. *)
Class Environment (S : Type) := { others : nat -> S -> S; outcome : nat -> option (bool * exn) }.

(** The state, what was recorded for the theorems, the number of `await`s passed. *)
Record run (S L : Type) := Run { r_state : S; r_log : list L; r_step : nat }.
Arguments Run {S L} _ _ _.
Arguments r_state {S L} _.
Arguments r_log {S L} _.
Arguments r_step {S L} _.

Definition is_cancelled (e : exn) : bool := match e with CancelledError => true | _ => false end.

Section coroutine.
Context `{Mongo} {S L : Type} `{!World S} `{!Environment S}.

Abbreviation wm := (stm (run S L) exn).

Definition step (r : run S L) : run S L := Run (others (r_step r) (r_state r)) (r_log r) (Datatypes.S (r_step r)).

(** `await` of an operation on the store. *)
Definition await {A} (m : dbm A) : wm A := fun r =>
  let r' := step r in
  let '(a, db) := m (rows (r_state r')) in
  let done := Run (with_rows (r_state r') db) (r_log r') (r_step r') in
  match outcome (r_step r) with
  | None => (a, done)
  | Some (applied, e) => (Raise e, if applied then done else r')
  end.

(** `await` of an effect outside the store, run in a thread: it may fail, and a
    cancelled coroutine may leave before or after it.  [event] is recorded with it. *)
Definition perform (event : S -> list L) (f : S -> S) : wm unit := fun r =>
  let r' := step r in
  let done := Run (f (r_state r')) (event (r_state r') ++ r_log r') (r_step r') in
  match outcome (r_step r) with
  | None => (Ok tt, done)
  | Some (applied, e) => (Raise e, if applied then done else r')
  end.

(** What needs no `await`. *)
Definition observe {A} (f : S -> A) : wm A := fun r => (Ok (f (r_state r)), r).
Definition change (f : S -> S) : wm unit := fun r => (Ok tt, Run (f (r_state r)) (r_log r) (r_step r)).

(** `try` and `finally`: [k] sees how [m] ended. *)
Definition attempt {A B} (m : wm A) (k : result exn A -> wm B) : wm B := fun r => let '(a, r') := m r in k a r'.

(** ** Reasoning *)

Variable inv : S -> Prop.
Variable safe : L -> Prop.
(** A step of the others. *)
Variable act : S -> S -> Prop.
Hypothesis inv_act : forall s s', inv s -> act s s' -> inv s'.
Hypothesis others_act : forall n s, rtc act s (others n s).

Definition good (r : run S L) : Prop := inv (r_state r) /\ Forall safe (r_log r).

(** From a good run whose state satisfies [P], [m] gives a good run, and [Q] of
    the answer and the state. *)
Definition triple {A} (P : S -> Prop) (m : wm A) (Q : result exn A -> S -> Prop) : Prop :=
  forall r, good r -> P (r_state r) -> let '(a, r') := m r in good r' /\ Q a (r_state r').

Definition stable (P : S -> Prop) : Prop := forall s s', inv s -> P s -> act s s' -> P s'.

Lemma stable_others P n s : stable P -> inv s -> P s -> inv (others n s) /\ P (others n s).
Proof.
  intros Hst Hi Hp. pose proof (others_act n s) as Hs. revert Hi Hp. generalize (others n s), Hs. clear Hs. intros s' Hs.
  induction Hs as [s|s1 s2 s3 H1 _ IH]; [done|]. intros Hi Hp. apply IH; [by eapply inv_act|by eapply Hst].
Qed.

Lemma stable_true : stable (fun _ => True).
Proof. done. Qed.

Lemma stable_and P Q : stable P -> stable Q -> stable (fun s => P s /\ Q s).
Proof. intros Hp Hq s s' Hi [? ?] Hs. split; [by eapply Hp|by eapply Hq]. Qed.

Lemma co_ret {A} (P : S -> Prop) (a : A) (Q : result exn A -> S -> Prop) : (forall s, P s -> Q (Ok a) s) -> triple P (st_ret a) Q.
Proof. intros Hq r Hg Hp. cbn. auto. Qed.

Lemma co_raise {A} (P : S -> Prop) e (Q : result exn A -> S -> Prop) : (forall s, P s -> Q (Raise e) s) -> triple P (st_raise e) Q.
Proof. intros Hq r Hg Hp. cbn. auto. Qed.

Lemma co_weaken {A} (P P' : S -> Prop) (m : wm A) (Q Q' : result exn A -> S -> Prop) :
  triple P m Q -> (forall s, P' s -> P s) -> (forall a s, Q a s -> Q' a s) -> triple P' m Q'.
Proof. intros Hm Hp Hq r Hg HP. specialize (Hm r Hg (Hp _ HP)). destruct (m r). destruct Hm. auto. Qed.

Lemma co_attempt {A B} (P : S -> Prop) (R : result exn A -> S -> Prop) (m : wm A) (k : result exn A -> wm B) Q :
  triple P m R -> (forall a, triple (R a) (k a) Q) -> triple P (attempt m k) Q.
Proof. intros Hm Hk r Hg Hp. unfold attempt. specialize (Hm r Hg Hp). destruct (m r) as [a r']. destruct Hm. by apply Hk. Qed.

Lemma co_bind {A B} (P : S -> Prop) (R : result exn A -> S -> Prop) (m : wm A) (k : A -> wm B) (Q : result exn B -> S -> Prop) :
  triple P m R -> (forall e s, R (Raise e) s -> Q (Raise e) s) -> (forall a, triple (R (Ok a)) (k a) Q) -> triple P (st_bind m k) Q.
Proof.
  intros Hm He Hk r Hg Hp. unfold st_bind. specialize (Hm r Hg Hp).
  destruct (m r) as [[a|e] r']; destruct Hm; [by apply Hk|]. split; [done|by apply He].
Qed.

(** The others act, then the operation, which may fail unheard. *)
Lemma co_await {A} (P : S -> Prop) (m : dbm A) (Q : result exn A -> S -> Prop) :
  stable P ->
  (forall s, inv s -> P s ->
     wp m (fun a db => inv (with_rows s db) /\ Q a (with_rows s db) /\ forall e, Q (Raise e) (with_rows s db)) (rows s)) ->
  (forall e s, inv s -> P s -> Q (Raise e) s) -> triple P (await m) Q.
Proof.
  intros Hst Hm He r [Hi Hl] Hp. unfold await, step. cbn. destruct (stable_others P (r_step r) (r_state r) Hst Hi Hp) as [Hi' Hp'].
  specialize (Hm _ Hi' Hp'). unfold wp in Hm. destruct (m (rows (others (r_step r) (r_state r)))) as [a db].
  destruct Hm as (Hi2 & Hq & Hr). destruct (outcome (r_step r)) as [[[] e]|]; (split; [by split|]); cbn; auto.
Qed.

Lemma co_perform (P : S -> Prop) event f (Q : result exn unit -> S -> Prop) :
  stable P ->
  (forall s, inv s -> P s -> inv (f s) /\ Forall safe (event s) /\ forall a, Q a (f s)) ->
  (forall e s, inv s -> P s -> Q (Raise e) s) -> triple P (perform event f) Q.
Proof.
  intros Hst Hf He r [Hi Hl] Hp. unfold perform, step. cbn. destruct (stable_others P (r_step r) (r_state r) Hst Hi Hp) as [Hi' Hp'].
  destruct (Hf _ Hi' Hp') as (Hi2 & Hev & Hq).
  destruct (outcome (r_step r)) as [[[] e]|]; (split; [split; [done|by try apply Forall_app_2]|]); cbn; auto.
Qed.

Lemma co_observe {A} (P : S -> Prop) (f : S -> A) : triple P (observe f) (fun a s => a = Ok (f s) /\ P s).
Proof. intros r Hg Hp. by split. Qed.

Lemma co_change (P : S -> Prop) f (Q : S -> Prop) : (forall s, inv s -> P s -> inv (f s) /\ Q (f s)) ->
  triple P (change f) (fun a s => a = Ok tt /\ Q s).
Proof. intros Hf r [Hi Hl] Hp. cbn. destruct (Hf _ Hi Hp). split; [by split|done]. Qed.
End coroutine.

(** ** Single steps

    What the environment does around one step: the others first, then the clock of the
    step and, when it is a transaction, how its commit ends. *)
Record turn `{Mongo} := Turn { t_others : database -> database; t_now : Z; t_fate : fate }.

Section turns.
Context `{Mongo}.

(** A transaction among others, and an operation outside a transaction. *)
Definition in_turn {A} (t : turn) (m : Z -> dbm A) : dbm A := fun db => transaction (t_fate t) (m (t_now t)) (t_others t db).
Definition after_others {A} (t : turn) (m : Z -> dbm A) : dbm A := fun db => m (t_now t) (t_others t db).
End turns.
