(* ===== verification/Deployment.v ===== *)
(** * Restarting a Worker on purpose ([node/deployment_recovery.py])

    Before a Worker is replaced, [prepare_deployment_recovery] freezes the owner of every
    run of the node and the state of its open log files under a token.  Once the old
    container is known to have stopped, [complete_deployment_recovery] proves the end of
    exactly these runs and files and gives a task back to the scheduler when the user
    still wants it to run and nothing has changed its control in between. *)

From stdpp Require Import sets.
From S2P Require Import Prelude PyTime PyValue Ordering Mongo Ownership TaskRules SshSlots Recovery Interleave.
Open Scope camera_scope.
Open Scope Z_scope.

Definition PAUSED := PStr "PAUSED".
Definition OPEN := PStr "OPEN".

Definition _IDENTITY : list string := ["id"; "taskId"; "runId"; "nodeId"; "generation"; "sessionId"].
Definition _FILE_IDENTITY : list string := ["id"; "path"; "sessionId"].

(** `re.fullmatch("[0-9a-f]{32}", token)`. *)
Definition hex_digit (c : Ascii.ascii) : bool :=
  let n := Ascii.nat_of_ascii c in ((48 <=? n) && (n <=? 57) || (97 <=? n) && (n <=? 102))%nat.
Definition valid_token (token : string) : bool :=
  (String.length token =? 32)%nat && forallb hex_digit (String.list_ascii_of_string token).

(** A field of a subdocument, as the dotted keys of a filter read it. *)
Definition sub_fld (d : pydict) (k k' : string) (v : pyval) : bool := fld (dict_sub d k) k' v.

(** [_task_identity]. *)
Definition _task_identity (task : pydict) : option pydict :=
  let values := [("id", task.["id"]); ("taskId", task.["id"]); ("runId", task.["runId"]); ("nodeId", task.["nodeId"]);
                 ("generation", task.["generation"]); ("sessionId", task.["sessionId"])] in
  if forallb (fun k => negb (fld values k PNone)) _IDENTITY then Some values else None.

(** [_owner_filter] and [_run_owner_filter]. *)
Definition _owner_filter (identity d : pydict) : bool :=
  fld d "id" identity.["taskId"] && fld d "runId" identity.["runId"] && fld d "nodeId" identity.["nodeId"]
  && fld d "generation" identity.["generation"] && fld d "sessionId" identity.["sessionId"].
Definition _run_owner_filter (identity d : pydict) : bool :=
  fld d "id" identity.["runId"] && fld d "taskId" identity.["taskId"] && fld d "nodeId" identity.["nodeId"]
  && fld d "generation" identity.["generation"].

(** `d | changes`. *)
Definition union (d changes : pydict) : pydict := set_all changes d.

(** The frozen owner of a task: its identity, the token and its control state. *)
Definition recovery_marker (token prepared_at : string) (task identity : pydict) : pydict :=
  union identity [("token", PStr token); ("preparedAt", PStr prepared_at); ("desiredState", task.["desiredState"]);
    ("controlClaimVersion", task.["controlClaimVersion"]); ("controlOperationId", task.["controlOperationId"])].

(** The frozen state of a file. *)
Definition file_marker (marker file : pydict) : pydict :=
  union marker [("fileId", file.["id"]); ("path", file.["path"]); ("sessionId", file.["sessionId"]);
    ("createdAt", file.["createdAt"]); ("watermark", file.["bytes"]); ("firstSequence", file.["firstSequence"])].

Definition recovery_of (d : pydict) : pydict := dict_sub d "deploymentRecovery".
Definition freeze (marker : pydict) : pydict -> pydict := set_all [("deploymentRecovery", PDict marker)].
Definition marked (token : string) (d : pydict) : bool := sub_fld d "deploymentRecovery" "token" (PStr token).

Section deployment.
Context `{AddressText} `{Mongo}.

(** ** Preparation *)

(** One update per file; a file without identity or an update that finds nothing ends the
    transaction. *)
Fixpoint update_files (complete : pydict -> bool) (q : pydict -> pydict -> bool) (f : pydict -> pydict -> pydict) (incomplete lost : string)
    (files : list pydict) : dbm unit :=
  match files with
  | [] => st_ret tt
  | file :: files =>
      let! _ := raise_if (negb (complete file)) (RuntimeError incomplete) in
      let! changed := update_one Files (q file) (f file) in
      let! _ := raise_if (negb changed) (RuntimeError lost) in
      update_files complete q f incomplete lost files
  end.

Definition identified (file : pydict) : bool := negb (existsb (fun k => fld_in file k [PNone; PStr ""]) _FILE_IDENTITY).

Definition freeze_files (marker : pydict) : list pydict -> dbm unit :=
  update_files identified
    (fun file d => fld d "id" file.["id"] && fld d "path" file.["path"] && fld d "sessionId" file.["sessionId"] && fld d "status" OPEN)
    (fun file => freeze (file_marker marker file))
    "部署预备原始日志身份不完整" "部署预备原始日志在事务中变化".

(** The `commit` of [prepare_deployment_recovery]. *)
Definition prepare_commit (identity marker : pydict) : dbm string :=
  let! run := find_one Runs (_run_owner_filter identity) in
  match run with
  | None => st_ret "missingRun"
  | Some run =>
      if negb (fld_in run "sessionId" [PNone; identity.["sessionId"]]) then st_ret "runSessionConflict"
      else
        let! changed := update_one Tasks (_owner_filter identity) (freeze marker) in
        if negb changed then st_ret "ownerChanged"
        else
          let! changed := update_one Runs (fun d => _run_owner_filter identity d && fld d "sessionId" run.["sessionId"]) (freeze marker) in
          let! _ := raise_if (negb changed) (RuntimeError "部署预备运行归属在事务中变化") in
          let! files := find_all Files (fun d => fld d "taskId" identity.["taskId"] && fld d "runId" identity.["runId"]
            && fld d "nodeId" identity.["nodeId"] && fld d "status" OPEN) in
          let! _ := freeze_files marker files in
          st_ret "prepared"
  end.

(** One candidate: a task that was only assigned is released, one without a complete
    owner is left, any other is frozen. *)
Definition prepare_task (node_id token prepared_at : string) (t : turn) (task : pydict) : dbm string :=
  match _task_identity task with
  | None =>
      if fld task "status" PENDING && fld task "runId" PNone && fld task "sessionId" PNone
      then
        let! released := after_others t (fun now => update_modified Tasks
          (fun d => fld d "id" task.["id"] && fld d "nodeId" (PStr node_id) && fld d "status" PENDING && fld d "runId" PNone)
          (set_all [("nodeId", PNone); ("status", STOPPED); ("updatedAt", PTime (Aware now))])) in
        st_ret (if released then "pendingReleased" else "ownerChanged")
      else st_ret "incompleteOwner"
  | Some identity => in_turn t (fun _ => prepare_commit identity (recovery_marker token prepared_at task identity))
  end.

Fixpoint prepare_each (node_id token prepared_at : string) (turns : nat -> turn) (i : nat) (tasks : list pydict) : dbm (list string) :=
  match tasks with
  | [] => st_ret []
  | task :: tasks =>
      let! outcome := prepare_task node_id token prepared_at (turns i) task in
      let! outcomes := prepare_each node_id token prepared_at turns (S i) tasks in
      st_ret (outcome :: outcomes)
  end.

(** [prepare_deployment_recovery]; the counter is the list it counts. *)
Definition prepare_deployment_recovery (node_id token prepared_at : string) (turns : nat -> turn) : dbm (list string) :=
  let! _ := raise_if (negb (valid_token token)) (ValueError "部署恢复令牌格式无效") in
  let! candidates := after_others (turns 0%nat) (fun _ => find_all Tasks (fun d => fld d "nodeId" (PStr node_id))) in
  prepare_each node_id token prepared_at turns 1 candidates.

(** ** Completion *)

(** The proof that the frozen run is closed. *)
Definition closed_proof (node_id token confirmed_at : string) (identity : pydict) : pydict :=
  [("token", PStr token); ("nodeId", PStr node_id); ("taskId", identity.["taskId"]); ("runId", identity.["runId"]);
   ("generation", identity.["generation"]); ("sessionId", identity.["sessionId"]); ("confirmedAt", PStr confirmed_at)].

Definition file_proof (proof marker : pydict) : pydict :=
  union proof [("fileId", marker.["fileId"]); ("path", marker.["path"]); ("sessionId", marker.["sessionId"]);
    ("createdAt", marker.["createdAt"]); ("watermark", marker.["watermark"]); ("firstSequence", marker.["firstSequence"])].

Definition prove (proof : pydict) (d : pydict) : pydict :=
  dict_unset (dict_set d "deploymentClosedProof" (PDict proof)) "deploymentRecovery".

Definition proves (token : string) (file d : pydict) : bool :=
  let marker := recovery_of file in
  fld d "id" marker.["fileId"] && fld d "path" marker.["path"] && fld d "sessionId" marker.["sessionId"]
  && fld d "status" OPEN && marked token d.

Definition prove_files (token : string) (proof : pydict) : list pydict -> dbm unit :=
  update_files (fun _ => true) (proves token) (fun file => prove (file_proof proof (recovery_of file)))
    "" "部署关闭原始日志在事务中变化".

(** The files frozen with a run. *)
Definition frozen_file (node_id token : string) (identity d : pydict) : bool :=
  marked token d && sub_fld d "deploymentRecovery" "nodeId" (PStr node_id)
  && sub_fld d "deploymentRecovery" "taskId" identity.["taskId"] && sub_fld d "deploymentRecovery" "runId" identity.["runId"]
  && sub_fld d "deploymentRecovery" "generation" identity.["generation"] && fld d "status" OPEN.

(** Whether the user still wants the task that was frozen. *)
Definition control_matches (prepared task : pydict) : bool :=
  fld task "desiredState" RUNNING && fld task "controlClaimVersion" prepared.["controlClaimVersion"]
  && fld task "controlOperationId" prepared.["controlOperationId"] && negb (fld task "resourceDeleted" (PBool true)).

Definition run_proof_update (proof : pydict) (preserve : bool) (now : Z) (d : pydict) : pydict :=
  dict_unset (set_all ([("sessionId", proof.["sessionId"]); ("deploymentClosedProof", PDict proof)]
    ++ if preserve then [] else [("endedAt", PTime (Aware now)); ("endReason", PStr "CONTROLLED_DEPLOYMENT")]) d) "deploymentRecovery".

Definition delete_lock (identity : pydict) : dbm bool :=
  delete_one EndpointLocks (fun d => fld d "taskId" identity.["taskId"] && fld d "runId" identity.["runId"]).

(** The end of a frozen run in the transaction: its SSH claims, its commands unless the
    user has paused it, its task and its lock. *)
Definition settle (identity task : pydict) (paused : bool) (q : pydict -> bool) (f : pydict -> pydict) (lost outcome : string) (now : Z)
    : dbm (list string) :=
  let! _ := release_slots task now in
  let! _ := if paused then st_ret tt else end_commands identity.["taskId"] identity.["runId"] now in
  let! changed := update_one Tasks q f in
  let! _ := raise_if (negb changed) (RuntimeError lost) in
  let! _ := delete_lock identity in
  st_ret ["proved"; outcome].

(** The task whose control changed keeps what the user wants. *)
Definition settle_changed (token : string) (identity task : pydict) (now : Z) : dbm (list string) :=
  let paused := fld task "desiredState" PAUSED in
  settle identity task paused (fun d => _owner_filter identity d && marked token d)
    (fun d => dict_unset (set_all [("nodeId", PNone); ("status", if paused then PAUSED else STOPPED);
                                   ("updatedAt", PTime (Aware now))] d) "deploymentRecovery")
    "部署恢复控制状态在事务中变化" "controlChanged" now.

(** The task goes back to the scheduler. *)
Definition settle_released (token : string) (prepared identity task : pydict) (now : Z) : dbm (list string) :=
  settle identity task false (fun d => _owner_filter identity d && marked token d && control_matches prepared d)
    (fun d => unset_all ["deploymentRecovery"; "plannedRestart"; "plannedRestartNodeId"; "plannedRestartToken"; "closedReceipt"]
      (set_all [("nodeId", PNone); ("status", STOPPED); ("error", PNone); ("restartRequested", PBool false);
                ("updatedAt", PTime (Aware now)); ("recoveryReason", PStr "CONTROLLED_DEPLOYMENT")] d))
    "部署恢复任务归属在事务中变化" "released" now.

(** The pause of a run that the user has asked for. *)
Definition keeps_run (identity : pydict) (current_task : option pydict) : bool :=
  match current_task with
  | Some t => fld t "runId" identity.["runId"] && fld t "desiredState" PAUSED
  | None => false
  end.

(** The `commit` of [_complete_run]; [confirmed_at] is the text of its clock. *)
Definition complete_commit (node_id token confirmed_at : string) (prepared identity : pydict) (now : Z) : dbm (list string) :=
  let! current_run := find_one Runs (fun d => _run_owner_filter identity d && marked token d) in
  match current_run with
  | None => st_ret ["runChanged"]
  | Some _ =>
      let! task := find_one Tasks (fun d => _owner_filter identity d && marked token d) in
      let! foreign := foreign_lock identity.["taskId"] identity.["runId"] in
      let! _ := raise_if (match task with Some _ => foreign | None => false end) (RuntimeError "部署恢复发现后继运行锁") in
      let! current_task := match task with
                           | Some t => st_ret (Some t)
                           | None => find_one Tasks (fun d => fld d "id" identity.["taskId"])
                           end in
      let proof := closed_proof node_id token confirmed_at identity in
      let! changed := update_one Runs
        (fun d => _run_owner_filter identity d && marked token d
                  && (absent d "sessionId" || fld d "sessionId" PNone || fld d "sessionId" identity.["sessionId"]))
        (run_proof_update proof (keeps_run identity current_task) now) in
      let! _ := raise_if (negb changed) (RuntimeError "部署关闭证明在事务中变化") in
      let! files := find_all Files (frozen_file node_id token identity) in
      let! _ := prove_files token proof files in
      match task with
      | None => st_ret ["proved"; "taskChanged"]
      | Some task => if control_matches prepared task then settle_released token prepared identity task now
                     else settle_changed token identity task now
      end
  end.

(** [_complete_run]. *)
Definition _complete_run (node_id token confirmed_at : string) (t : turn) (marker : pydict) : dbm (list string) :=
  let prepared := recovery_of marker in
  let identity := map (fun k => (k, prepared.[k])) _IDENTITY in
  if negb (fld identity "nodeId" (PStr node_id)) || existsb (fun k => fld identity k PNone) _IDENTITY
  then st_ret ["invalidMarker"]
  else in_turn t (complete_commit node_id token confirmed_at prepared identity).

Fixpoint complete_each (node_id token confirmed_at : string) (turns : nat -> turn) (i : nat) (markers : list pydict) : dbm (list string) :=
  match markers with
  | [] => st_ret []
  | marker :: markers =>
      let! outcome := _complete_run node_id token confirmed_at (turns i) marker in
      let! outcomes := complete_each node_id token confirmed_at turns (S i) markers in
      st_ret (outcome ++ outcomes)
  end.

(** [complete_deployment_recovery]. *)
Definition complete_deployment_recovery (node_id token confirmed_at : string) (turns : nat -> turn) : dbm (list string) :=
  let! _ := raise_if (negb (valid_token token)) (ValueError "部署恢复令牌格式无效") in
  let! markers := after_others (turns 0%nat) (fun _ => find_all Runs
    (fun d => marked token d && sub_fld d "deploymentRecovery" "nodeId" (PStr node_id))) in
  complete_each node_id token confirmed_at turns 1 markers.
End deployment.
