(* ===== verification/DeploymentFacts.v ===== *)
(** * What a planned restart of a Worker ends *)

From stdpp Require Import sets.
From S2P Require Import Prelude PyTime PyValue Ordering Mongo Ownership TaskRules SshSlots Recovery Interleave Deployment.
Open Scope camera_scope.
Open Scope Z_scope.

Section deployment.
Context `{AddressText} `{Mongo} `{!MongoLaws}.

(** A relation between the rows before and after a sequence of updates of single rows. *)
Lemma wp_update_files complete q f s1 s2 (R : pydict -> pydict -> Prop) files (Q : result exn unit -> database -> Prop) db db0 :
  (forall x d d', x ∈ files -> R d d' -> q x d' = true -> R d (f x d')) ->
  Forall2 R (content db0 Files) (content db Files) -> frame [Files] db0 db ->
  (forall e db', Q (Raise e) db') ->
  (forall db', Forall2 R (content db0 Files) (content db' Files) -> frame [Files] db0 db' -> Q (Ok tt) db') ->
  wp (update_files complete q f s1 s2 files) Q db.
Proof.
  intros HR HF Hf He HQ. revert db HF Hf. induction files as [|x files IH]; intros db HF Hf; cbn [update_files]; [by apply wp_ret, HQ|].
  wp_step. wp_step; [by apply He|]. unfold on_ok. wp_step. apply wp_update_one; unfold on_ok.
  - intros d db' (Hq & (l & r & E & E') & Ho). cbn [negb raise_if]. wp_step. apply wp_ret; unfold on_ok. apply IH.
    + intros y d1 d2 Hy. apply HR. by right.
    + rewrite E in HF. rewrite E'. apply Forall2_app_inv_r in HF as (l0 & r0 & HFl & HFr & ->).
      apply Forall2_cons_inv_r in HFr as (d0 & r1 & Hd & Hr & ->). apply Forall2_app; [done|]. constructor; [|done]. apply HR; [by left|done|done].
    + eapply frame_join; [exact Hf|by apply frame_one].
  - intros _. cbn [negb raise_if]. wp_step. apply wp_raise, He.
Qed.

Definition same_or (R : pydict -> pydict -> Prop) (d d' : pydict) : Prop := d' = d \/ R d d'.

Lemma same_rows R l : Forall2 (same_or R) l l.
Proof. apply Forall_Forall2_diag, Forall_forall. intros d _. by left. Qed.

Lemma updated_rows (R : pydict -> pydict -> Prop) c q f d db db' : updated c q f d db db' -> R d (f d) ->
  Forall2 (same_or R) (content db c) (content db' c).
Proof.
  intros (_ & (l & r & -> & ->) & _) Hd. apply Forall2_app; [apply same_rows|]. constructor; [by right|apply same_rows].
Qed.

(** The user has paused the run. *)
Definition paused_intent (identity : pydict) (db : database) : Prop :=
  exists t, t ∈ content db Tasks /\ t.["id"] = identity.["taskId"] /\ t.["runId"] = identity.["runId"] /\ t.["desiredState"] = PAUSED.

(** A frozen task is given back: it keeps what the user wants of it. *)
Record task_settled (identity : pydict) (token : string) (t t' : pydict) : Prop := {
  ts_owner : _owner_filter identity t = true;
  ts_marked : marked token t = true;
  ts_id : t'.["id"] = t.["id"];
  ts_run : t'.["runId"] = t.["runId"];
  ts_intent : t'.["desiredState"] = t.["desiredState"];
  ts_free : t'.["nodeId"] = PNone;
  ts_status : t'.["status"] = if fld t "desiredState" PAUSED then PAUSED else STOPPED }.

(** A frozen run is proved closed; it ends unless the user has paused it. *)
Definition run_closed (identity : pydict) (token : string) (proof : pydict) (paused : Prop) (now : Z) (r r' : pydict) : Prop :=
  _run_owner_filter identity r = true /\ marked token r = true
  /\ exists preserve, r' = run_proof_update proof preserve now r /\ (preserve = true <-> paused).

(** A frozen file is proved closed with the identity it has and the state that was frozen. *)
Definition file_proved (node_id token : string) (identity proof : pydict) (files : list pydict) (f f' : pydict) : Prop :=
  exists x, x ∈ files /\ frozen_file node_id token identity x = true /\ proves token x f = true
    /\ f' = prove (file_proof proof (recovery_of x)) f.

Lemma prove_unmarked token proof f : marked token (prove proof f) = false.
Proof. unfold marked, sub_fld, dict_sub, prove. rewrite get_unset_eq. by apply fld_false. Qed.

Lemma wp_prove_files node_id token identity proof files (Q : result exn unit -> database -> Prop) db :
  (forall x, x ∈ files -> x ∈ content db Files /\ frozen_file node_id token identity x = true) ->
  (forall e db', Q (Raise e) db') ->
  (forall db', Forall2 (same_or (file_proved node_id token identity proof (content db Files))) (content db Files) (content db' Files) ->
    frame [Files] db db' -> Q (Ok tt) db') ->
  wp (prove_files token proof files) Q db.
Proof.
  intros Hfiles He HQ.
  apply (wp_update_files _ _ _ _ _ (same_or (file_proved node_id token identity proof (content db Files))) files Q db db); try done.
  - intros x d d' Hx Hd Hq. destruct (Hfiles x Hx) as [Hin Hfr]. destruct Hd as [->|(y & _ & _ & _ & ->)].
    + right. by exists x.
    + apply andb_prop in Hq as [_ Hm]. by rewrite prove_unmarked in Hm.
  - apply same_rows.
Qed.

(** What one completing transaction leaves; identifiers of tasks are unique. *)
Definition unique_tasks (db : database) : Prop := NoDup (map (fun d : pydict => d.["id"]) (content db Tasks)).

Record completed (node_id token confirmed_at : string) (identity : pydict) (now : Z) (db db' : database) : Prop := {
  cm_tasks : unique_tasks db -> Forall2 (same_or (task_settled identity token)) (content db Tasks) (content db' Tasks);
  cm_runs : unique_tasks db ->
    Forall2 (same_or (run_closed identity token (closed_proof node_id token confirmed_at identity) (paused_intent identity db) now))
      (content db Runs) (content db' Runs);
  cm_files : Forall2 (same_or (file_proved node_id token identity (closed_proof node_id token confirmed_at identity) (content db Files)))
              (content db Files) (content db' Files);
  cm_locks : content db' EndpointLocks ⊆ content db EndpointLocks /\ forall x, x ∈ content db EndpointLocks ->
    x ∈ content db' EndpointLocks \/ (x.["taskId"] = identity.["taskId"] /\ x.["runId"] = identity.["runId"]
      /\ (exists t, t ∈ content db Tasks /\ _owner_filter identity t = true /\ marked token t = true)
      /\ exists r, r ∈ content db Runs /\ _run_owner_filter identity r = true /\ marked token r = true);
  cm_commands : content db' Commands = content db Commands
    \/ ((unique_tasks db -> ~ paused_intent identity db) /\ commands_ended identity.["taskId"] identity.["runId"] db');
  cm_frame : frame [Tasks; Runs; Files; EndpointLocks; Commands; SshSlots] db db' }.

Lemma completed_refl node_id token confirmed_at identity now db : completed node_id token confirmed_at identity now db db.
Proof. split; try (intros; apply same_rows); [split; [done|by left]|by left|done]. Qed.

Lemma wp_delete_lock identity (Q : result exn bool -> database -> Prop) db :
  (forall b db', frame [EndpointLocks] db db' -> locks_freed identity.["taskId"] identity.["runId"] db db' -> Q (Ok b) db') ->
  wp (delete_lock identity) Q db.
Proof.
  intros HQ. apply wp_delete.
  - intros l d r db' Hq E E' Ho. apply HQ; [by apply frame_one|]. apply andb_prop in Hq as [Ht%fld_true Hr%fld_true].
    unfold locks_freed. rewrite E, E'. split; [set_solver|]. intros x [Hx|[->|Hx]%elem_of_cons]%elem_of_app; [left; set_solver|by right|left; set_solver].
  - intros _. apply HQ; [done|]. by apply locks_freed_same.
Qed.

Lemma wp_settle identity task paused q f lost outcome now (R : pydict -> pydict -> Prop) (Q : result exn (list string) -> database -> Prop) db :
  (forall d, d ∈ content db Tasks -> q d = true -> R d (f d)) ->
  (forall e db', Q (Raise e) db') ->
  (forall db', frame [Tasks; EndpointLocks; Commands; SshSlots] db db' -> Forall2 (same_or R) (content db Tasks) (content db' Tasks) ->
    locks_freed identity.["taskId"] identity.["runId"] db db' ->
    (content db' Commands = content db Commands \/ (paused = false /\ commands_ended identity.["taskId"] identity.["runId"] db')) ->
    Q (Ok ["proved"; outcome]) db') ->
  wp (settle identity task paused q f lost outcome now) Q db.
Proof.
  intros HR He HQ. unfold settle. wp_step. apply release_slots_wp; unfold on_ok; [|intros; by apply He]. intros db1 Hf1. wp_step.
  assert (Hrest : forall db2, frame [Commands] db1 db2 ->
    (content db2 Commands = content db1 Commands \/ (paused = false /\ commands_ended identity.["taskId"] identity.["runId"] db2)) ->
    wp (let! changed := update_one Tasks q f in
        let! _ := raise_if (negb changed) (RuntimeError lost) in
        let! _ := delete_lock identity in st_ret ["proved"; outcome]) Q db2).
  { intros db2 Hf2 Hc. assert (Hf : frame [SshSlots; Commands] db db2) by (eapply (frame_trans [SshSlots] [Commands]); eassumption).
    wp_step. apply wp_update_one; unfold on_ok; [|intros _; wp_step; apply wp_raise, He].
    intros d db3 Hu. cbn [negb raise_if]. wp_step. apply wp_ret; unfold on_ok. wp_step. apply wp_delete_lock; unfold on_ok.
    intros b db4 Hf4 Hl. assert (Ht : Forall2 (same_or R) (content db2 Tasks) (content db3 Tasks)).
    { apply (updated_rows R _ _ _ _ _ _ Hu). destruct Hu as (Hq & (l & r & E & _) & _). apply HR; [|done].
      rewrite <- (Hf Tasks) by set_solver. rewrite E. apply elem_of_middle. }
    destruct Hu as (_ & _ & Ho). assert (Hf3 : frame [Tasks] db2 db3) by by apply frame_one.
    apply wp_ret, HQ.
    - eapply frame_weaken; [eapply frame_trans; [exact Hf|eapply frame_trans; [exact Hf3|exact Hf4]]|set_solver].
    - rewrite (Hf4 Tasks) by set_solver. by rewrite <- (Hf Tasks) by set_solver.
    - unfold locks_freed in *. by rewrite (Hf3 EndpointLocks), (Hf EndpointLocks) in Hl by set_solver.
    - unfold commands_ended in *. rewrite (Hf4 Commands), (Hf3 Commands) by set_solver. rewrite (Hf1 Commands) in Hc by set_solver. done. }
  destruct paused.
  - apply wp_ret; unfold on_ok. apply Hrest; [done|by left].
  - apply end_commands_wp; unfold on_ok. intros db2 Hf2 Hc. apply Hrest; [done|by right].
Qed.

Lemma settled_changed identity token task d : task.["desiredState"] = d.["desiredState"] -> _owner_filter identity d && marked token d = true ->
  forall now, task_settled identity token d (dict_unset (set_all [("nodeId", PNone);
    ("status", if fld task "desiredState" PAUSED then PAUSED else STOPPED); ("updatedAt", PTime (Aware now))] d) "deploymentRecovery").
Proof.
  intros E [Ho Hm]%andb_prop now. unfold set_all. cbn [foldl fst snd]. split; try done; dget; try done. unfold fld. by rewrite E.
Qed.

Lemma settled_released prepared identity token d : _owner_filter identity d && marked token d && control_matches prepared d = true ->
  forall now, task_settled identity token d
    (unset_all ["deploymentRecovery"; "plannedRestart"; "plannedRestartNodeId"; "plannedRestartToken"; "closedReceipt"]
      (set_all [("nodeId", PNone); ("status", STOPPED); ("error", PNone); ("restartRequested", PBool false);
                ("updatedAt", PTime (Aware now)); ("recoveryReason", PStr "CONTROLLED_DEPLOYMENT")] d)).
Proof.
  intros [[Ho Hm]%andb_prop Hc]%andb_prop now. unfold set_all, unset_all. cbn [foldl fst snd]. split; try done; dget; try done.
  unfold control_matches in Hc. freflect. unfold fld. rewrite bool_decide_eq_false_2; [done|].
  match goal with E : _ = RUNNING |- _ => by rewrite E end.
Qed.
(** ** One completing transaction *)

Section completion.
Variables (node_id token confirmed_at : string) (prepared identity : pydict) (now : Z) (db : database).

Abbreviation proof := (closed_proof node_id token confirmed_at identity).

(** The task whose owner the transaction has found. *)
Definition found_task (task : option pydict) : Prop :=
  match task with Some t => t ∈ content db Tasks /\ _owner_filter identity t = true /\ marked token t = true | None => True end.

Lemma keeps_run_paused task current : found_task task ->
  match task with
  | Some t => current = Some t
  | None => match current with
            | Some t => t ∈ content db Tasks /\ t.["id"] = identity.["taskId"]
            | None => no_match (fun d => fld d "id" identity.["taskId"]) (content db Tasks)
            end
  end -> unique_tasks db -> keeps_run identity current = true <-> paused_intent identity db.
Proof.
  intros Ht Hc Hu. assert (Hcur : match current with
    | Some t => t ∈ content db Tasks /\ t.["id"] = identity.["taskId"]
    | None => no_match (fun d => fld d "id" identity.["taskId"]) (content db Tasks) end).
  { destruct task as [t|]; [|done]. subst current. destruct Ht as (Hin & Ho & _). split; [done|]. unfold _owner_filter in Ho. by freflect. }
  unfold keeps_run, paused_intent. destruct current as [t|].
  - destruct Hcur as [Hin Hid]. rewrite andb_true_iff, !fld_true. split; [intros [Hr Hp]; by exists t|].
    intros (t' & Hin' & Hid' & Hr & Hp). assert (t' = t) as -> by (apply (NoDup_map_eq _ _ _ _ Hu Hin' Hin); congruence). done.
  - split; [done|]. intros (t & Hin & Hid & _). specialize (Hcur t Hin). cbn in Hcur. by apply fld_false in Hcur.
Qed.

(** After the proof of the run and its files, the task is settled. *)
Lemma wp_settle_task task t db2 : t = task -> found_task (Some t) ->
  frame [Runs; Files] db db2 ->
  (unique_tasks db -> Forall2 (same_or (run_closed identity token proof (paused_intent identity db) now)) (content db Runs) (content db2 Runs)) ->
  Forall2 (same_or (file_proved node_id token identity proof (content db Files))) (content db Files) (content db2 Files) ->
  (exists r, r ∈ content db Runs /\ _run_owner_filter identity r = true /\ marked token r = true) ->
  wp (if control_matches prepared t then settle_released token prepared identity t now else settle_changed token identity t now)
    (fun r db' => match r with Ok _ => completed node_id token confirmed_at identity now db db' | Raise _ => True end) db2.
Proof.
  intros -> (Hin & Hown & Hm) Hf Hruns Hfiles Hrun.
  assert (Hdone : forall paused db', frame [Tasks; EndpointLocks; Commands; SshSlots] db2 db' ->
    Forall2 (same_or (fun d d' => unique_tasks db -> task_settled identity token d d')) (content db2 Tasks) (content db' Tasks) ->
    locks_freed identity.["taskId"] identity.["runId"] db2 db' ->
    (paused = false -> unique_tasks db -> ~ paused_intent identity db) ->
    (content db' Commands = content db2 Commands \/ (paused = false /\ commands_ended identity.["taskId"] identity.["runId"] db')) ->
    completed node_id token confirmed_at identity now db db').
  { intros paused db' Hf' Ht [Hsub Hl] Hp Hc. rewrite (Hf Tasks), (Hf EndpointLocks), (Hf Commands) in * by set_solver. split.
    - intros Hu. eapply Forall2_impl; [exact Ht|]. intros d d' [->|Hd]; [by left|right; by apply Hd].
    - rewrite (Hf' Runs) by set_solver. done.
    - rewrite (Hf' Files) by set_solver. done.
    - split; [done|]. intros x Hx. destruct (Hl x Hx) as [?|[? ?]]; [by left|right]. split_and!; [done|done|by exists task|done].
    - destruct Hc as [->|[-> Hc]]; [by left|right]. split; [by apply Hp|done].
    - eapply frame_weaken; [eapply frame_trans; [exact Hf|exact Hf']|set_solver]. }
  assert (Hsame : unique_tasks db -> forall d, d ∈ content db2 Tasks -> _owner_filter identity d = true -> d = task).
  { intros Hu d Hd Ho. rewrite (Hf Tasks) in Hd by set_solver. apply (NoDup_map_eq _ _ _ _ Hu Hd Hin).
    unfold _owner_filter in *. freflect. congruence. }
  destruct (control_matches prepared task) eqn:Ec.
  - apply (wp_settle _ _ _ _ _ _ _ _ (fun d d' => unique_tasks db -> task_settled identity token d d')); [|done|].
    + intros d Hd Hq Hu. by apply (settled_released prepared).
    + intros db' Hf' Ht Hl Hc. apply (Hdone false); try done. intros _ Hu (t' & Hin' & Hid & _ & Hp).
      assert (t' = task) as ->. { apply (NoDup_map_eq _ _ _ _ Hu Hin' Hin). unfold _owner_filter in Hown. freflect. congruence. }
      unfold control_matches in Ec. freflect. assert (E : RUNNING = PAUSED) by congruence. discriminate E.
  - apply (wp_settle _ _ _ _ _ _ _ _ (fun d d' => unique_tasks db -> task_settled identity token d d')); [|done|].
    + intros d Hd Hq Hu. apply settled_changed; [|done]. apply andb_prop in Hq as [Ho _]. by rewrite (Hsame Hu d Hd Ho).
    + intros db' Hf' Ht Hl Hc. apply (Hdone (fld task "desiredState" PAUSED)); try done. intros Hp Hu (t' & Hin' & Hid & _ & Hp').
      assert (t' = task) as ->. { apply (NoDup_map_eq _ _ _ _ Hu Hin' Hin). unfold _owner_filter in Hown. freflect. congruence. }
      by apply fld_false in Hp.
Qed.

Lemma wp_complete_commit : wp (complete_commit node_id token confirmed_at prepared identity now)
  (fun r db' => match r with Ok _ => completed node_id token confirmed_at identity now db db' | Raise _ => True end) db.
Proof.
  unfold complete_commit. wp_step. apply wp_find_one; unfold on_ok; [|intros _; apply wp_ret, completed_refl].
  intros run Hrun [Hown Hmark]%andb_prop.
  assert (Hrest : forall task, found_task task ->
    wp (let! foreign := foreign_lock identity.["taskId"] identity.["runId"] in
      let! _ := raise_if (match task with Some _ => foreign | None => false end) (RuntimeError "部署恢复发现后继运行锁") in
      let! current_task := match task with
                           | Some t => st_ret (Some t)
                           | None => find_one Tasks (fun d => fld d "id" identity.["taskId"])
                           end in
      let! changed := update_one Runs
        (fun d => _run_owner_filter identity d && marked token d
                  && (absent d "sessionId" || fld d "sessionId" PNone || fld d "sessionId" identity.["sessionId"]))
        (run_proof_update proof (keeps_run identity current_task) now) in
      let! _ := raise_if (negb changed) (RuntimeError "部署关闭证明在事务中变化") in
      let! files := find_all Files (frozen_file node_id token identity) in
      let! _ := prove_files token proof files in
      match task with
      | None => st_ret ["proved"; "taskChanged"]
      | Some task => if control_matches prepared task then settle_released token prepared identity task now
                     else settle_changed token identity task now
      end) (fun r db' => match r with Ok _ => completed node_id token confirmed_at identity now db db' | Raise _ => True end) db).
  { intros task Htask. wp_step. apply foreign_lock_wp; unfold on_ok.
    all: try intros _; wp_step; wp_step; [done|]; unfold on_ok; wp_step.
    all: apply (wp_mono _ (fun r db' => db' = db /\ match r with
      | Ok current => unique_tasks db -> keeps_run identity current = true <-> paused_intent identity db | Raise _ => False end));
      [destruct task as [t|]; [apply wp_ret; split; [done|by apply (keeps_run_paused (Some t))]|];
       apply wp_find_one; [intros d Hd Hid%fld_true; split; [done|by apply (keeps_run_paused None)]|intros Hno; split; [done|by apply (keeps_run_paused None)]]|].
    all: intros [current|e] db0 [-> Hkeep]; unfold on_ok; [|done]; wp_step; apply wp_update_one; unfold on_ok;
      [|intros _; wp_step; by apply wp_raise].
    all: intros d db1 Hu; cbn [negb raise_if]; wp_step; apply wp_ret; unfold on_ok; wp_step; apply wp_find_all; unfold on_ok; intros files Hfiles;
      wp_step; pose proof Hu as (Hq & _ & Ho); apply (wp_prove_files node_id token identity proof); unfold on_ok; [| done |].
    1,3: intros x; rewrite Hfiles, list_elem_of_filter; tauto.
    all: intros db2 Hproved Hf2.
    all: assert (Hf : frame [Runs; Files] db db2) by (eapply frame_weaken; [eapply frame_trans; [apply frame_one; exact Ho|exact Hf2]|set_solver]).
    all: rewrite (Ho Files) in Hproved by done.
    all: assert (Hruns : unique_tasks db ->
      Forall2 (same_or (run_closed identity token proof (paused_intent identity db) now)) (content db Runs) (content db2 Runs)) by
      (intros Hn; rewrite (Hf2 Runs) by set_solver; apply (updated_rows _ _ _ _ _ _ _ Hu);
       apply andb_prop in Hq as [[? ?]%andb_prop _]; split_and!; [done|done|]; eexists; split; [done|by apply Hkeep]).
    all: destruct task as [t|]; [apply (wp_settle_task t t); try done; by exists run|].
    all: apply wp_ret; split; [intros _; rewrite (Hf Tasks) by set_solver; apply same_rows|done|done| | |].
    1,4: rewrite (Hf EndpointLocks) by set_solver; split; [done|by left].
    1,3: left; apply Hf; set_solver.
    all: eapply frame_weaken; [exact Hf|set_solver]. }
  wp_step. apply wp_find_one; unfold on_ok.
  - intros t Ht [Ho Hm]%andb_prop. by apply (Hrest (Some t)).
  - intros _. by apply (Hrest None).
Qed.
End completion.
End deployment.
