(* ===== verification/Isolation.v ===== *)
(** * Confirming the isolation of a node ([administration/isolation.py])

    An administrator confirms that a silent node has been isolated from outside.  One
    transaction takes the node out of service and gives back the tasks that were
    BLOCKED on it: the run of a task that should stop is ended and its lock released,
    any other task is left PAUSED with its run and lock, for the scheduler to move. *)

From stdpp Require Import sets.
From S2P Require Import Prelude PyTime PyValue Ordering Mongo Ownership TaskRules SshSlots Recovery.
Open Scope camera_scope.
Open Scope Z_scope.

Definition PAUSED := PStr "PAUSED".

Section isolation.
Context `{AddressText} `{Mongo}.

(** The node has been silent for 30 seconds; without a heartbeat it never ran. *)
Definition silent (node : pydict) (now : Z) : bool :=
  time_le node "heartbeat" (now - 30 * US_PER_SECOND).

(** `$set` of a task given back. *)
Definition give_back (task : pydict) (stopped restart : bool) (now : Z) : pydict -> pydict :=
  set_all ([("nodeId", PNone); ("status", if stopped then STOPPED else PAUSED); ("error", PNone); ("updatedAt", PTime (Aware now))]
           ++ if restart then [("desiredState", RUNNING); ("restartRequested", PBool false)] else []).

(** The lock and the run of a task that should stop. *)
Definition end_stopped (task : pydict) (now : Z) : dbm unit :=
  let! _ := delete_one EndpointLocks (fun d => fld d "taskId" task.["id"] && fld d "runId" task.["runId"]) in
  let! _ := update_one Runs (fun d => fld d "id" task.["runId"] && fld d "taskId" task.["id"])
              (set_all [("endedAt", PTime (Aware now))]) in
  st_ret tt.

(** The body of the loop over the BLOCKED tasks. *)
Definition isolate_task (now : Z) (task : pydict) : dbm unit :=
  let stopped := fld task "desiredState" STOPPED in
  let restart := stopped && truthy task.["restartRequested"] && negb (truthy task.["resourceDeleted"]) in
  let! _ := release_slots task now in
  let! _ := if stopped then end_stopped task now else st_ret tt in
  let! _ := update_one Tasks (fun d => owner_filter task d && fld d "status" BLOCKED) (give_back task stopped restart now) in
  let! _ := end_commands task.["id"] task.["runId"] now in
  let! _ := if fld_in task "desiredState" [PAUSED; STOPPED]
            then update_many Operations (pending_operation task.["id"] task.["desiredState"]) (ended_command "SUCCEEDED" now)
            else st_ret 0 in
  st_ret tt.

Fixpoint isolate_tasks (now : Z) (tasks : list pydict) : dbm unit :=
  match tasks with
  | [] => st_ret tt
  | task :: tasks => let! _ := isolate_task now task in isolate_tasks now tasks
  end.

(** The `commit` of [confirm_node_isolation]. *)
Definition isolate_commit (node_id : string) (actor evidence : pyval) (context : pydict) (now : Z) : dbm pydict :=
  let! node := find_one Nodes (fun d => fld d "id" (PStr node_id)) in
  match node with
  | None => st_raise (Http 404 "节点不存在")
  | Some node =>
      let! _ := raise_if (negb (silent node now)) (Http 409 "节点仍在发送心跳或尚无实例记录，不能确认隔离") in
      let! _ := update_one Nodes (fun d => fld d "id" (PStr node_id)) (set_all [("accepting", PBool false); ("isolated", PBool true)]) in
      let! tasks := find_all Tasks (fun d => fld d "nodeId" (PStr node_id) && fld d "status" BLOCKED) in
      let! _ := isolate_tasks now tasks in
      let! _ := insert_one Events [("nodeId", PStr node_id); ("type", PStr "EXTERNAL_FENCING_CONFIRMED"); ("actor", actor);
                                   ("evidence", evidence); ("createdAt", PTime (Aware now))] in
      let! _ := audit context now actor "confirm_node_isolation" (PStr node_id) in
      st_ret [("nodeId", PStr node_id); ("status", PStr "ISOLATED")]
  end.

(** [confirm_node_isolation]. *)
Definition confirm_node_isolation (node_id : string) (actor evidence : pyval) (context : pydict) (now : Z) (f : fate) : dbm pydict :=
  st_catch (transaction f (isolate_commit node_id actor evidence context now))
    (fun e => if is_pymongo e then Some (st_raise (Http 503 "隔离确认事务未完成，请查询节点状态后重试")) else None).

(** ** What is released *)

Context `{!MongoLaws}.

(** The lock of a task that was BLOCKED on the silent node and should stop. *)
Definition isolated (node_id : string) (now : Z) (db : database) (x : pydict) : Prop :=
  (exists n, n ∈ content db Nodes /\ n.["id"] = PStr node_id /\ silent n now = true)
  /\ exists t, t ∈ content db Tasks /\ t.["id"] = x.["taskId"] /\ t.["runId"] = x.["runId"] /\ t.["nodeId"] = PStr node_id
     /\ t.["status"] = BLOCKED /\ t.["desiredState"] = STOPPED.

Lemma wp_isolate_task now task (Q : result exn unit -> database -> Prop) db :
  (forall e db', Q (Raise e) db') ->
  (forall db', content db' EndpointLocks = content db EndpointLocks
     \/ (task.["desiredState"] = STOPPED /\ locks_freed task.["id"] task.["runId"] db db') -> Q (Ok tt) db') ->
  wp (isolate_task now task) Q db.
Proof.
  intros He HQ. unfold isolate_task. cbv zeta. wp_step. apply release_slots_wp; unfold on_ok; [|intros; apply He]. intros db1 Hf1. wp_step.
  assert (Hrest : forall db2, (content db2 EndpointLocks = content db1 EndpointLocks
      \/ (task.["desiredState"] = STOPPED /\ locks_freed task.["id"] task.["runId"] db1 db2)) ->
    wp (let! _ := update_one Tasks (fun d => owner_filter task d && fld d "status" BLOCKED)
          (give_back task (fld task "desiredState" STOPPED) (fld task "desiredState" STOPPED && truthy task.["restartRequested"]
            && negb (truthy task.["resourceDeleted"])) now) in
        let! _ := end_commands task.["id"] task.["runId"] now in
        let! _ := if fld_in task "desiredState" [PAUSED; STOPPED]
            then update_many Operations (pending_operation task.["id"] task.["desiredState"]) (ended_command "SUCCEEDED" now)
            else st_ret 0 in
        st_ret tt) Q db2).
  { intros db2 Hl. assert (Hend : forall db3, content db3 EndpointLocks = content db2 EndpointLocks -> Q (Ok tt) db3).
    { intros db3 E. apply HQ. unfold locks_freed in *. rewrite (Hf1 EndpointLocks) in Hl by set_solver. by rewrite E. }
    assert (Hlast : forall db3, content db3 EndpointLocks = content db2 EndpointLocks ->
      wp (let! _ := end_commands task.["id"] task.["runId"] now in
          let! _ := if fld_in task "desiredState" [PAUSED; STOPPED]
            then update_many Operations (pending_operation task.["id"] task.["desiredState"]) (ended_command "SUCCEEDED" now)
            else st_ret 0 in
          st_ret tt) Q db3).
    { intros db3 E. wp_step. apply end_commands_wp; unfold on_ok. intros db4 Hf4 _. wp_step. destruct (fld_in _ _ _).
      - apply wp_update_many; unfold on_ok. intros db5 _ Ho. apply wp_ret, Hend. by rewrite Ho, (Hf4 EndpointLocks) by set_solver.
      - apply wp_ret; unfold on_ok. apply wp_ret, Hend. by rewrite (Hf4 EndpointLocks) by set_solver. }
    wp_step. apply wp_update_one; unfold on_ok; [|intros _; by apply Hlast]. intros d db3 (_ & _ & Ho). apply Hlast. by apply Ho. }
  destruct (fld task "desiredState" STOPPED) eqn:Es; [|apply wp_ret; unfold on_ok; apply Hrest; by left]. apply fld_true in Es.
  unfold end_stopped. wp_step.
  assert (Hruns : forall db2, locks_freed task.["id"] task.["runId"] db1 db2 ->
    wp (let! _ := update_one Runs (fun d => fld d "id" task.["runId"] && fld d "taskId" task.["id"]) (set_all [("endedAt", PTime (Aware now))]) in
        st_ret tt) (on_ok (fun _ : unit => let! _ := update_one Tasks (fun d => owner_filter task d && fld d "status" BLOCKED)
          (give_back task true (true && truthy task.["restartRequested"] && negb (truthy task.["resourceDeleted"])) now) in
        let! _ := end_commands task.["id"] task.["runId"] now in
        let! _ := if fld_in task "desiredState" [PAUSED; STOPPED]
            then update_many Operations (pending_operation task.["id"] task.["desiredState"]) (ended_command "SUCCEEDED" now)
            else st_ret 0 in
        st_ret tt) Q) db2).
  { intros db2 Hl. wp_step. apply wp_update_one; unfold on_ok.
    - intros d db3 (_ & _ & Ho). apply wp_ret. apply Hrest. right. split; [done|]. unfold locks_freed in *. by rewrite Ho.
    - intros _. apply wp_ret. apply Hrest. by right. }
  apply wp_delete; unfold on_ok.
  - intros l d r db2 Hq E E' Ho. apply Hruns. apply andb_prop in Hq as [Ht%fld_true Hr%fld_true].
    unfold locks_freed. rewrite E, E'. split; [set_solver|]. intros x [Hx|[->|Hx]%elem_of_cons]%elem_of_app; [left; set_solver|by right|left; set_solver].
  - intros _. apply Hruns, locks_freed_same. done.
Qed.

Lemma wp_isolate_tasks now tasks (Q : result exn unit -> database -> Prop) db :
  (forall e db', Q (Raise e) db') ->
  (forall db', (forall x, x ∈ content db EndpointLocks -> x ∈ content db' EndpointLocks \/ exists t, t ∈ tasks
     /\ t.["desiredState"] = STOPPED /\ x.["taskId"] = t.["id"] /\ x.["runId"] = t.["runId"]) -> Q (Ok tt) db') ->
  wp (isolate_tasks now tasks) Q db.
Proof.
  intros He. revert db Q He. induction tasks as [|task tasks IH]; intros db Q He HQ; cbn [isolate_tasks]; [apply wp_ret, HQ; by left|].
  wp_step. apply wp_isolate_task; unfold on_ok; [done|]. intros db1 Hl. apply IH; [done|]. intros db2 Hl2. apply HQ. intros x Hx.
  assert (Hx1 : x ∈ content db1 EndpointLocks \/ exists t, t ∈ task :: tasks /\ t.["desiredState"] = STOPPED /\ x.["taskId"] = t.["id"] /\ x.["runId"] = t.["runId"]).
  { destruct Hl as [->|[Hs [_ Hl]]]; [by left|]. destruct (Hl x Hx) as [?|[? ?]]; [by left|right]. exists task. split; [by left|done]. }
  destruct Hx1 as [Hx1|?]; [|by right]. destruct (Hl2 x Hx1) as [?|(t & Ht & ?)]; [by left|right]. exists t. split; [by right|done].
Qed.

Lemma isolate_commit_release node_id actor evidence context now db :
  wp (isolate_commit node_id actor evidence context now) (fun r db' => match r with
    | Ok _ => forall x, x ∈ content db EndpointLocks -> x ∈ content db' EndpointLocks \/ isolated node_id now db x
    | Raise _ => True end) db.
Proof.
  unfold isolate_commit. wp_step. apply wp_find_one; unfold on_ok; [|intros _; by apply wp_raise]. intros node Hnode Hid%fld_true.
  wp_step. wp_step; [done|]. unfold on_ok. wp_step.
  assert (Hrest : forall db1, frame [Nodes] db db1 ->
    wp (let! tasks := find_all Tasks (fun d => fld d "nodeId" (PStr node_id) && fld d "status" BLOCKED) in
      let! _ := isolate_tasks now tasks in
      let! _ := insert_one Events [("nodeId", PStr node_id); ("type", PStr "EXTERNAL_FENCING_CONFIRMED"); ("actor", actor);
                                   ("evidence", evidence); ("createdAt", PTime (Aware now))] in
      let! _ := audit context now actor "confirm_node_isolation" (PStr node_id) in
      st_ret [("nodeId", PStr node_id); ("status", PStr "ISOLATED")])
     (fun r db' => match r with
      | Ok _ => forall x, x ∈ content db EndpointLocks -> x ∈ content db' EndpointLocks \/ isolated node_id now db x
      | Raise _ => True end) db1).
  { intros db1 Hf. wp_step. apply wp_find_all; unfold on_ok. intros tasks Htasks. wp_step. apply wp_isolate_tasks; unfold on_ok; [done|].
    intros db2 Hl. wp_step. apply wp_insert; unfold on_ok; [|done]. intros db3 _ _ Ho3. wp_step. apply wp_audit. unfold on_ok.
    intros a db4 _ _ Ho4. apply wp_ret. intros x Hx. rewrite <- (Hf EndpointLocks) in Hx by set_solver.
    rewrite Ho4, Ho3 by done. destruct (Hl x Hx) as [?|(t & Ht & Hs & Et & Er)]; [by left|right]. split.
    - exists node. split_and!; [done|done|]. match goal with E : negb (negb _) = true |- _ => by apply negb_true_iff, negb_false_iff in E | E : negb _ = false |- _ => by apply negb_false_iff in E end.
    - exists t. rewrite Htasks in Ht. apply list_elem_of_filter in Ht as [[Hn%fld_true Hb%fld_true]%andb_prop Ht].
      rewrite (Hf Tasks) in Ht by set_solver. split_and!; done. }
  apply wp_update_one; unfold on_ok; [|intros _; by apply Hrest]. intros d db1 (_ & _ & Ho). by apply Hrest, frame_one.
Qed.
End isolation.
