(* ===== verification/LockRelease.v ===== *)
(** * What releases the lock of a run

    A lock keeps a second run of a task from starting while the device connection of
    the first may be open.  Seven transactions release locks of runs whose Worker did
    not release them itself: those of [Recovery] (planned restarts, receipts, the
    restart of a BLOCKED task, failover and the confirmation of one task), of
    [Isolation] and of [Deployment].  Each states the evidence it has. *)

From stdpp Require Import sets.
From S2P Require Import Prelude PyTime PyValue Ordering Mongo Ownership TaskRules SshSlots Recovery Interleave Deployment DeploymentFacts Isolation.
Open Scope camera_scope.
Open Scope Z_scope.

Section release.
Context `{AddressText} `{Mongo}.

Inductive lock_release : Type :=
  | Automatic (s : recovery_step)
  | ConfirmTask (task_id identifier : string) (user : pydict) (evidence : string) (context : pydict)
  | ConfirmNode (node_id : string) (actor evidence : pyval) (context : pydict)
  | CompleteRestart (node_id token confirmed_at : string) (marker : pydict).

Definition release (s : lock_release) (now : Z) (f : fate) : dbm unit :=
  let drop {A} (m : dbm A) : dbm unit := let! _ := m in st_ret tt in
  match s with
  | Automatic s => recover s now f
  | ConfirmTask task_id identifier user evidence context => drop (confirm_task_isolation task_id identifier user evidence context now f)
  | ConfirmNode node_id actor evidence context => drop (confirm_node_isolation node_id actor evidence context now f)
  | CompleteRestart node_id token confirmed_at marker =>
      drop (_complete_run node_id token confirmed_at {| t_others := fun db => db; t_now := now; t_fate := f |} marker)
  end.

(** The frozen owner that a document marks. *)
Definition frozen_owner (marker : pydict) : pydict := map (fun k => (k, (recovery_of marker).[k])) _IDENTITY.

(** The evidence of a release for the lock [x]. *)
Definition justified (s : lock_release) (now : Z) (db : database) (x : pydict) : Prop :=
  match s with
  | Automatic _ =>
      exists t, t ∈ content db Tasks /\ t.["id"] = x.["taskId"] /\ t.["runId"] = x.["runId"] /\ closed_evidence t
  | ConfirmTask task_id _ user _ _ => has_scope user "admin" = true
      /\ exists t, t ∈ content db Tasks /\ t.["id"] = x.["taskId"] /\ t.["runId"] = x.["runId"] /\ blocked_task_of task_id t
  | ConfirmNode node_id _ _ _ => isolated node_id now db x
  | CompleteRestart node_id token _ marker =>
      let owner := frozen_owner marker in
      owner.["nodeId"] = PStr node_id /\ x.["taskId"] = owner.["taskId"] /\ x.["runId"] = owner.["runId"]
      /\ (exists t, t ∈ content db Tasks /\ _owner_filter owner t = true /\ marked token t = true)
      /\ exists r, r ∈ content db Runs /\ _run_owner_filter owner r = true /\ marked token r = true
  end.

Context `{!MongoLaws}.

(** What holds for the callback holds for the transaction, when it holds for nothing done. *)
Lemma transaction_releases {A} (m : dbm A) f (J : pydict -> Prop) db :
  wp m (fun r db' => match r with Ok _ => forall x, x ∈ content db EndpointLocks -> x ∈ content db' EndpointLocks \/ J x | Raise _ => True end) db ->
  wp (transaction f m) (fun _ db' => forall x, x ∈ content db EndpointLocks -> x ∈ content db' EndpointLocks \/ J x) db.
Proof.
  intros Hm. apply wp_transaction. eapply wp_mono; [exact Hm|]. intros [a|e] db' Hj; [|by left].
  destruct f as [|[]]; [done|done|by left].
Qed.

Lemma lock_released s now f db :
  wp (release s now f) (fun _ db' => forall x, x ∈ content db EndpointLocks -> x ∈ content db' EndpointLocks \/ justified s now db x) db.
Proof.
  destruct s as [s|task_id identifier user evidence context|node_id actor evidence context|node_id token confirmed_at marker]; cbn [release].
  - pose proof (recover_released s now f db) as Hr. unfold wp. destruct (recover s now f db) as [r db'].
    intros x Hx. destruct (decide (x ∈ content db' EndpointLocks)) as [?|Hno]; [by left|right]. by apply Hr.
  - wp_step. unfold confirm_task_isolation, authorize. wp_step. wp_step; [by left|]. unfold on_ok. apply wp_catch.
    eapply wp_mono.
    { apply (transaction_releases _ _ (fun x => exists t, t ∈ content db Tasks /\ t.["id"] = x.["taskId"] /\ t.["runId"] = x.["runId"]
        /\ blocked_task_of task_id t)), isolation_release. }
    assert (Hu : has_scope user "admin" = true) by (match goal with E : negb (has_scope _ _) = false |- _ => by apply negb_false_iff in E end).
    intros [a|e] db' Hj; cbn beta iota; [|destruct (is_pymongo e); [apply wp_raise|]]; try apply wp_ret;
      (intros x Hx; destruct (Hj x Hx) as [?|?]; [by left|right; done]).
  - wp_step. unfold confirm_node_isolation. apply wp_catch. eapply wp_mono.
    { apply (transaction_releases _ _ (isolated node_id now db)), isolate_commit_release. }
    intros [a|e] db' Hj; cbn beta iota; [|destruct (is_pymongo e); [apply wp_raise|]]; try apply wp_ret; done.
  - wp_step. unfold _complete_run. fold (frozen_owner marker). wp_step; [apply wp_ret; unfold on_ok; apply wp_ret; by left|].
    eapply wp_mono.
    { apply (transaction_releases _ _ (justified (CompleteRestart node_id token confirmed_at marker) now db)).
      eapply wp_mono; [apply (wp_complete_commit node_id token confirmed_at (recovery_of marker) (frozen_owner marker) now db)|].
      intros [a|e] db' Hc; [|done]. intros x Hx. destruct (proj2 (cm_locks _ _ _ _ _ _ _ Hc) x Hx) as [?|(Ht & Hr & Htask & Hrun)]; [by left|right].
      split_and!; try done. breflect. by apply fld_true. }
    intros [a|e] db' Hj; unfold on_ok; [by apply wp_ret|done].
Qed.

(** C11: no recovery releases a run lock on suspicion.  Whichever of the seven recoveries
    runs, and however its commit ends, a lock that disappears belonged to the run of a
    task for which the database held the evidence of that recovery.  A planned restart, a
    receipt, the restart of a BLOCKED task and failover: the task was BLOCKED with a
    closing receipt of exactly its run, generation, node and session, or part of a
    planned restart with such a receipt or without any connection made.  The
    confirmation of one task: an administrator asked, and that task was BLOCKED and not
    deleted.  The confirmation of a node: the node had been silent for 30 seconds and
    the task was BLOCKED on it and should stop.  The completion of a deployment: the
    task and its run were still those frozen under its token, with the same run, node
    and generation, and the task with the same session. *)
Theorem locks_released_on_evidence s now f db :
  let '(_, db') := release s now f db in
  forall x, x ∈ content db EndpointLocks -> x ∉ content db' EndpointLocks -> justified s now db x.
Proof.
  pose proof (lock_released s now f db) as Hr. unfold wp in Hr. destruct (release s now f db) as [r db'].
  intros x Hx Hx'. by destruct (Hr x Hx).
Qed.
End release.

(** ** Witness: the closed run of a blocked task is finalized *)

#[local] Instance plain_text : AddressText := {| normal_address := Some; int_of_str _ := None |}.
#[local] Existing Instance list_mongo.
#[local] Existing Instance list_mongo_laws.

(** A node silent since second 3 and a task that should stop. *)
Definition silent_db : database := fun c =>
  match c with
  | Nodes => [[("id", PStr "n"); ("heartbeat", PTime (Aware (3 * US_PER_SECOND)))]]
  | _ => blocked_db c
  end.

(** The lock that disappears when the node is confirmed isolated belongs to the task
    that was BLOCKED on it; and the one that the receipt releases to the receipt. *)
Lemma locks_released_on_evidence_witness :
  let lock := [("taskId", PStr "t"); ("runId", PStr "r")] in
  justified (ConfirmNode "n" (PStr "admin") (PStr "power cut") []) (60 * US_PER_SECOND) silent_db lock
  /\ justified (Automatic (Finalize blocked_task)) 9 blocked_db lock.
Proof.
  cbv zeta. split.
  - pose proof (locks_released_on_evidence (ConfirmNode "n" (PStr "admin") (PStr "power cut") []) (60 * US_PER_SECOND) Committed silent_db) as Hp.
    destruct (release _ _ _ silent_db) as [r db'] eqn:E. apply Hp; [by apply list_elem_of_singleton|].
    assert (Hl : content db' EndpointLocks
      = content (release (ConfirmNode "n" (PStr "admin") (PStr "power cut") []) (60 * US_PER_SECOND) Committed silent_db).2 EndpointLocks) by by rewrite E.
    rewrite Hl. vm_compute. apply not_elem_of_nil.
  - pose proof (locks_released_on_evidence (Automatic (Finalize blocked_task)) 9 Committed blocked_db) as Hp.
    destruct (release _ _ _ blocked_db) as [r db'] eqn:E. apply Hp; [by apply list_elem_of_singleton|].
    assert (Hl : content db' EndpointLocks = content (release (Automatic (Finalize blocked_task)) 9 Committed blocked_db).2 EndpointLocks) by by rewrite E.
    rewrite Hl. vm_compute. apply not_elem_of_nil.
Defined.
