(* ===== verification/Archive.v ===== *)
(** * Publishing the hour archive ([logs/compression.py], [logs/archive_spool.py], [logs/archive_receipts.py])

    [publish_hour_archive] merges sealed parts into the shared `tar.gz` of an
    hour.  It writes a recovery manifest, builds and verifies a partial archive,
    replaces the archive and its metadata, leaves a receipt for the catalog and
    only then removes the raw parts.  Everything lives in one directory, the
    record [dir]; each atomic file operation is one [effect], and a run may be
    interrupted before any of them, by an error or by the death of the process.

    Names and digests are what the source reads from its manifests; SHA-256 is an
    argument.  A file carries a stamp for its inode, size and modification time,
    which every write renews. *)

From S2P Require Import Prelude PyValue.
Open Scope camera_scope.

(** ** Insertion-ordered dictionaries keyed by name *)

Section assoc.
Context {A : Type}.

Fixpoint assoc_get (k : string) (l : list (string * A)) : option A :=
  match l with [] => None | (k', v) :: l => if decide (k = k') then Some v else assoc_get k l end.

(** `d[k] = v`: an existing key keeps its place. *)
Fixpoint assoc_set (k : string) (v : A) (l : list (string * A)) : list (string * A) :=
  match l with
  | [] => [(k, v)]
  | (k', v') :: l => if decide (k = k') then (k', v) :: l else (k', v') :: assoc_set k v l
  end.

(** `{name(x): x for x in l}`. *)
Definition by_name (name : A -> string) (l : list A) : list (string * A) :=
  foldl (fun acc x => assoc_set (name x) x acc) [] l.
End assoc.

(** ** Data *)

(** A row of the metadata; [mb_rest] are the fields that are only copied. *)
Record member := Member {
  mb_name : string; mb_sha : string; mb_size : Z;
  mb_index : string; mb_index_sha : string; mb_index_bytes : Z; mb_rest : pydict }.

(** A sealed part of a manifest: a member and the path of its raw file. *)
Record segment := Segment { sg_log : string; sg_member : member }.

Definition sg_name (s : segment) : string := mb_name (sg_member s).

(** An entry of the tar. *)
Record entry := Entry { en_name : string; en_file : bool; en_data : bytes }.

(** A file and its stamp. *)
Record stamped (A : Type) := Stamped { contents : A; stamp : Z }.
Arguments Stamped {A} contents stamp.
Arguments contents {A} s.
Arguments stamp {A} s.

(** `catalog.pending.json`. *)
Record receipt := Receipt { rc_tar : Z; rc_meta : Z; rc_indexes : list (string * Z) }.

Record dir := Dir {
  d_raw : gmap string bytes;                  (* raw parts by path *)
  d_index : gmap string (stamped bytes);      (* index files by name *)
  d_tar : option (stamped (list entry));
  d_meta : option (stamped (list member));
  d_pending : option (list segment);          (* `.pending.json` *)
  d_spools : gmap string (list segment);      (* `.pending.<uuid>.json` *)
  d_receipt : option (stamped receipt);
  d_clock : Z }.

Inductive publish_error : Type :=
  | Interrupted
  | NameConflict | NonLogMember | IndexMissing | IndexDigest | LogDigest | LogMissing
  | DuplicateMember | ContractViolated | BodyDigest | MemberMissing | InvalidSpool.

#[global] Instance publish_error_eq_dec : EqDecision publish_error.
Proof. solve_decision. Defined.

(** ** Effects

    The second component counts the operations left before the interruption. *)
Abbreviation pm := (stm (dir * nat) publish_error).

Definition view : pm dir := fun s => (Ok s.1, s).

Definition effect (f : dir -> dir) : pm unit := fun '(d, n) =>
  match n with
  | O => (Raise Interrupted, (d, O))
  | S n => (Ok tt, (f d, n))
  end.

Definition lift {A} (r : result publish_error A) : pm A := fun s => (r, s).

Definition write_pending (l : option (list segment)) (d : dir) : dir :=
  Dir (d_raw d) (d_index d) (d_tar d) (d_meta d) l (d_spools d) (d_receipt d) (d_clock d).

(** `os.replace(partial, target)`. *)
Definition write_tar (l : list entry) (d : dir) : dir :=
  Dir (d_raw d) (d_index d) (Some (Stamped l (d_clock d))) (d_meta d) (d_pending d) (d_spools d) (d_receipt d)
    (d_clock d + 1).

Definition write_meta (l : list member) (d : dir) : dir :=
  Dir (d_raw d) (d_index d) (d_tar d) (Some (Stamped l (d_clock d))) (d_pending d) (d_spools d) (d_receipt d)
    (d_clock d + 1).

Definition write_receipt (r : receipt) (d : dir) : dir :=
  Dir (d_raw d) (d_index d) (d_tar d) (d_meta d) (d_pending d) (d_spools d) (Some (Stamped r (d_clock d)))
    (d_clock d + 1).

Definition unlink_raw (p : string) (d : dir) : dir :=
  Dir (delete p (d_raw d)) (d_index d) (d_tar d) (d_meta d) (d_pending d) (d_spools d) (d_receipt d) (d_clock d).

Definition write_spool (name : string) (l : option (list segment)) (d : dir) : dir :=
  Dir (d_raw d) (d_index d) (d_tar d) (d_meta d) (d_pending d) (partial_alter (fun _ => l) name (d_spools d))
    (d_receipt d) (d_clock d).

(** ** [publish_hour_archive] *)

Section publish.
(** `hashlib.sha256(...).hexdigest()`. *)
Variable sha256 : bytes -> string.

(** [_hash_stream], compared with a recorded digest and size. *)
Definition digest_is (data : bytes) (sha : string) (bytes_ : Z) : bool :=
  String.eqb (sha256 data) sha && (zlen data =? bytes_).

Definition ends_with (suffix s : string) : bool :=
  let n := String.length s in
  let k := String.length suffix in
  (k <=? n)%nat && String.eqb (String.substring (n - k) k s) suffix.

Definition same_body (a b : member) : bool := String.eqb (mb_sha a) (mb_sha b) && (mb_size a =? mb_size b).

(** The manifest on disk merged with the new parts. *)
Fixpoint merge_pending (acc : list (string * segment)) (segments : list segment)
  : result publish_error (list (string * segment)) :=
  match segments with
  | [] => Ok acc
  | s :: segments =>
      match assoc_get (sg_name s) acc with
      | Some existing =>
          if same_body (sg_member existing) (sg_member s)
          then merge_pending (assoc_set (sg_name s) s acc) segments
          else Raise NameConflict
      | None => merge_pending (assoc_set (sg_name s) s acc) segments
      end
  end.

Definition collect (segments : list segment) (d : dir) : result publish_error (list segment) :=
  l ← merge_pending (by_name sg_name (default [] (d_pending d))) segments;
  Ok (map snd l).

(** The entries of the archive in place. *)
Definition copy_tar (d : dir) : result publish_error (list entry) :=
  match d_tar d with
  | None => Ok []
  | Some t =>
      if forallb (fun e => en_file e && ends_with ".log" (en_name e)) (contents t) then Ok (contents t)
      else Raise NonLogMember
  end.

Definition present (name : string) (entries : list entry) : bool := existsb (fun e => String.eqb (en_name e) name) entries.

(** One part: its index is checked, and its body is checked or appended. *)
Definition add_segment (d : dir) (entries : list entry) (s : segment) : result publish_error (list entry) :=
  let m := sg_member s in
  match d_index d !! mb_index m with
  | None => Raise IndexMissing
  | Some index =>
      if negb (digest_is (contents index) (mb_index_sha m) (mb_index_bytes m)) then Raise IndexDigest
      else
        match d_raw d !! sg_log s, present (mb_name m) entries with
        | Some raw, true => if digest_is raw (mb_sha m) (mb_size m) then Ok entries else Raise LogDigest
        | None, false => Raise LogMissing
        | Some raw, false => Ok (entries ++ [Entry (mb_name m) true raw])
        | None, true => Ok entries
        end
  end.

Fixpoint add_segments (d : dir) (entries : list entry) (all : list segment) : result publish_error (list entry) :=
  match all with
  | [] => Ok entries
  | s :: all => entries' ← add_segment d entries s; add_segments d entries' all
  end.

Definition old_members (d : dir) : list member := default [] (contents <$> d_meta d).

Definition named (name : string) (l : list member) : bool := existsb (fun m => String.eqb (mb_name m) name) l.

(** `old_members + additions`. *)
Definition all_members (old : list member) (all : list segment) : list member :=
  old ++ filter (fun m => named (mb_name m) old = false) (map sg_member all).

(** The pass over the partial archive. *)
Fixpoint verify (expected : list (string * member)) (checked : list string) (entries : list entry)
  : result publish_error (list string) :=
  match entries with
  | [] => Ok checked
  | e :: entries =>
      match assoc_get (en_name e) expected with
      | Some m =>
          if negb (en_file e) || bool_decide (en_name e ∈ checked) || negb (ends_with ".log" (en_name e))
          then Raise ContractViolated
          else if digest_is (en_data e) (mb_sha m) (mb_size m) then verify expected (en_name e :: checked) entries
          else Raise BodyDigest
      | None => Raise ContractViolated
      end
  end.

Definition verified (members : list member) (entries : list entry) : result publish_error unit :=
  let expected := by_name mb_name members in
  if negb (length expected =? length members)%nat then Raise DuplicateMember
  else
    checked ← verify expected [] entries;
    if forallb (fun k => bool_decide (k ∈ checked)) (map fst expected)
       && forallb (fun k => bool_decide (k ∈ map fst expected)) checked
    then Ok tt else Raise MemberMissing.

(** Everything read before the archive is replaced. *)
Definition stage (all : list segment) (d : dir) : result publish_error (list entry * list member) :=
  kept ← copy_tar d;
  entries ← add_segments d kept all;
  let members := all_members (old_members d) all in
  _ ← verified members entries;
  Ok (entries, members).

(** ** Receipts *)

(** The signatures of the index files of the members. *)
Fixpoint signatures (d : dir) (members : list member) (acc : list (string * Z)) : result publish_error (list (string * Z)) :=
  match members with
  | [] => Ok acc
  | m :: members =>
      match d_index d !! mb_index m with
      | Some index => signatures d members (assoc_set (mb_index m) (stamp index) acc)
      | None => Raise IndexMissing
      end
  end.

(** [persist_verified]. *)
Definition persist_verified (members : list member) : pm unit :=
  let! d := view in
  let! indexes := lift (signatures d members []) in
  match d_tar d, d_meta d with
  | Some tar, Some meta => effect (write_receipt (Receipt (stamp tar) (stamp meta) indexes))
  | _, _ => st_raise IndexMissing
  end.

(** `Path(...).unlink(missing_ok=True)` of every raw part. *)
Fixpoint unlink_raws (all : list segment) : pm unit :=
  match all with
  | [] => st_ret tt
  | s :: all => let! _ := effect (unlink_raw (sg_log s)) in unlink_raws all
  end.

(** [publish_hour_archive]; the partial file is not visible, and the optional
    index is an accelerator built after the publication. *)
Definition publish_hour_archive (segments : list segment) : pm unit :=
  let! d := view in
  let! all := lift (collect segments d) in
  let! _ := effect (write_pending (Some all)) in
  let! d := view in
  let! staged := lift (stage all d) in
  let! _ := effect (write_tar staged.1) in
  let! _ := effect (write_meta staged.2) in
  let! _ := persist_verified staged.2 in
  let! _ := unlink_raws all in
  effect (write_pending None).

(** [archive_spool.persist] and [load]. *)
Definition persist (name : string) (segments : list segment) : pm unit := effect (write_spool name (Some segments)).

Definition load (name : string) (d : dir) : result publish_error (list segment) :=
  match d_spools d !! name with
  | Some (s :: l) => Ok (s :: l)
  | _ => Raise InvalidSpool
  end.

(** [publish_spooled_archive]. *)
Definition publish_spooled_archive (name : string) : pm unit :=
  let! d := view in
  let! segments := lift (load name d) in
  let! _ := publish_hour_archive segments in
  effect (write_spool name None).

(** [load_verified], without the size limits. *)
Definition load_verified (d : dir) : option (list member) :=
  match d_receipt d, d_tar d, d_meta d with
  | Some r, Some tar, Some meta =>
      let rc := contents r in
      if negb ((rc_tar rc =? stamp tar) && (rc_meta rc =? stamp meta)) then None
      else
        match contents meta with
        | [] => None
        | members =>
            if forallb (fun m => ends_with ".index.jsonl" (mb_index m)
                 && match assoc_get (mb_index m) (rc_indexes rc), d_index d !! mb_index m with
                    | Some s, Some index => s =? stamp index
                    | _, _ => false
                    end) members
            then Some members else None
        end
  | _, _, _ => None
  end.

(** [acknowledge]: the receipt is taken first and put back when it is not the
    one that was processed; [env] is what others do in between. *)
Definition take_receipt (d : dir) : dir :=
  Dir (d_raw d) (d_index d) (d_tar d) (d_meta d) (d_pending d) (d_spools d) None (d_clock d).

Definition put_back (r : stamped receipt) (d : dir) : dir :=
  Dir (d_raw d) (d_index d) (d_tar d) (d_meta d) (d_pending d) (d_spools d)
    (match d_receipt d with Some r' => Some r' | None => Some r end) (d_clock d).

Definition acknowledge (version : Z) (env : dir -> dir) : pm unit :=
  let! d := view in
  match d_receipt d with
  | None => st_ret tt
  | Some claimed =>
      let! _ := effect (fun d => env (take_receipt d)) in
      if stamp claimed =? version then st_ret tt else effect (put_back claimed)
  end.
End publish.

(** ** Dictionaries *)

Section assoc_lemmas.
Context {A : Type} (name : A -> string).
Implicit Types (l : list (string * A)) (x y : A).

Lemma assoc_get_set k k' v l : assoc_get k (assoc_set k' v l) = if decide (k = k') then Some v else assoc_get k l.
Proof.
  induction l as [|[k2 v2] l IH]; cbn; [by repeat case_decide|].
  destruct (decide (k' = k2)) as [->|]; cbn; repeat case_decide; subst; try done.
Qed.

Lemma assoc_keys_set k v l : map fst (assoc_set k v l) = if decide (k ∈ map fst l) then map fst l else map fst l ++ [k].
Proof.
  induction l as [|[k2 v2] l IH]; cbn; [by rewrite decide_False by set_solver|].
  destruct (decide (k = k2)) as [->|Hn]; cbn.
  - by rewrite decide_True by set_solver.
  - rewrite IH. destruct (decide (k ∈ map fst l)); [rewrite decide_True by set_solver|rewrite decide_False by set_solver]; done.
Qed.

Lemma assoc_get_elem k v l : assoc_get k l = Some v -> (k, v) ∈ l.
Proof.
  induction l as [|[k2 v2] l IH]; cbn; [done|]. case_decide; [intros [= ->]; subst; left|intros ?; right; auto].
Qed.

Lemma assoc_get_key k l : is_Some (assoc_get k l) <-> k ∈ map fst l.
Proof.
  induction l as [|[k2 v2] l IH]; cbn; [split; [by intros []|by intros ?%elem_of_nil]|].
  case_decide; [split; [subst; left|by eexists]|]. rewrite IH, elem_of_cons. naive_solver.
Qed.

(** Keys are distinct and are the names of the values. *)
Definition keyed l : Prop := NoDup (map fst l) /\ forall k x, (k, x) ∈ l -> name x = k.

Lemma keyed_get l x : keyed l -> (name x, x) ∈ l -> assoc_get (name x) l = Some x.
Proof.
  intros [Hnd _]. induction l as [|[k y] l IH]; [by intros ?%elem_of_nil|]. cbn in Hnd. apply NoDup_cons in Hnd as [Hk Hnd].
  intros [[= E1 E2]|Hx]%elem_of_cons; cbn; [subst; by rewrite decide_True|].
  rewrite decide_False; [auto|]. intros Ek. subst k. apply Hk. by eapply (list_elem_of_fmap_2 fst) in Hx.
Qed.

Lemma keyed_nil : keyed [].
Proof. split; [constructor|by intros ?? ?%elem_of_nil]. Qed.

Lemma assoc_set_elem k k0 v x l : (k, x) ∈ assoc_set k0 v l -> (k = k0 /\ x = v) \/ (k, x) ∈ l.
Proof.
  induction l as [|[k2 v2] l IH]; cbn; [rewrite list_elem_of_singleton; intros [= -> ->]; by left|].
  case_decide as Hd; rewrite !elem_of_cons; [subst; intros [[= -> ->]|?]; auto|intros [?|?%IH]; naive_solver].
Qed.

Lemma keyed_set x l : keyed l -> keyed (assoc_set (name x) x l).
Proof.
  intros [Hnd Hk]. split.
  - rewrite assoc_keys_set. case_decide; [done|]. apply NoDup_app. split_and!; [done| |apply NoDup_singleton].
    intros k Hin Hk2%list_elem_of_singleton. congruence.
  - intros k y [[-> ->]|Hin]%assoc_set_elem; auto.
Qed.

Definition set_named (acc : list (string * A)) (x : A) : list (string * A) := assoc_set (name x) x acc.

Lemma keyed_fold xs acc : keyed acc -> keyed (foldl set_named acc xs).
Proof. revert acc. induction xs as [|x xs IH]; intros acc Hk; cbn; [done|]. by apply IH, keyed_set. Qed.

Lemma fold_get k xs acc :
  assoc_get k (foldl set_named acc xs)
  = match assoc_get k (by_name name xs) with Some x => Some x | None => assoc_get k acc end.
Proof.
  induction xs as [|x xs IH] using rev_ind; [done|]. unfold by_name in *. rewrite !foldl_app. cbn.
  unfold set_named at 1. rewrite !assoc_get_set. by case_decide.
Qed.

Lemma by_name_keyed xs : keyed (by_name name xs).
Proof. apply (keyed_fold xs []), keyed_nil. Qed.

Lemma by_name_elem k x xs : assoc_get k (by_name name xs) = Some x -> x ∈ xs /\ name x = k.
Proof.
  induction xs as [|y xs IH] using rev_ind; [done|]. unfold by_name in *. rewrite foldl_app. cbn. rewrite assoc_get_set.
  case_decide; [intros [= ->]; subst; split; [set_solver|done]|intros [? ?]%IH; set_solver].
Qed.

Lemma by_name_some x xs : x ∈ xs -> exists y, assoc_get (name x) (by_name name xs) = Some y.
Proof.
  induction xs as [|y xs IH] using rev_ind; [by intros ?%elem_of_nil|]. unfold by_name in *. rewrite foldl_app. cbn.
  rewrite assoc_get_set. intros [Hx|Hx%list_elem_of_singleton]%elem_of_app; subst; case_decide; eauto; congruence.
Qed.

Lemma by_name_keys k xs : k ∈ map fst (by_name name xs) <-> exists x, x ∈ xs /\ name x = k.
Proof.
  rewrite <- assoc_get_key. split; [intros [x Hx]; exists x; by apply by_name_elem|].
  intros (x & Hx & <-). by apply by_name_some.
Qed.

(** A keyed dictionary is the dictionary of its values. *)
Lemma by_name_values l : keyed l -> by_name name (map snd l) = l.
Proof.
  assert (Hgen : forall l acc, keyed (acc ++ l) -> foldl set_named acc (map snd l) = acc ++ l).
  { clear l. induction l as [|[k x] l IH]; intros acc Hk; cbn; [by rewrite app_nil_r|].
    assert (Hx : name x = k) by (apply Hk; set_solver).
    replace (set_named acc x) with (acc ++ [(k, x)]).
    - rewrite IH; rewrite <- app_assoc; [done|exact Hk].
    - unfold set_named. rewrite Hx. clear IH Hx. destruct Hk as [Hnd _]. induction acc as [|[k2 v2] acc IH]; [done|].
      cbn in *. apply NoDup_cons in Hnd as [Hn Hnd]. rewrite map_app in Hn. cbn in Hn.
      rewrite decide_False by set_solver. by rewrite <- IH. }
  intros Hk. by apply (Hgen l []).
Qed.

Lemma assoc_ext l l' : NoDup (map fst l) -> map fst l = map fst l' -> (forall k, assoc_get k l = assoc_get k l') -> l = l'.
Proof.
  revert l'. induction l as [|[k v] l IH]; intros [|[k' v'] l'] Hnd Hk Hg; try done.
  cbn in *. injection Hk as <- Hk. apply NoDup_cons in Hnd as [Hn Hnd]. f_equal.
  - specialize (Hg k). rewrite !decide_True in Hg by done. congruence.
  - apply IH; [done|done|]. intros k2. specialize (Hg k2). case_decide; [subst|done].
    destruct (assoc_get k l) eqn:E1; [|destruct (assoc_get k l') eqn:E2; [|done]].
    + by destruct Hn; apply assoc_get_key; eexists.
    + destruct Hn. rewrite Hk. apply assoc_get_key. by eexists.
Qed.

Lemma fold_keys xs acc : (forall x, x ∈ xs -> name x ∈ map fst acc) -> map fst (foldl set_named acc xs) = map fst acc.
Proof.
  revert acc. induction xs as [|x xs IH]; intros acc Hx; cbn; [done|].
  assert (E : map fst (set_named acc x) = map fst acc).
  { unfold set_named. rewrite assoc_keys_set, decide_True; [done|]. apply Hx. left. }
  rewrite IH; [done|]. intros y Hy. rewrite E. apply Hx. by right.
Qed.

(** Setting the same values again changes nothing. *)
Lemma fold_again xs acc : keyed acc -> foldl set_named (foldl set_named acc xs) xs = foldl set_named acc xs.
Proof.
  intros Hk. pose proof (keyed_fold xs acc Hk) as [Hnd _]. symmetry. apply assoc_ext; [done| |].
  - symmetry. apply fold_keys. intros x Hx. apply assoc_get_key. rewrite fold_get.
    destruct (by_name_some x xs Hx) as [y ->]. by eexists.
  - intros k. rewrite (fold_get k xs (foldl set_named acc xs)), !fold_get. by destruct (assoc_get k (by_name name xs)).
Qed.

Lemma by_name_length xs : length (by_name name xs) = length xs -> NoDup (map name xs).
Proof.
  assert (Hle : forall xs, (length (by_name name xs) <= length xs)%nat).
  { clear xs. induction xs as [|x xs IH] using rev_ind; [done|]. unfold by_name in *. rewrite foldl_app, length_app. cbn.
    rewrite <- (length_map fst), assoc_keys_set. case_decide; rewrite ?length_app, ?length_map; cbn; lia. }
  induction xs as [|x xs IH] using rev_ind; intros Hl; [constructor|]. rewrite map_app. cbn.
  unfold by_name in Hl. rewrite foldl_app, length_app in Hl. cbn in Hl.
  rewrite <- (length_map fst), assoc_keys_set in Hl. specialize (Hle xs). unfold by_name in *.
  case_decide as Hin; rewrite ?length_app, ?length_map in Hl; cbn in Hl; [lia|].
  apply NoDup_app. split_and!; [apply IH; lia| |apply NoDup_singleton].
  intros k Hk Hk2%list_elem_of_singleton. subst k. apply Hin. apply (by_name_keys (name x) xs).
  apply list_elem_of_fmap in Hk as (y & E & Hy). by exists y.
Qed.
End assoc_lemmas.

(** ** Runs that may be interrupted

    [triple P m Q C]: started in [P], the directory satisfies [C] wherever the
    run stops, and [Q] when it returns. *)

Definition triple {A} (P : dir -> Prop) (m : pm A) (Q : A -> dir -> Prop) (C : dir -> Prop) : Prop :=
  forall d n, P d -> C (m (d, n)).2.1 /\ forall a, (m (d, n)).1 = Ok a -> Q a (m (d, n)).2.1.

Lemma crash_bind {A B} P (m : pm A) (k : A -> pm B) Q R C :
  triple P m Q C -> (forall a, triple (Q a) (k a) R C) -> triple P (st_bind m k) R C.
Proof.
  intros Hm Hk d n Hp. destruct (Hm d n Hp) as [Hc Hq]. unfold st_bind. destruct (m (d, n)) as [[a|e] [d' n']]; cbn in *.
  - apply (Hk a d' n'), Hq. done.
  - by split.
Qed.

Lemma crash_ret {A} (P : dir -> Prop) (a : A) (Q : A -> dir -> Prop) (C : dir -> Prop) :
  (forall d, P d -> C d /\ Q a d) -> triple P (st_ret a) Q C.
Proof. intros H' d n Hp. destruct (H' d Hp). by split; [|intros ? [= <-]]. Qed.

Lemma triple_raise {A} (P : dir -> Prop) e (Q : A -> dir -> Prop) (C : dir -> Prop) :
  (forall d, P d -> C d) -> triple P (st_raise e) Q C.
Proof. intros H' d n Hp. by split; [apply H'|]. Qed.

Lemma triple_view (P C : dir -> Prop) : (forall d, P d -> C d) -> triple P view (fun a d => P d /\ a = d) C.
Proof. intros H' d n Hp. split; [by apply H'|]. by intros a [= <-]. Qed.

Lemma triple_lift {A} (P : dir -> Prop) (r : result publish_error A) (C : dir -> Prop) :
  (forall d, P d -> C d) -> triple P (lift r) (fun a d => P d /\ r = Ok a) C.
Proof. intros H' d n Hp. split; [by apply H'|]. by intros a [= ->]. Qed.

Lemma triple_effect (P : dir -> Prop) f (Q : unit -> dir -> Prop) (C : dir -> Prop) :
  (forall d, P d -> C d /\ C (f d) /\ Q tt (f d)) -> triple P (effect f) Q C.
Proof. intros H' d n Hp. destruct (H' d Hp) as (? & ? & ?). destruct n; cbn; split; try done. by intros [] _. Qed.

Lemma triple_weaken {A} (P P' : dir -> Prop) (m : pm A) (Q Q' : A -> dir -> Prop) (C C' : dir -> Prop) :
  (forall d, P' d -> P d) -> (forall a d, Q a d -> Q' a d) -> (forall d, C d -> C' d) -> triple P m Q C -> triple P' m Q' C'.
Proof. intros HP HQ HC Hm d n Hp. destruct (Hm d n (HP d Hp)). split; [auto|]. intros a E. auto. Qed.

(** [completes m d k a d']: with [k] operations or more left, the run returns
    [a] and leaves [d']. *)
Definition completes {A} (m : pm A) (d : dir) (k : nat) (a : A) (d' : dir) : Prop :=
  forall n, m (d, (k + n)%nat) = (Ok a, (d', n)).

Lemma completes_bind {A B} (m : pm A) (f : A -> pm B) d k1 k2 a b d1 d2 :
  completes m d k1 a d1 -> completes (f a) d1 k2 b d2 -> completes (st_bind m f) d (k1 + k2) b d2.
Proof. intros H1 H2 n. unfold st_bind. rewrite <- Nat.add_assoc, H1. apply H2. Qed.

Lemma completes_view d : completes view d 0 d d.
Proof. done. Qed.

Lemma completes_lift {A} (r : result publish_error A) d a : r = Ok a -> completes (lift r) d 0 a d.
Proof. intros -> n. done. Qed.

Lemma completes_effect f d : completes (effect f) d 1 tt (f d).
Proof. done. Qed.

Lemma completes_ret {A} (a : A) d : completes (st_ret a) d 0 a d.
Proof. done. Qed.

(** A run that returns, step by step. *)
Lemma bind_returns {A B} (m : pm A) (f : A -> pm B) s b s2 :
  st_bind m f s = (Ok b, s2) -> exists a s1, m s = (Ok a, s1) /\ f a s1 = (Ok b, s2).
Proof. unfold st_bind. destruct (m s) as [[a|e] s1]; [|done]. eauto. Qed.

Lemma effect_returns f s a s1 : effect f s = (Ok a, s1) -> s1.1 = f s.1.
Proof. destruct s as [d [|n]]; cbn; [done|]. by intros [= <- <-]. Qed.

Lemma unlink_raws_returns all s a s1 : unlink_raws all s = (Ok a, s1) ->
  s1.1 = foldl (fun d s => unlink_raw (sg_log s) d) s.1 all.
Proof.
  revert s. induction all as [|x all IH]; intros s; cbn; [by intros [= _ <-]|].
  intros ([] & s2 & E1 & E2)%bind_returns. apply effect_returns in E1. apply IH in E2. by rewrite E2, E1.
Qed.

Lemma unlink_raws_completes all d :
  completes (unlink_raws all) d (length all) tt (foldl (fun d s => unlink_raw (sg_log s) d) d all).
Proof.
  revert d. induction all as [|x all IH]; intros d; cbn; [apply completes_ret|].
  apply (completes_bind (effect _) _ d 1 (length all) tt tt _ _ (completes_effect _ _)), IH.
Qed.

Definition paths (all : list segment) : list string := map sg_log all.

Lemma unlinked all d :
  let d' := foldl (fun d s => unlink_raw (sg_log s) d) d all in
  d_index d' = d_index d /\ d_tar d' = d_tar d /\ d_meta d' = d_meta d /\ d_pending d' = d_pending d
  /\ d_spools d' = d_spools d
  /\ forall p, d_raw d' !! p = if decide (p ∈ paths all) then None else d_raw d !! p.
Proof.
  revert d. induction all as [|s all IH]; intros d; cbn; [split_and!; try done; intros p; by rewrite decide_False by set_solver|].
  destruct (IH (unlink_raw (sg_log s) d)) as (E1 & E2 & E3 & E4 & E5 & E6). split_and!; try (by etransitivity; [eassumption|]).
  intros p. rewrite E6. cbn. destruct (decide (p ∈ paths all)); [by rewrite decide_True by set_solver|].
  destruct (decide (p = sg_log s)) as [->|]; [rewrite lookup_delete_eq, decide_True by set_solver; done|].
  by rewrite lookup_delete_ne, decide_False by set_solver.
Qed.

(** ** The partial archive *)

Section properties.
Variable sha256 : bytes -> string.

Abbreviation is_body := (digest_is sha256).
Abbreviation publish := (publish_hour_archive sha256).

Definition index_ok (d : dir) (s : segment) : Prop :=
  exists index, d_index d !! mb_index (sg_member s) = Some index
    /\ is_body (contents index) (mb_index_sha (sg_member s)) (mb_index_bytes (sg_member s)) = true.

(** The part needs nothing more: its raw file, if any, is the described body. *)
Definition settled (d : dir) (entries : list entry) (s : segment) : Prop :=
  index_ok d s /\ present (sg_name s) entries = true
  /\ forall raw, d_raw d !! sg_log s = Some raw -> is_body raw (mb_sha (sg_member s)) (mb_size (sg_member s)) = true.

Lemma present_spec name entries : present name entries = true <-> exists e, e ∈ entries /\ en_name e = name.
Proof.
  unfold present. rewrite existsb_exists. setoid_rewrite String.eqb_eq. setoid_rewrite list_elem_of_In. done.
Qed.

Lemma present_app name entries k : present name entries = true -> present name (entries ++ k) = true.
Proof. rewrite !present_spec. set_solver. Qed.

Lemma add_segment_ok d entries s entries' : add_segment sha256 d entries s = Ok entries' ->
  index_ok d s /\ present (sg_name s) entries' = true /\ (exists k, entries' = entries ++ k)
  /\ (forall e, e ∈ entries' -> e ∈ entries \/ exists raw, d_raw d !! sg_log s = Some raw /\ e = Entry (sg_name s) true raw)
  /\ (forall raw, d_raw d !! sg_log s = Some raw ->
        is_body raw (mb_sha (sg_member s)) (mb_size (sg_member s)) = true \/ Entry (sg_name s) true raw ∈ entries').
Proof.
  unfold add_segment. destruct (d_index d !! _) as [index|] eqn:Ei; [|done].
  destruct (is_body (contents index) _ _) eqn:Ed; cbn [negb]; [|done].
  assert (Hi : index_ok d s) by (by exists index).
  destruct (d_raw d !! sg_log s) as [raw|] eqn:Er, (present (mb_name (sg_member s)) entries) eqn:Ep; [| | |done].
  - destruct (is_body raw _ _) eqn:Eb; [|done]. intros [= <-]. split_and!; [done|done|exists []; by rewrite app_nil_r|by left|].
    intros raw' [= <-]. by left.
  - intros [= <-]. split_and!; [done|apply present_spec; eexists; split; [apply elem_of_app; right; left|done]|by eexists| |].
    + intros e [He|He%list_elem_of_singleton]%elem_of_app; [by left|right; by exists raw].
    + intros raw' [= <-]. right. apply elem_of_app. right. left.
  - intros [= <-]. split_and!; [done|done|exists []; by rewrite app_nil_r|by left|done].
Qed.

Lemma add_segments_ok d all entries entries' : add_segments sha256 d entries all = Ok entries' ->
  (exists k, entries' = entries ++ k)
  /\ (forall e, e ∈ entries' -> e ∈ entries \/ exists s raw, s ∈ all /\ d_raw d !! sg_log s = Some raw /\ e = Entry (sg_name s) true raw)
  /\ forall s, s ∈ all -> index_ok d s /\ present (sg_name s) entries' = true
       /\ forall raw, d_raw d !! sg_log s = Some raw ->
            is_body raw (mb_sha (sg_member s)) (mb_size (sg_member s)) = true \/ Entry (sg_name s) true raw ∈ entries'.
Proof.
  revert entries. induction all as [|s all IH]; intros entries.
  - intros [= <-]. split_and!; [exists []; by rewrite app_nil_r|by left|by intros s ?%elem_of_nil].
  - cbn. intros (mid & (Hi & Hp & [k1 ->] & He & Hr)%add_segment_ok & Hrest)%bind_Ok.
    destruct (IH _ Hrest) as ([k2 ->] & He2 & Hs2). split_and!.
    + exists (k1 ++ k2). by rewrite app_assoc.
    + intros e [[?|(raw & E1 & E2)]%He|(s' & raw & Hs' & E1 & E2)]%He2; [by left|right; exists s, raw; set_solver|].
      right. exists s', raw. set_solver.
    + intros s' [->|Hs']%elem_of_cons; [|by apply Hs2]. split_and!; [done|by apply present_app|].
      intros raw Er. destruct (Hr raw Er) as [?|Hin]; [by left|right]. apply elem_of_app. by left.
Qed.

Lemma add_segments_settled d all entries : (forall s, s ∈ all -> settled d entries s) ->
  add_segments sha256 d entries all = Ok entries.
Proof.
  induction all as [|s all IH]; intros Hs; [done|]. cbn.
  assert (E : add_segment sha256 d entries s = Ok entries).
  { destruct (Hs s ltac:(left)) as ((index & Ei & Ed) & Hp & Hr). unfold add_segment. rewrite Ei, Ed. cbn [negb].
    unfold sg_name in Hp. rewrite Hp. destruct (d_raw d !! sg_log s) as [raw|] eqn:Er; [by rewrite Hr|done]. }
  rewrite E. cbn. apply IH. intros s' Hs'. apply Hs. by right.
Qed.

(** Staging depends on the contents only. *)
Lemma stage_ext all d d' : d_index d = d_index d' -> d_raw d = d_raw d' ->
  contents <$> d_tar d = contents <$> d_tar d' -> contents <$> d_meta d = contents <$> d_meta d' ->
  stage sha256 all d = stage sha256 all d'.
Proof.
  intros Hix Hraw Ht Hm. unfold stage, old_members. rewrite Hm.
  assert (Hc : copy_tar d = copy_tar d').
  { unfold copy_tar. destruct (d_tar d), (d_tar d'); cbn in Ht; try done. by injection Ht as ->. }
  rewrite Hc. destruct (copy_tar d') as [kept|e]; cbn; [|done].
  assert (Ha : add_segments sha256 d kept all = add_segments sha256 d' kept all); [|by rewrite Ha].
  generalize kept. induction all as [|s l IH]; intros k; cbn; [done|].
  assert (E : add_segment sha256 d k s = add_segment sha256 d' k s) by (unfold add_segment; by rewrite Hix, Hraw).
  rewrite E. destruct (add_segment sha256 d' k s); cbn; [apply IH|done].
Qed.

(** What the verification pass establishes of an archive and its metadata. *)
Definition certified (members : list member) (entries : list entry) : Prop :=
  NoDup (map mb_name members) /\ NoDup (map en_name entries)
  /\ (forall e, e ∈ entries -> en_file e = true /\ ends_with ".log" (en_name e) = true
        /\ exists m, m ∈ members /\ mb_name m = en_name e /\ is_body (en_data e) (mb_sha m) (mb_size m) = true)
  /\ forall m, m ∈ members -> exists e, e ∈ entries /\ en_name e = mb_name m.

Lemma verify_ok expected entries checked c : verify sha256 expected checked entries = Ok c ->
  (forall k, k ∈ c <-> k ∈ checked \/ k ∈ map en_name entries) /\ NoDup (map en_name entries)
  /\ (forall e, e ∈ entries -> en_name e ∉ checked)
  /\ forall e, e ∈ entries -> en_file e = true /\ ends_with ".log" (en_name e) = true
       /\ exists m, assoc_get (en_name e) expected = Some m /\ is_body (en_data e) (mb_sha m) (mb_size m) = true.
Proof.
  revert checked. induction entries as [|e entries IH]; intros checked; cbn.
  - intros [= <-]. split_and!; [set_solver|constructor|by intros e ?%elem_of_nil|by intros e ?%elem_of_nil].
  - destruct (assoc_get (en_name e) expected) as [m|] eqn:Em; [|done].
    destruct (en_file e) eqn:Ef; cbn [negb orb]; [|done].
    destruct (bool_decide (en_name e ∈ checked)) eqn:Ec; cbn [orb]; [done|]. apply bool_decide_eq_false in Ec.
    destruct (ends_with ".log" (en_name e)) eqn:El; cbn [negb]; [|done].
    destruct (is_body (en_data e) (mb_sha m) (mb_size m)) eqn:Eb; [|done].
    intros (Hc & Hnd & Hfresh & Hall)%IH. split_and!.
    + intros k. rewrite Hc. set_solver.
    + apply NoDup_cons. split; [|done]. intros (e' & E & He')%list_elem_of_fmap. apply (Hfresh e' He'). rewrite <- E. left.
    + intros e' [->|He']%elem_of_cons; [done|]. specialize (Hfresh e' He'). set_solver.
    + intros e' [->|He']%elem_of_cons; [split_and!; [done|done|by exists m]|by apply Hall].
Qed.

Lemma verified_certified members entries : verified sha256 members entries = Ok tt -> certified members entries.
Proof.
  unfold verified. destruct (length (by_name mb_name members) =? length members)%nat eqn:El; cbn [negb]; [|done].
  apply Nat.eqb_eq, by_name_length in El. intros (c & (Hc & Hnd & _ & Hall)%verify_ok & Hend)%bind_Ok.
  destruct (forallb _ (map fst _)) eqn:E1; cbn [andb] in Hend; [|done]. clear Hend.
  split_and!; [done|done| |].
  - intros e He. destruct (Hall e He) as (? & ? & m & Hm & ?). split_and!; [done|done|]. exists m.
    apply by_name_elem in Hm as [? ?]. done.
  - intros m Hm. rewrite forallb_forall in E1. destruct (by_name_some mb_name m members Hm) as [m' Hm'].
    assert (Hk : mb_name m ∈ map fst (by_name mb_name members)) by (apply by_name_keys; by exists m).
    apply list_elem_of_In, E1, bool_decide_eq_true, Hc in Hk as [?%elem_of_nil|Hk]; [done|].
    apply list_elem_of_fmap in Hk as (e & ? & ?). by exists e.
Qed.

(** ** The recovery manifest *)

Lemma same_body_spec a b : same_body a b = true <-> mb_sha a = mb_sha b /\ mb_size a = mb_size b.
Proof. unfold same_body. by rewrite andb_true_iff, String.eqb_eq, Z.eqb_eq. Qed.

Definition compatible (acc : list (string * segment)) (segments : list segment) : Prop :=
  (forall s e, s ∈ segments -> assoc_get (sg_name s) acc = Some e -> same_body (sg_member e) (sg_member s) = true)
  /\ forall s s', s ∈ segments -> s' ∈ segments -> sg_name s = sg_name s' -> same_body (sg_member s) (sg_member s') = true.

Lemma merge_spec segments acc r :
  merge_pending acc segments = Ok r <-> r = foldl (set_named sg_name) acc segments /\ compatible acc segments.
Proof.
  revert acc. induction segments as [|s segments IH]; intros acc; cbn.
  { split; [intros [= <-]|by intros [-> _]]. split; [done|]. split; [by intros ?? ?%elem_of_nil|by intros ?? ?%elem_of_nil]. }
  assert (Hstep : compatible acc (s :: segments) <->
    (forall e, assoc_get (sg_name s) acc = Some e -> same_body (sg_member e) (sg_member s) = true)
    /\ compatible (set_named sg_name acc s) segments).
  { unfold compatible, set_named. setoid_rewrite assoc_get_set. setoid_rewrite same_body_spec. split.
    - intros [Ha Hs]. split_and!; [intros e He; by apply Ha; [left|]| |].
      + intros s' e Hs' He. case_decide; [injection He as <-; apply Hs; [left|by right|done]|apply Ha; [by right|done]].
      + intros s' s2 ??. apply Hs; by right.
    - intros (He & Ha & Hs). assert (Hself : forall s', s' ∈ segments -> sg_name s' = sg_name s ->
        mb_sha (sg_member s) = mb_sha (sg_member s') /\ mb_size (sg_member s) = mb_size (sg_member s')).
      { intros s' Hs' E. apply (Ha s'); [done|by rewrite decide_True]. } split.
      + intros s' e [->|Hs']%elem_of_cons Hg; [by apply He|].
        destruct (decide (sg_name s' = sg_name s)) as [E|E]; [|apply Ha; [done|by rewrite decide_False]].
        rewrite E in Hg. destruct (He e Hg), (Hself s' Hs' E). split; congruence.
      + intros s1 s2 [->|Hs1]%elem_of_cons [->|Hs2]%elem_of_cons E; [done|by apply Hself| |by apply Hs].
        destruct (Hself s1 Hs1 E). done. }
  rewrite Hstep. destruct (assoc_get (sg_name s) acc) as [e|] eqn:Eg.
  - destruct (same_body (sg_member e) (sg_member s)) eqn:Eb.
    + rewrite IH. unfold set_named at 1. naive_solver.
    + split; [done|]. intros (_ & He & _). specialize (He e eq_refl). congruence.
  - rewrite IH. unfold set_named at 1. naive_solver.
Qed.

Lemma collect_spec segments d all : collect segments d = Ok all <->
  all = map snd (foldl (set_named sg_name) (by_name sg_name (default [] (d_pending d))) segments)
  /\ compatible (by_name sg_name (default [] (d_pending d))) segments.
Proof.
  unfold collect. rewrite bind_Ok. split.
  - intros (l & [-> Hc]%merge_spec & [= <-]). done.
  - intros [-> Hc]. eexists. split; [by apply merge_spec|done].
Qed.

Section manifest.
Variables (segments : list segment) (d0 : dir) (all : list segment).
Hypothesis Hall : collect segments d0 = Ok all.

Let table := foldl (set_named sg_name) (by_name sg_name (default [] (d_pending d0))) segments.

Lemma table_keyed : keyed sg_name table.
Proof. apply keyed_fold, by_name_keyed. Qed.

Lemma all_table : all = map snd table.
Proof. by apply collect_spec in Hall as [-> _]. Qed.

Lemma table_elem s : s ∈ all <-> assoc_get (sg_name s) table = Some s.
Proof.
  rewrite all_table. pose proof table_keyed as Hk. split.
  - intros ([k x] & -> & Hx)%list_elem_of_fmap. cbn. apply keyed_get; [done|]. destruct Hk as [_ Hk]. by rewrite (Hk k x Hx).
  - intros Hg%assoc_get_elem. by apply (list_elem_of_fmap_2 snd) in Hg.
Qed.

Lemma all_unique s s' : s ∈ all -> s' ∈ all -> sg_name s = sg_name s' -> s = s'.
Proof. rewrite !table_elem. intros E1 E2 E. rewrite E in E1. congruence. Qed.

(** Collecting again, after any part of the manifest was dropped. *)
Lemma recollect d : (forall s, s ∈ default [] (d_pending d) -> s ∈ all) ->
  exists l, collect segments d = Ok l /\ (forall s, s ∈ l -> s ∈ all)
    /\ forall s, s ∈ all -> s ∈ default [] (d_pending d) -> s ∈ l.
Proof.
  intros Hsub. pose proof Hall as [_ [_ Hself]]%collect_spec. set (acc := by_name sg_name (default [] (d_pending d))).
  assert (Hlast : forall k x, assoc_get k (by_name sg_name segments) = Some x -> x ∈ all).
  { intros k x Hx. apply table_elem. unfold table. rewrite fold_get. destruct (by_name_elem _ _ _ _ Hx) as [_ <-]. by rewrite Hx. }
  assert (Hold : forall k x, assoc_get k acc = Some x -> x ∈ all /\ sg_name x = k).
  { intros k x [Hx E]%by_name_elem. auto. }
  set (l := foldl (set_named sg_name) acc segments).
  assert (Hk : keyed sg_name l) by apply keyed_fold, by_name_keyed.
  exists (map snd l). split_and!.
  - apply collect_spec. split; [done|]. split; [|exact Hself]. intros s e Hs [He En]%Hold.
    destruct (by_name_some sg_name s segments Hs) as [x Hx]. pose proof (Hlast _ _ Hx) as Hxa.
    apply by_name_elem in Hx as [Hxs Hxn]. rewrite (all_unique e x) by (done || congruence). by apply Hself.
  - intros s ([k x] & -> & Hx)%list_elem_of_fmap. cbn. assert (E : sg_name x = k) by (by apply Hk). subst k.
    apply keyed_get in Hx; [|done]. unfold l in Hx. rewrite fold_get in Hx.
    destruct (assoc_get (sg_name x) (by_name sg_name segments)) as [y|] eqn:E; [injection Hx as ->; eauto|by apply Hold in Hx as [? _]].
  - intros s Hs Hp. destruct (by_name_some sg_name s _ Hp) as [y Hy]. pose proof (Hold _ _ Hy) as [Hya Hyn].
    assert (Hg : assoc_get (sg_name s) l = Some s).
    { unfold l. rewrite fold_get. destruct (assoc_get (sg_name s) (by_name sg_name segments)) as [x|] eqn:E.
      - apply table_elem in Hs. unfold table in Hs. rewrite fold_get, E in Hs. done.
      - fold acc in Hy. rewrite Hy. f_equal. by apply all_unique. }
    apply assoc_get_elem in Hg. by apply (list_elem_of_fmap_2 snd) in Hg.
Qed.

(** The manifest is its own continuation. *)
Lemma recollect_same d : d_pending d = d_pending d0 \/ d_pending d = Some all -> collect segments d = Ok all.
Proof.
  intros [E|E]; [rewrite <- Hall; unfold collect; by rewrite E|].
  pose proof Hall as [_ [_ Hself]]%collect_spec. destruct (recollect d) as (l & Hl & _); [by rewrite E|].
  assert (Eb : by_name sg_name all = table) by (rewrite all_table; apply by_name_values, table_keyed).
  rewrite Hl. apply collect_spec in Hl as [-> _]. f_equal. rewrite E. change (default [] (Some all)) with all. rewrite Eb.
  unfold table at 1. rewrite fold_again by apply by_name_keyed. by rewrite all_table.
Qed.
End manifest.

(** ** The stages of a publication

    From the directory [d0] a publication of the manifest [all] passes through
    these stages; interrupted and started again, it continues from one of them. *)

Definition tar_of (d : dir) : option (list entry) := contents <$> d_tar d.
Definition meta_of (d : dir) : option (list member) := contents <$> d_meta d.

(** A part named like a published member is the same body: part numbers are
    never reused within an hour. *)
Definition names_agree (segments : list segment) (d : dir) : Prop :=
  forall all s m, collect segments d = Ok all -> s ∈ all -> m ∈ old_members d -> mb_name m = sg_name s ->
    same_body m (sg_member s) = true.

Section stages.
Variables (segments : list segment) (d0 : dir) (all : list segment) (entries : list entry) (members : list member).
Hypothesis Hall : collect segments d0 = Ok all.
Hypothesis Hstage : stage sha256 all d0 = Ok (entries, members).
Hypothesis Hnames : names_agree segments d0.

Inductive at_stage (d : dir) : Prop :=
  | Planned : d_index d = d_index d0 -> d_raw d = d_raw d0 -> tar_of d = tar_of d0 -> meta_of d = meta_of d0 ->
      d_pending d = d_pending d0 \/ d_pending d = Some all -> at_stage d
  | Replaced : d_index d = d_index d0 -> d_raw d = d_raw d0 -> tar_of d = Some entries -> meta_of d = meta_of d0 ->
      d_pending d = Some all -> at_stage d
  | Described : d_index d = d_index d0 ->
      (forall p, d_raw d !! p = d_raw d0 !! p \/ (d_raw d !! p = None /\ p ∈ paths all)) ->
      tar_of d = Some entries -> meta_of d = Some members ->
      (forall s, s ∈ default [] (d_pending d) -> s ∈ all) ->
      (forall s, s ∈ all -> is_Some (d_raw d !! sg_log s) -> s ∈ default [] (d_pending d)) -> at_stage d.

Definition published (d : dir) : Prop :=
  d_index d = d_index d0 /\ tar_of d = Some entries /\ meta_of d = Some members /\ d_pending d = None
  /\ forall p, d_raw d !! p = if decide (p ∈ paths all) then None else d_raw d0 !! p.

Lemma staged : exists kept, copy_tar d0 = Ok kept /\ add_segments sha256 d0 kept all = Ok entries
  /\ members = all_members (old_members d0) all /\ verified sha256 members entries = Ok tt.
Proof.
  unfold stage in Hstage. apply bind_Ok in Hstage as (kept & Ek & Hs). apply bind_Ok in Hs as (es & Ee & Hs).
  apply bind_Ok in Hs as ([] & Ev & [= -> <-]). by exists kept.
Qed.

(** The member that describes a part. *)
Lemma described s m : s ∈ all -> m ∈ members -> mb_name m = sg_name s -> same_body m (sg_member s) = true.
Proof.
  intros Hs Hm E. destruct staged as (_ & _ & _ & -> & _). apply elem_of_app in Hm as [Hm|Hm]; [by eapply Hnames|].
  apply list_elem_of_filter in Hm as [_ (s' & -> & Hs')%list_elem_of_fmap].
  rewrite (all_unique segments d0 all Hall s s') by done. by apply same_body_spec.
Qed.

Lemma is_body_same raw a b : same_body a b = true -> is_body raw (mb_sha a) (mb_size a) = is_body raw (mb_sha b) (mb_size b).
Proof. by intros [-> ->]%same_body_spec. Qed.

Lemma is_body_eq x y sha n : is_body x sha n = true -> is_body y sha n = true -> sha256 x = sha256 y /\ zlen x = zlen y.
Proof. unfold digest_is. rewrite !andb_true_iff, !String.eqb_eq, !Z.eqb_eq. intros [-> ->] [-> ->]. done. Qed.

Lemma all_settled s : s ∈ all -> settled d0 entries s.
Proof.
  intros Hs. destruct staged as (kept & _ & (_ & _ & Hadd)%add_segments_ok & _ & Hv).
  destruct (Hadd s Hs) as (Hi & Hp & Hr). split_and!; [done|done|]. intros raw Er.
  destruct (Hr raw Er) as [?|Hin]; [done|]. apply verified_certified in Hv as (_ & _ & He & _).
  destruct (He _ Hin) as (_ & _ & m & Hm & En & Hb). cbn in En, Hb. by rewrite <- (is_body_same raw m) by by apply described.
Qed.

(** The archive stores every raw part. *)
Lemma stored s raw : s ∈ all -> d_raw d0 !! sg_log s = Some raw ->
  exists e m, e ∈ entries /\ m ∈ members /\ en_name e = sg_name s /\ mb_name m = sg_name s
    /\ en_file e = true /\ is_body (en_data e) (mb_sha m) (mb_size m) = true
    /\ sha256 (en_data e) = sha256 raw /\ zlen (en_data e) = zlen raw.
Proof.
  intros Hs Er. destruct (all_settled s Hs) as (_ & (e & He & En)%present_spec & Hr).
  destruct staged as (_ & _ & _ & _ & (_ & _ & Hc & _)%verified_certified).
  destruct (Hc e He) as (Hf & _ & m & Hm & Emn & Hb). exists e, m. rewrite Emn. split_and!; try done.
  - eapply is_body_eq; [exact Hb|]. rewrite (is_body_same raw m (sg_member s)) by (apply described; [done|done|congruence]). by apply Hr.
  - eapply (is_body_eq _ _ (mb_sha m)); [exact Hb|].
    rewrite (is_body_same raw m (sg_member s)) by (apply described; [done|done|congruence]). by apply Hr.
Qed.

Lemma members_named s : s ∈ all -> named (sg_name s) members = true.
Proof.
  intros Hs. destruct staged as (_ & _ & _ & -> & _). unfold named, all_members. rewrite existsb_app.
  destruct (existsb _ (old_members d0)) eqn:Eo; [done|]. cbn. apply existsb_exists. exists (sg_member s).
  split; [|by apply String.eqb_eq]. apply list_elem_of_In, list_elem_of_filter. split; [exact Eo|]. by apply list_elem_of_fmap_2.
Qed.

Lemma entries_log : forallb (fun e => en_file e && ends_with ".log" (en_name e)) entries = true.
Proof.
  destruct staged as (_ & _ & _ & _ & (_ & _ & Hc & _)%verified_certified). apply forallb_forall. intros e He%list_elem_of_In.
  destruct (Hc e He) as (-> & -> & _). done.
Qed.

(** Staging again what is left of the manifest gives the same archive. *)
Lemma restage d : at_stage d -> exists l, collect segments d = Ok l /\ stage sha256 l d = Ok (entries, members)
  /\ (forall s, s ∈ l -> s ∈ all) /\ (forall s, s ∈ all -> is_Some (d_raw d !! sg_log s) -> s ∈ l)
  /\ at_stage (write_pending (Some l) d) /\ (l = all \/ meta_of d = Some members /\ tar_of d = Some entries).
Proof.
  assert (Hre : forall d l, d_index d = d_index d0 -> (forall p raw, d_raw d !! p = Some raw -> d_raw d0 !! p = Some raw) ->
    tar_of d = Some entries -> (forall s, s ∈ l -> s ∈ all) -> all_members (old_members d) l = members ->
    stage sha256 l d = Ok (entries, members)).
  { clear d. intros d l Hix Hraw Htar Hl Hm. unfold stage, copy_tar. unfold tar_of in Htar.
    destruct (d_tar d) as [t|]; [|done]. cbn in Htar. injection Htar as ->. rewrite entries_log. cbn [result_bind mbind].
    rewrite add_segments_settled; cbn.
    - rewrite Hm. destruct staged as (_ & _ & _ & _ & ->). done.
    - intros s Hs. destruct (all_settled s (Hl s Hs)) as ((ix & E1 & E2) & Hp & Hr). split_and!; [|done|].
      + exists ix. by rewrite Hix.
      + intros raw Er. by apply Hr, Hraw. }
  intros [Hix Hraw Htar Hmeta Hp|Hix Hraw Htar Hmeta Hp|Hix Hraw Htar Hmeta Hsub Hcov].
  - exists all. split_and!; [by apply (recollect_same segments d0 all Hall)| |done|done|by apply Planned; auto|by left].
    rewrite <- Hstage. by apply stage_ext.
  - exists all. split_and!; [apply (recollect_same segments d0 all Hall); auto| |done|done|by apply Replaced|by left].
    apply Hre; [done|by rewrite Hraw|done|done|]. destruct staged as (_ & _ & _ & -> & _).
    unfold old_members. unfold meta_of in Hmeta. by rewrite Hmeta.
  - destruct (recollect segments d0 all Hall d Hsub) as (l & Hl & Hla & Hal). exists l. split_and!; [done| |done| | |by right].
    + apply Hre; [done| |done|done|].
      * intros p raw Er. destruct (Hraw p) as [<-|[? _]]; congruence.
      * unfold all_members, old_members. unfold meta_of in Hmeta. rewrite Hmeta. cbn.
        rewrite filter_none; [apply app_nil_r|]. intros m (s & -> & Hs)%list_elem_of_fmap Hf.
        pose proof (members_named s (Hla s Hs)) as Hn. assert (Hf' : named (sg_name s) members = false) by exact Hf. congruence.
    + intros s Hs Hr. by apply Hal, Hcov.
    + apply Described; try done. cbn. intros s Hs Hr. by apply Hal, Hcov.
Qed.

(** The manifest [l] is on disk and covers the raw parts that are left. *)
Record ready (l : list segment) (d : dir) : Prop := Ready {
  ready_index : d_index d = d_index d0;
  ready_raw : forall p, d_raw d !! p = d_raw d0 !! p \/ (d_raw d !! p = None /\ p ∈ paths all);
  ready_pending : d_pending d = Some l;
  ready_sub : forall s, s ∈ l -> s ∈ all;
  ready_cover : forall s, s ∈ all -> is_Some (d_raw d !! sg_log s) -> s ∈ l }.

Definition first_time (l : list segment) (d : dir) : Prop :=
  (l = all /\ d_raw d = d_raw d0 /\ meta_of d = meta_of d0) \/ meta_of d = Some members.

Definition done_meta (l : list segment) (d : dir) : Prop := ready l d /\ tar_of d = Some entries /\ meta_of d = Some members.

Lemma done_meta_stage l d : done_meta l d -> at_stage d.
Proof. intros ([? ? Hp ? ?] & ? & ?). apply Described; try done; by rewrite Hp. Qed.

Lemma ready_replaced l d : ready l d -> tar_of d = Some entries -> first_time l d -> at_stage d.
Proof.
  intros Hr Ht [(-> & ? & ?)|Hm]; [apply Replaced; try done; by destruct Hr|by apply (done_meta_stage l)].
Qed.

Lemma stage_raw d : at_stage d -> forall p, d_raw d !! p = d_raw d0 !! p \/ (d_raw d !! p = None /\ p ∈ paths all).
Proof. by intros [_ -> _ _ _|_ -> _ _ _|_ ? _ _ _ _]; [left|left|]. Qed.

Lemma stage_index d : at_stage d -> d_index d = d_index d0.
Proof. by intros []. Qed.

Lemma stage_first d l : at_stage d -> l = all \/ meta_of d = Some members /\ tar_of d = Some entries -> first_time l d \/ (l = all /\ meta_of d = Some members).
Proof. intros [_ ? _ ? _|_ ? _ ? _|_ _ _ ? _ _] [->|[? _]]; by (left; by left) || (left; by right) || (right; by split). Qed.

Lemma unlink_triple l gone rest : (forall s, s ∈ rest -> s ∈ all) ->
  triple (fun d => done_meta l d /\ forall p, p ∈ gone -> d_raw d !! p = None) (unlink_raws rest)
    (fun _ d => done_meta l d /\ forall p, p ∈ gone ++ paths rest -> d_raw d !! p = None) at_stage.
Proof.
  revert gone. induction rest as [|s rest IH]; intros gone Hsub; cbn.
  - apply crash_ret. intros d [Hd Hg]. split; [by apply (done_meta_stage l)|]. rewrite app_nil_r. by split.
  - apply (crash_bind _ _ _ (fun _ d => done_meta l d /\ forall p, p ∈ gone ++ [sg_log s] -> d_raw d !! p = None)).
    + apply triple_effect. intros d [Hd Hg]. split; [by apply (done_meta_stage l)|].
      assert (Hs : sg_log s ∈ paths all) by (apply list_elem_of_fmap_2, Hsub; left).
      assert (Hd' : done_meta l (unlink_raw (sg_log s) d)).
      { destruct Hd as ([Hi Hr Hp Hl Hc] & Ht & Hm). split; [|by split]. split; try done; cbn.
        - intros p. destruct (decide (p = sg_log s)) as [->|]; [right; by rewrite lookup_delete_eq|].
          rewrite lookup_delete_ne by done. apply Hr.
        - intros s' Hs' Hsome. apply Hc; [done|]. destruct (decide (sg_log s' = sg_log s)) as [E|E].
          + rewrite E, lookup_delete_eq in Hsome. by destruct Hsome.
          + by rewrite lookup_delete_ne in Hsome. }
      split; [by apply (done_meta_stage l)|]. split; [done|]. cbn. intros p [Hp|Hp%list_elem_of_singleton]%elem_of_app; [|subst p].
      * destruct (decide (p = sg_log s)) as [->|]; [by rewrite lookup_delete_eq|]. rewrite lookup_delete_ne by done. auto.
      * by rewrite lookup_delete_eq.
    + intros _. eapply triple_weaken; cycle 3; [apply (IH (gone ++ [sg_log s])); set_solver|done| |done].
      intros _ d [Hd Hg]. split; [done|]. by rewrite <- app_assoc in Hg.
Qed.

Lemma publish_triple : triple at_stage (publish segments) (fun _ d => published d) at_stage.
Proof.
  apply (crash_bind _ _ _ (fun a d => at_stage d /\ a = d)); [by apply triple_view|]. intros d.
  apply (crash_bind _ _ _ (fun l d' => (at_stage d' /\ d = d') /\ collect segments d = Ok l));
    [apply triple_lift; by intros d' [? _]|]. intros l.
  apply (crash_bind _ _ _ (fun _ d => at_stage d /\ ready l d /\ stage sha256 l d = Ok (entries, members)
    /\ (first_time l d \/ (l = all /\ meta_of d = Some members)))).
  { apply triple_effect. intros d' [[Hd <-] Hl]. destruct (restage d Hd) as (l' & Hl' & Hs & Hsub & Hcov & Hst & Hcase).
    rewrite Hl in Hl'. injection Hl' as <-. split; [done|]. split; [done|]. split; [done|]. split_and!.
    - split; try done; cbn; [by apply stage_index|by apply stage_raw].
    - rewrite <- Hs. by apply stage_ext.
    - by apply (stage_first d). }
  intros _. apply (crash_bind _ _ _ (fun a d => (at_stage d /\ ready l d /\ stage sha256 l d = Ok (entries, members)
    /\ (first_time l d \/ (l = all /\ meta_of d = Some members))) /\ a = d)); [apply triple_view; by intros d1 [? _]|]. intros d1.
  apply (crash_bind _ _ _ (fun staged d => (at_stage d /\ ready l d /\ first_time l d) /\ staged = (entries, members))).
  { intros d2 n (( Hd & Hr & Hs & Hf) & <-). cbn. split; [done|]. intros s E. rewrite Hs in E. injection E as <-.
    split; [|done]. split_and!; [done|done|]. destruct Hf as [?|[_ ?]]; [done|by right]. }
  intros staged. apply (crash_bind _ _ _ (fun _ d => (ready l d /\ tar_of d = Some entries /\ first_time l d) /\ staged = (entries, members))).
  { apply triple_effect. intros d2 [(Hd & [? ? ? ? ?] & Hf) ->]. split; [done|]. cbn.
    assert (Hr : ready l (write_tar entries d2)) by (by split). split; [|done].
    apply (ready_replaced l); [done|done|exact Hf]. }
  intros _. apply (crash_bind _ _ _ (fun _ d => done_meta l d /\ staged = (entries, members))).
  { apply triple_effect. intros d2 [(Hr & Ht & Hf) ->]. split; [by apply (ready_replaced l)|]. cbn.
    assert (Hd : done_meta l (write_meta members d2)) by (destruct Hr; by split; [split|]).
    split; [by apply (done_meta_stage l)|done]. }
  intros _. apply (crash_bind _ _ _ (fun _ d => done_meta l d /\ (forall s, s ∈ l -> s ∈ all))).
  { unfold persist_verified. apply (crash_bind _ _ _ (fun a d => (done_meta l d /\ staged = (entries, members)) /\ a = d));
      [apply triple_view; intros d2 [? _]; by apply (done_meta_stage l)|]. intros d2.
    apply (crash_bind _ _ _ (fun _ d => done_meta l d));
      [intros d3 n [[Hd _] _]; split; [by apply (done_meta_stage l)|by intros ix]|]. intros ix.
    destruct (d_tar d2), (d_meta d2); try (apply triple_raise; intros d3 ?; by apply (done_meta_stage l)).
    apply triple_effect. intros d3 Hd. split; [by apply (done_meta_stage l)|].
    assert (Hd' : done_meta l (write_receipt (Receipt (stamp s) (stamp s0) ix) d3)) by (destruct Hd as ([] & ? & ?); by split; [split|]).
    split; [by apply (done_meta_stage l)|]. split; [done|]. by destruct Hd as ([] & _). }
  intros _ d2 n [Hd Hsub]. apply (crash_bind (fun d => done_meta l d /\ forall p, p ∈ [] -> d_raw d !! p = None) _ _
    (fun _ d => done_meta l d /\ forall p, p ∈ paths l -> d_raw d !! p = None)); [by apply (unlink_triple l [])| |split; [done|set_solver]].
  intros _. apply triple_effect. intros d3 [Hd3 Hg]. split; [by apply (done_meta_stage l)|].
  assert (Hgone : forall p, p ∈ paths all -> d_raw d3 !! p = None).
  { intros p (s & -> & Hs)%list_elem_of_fmap. apply eq_None_not_Some. intros Hsome. destruct Hd3 as ([_ _ _ _ Hc] & _).
    specialize (Hc s Hs Hsome). destruct Hsome as [x Hx]. rewrite Hg in Hx; [done|]. by apply list_elem_of_fmap_2. }
  destruct Hd3 as ([Hi Hr Hp Hl Hc] & Ht & Hm). split.
  - apply Described; try done; cbn; [by intros s ?%elem_of_nil|].
    intros s Hs [x Hx]. rewrite Hgone in Hx; [done|]. by apply list_elem_of_fmap_2.
  - split_and!; try done. cbn. intros p. case_decide as Hp'; [auto|]. destruct (Hr p) as [?|[_ ?]]; done.
Qed.

Lemma signatures_ext d d' l acc : d_index d = d_index d' -> signatures d l acc = signatures d' l acc.
Proof. intros E. revert acc. induction l as [|m l IH]; intros acc; cbn; [done|]. rewrite E. by destruct (d_index d' !! _). Qed.

Lemma publish_completes d : at_stage d -> is_ok (signatures d0 members []) = true ->
  exists k d2, completes (publish segments) d k tt d2.
Proof.
  intros Hd Hsig. destruct (restage d Hd) as (l & Hl & Hs & _).
  set (d1 := write_pending (Some l) d). set (d2 := write_meta members (write_tar entries d1)).
  destruct (signatures d0 members []) as [ix|] eqn:Ei; [|done].
  eexists _, _. unfold publish_hour_archive.
  eapply completes_bind; [apply completes_view|]. eapply completes_bind; [by apply completes_lift|].
  eapply completes_bind; [apply completes_effect|]. fold d1. eapply completes_bind; [apply completes_view|].
  eapply completes_bind; [apply completes_lift; rewrite <- Hs; by apply stage_ext|]. cbn [fst snd].
  eapply completes_bind; [apply completes_effect|]. eapply completes_bind; [apply completes_effect|]. fold d2.
  eapply completes_bind; [|eapply completes_bind; [apply unlink_raws_completes|apply completes_effect]].
  unfold persist_verified. eapply completes_bind; [apply completes_view|].
  eapply completes_bind; [apply completes_lift; rewrite <- Ei; apply signatures_ext; exact (stage_index d Hd)|].
  apply completes_effect.
Qed.
End stages.

Lemma publish_returns segments d n d' n' : publish segments (d, n) = (Ok tt, (d', n')) ->
  exists all entries members, collect segments d = Ok all /\ stage sha256 all d = Ok (entries, members)
    /\ is_ok (signatures d members []) = true.
Proof.
  intros (a & s1 & [= <- <-] & Hp)%bind_returns. apply bind_returns in Hp as (all & s2 & [= Hc <-] & Hp).
  apply bind_returns in Hp as ([] & [d3 n3] & E3 & Hp). apply effect_returns in E3. cbn in E3. subst d3.
  apply bind_returns in Hp as (d4 & s4 & [= <- <-] & Hp). apply bind_returns in Hp as ([entries members] & s5 & [= Hs <-] & Hp).
  apply bind_returns in Hp as ([] & [d6 n6] & E6 & Hp). apply effect_returns in E6. cbn in E6. subst d6.
  apply bind_returns in Hp as ([] & [d7 n7] & E7 & Hp). apply effect_returns in E7. cbn in E7. subst d7.
  apply bind_returns in Hp as ([] & s8 & E8 & _). unfold persist_verified in E8.
  apply bind_returns in E8 as (d9 & s9 & [= <- <-] & E8). apply bind_returns in E8 as (ix & s10 & [= Hix <-] & _).
  exists all, entries, members. split_and!; [done|rewrite <- Hs; by apply stage_ext|]. by rewrite (signatures_ext d (write_meta members (write_tar entries (write_pending (Some all) d)))), Hix.
Qed.

(** Runs of the same publication, each ended by an interruption or not. *)
Inductive interrupted (segments : list segment) (d0 : dir) : dir -> Prop :=
  | Start : interrupted segments d0 d0
  | Again d n r d' n' : interrupted segments d0 d -> publish segments (d, n) = (r, (d', n')) -> interrupted segments d0 d'.

Lemma interrupted_stage segments d0 all entries members d :
  collect segments d0 = Ok all -> stage sha256 all d0 = Ok (entries, members) -> names_agree segments d0 ->
  interrupted segments d0 d -> at_stage d0 all entries members d.
Proof.
  intros Ha Hs Hn. induction 1 as [|d n r d' n' _ IH E]; [apply Planned; auto|].
  pose proof (publish_triple segments d0 all entries members Ha Hs Hn d n IH) as [Hc _]. by rewrite E in Hc.
Qed.

Definition same_archive (d d' : dir) : Prop :=
  tar_of d = tar_of d' /\ meta_of d = meta_of d' /\ d_index d = d_index d' /\ d_raw d = d_raw d' /\ d_pending d = d_pending d'.

(** C10: a publication survives any number of crashes.  When publishing the parts
    would succeed without interruption, then after any sequence of runs, each
    stopped before an arbitrary file operation, running it once more succeeds
    and leaves the same archive, the same metadata, the same index files, no
    raw part of the manifest and no manifest: no part is archived twice, lost or
    left behind. *)
Theorem publish_resumes segments d0 n0 d1 k0 :
  names_agree segments d0 -> publish segments (d0, n0) = (Ok tt, (d1, k0)) ->
  forall d, interrupted segments d0 d ->
    exists k d2, (forall n, publish segments (d, (k + n)%nat) = (Ok tt, (d2, n))) /\ same_archive d1 d2.
Proof.
  intros Hn Hrun d Hd. destruct (publish_returns _ _ _ _ _ Hrun) as (all & entries & members & Ha & Hs & Hsig).
  pose proof (interrupted_stage _ _ _ _ _ _ Ha Hs Hn Hd) as Hst.
  destruct (publish_completes segments d0 all entries members Ha Hs Hn d Hst Hsig) as (k & d2 & Hk).
  exists k, d2. split; [exact Hk|].
  assert (H1 : published d0 all entries members d1).
  { pose proof (publish_triple segments d0 all entries members Ha Hs Hn d0 n0) as [_ Hq]; [apply Planned; auto|].
    rewrite Hrun in Hq. by apply (Hq tt). }
  assert (H2 : published d0 all entries members d2).
  { pose proof (publish_triple segments d0 all entries members Ha Hs Hn d (k + 0)%nat Hst) as [_ Hq].
    rewrite (Hk 0%nat) in Hq. by apply (Hq tt). }
  destruct H1 as (E1 & E2 & E3 & E4 & E5), H2 as (F1 & F2 & F3 & F4 & F5). split_and!; try congruence.
  apply map_eq. intros p. by rewrite E5, F5.
Qed.

(** The archive of [d] has an entry of the size and the digest of [raw], and the
    metadata describes it. *)
Definition archived (raw : bytes) (d : dir) : Prop :=
  exists e m, e ∈ default [] (tar_of d) /\ m ∈ default [] (meta_of d) /\ mb_name m = en_name e /\ en_file e = true
    /\ sha256 (en_data e) = sha256 raw /\ zlen (en_data e) = zlen raw
    /\ digest_is sha256 (en_data e) (mb_sha m) (mb_size m) = true.

Definition nothing_lost (d d' : dir) : Prop :=
  d_index d' = d_index d
  /\ (forall e, e ∈ default [] (tar_of d) -> e ∈ default [] (tar_of d'))
  /\ forall p raw, d_raw d !! p = Some raw -> d_raw d' !! p = Some raw \/ archived raw d'.

Lemma nothing_lost_same d d' : d_index d' = d_index d -> d_raw d' = d_raw d -> tar_of d' = tar_of d -> nothing_lost d d'.
Proof. intros E1 E2 E3. unfold nothing_lost. rewrite E1, E2, E3. split_and!; [done|done|by left]. Qed.

Lemma stage_nothing_lost segments d0 all entries members d :
  collect segments d0 = Ok all -> stage sha256 all d0 = Ok (entries, members) -> names_agree segments d0 ->
  at_stage d0 all entries members d -> nothing_lost d0 d.
Proof.
  intros Ea Es Hn Hd. destruct (staged d0 all entries members Es) as (kept & Ek & ([tail ->] & _)%add_segments_ok & _).
  assert (Hkept : default [] (tar_of d0) = kept).
  { unfold copy_tar, tar_of in *. destruct (d_tar d0) as [t|]; [|by injection Ek]. destruct (forallb _ _); [by injection Ek|done]. }
  destruct Hd as [Hi Hr Ht Hm _|Hi Hr Ht Hm _|Hi Hr Ht Hm _ _]; [by apply nothing_lost_same| |];
    (split; [done|]; rewrite Ht, Hkept; split; [intros e He; apply elem_of_app; by left|]).
  - rewrite Hr. by left.
  - intros p raw Er. destruct (Hr p) as [->|[_ (s & -> & Hs)%list_elem_of_fmap]]; [by left|right].
    destruct (stored segments d0 all _ members Ea Es Hn s raw Hs Er) as (e & m & ? & ? & ? & ? & ? & ? & ? & ?).
    exists e, m. rewrite Ht, Hm. split_and!; congruence || done.
Qed.

(** A publication whose manifest or archive cannot be built changes at most the
    manifest on disk. *)
Lemma publish_refused segments d n :
  match collect segments d with Ok all => exists e, stage sha256 all d = Raise e | Raise _ => True end ->
  exists l, (publish segments (d, n)).2.1 = write_pending l d.
Proof.
  intros Hx. unfold publish_hour_archive, view, lift, st_bind. cbn [fst snd].
  destruct (collect segments d) as [all|e]; [|exists (d_pending d); by destruct d].
  destruct Hx as [e Hx]. destruct n as [|n]; cbn [effect]; [exists (d_pending d); by destruct d|].
  rewrite (stage_ext all _ d), Hx by done. by eexists.
Qed.

(** C9: publishing never loses a log, as long as a part named like a published member
    is the same body ([names_agree]: part numbers are not reused within an hour;
    [publish_name_clash] loses a raw part without it).  Wherever such a publication
    stops, whether by an error, a crash or at its end, every entry of the archive is
    still there, the index files are untouched, and every raw part is still in place
    or is stored: the archive has an entry with the size and the digest of the raw
    file, and the metadata describes that entry. *)
Theorem publish_never_loses segments d n :
  names_agree segments d -> nothing_lost d (publish segments (d, n)).2.1.
Proof.
  intros Hn. destruct (collect segments d) as [all|e] eqn:Ea;
    [destruct (stage sha256 all d) as [[entries members]|e] eqn:Es|].
  - apply (stage_nothing_lost segments d all entries members); try done.
    apply (publish_triple segments d all entries members Ea Es Hn d n). apply Planned; auto.
  - destruct (publish_refused segments d n) as [l ->]; [rewrite Ea; by exists e|]. by apply nothing_lost_same.
  - destruct (publish_refused segments d n) as [l ->]; [by rewrite Ea|]. by apply nothing_lost_same.
Qed.

(** ** Receipts *)

(** The index is replaced or a file is deleted by someone else. *)
Definition write_index (name : string) (data : option bytes) (d : dir) : dir :=
  Dir (d_raw d) (partial_alter (fun _ => (fun b => Stamped b (d_clock d)) <$> data) name (d_index d)) (d_tar d) (d_meta d)
    (d_pending d) (d_spools d) (d_receipt d) (d_clock d + 1).

Definition drop_archive (d : dir) : dir :=
  Dir (d_raw d) (d_index d) None None (d_pending d) (d_spools d) (d_receipt d) (d_clock d).

(** What may happen in the directory, whoever does it: publications stopped
    anywhere, replaced or deleted files, acknowledged receipts. *)
Inductive evolves : dir -> dir -> Prop :=
  | Stays d : evolves d d
  | Continues d1 d2 d3 : evolves d1 d2 -> evolves d2 d3 -> evolves d1 d3
  | Publishes segments d n : evolves d (publish segments (d, n)).2.1
  | ReplacesTar l d : evolves d (write_tar l d)
  | ReplacesMeta l d : evolves d (write_meta l d)
  | WritesIndex name data d : evolves d (write_index name data d)
  | DropsArchive d : evolves d (drop_archive d)
  | Acknowledges version env d n : (forall d, evolves d (env d)) -> evolves d (acknowledge version env (d, n)).2.1.

(** A receipt that matches the files in place speaks of a verified archive. *)
Definition sound (r : receipt) (d : dir) : Prop :=
  rc_tar r < d_clock d /\ rc_meta r < d_clock d
  /\ forall tar meta, d_tar d = Some tar -> d_meta d = Some meta -> rc_tar r = stamp tar -> rc_meta r = stamp meta ->
       certified (contents meta) (contents tar).

Definition receipt_inv (d : dir) : Prop :=
  (forall tar, d_tar d = Some tar -> stamp tar < d_clock d) /\ (forall meta, d_meta d = Some meta -> stamp meta < d_clock d)
  /\ forall r, d_receipt d = Some r -> sound (contents r) d.

Definition keeps (d d' : dir) : Prop := receipt_inv d' /\ forall r, sound r d -> sound r d'.

Lemma keeps_trans d1 d2 d3 : keeps d1 d2 -> keeps d2 d3 -> keeps d1 d3.
Proof. intros [_ H1] [? H2]. split; [done|]. auto. Qed.

(** Replacing a file gives it a stamp no receipt carries. *)
Lemma keeps_tar l d : receipt_inv d -> keeps d (write_tar l d).
Proof.
  intros (Ht & Hm & Hr). assert (Hs : forall r, sound r d -> sound r (write_tar l d)).
  { intros r (H1 & H2 & _). split_and!; cbn; [lia|lia|]. intros tar meta [= <-] _ E. cbn in E. lia. }
  split; [|done]. split_and!; cbn; [intros tar [= <-]; cbn; lia|intros meta Hmeta; specialize (Hm meta Hmeta); lia|auto].
Qed.

Lemma keeps_meta l d : receipt_inv d -> keeps d (write_meta l d).
Proof.
  intros (Ht & Hm & Hr). assert (Hs : forall r, sound r d -> sound r (write_meta l d)).
  { intros r (H1 & H2 & _). split_and!; cbn; [lia|lia|]. intros tar meta _ [= <-] _ E. cbn in E. lia. }
  split; [|done]. split_and!; cbn; [intros tar Htar; specialize (Ht tar Htar); lia|intros meta [= <-]; cbn; lia|auto].
Qed.

Lemma keeps_clock d d' : d_tar d' = d_tar d -> d_meta d' = d_meta d -> d_receipt d' = d_receipt d \/ d_receipt d' = None ->
  d_clock d <= d_clock d' -> receipt_inv d -> keeps d d'.
Proof.
  intros Et Em Er Hc (Ht & Hm & Hr). assert (Hs : forall r, sound r d -> sound r d').
  { intros r (H1 & H2 & H3). unfold sound. rewrite Et, Em. split_and!; [lia|lia|done]. }
  split; [|done]. unfold receipt_inv. rewrite Et, Em.
  split_and!; [intros t E; specialize (Ht t E); lia|intros t E; specialize (Hm t E); lia|].
  intros r E. destruct Er as [Er|Er]; rewrite Er in E; [auto|done].
Qed.

Lemma keeps_receipt r d : receipt_inv d -> sound r d -> keeps d (write_receipt r d).
Proof.
  intros (Ht & Hm & Hr) Hnew. assert (Hs : forall r', sound r' d -> sound r' (write_receipt r d)).
  { intros r' (H1 & H2 & H3). split_and!; cbn; [lia|lia|done]. }
  split; [|done]. split_and!; cbn; [intros t E; specialize (Ht t E); lia|intros t E; specialize (Hm t E); lia|].
  intros r' [= <-]. by apply Hs.
Qed.

Lemma publish_keeps segments d0 : triple (keeps d0) (publish segments) (fun _ d => keeps d0 d) (keeps d0).
Proof.
  assert (Hstep : forall d d', keeps d0 d -> (receipt_inv d -> keeps d d') -> keeps d0 d').
  { intros d d' Hk Hs. eapply keeps_trans; [exact Hk|]. apply Hs. by destruct Hk. }
  unfold publish_hour_archive.
  apply (crash_bind _ _ _ (fun _ => keeps d0)); [intros d n Hk; by split; [|intros a [= <-]]|]. intros d.
  apply (crash_bind _ _ _ (fun _ => keeps d0)); [intros d1 n Hk; by split; [|intros a ?]|]. intros all.
  apply (crash_bind _ _ _ (fun _ => keeps d0)).
  { apply triple_effect. intros d1 Hk. split; [done|]. enough (keeps d0 (write_pending (Some all) d1)) by done.
    apply (Hstep d1); [done|]. apply keeps_clock; cbn; auto || lia. }
  intros _. apply (crash_bind _ _ _ (fun _ => keeps d0)); [intros d1 n Hk; by split; [|intros a [= <-]]|]. intros d1.
  apply (crash_bind _ _ _ (fun st d => keeps d0 d /\ certified st.2 st.1)).
  { intros d2 n Hk. split; [done|]. intros [es ms] E. cbn in E. split; [done|].
    unfold stage in E. apply bind_Ok in E as (kept & _ & E). apply bind_Ok in E as (es' & _ & E).
    apply bind_Ok in E as ([] & Ev & [= -> <-]). by apply verified_certified. }
  intros [es ms]. cbn [fst snd].
  apply (crash_bind _ _ _ (fun _ d => (keeps d0 d /\ tar_of d = Some es) /\ certified ms es)).
  { apply triple_effect. intros d2 [Hk Hv]. split; [done|].
    enough (keeps d0 (write_tar es d2)) by done. apply (Hstep d2); [done|]. apply keeps_tar. }
  intros _. apply (crash_bind _ _ _ (fun _ d => ((keeps d0 d /\ tar_of d = Some es) /\ meta_of d = Some ms) /\ certified ms es)).
  { apply triple_effect. intros d2 [[Hk Ht] Hv]. split; [done|].
    enough (keeps d0 (write_meta ms d2)) by done. apply (Hstep d2); [done|]. apply keeps_meta. }
  intros _. apply (crash_bind _ _ _ (fun _ => keeps d0)).
  { intros d2 n [[[Hk Ht] Hm] Hv]. unfold persist_verified, view, lift, st_bind. cbn [fst snd].
    unfold tar_of, meta_of in *. destruct (signatures d2 ms []) as [ix|e]; [|by split].
    destruct (d_tar d2) as [tar|] eqn:Et, (d_meta d2) as [meta|] eqn:Em; try done. cbn in Ht, Hm.
    injection Ht as Ht. injection Hm as Hm.
    destruct n as [|n]; cbn; [by split|]. enough (Hk' : keeps d0 (write_receipt (Receipt (stamp tar) (stamp meta) ix) d2)) by done.
    apply (Hstep d2); [done|]. intros Hinv. apply keeps_receipt; [done|]. destruct Hinv as (H1 & H2 & _).
    split_and!; cbn; [by apply H1|by apply H2|]. rewrite Et, Em. intros t m [= <-] [= <-] _ _. by rewrite Ht, Hm. }
  intros _. apply (crash_bind _ _ _ (fun _ => keeps d0)).
  { induction all as [|s all IH]; cbn; [by apply crash_ret|]. apply (crash_bind _ _ _ (fun _ => keeps d0)); [|by intros _].
    apply triple_effect. intros d2 Hk. split; [done|]. enough (keeps d0 (unlink_raw (sg_log s) d2)) by done.
    apply (Hstep d2); [done|]. apply keeps_clock; cbn; auto || lia. }
  intros _. apply triple_effect. intros d2 Hk. split; [done|]. enough (keeps d0 (write_pending None d2)) by done.
  apply (Hstep d2); [done|]. apply keeps_clock; cbn; auto || lia.
Qed.

Lemma evolves_keeps d d' : evolves d d' -> receipt_inv d -> keeps d d'.
Proof.
  assert (Hrefl : forall d, receipt_inv d -> keeps d d) by (intros ?; by split).
  induction 1 as [d|d1 d2 d3 _ IH1 _ IH2|segments d n|l d|l d|name data d|d|version env d n _ IH]; intros Hinv.
  - auto.
  - destruct (IH1 Hinv) as [Hi2 ?]. eapply keeps_trans; [by split|auto].
  - apply (publish_keeps segments d d n). auto.
  - by apply keeps_tar.
  - by apply keeps_meta.
  - apply keeps_clock; cbn; auto || lia.
  - split; [|intros r (H1 & H2 & _); by split_and!]. destruct Hinv as (_ & _ & Hr).
    split_and!; [done|done|]. intros r E. destruct (Hr r E) as (H1 & H2 & _). by split_and!.
  - unfold acknowledge, view, st_bind. cbn [fst snd]. destruct (d_receipt d) as [claimed|] eqn:Er; [|by apply Hrefl].
    destruct n as [|n]; cbn [effect]; [by apply Hrefl|].
    assert (Htake : keeps d (take_receipt d)) by (apply keeps_clock; cbn; auto || lia).
    assert (Henv : keeps d (env (take_receipt d))) by (eapply keeps_trans; [exact Htake|]; apply IH; by destruct Htake).
    destruct (stamp claimed =? version); [exact Henv|]. destruct n as [|n]; cbn [effect snd fst]; [exact Henv|].
    assert (Hcl : sound (contents claimed) d) by (destruct Hinv as (_ & _ & Hr); by apply Hr).
    destruct Henv as [(Ht & Hm & Hr) Hs]. split; [|exact Hs]. split_and!; [exact Ht|exact Hm|].
    cbn. intros r E. destruct (d_receipt (env (take_receipt d))) eqn:E2; injection E as <-; [by apply Hr|exact (Hs _ Hcl)].
Qed.

(** A receipt is never trusted wrongly.  In a directory that started without
    a receipt, after any sequence of publications stopped anywhere, of files
    replaced or deleted by others and of acknowledgements interleaved with them,
    [load_verified] returns the members in place, and the archive in place is
    exactly what they describe: every entry is a regular log file with the
    recorded digest and size, names are unique on both sides and no member is
    missing. *)
Theorem receipt_trusted d0 d members :
  d_receipt d0 = None -> (forall tar, d_tar d0 = Some tar -> stamp tar < d_clock d0) ->
  (forall meta, d_meta d0 = Some meta -> stamp meta < d_clock d0) -> evolves d0 d -> load_verified d = Some members ->
  meta_of d = Some members /\ exists entries, tar_of d = Some entries /\ certified members entries.
Proof.
  intros Hr Ht Hm He Hl. destruct (evolves_keeps d0 d He) as [(_ & _ & Hs) _].
  { split_and!; [done|done|]. intros r E. congruence. }
  unfold load_verified, meta_of, tar_of in *. destruct (d_receipt d) as [r|]; [|done].
  destruct (d_tar d) as [tar|] eqn:Et; [|done]. destruct (d_meta d) as [meta|] eqn:Em'; [|done].
  destruct (Hs r eq_refl) as (_ & _ & Hc). cbn.
  destruct (rc_tar (contents r) =? stamp tar) eqn:E1; cbn [andb negb] in Hl; [|done]. apply Z.eqb_eq in E1.
  destruct (rc_meta (contents r) =? stamp meta) eqn:E2; cbn [negb] in Hl; [|done]. apply Z.eqb_eq in E2.
  specialize (Hc tar meta Et Em' E1 E2).
  destruct (contents meta) as [|m ms] eqn:Em; [done|]. destruct (forallb _ _); [|done]. injection Hl as <-.
  split; [done|]. by exists (contents tar).
Qed.
End properties.

(** ** Witnesses *)

(** A digest that tells the bodies used here apart. *)
Definition plain_digest (b : bytes) : string := String.string_of_list_byte b.

Definition sample_part (name body_ : string) : segment :=
  Segment ("/h/" +:+ name) (Member name body_ (Z.of_nat (String.length body_)) "a.index.jsonl" "ix" 2 []).

Definition sample_dir : dir :=
  Dir {["/h/a.log" := ascii_bytes "A"; "/h/b.log" := ascii_bytes "BB"]} {["a.index.jsonl" := Stamped (ascii_bytes "ix") 0]}
    None None None ∅ None 1.

Definition sample_parts : list segment := [sample_part "a.log" "A"; sample_part "b.log" "BB"].

Lemma sample_names : names_agree sample_parts sample_dir.
Proof. intros all s m _ _ Hm. by apply elem_of_nil in Hm. Qed.

(** The publication is stopped after the metadata, then run again. *)
Lemma publish_resumes_witness :
  let stopped := (publish_hour_archive plain_digest sample_parts (sample_dir, 4%nat)).2.1 in
  meta_of stopped <> None /\ d_pending stopped <> None
  /\ exists k d2, (forall n, publish_hour_archive plain_digest sample_parts (stopped, (k + n)%nat) = (Ok tt, (d2, n)))
       /\ d_raw d2 = ∅ /\ d_pending d2 = None.
Proof.
  cbv zeta. set (stopped := (publish_hour_archive _ _ _).2.1). split; [by vm_compute|]. split; [by vm_compute|].
  destruct (publish_hour_archive plain_digest sample_parts (sample_dir, 9%nat)) as [r [d1 k0]] eqn:E.
  assert (Hr : r = (publish_hour_archive plain_digest sample_parts (sample_dir, 9%nat)).1) by by rewrite E.
  vm_compute in Hr. subst r.
  assert (Hd1 : d1 = (publish_hour_archive plain_digest sample_parts (sample_dir, 9%nat)).2.1) by by rewrite E.
  destruct (publish_hour_archive plain_digest sample_parts (sample_dir, 4%nat)) as [r2 [d4 k4]] eqn:E4.
  destruct (publish_resumes plain_digest sample_parts sample_dir 9 d1 k0 sample_names E d4) as (k & d2 & Hrun & Hsame).
  { eapply Again; [apply Start|exact E4]. }
  exists k, d2. split; [unfold stopped; exact Hrun|]. destruct Hsame as (_ & _ & _ & Hraw & Hp).
  rewrite <- Hraw, <- Hp, Hd1. split; by vm_compute.
Defined.

Lemma publish_never_loses_witness :
  nothing_lost plain_digest sample_dir (publish_hour_archive plain_digest sample_parts (sample_dir, 5%nat)).2.1
  /\ d_raw (publish_hour_archive plain_digest sample_parts (sample_dir, 5%nat)).2.1 !! "/h/b.log" = Some (ascii_bytes "BB").
Proof.
  split; [apply (publish_never_loses plain_digest sample_parts sample_dir 5 sample_names)|]. by vm_compute.
Defined.

Lemma receipt_trusted_witness :
  let d := (publish_hour_archive plain_digest sample_parts (sample_dir, 9%nat)).2.1 in
  load_verified d = Some (map sg_member sample_parts)
  /\ exists entries, tar_of d = Some entries /\ certified plain_digest (map sg_member sample_parts) entries.
Proof.
  cbv zeta. assert (Hl : load_verified (publish_hour_archive plain_digest sample_parts (sample_dir, 9%nat)).2.1
    = Some (map sg_member sample_parts)) by by vm_compute.
  split; [exact Hl|].
  refine (proj2 (receipt_trusted plain_digest sample_dir _ (map sg_member sample_parts) _ _ _ (Publishes _ _ _ _) Hl)); done.
Defined.

(** Without [names_agree] a log can be lost: a part whose name is already in the
    metadata with another digest is compared with its own manifest only, is not
    added, and its raw file is removed. *)
Definition clash_dir : dir :=
  Dir {["/h/a.log" := ascii_bytes "B"]} {["a.index.jsonl" := Stamped (ascii_bytes "ix") 0]}
    (Some (Stamped [Entry "a.log" true (ascii_bytes "A")] 0)) (Some (Stamped [sg_member (sample_part "a.log" "A")] 0))
    None ∅ None 1.

Example publish_name_clash :
  let '(r, (d, _)) := publish_hour_archive plain_digest [sample_part "a.log" "B"] (clash_dir, 9%nat) in
  r = Ok tt /\ d_raw d = ∅ /\ tar_of d = Some [Entry "a.log" true (ascii_bytes "A")].
Proof. by vm_compute. Qed.
