(* ===== verification/FullTextRound.v ===== *)
(** * A round of the index process ([indexing/runner.py], [indexing/archive.py],
    [indexing/retention.py], [indexing/api.py])

    The process walks the catalog rows of its node by pages, reads each hour
    archive once for all of its members and single files one by one, removes the
    copies of deleted files, and the interface reports how far a task is covered.
    A round offers every eligible row exactly where it can be read; what is removed
    has no living row; what is reported as covered is covered. *)

From stdpp Require Import sets.
From S2P Require Import Prelude PyTime PyValue Ordering LossyText FileOrder StreamSearch SearchPlan Archive FullText.
Open Scope Z_scope.

(** A catalog row with its place: the path, and the member of an archive. *)
Record row := Row { rw_part : part; rw_path : string; rw_member : option string }.

Abbreviation rid r := (pt_id (rw_part r)).

(** [pathlib]: [resolve] is [source_path], [None] its `ValueError`; [tar_gz] tells
    whether the last two suffixes are `.tar.gz`. *)
Class Paths := { resolve : string -> option string; tar_gz : string -> bool }.

Definition ARCHIVE_MEMBER_LIMIT : nat := Z.to_nat 4096.
Definition PAGE : nat := 64.

(** [within_hot_window]. *)
Definition within_hot_window (f : part) (cutoff : Z) : bool := cutoff <=? pt_hour f.

Definition has_digest (f : part) : bool := negb (bool_decide (default "" (pt_sha256 f) = "")).

Definition eligible (cutoff : Z) (r : row) : bool := within_hot_window (rw_part r) cutoff && has_digest (rw_part r).

Section round.
Context `{Paths}.

(** [archive_key]: [None] for a file that is read on its own. *)
Definition archive_key (r : row) : option string :=
  match resolve (rw_path r) with
  | Some p => if tar_gz p && negb (bool_decide (default "" (rw_member r) = "")) then Some p else None
  | None => None
  end.

(** ** The calls of a round *)

Inductive call : Type :=
  | CallArchive (key : string) (group : list row)
  | CallSingle (r : row).

(** `find({nodeId, status: READY, id > cursor}).sort('id', 1).limit(64)`: [rows] are
    the node's ready rows by identifier. *)
Definition next_page (rows : list row) (cursor : option string) : list row :=
  take PAGE (match cursor with
             | None => rows
             | Some c => filter (fun r => str_leb (rid r) c = false) rows
             end).

(** [full_archive_group]: [None] is the `ValueError` of an archive with too many
    members. *)
Definition full_archive_group (rows : list row) (first : row) : option (list row) :=
  let files := filter (fun r => rw_path r = rw_path first) rows in
  if (ARCHIVE_MEMBER_LIMIT <? length files)%nat then None else Some files.

(** `grouped.setdefault(key, file)`, in order, and `singles`. *)
Definition group_step (s : list (string * row) * list row) (r : row) : list (string * row) * list row :=
  match archive_key r with
  | None => (s.1, s.2 ++ [r])
  | Some k => (if bool_decide (k ∈ s.1.*1) then s.1 else s.1 ++ [(k, r)], s.2)
  end.

Definition grouped_page (files : list row) : list (string * row) * list row := foldl group_step ([], []) files.

(** The archives of a page that this round has not seen. *)
Fixpoint archive_calls (cutoff : Z) (rows : list row) (groups : list (string * row)) (seen : gset string)
    : list call * gset string :=
  match groups with
  | [] => ([], seen)
  | (k, first) :: groups =>
      if bool_decide (k ∈ seen) then archive_calls cutoff rows groups seen
      else
        let '(calls, seen) := archive_calls cutoff rows groups ({[k]} ∪ seen) in
        (match full_archive_group rows first with
         | None => []
         | Some files => match filter (fun r => eligible cutoff r = true) files with
                         | [] => []
                         | group => [CallArchive k group]
                         end
         end ++ calls, seen)
  end.

Definition page_calls (cutoff : Z) (rows files : list row) (seen : gset string) : list call * gset string :=
  let '(groups, singles) := grouped_page (filter (fun r => eligible cutoff r = true) files) in
  let '(calls, seen) := archive_calls cutoff rows groups seen in
  (calls ++ map CallSingle singles, seen).

(** The pages of a round: every page moves the cursor past at least one row. *)
Fixpoint round_calls (fuel : nat) (cutoff : Z) (rows : list row) (cursor : option string) (seen : gset string)
    : list call :=
  match fuel with
  | O => []
  | S fuel =>
      let files := next_page rows cursor in
      match last files with
      | None => []
      | Some r => let '(calls, seen) := page_calls cutoff rows files seen in
                  calls ++ round_calls fuel cutoff rows (Some (rid r)) seen
      end
  end.

(** The calls of [run] for one round. *)
Definition round (cutoff : Z) (rows : list row) : list call := round_calls (S (length rows)) cutoff rows None ∅.

(** ** Every eligible row is offered *)

Definition offered (calls : list call) (r : row) : Prop :=
  CallSingle r ∈ calls \/ exists k group, CallArchive k group ∈ calls /\ r ∈ group.

(** The rows that a round cannot offer: their archive has too many members. *)
Definition crowded (rows : list row) (r : row) : Prop :=
  (ARCHIVE_MEMBER_LIMIT < length (filter (fun r' => rw_path r' = rw_path r) rows))%nat.

Definition by_id (rows : list row) : Prop :=
  StronglySorted (fun a b => str_leb (rid b) (rid a) = false) rows.

Lemma grouped_step_facts l g s r : (g, s) = foldl group_step ([], []) l -> r ∈ l ->
  match archive_key r with None => r ∈ s | Some k => k ∈ g.*1 end.
Proof.
  revert g s. induction l as [|x l IH] using rev_ind; intros g s; [by intros _ ?%elem_of_nil|].
  rewrite foldl_app. cbn [foldl]. destruct (foldl group_step ([], []) l) as [g0 s0] eqn:E. intros Hgs.
  unfold group_step in Hgs. cbn [fst snd] in Hgs. rewrite elem_of_app, list_elem_of_singleton. intros [Hr| ->].
  - specialize (IH g0 s0 eq_refl Hr). destruct (archive_key r) as [k|], (archive_key x) as [kx|]; injection Hgs as -> ->.
    + case_bool_decide; [done|]. rewrite fmap_app. by apply elem_of_app; left.
    + done.
    + done.
    + by apply elem_of_app; left.
  - destruct (archive_key x) as [kx|]; injection Hgs as -> ->.
    + case_bool_decide; [done|]. rewrite fmap_app. apply elem_of_app. right. by apply list_elem_of_singleton.
    + apply elem_of_app. right. by apply list_elem_of_singleton.
Qed.

Lemma grouped_step_keys l g s k r : (g, s) = foldl group_step ([], []) l -> (k, r) ∈ g -> archive_key r = Some k /\ r ∈ l.
Proof.
  revert g s. induction l as [|x l IH] using rev_ind; intros g s; [by intros [= -> ->] ?%elem_of_nil|].
  rewrite foldl_app. cbn [foldl]. destruct (foldl group_step ([], []) l) as [g0 s0] eqn:E. intros Hgs Hin.
  unfold group_step in Hgs. cbn [fst snd] in Hgs. rewrite elem_of_app.
  destruct (archive_key x) as [kx|] eqn:Ek; injection Hgs as -> ->.
  - case_bool_decide; [destruct (IH _ _ eq_refl Hin); auto|].
    apply elem_of_app in Hin as [Hin|Hin]; [destruct (IH _ _ eq_refl Hin); auto|].
    apply list_elem_of_singleton in Hin. injection Hin as -> ->. split; [done|right; by apply list_elem_of_singleton].
  - destruct (IH _ _ eq_refl Hin); auto.
Qed.

Section cover.
Variables (cutoff : Z) (rows : list row).

(** Two rows of one archive are written with the same path. *)
Definition one_path : Prop := forall r r' k, r ∈ rows -> r' ∈ rows ->
  archive_key r = Some k -> archive_key r' = Some k -> rw_path r = rw_path r'.

Definition settled (calls : list call) (r : row) : Prop := offered calls r \/ crowded rows r.

(** Every eligible row of the archives in [seen] is settled. *)
Definition seen_settled (calls : list call) (seen : gset string) : Prop :=
  forall k r, k ∈ seen -> r ∈ rows -> eligible cutoff r = true -> archive_key r = Some k -> settled calls r.

Lemma offered_mono calls calls' r : calls ⊆ calls' -> offered calls r -> offered calls' r.
Proof.
  intros Hs [Hr|(k & g & Hr & Hg)]; [left; by apply Hs|right]. exists k, g. split; [by apply Hs|done].
Qed.

Lemma settled_mono calls calls' r : calls ⊆ calls' -> settled calls r -> settled calls' r.
Proof. intros Hs [Hr|Hr]; [left; by eapply offered_mono|by right]. Qed.

Lemma archive_calls_settled groups seen prev calls seen' : one_path ->
  archive_calls cutoff rows groups seen = (calls, seen') -> seen_settled prev seen ->
  (forall k first, (k, first) ∈ groups -> archive_key first = Some k /\ first ∈ rows) ->
  seen_settled (prev ++ calls) seen' /\ seen ⊆ seen' /\ forall k, k ∈ groups.*1 -> k ∈ seen'.
Proof.
  intros Hpath. revert seen prev calls seen'. induction groups as [|[k first] groups IH]; intros seen prev calls seen'; cbn [archive_calls].
  - intros [= <- <-] Hs _. rewrite app_nil_r. split_and!; [done|done|]. intros k Hk. by apply elem_of_nil in Hk.
  - intros Hcalls Hs Hg. assert (Hg' : forall k first, (k, first) ∈ groups -> archive_key first = Some k /\ first ∈ rows)
      by (intros; apply Hg; by right).
    destruct (bool_decide (k ∈ seen)) eqn:Ek.
    + apply bool_decide_eq_true in Ek. destruct (IH _ _ _ _ Hcalls Hs Hg') as (H1 & H2 & H3). split_and!; [done|done|].
      intros k' [->|Hk']%elem_of_cons; [by apply H2|by apply H3].
    + destruct (archive_calls cutoff rows groups ({[k]} ∪ seen)) as [cs sn] eqn:Ec. injection Hcalls as <- <-.
      set (mine := match full_archive_group rows first with None => [] | Some _ => _ end).
      destruct (Hg k first) as [Hkf Hfr]; [by left|].
      destruct (IH _ (prev ++ mine) _ _ Ec) as (H1 & H2 & H3); [|done|].
      * intros k' r Hk' Hr He Hkr. apply elem_of_union in Hk' as [->%elem_of_singleton|Hk'].
        -- destruct (full_archive_group rows first) as [files|] eqn:Ef; unfold full_archive_group in Ef.
           ++ destruct (_ <? _)%nat; [done|]. injection Ef as <-.
              assert (Hin : r ∈ filter (fun r0 => eligible cutoff r0 = true) (filter (fun r0 => rw_path r0 = rw_path first) rows)).
              { apply list_elem_of_filter. split; [done|]. apply list_elem_of_filter. split; [by apply (Hpath r first k)|done]. }
              left. right. subst mine.
              destruct (filter (fun r0 => eligible cutoff r0 = true) _) as [|g0 gs] eqn:Eg; [by apply elem_of_nil in Hin|].
              exists k, (g0 :: gs). split; [|done]. apply elem_of_app. right. by apply list_elem_of_singleton.
           ++ destruct (_ <? _)%nat eqn:El; [|done]. apply Nat.ltb_lt in El. right. unfold crowded.
              by rewrite (Hpath r first k Hr Hfr Hkr Hkf).
        -- eapply settled_mono; [|by apply (Hs k' r)]. intros c Hc. apply elem_of_app. by left.
      * rewrite <- app_assoc in H1. split_and!; [done|set_solver|]. intros k' [->|Hk']%elem_of_cons; [set_solver|by apply H3].
Qed.

Lemma page_calls_settled files seen prev calls seen' : one_path -> files ⊆ rows ->
  page_calls cutoff rows files seen = (calls, seen') -> seen_settled prev seen ->
  seen_settled (prev ++ calls) seen' /\ forall r, r ∈ files -> eligible cutoff r = true -> settled (prev ++ calls) r.
Proof.
  intros Hpath Hfiles Hcalls Hs. unfold page_calls, grouped_page in Hcalls.
  set (el := filter _ files) in Hcalls. destruct (foldl group_step ([], []) el) as [groups singles] eqn:Eg.
  destruct (archive_calls cutoff rows groups seen) as [cs sn] eqn:Ec. injection Hcalls as <- <-.
  assert (Hel : forall r, r ∈ el -> r ∈ rows) by (intros r Hr; apply list_elem_of_filter in Hr as [_ Hr]; by apply Hfiles).
  destruct (archive_calls_settled groups seen prev cs sn Hpath Ec Hs) as (H1 & H2 & H3).
  { intros k first Hin. destruct (grouped_step_keys el groups singles k first (eq_sym Eg) Hin) as [Hk Hf]. auto. }
  assert (Hsub : prev ++ cs ⊆ prev ++ cs ++ map CallSingle singles) by set_solver.
  split.
  - intros k r Hk Hr He Hkr. eapply settled_mono; [exact Hsub|]. by apply (H1 k r).
  - intros r Hr He. assert (Hre : r ∈ el) by (apply list_elem_of_filter; auto).
    pose proof (grouped_step_facts el groups singles r (eq_sym Eg) Hre) as Hf. destruct (archive_key r) as [k|] eqn:Ek.
    + eapply settled_mono; [exact Hsub|]. apply (H1 k r); auto.
    + left. left. rewrite !elem_of_app. do 2 right. apply list_elem_of_fmap. by exists r.
Qed.

(** The rows a cursor has not passed. *)
Definition after (cursor : option string) : list row :=
  match cursor with None => rows | Some c => filter (fun r => str_leb (rid r) c = false) rows end.

Lemma sorted_page (l : list row) r : by_id l -> last (take PAGE l) = Some r ->
  forall x, x ∈ l -> x ∈ take PAGE l \/ str_leb (rid x) (rid r) = false.
Proof.
  intros Hl Hr x Hx. rewrite <- (take_drop PAGE l) in Hx, Hl. apply elem_of_app in Hx as [Hx|Hx]; [by left|right].
  apply last_Some in Hr as [l' Hr]. rewrite Hr, <- app_assoc in Hl. apply StronglySorted_app_1_r in Hl.
  cbn in Hl. apply StronglySorted_inv in Hl as [_ Hl]. by apply (proj1 (Forall_forall _ _) Hl).
Qed.

Lemma after_shrinks cursor r : r ∈ after cursor -> (length (after (Some (rid r))) < length (after cursor))%nat.
Proof.
  intros Hr. assert (Ha : after (Some (rid r)) = filter (fun x => str_leb (rid x) (rid r) = false) (after cursor)).
  { destruct cursor as [c|]; [|done]. cbn [after] in *. apply list_elem_of_filter in Hr as [Hrc _].
    rewrite (list_filter_filter_l _ _ rows); [done|]. intros x Hx. destruct (str_leb (rid x) c) eqn:E; [|done].
    rewrite <- Hx. symmetry. apply (bo_trans (rid x) c); [done|]. destruct (bo_total c (rid r)); [done|congruence]. }
  rewrite Ha. eapply length_filter_lt; [exact Hr|]. intros Hf. pose proof (bo_refl str_leb (rid r)). congruence.
Qed.

Lemma by_id_after cursor : by_id rows -> by_id (after cursor).
Proof.
  intros Hb. destruct cursor as [c|]; [|done]. unfold by_id in *. cbn [after].
  induction Hb as [|x l Hl IH Hx]; [constructor|]. rewrite filter_cons. case_decide; [|done]. constructor; [done|].
  apply Forall_forall. intros y Hy. apply list_elem_of_filter in Hy as [_ Hy]. by apply (proj1 (Forall_forall _ _) Hx).
Qed.

Lemma round_calls_settled fuel cursor seen prev : one_path -> by_id rows -> (length (after cursor) < fuel)%nat ->
  seen_settled prev seen ->
  forall r, r ∈ after cursor -> eligible cutoff r = true -> settled (prev ++ round_calls fuel cutoff rows cursor seen) r.
Proof.
  intros Hpath Hb. revert cursor seen prev. induction fuel as [|fuel IH]; intros cursor seen prev Hf Hs r Hr He; [lia|].
  cbn [round_calls]. change (next_page rows cursor) with (take PAGE (after cursor)).
  assert (Hsub : after cursor ⊆ rows) by (destruct cursor; [intros x Hx; by apply list_elem_of_filter in Hx as [_ ?]|done]).
  destruct (last (take PAGE (after cursor))) as [z|] eqn:El.
  - assert (Hz : z ∈ after cursor).
    { apply last_Some in El as [l' El]. eapply subseteq_take. rewrite El. apply elem_of_app. right. by apply list_elem_of_singleton. }
    destruct (page_calls cutoff rows (take PAGE (after cursor)) seen) as [calls seen'] eqn:Ep.
    destruct (page_calls_settled _ _ prev _ _ Hpath ltac:(etrans; [apply subseteq_take|exact Hsub]) Ep Hs) as [H1 H2].
    rewrite app_assoc. destruct (sorted_page _ _ (by_id_after cursor Hb) El r Hr) as [Hpage|Hlater].
    + eapply settled_mono; [|by apply H2]. intros c Hc. apply elem_of_app. by left.
    + apply (IH (Some (rid z)) seen' (prev ++ calls)); [|done| |done].
      * pose proof (after_shrinks cursor z Hz). lia.
      * apply list_elem_of_filter. split; [done|by apply Hsub].
  - exfalso. apply last_None in El. destruct (after cursor) as [|x l]; [by apply elem_of_nil in Hr|done].
Qed.
End cover.

(** A round offers every eligible row of the node once it is catalogued: alone, or
    within the one reading of its archive, unless the archive has more than 4096
    members. *)
Theorem round_offers_every_row (cutoff : Z) (rows : list row) (r : row)
    (Hsorted : by_id rows) (Hpath : one_path rows) (Hr : r ∈ rows) (He : eligible cutoff r = true) :
  offered (round cutoff rows) r \/ crowded rows r.
Proof.
  change (settled rows ([] ++ round cutoff rows) r). unfold round.
  apply (round_calls_settled cutoff rows _ None ∅ []); [done|done|cbn; lia| |done|done].
  intros k x Hk. by apply elem_of_empty in Hk.
Qed.
End round.

(** ** Reading an archive once ([visit_archive_members]) *)

(** A member of an archive as the stream delivers it; [None] when it has no
    content stream. *)
Record member := Member { mb_path : string; mb_isfile : bool; mb_size : Z; mb_stream : option bytes }.

Section visit.
Context `{Hashing, Elastic, Paths}.
Open Scope camera_scope.

Abbreviation run := (stm world ix_exn).
Abbreviation results := (gmap string (result ix_exn bool)).

(** The `except Exception` of the loop: an error of a member is its result, an
    unreachable index ends the visit. *)
Definition member_result (m : run bool) : run (result ix_exn bool) := fun w =>
  match m w with
  | (Ok b, w) => (Ok (Ok b), w)
  | (Raise HttpxError, w) => (Raise HttpxError, w)
  | (Raise e, w) => (Ok (Raise e), w)
  end.

Fixpoint visit_members (visitor : row -> bytes -> Z -> run bool) (members : list member)
    (pending : gmap string row) (found : results) : run (gmap string row * results) :=
  match members with
  | [] => st_ret (pending, found)
  | mb :: members =>
      let! _ := local_io in
      match pending !! mb_path mb with
      | None => visit_members visitor members pending found
      | Some r =>
          let pending := delete (mb_path mb) pending in
          let missing := Raise (MissingMember (mb_path mb)) in
          if negb (mb_isfile mb) || negb (ends_with ".log" (mb_path mb)) || negb (mb_size mb =? pt_bytes (rw_part r))
          then visit_members visitor members pending (<[rid r := missing]> found)
          else match mb_stream mb with
               | None => visit_members visitor members pending (<[rid r := missing]> found)
               | Some stream =>
                   let! x := member_result (visitor r stream (mb_size mb)) in
                   visit_members visitor members pending (<[rid r := x]> found)
               end
      end
  end.

Definition member_name (r : row) : string := default "" (rw_member r).

Definition visit_archive_members (visitor : row -> bytes -> Z -> run bool) (members : list member) (files : list row)
    : run results :=
  match files with
  | [] => st_ret ∅
  | first :: _ =>
      match archive_key first with
      | None => st_raise (IxValueError "归档来源无效")
      | Some _ =>
          let pending : gmap string row := list_to_map (rev (map (fun r => (member_name r, r)) files)) in
          if negb (size pending =? length files)%nat then st_raise (IxValueError "同一归档存在重复成员目录")
          else
            let! _ := local_io in
            let! rest := visit_members visitor members pending ∅ in
            st_ret (map_fold (fun name r (m : results) => <[rid r := Raise (MissingMember name)]> m) rest.2 rest.1)
      end
  end.

(** [index_archive_files]: covered members are not read again. *)
Definition index_archive_files (index : list index_entry) (batch_chunks : nat) (now : Z) (members : list member)
    (files : list row) : run results :=
  let! covered := file_evidence (map rw_part files) None in
  let pending := filter (fun r => covered !! rid r = None) files in
  match pending with
  | [] => st_ret (list_to_map (map (fun r => (rid r, Ok false)) files))
  | _ =>
      let! visited := visit_archive_members (fun r stream size => index_stream (rw_part r) index batch_chunks stream size now)
                        members pending in
      st_ret (list_to_map (map (fun r => (rid r, Ok false)) (filter (fun r => is_Some (covered !! rid r)) files)) ∪ visited)
  end.

(** Every pending member has one result when the visit ends. *)
Lemma visit_members_dom visitor members pending found w rest w' :
  visit_members visitor members pending found w = (Ok rest, w') ->
  forall name r, pending !! name = Some r -> rest.1 !! name = Some r \/ is_Some (rest.2 !! rid r).
Proof.
  assert (Hkeep : forall members pending found w rest w', visit_members visitor members pending found w = (Ok rest, w') ->
    forall i, is_Some (found !! i) -> is_Some (rest.2 !! i)).
  { clear. induction members as [|mb members IH]; intros pending found w rest w'; cbn [visit_members].
    - by intros [= <- <-] i Hi.
    - unfold st_bind. destruct (local_io w) as [[[]|e] w0]; [|done]. intros Hv i Hi.
      assert (Hins : forall j x, is_Some ((<[j := x]> found : results) !! i)).
      { intros j x. destruct (decide (i = j)) as [->|Hn]; [by rewrite lookup_insert_eq|by rewrite lookup_insert_ne]. }
      destruct (pending !! mb_path mb) as [r|]; [|by eapply IH]. cbn zeta in Hv.
      destruct (_ || _); [by eapply IH|]. destruct (mb_stream mb); [|by eapply IH].
      unfold st_bind in Hv. destruct (member_result _ _) as [[x|e] w1]; [|done]. by eapply IH. }
  revert pending found w. induction members as [|mb members IH]; intros pending found w; cbn [visit_members].
  - intros [= <- <-] name r Hr. by left.
  - unfold st_bind. destruct (local_io w) as [[[]|e] w0]; [|done]. intros Hv name r Hr.
    destruct (pending !! mb_path mb) as [r0|] eqn:Ep; [|by eapply IH]. cbn zeta in Hv.
    assert (Hrest : forall x w1, visit_members visitor members (delete (mb_path mb) pending) (<[rid r0 := x]> found) w1 = (Ok rest, w') ->
      rest.1 !! name = Some r \/ is_Some (rest.2 !! rid r)).
    { intros x w1 Hv1. destruct (decide (name = mb_path mb)) as [->|Hn].
      - right. rewrite Ep in Hr. injection Hr as ->. eapply Hkeep; [exact Hv1|]. by rewrite lookup_insert_eq.
      - eapply IH; [exact Hv1|]. by rewrite lookup_delete_ne. }
    destruct (_ || _); [by eapply Hrest|]. destruct (mb_stream mb); [|by eapply Hrest].
    unfold st_bind in Hv. destruct (member_result _ _) as [[x|e] w1]; [|done]. by eapply Hrest.
Qed.

Lemma missing_dom (m : gmap string row) (found : results) i :
  is_Some (found !! i) \/ (exists name r, m !! name = Some r /\ rid r = i) ->
  is_Some (map_fold (fun name r (m : results) => <[rid r := Raise (MissingMember name)]> m) found m !! i).
Proof.
  revert found. induction m as [|name r m Hn Hfold IH] using map_first_key_ind; intros found Hi.
  - rewrite map_fold_empty. destruct Hi as [?|(? & ? & E & _)]; [done|by apply lookup_empty_Some in E].
  - rewrite map_fold_insert_first_key by done.
    destruct (decide (rid r = i)) as [<-|Hne]; [by rewrite lookup_insert_eq|]. rewrite lookup_insert_ne by done.
    apply IH. destruct Hi as [?|(n' & r' & E & <-)]; [by left|]. apply lookup_insert_Some in E as [[_ ->]|[_ E]]; [done|].
    right. by exists n', r'.
Qed.

(** Every file asked for has a result: the visitor's, or that its member is missing. *)
Lemma visit_answers_all visitor members files w m w' : NoDup (map member_name files) ->
  visit_archive_members visitor members files w = (Ok m, w') -> forall r, r ∈ files -> is_Some (m !! rid r).
Proof.
  intros Hnd. unfold visit_archive_members. destruct files as [|first files]; [by intros _ r ?%elem_of_nil|].
  set (all := first :: files) in *. destruct (archive_key first); [|done]. cbn zeta.
  set (pending := list_to_map _). destruct (negb _); [done|]. unfold st_bind.
  destruct (local_io w) as [[[]|e] w0]; [|done].
  destruct (visit_members visitor members pending ∅ w0) as [[rest|e] w1] eqn:Ev; [|done]. intros [= <- <-] r Hr.
  assert (Hp : pending !! member_name r = Some r).
  { apply elem_of_list_to_map.
    - rewrite <- Permutation_rev, <- list_fmap_compose. exact Hnd.
    - apply list_elem_of_In, in_rev. rewrite rev_involutive. apply list_elem_of_In, list_elem_of_fmap. by exists r. }
  apply missing_dom. destruct (visit_members_dom _ _ _ _ _ _ _ Ev _ _ Hp) as [?|?]; [right|by left].
  by exists (member_name r), r.
Qed.

(** ** Running a round *)

(** What the disk holds for a call: the members of an archive, the content of a
    single file, and its byte index. *)
Class Disk := { disk_members : string -> list member; disk_stream : row -> option bytes;
                disk_index : row -> list index_entry }.

Context `{Disk}.

(** A call of the round and its outcome: [true] goes on, [false] ends the round. *)
Definition run_call (batch_chunks : nat) (now : Z) (c : call) : stm world ix_exn bool := fun w =>
  let '(r, w) := match c with
                 | CallArchive k group =>
                     let '(r, w) := index_archive_files [] batch_chunks now (disk_members k) group w in
                     (match r with Ok _ => None | Raise e => Some e end, w)
                 | CallSingle x =>
                     let '(r, w) := (match disk_stream x with
                                     | None => st_raise IxOSError
                                     | Some s => index_stream (rw_part x) (disk_index x) batch_chunks s (zlen s) now
                                     end) w in
                     (match r with Ok _ => None | Raise e => Some e end, w)
                 end in
  (Ok match r with Some HttpxError => false | _ => true end, w).

Fixpoint run_calls (batch_chunks : nat) (now : Z) (calls : list call) : stm world ix_exn unit :=
  match calls with
  | [] => st_ret tt
  | c :: calls => let! go := run_call batch_chunks now c in
                  if go : bool then run_calls batch_chunks now calls else st_ret tt
  end.
End visit.

(** ** Removing the copies of deleted files ([prune_deleted]) *)

(** The identifiers of a page without a living row, each once, sorted. *)
Definition removed (existing : string -> bool) (identifiers : list string) : list string :=
  sort_by (fun s => s) str_leb (remove_dups (filter (fun i => existing i = false) identifiers)).

(** [prune_deleted] on the pages the aggregation delivers: what is deleted, page by
    page.  A page without identifiers, without a next key or with the same one ends
    the loop. *)
Fixpoint prune_pages (existing : string -> bool) (pages : list (list string * option string)) (after_ : option string)
    : list (list string) :=
  match pages with
  | [] => []
  | (identifiers, next) :: pages =>
      match identifiers with
      | [] => []
      | _ =>
          (match removed existing identifiers with [] => [] | l => [l] end)
          ++ (match next with
              | None => []
              | Some n => if bool_decide (next = after_) || bool_decide (n = "") then [] else prune_pages existing pages next
              end)
      end
  end.

(** Only files without a living row lose their copies. *)
Lemma prune_spares_living existing pages after_ l i :
  l ∈ prune_pages existing pages after_ -> i ∈ l -> existing i = false.
Proof.
  revert after_. induction pages as [|[ids next] pages IH]; intros after_; cbn [prune_pages]; [by intros ?%elem_of_nil|].
  destruct ids as [|i0 ids]; [by intros ?%elem_of_nil|]. rewrite elem_of_app. intros [Hl|Hl] Hi.
  - destruct (removed existing (i0 :: ids)) as [|x xs] eqn:Er; [by apply elem_of_nil in Hl|].
    apply list_elem_of_singleton in Hl. subst l. rewrite <- Er in Hi. unfold removed in Hi.
    rewrite (sort_by_perm (fun s => s) str_leb) in Hi. apply elem_of_remove_dups, list_elem_of_filter in Hi. by destruct Hi.
  - destruct next as [n|]; [|by apply elem_of_nil in Hl]. destruct (_ || _); [by apply elem_of_nil in Hl|]. by eapply IH.
Qed.

(** ** Reported coverage ([coverage] of [api.py]) *)

Definition COVERAGE_LIMIT : nat := Z.to_nat 10000.

(** The rows of the query that overlap the range, at most 10000, and whether there
    were more. *)
Definition coverage_files (start end_ : Z) (found : list part) : list part * bool :=
  let inside := filter (fun f => pt_hour f < end_ /\ start < pt_hour f + US_PER_HOUR) found in
  (take COVERAGE_LIMIT inside, (COVERAGE_LIMIT <? length inside)%nat).

Definition is_covered (proof : gmap string answer) (f : part) : bool :=
  match proof !! pt_id f with Some _ => true | None => false end.

(** `hours`: the files of each hour, the hours in the order of first sight. *)
Definition hour_groups (files : list part) : list (Z * list part) := group_by pt_hour files.

Definition hour_covered (proof : gmap string answer) (g : Z * list part) : bool := forallb (is_covered proof) g.2.

(** The loop over the sorted hours. *)
Fixpoint through_loop (proof : gmap string answer) (end_ : Z) (hours : list (Z * list part)) (through : option Z) : option Z :=
  match hours with
  | [] => through
  | g :: hours => if hour_covered proof g then through_loop proof end_ hours (Some (Z.min end_ (g.1 + US_PER_HOUR)))
                  else through
  end.

Record coverage_report := CoverageReport {
  cv_total : Z; cv_covered : Z; cv_complete : bool; cv_latest : option Z; cv_through : option Z; cv_truncated : bool }.

Definition option_max (a : option Z) (b : Z) : option Z := Some (match a with None => b | Some a => Z.max a b end).

(** [coverage], from the rows the query found and the evidence on them. *)
Definition coverage (start end_ : Z) (found : list part) (proof : gmap string answer) (status_ : index_status)
    : coverage_report :=
  let '(files, truncated) := coverage_files start end_ found in
  let hours := hour_groups files in
  let latest := foldl (fun m g => option_max m g.1) None (filter (fun g => hour_covered proof g = true) hours) in
  let through := if truncated then None
                 else through_loop proof end_ (sort_by fst Z.leb hours) None in
  CoverageReport (zlen files) (Z.of_nat (size proof))
    (match status_ with Available => true | _ => false end && negb truncated && (length files =? size proof)%nat)
    latest through truncated.

Definition spaced (hours : list (Z * list part)) : Prop := StronglySorted (fun a b => a.1 + US_PER_HOUR <= b.1) hours.

Lemma through_loop_covered proof end_ hours through t : spaced hours ->
  (forall t0, through = Some t0 -> Forall (fun g => t0 <= g.1) hours) ->
  through_loop proof end_ hours through = Some t ->
  forall g, g ∈ hours -> g.1 < t -> hour_covered proof g = true.
Proof.
  intros Hs. revert through. induction Hs as [|g0 hours Hs IH Hg]; intros through Ht Hr g Hin Hlt; [by apply elem_of_nil in Hin|].
  cbn [through_loop] in Hr. destruct (hour_covered proof g0) eqn:E0.
  - apply elem_of_cons in Hin as [->|Hin]; [done|]. refine (IH _ _ Hr g Hin Hlt). intros t0 [= <-].
    eapply Forall_impl; [exact Hg|]. cbn. intros x Hx. lia.
  - subst through. pose proof (Ht _ eq_refl) as Hf. pose proof (proj1 (Forall_forall _ _) Hf g Hin) as Hx. cbn beta in Hx. lia.
Qed.

(** The hours of a catalog are whole hours. *)
Definition whole_hour (f : part) : Prop := pt_hour f mod US_PER_HOUR = 0.

Lemma sorted_groups_spaced (files : list part) : Forall whole_hour files ->
  spaced (sort_by fst Z.leb (hour_groups files)).
Proof.
  intros Hw. destruct (group_by_grouped pt_hour files) as (Hnd & Hg & _). fold (hour_groups files) in *.
  assert (Halign : Forall (fun g => g.1 mod US_PER_HOUR = 0) (hour_groups files)).
  { eapply Forall_impl; [exact Hg|]. intros [k g] [Hne ->]. cbn.
    destruct (filter (fun x => pt_hour x = k) files) as [|x l] eqn:Ef; [done|].
    assert (Hx : x ∈ filter (fun x => pt_hour x = k) files) by (rewrite Ef; by left).
    apply list_elem_of_filter in Hx as [<- Hx]. by apply (proj1 (Forall_forall _ _) Hw). }
  set (l := hour_groups files) in *. pose proof (sort_by_sorted fst Z.leb l) as Hs.
  rewrite <- (sort_by_perm fst Z.leb l) in Hnd, Halign. revert Hnd Halign.
  induction Hs as [|g r Hs IH Hle]; intros Hnd Halign; [constructor|].
  inversion_clear Hnd as [|? ? Hni Hnd']. inversion_clear Halign as [|? ? Ha Halign']. constructor; [by apply IH|].
  apply Forall_forall. intros g' Hg'. pose proof (proj1 (Forall_forall _ _) Hle g' Hg') as H1.
  pose proof (proj1 (Forall_forall _ _) Halign' g' Hg') as H2. unfold key_le in H1. apply Z.leb_le in H1.
  assert (Hne : g.1 <> g'.1) by (intros E; apply Hni; rewrite E; by apply list_elem_of_fmap_2).
  apply Z.mod_divide in Ha as [q Hq], H2 as [q' Hq']; [|done|done]. rewrite Hq, Hq' in *.
  unfold US_PER_HOUR, US_PER_SECOND in *. lia.
Qed.

(** What the interface reports is so: when the coverage is complete every file that
    overlaps the range has a proof, and before the reported instant none lacks it. *)
Theorem coverage_honest (start end_ : Z) (found : list part) (proof : gmap string answer) (status_ : index_status)
    (Hids : NoDup (map pt_id found)) (Hhours : Forall whole_hour found)
    (Hproof : forall i, is_Some (proof !! i) -> i ∈ map pt_id (coverage_files start end_ found).1)
    (f : part) (Hf : f ∈ found) (Hinside : pt_hour f < end_ /\ start < pt_hour f + US_PER_HOUR) :
  let report := coverage start end_ found proof status_ in
  (cv_complete report = true -> is_covered proof f = true)
  /\ (forall t, cv_through report = Some t -> pt_hour f < t -> is_covered proof f = true).
Proof.
  cbn zeta. unfold coverage. destruct (coverage_files start end_ found) as [files truncated] eqn:Ec.
  unfold coverage_files in Ec. set (inside := filter _ found) in Ec. injection Ec as <- <-.
  assert (Hin : f ∈ inside) by (apply list_elem_of_filter; auto).
  assert (Hw : Forall whole_hour inside).
  { apply Forall_forall. intros x Hx. apply list_elem_of_filter in Hx as [_ Hx]. by apply (proj1 (Forall_forall _ _) Hhours). }
  assert (Hnd : NoDup (map pt_id inside)) by (eapply sublist_NoDup; [exact Hids|apply fmap_sublist, sublist_filter]).
  cbn [cv_complete cv_through fst] in *. split.
  - intros [[_ Htr]%andb_prop Hsize]%andb_prop. apply negb_true_iff, Nat.ltb_ge in Htr. apply Nat.eqb_eq in Hsize.
    rewrite take_ge in Hsize, Hproof by lia.
    assert (Hdom : dom proof ≡ (list_to_set (map pt_id inside) : gset string)).
    { apply set_subseteq_size_equiv.
      - intros i Hi. apply elem_of_list_to_set, Hproof. by apply elem_of_dom.
      - rewrite size_list_to_set by done. rewrite length_map, Hsize, <- size_dom. done. }
    unfold is_covered. assert (Hd : pt_id f ∈ dom proof) by (rewrite Hdom; by apply elem_of_list_to_set, list_elem_of_fmap_2).
    apply elem_of_dom in Hd as [a ->]. done.
  - intros t Ht Hlt. destruct (COVERAGE_LIMIT <? length inside)%nat eqn:Htr; [done|]. apply Nat.ltb_ge in Htr.
    rewrite take_ge in Ht by lia.
    destruct (group_by_grouped pt_hour inside) as (_ & Hg & Hperm). fold (hour_groups inside) in Hg, Hperm.
    assert (Hfc : f ∈ concat (hour_groups inside).*2) by (by rewrite Hperm).
    apply list_elem_of_In, in_concat in Hfc as (g & Hgs & Hfg). apply list_elem_of_In in Hgs, Hfg.
    apply list_elem_of_fmap in Hgs as ([k g'] & -> & Hkg).
    destruct (proj1 (Forall_forall _ _) Hg _ Hkg) as [_ Hgk]. cbn in Hfg. rewrite Hgk in Hfg.
    apply list_elem_of_filter in Hfg as [Hk _].
    assert (Hcov : hour_covered proof (k, g') = true).
    { eapply (through_loop_covered proof end_ _ None t); [apply sorted_groups_spaced, Hw|done|exact Ht| |cbn; lia].
      by rewrite (sort_by_perm fst Z.leb). }
    unfold hour_covered in Hcov. rewrite forallb_forall in Hcov. apply Hcov, list_elem_of_In. cbn. rewrite Hgk.
    by apply list_elem_of_filter.
Qed.

(** ** Witnesses *)

Definition sample_paths : Paths := {| resolve p := Some p; tar_gz p := ends_with ".tar.gz" p |}.

Definition sample_row (i path : string) (mb : option string) : row :=
  Row (Part i None None None None None (Some "READY") 1 (Some "digest") 0 None) path mb.

Definition sample_rows : list row :=
  [sample_row "a" "h.tar.gz" (Some "a.log"); sample_row "b" "b.log" None; sample_row "c" "h.tar.gz" (Some "c.log")].

Example sample_round : @round sample_paths 0 sample_rows
  = [CallArchive "h.tar.gz" [sample_row "a" "h.tar.gz" (Some "a.log"); sample_row "c" "h.tar.gz" (Some "c.log")];
     CallSingle (sample_row "b" "b.log" None)].
Proof. vm_compute. reflexivity. Qed.
