(* ===== verification/Idempotency.v ===== *)
(** * Idempotent creation ([common/audited_mutations.py])

    [audited_create] creates an object, its idempotency record and its audit
    record in one transaction.  A caller that did not learn the outcome repeats
    the request with the same key and gets the object of the first one.  The
    digest of the request is an argument; the preparation and the hook inside the
    transaction are arguments as well. *)

From S2P Require Import Prelude PyTime PyValue Mongo Ownership.
Open Scope camera_scope.

Definition SUCCEEDED := PStr "SUCCEEDED".

Section idempotency.
Context `{Mongo}.

Definition keyed_by (actor : pyval) (key : string) (d : pydict) : bool := fld d "actor" actor && fld d "key" (PStr key).

(** [_confirmed_existing]. *)
Definition _confirmed_existing (digest : string) (c : cname) (existing : option pydict) : dbm (option pydict) :=
  match existing with
  | None => st_ret None
  | Some existing =>
      let! _ := raise_if (negb (fld existing "digest" (PStr digest))) (Http 409 "幂等键已用于不同请求") in
      let! _ := raise_if (negb (fld existing "state" SUCCEEDED)) (Http 409 "原请求尚未完成或结果未知，未重复执行") in
      let! result := find_one c (fun d => fld d "id" existing.["resourceId"]) in
      match result with
      | Some d => if fld d "deletedAt" PNone then st_ret (Some d) else st_raise (Http 410 "原请求创建的对象已删除")
      | None => st_raise (Http 410 "原请求创建的对象已删除")
      end
  end.

(** [_read_confirmed]: the record of the key, then the object. *)
Definition _read_confirmed (actor : pyval) (key digest : string) (c : cname) : dbm (option pydict) :=
  let! existing := find_one Idempotency (keyed_by actor key) in
  _confirmed_existing digest c existing.

(** [_recover_confirmed]; [readable] is whether the confirming read works. *)
Definition _recover_confirmed (readable : bool) (actor : pyval) (key digest : string) (c : cname) : dbm (option pydict) :=
  if readable then _read_confirmed actor key digest c else st_ret None.

Definition idempotency_row (actor : pyval) (key digest identifier : string) (now : Z) : pydict :=
  [("actor", actor); ("key", PStr key); ("digest", PStr digest); ("resourceId", PStr identifier); ("state", SUCCEEDED);
   ("updatedAt", PTime (Aware now)); ("expiresAt", PTime (Aware (now + 7 * 86400 * US_PER_SECOND)))].

(** The callback of [audited_create]. *)
Definition create_commit (actor : pyval) (key digest action identifier : string) (c : cname) (document context : pydict)
    (before_insert : pydict -> dbm unit) (now : Z) : dbm pydict :=
  let! result := _read_confirmed actor key digest c in
  match result with
  | Some d => st_ret d
  | None =>
      let! _ := before_insert document in
      let! _ := insert_one Idempotency (idempotency_row actor key digest identifier now) in
      let! _ := insert_one c document in
      let! _ := audit context now actor action (PStr identifier) in
      st_ret document
  end.

(** [audited_create]; [identifier] is the fresh identifier, [f] the outcome of
    the commit. *)
Definition audited_create (actor : pyval) (key digest action identifier : string) (c : cname) (context : pydict)
    (prepare : string -> dbm pydict) (before_insert : pydict -> dbm unit) (now : Z) (f : fate) (readable : bool)
  : dbm pydict :=
  let! _ := raise_if (String.eqb key "" || (128 <? Z.of_nat (String.length key))) (Http 422 "Idempotency-Key") in
  let! cached := _read_confirmed actor key digest c in
  match cached with
  | Some d => st_ret d
  | None =>
      let! document := prepare identifier in
      let! _ := raise_if (negb (fld document "id" (PStr identifier))) (ValueError "prepare 必须返回带固定 id 的数据库文档") in
      let recover e : dbm pydict :=
        let! confirmed := _recover_confirmed readable actor key digest c in
        match confirmed with Some d => st_ret d | None => st_raise e end in
      st_catch (transaction f (create_commit actor key digest action identifier c document context before_insert now))
        (fun e => match e with
                  | DuplicateKeyError => Some (recover (Http 409 "创建对象已存在或幂等键冲突"))
                  | PyMongoError => Some (recover (Http 503 "创建提交结果未知，请使用相同幂等键重试"))
                  | _ => None
                  end)
  end.

(** [audited_mutation] and [_commit]. *)
Definition audited_mutation {A} (actor : pyval) (action : string) (target : pyval) (context : pydict) (callback : dbm A)
    (now : Z) (f : fate) : dbm A :=
  st_catch
    (transaction f (let! result := callback in let! _ := audit context now actor action target in st_ret result))
    (fun e => match e with
              | PyMongoError => Some (st_raise (Http 503 "事务提交结果未知，请查询最新状态后再操作"))
              | _ => None
              end).

(** ** Properties *)

Context `{!MongoLaws}.

(** Keys name one record each, identifiers one object each. *)
Record unique_rows (c : cname) (db : database) : Prop := UniqueRows {
  one_record : NoDup (map (fun d => (d.["actor"], d.["key"])) (content db Idempotency));
  one_object : NoDup (map (fun d => d.["id"]) (content db c)) }.

(** The record of the key and the object it names. *)
Definition recorded_as (actor : pyval) (key digest : string) (c : cname) (d : pydict) (db : database) : Prop :=
  (exists row, row ∈ content db Idempotency /\ keyed_by actor key row = true /\ row.["digest"] = PStr digest
     /\ row.["state"] = SUCCEEDED /\ row.["resourceId"] = d.["id"])
  /\ d ∈ content db c /\ d.["deletedAt"] = PNone.

(** The collections of the creation are untouched. *)
Definition uncreated (c : cname) (db db' : database) : Prop :=
  forall c', c' ∈ [Idempotency; c; Audit] -> content db' c' = content db c'.

(** One record, one object and one audit record are added. *)
Definition created (actor : pyval) (key digest action identifier : string) (c : cname) (d : pydict) (db db' : database) : Prop :=
  (exists row, content db' Idempotency = content db Idempotency ++ [row] /\ keyed_by actor key row = true
     /\ row.["digest"] = PStr digest /\ row.["state"] = SUCCEEDED /\ row.["resourceId"] = PStr identifier)
  /\ content db' c = content db c ++ [d] /\ d.["id"] = PStr identifier
  /\ (exists a, content db' Audit = content db Audit ++ [a] /\ a.["action"] = PStr action)
  /\ no_match (keyed_by actor key) (content db Idempotency) /\ no_match (fun x => fld x "id" (PStr identifier)) (content db c).

(** A step that leaves the collections of the creation alone. *)
Definition elsewhere (c : cname) {A} (m : dbm A) : Prop := forall db, wp m (fun _ db' => uncreated c db db') db.

Lemma keyed_by_spec actor key d : keyed_by actor key d = true <-> d.["actor"] = actor /\ d.["key"] = PStr key.
Proof. unfold keyed_by. by rewrite andb_true_iff, !fld_true. Qed.

Lemma uncreated_refl c db : uncreated c db db.
Proof. done. Qed.

Lemma uncreated_trans c db1 db2 db3 : uncreated c db1 db2 -> uncreated c db2 db3 -> uncreated c db1 db3.
Proof. intros H1' H2' c' Hc. by rewrite H2', H1'. Qed.

(** Reading the record of a key changes nothing and finds the object. *)
Lemma read_confirmed_wp actor key digest c db :
  wp (_read_confirmed actor key digest c) (fun r db' => db' = db /\ match r with
    | Ok (Some d) => recorded_as actor key digest c d db
    | Ok None => no_match (keyed_by actor key) (content db Idempotency)
    | Raise e => exists s t, e = Http s t
    end) db.
Proof.
  unfold _read_confirmed. apply wp_bind, wp_find_one; cbn [on_ok]; [|intros Hno; by apply wp_ret].
  intros row Hrow Hk. unfold _confirmed_existing.
  apply wp_bind, wp_raise_if; cbn [on_ok]; [intros _; split; eauto|]. intros Hd. freflect.
  apply wp_bind, wp_raise_if; cbn [on_ok]; [intros _; split; eauto|]. intros Hs. freflect.
  apply wp_bind, wp_find_one; cbn [on_ok]; [|intros _; apply wp_raise; split; eauto].
  intros d Hin Hid. apply fld_true in Hid. destruct (fld d "deletedAt" PNone) eqn:Hdel; [|apply wp_raise; split; eauto].
  apply fld_true in Hdel. apply wp_ret. split; [done|]. split; [|done]. exists row. by split_and!.
Qed.

Lemma create_commit_wp actor key digest action identifier c document context before_insert now db :
  unique_keys c = ["id"] -> document.["id"] = PStr identifier -> (forall d, elsewhere c (before_insert d)) ->
  wp (create_commit actor key digest action identifier c document context before_insert now) (fun r db' => match r with
    | Ok d => (db' = db /\ recorded_as actor key digest c d db) \/ (d = document /\ created actor key digest action identifier c document db db')
    | Raise e => True
    end) db.
Proof.
  intros Hc Hid Hbefore. assert (Hc1 : c <> Idempotency) by by intros ->. assert (Hc2 : c <> Audit) by by intros ->.
  unfold create_commit. apply wp_bind. eapply wp_mono; [apply read_confirmed_wp|].
  intros [[d|]|e] db1 [-> Hr]; cbn [on_ok]; [apply wp_ret; by left| |done].
  apply wp_bind. eapply wp_mono; [apply Hbefore|]. intros [[]|e] db1 Hu1; cbn [on_ok]; [|done].
  apply wp_bind, wp_insert; cbn [on_ok]; [|done]. intros db2 _ E2 O2.
  apply wp_bind, wp_insert; cbn [on_ok]; [|done]. intros db3 Hfresh E3 O3.
  apply wp_bind, wp_audit. intros a db4 E4 Ha O4. cbn [on_ok]. apply wp_ret. right. split; [done|].
  assert (Hi : content db1 Idempotency = content db Idempotency) by (apply Hu1; set_solver).
  assert (Hcc : content db1 c = content db c) by (apply Hu1; set_solver).
  assert (Hau : content db1 Audit = content db Audit) by (apply Hu1; set_solver).
  split_and!; [|by rewrite O4, E3, O2, Hcc by done|done| |done|].
  - eexists. split; [rewrite O4, O3, E2, Hi by done; reflexivity|]. split_and!; try done. by apply keyed_by_spec.
  - exists a. split; [|done]. rewrite E4, O3, O2, Hau by done. done.
  - intros x Hx. rewrite <- Hcc, <- O2 in Hx by done. specialize (Hfresh x Hx). apply (clash_id _ _ _ Hc) in Hfresh.
    by rewrite Hid in Hfresh.
Qed.

(** The same request again finds the object. *)
Lemma replay_wp actor key digest action identifier c context prepare before_insert now f readable d db :
  key <> "" -> Z.of_nat (String.length key) <= 128 -> unique_rows c db -> recorded_as actor key digest c d db ->
  audited_create actor key digest action identifier c context prepare before_insert now f readable db = (Ok d, db).
Proof.
  intros Hk Hl [Hu1 Hu2] ((row & Hrow & Hkey & Hdig & Hst & Hres) & Hd & Hdel).
  assert (Hread : _read_confirmed actor key digest c db = (Ok (Some d), db)).
  { unfold _read_confirmed, find_one, st_bind. pose proof (find_one_law (keyed_by actor key) (db Idempotency)) as L.
    destruct (coll_find_one (keyed_by actor key) (db Idempotency)) as [row'|].
    - destruct L as [Hrow' Hkey']. assert (row' = row) as ->.
      { apply keyed_by_spec in Hkey as [? ?], Hkey' as [? ?].
        apply (NoDup_map_eq (fun d : pydict => (d.["actor"], d.["key"])) (content db Idempotency)); try done. congruence. }
      unfold _confirmed_existing, raise_if, st_bind. rewrite (proj2 (fld_true row "digest" (PStr digest))) by done.
      rewrite (proj2 (fld_true row "state" SUCCEEDED)) by done.
      unfold find_one. cbv beta iota zeta delta [st_ret negb]. pose proof (find_one_law (fun d => fld d "id" row.["resourceId"]) (db c)) as L2.
      destruct (coll_find_one _ (db c)) as [d'|].
      + destruct L2 as [Hd' Hid']. apply fld_true in Hid'. assert (d' = d) as ->.
        { apply (NoDup_map_eq (fun d : pydict => d.["id"]) (content db c)); try done. congruence. }
        by rewrite (proj2 (fld_true d "deletedAt" PNone)).
      + specialize (L2 d Hd). apply fld_false in L2. congruence.
    - specialize (L row Hrow). congruence. }
  unfold audited_create, raise_if. unfold st_bind at 1.
  destruct (String.eqb_spec key ""); [done|]. destruct (Z.ltb_spec 128 (Z.of_nat (String.length key))); [lia|]. cbn [orb st_ret].
  unfold st_bind at 1. by rewrite Hread.
Qed.

Lemma recorded_transfer actor key digest c d db db' :
  uncreated c db db' -> recorded_as actor key digest c d db' <-> recorded_as actor key digest c d db.
Proof. intros Hu. unfold recorded_as. rewrite !(Hu _) by set_solver. done. Qed.

Lemma unique_transfer c db db' : uncreated c db db' -> unique_rows c db -> unique_rows c db'.
Proof. intros Hu [? ?]. split; by rewrite Hu by set_solver. Qed.

Lemma created_unique actor key digest action identifier c d db db' :
  created actor key digest action identifier c d db db' -> unique_rows c db -> unique_rows c db'.
Proof.
  intros ((row & E1 & Hk & _) & E2 & Hid & _ & Hn1 & Hn2) [Hu1 Hu2]. split; rewrite ?E1, ?E2, map_app; apply NoDup_app; split_and!; try done;
    try apply NoDup_singleton; intros x (y & -> & Hy)%list_elem_of_fmap Hx%list_elem_of_singleton.
  - specialize (Hn1 y Hy). apply keyed_by_spec in Hk as [K1 K2]. injection Hx as K3 K4. apply not_true_iff_false in Hn1.
    apply Hn1, keyed_by_spec. split; congruence.
  - specialize (Hn2 y Hy). apply fld_false in Hn2. congruence.
Qed.

(** What was just created is what the key names. *)
Lemma created_recorded actor key digest action identifier c d d' db db' :
  created actor key digest action identifier c d db db' -> recorded_as actor key digest c d' db' -> d' = d.
Proof.
  intros ((row & E1 & Hk & _ & _ & Hr) & E2 & Hid & _ & Hn1 & Hn2) ((row' & Hrow' & Hk' & _ & _ & Hr') & Hd' & _).
  rewrite E1 in Hrow'. apply elem_of_app in Hrow' as [Hrow'|Hrow'%list_elem_of_singleton].
  - specialize (Hn1 row' Hrow'). congruence.
  - subst row'. rewrite E2 in Hd'. apply elem_of_app in Hd' as [Hd'|?%list_elem_of_singleton]; [|done].
    specialize (Hn2 d' Hd'). apply fld_false in Hn2. congruence.
Qed.

(** C17: creating with an idempotency key happens at most once.  A returned
    object is the one the key names: either it existed and nothing was created,
    or exactly one record, one object and one audit record were added.  An
    exception created nothing, unless the commit was uncertain and was applied,
    and then all three were added.  Whoever repeats the request with the key and
    the same digest, now and with any outcome of its commit, gets the same object
    and changes nothing. *)
Theorem audited_create_once actor key digest action identifier c context prepare before_insert now f readable db :
  unique_keys c = ["id"] -> unique_rows c db -> elsewhere c (prepare identifier) -> (forall d, elsewhere c (before_insert d)) ->
  let '(r, db') := audited_create actor key digest action identifier c context prepare before_insert now f readable db in
  unique_rows c db' /\
  match r with
  | Ok d => (uncreated c db db' /\ recorded_as actor key digest c d db \/ created actor key digest action identifier c d db db')
      /\ (d.["deletedAt"] = PNone -> forall action2 identifier2 context2 prepare2 before2 now2 f2 readable2,
           audited_create actor key digest action2 identifier2 c context2 prepare2 before2 now2 f2 readable2 db' = (Ok d, db'))
  | Raise _ => uncreated c db db' \/ (f = Uncertain true /\ exists d, created actor key digest action identifier c d db db')
  end.
Proof.
  intros Hc Hu Hprep Hbefore.
  enough (Hwp : wp (audited_create actor key digest action identifier c context prepare before_insert now f readable) (fun r db' =>
    match r with
    | Ok d => key <> "" /\ Z.of_nat (String.length key) <= 128
        /\ (uncreated c db db' /\ recorded_as actor key digest c d db \/ created actor key digest action identifier c d db db')
    | Raise _ => uncreated c db db' \/ (f = Uncertain true /\ exists d, created actor key digest action identifier c d db db')
    end) db).
  { unfold wp in Hwp. destruct (audited_create _ _ _ _ _ _ _ _ _ _ _ _ _) as [[d|e] db'].
    - destruct Hwp as (Hk & Hl & Hw). assert (Hu' : unique_rows c db').
      { destruct Hw as [[? _]|?]; [by eapply unique_transfer|by eapply created_unique]. }
      split; [done|]. split; [done|]. intros Hdel *. apply replay_wp; try done.
      destruct Hw as [[Hun Hrec]|((row & E1 & ? & ? & ? & E) & E2 & E3 & _)]; [by apply (recorded_transfer _ _ _ _ _ _ _ Hun)|].
      split; [|split; [rewrite E2; apply elem_of_middle|done]]. exists row. rewrite E1. split_and!; try done; [apply elem_of_middle|congruence].
    - split; [|done]. destruct Hwp as [?|[_ [d ?]]]; [by eapply unique_transfer|by eapply created_unique]. }
  unfold audited_create. apply wp_bind, wp_raise_if; cbn [on_ok]; [by left|]. intros Hkey.
  apply orb_false_iff in Hkey as [Hk Hl]. apply String.eqb_neq in Hk. apply Z.ltb_ge in Hl.
  apply wp_bind. eapply wp_mono; [apply read_confirmed_wp|]. intros [[d|]|e] db0 [-> Hr]; cbn [on_ok]; [|  |by left].
  { apply wp_ret. split_and!; try done. by left. }
  apply wp_bind. eapply wp_mono; [apply Hprep|]. intros [document|e] db1 Hu1; cbn [on_ok]; [|by left].
  apply wp_bind, wp_raise_if; cbn [on_ok]; [by left|]. intros Hid. apply negb_false_iff, fld_true in Hid.
  assert (Hrec : forall e db2, (uncreated c db db2 \/ (f = Uncertain true /\ created actor key digest action identifier c document db db2)) ->
    wp (let! confirmed := _recover_confirmed readable actor key digest c in
        match confirmed with Some d => st_ret d | None => st_raise e end) (fun r db' =>
      match r with
      | Ok d => key <> "" /\ Z.of_nat (String.length key) <= 128
          /\ (uncreated c db db' /\ recorded_as actor key digest c d db \/ created actor key digest action identifier c d db db')
      | Raise _ => uncreated c db db' \/ (f = Uncertain true /\ exists d, created actor key digest action identifier c d db db')
      end) db2).
  { intros e db2 Hd2. assert (Hraise : uncreated c db db2 \/ (f = Uncertain true /\ exists d, created actor key digest action identifier c d db db2))
      by (destruct Hd2 as [?|[? ?]]; [by left|right; eauto]).
    destruct readable; [|done]. apply wp_bind. eapply wp_mono; [apply read_confirmed_wp|].
    intros [[d|]|e'] db3 [-> Hd]; cbn [on_ok]; [|done|done]. split_and!; try done.
    destruct Hd2 as [Hun|[_ Hcr]]; [left; split; [done|by apply (recorded_transfer _ _ _ _ _ _ _ Hun)]|right].
    by rewrite (created_recorded _ _ _ _ _ _ _ _ _ _ Hcr Hd). }
  assert (Hshift : forall d db', created actor key digest action identifier c d db1 db' -> created actor key digest action identifier c d db db').
  { intros d db'. unfold created. rewrite !(Hu1 _) by set_solver. done. }
  apply wp_catch, wp_transaction. eapply wp_mono; [by apply create_commit_wp|]. intros [d|e] db2 Hd.
  - assert (Hok : (uncreated c db db2 /\ recorded_as actor key digest c d db) \/ created actor key digest action identifier c d db db2).
    { destruct Hd as [[-> Hd]|[-> Hd]]; [left; split; [done|by apply (recorded_transfer _ _ _ _ _ _ _ Hu1)]|right; by apply Hshift]. }
    destruct f as [|[]]; [by split_and!| |by apply Hrec; left].
    apply Hrec. destruct Hd as [[-> Hd]|[-> Hd]]; [by left|right; split; [done|by apply Hshift]].
  - destruct e; try (by left); apply Hrec; by left.
Qed.
End idempotency.

(** ** Witness: a request whose commit was applied but not confirmed *)

#[local] Existing Instance list_mongo.
#[local] Existing Instance list_mongo_laws.

Definition empty_db : database := fun _ => [].

Lemma audited_create_once_witness :
  let prepare i : dbm pydict := st_ret [("id", PStr i); ("name", PStr "x")] in
  exists d db', audited_create (PStr "u") "k" "digest" "create" "i1" Templates [] prepare (fun _ => st_ret tt) 7
                  (Uncertain true) true empty_db = (Ok d, db')
    /\ length (content db' Templates) = 1%nat
    /\ audited_create (PStr "u") "k" "digest" "create" "i2" Templates [] prepare (fun _ => st_ret tt) 9 Committed true db' = (Ok d, db').
Proof.
  cbv zeta. set (prepare := fun i : string => (st_ret [("id", PStr i); ("name", PStr "x")] : dbm pydict)).
  assert (Hu : unique_rows Templates empty_db) by (split; constructor).
  assert (He : elsewhere Templates (prepare "i1")) by (intros db; apply wp_ret, uncreated_refl).
  assert (Hb : forall d : pydict, elsewhere Templates (st_ret tt : dbm unit)) by (intros _ db; apply wp_ret, uncreated_refl).
  pose proof (audited_create_once (PStr "u") "k" "digest" "create" "i1" Templates [] prepare (fun _ => st_ret tt) 7
    (Uncertain true) true empty_db eq_refl Hu He Hb) as Hp.
  destruct (audited_create (PStr "u") "k" "digest" "create" "i1" Templates [] prepare _ 7 (Uncertain true) true empty_db)
    as [r db'] eqn:E.
  pose proof (f_equal fst E) as Hr. vm_compute in Hr. subst r.
  eexists _, db'. split; [reflexivity|]. destruct Hp as [_ [_ Hp]]. split; [|apply Hp; reflexivity].
  transitivity (length (content (audited_create (PStr "u") "k" "digest" "create" "i1" Templates [] prepare
    (fun _ => st_ret tt) 7 (Uncertain true) true empty_db).2 Templates)); [by rewrite E|vm_compute; reflexivity].
Defined.
