(* ===== verification/Access.v ===== *)
(** * Who may do what ([users/roles.py], [access_policy/policy.py],
    [users/sessions.py])

    The rights of an account follow from its role, its listed permissions and a last day
    in Shanghai; the rules for client addresses narrow them.  An identity is the dict the
    handlers pass to [authorize] of [TaskRules].  The library [ipaddress] is an argument. *)

From S2P Require Import Prelude PyTime PyValue Ordering Utf8 PyText Mongo TaskRules.
Open Scope camera_scope.

(** ** Dates *)

(** `date.isoformat()` of a day counted from 1970-01-01. *)
Definition date_iso (day : Z) : string := utc_day (day * US_PER_DAY).

Definition two (a b : byte) : Z := (bz a - 48) * 10 + (bz b - 48).

(** `date.fromisoformat` of a canonical text, the only form that [PermissionExpiry]
    accepts; [None] is its `ValueError`. *)
Definition date_from_iso (s : string) : option Z :=
  match String.list_byte_of_string s with
  | [y1; y2; y3; y4; _; m1; m2; _; d1; d2] =>
      let y := two y1 y2 * 100 + two y3 y4 in
      let day := ord_of_ymd (y, two m1 m2, two d1 d2) - 719163 in
      if (1 <=? y) && String.eqb (date_iso day) s then Some day else None
  | _ => None
  end.

(** `utc_instant(instant).astimezone(SHANGHAI).date()`: the zone has been eight hours ahead
    since 1991. *)
Definition SHANGHAI_OFFSET : Z := 8 * US_PER_HOUR.
Definition shanghai_day (now : Z) : Z := (now + SHANGHAI_OFFSET) / US_PER_DAY.

(** ** Roles *)

Definition FIXED_SCOPES : list string :=
  ["tasks:read"; "logs:read"; "logs:download"; "templates:read"; "templates:write"; "service-tokens:read"; "commands:send"].

Definition PERMISSIONS : list string :=
  ["tasks:read"; "tasks:write"; "resources:create"; "resources:write"; "tasks:create"; "tasks:control"; "logs:read"; "logs:download";
   "commands:send"; "templates:read"; "templates:write"; "service-tokens:read"].

Inductive role : Type := SUPER_ADMIN | ADMIN | USER.

#[global] Instance role_eq_dec : EqDecision role.
Proof. solve_decision. Defined.

Definition role_name (r : role) : string :=
  match r with SUPER_ADMIN => "SUPER_ADMIN" | ADMIN => "ADMIN" | USER => "USER" end.

Definition configured_role (user : pydict) : role :=
  if truthy user.["builtin"] && fld user "id" (PStr "builtin-admin") then SUPER_ADMIN
  else if fld user "role" (PStr "ADMIN") || (absent user "role" && truthy user.["isAdmin"]) then ADMIN else USER.

Definition permission_expired (user : pydict) (now : Z) : result exn bool :=
  if bool_decide (configured_role user = SUPER_ADMIN) then Ok false
  else
    match user.["permissionsExpiresOn"] with
    | PNone => Ok false
    | PStr s => match date_from_iso s with
                | Some last => Ok (last <? shanghai_day now)
                | None => Raise (ValueError "Invalid isoformat string")
                end
    | _ => Raise TypeError
    end.

Definition effective_role (user : pydict) (expired : bool) : role := if expired then USER else configured_role user.

Definition permission_state (user : pydict) (now : Z) : result exn pydict :=
  expired ← permission_expired user now;
  Ok [("role", PStr (role_name (configured_role user))); ("effectiveRole", PStr (role_name (effective_role user expired)));
      ("isAdmin", PBool (negb (bool_decide (effective_role user expired = USER))));
      ("permissionsExpiresOn", user.["permissionsExpiresOn"]); ("permissionsExpired", PBool expired)].

(** The strings of a list value. *)
Definition strings (v : pyval) : list string := match v with PList l => omap as_str l | _ => [] end.

(** `sorted(set)` of strings. *)
Definition sorted_set (l : list string) : pyval := PList (map PStr (sort_by id str_leb (remove_dups l))).

Definition effective_scopes (user : pydict) (now : Z) : result exn pyval :=
  expired ← permission_expired user now;
  Ok (if negb (bool_decide (effective_role user expired = USER)) then PList [PStr "*"]
      else sorted_set (FIXED_SCOPES ++ if expired then [] else strings user.["scopes"])).

(** [authorize_user_target]: whether it passes. *)
Definition may_manage (identity target : pydict) : bool :=
  negb (truthy target.["builtin"])
  && (fld identity "id" (PStr "bootstrap") || bool_decide (configured_role identity = SUPER_ADMIN)
      || negb (bool_decide (configured_role target = ADMIN) && negb (fld target "id" identity.["id"]))).

(** ** Identities *)

Definition PUBLIC_FIELDS : list string :=
  ["id"; "username"; "displayName"; "isAdmin"; "builtin"; "scopes"; "enabled"; "mustChangePassword"; "version"; "createdAt"; "updatedAt";
   "deletedAt"].

Definition public_user (user : pydict) (now : Z) : result exn pydict :=
  state ← permission_state user now;
  Ok (set_all state (map (fun k => (k, user.[k])) PUBLIC_FIELDS)).

(** [user_identity] without the flag for the pages. *)
Definition user_identity (user : pydict) (now : Z) : result exn pydict :=
  scopes ← effective_scopes user now;
  public ← public_user user now;
  Ok (set_all [("kind", PStr "session"); ("scopes", scopes); ("resourceIds", PNone); ("taskIds", PNone)] public).

(** ** The address policy *)

(** The library [ipaddress]: [ip_network] with `strict=False`, [ip_network_strict] without,
    [net_text] the text of a network. *)
Class IpAddress := {
  ip_addr : Type; ip_net : Type;
  ip_address : string -> option ip_addr;
  ip_network : string -> option ip_net;
  ip_network_strict : string -> option ip_net;
  net_text : ip_net -> string;
  in_net : ip_addr -> ip_net -> bool }.

Section policy.
Context `{IpAddress}.

Definition POLICY_SCOPES : list string := PERMISSIONS ++ ["admin"; "*"].

(** The number of characters of a text. *)
Definition text_length (s : string) : Z := default 0 (zlen <$> decode (String.list_byte_of_string s)).

Definition between (a n b : Z) : bool := (a <=? n) && (n <=? b).

(** `IpRule.model_validate`: the normalised network and the scopes of a valid rule. *)
Definition rule_of (item : pyval) : option (string * list string) :=
  match item with
  | PDict d =>
      match d.["label"], d.["network"], d.["scopes"] with
      | PStr label, PStr network, PList l =>
          match mapM as_str l, ip_network network with
          | Some scopes, Some net =>
              if forallb (fun kv => bool_decide (kv.1 ∈ ["label"; "network"; "scopes"])) d
                 && between 1 (text_length label) 128 && negb (String.eqb (py_strip label) "")
                 && between 1 (text_length network) 64 && between 1 (zlen l) 32
                 && forallb (fun s => bool_decide (s ∈ POLICY_SCOPES)) scopes
              then Some (net_text net, scopes) else None
          | _, _ => None
          end
      | _, _, _ => None
      end
  | _ => None
  end.

(** The scopes a rule grants to an address. *)
Definition granted (source : ip_addr) (item : pyval) : list string :=
  match rule_of item with
  | Some (network, scopes) =>
      match ip_network_strict network with Some net => if in_net source net then scopes else [] | None => [] end
  | None => []
  end.

Definition policy_rules (policy : pydict) : list pyval := match policy.["rules"] with PList l => l | _ => [] end.

Definition matching_scopes (policy : pydict) (address : option string) : list string :=
  match address with
  | None => []
  | Some a => if String.eqb a "" then []
              else match ip_address a with Some source => flat_map (granted source) (policy_rules policy) | None => [] end
  end.

(** [enforce_ip] for the policy it reads; [None] leaves the identity alone. *)
Definition enforce_ip (policy : option pydict) (address : option string) : result exn (option (list string)) :=
  match policy with
  | Some policy =>
      if truthy policy.["enabled"]
      then match matching_scopes policy address with
           | [] => Raise (Http 403 "当前客户端 IP 不在平台访问白名单内")
           | scopes => Ok (Some scopes)
           end
      else Ok None
  | None => Ok None
  end.

Definition mem (s : string) (l : list string) : bool := bool_decide (s ∈ l).

(** [restrict_identity] *)
Definition narrowed (current policy_scopes : list string) : list string :=
  if mem "*" policy_scopes then current
  else if mem "*" current then policy_scopes
  else filter (fun s => s ∈ policy_scopes) current.

Definition restrict_identity (identity : pydict) (policy_scopes : option (list string)) : pydict :=
  match policy_scopes with
  | None => identity
  | Some policy_scopes =>
      let scopes := narrowed (strings identity.["scopes"]) policy_scopes in
      set_all [("scopes", sorted_set scopes); ("isAdmin", PBool (mem "*" scopes || mem "admin" scopes));
               ("ipAllowedScopes", sorted_set policy_scopes)] identity
  end.

(** ** What an identity may do *)

Lemma sorted_set_in l (s : string) : PStr s ∈ match sorted_set l with PList l => l | _ => [] end <-> s ∈ l.
Proof.
  unfold sorted_set. rewrite list_elem_of_fmap. setoid_rewrite (sort_by_perm id str_leb).
  setoid_rewrite elem_of_remove_dups. split; [by intros (x & [= <-] & Hx)|intros Hs; by exists s].
Qed.

Lemma strings_sorted_set l s : s ∈ strings (sorted_set l) <-> s ∈ l.
Proof.
  rewrite <- (sorted_set_in l s). unfold sorted_set, strings. rewrite list_elem_of_omap. split.
  - intros (v & Hv & Hs). destruct v; try discriminate. injection Hs as ->. done.
  - intros Hs. by exists (PStr s).
Qed.

Definition allows (l : list string) (s : string) : Prop := "*" ∈ l \/ s ∈ l.

Lemma has_scope_set identity l s : identity.["scopes"] = sorted_set l -> has_scope identity s = true <-> allows l s.
Proof.
  intros E. unfold has_scope, TaskRules.scopes. rewrite E, orb_true_iff, !bool_decide_eq_true. unfold allows.
  pose proof (sorted_set_in l "*") as H1. pose proof (sorted_set_in l s) as H2. unfold sorted_set in *. tauto.
Qed.

Lemma narrowed_allows current policy_scopes s : allows (narrowed current policy_scopes) s <-> allows current s /\ allows policy_scopes s.
Proof.
  unfold narrowed, mem, allows. destruct (decide ("*" ∈ policy_scopes)) as [Hp|Hp]; [rewrite bool_decide_true by done; tauto|].
  rewrite (bool_decide_false ("*" ∈ policy_scopes)) by done.
  destruct (decide ("*" ∈ current)) as [Hc|Hc]; [rewrite bool_decide_true by done; tauto|]. rewrite bool_decide_false by done.
  rewrite !list_elem_of_filter. tauto.
Qed.

(** What the account grants at an instant. *)
Definition account_grants (user : pydict) (expired : bool) (s : string) : Prop :=
  effective_role user expired <> USER \/ s ∈ FIXED_SCOPES \/ (expired = false /\ s ∈ strings user.["scopes"]).

(** Some rule of the policy that holds the address lists the scope or all of them. *)
Definition rule_grants (policy : pydict) (address : option string) (s : string) : Prop :=
  exists source item, (address ≫= ip_address) = Some source /\ address <> Some "" /\ item ∈ policy_rules policy /\ allows (granted source item) s.

Lemma matching_allows policy address s : allows (matching_scopes policy address) s <-> rule_grants policy address s.
Proof.
  unfold rule_grants, matching_scopes, allows. destruct address as [a|]; cbn.
  2: { split; [by intros [?%elem_of_nil|?%elem_of_nil]|by intros (? & ? & ? & _)]. }
  destruct (String.eqb_spec a "") as [->|Hne].
  { split; [by intros [?%elem_of_nil|?%elem_of_nil]|intros (? & ? & _ & Hn & _); by destruct Hn]. }
  destruct (ip_address a) as [source|]; [|split; [by intros [?%elem_of_nil|?%elem_of_nil]|by intros (? & ? & ? & _)]].
  rewrite !list_elem_of_In, !in_flat_map. setoid_rewrite <- list_elem_of_In. split.
  - intros [(item & Hi & Hs)|(item & Hi & Hs)]; exists source, item; (split_and!; [done|congruence|done|]); auto.
  - intros (source' & item & [= <-] & _ & Hi & [Hs|Hs]); [left|right]; eauto.
Qed.

Lemma enforce_ip_cases policy address r :
  enforce_ip policy address = r ->
  match r with
  | Ok None => policy = None \/ exists d, policy = Some d /\ truthy d.["enabled"] = false
  | Ok (Some scopes) => exists d, policy = Some d /\ truthy d.["enabled"] = true /\ forall s, allows scopes s <-> rule_grants d address s
  | Raise e => e = Http 403 "当前客户端 IP 不在平台访问白名单内" /\ exists d, policy = Some d /\ truthy d.["enabled"] = true
      /\ forall s, ~ rule_grants d address s
  end.
Proof.
  intros <-. unfold enforce_ip. destruct policy as [d|]; [|by left]. destruct (truthy _) eqn:E; [|eauto].
  pose proof (matching_allows d address) as Hm. destruct (matching_scopes d address) as [|x l].
  - split; [done|]. exists d. split_and!; [done|done|]. intros s. rewrite <- Hm. by intros [?%elem_of_nil|?%elem_of_nil].
  - by exists d.
Qed.

Lemma set_without k0 d k v : Forall (fun kv : string * pyval => kv.1 <> k0) d -> k <> k0 -> Forall (fun kv => kv.1 <> k0) (dict_set d k v).
Proof.
  intros Hd Hk. induction Hd as [|[k' v'] d Hkv Hd IH]; [by repeat constructor|].
  unfold dict_set; fold dict_set. destruct (decide (k = k')); by constructor.
Qed.

(** The dict of an identity. *)
Lemma user_identity_fields user now i :
  user_identity user now = Ok i ->
  exists expired, permission_expired user now = Ok expired /\ i.["id"] = user.["id"]
    /\ i.["mustChangePassword"] = user.["mustChangePassword"]
    /\ i.["scopes"] = (if negb (bool_decide (effective_role user expired = USER)) then PList [PStr "*"]
                      else sorted_set (FIXED_SCOPES ++ if expired then [] else strings user.["scopes"]))
    /\ i.["isAdmin"] = PBool (negb (bool_decide (effective_role user expired = USER)))
    /\ Forall (fun kv => kv.1 <> "passwordHash") i.
Proof.
  unfold user_identity, effective_scopes, public_user, permission_state.
  destruct (permission_expired user now) as [expired|e]; cbn; [|done]. intros [= <-]. exists expired.
  split_and!; [done|by dget..|]. repeat (apply set_without; [|done]). repeat (constructor; [done|]). constructor.
Qed.

Lemma strings_star : strings (PList [PStr "*"]) = ["*"].
Proof. done. Qed.

Lemma restrict_scopes i policy_scopes l s :
  (forall s, s ∈ strings i.["scopes"] <-> s ∈ l) ->
  has_scope (restrict_identity i (Some policy_scopes)) s = true <-> allows l s /\ allows policy_scopes s.
Proof.
  intros Hl. cbn [restrict_identity]. rewrite (has_scope_set _ (narrowed (strings i.["scopes"]) policy_scopes)) by (cbn; by dget).
  rewrite narrowed_allows. unfold allows at 1. rewrite !Hl. done.
Qed.

(** The scopes of an account as a list of strings. *)
Definition account_scopes (user : pydict) (expired : bool) : list string :=
  if negb (bool_decide (effective_role user expired = USER)) then ["*"]
  else FIXED_SCOPES ++ if expired then [] else strings user.["scopes"].

Lemma user_scopes user now i expired :
  user_identity user now = Ok i -> permission_expired user now = Ok expired ->
  (forall s, s ∈ strings i.["scopes"] <-> s ∈ account_scopes user expired)
  /\ (forall s, has_scope i s = true <-> allows (account_scopes user expired) s).
Proof.
  intros Hi He. destruct (user_identity_fields _ _ _ Hi) as (e & He' & _ & _ & Hs & _). rewrite He in He'. injection He' as <-.
  unfold account_scopes. destruct (negb _).
  - split; intros s; [by rewrite Hs|]. unfold has_scope, TaskRules.scopes. rewrite Hs, orb_true_iff, !bool_decide_eq_true.
    unfold allows. rewrite !list_elem_of_singleton. intuition congruence.
  - split; intros s; [by rewrite Hs, strings_sorted_set|by apply has_scope_set].
Qed.

(** Accounts as the forms of the pages write them. *)
Definition listed (user : pydict) : Prop := forall s, s ∈ strings user.["scopes"] -> s ∈ PERMISSIONS.

Lemma account_allows user expired s :
  listed user -> allows (account_scopes user expired) s <-> account_grants user expired s.
Proof.
  intros Hl. unfold account_scopes, account_grants, allows.
  destruct (decide (effective_role user expired = USER)) as [Hu|Hu].
  - rewrite bool_decide_true by done. cbn [negb]. rewrite !elem_of_app.
    assert (H1 : "*" ∉ FIXED_SCOPES) by by apply (bool_decide_unpack _).
    assert (H2 : "*" ∉ PERMISSIONS) by by apply (bool_decide_unpack _).
    destruct expired.
    + rewrite !elem_of_nil. split; [intros [[?|[]]|[?|[]]]; [done|auto]|intros [?|[?|[? _]]]; [done|auto|done]].
    + split; [intros [[Hx|Hx%Hl]|[Hx|Hx]]; [done|done|auto|auto]|intros [?|[?|[_ ?]]]; [done|auto|auto]].
  - rewrite bool_decide_false by done. cbn [negb]. rewrite !list_elem_of_singleton. tauto.
Qed.

Lemma permission_expired_spec user now expired :
  permission_expired user now = Ok expired ->
  expired = true <-> configured_role user <> SUPER_ADMIN
    /\ exists s last, user.["permissionsExpiresOn"] = PStr s /\ date_from_iso s = Some last
         /\ (last + 1) * US_PER_DAY <= now + SHANGHAI_OFFSET.
Proof.
  unfold permission_expired. case_bool_decide as Hs; [intros [= <-]; split; [done|tauto]|].
  destruct (user.["permissionsExpiresOn"]) as [| | | |s| | |]; try done.
  - intros [= <-]. split; [done|]. by intros (_ & ? & ? & ? & _).
  - destruct (date_from_iso s) as [last|] eqn:E; [|done]. intros [= <-]. unfold shanghai_day. rewrite Z.ltb_lt.
    assert (Hd : last < (now + SHANGHAI_OFFSET) / US_PER_DAY <-> (last + 1) * US_PER_DAY <= now + SHANGHAI_OFFSET).
    { unfold US_PER_DAY, US_PER_SECOND. Z.to_euclidean_division_equations. lia. }
    rewrite Hd. split; [by eauto 10|]. intros (_ & s' & last' & [= <-] & Hs' & H'). congruence.
Qed.

(** C13: What a request may do.  For an account as the forms write it, at every instant and
    for every address policy: a request passes [authorize] for a scope exactly when the
    account grants it (an administrator whose rights have not expired, a fixed scope, or a
    listed one that has not expired) and, where the policy is enabled, some rule that holds
    the client's address grants it; the rights expire exactly at the end of the last day in
    Shanghai, never for the built-in account; a rule never makes an administrator; a request
    is refused by its address exactly when the enabled policy grants that address nothing;
    and the dict never holds the hash of the password. *)
Theorem access_exact user now i policy address r :
  listed user -> user_identity user now = Ok i -> enforce_ip policy address = r ->
  exists expired, permission_expired user now = Ok expired
    /\ (expired = true <-> configured_role user <> SUPER_ADMIN
          /\ exists s last, user.["permissionsExpiresOn"] = PStr s /\ date_from_iso s = Some last
               /\ (last + 1) * US_PER_DAY <= now + SHANGHAI_OFFSET)
    /\ match r with
       | Ok p => forall s, has_scope (restrict_identity i p) s = true <->
                   account_grants user expired s
                   /\ forall d, policy = Some d -> truthy d.["enabled"] = true -> rule_grants d address s
       | Raise _ => exists d, policy = Some d /\ truthy d.["enabled"] = true /\ forall s, ~ rule_grants d address s
       end
    /\ (forall p, r = Ok p -> truthy (restrict_identity i p).["isAdmin"] = true -> effective_role user expired <> USER)
    /\ (forall p, r = Ok p -> Forall (fun kv => kv.1 <> "passwordHash") (restrict_identity i p)).
Proof.
  intros Hl Hi Hr. destruct (user_identity_fields _ _ _ Hi) as (expired & He & _ & _ & Hs & Ha & Hk).
  destruct (user_scopes _ _ _ _ Hi He) as [Hin Hscope]. pose proof (enforce_ip_cases _ _ _ Hr) as Hc.
  exists expired. split_and!; [done|by apply permission_expired_spec| | |].
  - destruct r as [[scopes|]|e].
    + destruct Hc as (d & -> & Hen & Hg). intros s. rewrite (restrict_scopes _ _ _ _ Hin), Hg, account_allows by done.
      split; [intros [H1 H2]; split; [done|by intros ? [= <-] _]|intros [H1 H2]; split; [done|by apply H2]].
    + intros s. cbn [restrict_identity]. rewrite Hscope, account_allows by done. split; [|tauto]. intros Hgr. split; [done|].
      intros d -> Hen. destruct Hc as [|(d' & [= <-] & ?)]; congruence.
    + destruct Hc as (_ & d & ? & ? & ?). eauto.
  - intros [scopes|] _ Ht; cbn [restrict_identity] in Ht.
    + cbn [set_all foldl fst snd] in Ht. dget_in Ht. cbn [truthy] in Ht. unfold mem in Ht.
      assert (Hadmin : allows (strings i.["scopes"]) "admin").
      { apply (narrowed_allows _ scopes). unfold allows. apply orb_prop in Ht as [Ht|Ht]; apply bool_decide_eq_true in Ht; auto. }
      unfold allows in Hadmin. rewrite !Hin in Hadmin. apply account_allows in Hadmin; [|done].
      destruct Hadmin as [|[Hx|[_ Hx%Hl]]]; [done| |]; exfalso; revert Hx; by apply (bool_decide_unpack _).
    + rewrite Ha in Ht. cbn in Ht. apply negb_true_iff, bool_decide_eq_false in Ht. done.
  - intros [scopes|] _; cbn [restrict_identity]; [|done]. repeat (apply set_without; [|done]). done.
Qed.
End policy.

(** ** The text of a date *)

Lemma two_digits a b : 48 <= a <= 57 -> 48 <= b <= 57 -> two (byte_of_cp a) (byte_of_cp b) = (a - 48) * 10 + (b - 48).
Proof.
  assert (Hb : forall c, 48 <= c <= 57 -> bz (byte_of_cp c) = c).
  { intros c Hc. assert (Hx : c = 48 \/ c = 49 \/ c = 50 \/ c = 51 \/ c = 52 \/ c = 53 \/ c = 54 \/ c = 55 \/ c = 56 \/ c = 57) by lia.
    repeat (destruct Hx as [->|Hx]; [by vm_compute|]). subst. by vm_compute. }
  intros Ha Hb'. unfold two. by rewrite !Hb.
Qed.

(** Every day of the calendar is read back from its text. *)
Lemma date_iso_roundtrip day y m d :
  civil_of_days day = (y, m, d) -> 1 <= y <= 9999 -> date_from_iso (date_iso day) = Some day.
Proof.
  intros E Hy. assert (Hiso : date_iso day = String.string_of_list_byte (map byte_of_cp (zpad 4 y ++ [45] ++ zpad 2 m ++ [45] ++ zpad 2 d))).
  { unfold date_iso, utc_day. rewrite Z.div_mul by done. by rewrite E. }
  apply ymd_of_ord_spec in E as (Ho & Hm & Hd). unfold date_from_iso. rewrite Hiso, String.list_byte_of_string_of_list_byte. cbn [zpad app map].
  pose proof (Z.mod_pos_bound y 10). pose proof (Z.mod_pos_bound (y / 10) 10). pose proof (Z.mod_pos_bound (y / 10 / 10) 10).
  pose proof (Z.mod_pos_bound (y / 10 / 10 / 10) 10). pose proof (Z.mod_pos_bound m 10). pose proof (Z.mod_pos_bound (m / 10) 10).
  pose proof (Z.mod_pos_bound d 10). pose proof (Z.mod_pos_bound (d / 10) 10).
  rewrite !two_digits by lia.
  match goal with |- context [ord_of_ymd (?yy, ?mm, ?dd)] =>
    replace yy with y by (Z.to_euclidean_division_equations; lia);
    replace mm with m by (Z.to_euclidean_division_equations; lia);
    replace dd with d by (Z.to_euclidean_division_equations; lia) end.
  rewrite Ho, Z.add_simpl_r. rewrite (proj2 (Z.leb_le 1 y)) by lia. rewrite Hiso. cbn [zpad app map].
  by rewrite String.eqb_refl.
Qed.

(** ** Witness *)

(** Addresses and networks of single hosts, written as their text. *)
Definition host_addresses : IpAddress := {|
  ip_addr := string; ip_net := string; ip_address s := Some s; ip_network s := Some s; ip_network_strict s := Some s;
  net_text s := s; in_net := String.eqb |}.

Definition sample_admin : pydict :=
  [("id", PStr "u1"); ("role", PStr "ADMIN"); ("scopes", PList [PStr "tasks:write"]); ("permissionsExpiresOn", PStr "1970-01-02")].

Definition sample_policy : pydict :=
  [("enabled", PBool true);
   ("rules", PList [PDict [("label", PStr "office"); ("network", PStr "10.0.0.7"); ("scopes", PList [PStr "tasks:read"; PStr "tasks:write"])]])].

(** The last minute of the last day and the first instant after it. *)
Definition last_day : Z := 2 * US_PER_DAY - SHANGHAI_OFFSET - 1.

Lemma access_exact_witness :
  exists i j, user_identity sample_admin last_day = Ok i /\ user_identity sample_admin (last_day + 1) = Ok j
    /\ @enforce_ip host_addresses (Some sample_policy) (Some "10.0.0.7") = Ok (Some ["tasks:read"; "tasks:write"])
    /\ has_scope (restrict_identity i (Some ["tasks:read"; "tasks:write"])) "tasks:write" = true
    /\ has_scope (restrict_identity i (Some ["tasks:read"; "tasks:write"])) "admin" = false
    /\ has_scope (restrict_identity j (Some ["tasks:read"; "tasks:write"])) "tasks:write" = false
    /\ exists expired, permission_expired sample_admin (last_day + 1) = Ok expired.
Proof.
  eexists _, _. split; [by vm_compute|]. split; [by vm_compute|]. split; [by vm_compute|]. split; [by vm_compute|].
  split; [by vm_compute|]. split; [by vm_compute|].
  assert (Hl : listed sample_admin) by (intros s; vm_compute strings; intros ->%list_elem_of_singleton; by apply (bool_decide_unpack _)).
  destruct (@access_exact host_addresses sample_admin (last_day + 1) _ (Some sample_policy) (Some "10.0.0.7") _ Hl eq_refl eq_refl)
    as (expired & He & _). by exists expired.
Defined.
