(* ===== verification/Sessions.v ===== *)
(** * Accounts, login sessions and service tokens ([users/sessions.py],
    [users/session_mutations.py], [users/service_tokens.py], [users/api.py],
    [common/security.py])

    Every request reads its identity from the database: a cookie names a session whose
    `authVersion` must be the one of the account, a bearer token a row that is neither
    revoked nor expired.  Whatever ends a login changes the account or the row in a
    transaction.  The digest (SHA-256), the encryption, the random texts and the check of a
    password are arguments. *)

From S2P Require Import Prelude PyTime PyValue Ordering PyText Mongo Ownership Idempotency TaskRules Lifecycle Access.
Open Scope camera_scope.

Section sessions.
Context `{Mongo}.

(** `hashlib.sha256(token.encode()).hexdigest()` *)
Variable token_digest : string -> string.

(** A computation without effects on the database. *)
Definition pure {A} (r : result exn A) : dbm A := match r with Ok a => st_ret a | Raise e => st_raise e end.

Definition required_login : exn := Http 401 "登录会话已失效，请重新登录".

(** `{"id": i, "enabled": True, "deletedAt": None}` *)
Definition active_user (identifier : pyval) (d : pydict) : bool :=
  fld d "id" identifier && fld d "enabled" (PBool true) && fld d "deletedAt" PNone.

(** ** Reading an identity *)

(** [session_identity] *)
Definition session_of (token : string) (now : Z) (d : pydict) : bool :=
  fld d "tokenHash" (PStr (token_digest token)) && time_gt d "expiresAt" now.

Definition session_identity (token : string) (now : Z) : dbm pydict :=
  if String.eqb token "" then st_raise required_login
  else
    let! session := find_one UserSessions (session_of token now) in
    match session with
    | None => st_raise required_login
    | Some session =>
        let! user := find_one Users (fun d => active_user session.["userId"] d && fld d "authVersion" session.["authVersion"]) in
        match user with
        | None => st_raise required_login
        | Some user => pure (user_identity user now)
        end
    end.

(** `expires_at is not None and utc_instant(expires_at) <= utc_now()` *)
Definition expired_at (d : pydict) (now : Z) : bool := negb (fld d "expiresAt" PNone) && time_le d "expiresAt" now.

(** [authenticate]; [bootstrap] is the token of the settings. *)
Definition authenticate (bootstrap token : string) (now : Z) : dbm pydict :=
  if negb (String.eqb token "") && negb (String.eqb bootstrap "") && String.eqb token bootstrap
  then st_ret [("id", PStr "bootstrap"); ("scopes", PList [PStr "*"]); ("isAdmin", PBool true); ("resourceIds", PNone); ("taskIds", PNone)]
  else
    let! record := find_one Tokens (fun d => fld d "tokenHash" (PStr (token_digest token)) && fld d "revoked" (PBool false)) in
    match record with
    | None => st_raise required_login
    | Some record =>
        let! _ := raise_if (truthy record.["revoked"] || expired_at record now) required_login in
        let! user := find_one Users (active_user record.["userId"]) in
        match user with
        | None => st_raise required_login
        | Some user =>
            let! identity := pure (user_identity user now) in
            st_ret (set_all [("kind", PStr "service-token"); ("serviceTokenId", record.["id"]); ("hasActiveServiceToken", PBool true)] identity)
        end
    end.

(** ** Login sessions *)

(** The document of [prepare_session]. *)
Definition session_document (token : string) (user_id auth_version : pyval) (now seconds : Z) : pydict :=
  [("tokenHash", PStr (token_digest token)); ("userId", user_id); ("authVersion", auth_version); ("createdAt", PTime (Aware now));
   ("expiresAt", PTime (Aware (now + seconds * US_PER_SECOND)))].

(** `user["authVersion"] + 1` *)
Definition next_version (user : pydict) (changed : bool) : pyval :=
  if changed then PInt (default 0 (as_int user.["authVersion"]) + 1) else user.["authVersion"].

(** `repo.audit(..., event_id=...)` *)
Definition audit_event (context : pydict) (now : Z) (actor : pyval) (action : string) (target : pyval) (event_id : string) : dbm unit :=
  let document := [("actor", actor); ("action", PStr action); ("targetId", target);
    ("requestId", context.["requestId"]); ("clientIp", context.["clientIp"]); ("createdAt", PTime (Aware now))] in
  insert_one Audit (dict_set (if truthy context.["serviceTokenId"]
                              then dict_set document "serviceTokenId" context.["serviceTokenId"] else document) "_id" (PStr event_id)).

(** The update of the account. *)
Definition claim_session (password_hash : option string) (now : Z) (d : pydict) : pydict :=
  let d := dict_inc "sessionClaimVersion" 1 d in
  match password_hash with
  | None => d
  | Some h => set_all [("passwordHash", PStr h); ("mustChangePassword", PBool false); ("updatedAt", PTime (Aware now))]
                (dict_inc "authVersion" 1 (dict_inc "version" 1 d))
  end.

(** The session the caller came with: a change of the password requires it, a login drops
    it only if it is one of the same account. *)
Definition drop_session (auth_version user_id : pyval) (old_token : string) (password_hash : option string) (now : Z) : dbm unit :=
  match password_hash with
  | Some _ =>
      let! removed := find_one_and_delete UserSessions
        (fun d => fld d "tokenHash" (PStr (token_digest old_token)) && fld d "userId" user_id
                  && fld d "authVersion" auth_version && time_gt d "expiresAt" now) in
      match removed with None => st_raise (Http 409 "原登录会话已变化，请重新登录") | Some _ => st_ret tt end
  | None =>
      if String.eqb old_token "" then st_ret tt
      else
        let! _ := delete_one UserSessions (fun d => fld d "tokenHash" (PStr (token_digest old_token)) && fld d "userId" user_id) in
        st_ret tt
  end.

(** `rotate_session.commit` *)
Definition rotate_commit (verified : pydict) (old_token token : string) (password_hash : option string) (event_id : string)
    (context : pydict) (now seconds : Z) : dbm pydict :=
  let! current := find_one_and_update Users
    (fun d => fld d "id" verified.["id"] && fld d "authVersion" verified.["authVersion"]
              && fld d "passwordHash" verified.["passwordHash"] && fld d "enabled" (PBool true) && fld d "deletedAt" PNone)
    (claim_session password_hash now) in
  match current with
  | None => st_raise (Http 409 "账号已变化，请重新登录")
  | Some current =>
      let! _ := drop_session verified.["authVersion"] current.["id"] old_token password_hash now in
      let! _ := insert_one UserSessions
        (session_document token verified.["id"] (next_version verified (match password_hash with Some _ => true | None => false end)) now seconds) in
      let! _ := audit_event context now current.["id"] (match password_hash with Some _ => "change_password" | None => "login" end)
                  current.["id"] event_id in
      st_ret current
  end.

(** [_recover_session]; [readable] is whether its reads succeed. *)
Definition _recover_session (readable : bool) (document : pydict) (event_id : string) (now : Z) : dbm (option pydict) :=
  if negb readable then st_ret None
  else
    let! stored := find_one UserSessions
      (fun d => fld d "tokenHash" document.["tokenHash"] && fld d "userId" document.["userId"]
                && fld d "authVersion" document.["authVersion"] && time_gt d "expiresAt" now) in
    match stored with
    | None => st_ret None
    | Some _ =>
        let! event := find_one Audit (fun d => fld d "_id" (PStr event_id)) in
        match event with
        | None => st_ret None
        | Some _ => find_one Users (fun d => active_user document.["userId"] d && fld d "authVersion" document.["authVersion"])
        end
    end.

(** [rotate_session] for the fresh [token] and [event_id]. *)
Definition rotate_session (verified : pydict) (old_token token : string) (password_hash : option string) (event_id : string)
    (context : pydict) (now seconds : Z) (f : fate) (readable : bool) : dbm pydict :=
  let document := session_document token verified.["id"]
    (next_version verified (match password_hash with Some _ => true | None => false end)) now seconds in
  st_catch (transaction f (rotate_commit verified old_token token password_hash event_id context now seconds))
    (fun e => if is_pymongo e
              then Some (let! current := _recover_session readable document event_id now in
                         match current with
                         | None => st_raise (Http 503 "登录或改密提交结果未知，请重新登录确认；未签发新会话")
                         | Some current => st_ret current
                         end)
              else None).

(** [revoke_session] *)
Definition revoke_commit (token event_id : string) (context : pydict) (now : Z) : dbm pyval :=
  let! removed := find_one_and_delete UserSessions (fun d => fld d "tokenHash" (PStr (token_digest token))) in
  match removed with
  | None => st_ret PNone
  | Some removed =>
      let! _ := audit_event context now removed.["userId"] "logout" removed.["userId"] event_id in
      st_ret removed.["userId"]
  end.

Definition revoke_session (token event_id : string) (context : pydict) (now : Z) (f : fate) (readable : bool) : dbm pyval :=
  let unknown : dbm pyval := st_raise (Http 503 "退出提交结果未知，请重试退出；未清除浏览器凭证") in
  st_catch (transaction f (revoke_commit token event_id context now))
    (fun e => if is_pymongo e
              then Some (if negb readable then unknown
                         else
                           let! event := find_one Audit (fun d => fld d "_id" (PStr event_id)) in
                           match event with
                           | None => unknown
                           | Some event =>
                               let! remaining := find_one UserSessions (fun d => fld d "tokenHash" (PStr (token_digest token))) in
                               match remaining with None => st_ret event.["actor"] | Some _ => unknown end
                           end)
              else None).

(** ** Accounts *)

(** [authorize_user_target] *)
Definition authorize_user_target (identity target : pydict) : dbm unit :=
  let! _ := raise_if (truthy target.["builtin"]) (Http 403 "内置超级管理员仅能自行修改密码") in
  raise_if (negb (may_manage identity target)) (Http 403 "管理员不能编辑、删除或重置其他管理员的账户").

Definition is_admin (user : pydict) (now : Z) : dbm bool :=
  let! expired := pure (permission_expired user now) in st_ret (negb (bool_decide (effective_role user expired = USER))).

(** [claim_account_manager] *)
Definition claim_account_manager (identity : pydict) (target : option pydict) (now : Z) : dbm unit :=
  let! current :=
    if fld identity "id" (PStr "bootstrap") then st_ret identity
    else
      let! current := find_one_and_update_before Users (active_user identity.["id"]) (dict_inc "accountManagementVersion" 1) in
      match current with
      | None => st_raise (Http 403 "管理权限已失效，请刷新账户状态")
      | Some current =>
          let! admin := is_admin current now in
          let! _ := raise_if (negb admin) (Http 403 "管理权限已失效，请刷新账户状态") in
          st_ret current
      end in
  match target with Some target => authorize_user_target current target | None => st_ret tt end.

Definition get_user (identifier : pyval) : dbm pydict :=
  let! doc := find_one Users (fun d => fld d "id" identifier) in
  match doc with Some d => st_ret d | None => st_raise (Http 404 "记录不存在") end.

(** The condition of every change of an account. *)
Definition changeable (identifier : pyval) (version : Z) (d : pydict) : bool :=
  fld d "id" identifier && fld d "version" (PInt version) && fld d "deletedAt" PNone && fld d "builtin" (PBool false).

(** `update.commit`: [old] is the account as the handler read it before. *)
Definition update_commit (identity : pydict) (identifier : pyval) (version : Z) (updates old : pydict) (now : Z) : dbm pydict :=
  let! target := find_one Users (fun d => fld d "id" identifier) in
  let! _ := claim_account_manager identity (Some (default old target)) now in
  let! changed := find_one_and_update Users (changeable identifier version)
    (fun d => dict_inc "authVersion" 1 (dict_inc "version" 1 (set_all (updates ++ [("updatedAt", PTime (Aware now))]) d))) in
  match changed with
  | None => st_raise (Http 409 "账号版本已变化或已删除")
  | Some changed => st_ret changed
  end.

(** `update`; the page gets [public_user] of the result. *)
Definition update_user (identity : pydict) (identifier : pyval) (version : Z) (updates : pydict) (action : string) (context : pydict)
    (now : Z) (f : fate) : dbm pydict :=
  let! _ := authorize identity "admin" in
  let! old := get_user identifier in
  let! _ := authorize_user_target identity old in
  audited_mutation identity.["id"] action identifier context (update_commit identity identifier version updates old now) now f.

(** `list(dict.fromkeys(values))` *)
Fixpoint dedup (l : list string) : list string :=
  match l with [] => [] | s :: l => s :: filter (fun x => x <> s) (dedup l) end.

(** `body.model_dump(exclude_unset=True, exclude={"version"})` of a [UserPatch], as [edit]
    changes it: one field after the other. *)
Definition edit_role (values : pydict) : result exn pydict :=
  match dict_lookup values "role" with
  | None => Ok values
  | Some PNone => Raise (Http 422 "角色不能为空")
  | Some r => Ok (dict_set values "isAdmin" (PBool (bool_decide (r = PStr "ADMIN"))))
  end.

Definition edit_scopes (values : pydict) : result exn pydict :=
  match dict_lookup values "scopes" with
  | None => Ok values
  | Some (PList l) => if forallb (fun s => bool_decide (s ∈ PERMISSIONS)) (strings (PList l))
                      then Ok (dict_set values "scopes" (PList (map PStr (dedup (strings (PList l)))))) else Raise (Http 422 "权限配置无效")
  | Some _ => Raise (Http 422 "权限配置无效")
  end.

Definition edit_name (values : pydict) : result exn pydict :=
  match dict_lookup values "displayName" with
  | None => Ok values
  | Some (PStr s) => if String.eqb (py_strip s) "" then Raise (Http 422 "显示名称不能为空")
                     else Ok (dict_set values "displayName" (PStr (py_strip s)))
  | Some _ => Raise (Http 422 "显示名称不能为空")
  end.

Definition edit_enabled (values : pydict) : result exn pydict :=
  match dict_lookup values "enabled" with Some PNone => Raise (Http 422 "启用状态不能为空") | _ => Ok values end.

Definition edit_values (values : pydict) : result exn pydict :=
  v1 ← edit_role values; v2 ← edit_scopes v1; v3 ← edit_name v2; edit_enabled v3.

Definition edit_user (identity : pydict) (identifier : pyval) (version : Z) (values context : pydict) (now : Z) (f : fate) : dbm pydict :=
  let! _ := authorize identity "admin" in
  let! values := pure (edit_values values) in
  update_user identity identifier version values "edit_user" context now f.

Definition reset_password (identity : pydict) (identifier : pyval) (version : Z) (password_hash : string) (context : pydict)
    (now : Z) (f : fate) : dbm pydict :=
  let! _ := authorize identity "admin" in
  update_user identity identifier version [("passwordHash", PStr password_hash); ("mustChangePassword", PBool true)]
    "reset_user_password" context now f.

(** A [UserCreate] after its validation. *)
Record user_create := UserCreate {
  uc_username : string; uc_display : string; uc_admin : bool; uc_scopes : list string; uc_enabled : bool; uc_expires : pyval }.

Definition new_user (identifier password_hash : string) (b : user_create) (now : Z) : pydict :=
  [("permissionsExpiresOn", uc_expires b); ("username", PStr (uc_username b)); ("displayName", PStr (uc_display b));
   ("role", PStr (if uc_admin b then "ADMIN" else "USER")); ("scopes", PList (map PStr (uc_scopes b))); ("enabled", PBool (uc_enabled b));
   ("isAdmin", PBool (uc_admin b)); ("id", PStr identifier); ("builtin", PBool false); ("version", PInt 1); ("authVersion", PInt 1);
   ("passwordHash", PStr password_hash); ("mustChangePassword", PBool true); ("createdAt", PTime (Aware now));
   ("updatedAt", PTime (Aware now))].

Definition create_user (identity : pydict) (identifier password_hash : string) (b : user_create) (context : pydict) (now : Z) (f : fate)
  : dbm pydict :=
  let! _ := authorize identity "admin" in
  let doc := new_user identifier password_hash b now in
  st_catch
    (audited_mutation identity.["id"] "create_user" (PStr identifier) context
       (let! _ := claim_account_manager identity None now in
        let! _ := insert_one Users doc in st_ret doc) now f)
    (fun e => match e with DuplicateKeyError => Some (st_raise (Http 409 "用户名已存在")) | _ => None end).

(** ** Deletion *)

(** `for item in items` *)
Fixpoint for_each {A} (items : list A) (f : A -> dbm unit) : dbm unit :=
  match items with [] => st_ret tt | a :: items => let! _ := f a in for_each items f end.

Inductive resource_action : Type := DELETE | TRANSFER (target : string).

Definition owned_by (identifier : pyval) (d : pydict) : bool := fld d "createdBy" identifier && fld d "deletedAt" PNone.

(** [claim_active_user_for_resource_write] for a user of the platform. *)
Definition claim_active_user_for_resource_write (identifier : string) : dbm unit :=
  if String.eqb identifier "bootstrap" then st_ret tt
  else
    let! claimed := find_one_and_update_before Users (active_user (PStr identifier)) (dict_inc "resourceWriteVersion" 1) in
    match claimed with None => st_raise (Http 409 "用户已停用或删除，不能创建资源或任务") | Some _ => st_ret tt end.

(** The account that takes over the resources. *)
Definition transfer_target (identifier : pyval) (action : option resource_action) : dbm (option pydict) :=
  match action with
  | Some (TRANSFER target) =>
      let! _ := raise_if (String.eqb target "" || bool_decide (identifier = PStr target)) (Http 422 "转移目标必须是不同于被删用户的有效用户") in
      let! found := find_one Users (active_user (PStr target)) in
      match found with
      | None => st_raise (Http 422 "转移目标用户不存在、已停用或已删除")
      | Some found => let! _ := claim_active_user_for_resource_write target in st_ret (Some found)
      end
  | _ => st_ret None
  end.

Definition taken_over (target : pydict) (now : Z) (d : pydict) : pydict :=
  let name := if truthy target.["displayName"] then target.["displayName"]
              else if truthy target.["username"] then target.["username"] else target.["id"] in
  dict_inc "version" 1 (set_all [("createdBy", target.["id"]); ("createdByName", name); ("updatedAt", PTime (Aware now))] d).

(** `_id` of audit records aside, the audit of an object with its creator. *)
Definition audit_owner (context : pydict) (now : Z) (actor : pyval) (action : string) (target : pyval) (metadata : pydict) : dbm unit :=
  let document := [("actor", actor); ("action", PStr action); ("targetId", target);
    ("requestId", context.["requestId"]); ("clientIp", context.["clientIp"]); ("createdAt", PTime (Aware now))] in
  insert_one Audit (dict_set (if truthy context.["serviceTokenId"]
                              then dict_set document "serviceTokenId" context.["serviceTokenId"] else document) "metadata" (PDict metadata)).

Definition tasks_of (identifier : pyval) (ids : list pyval) (d : pydict) : bool :=
  owned_by identifier d && (fld_in d "resourceId" ids || fld_in d "serialServerResourceId" ids).

Definition transfer (identity : pydict) (identifier : pyval) (ids : list pyval) (target context : pydict) (now : Z) : dbm unit :=
  let metadata := [("createdBy", identifier); ("targetUserId", target.["id"])] in
  let! tasks := find_all Tasks (tasks_of identifier ids) in
  let! _ := update_many Resources (fun d => fld_in d "id" ids && owned_by identifier d) (taken_over target now) in
  let! _ := for_each ids (fun i => audit_owner context now identity.["id"] "transfer_user_resource" i metadata) in
  let! _ := update_many Tasks (tasks_of identifier ids) (taken_over target now) in
  for_each (map (fun t => t.["id"]) tasks) (fun i => audit_owner context now identity.["id"] "transfer_user_task" i metadata).

Definition dispose (identity : pydict) (identifier : pyval) (action : option resource_action) (resources : list pydict)
    (target : option pydict) (context : pydict) (now : Z) : dbm unit :=
  let ids := map (fun d => d.["id"]) resources in
  match action, target with
  | Some DELETE, _ =>
      for_each ids (fun i => let! _ := mark_resource_deletion (text i) now None in
                         audit_owner context now identity.["id"] "delete_user_resource" i [("createdBy", identifier)])
  | Some (TRANSFER _), Some target =>
      if bool_decide (ids = []) then st_ret tt else transfer identity identifier ids target context now
  | _, _ => st_ret tt
  end.

(** `delete.commit` *)
Definition delete_commit (identity : pydict) (identifier : pyval) (version : Z) (action : option resource_action) (old context : pydict)
    (now : Z) : dbm pydict :=
  let! target := find_one Users (fun d => fld d "id" identifier) in
  let! _ := claim_account_manager identity (Some (default old target)) now in
  let! resources := find_all Resources (owned_by identifier) in
  let! _ := raise_if (negb (bool_decide (resources = [])) && match action with None => true | Some _ => false end)
              (Http 422 "用户仍有活动设备资源，必须选择删除或转移") in
  let! heir := transfer_target identifier action in
  let! _ := dispose identity identifier action resources heir context now in
  let! changed := find_one_and_update Users (changeable identifier version)
    (fun d => dict_inc "resourceWriteVersion" 1 (dict_inc "authVersion" 1 (dict_inc "version" 1
       (set_all [("enabled", PBool false); ("deletedAt", PTime (Aware now)); ("updatedAt", PTime (Aware now))] d)))) in
  match changed with
  | None => st_raise (Http 409 "账号版本已变化或已删除")
  | Some changed => st_ret changed
  end.

(** `delete` up to the transaction; the deletion of the resources is completed by the jobs
    of [Lifecycle]. *)
Definition delete_user (identity : pydict) (identifier : pyval) (version : Z) (action : option resource_action) (context : pydict)
    (now : Z) (f : fate) : dbm pydict :=
  let! _ := authorize identity "admin" in
  let! old := get_user identifier in
  let! _ := authorize_user_target identity old in
  audited_mutation identity.["id"] "delete_user" identifier context
    (delete_commit identity identifier version action old context now) now f.

(** ** Service tokens *)

(** [protect_service_account] in a transaction; [None] is an internal caller. *)
Definition protect_service_account (identity : option pydict) (user_id : pyval) (now : Z) : dbm unit :=
  match identity with
  | None => st_ret tt
  | Some identity =>
      if fld identity "id" (PStr "bootstrap") then st_ret tt
      else
        let! _ := claim_account_manager identity None now in
        let! target := find_one_and_update_before Users (fun d => fld d "id" user_id) (dict_inc "serviceAccountClaimVersion" 1) in
        match target with
        | None => st_ret tt
        | Some target =>
            raise_if (negb (bool_decide (configured_role identity = SUPER_ADMIN)) && negb (bool_decide (configured_role target = USER))
                      && negb (bool_decide (identity.["id"] = user_id))) (Http 403 "管理员不能操作其他管理员的服务凭据")
        end
  end.

(** `timedelta(days=...)` after [now]; [None] is a token that does not expire. *)
Definition expiry (now : Z) (days : option Z) : pyval :=
  match days with Some n => PTime (Aware (now + n * US_PER_DAY)) | None => PNone end.

Definition new_token (identifier name token encrypted : string) (user_id : pyval) (days : option Z) (now : Z) : pydict :=
  [("id", PStr identifier); ("name", PStr name); ("userId", user_id); ("version", PInt 1); ("tokenHash", PStr (token_digest token));
   ("tokenEncrypted", PStr encrypted); ("revoked", PBool false); ("expiresAt", expiry now days); ("createdAt", PTime (Aware now))].

(** `_commit`: after an error of the driver only the fixed target is read. *)
Definition token_commit (confirmation : pydict -> bool) (f : fate) (readable : bool) (m : dbm pydict) : dbm pydict :=
  st_catch (transaction f m)
    (fun e => if is_pymongo e
              then Some (let! confirmed := (if readable then find_one Tokens confirmation else st_ret None) in
                         match confirmed with
                         | Some d => st_ret d
                         | None => st_raise (Http 503 "服务令牌提交结果未知，请查询令牌列表确认")
                         end)
              else None).

Definition create_service_token (actor_id : pyval) (user_id name : string) (days : option Z) (identity : option pydict)
    (identifier token encrypted : string) (context : pydict) (now : Z) (f : fate) (readable : bool) : dbm pydict :=
  let! user := find_one Users (active_user (PStr user_id)) in
  match user with
  | None => st_raise (Http 422 "绑定用户不存在或已停用")
  | Some user =>
      let document := new_token identifier name token encrypted user.["id"] days now in
      token_commit (fun d => fld d "id" (PStr identifier) && fld d "tokenHash" (PStr (token_digest token))) f readable
        (let! current := find_one Users (active_user user.["id"]) in
         match current with
         | None => st_raise (Http 422 "绑定用户不存在或已停用")
         | Some _ =>
             let! _ := protect_service_account identity user.["id"] now in
             let! _ := insert_one Tokens document in
             let! _ := audit context now actor_id "create_token" (PStr identifier) in
             st_ret document
         end)
  end.

Definition get_token (identifier : pyval) : dbm pydict :=
  let! token := find_one Tokens (fun d => fld d "id" identifier) in
  match token with Some d => st_ret d | None => st_raise (Http 404 "服务令牌不存在") end.

Definition revoke_service_token (actor_id identifier : pyval) (identity : option pydict) (context : pydict) (now : Z) (f : fate)
    (readable : bool) : dbm pydict :=
  token_commit (fun d => fld d "id" identifier && fld d "revoked" (PBool true)) f readable
    (let! token := get_token identifier in
     let! _ := protect_service_account identity token.["userId"] now in
     if truthy token.["revoked"] then st_ret token
     else
       let! _ := update_one Tokens (fun d => fld d "id" identifier) (fun d => dict_set d "revoked" (PBool true)) in
       let! _ := audit context now actor_id "revoke_token" identifier in
       st_ret (dict_set token "revoked" (PBool true))).

(** The guards of a change of a token. *)
Definition token_guard (identifier : pyval) (version : Z) (identity : option pydict) (now : Z) : dbm pydict :=
  let! current := get_token identifier in
  let! _ := protect_service_account identity current.["userId"] now in
  let! _ := raise_if (negb (fld current "version" (PInt version))) (Http 409 "服务令牌版本已变化，请刷新") in
  st_ret current.

(** The change under the version lock, and its audit record. *)
Definition token_change (actor_id identifier : pyval) (version : Z) (changes : pydict) (action event_id : string) (context : pydict) (now : Z)
  : dbm pydict :=
  let! changed := find_one_and_update Tokens (fun d => fld d "id" identifier && fld d "version" (PInt version))
    (fun d => dict_inc "version" 1 (set_all changes d)) in
  match changed with
  | None => st_raise (Http 409 "服务令牌版本已变化，请刷新")
  | Some changed => let! _ := audit_event context now actor_id action identifier event_id in st_ret changed
  end.

(** An error of the driver: the audit record of this request and the token are read. *)
Definition token_recover (identifier : pyval) (action event_id message : string) (confirm : pydict -> bool) (readable : bool) : dbm pydict :=
  if negb readable then st_raise (Http 503 message)
  else
    let! event := find_one Audit (fun d => fld d "_id" (PStr event_id) && fld d "action" (PStr action) && fld d "targetId" identifier) in
    match event with
    | None => st_raise (Http 503 message)
    | Some _ =>
        let! changed := find_one Tokens (fun d => fld d "id" identifier && confirm d) in
        match changed with Some d => st_ret d | None => st_raise (Http 503 message) end
    end.

(** The fields a [TokenPatch] sets: a name and an account, texts or null, and an expiry in
    days, [Some None] an explicit null. *)
Record token_patch := TokenPatch { tp_name : option pyval; tp_user : option pyval; tp_days : option (option Z) }.

Definition token_updates (b : token_patch) (now : Z) : pydict :=
  match tp_name b with Some s => [("name", s)] | None => [] end
  ++ match tp_user b with Some u => [("userId", u)] | None => [] end
  ++ match tp_days b with Some days => [("expiresAt", expiry now days)] | None => [] end.

Definition update_service_token (actor_id identifier : pyval) (b : token_patch) (version : Z) (identity : option pydict) (event_id : string)
    (context : pydict) (now : Z) (f : fate) (readable : bool) : dbm pydict :=
  let! _ := raise_if (bool_decide (token_updates b now = [])) (Http 422 "至少提供令牌名称或绑定用户") in
  st_catch
    (transaction f
       (let! current := token_guard identifier version identity now in
        let! _ := raise_if (match tp_days b with Some _ => expired_at current now | None => false end)
                    (Http 409 "服务令牌已过期，不能修改有效期") in
        let! _ := match tp_user b with
                  | None => st_ret tt
                  | Some u =>
                      let! _ := protect_service_account identity u now in
                      let! user := find_one Users (active_user u) in
                      match user with None => st_raise (Http 422 "绑定用户不存在或已停用") | Some _ => st_ret tt end
                  end in
        token_change actor_id identifier version (token_updates b now) "update_token" event_id context now))
    (fun e => if is_pymongo e
              then Some (token_recover identifier "update_token" event_id "服务令牌提交结果未知，请查询令牌列表确认" (fun _ => true) readable)
              else None).

Definition rotate_service_token (actor_id identifier : pyval) (version : Z) (identity : option pydict) (token encrypted event_id : string)
    (context : pydict) (now : Z) (f : fate) (readable : bool) : dbm pydict :=
  st_catch
    (transaction f
       (let! _ := token_guard identifier version identity now in
        token_change actor_id identifier version
          [("tokenHash", PStr (token_digest token)); ("tokenEncrypted", PStr encrypted); ("updatedAt", PTime (Aware now))]
          "rotate_token" event_id context now))
    (fun e => if is_pymongo e
              then Some (token_recover identifier "rotate_token" event_id "服务令牌轮换结果未知，请查询后重试"
                           (fun d => fld d "tokenHash" (PStr (token_digest token))) readable)
              else None).

(** ** Histories *)

(** The counters that claims of an account increment. *)
Definition CLAIM_COUNTERS : list string :=
  ["resourceShareClaimVersion"; "commandSubmissionVersion"; "resourceWriteVersion"; "accountManagementVersion"; "sessionClaimVersion"].

Inductive account_op : Type :=
  | Login (verified : pydict) (old_token token event_id : string) (context : pydict) (now seconds : Z) (f : fate) (readable : bool)
  | Password (verified : pydict) (old_token token hash event_id : string) (context : pydict) (now seconds : Z) (f : fate) (readable : bool)
  | Logout (token event_id : string) (context : pydict) (now : Z) (f : fate) (readable : bool)
  | Edit (identity : pydict) (identifier : pyval) (version : Z) (values context : pydict) (now : Z) (f : fate)
  | Reset (identity : pydict) (identifier : pyval) (version : Z) (hash : string) (context : pydict) (now : Z) (f : fate)
  | Create (identity : pydict) (identifier hash : string) (b : user_create) (context : pydict) (now : Z) (f : fate)
  | Delete (identity : pydict) (identifier : pyval) (version : Z) (action : option resource_action) (context : pydict) (now : Z) (f : fate)
  | CreateToken (actor : pyval) (user_id name : string) (days : option Z) (identity : option pydict)
      (identifier token encrypted : string) (context : pydict) (now : Z) (f : fate) (readable : bool)
  | RevokeToken (actor identifier : pyval) (identity : option pydict) (context : pydict) (now : Z) (f : fate) (readable : bool)
  | UpdateToken (actor identifier : pyval) (b : token_patch) (version : Z) (identity : option pydict) (event_id : string)
      (context : pydict) (now : Z) (f : fate) (readable : bool)
  | RotateToken (actor identifier : pyval) (version : Z) (identity : option pydict) (token encrypted event_id : string)
      (context : pydict) (now : Z) (f : fate) (readable : bool)
  | ClaimAccount (q : pydict -> bool) (counter : string)     (* sharing, commands, resources *)
  | Expire (now : Z).                                         (* the expiry index of the sessions *)

Definition done_ {A} (m : dbm A) : dbm unit := let! _ := m in st_ret tt.

Definition perform (o : account_op) : dbm unit :=
  match o with
  | Login v old t e c now s f r => done_ (rotate_session v old t None e c now s f r)
  | Password v old t h e c now s f r => done_ (rotate_session v old t (Some h) e c now s f r)
  | Logout t e c now f r => done_ (revoke_session t e c now f r)
  | Edit i k v values c now f => done_ (edit_user i k v values c now f)
  | Reset i k v h c now f => done_ (reset_password i k v h c now f)
  | Create i k h b c now f => done_ (create_user i k h b c now f)
  | Delete i k v a c now f => done_ (delete_user i k v a c now f)
  | CreateToken a u n d i k t e c now f r => done_ (create_service_token a u n d i k t e c now f r)
  | RevokeToken a k i c now f r => done_ (revoke_service_token a k i c now f r)
  | UpdateToken a k b v i e c now f r => done_ (update_service_token a k b v i e c now f r)
  | RotateToken a k v i t enc e c now f r => done_ (rotate_service_token a k v i t enc e c now f r)
  | ClaimAccount q counter => done_ (update_one Users q (dict_inc counter 1))
  | Expire now => done_ (delete_many UserSessions (fun d => time_le d "expiresAt" now))
  end.

Definition perform_all (os : list account_op) (db : database) : database := foldl (fun db o => (perform o db).2) db os.

(** ** The invariant of the accounts *)

Context `{!MongoLaws}.

Definition auth_version (d : pydict) : option Z := as_int d.["authVersion"].

Definition versioned (d : pydict) : Prop := exists v, d.["authVersion"] = PInt v.

(** The account [u] has moved past the session [s], or not. *)
Definition not_after (s u : pydict) : Prop :=
  s.["userId"] = u.["id"] /\ exists v w, s.["authVersion"] = PInt v /\ u.["authVersion"] = PInt w /\ v <= w.

Record accounts_ok (db : database) : Prop := AccountsOk {
  ac_users : NoDup (map (fun d => d.["id"]) (content db Users));
  ac_versions : forall u, u ∈ content db Users -> versioned u;
  ac_hashes : NoDup (map (fun d => d.["tokenHash"]) (content db UserSessions));
  ac_sessions : forall s, s ∈ content db UserSessions -> exists u, u ∈ content db Users /\ not_after s u;
  ac_tokens : NoDup (map (fun d => d.["id"]) (content db Tokens)) }.

(** What an account may become. *)
Definition grows (u u' : pydict) : Prop :=
  u'.["id"] = u.["id"] /\ exists v w, u.["authVersion"] = PInt v /\ u'.["authVersion"] = PInt w /\ v <= w.

(** What happens to the credentials with the digest [h]. *)
Record later (h : string) (db db' : database) : Prop := Later {
  la_users : forall u, u ∈ content db Users -> exists u', u' ∈ content db' Users /\ grows u u';
  la_sessions : forall s, s ∈ content db' UserSessions -> s.["tokenHash"] = PStr h -> s ∈ content db UserSessions;
  la_tokens : forall t', t' ∈ content db' Tokens -> t'.["tokenHash"] = PStr h ->
    exists t, t ∈ content db Tokens /\ t.["tokenHash"] = PStr h /\ t.["id"] = t'.["id"]
      /\ (t.["revoked"] <> PBool false -> t'.["revoked"] <> PBool false) }.

Lemma grows_refl u : versioned u -> grows u u.
Proof. intros [v Hv]. split; [done|]. exists v, v. by split_and!. Qed.

Lemma grows_trans u u' u'' : grows u u' -> grows u' u'' -> grows u u''.
Proof.
  intros (H1 & v & w & Hv & Hw & Hle) (H2 & v' & w' & Hv' & Hw' & Hle'). split; [congruence|]. exists v, w'. split_and!; [done|done|].
  rewrite Hw in Hv'. injection Hv' as <-. lia.
Qed.

Lemma not_after_grows s u u' : not_after s u -> grows u u' -> not_after s u'.
Proof.
  intros (H1 & v & w & Hv & Hw & Hle) (H2 & v' & w' & Hv' & Hw' & Hle'). split; [congruence|]. exists v, w'. split_and!; [done|done|].
  rewrite Hw in Hv'. injection Hv' as <-. lia.
Qed.

Lemma later_refl h db : accounts_ok db -> later h db db.
Proof.
  intros Hok. split; [|done|eauto 10]. intros u Hu. exists u. split; [done|]. by apply grows_refl, (ac_versions db Hok).
Qed.

Lemma later_trans h db1 db2 db3 : later h db1 db2 -> later h db2 db3 -> later h db1 db3.
Proof.
  intros [U1 S1 T1] [U2 S2 T2]. split.
  - intros u Hu. destruct (U1 u Hu) as (u' & Hu' & Hg). destruct (U2 u' Hu') as (u'' & Hu'' & Hg'). exists u''. eauto using grows_trans.
  - auto.
  - intros t Ht Hh. destruct (T2 t Ht Hh) as (t' & Ht' & Hh' & Hi & Hr). destruct (T1 t' Ht' Hh') as (t'' & Ht'' & Hh'' & Hi' & Hr').
    exists t''. split_and!; [done|done|congruence|auto].
Qed.

(** A computation that keeps the invariant and gives nobody the credential [h]. *)
Definition keeps (h : string) {A} (m : dbm A) : Prop :=
  forall db, accounts_ok db -> wp m (fun _ db' => accounts_ok db' /\ later h db db') db.

Lemma keeps_ret h {A} (a : A) : keeps h (st_ret a).
Proof. intros db Hok. apply wp_ret. split; [done|by apply later_refl]. Qed.

Lemma keeps_raise h {A} e : keeps h (st_raise e : dbm A).
Proof. intros db Hok. apply wp_raise. split; [done|by apply later_refl]. Qed.

Lemma keeps_raise_if h b e : keeps h (raise_if b e).
Proof. destruct b; [apply keeps_raise|apply keeps_ret]. Qed.

Lemma keeps_pure h {A} (r : result exn A) : keeps h (pure r).
Proof. destruct r; [apply keeps_ret|apply keeps_raise]. Qed.

Lemma keeps_bind h {A B} (m : dbm A) (k : A -> dbm B) : keeps h m -> (forall a, keeps h (k a)) -> keeps h (st_bind m k).
Proof.
  intros Hm Hk db Hok. apply wp_bind. eapply wp_mono; [by apply Hm|]. intros [a|e] db1 [Hok1 L1]; cbn [on_ok]; [|done].
  eapply wp_mono; [by apply Hk|]. intros r db2 [Hok2 L2]. split; [done|by eapply later_trans].
Qed.

Lemma keeps_transaction h {A} f (m : dbm A) : keeps h m -> keeps h (transaction f m).
Proof.
  intros Hm db Hok. apply wp_transaction. eapply wp_mono; [by apply Hm|]. intros [a|e] db1 [Hok1 L1].
  - destruct f as [|[]]; try done. split; [done|by apply later_refl].
  - split; [done|by apply later_refl].
Qed.

Lemma keeps_catch h {A} (m : dbm A) handler : keeps h m -> (forall e k, handler e = Some k -> keeps h k) -> keeps h (st_catch m handler).
Proof.
  intros Hm Hk db Hok. apply wp_catch. eapply wp_mono; [by apply Hm|]. intros [a|e] db1 [Hok1 L1]; [done|].
  destruct (handler e) as [k|] eqn:E; [|done]. eapply wp_mono; [by eapply Hk|]. intros r db2 [Hok2 L2]. split; [done|by eapply later_trans].
Qed.

Lemma keeps_find_one h c q : keeps h (find_one c q).
Proof. intros db Hok. apply wp_find_one; intros; (split; [done|by apply later_refl]). Qed.

Lemma keeps_find_all h c q : keeps h (find_all c q).
Proof. intros db Hok. apply wp_find_all; intros; (split; [done|by apply later_refl]). Qed.

Definition credentials : list cname := [Users; UserSessions; Tokens].

Lemma same_credentials h db db' :
  (forall c, c ∈ credentials -> content db' c = content db c) -> accounts_ok db -> accounts_ok db' /\ later h db db'.
Proof.
  intros E [H1 H2 H3 H4 H5].
  assert (Eu : content db' Users = content db Users) by by apply E; left.
  assert (Es : content db' UserSessions = content db UserSessions) by by apply E; right; left.
  assert (Et : content db' Tokens = content db Tokens) by by apply E; right; right; left.
  split; [split; rewrite ?Eu, ?Es, ?Et; done|]. split; rewrite ?Eu, ?Es, ?Et; [|done|eauto 10].
  intros u Hu. exists u. split; [done|]. by apply grows_refl, H2.
Qed.

Lemma other_credentials db db' c : c ∉ credentials -> (forall c', c' <> c -> content db' c' = content db c') ->
  forall c', c' ∈ credentials -> content db' c' = content db c'.
Proof. intros Hc Ho c' Hc'. apply Ho. by intros ->. Qed.

Lemma keeps_update_other h c q f : c ∉ credentials -> keeps h (find_one_and_update c q f).
Proof.
  intros Hc db Hok. apply wp_update; [|intros _; split; [done|by apply later_refl]].
  intros d db' (_ & _ & Ho). apply same_credentials; [by apply (other_credentials _ _ c)|done].
Qed.

Lemma keeps_update_many_other h c q f : c ∉ credentials -> keeps h (update_many c q f).
Proof. intros Hc db Hok. apply wp_update_many. intros db' _ Ho. apply same_credentials; [by apply (other_credentials _ _ c)|done]. Qed.

Lemma keeps_insert_other h c d : c ∉ credentials -> keeps h (insert_one c d).
Proof.
  intros Hc db Hok. apply wp_insert; [|intros; split; [done|by apply later_refl]].
  intros db' _ _ Ho. apply same_credentials; [by apply (other_credentials _ _ c)|done].
Qed.

Lemma keeps_delete_other h c q : c ∉ credentials -> keeps h (delete_one c q).
Proof.
  intros Hc db Hok. apply wp_delete; [|intros; split; [done|by apply later_refl]].
  intros l d r db' _ _ _ Ho. apply same_credentials; [by apply (other_credentials _ _ c)|done].
Qed.

(** One account grows. *)
Lemma user_update h q f d db db' :
  updated Users q f d db db' -> (versioned d -> grows d (f d)) -> accounts_ok db -> accounts_ok db' /\ later h db db'.
Proof.
  intros (_ & (l & r & E & E') & Ho) Hg [H1 H2 H3 H4 H5].
  assert (Es : content db' UserSessions = content db UserSessions) by by apply Ho.
  assert (Et : content db' Tokens = content db Tokens) by by apply Ho.
  assert (Hd : d ∈ content db Users) by (rewrite E; apply elem_of_middle).
  specialize (Hg (H2 d Hd)).
  assert (Hu : forall u, u ∈ content db Users -> exists u', u' ∈ content db' Users /\ grows u u').
  { intros u Hu. rewrite E in Hu. apply elem_of_app in Hu as [Hu|[->|Hu]%elem_of_cons].
    - exists u. rewrite E'. split; [apply elem_of_app; by left|]. apply grows_refl, H2. rewrite E. apply elem_of_app. by left.
    - exists (f d). rewrite E'. split; [apply elem_of_middle|done].
    - exists u. rewrite E'. split; [apply elem_of_app; right; by right|]. apply grows_refl, H2. rewrite E. apply elem_of_app. right. by right. }
  split.
  - split; rewrite ?Es, ?Et; [| |done| |done].
    + rewrite E'. rewrite E, map_app in H1. rewrite map_app. cbn in *. by rewrite (proj1 Hg).
    + intros u Hu'. rewrite E' in Hu'. apply elem_of_app in Hu' as [Hu'|[->|Hu']%elem_of_cons].
      * apply H2. rewrite E. apply elem_of_app. by left.
      * destruct Hg as (_ & v & w & _ & Hw & _). by exists w.
      * apply H2. rewrite E. apply elem_of_app. right. by right.
    + intros s Hs. destruct (H4 s Hs) as (u & Hu' & Hn). destruct (Hu u Hu') as (u' & Hin & Hg'). exists u'. eauto using not_after_grows.
  - split; rewrite ?Es, ?Et; [done|done|eauto 10].
Qed.

Lemma keeps_update_user h q f : (forall d, versioned d -> grows d (f d)) -> keeps h (find_one_and_update Users q f).
Proof.
  intros Hg db Hok. apply wp_update; [|intros _; split; [done|by apply later_refl]].
  intros d db' Hu. eapply user_update; [exact Hu|apply Hg|done].
Qed.

Lemma keeps_before h c q f : (forall q, keeps h (find_one_and_update c q f)) -> keeps h (find_one_and_update_before c q f).
Proof.
  intros Hk. apply keeps_bind; [apply keeps_find_one|]. intros [d|]; [|apply keeps_ret].
  apply keeps_bind; [apply Hk|]. intros; apply keeps_ret.
Qed.

Lemma keeps_update_one h c q f : keeps h (find_one_and_update c q f) -> keeps h (update_one c q f).
Proof. intros Hk. apply keeps_bind; [done|]. intros; apply keeps_ret. Qed.

(** A field that is neither the identifier nor the version. *)
Lemma grows_same d d' : d'.["id"] = d.["id"] -> d'.["authVersion"] = d.["authVersion"] -> versioned d -> grows d d'.
Proof. intros H1 H2 [v Hv]. split; [done|]. exists v, v. rewrite H2. by split_and!. Qed.

Lemma grows_inc d d' v : d'.["id"] = d.["id"] -> d.["authVersion"] = PInt v -> d'.["authVersion"] = PInt (v + 1) -> grows d d'.
Proof. intros H1 Hv Hw. split; [done|]. exists v, (v + 1). split_and!; [done|done|lia]. Qed.

Lemma keeps_counter h q k : k <> "id" -> k <> "authVersion" -> keeps h (find_one_and_update Users q (dict_inc k 1)).
Proof. intros H1 H2. apply keeps_update_user. intros d Hd. apply grows_same; [by apply get_inc_ne|by apply get_inc_ne|done]. Qed.

(** Sessions only leave. *)
Lemma sessions_leave h l db db' :
  sublist l (content db UserSessions) -> content db' UserSessions = l -> (forall c, c <> UserSessions -> content db' c = content db c) ->
  accounts_ok db -> accounts_ok db' /\ later h db db'.
Proof.
  intros Hl E Ho [H1 H2 H3 H4 H5].
  assert (Eu : content db' Users = content db Users) by by apply Ho.
  assert (Et : content db' Tokens = content db Tokens) by by apply Ho.
  assert (Hin : forall s, s ∈ l -> s ∈ content db UserSessions) by (intros s; by apply sublist_subseteq).
  split; [split; rewrite ?Eu, ?Et, ?E; try done|split; rewrite ?Eu, ?Et, ?E; [|auto|eauto 10]].
  - eapply sublist_NoDup; [exact H3|]. by apply (fmap_sublist (fun d : pydict => d.["tokenHash"])).
  - auto.
  - intros u Hu. exists u. split; [done|]. by apply grows_refl, H2.
Qed.

Lemma keeps_delete_session h q : keeps h (delete_one UserSessions q).
Proof.
  intros db Hok. apply wp_delete; [|intros; split; [done|by apply later_refl]].
  intros l d r db' _ E E' Ho. eapply sessions_leave; [|exact E'|exact Ho|done].
  rewrite E. apply sublist_app; [done|]. by apply sublist_cons.
Qed.

Lemma keeps_find_and_delete_session h q : keeps h (find_one_and_delete UserSessions q).
Proof.
  apply keeps_bind; [apply keeps_find_one|]. intros [d|]; [|apply keeps_ret].
  apply keeps_bind; [apply keeps_delete_session|]. intros; apply keeps_ret.
Qed.

Lemma keeps_delete_sessions h q : keeps h (delete_many UserSessions q).
Proof. intros db Hok. apply wp_delete_many. intros db' E Ho. eapply sessions_leave; [|exact E|exact Ho|done]. apply sublist_filter. Qed.

(** A new account. *)
Lemma keeps_insert_user h d : versioned d -> keeps h (insert_one Users d).
Proof.
  intros Hv db Hok. apply wp_insert; [|intros; split; [done|by apply later_refl]].
  intros db' Hno E Ho. destruct Hok as [H1 H2 H3 H4 H5].
  assert (Es : content db' UserSessions = content db UserSessions) by by apply Ho.
  assert (Et : content db' Tokens = content db Tokens) by by apply Ho.
  split; [split; rewrite ?Es, ?Et, ?E; try done|split; rewrite ?Es, ?Et, ?E; [|done|eauto 10]].
  - rewrite map_app. apply NoDup_app. split_and!; [done| |apply NoDup_singleton].
    intros x (u & -> & Hu)%list_elem_of_fmap Hx%list_elem_of_singleton. specialize (Hno u Hu). cbn in Hno.
    apply orb_false_iff in Hno as [Hno _]. apply fld_false in Hno. congruence.
  - intros u [Hu| ->]%elem_of_snoc; [by apply H2|done].
  - intros s Hs. destruct (H4 s Hs) as (u & Hu & Hn). exists u. split; [apply elem_of_snoc; by left|done].
  - intros u Hu. exists u. split; [apply elem_of_snoc; by left|]. by apply grows_refl, H2.
Qed.

(** A new session of an account at its version, under another digest. *)
Lemma session_insert h d u db :
  d.["tokenHash"] <> PStr h -> u ∈ content db Users -> not_after d u -> accounts_ok db ->
  wp (insert_one UserSessions d) (fun r db' => accounts_ok db' /\ later h db db'
    /\ (r = Ok tt -> content db' UserSessions = content db UserSessions ++ [d] /\ content db' Users = content db Users)
    /\ forall e, r = Raise e -> db' = db) db.
Proof.
  intros Hh Hu Hn Hok. apply wp_insert; [|intros; split_and!; [done|by apply later_refl|done|done]].
  intros db' Hno E Ho. destruct Hok as [H1 H2 H3 H4 H5].
  assert (Eu : content db' Users = content db Users) by by apply Ho.
  assert (Et : content db' Tokens = content db Tokens) by by apply Ho.
  split_and!; [split; rewrite ?Eu, ?Et, ?E; try done|split; rewrite ?Eu, ?Et, ?E; [| |eauto 10]|done|done].
  - rewrite map_app. apply NoDup_app. split_and!; [done| |apply NoDup_singleton].
    intros x (s & -> & Hs)%list_elem_of_fmap Hx%list_elem_of_singleton. specialize (Hno s Hs). cbn in Hno.
    rewrite andb_true_r in Hno. apply fld_false in Hno. congruence.
  - intros s [Hs| ->]%elem_of_snoc; [by apply H4|by exists u].
  - intros u' Hu'. exists u'. split; [done|]. by apply grows_refl, H2.
  - intros s [Hs| ->]%elem_of_snoc Hx; [done|congruence].
Qed.

(** A change of a token that does not give it the digest [h] nor revives it. *)
Definition token_safe (h : string) (f : pydict -> pydict) : Prop :=
  forall t, (f t).["id"] = t.["id"] /\ ((f t).["tokenHash"] = PStr h -> t.["tokenHash"] = PStr h)
    /\ (t.["revoked"] <> PBool false -> (f t).["revoked"] <> PBool false).

Lemma keeps_update_token h q f : token_safe h f -> keeps h (find_one_and_update Tokens q f).
Proof.
  intros Hf db Hok. apply wp_update; [|intros _; split; [done|by apply later_refl]].
  intros d db' (_ & (l & r & E & E') & Ho). destruct Hok as [H1 H2 H3 H4 H5].
  assert (Eu : content db' Users = content db Users) by by apply Ho.
  assert (Es : content db' UserSessions = content db UserSessions) by by apply Ho.
  split; [split; rewrite ?Eu, ?Es, ?E'; try done|split; rewrite ?Eu, ?Es, ?E'; [|done|]].
  - rewrite E, map_app in H5. rewrite map_app. cbn in *. by rewrite (proj1 (Hf d)).
  - intros u Hu. exists u. split; [done|]. by apply grows_refl, H2.
  - intros t [Ht|[->|Ht]%elem_of_cons]%elem_of_app Hh.
    + exists t. rewrite E. split_and!; [apply elem_of_app; by left|done|done|done].
    + destruct (Hf d) as (Hi & Hd & Hr). exists d. rewrite E. split_and!; [apply elem_of_middle|auto|done|auto].
    + exists t. rewrite E. split_and!; [apply elem_of_app; right; by right|done|done|done].
Qed.

Lemma keeps_insert_token h d : d.["tokenHash"] <> PStr h -> keeps h (insert_one Tokens d).
Proof.
  intros Hh db Hok. apply wp_insert; [|intros; split; [done|by apply later_refl]].
  intros db' Hno E Ho. destruct Hok as [H1 H2 H3 H4 H5].
  assert (Eu : content db' Users = content db Users) by by apply Ho.
  assert (Es : content db' UserSessions = content db UserSessions) by by apply Ho.
  split; [split; rewrite ?Eu, ?Es, ?E; try done|split; rewrite ?Eu, ?Es, ?E; [|done|]].
  - rewrite map_app. apply NoDup_app. split_and!; [done| |apply NoDup_singleton].
    intros x (t & -> & Ht)%list_elem_of_fmap Hx%list_elem_of_singleton. specialize (Hno t Ht). cbn in Hno.
    apply orb_false_iff in Hno as [Hno _]. apply fld_false in Hno. congruence.
  - intros u Hu. exists u. split; [done|]. by apply grows_refl, H2.
  - intros t [Ht| ->]%elem_of_snoc Hx; [eauto 10|congruence].
Qed.

(** ** Every operation keeps the invariant *)

(** The updates of an account touch neither its identifier nor its version. *)
Definition mild (updates : pydict) : Prop := Forall (fun kv => kv.1 <> "id" /\ kv.1 <> "authVersion") updates.

Lemma set_all_outside updates d k : Forall (fun kv : string * pyval => kv.1 <> k) updates -> (set_all updates d).[k] = d.[k].
Proof.
  unfold set_all. intros Hf. revert d. induction Hf as [|[k' v] updates Hk Hf IH]; intros d; cbn; [done|].
  rewrite IH. apply get_set_ne. intros ->. by apply Hk.
Qed.

Lemma mild_get updates d k : mild updates -> k = "id" \/ k = "authVersion" -> (set_all updates d).[k] = d.[k].
Proof. intros Hm Hk. apply set_all_outside. eapply Forall_impl; [exact Hm|]. cbn. intros kv [? ?]. by destruct Hk as [-> | ->]. Qed.

(** The fields of a [UserPatch] and what [edit] adds. *)
Definition PATCH_FIELDS : list string := ["role"; "displayName"; "scopes"; "enabled"; "permissionsExpiresOn"].

Definition patched (fields : list string) (values : pydict) : Prop := Forall (fun kv => kv.1 ∈ fields) values.

Lemma patched_set fields values k v : patched fields values -> k ∈ fields -> patched fields (dict_set values k v).
Proof.
  intros Hp Hk. induction Hp as [|[k' v'] values Hkv Hp IH]; [by repeat constructor|].
  unfold dict_set; fold dict_set. destruct (decide (k = k')); by constructor.
Qed.

Lemma edit_values_mild values values' : patched PATCH_FIELDS values -> edit_values values = Ok values' -> mild values'.
Proof.
  intros Hp. assert (H1 : patched ("isAdmin" :: PATCH_FIELDS) values).
  { eapply Forall_impl; [exact Hp|]. intros kv Hkv. by right. }
  clear Hp. unfold edit_values, edit_role, edit_scopes, edit_name, edit_enabled. cbn.
  intros E. enough (H2 : patched ("isAdmin" :: PATCH_FIELDS) values').
  { eapply Forall_impl; [exact H2|]. intros [k v] Hkv. cbn in *. split; intros ->; revert Hkv; by apply (bool_decide_unpack _). }
  assert (Hset : forall k v d, k ∈ ["isAdmin"; "scopes"; "displayName"] -> patched ("isAdmin" :: PATCH_FIELDS) d ->
    patched ("isAdmin" :: PATCH_FIELDS) (dict_set d k v)).
  { intros k v d Hk Hd. apply patched_set; [done|]. revert Hk. rewrite !elem_of_cons, elem_of_nil. unfold PATCH_FIELDS.
    rewrite !elem_of_cons. tauto. }
  repeat (case_match; cbn in E; try done); simplify_eq; repeat (apply Hset; [repeat constructor|]); done.
Qed.

Definition fresh_op (h : string) (o : account_op) : Prop :=
  match o with
  | Login _ _ t _ _ _ _ _ _ | Password _ _ t _ _ _ _ _ _ _ => token_digest t <> h
  | CreateToken _ _ _ _ _ _ t _ _ _ _ _ | RotateToken _ _ _ _ t _ _ _ _ _ _ => token_digest t <> h
  | Edit _ _ _ values _ _ _ => patched PATCH_FIELDS values
  | ClaimAccount _ counter => counter ∈ CLAIM_COUNTERS
  | _ => True
  end.

Ltac keeps_step :=
  match goal with
  | |- keeps _ (st_bind _ _) => apply keeps_bind; [|intros ?]
  | |- keeps _ (st_ret _) => apply keeps_ret
  | |- keeps _ (st_raise _) => apply keeps_raise
  | |- keeps _ (raise_if _ _) => apply keeps_raise_if
  | |- keeps _ (pure _) => apply keeps_pure
  | |- keeps _ (find_one _ _) => apply keeps_find_one
  | |- keeps _ (find_all _ _) => apply keeps_find_all
  | |- keeps _ (transaction _ _) => apply keeps_transaction
  | |- keeps _ (update_one _ _ _) => apply keeps_update_one
  | |- keeps _ (find_one_and_update_before _ _ _) => apply keeps_before; intros ?
  | |- keeps _ (find_one_and_update Users _ (dict_inc _ 1)) => apply keeps_counter; done
  | |- keeps _ (find_one_and_update _ _ _) => apply keeps_update_other; by apply (bool_decide_unpack _)
  | |- keeps _ (update_many _ _ _) => apply keeps_update_many_other; by apply (bool_decide_unpack _)
  | |- keeps _ (insert_one Audit _) => apply keeps_insert_other; by apply (bool_decide_unpack _)
  | |- keeps _ (delete_one UserSessions _) => apply keeps_delete_session
  | |- keeps _ (delete_one _ _) => apply keeps_delete_other; by apply (bool_decide_unpack _)
  | |- keeps _ (find_one_and_delete UserSessions _) => apply keeps_find_and_delete_session
  | |- keeps _ (delete_many UserSessions _) => apply keeps_delete_sessions
  | |- keeps _ (audit _ _ _ _ _) => unfold audit
  | |- keeps _ (audit_event _ _ _ _ _ _) => unfold audit_event
  | |- keeps _ (audit_owner _ _ _ _ _ _) => unfold audit_owner
  | |- keeps _ (authorize _ _) => apply keeps_raise_if
  | |- keeps _ (authorize_user_target _ _) => unfold authorize_user_target
  | |- keeps _ (if ?b then _ else _) => destruct b
  | |- keeps _ (match ?x with _ => _ end) => destruct x
  end.

Lemma keeps_manager h identity target now : keeps h (claim_account_manager identity target now).
Proof. unfold claim_account_manager, is_admin. repeat keeps_step. Qed.

Lemma keeps_audited h {A} actor action target context (m : dbm A) now f : keeps h m -> keeps h (audited_mutation actor action target context m now f).
Proof.
  intros Hm. unfold audited_mutation. apply keeps_catch; [repeat keeps_step; done|]. intros [] k; intros [= <-]; apply keeps_raise.
Qed.

Lemma keeps_update h identity identifier version updates action context now f :
  mild updates -> keeps h (update_user identity identifier version updates action context now f).
Proof.
  intros Hm. unfold update_user, get_user. repeat keeps_step. apply keeps_audited. unfold update_commit.
  repeat first [apply keeps_manager | keeps_step | apply keeps_update_user].
  intros d [v Hv]. assert (Hm' : mild (updates ++ [("updatedAt", PTime (Aware now))])) by (apply Forall_app; split; [done|by repeat constructor]).
  apply (grows_inc d _ v); [|done|].
  - rewrite !get_inc_ne by done. by apply mild_get; [|left].
  - unfold dict_inc at 1. rewrite get_set_eq, get_inc_ne by done. rewrite mild_get by auto. by rewrite Hv.
Qed.

Lemma keeps_for_each h {A} (items : list A) f : (forall a, keeps h (f a)) -> keeps h (for_each items f).
Proof. intros Hf. induction items as [|a items IH]; cbn; [apply keeps_ret|]. apply keeps_bind; [apply Hf|done]. Qed.

Lemma keeps_mark h identifier timestamp version : keeps h (mark_resource_deletion identifier timestamp version).
Proof.
  unfold mark_resource_deletion, release_address, mark_tasks, cancel_starts. repeat keeps_step.
Qed.

Lemma keeps_delete h identity identifier version action context now f : keeps h (delete_user identity identifier version action context now f).
Proof.
  unfold delete_user, get_user. repeat keeps_step. apply keeps_audited.
  unfold delete_commit, transfer_target, claim_active_user_for_resource_write, dispose, transfer.
  repeat first [apply keeps_manager | apply keeps_mark | apply keeps_for_each; intros ? | keeps_step | apply keeps_update_user].
  intros d [v Hv]. unfold set_all. cbn [foldl fst snd]. apply (grows_inc d _ v); [by dget|done|].
  rewrite get_inc_ne by done. unfold dict_inc at 1. rewrite get_set_eq. dget. by rewrite Hv.
Qed.

Lemma keeps_protect h identity user_id now : keeps h (protect_service_account identity user_id now).
Proof. unfold protect_service_account. repeat first [apply keeps_manager | keeps_step]. Qed.

Lemma keeps_token_change h actor_id identifier version changes action event_id context now :
  Forall (fun kv => kv.1 ∉ ["id"; "revoked"; "version"]) changes ->
  Forall (fun kv => kv.1 = "tokenHash" -> kv.2 <> PStr h) changes ->
  keeps h (token_change actor_id identifier version changes action event_id context now).
Proof.
  intros Hk Hh. unfold token_change. apply keeps_bind; [|intros; repeat keeps_step]. apply keeps_update_token.
  assert (Hother : forall k, k ∈ ["id"; "revoked"; "version"] -> Forall (fun kv : string * pyval => kv.1 <> k) changes).
  { intros k Hin. eapply Forall_impl; [exact Hk|]. intros [k' v] Hn. cbn in *. by intros ->. }
  intros t. rewrite !get_inc_ne by done. split; [apply set_all_outside, Hother; set_solver|].
  split; [|rewrite (set_all_outside changes t "revoked"); [done|apply Hother; set_solver]].
  clear Hk Hother. unfold set_all. revert t. induction Hh as [|[k v] changes Hkv Hh IH]; intros t; cbn; [done|].
  intros E%IH. destruct (decide (k = "tokenHash")) as [->|Hn]; [rewrite get_set_eq in E; by destruct (Hkv eq_refl)|].
  by rewrite get_set_ne in E by congruence.
Qed.

Lemma keeps_guard h identifier version identity now : keeps h (token_guard identifier version identity now).
Proof. unfold token_guard, get_token. repeat first [apply keeps_protect | keeps_step]. Qed.

Lemma keeps_token_recover h identifier action event_id message confirm readable :
  keeps h (token_recover identifier action event_id message confirm readable).
Proof. unfold token_recover. repeat keeps_step. Qed.

Lemma keeps_token_commit h confirmation f readable m : keeps h m -> keeps h (token_commit confirmation f readable m).
Proof.
  intros Hm. unfold token_commit. apply keeps_catch; [by apply keeps_transaction|]. intros e k. destruct (is_pymongo e); [|done].
  intros [= <-]. repeat keeps_step.
Qed.

Lemma drop_session_wp h auth_version user_id old_token password_hash now db :
  accounts_ok db ->
  wp (drop_session auth_version user_id old_token password_hash now) (fun _ db' => accounts_ok db' /\ later h db db'
    /\ content db' Users = content db Users /\ forall s, s ∈ content db' UserSessions -> s ∈ content db UserSessions) db.
Proof.
  intros Hok.
  assert (Hleave : forall l d r db', content db UserSessions = l ++ d :: r -> content db' UserSessions = l ++ r ->
    (forall c, c <> UserSessions -> content db' c = content db c) ->
    accounts_ok db' /\ later h db db' /\ content db' Users = content db Users /\ forall s, s ∈ content db' UserSessions -> s ∈ content db UserSessions).
  { intros l d r db' E E' Ho. assert (Hl : sublist (l ++ r) (content db UserSessions)) by (rewrite E; apply sublist_app; [done|by apply sublist_cons]).
    destruct (sessions_leave h _ _ _ Hl E' Ho Hok). split_and!; [done|done|by apply Ho|]. rewrite E'. intros s. by apply sublist_subseteq. }
  assert (Hsame : accounts_ok db /\ later h db db /\ content db Users = content db Users /\ forall s, s ∈ content db UserSessions -> s ∈ content db UserSessions)
    by (split_and!; [done|by apply later_refl|done|done]).
  unfold drop_session. destruct password_hash as [hash|].
  - apply wp_bind, wp_find_and_delete; cbn [on_ok]; [|intros _; by apply wp_raise].
    intros l d r db' _ E E' Ho. apply wp_ret. by eapply Hleave.
  - destruct (String.eqb old_token ""); [by apply wp_ret|].
    apply wp_bind, wp_delete; cbn [on_ok]; [|intros _; by apply wp_ret]. intros l d r db' _ E E' Ho. apply wp_ret. by eapply Hleave.
Qed.

(** The claim of the account: it stays itself, one version further for a new password. *)
Lemma claim_session_fields password_hash now d v :
  d.["authVersion"] = PInt v ->
  (claim_session password_hash now d).["id"] = d.["id"]
  /\ (claim_session password_hash now d).["authVersion"] = PInt (if password_hash is Some _ then v + 1 else v).
Proof.
  intros Hv. unfold claim_session, set_all. destruct password_hash as [hash|]; cbn [foldl fst snd]; dget; [|done].
  split; [done|]. unfold dict_inc at 1. dget. by rewrite Hv.
Qed.

Lemma session_document_fields token user_id auth_version now seconds :
  let d := session_document token user_id auth_version now seconds in
  d.["tokenHash"] = PStr (token_digest token) /\ d.["userId"] = user_id /\ d.["authVersion"] = auth_version.
Proof. done. Qed.

(** What a committed rotation leaves: the account at its version and, of the sessions, some
    of the old ones and the new one. *)
Definition rotated (verified : pydict) (token : string) (password_hash : option string) (cur : pydict) (db db' : database) : Prop :=
  exists d v, d ∈ content db Users /\ d.["id"] = verified.["id"] /\ d.["authVersion"] = PInt v
    /\ cur ∈ content db' Users /\ cur.["id"] = verified.["id"] /\ cur.["authVersion"] = PInt (if password_hash is Some _ then v + 1 else v)
    /\ (forall s, s ∈ content db' UserSessions -> s ∈ content db UserSessions \/ s.["tokenHash"] = PStr (token_digest token)).

(** A session of the account that the transaction has just claimed. *)
Lemma rotate_commit_wp h verified old_token token password_hash event_id context now seconds db :
  token_digest token <> h -> accounts_ok db ->
  wp (rotate_commit verified old_token token password_hash event_id context now seconds) (fun r db' => accounts_ok db' /\ later h db db'
    /\ match r with Ok cur => rotated verified token password_hash cur db db' | Raise _ => True end) db.
Proof.
  intros Hh Hok. unfold rotate_commit.
  apply wp_bind, wp_update; cbn [on_ok]; [|intros _; apply wp_raise; split_and!; [done|by apply later_refl|done]].
  intros d db1 Hu. pose proof Hu as (Hq & (l & r & E & E1) & Ho1). cbn beta in Hq. rewrite !andb_true_iff, !fld_true in Hq.
  destruct Hq as [[[[Hid Hver] _] _] _].
  assert (Hd : d ∈ content db Users) by (rewrite E; apply elem_of_middle).
  destruct (ac_versions db Hok d Hd) as [v Hv]. destruct (claim_session_fields password_hash now d v Hv) as [Hci Hcv].
  assert (Hg : versioned d -> grows d (claim_session password_hash now d)).
  { intros _. split; [done|]. exists v, (if password_hash is Some _ then v + 1 else v). split_and!; [done|done|destruct password_hash; lia]. }
  destruct (user_update h _ _ _ _ _ Hu Hg Hok) as [Hok1 L1].
  set (cur := claim_session password_hash now d) in *.
  assert (Hcur : cur ∈ content db1 Users) by (rewrite E1; apply elem_of_middle).
  apply wp_bind. eapply wp_mono; [by apply drop_session_wp|]. intros [[]|e] db2 (Hok2 & L2 & Eu2 & Hs2); cbn [on_ok];
    [|split_and!; [done|by eapply later_trans|done]].
  set (version := next_version verified _).
  destruct (session_document_fields token verified.["id"] version now seconds) as (F1 & F2 & F3).
  set (doc := session_document _ _ _ _ _) in *. clearbody doc.
  assert (Hn : not_after doc cur).
  { split; [congruence|]. exists (if password_hash is Some _ then v + 1 else v), (if password_hash is Some _ then v + 1 else v). split_and!; [|done|done].
    rewrite F3. unfold version, next_version. rewrite <- Hver, Hv. by destruct password_hash. }
  apply wp_bind. eapply wp_mono; [apply (session_insert h doc cur); [congruence|by rewrite Eu2|done|done]|].
  intros [[]|e] db3 (Hok3 & L3 & Hins & Hraise); cbn [on_ok].
  2:{ split_and!; [done|by eapply later_trans, later_trans|done]. }
  destruct (Hins eq_refl) as [Es3 Eu3]. apply wp_bind. unfold audit_event.
  apply wp_insert; cbn [on_ok]; [|intros; split_and!; [done|by eapply later_trans, later_trans|done]].
  intros db4 _ _ Ho4. assert (Hsame : forall c, c ∈ credentials -> content db4 c = content db3 c).
  { intros c Hc. apply Ho4. intros ->. revert Hc. by apply (bool_decide_unpack _). }
  destruct (same_credentials h _ _ Hsame Hok3) as [Hok4 L4]. apply wp_ret.
  split_and!; [done|by eapply later_trans, later_trans, later_trans|]. exists d, v.
  rewrite (Hsame Users), (Hsame UserSessions), Eu3, Es3, Eu2 by (by apply (bool_decide_unpack _)). split_and!; try done; [congruence|].
  intros s [Hs| ->]%elem_of_snoc; [left|by right]. rewrite <- Ho1 by done. auto.
Qed.

Lemma recover_session_wp readable document event_id now db :
  wp (_recover_session readable document event_id now) (fun r db' => db' = db /\ forall c, r = Ok (Some c) ->
    exists s, s ∈ content db UserSessions /\ s.["tokenHash"] = document.["tokenHash"]) db.
Proof.
  unfold _recover_session. destruct readable; cbn [negb]; [|apply wp_ret; by split].
  apply wp_bind, wp_find_one; cbn [on_ok]; [|intros _; apply wp_ret; by split].
  intros s Hs Hq. rewrite !andb_true_iff, !fld_true in Hq. destruct Hq as [[[Hh _] _] _].
  apply wp_bind, wp_find_one; cbn [on_ok]; [|intros _; apply wp_ret; by split]. intros a _ _.
  apply wp_find_one; intros; split; [done|eauto|done|done].
Qed.

Lemma rotate_session_wp h verified old_token token password_hash event_id context now seconds f readable db :
  token_digest token <> h -> accounts_ok db ->
  wp (rotate_session verified old_token token password_hash event_id context now seconds f readable) (fun r db' =>
    accounts_ok db' /\ later h db db'
    /\ forall c, r = Ok c -> (forall s, s ∈ content db UserSessions -> s.["tokenHash"] <> PStr (token_digest token)) ->
         exists cur, rotated verified token password_hash cur db db') db.
Proof.
  intros Hh Hok. unfold rotate_session. set (document := session_document _ _ _ _ _).
  assert (Hdoc : document.["tokenHash"] = PStr (token_digest token)) by done. clearbody document.
  apply wp_catch, wp_transaction. eapply wp_mono; [by apply (rotate_commit_wp h)|].
  assert (Hrec : forall db', accounts_ok db' -> later h db db' ->
    ((exists cur, rotated verified token password_hash cur db db') \/ db' = db) ->
    wp (let! current := _recover_session readable document event_id now in
        match current with None => st_raise (Http 503 "登录或改密提交结果未知，请重新登录确认；未签发新会话") | Some current => st_ret current end)
      (fun r db' => accounts_ok db' /\ later h db db'
        /\ forall c, r = Ok c -> (forall s, s ∈ content db UserSessions -> s.["tokenHash"] <> PStr (token_digest token)) ->
             exists cur, rotated verified token password_hash cur db db') db').
  { intros db' Hok' L' Hor. apply wp_bind. eapply wp_mono; [apply recover_session_wp|]. intros [[c|]|e] db2 [-> Hc]; cbn [on_ok]; [| |done].
    - apply wp_ret. split_and!; [done|done|]. intros c' _ Hfresh. destruct Hor as [Hor| ->]; [done|].
      destruct (Hc c eq_refl) as (s & Hs & Es). by destruct (Hfresh s Hs); rewrite Es.
    - by apply wp_raise. }
  intros [cur|e] db1 (Hok1 & L1 & Hr).
  - destruct f as [|[]]; [split_and!; eauto|cbn [is_pymongo]; apply Hrec; eauto|].
    cbn [is_pymongo]. apply Hrec; [done|by apply later_refl|by right].
  - destruct (is_pymongo e); [apply Hrec; [done|by apply later_refl|by right]|]. split_and!; [done|by apply later_refl|done].
Qed.

Lemma keeps_weaken h {A} (m : dbm A) (Q : result exn A -> database -> database -> Prop) :
  (forall db, accounts_ok db -> wp m (fun r db' => accounts_ok db' /\ later h db db' /\ Q r db db') db) -> keeps h m.
Proof. intros Hm db Hok. eapply wp_mono; [by apply Hm|]. by intros r db' (? & ? & _). Qed.

Lemma keeps_rotate h verified old_token token password_hash event_id context now seconds f readable :
  token_digest token <> h -> keeps h (rotate_session verified old_token token password_hash event_id context now seconds f readable).
Proof. intros Hh. eapply keeps_weaken. intros db Hok. by apply rotate_session_wp. Qed.

Lemma keeps_bind_pure h {A B} (r : result exn A) (k : A -> dbm B) : (forall a, r = Ok a -> keeps h (k a)) -> keeps h (st_bind (pure r) k).
Proof. intros Hk. destruct r as [a|e]; [exact (Hk a eq_refl)|apply keeps_raise]. Qed.

Lemma keeps_perform h o : fresh_op h o -> keeps h (perform o).
Proof.
  intros Hf. destruct o; cbn [perform fresh_op] in *; unfold done_.
  - apply keeps_bind; [by apply keeps_rotate|intros; apply keeps_ret].
  - apply keeps_bind; [by apply keeps_rotate|intros; apply keeps_ret].
  - apply keeps_bind; [|intros; apply keeps_ret]. unfold revoke_session, revoke_commit. apply keeps_catch; [repeat keeps_step|].
    intros e k. destruct (is_pymongo e); [|done]. intros [= <-]. repeat keeps_step.
  - apply keeps_bind; [|intros; apply keeps_ret]. unfold edit_user.
    apply keeps_bind; [repeat keeps_step|]. intros _. apply keeps_bind_pure. intros v Hv. apply keeps_update. by eapply edit_values_mild.
  - apply keeps_bind; [|intros; apply keeps_ret]. unfold reset_password. repeat keeps_step. apply keeps_update. by repeat constructor.
  - apply keeps_bind; [|intros; apply keeps_ret]. unfold create_user. repeat keeps_step. apply keeps_catch.
    + apply keeps_audited. apply keeps_bind; [apply keeps_manager|]. intros _.
      apply keeps_bind; [apply keeps_insert_user; by exists 1|intros; apply keeps_ret].
    + intros [] k; intros [= <-]; apply keeps_raise.
  - apply keeps_bind; [apply keeps_delete|intros; apply keeps_ret].
  - apply keeps_bind; [|intros; apply keeps_ret]. unfold create_service_token. repeat keeps_step. apply keeps_token_commit.
    repeat first [apply keeps_protect | apply keeps_insert_token | keeps_step].
    unfold new_token. cbn. intros [= E]. done.
  - apply keeps_bind; [|intros; apply keeps_ret]. unfold revoke_service_token, get_token. apply keeps_token_commit.
    repeat first [apply keeps_protect | keeps_step | apply keeps_update_token]. intros t. dget. split_and!; done.
  - apply keeps_bind; [|intros; apply keeps_ret]. unfold update_service_token. apply keeps_bind; [apply keeps_raise_if|]. intros _.
    apply keeps_catch.
    + repeat first [apply keeps_guard | apply keeps_protect | apply keeps_token_change | keeps_step];
        unfold token_updates; destruct (tp_name b), (tp_user b), (tp_days b); cbn; repeat constructor; cbn; try done; set_solver.
    + intros e k. destruct (is_pymongo e); [|done]. intros [= <-]. apply keeps_token_recover.
  - apply keeps_bind; [|intros; apply keeps_ret]. unfold rotate_service_token. apply keeps_catch.
    + repeat first [apply keeps_guard | apply keeps_token_change | keeps_step]; repeat constructor; cbn; set_solver.
    + intros e k. destruct (is_pymongo e); [|done]. intros [= <-]. apply keeps_token_recover.
  - apply keeps_bind; [|intros; apply keeps_ret]. apply keeps_update_one, keeps_counter; intros ->; revert Hf; by apply (bool_decide_unpack _).
  - apply keeps_bind; [apply keeps_delete_sessions|intros; apply keeps_ret].
Qed.

(** ** What ends a login *)

(** No session, or token, with the digest [h] lets anybody in. *)
Definition dead_session (h : string) (db : database) : Prop :=
  forall s, s ∈ content db UserSessions -> s.["tokenHash"] = PStr h ->
    exists u v w, u ∈ content db Users /\ s.["userId"] = u.["id"] /\ s.["authVersion"] = PInt v /\ u.["authVersion"] = PInt w /\ v < w.

Definition dead_token (h : string) (db : database) : Prop :=
  forall t, t ∈ content db Tokens -> t.["tokenHash"] = PStr h -> t.["revoked"] <> PBool false.

Lemma dead_session_later h db db' : dead_session h db -> later h db db' -> dead_session h db'.
Proof.
  intros Hd [Hu Hs _] s Hin Hh. destruct (Hd s (Hs s Hin Hh) Hh) as (u & v & w & Hu1 & Hi & Hv & Hw & Hlt).
  destruct (Hu u Hu1) as (u' & Hu' & Hid & v' & w' & Hv' & Hw' & Hle). exists u', v, w'. split_and!; [done|congruence|done|done|].
  rewrite Hw in Hv'. injection Hv' as <-. lia.
Qed.

Lemma dead_token_later h db db' : dead_token h db -> later h db db' -> dead_token h db'.
Proof. intros Hd [_ _ Ht] t' Hin Hh. destruct (Ht t' Hin Hh) as (t & Ht1 & Hh1 & _ & Hr). apply Hr, (Hd t); done. Qed.

Lemma dead_session_refused token now db :
  accounts_ok db -> dead_session (token_digest token) db -> session_identity token now db = (Raise required_login, db).
Proof.
  intros Hok Hd.
  enough (Hw : wp (session_identity token now) (fun r db' => r = Raise required_login /\ db' = db) db).
  { unfold wp in Hw. destruct (session_identity token now db). by destruct Hw as [-> ->]. }
  unfold session_identity. destruct (String.eqb token ""); [by apply wp_raise|].
  apply wp_bind, wp_find_one; cbn [on_ok]; [|intros _; by apply wp_raise].
  intros s Hs Hq. unfold session_of in Hq. rewrite andb_true_iff, fld_true in Hq. destruct Hq as [Hh _].
  destruct (Hd s Hs Hh) as (u & v & w & Hu & Hi & Hv & Hw & Hlt).
  apply wp_bind, wp_find_one; cbn [on_ok]; [|intros _; by apply wp_raise].
  intros u' Hu' Hq'. unfold active_user in Hq'. rewrite !andb_true_iff, !fld_true in Hq'. destruct Hq' as [[[Hid _] _] Hver].
  assert (u' = u) as -> by (apply (NoDup_map_eq (fun d => d.["id"]) (content db Users)); [apply (ac_users db Hok)|done|done|congruence]).
  rewrite Hv, Hw in Hver. injection Hver as ->. lia.
Qed.

Lemma dead_token_refused bootstrap token now db :
  token <> bootstrap -> dead_token (token_digest token) db -> authenticate bootstrap token now db = (Raise required_login, db).
Proof.
  intros Hb Hd.
  enough (Hw : wp (authenticate bootstrap token now) (fun r db' => r = Raise required_login /\ db' = db) db).
  { unfold wp in Hw. destruct (authenticate bootstrap token now db). by destruct Hw as [-> ->]. }
  unfold authenticate. destruct (String.eqb_spec token bootstrap) as [|_]; [done|]. rewrite andb_false_r.
  apply wp_bind, wp_find_one; cbn [on_ok]; [|intros _; by apply wp_raise].
  intros t Ht Hq. rewrite andb_true_iff, !fld_true in Hq. destruct Hq as [Hh Hr]. by destruct (Hd t Ht Hh).
Qed.

(** Every session of the account is behind it. *)
Definition past (identifier : pyval) (db : database) : Prop :=
  forall s, s ∈ content db UserSessions -> s.["userId"] = identifier ->
    exists u v w, u ∈ content db Users /\ s.["userId"] = u.["id"] /\ s.["authVersion"] = PInt v /\ u.["authVersion"] = PInt w /\ v < w.

(** The sessions with a digest belong to one account. *)
Definition sessions_of (h : string) (identifier : pyval) (db : database) : Prop :=
  forall s, s ∈ content db UserSessions -> s.["tokenHash"] = PStr h -> s.["userId"] = identifier.

Definition tokens_of (h : string) (identifier : pyval) (db : database) : Prop :=
  forall t, t ∈ content db Tokens -> t.["tokenHash"] = PStr h -> t.["id"] = identifier.

Lemma past_dead h identifier db db' : sessions_of h identifier db -> later h db db' -> past identifier db' -> dead_session h db'.
Proof. intros Ho L Hp s Hs Hh. apply Hp; [done|]. apply Ho; [by apply (la_sessions h db db')|done]. Qed.

(** The computation ends the sessions of the account when it returns. *)
Definition bumps (h : string) (identifier : pyval) {A} (m : dbm A) : Prop :=
  forall db, accounts_ok db -> wp m (fun r db' => accounts_ok db' /\ later h db db' /\ (is_ok r = true -> past identifier db')) db.

Lemma bumps_raise h i {A} e : bumps h i (st_raise e : dbm A).
Proof. intros db Hok. apply wp_raise. split_and!; [done|by apply later_refl|done]. Qed.

Lemma bumps_after h i {A B} (m : dbm A) (k : A -> dbm B) : keeps h m -> (forall a, bumps h i (k a)) -> bumps h i (st_bind m k).
Proof.
  intros Hm Hk db Hok. apply wp_bind. eapply wp_mono; [by apply Hm|]. intros [a|e] db1 [Hok1 L1]; cbn [on_ok]; [|by split_and!].
  eapply wp_mono; [by apply Hk|]. intros r db2 (Hok2 & L2 & Hp). split_and!; [done|by eapply later_trans|done].
Qed.

(** What comes after the end writes none of the credentials. *)
Lemma bumps_before h i {A B} (m : dbm A) (k : A -> dbm B) :
  bumps h i m -> (forall a db, wp (k a) (fun _ db' => forall c, c ∈ credentials -> content db' c = content db c) db) -> bumps h i (st_bind m k).
Proof.
  intros Hm Hk db Hok. apply wp_bind. eapply wp_mono; [by apply Hm|]. intros [a|e] db1 (Hok1 & L1 & Hp); cbn [on_ok]; [|by split_and!].
  eapply wp_mono; [apply Hk|]. intros r db2 Hsame. destruct (same_credentials h _ _ Hsame Hok1) as [Hok2 L2].
  split_and!; [done|by eapply later_trans|]. intros _. specialize (Hp eq_refl). unfold past.
  rewrite (Hsame Users), (Hsame UserSessions) by (by apply (bool_decide_unpack _)). exact Hp.
Qed.

Lemma bumps_audited h i {A} actor action target context (m : dbm A) now f :
  bumps h i m -> bumps h i (audited_mutation actor action target context m now f).
Proof.
  intros Hm. unfold audited_mutation. set (m' := let! result := m in _).
  assert (Hm' : bumps h i m').
  { apply bumps_before; [done|]. intros a db. apply wp_bind, wp_audit. intros d db' _ _ Ho. apply wp_ret. intros c Hc. apply Ho.
    intros ->. revert Hc. by apply (bool_decide_unpack _). }
  intros db Hok. apply wp_catch, wp_transaction. eapply wp_mono; [by apply Hm'|]. intros [a|e] db1 (Hok1 & L1 & Hp).
  - destruct f as [|[]]; [done| |]; apply wp_raise; split_and!; [done|done|done|done|by apply later_refl|done].
  - destruct e; try apply wp_raise; (split_and!; [done|by apply later_refl|done]).
Qed.

(** The change of the account itself. *)
Lemma bumps_change h identifier q f (k : option pydict -> dbm pydict) :
  (forall d, q d = true -> d.["id"] = identifier) ->
  (forall d v, d.["authVersion"] = PInt v -> (f d).["id"] = d.["id"] /\ (f d).["authVersion"] = PInt (v + 1)) ->
  (forall d, exists e, k None = st_raise e /\ k (Some d) = st_ret d) ->
  bumps h identifier (st_bind (find_one_and_update Users q f) k).
Proof.
  intros Hq Hf Hk db Hok. destruct (Hk []) as (e & Hnone & _). apply wp_bind, wp_update; cbn [on_ok].
  2:{ intros _. rewrite Hnone. by apply bumps_raise. }
  intros d db1 Hu. destruct (Hk (f d)) as (_ & _ & ->). apply wp_ret.
  pose proof Hu as (Hqd & (l & r & E & E1) & Ho). assert (Hd : d ∈ content db Users) by (rewrite E; apply elem_of_middle).
  destruct (ac_versions db Hok d Hd) as [v Hv]. destruct (Hf d v Hv) as [Hi Hv1].
  assert (Hg : versioned d -> grows d (f d)) by (intros _; by apply (grows_inc d _ v)).
  destruct (user_update h _ _ _ _ _ Hu Hg Hok) as [Hok1 L1]. split_and!; [done|done|]. intros _ s Hs Hid.
  rewrite Ho in Hs by done. destruct (ac_sessions db Hok s Hs) as (u & Hu1 & Hui & v1 & w1 & Hv1' & Hw1 & Hle).
  assert (u = d) as -> by (apply (NoDup_map_eq (fun d => d.["id"]) (content db Users));
    [apply (ac_users db Hok)|done|done|rewrite <- Hui, Hid; symmetry; by apply Hq]).
  rewrite Hv in Hw1. injection Hw1 as <-. exists (f d), v1, (v + 1). split_and!; [rewrite E1; apply elem_of_middle|congruence|done|done|lia].
Qed.

Lemma changeable_id identifier version d : changeable identifier version d = true -> d.["id"] = identifier.
Proof. unfold changeable. rewrite !andb_true_iff, !fld_true. tauto. Qed.

Lemma bumps_update h identity identifier version updates action context now f :
  mild updates -> bumps h identifier (update_user identity identifier version updates action context now f).
Proof.
  intros Hm. unfold update_user, get_user.
  apply bumps_after; [apply keeps_raise_if|intros _]. apply bumps_after; [repeat keeps_step|intros old].
  apply bumps_after; [repeat keeps_step|intros _]. apply bumps_audited. unfold update_commit.
  apply bumps_after; [apply keeps_find_one|intros target]. apply bumps_after; [apply keeps_manager|intros _].
  apply bumps_change; [apply changeable_id| |intros d; by eexists].
  intros d v Hv. assert (Hm' : mild (updates ++ [("updatedAt", PTime (Aware now))])) by (apply Forall_app; split; [done|by repeat constructor]).
  split.
  - rewrite !get_inc_ne by done. by apply mild_get; [|left].
  - unfold dict_inc at 1. rewrite get_set_eq, get_inc_ne by done. rewrite mild_get by auto. by rewrite Hv.
Qed.

Lemma bumps_delete h identity identifier version action context now f :
  bumps h identifier (delete_user identity identifier version action context now f).
Proof.
  unfold delete_user, get_user.
  apply bumps_after; [apply keeps_raise_if|intros _]. apply bumps_after; [repeat keeps_step|intros old].
  apply bumps_after; [repeat keeps_step|intros _]. apply bumps_audited. unfold delete_commit.
  apply bumps_after; [apply keeps_find_one|intros target]. apply bumps_after; [apply keeps_manager|intros _].
  apply bumps_after; [apply keeps_find_all|intros resources]. apply bumps_after; [apply keeps_raise_if|intros _].
  apply bumps_after; [unfold transfer_target, claim_active_user_for_resource_write; repeat keeps_step|intros heir].
  apply bumps_after.
  { unfold dispose, transfer. repeat first [apply keeps_mark | apply keeps_for_each; intros ? | keeps_step]. }
  intros _. apply bumps_change; [apply changeable_id| |intros d; by eexists].
  intros d v Hv. unfold set_all. cbn [foldl fst snd]. split; [by dget|].
  rewrite get_inc_ne by done. unfold dict_inc at 1. rewrite get_set_eq. dget. by rewrite Hv.
Qed.

(** A logout that returns leaves no session with the digest. *)
Lemma revoke_session_wp token event_id context now f readable db :
  accounts_ok db ->
  wp (revoke_session token event_id context now f readable) (fun r db' => is_ok r = true ->
    forall s, s ∈ content db' UserSessions -> s.["tokenHash"] <> PStr (token_digest token)) db.
Proof.
  intros Hok. unfold revoke_session, revoke_commit.
  set (q := fun d : pydict => fld d "tokenHash" (PStr (token_digest token))).
  assert (Hno : forall l, no_match q l -> forall s, s ∈ l -> s.["tokenHash"] <> PStr (token_digest token)).
  { intros l Hl s Hs. by apply fld_false, Hl. }
  set (P := fun (r : result exn pyval) (db' : database) => is_ok r = true ->
    forall s, s ∈ content db' UserSessions -> s.["tokenHash"] <> PStr (token_digest token)).
  assert (Hrec : forall db', wp (if negb readable then st_raise (Http 503 "退出提交结果未知，请重试退出；未清除浏览器凭证")
    else let! event := find_one Audit (fun d => fld d "_id" (PStr event_id)) in
         match event with
         | None => st_raise (Http 503 "退出提交结果未知，请重试退出；未清除浏览器凭证")
         | Some event => let! remaining := find_one UserSessions q in
                         match remaining with None => st_ret event.["actor"] | Some _ => st_raise (Http 503 "退出提交结果未知，请重试退出；未清除浏览器凭证") end
         end) P db').
  { intros db'. destruct readable; cbn [negb]; [|by apply wp_raise].
    apply wp_bind, wp_find_one; cbn [on_ok]; [|intros _; by apply wp_raise]. intros event _ _.
    apply wp_bind, wp_find_one; cbn [on_ok]; [intros; by apply wp_raise|]. intros Hl. apply wp_ret. intros _. by apply Hno. }
  apply wp_catch, wp_transaction, wp_bind, wp_find_and_delete; cbn [on_ok].
  2:{ intros Hl. apply wp_ret. destruct f as [|b]; [intros _; by apply Hno|]. cbn [is_pymongo]. apply Hrec. }
  intros l d r db1 Hq E E1 Ho. apply wp_bind. unfold audit_event. apply wp_insert; cbn [on_ok]; [|intros; cbn [is_pymongo]; apply Hrec].
  intros db2 _ _ Ho2. apply wp_ret. destruct f as [|b]; [|cbn [is_pymongo]; apply Hrec]. intros _ s Hs Hh.
  rewrite Ho2, E1 in Hs by done. apply fld_true in Hq. pose proof (ac_hashes db Hok) as Hn. rewrite E in Hn.
  apply (unique_middle (fun d => d.["tokenHash"]) l d r s Hn Hs). congruence.
Qed.

(** Computations that do not write the tokens. *)
Definition leaves_tokens {A} (m : dbm A) : Prop := forall db, wp m (fun _ db' => content db' Tokens = content db Tokens) db.

Lemma leaves_bind {A B} (m : dbm A) (k : A -> dbm B) : leaves_tokens m -> (forall a, leaves_tokens (k a)) -> leaves_tokens (st_bind m k).
Proof.
  intros Hm Hk db. apply wp_bind. eapply wp_mono; [apply Hm|]. intros [a|e] db1 E1; cbn [on_ok]; [|done].
  eapply wp_mono; [apply Hk|]. cbn. congruence.
Qed.

Lemma leaves_quiet {A} (r : result exn A) : leaves_tokens (pure r).
Proof. intros db. destruct r; [by apply wp_ret|by apply wp_raise]. Qed.

Lemma leaves_find c q : leaves_tokens (find_one c q).
Proof. intros db. by apply wp_find_one. Qed.

Lemma leaves_update q f : leaves_tokens (find_one_and_update Users q f).
Proof. intros db. apply wp_update; [|done]. intros d db' (_ & _ & Ho). by apply Ho. Qed.

Ltac leaves_step :=
  match goal with
  | |- leaves_tokens (st_bind _ _) => apply leaves_bind; [|intros ?]
  | |- leaves_tokens (st_ret ?a) => apply (leaves_quiet (Ok a))
  | |- leaves_tokens (st_raise ?e) => apply (leaves_quiet (Raise e))
  | |- leaves_tokens (pure _) => apply leaves_quiet
  | |- leaves_tokens (find_one _ _) => apply leaves_find
  | |- leaves_tokens (find_one_and_update Users _ _) => apply leaves_update
  | |- leaves_tokens (raise_if ?b _) => destruct b; cbn [raise_if]
  | |- leaves_tokens (if ?b then _ else _) => destruct b
  | |- leaves_tokens (match ?x with _ => _ end) => destruct x
  end.

Lemma leaves_protect identity user_id now : leaves_tokens (protect_service_account identity user_id now).
Proof.
  unfold protect_service_account, claim_account_manager, is_admin, authorize_user_target, find_one_and_update_before. repeat leaves_step.
Qed.

(** One token named [identifier] becomes another. *)
Lemma token_written identifier q f t db db' :
  accounts_ok db -> updated Tokens q f t db db' -> t.["id"] = identifier -> (f t).["id"] = identifier ->
  forall t', t' ∈ content db' Tokens -> t'.["id"] = identifier -> t' = f t.
Proof.
  intros Hok (_ & (l & r & E & E') & _) Hi Hi' t' Ht Hid. pose proof (ac_tokens db Hok) as Hn. rewrite E in Hn.
  rewrite E' in Ht. apply elem_of_app in Ht as [Ht|[->|Ht]%elem_of_cons]; [|done|].
  - exfalso. eapply (unique_middle (fun d => d.["id"]) l t r t' Hn); [apply elem_of_app; by left|congruence].
  - exfalso. eapply (unique_middle (fun d => d.["id"]) l t r t' Hn); [apply elem_of_app; by right|congruence].
Qed.

Lemma wp_and {A} (m : dbm A) (Q Q' : result exn A -> database -> Prop) db : wp m Q db -> wp m Q' db -> wp m (fun r db' => Q r db' /\ Q' r db') db.
Proof. unfold wp. destruct (m db). auto. Qed.

Definition revoked_all (identifier : pyval) (db : database) : Prop :=
  forall t, t ∈ content db Tokens -> t.["id"] = identifier -> t.["revoked"] <> PBool false.

Lemma revoke_token_wp (h : string) actor_id identifier identity context now f readable db :
  accounts_ok db ->
  wp (revoke_service_token actor_id identifier identity context now f readable) (fun r db' => is_ok r = true -> revoked_all identifier db') db.
Proof.
  intros Hok. unfold revoke_service_token. set (m := let! token := get_token identifier in _).
  assert (Hkeep : keeps h m).
  { unfold m, get_token. repeat first [apply keeps_protect | keeps_step | apply keeps_update_token]. intros t. dget. split_and!; done. }
  assert (Hunique : forall db' t, accounts_ok db' -> t ∈ content db' Tokens -> t.["id"] = identifier -> t.["revoked"] <> PBool false ->
    revoked_all identifier db').
  { intros db' t Hok' Ht Hi Hr t' Ht' Hi'. assert (t' = t) as ->; [|done].
    apply (NoDup_map_eq (fun d => d.["id"]) (content db' Tokens)); [apply (ac_tokens db' Hok')|done|done|congruence]. }
  assert (Hm : wp m (fun r db' => is_ok r = true -> revoked_all identifier db') db).
  { unfold m, get_token. apply wp_bind, wp_bind, wp_find_one; cbn [on_ok]; [|intros _; by apply wp_raise]. intros t Ht Hq. apply fld_true in Hq.
    apply wp_ret; cbn [on_ok]. apply wp_bind.
    eapply wp_mono; [apply wp_and; [apply leaves_protect|apply (keeps_protect h); exact Hok]|].
    intros [[]|e] db1 (E1 & Hok1 & _); cbn [on_ok]; [|done].
    destruct (truthy t.["revoked"]) eqn:Hr.
    - apply wp_ret. intros _. apply (Hunique db1 t Hok1); [by rewrite E1|done|]. intros Ef. by rewrite Ef in Hr.
    - apply wp_bind, wp_update_one; cbn [on_ok].
      2:{ intros Hno. exfalso. rewrite E1 in Hno. specialize (Hno t Ht). apply fld_false in Hno. done. }
      intros d db2 Hu. pose proof Hu as (Hqd & _ & _). apply fld_true in Hqd.
      apply wp_bind, wp_audit. intros a db3 _ _ Ho. cbn [on_ok]. apply wp_ret. intros _ t' Ht' Hi'. rewrite Ho in Ht' by done.
      assert (Hd : (dict_set d "revoked" (PBool true)).["id"] = identifier) by by dget.
      rewrite (token_written identifier _ _ _ _ _ Hok1 Hu Hqd Hd t' Ht' Hi'). by dget. }
  unfold token_commit. apply wp_catch, wp_transaction. eapply wp_mono; [apply wp_and; [apply (Hkeep db Hok)|exact Hm]|].
  assert (Hrec : forall db', accounts_ok db' ->
    wp (let! confirmed := (if readable then find_one Tokens (fun d => fld d "id" identifier && fld d "revoked" (PBool true)) else st_ret None) in
        match confirmed with Some d => st_ret d | None => st_raise (Http 503 "服务令牌提交结果未知，请查询令牌列表确认") end)
      (fun r db' => is_ok r = true -> revoked_all identifier db') db').
  { intros db' Hok'. apply wp_bind. destruct readable; [|apply wp_ret; by apply wp_raise].
    apply wp_find_one; cbn [on_ok]; [|intros _; by apply wp_raise]. intros t Ht Hq. rewrite andb_true_iff, !fld_true in Hq.
    destruct Hq as [Hi Hr]. apply wp_ret. intros _. apply (Hunique db' t Hok' Ht Hi). congruence. }
  intros [a|e] db1 [[Hok1 _] Hr].
  - destruct f as [|[]]; [done|by apply Hrec|by apply Hrec].
  - destruct (is_pymongo e); [by apply Hrec|done].
Qed.

(** A rotation that returns leaves the token with the new digest. *)
Definition carries (identifier : pyval) (token : string) (db : database) : Prop :=
  exists t, t ∈ content db Tokens /\ t.["id"] = identifier /\ t.["tokenHash"] = PStr (token_digest token).

Lemma rotate_token_wp h actor_id identifier version identity token encrypted event_id context now f readable db :
  token_digest token <> h -> accounts_ok db ->
  wp (rotate_service_token actor_id identifier version identity token encrypted event_id context now f readable)
    (fun r db' => is_ok r = true -> carries identifier token db') db.
Proof.
  intros Hh Hok. unfold rotate_service_token. set (changes := [("tokenHash", _); _; _]).
  assert (Hrec : forall db', wp (token_recover identifier "rotate_token" event_id "服务令牌轮换结果未知，请查询后重试"
    (fun d => fld d "tokenHash" (PStr (token_digest token))) readable) (fun r db' => is_ok r = true -> carries identifier token db') db').
  { intros db'. unfold token_recover. destruct readable; cbn [negb]; [|by apply wp_raise].
    apply wp_bind, wp_find_one; cbn [on_ok]; [|intros _; by apply wp_raise]. intros event _ _.
    apply wp_bind, wp_find_one; cbn [on_ok]; [|intros _; by apply wp_raise]. intros t Ht Hq. rewrite andb_true_iff, !fld_true in Hq.
    apply wp_ret. intros _. exists t. tauto. }
  apply wp_catch, wp_transaction, wp_bind.
  eapply wp_mono; [apply (keeps_guard h); exact Hok|]. intros [cur|e] db1 [Hok1 _]; cbn [on_ok]; [|destruct (is_pymongo e); [apply Hrec|done]].
  unfold token_change. apply wp_bind, wp_update; cbn [on_ok]; [|intros _; by apply wp_raise].
  intros d db2 (Hq & (l & r & E & E') & _). cbn beta in Hq. rewrite andb_true_iff, !fld_true in Hq. destruct Hq as [Hi _].
  apply wp_bind. unfold audit_event. apply wp_insert; cbn [on_ok]; [|intros; cbn [is_pymongo]; apply Hrec].
  intros db3 _ _ Ho. apply wp_ret. destruct f as [|b]; [|cbn [is_pymongo]; apply Hrec]. intros _.
  exists (dict_inc "version" 1 (set_all changes d)). rewrite Ho, E' by done. split; [apply elem_of_middle|].
  unfold changes, set_all. cbn [foldl fst snd]. by dget.
Qed.

(** ** Credentials *)

Inductive credential : Type := Cookie (token : string) | Bearer (token : string).

Definition digest_of (c : credential) : string := match c with Cookie t | Bearer t => token_digest t end.

Definition log_in (bootstrap : string) (c : credential) (now : Z) : dbm pydict :=
  match c with Cookie t => session_identity t now | Bearer t => authenticate bootstrap t now end.

(** The operations that end a credential: a new password, a change, a reset or a deletion
    of the account of the session, its logout; the revocation or the rotation of a token. *)
Definition ends (c : credential) (o : account_op) (db : database) : Prop :=
  match c, o with
  | Cookie t, Password v _ t' _ _ _ _ _ _ _ =>
      sessions_of (token_digest t) v.["id"] db /\ forall s, s ∈ content db UserSessions -> s.["tokenHash"] <> PStr (token_digest t')
  | Cookie t, Edit _ i _ _ _ _ _ | Cookie t, Reset _ i _ _ _ _ _ | Cookie t, Delete _ i _ _ _ _ _ => sessions_of (token_digest t) i db
  | Cookie t, Logout t' _ _ _ _ _ => t' = t
  | Bearer t, RevokeToken _ i _ _ _ _ _ | Bearer t, RotateToken _ i _ _ _ _ _ _ _ _ _ => tokens_of (token_digest t) i db
  | _, _ => False
  end.

Definition dead (c : credential) (db : database) : Prop :=
  match c with Cookie t => dead_session (token_digest t) db | Bearer t => dead_token (token_digest t) db end.

Lemma wp_done {A} (m : dbm A) (P : database -> Prop) db :
  wp m (fun r db' => is_ok r = true -> P db') db -> wp (done_ m) (fun r db' => is_ok r = true -> P db') db.
Proof. intros Hm. apply wp_bind. eapply wp_mono; [exact Hm|]. intros [a|e] db' Hp; cbn [on_ok]; [apply wp_ret; auto|done]. Qed.

Lemma keeps_done h {A} (m : dbm A) : keeps h (done_ m) -> keeps h m.
Proof. intros Hk db Hok. specialize (Hk db Hok). unfold done_, wp, st_bind in Hk. unfold wp. by destruct (m db) as [[a|e] db']. Qed.

(** The operation ends what it should when it returns. *)
Lemma ends_dead c o db :
  accounts_ok db -> fresh_op (digest_of c) o -> ends c o db -> wp (perform o) (fun r db' => is_ok r = true -> dead c db') db.
Proof.
  intros Hok Hf He.
  assert (Hbump : forall t i (m : dbm pydict), bumps (token_digest t) i m -> sessions_of (token_digest t) i db ->
    wp (done_ m) (fun r db' => is_ok r = true -> dead (Cookie t) db') db).
  { intros t i m Hm Hs. apply wp_done. eapply wp_mono; [by apply Hm|]. intros r db' (_ & L & Hp) Hr. by eapply past_dead, Hp. }
  destruct c as [t|t], o; try done; cbn [ends perform digest_of fresh_op] in *.
  - destruct He as [Hs Hfresh]. apply wp_done. eapply wp_mono; [by apply (rotate_session_wp (token_digest t))|].
    intros r db' (Hok' & L & Hr) Hres s Hin Hh. destruct r as [cur0|]; [|done].
    destruct (Hr cur0 eq_refl Hfresh) as (cur & d & v & Hd & Hid & Hv & Hcur & Hcid & Hcv & Hold).
    destruct (Hold s Hin) as [Hs0|Hnew]; [|rewrite Hh in Hnew; injection Hnew as Hnew; congruence].
    destruct (ac_sessions db Hok s Hs0) as (u & Hu & Hui & v1 & w1 & Hv1 & Hw1 & Hle). pose proof (Hs s Hs0 Hh) as Hsid.
    assert (u = d) as -> by (apply (NoDup_map_eq (fun d => d.["id"]) (content db Users)); [apply (ac_users db Hok)|done|done|congruence]).
    rewrite Hv in Hw1. injection Hw1 as <-. exists cur, v1, (v + 1). split_and!; [done|congruence|done|done|lia].
  - subst. apply wp_done. eapply wp_mono; [by apply revoke_session_wp|]. intros r db' Hr Hres s Hin Hh. by destruct (Hr Hres s Hin).
  - apply (Hbump t identifier); [|done]. unfold edit_user. apply bumps_after; [apply keeps_raise_if|intros _].
    destruct (edit_values values) as [v|e] eqn:E; cbn [pure]; [|intros db0 Hok0; apply wp_raise; split_and!; [done|by apply later_refl|done]].
    apply (bumps_update _ _ _ _ v). by eapply edit_values_mild.
  - apply (Hbump t identifier); [|done]. unfold reset_password. apply bumps_after; [apply keeps_raise_if|intros _].
    apply bumps_update. by repeat constructor.
  - apply (Hbump t identifier); [|done]. apply bumps_delete.
  - apply wp_done. eapply wp_mono; [apply wp_and; [by apply (revoke_token_wp (token_digest t))|]|].
    { exact (keeps_done (token_digest t) _ (keeps_perform (token_digest t) (RevokeToken actor identifier identity context now f readable) Hf) db Hok). }
    intros r db' (Hr & Hok' & L) Hres t' Ht' Hh. apply (Hr Hres t' Ht').
    destruct (la_tokens _ _ _ L t' Ht' Hh) as (t0 & Ht0 & Hh0 & Hi0 & _). rewrite <- Hi0. by apply He.
  - apply wp_done. eapply wp_mono; [apply wp_and; [by apply (rotate_token_wp (token_digest t))|]|].
    { exact (keeps_done (token_digest t) _ (keeps_perform (token_digest t) (RotateToken actor identifier version identity token encrypted event_id context now f readable) Hf) db Hok). }
    intros r db' (Hr & Hok' & L) Hres t' Ht' Hh. exfalso. destruct (Hr Hres) as (tn & Htn & Hin & Hhn).
    destruct (la_tokens _ _ _ L t' Ht' Hh) as (t0 & Ht0 & Hh0 & Hi0 & _). pose proof (He t0 Ht0 Hh0) as Hid0.
    assert (t' = tn) as -> by (apply (NoDup_map_eq (fun d => d.["id"]) (content db' Tokens)); [apply (ac_tokens db' Hok')|done|done|congruence]).
    rewrite Hhn in Hh. injection Hh as Hh. congruence.
Qed.

Lemma perform_all_later h os : forall db, accounts_ok db -> Forall (fresh_op h) os -> accounts_ok (perform_all os db) /\ later h db (perform_all os db).
Proof.
  induction os as [|o os IH]; intros db Hok Hf; [split; [done|by apply later_refl]|].
  apply Forall_cons in Hf as [Ho Hos]. pose proof (keeps_perform h o Ho db Hok) as Hk. unfold wp in Hk.
  change (perform_all (o :: os) db) with (perform_all os (perform o db).2).
  destruct (perform o db) as [r db1]. destruct Hk as [Hok1 L1]. cbn [snd].
  destruct (IH db1 Hok1 Hos) as [Hok2 L2]. split; [done|by eapply later_trans].
Qed.

(** C4: A login that has been ended stays ended.  Take a database whose accounts, sessions
    and tokens are in order, a cookie or a bearer token, and an operation that ends it: a
    change of the password with another session, an edit (disabling or demoting included),
    a reset or a deletion of the account, a logout, the revocation or rotation of the
    token.  When the operation returns, even over a driver error that left its commit
    unknown, then after every later sequence of logins, changes, new tokens and errors the
    credential is refused with the same answer and the refusal writes nothing; the accounts
    stay in order. *)
Theorem ended_login_stays_ended bootstrap c o after now db :
  accounts_ok db -> fresh_op (digest_of c) o -> ends c o db -> c <> Bearer bootstrap ->
  is_ok (fst (perform o db)) = true -> Forall (fresh_op (digest_of c)) after ->
  let db' := perform_all after (snd (perform o db)) in
  accounts_ok db' /\ log_in bootstrap c now db' = (Raise required_login, db').
Proof.
  intros Hok Hf He Hb Hres Ha db'.
  pose proof (ends_dead c o db Hok Hf He) as Hd. pose proof (keeps_perform _ _ Hf db Hok) as Hk. unfold wp in Hd, Hk.
  subst db'. destruct (perform o db) as [r db1]. cbn [fst snd] in *. destruct Hk as [Hok1 _].
  destruct (perform_all_later (digest_of c) after db1 Hok1 Ha) as [Hok2 L2]. split; [done|]. specialize (Hd Hres).
  destruct c as [t|t]; cbn [log_in digest_of dead] in *.
  - apply dead_session_refused; [done|by eapply dead_session_later].
  - apply dead_token_refused; [by intros ->|by eapply dead_token_later].
Qed.

(** ** Who may change an account *)

Definition user_ids (db : database) : list pyval := map (fun d => d.["id"]) (content db Users).

Definition same_ids {A} (m : dbm A) : Prop := forall db, wp m (fun _ db' => user_ids db' = user_ids db) db.

Lemma same_ids_bind {A B} (m : dbm A) (k : A -> dbm B) : same_ids m -> (forall a, same_ids (k a)) -> same_ids (st_bind m k).
Proof.
  intros Hm Hk db. apply wp_bind. eapply wp_mono; [apply Hm|]. intros [a|e] db1 E1; cbn [on_ok]; [|done].
  eapply wp_mono; [apply Hk|]. cbn. congruence.
Qed.

Lemma same_ids_pure {A} (r : result exn A) : same_ids (pure r).
Proof. intros db. destruct r; [by apply wp_ret|by apply wp_raise]. Qed.

Lemma same_ids_find c q : same_ids (find_one c q).
Proof. intros db. by apply wp_find_one. Qed.

Lemma same_ids_find_all c q : same_ids (find_all c q).
Proof. intros db. by apply wp_find_all. Qed.

Lemma same_ids_counter q k : k <> "id" -> same_ids (find_one_and_update Users q (dict_inc k 1)).
Proof.
  intros Hk db. apply wp_update; [|done]. intros d db' (_ & (l & r & E & E') & _). unfold user_ids. rewrite E, E', !map_app. cbn.
  by rewrite get_inc_ne by congruence.
Qed.

Lemma same_ids_update c q f : c <> Users -> same_ids (find_one_and_update c q f).
Proof. intros Hc db. apply wp_update; [|done]. intros d db' (_ & _ & Ho). unfold user_ids. by rewrite Ho by congruence. Qed.

Lemma same_ids_update_many c q f : c <> Users -> same_ids (update_many c q f).
Proof. intros Hc db. apply wp_update_many. intros db' _ Ho. unfold user_ids. by rewrite Ho by congruence. Qed.

Lemma same_ids_insert c d : c <> Users -> same_ids (insert_one c d).
Proof. intros Hc db. apply wp_insert; [|done]. intros db' _ _ Ho. unfold user_ids. by rewrite Ho by congruence. Qed.

Lemma same_ids_delete c q : c <> Users -> same_ids (delete_one c q).
Proof. intros Hc db. apply wp_delete; [|done]. intros l d r db' _ _ _ Ho. unfold user_ids. by rewrite Ho by congruence. Qed.

Ltac same_ids_step :=
  match goal with
  | |- same_ids (st_bind _ _) => apply same_ids_bind; [|intros ?]
  | |- same_ids (st_ret ?a) => apply (same_ids_pure (Ok a))
  | |- same_ids (st_raise ?e) => apply (same_ids_pure (Raise e))
  | |- same_ids (pure _) => apply same_ids_pure
  | |- same_ids (find_one _ _) => apply same_ids_find
  | |- same_ids (find_all _ _) => apply same_ids_find_all
  | |- same_ids (update_one _ _ _) => unfold update_one
  | |- same_ids (find_one_and_update_before _ _ _) => unfold find_one_and_update_before
  | |- same_ids (find_one_and_update Users _ (dict_inc _ 1)) => apply same_ids_counter; done
  | |- same_ids (find_one_and_update _ _ _) => apply same_ids_update; done
  | |- same_ids (update_many _ _ _) => apply same_ids_update_many; done
  | |- same_ids (insert_one _ _) => apply same_ids_insert; done
  | |- same_ids (delete_one _ _) => apply same_ids_delete; done
  | |- same_ids (raise_if ?b _) => destruct b; cbn [raise_if]
  | |- same_ids (if ?b then _ else _) => destruct b
  | |- same_ids (match ?x with _ => _ end) => destruct x
  end.

Lemma same_ids_for_each {A} (items : list A) f : (forall a, same_ids (f a)) -> same_ids (for_each items f).
Proof. intros Hf. induction items as [|a items IH]; cbn; [apply (same_ids_pure (Ok tt))|]. by apply same_ids_bind; [apply Hf|]. Qed.

Lemma same_ids_mark identifier timestamp version : same_ids (mark_resource_deletion identifier timestamp version).
Proof. unfold mark_resource_deletion, release_address, mark_tasks, cancel_starts. repeat same_ids_step. Qed.

(** Whoever acts as the manager in the transaction: the token of the settings, or an
    account that is active and an administrator whose rights have not expired. *)
Definition manager_in (identity current : pydict) (now : Z) (db : database) : Prop :=
  identity.["id"] = PStr "bootstrap" /\ current = identity
  \/ current ∈ content db Users /\ active_user identity.["id"] current = true
     /\ exists expired, permission_expired current now = Ok expired /\ effective_role current expired <> USER.

Definition managed (identity : pydict) (identifier : pyval) (now : Z) (db : database) : Prop :=
  exists current target, manager_in identity current now db /\ target ∈ content db Users /\ target.["id"] = identifier
    /\ may_manage current target = true.

Lemma claim_manager_wp identity target now db :
  wp (claim_account_manager identity (Some target) now) (fun r db' => user_ids db' = user_ids db /\ (is_ok r = true ->
    exists current, manager_in identity current now db /\ may_manage current target = true)) db.
Proof.
  apply wp_and.
  { assert (Hs : same_ids (claim_account_manager identity (Some target) now)); [|apply Hs].
    unfold claim_account_manager, is_admin, authorize_user_target. repeat same_ids_step. }
  assert (Hend : forall current db', wp (authorize_user_target current target) (fun r _ => is_ok r = true -> may_manage current target = true) db').
  { intros current db'. unfold authorize_user_target. apply wp_bind, wp_raise_if; cbn [on_ok]; [done|intros _].
    apply wp_raise_if; [done|]. intros Hm _. by apply negb_false_iff in Hm. }
  unfold claim_account_manager. apply wp_bind. destruct (fld identity "id" (PStr "bootstrap")) eqn:Eb.
  - apply fld_true in Eb. apply wp_ret; cbn [on_ok]. eapply wp_mono; [apply Hend|]. intros r db' Hr Hres. exists identity. split; [by left|auto].
  - apply wp_bind, wp_update_before; cbn [on_ok]; [|intros _; by apply wp_raise]. intros d db1 Hu.
    apply wp_bind. unfold is_admin. apply wp_bind. destruct (permission_expired d now) as [expired|e] eqn:Ee; cbn [pure]; [|by apply wp_raise].
    apply wp_ret; cbn [on_ok]. apply wp_ret; cbn [on_ok]. apply wp_bind, wp_raise_if; cbn [on_ok]; [done|]. intros Ha. apply wp_ret; cbn [on_ok].
    eapply wp_mono; [apply Hend|]. intros r db' Hr Hres. exists d. split; [right|auto].
    destruct Hu as (Hq & (l & r0 & E & _) & _). split_and!; [rewrite E; apply elem_of_middle|done|].
    exists expired. split; [done|]. apply negb_false_iff, negb_true_iff, bool_decide_eq_false in Ha. done.
Qed.

(** A transaction that claims the manager and then finds the account to change. *)
Lemma managed_wp {A} identity identifier old now (k : unit -> dbm A) db :
  (forall db1, user_ids db1 = user_ids db -> wp (k tt) (fun r _ => is_ok r = true -> identifier ∈ user_ids db) db1) ->
  wp (let! target := find_one Users (fun d => fld d "id" identifier) in
      let! u := claim_account_manager identity (Some (default old target)) now in k u)
    (fun r _ => is_ok r = true -> managed identity identifier now db) db.
Proof.
  intros Hk. apply wp_bind, wp_find_one; cbn [on_ok default].
  - intros target Ht Hq. apply fld_true in Hq. apply wp_bind. eapply wp_mono; [apply claim_manager_wp|].
    intros [[]|e] db1 [_ Hc]; cbn [on_ok]; [|done]. destruct (Hc eq_refl) as (current & Hm & Hmay).
    eapply wp_mono; [by apply (fun H => H : wp (k tt) (fun _ _ => True) db1); unfold wp; destruct (k tt db1)|].
    intros r db2 _ _. by exists current, target.
  - intros Hno. apply wp_bind. eapply wp_mono; [apply claim_manager_wp|]. intros [[]|e] db1 [Hi _]; cbn [on_ok]; [|done].
    eapply wp_mono; [apply (Hk db1 Hi)|]. intros r db2 Hr Hres. exfalso. specialize (Hr Hres). unfold user_ids in Hr.
    apply list_elem_of_fmap in Hr as (d & Hd & Hin). specialize (Hno d Hin). apply fld_false in Hno. congruence.
Qed.

(** The account that is changed was there before. *)
Lemma change_ids identifier version f db :
  wp (let! changed := find_one_and_update Users (changeable identifier version) f in
      match changed with None => st_raise (Http 409 "账号版本已变化或已删除") | Some changed => st_ret changed end)
    (fun r _ => is_ok r = true -> identifier ∈ user_ids db) db.
Proof.
  apply wp_bind, wp_update; cbn [on_ok]; [|intros _; by apply wp_raise]. intros d db' (Hq & (l & r & E & _) & _). apply wp_ret. intros _.
  apply changeable_id in Hq. unfold user_ids. rewrite <- Hq. apply (list_elem_of_fmap_2 (fun d : pydict => d.["id"])). rewrite E. apply elem_of_middle.
Qed.

Lemma wp_same_ids {A B} (m : dbm A) (k : A -> dbm B) (P : Prop) ids db :
  same_ids m -> user_ids db = ids -> (forall a db1, user_ids db1 = ids -> wp (k a) (fun r _ => is_ok r = true -> P) db1) ->
  wp (st_bind m k) (fun r _ => is_ok r = true -> P) db.
Proof.
  intros Hm Hi Hk. apply wp_bind. eapply wp_mono; [apply Hm|]. intros [a|e] db1 E; cbn [on_ok]; [apply Hk; congruence|done].
Qed.

(** C5: An account is changed or deleted only by somebody who may do it at that moment.
    Whatever the handler had read before (the identity of the request and the account), a
    transaction that changes any account has found, in the database it runs on, the manager
    still active and still an administrator whose rights have not expired, and allowed to
    manage the account as it is there: never the built-in one, and another administrator's
    only for the built-in administrator or the token of the settings. *)
Theorem account_changes_managed identity identifier version updates removal old action context now f db commit :
  commit = update_commit identity identifier version updates old now
    \/ commit = delete_commit identity identifier version removal old context now ->
  content (snd (audited_mutation identity.["id"] action identifier context commit now f db)) Users <> content db Users ->
  managed identity identifier now db.
Proof.
  intros Hc. assert (Hcommit : wp commit (fun r _ => is_ok r = true -> managed identity identifier now db) db).
  { destruct Hc as [-> | ->].
    - apply (managed_wp _ _ _ _ (fun _ => _)). intros db1 Hi. eapply wp_mono; [apply change_ids|]. intros r db2. by rewrite Hi.
    - apply (managed_wp _ _ _ _ (fun _ => _)). intros db1 Hi.
      eapply wp_same_ids; [apply same_ids_find_all|exact Hi|]. intros resources db2 H2.
      eapply wp_same_ids; [repeat same_ids_step|exact H2|]. intros _ db3 H3.
      eapply wp_same_ids; [unfold transfer_target, claim_active_user_for_resource_write; repeat same_ids_step|exact H3|]. intros heir db4 H4.
      eapply wp_same_ids; [|exact H4|].
      { unfold dispose, transfer, audit_owner. repeat first [apply same_ids_mark | apply same_ids_for_each; intros ? | same_ids_step]. }
      intros _ db5 H5. eapply wp_mono; [apply change_ids|]. intros r db6. by rewrite H5. }
  assert (Hw : wp (audited_mutation identity.["id"] action identifier context commit now f)
    (fun _ db' => content db' Users = content db Users \/ managed identity identifier now db) db).
  { unfold audited_mutation. apply wp_catch, wp_transaction, wp_bind. eapply wp_mono; [exact Hcommit|].
    intros [a|e] db1 Hr; cbn [on_ok]; [|destruct e; try apply wp_raise; by left].
    apply wp_bind, wp_audit. intros d db2 _ _ _. cbn [on_ok]. apply wp_ret. specialize (Hr eq_refl).
    destruct f as [|b]; [by right|apply wp_raise; by right]. }
  unfold wp in Hw. destruct (audited_mutation _ _ _ _ _ _ _ _) as [r db']. cbn [snd]. by destruct Hw as [->|].
Qed.
End sessions.

(** ** Witnesses *)

#[local] Existing Instance list_mongo.

Definition sample_user : pydict :=
  [("id", PStr "u1"); ("username", PStr "ann"); ("role", PStr "USER"); ("builtin", PBool false); ("enabled", PBool true); ("version", PInt 4);
   ("authVersion", PInt 2); ("passwordHash", PStr "old")].
Definition sample_manager : pydict :=
  [("id", PStr "m"); ("username", PStr "eve"); ("role", PStr "ADMIN"); ("builtin", PBool false); ("enabled", PBool true); ("version", PInt 1);
   ("authVersion", PInt 1); ("passwordHash", PStr "x")].
Definition sample_session : pydict :=
  [("tokenHash", PStr "cookie"); ("userId", PStr "u1"); ("authVersion", PInt 2); ("expiresAt", PTime (Aware 1000))].
Definition sample_identity : pydict := [("id", PStr "m"); ("scopes", PList [PStr "*"]); ("isAdmin", PBool true); ("role", PStr "ADMIN")].

Definition accounts_db : database := fun c =>
  match c with Users => [sample_user; sample_manager] | UserSessions => [sample_session] | _ => [] end.

Lemma accounts_db_ok : accounts_ok accounts_db.
Proof.
  split.
  - by apply (bool_decide_unpack _).
  - intros u [->|[->|[]%elem_of_nil]%elem_of_cons]%elem_of_cons; by eexists.
  - by apply (bool_decide_unpack _).
  - intros s [->|[]%elem_of_nil]%elem_of_cons. exists sample_user. split; [by left|]. split; [done|]. by exists 2, 2.
  - by apply (bool_decide_unpack _).
Qed.

(** The password of the account is reset; a login that had checked the old password comes
    too late, and the cookie is refused. *)
Definition reset_op : account_op := Reset sample_identity (PStr "u1") 4 "new" [] 10 (Uncertain false).
Definition reset_done : account_op := Reset sample_identity (PStr "u1") 4 "new" [] 10 Committed.
Definition late_login : account_op := Login sample_user "" "fresh" "e" [] 20 600 Committed true.

Lemma ended_login_stays_ended_witness :
  is_ok (fst (log_in id "" (Cookie "cookie") 5 accounts_db)) = true
  /\ is_ok (fst (perform id reset_op accounts_db)) = false
  /\ is_ok (fst (log_in id "" (Cookie "cookie") 5 (snd (perform id reset_op accounts_db)))) = true
  /\ is_ok (fst (perform id late_login (snd (perform id reset_done accounts_db)))) = false
  /\ fst (log_in id "" (Cookie "cookie") 30 (perform_all id [late_login] (snd (perform id reset_done accounts_db)))) = Raise required_login.
Proof.
  split; [by vm_compute|]. split; [by vm_compute|]. split; [by vm_compute|]. split; [by vm_compute|].
  assert (He : ends id (Cookie "cookie") reset_done accounts_db) by (intros s [->|[]%elem_of_nil]%elem_of_cons _; reflexivity).
  assert (Hf : Forall (fresh_op id "cookie") [late_login]) by (constructor; [discriminate|constructor]).
  destruct (@ended_login_stays_ended list_mongo id list_mongo_laws "" (Cookie "cookie") reset_done [late_login] 30 accounts_db
    accounts_db_ok I He (fun E => ltac:(discriminate E)) eq_refl Hf) as [_ ->]. reflexivity.
Defined.

Lemma account_changes_managed_witness :
  managed sample_identity (PStr "u1") 10 accounts_db
  /\ content (snd (audited_mutation sample_identity.["id"] "edit_user" (PStr "u1") []
       (update_commit sample_identity (PStr "u1") 4 [("enabled", PBool false)] [] 10) 10 Committed accounts_db)) Users
     <> content accounts_db Users.
Proof.
  assert (Hd : content (snd (audited_mutation sample_identity.["id"] "edit_user" (PStr "u1") []
       (update_commit sample_identity (PStr "u1") 4 [("enabled", PBool false)] [] 10) 10 Committed accounts_db)) Users
     <> content accounts_db Users) by (vm_compute; discriminate).
  split; [|exact Hd].
  exact (@account_changes_managed list_mongo list_mongo_laws sample_identity (PStr "u1") 4 [("enabled", PBool false)] None [] "edit_user" [] 10
    Committed accounts_db _ (or_introl eq_refl) Hd).
Defined.
