(* ===== verification/Submission.v ===== *)
(** * Submission of log jobs ([logs/job_submission.py], [logs/public.py], [common/api_time.py])

    A download names hours or a time range, a search a time range.  The submission
    freezes the files of the range, protects them from retention and creates the
    job, its idempotency record and its audit record in one transaction.

    `fromisoformat` and the zone of Shanghai are arguments: [shanghai] gives the
    offset of an instant, [from_shanghai] the instant of a wall-clock reading. *)

From S2P Require Import Prelude PyTime PyValue Ordering IsoTime FileOrder Mongo Ownership Commands Idempotency.
Open Scope camera_scope.

Definition MAX_RANGE_HOURS : Z := 168.
Definition MAX_DOWNLOAD_BYTES : Z := 20000000000.
Definition OPEN := PStr "OPEN".
Definition READY := PStr "READY".
Definition DOWNLOAD := "DOWNLOAD".

(** The body of a request: the fields of [DownloadCreate] and [SearchCreate]. *)
Record body := Body {
  b_task : string; b_hours : option (list string); b_start : option string; b_end : option string; b_partial : bool;
  b_keyword : string }.

(** ** The public form of a file *)

Definition private_keys : list string :=
  ["_id"; "password"; "passwordEncrypted"; "passwordHash"; "authVersion"; "tokenHash"; "tokenEncrypted"; "path"; "resultPath"; "rawPath";
   "indexPath"; "leaseUntil"; "executionToken"; "workerInstanceId"; "outputWriterToken"; "outputReaders"; "outputExecutionState";
   "outputWriterNodeId"; "outputWriterStartedAt"; "outputWriterClosedAt"; "outputWriterClosureReason"; "outputCleanupState";
   "outputCleanupStartedAt"; "outputCleanupLeaseUntil"; "outputCleanupToken"; "outputCleanedAt"; "resourceMonitorLeaseUntil";
   "resourceMonitorLeaseTaskId"; "resourceMonitorLeaseRunId"; "resourceMonitorLeaseGeneration"; "resourceMonitorLeaseNodeId";
   "resourceMonitorCheckedAt"; "coredumpCatalogFenceAt"; "healthLeaseUntil"; "healthLeaseStartedAt"; "healthLeaseToken";
   "healthConsumeClaim"; "resumeClaimToken"; "resumeClaimExpires"; "outputRecoveryLeases"; "slaveSshPort"; "slaveSshBootstrap"].

(** [public]. *)
Definition public (d : pydict) : pydict := filter (fun kv => kv.1 ∉ private_keys) d.

(** [public_log_file]. *)
Definition public_log_file (d : pydict) : pydict := unset_all ["deploymentRecovery"; "sourceLogName"] (public d).

(** The fields [ordered_files] reads. *)
Definition opt_str (v : pyval) : option string := as_str v.
Definition opt_time (v : pyval) : option time_value :=
  match v with PTime t => Some (TDate t) | PStr s => Some (TText s) | _ => None end.

Definition file_of (d : pydict) : file :=
  mkFile (text d.["id"]) (opt_str d.["taskId"]) (opt_str d.["nodeId"]) (opt_str d.["runId"]) (opt_str d.["sessionId"])
    (opt_str d.["hour"]) (as_int d.["segmentNumber"]) (as_int d.["firstSequence"]) (opt_time d.["firstReceivedAt"])
    (opt_time d.["sessionStartedAt"]) (opt_time d.["runStartedAt"]) (opt_str d.["status"]) (as_int d.["bytes"])
    (as_int d.["archiveBytes"]) (opt_str d.["archiveGroupId"]) (opt_str d.["sha256"]).

(** [ordered_files] on documents, which their identifiers tell apart. *)
Definition ordered_documents `{FromIso} (l : list pydict) : list pydict :=
  match ordered_files (map file_of l) with
  | Some files => omap (fun f => List.find (fun d => bool_decide (text d.["id"] = FileOrder.id f)) l) files
  | None => []
  end.

Section submission.
Context `{FromIso}.
Variable shanghai : zone.
Variable from_shanghai : Z -> Z.

(** ** Times of a request *)

Definition contains_T (s : string) : bool := existsb (fun c => Ascii.eqb c (Ascii.ascii_of_nat 84)) (String.list_ascii_of_string s).

(** [parse_api_datetime]: [None] is the `ValueError`. *)
Definition parse_api_datetime (value : string) : option Z :=
  if contains_T value
  then match from_iso value with Some (Naive w) => Some (from_shanghai w) | Some (Aware u) => Some u | None => None end
  else None.

(** [_canonical_hour_ids]. *)
Definition _canonical_hour_ids (hour_ids : list string) : list string :=
  map (fun value => match from_iso value with Some (Aware u) => utc_iso u | _ => value end) hour_ids.

Definition bad_range : http_error := HTTPException 422 "时间范围必须是 ISO 8601 日期时间".

(** The hours of the loop, by their number. *)
Fixpoint hours_from (first : Z) (n : nat) : list string :=
  match n with O => [] | S n => utc_iso (from_shanghai first) :: hours_from (first + US_PER_HOUR) n end.

(** [_range_hour_ids]. *)
Definition _range_hour_ids (start end_ : option string) : result http_error (list string) :=
  match start ≫= parse_api_datetime, end_ ≫= parse_api_datetime with
  | Some start_at, Some end_at =>
      if end_at <=? start_at then Raise (HTTPException 422 "结束时间必须晚于开始时间")
      else
        let first := wall shanghai start_at / US_PER_HOUR * US_PER_HOUR in
        let end_local := wall shanghai end_at in
        let last := end_local / US_PER_HOUR * US_PER_HOUR in
        let last := if end_local =? last then last else last + US_PER_HOUR in
        let hour_count := (last - first) / US_PER_HOUR in
        if MAX_RANGE_HOURS <? hour_count then Raise (HTTPException 422 "单次最多下载168小时，请缩小时间范围")
        else Ok (hours_from first (Z.to_nat hour_count))
  | _, _ => Raise bad_range
  end.

Lemma hour_floor w : w / US_PER_HOUR * US_PER_HOUR <= w /\ w < w / US_PER_HOUR * US_PER_HOUR + US_PER_HOUR.
Proof. unfold US_PER_HOUR, US_PER_SECOND. Z.to_euclidean_division_equations. lia. Qed.

(** The hours of a time range.  While Shanghai keeps its offset of eight
    hours, a range of at most 168 hours gives exactly the whole hours that meet
    it, in ascending order and without repetition; an empty or reversed range and
    a longer one are refused. *)
Theorem range_hours_exact start end_ s e :
  start ≫= parse_api_datetime = Some s -> end_ ≫= parse_api_datetime = Some e ->
  shanghai s = 8 * US_PER_HOUR -> shanghai e = 8 * US_PER_HOUR ->
  (forall w, s + 7 * US_PER_HOUR < w < e + 8 * US_PER_HOUR -> from_shanghai w = w - 8 * US_PER_HOUR) ->
  match _range_hour_ids start end_ with
  | Ok hours => s < e /\ exists l, hours = map utc_iso l /\ StronglySorted Z.lt l /\ Z.of_nat (length l) <= MAX_RANGE_HOURS
      /\ forall h, h ∈ l <-> h mod US_PER_HOUR = 0 /\ h < e /\ s < h + US_PER_HOUR
  | Raise err => http_status err = 422 /\ (e <= s \/ MAX_RANGE_HOURS * US_PER_HOUR < (e + US_PER_HOUR) - s)
  end.
Proof.
  intros Es Ee Hs He Hf. unfold _range_hour_ids. rewrite Es, Ee. destruct (Z.leb_spec e s) as [Hle|Hlt]; [by split; [|left]|].
  unfold wall. rewrite Hs, He. cbv zeta. set (w := s + 8 * US_PER_HOUR). set (v := e + 8 * US_PER_HOUR).
  set (first := w / US_PER_HOUR * US_PER_HOUR). set (last := if v =? v / US_PER_HOUR * US_PER_HOUR then _ else _).
  assert (Hfirst : exists a, first = a * US_PER_HOUR /\ first <= w < first + US_PER_HOUR).
  { exists (w / US_PER_HOUR). split; [done|]. subst first. destruct (hour_floor w). lia. }
  assert (Hlast : exists b, last = b * US_PER_HOUR /\ last - US_PER_HOUR < v <= last).
  { subst last. destruct (Z.eqb_spec v (v / US_PER_HOUR * US_PER_HOUR)) as [E|E].
    - exists (v / US_PER_HOUR). split; [done|]. rewrite <- E. assert (0 < US_PER_HOUR) by done. lia.
    - exists (v / US_PER_HOUR + 1). split; [lia|]. destruct (hour_floor v). lia. }
  destruct Hfirst as (a & Ea & Ha), Hlast as (b & Eb & Hb). clearbody first last. subst first last.
  assert (Hcount : (b * US_PER_HOUR - a * US_PER_HOUR) / US_PER_HOUR = b - a) by (rewrite <- Z.mul_sub_distr_r; by apply Z.div_mul).
  rewrite Hcount. assert (HH : 0 < US_PER_HOUR) by done. destruct (Z.ltb_spec MAX_RANGE_HOURS (b - a)) as [Hc|Hc].
  - split; [done|]. right. subst w v. unfold MAX_RANGE_HOURS in *. nia.
  - split; [done|]. assert (Hab : a <= b) by (subst w v; nia).
    assert (Hloop : forall n a, (forall j, a <= j < a + Z.of_nat n -> from_shanghai (j * US_PER_HOUR) = j * US_PER_HOUR - 8 * US_PER_HOUR) -> exists l, hours_from (a * US_PER_HOUR) n = map utc_iso l /\ StronglySorted Z.lt l /\ length l = n
      /\ forall h, h ∈ l <-> h mod US_PER_HOUR = 0 /\ a - 8 <= h / US_PER_HOUR < a - 8 + Z.of_nat n).
    { clear -HH. induction n as [|n IH]; intros a Hf; cbn [hours_from].
      - exists []. split_and!; [done|constructor|done|]. intros h. split; [by intros ?%elem_of_nil|lia].
      - destruct (IH (a + 1)) as (l & El & Hsort & Hlen & Hin); [intros j Hj; apply Hf; lia|]. exists ((a - 8) * US_PER_HOUR :: l). split_and!.
        + replace (from_shanghai (a * US_PER_HOUR)) with ((a - 8) * US_PER_HOUR) by (rewrite Hf by lia; ring).
          replace (a * US_PER_HOUR + US_PER_HOUR) with ((a + 1) * US_PER_HOUR) by ring. by rewrite El.
        + constructor; [done|]. apply Forall_forall. intros h Hh. apply Hin in Hh as [Hm Hr].
          rewrite (Z.div_mod h US_PER_HOUR), Hm by lia. nia.
        + cbn. by rewrite Hlen.
        + intros h. rewrite elem_of_cons, Hin. split.
          * intros [->|[Hm Hr]]; [rewrite Z.mod_mul, Z.div_mul by lia; lia|lia].
          * intros [Hm Hr]. destruct (decide (h / US_PER_HOUR = a - 8)) as [E|E]; [left|right; lia].
            rewrite (Z.div_mod h US_PER_HOUR), Hm, E by lia. lia. }
    destruct (Hloop (Z.to_nat (b - a)) a) as (l & El & Hsort & Hlen & Hin).
    { intros j Hj. rewrite Z2Nat.id in Hj by lia. apply Hf. subst w v. nia. }
    exists l. split_and!; [done|done|lia|].
    intros h. rewrite Hin. rewrite Z2Nat.id by lia. split; intros [Hm Hr]; (split; [done|]); pose proof (Z.div_mod h US_PER_HOUR ltac:(lia)) as Hd;
      rewrite Hm in Hd; subst w v; nia.
Qed.

(** [_normalized_download_body]. *)
Definition _normalized_download_body (b : body) : result http_error body :=
  hours ← match b_hours b with None => _range_hour_ids (b_start b) (b_end b) | Some l => Ok (_canonical_hour_ids l) end;
  Ok (Body (b_task b) (Some hours) None None (b_partial b) (b_keyword b)).

(** [_file_query]: the condition on the files, and the fixed bounds of a search. *)
Definition hour_between (low high : string) (d : pydict) : bool :=
  match d.["hour"] with PStr h => str_leb low h && str_leb h high | _ => false end.

Definition not_deleted (task : string) (d : pydict) : bool :=
  fld d "taskId" (PStr task) && negb (fld d "status" (PStr "DELETED")).

Definition _file_query (b : body) (kind : string) (timestamp : Z) : result http_error ((pydict -> bool) * pydict) :=
  if decide (kind = DOWNLOAD)
  then Ok (fun d => not_deleted (b_task b) d && fld_in d "hour" (map PStr (default [] (b_hours b))), [])
  else
    let parsed value fallback := match value with
      | Some s => if String.eqb s "" then Some fallback else parse_api_datetime s
      | None => Some fallback end in
    match parsed (b_end b) timestamp with
    | None => Raise (HTTPException 422 "时间范围必须是 ISO 8601 日期时间且不超过24小时")
    | Some end_ =>
        match parsed (b_start b) (end_ - US_PER_HOUR) with
        | None => Raise (HTTPException 422 "时间范围必须是 ISO 8601 日期时间且不超过24小时")
        | Some start =>
            if (0 <? end_ - start) && (end_ - start <=? 24 * US_PER_HOUR)
            then Ok (fun d => not_deleted (b_task b) d && hour_between (utc_iso (start / US_PER_HOUR * US_PER_HOUR)) (utc_iso end_) d,
                     [("start", PStr (utc_iso start)); ("end", PStr (utc_iso end_))])
            else Raise (HTTPException 422 "时间范围必须是 ISO 8601 日期时间且不超过24小时")
        end
    end.

(** ** The files of a request *)

(** `value or fallback` on numbers. *)
Definition int_or (v : pyval) (fallback : Z) : Z := if truthy v then default 0 (as_int v) else fallback.

(** The largest size per archive, and their sum. *)
Definition archive_group (d : pydict) : pyval * pyval :=
  (d.["nodeId"], if truthy d.["archiveGroupId"] then d.["archiveGroupId"] else d.["id"]).

Definition archive_size (d : pydict) : Z := int_or d.["archiveBytes"] (int_or (dict_get_or d "bytes" (PInt 0)) 0).

Fixpoint max_size (k : pyval * pyval) (n : Z) (sizes : list (pyval * pyval * Z)) : list (pyval * pyval * Z) :=
  match sizes with
  | [] => [(k, Z.max 0 n)]
  | (k', m) :: sizes => if decide (k = k') then (k', Z.max m n) :: sizes else (k', m) :: max_size k n sizes
  end.

Definition archive_sizes (files : list pydict) : list (pyval * pyval * Z) :=
  foldl (fun sizes d => max_size (archive_group d) (archive_size d) sizes) [] files.

Definition usable (d : pydict) : bool := fld_in d "status" [OPEN; READY].

(** [_validate_files]. *)
Definition _validate_files (files : list pydict) (b : body) (kind : string) : result http_error unit :=
  let download := bool_decide (kind = DOWNLOAD) in
  if match files with [] => true | _ => false end then Raise (HTTPException 404 "所选范围没有日志")
  else if existsb (fun d => negb (usable d)) files && (negb download || negb (b_partial b))
  then Raise (HTTPException 409 "所选范围包含暂不可用片段，请刷新或明确允许部分导出")
  else if download && negb (b_partial b)
          && existsb (fun h => negb (existsb (fun d => fld d "hour" (PStr h)) files)) (default [] (b_hours b))
  then Raise (HTTPException 409 "部分小时没有可用片段")
  else if download && (MAX_DOWNLOAD_BYTES <? zsum (map snd (archive_sizes files)))
  then Raise (HTTPException 422 "预计下载超过20GB，请拆分小时")
  else Ok tt.

(** ** The transaction *)

Section store.
Context `{Mongo}.

Definition http {A} (r : result http_error A) : dbm A :=
  match r with Ok a => st_ret a | Raise e => st_raise (Http (http_status e) (http_detail e)) end.

(** [_confirmed]: a pending record with a job gives the job. *)
Definition _confirmed (actor : pyval) (key digest : string) : dbm (option pydict) :=
  let! existing := find_one Idempotency (keyed_by actor key) in
  let! previous := (match existing with
    | Some e => if fld e "state" (PStr "PENDING") && fld e "digest" (PStr digest)
                then find_one Jobs (fun d => fld d "id" e.["resourceId"]) else st_ret None
    | None => st_ret None
    end) in
  match previous with
  | Some d => st_ret (Some d)
  | None => _confirmed_existing digest Jobs existing
  end.

(** `$max` with a date. *)
Definition max_date (k : string) (t : Z) (d : pydict) : pydict :=
  match d.[k] with
  | PTime u => if utc_instant u <? t then dict_set d k (PTime (Aware t)) else d
  | _ => dict_set d k (PTime (Aware t))
  end.

(** The protection of the usable files. *)
Fixpoint protect (files : list pydict) (expires : Z) : dbm unit :=
  match files with
  | [] => st_ret tt
  | d :: files =>
      let! _ := (if usable d
        then let! matched := update_one Files (fun f => fld f "id" d.["id"] && usable f) (max_date "retainUntil" expires) in
             raise_if (negb matched) (Http 409 "日志片段正在清理，请刷新后重试")
        else st_ret tt) in
      protect files expires
  end.

(** What the caller knows of the actor, the task and the request. *)
Record submitter := Submitter { su_identity : pyval; su_task : pydict; su_context : pydict }.

(** [_creator_snapshot]: the actor's identifier and the fields of the creator. *)
Definition _creator_snapshot (actor : pyval) : pyval * pydict :=
  match actor with
  | PDict actor =>
      let name := if truthy actor.["displayName"] then actor.["displayName"]
                  else if truthy actor.["username"] then actor.["username"] else actor.["id"] in
      (actor.["id"], [("createdBy", actor.["id"]); ("createdByName", name)])
  | v => (v, [])
  end.

Definition su_actor (s : submitter) : pyval := (_creator_snapshot (su_identity s)).1.
Definition su_creator (s : submitter) : pydict := (_creator_snapshot (su_identity s)).2.

Definition opt_val (s : option string) : pyval := match s with Some s => PStr s | None => PNone end.

(** `body.model_dump()`; the models share their fields here. *)
Definition body_fields (b : body) (kind : string) : pydict :=
  if decide (kind = DOWNLOAD)
  then [("taskId", PStr (b_task b)); ("hourIds", match b_hours b with Some l => PList (map PStr l) | None => PNone end);
        ("start", opt_val (b_start b)); ("end", opt_val (b_end b)); ("allowPartial", PBool (b_partial b))]
  else [("taskId", PStr (b_task b)); ("keyword", PStr (b_keyword b)); ("start", opt_val (b_start b)); ("end", opt_val (b_end b))].

Definition execution_expires (timestamp : Z) : Z := timestamp + 86400 * US_PER_SECOND.

Definition job_document (s : submitter) (b : body) (kind identifier : string) (bounds : pydict) (files : list pydict) (timestamp : Z)
  : pydict :=
  let expires := PTime (Aware (execution_expires timestamp)) in
  let node := (su_task s).["nodeId"] in
  set_all ([("id", PStr identifier); ("kind", PStr kind); ("status", QUEUED); ("progress", PInt 0); ("actor", su_actor s)]
           ++ (if decide (kind = DOWNLOAD) then su_creator s else [])
           ++ [("files", PList (map PDict files));
               ("nodeId", if truthy node then node else match files with d :: _ => d.["nodeId"] | [] => PNone end);
               ("taskName", (su_task s).["name"]); ("taskIp", (su_task s).["ip"]); ("createdAt", PTime (Aware timestamp));
               ("executionExpiresAt", expires); ("expiresAt", expires)])
    (set_all bounds (body_fields b kind)).

(** The callback of [submit_job]. *)
Definition submit_commit (s : submitter) (key digest identifier kind : string) (b : body) (query : pydict -> bool) (bounds : pydict)
    (timestamp : Z) : dbm pydict :=
  let! previous := _confirmed (su_actor s) key digest in
  match previous with
  | Some d => st_ret d
  | None =>
      let! found := find_all Files query in
      let files := ordered_documents (map public_log_file found) in
      let! _ := http (_validate_files files b kind) in
      let! _ := protect files (execution_expires timestamp) in
      let document := job_document s b kind identifier bounds files timestamp in
      let! _ := insert_one Idempotency (idempotency_row (su_actor s) key digest identifier timestamp) in
      let! _ := insert_one Jobs document in
      let! _ := audit (su_context s) timestamp (su_actor s) kind (PStr identifier) in
      st_ret document
  end.

(** [submit_job] after the task is read; [digest] is that of the normalised body. *)
Definition submit_job (s : submitter) (key digest identifier kind : string) (b : body) (timestamp : Z) (f : fate) (readable : bool)
  : dbm pydict :=
  let! _ := raise_if (String.eqb key "" || (128 <? Z.of_nat (String.length key))) (Http 422 "必须提供不超过128字符的 Idempotency-Key") in
  let! b := http (if decide (kind = DOWNLOAD) then _normalized_download_body b else Ok b) in
  let! previous := _confirmed (su_actor s) key digest in
  match previous with
  | Some d => st_ret d
  | None =>
      let! query := http (_file_query b kind timestamp) in
      st_catch (transaction f (submit_commit s key digest identifier kind b query.1 query.2 timestamp))
        (fun e => if is_pymongo e
          then Some (
            let! previous := (if readable then _confirmed (su_actor s) key digest else st_ret None) in
            match previous, e with
            | Some d, _ => st_ret d
            | None, DuplicateKeyError => st_raise (Http 409 "作业幂等键冲突，请使用原请求重试")
            | None, _ => st_raise (Http 503 "作业提交结果未知，请使用相同幂等键重试")
            end)
          else None)
  end.
End store.
End submission.

(** ** What a submission changes *)

(** The later protection of a file: nothing else of the row differs. *)
Definition retained (d d' : pydict) : Prop :=
  (forall k, k <> "retainUntil" -> d'.[k] = d.[k])
  /\ forall t, time_ge d "retainUntil" t = true -> time_ge d' "retainUntil" t = true.

#[export] Instance retained_preorder : PreOrder retained.
Proof. split; [by intros d|]. intros d1 d2 d3 [H1 T1] [H2 T2]. split; [|auto]. intros k Hk. by rewrite H2, H1. Qed.

Lemma max_date_retained t d : retained d (max_date "retainUntil" t d) /\ time_ge (max_date "retainUntil" t d) "retainUntil" t = true.
Proof.
  unfold max_date. destruct (d.["retainUntil"]) as [| | | | |u| |] eqn:E.
  1-5,7-8: split; [split; [intros; by rewrite get_set_ne|intros t'; unfold time_ge; by rewrite E]|unfold time_ge; dget; cbn; apply Z.leb_refl].
  destruct (Z.ltb_spec (utc_instant u) t) as [Hu|Hu].
  - split; [split; [intros; by rewrite get_set_ne|]|unfold time_ge; dget; cbn; apply Z.leb_refl].
    intros t'. unfold time_ge. rewrite E. dget. cbn. intros Hle. breflect. apply Z.leb_le. lia.
  - split; [reflexivity|]. unfold time_ge. rewrite E. by apply Z.leb_le.
Qed.

Lemma retained_usable d d' : retained d d' -> usable d' = usable d.
Proof. intros [Hk _]. unfold usable, fld_in, fld. cbn. by rewrite !Hk. Qed.

(** A row protects a file of the catalog until [t]. *)
Definition protects (t : Z) (file d : pydict) : Prop := d.["id"] = file.["id"] /\ usable d = true /\ time_ge d "retainUntil" t = true.

Lemma protects_retained t file d d' : protects t file d -> retained d d' -> protects t file d'.
Proof. intros (Hi & Hu & Ht) Hr. split_and!; [by rewrite (proj1 Hr)|by rewrite (retained_usable d)|by apply (proj2 Hr)]. Qed.

Section facts.
Context `{FromIso} `{!Mongo} `{!MongoLaws}.
Variable shanghai : zone.
Variable from_shanghai : Z -> Z.

Definition retained_rows (db db' : database) : Prop := Forall2 retained (content db Files) (content db' Files).

Lemma retained_rows_trans db1 db2 db3 : retained_rows db1 db2 -> retained_rows db2 db3 -> retained_rows db1 db3.
Proof. unfold retained_rows. apply transitivity. Qed.

Definition protected (t : Z) (file : pydict) (db : database) : Prop := exists d, d ∈ content db Files /\ protects t file d.

Lemma protected_retained t file db db' : protected t file db -> retained_rows db db' -> protected t file db'.
Proof.
  intros (d & Hd & Hp) Hr. apply list_elem_of_lookup in Hd as [i Hi].
  destruct (Forall2_lookup_l _ _ _ _ _ Hr Hi) as (d' & Hi' & Hdd). exists d'. split; [by eapply list_elem_of_lookup_2|by eapply protects_retained].
Qed.

Lemma wp_protect files t db : wp (protect files t) (fun r db' => retained_rows db db' /\ frame [Files] db db'
  /\ (r = Ok tt -> forall file, file ∈ files -> usable file = true -> protected t file db')) db.
Proof.
  revert db. induction files as [|f files IH]; intros db; cbn [protect].
  { apply wp_ret. split_and!; [unfold retained_rows; reflexivity|done|]. by intros _ file ?%elem_of_nil. }
  apply wp_bind. apply (wp_mono _ (fun r db1 => retained_rows db db1 /\ frame [Files] db db1
    /\ (r = Ok tt -> usable f = true -> protected t f db1))).
  - destruct (usable f) eqn:Eu; [|apply wp_ret; split_and!; [unfold retained_rows; reflexivity|done|done]].
    apply wp_bind, wp_update_one; cbn [on_ok].
    + intros d db1 (Hq & (l & r & El & Er) & Ho). apply wp_raise_if; cbn [negb]; [done|]. intros _.
      freflect. destruct (max_date_retained t d) as [Hm Ht]. split_and!; [|by apply frame_one|].
      * unfold retained_rows. rewrite El, Er. apply Forall2_app; [reflexivity|]. constructor; [done|reflexivity].
      * intros _ _. exists (max_date "retainUntil" t d). split; [rewrite Er; apply elem_of_middle|].
        split_and!; [by rewrite (proj1 Hm)|by rewrite (retained_usable d)|done].
    + intros _. apply wp_raise_if; cbn [negb]; [|done]. intros _. split_and!; [unfold retained_rows; reflexivity|done|done].
  - intros [[]|e] db1 (Hr1 & Hf1 & Hp1); cbn [on_ok]; [|split_and!; [done|done|done]].
    eapply wp_mono; [apply IH|]. intros r db2 (Hr2 & Hf2 & Hp2). split_and!; [by eapply retained_rows_trans| |].
    + eapply frame_weaken; [by eapply frame_trans|]. set_solver.
    + intros Hok file [->|Hin]%elem_of_cons Hu; [|by apply Hp2]. eapply protected_retained; [by apply Hp1|done].
Qed.

Lemma ordered_documents_in l d : d ∈ ordered_documents l -> d ∈ l.
Proof.
  unfold ordered_documents. destruct (ordered_files _) as [files|]; [|by intros ?%elem_of_nil].
  intros (f & _ & Hf)%list_elem_of_omap. apply List.find_some in Hf as [Hf _]. by apply list_elem_of_In.
Qed.

(** What a submission that commits has done. *)
Record submitted (identifier : string) (query : pydict -> bool) (t : Z) (document : pydict) (db db' : database) : Prop :=
  Submitted {
  sub_job : content db' Jobs = content db Jobs ++ [document];
  sub_new : no_match (fun d => fld d "id" (PStr identifier)) (content db Jobs);
  sub_id : document.["id"] = PStr identifier;
  sub_status : document.["status"] = QUEUED;
  sub_expires : document.["executionExpiresAt"] = PTime (Aware t);
  sub_files : exists files, document.["files"] = PList (map PDict files)
    /\ (forall file, file ∈ files -> exists d, d ∈ content db Files /\ query d = true /\ file = public_log_file d)
    /\ forall file, file ∈ files -> usable file = true -> protected t file db';
  sub_rows : retained_rows db db';
  sub_frame : frame [Idempotency; Jobs; Files; Audit] db db' }.

Lemma job_document_fields s b kind identifier bounds files ts :
  let d := job_document s b kind identifier bounds files ts in
  d.["id"] = PStr identifier /\ d.["status"] = QUEUED /\ d.["files"] = PList (map PDict files)
  /\ d.["executionExpiresAt"] = PTime (Aware (execution_expires ts)).
Proof.
  cbv zeta. unfold job_document, set_all. rewrite !foldl_app. cbn [foldl fst snd]. split_and!; dget; [| |done|done].
  all: assert (Hc : forall d0 k, k <> "createdBy" -> k <> "createdByName" ->
    (foldl (fun d kv => dict_set d kv.1 kv.2) d0 (if decide (kind = DOWNLOAD) then su_creator s else [])).[k] = d0.[k])
    by (intros d0 k Hk1 Hk2; destruct (decide _); [|done]; unfold su_creator, _creator_snapshot; destruct (su_identity s); cbn; by rewrite ?get_set_ne).
  all: rewrite Hc by done; by dget.
Qed.

(** A recovery reads only, and gives a job of the store. *)
Lemma wp_confirmed actor key digest db :
  wp (_confirmed actor key digest) (fun r db' => db' = db /\ match r with Ok (Some d) => d ∈ content db Jobs | _ => True end) db.
Proof.
  assert (Hex : forall e, wp (_confirmed_existing digest Jobs e) (fun r db' => db' = db /\ match r with Ok (Some d) => d ∈ content db Jobs | _ => True end) db).
  { intros [e|]; cbn [_confirmed_existing]; [|by apply wp_ret]. repeat (wp_step; try done).
    apply wp_find_one; cbn [on_ok]; intros; [|by wp_step]. destruct (fld _ _ _); by wp_step. }
  unfold _confirmed. apply wp_bind, wp_find_one; cbn [on_ok].
  - intros e _ _. apply wp_bind. destruct (_ && _); [|wp_step; apply Hex].
    apply wp_find_one; cbn [on_ok]; intros; [by wp_step|apply Hex].
  - intros _. apply wp_bind, wp_ret. apply Hex.
Qed.

Lemma wp_http {A} (r : result http_error A) (Q : result exn A -> database -> Prop) db :
  (forall a, r = Ok a -> Q (Ok a) db) -> (forall e, Q (Raise e) db) -> wp (http r) Q db.
Proof. destruct r; cbn; intros Hok Herr; [by apply Hok|apply Herr]. Qed.

Lemma submit_commit_wp s key digest identifier kind b query bounds ts db :
  wp (submit_commit s key digest identifier kind b query bounds ts) (fun r db' => match r with
    | Ok d => (db' = db /\ d ∈ content db Jobs) \/ submitted identifier query (execution_expires ts) d db db'
    | Raise _ => True end) db.
Proof.
  unfold submit_commit. apply wp_bind. eapply wp_mono; [apply wp_confirmed|].
  intros [[d|]|e] db0 [-> Hd]; cbn [on_ok]; [by apply wp_ret; left| |done].
  apply wp_bind, wp_find_all; cbn [on_ok]. intros found Hfound. set (files := ordered_documents _).
  apply wp_bind, wp_http; [|done]. intros [] _. cbn [on_ok].
  apply wp_bind. eapply wp_mono; [apply wp_protect|]. intros [[]|e] db1 (Hr & Hf & Hp); cbn [on_ok]; [|done].
  set (document := job_document _ _ _ _ _ _ _). pose proof (job_document_fields s b kind identifier bounds files ts) as Hdoc. cbv zeta in Hdoc.
  fold document in Hdoc. destruct Hdoc as (Hi & Hs & Hfi & He).
  apply wp_bind, wp_insert; cbn [on_ok]; [|done]. intros db2 _ _ O2. apply wp_bind, wp_insert; cbn [on_ok]; [|done].
  intros db3 Hno E3 O3. apply wp_bind, wp_audit. intros a db4 _ _ O4. cbn [on_ok]. apply wp_ret. right.
  assert (E2 : content db2 Jobs = content db Jobs) by (rewrite O2 by done; apply Hf; set_solver).
  assert (EF : content db4 Files = content db1 Files) by (by rewrite O4, O3, O2 by done). split; try done.
  - by rewrite O4, E3, E2 by done.
  - intros d Hd'. rewrite E2 in Hno. specialize (Hno d Hd'). apply clash_id in Hno; [|done]. by rewrite Hi in Hno.
  - exists files. split_and!; [done| |].
    + intros file Hin%ordered_documents_in. apply list_elem_of_fmap in Hin as (d & -> & Hin). rewrite Hfound in Hin.
      apply list_elem_of_filter in Hin as [? ?]. by exists d.
    + intros file Hin Hu. destruct (Hp eq_refl file Hin Hu) as (d & Hd' & Hpr). exists d. by rewrite EF.
  - unfold retained_rows in *. by rewrite EF.
  - intros c Hc. rewrite O4, O3, O2 by set_solver. apply Hf. set_solver.
Qed.

(** The effect of a submission. *)
Lemma submission_effect s key digest identifier kind b ts f readable db :
  wp (submit_job shanghai from_shanghai s key digest identifier kind b ts f readable) (fun r db' =>
    (db' = db /\ forall d, r = Ok d -> d ∈ content db Jobs)
    \/ exists b' query document,
        (if decide (kind = DOWNLOAD) then _normalized_download_body shanghai from_shanghai b = Ok b' else b' = b)
        /\ _file_query from_shanghai b' kind ts = Ok query
        /\ submitted identifier query.1 (execution_expires ts) document db db' /\ forall d, r = Ok d -> d ∈ content db' Jobs) db.
Proof.
  unfold submit_job. apply wp_bind, wp_raise_if; intros _; cbn [on_ok]; [by left|].
  apply wp_bind, wp_http; cbn [on_ok]; [|by left]. intros b' Eb.
  assert (Hb : if decide (kind = DOWNLOAD) then _normalized_download_body shanghai from_shanghai b = Ok b' else b' = b)
    by (destruct (decide _); [done|by injection Eb]).
  apply wp_bind. eapply wp_mono; [apply wp_confirmed|]. intros [[d|]|e] db0 [-> Hd]; cbn [on_ok]; [apply wp_ret; left; split; [done|by intros ? [= <-]]| |by left].
  apply wp_bind, wp_http; cbn [on_ok]; [|by left]. intros query Eq.
  apply wp_catch, wp_transaction. eapply wp_mono; [apply submit_commit_wp|]. intros [d|e] db1 Hc.
  - assert (Hdone : (db1 = db /\ d ∈ content db Jobs)
      \/ submitted identifier query.1 (execution_expires ts) d db db1) by (destruct Hc as [[-> ?]|?]; auto).
    clear Hc. destruct f as [|applied].
    + destruct Hdone as [[-> ?]|Hsub]; [left; split; [done|by intros ? [= <-]]|right]. exists b', query, d.
      split_and!; [done|done|done|]. intros d0 [= <-]. rewrite (sub_job _ _ _ _ _ _ Hsub). apply elem_of_snoc. by right.
    + cbn [is_pymongo]. set (db2 := if applied then db1 else db).
      apply (wp_mono _ (fun r db' => db' = db2 /\ forall d, r = Ok d -> d ∈ content db2 Jobs)).
      { apply wp_bind. apply (wp_mono _ (fun r db' => db' = db2 /\ match r with Ok (Some d) => d ∈ content db2 Jobs | _ => True end)).
        - destruct readable; [apply wp_confirmed|by apply wp_ret].
        - intros [[d'|]|e] db3 [-> Hd']; cbn [on_ok]; [apply wp_ret; split; [done|by intros ? [= <-]]|by apply wp_raise|done]. }
      intros r db' [-> Hr]. subst db2. destruct applied; [|by left; split_and!].
      destruct Hdone as [[-> ?]|Hsub]; [by left; split|right; by exists b', query, d].
  - destruct (is_pymongo e); [|by left].
    apply wp_bind. apply (wp_mono _ (fun r db' => db' = db /\ match r with Ok (Some d) => d ∈ content db Jobs | _ => True end)).
    + destruct readable; [apply wp_confirmed|by apply wp_ret].
    + intros [[d'|]|e'] db3 [-> Hd']; cbn [on_ok]; [apply wp_ret; left; split; [done|by intros ? [= <-]]| |by left].
      destruct e; apply wp_raise; by left.
Qed.
(** C18: a submission freezes its files or does nothing.  Whatever happens to the
    commit, either the store is as before and a returned job was already there; or exactly one queued job with a new identifier is added, its files are
    the public forms of catalogued files of the requested range, each file it may
    still read is protected from retention until the job's 24 hours are over, no
    protection becomes shorter and no other field of a file changes. *)
Theorem submit_job_freezes s key digest identifier kind b ts f readable db :
  wp (submit_job shanghai from_shanghai s key digest identifier kind b ts f readable) (fun r db' =>
    (db' = db /\ forall d, r = Ok d -> d ∈ content db Jobs)
    \/ exists b' query document,
        (if decide (kind = DOWNLOAD) then _normalized_download_body shanghai from_shanghai b = Ok b' else b' = b)
        /\ _file_query from_shanghai b' kind ts = Ok query
        /\ submitted identifier query.1 (execution_expires ts) document db db' /\ forall d, r = Ok d -> d ∈ content db' Jobs) db.
Proof. apply submission_effect. Qed.
End facts.

(** Texts of the witness: 02:30 and 04:00 in Shanghai on the first day of 1970. *)
Definition witness_iso : FromIso := fun s =>
  if decide (s = "1970-01-01T02:30") then Some (Naive (5 * US_PER_HOUR / 2))
  else if decide (s = "1970-01-01T04:00") then Some (Naive (4 * US_PER_HOUR)) else None.

Lemma range_hours_exact_witness :
  let zone_8 := fun _ : Z => 8 * US_PER_HOUR in let back := fun w => w - 8 * US_PER_HOUR in
  @_range_hour_ids witness_iso zone_8 back (Some "1970-01-01T02:30") (Some "1970-01-01T04:00")
  = Ok ["1969-12-31T18:00:00+00:00"; "1969-12-31T19:00:00+00:00"]
  /\ match @_range_hour_ids witness_iso zone_8 back (Some "1970-01-01T02:30") (Some "1970-01-01T04:00") with
     | Ok hours => - (11 * US_PER_HOUR / 2) < - 4 * US_PER_HOUR /\ exists l, hours = map utc_iso l /\ StronglySorted Z.lt l
         /\ Z.of_nat (length l) <= MAX_RANGE_HOURS
         /\ forall h, h ∈ l <-> h mod US_PER_HOUR = 0 /\ h < - 4 * US_PER_HOUR /\ - (11 * US_PER_HOUR / 2) < h + US_PER_HOUR
     | Raise err => http_status err = 422 /\ (- 4 * US_PER_HOUR <= - (11 * US_PER_HOUR / 2)
         \/ MAX_RANGE_HOURS * US_PER_HOUR < (- 4 * US_PER_HOUR + US_PER_HOUR) - - (11 * US_PER_HOUR / 2))
     end.
Proof.
  split; [by vm_compute|].
  apply (@range_hours_exact witness_iso (fun _ => 8 * US_PER_HOUR) (fun w => w - 8 * US_PER_HOUR)
    (Some "1970-01-01T02:30") (Some "1970-01-01T04:00") (- (11 * US_PER_HOUR / 2)) (- 4 * US_PER_HOUR)).
  - by vm_compute.
  - by vm_compute.
  - done.
  - done.
  - done.
Defined.

(** A catalogue with one open file; its submitted search. *)
Definition freeze_store : @database list_mongo := fun c => if decide (c = Files)
  then [[("id", PStr "f"); ("taskId", PStr "t"); ("nodeId", PStr "n"); ("hour", PStr "1970-01-01T00:00:00+00:00"); ("status", OPEN);
         ("path", PStr "raw"); ("bytes", PInt 10)]] else [].

Definition freeze_run := @submit_job witness_iso (fun _ => 8 * US_PER_HOUR) (fun w => w - 8 * US_PER_HOUR) list_mongo
  (Submitter (PStr "user") [("nodeId", PStr "n")] []) "key" "digest" "job" "SEARCH" (Body "t" None None None false "error") US_PER_HOUR
  Committed true freeze_store.

Lemma submit_job_freezes_witness :
  is_ok freeze_run.1 = true
  /\ map (fun d => time_ge d "retainUntil" (25 * US_PER_HOUR)) (content freeze_run.2 Files) = [true]
  /\ let '(r, db) := freeze_run in
     (db = freeze_store /\ forall d, r = Ok d -> d ∈ content freeze_store Jobs)
     \/ exists b' query document,
        (if decide ("SEARCH" = DOWNLOAD) then @_normalized_download_body witness_iso (fun _ => 8 * US_PER_HOUR) (fun w => w - 8 * US_PER_HOUR)
           (Body "t" None None None false "error") = Ok b' else b' = Body "t" None None None false "error")
        /\ @_file_query witness_iso (fun w => w - 8 * US_PER_HOUR) b' "SEARCH" US_PER_HOUR = Ok query
        /\ @submitted list_mongo "job" query.1 (execution_expires US_PER_HOUR) document freeze_store db
        /\ forall d, r = Ok d -> d ∈ content db Jobs.
Proof.
  split; [by vm_compute|]. split; [by vm_compute|].
  exact (@submit_job_freezes witness_iso list_mongo list_mongo_laws (fun _ => 8 * US_PER_HOUR) (fun w => w - 8 * US_PER_HOUR)
    (Submitter (PStr "user") [("nodeId", PStr "n")] []) "key" "digest" "job" "SEARCH" (Body "t" None None None false "error") US_PER_HOUR
    Committed true freeze_store).
Defined.
