(* ===== verification/Jobs.v ===== *)
(** * Execution of log jobs ([logs/job_lease.py], [logs/job_completion.py], [logs/job_submission.py])

    A download or search job is queued, claimed by a Worker with a token and a
    lease, renewed while it runs, and ended by its executor, by a cancellation or
    by the recovery of an expired lease.  Several Workers and the API run these
    operations on the same collection; each database operation is atomic, and a
    commit may be lost. *)

From S2P Require Import Prelude PyTime PyValue Ordering Mongo Ownership Commands.
Open Scope camera_scope.

Definition JOB_LEASE_SECONDS : Z := 90.
Definition WORKER_EXECUTION_LOST : string := "WORKER_EXECUTION_LOST".
Definition WORKER_EXECUTION_LOST_MESSAGE : string := "执行 Worker 的租约已过期，无法确认作业结果".
Definition RUNNING_JOB := PStr "RUNNING".
Definition FAILED := PStr "FAILED".
Definition CANCELLED := PStr "CANCELLED".

(** `str.lower` of an ASCII text. *)
Definition lower_ascii (a : Ascii.ascii) : Ascii.ascii :=
  let n := Ascii.nat_of_ascii a in
  if (65 <=? n)%nat && (n <=? 90)%nat then Ascii.ascii_of_nat (n + 32) else a.

Definition lower (s : string) : string := String.string_of_list_ascii (map lower_ascii (String.list_ascii_of_string s)).

Section jobs.
Context `{Mongo}.

(** ** The lease *)

Definition lease_end (now : Z) : pyval := PTime (Aware (now + JOB_LEASE_SECONDS * US_PER_SECOND)).

(** [claim_job]: the oldest queued job of the node; [token] is fresh. *)
Definition claim_job (node_id instance_id token : string) (now : Z) : dbm (option pydict) :=
  let! queued := find_all Jobs (fun d => fld d "nodeId" (PStr node_id) && fld d "status" QUEUED) in
  match head (queue_order queued) with
  | None => st_ret None
  | Some first =>
      find_one_and_update Jobs
        (fun d => fld d "nodeId" (PStr node_id) && fld d "status" QUEUED && fld d "id" first.["id"])
        (set_all [("status", RUNNING_JOB); ("executionToken", PStr token); ("workerInstanceId", PStr instance_id);
                  ("leaseUntil", lease_end now); ("startedAt", PTime (Aware now))])
  end.

(** [renew_job]. *)
Definition renew_job (node_id : string) (job : pydict) (now : Z) : dbm bool :=
  if negb (truthy job.["executionToken"]) || negb (truthy job.["workerInstanceId"]) then st_ret false
  else update_one Jobs
    (fun d => fld d "id" job.["id"] && fld d "nodeId" (PStr node_id) && fld d "status" RUNNING_JOB
              && fld d "executionToken" job.["executionToken"] && fld d "workerInstanceId" job.["workerInstanceId"]
              && time_gt d "leaseUntil" now)
    (set_all [("leaseUntil", lease_end now)]).

(** [_recover_expired_job]. *)
Definition expired_condition (job d : pydict) : bool :=
  fld d "id" job.["id"] && fld d "nodeId" job.["nodeId"] && fld d "status" RUNNING_JOB
  && fld d "executionToken" job.["executionToken"] && fld d "leaseUntil" job.["leaseUntil"].

Definition recover_commit (job context : pydict) (timestamp : Z) : dbm bool :=
  let! current := find_one Jobs (expired_condition job) in
  match current with
  | None => st_ret false
  | Some current =>
      let! matched := update_one Jobs (expired_condition job)
        (fun d => unset_all ["executionToken"; "leaseUntil"]
           (set_all [("status", FAILED); ("error", PStr WORKER_EXECUTION_LOST);
                     ("errorMessage", PStr WORKER_EXECUTION_LOST_MESSAGE); ("completedAt", PTime (Aware timestamp))] d)) in
      if negb matched then st_ret false
      else
        let! _ := audit context timestamp (dict_get_or current "actor" (PStr "system")) "job_failed" current.["id"] in
        st_ret true
  end.

Definition _recover_expired_job (job context : pydict) (timestamp : Z) (f : fate) : dbm bool :=
  if negb (truthy job.["executionToken"]) || fld job "leaseUntil" PNone then st_ret false
  else transaction f (recover_commit job context timestamp).

(** [recover_expired_jobs]; the exceptions of a job are logged. *)
Fixpoint recover_each (jobs : list pydict) (context : pydict) (timestamp : Z) (fates : nat -> fate) : dbm Z :=
  match jobs with
  | [] => st_ret 0
  | job :: jobs =>
      let! recovered := st_catch (_recover_expired_job job context timestamp (fates (length jobs)))
        (fun _ => Some (st_ret false)) in
      let! rest := recover_each jobs context timestamp fates in
      st_ret ((if recovered then 1 else 0) + rest)
  end.

Definition recover_expired_jobs (node_id : option string) (context : pydict) (timestamp : Z) (fates : nat -> fate) : dbm Z :=
  let! jobs := find_all Jobs (fun d =>
    fld d "status" RUNNING_JOB && negb (absent d "executionToken") && negb (fld d "executionToken" (PStr ""))
    && negb (absent d "leaseUntil") && time_le d "leaseUntil" timestamp
    && match node_id with Some n => fld d "nodeId" (PStr n) | None => true end) in
  recover_each jobs context timestamp fates.

(** ** The end of a job *)

(** [_lost_execution_ownership]. *)
Definition _lost_execution_ownership : pydict := [("status", FAILED); ("error", PStr "EXECUTION_OWNERSHIP_LOST")].

(** [_running_execution_filter]. *)
Definition _running_execution_filter (job current : pydict) (timestamp : Z) : option (pydict -> bool) :=
  let current_token := current.["executionToken"] in
  let submitted_token := job.["executionToken"] in
  if fld current "executionToken" PNone && fld job "executionToken" PNone
  then Some (fun d => fld d "id" job.["id"] && fld d "status" RUNNING_JOB && fld d "executionToken" PNone)
  else if negb (truthy current_token) || negb (bool_decide (current_token = submitted_token))
          || negb (bool_decide (current.["nodeId"] = job.["nodeId"])) || fld current "leaseUntil" PNone
  then None
  else Some (fun d => fld d "id" job.["id"] && fld d "status" RUNNING_JOB && fld d "executionToken" submitted_token
                      && fld d "nodeId" job.["nodeId"] && time_gt d "leaseUntil" timestamp).

(** The callback of [complete_job]. *)
Definition complete_commit (job update context : pydict) (now : Z) : dbm pydict :=
  let! current := find_one Jobs (fun d => fld d "id" job.["id"]) in
  match current with
  | None => st_ret [("status", CANCELLED)]
  | Some current =>
      if negb (fld current "status" RUNNING_JOB)
      then st_ret (if fld current "status" (PStr "SUCCEEDED")
                   then omap (fun kv => v ← dict_lookup current kv.1; Some (kv.1, v)) update
                   else [("status", current.["status"])])
      else
        match _running_execution_filter job current now with
        | None => st_ret _lost_execution_ownership
        | Some execution_filter =>
            let! matched := update_one Jobs execution_filter (set_all update) in
            if negb matched then st_ret _lost_execution_ownership
            else
              let! _ := audit context now (dict_get_or job "actor" (PStr "system"))
                          ("job_" +:+ lower (text update.["status"])) job.["id"] in
              st_ret update
        end
  end.

(** [complete_job]: the attempts, each with its clock reading and the outcome of
    its commit, until one returns; [None] when the process is closed first. *)
Fixpoint complete_job (job update context : pydict) (attempts : list (Z * fate)) : dbm (option pydict) :=
  match attempts with
  | [] => st_ret None
  | (now, f) :: attempts =>
      st_catch (let! r := transaction f (complete_commit job update context now) in st_ret (Some r))
        (fun _ => Some (complete_job job update context attempts))
  end.

(** [cancel_job]; [readable] is whether the confirming read works. *)
Definition cancel_commit (actor : pyval) (job context : pydict) (now : Z) : dbm unit :=
  let! modified := update_one Jobs (fun d => fld d "id" job.["id"] && fld_in d "status" [QUEUED; RUNNING_JOB])
    (set_all [("status", CANCELLED)]) in
  if modified
  then audit context now actor ("cancel_" +:+ lower (text job.["kind"])) job.["id"]
  else st_ret tt.

Definition cancel_job (actor : pyval) (job context : pydict) (now : Z) (f : fate) (readable : bool) : dbm unit :=
  st_catch (transaction f (cancel_commit actor job context now))
    (fun e => if is_pymongo e
              then Some (let! confirmed := (if readable
                           then find_one Jobs (fun d => fld d "id" job.["id"] && fld d "status" CANCELLED)
                           else st_ret None) in
                         match confirmed with
                         | Some _ => st_ret tt
                         | None => st_raise (Http 503 "作业取消结果未知，请查询状态后重试")
                         end)
              else None).

(** ** Progress and partial results of a running job ([logs/jobs.py], [logs/search_results.py]) *)

Record progress := Progress { pr_weights : list Z; pr_total : Z; pr_completed : Z; pr_position : nat; pr_persisted : Z }.

(** `JobProgress.__init__`: the frozen bytes, or equal weights when all are zero. *)
Definition new_progress (sizes : list Z) (persisted : Z) : progress :=
  let weights := map (Z.max 0) sizes in
  let weights := if zsum weights =? 0 then map (fun _ => 1) sizes else weights in
  Progress weights (zsum weights) 0 0 persisted.

(** The value a segment that was just processed should publish. *)
Definition candidate (p : progress) : Z := Z.min 99 (pr_completed p * 100 / pr_total p).

(** [JobProgress.advance]: the filter of the owner, then the update. *)
Definition progress_filter (job : pydict) (now : Z) (d : pydict) : bool :=
  fld d "id" job.["id"] && fld d "status" RUNNING_JOB
  && (if truthy job.["executionToken"]
      then fld d "executionToken" job.["executionToken"] && fld d "nodeId" job.["nodeId"] && time_gt d "leaseUntil" now
      else absent d "executionToken").

Definition advance (job : pydict) (now : Z) (p : progress) : dbm progress :=
  if (length (pr_weights p) <=? pr_position p)%nat || (pr_total p <=? 0) then st_ret p
  else
    let p := Progress (pr_weights p) (pr_total p) (pr_completed p + default 0 (pr_weights p !! pr_position p))
               (S (pr_position p)) (pr_persisted p) in
    if candidate p <=? pr_persisted p then st_ret p
    else
      let! before := find_one Jobs (progress_filter job now) in
      let! matched := update_one Jobs (progress_filter job now) (set_all [("progress", PInt (candidate p))]) in
      let modified := match before with Some d => negb (fld d "progress" (PInt (candidate p))) | None => false end in
      st_ret (if matched && modified
              then Progress (pr_weights p) (pr_total p) (pr_completed p) (pr_position p) (candidate p)
              else p).

(** [_running_filter] and [publish_search_results]. *)
Definition running_filter (job : pydict) (now : Z) (d : pydict) : bool :=
  fld d "id" job.["id"] && fld d "status" RUNNING_JOB
  && (if truthy job.["executionToken"]
      then fld d "executionToken" job.["executionToken"] && fld d "nodeId" job.["nodeId"] && time_gt d "leaseUntil" now
      else fld d "executionToken" PNone).

Definition publish_search_results (job : pydict) (results : list pyval) (now : Z) : dbm bool :=
  match results with
  | [] => st_ret true
  | _ => update_one Jobs (running_filter job now)
           (set_all [("results", PList results); ("resultCount", PInt (zlen results))])
  end.

(** ** Every job ends once *)

Definition ended (d : pydict) : bool := negb (fld_in d "status" [QUEUED; RUNNING_JOB]).

(** The audit records of the end of a job. *)
Definition end_audit (id : pyval) (a : pydict) : bool :=
  fld a "targetId" id
  && match a.["action"] with PStr s => String.prefix "job_" s || String.prefix "cancel_" s | _ => false end.

Definition ends (id : pyval) (audits : list pydict) : nat := length (filter (fun a => end_audit id a = true) audits).

Lemma ends_snoc id audits a : ends id (audits ++ [a]) = (ends id audits + (if end_audit id a then 1 else 0))%nat.
Proof. unfold ends. rewrite filter_app, length_app, filter_cons. by destruct (end_audit id a). Qed.

(** Identifiers are unique and a job has an ending record if and only if it ended. *)
Record job_inv (db : database) : Prop := JobInv {
  inv_ids : NoDup (map (fun d => d.["id"]) (content db Jobs));
  inv_ends : forall d, d ∈ content db Jobs -> ends d.["id"] (content db Audit) = if ended d then 1%nat else 0%nat;
  inv_none : forall id, id ∉ map (fun d => d.["id"]) (content db Jobs) -> ends id (content db Audit) = 0%nat }.

(** Jobs that have ended stay, with their status. *)
Definition kept (db db' : database) : Prop :=
  forall d, d ∈ content db Jobs -> ended d = true ->
    exists d', d' ∈ content db' Jobs /\ d'.["id"] = d.["id"] /\ d'.["status"] = d.["status"].

Definition lawful (db db' : database) : Prop := job_inv db' /\ kept db db'.

Lemma lawful_refl db : job_inv db -> lawful db db.
Proof. intros Hi. split; [done|]. intros d Hd _. by exists d. Qed.

Lemma job_ended_status d d' : d'.["status"] = d.["status"] -> ended d' = ended d.
Proof. intros E. unfold ended, fld_in, fld. cbn. by rewrite E. Qed.

Lemma lawful_trans db1 db2 db3 : lawful db1 db2 -> lawful db2 db3 -> lawful db1 db3.
Proof.
  intros [_ Hk1] [Hi Hk2]. split; [done|]. intros d Hd He. destruct (Hk1 d Hd He) as (d2 & Hd2 & E1 & E2).
  destruct (Hk2 d2 Hd2) as (d3 & Hd3 & E3 & E4); [by rewrite (job_ended_status d)|]. exists d3. split_and!; [done|congruence|congruence].
Qed.

(** Only [Jobs] and [Audit] matter. *)
Lemma lawful_same db db' : content db' Jobs = content db Jobs -> content db' Audit = content db Audit -> job_inv db -> lawful db db'.
Proof.
  intros E1 E2 [H1' H2' H3']. split; [split; by rewrite ?E1, ?E2|]. intros d Hd _. exists d. by rewrite E1.
Qed.

(** A job [d] in the middle becomes [d']: it goes on, or it ends with a record. *)
Lemma change_lawful db db' l d d' r :
  job_inv db -> content db Jobs = l ++ d :: r -> content db' Jobs = l ++ d' :: r -> d'.["id"] = d.["id"] ->
  (ended d = ended d' /\ (ended d = true -> d'.["status"] = d.["status"]) /\ content db' Audit = content db Audit)
  \/ (ended d = false /\ ended d' = true /\ exists a, content db' Audit = content db Audit ++ [a] /\ a.["targetId"] = d.["id"]
      /\ end_audit d.["id"] a = true) -> lawful db db'.
Proof.
  intros [Hids Hends Hnone] E1 E2 Eid Hcase.
  assert (Hmap : map (fun d => d.["id"]) (content db' Jobs) = map (fun d => d.["id"]) (content db Jobs))
    by (rewrite E1, E2, !map_app; cbn; by rewrite Eid).
  assert (Hoth : forall x, x ∈ l ++ r -> x.["id"] <> d.["id"] /\ x ∈ content db Jobs).
  { intros x Hx. rewrite E1 in Hids |- *. rewrite map_app in Hids. cbn in Hids. split; [|set_solver].
    intros E. apply NoDup_app in Hids as (Hl & Hlr & Hr). apply NoDup_cons in Hr as [Hr _].
    apply elem_of_app in Hx as [Hx|Hx].
    - apply (Hlr d.["id"]); [rewrite <- E; by apply (list_elem_of_fmap_2 (fun d : pydict => d.["id"]))|left].
    - apply Hr. rewrite <- E. by apply (list_elem_of_fmap_2 (fun d : pydict => d.["id"])). }
  assert (Hd : d ∈ content db Jobs) by (rewrite E1; apply elem_of_middle).
  split; [split; [by rewrite Hmap| |rewrite Hmap]|].
  - intros x Hx. rewrite E2 in Hx. apply elem_of_app in Hx as [Hx|[->|Hx]%elem_of_cons].
    2: { rewrite Eid. destruct Hcase as [(E & _ & ->)|(He & He' & a & -> & _ & Ha)].
      - rewrite <- E. by apply Hends.
      - rewrite ends_snoc, Ha, (Hends d Hd), He, He'. done. }
    1, 2: destruct (Hoth x) as [Hne Hin]; [set_solver|]; destruct Hcase as [(_ & _ & ->)|(_ & _ & a & -> & Et & _)]; [by apply Hends|];
      rewrite ends_snoc, (Hends x Hin); unfold end_audit, fld; rewrite Et, bool_decide_eq_false_2 by done; cbn; lia.
  - intros id Hid. destruct Hcase as [(_ & _ & ->)|(_ & _ & a & -> & Et & _)]; [by apply Hnone|].
    rewrite ends_snoc, (Hnone id Hid). unfold end_audit, fld. rewrite Et, bool_decide_eq_false_2; [done|].
    intros E. apply Hid. rewrite <- E. by apply (list_elem_of_fmap_2 (fun d : pydict => d.["id"])).
  - intros x Hx He. rewrite E1 in Hx. destruct (decide (x = d)) as [->|Hn].
    + exists d'. split; [rewrite E2; apply elem_of_middle|]. split; [done|].
      destruct Hcase as [(_ & Hs & _)|(Hf & _)]; [by apply Hs|congruence].
    + exists x. split; [rewrite E2; set_solver|done].
Qed.

Lemma prefix_app p s : String.prefix p (p +:+ s) = true.
Proof. induction p as [|a p IH]; [by destruct s|]. change (String a p +:+ s) with (String a (p +:+ s)). cbn. by destruct (Ascii.ascii_dec a a). Qed.

Lemma set_all_get changes d k : NoDup (map fst changes) ->
  (set_all changes d).[k] = match dict_lookup changes k with Some v => v | None => d.[k] end.
Proof.
  unfold set_all. revert d. induction changes as [|[k' v] changes IH]; intros d Hnd; cbn; [done|].
  cbn in Hnd. apply NoDup_cons in Hnd as [Hn Hnd]. rewrite IH by done. destruct (decide (k = k')) as [->|Hne].
  - destruct (dict_lookup changes k') as [w|] eqn:E; [|by rewrite get_set_eq]. exfalso. apply Hn.
    clear -E. induction changes as [|[k2 w2] l IH]; cbn in *; [done|]. case_decide; [subst; left|right; auto].
  - destruct (dict_lookup changes k); [done|]. by rewrite get_set_ne.
Qed.

(** A document of jobs changes within a computation that adds [a] or nothing. *)
Lemma updated_lawful q f d db db1 db' : job_inv db -> updated Jobs q f d db db1 ->
  content db' Jobs = content db1 Jobs -> (f d).["id"] = d.["id"] ->
  (ended d = ended (f d) /\ (ended d = true -> (f d).["status"] = d.["status"]) /\ content db' Audit = content db Audit)
  \/ (ended d = false /\ ended (f d) = true /\ exists a, content db' Audit = content db Audit ++ [a] /\ a.["targetId"] = d.["id"]
      /\ end_audit d.["id"] a = true) -> lawful db db'.
Proof. intros Hi (_ & (l & r & E1 & E2) & _) Ej Hid Hc. eapply change_lawful; eauto. by rewrite Ej. Qed.

Lemma running_not_ended d : d.["status"] = RUNNING_JOB -> ended d = false.
Proof. intros E. unfold ended, fld_in, fld. cbn. by rewrite E. Qed.

Lemma queued_not_ended d : d.["status"] = QUEUED -> ended d = false.
Proof. intros E. unfold ended, fld_in, fld. cbn. by rewrite E. Qed.

Lemma ended_by d v : d.["status"] = v -> v <> QUEUED -> v <> RUNNING_JOB -> ended d = true.
Proof. intros E H1' H2'. unfold ended, fld_in, fld. cbn. rewrite E, !bool_decide_eq_false_2 by done. done. Qed.

Lemma end_audit_job id a s : a.["targetId"] = id -> a.["action"] = PStr ("job_" +:+ s) -> end_audit id a = true.
Proof. intros E1 E2. unfold end_audit, fld. by rewrite E1, E2, prefix_app, bool_decide_eq_true_2. Qed.

Lemma end_audit_cancel id a s : a.["targetId"] = id -> a.["action"] = PStr ("cancel_" +:+ s) -> end_audit id a = true.
Proof. intros E1 E2. unfold end_audit, fld. by rewrite E1, E2, prefix_app, orb_true_r, bool_decide_eq_true_2. Qed.

Context `{!MongoLaws}.

Lemma claim_lawful node_id instance_id token now db : job_inv db ->
  wp (claim_job node_id instance_id token now) (fun _ db' => lawful db db') db.
Proof.
  intros Hi. unfold claim_job. apply wp_bind, wp_find_all. intros queued _. cbn [on_ok].
  destruct (head (queue_order queued)) as [first|]; [|by apply wp_ret, lawful_refl].
  apply wp_update; [|intros _; by apply lawful_refl]. intros d db' Hup. pose proof Hup as (Hq & _ & Ho). freflect.
  eapply updated_lawful; [done|exact Hup|done|cbn; by dget|]. left.
  split_and!; [|cbn; rewrite queued_not_ended by done; done|by apply Ho].
  rewrite queued_not_ended by done. symmetry. apply running_not_ended. cbn. by dget.
Qed.

Lemma renew_lawful node_id job now db : job_inv db -> wp (renew_job node_id job now) (fun _ db' => lawful db db') db.
Proof.
  intros Hi. unfold renew_job. destruct (_ || _); [by apply wp_ret, lawful_refl|].
  apply wp_update_one; [|intros _; by apply lawful_refl]. intros d db' Hup. pose proof Hup as (Hq & _ & Ho).
  eapply updated_lawful; [done|exact Hup|done|cbn; by dget|]. left.
  assert (Es : (set_all [("leaseUntil", lease_end now)] d).["status"] = d.["status"]) by (cbn; by dget).
  split_and!; [symmetry; by apply job_ended_status|done|by apply Ho].
Qed.

(** A change of other fields. *)
Lemma touch_lawful q changes db : job_inv db -> NoDup (map fst changes) ->
  dict_lookup changes "id" = None -> dict_lookup changes "status" = None ->
  wp (update_one Jobs q (set_all changes)) (fun _ db' => lawful db db') db.
Proof.
  intros Hi Hnd Hid Hs. apply wp_update_one; [|intros _; by apply lawful_refl]. intros d db' Hup. pose proof Hup as (_ & _ & Ho).
  eapply updated_lawful; [done|exact Hup|done|by rewrite set_all_get, Hid|]. left.
  assert (Es : (set_all changes d).["status"] = d.["status"]) by (by rewrite set_all_get, Hs).
  split_and!; [symmetry; by apply job_ended_status|done|by apply Ho].
Qed.

(** An operation in a transaction, its commit lost or not. *)
Lemma transaction_lawful {A} (m : dbm A) f db : job_inv db ->
  wp m (fun r db' => match r with Ok _ => lawful db db' | Raise _ => True end) db ->
  wp (transaction f m) (fun _ db' => lawful db db') db.
Proof.
  intros Hi Hm. apply wp_transaction. eapply wp_mono; [exact Hm|]. intros [a|e] db' Hr; [|by apply lawful_refl].
  destruct f as [|[]]; [done|done|by apply lawful_refl].
Qed.

Lemma recover_commit_lawful job context timestamp db : job_inv db ->
  wp (recover_commit job context timestamp) (fun r db' => match r with Ok _ => lawful db db' | Raise _ => True end) db.
Proof.
  intros Hi. unfold recover_commit. apply wp_bind, wp_find_one; cbn [on_ok]; [|intros _; by apply wp_ret, lawful_refl].
  intros current _ Hcur. apply wp_bind, wp_update_one; cbn [on_ok]; [|intros _; by apply wp_ret, lawful_refl].
  intros d db1 Hup. pose proof Hup as (Hq & _ & Ho). unfold expired_condition in Hq, Hcur. freflect. cbn [negb].
  apply wp_bind, wp_audit_target. intros a db2 Ea Hact Htg Ho2. cbn [on_ok]. apply wp_ret.
  eapply updated_lawful; [done|exact Hup|by apply Ho2|unfold unset_all, set_all; cbn [foldl fst snd]; by dget|]. right.
  split_and!; [by apply running_not_ended| |].
  - eapply (ended_by _ FAILED); [unfold unset_all, set_all; cbn [foldl fst snd]; by dget|done|done].
  - exists a. rewrite Ea, (Ho Audit) by done. split_and!; [done|congruence|]. by apply (end_audit_job _ _ "failed"); [congruence|].
Qed.

Lemma wp_st_catch_lawful {A} (m : dbm A) h db : wp m (fun _ db' => lawful db db') db ->
  (forall e k db1, lawful db db1 -> h e = Some k -> wp k (fun _ db' => lawful db1 db') db1) ->
  wp (st_catch m h) (fun _ db' => lawful db db') db.
Proof.
  intros Hm Hh. apply wp_catch. eapply wp_mono; [exact Hm|]. intros [a|e] db1 Hl; [done|].
  destruct (h e) as [k|] eqn:E; [|done]. eapply wp_mono; [by apply (Hh e k)|]. intros r db' Hl'. by eapply lawful_trans.
Qed.

Lemma recover_lawful node_id context timestamp fates db : job_inv db ->
  wp (recover_expired_jobs node_id context timestamp fates) (fun _ db' => lawful db db') db.
Proof.
  intros Hi. unfold recover_expired_jobs. apply wp_bind, wp_find_all. intros jobs _. cbn [on_ok].
  revert db Hi. induction jobs as [|job jobs IH]; intros db Hi; [by apply wp_ret, lawful_refl|]. cbn [recover_each].
  apply wp_bind. eapply wp_mono.
  { apply wp_st_catch_lawful.
    - unfold _recover_expired_job. destruct (_ || _); [by apply wp_ret, lawful_refl|].
      by apply transaction_lawful, recover_commit_lawful.
    - intros e k db1 [Hi1 _] [= <-]. by apply wp_ret, lawful_refl. }
  intros [b|e] db1 Hl; [|done]. cbn [on_ok]. apply wp_bind. eapply wp_mono; [apply IH; by destruct Hl|].
  intros [n|e] db2 Hl2; cbn [on_ok]; [apply wp_ret|]; by eapply lawful_trans.
Qed.

(** The fields an executor may end a job with. *)
Definition ending_update (update : pydict) : Prop :=
  NoDup (map fst update) /\ dict_lookup update "id" = None
  /\ exists s, dict_lookup update "status" = Some (PStr s) /\ PStr s <> QUEUED /\ PStr s <> RUNNING_JOB.

Lemma complete_commit_lawful job update context now db : job_inv db -> ending_update update ->
  wp (complete_commit job update context now) (fun r db' => match r with Ok _ => lawful db db' | Raise _ => True end) db.
Proof.
  intros Hi (Hnd & Hid & s & Hs & Hn1 & Hn2). unfold complete_commit.
  apply wp_bind, wp_find_one; cbn [on_ok]; [|intros _; by apply wp_ret, lawful_refl].
  intros current _ Hcur. destruct (fld current "status" RUNNING_JOB); cbn [negb]; [|by apply wp_ret, lawful_refl].
  destruct (_running_execution_filter job current now) as [q|] eqn:Eq; [|by apply wp_ret, lawful_refl].
  apply wp_bind, wp_update_one; cbn [on_ok]; [|intros _; by apply wp_ret, lawful_refl].
  intros d db1 Hup. cbn [negb]. pose proof Hup as (Hq & _ & Ho).
  assert (Hd : d.["id"] = job.["id"] /\ d.["status"] = RUNNING_JOB).
  { unfold _running_execution_filter in Eq. destruct (_ && _); [injection Eq as <-|destruct (_ || _); [done|injection Eq as <-]]; by freflect. }
  destruct Hd as [Hdid Hds].
  apply wp_bind, wp_audit_target. intros a db2 Ea Hact Htg Ho2. cbn [on_ok]. apply wp_ret.
  eapply updated_lawful; [done|exact Hup|by apply Ho2|by rewrite set_all_get, Hid|]. right.
  split_and!; [by apply running_not_ended|eapply (ended_by _ (PStr s)); [by rewrite set_all_get, Hs|done|done]|].
  exists a. rewrite Ea, (Ho Audit) by done. split_and!; [done|congruence|]. eapply end_audit_job; [congruence|exact Hact].
Qed.

Lemma complete_lawful job update context attempts db : job_inv db -> ending_update update ->
  wp (complete_job job update context attempts) (fun _ db' => lawful db db') db.
Proof.
  intros Hi Hu. revert db Hi. induction attempts as [|[now f] attempts IH]; intros db Hi; [by apply wp_ret, lawful_refl|].
  cbn [complete_job]. apply wp_st_catch_lawful.
  - apply wp_bind. eapply wp_mono; [by apply transaction_lawful, complete_commit_lawful|]. by intros [r|e] db1 Hl.
  - intros e k db1 [Hi1 _] [= <-]. by apply IH.
Qed.

Lemma cancel_lawful actor job context now f readable db : job_inv db ->
  wp (cancel_job actor job context now f readable) (fun _ db' => lawful db db') db.
Proof.
  intros Hi. unfold cancel_job. apply wp_st_catch_lawful.
  - apply transaction_lawful; [done|]. unfold cancel_commit. apply wp_bind, wp_update_one; cbn [on_ok]; [|intros _; by apply wp_ret, lawful_refl].
    intros d db1 Hup. pose proof Hup as (Hq & _ & Ho). apply andb_prop in Hq as [Hid Hst]. apply fld_true in Hid.
    apply wp_audit_target. intros a db2 Ea Hact Htg Ho2.
    eapply updated_lawful; [done|exact Hup|by apply Ho2|cbn; by dget|]. right.
    split_and!; [unfold ended; by rewrite Hst|eapply (ended_by _ CANCELLED); [cbn; by dget|done|done]|].
    exists a. rewrite Ea, (Ho Audit) by done. split_and!; [done|congruence|]. eapply end_audit_cancel; [congruence|exact Hact].
  - intros e k db1 [Hi1 _] Hk. destruct (is_pymongo e); [|done]. injection Hk as <-. apply wp_bind.
    destruct readable; [apply wp_find_one; cbn [on_ok]; intros; [by apply wp_ret, lawful_refl|by apply wp_raise, lawful_refl]|].
    apply wp_ret. cbn [on_ok]. by apply wp_raise, lawful_refl.
Qed.

Lemma advance_lawful job now p db : job_inv db -> wp (advance job now p) (fun _ db' => lawful db db') db.
Proof.
  intros Hi. unfold advance. destruct (_ || _); [by apply wp_ret, lawful_refl|]. cbv zeta.
  destruct (_ <=? _); [by apply wp_ret, lawful_refl|].
  apply wp_bind. apply (wp_mono _ (fun _ db' => db' = db)); [apply wp_find_one; by intros|]. intros [before|e] db0 ->; [|by apply lawful_refl].
  cbn [on_ok]. apply wp_bind. eapply wp_mono; [apply touch_lawful; [done|apply NoDup_singleton|done|done]|].
  intros [b|e] db1 Hl; cbn [on_ok]; [by apply wp_ret|done].
Qed.

Lemma publish_lawful job results now db : job_inv db -> wp (publish_search_results job results now) (fun _ db' => lawful db db') db.
Proof.
  intros Hi. unfold publish_search_results. destruct results; [by apply wp_ret, lawful_refl|].
  apply touch_lawful; [done| |done|done]. cbn. apply NoDup_cons. split; [set_solver|apply NoDup_singleton].
Qed.

(** A queued job is added, with the record of its submission. *)
Definition submit_rows (document context : pydict) (kind : string) (now : Z) : dbm unit :=
  let! _ := insert_one Jobs document in audit context now document.["actor"] kind document.["id"].

Lemma submit_lawful document context kind now db : job_inv db -> document.["status"] = QUEUED ->
  kind = "DOWNLOAD" \/ kind = "SEARCH" ->
  wp (submit_rows document context kind now) (fun r db' => match r with Ok _ => lawful db db' | Raise _ => True end) db.
Proof.
  intros [Hids Hends Hnone] Hs Hk. unfold submit_rows. apply wp_bind, wp_insert; cbn [on_ok]; [|done].
  intros db1 Hno E1 O1. apply wp_audit_target. intros a db2 Ea Hact Htg O2.
  assert (Ej : content db2 Jobs = content db Jobs ++ [document]) by by rewrite O2, E1.
  assert (Eau : content db2 Audit = content db Audit ++ [a]) by by rewrite Ea, O1.
  assert (Hfresh : document.["id"] ∉ map (fun d => d.["id"]) (content db Jobs)).
  { intros (x & Ex & Hx)%list_elem_of_fmap. specialize (Hno x Hx). unfold clash in Hno. cbn in Hno.
    rewrite andb_true_r in Hno. apply fld_false in Hno. congruence. }
  assert (Hna : forall id, end_audit id a = false).
  { intros id. unfold end_audit. rewrite Hact. destruct Hk as [-> | ->]; by rewrite andb_false_r. }
  split; [split|].
  - rewrite Ej, map_app. apply NoDup_app. split_and!; [done| |apply NoDup_singleton].
    intros x Hx Hx2%list_elem_of_singleton. subst x. done.
  - intros d Hd. rewrite Ej in Hd. rewrite Eau, ends_snoc, Hna, Nat.add_0_r. apply elem_of_app in Hd as [Hd|Hd%list_elem_of_singleton].
    + by apply Hends.
    + subst d. rewrite queued_not_ended by done. by apply Hnone.
  - intros id Hid. rewrite Eau, ends_snoc, Hna, Nat.add_0_r. apply Hnone. intros Hx. apply Hid. rewrite Ej, map_app. set_solver.
  - intros d Hd _. exists d. rewrite Ej. split; [set_solver|done].
Qed.

(** ** All operations on jobs, by whatever process *)
Inductive job_step (db : database) : database -> Prop :=
  | Submits document context kind now f : document.["status"] = QUEUED -> kind = "DOWNLOAD" \/ kind = "SEARCH" ->
      job_step db (transaction f (submit_rows document context kind now) db).2
  | Claims node_id instance_id token now : job_step db (claim_job node_id instance_id token now db).2
  | Renews node_id job now : job_step db (renew_job node_id job now db).2
  | Advances job now p : job_step db (advance job now p db).2
  | Publishes job results now : job_step db (publish_search_results job results now db).2
  | Recovers node_id context timestamp fates : job_step db (recover_expired_jobs node_id context timestamp fates db).2
  | Completes job update context attempts : ending_update update ->
      job_step db (complete_job job update context attempts db).2
  | Cancels actor job context now f readable : job_step db (cancel_job actor job context now f readable db).2.

Lemma job_step_lawful db db' : job_inv db -> job_step db db' -> lawful db db'.
Proof.
  assert (Hwp : forall A (m : dbm A), wp m (fun _ db' => lawful db db') db -> lawful db (m db).2).
  { intros A m Hm. unfold wp in Hm. by destruct (m db). }
  intros Hi []; apply Hwp.
  - by apply transaction_lawful, submit_lawful.
  - by apply claim_lawful.
  - by apply renew_lawful.
  - by apply advance_lawful.
  - by apply publish_lawful.
  - by apply recover_lawful.
  - by apply complete_lawful.
  - by apply cancel_lawful.
Qed.

(** C19: a job ends at most once and its outcome is final.  After any
    interleaving of submissions, claims, renewals, progress, recoveries of
    expired leases, completions and cancellations, by any executor, current or
    superseded, and whatever happens to their commits, a job has one ending
    audit record if it has ended and none otherwise, and a job that had ended
    still has the same status. *)
Theorem job_ends_once db db' : job_inv db -> rtc job_step db db' ->
  job_inv db' /\ forall d, d ∈ content db Jobs -> ended d = true ->
    exists d', d' ∈ content db' Jobs /\ d'.["id"] = d.["id"] /\ d'.["status"] = d.["status"]
      /\ ends d'.["id"] (content db' Audit) = 1%nat.
Proof.
  intros Hi Hsteps. assert (Hl : lawful db db').
  { induction Hsteps as [db|db1 db2 db3 Hs _ IH]; [by apply lawful_refl|].
    pose proof (job_step_lawful _ _ Hi Hs) as Hl. eapply lawful_trans; [exact Hl|]. apply IH. by destruct Hl. }
  destruct Hl as [Hi' Hk]. split; [done|]. intros d Hd He. destruct (Hk d Hd He) as (d' & Hd' & E1 & E2).
  exists d'. split_and!; try done. destruct Hi' as [_ Hends _]. rewrite (Hends d' Hd'), (job_ended_status d), He; done.
Qed.
End jobs.

(** ** Witness: a job completed by its executor after a lost confirmation, then
    cancelled too late *)

#[local] Existing Instance list_mongo.
#[local] Existing Instance list_mongo_laws.

Definition running_job : pydict :=
  [("id", PStr "j"); ("nodeId", PStr "n"); ("status", RUNNING_JOB); ("executionToken", PStr "x"); ("kind", PStr "SEARCH");
   ("leaseUntil", PTime (Aware 100))].

Definition job_db : database := fun c => match c with Jobs => [running_job] | _ => [] end.

Definition success : pydict := [("status", PStr "SUCCEEDED"); ("progress", PInt 100)].

Lemma job_ends_once_witness :
  let db1 := (complete_job running_job success [] [(5, Uncertain true); (6, Committed)] job_db).2 in
  let db2 := (cancel_job (PStr "u") running_job [] 7 Committed true db1).2 in
  job_inv db2 /\ map (fun d => d.["status"]) (content db2 Jobs) = [PStr "SUCCEEDED"].
Proof.
  cbv zeta. set (db1 := (complete_job _ _ _ _ _).2). set (db2 := (cancel_job _ _ _ _ _ _ db1).2). split; [|by vm_compute].
  assert (Hi : job_inv job_db).
  { split; [apply NoDup_singleton|intros d Hd%list_elem_of_singleton; subst d; by vm_compute|done]. }
  refine (proj1 (job_ends_once job_db db2 Hi _)).
  apply (rtc_l job_step _ db1); [|apply rtc_once; apply Cancels].
  apply Completes. split_and!; [|done|exists "SUCCEEDED"; by vm_compute].
  apply NoDup_cons. split; [set_solver|apply NoDup_singleton].
Defined.
