(* ===== verification/JobRows.v ===== *)
(** * What the operations on jobs leave alone

    The operations of [Jobs] on existing rows change only rows that have not
    ended, and only some of their fields.  A preorder on the rows that allows such
    a change therefore relates the rows before and after each operation, however
    its commit ends. *)

From stdpp Require Import sets.
From S2P Require Import Prelude PyTime PyValue Mongo Ownership Commands Jobs.
Open Scope camera_scope.

(** The fields the operations set besides those of a completion. *)
Definition written_keys : list string :=
  ["status"; "executionToken"; "workerInstanceId"; "leaseUntil"; "startedAt"; "error"; "errorMessage"; "completedAt"; "progress";
   "results"; "resultCount"].

Section operations.
Context `{Mongo}.
Variable keys : list string.

Inductive row_operation (db : database) : database -> Prop :=
  | Row_claim n instance_id token now : row_operation db (claim_job n instance_id token now db).2
  | Row_renew n job now : row_operation db (renew_job n job now db).2
  | Row_advance job now p : row_operation db (advance job now p db).2
  | Row_publish job results now : row_operation db (publish_search_results job results now db).2
  | Row_recover n context timestamp fates : row_operation db (recover_expired_jobs n context timestamp fates db).2
  | Row_complete job update context attempts : NoDup (map fst update) -> (forall k, k ∈ keys -> dict_lookup update k = None) ->
      row_operation db (complete_job job update context attempts db).2
  | Row_cancel actor job context now f readable : row_operation db (cancel_job actor job context now f readable db).2.

Context `{!MongoLaws}.
Variable rel : list pydict -> list pydict -> Prop.
Context `{!PreOrder rel}.

(** Computations that keep the rows related. *)
Definition calm_db (db db' : database) : Prop := rel (content db Jobs) (content db' Jobs) /\ frame [Jobs; Audit] db db'.

#[local] Instance calm_db_preorder : PreOrder calm_db.
Proof.
  split; [intros db; split; [reflexivity|done]|]. intros db1 db2 db3 [R1 F1] [R2 F2]. split; [by etransitivity|].
  eapply frame_weaken; [by eapply frame_trans|]. set_solver.
Qed.

Definition calm {A} (m : dbm A) : Prop := forall db, wp m (fun _ db' => calm_db db db') db.

Lemma calm_same {A} (m : dbm A) : (forall db, wp m (fun _ db' => frame [Audit] db db') db) -> calm m.
Proof.
  intros Hm db. eapply wp_mono; [apply Hm|]. intros r db' Hf. split; [rewrite Hf by set_solver; reflexivity|].
  apply (frame_weaken [Audit]); [exact Hf|]. set_solver.
Qed.

Lemma calm_ret {A} (a : A) : calm (st_ret a).
Proof. by apply calm_same. Qed.

Lemma calm_find_one c q : calm (find_one c q).
Proof. apply calm_same. intros db. by apply wp_find_one. Qed.

Lemma calm_find_all c q : calm (find_all c q).
Proof. apply calm_same. intros db. by apply wp_find_all. Qed.

Lemma calm_audit context now actor action target : calm (audit context now actor action target).
Proof. apply calm_same. intros db. apply wp_audit. intros d db' _ _ Ho. by apply frame_one. Qed.

Lemma calm_bind {A B} (m : dbm A) (k : A -> dbm B) : calm m -> (forall a, calm (k a)) -> calm (st_bind m k).
Proof.
  intros Hm Hk db. apply wp_bind. eapply wp_mono; [apply Hm|]. intros [a|e] db1 Hd; cbn [on_ok]; [|done].
  eapply wp_mono; [apply Hk|]. intros r db2 Hd2. by etransitivity.
Qed.

Lemma calm_transaction {A} (m : dbm A) f : calm m -> calm (transaction f m).
Proof.
  intros Hm db. apply wp_transaction. eapply wp_mono; [apply Hm|]. intros [a|e] db' Hd; [|reflexivity].
  destruct f as [|[]]; [done|done|reflexivity].
Qed.

Lemma calm_catch {A} (m : dbm A) h : calm m -> (forall e k, h e = Some k -> calm k) -> calm (st_catch m h).
Proof.
  intros Hm Hh db. apply wp_catch. eapply wp_mono; [apply Hm|]. intros [a|e] db1 Hd; [done|].
  destruct (h e) as [k|] eqn:E; [|done]. eapply wp_mono; [apply (Hh e k E)|]. intros r db2 Hd2. by etransitivity.
Qed.

Lemma calm_if {A} (b : bool) (m m' : dbm A) : calm m -> calm m' -> calm (if b then m else m').
Proof. by destruct b. Qed.

Hypothesis keys_free : forall k, k ∈ keys -> k ∉ written_keys.
Hypothesis rel_change : forall l d d' r, ended d = false -> (forall k, k ∈ keys -> d'.[k] = d.[k]) -> rel (l ++ d :: r) (l ++ d' :: r).

Lemma calm_update q f : (forall d, q d = true -> ended d = false) -> (forall d k, k ∈ keys -> (f d).[k] = d.[k]) ->
  calm (find_one_and_update Jobs q f).
Proof.
  intros Hq Hf db. apply wp_update; [|intros _; reflexivity]. intros d db' (Hqd & (l & r & E & E') & Ho).
  split; [rewrite E, E'; apply rel_change; auto|]. eapply frame_weaken; [by apply frame_one|]. set_solver.
Qed.

Lemma calm_update_one q f : (forall d, q d = true -> ended d = false) -> (forall d k, k ∈ keys -> (f d).[k] = d.[k]) ->
  calm (update_one Jobs q f).
Proof. intros Hq Hf. apply calm_bind; [by apply calm_update|]. intros. apply calm_ret. Qed.

(** The written fields are not among the keys. *)
Lemma free k x : k ∈ keys -> x ∈ written_keys -> k <> x.
Proof. intros Hk Hx ->. by apply (keys_free x). Qed.

Ltac not_ended := let d := fresh "d" in let Hq := fresh "Hq" in intros d Hq; freflect;
  first [by apply queued_not_ended | by apply running_not_ended].
Ltac keep := let Hk := fresh "Hk" in intros ? ? Hk; unfold set_all, unset_all; cbn [foldl fst snd];
  rewrite ?get_unset_ne, ?get_set_ne by (apply free; [exact Hk|unfold written_keys; set_solver]); done.

Lemma recover_calm n context timestamp fates : calm (recover_expired_jobs n context timestamp fates).
Proof.
  apply calm_bind; [apply calm_find_all|]. intros jobs. induction jobs as [|job jobs IH]; [apply calm_ret|]. cbn [recover_each].
  apply calm_bind; [apply calm_catch; [|intros e k [= <-]; apply calm_ret]|intros; apply calm_bind; [done|intros; apply calm_ret]].
  unfold _recover_expired_job. apply calm_if; [apply calm_ret|]. apply calm_transaction, calm_bind; [apply calm_find_one|].
  intros [current|]; [|apply calm_ret]. apply calm_bind.
  - apply calm_update_one; [unfold expired_condition; not_ended|keep].
  - intros []; cbn [negb]; [|apply calm_ret]. apply calm_bind; [apply calm_audit|intros; apply calm_ret].
Qed.

Lemma complete_calm job update context attempts : NoDup (map fst update) -> (forall k, k ∈ keys -> dict_lookup update k = None) ->
  calm (complete_job job update context attempts).
Proof.
  intros Hn Hu. induction attempts as [|[now f] attempts IH]; [apply calm_ret|]. cbn [complete_job].
  apply calm_catch; [|by intros e k [= <-]]. apply calm_bind; [|intros; apply calm_ret].
  apply calm_transaction, calm_bind; [apply calm_find_one|]. intros [current|]; [|apply calm_ret]. apply calm_if; [apply calm_ret|].
  destruct (_running_execution_filter job current now) as [q|] eqn:Eq; [|apply calm_ret]. apply calm_bind.
  - apply calm_update_one; [|intros d k Hk; by rewrite set_all_get, Hu].
    intros d Hq. unfold _running_execution_filter in Eq. destruct (_ && _); [injection Eq as <-|destruct (_ || _); [done|injection Eq as <-]];
      freflect; by apply running_not_ended.
  - intros []; cbn [negb]; [|apply calm_ret]. apply calm_bind; [apply calm_audit|intros; apply calm_ret].
Qed.

Lemma cancel_calm actor job context now f readable : calm (cancel_job actor job context now f readable).
Proof.
  apply calm_catch.
  - apply calm_transaction, calm_bind; [|intros; apply calm_if; [apply calm_audit|apply calm_ret]].
    apply calm_update_one; [|keep]. intros d [_ Hq]%andb_prop. unfold ended. by rewrite Hq.
  - intros e k Hk. destruct (is_pymongo e); [|done]. injection Hk as <-. apply calm_bind.
    + apply calm_if; [apply calm_find_one|apply calm_ret].
    + intros []; [apply calm_ret|by apply calm_same].
Qed.

Lemma calm_run {A} (m : dbm A) db : calm m -> calm_db db (m db).2.
Proof. intros Hm. specialize (Hm db). unfold wp in Hm. by destruct (m db). Qed.

(** The rows of jobs are related; only jobs and audit records change. *)
Lemma row_operation_calm db db' : row_operation db db' -> calm_db db db'.
Proof.
  intros Hop. destruct Hop; apply calm_run.
  - apply calm_bind; [apply calm_find_all|]. intros queued. destruct (head _); [|apply calm_ret].
    apply calm_update; [not_ended|keep].
  - apply calm_if; [apply calm_ret|]. apply calm_update_one; [not_ended|keep].
  - apply calm_if; [apply calm_ret|]. cbv zeta. apply calm_if; [apply calm_ret|]. apply calm_bind; [apply calm_find_one|]. intros before.
    apply calm_bind; [apply calm_update_one; [unfold progress_filter; not_ended|keep]|intros; apply calm_ret].
  - unfold publish_search_results. destruct results; [apply calm_ret|].
    apply calm_update_one; [unfold running_filter; not_ended|keep].
  - apply recover_calm.
  - by apply complete_calm.
  - apply cancel_calm.
Qed.
End operations.
