(* ===== verification/ArchiveQueue.v ===== *)
(** * The background queue of archive jobs ([logs/compression.py])

    Sealed hours wait on disk as spools; the process keeps a bounded set of them
    in a queue that one dispatcher empties in order.  A failed job backs off, and
    the maintenance schedules it again later.  The state is the record [queue] of
    the module's globals; each event between two `await` points is one step.

    Futures are numbered; ticks are those of the monotonic clock.  All the events are
    those of one event loop in which the code after a publication does not raise;
    [schedule_elsewhere] and [crash_after_success] are the two exits outside them, and
    the examples at the end show what they leave. *)

From S2P Require Import Prelude Archive.
Open Scope camera_scope.

Definition MAX_SCHEDULED_ARCHIVES : nat := 8.
Definition RESERVED_RECOVERY_ARCHIVES : nat := 2.
Definition ARCHIVE_RETRY_BASE_SECONDS : Z := 30.
Definition ARCHIVE_RETRY_MAX_SECONDS : Z := 300.
Definition ARCHIVE_RETRY_MAX_EXPONENT : Z := 4.
Definition MAX_ARCHIVE_RETRY_ENTRIES : nat := 1024.

#[global] Arguments MAX_SCHEDULED_ARCHIVES : simpl never.
#[global] Arguments MAX_ARCHIVE_RETRY_ENTRIES : simpl never.

Inductive kind : Type := KArchive | KSpool.

(** How a future is settled. *)
Inductive outcome : Type := Succeeded | Failed | Cancelled.

(** `BackgroundJob`; [jb_identity] is the scheduled target its callback releases,
    [None] for a job that is awaited by its submitter. *)
Record job := Job { jb_kind : kind; jb_identity : option string; jb_future : nat }.

Record queue := Queue {
  q_jobs : list job;                       (* `_archive_jobs` *)
  q_running : option job;                  (* the dispatcher's current job *)
  q_targets : list string;                 (* `_scheduled_targets` *)
  q_futures : list (string * nat);         (* `_scheduled_futures` *)
  q_not_before : list (string * Q);        (* `_retry_not_before` *)
  q_attempts : list (string * Z);          (* `_retry_attempts` *)
  q_closing : bool;
  q_next : nat;
  q_settled : list (nat * outcome) }.

(** `dict.pop(key, None)`. *)
Definition assoc_pop {A} (k : string) (l : list (string * A)) : list (string * A) := filter (fun kv => kv.1 <> k) l.

#[global] Arguments assoc_pop : simpl never.

(** ** Settling *)

Definition settle (f : nat) (o : outcome) (q : queue) : queue :=
  Queue (q_jobs q) (q_running q) (q_targets q) (q_futures q) (q_not_before q) (q_attempts q) (q_closing q) (q_next q)
    (q_settled q ++ [(f, o)]).

Definition with_retry (not_before : list (string * Q)) (attempts : list (string * Z)) (q : queue) : queue :=
  Queue (q_jobs q) (q_running q) (q_targets q) (q_futures q) not_before attempts (q_closing q) (q_next q) (q_settled q).

Definition retry_delay (attempts : Z) : Z :=
  Z.min (ARCHIVE_RETRY_BASE_SECONDS * 2 ^ Z.min (attempts - 1) ARCHIVE_RETRY_MAX_EXPONENT) ARCHIVE_RETRY_MAX_SECONDS.

(** `_schedule_archive.complete`. *)
Definition complete (identity : string) (o : outcome) (tick : Q) (q : queue) : Z * queue :=
  let q := Queue (q_jobs q) (q_running q) (filter (fun t => t <> identity) (q_targets q)) (assoc_pop identity (q_futures q))
             (q_not_before q) (q_attempts q) (q_closing q) (q_next q) (q_settled q) in
  match o with
  | Succeeded => (0, with_retry (assoc_pop identity (q_not_before q)) (assoc_pop identity (q_attempts q)) q)
  | Cancelled => (0, q)
  | Failed =>
      let attempts := Z.min (default 0 (assoc_get identity (q_attempts q)) + 1) (ARCHIVE_RETRY_MAX_EXPONENT + 1) in
      let counts := assoc_set identity attempts (q_attempts q) in
      let delay := retry_delay attempts in
      let evict := match assoc_get identity (q_not_before q) with
                   | None => (MAX_ARCHIVE_RETRY_ENTRIES <=? length (q_not_before q))%nat
                   | Some _ => false
                   end in
      let '(not_before, counts) :=
        match evict, q_not_before q with
        | true, (oldest, _) :: _ => (assoc_pop oldest (q_not_before q), assoc_pop oldest counts)
        | _, _ => (q_not_before q, counts)
        end in
      (delay, with_retry (assoc_set identity (tick + inject_Z delay)%Q not_before) counts q)
  end.

(** `job.callback(...)`, when there is one. *)
Definition call_back (j : job) (o : outcome) (tick : Q) (q : queue) : queue :=
  match jb_identity j with Some identity => (complete identity o tick q).2 | None => q end.

(** A job is over: its future is settled, then its callback runs. *)
Definition finish (j : job) (o : outcome) (tick : Q) (q : queue) : queue := call_back j o tick (settle (jb_future j) o q).

(** ** Enqueueing *)

(** [_enqueue]: while closing the job is cancelled at once. *)
Definition _enqueue (k : kind) (identity : option string) (tick : Q) (q : queue) : nat * queue :=
  let f := q_next q in
  let j := Job k identity f in
  let q := Queue (q_jobs q) (q_running q) (q_targets q) (q_futures q) (q_not_before q) (q_attempts q) (q_closing q) (S f) (q_settled q) in
  if q_closing q then (f, finish j Cancelled tick q)
  else (f, Queue (q_jobs q ++ [j]) (q_running q) (q_targets q) (q_futures q) (q_not_before q) (q_attempts q)
             (q_closing q) (q_next q) (q_settled q)).

(** [_schedule_archive]; [exists_] is whether the spool or the archive is on
    disk.  The result is the future, [None] when the job is not admitted. *)
Definition _schedule_archive (k : kind) (identity : string) (exists_ : bool) (limit : nat) (tick : Q) (q : queue)
  : option nat * queue :=
  if negb exists_
  then (None, with_retry (assoc_pop identity (q_not_before q)) (assoc_pop identity (q_attempts q)) q)
  else if bool_decide (identity ∈ q_targets q) then (assoc_get identity (q_futures q), q)
  else if negb (Qle_bool (default 0%Q (assoc_get identity (q_not_before q))) tick) then (None, q)
  else if (limit <=? length (q_targets q))%nat then (None, q)
  else
    let q := Queue (q_jobs q) (q_running q) (identity :: q_targets q) (q_futures q) (q_not_before q) (q_attempts q)
               (q_closing q) (q_next q) (q_settled q) in
    let '(f, q) := _enqueue k (Some identity) tick q in
    (Some f, Queue (q_jobs q) (q_running q) (q_targets q) (assoc_set identity f (q_futures q)) (q_not_before q) (q_attempts q)
               (q_closing q) (q_next q) (q_settled q)).

(** [schedule_pending_archive]: a live writer leaves room for recovery. *)
Definition schedule_pending_archive (spool : string) (recovery : option bool) (exists_ : bool) (tick : Q) (q : queue) :=
  let limit := match recovery with
               | Some false => (MAX_SCHEDULED_ARCHIVES - RESERVED_RECOVERY_ARCHIVES)%nat
               | _ => MAX_SCHEDULED_ARCHIVES
               end in
  _schedule_archive KSpool spool exists_ limit tick q.

(** [schedule_recovery_archive]. *)
Definition schedule_recovery_archive (target : string) (exists_ : bool) (tick : Q) (q : queue) :=
  _schedule_archive KArchive target exists_ MAX_SCHEDULED_ARCHIVES tick q.

(** [compress_hour], [compress_spool]: submitted and awaited. *)
Definition submit (k : kind) (tick : Q) (q : queue) : queue := (_enqueue k None tick q).2.

(** ** [_dispatch_jobs] *)

(** The next job of the dispatcher. *)
Definition start (q : queue) : queue :=
  match q_running q, q_jobs q with
  | None, j :: jobs =>
      Queue jobs (Some j) (q_targets q) (q_futures q) (q_not_before q) (q_attempts q) (q_closing q) (q_next q) (q_settled q)
  | _, _ => q
  end.

Definition no_running (q : queue) : queue :=
  Queue (q_jobs q) None (q_targets q) (q_futures q) (q_not_before q) (q_attempts q) (q_closing q) (q_next q) (q_settled q).

(** The pool returned or raised. *)
Definition settle_running (o : outcome) (tick : Q) (q : queue) : queue :=
  match q_running q with Some j => finish j o tick (no_running q) | None => q end.

(** The dispatcher is cancelled: the running job and every waiting job are. *)
Definition no_jobs (q : queue) : queue :=
  Queue [] (q_running q) (q_targets q) (q_futures q) (q_not_before q) (q_attempts q) (q_closing q) (q_next q) (q_settled q).

Definition cancel_all (tick : Q) (q : queue) : queue :=
  let q := settle_running Cancelled tick q in
  no_jobs (foldl (fun q j => finish j Cancelled tick q) q (q_jobs q)).

(** [shutdown_compression] sets and clears the latch. *)
Definition set_closing (b : bool) (q : queue) : queue :=
  Queue (q_jobs q) (q_running q) (q_targets q) (q_futures q) (q_not_before q) (q_attempts q) b (q_next q) (q_settled q).

Definition new_queue : queue := Queue [] None [] [] [] [] false 0 [].

(** Two exits of the code that are no events of the queue.  When the dispatcher belongs to
    an older event loop, [_start_dispatcher] raises after the job is in the queue: the
    target stays scheduled without a future. *)
Definition schedule_elsewhere (k : kind) (identity : string) (q : queue) : queue :=
  Queue (q_jobs q ++ [Job k (Some identity) (q_next q)]) (q_running q) (identity :: q_targets q) (q_futures q)
    (q_not_before q) (q_attempts q) (q_closing q) (S (q_next q)) (q_settled q).

(** When [schedule_published_index] raises after a success, the exception leaves the
    dispatcher: its job is not settled and the waiting jobs are cancelled. *)
Definition crash_after_success (tick : Q) (q : queue) : queue :=
  no_jobs (foldl (fun q j => finish j Cancelled tick q) (no_running q) (q_jobs q)).

Inductive event : Type :=
  | Pending (spool : string) (recovery : option bool) (exists_ : bool)
  | Recovery (target : string) (exists_ : bool)
  | Submit (k : kind)
  | Starts
  | Settles (o : outcome)
  | CancelAll
  | Closing (b : bool).

(** What an event does at a tick. *)
Definition apply (e : event) (tick : Q) (q : queue) : queue :=
  match e with
  | Pending spool recovery exists_ => (schedule_pending_archive spool recovery exists_ tick q).2
  | Recovery target exists_ => (schedule_recovery_archive target exists_ tick q).2
  | Submit k => submit k tick q
  | Starts => start q
  | Settles o => settle_running o tick q
  | CancelAll => cancel_all tick q
  | Closing b => set_closing b q
  end.

Definition run (events : list (event * Q)) (q : queue) : queue := foldl (fun q e => apply e.1 e.2 q) q events.


(** ** What holds of the queue *)

(** The jobs that are not over. *)
Definition active (q : queue) : list job := option_list (q_running q) ++ q_jobs q.

(** [js] are the unfinished jobs: the scheduled targets are theirs, each has its
    future on record, every future is waiting or settled once, and the two retry
    tables describe the same bounded set of targets. *)
Record accounts (js : list job) (q : queue) : Prop := Accounts {
  ac_unique : NoDup (q_targets q);
  ac_targets : q_targets q ≡ₚ omap jb_identity js;
  ac_bound : (length (q_targets q) <= MAX_SCHEDULED_ARCHIVES)%nat;
  ac_futures : forall j i, j ∈ js -> jb_identity j = Some i -> assoc_get i (q_futures q) = Some (jb_future j);
  ac_settled : map jb_future js ++ map fst (q_settled q) ≡ₚ seq 0 (q_next q);
  ac_keys : map fst (q_not_before q) = map fst (q_attempts q);
  ac_distinct : NoDup (map fst (q_attempts q));
  ac_entries : (length (q_attempts q) <= MAX_ARCHIVE_RETRY_ENTRIES)%nat;
  ac_attempts : Forall (fun kv : string * Z => 1 <= kv.2 <= ARCHIVE_RETRY_MAX_EXPONENT + 1) (q_attempts q) }.

Section assoc.
Context {A : Type}.
Implicit Types l : list (string * A).

Lemma assoc_pop_keys k l : map fst (assoc_pop k l) = filter (fun k' => k' <> k) (map fst l).
Proof.
  induction l as [|[k' v] l IH]; [done|]. unfold assoc_pop in *. cbn [map]. rewrite !filter_cons. cbn [fst].
  case_decide; cbn; by rewrite IH.
Qed.

Lemma assoc_pop_get k k' l : k <> k' -> assoc_get k (assoc_pop k' l) = assoc_get k l.
Proof.
  intros. induction l as [|[k2 v] l IH]; [done|]. unfold assoc_pop in *. rewrite filter_cons. cbn.
  case_decide; cbn; [by rewrite IH|]. rewrite IH, decide_False by naive_solver. done.
Qed.

Lemma assoc_pop_forall (P : string * A -> Prop) k l : Forall P l -> Forall P (assoc_pop k l).
Proof. rewrite !Forall_forall. intros HP x Hx. apply list_elem_of_filter in Hx as [_ Hx]. by apply HP. Qed.

Lemma assoc_set_forall (P : string * A -> Prop) k v l : P (k, v) -> Forall P l -> Forall P (assoc_set k v l).
Proof.
  intros Hk. induction 1 as [|[k' v'] l Hx Hl IH]; cbn; [by repeat constructor|].
  case_decide; subst; by constructor.
Qed.

Lemma assoc_keys_length l : length (map fst l) = length l.
Proof. apply length_map. Qed.

Lemma assoc_set_nodup k v l : NoDup (map fst l) -> NoDup (map fst (assoc_set k v l)).
Proof.
  rewrite (assoc_keys_set (fun _ => k)). case_decide; [done|]. intros. apply NoDup_app.
  split; [done|]. split; [|apply NoDup_singleton]. intros x Hx Hk%list_elem_of_singleton. by subst.
Qed.

End assoc.

Lemma retry_delay_bounds a : 1 <= a <= ARCHIVE_RETRY_MAX_EXPONENT + 1 ->
  ARCHIVE_RETRY_BASE_SECONDS <= retry_delay a <= ARCHIVE_RETRY_MAX_SECONDS.
Proof.
  unfold retry_delay, ARCHIVE_RETRY_BASE_SECONDS, ARCHIVE_RETRY_MAX_SECONDS, ARCHIVE_RETRY_MAX_EXPONENT. intros.
  assert (0 < 2 ^ Z.min (a - 1) 4) by (apply Z.pow_pos_nonneg; lia). lia.
Qed.

(** ** The retry tables *)

Definition retries_ok (not_before : list (string * Q)) (attempts : list (string * Z)) : Prop :=
  map fst not_before = map fst attempts /\ NoDup (map fst attempts)
  /\ (length attempts <= MAX_ARCHIVE_RETRY_ENTRIES)%nat
  /\ Forall (fun kv : string * Z => 1 <= kv.2 <= ARCHIVE_RETRY_MAX_EXPONENT + 1) attempts.

Lemma pop_retries k n a : retries_ok n a -> retries_ok (assoc_pop k n) (assoc_pop k a).
Proof.
  intros (Hk & Hn & Hl & Ha). split_and!.
  - by rewrite !assoc_pop_keys, Hk.
  - rewrite assoc_pop_keys. by apply NoDup_filter.
  - unfold assoc_pop. etrans; [apply length_filter|done].
  - by apply assoc_pop_forall.
Qed.

Lemma failed_attempts k (a : list (string * Z)) :
  Forall (fun kv : string * Z => 1 <= kv.2 <= ARCHIVE_RETRY_MAX_EXPONENT + 1) a ->
  1 <= Z.min (default 0 (assoc_get k a) + 1) (ARCHIVE_RETRY_MAX_EXPONENT + 1) <= ARCHIVE_RETRY_MAX_EXPONENT + 1.
Proof.
  intros Ha. unfold ARCHIVE_RETRY_MAX_EXPONENT in *. destruct (assoc_get k a) as [v|] eqn:E; cbn; [|lia].
  apply assoc_get_elem in E. rewrite Forall_forall in Ha. specialize (Ha _ E). cbn in Ha. lia.
Qed.

Lemma get_same_keys {B C} k (l : list (string * B)) (l' : list (string * C)) :
  map fst l = map fst l' -> is_Some (assoc_get k l) <-> is_Some (assoc_get k l').
Proof. intros E. by rewrite !assoc_get_key, E. Qed.

Lemma set_retries k n a (t : Q) v :
  1 <= v <= ARCHIVE_RETRY_MAX_EXPONENT + 1 -> retries_ok n a ->
  assoc_get k n <> None \/ (length n < MAX_ARCHIVE_RETRY_ENTRIES)%nat ->
  retries_ok (assoc_set k t n) (assoc_set k v a).
Proof.
  intros Hv (Hk & Hn & Hl & Ha) Hroom. split_and!.
  - by rewrite !(assoc_keys_set (fun _ => k)), Hk.
  - by apply assoc_set_nodup.
  - rewrite <- assoc_keys_length, (assoc_keys_set (fun _ => k)). case_decide as Hin; [by rewrite assoc_keys_length|].
    rewrite length_app, assoc_keys_length. cbn. destruct Hroom as [Hs|Hlt].
    + destruct Hin. rewrite <- Hk. apply (assoc_get_key (fun _ => k)). by apply not_eq_None_Some.
    + rewrite <- (assoc_keys_length n), Hk, assoc_keys_length in Hlt. lia.
  - by apply assoc_set_forall.
Qed.

(** Removing the oldest entry commutes with recording a failure of another target. *)
Lemma pop_set_other {A} k k' (v : A) l : k <> k' -> assoc_pop k' (assoc_set k v l) = assoc_set k v (assoc_pop k' l).
Proof.
  intros. induction l as [|[k2 v2] l IH]; unfold assoc_pop in *.
  - cbn [assoc_set]. rewrite filter_cons, filter_nil. case_decide; [done|naive_solver].
  - cbn [assoc_set]. rewrite filter_cons. destruct (decide (k = k2)) as [<-|].
    + rewrite !filter_cons. cbn [fst]. rewrite !decide_True by done. cbn [assoc_set]. by rewrite decide_True.
    + rewrite filter_cons. cbn [fst]. case_decide; [|done]. cbn [assoc_set]. by rewrite decide_False, IH.
Qed.

Lemma complete_retries identity o tick q :
  retries_ok (q_not_before q) (q_attempts q) ->
  let q' := (complete identity o tick q).2 in retries_ok (q_not_before q') (q_attempts q').
Proof.
  intros H. destruct o; cbn; [by apply pop_retries| |done].
  pose proof H as (Hk & Hn & Hl & Ha). pose proof (failed_attempts identity _ Ha) as Hv.
  destruct (assoc_get identity (q_not_before q)) as [t|] eqn:E.
  - cbn. apply set_retries; [done|done|]. left. congruence.
  - assert (Hlen : length (q_not_before q) = length (q_attempts q)).
    { by rewrite <- (assoc_keys_length (q_not_before q)), Hk, assoc_keys_length. }
    destruct (MAX_ARCHIVE_RETRY_ENTRIES <=? length (q_not_before q))%nat eqn:L; [apply Nat.leb_le in L|apply Nat.leb_gt in L; cbn; apply set_retries; [done|done|lia]].
    destruct (q_not_before q) as [|[oldest t] rest] eqn:En; [by apply Nat.le_0_r in L|]. cbn.
    assert (identity <> oldest) by (intros ->; cbn in E; by rewrite decide_True in E).
    rewrite pop_set_other by done. apply set_retries; [done|by apply pop_retries|].
    right. unfold assoc_pop. rewrite filter_cons, decide_False by naive_solver.
    eapply Nat.le_lt_trans; [apply length_filter|]. cbn in *. lia.
Qed.

(** ** Jobs *)

Lemma accounts_perm js js' q : js ≡ₚ js' -> accounts js q -> accounts js' q.
Proof.
  intros E []. split; try done.
  - by rewrite <- E.
  - intros j i Hj. rewrite <- E in Hj. auto.
  - by rewrite <- E.
Qed.

Lemma finish_fields j o tick q :
  let q' := finish j o tick q in
  q_jobs q' = q_jobs q /\ q_running q' = q_running q /\ q_closing q' = q_closing q /\ q_next q' = q_next q
  /\ q_settled q' = q_settled q ++ [(jb_future j, o)]
  /\ q_targets q' = match jb_identity j with Some i => filter (fun t => t <> i) (q_targets q) | None => q_targets q end
  /\ q_futures q' = match jb_identity j with Some i => assoc_pop i (q_futures q) | None => q_futures q end.
Proof.
  unfold finish, call_back. destruct (jb_identity j) as [i|]; [|done]. destruct o; cbn; repeat case_match; by simplify_eq/=.
Qed.

Lemma finish_retries j o tick q :
  retries_ok (q_not_before q) (q_attempts q) ->
  let q' := finish j o tick q in retries_ok (q_not_before q') (q_attempts q').
Proof.
  intros H. unfold finish, call_back. destruct (jb_identity j); [|done]. by apply complete_retries.
Qed.

Lemma retries_of js q : accounts js q -> retries_ok (q_not_before q) (q_attempts q).
Proof. intros []. done. Qed.

Lemma finish_accounts j js o tick q : accounts (j :: js) q -> accounts js (finish j o tick q).
Proof.
  intros A. pose proof (finish_fields j o tick q) as (_ & _ & _ & En & Es & Et & Ef).
  destruct (finish_retries j o tick q (retries_of _ _ A)) as (Hk & Hn & Hl & Ha). destruct A as [U T B F S _ _ _ _].
  assert (Hids : NoDup (omap jb_identity (j :: js))) by by rewrite <- T.
  destruct (jb_identity j) as [i|] eqn:Ei; cbn in T, Hids; rewrite Ei in T, Hids; cbn in T, Hids.
  - apply NoDup_cons in Hids as [Hi Hids].
    assert (Ht : filter (fun t => t <> i) (q_targets q) ≡ₚ omap jb_identity js).
    { rewrite T, filter_cons, decide_False by (by intros X; apply X). rewrite filter_all; [done|].
      by intros x Hx ->. }
    split; try done.
    + rewrite Et. by apply NoDup_filter.
    + by rewrite Et, Ht.
    + rewrite Et. etrans; [apply length_filter|done].
    + intros j' i' Hj Hi'. rewrite Ef, assoc_pop_get; [apply F; [by right|done]|].
      intros ->. apply Hi. apply list_elem_of_omap. eauto.
    + rewrite Es, En, map_app, <- S. cbn. solve_Permutation.
  - split; try done.
    + by rewrite Et.
    + by rewrite Et.
    + by rewrite Et.
    + intros. rewrite Ef. apply F; [by right|done].
    + rewrite Es, En, map_app, <- S. cbn. solve_Permutation.
Qed.

(** A job without a target, or with one that is not scheduled yet. *)
Lemma new_job_accounts k js q q' :
  accounts js q -> q_targets q' = q_targets q -> q_futures q' = q_futures q -> q_settled q' = q_settled q ->
  q_next q' = S (q_next q) -> q_not_before q' = q_not_before q -> q_attempts q' = q_attempts q ->
  accounts (Job k None (q_next q) :: js) q'.
Proof.
  intros [U T B F S R1 R2 R3 R4] Et Ef Es En E1 E2.
  split; rewrite ?Et, ?Ef, ?Es, ?En, ?E1, ?E2; try done.
  - intros j i Hj Hi. apply elem_of_cons in Hj as [->|Hj]; [done|auto].
  - rewrite seq_S, <- S. cbn. solve_Permutation.
Qed.

Lemma new_target_accounts k i js q q' :
  accounts js q -> i ∉ q_targets q -> (length (q_targets q) < MAX_SCHEDULED_ARCHIVES)%nat ->
  q_targets q' = i :: q_targets q -> q_futures q' = assoc_set i (q_next q) (q_futures q) -> q_settled q' = q_settled q ->
  q_next q' = S (q_next q) -> q_not_before q' = q_not_before q -> q_attempts q' = q_attempts q ->
  accounts (Job k (Some i) (q_next q) :: js) q'.
Proof.
  intros [U T B F S R1 R2 R3 R4] Hi Hl Et Ef Es En E1 E2.
  split; rewrite ?Et, ?Ef, ?Es, ?En, ?E1, ?E2; try done.
  - by apply NoDup_cons.
  - cbn. by rewrite T.
  - intros j i' Hj Hi'. rewrite assoc_get_set. apply elem_of_cons in Hj as [->|Hj].
    + cbn in Hi'. simplify_eq. by rewrite decide_True.
    + rewrite decide_False; [auto|]. intros ->. apply Hi. rewrite T. apply list_elem_of_omap. eauto.
  - rewrite seq_S, <- S. cbn. solve_Permutation.
Qed.

(** What the accounts are about. *)
Lemma accounts_same js q q' :
  accounts js q -> q_targets q' = q_targets q -> q_futures q' = q_futures q -> q_settled q' = q_settled q ->
  q_next q' = q_next q -> retries_ok (q_not_before q') (q_attempts q') -> accounts js q'.
Proof.
  intros [U T B F S R1 R2 R3 R4] Et Ef Es En (E1 & E2 & E3 & E4).
  split; rewrite ?Et, ?Ef, ?Es, ?En; done.
Qed.

Definition well_accounted (q : queue) : Prop := accounts (active q) q.

Lemma schedule_accounts k i e limit tick q :
  (limit <= MAX_SCHEDULED_ARCHIVES)%nat -> well_accounted q -> well_accounted (_schedule_archive k i e limit tick q).2.
Proof.
  intros Hlim A. unfold _schedule_archive.
  destruct e; cbn [negb]; [|eapply accounts_same; [exact A|done..|apply pop_retries, (retries_of _ _ A)]].
  case_bool_decide as Hi; [done|].
  destruct (Qle_bool _ _); cbn [negb]; [|done].
  destruct (limit <=? _)%nat eqn:L; [done|]. apply Nat.leb_gt in L.
  unfold _enqueue. cbn [q_next q_closing q_targets q_settled].
  destruct (q_closing q) eqn:C; cbn [fst snd].
  - set (j := Job k (Some i) (q_next q)). set (q1 := Queue _ _ (i :: _) _ _ _ _ _ _).
    assert (A1 : accounts (j :: active q) (Queue (q_jobs q) (q_running q) (i :: q_targets q)
                   (assoc_set i (q_next q) (q_futures q)) (q_not_before q) (q_attempts q) true (S (q_next q)) (q_settled q))).
    { eapply new_target_accounts; [exact A|done|lia|done..]. }
    unfold well_accounted.
    pose proof (finish_fields j Cancelled tick q1) as (Ej & Er & _ & En & Es & Et & Ef).
    assert (Ht : filter (fun t => t <> i) (i :: q_targets q) = q_targets q).
    { rewrite filter_cons, decide_False by (by intros X; apply X). apply filter_all. by intros x Hx ->. }
    assert (Et' : q_targets (finish j Cancelled tick q1) = q_targets q) by (etrans; [exact Et|exact Ht]).
    assert (Ef' : q_futures (finish j Cancelled tick q1) = assoc_pop i (q_futures q)) by exact Ef.
    destruct A as [U T B F S R1 R2 R3 R4].
    unfold active. cbn [q_running q_jobs]. rewrite Ej, Er. cbn [q_running q_jobs]. split; cbn [q_targets q_futures q_settled q_next q_not_before q_attempts];
      rewrite ?Et'; try done.
    + intros j' i' Hj Hi'. rewrite assoc_get_set, decide_False; [|intros ->; apply Hi; rewrite T; apply list_elem_of_omap; eauto].
      rewrite Ef', assoc_pop_get; [by apply F|]. intros ->. apply Hi. rewrite T. apply list_elem_of_omap. eauto.
    + rewrite Es, En. subst q1 j. cbn [q_next q_settled jb_future]. rewrite seq_S, <- S. unfold active. rewrite !map_app. cbn [map fst]. solve_Permutation.
  - unfold well_accounted, active. cbn [q_running q_jobs].
    eapply accounts_perm; [|eapply new_target_accounts; [exact A|done|lia|done..]].
    unfold active. rewrite app_assoc. apply Permutation_cons_append.
Qed.

Lemma submit_accounts k tick q : well_accounted q -> well_accounted (submit k tick q).
Proof.
  intros A. unfold submit, _enqueue. cbn [q_closing].
  destruct (q_closing q) eqn:C; cbn [snd]; unfold well_accounted.
  - set (q1 := Queue _ _ _ _ _ _ _ _ _).
    pose proof (finish_fields (Job k None (q_next q)) Cancelled tick q1) as (Ej & Er & _).
    unfold active. rewrite Ej, Er. apply finish_accounts. by eapply new_job_accounts.
  - unfold active. cbn [q_running q_jobs]. eapply accounts_perm; [|by eapply (new_job_accounts k)].
    unfold active. rewrite app_assoc. apply Permutation_cons_append.
Qed.

Lemma settle_running_accounts o tick q : well_accounted q -> well_accounted (settle_running o tick q).
Proof.
  intros A. unfold settle_running. destruct (q_running q) as [j|] eqn:E; [|done].
  unfold well_accounted, active in *. rewrite E in A. cbn in A.
  pose proof (finish_fields j o tick (no_running q)) as (Ej & Er & _). rewrite Ej, Er. cbn.
  apply finish_accounts. eapply accounts_same; [exact A|done..|apply (retries_of _ _ A)].
Qed.

Lemma settle_running_idle o tick q : q_running (settle_running o tick q) = None.
Proof.
  unfold settle_running. destruct (q_running q) as [j|] eqn:E; [|done].
  by pose proof (finish_fields j o tick (no_running q)) as (_ & -> & _).
Qed.

Lemma cancel_jobs_accounts tick js q :
  accounts js q -> accounts [] (foldl (fun q j => finish j Cancelled tick q) q js)
  /\ q_running (foldl (fun q j => finish j Cancelled tick q) q js) = q_running q.
Proof.
  revert q. induction js as [|j js IH]; intros q A; [done|]. cbn.
  destruct (IH (finish j Cancelled tick q)) as [A' E]; [by apply finish_accounts|]. split; [done|].
  rewrite E. apply finish_fields.
Qed.

Lemma cancel_all_accounts tick q :
  well_accounted q -> well_accounted (cancel_all tick q) /\ active (cancel_all tick q) = [].
Proof.
  intros A%(settle_running_accounts Cancelled tick). unfold cancel_all.
  pose proof (settle_running_idle Cancelled tick q) as Er. set (q1 := settle_running Cancelled tick q) in *.
  unfold well_accounted, active in A. rewrite Er in A.
  destruct (cancel_jobs_accounts tick (q_jobs q1) q1 A) as [A' Er']. set (q2 := foldl _ q1 _) in *.
  assert (E : active (no_jobs q2) = []) by (unfold active; cbn; by rewrite Er', Er).
  split; [|done]. unfold well_accounted. rewrite E. eapply accounts_same; [exact A'|done..|apply (retries_of _ _ A')].
Qed.

Lemma apply_accounts e tick q : well_accounted q -> well_accounted (apply e tick q).
Proof.
  intros A. destruct e as [spool r b|target b|k| |o| |b]; cbn.
  - apply schedule_accounts; [|done]. unfold MAX_SCHEDULED_ARCHIVES, RESERVED_RECOVERY_ARCHIVES.
    destruct r as [[]|]; lia.
  - by apply schedule_accounts.
  - by apply submit_accounts.
  - unfold start. destruct (q_running q) as [r|] eqn:Er, (q_jobs q) as [|j js] eqn:Ej; try done.
    unfold well_accounted, active in *. rewrite Er, Ej in A. cbn in *.
    eapply accounts_same; [exact A|done..|apply (retries_of _ _ A)].
  - by apply settle_running_accounts.
  - by apply cancel_all_accounts.
  - eapply accounts_same; [exact A|done..|apply (retries_of _ _ A)].
Qed.

Lemma run_accounts events q : well_accounted q -> well_accounted (run events q).
Proof.
  revert q. induction events as [|[e tick] events IH]; intros q A; [done|]. cbn. by apply IH, apply_accounts.
Qed.

Lemma new_queue_accounts : well_accounted new_queue.
Proof. split; cbn; try done; try lia; try apply NoDup_nil_2. by intros j i Hj%elem_of_nil. Qed.

Lemma failed_delay identity tick q : well_accounted q ->
  ARCHIVE_RETRY_BASE_SECONDS <= (complete identity Failed tick q).1 <= ARCHIVE_RETRY_MAX_SECONDS.
Proof.
  intros A. replace (complete identity Failed tick q).1
    with (retry_delay (Z.min (default 0 (assoc_get identity (q_attempts q)) + 1) (ARCHIVE_RETRY_MAX_EXPONENT + 1))).
  - apply retry_delay_bounds, failed_attempts, A.
  - cbn. by repeat case_match; simplify_eq.
Qed.

(** C29: whatever is scheduled, submitted, started, settled, cancelled and
    latched, in any order, the queue keeps its accounts: at most eight targets
    are scheduled, each exactly once and for an unfinished job whose future is on
    record (so scheduling it again finds a future and never a missing key),
    every future handed out is either waiting or settled exactly once, and the
    two retry tables name the same at most 1024 targets with one to five
    attempts each.  A failure therefore backs off between 30 and 300 seconds, and
    a cancelled dispatcher leaves no target scheduled and no future open. *)
Theorem archive_queue_accounts events :
  let q := run events new_queue in
  accounts (active q) q
  /\ (forall i tick, ARCHIVE_RETRY_BASE_SECONDS <= (complete i Failed tick q).1 <= ARCHIVE_RETRY_MAX_SECONDS)
  /\ (forall tick, let q' := cancel_all tick q in
       q_targets q' = [] /\ map fst (q_settled q') ≡ₚ seq 0 (q_next q')).
Proof.
  pose proof (run_accounts events _ new_queue_accounts) as A. split_and!; [done|intros; by apply failed_delay|].
  intros tick. destruct (cancel_all_accounts tick _ A) as [[_ T _ _ S _ _ _ _] E]. rewrite E in T, S.
  split; [by apply Permutation_nil_r|done].
Qed.

(** A live writer leaves two places to recovery. *)
Example recovery_room :
  let full := run (map (fun s => (Pending s (Some false) true, 0%Q)) ["a"; "b"; "c"; "d"; "e"; "f"; "g"; "h"]) new_queue in
  length (q_targets full) = 6%nat
  /\ (schedule_recovery_archive "r" true 0%Q full).1 = Some 6%nat
  /\ (schedule_pending_archive "a" (Some false) true 0%Q full).1 = Some 0%nat.
Proof. by vm_compute. Qed.

(** Without its future, the scheduled target of another event loop is a missing key for
    the next call (`_scheduled_futures[identity]`). *)
Example elsewhere_leaves_no_future :
  let q := schedule_elsewhere KSpool "a" new_queue in
  q_targets q = ["a"] /\ (schedule_pending_archive "a" None true 0%Q q).1 = None.
Proof. by vm_compute. Qed.

(** A crash of the dispatcher after a success leaves the target scheduled with a future
    that nobody settles; the waiting job is cancelled. *)
Example crash_leaves_target :
  let q := crash_after_success 0%Q (run [(Pending "a" None true, 0%Q); (Pending "b" None true, 0%Q); (Starts, 0%Q)] new_queue) in
  q_targets q = ["a"] /\ q_settled q = [(1%nat, Cancelled)] /\ active q = [].
Proof. by vm_compute. Qed.
