(* ===== verification/ResourceHealth.v ===== *)
(** * The health of resources and the tasks it stops ([resources/health.py], [resources/health_policy.py])

    A periodic authentication of each network device decides whether its tasks may
    run.  The network request is made outside any transaction; its result is
    written only if the resource is still as the request saw it.  A bad result
    stops tasks with a marker, a good one authorizes the markers, and the
    scheduler turns an authorized marker back into the wish to run once nothing is
    left of the old run.

    The readings of the clock, the new identifiers and the outcome of the
    authentication are arguments. *)

From S2P Require Import Prelude PyTime PyValue PyText Mongo Ownership TaskRules Lifecycle AuthRecords DeviceIdentity Idempotency.
Open Scope camera_scope.

Definition HEALTH_INTERVAL_SECONDS : Z := 60.
Definition RUNNING := PStr "RUNNING".
Definition WAITING_DEVICE := PStr "WAITING_DEVICE".
Definition ONLINE := PStr "ONLINE".
Definition SERIAL := PStr "TELNET_SERIAL".

(** [failure_backoff_seconds]. *)
Definition failure_backoff_seconds (failures : Z) : Z :=
  if failures <? 10 then 60 else if failures <? 22 then 300 else if failures <? 46 then 3600 else 86400.

Definition is_serial (task : pydict) : bool := fld task "protocol" SERIAL.

(** `int(d.get(k, 0))`; the program stores an integer. *)
Definition int_field (d : pydict) (k : string) : Z := default 0 (as_int (dict_get_or d k (PInt 0))).

(** The `resourceHealthRecovery` of a task, `None` when falsy. *)
Definition marker_of (task : pydict) : option pydict :=
  match task.["resourceHealthRecovery"] with PDict ((_ :: _) as m) => Some m | _ => None end.

(** The environment of one call: its clock, the identifiers it would create and
    the request's audit context. *)
Record env := Env {
  e_now : Z; e_record : string; e_row : string; e_retention : Z; e_operation : pydict -> string; e_context : pydict }.

Section health.
Context `{ValueText} `{Digest} `{Mongo}.

(** [_not_after]: other values than dates raise. *)
Definition _not_after (first second : pyval) : dbm bool :=
  match first, second with
  | PTime a, PTime b => st_ret (utc_instant a <=? utc_instant b)
  | _, _ => st_raise (RuntimeError "AttributeError")
  end.

(** ** Stopping ([health_policy.py]) *)

(** [_task_control_query]. *)
Definition _task_control_query (task : pydict) (require_owner : bool) (d : pydict) : bool :=
  fld d "id" task.["id"] && fld d "desiredState" RUNNING && fld d "controlClaimVersion" task.["controlClaimVersion"]
  && (if require_owner then owner_filter task d else fld d "nodeId" PNone).

(** The marker of a system stop. *)
Definition stop_marker (resource_id : pyval) (current : pydict) (now : Z) : pyval :=
  PDict [("resourceId", resource_id); ("stoppedAt", PTime (Aware now)); ("desiredState", RUNNING);
         ("reason", if truthy current.["authRejectedAt"] then PStr "AUTH_FAILED" else current.["healthStatus"])].

(** The operation and the audit record of a stop. *)
Definition record_stop (e : env) (task resource current : pydict) : dbm bool :=
  let now := PTime (Aware (e_now e)) in
  let! _ := update_many Operations
    (fun d => fld d "taskId" task.["id"] && negb (fld d "desiredState" STOPPED) && fld d "status" PENDING)
    (set_all [("status", PStr "CANCELLED"); ("completedAt", now)]) in
  let! _ := insert_one Operations
    [("id", PStr (e_operation e task)); ("taskId", task.["id"]); ("desiredState", STOPPED);
     ("action", PStr "system-resource-health-stop"); ("actor", PStr "system"); ("status", PENDING); ("createdAt", now)] in
  let! _ := update_one Tasks
    (fun d => fld d "id" task.["id"] && fld d "desiredState" STOPPED
              && fld d "controlClaimVersion" task.["controlClaimVersion"])
    (set_all [("controlOperationId", PStr (e_operation e task))]) in
  let! _ := audit (e_context e) (e_now e) (PStr "system") ("resource_health_stop:" +:+ text current.["healthStatus"])
              resource.["id"] in
  st_ret true.

(** [stop_for_resource_health], in the caller's transaction; [alive] is what the
    liveness check answers, when there is one. *)
Definition stop_for_resource_health (e : env) (task resource : pydict) (require_owner : bool) (accepted : list pyval)
    (alive : option bool) : dbm bool :=
  if is_serial task || negb (fld task "desiredState" RUNNING) then st_ret false
  else if negb require_owner && has_live_runtime_ownership task then st_ret false
  else
    let! current := find_one_and_update Resources
      (fun d => fld d "id" resource.["id"] && fld d "deletedAt" PNone && fld_in d "healthStatus" accepted) control_version in
    match current with
    | None => st_ret false
    | Some current =>
        if negb (default true alive) then st_ret false
        else
          let! matched := update_one Tasks (_task_control_query task require_owner)
            (set_all [("desiredState", STOPPED); ("restartRequested", PBool false); ("updatedAt", PTime (Aware (e_now e)));
                      ("resourceHealthRecovery", stop_marker resource.["id"] current (e_now e))]) in
          if matched then record_stop e task resource current else st_ret false
    end.

(** [stop_unresponsive_task]. *)
Definition stop_unresponsive_task (e : env) (task : pydict) (alive : option bool) (f : fate) : dbm bool :=
  if is_serial task then st_ret false
  else transaction f
    (let! resource := find_one Resources
       (fun d => fld d "id" task.["resourceId"] && fld d "deletedAt" PNone && fld_in d "healthStatus" BAD_HEALTH_STATUSES) in
     match resource with
     | None => st_ret false
     | Some resource => stop_for_resource_health e task resource true BAD_HEALTH_STATUSES alive
     end).

(** ** Committing a result *)

(** [_result_filter]. *)
Definition _result_filter (snapshot d : pydict) : bool :=
  fld d "id" snapshot.["id"] && fld d "deletedAt" PNone
  && (if truthy snapshot.["manualHealthResult"]
      then fld d "version" snapshot.["version"]
           && fld d "passwordEncrypted" (dict_get_or snapshot "passwordEncrypted" (PStr ""))
           && (if absent snapshot "healthRevision" then absent d "healthRevision"
               else fld d "healthRevision" snapshot.["healthRevision"])
      else if absent snapshot "healthLeaseToken" then true
      else fld d "healthRevision" snapshot.["healthRevision"] && fld d "healthLeaseToken" snapshot.["healthLeaseToken"]).

(** The tasks that wait for the device. *)
Definition waiting_tasks (resource_id : pyval) (d : pydict) : bool :=
  fld d "resourceId" resource_id && fld d "status" WAITING_DEVICE && fld d "desiredState" RUNNING && fld d "deletedAt" PNone.

Fixpoint any_requested (started : pyval) (tasks : list pydict) : dbm bool :=
  match tasks with
  | [] => st_ret false
  | task :: tasks =>
      let requested := (dict_sub task "resumeWaiting").["requestedAt"] in
      if truthy requested
      then let! after := _not_after started requested in if after then st_ret true else any_requested started tasks
      else any_requested started tasks
  end.

(** [_resume_requested_after_probe]. *)
Definition _resume_requested_after_probe (snapshot resource : pydict) : dbm bool :=
  let started := snapshot.["healthLeaseStartedAt"] in
  let next := resource.["nextHealthCheckAt"] in
  if negb (truthy started) || negb (truthy next) || bool_decide (next = snapshot.["nextHealthCheckAt"]) then st_ret false
  else
    let! before := _not_after next started in
    if before then st_ret false
    else let! tasks := find_all Tasks (waiting_tasks snapshot.["id"]) in any_requested started tasks.

Definition lease_fields : list string := ["healthLeaseUntil"; "healthLeaseStartedAt"; "healthLeaseToken"].

(** [_commit_health_result]. *)
Definition _commit_health_result (snapshot changes : pydict) (unset : list string) : dbm (option pydict) :=
  let! current := find_one Resources (_result_filter snapshot) in
  match current with
  | None => st_ret None
  | Some current =>
      let! requested := _resume_requested_after_probe snapshot current in
      let changes := if requested then dict_unset changes "nextHealthCheckAt" else changes in
      let unset := unset ++ (if absent snapshot "healthLeaseToken" then [] else lease_fields) in
      find_one_and_update Resources (_result_filter snapshot)
        (fun d => unset_all unset (dict_inc "healthRevision" 1 (set_all changes d)))
  end.

(** The history of the result. *)
Definition record_result (e : env) (changed snapshot : pydict) (source result : string) (message : pyval) : dbm pyval :=
  record_authentication
    (Obs changed source result snapshot changed message (Some (Aware (e_now e))) (e_now e) (e_retention e) (e_record e) (e_row e))
    None.

(** A loop over the tasks a query found. *)
Fixpoint each_task (tasks : list pydict) (f : pydict -> dbm unit) : dbm unit :=
  match tasks with
  | [] => st_ret tt
  | task :: tasks => let! _ := f task in each_task tasks f
  end.

(** Only tasks that HTTP authentication concerns. *)
Definition unless_serial (f : pydict -> dbm unit) (task : pydict) : dbm unit := if is_serial task then st_ret tt else f task.

(** ** Failure *)

Definition failure_changes (snapshot : pydict) (status : string) (advance : bool) (now : Z) : pydict :=
  let failures := int_field snapshot "healthFailureCount" + (if advance then 1 else 0) in
  [("healthStatus", PStr status); ("healthCheckedAt", PTime (Aware now)); ("healthFailureCount", PInt failures);
   ("nextHealthCheckAt", if advance then PTime (Aware (now + failure_backoff_seconds failures * US_PER_SECOND))
                         else dict_get_or snapshot "nextHealthCheckAt" (PTime (Aware now)))]
  ++ (if bool_decide (status = "AUTH_FAILED") then [("authRejectedAt", PTime (Aware now))] else []).

(** The marker of a task that is already stopped follows the new failure. *)
Definition refresh_marker (e : env) (snapshot : pydict) (status : string) (task : pydict) : dbm unit :=
  match marker_of task with
  | Some marker =>
      if fld marker "resourceId" snapshot.["id"]
         && (negb (fld marker "reason" (PStr status)) || negb (fld marker "authorizedAt" PNone))
      then
        let reason := if fld_in marker "reason" [PStr "AUTH_FAILED"; PStr "ERROR"] then marker.["reason"] else PStr status in
        let new_marker := dict_unset (set_all [("reason", reason); ("observedAt", PTime (Aware (e_now e)))] marker) "authorizedAt" in
        let! _ := update_one Tasks
          (fun d => fld d "id" task.["id"] && fld d "resourceHealthRecovery" (PDict marker))
          (set_all [("resourceHealthRecovery", PDict new_marker)]) in
        st_ret tt
      else st_ret tt
  | None => st_ret tt
  end.

(** `$set: {"resumeWaiting.waitingReason": status}`. *)
Definition set_waiting_reason (status : string) (d : pydict) : pydict :=
  dict_set d "resumeWaiting" (PDict (dict_set (dict_sub d "resumeWaiting") "waitingReason" (PStr status))).

(** What a failure does to one task. *)
Definition fail_task (e : env) (snapshot changed : pydict) (status : string) (task : pydict) : dbm unit :=
  if fld task "desiredState" PAUSED || fld_in task "status" [PAUSED; WAITING_DEVICE]
  then
    if fld task "status" WAITING_DEVICE
    then
      let! _ := update_one Tasks (fun d => fld d "id" task.["id"] && fld d "status" WAITING_DEVICE) (set_waiting_reason status) in
      st_ret tt
    else st_ret tt
  else if negb (fld_in task "desiredState" [RUNNING; PAUSED]) then refresh_marker e snapshot status task
  else if resource_health_blocks_task task changed
  then let! _ := stop_for_resource_health e task changed false BAD_HEALTH_STATUSES None in st_ret tt
  else st_ret tt.

Definition linked (snapshot d : pydict) : bool := task_resource_query (text snapshot.["id"]) d && fld d "deletedAt" PNone.

(** [_apply_failure_commit]. *)
Definition _apply_failure_commit (e : env) (snapshot : pydict) (status source : string) (advance : bool) : dbm bool :=
  let! changed := _commit_health_result snapshot (failure_changes snapshot status advance (e_now e)) [] in
  match changed with
  | None => st_ret false
  | Some changed =>
      let! _ := record_result e changed snapshot source status (PStr status) in
      let! tasks := find_all Tasks (linked snapshot) in
      let! _ := each_task tasks (unless_serial (fail_task e snapshot changed status)) in
      let! _ := (if bool_decide (source = "PERIODIC") && negb (fld snapshot "healthStatus" (PStr status))
                 then audit (e_context e) (e_now e) (PStr "system") ("resource_health_changed:" +:+ status) snapshot.["id"]
                 else st_ret tt) in
      st_ret true
  end.

(** [_apply_failure]. *)
Definition _apply_failure (e : env) (snapshot : pydict) (status : string) (f : fate) : dbm unit :=
  let! _ := transaction f (_apply_failure_commit e snapshot status "PERIODIC" true) in st_ret tt.

(** ** Success *)

(** The run of a paused task ends with its identity. *)
Definition end_paused_run (task : pydict) (now : Z) : dbm unit :=
  if truthy task.["runId"]
  then
    let! _ := delete_one EndpointLocks (fun d => fld d "taskId" task.["id"] && fld d "runId" task.["runId"]) in
    let! _ := update_one Runs (fun d => fld d "id" task.["runId"] && fld d "endedAt" PNone)
                (set_all [("endedAt", PTime (Aware now))]) in
    st_ret tt
  else st_ret tt.

Definition identity_update (identity : pyval) (now : Z) : pydict := [("storageIdentity", identity); ("updatedAt", PTime (Aware now))].

(** The fields of a paused task whose device changed. *)
Definition paused_update (task : pydict) (identity : pyval) (now : Z) : pydict :=
  identity_update identity now
  ++ (if fld task "status" PAUSED
      then [("desiredState", PAUSED); ("status", PAUSED); ("restartRequested", PBool false)]
      else [("desiredState", RUNNING); ("status", WAITING_DEVICE);
            ("resumeWaiting", PDict (set_all [("pausedRunId", PNone); ("identityChangedAt", PTime (Aware now))]
                                       (dict_sub task "resumeWaiting")))]).

(** [_transition_identity_task]. *)
Definition _transition_identity_task (task : pydict) (identity : pyval) (now : Z) : dbm unit :=
  if is_serial task then st_ret tt
  else if negb (fld task "nodeId" PNone) && fld task "desiredState" RUNNING
  then
    let! _ := update_one Tasks (fun d => fld d "id" task.["id"])
      (set_all (identity_update identity now ++ [("desiredState", STOPPED); ("restartRequested", PBool true)])) in
    st_ret tt
  else if fld_in task "status" [PAUSED; WAITING_DEVICE]
  then
    let! _ := end_paused_run task now in
    let! _ := update_one Tasks (fun d => fld d "id" task.["id"])
      (fun d => unset_all ["runId"; "sessionId"] (set_all (paused_update task identity now) d)) in
    st_ret tt
  else
    let! _ := update_one Tasks (fun d => fld d "id" task.["id"]) (set_all (identity_update identity now)) in
    st_ret tt.

(** A marker is authorized if it is still the one that was read. *)
Definition authorize_marker (task marker : pydict) (query : pydict -> bool) (now : Z) : dbm unit :=
  let! _ := update_one Tasks
    (fun d => fld d "id" task.["id"] && fld d "resourceHealthRecovery" (PDict marker) && query d)
    (set_all [("resourceHealthRecovery", PDict (dict_set marker "authorizedAt" (PTime (Aware now))))]) in
  st_ret tt.

(** [_authorize_health_recoveries]. *)
Definition authorize_recovery (resource_id : pyval) (now : Z) (task : pydict) : dbm unit :=
  match marker_of task with
  | Some marker =>
      if fld marker "resourceId" resource_id && fld_in marker "reason" [PStr "OFFLINE"; PStr "AUTH_FAILED"]
         && fld task "desiredState" STOPPED
      then authorize_marker task marker (fun d => fld d "desiredState" STOPPED) now
      else st_ret tt
  | None => st_ret tt
  end.

Definition _authorize_health_recoveries (resource_id : pyval) (now : Z) : dbm unit :=
  let! tasks := find_all Tasks (task_resource_query (text resource_id)) in
  each_task tasks (unless_serial (authorize_recovery resource_id now)).

(** [grant_after_user_authentication]. *)
Definition grant_identity (resource : pydict) (changed_ : bool) (now : Z) (task : pydict) : dbm unit :=
  if bool_decide (task.["resourceId"] = resource.["id"])
  then if changed_ then _transition_identity_task task (storage_identity resource) now
       else let! _ := update_one Tasks (fun d => fld d "id" task.["id"])
                        (set_all (identity_update (storage_identity resource) now)) in st_ret tt
  else st_ret tt.

Definition grant_task (resource : pydict) (changed_ : bool) (now : Z) (task : pydict) : dbm unit :=
  let! _ := grant_identity resource changed_ now task in
  match marker_of task with
  | Some marker =>
      if fld marker "resourceId" resource.["id"] && fld task "desiredState" STOPPED
      then authorize_marker task marker (fun _ => true) now else st_ret tt
  | None => st_ret tt
  end.

Definition grant_after_user_authentication (resource : pydict) (changed_ : bool) (now : Z) : dbm unit :=
  let! tasks := find_all Tasks (task_resource_query (text resource.["id"])) in
  each_task tasks (unless_serial (grant_task resource changed_ now)).

(** A task that waits for this probe continues its paused run. *)
Definition continue_waiting (snapshot : pydict) (now : Z) (task : pydict) : dbm unit :=
  match task.["resumeWaiting"] with
  | PDict ((_ :: _) as waiting) =>
      let same_paused_run := fld waiting "pausedRunId" task.["runId"] in
      let replaced_device := truthy waiting.["identityChangedAt"] && negb (truthy task.["runId"]) in
      if (same_paused_run || replaced_device) && fld waiting "generation" task.["generation"]
      then
        let! before := _not_after waiting.["requestedAt"] (dict_get_or snapshot "healthLeaseStartedAt" (PTime (Aware now))) in
        if before
        then
          let! _ := update_one Tasks
            (fun d => fld d "id" task.["id"] && fld d "status" WAITING_DEVICE && fld d "resumeWaiting" (PDict waiting))
            (fun d => dict_unset (set_all [("status", PAUSED); ("updatedAt", PTime (Aware now))] d) "resumeWaiting") in
          st_ret tt
        else st_ret tt
      else st_ret tt
  | _ => st_ret tt
  end.

Definition success_changes (snapshot metadata : pydict) (now : Z) : pydict :=
  [("healthStatus", ONLINE); ("healthCheckedAt", PTime (Aware now)); ("healthFailureCount", PInt 0);
   ("nextHealthCheckAt", PTime (Aware (now + HEALTH_INTERVAL_SECONDS * US_PER_SECOND)))]
  ++ (if existsb (fun kv => negb (bool_decide (snapshot.[kv.1] = kv.2))) metadata
      then metadata ++ [("authenticatedAt", PTime (Aware now)); ("updatedAt", PTime (Aware now))] else []).

(** Reconnecting sessions of the resource are woken. *)
Definition wake_sessions (snapshot : pydict) (now : Z) : dbm unit :=
  let! _ := update_many Tasks
    (fun d => fld d "resourceId" snapshot.["id"] && fld d "protocol" (PStr "SSH") && fld d "desiredState" RUNNING
              && fld d "deletedAt" PNone && fld_in d "status" [PStr "CONNECTING"; PStr "RECONNECTING"]
              && negb (fld d "nodeId" PNone))
    (set_all [("reconnectWake", PDict [("resourceId", snapshot.["id"]); ("requestedAt", PTime (Aware now))])]) in
  st_ret tt.

(** [_apply_success_commit]. *)
Definition _apply_success_commit (e : env) (snapshot metadata : pydict) (source : string) (authorize_user : bool) : dbm bool :=
  let now := e_now e in
  let! changed := _commit_health_result snapshot (success_changes snapshot metadata now) ["authRejectedAt"] in
  match changed with
  | None => st_ret false
  | Some changed =>
      let! _ := record_result e changed snapshot source "SUCCESS" PNone in
      let! _ := (if bool_decide (source = "MANUAL") then reassociate_coredump_history changed else st_ret 0) in
      let! _ := (if bool_decide (storage_identity snapshot = storage_identity changed) then st_ret tt
                 else
                   let! tasks := find_all Tasks (linked snapshot) in
                   each_task tasks (fun task => _transition_identity_task task (storage_identity changed) now)) in
      let! _ := _authorize_health_recoveries snapshot.["id"] now in
      let! _ := (if fld snapshot "healthStatus" ONLINE then st_ret tt else wake_sessions snapshot now) in
      let! _ := (if authorize_user then grant_after_user_authentication changed false now else st_ret tt) in
      let! waiting := find_all Tasks (waiting_tasks snapshot.["id"]) in
      let! _ := each_task waiting (unless_serial (continue_waiting snapshot now)) in
      st_ret true
  end.

(** [_apply_success]. *)
Definition _apply_success (e : env) (snapshot metadata : pydict) (f : fate) : dbm unit :=
  let! _ := transaction f (_apply_success_commit e snapshot metadata "PERIODIC" false) in st_ret tt.

(** ** The calls *)

(** How the authentication of a device ends. *)
Inductive probe : Type := Authenticated (metadata : pydict) | PermissionError | DeviceOfflineError | OtherError.

(** [check_resource]. *)
Definition check_resource (e : env) (snapshot : pydict) (answer : probe) (f : fate) : dbm unit :=
  match answer with
  | Authenticated metadata => _apply_success e snapshot metadata f
  | PermissionError => _apply_failure e snapshot "AUTH_FAILED" f
  | DeviceOfflineError => _apply_failure e snapshot "OFFLINE" f
  | OtherError => _apply_failure e snapshot "ERROR" f
  end.

(** [apply_manual_result]; [authorize_tasks] is the caller's check. *)
Definition manual_action (status : string) : string :=
  if bool_decide (status = "SUCCESS") then "authenticate_resource_succeeded"
  else if bool_decide (status = "AUTH_FAILED") then "authenticate_resource_credentials_rejected"
  else "authenticate_resource_device_error".

Definition manual_commit (e : env) (snapshot : pydict) (status : string) (metadata : pydict) : dbm unit :=
  let! changed := (if bool_decide (status = "SUCCESS") then _apply_success_commit e snapshot metadata "MANUAL" true
                   else _apply_failure_commit e snapshot status "MANUAL" false) in
  raise_if (negb changed) (Http 409 "资源配置或健康状态已变化，请刷新后重试").

Definition apply_manual_result (e : env) (snapshot : pydict) (status : string) (metadata : pydict) (actor : pyval)
    (authorize_tasks : dbm unit) (f : fate) : dbm unit :=
  audited_mutation actor (manual_action status) snapshot.["id"] (e_context e)
    (let! _ := authorize_tasks in manual_commit e snapshot status metadata) (e_now e) f.

(** [health_once]: a due resource is claimed before it is probed. *)
Definition due (now : Z) (d : pydict) : bool :=
  fld d "kind" (PStr "HIKVISION_NETWORK") && fld d "deletedAt" PNone
  && (absent d "nextHealthCheckAt" || time_le d "nextHealthCheckAt" now).

Definition lease_free (item : pydict) (now : Z) (d : pydict) : bool :=
  fld d "id" item.["id"] && fld d "deletedAt" PNone
  && (fld d "healthRevision" (dict_get_or item "healthRevision" (PInt 0)) || absent d "healthRevision")
  && (absent d "healthLeaseUntil" || time_le d "healthLeaseUntil" now).

(** The claim gives the snapshot the request works with. *)
Definition claim_probe (item : pydict) (now : Z) (token : string) : dbm (option pydict) :=
  let! claimed := find_one_and_update_before Resources (lease_free item now)
    (fun d => dict_inc "healthRevision" 1
       (set_all [("healthLeaseUntil", PTime (Aware (now + 20 * US_PER_SECOND))); ("healthLeaseStartedAt", PTime (Aware now));
                 ("healthLeaseToken", PStr token)] d)) in
  st_ret match claimed with
         | Some d => Some (set_all [("healthRevision", PInt (int_field item "healthRevision" + 1));
                                    ("healthLeaseToken", PStr token); ("healthLeaseStartedAt", PTime (Aware now))] d)
         | None => None
         end.

(** ** Consuming an authorized recovery *)

(** `{"resourceHealthRecovery.authorizedAt": {"$exists": True}}`. *)
Definition authorized (d : pydict) : bool :=
  match d.["resourceHealthRecovery"] with PDict m => negb (absent m "authorizedAt") | _ => false end.

Definition recovery_of (d : pydict) : pydict := dict_sub d "resourceHealthRecovery".

(** What is left of the old run. *)
Definition run_ended (run : option pydict) : bool := match run with Some r => truthy r.["endedAt"] | None => false end.

Definition resume_update (task : pydict) (now : Z) (d : pydict) : pydict :=
  let target := dict_get_or (recovery_of task) "desiredState" RUNNING in
  let d := set_all [("desiredState", target); ("restartRequested", PBool false); ("updatedAt", PTime (Aware now))] d in
  if bool_decide (target = PAUSED)
  then unset_all ["resourceHealthRecovery"; "runId"; "sessionId"] (set_all [("status", PAUSED)] d)
  else if fld task "status" (PStr "BLOCKED")
  then dict_unset (set_all [("status", STOPPED); ("error", PNone)] d) "resourceHealthRecovery"
  else dict_unset d "resourceHealthRecovery".

Definition consume_recovery_commit (resource_id task_id : string) (now : Z) : dbm bool :=
  let! resource := find_one_and_update Resources
    (fun d => fld d "id" (PStr resource_id) && fld d "deletedAt" PNone && fld d "healthStatus" ONLINE)
    (dict_inc "healthConsumeClaim" 1) in
  match resource with
  | None => st_ret false
  | Some _ =>
      let! task := find_one Tasks
        (fun d => fld d "id" (PStr task_id) && fld d "desiredState" STOPPED
                  && fld (recovery_of d) "resourceId" (PStr resource_id) && authorized d) in
      match task with
      | None => st_ret false
      | Some task =>
          if is_serial task || negb (fld task "nodeId" PNone) then st_ret false
          else
            let! lock := find_one EndpointLocks (fun d => fld d "taskId" (PStr task_id)) in
            match lock with
            | Some _ => st_ret false
            | None =>
                let! run := (if truthy task.["runId"] then find_one Runs (fun d => fld d "id" task.["runId"]) else st_ret None) in
                if truthy task.["runId"] && negb (run_ended run)
                then
                  let! _ := update_one Tasks
                    (fun d => fld d "id" (PStr task_id) && fld d "resourceHealthRecovery" task.["resourceHealthRecovery"])
                    (set_all [("status", PStr "BLOCKED"); ("error", PStr "系统停止后运行记录未收尾")]) in
                  st_ret false
                else
                  update_one Tasks
                    (fun d => fld d "id" (PStr task_id) && fld d "desiredState" STOPPED
                              && fld d "resourceHealthRecovery" task.["resourceHealthRecovery"])
                    (resume_update task now)
            end
      end
  end.

(** [_consume_authorized_recovery]. *)
Definition _consume_authorized_recovery (resource_id task_id : string) (now : Z) (f : fate) : dbm bool :=
  transaction f (consume_recovery_commit resource_id task_id now).

Definition may_recover (resource_id : string) (d : pydict) : bool :=
  task_resource_query resource_id d && fld d "desiredState" STOPPED && authorized d.

Fixpoint consume_each (resource_id : string) (tasks : list pydict) (now : Z) (fates : string -> fate) : dbm unit :=
  match tasks with
  | [] => st_ret tt
  | task :: tasks =>
      let! _ := _consume_authorized_recovery resource_id (text task.["id"]) now (fates (text task.["id"])) in
      consume_each resource_id tasks now fates
  end.

Fixpoint reconcile_each (resources : list pydict) (now : Z) (fates : string -> fate) : dbm unit :=
  match resources with
  | [] => st_ret tt
  | resource :: resources =>
      let! tasks := find_all Tasks (may_recover (text resource.["id"])) in
      let! _ := consume_each (text resource.["id"]) tasks now fates in
      reconcile_each resources now fates
  end.

(** [reconcile_authorized_recoveries]; the first exception ends the cycle. *)
Definition reconcile_authorized_recoveries (now : Z) (fates : string -> fate) : dbm unit :=
  let! resources := find_all Resources
    (fun d => fld d "kind" (PStr "HIKVISION_NETWORK") && fld d "deletedAt" PNone && fld d "healthStatus" ONLINE) in
  reconcile_each resources now fates.

(** ** Operations that leave the tasks alone *)

Context `{!MongoLaws}.

Implicit Types db : database.

Definition tasks_same {A} (m : dbm A) : Prop := forall db, wp m (fun _ db' => content db' Tasks = content db Tasks) db.

Lemma tasks_same_bind {A B} (m : dbm A) (k : A -> dbm B) : tasks_same m -> (forall a, tasks_same (k a)) -> tasks_same (st_bind m k).
Proof.
  intros Hm Hk db. apply wp_bind. eapply wp_mono; [apply Hm|]. intros [a|e] db1 E; cbn; [|done].
  eapply wp_mono; [apply Hk|]. intros r db2 E2. cbn in *. by rewrite E2.
Qed.

Lemma tasks_same_ret {A} (a : A) : tasks_same (st_ret a).
Proof. intros db. by apply wp_ret. Qed.

Lemma tasks_same_raise {A} e : tasks_same (A := A) (st_raise e).
Proof. intros db. by apply wp_raise. Qed.

Lemma tasks_same_raise_if b e : tasks_same (raise_if b e).
Proof. intros db. by apply wp_raise_if. Qed.

Lemma tasks_same_find_one c q : tasks_same (find_one c q).
Proof. intros db. by apply wp_find_one. Qed.

Lemma tasks_same_find_all c q : tasks_same (find_all c q).
Proof. intros db. by apply wp_find_all. Qed.

Lemma tasks_same_update c q f : c <> Tasks -> tasks_same (find_one_and_update c q f).
Proof. intros Hc db. apply wp_update; [|done]. intros d db' (_ & _ & Ho). apply Ho. congruence. Qed.

Lemma tasks_same_update_before c q f : c <> Tasks -> tasks_same (find_one_and_update_before c q f).
Proof. intros Hc db. apply wp_update_before; [|done]. intros d db' (_ & _ & Ho). apply Ho. congruence. Qed.

Lemma tasks_same_update_many c q f : c <> Tasks -> tasks_same (update_many c q f).
Proof. intros Hc db. apply wp_update_many. intros db' _ Ho. apply Ho. congruence. Qed.

Lemma tasks_same_insert c d : c <> Tasks -> tasks_same (insert_one c d).
Proof. intros Hc db. apply wp_insert; [|done]. intros db' _ _ Ho. apply Ho. congruence. Qed.

Lemma tasks_same_delete c q : c <> Tasks -> tasks_same (delete_one c q).
Proof. intros Hc db. apply wp_delete; [|done]. intros l d r db' _ _ _ Ho. apply Ho. congruence. Qed.

Create HintDb tasks.
#[local] Hint Resolve tasks_same_ret tasks_same_raise tasks_same_raise_if tasks_same_find_one tasks_same_find_all tasks_same_update
  tasks_same_update_before tasks_same_update_many tasks_same_insert tasks_same_delete : tasks.
#[local] Hint Extern 1 (_ <> Tasks) => discriminate : tasks.

(** Split a computation into its operations. *)
Ltac tasks_same :=
  repeat first
    [ progress intros
    | apply tasks_same_bind
    | match goal with |- tasks_same (match ?x with _ => _ end) => destruct x end
    | solve [auto with tasks] ].

Lemma record_result_same e changed snapshot source result message : tasks_same (record_result e changed snapshot source result message).
Proof.
  unfold record_result, record_authentication, _record_authentication_in_session, find_one_and_upsert, merge_or_insert, latest_of,
    new_record, update_modified, update_one. tasks_same.
Qed.

Lemma commit_health_result_same snapshot changes unset : tasks_same (_commit_health_result snapshot changes unset).
Proof.
  unfold _commit_health_result, _resume_requested_after_probe, _not_after.
  assert (Hany : forall started tasks, tasks_same (any_requested started tasks)).
  { intros started tasks. induction tasks as [|t tasks IH]; cbn [any_requested]; [tasks_same|]. unfold _not_after.
    destruct (truthy _); [|done]. tasks_same. }
  tasks_same.
Qed.

Lemma audit_same context now actor action target : tasks_same (audit context now actor action target).
Proof. unfold audit. tasks_same. Qed.

Lemma reassociate_same resource : tasks_same (reassociate_coredump_history resource).
Proof.
  unfold reassociate_coredump_history. assert (Hm : forall i previous catalogs, tasks_same (migrate resource i previous catalogs)).
  { intros i previous catalogs. induction catalogs as [|c catalogs IH]; cbn [migrate]; unfold update_modified; [tasks_same|].
    apply tasks_same_bind; [tasks_same|]. intros b. apply tasks_same_bind; [done|]. tasks_same. }
  tasks_same.
Qed.

Lemma end_paused_run_same task now : tasks_same (end_paused_run task now).
Proof. unfold end_paused_run, update_one. tasks_same. Qed.

(** ** What may happen to a task *)

(** The user has stopped the task: no marker of the health policy, and no paused
    run that a new identity would restart. *)
Definition user_stopped (d : pydict) : Prop :=
  d.["desiredState"] = STOPPED /\ marker_of d = None /\ fld_in d "status" [PAUSED; WAITING_DEVICE] = false.

Definition evolves (d d' : pydict) : Prop :=
  d'.["id"] = d.["id"] /\ d'.["protocol"] = d.["protocol"]
  /\ (is_serial d = true -> d' = d) /\ (user_stopped d -> user_stopped d').

Definition kept (db db' : database) : Prop := Forall2 evolves (content db Tasks) (content db' Tasks).

(** Only the task [i] changed. *)
Definition changed_only (i : pyval) (db db' : database) : Prop :=
  Forall2 (fun d d' => d' = d \/ (d.["id"] = i /\ evolves d d')) (content db Tasks) (content db' Tasks).

Lemma evolves_refl d : evolves d d.
Proof. done. Qed.

Lemma is_serial_protocol d d' : d'.["protocol"] = d.["protocol"] -> is_serial d' = is_serial d.
Proof. unfold is_serial, fld. by intros ->. Qed.

Lemma evolves_trans d1 d2 d3 : evolves d1 d2 -> evolves d2 d3 -> evolves d1 d3.
Proof.
  intros (I1 & P1 & S1 & U1) (I2 & P2 & S2 & U2). split_and!; [congruence|congruence| |auto].
  intros Hs. rewrite S2, S1; [done|done|]. by rewrite (is_serial_protocol d1 d2).
Qed.

#[local] Instance evolves_preorder : PreOrder evolves.
Proof. split; [exact evolves_refl|exact evolves_trans]. Qed.

Lemma kept_same db db' : content db' Tasks = content db Tasks -> kept db db'.
Proof. unfold kept. intros ->. reflexivity. Qed.

Lemma kept_trans db1 db2 db3 : kept db1 db2 -> kept db2 db3 -> kept db1 db3.
Proof. unfold kept. intros F1 F2. by etransitivity. Qed.

Lemma changed_only_kept i db db' : changed_only i db db' -> kept db db'.
Proof.
  unfold changed_only, kept. intros HF. eapply Forall2_impl; [exact HF|]. intros d d' [->|[_ ?]]; [apply evolves_refl|done].
Qed.

Lemma changed_only_same i db db' : content db' Tasks = content db Tasks -> changed_only i db db'.
Proof. unfold changed_only. intros ->. apply Forall_Forall2_diag, Forall_true. by left. Qed.

Lemma changed_only_trans i db1 db2 db3 : changed_only i db1 db2 -> changed_only i db2 db3 -> changed_only i db1 db3.
Proof.
  unfold changed_only. apply Forall2_trans. intros d1 d2 d3 [->|[I1 E1]] [->|[I2 E2]]; auto.
  right. split; [done|]. by eapply evolves_trans.
Qed.

Definition task_ids (db : database) : list pyval := map (fun d => d.["id"]) (content db Tasks).

Lemma kept_ids db db' : kept db db' -> task_ids db' = task_ids db.
Proof.
  unfold kept, task_ids. induction 1 as [|d d' l l' (Hi & _) _ IH]; cbn; [done|]. by rewrite Hi, IH.
Qed.

(** A task whose identifier is another's is as it was. *)
Lemma changed_only_in i db db' t : changed_only i db db' -> t ∈ content db Tasks -> t.["id"] <> i -> t ∈ content db' Tasks.
Proof.
  unfold changed_only. intros HF Ht Hi. apply list_elem_of_lookup in Ht as [n Hn].
  destruct (Forall2_lookup_l _ _ _ _ _ HF Hn) as (t' & Hn' & [->|[? _]]); [|done]. apply list_elem_of_lookup. by exists n.
Qed.

(** ** One task *)

(** What a write may assume of the task it was read for: the protocol, and in a
    fresh database the whole document. *)
Definition knows (task : pydict) (db : database) : Prop :=
  is_serial task = false /\ forall d, d ∈ content db Tasks -> d.["id"] = task.["id"] -> is_serial d = false.

Definition fresh_copy (task : pydict) (db : database) : Prop :=
  forall d, d ∈ content db Tasks -> d.["id"] = task.["id"] -> d = task.

Lemma knows_changed task i db db' : changed_only i db db' -> knows task db -> knows task db'.
Proof.
  intros HF [Hs HK]. split; [done|]. intros d' Hd' Hid. apply list_elem_of_lookup in Hd' as [n Hn].
  destruct (Forall2_lookup_r _ _ _ _ _ HF Hn) as (d & Hn' & [->|[_ (E1 & E2 & _)]]).
  - apply HK; [|done]. apply list_elem_of_lookup. by exists n.
  - rewrite (is_serial_protocol d d' E2). apply HK; [|congruence]. apply list_elem_of_lookup. by exists n.
Qed.

Definition on_task {A} (task : pydict) (m : dbm A) : Prop :=
  forall db, knows task db -> wp m (fun _ db' => changed_only task.["id"] db db') db.

Lemma on_task_bind {A B} task (m : dbm A) (k : A -> dbm B) :
  on_task task m -> (forall a, on_task task (k a)) -> on_task task (st_bind m k).
Proof.
  intros Hm Hk db HK. apply wp_bind. eapply wp_mono; [by apply Hm|]. intros [a|e] db1 H1'; cbn; [|done].
  eapply wp_mono; [apply Hk; by eapply knows_changed|]. intros r db2 H2'. cbn in *. by eapply changed_only_trans.
Qed.

Lemma on_task_same {A} task (m : dbm A) : tasks_same m -> on_task task m.
Proof. intros Hm db HK. eapply wp_mono; [apply Hm|]. intros r db'. apply changed_only_same. Qed.

Lemma write_changed i q f d db db' :
  updated Tasks q f d db db' -> d.["id"] = i -> evolves d (f d) -> changed_only i db db'.
Proof.
  intros (_ & (l & r & E & E') & _) Hi He. unfold changed_only. rewrite E, E'. apply Forall2_app; [|constructor].
  - apply Forall_Forall2_diag, Forall_true. by left.
  - by right.
  - apply Forall_Forall2_diag, Forall_true. by left.
Qed.

(** A write that names the task and keeps what [evolves] keeps. *)
Lemma on_task_update task q f :
  (forall d, q d = true -> d.["id"] = task.["id"]
     /\ (f d).["id"] = d.["id"] /\ (f d).["protocol"] = d.["protocol"] /\ (user_stopped d -> user_stopped (f d))) ->
  on_task task (update_one Tasks q f).
Proof.
  intros Hq db [Hs HK]. apply wp_update_one; [|intros _; by apply changed_only_same].
  intros d db' Hu. pose proof Hu as (Hqd & (l & r & E & _) & _). destruct (Hq d Hqd) as (Hid & H1' & H2' & H3').
  eapply write_changed; [exact Hu|done|]. split_and!; try done.
  rewrite (HK d); [done|rewrite E; apply elem_of_middle|done].
Qed.

(** Fields that are not read by [user_stopped]. *)
Lemma user_stopped_same d d' :
  d'.["desiredState"] = d.["desiredState"] -> d'.["resourceHealthRecovery"] = d.["resourceHealthRecovery"] ->
  d'.["status"] = d.["status"] -> user_stopped d -> user_stopped d'.
Proof. unfold user_stopped, marker_of, fld_in, fld. by intros -> -> ->. Qed.

Lemma stopped_stays d d' :
  d'.["desiredState"] = STOPPED -> d'.["resourceHealthRecovery"] = d.["resourceHealthRecovery"] ->
  d'.["status"] = d.["status"] -> user_stopped d -> user_stopped d'.
Proof. unfold user_stopped, marker_of, fld_in, fld. intros -> -> ->. naive_solver. Qed.

Lemma not_user_stopped_running d : d.["desiredState"] = RUNNING -> ~ user_stopped d.
Proof. intros E (E' & _). rewrite E in E'. done. Qed.

Lemma not_user_stopped_marked d k m : d.["resourceHealthRecovery"] = PDict (k :: m) -> ~ user_stopped d.
Proof. intros E (_ & E' & _). unfold marker_of in E'. by rewrite E in E'. Qed.

Lemma not_user_stopped_waiting d : d.["status"] = WAITING_DEVICE -> ~ user_stopped d.
Proof. intros E (_ & _ & E'). unfold fld_in, fld in E'. rewrite E in E'. done. Qed.

Lemma marker_of_spec task marker :
  marker_of task = Some marker -> exists k m, marker = k :: m /\ task.["resourceHealthRecovery"] = PDict (k :: m).
Proof.
  unfold marker_of. destruct task.["resourceHealthRecovery"] as [| | | | | | |[|k m]]; try done. intros [= <-].
  by exists k, m.
Qed.

(** ** The operations on one task *)

Lemma on_task_ret {A} task (a : A) : on_task task (st_ret a).
Proof. apply on_task_same, tasks_same_ret. Qed.

Lemma stop_on_task e task resource require_owner accepted alive :
  on_task task (stop_for_resource_health e task resource require_owner accepted alive).
Proof.
  unfold stop_for_resource_health. destruct (is_serial task || _); [apply on_task_ret|].
  destruct (_ && has_live_runtime_ownership task); [apply on_task_ret|].
  apply on_task_bind; [by apply on_task_same, tasks_same_update|]. intros [current|]; [|apply on_task_ret].
  destruct (negb _); [apply on_task_ret|]. apply on_task_bind.
  - apply on_task_update. intros d Hq. unfold _task_control_query in Hq. freflect.
    cbn [set_all foldl fst snd]. dget. split_and!; [done..|]. intros Hu. by destruct (not_user_stopped_running d).
  - intros []; [|apply on_task_ret]. unfold record_stop.
    apply on_task_bind; [by apply on_task_same, tasks_same_update_many|]. intros n.
    apply on_task_bind; [by apply on_task_same, tasks_same_insert|]. intros u. apply on_task_bind.
    + apply on_task_update. intros d Hq. freflect. cbn [set_all foldl fst snd]. dget. split_and!; [done..|].
      apply user_stopped_same; by dget.
    + intros b. apply on_task_bind; [apply on_task_same, audit_same|]. intros u'. apply on_task_ret.
Qed.

Lemma refresh_on_task e snapshot status task : on_task task (refresh_marker e snapshot status task).
Proof.
  unfold refresh_marker. destruct (marker_of task) as [marker|] eqn:Em; [|apply on_task_ret].
  destruct (marker_of_spec _ _ Em) as (k & m & -> & Ek). destruct (_ && _); [|apply on_task_ret].
  apply on_task_bind; [|intros b; apply on_task_ret]. apply on_task_update. intros d Hq. freflect.
  cbn [set_all foldl fst snd]. dget. split_and!; [done..|]. intros Hu. by destruct (not_user_stopped_marked d k m).
Qed.

Lemma fail_on_task e snapshot changed status task : on_task task (fail_task e snapshot changed status task).
Proof.
  unfold fail_task. destruct (_ || _).
  - destruct (fld task "status" WAITING_DEVICE); [|apply on_task_ret]. apply on_task_bind; [|intros b; apply on_task_ret].
    apply on_task_update. intros d Hq. freflect. unfold set_waiting_reason. dget. split_and!; [done..|].
    intros Hu. by destruct (not_user_stopped_waiting d).
  - destruct (negb _); [apply refresh_on_task|]. destruct (resource_health_blocks_task _ _); [|apply on_task_ret].
    apply on_task_bind; [apply stop_on_task|]. intros b. apply on_task_ret.
Qed.

Lemma authorize_on_task task marker query now :
  marker_of task = Some marker -> on_task task (authorize_marker task marker query now).
Proof.
  intros Em. destruct (marker_of_spec _ _ Em) as (k & m & -> & Ek). unfold authorize_marker.
  apply on_task_bind; [|intros b; apply on_task_ret]. apply on_task_update. intros d Hq. freflect.
  cbn [set_all foldl fst snd]. dget. split_and!; [done..|]. intros Hu. by destruct (not_user_stopped_marked d k m).
Qed.

Lemma authorize_recovery_on_task resource_id now task : on_task task (authorize_recovery resource_id now task).
Proof.
  unfold authorize_recovery. destruct (marker_of task) as [marker|] eqn:Em; [|apply on_task_ret].
  destruct (_ && _); [by apply authorize_on_task|apply on_task_ret].
Qed.

Lemma continue_on_task snapshot now task : on_task task (continue_waiting snapshot now task).
Proof.
  unfold continue_waiting. destruct task.["resumeWaiting"] as [| | | | | | |[|k m]]; try apply on_task_ret.
  destruct (_ && _); [|apply on_task_ret]. apply on_task_bind.
  { apply on_task_same. unfold _not_after. repeat case_match; first [apply tasks_same_ret|apply tasks_same_raise]. }
  intros []; [|apply on_task_ret]. apply on_task_bind; [|intros b; apply on_task_ret].
  apply on_task_update. intros d Hq. freflect. cbn [set_all foldl fst snd]. dget. split_and!; [done..|].
  intros Hu. by destruct (not_user_stopped_waiting d).
Qed.

Lemma identity_write_on_task task identity now :
  on_task task (update_one Tasks (fun d => fld d "id" task.["id"]) (set_all (identity_update identity now))).
Proof.
  apply on_task_update. intros d Hq. freflect. unfold identity_update. cbn [set_all foldl fst snd]. dget. split_and!; [done..|].
  apply user_stopped_same; by dget.
Qed.

(** A task as it was read. *)
Definition on_fresh {A} (task : pydict) (m : dbm A) : Prop :=
  forall db, knows task db -> fresh_copy task db -> wp m (fun _ db' => changed_only task.["id"] db db') db.

Lemma on_task_fresh {A} task (m : dbm A) : on_task task m -> on_fresh task m.
Proof. intros Hm db HK _. by apply Hm. Qed.

Lemma fresh_same task db db' : content db' Tasks = content db Tasks -> fresh_copy task db -> fresh_copy task db'.
Proof. unfold fresh_copy. by intros ->. Qed.

Lemma transition_on_fresh task identity now : on_fresh task (_transition_identity_task task identity now).
Proof.
  unfold _transition_identity_task. destruct (is_serial task); [apply on_task_fresh, on_task_ret|].
  destruct (_ && fld task "desiredState" RUNNING).
  { apply on_task_fresh, on_task_bind; [|intros b; apply on_task_ret]. apply on_task_update. intros d Hq. freflect.
    unfold identity_update. cbn [app set_all foldl fst snd]. dget. split_and!; [done..|]. apply stopped_stays; by dget. }
  destruct (fld_in task "status" _) eqn:Es.
  2:{ apply on_task_fresh, on_task_bind; [apply identity_write_on_task|intros b; apply on_task_ret]. }
  intros db HK HF. apply wp_bind. eapply wp_mono; [apply end_paused_run_same|]. intros [u|e] db1 E1; cbn [on_ok].
  2:{ by apply changed_only_same. }
  apply wp_bind, wp_update_one; cbn [on_ok]; [|intros _; apply wp_ret; by apply changed_only_same].
  intros d db2 Hu. apply wp_ret. eapply changed_only_trans; [by apply changed_only_same|].
  pose proof Hu as (Hq & (l & r & E & _) & _). apply fld_true in Hq.
  assert (Hd : d ∈ content db1 Tasks) by (rewrite E; apply elem_of_middle).
  assert (d = task) as ->. { apply HF; [by rewrite <- E1|done]. }
  eapply write_changed; [exact Hu|done|]. unfold paused_update, identity_update.
  destruct (fld task "status" PAUSED); cbn [app set_all unset_all foldl fst snd]; (split_and!; [by dget|by dget| |]);
    first [intros Hs; destruct HK; congruence|intros (_ & _ & Hn); congruence].
Qed.

Lemma grant_on_fresh resource changed_ now task : on_fresh task (grant_task resource changed_ now task).
Proof.
  assert (Hrest : on_task task match marker_of task with
    | Some marker => if fld marker "resourceId" resource.["id"] && fld task "desiredState" STOPPED
                     then authorize_marker task marker (fun _ => true) now else st_ret tt
    | None => st_ret tt end).
  { destruct (marker_of task) as [marker|] eqn:Em; [|apply on_task_ret].
    destruct (_ && _); [by apply authorize_on_task|apply on_task_ret]. }
  intros db HK HF. apply wp_bind.
  assert (Hid : on_fresh task (grant_identity resource changed_ now task)).
  { unfold grant_identity. destruct (bool_decide _); [|apply on_task_fresh, on_task_ret]. destruct changed_.
    - apply transition_on_fresh.
    - apply on_task_fresh, on_task_bind; [apply identity_write_on_task|intros b; apply on_task_ret]. }
  eapply wp_mono; [by apply Hid|]. intros [u|e] db1 H1'; cbn [on_ok]; [|done].
  eapply wp_mono; [apply Hrest; by eapply knows_changed|]. intros r db2 H2'. cbn in *. by eapply changed_only_trans.
Qed.

(** ** Whole computations *)

Definition keeping {A} (m : dbm A) : Prop := forall db, NoDup (task_ids db) -> wp m (fun _ db' => kept db db') db.

Lemma keeping_bind {A B} (m : dbm A) (k : A -> dbm B) : keeping m -> (forall a, keeping (k a)) -> keeping (st_bind m k).
Proof.
  intros Hm Hk db Hn. apply wp_bind. eapply wp_mono; [by apply Hm|]. intros [a|e] db1 H1'; cbn; [|done].
  eapply wp_mono; [apply Hk; by rewrite (kept_ids _ _ H1')|]. intros r db2 H2'. cbn in *. by eapply kept_trans.
Qed.

Lemma keeping_same {A} (m : dbm A) : tasks_same m -> keeping m.
Proof. intros Hm db _. eapply wp_mono; [apply Hm|]. intros r db'. apply kept_same. Qed.

Lemma keeping_ret {A} (a : A) : keeping (st_ret a).
Proof. apply keeping_same, tasks_same_ret. Qed.

Lemma keeping_transaction {A} f (m : dbm A) : keeping m -> keeping (transaction f m).
Proof.
  intros Hm db Hn. apply wp_transaction. eapply wp_mono; [by apply Hm|]. intros [a|e] db' HK; [|by apply kept_same].
  destruct f as [|[]]; [done|done|by apply kept_same].
Qed.

Lemma keeping_catch {A} (m : dbm A) h :
  keeping m -> (forall e k, h e = Some k -> keeping k) -> keeping (st_catch m h).
Proof.
  intros Hm Hh db Hn. apply wp_catch. eapply wp_mono; [by apply Hm|]. intros [a|e] db1 H1'; [done|].
  destruct (h e) as [k|] eqn:E; [|done]. eapply wp_mono; [apply (Hh e k E); by rewrite (kept_ids _ _ H1')|].
  intros r db2 H2'. by eapply kept_trans.
Qed.

(** The tasks a query finds are fresh, each when its turn comes. *)
Lemma each_task_wp tasks f : forall db,
  NoDup (task_ids db) -> NoDup (map (fun d => d.["id"]) tasks) -> (forall t, t ∈ tasks -> t ∈ content db Tasks) ->
  (forall t, is_serial t = false -> on_fresh t (f t)) ->
  wp (each_task tasks (unless_serial f)) (fun _ db' => kept db db') db.
Proof.
  induction tasks as [|t tasks IH]; intros db Hn Ht Hin Hf; cbn [each_task]; [by apply wp_ret, kept_same|].
  rewrite map_cons in Ht. apply NoDup_cons in Ht as [Hnot Ht]. apply wp_bind.
  assert (Hfresh : fresh_copy t db).
  { intros d Hd Hid. eapply (NoDup_map_eq (fun d => d.["id"])); [exact Hn|done| |done]. apply Hin. by left. }
  assert (Hstep : wp (unless_serial f t) (fun _ db' => changed_only t.["id"] db db') db).
  { unfold unless_serial. destruct (is_serial t) eqn:Es; [by apply wp_ret, changed_only_same|].
    apply Hf; [done| |done]. split; [done|]. intros d Hd Hid. by rewrite (Hfresh d). }
  eapply wp_mono; [exact Hstep|]. intros [u|e] db1 H1'; cbn [on_ok]; [|by eapply changed_only_kept].
  pose proof (changed_only_kept _ _ _ H1') as Hk. eapply wp_mono; [apply IH|].
  - by rewrite (kept_ids _ _ Hk).
  - done.
  - intros x Hx. eapply changed_only_in; [exact H1'|apply Hin; by right|]. intros E. apply Hnot. rewrite <- E.
    by apply (list_elem_of_fmap_2 (fun d => d.["id"])).
  - done.
  - intros r db2 H2'. by eapply kept_trans.
Qed.

Lemma found_ids q db l : NoDup (task_ids db) -> l ≡ₚ filter (fun d => q d = true) (content db Tasks) ->
  NoDup (map (fun d => d.["id"]) l) /\ forall t, t ∈ l -> t ∈ content db Tasks.
Proof.
  intros Hn E. split.
  - rewrite E. unfold task_ids in Hn. clear E. induction (content db Tasks) as [|d ds IH]; [constructor|].
    cbn in Hn. apply NoDup_cons in Hn as [Hd Hn]. rewrite filter_cons. case_decide; [|by apply IH]. cbn.
    apply NoDup_cons. split; [|by apply IH]. intros (x & Ex & Hx)%list_elem_of_fmap. apply Hd.
    apply list_elem_of_filter in Hx as [_ Hx]. rewrite Ex. by apply (list_elem_of_fmap_2 (fun d => d.["id"])).
  - intros t Ht. rewrite E in Ht. apply list_elem_of_filter in Ht. apply Ht.
Qed.

Lemma keeping_each q f : (forall t, is_serial t = false -> on_fresh t (f t)) ->
  keeping (let! tasks := find_all Tasks q in each_task tasks (unless_serial f)).
Proof.
  intros Hf db Hn. apply wp_bind, wp_find_all. intros l Hl. cbn [on_ok]. destruct (found_ids q db l Hn Hl) as [H1' H2'].
  by apply each_task_wp.
Qed.

Lemma keeping_loop {B} q f (k : dbm B) : (forall t, is_serial t = false -> on_fresh t (f t)) -> keeping k ->
  keeping (let! tasks := find_all Tasks q in let! _ := each_task tasks (unless_serial f) in k).
Proof.
  intros Hf Hk db Hn. apply wp_bind, wp_find_all. intros l Hl. cbn [on_ok]. destruct (found_ids q db l Hn Hl) as [H1' H2'].
  apply wp_bind. eapply wp_mono; [by apply each_task_wp|]. intros [u|e] db1 Hk1; cbn [on_ok]; [|done].
  eapply wp_mono; [apply Hk; by rewrite (kept_ids _ _ Hk1)|]. intros r db2 Hk2. by eapply kept_trans.
Qed.

Lemma keeping_failure e snapshot status source advance : keeping (_apply_failure_commit e snapshot status source advance).
Proof.
  unfold _apply_failure_commit. apply keeping_bind; [apply keeping_same, commit_health_result_same|].
  intros [changed|]; [|apply keeping_ret]. apply keeping_bind; [apply keeping_same, record_result_same|]. intros v.
  apply keeping_loop; [intros t _; apply on_task_fresh, fail_on_task|].
  apply keeping_same, tasks_same_bind; [|intros; apply tasks_same_ret]. destruct (_ && _); [apply audit_same|apply tasks_same_ret].
Qed.

(** A write on several tasks none of which is serial. *)
Lemma wake_keeping snapshot now : keeping (wake_sessions snapshot now).
Proof.
  intros db Hn. apply wp_bind, wp_update_many. cbn [on_ok]. intros db' E _. apply wp_ret. unfold kept. rewrite E.
  clear E Hn. induction (content db Tasks) as [|d l IH]; [constructor|]. cbn. constructor; [|done].
  unfold apply_if. destruct (fld d "resourceId" _ && _ && _ && _ && _ && _) eqn:Eq; [|apply evolves_refl]. freflect.
  cbn [set_all foldl fst snd]. split_and!; [by dget|by dget| |].
  - intros Hs. unfold is_serial in Hs. apply fld_true in Hs. unfold SERIAL in *; congruence.
  - apply user_stopped_same; by dget.
Qed.

Lemma transition_is_unless_serial identity now task :
  _transition_identity_task task identity now = unless_serial (fun t => _transition_identity_task t identity now) task.
Proof. unfold unless_serial, _transition_identity_task. by destruct (is_serial task). Qed.

Lemma each_task_ext tasks f g : (forall t, f t = g t) -> each_task tasks f = each_task tasks g.
Proof. intros E. induction tasks as [|t tasks IH]; cbn; [done|]. by rewrite E, IH. Qed.

Lemma keeping_grant resource changed_ now : keeping (grant_after_user_authentication resource changed_ now).
Proof. apply keeping_each. intros t _. apply grant_on_fresh. Qed.

Lemma keeping_success e snapshot metadata source authorize : keeping (_apply_success_commit e snapshot metadata source authorize).
Proof.
  unfold _apply_success_commit. apply keeping_bind; [apply keeping_same, commit_health_result_same|].
  intros [changed|]; [|apply keeping_ret]. apply keeping_bind; [apply keeping_same, record_result_same|]. intros v.
  apply keeping_bind; [apply keeping_same; destruct (bool_decide _); [apply reassociate_same|apply tasks_same_ret]|]. intros n.
  apply keeping_bind.
  { destruct (bool_decide _); [apply keeping_ret|]. intros db Hn. apply wp_bind, wp_find_all. intros l Hl. cbn [on_ok].
    rewrite (each_task_ext l _ _ (transition_is_unless_serial _ _)).
    destruct (found_ids _ db l Hn Hl) as [H1' H2']. apply each_task_wp; [done..|]. intros t _. apply transition_on_fresh. }
  intros u. apply keeping_bind; [apply keeping_each; intros t _; apply on_task_fresh, authorize_recovery_on_task|]. intros u2.
  apply keeping_bind; [destruct (fld _ _ _); [apply keeping_ret|apply wake_keeping]|]. intros u3.
  apply keeping_bind; [destruct authorize; [apply keeping_grant|apply keeping_ret]|]. intros u4.
  apply keeping_loop; [intros t _; apply on_task_fresh, continue_on_task|apply keeping_ret].
Qed.

Lemma keeping_manual e snapshot status metadata : keeping (manual_commit e snapshot status metadata).
Proof.
  unfold manual_commit. apply keeping_bind; [destruct (bool_decide _); [apply keeping_success|apply keeping_failure]|].
  intros b. apply keeping_same, tasks_same_raise_if.
Qed.

(** ** Consuming a recovery *)

Lemma authorized_marked d : authorized d = true -> exists k m, d.["resourceHealthRecovery"] = PDict (k :: m).
Proof. unfold authorized. destruct d.["resourceHealthRecovery"] as [| | | | | | |[|k m]]; try done. by exists k, m. Qed.

Lemma resume_update_fields task now d :
  (resume_update task now d).["id"] = d.["id"] /\ (resume_update task now d).["protocol"] = d.["protocol"].
Proof.
  unfold resume_update. destruct (bool_decide _); [|destruct (fld task _ _)]; cbn [set_all unset_all foldl fst snd]; by dget.
Qed.

Lemma found_knows task db : NoDup (task_ids db) -> task ∈ content db Tasks -> is_serial task = false -> knows task db.
Proof.
  intros Hn Hin Hs. split; [done|]. intros d Hd Hid.
  assert (d = task) as -> by (eapply (NoDup_map_eq (fun d => d.["id"])); [exact Hn|done|done|done]). done.
Qed.

Lemma keeping_consume resource_id task_id now : keeping (consume_recovery_commit resource_id task_id now).
Proof.
  unfold consume_recovery_commit. apply keeping_bind; [by apply keeping_same, tasks_same_update|].
  intros [resource|]; [|apply keeping_ret]. intros db Hn. apply wp_bind, wp_find_one; cbn [on_ok]; [|intros _; by apply wp_ret, kept_same].
  intros task Hin Hq. freflect. destruct (authorized_marked task) as (k & m & Em); [done|].
  destruct (is_serial task || _) eqn:Es; [by apply wp_ret, kept_same|]. apply orb_false_iff in Es as [Es _].
  assert (Hk : knows task db) by by apply found_knows.
  assert (Hwrite : forall f, (forall d, (f d).["id"] = d.["id"] /\ (f d).["protocol"] = d.["protocol"]) ->
    forall q, on_task task (update_one Tasks
      (fun d => fld d "id" (PStr task_id) && q d && fld d "resourceHealthRecovery" task.["resourceHealthRecovery"]) f)).
  { intros f Hf q. apply on_task_update. intros d Hqd. freflect. destruct (Hf d). split_and!; [congruence|done|done|].
    intros Hu. destruct (not_user_stopped_marked d k m); [congruence|done]. }
  assert (Hon : on_task task
    (let! lock := find_one EndpointLocks (fun d => fld d "taskId" (PStr task_id)) in
     match lock with
     | Some _ => st_ret false
     | None =>
         let! run := (if truthy task.["runId"] then find_one Runs (fun d => fld d "id" task.["runId"]) else st_ret None) in
         if truthy task.["runId"] && negb (run_ended run)
         then
           let! _ := update_one Tasks
             (fun d => fld d "id" (PStr task_id) && fld d "resourceHealthRecovery" task.["resourceHealthRecovery"])
             (set_all [("status", PStr "BLOCKED"); ("error", PStr "系统停止后运行记录未收尾")]) in
           st_ret false
         else
           update_one Tasks
             (fun d => fld d "id" (PStr task_id) && fld d "desiredState" STOPPED
                       && fld d "resourceHealthRecovery" task.["resourceHealthRecovery"])
             (resume_update task now)
     end)).
  { apply on_task_bind; [apply on_task_same, tasks_same_find_one|]. intros [lock|]; [apply on_task_ret|].
    apply on_task_bind; [apply on_task_same; destruct (truthy _); [apply tasks_same_find_one|apply tasks_same_ret]|].
    intros run. destruct (_ && negb _); [|apply Hwrite, resume_update_fields].
    apply on_task_bind; [|intros b; apply on_task_ret]. apply on_task_update. intros d Hqd. freflect.
    cbn [set_all foldl fst snd]. dget. split_and!; [congruence|done|done|].
    intros Hu. destruct (not_user_stopped_marked d k m); [congruence|done]. }
  eapply wp_mono; [by apply Hon|]. intros r db'. apply changed_only_kept.
Qed.

Lemma keeping_reconcile resources now fates : keeping (reconcile_each resources now fates).
Proof.
  induction resources as [|r rs IH]; cbn [reconcile_each]; [apply keeping_ret|].
  apply keeping_bind; [apply keeping_same, tasks_same_find_all|]. intros tasks. apply keeping_bind; [|done].
  induction tasks as [|t ts IHt]; cbn [consume_each]; [apply keeping_ret|].
  apply keeping_bind; [apply keeping_transaction, keeping_consume|]. done.
Qed.

(** ** The calls of the health policy *)

Inductive health_call : Type :=
  | Checked (snapshot : pydict) (answer : probe)
  | Manual (snapshot : pydict) (status : string) (metadata : pydict) (actor : pyval)
  | Granted (resource : pydict) (identity_changed : bool)
  | Unresponsive (task : pydict) (alive : option bool)
  | Claimed (item : pydict) (token : string)
  | Reconciled (fates : string -> fate).

(** The task a worker holds has the protocol it was started with. *)
Definition call_valid (c : health_call) (db : database) : Prop :=
  match c with
  | Unresponsive task _ => forall d, d ∈ content db Tasks -> d.["id"] = task.["id"] -> is_serial d = is_serial task
  | _ => True
  end.

Definition perform_health (c : health_call) (e : env) (f : fate) : dbm unit :=
  match c with
  | Checked snapshot answer => check_resource e snapshot answer f
  | Manual snapshot status metadata actor => apply_manual_result e snapshot status metadata actor (st_ret tt) f
  | Granted resource changed_ => transaction f (grant_after_user_authentication resource changed_ (e_now e))
  | Unresponsive task alive => let! _ := stop_unresponsive_task e task alive f in st_ret tt
  | Claimed item token => let! _ := claim_probe item (e_now e) token in st_ret tt
  | Reconciled fates => reconcile_authorized_recoveries (e_now e) fates
  end.

Lemma stop_unresponsive_kept e task alive f db :
  call_valid (Unresponsive task alive) db -> wp (stop_unresponsive_task e task alive f) (fun _ db' => kept db db') db.
Proof.
  intros Hv. unfold stop_unresponsive_task. destruct (is_serial task) eqn:Es; [by apply wp_ret, kept_same|].
  assert (Hk : knows task db) by (split; [done|]; intros d Hd Hid; by rewrite (Hv d)).
  apply wp_transaction, wp_bind, wp_find_one; cbn [on_ok].
  - intros resource _ _. eapply wp_mono; [by apply stop_on_task|]. intros [b|x] db' Hc; [|by apply kept_same].
    destruct f as [|[]]; [by eapply changed_only_kept|by eapply changed_only_kept|by apply kept_same].
  - intros _. apply wp_ret. destruct f as [|[]]; by apply kept_same.
Qed.

Lemma keeping_check e snapshot answer f : keeping (check_resource e snapshot answer f).
Proof.
  destruct answer; cbn [check_resource]; unfold _apply_success, _apply_failure;
    (apply keeping_bind; [apply keeping_transaction|intros a; apply keeping_ret]).
  - apply keeping_success.
  - apply keeping_failure.
  - apply keeping_failure.
  - apply keeping_failure.
Qed.

Lemma keeping_apply_manual e snapshot status metadata actor f :
  keeping (apply_manual_result e snapshot status metadata actor (st_ret tt) f).
Proof.
  unfold apply_manual_result, audited_mutation. apply keeping_catch.
  - apply keeping_transaction, keeping_bind.
    + apply keeping_bind; [apply keeping_ret|]. intros u. apply keeping_manual.
    + intros u. apply keeping_same, tasks_same_bind; [apply audit_same|intros; apply tasks_same_ret].
  - intros x k Hx. destruct x; try discriminate. injection Hx as <-. apply keeping_same, tasks_same_raise.
Qed.

Lemma keeping_claim item now token : keeping (claim_probe item now token).
Proof. apply keeping_same, tasks_same_bind; [by apply tasks_same_update_before|]. intros d. apply tasks_same_ret. Qed.

Lemma perform_health_kept c e f db :
  NoDup (task_ids db) -> call_valid c db -> wp (perform_health c e f) (fun _ db' => kept db db') db.
Proof.
  intros Hn Hv. destruct c as [snapshot answer|snapshot status metadata actor|resource changed_|task alive|item token|fates];
    cbn [perform_health].
  - by apply keeping_check.
  - by apply keeping_apply_manual.
  - by apply keeping_transaction; [apply keeping_grant|].
  - apply wp_bind. eapply wp_mono; [by apply stop_unresponsive_kept|]. by intros [b|x] db' Hk.
  - by apply keeping_bind; [apply keeping_claim|intros; apply keeping_ret|].
  - by apply keeping_bind; [apply keeping_same, tasks_same_find_all|intros rs; apply keeping_reconcile|].
Qed.

(** C21: the health of a device never overrides its user.  Whatever result, manual
    authentication, grant, claim, stop or recovery is processed, and however its
    transaction ends: a task the user has stopped (without a marker of the health
    policy and without a paused run) stays stopped and unmarked, and a task on a
    serial console, which no HTTP authentication concerns, is not written at
    all. *)
Theorem health_keeps_intent c e f db :
  NoDup (task_ids db) -> call_valid c db ->
  Forall2 (fun d d' => d'.["id"] = d.["id"] /\ (is_serial d = true -> d' = d) /\ (user_stopped d -> user_stopped d'))
    (content db Tasks) (content (perform_health c e f db).2 Tasks).
Proof.
  intros Hn Hv. pose proof (perform_health_kept c e f db Hn Hv) as Hw. unfold wp, kept in Hw.
  destruct (perform_health c e f db) as [r db']. eapply Forall2_impl; [exact Hw|]. by intros d d' (? & _ & ? & ?).
Qed.

(** Nothing is left of the old run of a task whose recovery is authorized. *)
Record recoverable (resource_id task_id : string) (task : pydict) (db : database) : Prop := {
  rv_resource : exists r, r ∈ content db Resources /\ r.["id"] = PStr resource_id /\ r.["deletedAt"] = PNone /\ r.["healthStatus"] = ONLINE;
  rv_task : task ∈ content db Tasks /\ task.["id"] = PStr task_id /\ task.["desiredState"] = STOPPED;
  rv_marker : authorized task = true /\ (recovery_of task).["resourceId"] = PStr resource_id;
  rv_owner : task.["nodeId"] = PNone /\ is_serial task = false;
  rv_lock : no_match (fun l => fld l "taskId" (PStr task_id)) (content db EndpointLocks);
  rv_run : truthy task.["runId"] = true ->
    exists run, run ∈ content db Runs /\ run.["id"] = task.["runId"] /\ truthy run.["endedAt"] = true }.

Lemma resume_update_after task now d :
  (resume_update task now d).["resourceHealthRecovery"] = PNone
  /\ (resume_update task now d).["desiredState"] = dict_get_or (recovery_of task) "desiredState" RUNNING.
Proof.
  unfold resume_update. destruct (bool_decide _) eqn:E; [apply bool_decide_eq_true_1 in E|destruct (fld task _ _)];
    cbn [set_all unset_all foldl fst snd]; by dget.
Qed.

(** The outcome of a recovery. *)
Definition recovered (resource_id task_id : string) (now : Z) (db : database) (r : result exn bool) (db' : database) : Prop :=
  match r with
  | Ok true => exists task l d r, recoverable resource_id task_id task db
      /\ content db Tasks = l ++ d :: r /\ content db' Tasks = l ++ resume_update task now d :: r
      /\ d.["id"] = PStr task_id /\ d.["resourceHealthRecovery"] = task.["resourceHealthRecovery"]
  | Ok false => map (fun d => (d.["id"], d.["desiredState"], d.["nodeId"])) (content db' Tasks)
      = map (fun d => (d.["id"], d.["desiredState"], d.["nodeId"])) (content db Tasks)
  | Raise _ => True
  end.

Lemma recovered_same resource_id task_id now db db' : content db' Tasks = content db Tasks ->
  recovered resource_id task_id now db (Ok false) db'.
Proof. cbn. by intros ->. Qed.

Lemma recover_wp resource_id task_id now db :
  wp (consume_recovery_commit resource_id task_id now) (recovered resource_id task_id now db) db.
Proof.
  unfold consume_recovery_commit. apply wp_bind, wp_update; cbn [on_ok]; [|intros _; by apply wp_ret, recovered_same].
  intros res db1 (Hq & (l & r & E & E') & Ho). freflect.
  apply wp_bind, wp_find_one; cbn [on_ok]; [|intros _; apply wp_ret, recovered_same; by apply Ho].
  intros task Hin Hqt. freflect. rewrite Ho in Hin by done.
  destruct (is_serial task || negb (fld task "nodeId" PNone)) eqn:Es; [apply wp_ret, recovered_same; by apply Ho|].
  apply orb_false_iff in Es as [Es En]. freflect.
  apply wp_bind, wp_find_one; cbn [on_ok]; [intros lock _ _; apply wp_ret, recovered_same; by apply Ho|].
  intros Hlock. rewrite Ho in Hlock by done.
  assert (Hbase : (truthy task.["runId"] = true -> exists run, run ∈ content db Runs /\ run.["id"] = task.["runId"] /\ truthy run.["endedAt"] = true) ->
    recoverable resource_id task_id task db).
  { intros Hrun. split; try done. exists res. rewrite E. split_and!; try done. apply elem_of_middle. }
  assert (Hresume : recoverable resource_id task_id task db ->
    wp (update_one Tasks (fun d => fld d "id" (PStr task_id) && fld d "desiredState" STOPPED
          && fld d "resourceHealthRecovery" task.["resourceHealthRecovery"]) (resume_update task now))
       (recovered resource_id task_id now db) db1).
  { intros Hrec. apply wp_update_one; [|intros _; apply recovered_same; by apply Ho].
    intros d db2 (Hqd & (l2 & r2 & E2 & E2') & Ho2). freflect. exists task, l2, d, r2. rewrite Ho in E2 by done. done. }
  apply wp_bind. destruct (truthy task.["runId"]) eqn:Er; cbn [andb].
  2:{ apply wp_ret. cbn [on_ok]. apply Hresume, Hbase. congruence. }
  assert (Hblock : wp (let! _ := update_one Tasks
      (fun d => fld d "id" (PStr task_id) && fld d "resourceHealthRecovery" task.["resourceHealthRecovery"])
      (set_all [("status", PStr "BLOCKED"); ("error", PStr "系统停止后运行记录未收尾")]) in st_ret false)
      (recovered resource_id task_id now db) db1).
  { apply wp_bind, wp_update_one; cbn [on_ok]; [|intros _; apply wp_ret, recovered_same; by apply Ho].
    intros d db2 (Hqd & (l2 & r2 & E2 & E2') & Ho2). apply wp_ret. cbn. rewrite Ho in E2 by done. rewrite E2, E2', !map_app.
    cbn [map set_all foldl fst snd]. by dget. }
  apply wp_find_one; cbn [on_ok run_ended].
  - intros run Hrun Hqr. rewrite Ho in Hrun by done. freflect. destruct (truthy run.["endedAt"]) eqn:Ee; cbn [negb]; [|done].
    apply Hresume, Hbase. intros _. by exists run.
  - intros _. exact Hblock.
Qed.

(** C22: an authorized recovery waits until nothing is left of the old run.  It
    gives the task back its wish only if the resource is online, the task has no
    node, no run lock and, when it has a run, the run has ended; it then removes
    the marker, so that it happens once: the same recovery cannot succeed again.
    When it does not happen, no task changes its wish or its owner. *)
Theorem recovery_after_clean_end resource_id task_id now f db b db' :
  NoDup (task_ids db) -> _consume_authorized_recovery resource_id task_id now f db = (Ok b, db') ->
  f = Committed /\
  if b
  then exists task task', recoverable resource_id task_id task db /\ task' ∈ content db' Tasks /\ task'.["id"] = PStr task_id
         /\ task'.["desiredState"] = dict_get_or (recovery_of task) "desiredState" RUNNING
         /\ task'.["resourceHealthRecovery"] = PNone
         /\ forall now' f' db2, _consume_authorized_recovery resource_id task_id now' f' db' <> (Ok true, db2)
  else map (fun d => (d.["id"], d.["desiredState"], d.["nodeId"])) (content db' Tasks)
       = map (fun d => (d.["id"], d.["desiredState"], d.["nodeId"])) (content db Tasks).
Proof.
  intros Hn E. pose proof (recover_wp resource_id task_id now db) as Hw.
  unfold _consume_authorized_recovery, transaction, wp in *.
  destruct (consume_recovery_commit resource_id task_id now db) as [[b'|x] db1]; [destruct f|]; try done.
  injection E as -> ->. split; [done|]. destruct b; [|exact Hw].
  destruct Hw as (task & l & d & r & Hrec & E & E' & Hid & Hm). destruct (resume_update_after task now d) as [F1 F2].
  destruct (resume_update_fields task now d) as [F3 _].
  exists task, (resume_update task now d). split_and!; [done|rewrite E'; apply elem_of_middle|congruence|done|done|].
  intros now' f' db2 E2. pose proof (recover_wp resource_id task_id now' db') as Hw.
  unfold transaction, wp in *. destruct (consume_recovery_commit resource_id task_id now' db') as [[b'|x] db3]; [destruct f'|]; try done.
  injection E2 as -> ->. destruct Hw as (task2 & l2 & d2 & r2 & [_ (Hin2 & Hid2 & _) [Ha _] _ _ _] & E2 & _ & Hid2' & Hm2).
  assert (Hn' : NoDup (task_ids db')).
  { unfold task_ids in *. rewrite E', map_app. rewrite E, map_app in Hn. cbn in *. by rewrite F3. }
  assert (task2 = resume_update task now d) as ->.
  { eapply (NoDup_map_eq (fun d => d.["id"])); [exact Hn'|done|rewrite E'; apply elem_of_middle|congruence]. }
  destruct (authorized_marked _ Ha) as (k & m & Em). congruence.
Qed.
End health.

(** ** Witnesses: a device goes offline and comes back *)

#[local] Existing Instance list_mongo.
#[local] Existing Instance list_mongo_laws.
#[local] Existing Instance fixed_digest.
#[local] Existing Instance no_text.

Definition device : pydict :=
  [("id", PStr "dev"); ("kind", PStr "HIKVISION_NETWORK"); ("ip", PStr "10.0.0.1"); ("model", PStr "DS-1");
   ("subSerialNumber", PStr "S1"); ("healthStatus", ONLINE); ("authenticatedAt", PTime (Aware 0))].

Definition task_of (id protocol desired status : string) : pydict :=
  [("id", PStr id); ("resourceId", PStr "dev"); ("protocol", PStr protocol); ("desiredState", PStr desired); ("status", PStr status)].

Definition health_db : database := fun c =>
  match c with
  | Tasks => [task_of "run" "SSH" "RUNNING" "STOPPED"; task_of "off" "SSH" "STOPPED" "STOPPED";
              task_of "con" "TELNET_SERIAL" "RUNNING" "COLLECTING"]
  | Resources => [device]
  | _ => []
  end.

Definition env_at (now : Z) (id : string) : env := Env (now * US_PER_SECOND) id id 90 (fun _ => "op") [].

Definition offline_db : database := (perform_health (Checked device DeviceOfflineError) (env_at 10 "r1") Committed health_db).2.

Definition wishes (db : database) : list pyval := map (fun d => d.["desiredState"]) (content db Tasks).

Lemma health_keeps_intent_witness :
  wishes offline_db = [STOPPED; STOPPED; RUNNING]
  /\ Forall2 (fun d d' => d'.["id"] = d.["id"] /\ (is_serial d = true -> d' = d) /\ (user_stopped d -> user_stopped d'))
       (content health_db Tasks) (content offline_db Tasks).
Proof.
  split; [by vm_compute|]. apply (health_keeps_intent (Checked device DeviceOfflineError) (env_at 10 "r1") Committed health_db).
  - vm_compute. repeat constructor; by intros Hx; repeat (apply elem_of_cons in Hx as [Hx|Hx]; [discriminate|]); apply elem_of_nil in Hx.
  - exact I.
Defined.

(** The device answers again; its first task is recovered, once. *)
Definition online_db : database :=
  (perform_health (Checked (default [] (head (content offline_db Resources))) (Authenticated [])) (env_at 70 "r2") Committed offline_db).2.

Lemma recovery_after_clean_end_witness :
  exists db' task task', _consume_authorized_recovery "dev" "run" (71 * US_PER_SECOND) Committed online_db = (Ok true, db')
    /\ wishes db' = [RUNNING; STOPPED; RUNNING] /\ recoverable "dev" "run" task online_db /\ task' ∈ content db' Tasks
    /\ forall now' f' db2, _consume_authorized_recovery "dev" "run" now' f' db' <> (Ok true, db2).
Proof.
  destruct (_consume_authorized_recovery "dev" "run" (71 * US_PER_SECOND) Committed online_db) as [r db'] eqn:E.
  pose proof (f_equal fst E) as Hr. vm_compute in Hr. subst r.
  assert (Hn : NoDup (task_ids online_db)).
  { vm_compute. repeat constructor; by intros Hx; repeat (apply elem_of_cons in Hx as [Hx|Hx]; [discriminate|]); apply elem_of_nil in Hx. }
  destruct (recovery_after_clean_end "dev" "run" (71 * US_PER_SECOND) Committed online_db true db' Hn E)
    as (_ & task & task' & Hrec & Hin & Hid & Hd & _ & Honce).
  exists db', task, task'. split; [reflexivity|].
  assert (Hw : wishes db' = wishes (_consume_authorized_recovery "dev" "run" (71 * US_PER_SECOND) Committed online_db).2) by by rewrite E.
  split; [rewrite Hw; vm_compute; reflexivity|]. exact (conj Hrec (conj Hin Honce)).
Defined.
