(* ===== verification/Scheduler.v ===== *)
(** * The scheduling cycle ([tasks/scheduler.py], [node/failover.py])

    One cycle runs under the scheduler's lease: it consumes confirmed failovers,
    retries deletions and recoveries, asks unreachable nodes to close their
    sessions, blocks what they held, settles stops and assigns the tasks that
    wait.  Nodes and users act between its operations: [others] is what they do
    before a task is looked at. *)

From S2P Require Import Prelude PyTime PyValue Ordering WritePressure NodeHealth Mongo Ownership TaskRules Claim SshSlots.
From S2P Require Import Recovery Lifecycle DeviceIdentity ResourceHealth.
Open Scope camera_scope.

Definition FENCE_MAX_CANDIDATES : nat := 32.
Definition FENCE_RETRY_SECONDS : Z := 15.
Definition FAILOVER_CONSUME_MAX : nat := 100.

(** ** Routing of a node ([node/resource_routing.py]) *)

(** [routing_config]. *)
Definition routing_config (config : pydict) : pydict :=
  [("isGeneralNode", dict_get_or config "isGeneralNode" (PBool true));
   ("resourceNetworks", dict_get_or config "resourceNetworks" (PList []))].

(** `{item["id"]: item for item in items}`. *)
Definition by_id (items : list pydict) : gmap string pydict := foldl (fun m d => <[text d.["id"] := d]> m) ∅ items.

(** What the scheduler is given: its lease, the settings, the clock at its start
    and at each task, the server's clock, new run identifiers, the fates of its
    transactions and the answers of the nodes it asks to close. *)
Record cycle := Cycle {
  cy_lease : option lease; cy_cluster_capacity : Z; cy_node_capacity : Z; cy_client : bool;
  cy_now : Z; cy_at : string -> Z; cy_server : Z; cy_run : string -> string; cy_fate : string -> fate;
  cy_answer : string -> option pyval; cy_timeout : bool }.

Section scheduler.
Context `{FloatOfStr} `{FromIso} `{IpLib} `{AddressText} `{Digest} `{Mongo}.

(** ** Asking unreachable nodes to close ([request_reachable_worker_fencing]) *)

Definition retryable (key : string) (now : Z) (d : pydict) : bool := absent d key || time_le d key now.

Definition owned_run (task : pydict) : bool :=
  negb (fld task "runId" PNone) && negb (fld task "generation" PNone) && negb (fld task "sessionId" PNone).

Fixpoint fence_candidates (nodes : list pydict) (configs : gmap string pydict) (now : Z) (found : list pydict) : dbm (list pydict) :=
  match nodes with
  | [] => st_ret found
  | node :: nodes =>
      if (FENCE_MAX_CANDIDATES <=? length found)%nat then st_ret found
      else match configs !! text node.["id"] with
           | None => fence_candidates nodes configs now found
           | Some config =>
               if negb (bool_decide (node.["url"] = config.["url"])) then fence_candidates nodes configs now found
               else
                 let! tasks := find_all Tasks
                   (fun d => fld d "nodeId" node.["id"] && fld d "desiredState" RUNNING && fld d "deletedAt" PNone
                             && retryable "failoverFenceRetryAt" now d) in
                 fence_candidates nodes configs now
                   (take FENCE_MAX_CANDIDATES (found ++ filter (fun d => owned_run d = true) (take FENCE_MAX_CANDIDATES tasks)))
           end
  end.

(** The retry time is reserved before any request is sent. *)
Fixpoint reserve_fences (candidates : list pydict) (now : Z) : dbm (list pydict) :=
  match candidates with
  | [] => st_ret []
  | task :: candidates =>
      let! matched := update_one Tasks (fun d => owner_filter task d && retryable "failoverFenceRetryAt" now d)
        (set_all [("failoverFenceRetryAt", PTime (Aware (now + FENCE_RETRY_SECONDS * US_PER_SECOND)))]) in
      let! reserved := reserve_fences candidates now in
      st_ret (if matched then task :: reserved else reserved)
  end.

(** The answers, in the order of the candidates. *)
Fixpoint fence_answers (reserved : list pydict) (answer : string -> option pyval) : dbm Z :=
  match reserved with
  | [] => st_ret 0
  | task :: reserved =>
      let exact := match answer (text task.["id"]) with Some payload => is_exact_fence_response task payload | None => false end in
      let! _ := (if exact then update_one Tasks (owner_filter task) (unset_all ["failoverFenceRetryAt"]) else st_ret false) in
      let! n := fence_answers reserved answer in
      st_ret ((if exact then 1 else 0) + n)
  end.

Definition request_reachable_worker_fencing (c : cycle) (stale : list pydict) : dbm Z :=
  if negb (cy_client c) then st_ret 0
  else
    let! configs := find_all NodeConfigs (fun d => fld d "deletedAt" PNone) in
    let! candidates := fence_candidates stale (by_id configs) (cy_now c) [] in
    let! reserved := reserve_fences candidates (cy_now c) in
    let! n := fence_answers reserved (cy_answer c) in
    st_ret (if cy_timeout c then 0 else n).

(** ** Consuming failovers ([consume_confirmed_failovers]) *)

Definition consumable (now : Z) (d : pydict) : bool :=
  fld d "status" BLOCKED && fld d "desiredState" RUNNING && fld d "deletedAt" PNone
  && fld (receipt_of d) "reason" AUTO_FAILOVER_FENCED && retryable "failoverConsumeRetryAt" now d.

(** `sort([("updatedAt", 1), ("id", 1)])`: a missing date comes first. *)
Definition consume_key (d : pydict) : Z * Z * string :=
  (match d.["updatedAt"] with PTime u => (1, utc_instant u) | _ => (0, 0) end, text d.["id"]).

Definition consume_order : list pydict -> list pydict := sort_by consume_key (pair_leb (pair_leb Z.leb Z.leb) str_leb).

(** [defer_candidate]. *)
Definition defer_candidate (candidate : pydict) (now : Z) : dbm Z :=
  let! _ := update_one Tasks (owner_filter candidate)
    (set_all [("failoverConsumeRetryAt", PTime (Aware (now + FENCE_RETRY_SECONDS * US_PER_SECOND)))]) in
  st_ret 0.

Definition consume_one (c : cycle) (candidate : pydict) : dbm Z :=
  st_catch
    (let! consumed := transaction (cy_fate c (text candidate.["id"])) (consume_commit candidate.["id"] (cy_now c) (cy_server c)) in
     if consumed then st_ret 1 else defer_candidate candidate (cy_now c))
    (fun e => match e with
              | Http _ _ | PyMongoError | DuplicateKeyError => Some (defer_candidate candidate (cy_now c))
              | _ => None
              end).

Fixpoint consume_all (c : cycle) (candidates : list pydict) : dbm Z :=
  match candidates with
  | [] => st_ret 0
  | d :: candidates => let! n := consume_one c d in let! m := consume_all c candidates in st_ret (n + m)
  end.

Definition consume_confirmed_failovers (c : cycle) : dbm Z :=
  let! found := find_all Tasks (consumable (cy_now c)) in
  consume_all c (take FAILOVER_CONSUME_MAX (consume_order found)).

(** ** Unreachable nodes and stops *)

Fixpoint block_tasks (stale : list pydict) : dbm unit :=
  match stale with
  | [] => st_ret tt
  | node :: stale =>
      let! _ := update_many Tasks
        (fun d => fld d "nodeId" node.["id"] && negb (fld_in d "status" [STOPPED; BLOCKED]))
        (set_all [("status", BLOCKED); ("error", PStr "节点失联，必须确认旧实例停止或隔离后才能接管")]) in
      block_tasks stale
  end.

(** The aggregation: pending stops joined with their tasks. *)
Definition settled_stops (operations tasks : list pydict) : list pyval :=
  map (fun op => op.["id"]) (take 500 (flat_map
    (fun op => map (fun _ => op) (filter (fun t => fld t "id" op.["taskId"] && fld t "desiredState" STOPPED && fld t "nodeId" PNone
                                                && fld t "status" STOPPED = true) tasks)) operations)).

(** [reconcile_stopped_tasks]. *)
Definition reconcile_stopped_tasks (now : Z) : dbm unit :=
  let! _ := stop_unheld in
  let! operations := find_all Operations (fun d => fld d "desiredState" STOPPED && fld d "status" PENDING) in
  let! tasks := find_all Tasks (fun _ => true) in
  match settled_stops operations tasks with
  | [] => st_ret tt
  | identifiers =>
      let! _ := update_many Operations
        (fun d => fld_in d "id" identifiers && fld d "desiredState" STOPPED && fld d "status" PENDING)
        (set_all [("status", PStr "SUCCEEDED"); ("completedAt", PTime (Aware now))]) in
      st_ret tt
  end.

(** ** Assigning *)

(** The occupancy by node. *)
Definition occupy (m : gmap string Z) (node : string) : gmap string Z := <[node := default 0 (m !! node) + 1]> m.
Definition count_owners (assigned : list pydict) : gmap string Z := foldl (fun m d => occupy m (text d.["nodeId"])) ∅ assigned.
Definition total (m : gmap string Z) : Z := map_fold (fun _ n acc => n + acc) 0 m.

Definition cluster_capacity (c : cycle) (platform : option pydict) : Z :=
  let configured := match platform with Some p => p.["clusterCapacity"] | None => PNone end in
  if truthy configured then default 0 (as_int configured) else cy_cluster_capacity c.

(** The nodes a task may be given to, with their configuration. *)
Definition live_node (now : Z) (d : pydict) : bool :=
  time_ge d "heartbeat" (now - 15 * US_PER_SECOND) && num_lt d "diskPercent" 90 && fld d "accepting" (PBool true)
  && fld d "deletedAt" PNone.

Definition configured_node (c : cycle) (configs : gmap string pydict) (node : pydict) : option pydict :=
  let config := configs !! text node.["id"] in
  let known := default [] config in
  if truthy known.["deletedAt"] || negb (truthy (dict_get_or known "accepting" (PBool true))) then None
  else Some (set_all [("capacity", dict_get_or known "capacity" (dict_get_or node "capacity" (PInt (cy_node_capacity c))));
                      ("inputRateLimitMiB", PInt (input_rate_limit (default node config)));
                      ("writeLatencyLimitMs", PInt (write_latency_limit (Some (default node config))))]
               (set_all (routing_config known) node)).

Definition routing_task (task : pydict) (resource : option pydict) : pydict :=
  set_all [("resourceIp", match resource with Some r => r.["ip"] | None => task.["ip"] end);
           ("requiresNfs", PBool (requires_coredump_nfs task resource))] task.

(** A task released before the platform recorded when gets its release time. *)
Definition confirm_release (c : cycle) (task : pydict) (excluded : pyval) : dbm pydict :=
  if negb (truthy task.["failoverReleasedAt"]) && has_retained_failover_receipt task
  then
    let receipt := receipt_of task in
    let! updated := find_one_and_update Tasks
      (fun d => fld d "id" task.["id"] && fld d "nodeId" PNone && fld d "desiredState" RUNNING
                && fld d "failoverExcludedNodeId" excluded && fld d "failoverReleasedAt" PNone
                && fld d "runId" task.["runId"] && fld d "generation" task.["generation"] && fld d "sessionId" task.["sessionId"]
                && fld (receipt_of d) "reason" AUTO_FAILOVER_FENCED && fld (receipt_of d) "nodeId" excluded
                && fld (receipt_of d) "instanceId" receipt.["instanceId"] && fld (receipt_of d) "closedAt" receipt.["closedAt"])
      (set_all [("failoverReleasedAt", PTime (Aware (cy_server c)))]) in
    st_ret (default task updated)
  else st_ret task.

Definition excluded_task (task : pydict) (excluded : pyval) (d : pydict) : bool :=
  fld d "id" task.["id"] && fld d "nodeId" PNone && fld d "desiredState" RUNNING && fld d "failoverExcludedNodeId" excluded.

(** The observation window starts again after a gap. *)
Definition window_broken (task : pydict) (now : Z) : bool :=
  negb (truthy task.["failoverOriginalHealthySince"]) || negb (truthy task.["failoverOriginalHealthyObservedAt"])
  || match task.["failoverOriginalHealthyObservedAt"] with
     | PTime u => utc_instant u <? now - FAILOVER_RETURN_OBSERVATION_GAP_SECONDS * US_PER_SECOND
     | _ => false
     end.

(** What is observed of the excluded node. *)
Definition observe_origin (task : pydict) (excluded : pyval) (healthy : bool) (now : Z) : dbm pydict :=
  let seen := PTime (Aware now) in
  if healthy
  then
    if window_broken task now
    then
      let both := [("failoverOriginalHealthySince", seen); ("failoverOriginalHealthyObservedAt", seen)] in
      let! matched := update_one Tasks (excluded_task task excluded) (set_all both) in
      st_ret (if matched then set_all both task else task)
    else
      let last := [("failoverOriginalHealthyObservedAt", seen)] in
      let! _ := update_one Tasks (excluded_task task excluded) (set_all last) in
      st_ret (set_all last task)
  else if truthy task.["failoverOriginalHealthySince"] || truthy task.["failoverOriginalHealthyObservedAt"]
  then
    let! _ := update_one Tasks (excluded_task task excluded)
      (unset_all ["failoverOriginalHealthySince"; "failoverOriginalHealthyObservedAt"]) in
    st_ret (set_all [("failoverOriginalHealthySince", PNone); ("failoverOriginalHealthyObservedAt", PNone)] task)
  else st_ret task.

(** The candidates of a task, and the task as the cycle sees it now. *)
Definition candidates_for (c : cycle) (task : pydict) (nodes : list pydict) (occupancy : string -> Z) (routing : pydict) (now : Z)
  : dbm (pydict * list (Q * string)) :=
  let excluded := task.["failoverExcludedNodeId"] in
  if truthy excluded
  then
    let! task := confirm_release c task excluded in
    let origin := List.find (fun node => fld node "id" excluded) nodes in
    let origin_candidates := match origin with Some node => rank_nodes [node] occupancy (Some routing) now | None => [] end in
    let some_origin := match origin_candidates with [] => false | _ => true end in
    let! task := observe_origin task excluded (some_origin && failover_origin_healthy task origin now) now in
    let candidates := rank_nodes (filter (fun node => fld node "id" excluded = false) nodes) occupancy (Some routing) now in
    st_ret (task, match candidates with
                  | [] => if some_origin && failover_origin_return_ready task origin now then origin_candidates else []
                  | _ => candidates
                  end)
  else st_ret (task, rank_nodes nodes occupancy (Some routing) now).

(** No candidate: the task waits, if its user still wants it to. *)
Definition keep_pending (task : pydict) : dbm unit :=
  if fld task "status" PAUSED then st_ret tt
  else
    let! _ := update_one Tasks
      (fun d => fld d "id" task.["id"] && fld d "nodeId" PNone && fld d "desiredState" RUNNING && fld d "status" task.["status"]
                && fld d "runId" task.["runId"] && fld d "generation" task.["generation"]
                && negb (fld d "resourceDeleted" (PBool true)))
      (set_all [("status", PENDING)]) in
    st_ret tt.

Definition claim_request_of (c : cycle) (task : pydict) (node : string) (occupied now : Z) : request :=
  Request task node (cy_lease c) occupied (run_of task (cy_run c (text task.["id"]))) now now now.

(** One task of the cycle; the result tells the node that got it. *)
Definition assign_one (c : cycle) (configs : gmap string pydict) (occupancy : gmap string Z) (task : pydict) : dbm (option string) :=
  let now := cy_at c (text task.["id"]) in
  let count node := default 0 (occupancy !! node) in
  let! live := find_all Nodes (live_node now) in
  let nodes := omap (configured_node c configs) live in
  let! resource := (if truthy task.["resourceId"] then find_one Resources (fun d => fld d "id" task.["resourceId"]) else st_ret None) in
  let! found := candidates_for c task nodes count (routing_task task resource) now in
  match found with
  | (task, []) => let! _ := keep_pending task in st_ret None
  | (task, (_, node) :: _) =>
      let! claimed := claim_task (claim_request_of c task node (count node) now) (cy_fate c (text task.["id"])) in
      st_ret match claimed with Some _ => Some node | None => None end
  end.

(** The tasks that wait for a node. *)
Definition waiting_for_node (d : pydict) : bool :=
  fld d "desiredState" RUNNING && fld d "nodeId" PNone && fld d "deletedAt" PNone && negb (fld d "resourceDeleted" (PBool true))
  && fld_in d "status" [STOPPED; PENDING; PAUSED].

Definition has_node (d : pydict) : bool := negb (fld d "nodeId" PNone).

Section interleaving.
(** What nodes and users do before a task is looked at. *)
Variable others : string -> database -> database.

Definition interleave (id : string) : dbm unit := fun db => (Ok tt, others id db).

Fixpoint assign_each (c : cycle) (configs : gmap string pydict) (capacity : Z) (tasks : list pydict) (occupancy : gmap string Z)
    (active : Z) : dbm unit :=
  match tasks with
  | [] => st_ret tt
  | task :: tasks =>
      let! _ := interleave (text task.["id"]) in
      let! claimed := assign_one c configs occupancy task in
      let '(occupancy, active) := match claimed with
                                  | Some node => (occupy occupancy node, active + 1)
                                  | None => (occupancy, active)
                                  end in
      (* the source skips this test after a task without candidates, for which it cannot hold *)
      if capacity <=? active then st_ret tt else assign_each c configs capacity tasks occupancy active
  end.

(** The assignment of [schedule_once]. *)
Definition assign_tasks (c : cycle) : dbm unit :=
  let! assigned := find_all Tasks has_node in
  let occupancy := count_owners assigned in
  let active := total occupancy in
  let! platform := find_one PlatformSettings (fun d => fld d "id" (PStr "platform")) in
  let capacity := cluster_capacity c platform in
  if capacity <=? active then st_ret tt
  else
    let! configs := find_all NodeConfigs (fun _ => true) in
    let! tasks := find_all Tasks waiting_for_node in
    assign_each c (by_id configs) capacity (take 500 tasks) occupancy active.

(** [schedule_once]. *)
Definition schedule_once (c : cycle) : dbm unit :=
  let! _ := consume_confirmed_failovers c in
  let! _ := reconcile_deleted_resources 100 (cy_now c) in
  let! _ := reconcile_deleted_tasks 500 (cy_now c) in
  let! _ := reconcile_authorized_recoveries (cy_now c) (cy_fate c) in
  let! stale := find_all Nodes (fun d => time_lt d "heartbeat" (cy_now c - 30 * US_PER_SECOND)) in
  let! _ := request_reachable_worker_fencing c stale in
  let! _ := consume_confirmed_failovers c in
  let! _ := block_tasks stale in
  let! _ := reconcile_stopped_tasks (cy_now c) in
  assign_tasks c.

(** ** Properties *)

Context `{!MongoLaws}.

(** The number of tasks that have a node. *)
Definition assigned (db : database) : Z := zlen (filter (fun d => has_node d = true) (content db Tasks)).

Lemma total_occupy m node : total (occupy m node) = total m + 1.
Proof.
  unfold total, occupy. assert (Hins : forall (m : gmap string Z) k v, m !! k = None ->
    map_fold (fun _ n acc => n + acc) 0 (<[k := v]> m) = v + map_fold (fun _ n acc => n + acc) 0 m).
  { intros m' k v Hk. by rewrite map_fold_insert_L by (done || intros; lia). }
  destruct (m !! node) as [n|] eqn:E; cbn [default from_option id].
  - rewrite <- (insert_delete_id m node n E) at 2. rewrite <- insert_delete_eq, !Hins by apply lookup_delete_eq. lia.
  - rewrite Hins by done. lia.
Qed.

Lemma total_count l : total (count_owners l) = zlen l.
Proof.
  unfold count_owners. assert (Hgen : forall l m, total (foldl (fun m d => occupy m (text d.["nodeId"])) m l) = total m + zlen l).
  { clear l. induction l as [|d l IH]; intros m; cbn [foldl]; [rewrite zlen_nil; lia|].
    rewrite IH, total_occupy, zlen_cons. lia. }
  rewrite Hgen. done.
Qed.

(** ** Operations that give no task a node *)

Definition not_more {A} (m : dbm A) : Prop := forall db, wp m (fun _ db' => assigned db' <= assigned db) db.

Lemma not_more_bind {A B} (m : dbm A) (k : A -> dbm B) : not_more m -> (forall a, not_more (k a)) -> not_more (st_bind m k).
Proof.
  intros Hm Hk db. apply wp_bind. eapply wp_mono; [apply Hm|]. intros [a|e] db1 E; cbn; [|done].
  eapply wp_mono; [apply Hk|]. intros r db2 E2. cbn in *. lia.
Qed.

Lemma not_more_same {A} (m : dbm A) : tasks_same m -> not_more m.
Proof. intros Hm db. eapply wp_mono; [apply Hm|]. intros r db' E. unfold assigned. by rewrite E. Qed.

Lemma assigned_write l d d' r db db' :
  content db Tasks = l ++ d :: r -> content db' Tasks = l ++ d' :: r ->
  assigned db' = assigned db - b2z (has_node d) + b2z (has_node d').
Proof.
  intros E E'. unfold assigned. rewrite E, E', !filter_app, !filter_cons, !zlen_app.
  destruct (has_node d), (has_node d'); repeat case_decide; try congruence; rewrite ?zlen_cons; unfold b2z; lia.
Qed.

Lemma not_more_update q f : (forall d, q d = true -> (f d).["nodeId"] = d.["nodeId"]) -> not_more (find_one_and_update Tasks q f).
Proof.
  intros Hf db. apply wp_update; [|done]. intros d db' (Hq & (l & r & E & E') & _).
  rewrite (assigned_write _ _ _ _ _ _ E E'). unfold has_node, fld. rewrite (Hf d Hq). lia.
Qed.

Lemma not_more_update_one q f : (forall d, q d = true -> (f d).["nodeId"] = d.["nodeId"]) -> not_more (update_one Tasks q f).
Proof. intros Hf. apply not_more_bind; [by apply not_more_update|]. intros d. apply not_more_same, tasks_same_ret. Qed.

Lemma not_more_ret {A} (a : A) : not_more (st_ret a).
Proof. apply not_more_same, tasks_same_ret. Qed.

Lemma candidates_not_more c task nodes occupancy routing now : not_more (candidates_for c task nodes occupancy routing now).
Proof.
  unfold candidates_for. destruct (truthy _); [|apply not_more_ret]. apply not_more_bind.
  - unfold confirm_release. destruct (_ && _); [|apply not_more_ret].
    apply not_more_bind; [|intros; apply not_more_ret]. apply not_more_update. intros d _. cbn [set_all foldl fst snd]. by dget.
  - intros task'. apply not_more_bind; [|intros; apply not_more_ret]. unfold observe_origin.
    destruct (_ && _); [destruct (window_broken _ _)|destruct (_ || _)]; [..|apply not_more_ret];
      (apply not_more_bind; [|intros; apply not_more_ret]); apply not_more_update_one; intros d _;
      cbn [set_all unset_all foldl fst snd]; by dget.
Qed.

Lemma keep_pending_not_more task : not_more (keep_pending task).
Proof.
  unfold keep_pending. destruct (fld _ _ _); [apply not_more_ret|]. apply not_more_bind; [|intros; apply not_more_ret].
  apply not_more_update_one. intros d _. cbn [set_all foldl fst snd]. by dget.
Qed.

(** ** Claims *)

Lemma claimed_one_more rq current db0 db' claimed : bound rq current db0 db' claimed -> assigned db' = assigned db0 + 1.
Proof.
  intros [_ (l & d & r & E & E' & Hq & ->) _ _]. rewrite (assigned_write _ _ _ _ _ _ E E').
  unfold has_node, fld. destruct (claim_update_fields rq current d) as (-> & _).
  assert (Hn : d.["nodeId"] = PNone) by (unfold final_query, task_query in Hq; freflect; done).
  rewrite Hn, (bool_decide_eq_true_2 (PNone = PNone)), bool_decide_eq_false_2 by done. cbn. lia.
Qed.

Lemma unbound_not_more rq db db' : unbound rq db db' -> assigned db' <= assigned db.
Proof.
  intros (_ & _ & _ & [E|(l & d & r & b & E & E' & _ & _ & Hn & _)]).
  - unfold assigned. rewrite E. lia.
  - rewrite (assigned_write _ _ _ _ _ _ E E'). unfold has_node at 2, fld.
    rewrite Hn, (bool_decide_eq_true_2 (PNone = PNone)) by done. destruct (has_node d); cbn; lia.
Qed.

Lemma assigned_frame db db0 : frame [Leaders; Nodes; NodeConfigs] db db0 -> assigned db0 = assigned db.
Proof. intros Hf. unfold assigned. by rewrite Hf by set_solver. Qed.

Lemma claim_counts rq f db :
  wp (claim_task rq f) (fun r db' => match r with
    | Ok (Some _) => assigned db' = assigned db + 1
    | Ok None => assigned db' <= assigned db
    | Raise _ => assigned db' <= assigned db + 1
    end) db.
Proof.
  unfold claim_task. apply wp_catch, wp_transaction. eapply wp_mono; [apply claim_commit_wp|].
  intros [[x|]|e] db' Hp; cbn in Hp.
  - destruct Hp as (current & db0 & _ & Hf & Hb). pose proof (claimed_one_more _ _ _ _ _ Hb) as Hc.
    rewrite (assigned_frame _ _ Hf) in Hc. destruct f as [|[]]; cbn; [done|lia|lia].
  - apply unbound_not_more in Hp. destruct f as [|[]]; cbn; [done|lia|lia].
  - destruct e; cbn; lia.
Qed.

Lemma assign_one_counts c configs occupancy task db :
  wp (assign_one c configs occupancy task) (fun r db' => match r with
    | Ok (Some _) => assigned db' <= assigned db + 1
    | Ok None => assigned db' <= assigned db
    | Raise _ => assigned db' <= assigned db + 1
    end) db.
Proof.
  unfold assign_one. apply wp_bind, wp_find_all. intros live _. cbn [on_ok]. apply wp_bind.
  assert (Hres : tasks_same (if truthy task.["resourceId"] then find_one Resources (fun d => fld d "id" task.["resourceId"]) else st_ret None)).
  { destruct (truthy _); [apply tasks_same_find_one|apply tasks_same_ret]. }
  eapply wp_mono; [apply Hres|]. intros [resource|e] db1 E1; cbn [on_ok].
  2:{ unfold assigned. rewrite E1. lia. }
  assert (Ea : assigned db1 = assigned db) by (unfold assigned; by rewrite E1).
  apply wp_bind. eapply wp_mono; [apply candidates_not_more|]. intros [[task' candidates]|e] db2 E2; cbn [on_ok]; [|lia].
  destruct candidates as [|[q node] candidates].
  - apply wp_bind. eapply wp_mono; [apply keep_pending_not_more|]. intros [u|e] db3 E3; cbn [on_ok]; [apply wp_ret|]; lia.
  - apply wp_bind. eapply wp_mono; [apply claim_counts|]. intros [[x|]|e] db3 E3; cbn [on_ok]; [apply wp_ret|apply wp_ret|]; lia.
Qed.

(** ** The cycle *)

Lemma assign_each_bounded c configs capacity tasks : (forall id db, assigned (others id db) <= assigned db) ->
  forall occupancy active db, assigned db <= active -> active < capacity ->
  wp (assign_each c configs capacity tasks occupancy active) (fun _ db' => assigned db' <= capacity) db.
Proof.
  intros Hothers. induction tasks as [|task tasks IH]; intros occupancy active db Ha Hc; cbn [assign_each]; [apply wp_ret; lia|].
  apply wp_bind. unfold interleave, wp at 1. cbn [on_ok]. specialize (Hothers (text task.["id"]) db).
  apply wp_bind. eapply wp_mono; [apply assign_one_counts|]. intros [[node|]|e] db1 E1; cbn [on_ok]; [| |lia].
  - destruct (capacity <=? active + 1) eqn:L; [apply wp_ret; lia|]. apply IH; lia.
  - destruct (capacity <=? active) eqn:L; [apply wp_ret; lia|]. apply IH; lia.
Qed.

(** C23: the scheduler never exceeds the capacity of the cluster.  Whatever nodes
    and users do between its operations, as long as they give no task a node
    (only the scheduler does), and however the cycle ends, by finishing, losing
    its lease or an uncertain commit: the tasks that have a node are at most as
    many as before the cycle or as the capacity it read. *)
Theorem cluster_capacity_respected c db :
  (forall id db, assigned (others id db) <= assigned db) ->
  exists platform, find_one PlatformSettings (fun d => fld d "id" (PStr "platform")) db = (Ok platform, db)
    /\ assigned (assign_tasks c db).2 <= Z.max (assigned db) (cluster_capacity c platform).
Proof.
  intros Hothers. unfold find_one at 1. eexists. split; [reflexivity|]. set (platform := coll_find_one _ _).
  assert (Hw : wp (assign_tasks c) (fun _ db' => assigned db' <= Z.max (assigned db) (cluster_capacity c platform)) db).
  { unfold assign_tasks. apply wp_bind, wp_find_all. intros l Hl. cbn [on_ok]. rewrite total_count.
    assert (El : zlen l = assigned db) by (unfold assigned, zlen; by rewrite Hl).
    apply wp_bind. unfold find_one, wp at 1. cbn [on_ok]. fold platform. rewrite El.
    destruct (cluster_capacity c platform <=? assigned db) eqn:L; [apply wp_ret; lia|].
    apply wp_bind, wp_find_all. intros configs _. cbn [on_ok]. apply wp_bind, wp_find_all. intros tasks _. cbn [on_ok].
    eapply wp_mono; [apply assign_each_bounded; [done|lia|lia]|]. intros r db'. cbn. lia. }
  unfold wp in Hw. by destruct (assign_tasks c db).
Qed.
End interleaving.
End scheduler.

(** ** Witness: two tasks and a cluster with room for one *)

#[local] Existing Instance text_ip.
#[local] Existing Instance no_iso.
#[local] Existing Instance no_float.
#[local] Existing Instance list_mongo.
#[local] Existing Instance list_mongo_laws.

Definition two_tasks : database := fun c =>
  match c with
  | Tasks => [waiting_task; dict_set waiting_task "id" (PStr "u")]
  | _ => claim_db c
  end.

Definition one_cycle : cycle :=
  Cycle (Some (Lease "s1" 4)) 1 150 false US_PER_SECOND (fun _ => US_PER_SECOND) US_PER_SECOND (fun t => "run-" +:+ t)
    (fun _ => Committed) (fun _ => None) false.

Lemma cluster_capacity_respected_witness :
  let db' := (assign_tasks (fun _ db => db) one_cycle two_tasks).2 in
  assigned two_tasks = 0 /\ assigned db' <= 1 /\ map (fun d => d.["nodeId"]) (content db' Tasks) = [PStr "a"; PNone].
Proof.
  destruct (cluster_capacity_respected (fun _ db => db) one_cycle two_tasks) as (platform & E & Hb); [intros; lia|].
  pose proof (f_equal fst E) as Hp. vm_compute in Hp. injection Hp as <-.
  split; [by vm_compute|]. split; [exact Hb|by vm_compute].
Defined.
