(* ===== verification/Exports.v ===== *)
(** * Export files: writers, readers and their reclamation ([logs/export_writer.py],
    [logs/export_readers.py], [logs/export_locks.py], [logs/maintenance.py], [logs/jobs.py])

    The files of a download job are written under a kernel lock by the executor
    of the job, read under leases kept in the job's document, and removed by the
    maintenance of the node after they expire.  Executors, readers and other
    operations on jobs act at every `await` of the maintenance; a Worker runs one
    maintenance at a time ([node/worker.py], `start_maintenance`). *)

From stdpp Require Import sets.
From S2P Require Import Prelude PyTime PyValue Ordering Mongo Ownership Commands Jobs JobRows Interleave.
Open Scope camera_scope.

Definition READER_LEASE_SECONDS : Z := 90.
Definition EXPORT_CLEANUP_BATCH_SIZE : nat := 100.
Definition SUCCEEDED := PStr "SUCCEEDED".
Definition EXPIRED := PStr "EXPIRED".
Definition DOWNLOAD := PStr "DOWNLOAD".
Definition WRITING := PStr "WRITING".
Definition CLOSED := PStr "CLOSED".
Definition IDLE := PStr "IDLE".
Definition CLEANING := PStr "CLEANING".
Definition CLEANED := PStr "CLEANED".

(** ** The leases in a job's document *)

Definition entries (d : pydict) : list pyval := match d.["outputReaders"] with PList l => l | _ => [] end.

(** `$elemMatch` and `outputReaders.x`: some embedded document satisfies [p]. *)
Definition some_reader (p : pydict -> bool) (d : pydict) : bool :=
  existsb (fun v => match v with PDict r => p r | _ => false end) (entries d).

(** `$pull` of the embedded documents that satisfy [p]. *)
Definition pull_readers (p : pydict -> bool) (d : pydict) : pydict :=
  match d.["outputReaders"] with
  | PList l => dict_set d "outputReaders" (PList (filter (fun v => match v with PDict r => p r | _ => false end = false) l))
  | _ => d
  end.

(** `$push`. *)
Definition push_reader (r d : pydict) : pydict := dict_set d "outputReaders" (PList (entries d ++ [PDict r])).

(** `$set` through the positional operator: the first entry with the identifier. *)
Fixpoint set_first (identifier : string) (expires : Z) (l : list pyval) : list pyval :=
  match l with
  | [] => []
  | v :: l => match v with
              | PDict r => if fld r "id" (PStr identifier) then PDict (dict_set r "expiresAt" (PTime (Aware expires))) :: l
                           else v :: set_first identifier expires l
              | _ => v :: set_first identifier expires l
              end
  end.

Definition renew_entry (identifier : string) (expires : Z) (d : pydict) : pydict :=
  dict_set d "outputReaders" (PList (set_first identifier expires (entries d))).

Definition idle (d : pydict) : bool := fld_in d "outputCleanupState" [IDLE; PNone].

(** A reader: its job, its identifier and the clock of its process. *)
Record reader := Reader { rd_job : string; rd_id : string; rd_deadline : Z; rd_invalidated : bool; rd_closed : bool }.

(** [assert_active] lets the next block be read. *)
Definition assert_active (r : reader) (now : Z) : bool := negb (rd_invalidated r || (rd_deadline r <=? now)).

Section exports.
Context `{Mongo}.
Variable node_id : string.
Let node := PStr node_id.

(** ** Operations of readers ([ExportReader]) *)

Definition lease_of (stamp : Z) : Z := stamp + READER_LEASE_SECONDS * US_PER_SECOND.

(** The two writes of [acquire]. *)
Definition acquire_pull (job : string) (stamp : Z) : dbm bool :=
  update_one Jobs (fun d => fld d "id" (PStr job)) (pull_readers (fun r => time_le r "expiresAt" stamp)).

Definition acquire_claim (job identifier : string) (stamp : Z) : dbm bool :=
  update_one Jobs
    (fun d => fld d "id" (PStr job) && fld d "nodeId" node && fld d "kind" DOWNLOAD && fld d "status" SUCCEEDED
              && fld d "outputExecutionState" CLOSED && fld d "outputWriterNodeId" node && idle d)
    (push_reader [("id", PStr identifier); ("expiresAt", PTime (Aware (lease_of stamp)))]).

(** [acquire]; the deadline is counted from [after], the clock after the claim. *)
Definition acquire (job identifier : string) (stamp after : Z) : dbm reader :=
  let! _ := acquire_pull job stamp in
  let! claimed := acquire_claim job identifier stamp in
  let! _ := raise_if (negb claimed) (RuntimeError "导出产物正在写入或回收") in
  st_ret (Reader job identifier (lease_of after) false false).

(** The write of [_renew_once]. *)
Definition renew_lease (r : reader) (stamp : Z) : dbm bool :=
  update_one Jobs
    (fun d => fld d "id" (PStr (rd_job r)) && fld d "nodeId" node && fld d "outputExecutionState" CLOSED && idle d
              && some_reader (fun e => fld e "id" (PStr (rd_id r))) d)
    (renew_entry (rd_id r) (lease_of stamp)).

(** [_renew_once] and the test of [_renew_loop]. *)
Definition renewed (r : reader) (matched : bool) (after : Z) : reader :=
  if matched then Reader (rd_job r) (rd_id r) (lease_of after) (rd_invalidated r) (rd_closed r)
  else Reader (rd_job r) (rd_id r) (rd_deadline r) true (rd_closed r).

Definition _renew_once (r : reader) (stamp after : Z) (f : fate) : dbm reader :=
  st_catch (let! matched := transaction f (renew_lease r stamp) in st_ret (renewed r matched after))
    (fun _ => Some (st_ret (renewed r false after))).

(** The write of [close]. *)
Definition close_pull (r : reader) : dbm bool :=
  update_one Jobs (fun d => fld d "id" (PStr (rd_job r)) && fld d "nodeId" node)
    (pull_readers (fun e => fld e "id" (PStr (rd_id r)))).

Definition close (r : reader) : dbm reader :=
  if rd_closed r then st_ret r
  else let! _ := close_pull r in st_ret (Reader (rd_job r) (rd_id r) (rd_deadline r) (rd_invalidated r) true).

(** ** Operations of writers *)

(** [_writer_filter]. *)
Definition _writer_filter (job d : pydict) : bool :=
  fld d "id" job.["id"] && fld d "status" RUNNING_JOB
  && (if truthy job.["executionToken"] then fld d "executionToken" job.["executionToken"] && fld d "nodeId" job.["nodeId"]
      else absent d "executionToken").

(** [_begin_download_output]. *)
Definition writer_fields (job : pydict) (now : Z) : pydict :=
  [("outputExecutionState", WRITING); ("outputWriterNodeId", node); ("outputWriterToken", job.["executionToken"]);
   ("outputWriterStartedAt", PTime (Aware now)); ("outputLockProtocol", PInt 1); ("outputCleanupState", IDLE);
   ("outputReaders", PList [])].

Definition _begin_download_output (job : pydict) (now : Z) : dbm bool :=
  update_one Jobs (_writer_filter job) (set_all (writer_fields job now)).

(** [_close_download_output]. *)
Definition _close_download_output (job : pydict) (now : Z) : dbm unit :=
  let! _ := update_one Jobs
    (fun d => fld d "id" job.["id"] && fld d "outputExecutionState" WRITING && fld d "outputWriterNodeId" node
              && fld d "outputWriterToken" job.["executionToken"])
    (set_all [("outputExecutionState", CLOSED); ("outputWriterClosedAt", PTime (Aware now))]) in
  st_ret tt.

(** ** The node: documents, clock, directories, kernel locks, readers *)

Inductive entry : Type := Directory | Other.       (* [Other]: a symbolic link or a file *)

(** Who holds the lock of a job: the maintenance, or an executor with its job and
    whether it has registered as the writer. *)
Inductive owner : Type := Cleaner | Executor (job : pydict) (begun : bool).

(** [s_dirs (scratch, id)] is `exports/.tmp/id` or `exports/id`. *)
Record state := State {
  s_db : database; s_now : Z; s_dirs : gmap (bool * string) entry; s_locks : gmap string owner; s_readers : list reader }.

Definition with_db (s : state) (db : database) : state := State db (s_now s) (s_dirs s) (s_locks s) (s_readers s).
Definition with_dirs (s : state) (dirs : gmap (bool * string) entry) : state :=
  State (s_db s) (s_now s) dirs (s_locks s) (s_readers s).
Definition with_locks (s : state) (locks : gmap string owner) : state :=
  State (s_db s) (s_now s) (s_dirs s) locks (s_readers s).
Definition with_readers (s : state) (db : database) (readers : list reader) : state :=
  State db (s_now s) (s_dirs s) (s_locks s) readers.

(** What starts a removal, with the state in which it starts or ends. *)
Record removal := Removal { rm_job : string; rm_stamp : Z; rm_token : string; rm_state : state }.

#[export] Instance export_world : World state := { rows := s_db; with_rows := with_db }.

Section interleaving.
Context `{!Environment state}.
(** The tokens of `uuid4`, and whether `rmtree` succeeds. *)
Variable fresh : nat -> string.
Variable removes : nat -> bool.

(** The run of the maintenance records its removals. *)
Abbreviation wm := (stm (run state removal) exn).

(** [now()]. *)
Definition clock : wm Z := observe s_now.

(** A non-blocking [ExportLock.acquire]; [close] gives the lock back. *)
Definition try_lock (id : string) : wm bool :=
  let! held := observe (fun s => s_locks s !! id) in
  match held with
  | Some _ => st_ret false
  | None => let! _ := change (fun s => with_locks s (<[id := Cleaner]> (s_locks s))) in st_ret true
  end.

Definition unlock (id : string) : wm unit := change (fun s => with_locks s (delete id (s_locks s))).

Definition look (path : bool * string) : wm (option entry) := observe (fun s => s_dirs s !! path).

(** [_remove_export_tree]: the thread runs on while others act, even when the
    maintenance is cancelled, which then learns it. *)
Definition _remove_export_tree (path : bool * string) (stamp : Z) (token : string) : wm unit := fun r =>
  let seen r := Run (r_state r) (Removal path.2 stamp token (r_state r) :: r_log r) (r_step r) in
  let r' := seen (step (seen r)) in
  let s := r_state r' in
  if removes (r_step r)
  then let gone := Run (with_dirs s (delete path (s_dirs s))) (r_log r') (r_step r') in
       match outcome (r_step r) with
       | Some (_, CancelledError) => (Raise CancelledError, gone)
       | _ => (Ok tt, gone)
       end
  else (Raise (RuntimeError "OSError"), r').

(** ** The maintenance *)

(** [_recover_expired_export_cleanup_claims]. *)
Definition lease_missing_or_past (stamp : Z) (d : pydict) : bool :=
  time_le d "outputCleanupLeaseUntil" stamp || absent d "outputCleanupLeaseUntil".

Definition finished (d : pydict) : bool := fld_in d "status" [SUCCEEDED; FAILED; CANCELLED; EXPIRED].

Definition stale (stamp : Z) (d : pydict) : bool :=
  fld d "nodeId" node && fld d "kind" DOWNLOAD && finished d && fld d "outputLockProtocol" (PInt 1)
  && fld d "outputCleanupState" CLEANING && lease_missing_or_past stamp d.

Definition release_claim (d : pydict) : pydict :=
  unset_all ["outputCleanupToken"; "outputCleanupLeaseUntil"] (set_all [("outputCleanupState", IDLE)] d).

(** `sort([(field, 1), ("id", 1)])`: a missing date comes first. *)
Definition date_id_key (field : string) (d : pydict) : Z * Z * string :=
  (match d.[field] with PTime u => (1, utc_instant u) | _ => (0, 0) end, text d.["id"]).

Definition date_id_order (field : string) : list pydict -> list pydict :=
  sort_by (date_id_key field) (pair_leb (pair_leb Z.leb Z.leb) str_leb).

Fixpoint release_each (rows : list pydict) (stamp : Z) : wm unit :=
  match rows with
  | [] => st_ret tt
  | job :: rows =>
      let! _ := await (update_one Jobs (fun d => fld d "id" job.["id"] && stale stamp d) release_claim) in
      release_each rows stamp
  end.

Definition _recover_expired_export_cleanup_claims (stamp : Z) : wm unit :=
  let! rows := await (find_all Jobs (stale stamp)) in
  release_each (take EXPORT_CLEANUP_BATCH_SIZE (date_id_order "outputCleanupLeaseUntil" rows)) stamp.

(** The jobs of [cleanup_exports] whose files may go. *)
Definition active (stamp : Z) (d : pydict) : bool :=
  fld d "nodeId" node && fld d "kind" DOWNLOAD && finished d && time_le d "expiresAt" stamp
  && fld_in d "outputExecutionState" [CLOSED; WRITING] && fld d "outputWriterNodeId" node
  && fld d "outputLockProtocol" (PInt 1).

Definition candidate_job (id : pyval) (stamp : Z) (d : pydict) : bool := fld d "id" id && active stamp d && idle d.

(** The document is claimed by [token]. *)
Definition held (token : string) (d : pydict) : bool :=
  fld d "outputCleanupState" CLEANING && fld d "outputCleanupToken" (PStr token).

Definition claim_cleanup (id : pyval) (stamp : Z) (token : string) : dbm bool :=
  update_one Jobs
    (fun d => candidate_job id stamp d && negb (some_reader (fun e => time_gt e "expiresAt" stamp) d))
    (set_all [("outputCleanupState", CLEANING); ("outputCleanupToken", PStr token);
              ("outputCleanupLeaseUntil", PTime (Aware (stamp + 1800 * US_PER_SECOND)))]).

(** Under the lock: the evidence of a dead writer is closed, both directories go. *)
Definition remove_locked (job : pydict) (scratch : bool) (stamp : Z) (token : string) : wm bool :=
  let id := text job.["id"] in
  let! now := clock in
  let! open := (if fld job "outputExecutionState" WRITING
    then await (update_one Jobs
      (fun d => fld d "id" job.["id"] && active stamp d && fld d "outputExecutionState" WRITING && held token d)
      (set_all [("outputExecutionState", CLOSED); ("outputWriterClosedAt", PTime (Aware now));
                ("outputWriterClosureReason", PStr "KERNEL_LOCK_RECOVERY")]))
    else st_ret true) in
  if negb open then st_ret false
  else
    let! _ := _remove_export_tree (scratch, id) stamp token in
    let! other := look (negb scratch, id) in
    let! _ := (match other with
               | Some Directory => _remove_export_tree (negb scratch, id) stamp token
               | _ => st_ret tt
               end) in
    st_ret true.

(** From the claim to the mark CLEANED; [false] is a `continue`. *)
Definition claim_and_remove (job : pydict) (scratch : bool) (stamp : Z) (token : string) : wm bool :=
  let! claimed := await (claim_cleanup job.["id"] stamp token) in
  if negb claimed then st_ret false
  else
    let! locked := try_lock (text job.["id"]) in
    if negb locked then st_ret false
    else
      let! removed := attempt (remove_locked job scratch stamp token)
        (fun r => let! _ := unlock (text job.["id"]) in match r with Ok b => st_ret b | Raise e => st_raise e end) in
      if negb removed then st_ret false
      else
        let! now := clock in
        let! _ := await (update_one Jobs
          (fun d => fld d "id" job.["id"] && active stamp d && fld d "outputExecutionState" CLOSED && held token d)
          (set_all [("outputCleanupState", CLEANED); ("outputCleanedAt", PTime (Aware now))])) in
        st_ret true.

(** The `finally` of a path. *)
Definition release_own (job : pydict) (stamp : Z) (token : string) : wm unit :=
  let! _ := await (update_one Jobs (fun d => fld d "id" job.["id"] && active stamp d && held token d) release_claim) in
  st_ret tt.

(** The rest of the `try` of a path, once it has its token. *)
Definition clean_with (token : string) (job : pydict) (scratch : bool) (stamp : Z) : wm Z :=
  attempt (claim_and_remove job scratch stamp token)
    (fun completed => match completed with
      | Ok true => st_ret 1
      | Ok false => let! _ := release_own job stamp token in st_ret 0
      | Raise e => let! _ := release_own job stamp token in if is_cancelled e then st_raise e else st_ret 0
      end).

(** One of the two paths of a job; the result counts what was removed. *)
Definition clean_path (job : pydict) (scratch : bool) (stamp : Z) : wm Z :=
  let! found := look (scratch, text job.["id"]) in
  match found with
  | Some Directory =>
      attempt (await (update_one Jobs (candidate_job job.["id"] stamp) (pull_readers (fun e => time_le e "expiresAt" stamp))))
        (fun pulled => match pulled with
          | Raise e => if is_cancelled e then st_raise e else st_ret 0
          | Ok _ => fun r => clean_with (fresh (r_step r)) job scratch stamp r
          end)
  | _ => st_ret 0
  end.

Fixpoint clean_jobs (page : list pydict) (stamp : Z) : wm Z :=
  match page with
  | [] => st_ret 0
  | job :: page =>
      let! a := clean_path job false stamp in
      let! b := clean_path job true stamp in
      let! n := clean_jobs page stamp in
      st_ret (a + b + n)
  end.

(** The bookmark on the node's document. *)
Definition bookmark_of (d : option pydict) : option (Z * string) :=
  match d with
  | Some d => match d.["exportCleanupCursor"] with
              | PDict b => match b.["expiresAt"], b.["id"] with PTime t, PStr id => Some (utc_instant t, id) | _, _ => None end
              | _ => None
              end
  | None => None
  end.

Definition after_bookmark (b : option (Z * string)) (d : pydict) : bool :=
  match b with
  | None => true
  | Some (t, id) => time_gt d "expiresAt" t
                    || (time_ge d "expiresAt" t && time_le d "expiresAt" t
                        && match d.["id"] with PStr s => negb (str_leb s id) | _ => false end)
  end.

Definition set_bookmark (v : pyval) : dbm unit :=
  upsert_one Nodes (fun d => fld d "id" node) (set_all [("exportCleanupCursor", v)])
    [("id", node); ("exportCleanupCursor", v)].

(** [cleanup_exports]; [linked] is whether one of the roots is a symbolic link. *)
Definition cleanup_exports (linked : bool) : wm Z :=
  if linked then st_ret 0
  else
    let! stamp := clock in
    let! _ := _recover_expired_export_cleanup_claims stamp in
    let! row := await (find_one Nodes (fun d => fld d "id" node)) in
    let bookmark := bookmark_of row in
    let! found := await (find_all Jobs (fun d => active stamp d && idle d && after_bookmark bookmark d)) in
    let page := take EXPORT_CLEANUP_BATCH_SIZE (date_id_order "expiresAt" found) in
    match last page with
    | None => let! _ := await (set_bookmark PNone) in st_ret 0
    | Some job =>
        let! removed := clean_jobs page stamp in
        let! _ := await (set_bookmark (PDict [("expiresAt", job.["expiresAt"]); ("id", job.["id"])])) in
        st_ret removed
    end.

(** ** What the others do *)

(** The fields that decide the reclamation. *)
Definition export_keys : list string := ["id"; "nodeId"; "outputCleanupState"; "outputReaders"].

(** The operations on the row of a job, by any process. *)
Inductive job_operation (db : database) : database -> Prop :=
  | Submits document context kind now f i : document.["status"] = QUEUED -> document.["id"] = PStr i ->
      document.["outputCleanupState"] = PNone -> document.["outputReaders"] = PNone -> job_operation db (transaction f (submit_rows document context kind now) db).2
  | Row_operation db' : row_operation export_keys db db' -> job_operation db db'.

(** [acquire] and [_renew_once] date the lease before their write and the deadline of
    the reader after it, so a deadline is later than its lease by the duration of the
    write.  [latency] bounds this duration over all readers. *)
Inductive other_step (latency : Z) (s : state) : state -> Prop :=
  | Time_passes now : s_now s <= now -> other_step latency s (State (s_db s) now (s_dirs s) (s_locks s) (s_readers s))
  | Job_operation db : job_operation (s_db s) db -> other_step latency s (with_db s db)
  | Reader_pulls job stamp : stamp <= s_now s -> other_step latency s (with_db s (acquire_pull job stamp (s_db s)).2)
  | Reader_claims job id stamp : stamp <= s_now s <= stamp + latency -> (forall r, r ∈ s_readers s -> rd_id r <> id) ->
      other_step latency s
        match acquire_claim job id stamp (s_db s) with
        | (Ok true, db) => with_readers s db (Reader job id (lease_of (s_now s)) false false :: s_readers s)
        | (_, db) => with_db s db
        end
  | Reader_renews l r l' stamp f : s_readers s = l ++ r :: l' -> stamp <= s_now s <= stamp + latency ->
      other_step latency s
        match _renew_once r stamp (s_now s) f (s_db s) with
        | (Ok r, db) => with_readers s db (l ++ r :: l')
        | (_, db) => with_db s db
        end
  | Reader_closes l r l' : s_readers s = l ++ r :: l' ->
      other_step latency s
        match close r (s_db s) with
        | (Ok r, db) => with_readers s db (l ++ r :: l')
        | (_, db) => with_db s db
        end
  | Reader_dies l r l' : s_readers s = l ++ r :: l' -> other_step latency s (with_readers s (s_db s) (l ++ l'))
  | Executor_locks job : s_locks s !! text job.["id"] = None ->
      other_step latency s (with_locks s (<[text job.["id"] := Executor job false]> (s_locks s)))
  | Executor_begins job i : job.["id"] = PStr i -> s_locks s !! i = Some (Executor job false) ->
      other_step latency s
        match _begin_download_output job (s_now s) (s_db s) with
        | (Ok true, db) => with_db (with_locks s (<[i := Executor job true]> (s_locks s))) db
        | (_, db) => with_db s db
        end
  | Executor_writes job i scratch e : s_locks s !! i = Some (Executor job true) ->
      other_step latency s (with_dirs s (partial_alter (fun _ => e) (scratch, i) (s_dirs s)))
  | Executor_unlocks job begun i : s_locks s !! i = Some (Executor job begun) ->
      other_step latency s (with_locks s (delete i (s_locks s)))
  | Executor_closes job : other_step latency s (with_db s (_close_download_output job (s_now s) (s_db s)).2).

(** ** Documents and readers of a state *)

Definition has (P : pydict -> Prop) (db : database) : Prop := exists d, d ∈ content db Jobs /\ P d.

Definition ids (db : database) : list pyval := map (fun d => d.["id"]) (content db Jobs).

(** The lease of [r], not shorter than its deadline less the latency. *)
Definition leased (latency : Z) (r : reader) (d : pydict) : Prop :=
  d.["id"] = PStr (rd_job r) /\ ended d = true
  /\ some_reader (fun e => fld e "id" (PStr (rd_id r)) && time_ge e "expiresAt" (rd_deadline r - latency)) d = true.

(** The deadline of [r] is over, up to the latency, or it knows that it may not read. *)
Definition over (latency now : Z) (r : reader) : Prop :=
  rd_closed r = true \/ rd_invalidated r = true \/ rd_deadline r <= now + latency.

Definition cleaned (d : pydict) : Prop := d.["nodeId"] = node /\ d.["outputCleanupState"] = CLEANED.

(** The job has no directory left and no executor that may make one. *)
Definition gone (i : string) (s : state) : Prop :=
  (forall b, s_dirs s !! (b, i) <> Some Directory) /\ forall job, s_locks s !! i <> Some (Executor job true).

(** Identifiers are unique texts, and only finished jobs have readers. *)
Definition row_ok (d : pydict) : Prop := (exists i, d.["id"] = PStr i) /\ (entries d <> [] -> ended d = true).
Definition good_list (l : list pydict) : Prop := NoDup (map (fun d => d.["id"]) l) /\ forall d, d ∈ l -> row_ok d.
Definition good_rows (db : database) : Prop := good_list (content db Jobs).

Record inv (latency : Z) (s : state) : Prop := Inv {
  inv_good : good_rows (s_db s);
  inv_tokens : NoDup (map rd_id (s_readers s));
  inv_readers : forall r, r ∈ s_readers s -> over latency (s_now s) r \/ has (leased latency r) (s_db s);
  inv_cleaned : forall d i, d ∈ content (s_db s) Jobs -> d.["id"] = PStr i -> cleaned d -> gone i s }.

(** The job is claimed by the maintenance, with no lease after [stamp]. *)
Definition claimed (i : string) (stamp : Z) (token : string) (d : pydict) : Prop :=
  d.["id"] = PStr i /\ active stamp d = true /\ held token d = true /\ some_reader (fun e => time_gt e "expiresAt" stamp) d = false.

Lemma finished_ended d : finished d = true -> ended d = true.
Proof.
  unfold finished, ended, fld_in, fld. cbn. intros E.
  repeat (apply orb_prop in E as [E|E]; [apply bool_decide_eq_true in E; by rewrite E|]). done.
Qed.

Lemma claimed_ended i stamp token d : claimed i stamp token d -> ended d = true.
Proof. intros (_ & Ha & _). unfold active in Ha. freflect. by apply finished_ended. Qed.

Lemma some_reader_entries p d d' : entries d' = entries d -> some_reader p d' = some_reader p d.
Proof. unfold some_reader. by intros ->. Qed.

(** ** Leases under the updates of the entries *)

Lemma entries_pull p d : entries (pull_readers p d) =
  filter (fun v => match v with PDict r => p r | _ => false end = false) (entries d).
Proof.
  unfold pull_readers, entries. destruct (d.["outputReaders"]) as [| | | | | |l|] eqn:E; rewrite ?E; cbn; try done. by rewrite get_set_eq.
Qed.

Lemma pull_get p d k : k <> "outputReaders" -> (pull_readers p d).[k] = d.[k].
Proof. intros Hk. unfold pull_readers. destruct (d.["outputReaders"]); try done. by rewrite get_set_ne. Qed.

Lemma some_reader_pull p q d : some_reader p (pull_readers q d) = true -> some_reader p d = true.
Proof.
  unfold some_reader. rewrite entries_pull. intros (v & Hv & Hp)%existsb_exists. apply existsb_exists. exists v. split; [|done].
  apply list_elem_of_In in Hv. apply list_elem_of_filter in Hv as [_ Hv]. by apply list_elem_of_In.
Qed.

Lemma some_reader_kept p q d : some_reader p d = true -> (forall r, p r = true -> q r = false) -> some_reader p (pull_readers q d) = true.
Proof.
  unfold some_reader. rewrite entries_pull. intros (v & Hv & Hp)%existsb_exists Hq. apply existsb_exists. exists v. split; [|done].
  apply list_elem_of_In, list_elem_of_filter. apply list_elem_of_In in Hv. split; [|done]. destruct v; try done. by apply Hq.
Qed.

Lemma some_reader_push p r d : some_reader p (push_reader r d) = some_reader p d || p r.
Proof. unfold some_reader, push_reader, entries at 1. rewrite get_set_eq, existsb_app. cbn. by rewrite orb_false_r. Qed.

Lemma entries_renew i t d : entries (renew_entry i t d) = set_first i t (entries d).
Proof. unfold renew_entry, entries at 1. by rewrite get_set_eq. Qed.

(** A renewal of another reader keeps an entry; that of the reader extends one. *)
Lemma set_first_other i t j e l :
  j <> i -> existsb (fun v => match v with PDict r => fld r "id" (PStr j) && time_ge r "expiresAt" e | _ => false end) l = true ->
  existsb (fun v => match v with PDict r => fld r "id" (PStr j) && time_ge r "expiresAt" e | _ => false end) (set_first i t l) = true.
Proof.
  intros Hne. induction l as [|v l IH]; [done|]. cbn. intros [Hv|Hl]%orb_prop.
  - destruct v as [| | | | | | |r]; try done. apply andb_prop in Hv as [Hj Ht]. destruct (fld r "id" (PStr i)) eqn:E.
    + apply fld_true in Hj, E. congruence.
    + cbn. by rewrite Hj, Ht.
  - destruct v as [| | | | | | |r]; cbn; try (by apply IH). destruct (fld r "id" (PStr i)); cbn; [by rewrite Hl, orb_true_r|by rewrite IH, orb_true_r].
Qed.

Lemma set_first_self i t l :
  existsb (fun v => match v with PDict r => fld r "id" (PStr i) | _ => false end) l = true ->
  existsb (fun v => match v with PDict r => fld r "id" (PStr i) && time_ge r "expiresAt" t | _ => false end) (set_first i t l) = true.
Proof.
  induction l as [|v l IH]; [done|]. cbn. intros Hl.
  destruct v as [| | | | | | |r]; cbn in *; try (by apply IH). destruct (fld r "id" (PStr i)) eqn:E; cbn.
  - apply fld_true in E. unfold fld, time_ge. dget. rewrite E, bool_decide_eq_true_2 by done. cbn. by rewrite Z.leb_refl.
  - cbn in Hl. by rewrite IH, orb_true_r.
Qed.

Context `{!MongoLaws}.

(** ** Operations on the rows of jobs leave finished jobs alone *)

Record quiet_rows (l l' : list pydict) : Prop := Quiet {
  quiet_ended : forall d, d ∈ l -> ended d = true -> d ∈ l';
  quiet_cleaned : forall d', d' ∈ l' -> cleaned d' -> exists d, d ∈ l /\ d.["id"] = d'.["id"] /\ cleaned d;
  quiet_good : good_list l' }.

Definition quiet (db db' : database) : Prop := quiet_rows (content db Jobs) (content db' Jobs).

Lemma quiet_list_refl l : good_list l -> quiet_rows l l.
Proof. intros Hg. split; [done| |done]. intros d Hd Hc. by exists d. Qed.

Lemma quiet_same db db' : good_rows db -> content db' Jobs = content db Jobs -> quiet db db'.
Proof. intros Hg E. unfold quiet. rewrite E. by apply quiet_list_refl. Qed.

Lemma quiet_trans l1 l2 l3 : quiet_rows l1 l2 -> quiet_rows l2 l3 -> quiet_rows l1 l3.
Proof.
  intros [E1 C1 _] [E2 C2 G2]. split; [auto| |done]. intros d Hd Hc. destruct (C2 d Hd Hc) as (d2 & Hd2 & Ei & Hc2).
  destruct (C1 d2 Hd2 Hc2) as (d1 & ? & ? & ?). exists d1. split_and!; [done|congruence|done].
Qed.

(** One row changes. *)
Lemma swap_ids l d d' r db db' : content db Jobs = l ++ d :: r -> content db' Jobs = l ++ d' :: r -> d'.["id"] = d.["id"] ->
  ids db' = ids db.
Proof. intros E E' Ei. unfold ids. by rewrite E, E', !map_app, !map_cons, Ei. Qed.

Lemma swap_good l d d' r db db' : good_rows db -> content db Jobs = l ++ d :: r -> content db' Jobs = l ++ d' :: r ->
  d'.["id"] = d.["id"] -> (row_ok d -> entries d' <> [] -> ended d' = true) -> good_rows db'.
Proof.
  intros [Hn Hs] E E' Ei Hd. split; [change (NoDup (ids db')); by rewrite (swap_ids _ _ _ _ _ _ E E' Ei)|]. intros x Hx. rewrite E' in Hx.
  assert (Hok : row_ok d) by (apply Hs; rewrite E; apply elem_of_middle).
  apply elem_of_app in Hx as [Hx|[->|Hx]%elem_of_cons]; [apply Hs; rewrite E; set_solver| |apply Hs; rewrite E; set_solver].
  split; [rewrite Ei; by destruct Hok|auto].
Qed.

(** The fields that matter here stay under the operations of [JobRows]. *)
Definition quietly (l l' : list pydict) : Prop := good_list l -> quiet_rows l l'.

#[local] Instance quietly_preorder : PreOrder quietly.
Proof.
  split; [exact quiet_list_refl|]. intros l1 l2 l3 H1 H2 Hg. destruct (H1 Hg) as [E C G] eqn:E1.
  eapply quiet_trans; [by split|]. by apply H2.
Qed.

Lemma quietly_change l d d' r : ended d = false -> (forall k, k ∈ export_keys -> d'.[k] = d.[k]) -> quietly (l ++ d :: r) (l ++ d' :: r).
Proof.
  intros Hq Hk [Hn Hs]. assert (Hk' : d'.["id"] = d.["id"] /\ d'.["nodeId"] = d.["nodeId"] /\
    d'.["outputCleanupState"] = d.["outputCleanupState"] /\ d'.["outputReaders"] = d.["outputReaders"])
    by (split_and!; apply Hk; unfold export_keys; set_solver). destruct Hk' as (Hi & Hno & Hc & Hr). split.
  - intros x Hx He. assert (x <> d) by (intros ->; by rewrite Hq in He). set_solver.
  - intros x Hx Hx2. apply elem_of_app in Hx as [Hx|[->|Hx]%elem_of_cons]; [exists x; set_solver| |exists x; set_solver].
    exists d. split; [apply elem_of_middle|]. unfold cleaned in *. rewrite Hno, Hc in Hx2. done.
  - split; [by rewrite map_app, map_cons in *; rewrite Hi|]. intros x Hx.
    assert (Hd : row_ok d) by apply Hs, elem_of_middle.
    apply elem_of_app in Hx as [Hx|[->|Hx]%elem_of_cons]; [apply Hs; set_solver| |apply Hs; set_solver].
    destruct Hd as [Hd1 Hd2]. split; [by rewrite Hi|]. unfold entries in *. rewrite Hr. intros Hne. specialize (Hd2 Hne). by rewrite Hq in Hd2.
Qed.

Lemma submit_quietly document context kind now i : document.["status"] = QUEUED -> document.["id"] = PStr i ->
  document.["outputCleanupState"] = PNone -> document.["outputReaders"] = PNone -> calm quietly (submit_rows document context kind now).
Proof.
  intros Hs Hi Ho Hr. apply (calm_bind quietly); [|intros; apply (calm_audit quietly)]. intros db. apply wp_insert; [|done].
  intros db' Hno E Hother. split; [|eapply frame_weaken; [by apply frame_one|set_solver]]. intros [Hn Hst]. rewrite E. split.
  - intros d Hd _. apply elem_of_snoc. by left.
  - intros d Hd Hc. apply elem_of_snoc in Hd as [Hd| ->]; [by exists d|]. destruct Hc as [_ Hc]. by rewrite Ho in Hc.
  - split.
    + rewrite map_app. apply NoDup_app. split_and!; [done| |apply NoDup_singleton].
      intros x (d & -> & Hd)%list_elem_of_fmap Hx%list_elem_of_singleton. specialize (Hno d Hd). apply clash_id in Hno; [|done].
      by apply fld_false in Hno.
    + intros d Hd. apply elem_of_snoc in Hd as [Hd| ->]; [by apply Hst|]. split; [by exists i|]. unfold entries. by rewrite Hr.
Qed.

Lemma job_operation_quiet db db' : good_rows db -> job_operation db db' -> quiet db db'.
Proof.
  intros Hg Hop. revert Hg. change (quietly (content db Jobs) (content db' Jobs)). destruct Hop as [document context kind now f i ? ? ? ?|db' Hop].
  - apply (calm_run quietly). eapply (calm_transaction quietly), submit_quietly; eauto.
  - eapply (row_operation_calm export_keys quietly); [|exact quietly_change|exact Hop]. unfold export_keys, written_keys. set_solver.
Qed.

(** ** Updates of one row by readers and executors *)

Inductive touch : pydict -> pydict -> Prop :=
  | Pulls p d : touch d (pull_readers p d)
  | Pushes r d : ended d = true -> idle d = true -> touch d (push_reader r d)
  | Extends i t d : idle d = true -> touch d (renew_entry i t d)
  | Begins job now d : ended d = false -> touch d (set_all (writer_fields job now) d)
  | Closes now d : touch d (set_all [("outputExecutionState", CLOSED); ("outputWriterClosedAt", PTime (Aware now))] d).

Lemma touch_ok d d' : touch d d' -> row_ok d -> entries d' <> [] -> ended d' = true.
Proof.
  intros Ht [_ Hok] Hn. destruct Ht as [p d|r d He _|i t d _|job now d _|now d].
  - rewrite (job_ended_status d); [|by apply pull_get]. apply Hok. intros E. apply Hn. rewrite entries_pull, E. done.
  - rewrite (job_ended_status d); [done|]. unfold push_reader. by dget.
  - rewrite (job_ended_status d); [|unfold renew_entry; by dget]. apply Hok. intros E. apply Hn. rewrite entries_renew, E. done.
  - exfalso. apply Hn. unfold entries, writer_fields, set_all. cbn [foldl fst snd]. by dget.
  - unfold set_all in *. cbn [foldl fst snd] in *. rewrite (job_ended_status d); [|by dget]. apply Hok. intros E. apply Hn. revert E.
    unfold entries. by dget.
Qed.

Lemma touch_fields d d' : touch d d' -> d'.["id"] = d.["id"] /\ (cleaned d' -> cleaned d).
Proof.
  intros []; unfold cleaned.
  - by rewrite !pull_get.
  - unfold push_reader. by dget.
  - unfold renew_entry. by dget.
  - unfold writer_fields, set_all. cbn [foldl fst snd]. dget. split; [done|by intros [_ ?]].
  - unfold set_all. cbn [foldl fst snd]. by dget.
Qed.

Lemma held_not_idle token d : held token d = true -> idle d = false.
Proof. unfold held, idle, fld_in. intros [E _]%andb_prop. apply fld_true in E. unfold fld. cbn. by rewrite E. Qed.

(** A claimed row stays claimed. *)
Lemma touch_claimed i stamp token d d' : touch d d' -> claimed i stamp token d -> claimed i stamp token d'.
Proof.
  intros Ht Hc. pose proof (claimed_ended _ _ _ _ Hc) as He. destruct Hc as (Hi & Ha & Hh & Hr). pose proof (held_not_idle _ _ Hh) as Hid.
  destruct Ht; try congruence.
  - split_and!; [by rewrite pull_get| | |].
    + revert Ha. unfold active, finished, fld_in, fld, time_le. cbn. by rewrite !pull_get.
    + revert Hh. unfold held, fld. by rewrite !pull_get.
    + destruct (some_reader _ (pull_readers p d)) eqn:E; [|done]. apply some_reader_pull in E. congruence.
  - unfold set_all. cbn [foldl fst snd]. split_and!; [by dget| | |].
    + revert Ha. unfold active, finished, fld_in, fld, time_le. cbn. dget. intros Ha. freflect.
      repeat match goal with H : ?x = true |- context [?x] => rewrite H end. done.
    + revert Hh. unfold held, fld. by dget.
    + rewrite (some_reader_entries _ d); [done|]. unfold entries. by dget.
Qed.

(** How the rows change in a step of the others. *)
Inductive changes (db db' : database) : Prop :=
  | Unchanged : db' = db -> changes db db'
  | Quietly : quiet db db' -> changes db db'
  | Touched l d d' r : content db Jobs = l ++ d :: r -> content db' Jobs = l ++ d' :: r -> touch d d' -> changes db db'.

Lemma changes_good db db' : good_rows db -> changes db db' -> good_rows db'.
Proof.
  intros Hg [-> |[_ _ ?]|l d d' r E E' Ht]; [done|done|]. eapply swap_good; [exact Hg|exact E|exact E'|by destruct (touch_fields _ _ Ht)|by apply touch_ok].
Qed.

Lemma changes_cleaned db db' d' : changes db db' -> d' ∈ content db' Jobs -> cleaned d' ->
  exists d, d ∈ content db Jobs /\ d.["id"] = d'.["id"] /\ cleaned d.
Proof.
  intros [-> |[_ Hc _]|l d d1 r E E' Ht] Hd Hcl; [by exists d'|by apply Hc|]. rewrite E' in Hd. rewrite E.
  destruct (touch_fields _ _ Ht) as [Hi Hc]. apply elem_of_app in Hd as [Hd|[->|Hd]%elem_of_cons].
  - exists d'. split; [set_solver|done].
  - exists d. split_and!; [apply elem_of_middle|done|auto].
  - exists d'. split; [set_solver|done].
Qed.

(** A property of finished rows that the touches keep. *)
Lemma changes_has (P : pydict -> Prop) db db' : changes db db' -> (forall d, P d -> ended d = true) ->
  (forall d d', touch d d' -> d ∈ content db Jobs -> d' ∈ content db' Jobs -> P d -> P d') -> has P db -> has P db'.
Proof.
  intros Hch He Hp (x & Hx & HP). destruct Hch as [-> |[Hq _ _]|l d d1 r E E' Ht]; [by exists x|exists x; auto|].
  rewrite E in Hx. apply elem_of_app in Hx as [Hx|[->|Hx]%elem_of_cons].
  - exists x. rewrite E'. split; [set_solver|done].
  - exists d1. assert (Hd1 : d1 ∈ content db' Jobs) by (rewrite E'; apply elem_of_middle). split; [done|].
    apply (Hp d d1 Ht); [rewrite E; apply elem_of_middle|done|done].
  - exists x. rewrite E'. split; [set_solver|done].
Qed.

Lemma changes_claimed i stamp token db db' : changes db db' -> has (claimed i stamp token) db -> has (claimed i stamp token) db'.
Proof.
  intros Hch. apply changes_has; [done|apply claimed_ended|]. intros d d' Ht _ _. by apply touch_claimed.
Qed.

(** The outcome of an update of one row. *)
Lemma update_one_cases q f db :
  match update_one Jobs q f db with
  | (Ok true, db') => exists l d r, content db Jobs = l ++ d :: r /\ content db' Jobs = l ++ f d :: r /\ q d = true
  | (Ok false, db') => db' = db
  | (Raise _, _) => False
  end.
Proof.
  assert (Hw : wp (update_one Jobs q f) (fun a db' => match a with
    | Ok true => exists l d r, content db Jobs = l ++ d :: r /\ content db' Jobs = l ++ f d :: r /\ q d = true
    | Ok false => db' = db
    | Raise _ => False end) db).
  { apply wp_update_one; [|done]. intros d db' (Hq & (l & r & E & E') & _). by exists l, d, r. }
  unfold wp in Hw. by destruct (update_one Jobs q f db) as [[[]|e] db'].
Qed.

Lemma update_one_changes q f db : (forall d, q d = true -> touch d (f d)) -> changes db (update_one Jobs q f db).2.
Proof.
  intros Ht. pose proof (update_one_cases q f db) as Hc. destruct (update_one Jobs q f db) as [[[]|e] db']; cbn; [|by apply Unchanged|done].
  destruct Hc as (l & d & r & E & E' & Hq). eapply Touched; eauto.
Qed.

Lemma touch_writer job now d : _writer_filter job d = true -> touch d (set_all (writer_fields job now) d).
Proof. intros Hq. apply Begins. unfold _writer_filter in Hq. freflect. by apply running_not_ended. Qed.

Lemma renew_lease_cases r stamp after f db :
  match _renew_once r stamp after f db with
  | (Ok r', db') => (r' = renewed r true after /\ db' = (renew_lease r stamp db).2 /\ (renew_lease r stamp db).1 = Ok true)
                    \/ (r' = renewed r false after /\ (db' = db \/ db' = (renew_lease r stamp db).2))
  | (Raise _, _) => False
  end.
Proof.
  assert (Hc : forall e, (renew_lease r stamp db).1 <> Raise e).
  { intros e Er. unfold renew_lease in Er. match type of Er with (update_one Jobs ?q ?g db).1 = _ => pose proof (update_one_cases q g db) as Hc end.
    destruct (update_one Jobs _ _ db) as [[]]; cbn in Er; [done|exact Hc]. }
  unfold _renew_once, st_catch, st_bind, transaction.
  destruct (renew_lease r stamp db) as [[[]|e] db'] eqn:Er; [| |by destruct (Hc e)]; destruct f as [|[]]; cbn; auto.
Qed.

Lemma other_changes latency s s' : good_rows (s_db s) -> other_step latency s s' -> changes (s_db s) (s_db s').
Proof.
  intros Hg Hs. destruct Hs as [now _|db Hop|job stamp _|job id stamp _ _|l r l' stamp f _ _|l r l' _|l r l' _|job _|job i _ _|job i b e _|job b i _|job];
    try by apply Unchanged.
  - by apply Quietly, job_operation_quiet.
  - apply update_one_changes. intros d _. apply Pulls.
  - match goal with |- changes _ (s_db ?s') => replace (s_db s') with (acquire_claim job id stamp (s_db s)).2
      by (destruct (acquire_claim job id stamp (s_db s)) as [[[]|] ?]; done) end.
    apply update_one_changes. intros d Hq. freflect. apply Pushes; [|done]. apply finished_ended. unfold finished, fld_in, fld. cbn.
    match goal with H : d.["status"] = _ |- _ => rewrite H end. done.
  - assert (Hr : changes (s_db s) (renew_lease r stamp (s_db s)).2).
    { apply update_one_changes. intros d Hq. freflect. by apply Extends. }
    pose proof (renew_lease_cases r stamp (s_now s) f (s_db s)) as Hc.
    destruct (_renew_once r stamp (s_now s) f (s_db s)) as [[r'|e] db']; [|done]. cbn.
    destruct Hc as [(_ & -> & _)|(_ & [-> | ->])]; [done|by apply Unchanged|done].
  - unfold close. destruct (rd_closed r); [by apply Unchanged|]. unfold st_bind.
    assert (Hc : changes (s_db s) (close_pull r (s_db s)).2) by (apply update_one_changes; intros d _; apply Pulls).
    by destruct (close_pull r (s_db s)) as [[b|e] db'].
  - match goal with |- changes _ (s_db ?s') => replace (s_db s') with (_begin_download_output job (s_now s) (s_db s)).2
      by (destruct (_begin_download_output job (s_now s) (s_db s)) as [[[]|] ?]; done) end.
    apply update_one_changes. intros d. apply touch_writer.
  - cbn. unfold _close_download_output, st_bind.
    match goal with |- context [update_one Jobs ?q ?g (s_db s)] => assert (Hc : changes (s_db s) (update_one Jobs q g (s_db s)).2) end.
    { apply update_one_changes. intros d _. apply Closes. }
    by destruct (update_one Jobs _ _ (s_db s)) as [[b|e] db'].
Qed.

(** ** Leases under the steps of the others *)

Lemma update_leased latency r q f db : (forall d, q d = true -> leased latency r d -> leased latency r (f d)) ->
  has (leased latency r) db -> has (leased latency r) (update_one Jobs q f db).2.
Proof.
  intros Hf (x & Hx & HP). pose proof (update_one_cases q f db) as Hc.
  destruct (update_one Jobs q f db) as [[[]|e] db']; cbn; [|subst; by exists x|done].
  destruct Hc as (l & d & r' & E & E' & Hq). rewrite E in Hx. apply elem_of_app in Hx as [Hx|[->|Hx]%elem_of_cons].
  - exists x. rewrite E'. split; [set_solver|done].
  - exists (f d). rewrite E'. split; [apply elem_of_middle|auto].
  - exists x. rewrite E'. split; [set_solver|done].
Qed.

Lemma pull_leased latency r p d :
  (forall e, fld e "id" (PStr (rd_id r)) && time_ge e "expiresAt" (rd_deadline r - latency) = true -> p e = false) ->
  leased latency r d -> leased latency r (pull_readers p d).
Proof.
  intros Hp (Hi & He & Hr). unfold leased. rewrite pull_get by done. split_and!; [done| |by apply some_reader_kept].
  revert He. unfold ended, fld_in, fld. cbn. by rewrite pull_get.
Qed.

Lemma leased_ended latency r d d' : leased latency r d -> d'.["id"] = d.["id"] -> d'.["status"] = d.["status"] ->
  some_reader (fun e => fld e "id" (PStr (rd_id r)) && time_ge e "expiresAt" (rd_deadline r - latency)) d' = true -> leased latency r d'.
Proof. intros (Hi & He & _) E1 E2 Hs. split_and!; [congruence|by rewrite (job_ended_status d)|done]. Qed.

Lemma push_leased latency r e d : leased latency r d -> leased latency r (push_reader e d).
Proof.
  intros Hl. eapply leased_ended; [exact Hl|unfold push_reader; by dget..|]. rewrite some_reader_push. destruct Hl as (_ & _ & ->). done.
Qed.

Lemma renew_other latency r i t d : rd_id r <> i -> leased latency r d -> leased latency r (renew_entry i t d).
Proof.
  intros Hn Hl. eapply leased_ended; [exact Hl|unfold renew_entry; by dget..|]. unfold some_reader. rewrite entries_renew.
  apply set_first_other; [done|]. by destruct Hl as (_ & _ & Hs).
Qed.

(** A step that changes no reader but the database: what is not over stays leased. *)
Lemma others_leased latency s db : inv latency s ->
  (forall r, r ∈ s_readers s -> has (leased latency r) (s_db s) -> over latency (s_now s) r \/ has (leased latency r) db) ->
  forall r, r ∈ s_readers s -> over latency (s_now s) r \/ has (leased latency r) db.
Proof. intros Hi Hk r Hr. destruct (inv_readers _ _ Hi r Hr) as [Ho|Hl]; [by left|auto]. Qed.

Lemma over_later latency now now' r : now <= now' -> over latency now r -> over latency now' r.
Proof. unfold over. intros Hn [?|[?|?]]; [by left|right; by left|right; right; lia]. Qed.

Lemma quiet_leased latency r db db' : quiet db db' -> has (leased latency r) db -> has (leased latency r) db'.
Proof. intros [Hq _ _] (d & Hd & Hl). exists d. split; [|done]. apply Hq; [done|]. by destruct Hl as (_ & ? & _). Qed.

(** A claimed lease, or a renewed one. *)
Lemma claim_leased job id stamp now latency db db' :
  now <= stamp + latency -> acquire_claim job id stamp db = (Ok true, db') ->
  has (leased latency (Reader job id (lease_of now) false false)) db'.
Proof.
  intros Hn E. unfold acquire_claim in E. match type of E with update_one Jobs ?q ?g db = _ => pose proof (update_one_cases q g db) as Hc end.
  rewrite E in Hc. destruct Hc as (l & d & r & _ & E' & Hq). eexists. split; [rewrite E'; apply elem_of_middle|]. freflect.
  split_and!; [unfold push_reader; by dget| |].
  - apply finished_ended. unfold finished, fld_in, push_reader, fld. dget. cbn.
    match goal with H : d.["status"] = _ |- _ => rewrite H end. done.
  - rewrite some_reader_push. cbn. apply orb_true_iff. right. unfold fld, time_ge, lease_of. cbn. rewrite bool_decide_eq_true_2 by done.
    cbn. apply Z.leb_le. unfold utc_instant. lia.
Qed.

Lemma renew_leased r stamp now latency db : now <= stamp + latency -> good_rows db ->
  (renew_lease r stamp db).1 = Ok true -> has (leased latency (renewed r true now)) (renew_lease r stamp db).2.
Proof.
  intros Hn [_ Hok] E. unfold renew_lease in *. match type of E with (update_one Jobs ?q ?g db).1 = _ => pose proof (update_one_cases q g db) as Hc end.
  destruct (update_one Jobs _ _ db) as [a db']. cbn in E. subst a. destruct Hc as (l & d & r' & E & E' & Hq). cbn. freflect.
  assert (Hd : row_ok d) by (apply Hok; rewrite E; apply elem_of_middle).
  match goal with H : some_reader _ d = true |- _ => rename H into Hs end. unfold some_reader in Hs.
  exists (renew_entry (rd_id r) (lease_of stamp) d). split; [rewrite E'; apply elem_of_middle|]. split_and!; [unfold renew_entry; by dget| |].
  - rewrite (job_ended_status d); [|unfold renew_entry; by dget]. apply Hd. intros E0. by rewrite E0 in Hs.
  - unfold some_reader. rewrite entries_renew. apply set_first_self with (t := lease_of stamp) in Hs.
    apply existsb_exists in Hs as (v & Hv & Hp). apply existsb_exists. exists v. split; [done|].
    destruct v as [| | | | | | |e]; try done. apply andb_prop in Hp as [Hid Ht]. cbn [renewed rd_id rd_deadline]. rewrite Hid. revert Ht.
    unfold time_ge, lease_of. destruct (e.["expiresAt"]); try done. cbn. rewrite !Z.leb_le. lia.
Qed.

Lemma other_now latency s s' : other_step latency s s' -> s_now s <= s_now s'.
Proof.
  intros []; cbn; try lia;
    repeat match goal with |- context [match ?x with (_, _) => _ end] => destruct x as [[[]|] ?]; cbn end; try lia.
Qed.

(** The maintenance keeps its lock, and nobody else writes the directories. *)
Lemma other_locked latency i s s' : other_step latency s s' -> s_locks s !! i = Some Cleaner ->
  s_locks s' !! i = Some Cleaner /\ forall b, s_dirs s' !! (b, i) = s_dirs s !! (b, i).
Proof.
  intros Hs Hl. destruct Hs; cbn; try done;
    repeat match goal with |- context [match ?x with (_, _) => _ end] => destruct x as [[[]|] ?]; cbn end; try done.
  - split; [|done]. rewrite lookup_insert_ne by congruence. done.
  - split; [|done]. rewrite lookup_insert_ne by congruence. done.
  - split; [done|]. intros b. rewrite lookup_partial_alter_ne by congruence. done.
  - split; [|done]. rewrite lookup_delete_ne by congruence. done.
Qed.

(** A job without files gets none while its row is finished. *)
Lemma other_gone latency i s s' d : good_rows (s_db s) -> other_step latency s s' -> gone i s ->
  d ∈ content (s_db s') Jobs -> d.["id"] = PStr i -> cleaned d \/ ended d = true -> gone i s'.
Proof.
  intros Hg Hs [Hd Hl] Hin Hi Hc. pose proof (changes_good _ _ Hg (other_changes _ _ _ Hg Hs)) as [Hu _].
  destruct Hs as [now _|db Hop|job stamp _|job id stamp _ _|l r l' stamp f _ _|l r l' _|l r l' _|job Hn|job j Hj Hlk|job j b e Hlk|job b j Hlk|job];
    try by split.
  - by destruct (acquire_claim job id stamp (s_db s)) as [[[]|] ?].
  - by destruct (_renew_once r stamp (s_now s) f (s_db s)) as [[]].
  - by destruct (close r (s_db s)) as [[]].
  - split; [done|]. intros job'. cbn. destruct (decide (text job.["id"] = i)) as [<-|Hne].
    + rewrite lookup_insert_eq. done.
    + rewrite lookup_insert_ne by done. apply Hl.
  - unfold _begin_download_output in *.
    match goal with H : context [update_one Jobs ?q ?g ?db] |- _ => pose proof (update_one_cases q g db) as Hcase end.
    destruct (update_one Jobs _ _ (s_db s)) as [[[]|e] db']; [|done|done]. cbn in *. destruct Hcase as (l & x & r & E & E' & Hq).
    split; [done|]. cbn. intros job'. destruct (decide (j = i)) as [->|Hne]; [|by rewrite lookup_insert_ne]. exfalso.
    assert (d = set_all (writer_fields job (s_now s)) x) as ->.
    { apply (NoDup_map_eq (fun d : pydict => d.["id"]) (content db' Jobs)); [done|done|rewrite E'; apply elem_of_middle|].
      cbn. unfold writer_fields, set_all. cbn [foldl fst snd]. dget. unfold _writer_filter in Hq. freflect. congruence. }
    unfold _writer_filter in Hq. freflect. destruct Hc as [[_ Hc]|Hc].
    + revert Hc. unfold writer_fields, set_all. cbn [foldl fst snd]. by dget.
    + rewrite running_not_ended in Hc; [done|]. unfold writer_fields, set_all. cbn [foldl fst snd]. by dget.
  - split; [|done]. cbn. intros b'. destruct (decide (j = i)) as [->|Hne]; [by destruct (Hl job)|].
    rewrite lookup_partial_alter_ne by congruence. apply Hd.
  - split; [done|]. cbn. intros job'. destruct (decide (j = i)) as [->|Hne]; [by rewrite lookup_delete_eq|]. rewrite lookup_delete_ne by done. apply Hl.
Qed.

Lemma middle_ids (l : list reader) r r' l' : rd_id r' = rd_id r -> map rd_id (l ++ r' :: l') = map rd_id (l ++ r :: l').
Proof. intros E. by rewrite !map_app, !map_cons, E. Qed.

Lemma other_readers latency s s' : 0 <= latency -> inv latency s -> other_step latency s s' ->
  NoDup (map rd_id (s_readers s')) /\ forall r, r ∈ s_readers s' -> over latency (s_now s') r \/ has (leased latency r) (s_db s').
Proof.
  intros Hlat Hi Hs. pose proof (inv_good _ _ Hi) as Hg. pose proof (inv_tokens _ _ Hi) as Ht. pose proof (inv_readers _ _ Hi) as Hr.
  destruct Hs as [now Hn|db Hop|job stamp Hst|job id stamp Hst Hfresh|l r l' stamp f Hl Hst|l r l' Hl|l r l' Hl|job Hn|job j Hj Hlk|job j b e Hlk|job b j Hlk|job];
    try (split; [done|]; done).
  - split; [done|]. intros r Hin. destruct (Hr r Hin) as [Ho|Ho]; [left; by apply (over_later _ (s_now s))|by right].
  - split; [done|]. apply (others_leased latency s); [done|]. intros r _ Hl. right. by eapply quiet_leased; [apply job_operation_quiet|].
  - split; [done|]. apply (others_leased latency s); [done|]. intros r _ Hl.
    destruct (decide (rd_deadline r <= s_now s + latency)) as [Hd|Hd]; [left; by right; right|right].
    apply update_leased; [|done]. intros d _. apply pull_leased. intros e [_ He]%andb_prop. revert He. unfold time_ge, time_le.
    destruct (e.["expiresAt"]); try done. rewrite Z.leb_le, Z.leb_gt. lia.
  - assert (Hk : forall r, r ∈ s_readers s -> has (leased latency r) (s_db s) -> has (leased latency r) (acquire_claim job id stamp (s_db s)).2).
    { intros r _. apply update_leased. intros d _. apply push_leased. }
    destruct (acquire_claim job id stamp (s_db s)) as [[[]|e] db] eqn:E; cbn in *.
    + split.
      * apply NoDup_cons. split; [|done]. intros (r & Er & Hin)%list_elem_of_fmap. by destruct (Hfresh r Hin).
      * intros r [->|Hin]%elem_of_cons; [right; eapply claim_leased; [|exact E]; lia|].
        destruct (Hr r Hin) as [Ho|Hle]; [by left|right; auto].
    + split; [done|]. apply (others_leased latency s); [done|]. intros r Hin Hle. right. auto.
    + split; [done|]. apply (others_leased latency s); [done|]. intros r Hin Hle. right. auto.
  - pose proof (renew_lease_cases r stamp (s_now s) f (s_db s)) as Hc.
    destruct (_renew_once r stamp (s_now s) f (s_db s)) as [[r'|e] db']; [|done]. cbn.
    assert (Hids : rd_id r' = rd_id r) by (by destruct Hc as [(-> & _)|(-> & _)]).
    assert (Hk : forall r0, r0 ∈ l ++ l' -> has (leased latency r0) (s_db s) -> has (leased latency r0) db').
    { intros r0 Hin Hle. assert (Hne : rd_id r0 <> rd_id r).
      { intros E. rewrite Hl in Ht. rewrite <- Permutation_middle in Ht. cbn in Ht. apply NoDup_cons in Ht as [Ht _]. apply Ht.
        rewrite <- E. by apply list_elem_of_fmap_2. }
      assert (Hle' : has (leased latency r0) (renew_lease r stamp (s_db s)).2).
      { apply update_leased; [|done]. intros d _. by apply renew_other. }
      destruct Hc as [(_ & -> & _)|(_ & [-> | ->])]; done. }
    split; [by rewrite (middle_ids l r r' l'), <- Hl|]. intros r0 Hin.
    apply elem_of_app in Hin as [Hin|[->|Hin]%elem_of_cons].
    + destruct (Hr r0) as [Ho|Ho]; [rewrite Hl; set_solver|by left|right; apply Hk; [set_solver|done]].
    + destruct Hc as [(-> & -> & E)|(-> & _)]; [|left; by right; left].
      right. eapply renew_leased; [lia|done|done].
    + destruct (Hr r0) as [Ho|Ho]; [rewrite Hl; set_solver|by left|right; apply Hk; [set_solver|done]].
  - unfold close. destruct (rd_closed r) eqn:Ecl.
    { cbn. rewrite <- Hl. done. }
    unfold st_bind. assert (Hk : forall r0, r0 ∈ l ++ l' -> has (leased latency r0) (s_db s) -> has (leased latency r0) (close_pull r (s_db s)).2).
    { intros r0 Hin Hle. assert (Hne : rd_id r0 <> rd_id r).
      { intros E. rewrite Hl in Ht. rewrite <- Permutation_middle in Ht. cbn in Ht. apply NoDup_cons in Ht as [Ht _]. apply Ht.
        rewrite <- E. by apply list_elem_of_fmap_2. }
      apply update_leased; [|done]. intros d _. apply pull_leased. intros e [He _]%andb_prop. apply fld_true in He. apply fld_false. congruence. }
    assert (Hc : forall e, (close_pull r (s_db s)).1 <> Raise e).
    { intros e E. unfold close_pull in E. match type of E with (update_one Jobs ?q ?g ?db).1 = _ => pose proof (update_one_cases q g db) as Hc end.
      destruct (update_one Jobs _ _ _) as [[]]; cbn in E; [done|exact Hc]. }
    destruct (close_pull r (s_db s)) as [[b|e] db']; [|by destruct (Hc e)]. cbn in *.
    split; [by rewrite (middle_ids l r), <- Hl|]. intros r0 Hin.
    apply elem_of_app in Hin as [Hin|[->|Hin]%elem_of_cons]; [|left; by left|];
      (destruct (Hr r0) as [Ho|Ho]; [rewrite Hl; set_solver|by left|right; apply Hk; [set_solver|done]]).
  - cbn. rewrite Hl in Ht. split.
    + rewrite <- Permutation_middle in Ht. cbn in Ht. by apply NoDup_cons in Ht as [_ Ht].
    + intros r0 Hin. apply Hr. rewrite Hl. set_solver.
  - assert (Hk : forall r, has (leased latency r) (s_db s) -> has (leased latency r) (_begin_download_output job (s_now s) (s_db s)).2).
    { intros r. apply update_leased. intros d Hq (_ & He & _). unfold _writer_filter in Hq. freflect. by rewrite running_not_ended in He. }
    destruct (_begin_download_output job (s_now s) (s_db s)) as [[[]|e] db]; (split; [done|]); apply (others_leased latency s); [done| |done| |done|];
      intros r _ Hle; right; exact (Hk r Hle).
  - split; [done|]. apply (others_leased latency s); [done|]. intros r _ Hle. right. cbn. unfold _close_download_output, st_bind.
    match goal with |- context [update_one Jobs ?q ?g (s_db s)] => assert (Hk : has (leased latency r) (update_one Jobs q g (s_db s)).2) end.
    { apply update_leased; [|done]. intros d _ Hld. unfold set_all. cbn [foldl fst snd]. eapply leased_ended; [exact Hld|by dget..|].
      rewrite (some_reader_entries _ d); [by destruct Hld as (_ & _ & ?)|]. unfold entries. by dget. }
    by destruct (update_one Jobs _ _ (s_db s)) as [[b|e] db'].
Qed.

Lemma other_inv latency s s' : 0 <= latency -> inv latency s -> other_step latency s s' -> inv latency s'.
Proof.
  intros Hlat Hi Hs. pose proof (inv_good _ _ Hi) as Hg. pose proof (other_changes _ _ _ Hg Hs) as Hch.
  destruct (other_readers _ _ _ Hlat Hi Hs) as [Ht Hr]. split; [by eapply changes_good|done|done|].
  intros d' i Hd Hid Hc. destruct (changes_cleaned _ _ _ Hch Hd Hc) as (d & Hin & Ei & Hcd).
  eapply (other_gone latency i s s' d'); [done|done| |done|done|by left]. apply (inv_cleaned _ _ Hi d); [done|congruence|done].
Qed.

(** ** The maintenance among the others *)

(** The job of the claim is finished, expired and claimed by [token], with no lease
    after [stamp]. *)
Definition mine (i : string) (stamp : Z) (token : string) (s : state) : Prop :=
  has (claimed i stamp token) (s_db s) /\ stamp <= s_now s.

(** A removal is safe: the job is claimed, the maintenance holds its lock, and
    nobody who may read still has more than [latency] left. *)
Definition safe (latency : Z) (e : removal) : Prop :=
  let s := rm_state e in
  has (claimed (rm_job e) (rm_stamp e) (rm_token e)) (s_db s) /\ s_locks s !! rm_job e = Some Cleaner
  /\ forall r, r ∈ s_readers s -> rd_job r = rm_job e -> over latency (s_now s) r.

Lemma mine_over latency i stamp token s : 0 <= latency -> inv latency s -> mine i stamp token s ->
  forall r, r ∈ s_readers s -> rd_job r = i -> over latency (s_now s) r.
Proof.
  intros Hlat Hi [(d & Hd & Hid & _ & _ & Hno) Hst] r Hr Hj. destruct (inv_readers _ _ Hi r Hr) as [Ho|(d' & Hd' & Hid' & _ & Hs)]; [done|].
  assert (d' = d) as ->.
  { apply (NoDup_map_eq (fun d : pydict => d.["id"]) (content (s_db s) Jobs)); [apply (inv_good _ _ Hi)|done|done|congruence]. }
  right. right. unfold some_reader in Hs. apply existsb_exists in Hs as (v & Hv & Hp). destruct v as [| | | | | | |e]; try done.
  apply andb_prop in Hp as [_ Ht].
  assert (Hg : time_gt e "expiresAt" stamp = false).
  { destruct (time_gt e "expiresAt" stamp) eqn:E; [|done]. enough (some_reader (fun e => time_gt e "expiresAt" stamp) d = true) by congruence.
    apply existsb_exists. by exists (PDict e). }
  revert Ht Hg. unfold time_ge, time_gt. destruct (e.["expiresAt"]); try done. rewrite Z.leb_le, Z.ltb_ge. lia.
Qed.

Variable latency : Z.
Hypothesis latency_ok : 0 <= latency.
(** What the others do is any sequence of their steps. *)
Hypothesis others_act : forall n s, rtc (other_step latency) s (others n s).

Abbreviation triple := (Interleave.triple (inv latency) (safe latency)).
Abbreviation stable := (Interleave.stable (inv latency) (other_step latency)).

Lemma awaits {A} (P : state -> Prop) (m : dbm A) (Q : result exn A -> state -> Prop) :
  stable P ->
  (forall s, inv latency s -> P s -> wp m (fun a db => inv latency (with_db s db) /\ Q a (with_db s db) /\ forall e, Q (Raise e) (with_db s db)) (s_db s)) ->
  (forall e s, inv latency s -> P s -> Q (Raise e) s) -> triple P (await m) Q.
Proof. intros Hst Hm He. apply (co_await _ _ (other_step latency)); [intros s s'; by apply other_inv|exact others_act|exact Hst|exact Hm|exact He]. Qed.

(** ** Stable assertions *)

Lemma stable_mine i stamp token : stable (mine i stamp token).
Proof.
  intros s s' Hi [Hc Hn] Hs. split.
  - eapply changes_claimed; [|done]. eapply other_changes; [exact (inv_good _ _ Hi)|exact Hs].
  - pose proof (other_now _ _ _ Hs). lia.
Qed.

Lemma stable_now t : stable (fun s => t <= s_now s).
Proof. intros s s' _ Ht Hs. pose proof (other_now _ _ _ Hs). lia. Qed.

(** The lock is ours and the directories of [paths] are gone. *)
Definition locked (i : string) (paths : list bool) (s : state) : Prop :=
  s_locks s !! i = Some Cleaner /\ forall b, b ∈ paths -> s_dirs s !! (b, i) <> Some Directory.

Lemma stable_locked i paths : stable (locked i paths).
Proof. intros s s' _ [Hl Hd] Hs. destruct (other_locked _ _ _ _ Hs Hl) as [Hl' Hd']. split; [done|]. intros b Hb. rewrite Hd'. auto. Qed.

Lemma stable_mine_gone i stamp token : stable (fun s => mine i stamp token s /\ gone i s).
Proof.
  intros s s' Hi [Hm Hg] Hs. pose proof (stable_mine i stamp token s s' Hi Hm Hs) as Hm'. split; [done|].
  destruct Hm' as [(d & Hd & Hc) _]. eapply (other_gone latency i s s' d); [exact (inv_good _ _ Hi)|done|done|done|by destruct Hc|].
  right. by apply claimed_ended in Hc.
Qed.

(** ** The operations of the maintenance *)

(** An update of rows by the maintenance. *)
Lemma maintain_update q f s :
  inv latency s -> (forall d, q d = true -> (f d).["id"] = d.["id"] /\ (f d).["status"] = d.["status"]) ->
  (forall d, entries d = [] -> entries (f d) = []) ->
  (forall d i, q d = true -> d ∈ content (s_db s) Jobs -> d.["id"] = PStr i -> cleaned (f d) -> cleaned d \/ gone i s) ->
  (forall r d, r ∈ s_readers s -> q d = true -> leased latency r d -> over latency (s_now s) r \/ leased latency r (f d)) ->
  wp (update_one Jobs q f) (fun a db => inv latency (with_db s db)
    /\ match a with
       | Ok true => exists l d r, content (s_db s) Jobs = l ++ d :: r /\ content db Jobs = l ++ f d :: r /\ q d = true
       | Ok false => db = s_db s
       | Raise _ => False
       end) (s_db s).
Proof.
  intros Hi Hf Hs Hc Hl. pose proof (update_one_cases q f (s_db s)) as Hcase. unfold wp.
  destruct (update_one Jobs q f (s_db s)) as [[[]|e] db]; [|subst; split; [by destruct s|done]|done].
  destruct Hcase as (l & d & r & E & E' & Hq). destruct (Hf d Hq) as [Hid Hst].
  assert (Hd : d ∈ content (s_db s) Jobs) by (rewrite E; apply elem_of_middle).
  split; [|by exists l, d, r]. split; cbn.
  - eapply swap_good; [apply (inv_good _ _ Hi)|done|done|done|]. intros [_ Hok] Hn. rewrite (job_ended_status d) by done.
    apply Hok. intros E0. by apply Hn, Hs.
  - apply (inv_tokens _ _ Hi).
  - intros r0 Hr0. destruct (inv_readers _ _ Hi r0 Hr0) as [Ho|(x & Hx & Hlx)]; [by left|]. rewrite E in Hx.
    apply elem_of_app in Hx as [Hx|[->|Hx]%elem_of_cons].
    + right. exists x. rewrite E'. split; [set_solver|done].
    + destruct (Hl r0 d Hr0 Hq Hlx) as [Ho|Hl']; [by left|right]. exists (f d). rewrite E'. split; [apply elem_of_middle|done].
    + right. exists x. rewrite E'. split; [set_solver|done].
  - intros x i Hx Hxi Hxc. rewrite E' in Hx. apply elem_of_app in Hx as [Hx|[->|Hx]%elem_of_cons].
    + apply (inv_cleaned _ _ Hi x); [rewrite E; set_solver|done|done].
    + rewrite Hid in Hxi. destruct (Hc d i Hq Hd Hxi Hxc) as [Hcd|Hg]; [by apply (inv_cleaned _ _ Hi d)|done].
    + apply (inv_cleaned _ _ Hi x); [rewrite E; set_solver|done|done].
Qed.

Lemma same_fields_leased d d' r : d'.["id"] = d.["id"] -> d'.["status"] = d.["status"] -> entries d' = entries d ->
  leased latency r d -> leased latency r d'.
Proof. intros E1 E2 E3 Hl. eapply leased_ended; [exact Hl|done|done|]. rewrite (some_reader_entries _ d) by done. by destruct Hl as (_ & _ & ?). Qed.

(** Claims given back. *)
Lemma release_keeps d : (release_claim d).["id"] = d.["id"] /\ (release_claim d).["status"] = d.["status"]
  /\ entries (release_claim d) = entries d /\ ~ cleaned (release_claim d).
Proof. unfold release_claim, cleaned, entries, set_all, unset_all. cbn [foldl fst snd]. dget. split_and!; [done..|]. by intros [_ ?]. Qed.

Lemma triple_release q (P : state -> Prop) : stable P -> (forall s db, P s -> P (with_db s db)) ->
  triple P (await (update_one Jobs q release_claim)) (fun _ s => P s).
Proof.
  intros Hst Hdb. apply awaits; [done| |by intros]. intros s Hi Hp.
  eapply wp_mono; [apply maintain_update; [done|..]|].
  - intros d _. by destruct (release_keeps d) as (-> & -> & _).
  - intros d E. by destruct (release_keeps d) as (_ & _ & -> & _).
  - intros d i _ _ _ Hc. by destruct (release_keeps d) as (_ & _ & _ & Hn).
  - intros r d _ _ Hl. right. destruct (release_keeps d) as (E1 & E2 & E3 & _). by eapply same_fields_leased.
  - intros a db [Hi' _]. split_and!; [done|by apply Hdb|intros _; by apply Hdb].
Qed.

Section path.
Variable stamp : Z.
Let T (s : state) : Prop := stamp <= s_now s.

Lemma triple_pull q : triple T (await (update_one Jobs q (pull_readers (fun e => time_le e "expiresAt" stamp)))) (fun _ s => T s).
Proof.
  apply awaits; [apply stable_now| |by intros]. intros s Hi Ht.
  eapply wp_mono; [apply maintain_update; [done|..]|].
  - intros d _. by rewrite !pull_get.
  - intros d E. by rewrite entries_pull, E.
  - intros d i _ _ _ Hc. left. revert Hc. unfold cleaned. by rewrite !pull_get.
  - intros r d _ _ Hl. destruct (decide (rd_deadline r <= s_now s + latency)) as [Hd|Hd]; [left; by right; right|right].
    apply pull_leased; [|done]. intros e [_ He]%andb_prop. revert He. unfold time_ge, time_le, T in *.
    destruct (e.["expiresAt"]); try done. rewrite Z.leb_le, Z.leb_gt. lia.
  - intros a db [Hi' _]. by split_and!.
Qed.

Lemma triple_claim i token : triple T (await (claim_cleanup (PStr i) stamp token))
  (fun a s => T s /\ (a = Ok true -> mine i stamp token s)).
Proof.
  apply awaits; [apply stable_now| |by intros]. intros s Hi Ht. unfold claim_cleanup.
  eapply wp_mono; [apply maintain_update; [done|..]|].
  - intros d _. unfold set_all. cbn [foldl fst snd]. by dget.
  - intros d. unfold entries, set_all. cbn [foldl fst snd]. by dget.
  - intros d j _ _ _ [_ Hc]. exfalso. revert Hc. unfold set_all. cbn [foldl fst snd]. by dget.
  - intros r d _ _ Hl. right. eapply same_fields_leased; [| | |exact Hl]; unfold entries, set_all; cbn [foldl fst snd]; by dget.
  - intros a db [Hi' Ha]. split_and!; [done|done| |done]. intros ->. destruct Ha as (l & d & r & _ & E' & Hq). split; [|done]. eexists. split; [cbn; rewrite E'; apply elem_of_middle|].
    apply andb_prop in Hq as [Hq Hno]. apply negb_true_iff in Hno. unfold candidate_job in Hq. freflect.
    unfold set_all. cbn [foldl fst snd]. split_and!; [by dget| | |].
    + match goal with H : active stamp d = true |- _ => revert H end. unfold active, finished, fld_in, fld, time_le. dget. done.
    + unfold held, fld. dget. by rewrite !bool_decide_eq_true_2.
    + rewrite (some_reader_entries _ d); [done|]. unfold entries. by dget.
Qed.

(** Steps on locks and directories. *)
Lemma inv_local s s' : inv latency s -> s_db s' = s_db s -> s_now s' = s_now s -> s_readers s' = s_readers s ->
  (forall i, gone i s -> gone i s') -> inv latency s'.
Proof.
  intros [Hg Ht Hr Hc] E1 E2 E3 Hgo. split; rewrite ?E1, ?E2, ?E3; [done..|]. intros d i Hd Hid Hcd. apply Hgo. by apply (Hc d).
Qed.

Lemma triple_try_lock i token : triple (fun s => mine i stamp token s) (try_lock i)
  (fun a s => match a with Ok true => mine i stamp token s /\ locked i [] s | Ok false => T s | Raise _ => False end).
Proof.
  eapply co_bind; [apply co_observe|by intros e s [[=] _]|]. intros [o|]; [by apply co_ret; intros s [_ [_ ?]]|].
  eapply co_bind; [apply co_change with (Q := fun s => mine i stamp token s /\ locked i [] s)|by intros e s [[=] _]|].
  - intros s Hi [_ Hm]. split; [|split; [done|]].
    + eapply inv_local; [exact Hi|done|done|done|]. intros j [Hd Hj]. split; [done|]. intros job. cbn. destruct (decide (i = j)) as [<-|Hn].
      * by rewrite lookup_insert_eq.
      * rewrite lookup_insert_ne by done. apply Hj.
    + split; cbn; [by rewrite lookup_insert_eq|]. by intros b ?%elem_of_nil.
  - intros u. apply co_ret. by intros s [_ ?].
Qed.

Lemma triple_unlock i (P Q : state -> Prop) : (forall s, P s -> Q (with_locks s (delete i (s_locks s)))) -> triple P (unlock i) (fun a s => a = Ok tt /\ Q s).
Proof.
  intros Hq. apply co_change. intros s Hi Hp. split; [|by apply Hq].
  eapply inv_local; [exact Hi|done|done|done|]. intros j [Hd Hj]. split; [done|]. intros job. cbn. destruct (decide (i = j)) as [<-|Hn].
  - by rewrite lookup_delete_eq.
  - rewrite lookup_delete_ne by done. apply Hj.
Qed.

(** The removal is safe when it starts and when it ends. *)
Lemma triple_remove b i token paths : triple (fun s => mine i stamp token s /\ locked i paths s) (_remove_export_tree (b, i) stamp token)
  (fun a s => mine i stamp token s /\ locked i (if a is Ok _ then b :: paths else paths) s).
Proof.
  intros r [Hi Hl] [Hm Hk]. unfold _remove_export_tree, step. cbn.
  assert (Hsafe : forall s, inv latency s -> mine i stamp token s /\ locked i paths s -> safe latency (Removal i stamp token s)).
  { intros s His [Hms Hks]. split_and!; [by destruct Hms|by destruct Hks|]. by eapply mine_over. }
  destruct (stable_others (inv latency) (other_step latency) (fun s s' => other_inv latency s s' latency_ok) others_act
    (fun s => mine i stamp token s /\ locked i paths s) (r_step r) (r_state r)) as [Hi' Hmk'];
    [apply stable_and; [apply stable_mine|apply stable_locked]|done|done|].
  set (s' := others (r_step r) (r_state r)) in *.
  assert (Hlog : Forall (safe latency) (Removal i stamp token s' :: Removal i stamp token (r_state r) :: r_log r)).
  { apply Forall_cons. split; [by apply Hsafe|]. apply Forall_cons. split; [by apply Hsafe|done]. }
  destruct (removes (r_step r)); [|split; [by split|by destruct Hmk']].
  assert (Hgood : inv latency (with_dirs s' (delete (b, i) (s_dirs s')))).
  { eapply inv_local; [exact Hi'|done|done|done|]. intros j [Hd Hj]. split; [|done]. intros b'. cbn.
    destruct (decide ((b, i) = (b', j))) as [<-|Hn]; [by rewrite lookup_delete_eq|]. rewrite lookup_delete_ne by done. apply Hd. }
  assert (Hq : forall l, (forall x, x ∈ l -> x = b \/ x ∈ paths) -> mine i stamp token (with_dirs s' (delete (b, i) (s_dirs s')))
    /\ locked i l (with_dirs s' (delete (b, i) (s_dirs s')))).
  { intros l Hin. destruct Hmk' as [Hm' [Hk' Hd']]. split; [done|]. split; [done|]. cbn. intros x Hx. destruct (decide (x = b)) as [->|Hn].
    - by rewrite lookup_delete_eq.
    - rewrite lookup_delete_ne by congruence. apply Hd'. by destruct (Hin x Hx). }
  destruct (outcome (r_step r)) as [[ap []]|]; (split; [by split|]); apply Hq; set_solver.
Qed.

Lemma swap_has (P : pydict -> Prop) l d d' r db db' : content db Jobs = l ++ d :: r -> content db' Jobs = l ++ d' :: r -> (P d -> P d') ->
  has P db -> has P db'.
Proof.
  intros E E' Hp (x & Hx & HP). rewrite E in Hx. apply elem_of_app in Hx as [Hx|[->|Hx]%elem_of_cons].
  - exists x. rewrite E'. split; [set_solver|done].
  - exists d'. rewrite E'. split; [apply elem_of_middle|auto].
  - exists x. rewrite E'. split; [set_solver|done].
Qed.

(** The evidence of a dead writer is closed. *)
Lemma triple_close_writer q i token now :
  triple (fun s => mine i stamp token s /\ locked i [] s)
    (await (update_one Jobs q
      (set_all [("outputExecutionState", CLOSED); ("outputWriterClosedAt", PTime (Aware now));
                ("outputWriterClosureReason", PStr "KERNEL_LOCK_RECOVERY")])))
    (fun _ s => mine i stamp token s /\ locked i [] s).
Proof.
  apply awaits; [apply stable_and; [apply stable_mine|apply stable_locked]| |by intros].
  intros s Hi [Hm Hk]. set (f := set_all _).
  assert (Hf : forall d, (f d).["id"] = d.["id"] /\ (f d).["status"] = d.["status"] /\ entries (f d) = entries d
    /\ (cleaned (f d) -> cleaned d) /\ held token (f d) = held token d /\ (active stamp d = true -> active stamp (f d) = true)).
  { intros d. unfold f, entries, cleaned, held, active, finished, fld_in, fld, time_le, set_all. cbn [foldl fst snd]. dget.
    split_and!; [done..|]. cbn. intros Ha. freflect. repeat match goal with H : ?x = true |- context [?x] => rewrite H end. done. }
  eapply wp_mono; [apply (maintain_update q f); [done|..]|].
  - intros d _. by destruct (Hf d) as (-> & -> & _).
  - intros d E. by destruct (Hf d) as (_ & _ & -> & _).
  - intros d j _ _ _ Hc. left. by apply (Hf d).
  - intros r d _ _ Hl. right. destruct (Hf d) as (E1 & E2 & E3 & _). by eapply same_fields_leased.
  - intros a db [Hi' Ha]. assert (Hmk : mine i stamp token (with_db s db) /\ locked i [] (with_db s db)); [|split; [done|]; split; [done|by intros _]].
    split; [|done]. destruct Hm as [Hc Hn]. split; [|done]. destruct a as [[]|e]; [|by subst|done]. destruct Ha as (l & d & r & E & E' & _).
    eapply swap_has; [exact E|exact E'| |exact Hc]. intros (H1 & H2 & H3 & H4). destruct (Hf d) as (E1 & E2 & E3 & _ & E5 & E6).
    split_and!; [congruence|auto|congruence|by rewrite (some_reader_entries _ d)].
Qed.

Lemma triple_remove_locked job i scratch token : job.["id"] = PStr i ->
  triple (fun s => mine i stamp token s /\ locked i [] s) (remove_locked job scratch stamp token)
    (fun a s => mine i stamp token s /\ locked i (if a is Ok true then [true; false] else []) s).
Proof.
  intros Hj. assert (Hless : forall l s, mine i stamp token s /\ locked i l s -> mine i stamp token s /\ locked i [] s).
  { intros l s [? [? _]]. split; [done|]. split; [done|]. by intros b ?%elem_of_nil. }
  unfold remove_locked. rewrite Hj. change (text (PStr i)) with i.
  eapply co_bind; [apply co_observe|by intros e s [[=] _]|].
  intros now. eapply co_bind with (R := fun _ s => mine i stamp token s /\ locked i [] s); [|by intros|].
  { eapply co_weaken with (P := fun s => mine i stamp token s /\ locked i [] s) (Q := fun _ s => mine i stamp token s /\ locked i [] s); [|by intros s [_ ?]|done].
    destruct (fld job "outputExecutionState" WRITING); [apply triple_close_writer|by apply co_ret]. }
  intros []; cbn [negb]; [|by apply co_ret].
  eapply co_bind; [apply (triple_remove scratch i token [])|intros e s; apply Hless|]. intros [].
  eapply co_bind with (R := fun a s => a = Ok (s_dirs s !! (negb scratch, i)) /\ mine i stamp token s /\ locked i [scratch] s).
  { apply co_observe. }
  { by intros e s [[=] _]. }
  intros entry.
  eapply co_bind with (R := fun a s => mine i stamp token s /\ locked i (if a is Ok _ then [negb scratch; scratch] else [scratch]) s);
    [|intros e s; apply Hless|].
  - destruct entry as [[]|].
    + eapply co_weaken; [apply (triple_remove (negb scratch) i token [scratch])|by intros s (_ & ?)|done].
    + apply co_ret. intros s ([= E] & Hm & Hk & Hd). split; [done|]. split; [done|].
      intros b [->|Hb]%elem_of_cons; [by rewrite <- E|auto].
    + apply co_ret. intros s ([= E] & Hm & Hk & Hd). split; [done|]. split; [done|].
      intros b [->|Hb]%elem_of_cons; [by rewrite <- E|auto].
  - intros u. apply co_ret. intros s [Hm [Hk Hd]]. split; [done|]. split; [done|]. intros b _. apply Hd. destruct b, scratch; set_solver.
Qed.

(** The mark CLEANED. *)
Lemma triple_mark q i token now : (forall d, q d = true -> d.["id"] = PStr i) ->
  triple (fun s => mine i stamp token s /\ gone i s)
    (await (update_one Jobs q (set_all [("outputCleanupState", CLEANED); ("outputCleanedAt", PTime (Aware now))])))
    (fun _ s => T s).
Proof.
  intros Hq. apply awaits; [apply stable_mine_gone| |by intros e s _ [[_ ?] _]].
  intros s Hi [Hm Hg]. set (f := set_all _).
  assert (Hf : forall d, (f d).["id"] = d.["id"] /\ (f d).["status"] = d.["status"] /\ entries (f d) = entries d).
  { intros d. unfold f, entries, set_all. cbn [foldl fst snd]. by dget. }
  eapply wp_mono; [apply (maintain_update q f); [done|..]|].
  - intros d _. by destruct (Hf d) as (-> & -> & _).
  - intros d E. by destruct (Hf d) as (_ & _ & ->).
  - intros d j Hd _ Hid _. right. rewrite (Hq d Hd) in Hid. by injection Hid as <-.
  - intros r d _ _ Hl. right. destruct (Hf d) as (E1 & E2 & E3). by eapply same_fields_leased.
  - intros a db [Hi' _]. destruct Hm as [_ Hn]. by split_and!.
Qed.

Lemma triple_claim_and_remove job i scratch token : job.["id"] = PStr i ->
  triple T (claim_and_remove job scratch stamp token) (fun _ s => T s).
Proof.
  intros Hj. unfold claim_and_remove. rewrite Hj. change (text (PStr i)) with i.
  eapply co_bind; [apply triple_claim|by intros e s [? _]|].
  intros []; cbn [negb]; [|by apply co_ret; intros s [? _]].
  eapply co_bind; [eapply co_weaken; [apply (triple_try_lock i token)|by intros s [_ Hm]; apply Hm|by intros a s Ha; exact Ha]|by intros|].
  intros []; cbn [negb]; [|by apply co_ret].
  eapply co_bind with (R := fun a s => (if a is Ok true then mine i stamp token s /\ gone i s else T s)); [| by intros|].
  - eapply co_attempt; [apply triple_remove_locked; exact Hj|]. intros a.
    eapply co_bind; [apply (triple_unlock i _ (fun s => if a is Ok true then mine i stamp token s /\ gone i s else T s))| |].
    + intros s [Hm [Hk Hd]]. destruct a as [[]|e]; [|by destruct Hm|by destruct Hm]. split; [done|]. split; cbn.
      * intros b. apply Hd. destruct b; set_solver.
      * intros job'. by rewrite lookup_delete_eq.
    + by intros e s [? _].
    + intros u. destruct a as [b|e]; [apply co_ret|apply co_raise]; by intros s [_ ?].
  - intros []; cbn [negb]; [|by apply co_ret].
    eapply co_bind; [apply co_observe|by intros e s [[=] _]|]. intros now.
    eapply co_bind; [eapply co_weaken; [apply (triple_mark _ i token now)|by intros s [_ ?]|by intros a s Ha; exact Ha]|by intros|].
    + intros d Hd. freflect. congruence.
    + intros b. by apply co_ret.
Qed.

Lemma triple_clean_path job i scratch : job.["id"] = PStr i -> triple T (clean_path job scratch stamp) (fun _ s => T s).
Proof.
  intros Hj. unfold clean_path. eapply co_bind with (R := fun _ s => T s); [by intros r Hg Hp|by intros|]. intros [[]|]; [|by apply co_ret..].
  eapply co_attempt; [apply triple_pull|]. intros [b|e]; [|destruct (is_cancelled e); [by apply co_raise|by apply co_ret]].
  assert (Hrel : forall token, triple T (release_own job stamp token) (fun _ s => T s)).
  { intros token. eapply co_bind; [apply (triple_release _ T); [apply stable_now|done]|by intros|]. intros u. by apply co_ret. }
  enough (Hall : forall token, triple T (clean_with token job scratch stamp) (fun _ s => T s))
    by (intros r Hg Hp; exact (Hall (fresh (r_step r)) r Hg Hp)).
  intros token. eapply co_attempt; [by apply (triple_claim_and_remove job i)|].
  intros [[]|e]; [by apply co_ret| |].
  - eapply co_bind; [apply Hrel|by intros|]. intros u. by apply co_ret.
  - eapply co_bind; [apply Hrel|by intros|]. intros u. destruct (is_cancelled e); [by apply co_raise|by apply co_ret].
Qed.

Lemma triple_clean_jobs page : (forall job, job ∈ page -> exists i, job.["id"] = PStr i) -> triple T (clean_jobs page stamp) (fun _ s => T s).
Proof.
  induction page as [|job page IH]; intros Hp; cbn [clean_jobs]; [by apply co_ret|]. destruct (Hp job) as [i Hi]; [by left|].
  eapply co_bind; [by apply (triple_clean_path job i)|by intros|]. intros a.
  eapply co_bind; [by apply (triple_clean_path job i)|by intros|]. intros b.
  eapply co_bind; [apply IH; intros j Hj; apply Hp; by right|by intros|]. intros n. by apply co_ret.
Qed.
End path.

(** ** The maintenance is safe *)

Lemma inv_rows s db : inv latency s -> content db Jobs = content (s_db s) Jobs -> inv latency (with_db s db).
Proof.
  intros [[Hn Hs] Ht Hr Hc] E. split; cbn; [split; unfold ids; by rewrite E|done| |by rewrite E].
  intros r Hin. destruct (Hr r Hin) as [?|(d & ? & ?)]; [by left|right; exists d; by rewrite E].
Qed.

Lemma triple_read {A} (t : Z) (m : dbm A) (Q : A -> Prop) :
  (forall db, good_rows db -> wp m (fun a db' => content db' Jobs = content db Jobs /\ forall x, a = Ok x -> Q x) db) ->
  triple (fun s => t <= s_now s) (await m) (fun a s => t <= s_now s /\ forall x, a = Ok x -> Q x).
Proof.
  intros Hm. apply awaits; [apply stable_now| |by intros].
  intros s Hi Ht. eapply wp_mono; [apply Hm; exact (inv_good _ _ Hi)|]. intros a db [E Hq]. split; [by apply inv_rows|].
  split; [by split|]. by intros e.
Qed.

Lemma triple_rows t q : triple (fun s => t <= s_now s) (await (find_all Jobs q))
  (fun a s => t <= s_now s /\ forall l, a = Ok l -> forall d, d ∈ l -> exists i, d.["id"] = PStr i).
Proof.
  apply triple_read. intros db [_ Hs]. apply wp_find_all. intros l Hl. split; [done|]. intros l' [= <-] d Hd.
  rewrite Hl in Hd. apply list_elem_of_filter in Hd as [_ Hd]. by destruct (Hs d Hd).
Qed.

Lemma triple_release_each rows t : triple (fun s => t <= s_now s) (release_each rows t) (fun _ s => t <= s_now s).
Proof.
  induction rows as [|job rows IH]; cbn [release_each]; [by apply co_ret|].
  eapply co_bind; [apply (triple_release _ (fun s => t <= s_now s)); [apply stable_now|done]|by intros|]. by intros b.
Qed.

Lemma triple_bookmark t v : triple (fun s => t <= s_now s) (await (set_bookmark v)) (fun _ s => t <= s_now s).
Proof.
  eapply co_weaken; [apply (triple_read t _ (fun _ => True))|done|by intros a s [? _]].
  intros db _. unfold set_bookmark, upsert_one. apply wp_bind, wp_update_one; cbn [on_ok].
  - intros d db' (_ & _ & Ho). apply wp_ret. split; [by apply Ho|done].
  - intros _. apply wp_insert; [|done]. intros db' _ _ Ho. split; [by apply Ho|done].
Qed.

Lemma date_id_order_elem field l d : d ∈ take EXPORT_CLEANUP_BATCH_SIZE (date_id_order field l) -> d ∈ l.
Proof.
  intros Hd. apply elem_of_take in Hd as (k & Hk & _). apply list_elem_of_lookup_2 in Hk.
  unfold date_id_order in Hk. by rewrite sort_by_perm in Hk.
Qed.

Lemma triple_cleanup linked : triple (fun _ => True) (cleanup_exports linked) (fun _ _ => True).
Proof.
  unfold cleanup_exports. destruct linked; [by apply co_ret|].
  eapply co_bind with (R := fun a s => forall t, a = Ok t -> t <= s_now s); [intros r Hg _; split; [done|]; by intros t [= <-]|done|].
  intros stamp. eapply co_bind with (R := fun _ s => stamp <= s_now s); [|done|].
  { eapply co_weaken with (P := fun s => stamp <= s_now s) (Q := fun _ s => stamp <= s_now s); [|intros s Hs; by apply Hs|done].
    eapply co_bind; [apply triple_rows|by intros e s [? _]|]. intros rows.
    eapply co_weaken; [apply triple_release_each|by intros s [? _]|done]. }
  intros u. eapply co_bind with (R := fun _ s => stamp <= s_now s); [|done|].
  { eapply co_weaken; [apply (triple_read stamp _ (fun _ => True))|done|by intros a s [? _]].
    intros db _. apply wp_find_one; by intros. }
  intros row. eapply co_bind; [apply triple_rows|done|]. intros found.
  destruct (last _) as [job|]; (eapply co_bind with (R := fun _ s => stamp <= s_now s); [|done|]).
  - intros r Hg [Ht Hids]. apply triple_clean_jobs; [|done|done]. intros d Hd. eapply Hids; [done|]. by eapply date_id_order_elem.
  - intros n. eapply co_bind; [apply triple_bookmark|done|]. intros []. by apply co_ret.
  - eapply co_weaken; [apply triple_bookmark|by intros s [? _]|by intros a s Ha].
  - intros n. by apply co_ret.
Qed.

(** C24: export files are removed only when no lease on them is live.  Whatever
    executors, readers and the other operations on jobs do at every `await` of one
    round of the maintenance, and whichever of its own operations fail, applied or
    not: when a removal starts and when it ends, the job is finished, past its expiry
    and claimed by this round, the maintenance holds the kernel lock of its writers,
    and a reader whose own check still passes has at most [latency] left: the time
    that the write of its lease took, because the code dates the deadline after that
    write ([late_reader_still_reads] shows such a reader).  When the writes of leases
    take no time, no reader may still read.  Every job marked CLEANED has no directory
    left. *)
Theorem export_removal_safe linked s :
  inv latency s ->
  let '(_, r) := cleanup_exports linked (Run s [] 0) in
  (forall e, e ∈ r_log r ->
     let s' := rm_state e in
     (exists d, d ∈ content (s_db s') Jobs /\ d.["id"] = PStr (rm_job e) /\ active (rm_stamp e) d = true
                /\ held (rm_token e) d = true)
     /\ s_locks s' !! rm_job e = Some Cleaner
     /\ forall reader, reader ∈ s_readers s' -> rd_job reader = rm_job e -> assert_active reader (s_now s') = true ->
          rd_closed reader = true \/ rd_deadline reader <= s_now s' + latency)
  /\ inv latency (r_state r)
  /\ forall d i, d ∈ content (s_db (r_state r)) Jobs -> d.["id"] = PStr i -> d.["nodeId"] = node ->
       d.["outputCleanupState"] = CLEANED -> forall scratch, s_dirs (r_state r) !! (scratch, i) <> Some Directory.
Proof.
  intros Hi. pose proof (triple_cleanup linked (Run s [] 0)) as Ht. destruct (cleanup_exports linked (Run s [] 0)) as [a r].
  destruct Ht as [[Hi' Hl] _]; [by split|done|]. split_and!; [|done|].
  - intros e He. rewrite Forall_forall in Hl. destruct (Hl e He) as ((d & Hd & Hid & Ha & Hh & _) & Hk & Hr). split_and!; [by exists d|done|].
    intros rd Hin Hj Hact. destruct (Hr rd Hin Hj) as [?|[Hinv|?]]; [by left| |by right]. unfold assert_active in Hact. by rewrite Hinv in Hact.
  - intros d i Hd Hid Hn Hc. by apply (inv_cleaned _ _ Hi' d i Hd Hid).
Qed.
End interleaving.
End exports.

(** ** Witness: an expired export with an expired reader; a new reader comes while
    the claim is held *)

#[local] Existing Instance list_mongo.
#[local] Existing Instance list_mongo_laws.

Definition export_job : pydict :=
  [("id", PStr "j"); ("nodeId", PStr "n"); ("kind", DOWNLOAD); ("status", SUCCEEDED); ("expiresAt", PTime (Aware 10));
   ("outputExecutionState", CLOSED); ("outputWriterNodeId", PStr "n"); ("outputLockProtocol", PInt 1); ("outputCleanupState", IDLE);
   ("outputReaders", PList [PDict [("id", PStr "r"); ("expiresAt", PTime (Aware 15))]])].

Definition export_state : state :=
  State (fun c => match c with Jobs => [export_job] | _ => [] end) 20
    (<[(false, "j") := Directory]> (<[(true, "j") := Directory]> ∅)) ∅ [Reader "j" "r" 15 false false].

(** Before the lock is taken another reader asks for a lease. *)
Definition late_reader (n : nat) (s : state) : state :=
  if decide (n = 5%nat /\ Forall (fun r => rd_id r <> "q") (s_readers s)) then
    match acquire_claim "n" "j" "q" (s_now s) (s_db s) with
    | (Ok true, db) => with_readers s db (Reader "j" "q" (lease_of (s_now s)) false false :: s_readers s)
    | (_, db) => with_db s db
    end
  else s.

#[local] Instance late_environment : Environment state := { others := late_reader; outcome _ := None }.

Definition export_run := cleanup_exports "n" (fun _ => "t") (fun _ => true) false (Run export_state [] 0).

Lemma export_removal_safe_witness :
  inv "n" 0 (r_state export_run.2) /\ length (r_log export_run.2) = 4%nat
  /\ map (fun d => d.["outputCleanupState"]) (content (s_db (r_state export_run.2)) Jobs) = [CLEANED].
Proof.
  assert (Hi : inv "n" 0 export_state).
  { split.
    - split; [apply NoDup_singleton|]. intros d ->%list_elem_of_singleton. split; [by exists "j"|done].
    - apply NoDup_singleton.
    - intros r ->%list_elem_of_singleton. left. right. right. cbn. lia.
    - intros d i ->%list_elem_of_singleton _ [_ Hc]. done. }
  assert (Hothers : forall n s, rtc (other_step "n" 0) s (late_reader n s)).
  { intros n s. unfold late_reader. destruct (decide _) as [[_ Hf]|_]; [|apply rtc_refl].
    apply rtc_once, Reader_claims; [lia|]. by rewrite Forall_forall in Hf. }
  pose proof (export_removal_safe "n" (fun _ => "t") (fun _ => true) 0 ltac:(lia) Hothers false export_state Hi) as Ht.
  fold export_run in Ht. destruct export_run as [a r] eqn:E. destruct Ht as (_ & Hinv & _).
  assert (E2 : r = export_run.2) by (by rewrite E). split; [exact Hinv|]. subst r. split; by vm_compute.
Defined.

(** A reader whose lease took five seconds to write: 91 seconds after the lease was
    dated its files are claimed for removal, and its own check still passes. *)
Definition idle_export : pydict := dict_set export_job "outputReaders" (PList []).

Example late_reader_still_reads :
  let '(acquired, db) := acquire "n" "j" "q" 0 (5 * US_PER_SECOND) (fun c => match c with Jobs => [idle_export] | _ => [] end) in
  let later := 91 * US_PER_SECOND in
  (claim_cleanup "n" (PStr "j") later "t" db).1 = Ok true
  /\ match acquired with Ok r => assert_active r later = true | Raise _ => False end.
Proof. vm_compute. done. Qed.
