(* ===== verification/Retention.v ===== *)
(** * Retention of archives ([logs/maintenance.py], [apply_retention])

    The maintenance of a node deletes archives whose hour is past the retention
    period.  Submissions of jobs, operations on jobs, publications of archives and
    the maintenance of other nodes act at every `await`.  A path of the catalogue
    is absolute; [resolve] is `Path.resolve`.  Directories are not part of the
    state: the removal of empty ones changes nothing here. *)

From stdpp Require Import gmap sets strings.
From S2P Require Import Prelude PyTime PyValue Ordering IsoTime FileOrder Mongo Ownership Commands Idempotency Jobs JobRows Submission Interleave.
Open Scope camera_scope.

Definition DELETING := PStr "DELETING".
Definition STOPPED_ := PStr "STOPPED".

(** ** Names of archives *)

(** The last component of a path, reversed. *)
Fixpoint last_name (cur l : list Ascii.ascii) : list Ascii.ascii :=
  match l with
  | [] => cur
  | c :: l => if Ascii.eqb c (Ascii.ascii_of_nat 47) then last_name [] l else last_name (c :: cur) l
  end.

(** `path.suffixes[-2:] == [".tar", ".gz"]`: leading dots belong to the stem. *)
Definition tar_gz (path : string) : bool :=
  let name := last_name [] (String.list_ascii_of_string path) in
  let suffix := rev (String.list_ascii_of_string ".tar.gz") in
  bool_decide (take 7 name = suffix) && existsb (fun c => negb (Ascii.eqb c (Ascii.ascii_of_nat 46))) (drop 7 name).

Example tar_gz_examples :
  map tar_gz ["/logs/a/06.tar.gz"; "/logs/a.tar.gz/06.log"; "/logs/.tar.gz"; "/logs/..tar.gz"; "/logs/x..tar.gz"; "tar.gz"]
  = [true; false; false; false; true; false].
Proof. reflexivity. Qed.

(** ** Conditions *)

(** `{"hour": {"$lt": utc_iso(cutoff)}}`. *)
Definition hour_before (cutoff : Z) (d : pydict) : bool :=
  match d.["hour"] with PStr h => negb (str_leb (utc_iso cutoff) h) | _ => false end.

Definition files_of (job : pydict) : list pydict :=
  match job.["files"] with PList l => omap (fun v => match v with PDict f => Some f | _ => None end) l | _ => [] end.

(** `{"files.id": id}`. *)
Definition freezes (id : pyval) (job : pydict) : bool := existsb (fun f => fld f "id" id) (files_of job).

Definition unfinished (job : pydict) : bool := fld_in job "status" [QUEUED; RUNNING_JOB].

(** `{"$or": [{"retainUntil": None}, {"retainUntil": {"$lte": stamp}}]}`. *)
Definition unprotected (stamp : Z) (d : pydict) : bool := fld d "retainUntil" PNone || time_le d "retainUntil" stamp.

Section retention.
Context `{FromIso} `{Mongo}.
Variable node_id : string.
Variable default_days : Z.
Variable log_root : string.
Variable resolve : string -> string.
Let node : pyval := PStr node_id.

(** ** State *)

Record state := State { s_db : database; s_now : Z; s_disk : gset string }.
Definition with_db (s : state) (db : database) : state := State db (s_now s) (s_disk s).

#[export] Instance state_world : World state := {| rows := s_db; with_rows := with_db |}.

(** An archive is unlinked in a state. *)
Inductive event := Unlinked (path : string) (s : state).

Context `{!Environment state}.
Abbreviation wm := (stm (run state event) exn).

Definition clock : wm Z := observe s_now.

(** The days that a row of the platform's settings gives; the default without one
    or when the value is no integer of the range. *)
Definition configured_days (found : option pydict) : Z :=
  let value := match found with Some d => d.["retentionDays"] | None => PInt default_days end in
  let days := match value with PInt n => n | PBool b => if b then 1 else 0 | _ => 0 end in
  if (1 <=? days) && (days <=? 3650) then days else default_days.

Definition platform_row (d : pydict) : bool := fld d "id" (PStr "platform").

(** [get_retention_days]. *)
Definition get_retention_days : dbm Z :=
  let! found := find_one PlatformSettings platform_row in
  st_ret (configured_days found).

(** [_contained]. *)
Definition _contained (path : string) : result exn string :=
  let value := resolve path in
  if String.prefix (log_root ++ "/") value then Ok value else Raise (ValueError "archive path is outside log root").

Definition lift {A} (r : result exn A) : wm A := match r with Ok a => st_ret a | Raise e => st_raise e end.

(** [_pending_path] and the pending catalogue entry. *)
Definition has_pending (path : string) (s : state) : bool :=
  bool_decide (resolve (path ++ ".pending.json") ∈ s_disk s) || bool_decide (resolve (path ++ ".catalog.pending.json") ∈ s_disk s).

(** ** One archive *)

(** The part of the check that needs the hour: comparing it with a text raises
    unless it is one; a missing hour is not old. *)
Definition past_cutoff (cutoff : Z) (member : pydict) : result exn bool :=
  match dict_lookup member "hour" with
  | None => Ok false
  | Some (PStr _) => Ok (hour_before cutoff member)
  | Some _ => Raise TypeError
  end.

Definition retained_now (stamp : Z) (member : pydict) : bool :=
  match member.["retainUntil"] with PNone => false | PTime t => stamp <? utc_instant t | _ => true end.

(** The task of a file of a development clean-up has to be gone for good. *)
Definition removed_task (id : pyval) (d : pydict) : bool :=
  fld d "id" id && fld d "resourceDeleted" (PBool true) && fld d "status" STOPPED_ && fld d "desiredState" STOPPED_ && fld d "nodeId" PNone.

Definition development_ok (development : option (list string)) (member : pydict) : wm bool :=
  match development with
  | None => st_ret true
  | Some ids =>
      let! task := await (find_one Tasks (removed_task member.["taskId"])) in
      st_ret (bool_decide (member.["id"] ∈ map PStr ids) && match task with Some _ => true | None => false end)
  end.

(** The body of the loop over the members of an archive. *)
Definition eligible_member (development : option (list string)) (cutoff : Z) (member : pydict) : wm bool :=
  let! ok := development_ok development member in
  if negb ok then st_ret false
  else if negb (fld member "nodeId" node && fld_in member "status" [READY; DELETING]) then st_ret false
  else if negb (fld member "status" READY) then st_ret true
  else
    let! old := lift (past_cutoff cutoff member) in
    if negb old then st_ret false
    else
      let! stamp := clock in
      if retained_now stamp member then st_ret false
      else
        let! active := await (find_one Jobs (fun d => unfinished d && freezes member.["id"] d)) in
        st_ret (match active with Some _ => false | None => true end).

Fixpoint eligible_group (development : option (list string)) (cutoff : Z) (group : list pydict) : wm bool :=
  match group with
  | [] => st_ret true
  | member :: group =>
      let! ok := eligible_member development cutoff member in
      if ok then eligible_group development cutoff group else st_ret false
  end.

(** The claim of a member. *)
Definition claim_filter (id : pyval) (stamp : Z) (d : pydict) : bool := fld d "id" id && fld d "status" READY && unprotected stamp d.
Definition claim_fields (stamp : Z) (d : pydict) : pydict :=
  set_all [("status", DELETING); ("retentionClaimedAt", PTime (Aware stamp))] d.

Fixpoint claim_group (group : list pydict) : wm bool :=
  match group with
  | [] => st_ret true
  | member :: group =>
      if negb (fld member "status" READY) then claim_group group
      else
        let! stamp := clock in
        let! claimed := await (update_one Files (claim_filter member.["id"] stamp) (claim_fields stamp)) in
        if claimed then claim_group group else st_ret false
  end.

(** `unlink(missing_ok=True)` in a thread. *)
Definition unlink (archive : option string) (path : string) : wm unit :=
  perform (fun s => match archive with Some text => [Unlinked text s] | None => [] end)
    (fun s => State (s_db s) (s_now s) (s_disk s ∖ {[path]})).

(** The side files of an archive and of its members. *)
Fixpoint side_files (members : list pydict) : result exn (list string) :=
  match members with
  | [] => Ok []
  | d :: members =>
      first ← (if truthy d.["indexPath"] then match d.["indexPath"] with PStr p => p' ← _contained p; Ok [p'] | _ => Raise TypeError end else Ok []);
      rest ← side_files members; Ok (first ++ rest)
  end.

(** `asyncio.gather`: all are unlinked, then the first exception is raised. *)
Fixpoint unlink_all (paths : list string) : wm unit :=
  match paths with
  | [] => st_ret tt
  | path :: paths =>
      attempt (unlink None path) (fun a =>
        let! _ := unlink_all paths in match a with Ok _ => st_ret tt | Raise e => st_raise e end)
  end.

(** The `try` of a claimed archive: the number of rows removed. *)
Definition remove_archive (text : string) (group : list pydict) : wm Z :=
  let! path := lift (_contained text) in
  if negb (tar_gz path) then st_raise (ValueError "retention only deletes published archives")
  else
    let! _ := unlink (Some text) path in
    let! sides := lift (side_files group) in
    let! _ := unlink_all ([(path ++ ".metadata.json")%string; (path ++ ".search.sqlite")%string; (path ++ ".catalog.pending.json")%string] ++ sides) in
    await (delete_many Files (fun d => fld d "path" (PStr path) && fld d "status" DELETING)).

(** Removed, skipped, failures. *)
Record counts := Counts { removed : Z; skipped : Z; failures : Z }.
Definition skip : counts := Counts 0 1 0.

Definition in_archive (text : string) (d : pydict) : bool := fld d "path" (PStr text).

(** The `except` of a removal that fails. *)
Definition note_failure (text : string) : wm counts :=
  let! stamp := clock in
  let! _ := await (update_many Files (fun d => in_archive text d && fld d "status" DELETING)
                     (set_all [("retentionErrorAt", PTime (Aware stamp))])) in
  st_ret (Counts 0 0 1).

(** From the claims of an eligible archive to its removal. *)
Definition claim_and_remove_archive (text : string) (group : list pydict) : wm counts :=
  let! claimed := claim_group group in
  if negb claimed then st_ret skip
  else
    let! claimed_group := await (find_all Files (in_archive text)) in
    if match claimed_group with [] => true | _ => existsb (fun d => negb (fld d "status" DELETING)) claimed_group end then st_ret skip
    else
      attempt (remove_archive text claimed_group) (fun a =>
        match a with
        | Ok n => st_ret (Counts n 0 0)
        | Raise e => if is_cancelled e then st_raise e else note_failure text
        end).

(** The body of the loop over the candidates. *)
Definition retain_archive (development : option (list string)) (cutoff : Z) (document : pydict) : wm counts :=
  let text := text document.["path"] in
  let! pending := observe (has_pending text) in
  if pending then st_ret skip
  else
    let! group := await (find_all Files (in_archive text)) in
    let! eligible := (match group with [] => st_ret false | _ => eligible_group development cutoff group end) in
    if eligible then claim_and_remove_archive text group else st_ret skip.

Fixpoint retain_archives (development : option (list string)) (cutoff : Z) (documents : list pydict) : wm counts :=
  match documents with
  | [] => st_ret (Counts 0 0 0)
  | document :: documents =>
      let! a := retain_archive development cutoff document in
      let! b := retain_archives development cutoff documents in
      st_ret (Counts (removed a + removed b) (skipped a + skipped b) (failures a + failures b))
  end.

Definition candidates (development : option (list string)) (cutoff : Z) (d : pydict) : bool :=
  fld d "nodeId" node && (fld d "status" READY && hour_before cutoff d || fld d "status" DELETING)
  && match development with None => true | Some ids => fld_in d "id" (map PStr ids) end.

(** [apply_retention]. *)
Definition apply_retention (development : option (list string)) : wm counts :=
  let! stamp := clock in
  let! cutoff := (match development with
    | Some _ => st_ret stamp
    | None => let! days := await get_retention_days in st_ret (stamp - days * US_PER_DAY - US_PER_HOUR)
    end) in
  let! documents := await (find_all Files (candidates development cutoff)) in
  retain_archives development cutoff documents.
End retention.

(** ** What the others do *)

(** The fields of a job that decide whether it still needs its files. *)
Definition frozen_keys : list string := ["files"; "executionExpiresAt"].

Section others.
Context `{FromIso} `{Mongo}.
Variable shanghai : zone.
Variable from_shanghai : Z -> Z.
Variable node : pyval.
(** The hour of a file is part of its identity ([logs/catalog_identity.py]). *)
Variable hour_of : pyval -> pyval.
Variable default_days : Z.
(** The retention period in days: the settings never give less. *)
Variable period : Z.
(** The files that development clean-ups were given. *)
Variable released : pyval -> Prop.

Definition keeps_period (db : database) : Prop :=
  forall d, d ∈ content db PlatformSettings -> platform_row d = true -> period <= configured_days default_days (Some d).

(** A file may be claimed under a cutoff: it is past the retention period and one
    hour, or a development clean-up was given it. *)
Definition allows (now cutoff : Z) (id : pyval) : Prop :=
  cutoff <= now - (period * US_PER_DAY + US_PER_HOUR) \/ released id /\ cutoff <= now.

(** No row of this node with the path is being deleted. *)
Definition free_path (db : database) (path : pyval) : Prop :=
  forall d, d ∈ content db Files -> d.["path"] = path -> d.["nodeId"] = node -> d.["status"] <> DELETING.

(** Publication of an archive: a usable row gets new fields; the path of a row that
    is READY stays. *)
Definition published (db : database) (d d' : pydict) : Prop :=
  d'.["id"] = d.["id"] /\ d'.["hour"] = d.["hour"] /\ d'.["nodeId"] = d.["nodeId"] /\ usable d = true /\ usable d' = true
  /\ (forall t, time_ge d "retainUntil" t = true -> time_ge d' "retainUntil" t = true)
  /\ (d.["status"] = READY -> d'.["status"] = READY /\ d'.["path"] = d.["path"])
  /\ (d'.["path"] = d.["path"] \/ d'.["nodeId"] <> node \/ free_path db d'.["path"]).

(** Other nodes claim and delete where this node has no row: their check of the
    members and the write are one step here. *)
Inductive other_step (s : state) : state -> Prop :=
  | Time_passes now : s_now s <= now -> other_step s (State (s_db s) now (s_disk s))
  | Disk_changes disk : other_step s (State (s_db s) (s_now s) disk)
  | Submits who key digest id kind b ts f readable : ts <= s_now s ->
      other_step s (with_db s (submit_job shanghai from_shanghai who key digest id kind b ts f readable (s_db s)).2)
  | Job_operation db : row_operation frozen_keys (s_db s) db -> other_step s (with_db s db)
  | Publishes db d d' l r : published (s_db s) d d' -> content (s_db s) Files = l ++ d :: r -> content db Files = l ++ d' :: r ->
      frame [Files] (s_db s) db -> other_step s (with_db s db)
  | Registers d : usable d = true -> d.["hour"] = hour_of d.["id"] -> (d.["nodeId"] <> node \/ free_path (s_db s) d.["path"]) ->
      other_step s (with_db s (insert_one Files d (s_db s)).2)
  | Sets_period db : frame [PlatformSettings] (s_db s) db -> keeps_period db -> other_step s (with_db s db)
  | Claims_elsewhere id stamp cutoff : stamp <= s_now s -> allows (s_now s) cutoff id ->
      (forall d, d ∈ content (s_db s) Files -> d.["id"] = id -> hour_before cutoff d = true /\ d.["nodeId"] <> node) ->
      other_step s (with_db s (update_one Files (claim_filter id stamp) (claim_fields stamp) (s_db s)).2)
  | Deletes_elsewhere path : (forall d, d ∈ content (s_db s) Files -> d.["path"] = PStr path -> d.["nodeId"] <> node) ->
      other_step s (with_db s (delete_many Files (fun d => in_archive path d && fld d "status" DELETING) (s_db s)).2).

(** ** The invariant *)

(** The job may still read its files. *)
Definition live (now : Z) (job : pydict) (t : Z) : Prop :=
  unfinished job = true /\ now < t /\ exists u, job.["executionExpiresAt"] = PTime u /\ utc_instant u = t.

Definition kept_for (jobs files : list pydict) (now : Z) : Prop :=
  forall job t file, job ∈ jobs -> live now job t -> file ∈ files_of job -> usable file = true -> exists d, d ∈ files /\ protects t file d.

Definition aged (now : Z) (d : pydict) : Prop := exists cutoff, allows now cutoff d.["id"] /\ hour_before cutoff d = true.

Record inv (s : state) : Prop := Inv {
  inv_kept : kept_for (content (s_db s) Jobs) (content (s_db s) Files) (s_now s);
  inv_ids : NoDup (map (fun d => d.["id"]) (content (s_db s) Files));
  inv_aged : forall d, d ∈ content (s_db s) Files -> d.["status"] = DELETING -> aged (s_now s) d;
  inv_hour : forall d, d ∈ content (s_db s) Files -> d.["hour"] = hour_of d.["id"];
  inv_period : keeps_period (s_db s) }.

(** This node has rows with the path, and all are being deleted. *)
Definition condemned (path : string) (s : state) : Prop :=
  (exists d, d ∈ content (s_db s) Files /\ d.["path"] = PStr path /\ d.["nodeId"] = node)
  /\ forall d, d ∈ content (s_db s) Files -> d.["path"] = PStr path -> d.["nodeId"] = node -> d.["status"] = DELETING.

Definition safe (e : event) : Prop := match e with Unlinked path s => inv s /\ condemned path s end.

(** ** Steps keep the invariant *)

Lemma not_usable d : d.["status"] = DELETING -> usable d = false.
Proof. intros E. unfold usable, fld_in, fld. cbn. by rewrite E. Qed.

Lemma allows_later now now' cutoff id : now <= now' -> allows now cutoff id -> allows now' cutoff id.
Proof. intros Hn [Hc|[Hr Hc]]; [left; lia|right; split; [done|lia]]. Qed.

Lemma aged_later now now' d : now <= now' -> aged now d -> aged now' d.
Proof. intros Hn (c & Hc & Hh). exists c. split; [by eapply allows_later|done]. Qed.

Lemma keeps_period_same db db' : content db' PlatformSettings = content db PlatformSettings -> keeps_period db -> keeps_period db'.
Proof. unfold keeps_period. by intros ->. Qed.

Lemma hour_before_same cutoff d d' : d'.["hour"] = d.["hour"] -> hour_before cutoff d' = hour_before cutoff d.
Proof. unfold hour_before. by intros ->. Qed.

Lemma claim_fields_get stamp d k : k <> "status" -> k <> "retentionClaimedAt" -> (claim_fields stamp d).[k] = d.[k].
Proof. intros ? ?. unfold claim_fields, set_all. cbn [foldl fst snd]. by rewrite !get_set_ne. Qed.

(** A protecting row is not one that may be claimed before the job's time is over. *)
Lemma protects_unclaimed t file d id stamp : protects t file d -> stamp < t -> claim_filter id stamp d = false.
Proof.
  intros (_ & _ & Ht) Hs. unfold claim_filter, unprotected, fld, time_le, time_ge in *. destruct (d.["retainUntil"]); try done.
  rewrite (bool_decide_eq_false_2 (PTime _ = PNone)) by done. breflect. destruct (Z.leb_spec (utc_instant d0) stamp); [lia|]. by rewrite andb_false_r.
Qed.

Lemma kept_rows jobs files files' now : kept_for jobs files now ->
  (forall d t file, d ∈ files -> now < t -> protects t file d -> exists d', d' ∈ files' /\ protects t file d') -> kept_for jobs files' now.
Proof. intros Hk Hr job t file Hj Hl Hf Hu. destruct (Hk job t file Hj Hl Hf Hu) as (d & Hd & Hp). eapply Hr; [done| |done]. by destruct Hl as (_ & ? & _). Qed.

Lemma kept_later jobs files now now' : now <= now' -> kept_for jobs files now -> kept_for jobs files now'.
Proof. intros Hn Hk job t file Hj (Hu & Ht & He) Hf Huf. apply (Hk job t file Hj); [split_and!; [done|lia|done]|done|done]. Qed.

Context `{!MongoLaws}.

(** *** The rows of files change *)

(** Rows that keep what the invariant reads: identifier and hour, and the protection
    of a usable row; one that is being deleted was so or is aged. *)
Record evolves (now : Z) (l l' : list pydict) : Prop := Evolves {
  ev_ids : NoDup (map (fun d => d.["id"]) l) -> NoDup (map (fun d => d.["id"]) l');
  ev_kept : forall d t file, d ∈ l -> now < t -> protects t file d -> exists d', d' ∈ l' /\ protects t file d';
  ev_aged : forall d', d' ∈ l' -> d'.["status"] = DELETING -> aged now d' \/ exists d, d ∈ l /\ d.["status"] = DELETING /\ d.["id"] = d'.["id"] /\ d.["hour"] = d'.["hour"];
  ev_hour : forall d', d' ∈ l' -> d'.["hour"] = hour_of d'.["id"] \/ exists d, d ∈ l /\ d.["id"] = d'.["id"] /\ d.["hour"] = d'.["hour"] }.

Lemma evolves_same_rows now l : evolves now l l.
Proof. split; [done|by eauto| |]; intros d Hd; [intros Hs; right; by exists d|right; by exists d]. Qed.

Lemma inv_evolves s db : inv s -> frame [Files] (s_db s) db -> evolves (s_now s) (content (s_db s) Files) (content db Files) ->
  inv (with_db s db).
Proof.
  intros [Hk Hi Ha Hh Hper] Hf [Ei Ek Ea Eh]. split; cbn.
  - rewrite (Hf Jobs) by set_solver. eapply kept_rows; [done|]. intros d t file Hd Hn Hp. by eapply Ek.
  - auto.
  - intros d' Hd' Hs. destruct (Ea d' Hd' Hs) as [?|(d & Hd & Hsd & Eid & E)]; [done|]. destruct (Ha d Hd Hsd) as (c & Hc & Hb).
    exists c. rewrite <- Eid. split; [done|]. by rewrite (hour_before_same c d).
  - intros d' Hd'. destruct (Eh d' Hd') as [?|(d & Hd & E1 & E2)]; [done|]. by rewrite <- E1, <- E2, Hh.
  - eapply keeps_period_same; [apply Hf; set_solver|done].
Qed.

(** One row changes. *)
Lemma evolves_swap now l d d' r : d'.["id"] = d.["id"] -> d'.["hour"] = d.["hour"] ->
  (forall t file, now < t -> protects t file d -> protects t file d') ->
  (d'.["status"] = DELETING -> d.["status"] = DELETING \/ aged now d') -> evolves now (l ++ d :: r) (l ++ d' :: r).
Proof.
  intros Hi Hh Hp Hs. split.
  - intros Hn. rewrite map_app, map_cons in *. by rewrite Hi.
  - intros x t file Hx Ht Hpx. apply elem_of_app in Hx as [Hx|[->|Hx]%elem_of_cons];
      [exists x; split; [set_solver|done]|exists d'; split; [apply elem_of_middle|auto]|exists x; split; [set_solver|done]].
  - intros x Hx Hsx. apply elem_of_app in Hx as [Hx|[->|Hx]%elem_of_cons]; [right; exists x; set_solver| |right; exists x; set_solver].
    destruct (Hs Hsx) as [Hd|Ha]; [|by left]. right. exists d. split; [apply elem_of_middle|done].
  - intros x Hx. right. apply elem_of_app in Hx as [Hx|[->|Hx]%elem_of_cons]; [exists x; set_solver| |exists x; set_solver].
    exists d. split; [apply elem_of_middle|done].
Qed.

(** A claim of an aged file. *)
Lemma claim_evolves now id stamp cutoff db : stamp <= now -> allows now cutoff id ->
  (forall d, d ∈ content db Files -> d.["id"] = id -> d.["status"] = READY -> hour_before cutoff d = true) ->
  wp (update_one Files (claim_filter id stamp) (claim_fields stamp)) (fun _ db' => evolves now (content db Files) (content db' Files)
    /\ frame [Files] db db') db.
Proof.
  intros Hst Hc Hold. apply wp_update_one; [|intros _; split; [apply evolves_same_rows|done]].
  intros d db' (Hq & (l & r & E & E') & Ho). split; [|by apply frame_one]. rewrite E, E'.
  assert (Hid : d.["id"] = id /\ d.["status"] = READY) by (unfold claim_filter in Hq; by freflect). destruct Hid as [Hid Hsd].
  apply evolves_swap; [by rewrite claim_fields_get|by rewrite claim_fields_get| |].
  - intros t file Ht Hp. exfalso. pose proof (protects_unclaimed _ _ _ id stamp Hp) as Hno. rewrite Hno in Hq; [done|lia].
  - intros _. right. exists cutoff. rewrite claim_fields_get, Hid by done. split; [done|]. rewrite (hour_before_same cutoff d) by by rewrite claim_fields_get.
    apply Hold; [rewrite E; apply elem_of_middle|done|done].
Qed.

(** Rows that are being deleted go. *)
Lemma delete_evolves now path db :
  wp (delete_many Files (fun d => in_archive path d && fld d "status" DELETING)) (fun _ db' => evolves now (content db Files) (content db' Files)
    /\ frame [Files] db db') db.
Proof.
  apply wp_delete_many. intros db' E Ho. split; [|by apply frame_one]. rewrite E. split.
  - intros Hn. apply (sublist_NoDup _ _ Hn), (fmap_sublist (fun d : pydict => d.["id"])), sublist_filter.
  - intros d t file Hd _ Hp. exists d. split; [|done]. apply list_elem_of_filter. split; [|done]. destruct Hp as (_ & Hu & _).
    apply andb_false_intro2. apply fld_false. intros Hs. by rewrite not_usable in Hu.
  - intros d [_ Hd]%list_elem_of_filter Hs. right. by exists d.
  - intros d [_ Hd]%list_elem_of_filter. right. by exists d.
Qed.

(** *** Steps of the others *)

Lemma retained_evolves now l l' : Forall2 retained l l' -> evolves now l l'.
Proof.
  intros Hr. assert (Hback : forall d', d' ∈ l' -> exists d, d ∈ l /\ retained d d').
  { intros d' [i Hi]%list_elem_of_lookup. destruct (Forall2_lookup_r _ _ _ _ _ Hr Hi) as (d & Hd & Hdd). exists d. split; [by eapply list_elem_of_lookup_2|done]. }
  split.
  - enough (map (fun d => d.["id"]) l' = map (fun d => d.["id"]) l) as -> by done. clear Hback.
    induction Hr as [|d d' l l' [Hk _] Hr IH]; [done|]. cbn. by rewrite Hk, IH.
  - intros d t file [i Hi]%list_elem_of_lookup _ Hp. destruct (Forall2_lookup_l _ _ _ _ _ Hr Hi) as (d' & Hd' & Hdd).
    exists d'. split; [by eapply list_elem_of_lookup_2|by eapply protects_retained].
  - intros d' Hd' Hs. destruct (Hback d' Hd') as (d & Hd & Hk & _). right. exists d. by rewrite <- !Hk.
  - intros d' Hd'. destruct (Hback d' Hd') as (d & Hd & Hk & _). right. exists d. by rewrite <- !Hk.
Qed.

Lemma wp_run {A} (m : dbm A) Q db : wp m Q db -> Q (m db).1 (m db).2.
Proof. unfold wp. by destruct (m db). Qed.

(** A job of the rows before answers each unfinished one after. *)
Definition same_need (l l' : list pydict) : Prop := forall job', job' ∈ l' -> unfinished job' = true ->
  exists job, job ∈ l /\ unfinished job = true /\ forall k, k ∈ frozen_keys -> job.[k] = job'.[k].

#[local] Instance same_need_preorder : PreOrder same_need.
Proof.
  split; [intros l job Hj Hu; by exists job|]. intros l1 l2 l3 Ha Hb job Hj Hu. destruct (Hb job Hj Hu) as (job2 & Hj2 & Hu2 & E2).
  destruct (Ha job2 Hj2 Hu2) as (job1 & Hj1 & Hu1 & E1). exists job1. split_and!; [done|done|]. intros k Hk. by rewrite E1, E2.
Qed.

Lemma same_need_change l d d' r : ended d = false -> (forall k, k ∈ frozen_keys -> d'.[k] = d.[k]) -> same_need (l ++ d :: r) (l ++ d' :: r).
Proof.
  intros He Hk job Hj Hu. apply elem_of_app in Hj as [Hj|[->|Hj]%elem_of_cons]; [exists job; set_solver| |exists job; set_solver].
  exists d. split_and!; [apply elem_of_middle| |by intros k Hkk; rewrite Hk]. unfold ended in He. by apply negb_false_iff in He.
Qed.

Lemma row_operation_need db db' : row_operation frozen_keys db db' ->
  same_need (content db Jobs) (content db' Jobs) /\ frame [Jobs; Audit] db db'.
Proof.
  intros Hop. destruct (row_operation_calm frozen_keys same_need) with (db := db) (db' := db') as [Hr Hf].
  - unfold frozen_keys, written_keys. set_solver.
  - exact same_need_change.
  - done.
  - done.
Qed.

Lemma kept_need jobs jobs' files now : kept_for jobs files now -> same_need jobs jobs' -> kept_for jobs' files now.
Proof.
  intros Hk Hn job t file Hj (Hu & Ht & u & Eu & Et) Hf Huf. destruct (Hn job Hj Hu) as (job1 & Hj1 & Hu1 & E).
  assert (E1 : job1.["files"] = job.["files"]) by (apply E; unfold frozen_keys; set_solver).
  assert (E2 : job1.["executionExpiresAt"] = job.["executionExpiresAt"]) by (apply E; unfold frozen_keys; set_solver).
  apply (Hk job1 t file Hj1); [split_and!; [done|done|exists u; by rewrite E2]| |done]. unfold files_of in *. by rewrite E1.
Qed.

Lemma files_of_frozen job files : job.["files"] = PList (map PDict files) -> files_of job = files.
Proof. unfold files_of. intros ->. induction files as [|f files IH]; [done|]. cbn. by rewrite IH. Qed.

(** A submission keeps the protections and adds those of its own job. *)
Lemma submit_inv s who key digest id kind b ts f readable : inv s -> ts <= s_now s ->
  inv (with_db s (submit_job shanghai from_shanghai who key digest id kind b ts f readable (s_db s)).2)
  /\ Forall2 retained (content (s_db s) Files)
       (content (submit_job shanghai from_shanghai who key digest id kind b ts f readable (s_db s)).2 Files).
Proof.
  intros Hi Hts. pose proof (wp_run _ _ _ (submission_effect shanghai from_shanghai who key digest id kind b ts f readable (s_db s))) as Hs.
  cbv beta in Hs. destruct (submit_job _ _ _ _ _ _ _ _ _ _ _ _) as [r db] eqn:E. cbn [fst snd] in *. clear E.
  destruct Hs as [[-> _]|(b' & query & document & _ & _ & Hsub & _)].
  - split; [by destruct s|reflexivity].
  - destruct Hsub as [Ej _ _ _ Eexp (files & Efiles & _ & Hprot) Hrows Hfr]. split; [|exact Hrows].
    destruct Hi as [Hk Hids Ha Hh Hper]. pose proof (retained_evolves (s_now s) _ _ Hrows) as Hev.
    assert (Hbase : inv (with_db s (fun c => if decide (c = Files) then db c else s_db s c))).
    { apply inv_evolves; [by split|intros c Hc; unfold content; rewrite decide_False by set_solver; done|]. unfold content at 2. by rewrite decide_True. }
    destruct Hbase as [Hk' Hids' Ha' Hh' _]. cbn in *. unfold content in Hk', Hids', Ha', Hh'. rewrite ?decide_True, ?decide_False in * by done.
    split; cbn; [|done..|eapply keeps_period_same; [|done]; by apply Hfr; set_solver]. intros job t file Hj Hl Hf Hu. rewrite Ej in Hj. apply elem_of_snoc in Hj as [Hj| ->]; [by apply (Hk' job t file)|].
    rewrite (files_of_frozen _ files) in Hf by done. destruct Hl as (_ & _ & u & Eu & <-). rewrite Eexp in Eu. injection Eu as <-. by apply Hprot.
Qed.

Lemma other_step_inv s s' : inv s -> other_step s s' -> inv s'.
Proof.
  intros Hi Hs. destruct Hs as [now Hn|disk|who key digest id kind b ts f readable Hts|db Hop|db d d' l r Hp El Er Ej|d Hu Hh Hf|db Hf Hper|id stamp cutoff Hst Hc Hold|path Hp].
  - destruct Hi as [Hk Hids Ha Hh Hper]. split; cbn; [by eapply kept_later|done| |done|done]. intros d Hd Hs. eapply aged_later; [done|by apply Ha].
  - by destruct Hi.
  - by apply submit_inv.
  - destruct (row_operation_need _ _ Hop) as [Hn Ef]. destruct Hi as [Hk Hids Ha Hh Hper]. split; cbn; rewrite ?(Ef Files) by set_solver; [|done..|].
    + by eapply kept_need.
    + eapply keeps_period_same; [apply Ef; set_solver|done].
  - apply inv_evolves; [done|done|]. rewrite El, Er. destruct Hp as (Ei & Eh & _ & Hu & Hu' & Ht & _). apply evolves_swap; [done|done| |].
    + intros t file _ (Hpi & _ & Hpt). split_and!; [by rewrite Ei|done|by apply Ht].
    + intros Hs. by rewrite not_usable in Hu'.
  - apply (wp_run (insert_one Files d) (fun _ db => inv (with_db s db))). apply wp_insert; [|by destruct s].
    intros db Hno E Ho. apply inv_evolves; [done|by apply frame_one|]. rewrite E. split.
    + intros Hn. rewrite map_app. apply NoDup_app. split_and!; [done| |apply NoDup_singleton].
      intros x (d0 & -> & Hd0)%list_elem_of_fmap Hx%list_elem_of_singleton. specialize (Hno d0 Hd0). apply clash_id in Hno; [|done].
      by apply fld_false in Hno.
    + intros d0 t file Hd0 _ Hp. exists d0. split; [apply elem_of_snoc; by left|done].
    + intros d0 [Hd0| ->]%elem_of_snoc Hs; [right; by exists d0|]. by rewrite not_usable in Hu.
    + intros d0 [Hd0| ->]%elem_of_snoc; [right; by exists d0|by left].
  - destruct Hi as [Hk Hids Ha Hh _]. split; cbn; rewrite ?(Hf Files), ?(Hf Jobs) by set_solver; done.
  - apply (wp_run (update_one _ _ _) (fun _ db => inv (with_db s db))). eapply wp_mono.
    + apply (claim_evolves (s_now s) id stamp cutoff); [done|done|]. intros d Hd Hid _. by apply Hold.
    + intros r db [Hev Ho]. by apply inv_evolves.
  - apply (wp_run (delete_many _ _) (fun _ db => inv (with_db s db))). eapply wp_mono; [apply (delete_evolves (s_now s))|].
    intros r db [Hev Ho]. by apply inv_evolves.
Qed.
End others.

(** ** What a row of this node keeps *)

Section rows.
Context `{FromIso} `{Mongo} `{!MongoLaws}.
Variable shanghai : zone.
Variable from_shanghai : Z -> Z.
Variable node : pyval.
Variable hour_of : pyval -> pyval.
Variable default_days period : Z.
Variable released : pyval -> Prop.

Abbreviation other := (other_step shanghai from_shanghai node hour_of default_days period released).

Definition settled (d : pydict) : Prop := d.["status"] = READY \/ d.["status"] = DELETING.

(** Rows of this node that are READY or being deleted stay, at their path, and no
    row comes to a path with one that is being deleted. *)
Record quiet_files (db db' : database) : Prop := Quiet_files {
  qf_held : forall d, d ∈ content db Files -> d.["nodeId"] = node -> settled d -> exists d', d' ∈ content db' Files
    /\ d'.["id"] = d.["id"] /\ d'.["path"] = d.["path"] /\ d'.["nodeId"] = node /\ settled d' /\ (d.["status"] = DELETING -> d'.["status"] = DELETING);
  qf_rows : forall d', d' ∈ content db' Files -> d'.["nodeId"] = node -> free_path node db d'.["path"]
    \/ exists d, d ∈ content db Files /\ d.["path"] = d'.["path"] /\ d.["nodeId"] = node /\ (d.["status"] = DELETING -> d'.["status"] = DELETING) }.

Lemma quiet_files_same db db' : content db' Files = content db Files -> quiet_files db db'.
Proof. intros E. split; rewrite E; intros d Hd Hn; [intros Hs; by exists d|right; by exists d]. Qed.

Lemma quiet_files_swap db db' l d d' r : content db Files = l ++ d :: r -> content db' Files = l ++ d' :: r ->
  (d.["nodeId"] = node -> settled d -> d'.["id"] = d.["id"] /\ d'.["path"] = d.["path"] /\ d'.["nodeId"] = node /\ settled d'
     /\ (d.["status"] = DELETING -> d'.["status"] = DELETING)) ->
  (d'.["nodeId"] = node -> free_path node db d'.["path"]
     \/ d.["path"] = d'.["path"] /\ d.["nodeId"] = node /\ (d.["status"] = DELETING -> d'.["status"] = DELETING)) -> quiet_files db db'.
Proof.
  intros E E' Hheld Hrow. split.
  - intros x Hx Hn Hs. rewrite E in Hx. apply elem_of_app in Hx as [Hx|[->|Hx]%elem_of_cons]; [exists x; rewrite E'; set_solver| |exists x; rewrite E'; set_solver].
    exists d'. split; [rewrite E'; apply elem_of_middle|by apply Hheld].
  - intros x Hx Hn. rewrite E' in Hx. apply elem_of_app in Hx as [Hx|[->|Hx]%elem_of_cons]; [right; exists x; rewrite E; set_solver| |right; exists x; rewrite E; set_solver].
    destruct (Hrow Hn) as [?|?]; [by left|right]. exists d. split; [rewrite E; apply elem_of_middle|done].
Qed.

Lemma claim_quiet id stamp db : wp (update_one Files (claim_filter id stamp) (claim_fields stamp)) (fun _ db' => quiet_files db db') db.
Proof.
  apply wp_update_one; [|intros _; by apply quiet_files_same]. intros d db' (Hq & (l & r & E & E') & _).
  assert (Hs : (claim_fields stamp d).["status"] = DELETING) by (unfold claim_fields, set_all; cbn [foldl fst snd]; by dget).
  apply (quiet_files_swap _ _ l d (claim_fields stamp d) r); [done|done| |].
  - intros Hn _. rewrite !claim_fields_get by done. split_and!; [done|done|done|by right|done].
  - intros Hn. rewrite !claim_fields_get in * by done. by right.
Qed.

Lemma other_quiet s s' : other s s' -> quiet_files (s_db s) (s_db s').
Proof.
  intros Hs. destruct Hs as [now Hn|disk|who key digest id kind b ts f readable Hts|db Hop|db d d' l r Hp El Er Ej|d Hu Hh Hf|db Hf Hper|id stamp cutoff Hst Hc Hold|path Hp];
    try by apply quiet_files_same.
  - assert (Hr : Forall2 retained (content (s_db s) Files)
      (content (submit_job shanghai from_shanghai who key digest id kind b ts f readable (s_db s)).2 Files)).
    { pose proof (wp_run _ _ _ (submission_effect shanghai from_shanghai who key digest id kind b ts f readable (s_db s))) as Hw.
      cbv beta in Hw. destruct Hw as [[-> _]|(b' & query & document & _ & _ & Hsub & _)]; [reflexivity|exact (sub_rows _ _ _ _ _ _ Hsub)]. }
    cbn. split.
    + intros d [i Hi]%list_elem_of_lookup Hn Hset. destruct (Forall2_lookup_l _ _ _ _ _ Hr Hi) as (d' & Hd' & Hk & _).
      exists d'. split; [by eapply list_elem_of_lookup_2|]. unfold settled. rewrite !Hk by done. by split_and!.
    + intros d' [i Hi]%list_elem_of_lookup Hn. destruct (Forall2_lookup_r _ _ _ _ _ Hr Hi) as (d & Hd & Hk & _).
      right. exists d. split; [by eapply list_elem_of_lookup_2|]. rewrite !Hk in * by done. by split_and!.
  - apply quiet_files_same. destruct (row_operation_need shanghai from_shanghai node hour_of period released _ _ Hop) as [_ Hf]. apply Hf. set_solver.
  - destruct Hp as (Ei & _ & En & Hu & Hu' & _ & Hr & Hpath). eapply quiet_files_swap; [done|done| |].
    + intros Hn [Hs|Hs]; [|by rewrite not_usable in Hu]. destruct (Hr Hs). split_and!; [done|done|by rewrite En|by left|]. by rewrite Hs.
    + intros Hn. destruct Hpath as [Hpath|[?|?]]; [right|done|by left]. rewrite Hpath, <- En. split_and!; [done|done|]. intros Hs. by rewrite not_usable in Hu.
  - apply (wp_run (insert_one Files d) (fun _ db => quiet_files (s_db s) (s_db (with_db s db)))). apply wp_insert; [|intros; by apply quiet_files_same].
    intros db _ E _. cbn. split; rewrite E.
    + intros x Hx Hn Hs. exists x. split; [apply elem_of_snoc; by left|done].
    + intros x [Hx| ->]%elem_of_snoc Hn; [right; by exists x|]. destruct Hf as [?|?]; [done|by left].
  - apply quiet_files_same, Hf. set_solver.
  - apply (wp_run (update_one _ _ _) (fun _ db => quiet_files (s_db s) (s_db (with_db s db)))). apply claim_quiet.
  - apply (wp_run (delete_many _ _) (fun _ db => quiet_files (s_db s) (s_db (with_db s db)))). apply wp_delete_many.
    intros db E _. cbn. split; rewrite E.
    + intros x Hx Hn Hs. exists x. split_and!; [|done..]. apply list_elem_of_filter. split; [|done].
      apply andb_false_intro1. unfold in_archive. apply fld_false. intros Ep. by apply (Hp x Hx Ep).
    + intros x [_ Hx]%list_elem_of_filter Hn. right. by exists x.
Qed.

Lemma condemned_quiet path s s' : condemned node path s -> quiet_files (s_db s) (s_db s') -> condemned node path s'.
Proof.
  intros [(d & Hd & Hp & Hn) Hall] [Hheld Hrows]. assert (Hs : d.["status"] = DELETING) by by apply Hall. split.
  - destruct (Hheld d Hd Hn) as (d' & Hd' & _ & Hp' & Hn' & _); [by right|]. exists d'. by rewrite Hp'.
  - intros d' Hd' Hp' Hn'. destruct (Hrows d' Hd' Hn') as [Hf|(d1 & Hd1 & Hp1 & Hn1 & Himp)].
    + exfalso. by apply (Hf d); [|rewrite Hp'| |].
    + apply Himp, Hall; [done|by rewrite Hp1|done].
Qed.

(** The row that a maintenance has read of an archive. *)
Definition holds (id : pyval) (path : string) (s : state) : Prop :=
  exists d, d ∈ content (s_db s) Files /\ d.["id"] = id /\ d.["path"] = PStr path /\ d.["nodeId"] = node /\ settled d.

Lemma holds_quiet id path s s' : holds id path s -> quiet_files (s_db s) (s_db s') -> holds id path s'.
Proof.
  intros (d & Hd & Hi & Hp & Hn & Hs) [Hheld _]. destruct (Hheld d Hd Hn Hs) as (d' & Hd' & Ei & Ep & En & Hs' & _).
  exists d'. split_and!; [done|by rewrite Ei|by rewrite Ep|done|done].
Qed.

Lemma other_later s s' : other s s' -> s_now s <= s_now s'.
Proof. by destruct 1; cbn; lia || done. Qed.
End rows.

(** ** A round of the maintenance *)

Section round.
Context `{FromIso} `{Mongo} `{!MongoLaws} `{!Environment state}.
Variable shanghai : zone.
Variable from_shanghai : Z -> Z.
Variable node_id : string.
Variable default_days : Z.
Variable log_root : string.
Variable resolve : string -> string.
Variable hour_of : pyval -> pyval.
Variable period : Z.
Variable released : pyval -> Prop.
(** The identifiers given to a development clean-up. *)
Variable development : option (list string).
Let node : pyval := PStr node_id.

Abbreviation act := (other_step shanghai from_shanghai node hour_of default_days period released).
Abbreviation good_state := (inv hour_of default_days period released).
Abbreviation safe_event := (safe node hour_of default_days period released).
Abbreviation hoare := (triple good_state safe_event).
Abbreviation steady := (stable good_state act).

Hypothesis others_act : forall n s, rtc act s (others n s).

Lemma inv_act s s' : good_state s -> act s s' -> good_state s'.
Proof. by eapply other_step_inv. Qed.

Lemma steady_condemned path : steady (condemned node path).
Proof. intros s s' _ Hc Hs. eapply condemned_quiet; [done|by eapply other_quiet]. Qed.

Lemma steady_holds id path : steady (holds node id path).
Proof. intros s s' _ Hc Hs. eapply holds_quiet; [done|by eapply other_quiet]. Qed.

(** The cutoff stays in the past by the margin, a reading of the clock in the past. *)
Lemma steady_past c : steady (fun s => c <= s_now s).
Proof. intros s s' _ Hc Hs. apply other_later in Hs. lia. Qed.

Lemma steady_any : steady (fun _ => True).
Proof. done. Qed.

(** An operation that only reads. *)
Lemma hoare_read {A} (m : dbm A) (P : state -> Prop) (R : A -> state -> Prop) :
  steady P -> (forall s, good_state s -> P s -> wp m (fun r db => db = s_db s /\ forall a, r = Ok a -> R a s) (s_db s)) ->
  hoare P (await m) (fun r s => P s /\ forall a, r = Ok a -> R a s).
Proof.
  intros Hst Hm. apply (co_await good_state safe_event act inv_act others_act); [done| |by intros e s].
  intros s Hi Hp. eapply wp_mono; [by apply Hm|]. intros r db [-> Hr]. cbn. destruct s. by split_and!.
Qed.

Lemma hoare_find {P : state -> Prop} c q : steady P ->
  hoare P (await (find_one c q)) (fun _ s => P s).
Proof.
  intros Hst. eapply co_weaken; [apply (hoare_read _ P (fun _ _ => True)); [done|]|done|by intros r s []].
  intros s Hi Hp. apply wp_find_one; intros; by split.
Qed.

Lemma hoare_days_past stamp : period <= default_days ->
  hoare (fun s => stamp <= s_now s) (await (get_retention_days default_days)) (fun r s => stamp <= s_now s /\ forall days, r = Ok days -> period <= days).
Proof.
  intros Hd. apply (hoare_read _ (fun s => stamp <= s_now s) (fun days _ => period <= days)); [apply steady_past|].
  intros s Hi _. apply wp_bind, wp_find_one; cbn [on_ok].
  - intros d Hd' Hq. apply wp_ret. split; [done|]. intros days [= <-]. by apply (inv_period _ _ _ _ _ Hi).
  - intros _. apply wp_ret. split; [done|]. intros days [= <-]. unfold configured_days. by destruct (_ && _).
Qed.

(** The files a round may take: any, or those given to the clean-up. *)
Definition chosen (id : pyval) : Prop := match development with None => True | Some ids => id ∈ map PStr ids end.

(** The facts about a member that do not change. *)
Definition may_go (cutoff : Z) (member : pydict) : Prop :=
  member.["nodeId"] = node /\ settled member /\ chosen member.["id"] /\ (member.["status"] = READY -> hour_before cutoff member = true).

Lemma hoare_member cutoff member (P : state -> Prop) : steady P ->
  hoare P (eligible_member node_id development cutoff member) (fun r s => P s /\ (r = Ok true -> may_go cutoff member)).
Proof.
  intros Hst. unfold eligible_member. eapply (co_bind _ _ _ (fun r s => P s /\ (r = Ok true -> chosen member.["id"]))).
  { unfold development_ok, chosen. destruct development as [ids|]; [|by apply co_ret]. eapply (co_bind _ _ _ (fun _ => P)); [by apply hoare_find|by split|].
    intros task. apply co_ret. intros s Hp. split; [done|]. intros [= [E _]%andb_prop]. by apply bool_decide_eq_true in E. }
  { by intros e s [Hp _]. }
  intros ok r0 Hg0 [Hp0 Hch]. revert r0 Hg0 Hp0.
  change (hoare P (if negb ok then st_ret false else if negb (fld member "nodeId" (PStr node_id) && fld_in member "status" [READY; DELETING]) then st_ret false
    else if negb (fld member "status" READY) then st_ret true else
    let! old := lift (past_cutoff cutoff member) in
    if negb old then st_ret false
    else
      let! stamp := clock in
      if retained_now stamp member then st_ret false
      else
        let! active := await (find_one Jobs (fun d => unfinished d && freezes member.["id"] d)) in
        st_ret (match active with Some _ => false | None => true end)) (fun r s => P s /\ (r = Ok true -> may_go cutoff member))).
  destruct ok; cbn [negb]; [specialize (Hch eq_refl)|apply co_ret; by intros s Hp]. destruct (fld member "nodeId" (PStr node_id) && fld_in member "status" [READY; DELETING]) eqn:Em; cbn [negb]; [|by apply co_ret].
  apply andb_prop in Em as [En%fld_true Es]. assert (Hset : settled member).
  { unfold fld_in in Es. cbn in Es. unfold settled. apply orb_prop in Es as [Es%fld_true|Es]; [by left|]. rewrite orb_false_r in Es. right. by apply fld_true. }
  destruct (fld member "status" READY) eqn:Er; cbn [negb].
  2: { apply co_ret. intros s Hp. split; [done|]. intros _. split_and!; [done|done|done|]. intros Hr. by apply fld_false in Er. }
  eapply (co_bind _ _ _ (fun r s => P s /\ (r = Ok true -> hour_before cutoff member = true))).
  { unfold past_cutoff, lift. destruct (dict_lookup member "hour") as [[]|]; first [apply co_ret|apply co_raise]; intros st Hp; (split; [done|by intros [= ?]]). }
  { by intros e s [Hp _]. }
  intros old. destruct old; cbn [negb]; [|apply co_ret; by intros s [Hp _]].
  eapply (co_bind _ _ _ (fun _ s => P s /\ hour_before cutoff member = true)).
  { eapply co_weaken; [apply co_observe|intros s [Hp Hh]; exact (conj Hp (Hh eq_refl))|intros a s [_ Hs]; exact Hs]. }
  { by intros e s [Hp _]. }
  intros stamp. destruct (retained_now stamp member); [apply co_ret; by intros s [Hp _]|].
  eapply (co_bind _ _ _ (fun _ s => P s /\ hour_before cutoff member = true)).
  { apply (hoare_find (P := fun s => P s /\ hour_before cutoff member = true)). apply stable_and; [done|by intros s s' _ ?]. }
  { by intros e s [Hp _]. }
  intros active. apply co_ret. intros s [Hp Hh]. split; [done|]. intros _. by split_and!.
Qed.

Lemma hoare_group cutoff group (P : state -> Prop) : steady P ->
  hoare P (eligible_group node_id development cutoff group) (fun r s => P s /\ (r = Ok true -> Forall (may_go cutoff) group)).
Proof.
  intros Hst. induction group as [|member group IH]; cbn [eligible_group]; [apply co_ret; by split|].
  eapply co_bind; [by apply hoare_member|by intros e s [Hp _]|].
  intros []; [|apply co_ret; by intros s [Hp _]].
  intros r Hg [Hp Hm]. specialize (IH r Hg Hp). destruct (eligible_group _ _ _ _ r) as [a r']. destruct IH as (Hg' & Hp' & Ha).
  split; [done|]. split; [done|]. intros Ea. constructor; [by apply Hm|by apply Ha].
Qed.

(** A claim keeps the invariant and what is known of rows and clock. *)
Lemma hoare_claim cutoff id stamp (P : state -> Prop) : steady P ->
  (forall s, P s -> stamp <= s_now s /\ allows period released (s_now s) cutoff id) ->
  (forall s d, good_state s -> P s -> d ∈ content (s_db s) Files -> d.["id"] = id -> d.["status"] = READY -> hour_before cutoff d = true) ->
  (forall s db, P s -> quiet_files node (s_db s) db -> P (with_db s db)) ->
  hoare P (await (update_one Files (claim_filter id stamp) (claim_fields stamp))) (fun _ s => P s).
Proof.
  intros Hst Htime Hold Hkeep. apply (co_await good_state safe_event act inv_act others_act); [done| |done].
  intros s Hi Hp. destruct (Htime s Hp). pose proof (claim_evolves shanghai from_shanghai node hour_of period released (s_now s) id stamp cutoff (s_db s)) as Hev.
  pose proof (claim_quiet shanghai from_shanghai node period id stamp (s_db s)) as Hq. unfold wp in *. destruct (update_one _ _ _ _) as [r db].
  destruct Hev as [Hev Ho]; [done|done|by eauto|]. cbn. split_and!; [by apply inv_evolves; auto|by apply Hkeep|]. intros e. by apply Hkeep.
Qed.

(** Every file the round may take is old enough for its cutoff, or was given to a clean-up. *)
Definition past (cutoff : Z) (s : state) : Prop := forall id, chosen id -> allows period released (s_now s) cutoff id.

Lemma steady_past_margin cutoff : steady (past cutoff).
Proof. intros s s' _ Hc Hs id Hid. apply other_later in Hs. by eapply allows_later; [|apply Hc]. Qed.

(** What the round knows while it claims the members of an archive. *)
Definition claiming (cutoff : Z) (id : pyval) (path : string) (s : state) : Prop := holds node id path s /\ past cutoff s.

Lemma steady_claiming cutoff id path : steady (claiming cutoff id path).
Proof. apply stable_and; [apply steady_holds|apply steady_past_margin]. Qed.

(** The members the round has read: their hours are those of their identifiers. *)
Definition read_members (cutoff : Z) (group : list pydict) : Prop := Forall (fun m => may_go cutoff m /\ m.["hour"] = hour_of m.["id"]) group.

Lemma hoare_claims cutoff id path group : read_members cutoff group ->
  hoare (claiming cutoff id path) (claim_group group) (fun _ s => claiming cutoff id path s).
Proof.
  induction 1 as [|member group [(_ & _ & Hch & Hm) Hh] _ IH]; cbn [claim_group]; [by apply co_ret|].
  destruct (fld member "status" READY) eqn:Er; cbn [negb]; [|done]. apply fld_true in Er.
  eapply (co_bind _ _ _ (fun r s => claiming cutoff id path s /\ forall stamp, r = Ok stamp -> stamp <= s_now s)).
  { eapply co_weaken; [apply co_observe|intros s Hs; exact Hs|]. intros a s [-> Hs]. split; [done|]. by intros stamp [= <-]. }
  { by intros e s [Hs _]. }
  intros stamp. eapply (co_bind _ _ _ (fun _ s => claiming cutoff id path s /\ stamp <= s_now s)).
  - eapply co_weaken; [apply (hoare_claim cutoff member.["id"] stamp (fun s => claiming cutoff id path s /\ stamp <= s_now s))| |done].
    + apply stable_and; [apply steady_claiming|apply steady_past].
    + intros s [[_ Hc] Hst]. by split; [|apply Hc].
    + intros s d Hi _ Hd Hid _. rewrite (hour_before_same cutoff member d); [by apply Hm|].
      by rewrite (inv_hour _ _ _ _ _ Hi d Hd), Hid.
    + intros s db [[Hho Hc] Hst] Hq. split; [split|]; [by eapply holds_quiet|done|done].
    + intros s [Hs Hst]. by split; [|apply Hst].
  - by intros e s [Hs _].
  - intros []; [eapply co_weaken; [exact IH|by intros s [Hs _]|done]|apply co_ret; by intros s [Hs _]].
Qed.

(** *** From the second reading to the removal *)

Lemma in_archive_path path d : in_archive path d = true <-> d.["path"] = PStr path.
Proof. apply fld_true. Qed.

Lemma hoare_archive path (P : state -> Prop) : steady P ->
  hoare P (await (find_all Files (in_archive path)))
    (fun r s => P s /\ forall group, r = Ok group -> forall d, d ∈ group <-> d ∈ content (s_db s) Files /\ d.["path"] = PStr path).
Proof.
  intros Hst. apply (hoare_read _ P (fun group s => forall d, d ∈ group <-> d ∈ content (s_db s) Files /\ d.["path"] = PStr path)); [done|].
  intros s _ _. apply wp_find_all. intros l Hl. split; [done|]. intros group [= <-] d. rewrite Hl, list_elem_of_filter, in_archive_path. tauto.
Qed.

(** What depends on the clock alone. *)
Definition timely (P : state -> Prop) : Prop := steady P /\ forall s s', s_now s' = s_now s -> P s -> P s'.

Lemma timely_past cutoff : timely (past cutoff).
Proof. split; [apply steady_past_margin|]. intros s s' E Hp. unfold past in *. by rewrite E. Qed.

Lemma hoare_unlink path file P : timely P -> hoare (fun s => condemned node path s /\ P s) (unlink (Some path) file) (fun _ s => P s).
Proof.
  intros [Hst Hkeep]. apply (co_perform good_state safe_event act inv_act others_act); [apply stable_and; [apply steady_condemned|exact Hst]| |intros e s _ [_ Hp]; exact Hp].
  intros s Hi [Hc Hp]. split_and!; [by destruct Hi|apply Forall_singleton; by split|]. intros _. by apply (Hkeep s).
Qed.

Lemma hoare_unlink_all files P : timely P -> hoare P (unlink_all files) (fun _ s => P s).
Proof.
  intros [Hst Hkeep]. induction files as [|file files IH]; cbn [unlink_all]; [by apply co_ret|].
  eapply co_attempt; [apply (co_perform good_state safe_event act inv_act others_act _ _ _ (fun _ => P)); [done| |done]|].
  - intros s Hi Hp. split_and!; [by destruct Hi|apply Forall_nil_2|]. intros _. by apply (Hkeep s).
  - intros a. eapply (co_bind _ _ _ (fun _ => P)); [exact IH|done|]. intros []. destruct a; [by apply co_ret|by apply co_raise].
Qed.

(** Any change of the rows of files that keeps the invariant. *)
Lemma hoare_files {A} (m : dbm A) (P : state -> Prop) : timely P ->
  (forall now db, wp m (fun _ db' => evolves hour_of period released now (content db Files) (content db' Files)
     /\ frame [Files] db db') db) ->
  hoare P (await m) (fun _ s => P s).
Proof.
  intros [Hst Hkeep] Hm. apply (co_await good_state safe_event act inv_act others_act); [done| |done].
  intros s Hi Hp. eapply wp_mono; [apply (Hm (s_now s))|]. intros r db [Hev Ho]. cbn.
  split_and!; [by apply inv_evolves; auto|by apply (Hkeep s)|]. intros e. by apply (Hkeep s).
Qed.

Lemma hoare_lift {A} (r : result exn A) (P : state -> Prop) : hoare P (lift r) (fun a s => a = r /\ P s).
Proof. destruct r; cbn; [by apply co_ret|by apply co_raise]. Qed.

Lemma hoare_remove path group P : timely P ->
  hoare (fun s => condemned node path s /\ P s) (remove_archive log_root resolve path group) (fun _ s => P s).
Proof.
  intros Hp. unfold remove_archive. eapply co_bind; [apply hoare_lift|by intros e s (_ & _ & ?)|]. intros file.
  destruct (tar_gz file); cbn [negb]; [|apply co_raise; by intros s (_ & _ & ?)].
  eapply (co_bind _ _ _ (fun _ => P)); [eapply co_weaken; [by apply hoare_unlink|by intros s [_ Hs]|done]|done|]. intros [].
  eapply co_bind; [apply (hoare_lift _ P)|by intros e s [_ ?]|]. intros sides.
  eapply (co_bind _ _ _ (fun _ => P)); [eapply co_weaken; [by apply hoare_unlink_all|by intros s [_ ?]|done]|done|]. intros [].
  by apply (hoare_files _ P); [|intros; apply delete_evolves].
Qed.

Lemma mark_evolves now path stamp db :
  wp (update_many Files (fun d => in_archive path d && fld d "status" DELETING) (set_all [("retentionErrorAt", PTime (Aware stamp))]))
    (fun _ db' => evolves hour_of period released now (content db Files) (content db' Files) /\ frame [Files] db db') db.
Proof.
  apply wp_update_many. intros db' E Ho. split; [|by apply frame_one]. rewrite E. set (g := apply_if _ _).
  assert (Hg : forall d k, k <> "retentionErrorAt" -> (g d).[k] = d.[k])
    by (intros d k Hk; unfold g, apply_if, set_all; cbn [foldl fst snd]; destruct (_ && _); [by rewrite get_set_ne|done]).
  split.
  - intros Hn. rewrite map_map. erewrite map_ext; [exact Hn|]. intros d. by rewrite Hg.
  - intros d t file Hd _ (Hi & Hu & Ht). exists (g d). split; [by apply list_elem_of_fmap_2|]. unfold protects, usable, fld_in, fld, time_ge in *.
    cbn in *. rewrite !Hg by done. by split_and!.
  - intros x (d & -> & Hd)%list_elem_of_fmap Hs. right. exists d. rewrite !Hg in * by done. by split_and!.
  - intros x (d & -> & Hd)%list_elem_of_fmap. right. exists d. rewrite !Hg by done. by split_and!.
Qed.

(** *** One archive *)

(** What the first reading of the members gives for each. *)
Definition member_of (path : string) (m : pydict) (s : state) : Prop :=
  m.["nodeId"] = node -> settled m -> holds node m.["id"] path s.

Lemma steady_members path (group : list pydict) : steady (fun s => forall m : pydict, m ∈ group -> member_of path m s).
Proof. intros s s' Hi Hm Hs m Hin Hn Hset. eapply steady_holds; [done|by apply Hm|done]. Qed.

Lemma hoare_note_failure path P : timely P -> hoare P (note_failure path) (fun _ s => P s).
Proof.
  intros Hp. unfold note_failure. eapply co_bind; [apply co_observe|by intros e s [_ ?]|]. intros stamp.
  eapply (co_bind _ _ _ (fun _ => P)); [|done|intros n; by apply co_ret].
  eapply co_weaken; [apply (hoare_files _ P); [done|intros; apply mark_evolves]|by intros s [_ ?]|done].
Qed.

Lemma hoare_claim_and_remove cutoff id path group : read_members cutoff group ->
  hoare (claiming cutoff id path) (claim_and_remove_archive log_root resolve path group) (fun _ s => past cutoff s).
Proof.
  intros Hread. unfold claim_and_remove_archive. eapply co_bind; [by apply hoare_claims|by intros e s [_ ?]|].
  intros []; cbn [negb]; [|apply co_ret; by intros s [_ ?]]. eapply co_bind; [apply hoare_archive, steady_claiming|by intros e s [[_ ?] _]|].
  intros claimed. destruct claimed as [|d0 claimed]; [apply co_ret; by intros s [[_ ?] _]|].
  destruct (existsb _ (d0 :: claimed)) eqn:Ex; [apply co_ret; by intros s [[_ ?] _]|].
  eapply (co_attempt _ _ _ (fun _ => past cutoff)).
  - eapply co_weaken; [apply (hoare_remove path _ (past cutoff)), timely_past| |done].
    intros s [[(d & Hd & _ & Hp & Hn & _) Hpast] Hin]. split; [|exact Hpast]. specialize (Hin _ eq_refl). split; [by exists d|].
    intros x Hx Hpx _. assert (Hxin : x ∈ d0 :: claimed) by by apply Hin. destruct (fld x "status" DELETING) eqn:E; [by apply fld_true|].
    exfalso. assert (Ht : existsb (fun d => negb (fld d "status" DELETING)) (d0 :: claimed) = true)
      by (apply existsb_exists; exists x; split; [by apply list_elem_of_In|by rewrite E]). by rewrite Ht in Ex.
  - intros [n|e]; [by apply co_ret|]. destruct (is_cancelled e); [by apply co_raise|]. apply hoare_note_failure, timely_past.
Qed.

(** The reading of the members gives their hours and where their rows are. *)
Lemma hoare_first_reading cutoff path : hoare (past cutoff) (await (find_all Files (in_archive path)))
  (fun r s => past cutoff s /\ forall group, r = Ok group ->
    (forall m, m ∈ group -> m.["hour"] = hour_of m.["id"]) /\ forall m, m ∈ group -> member_of path m s).
Proof.
  intros r Hg Hp. pose proof (hoare_archive path (past cutoff) (steady_past_margin cutoff) r Hg Hp) as Hread.
  destruct (await _ r) as [a r']. destruct Hread as (Hg' & Hp' & Hgroup). split; [done|]. split; [done|]. intros group Ea.
  specialize (Hgroup group Ea). destruct Hg' as [Hi' _]. split; intros m [Hm Hpm]%Hgroup; [by apply (inv_hour _ _ _ _ _ Hi')|].
  intros Hn Hset. by exists m.
Qed.

(** An eligible archive has a row of this node at its path, and members that may go. *)
Lemma hoare_eligible cutoff path m group : (forall x, x ∈ m :: group -> x.["hour"] = hour_of x.["id"]) ->
  hoare (fun s => past cutoff s /\ forall x, x ∈ m :: group -> member_of path x s) (eligible_group node_id development cutoff (m :: group))
    (fun r s => past cutoff s /\ (r = Ok true -> claiming cutoff m.["id"] path s /\ read_members cutoff (m :: group))).
Proof.
  intros Hhours. eapply co_weaken; [apply hoare_group|intros s Hs; exact Hs|].
  - apply stable_and; [apply steady_past_margin|apply steady_members].
  - intros a s [[Hp Hm] Hall]. split; [done|]. intros Ea. specialize (Hall Ea). split.
    + split; [|exact Hp]. apply Forall_cons in Hall as [(Hn & Hset & _) _]. by apply Hm; [left|..].
    + apply Forall_forall. intros x Hin. split; [by eapply Forall_forall in Hall|by apply Hhours].
Qed.

Lemma hoare_retain_archive cutoff document :
  hoare (past cutoff) (retain_archive node_id log_root resolve development cutoff document) (fun _ s => past cutoff s).
Proof.
  unfold retain_archive. cbv zeta. set (path := text document.["path"]).
  eapply co_bind; [apply co_observe|by intros e s [_ ?]|]. intros []; [apply co_ret; by intros s [_ ?]|].
  eapply co_bind; [eapply co_weaken; [apply (hoare_first_reading cutoff path)|by intros s [_ ?]|intros a s Hs; exact Hs]|by intros e s [? _]|].
  intros [|m group].
  { eapply (co_bind _ _ _ (fun r s => past cutoff s /\ r = Ok false)); [apply co_ret; by intros s [? _]|by intros e s [? _]|].
    intros [|]; [intros r _ [_ [=]]|]. apply co_ret. by intros s [? _]. }
  intros r Hg [Hp Hread]. destruct (Hread _ eq_refl) as [Hhours Hmembers].
  refine (co_bind _ _ _ _ _ _ (fun _ s => past cutoff s) (hoare_eligible cutoff path m group Hhours) _ _ r Hg (conj Hp Hmembers)); [by intros e s [? _]|].
  clear r Hg Hp Hread Hmembers. intros [|]; [|apply co_ret; by intros s [? _]].
  intros r Hg [Hp Hcl]. destruct (Hcl eq_refl) as [Hclaim Hm]. pose proof (hoare_claim_and_remove cutoff m.["id"] path (m :: group) Hm r Hg Hclaim) as Hr.
  destruct (claim_and_remove_archive _ _ _ _ r) as [a r']. destruct Hr as [Hg' Hpast]. by split.
Qed.

Lemma hoare_retain_archives cutoff documents :
  hoare (past cutoff) (retain_archives node_id log_root resolve development cutoff documents) (fun _ _ => True).
Proof.
  induction documents as [|document documents IH]; cbn [retain_archives]; [by apply co_ret|].
  eapply co_bind; [apply hoare_retain_archive|done|]. intros a.
  eapply (co_bind _ _ _ (fun _ _ => True)); [exact IH|done|]. intros b. by apply co_ret.
Qed.

(** The default is no less than the period, and a clean-up takes only what it was given. *)
Definition round_ok : Prop :=
  period <= default_days /\ match development with None => True | Some ids => forall id, id ∈ ids -> released (PStr id) end.

Lemma hoare_round : round_ok ->
  hoare (fun _ => True) (apply_retention node_id default_days log_root resolve development) (fun _ _ => True).
Proof.
  intros [Hd Hrel]. unfold apply_retention. eapply (co_bind _ _ _ (fun r s => forall stamp, r = Ok stamp -> stamp <= s_now s)).
  { eapply co_weaken; [apply (co_observe _ _ (fun _ => True))|done|]. by intros a s [-> _] stamp [= <-]. }
  { done. }
  intros stamp. eapply (co_bind _ _ _ (fun r s => forall cutoff, r = Ok cutoff -> past cutoff s)).
  { unfold past, chosen. destruct development as [ids|].
    - apply co_ret. intros s Hs cutoff [= <-] id (i & -> & Hin)%list_elem_of_fmap. right. split; [by apply Hrel|by apply Hs].
    - eapply (co_bind _ _ _ (fun r s => stamp <= s_now s /\ forall days, r = Ok days -> period <= days)).
      + eapply co_weaken; [by apply (hoare_days_past stamp)|intros s Hs; by apply Hs|done].
      + by intros e s _ cutoff.
      + intros days. apply co_ret. intros s [Hs Hdays] cutoff [= <-] id _. specialize (Hdays days eq_refl). left. assert (0 < US_PER_DAY) by done. nia. }
  { done. }
  intros cutoff. eapply (co_bind _ _ _ (fun _ s => past cutoff s)).
  { eapply co_weaken; [apply (hoare_read _ (past cutoff) (fun _ _ => True)); [apply steady_past_margin|]|intros s Hs; by apply Hs|by intros a s [? _]].
    intros s _ _. by apply wp_find_all. }
  { done. }
  intros documents. apply hoare_retain_archives.
Qed.

End round.

(** ** A round with a submission in its middle *)

#[local] Instance no_iso : FromIso := fun _ => None.

Definition old_file (id hour : string) : pydict :=
  [("id", PStr id); ("taskId", PStr "t"); ("nodeId", PStr "n"); ("hour", PStr hour); ("status", READY);
   ("path", PStr ("/logs/" ++ id ++ ".tar.gz")); ("bytes", PInt 10)].

Definition first_hour := "1970-01-02T00:00:00+00:00".
Definition second_hour := "1970-01-03T00:00:00+00:00".
Definition recent_hour := "1970-01-13T12:00:00+00:00".

(** Two old files and one that the eight days of the settings spare. *)
Definition retention_store : @database list_mongo := fun c =>
  if decide (c = Files) then [old_file "a" first_hour; old_file "b" second_hour; old_file "c" recent_hour]
  else if decide (c = PlatformSettings) then [[("id", PStr "platform"); ("retentionDays", PInt 8)]] else [].

Definition retention_state : @state list_mongo := @State list_mongo retention_store (20 * US_PER_DAY) {["/logs/a.tar.gz"; "/logs/b.tar.gz"; "/logs/c.tar.gz"]}.

Definition zone_8 : zone := fun _ => 8 * US_PER_HOUR.
Definition back_8 (w : Z) : Z := w - 8 * US_PER_HOUR.

(** The other coroutine: a download of the second file. *)
Definition download_second (s : @state list_mongo) : @state list_mongo :=
  with_db s (@submit_job no_iso zone_8 back_8 list_mongo (Submitter (PStr "user") [("nodeId", PStr "n")] []) "key" "digest" "job" DOWNLOAD
    (Body "t" (Some [second_hour]) None None false "") (s_now s) Committed true (s_db s)).2.

#[local] Instance retention_environment : @Environment (@state list_mongo) :=
  {| others n s := if decide (n = 13%nat) then download_second s else s; outcome _ := None |}.

Definition hours_of (id : pyval) : pyval := if decide (id = PStr "a") then PStr first_hour else if decide (id = PStr "b") then PStr second_hour else PStr recent_hour.

Definition none_released (_ : pyval) : Prop := False.

Definition retention_run := @apply_retention list_mongo "n" 9 "/logs" (fun p => p) retention_environment None
  (Run retention_state [] 0).

Lemma retention_environment_acts n s :
  rtc (@other_step no_iso list_mongo zone_8 back_8 (PStr "n") hours_of 9 8 none_released) s (@others _ retention_environment n s).
Proof.
  cbn. destruct (decide (n = 13%nat)); [|constructor]. apply rtc_once. by apply Submits.
Qed.

Lemma retention_state_good : @inv list_mongo hours_of 9 8 none_released retention_state.
Proof.
  split; cbn.
  - intros job t file Hj. by apply elem_of_nil in Hj.
  - by vm_compute; repeat constructor; set_solver.
  - intros d Hd. repeat (apply elem_of_cons in Hd as [->|Hd]; [done|]). by apply elem_of_nil in Hd.
  - intros d Hd. repeat (apply elem_of_cons in Hd as [->|Hd]; [done|]). by apply elem_of_nil in Hd.
  - intros d Hd _. apply elem_of_cons in Hd as [->|Hd%elem_of_nil]; done.
Qed.

