(* ===== verification/Growth.v ===== *)
(** * Growing records: purging and archiving ([common/record_archive.py],
    [common/record_purge.py], [common/run_archive_chunks.py],
    [common/audit_archive.py])

    The platform removes old audit records, events and operations, and the
    commands and budgets of ended runs, a batch at a time.  Every transaction
    renews the maintenance lease first, checks what may still be needed and writes
    the summary of what it deletes: an audit record enters the chunk of its day, a
    command is counted in the archive of its run.

    [_fence], [_protected], [archive_audit] and [purge_commit] are the transaction on one
    record, [archive_refusal], [next_batch] and [write_chunk] the transaction on one run,
    [maintain_growth_records] the round: a [turn] says what the rest of the program does
    before each of its steps, when it happens and how its transaction ends. *)

From stdpp Require Import sets pretty.
From S2P Require Import Prelude PyTime PyValue PyText Ordering FileOrder Mongo Ownership Interleave.
Open Scope camera_scope.
Open Scope Z_scope.

(** The JSON text of a value: its length and its digest. *)
Class RecordCodec := { json_size : pyval -> Z; json_sha256 : pyval -> string }.

Definition GROWTH := PStr "growth-records".
Definition MAX_BATCH_SIZE : Z := 100.
Definition CHUNK_SIZE : nat := 100.
Definition ARCHIVE_DAYS : Z := 365.

Definition COMMAND_TERMINALS : list pyval := map PStr ["SENT"; "FAILED"; "CANCELLED"].
Definition OPERATION_TERMINALS : list pyval := map PStr ["SUCCEEDED"; "FAILED"; "CANCELLED"].

Definition stamp (t : Z) : pyval := PTime (Aware t).
Definition seconds (n : Z) : Z := n * US_PER_SECOND.

(** ** The outcome of an event ([event_outcome]) *)

Definition TERMINAL_OUTCOMES : list pyval := map PStr ["PENDING"; "SUCCEEDED"; "FAILED"; "CANCELLED"; "UNKNOWN"].
Definition PRESSURE_EVENTS : list pyval := map PStr ["DISK_PRESSURE_CHANGED"; "WRITE_PRESSURE_CHANGED"].

Definition ACTION_OUTCOMES : list (string * string) :=
  [("login_failed", "FAILED"); ("coredump_export_failed", "FAILED"); ("coredump_export_cancelled", "CANCELLED");
   ("authenticate_resource_credentials_rejected", "FAILED"); ("authenticate_resource_device_error", "FAILED");
   ("slave-ssh-bootstrap-host-attempt", "UNKNOWN"); ("slave-ssh-bootstrap-temporary-attempt", "UNKNOWN")].
Definition COREDUMP_MOUNT_OUTCOMES : list (string * string) :=
  [("MOUNTED", "SUCCEEDED"); ("REMOUNTING", "PENDING"); ("FAILED", "FAILED"); ("UNMOUNTED", "SUCCEEDED");
   ("UNMOUNT_SKIPPED", "UNKNOWN"); ("UNMOUNT_FAILED", "FAILED")].
Definition DEBUG_MODE_OUTCOMES : list (string * string) :=
  [("ALREADY_ASH", "SUCCEEDED"); ("STARTED", "PENDING"); ("CHALLENGE_RECEIVED", "PENDING"); ("ASH_READY", "SUCCEEDED");
   ("FAILED", "FAILED"); ("RECOVERED", "SUCCEEDED"); ("BLOCKED", "UNKNOWN")].

(** A lookup in a table by a text value. *)
Definition table (l : list (string * string)) (v : pyval) : option string :=
  match v with PStr s => snd <$> List.find (fun kv => bool_decide (kv.1 = s)) l | _ => None end.

(** `isinstance(v, int)`: a truth value is one. *)
Definition int_value (v : pyval) : option Z :=
  match v with PInt z => Some z | PBool b => Some (if b then 1 else 0) | _ => None end.

Definition event_outcome (item : pydict) : pyval :=
  if fld_in item "outcome" TERMINAL_OUTCOMES then item.["outcome"]
  else match table ACTION_OUTCOMES item.["action"] with
  | Some o => PStr o
  | None =>
  match (if fld item "type" (PStr "COREDUMP_MOUNT") then table COREDUMP_MOUNT_OUTCOMES item.["status"] else None) with
  | Some o => PStr o
  | None =>
  if fld item "responseComplete" (PBool false) then PStr "UNKNOWN"
  else if fld_in item "status" TERMINAL_OUTCOMES then item.["status"]
  else match int_value item.["httpStatus"] with
  | Some n => if n =? 202 then PStr "PENDING" else if 400 <=? n then PStr "FAILED" else PStr "SUCCEEDED"
  | None =>
  if fld_in item "type" (map PStr ["CONNECTION_GAP"; "CLOCK_ROLLBACK"; "IDLE_TIMEOUT"; "READ_ERROR"]) then PStr "UNKNOWN"
  else if fld_in item "type" PRESSURE_EVENTS
  then (if fld item "level" (PStr "NORMAL") then PStr "SUCCEEDED" else PStr "UNKNOWN")
  else if fld item "type" (PStr "DEBUG_MODE")
  then match table DEBUG_MODE_OUTCOMES item.["phase"] with
       | Some o => PStr o
       | None => if truthy item.["debugError"] then PStr "FAILED" else PStr "SUCCEEDED"
       end
  else PStr "SUCCEEDED"
  end end end.

(** ** Audit summaries *)

Definition ARCHIVE_FIELDS : list string := ["id"; "actor"; "action"; "targetId"; "requestId"; "outcome"; "createdAt"].

(** [audit_summary]. *)
Definition audit_summary (document : pydict) : pydict :=
  let summary := omap (fun k => (fun v => (k, v)) <$> dict_lookup document k) ARCHIVE_FIELDS in
  set_all [("sourceId", PStr (text document.["_id"])); ("outcome", event_outcome document)] summary.

Definition list_value (v : pyval) : list pyval := match v with PList l => l | _ => [] end.

Section growth.
Context `{Mongo, RecordCodec}.

(** ** The lease *)

Definition lease_row (d : pydict) : bool := fld d "_id" GROWTH.

Definition held_by (owner : string) (d : pydict) : bool := lease_row d && fld d "owner" (PStr owner).

Definition live_lease (owner : string) (now : Z) (d : pydict) : bool := held_by owner d && time_gt d "expiresAt" now.

(** [_lease]. *)
Definition _lease (owner : string) (timestamp lease_seconds : Z) : dbm bool :=
  let values := [("owner", PStr owner); ("expiresAt", stamp (timestamp + seconds lease_seconds))] in
  let! document := find_one_and_update RecordMaintenance
    (fun d => lease_row d && (time_le d "expiresAt" timestamp || fld d "owner" (PStr owner) || fld d "expiresAt" PNone))
    (set_all values) in
  match document with
  | Some _ => st_ret true
  | None => st_catch (let! _ := insert_one RecordMaintenance (("_id", GROWTH) :: values) in st_ret true)
              (fun e => match e with DuplicateKeyError => Some (st_ret false) | _ => None end)
  end.

(** [_fence]. *)
Definition _fence (owner : string) (lease_seconds now : Z) : dbm bool :=
  update_one RecordMaintenance (live_lease owner now)
    (fun d => dict_inc "revision" 1 (dict_set d "expiresAt" (stamp (now + seconds lease_seconds)))).

(** ** What is still needed *)

(** An idempotency record that still names the identifier. *)
Definition pin_of (identifier : pyval) (now : Z) (d : pydict) : bool :=
  fld d "resourceId" identifier && (time_gt d "expiresAt" now || fld d "expiresAt" PNone).

(** `find_one(...) is not None`. *)
Definition exists_one (c : cname) (q : pydict -> bool) : dbm bool :=
  let! d := find_one c q in st_ret (match d with Some _ => true | None => false end).

(** `if condition and await find_one(...)`. *)
Definition exists_if (b : bool) (c : cname) (q : pydict -> bool) : dbm bool :=
  if b then exists_one c q else st_ret false.

Inductive growing := GAudit | GEvents | GOperations.

Definition collection_of (g : growing) : cname :=
  match g with GAudit => Audit | GEvents => Events | GOperations => Operations end.

Definition collection_name (g : growing) : string :=
  match g with GAudit => "audit" | GEvents => "events" | GOperations => "operations" end.

Definition is_audit (g : growing) : bool := match g with GAudit => true | _ => false end.

Definition open_command (d : pydict) : bool := negb (fld_in d "status" COMMAND_TERMINALS).
Definition open_operation (d : pydict) : bool := negb (fld_in d "status" OPERATION_TERMINALS).

(** The references of an audit record: its target and the size of its summary. *)
Definition audit_needed (document : pydict) : dbm bool :=
  let target := document.["targetId"] in
  if 16384 <? json_size (PDict (audit_summary document)) then st_ret true
  else
    let! command := exists_if (truthy target) Commands (fun d => fld d "id" target && open_command d) in
    if command then st_ret true
    else exists_if (truthy target) Operations (fun d => fld d "id" target && open_operation d).

(** The task of a record: it is written, so that the transaction conflicts with
    every other one on the task. *)
Definition task_needs (g : growing) (identifier : pyval) (document : pydict) : dbm bool :=
  if truthy document.["taskId"] then
    let! task := find_one_and_update Tasks (fun d => fld d "id" document.["taskId"]) (dict_inc "recordArchiveRevision" 1) in
    match task with
    | None => st_ret false
    | Some task =>
        st_ret ((match g with GOperations => fld task "controlOperationId" identifier | _ => false end)
                || truthy task.["nodeId"] || truthy task.["resourceHealthRecovery"]
                || fld_in task "desiredState" [PStr "RUNNING"; PStr "PAUSED"])
    end
  else st_ret false.

(** The run of a record. *)
Definition run_needs (document : pydict) : dbm bool :=
  let run_id := document.["runId"] in
  if truthy run_id then
    let! run := find_one Runs (fun d => fld d "id" run_id) in
    if match run with Some d => negb (truthy d.["endedAt"]) | None => false end then st_ret true
    else
      let! command := exists_one Commands (fun d => fld d "runId" run_id && open_command d) in
      if command then st_ret true
      else exists_one EndpointLocks (fun d => fld d "runId" run_id)
  else st_ret false.

(** [_protected]. *)
Definition _protected (g : growing) (document : pydict) (now : Z) : dbm bool :=
  if (match g with GOperations => open_operation document | _ => false end) then st_ret true
  else
    let identifier := if is_audit g then document.["targetId"] else document.["id"] in
    let! pinned := exists_if (truthy identifier) Idempotency (pin_of identifier now) in
    if pinned then st_ret true
    else
      let! needed := if is_audit g then audit_needed document else st_ret false in
      if needed then st_ret true
      else
        let! needed := task_needs g identifier document in
        if needed then st_ret true else run_needs document.

(** ** Archiving an audit record *)

Definition day_id (g : growing) (day : string) : string :=
  collection_name g +:+ ":" +:+ day.

(** The chunk of a day that takes the next record. *)
Definition chunk_id (day : string) (part : Z) : string := day_id GAudit day +:+ ":" +:+ pretty part.

Definition chunk_values (records : list pyval) (now : Z) : pydict :=
  [("count", PInt (zlen records)); ("payload", PList records); ("sha256", PStr (json_sha256 (PList records)));
   ("updatedAt", stamp now)].

(** [archive_audit]; the payload is kept as the list its compressed text denotes. *)
Definition archive_audit (document : pydict) (day : string) (now : Z) : dbm unit :=
  let! counter := find_one PurgeDays (fun d => fld d "_id" (PStr (day_id GAudit day))) in
  let part := match counter with Some d => default 0 (as_int d.["deleted"]) | None => 0 end / 100 in
  let identifier := PStr (chunk_id day part) in
  let! existing := find_one AuditChunks (fun d => fld d "_id" identifier) in
  let records := match existing with Some d => list_value d.["payload"] | None => [] end in
  let summary := PDict (audit_summary document) in
  let! _ := raise_if ((16384 <? json_size summary) || (100 <=? zlen records)) (ValueError "审计摘要超出有界归档大小") in
  let values := chunk_values (records ++ [summary]) now in
  upsert_one AuditChunks (fun d => fld d "_id" identifier) (set_all values)
    ([("_id", identifier); ("day", PStr day); ("part", PInt part); ("createdAt", stamp now);
      ("expiresAt", stamp (now + ARCHIVE_DAYS * US_PER_DAY))] ++ values).

(** ** Purging *)

Definition created_at (d : pydict) : Z := match d.["createdAt"] with PTime t => utc_instant t | _ => 0 end.

(** The statistics of a day. *)
Definition count_deleted (g : growing) (day : string) (now : Z) : dbm unit :=
  let identifier := PStr (day_id g day) in
  let set_ := [("updatedAt", stamp now)] in
  upsert_one PurgeDays (fun d => fld d "_id" identifier) (fun d => set_all set_ (dict_inc "deleted" 1 d))
    ([("_id", identifier); ("collection", PStr (collection_name g)); ("day", PStr day); ("deleted", PInt 1)] ++ set_).

(** The callback of [purge_expired_records] for one candidate. *)
Definition purge_commit (g : growing) (cutoff : Z) (owner : string) (lease_seconds : Z) (candidate : pydict)
    (dry_run : bool) (now : Z) : dbm bool :=
  let c := collection_of g in
  let! fenced := _fence owner lease_seconds now in
  if negb fenced then st_ret false
  else
    let! document := find_one c (fun d => fld d "_id" candidate.["_id"] && time_lt d "createdAt" cutoff) in
    match document with
    | None => st_ret false
    | Some document =>
        let! protected := _protected g document now in
        if protected then st_ret false
        else if dry_run then st_ret true
        else
          let! deleted := delete_one c (fun d => fld d "_id" document.["_id"]) in
          if negb deleted then st_ret false
          else
            let day := utc_day (created_at document) in
            let! _ := if is_audit g then archive_audit document day now else st_ret tt in
            let! _ := count_deleted g day now in
            st_ret true
    end.

Definition order_by (f k : string) (rows : list pydict) : list pydict :=
  sort_by (fun d : pydict => (match d.[f] with PTime t => utc_instant t | _ => 0 end, text d.[k])) (pair_leb Z.leb str_leb) rows.

(** `{"$or": [{f: {"$gt": t}}, {f: t, k: {"$gt": s}}]}` for a bookmark. *)
Definition past (f k : string) (bookmark : pyval) (d : pydict) : bool :=
  match bookmark with
  | PDict b =>
      match b.[f] with
      | PTime t => time_gt d f (utc_instant t)
                   || (match d.[f] with PTime u => utc_instant u =? utc_instant t | _ => false end
                       && match d.[k], b.["id"] with PStr s, PStr s' => negb (str_leb s s') | _, _ => false end)
      | _ => false
      end
  | _ => true
  end.

Fixpoint purge_each (g : growing) (cutoff : Z) (owner : string) (lease_seconds : Z) (dry_run : bool) (turns : nat -> turn)
    (i : nat) (rows : list pydict) (removed protected : Z) : dbm (Z * Z) :=
  match rows with
  | [] => st_ret (removed, protected)
  | candidate :: rows =>
      let! done := in_turn (turns i) (purge_commit g cutoff owner lease_seconds candidate dry_run) in
      purge_each g cutoff owner lease_seconds dry_run turns (S i) rows
        (removed + if done then 1 else 0) (protected + if done then 0 else 1)
  end.

Definition clamp_batch (batch_size : Z) : Z := Z.max 1 (Z.min batch_size MAX_BATCH_SIZE).

(** Where the bookmark of the next round stands: after a full batch at its last row. *)
Definition bookmark_of (f k : string) (batch : Z) (rows : list pydict) : pyval :=
  match last rows with
  | Some d => if zlen rows =? batch then PDict [(f, d.[f]); ("id", d.[k])] else PNone
  | None => PNone
  end.

(** [purge_expired_records]: the removed, the protected and the scanned. *)
Definition purge_expired_records (g : growing) (cutoff : Z) (owner : string) (batch_size lease_seconds : Z) (dry_run : bool)
    (turns : nat -> turn) : dbm (Z * Z * Z) :=
  let batch := clamp_batch batch_size in
  let! held := after_others (turns 0%nat) (fun _ => find_one RecordMaintenance (held_by owner)) in
  let bookmark := match held with
                  | Some d => match d.["cursors"] with PDict l => dict_get l (collection_name g) | _ => PNone end
                  | None => PNone
                  end in
  let! found := after_others (turns 1%nat) (fun _ => find_all (collection_of g)
    (fun d => time_lt d "createdAt" cutoff && (negb (truthy bookmark) || past "createdAt" "_id" bookmark d))) in
  let rows := take (Z.to_nat batch) (order_by "createdAt" "_id" found) in
  let! counts := purge_each g cutoff owner lease_seconds dry_run turns 2 rows 0 0 in
  let! _ := if dry_run then st_ret false
            else after_others (turns (2 + length rows)%nat) (fun now => update_one RecordMaintenance (live_lease owner now)
              (fun d => let cursors := match d.["cursors"] with PDict l => l | _ => [] end in
                        dict_set d "cursors" (PDict (dict_set cursors (collection_name g) (bookmark_of "createdAt" "_id" batch rows))))) in
  st_ret (counts.1, counts.2, zlen rows).

(** ** Archiving a run *)

(** The fields of one command of the archived batch counted by status. *)
Definition inc_status (d : pydict) (s : pyval) : pydict :=
  let l := match d.["commandStatuses"] with PDict l => l | _ => [] end in
  dict_set d "commandStatuses" (PDict (dict_inc (text s) 1 l)).

(** `$inc` of the counts of a batch. *)
Definition inc_counts (selected : list pydict) (budgets : option Z) (d : pydict) : pydict :=
  let d := dict_inc "commandCount" (zlen selected) d in
  let d := foldl inc_status d (map (fun c : pydict => c.["status"]) selected) in
  match budgets with Some n => dict_inc "budgetCount" n d | None => d end.

Definition run_archive_row (run_id task_id : pyval) (run : pydict) (timestamp : Z) : pydict :=
  [("id", PStr ("run:" +:+ text run_id)); ("runId", run_id); ("taskId", task_id); ("schemaVersion", PInt 2);
   ("startedAt", run.["startedAt"]); ("endedAt", run.["endedAt"]); ("commandCount", PInt 0); ("budgetCount", PInt 0);
   ("commandStatuses", PDict []); ("state", PStr "ARCHIVING"); ("startedArchiveAt", stamp timestamp)].

(** `{"$regex": "^<run>:"}`. *)
Definition budget_of (run_id : pyval) (d : pydict) : bool :=
  match d.["_id"] with PStr s => String.prefix (text run_id +:+ ":") s | _ => false end.

(** The closing proof of a file that waits for its recovery: [proof_pending] of its
    dotted fields. *)
Definition proof_pending (d : pydict) : bool :=
  match d.["deploymentClosedProof"] with
  | PDict p => negb (absent p "token") && absent p "archiveRecoveredAt"
  | _ => false
  end.

Definition of_run (task_id run_id : pyval) (d : pydict) : bool := fld d "taskId" task_id && fld d "runId" run_id.

(** The commands of a batch that no valid idempotency record names. *)
Fixpoint unpinned (rows : list pydict) (now : Z) : dbm (list pydict) :=
  match rows with
  | [] => st_ret []
  | row :: rows =>
      let! pinned := exists_one Idempotency (pin_of row.["id"] now) in
      let! selected := unpinned rows now in
      st_ret (if pinned then selected else row :: selected)
  end.

(** The refusals of [archive_chunk], in order. *)
Definition archive_refusal (run : pydict) : dbm (option string) :=
  let task_id := run.["taskId"] in
  let run_id := run.["id"] in
  if negb (truthy task_id) || negb (truthy run_id) || negb (truthy run.["endedAt"]) then st_ret (Some "运行未完整结束")
  else
    let! pending := exists_one Files (fun d => of_run task_id run_id d && proof_pending d) in
    if pending then st_ret (Some "部署关闭证明等待原始日志恢复")
    else
      let! task := find_one_and_update Tasks (fun d => fld d "id" task_id) (dict_inc "recordArchiveRevision" 1) in
      if match task with Some d => fld d "runId" run_id | None => false end then st_ret (Some "任务仍引用运行")
      else
        let! locked := exists_one EndpointLocks (of_run task_id run_id) in
        if locked then st_ret (Some "运行锁仍存在")
        else
          let! command := exists_one Commands (fun d => of_run task_id run_id d && open_command d) in
          if command then st_ret (Some "存在未结算命令")
          else
            let! operation := exists_one Operations (fun d => of_run task_id run_id d && open_operation d) in
            if operation then st_ret (Some "存在未结算操作") else st_ret None.

(** The batch of a chunk: the next rows and those that may go. *)
Definition next_batch (task_id run_id : pyval) (now : Z) : dbm (list pydict * list pydict) :=
  let! archive := find_one RunArchives (fun d => fld d "runId" run_id) in
  let cursor := match archive with Some d => d.["commandCursor"] | None => PNone end in
  let! found := find_all Commands (fun d => of_run task_id run_id d
    && (negb (truthy cursor) || match d.["id"], cursor with PStr s, PStr t => negb (str_leb s t) | _, _ => false end)) in
  let rows := take CHUNK_SIZE (sort_by (fun d : pydict => text d.["id"]) str_leb found) in
  let! selected := unpinned rows now in
  st_ret (rows, selected).

(** The commands of a batch go. *)
Definition delete_batch (run : pydict) (selected : list pydict) : dbm Z :=
  if bool_decide (selected = []) then st_ret 0
  else delete_many Commands (fun d => of_run run.["taskId"] run.["id"] d
         && fld_in d "id" (map (fun c : pydict => c.["id"]) selected)).

(** The budgets stay while a command remains; their number, when they were looked at. *)
Definition delete_budgets (run : pydict) (remaining : bool) : dbm (option Z) :=
  if remaining then st_ret None
  else
    let! found := find_all Budgets (budget_of run.["id"]) in
    let budgets := take CHUNK_SIZE found in
    let! _ := if bool_decide (budgets = []) then st_ret 0
              else delete_many Budgets (fun d => fld_in d "_id" (map (fun b : pydict => b.["_id"]) budgets)) in
    st_ret (Some (zlen budgets)).

(** `$set` of the archive row. *)
Definition archive_changes (rows : list pydict) (finished : bool) (timestamp : Z) : pydict :=
  [("commandCursor", match last rows with Some r => r.["id"] | None => PNone end);
   ("state", PStr (if finished then "ARCHIVED" else "ARCHIVING")); ("updatedAt", stamp timestamp)]
  ++ if finished then [("archivedAt", stamp timestamp)] else [].

(** The summary grows with the batch and the run goes when nothing is left. *)
Definition close_chunk (run : pydict) (timestamp : Z) (rows selected : list pydict) (budgets : option Z) (finished : bool)
    : dbm (bool * string) :=
  let! _ := update_one RunArchives (fun d => fld d "runId" run.["id"])
              (fun d => set_all (archive_changes rows finished timestamp) (inc_counts selected budgets d)) in
  let! _ := if finished then delete_one Runs (fun d => fld d "id" run.["id"] && fld d "endedAt" run.["endedAt"]) else st_ret false in
  st_ret (finished, if finished then "已归档" else if bool_decide (selected = []) then "有效幂等引用" else "分段归档").

Definition empty_batch (run : pydict) (timestamp : Z) (rows selected : list pydict) : dbm (bool * string) :=
  let! _ := delete_batch run selected in
  let! remaining := exists_one Commands (of_run run.["taskId"] run.["id"]) in
  let! budgets := delete_budgets run remaining in
  let! budget_left := exists_one Budgets (budget_of run.["id"]) in
  close_chunk run timestamp rows selected budgets (negb remaining && negb budget_left).

Definition write_chunk (run : pydict) (timestamp : Z) (rows selected : list pydict) : dbm (bool * string) :=
  let! _ := upsert_one RunArchives (fun d => fld d "runId" run.["id"]) (fun d => d)
              (run_archive_row run.["id"] run.["taskId"] run timestamp) in
  empty_batch run timestamp rows selected.

(** [archive_chunk]. *)
Definition archive_chunk (run : pydict) (timestamp : Z) (dry_run : bool) (now : Z) : dbm (bool * string) :=
  let! refusal := archive_refusal run in
  match refusal with
  | Some reason => st_ret (false, reason)
  | None =>
      let! batch := next_batch run.["taskId"] run.["id"] now in
      let '(rows, selected) := batch in
      if dry_run then st_ret (negb (bool_decide (selected = [])) || bool_decide (rows = []), "预览")
      else write_chunk run timestamp rows selected
  end.

(** The callback of [_archive_run]. *)
Definition archive_run_commit (run_id : pyval) (cutoff : Z) (owner : string) (lease_seconds timestamp : Z) (dry_run : bool)
    (now : Z) : dbm (bool * string) :=
  let! fenced := _fence owner lease_seconds now in
  if negb fenced then st_ret (false, "维护租约已失效")
  else
    let! run := find_one Runs (fun d => fld d "id" run_id && time_lt d "endedAt" cutoff) in
    match run with
    | None => st_ret (false, "候选已变化")
    | Some run => archive_chunk run timestamp dry_run now
    end.

(** ** A round *)

Record growth_result := GrowthResult {
  gr_leased : bool; gr_archived : Z; gr_partial : Z; gr_audit : Z; gr_events : Z; gr_operations : Z; gr_protected : Z }.

Fixpoint archive_each (cutoff : Z) (owner : string) (lease_seconds timestamp : Z) (dry_run : bool) (turns : nat -> turn)
    (i : nat) (rows : list pydict) (counts : Z * Z * Z) : dbm (Z * Z * Z) :=
  match rows with
  | [] => st_ret counts
  | run :: rows =>
      let! r := in_turn (turns i) (archive_run_commit run.["id"] cutoff owner lease_seconds timestamp dry_run) in
      let '(archived, partial, protected) := counts in
      let part := String.eqb r.2 "分段归档" in
      archive_each cutoff owner lease_seconds timestamp dry_run turns (S i) rows
        (archived + (if r.1 then 1 else 0), partial + (if part then 1 else 0),
         protected + (if negb r.1 && negb part then 1 else 0))
  end.

(** [_runs]. *)
Definition _runs (cutoff : Z) (owner : string) (lease_seconds timestamp batch_size : Z) (dry_run : bool) (turns : nat -> turn)
    : dbm (Z * Z * Z) :=
  let! held := after_others (turns 0%nat) (fun _ => find_one RecordMaintenance (held_by owner)) in
  let bookmark := match held with Some d => d.["runCursor"] | None => PNone end in
  let! found := after_others (turns 1%nat) (fun _ => find_all Runs
    (fun d => time_lt d "endedAt" cutoff && (negb (truthy bookmark) || past "endedAt" "id" bookmark d))) in
  let rows := take (Z.to_nat batch_size) (order_by "endedAt" "id" found) in
  let! counts := archive_each cutoff owner lease_seconds timestamp dry_run turns 2 rows (0, 0, 0) in
  let! _ := if dry_run then st_ret false
            else after_others (turns (2 + length rows)%nat) (fun now => update_one RecordMaintenance (live_lease owner now)
              (fun d => dict_set d "runCursor" (bookmark_of "endedAt" "id" batch_size rows))) in
  st_ret counts.

(** The retention in days of each kind. *)
Record retention := Retention { rt_run : Z; rt_audit : Z; rt_event : Z }.

(** [maintain_growth_records]; [turns] of the four parts are apart, the lease is
    given back whatever happens. *)
Definition maintain_growth_records (config : retention) (owner : string) (timestamp batch_size lease_seconds : Z)
    (dry_run : bool) (turns : nat -> nat -> turn) : dbm growth_result :=
  let batch := clamp_batch batch_size in
  let none := GrowthResult false 0 0 0 0 0 0 in
  let! leased := after_others (turns 0%nat 0%nat) (fun now => _lease owner now lease_seconds) in
  if negb leased then st_ret none
  else
    let purge (part : nat) (g : growing) (days : Z) : dbm Z :=
      if 0 <? days then
        let! r := purge_expired_records g (timestamp - days * US_PER_DAY) owner batch lease_seconds dry_run (turns part) in
        st_ret r.1.1
      else st_ret 0 in
    let work : dbm growth_result :=
      let! runs := if 0 <? rt_run config
                   then _runs (timestamp - rt_run config * US_PER_DAY) owner lease_seconds timestamp batch dry_run (turns 1%nat)
                   else st_ret (0, 0, 0) in
      let '(archived, partial, protected) := runs in
      let! audit_ := purge 2%nat GAudit (rt_audit config) in
      let! events := purge 3%nat GEvents (rt_event config) in
      let! operations := purge 4%nat GOperations (rt_run config) in
      st_ret (GrowthResult true archived partial audit_ events operations protected) in
    let release : dbm bool := after_others (turns 5%nat 0%nat) (fun now => update_one RecordMaintenance (held_by owner)
      (fun d => dict_set d "expiresAt" (stamp (now - seconds 1)))) in
    fun db => let '(r, db) := work db in
              match release db with
              | (Ok _, db) => (r, db)
              | (Raise e, db) => (Raise e, db)
              end.
End growth.
