(* ===== verification/GrowthFacts.v ===== *)
(** * The records that are purged and archived

    [maintenance_spares_needed] is about what one transaction removes,
    [run_archive_conserves] and [audit_purge_accounted] about a whole round, under any
    turns that leave the run or the records alone: both instantiate [sound_maintain],
    which carries any invariant of the transactions through the round. *)

From stdpp Require Import sets pretty.
From S2P Require Import Prelude PyTime PyValue PyText Ordering FileOrder Mongo Ownership Interleave Growth.
Open Scope camera_scope.
Open Scope Z_scope.

(** ** What a round keeps: every step of it keeps the invariant, whatever happens in
    between *)

Section growth.
Context `{Mongo, RecordCodec, !MongoLaws}.

Section keeps.
Variable P : database -> Prop.
Variable E : exn -> Prop.

Definition good {A} (r : result exn A) : Prop := match r with Ok _ => True | Raise e => E e end.

(** The invariant holds after the computation, raised or returned. *)
Definition sound {A} (m : dbm A) : Prop := forall db, P db -> wp m (fun r db' => good r /\ P db') db.

(** The callback of a transaction owes it where it returns. *)
Definition commits {A} (m : dbm A) : Prop := forall db, P db -> wp m (fun r db' => good r /\ (is_ok r -> P db')) db.

Lemma sound_ret {A} (a : A) : sound (st_ret a).
Proof. by intros db HP. Qed.

Lemma sound_bind {A B} (m : dbm A) (k : A -> dbm B) : sound m -> (forall a, sound (k a)) -> sound (st_bind m k).
Proof.
  intros Hm Hk db HP. apply wp_bind. eapply wp_mono; [by apply Hm|]. intros [a|e] db1 [Hg HP1]; cbn [on_ok]; [by apply Hk|done].
Qed.

Lemma sound_if {A} (b : bool) (m m' : dbm A) : sound m -> sound m' -> sound (if b then m else m').
Proof. by destruct b. Qed.

Variable quiet : turn -> Prop.
(** When the steps happen. *)
Variable moment : Z -> Prop.
Hypothesis quiet_moment : forall t, quiet t -> moment (t_now t).
Hypothesis P_others : forall t db, quiet t -> P db -> P (t_others t db).
Hypothesis P_lease : forall db db', frame [RecordMaintenance] db db' -> P db -> P db'.
Hypothesis E_driver : E PyMongoError.

Lemma sound_after {A} t (m : Z -> dbm A) : quiet t -> (forall now, sound (m now)) -> sound (after_others t m).
Proof. intros Hq Hm db HP. apply Hm. by apply P_others. Qed.

Lemma sound_turn {A} t (m : Z -> dbm A) : quiet t -> (forall now, moment now -> commits (m now)) -> sound (in_turn t m).
Proof.
  intros Hq Hm db HP. assert (HP' : P (t_others t db)) by by apply P_others. apply wp_transaction.
  eapply wp_mono; [by apply Hm; [apply quiet_moment|]|]. intros [a|e] db' [Hg Hok]; [|done]. specialize (Hok I). destruct (t_fate t) as [|[]]; done.
Qed.

Lemma sound_find_one c q : sound (find_one c q).
Proof. intros db HP. by apply wp_find_one. Qed.

Lemma sound_find_all c q : sound (find_all c q).
Proof. intros db HP. by apply wp_find_all. Qed.

Lemma sound_lease q f : sound (update_one RecordMaintenance q f).
Proof.
  intros db HP. apply wp_update_one; [|done]. intros d db' (_ & _ & Ho). split; [done|]. apply (P_lease db); [by apply frame_one|done].
Qed.

Lemma sound_take owner lease_seconds now : sound (_lease owner now lease_seconds).
Proof.
  intros db HP. apply wp_bind, wp_update; cbn [on_ok].
  - intros d db' (_ & _ & Ho). apply wp_ret. split; [done|]. apply (P_lease db); [by apply frame_one|done].
  - intros _. apply wp_catch, wp_bind, wp_insert; cbn [on_ok].
    + intros db' _ _ Ho. apply wp_ret. split; [done|]. apply (P_lease db); [by apply frame_one|done].
    + intros d' _ _. by apply wp_ret.
Qed.

Variable cut : growing -> Z.
Hypothesis archives : forall run_id cutoff owner lease_seconds timestamp dry_run now, moment now ->
  commits (archive_run_commit run_id cutoff owner lease_seconds timestamp dry_run now).
Hypothesis purges : forall g owner lease_seconds candidate dry_run now, moment now ->
  commits (purge_commit g (cut g) owner lease_seconds candidate dry_run now).

Lemma sound_archive_each cutoff owner lease_seconds timestamp dry_run turns : (forall i, quiet (turns i)) ->
  forall rows i counts, sound (archive_each cutoff owner lease_seconds timestamp dry_run turns i rows counts).
Proof.
  intros Hq. induction rows as [|run rows IH]; intros i counts; cbn [archive_each]; [apply sound_ret|].
  apply sound_bind; [apply sound_turn; [done|]; intros; by apply archives|]. intros r. destruct counts as [[a b] c]. apply IH.
Qed.

Lemma sound_runs cutoff owner lease_seconds timestamp batch dry_run turns : (forall i, quiet (turns i)) ->
  sound (_runs cutoff owner lease_seconds timestamp batch dry_run turns).
Proof.
  intros Hq. unfold _runs. apply sound_bind; [apply sound_after; [done|intros; apply sound_find_one]|]. intros held.
  apply sound_bind; [apply sound_after; [done|intros; apply sound_find_all]|]. intros found.
  apply sound_bind; [by apply sound_archive_each|]. intros counts.
  apply sound_bind; [|intros; apply sound_ret]. apply sound_if; [apply sound_ret|]. by apply sound_after; [|intros; apply sound_lease].
Qed.

Lemma sound_purge_each g owner lease_seconds dry_run turns : (forall i, quiet (turns i)) ->
  forall rows i removed protected, sound (purge_each g (cut g) owner lease_seconds dry_run turns i rows removed protected).
Proof.
  intros Hq. induction rows as [|row rows IH]; intros i n p; cbn [purge_each]; [apply sound_ret|].
  apply sound_bind; [apply sound_turn; [done|]; intros; by apply purges|]. intros r. apply IH.
Qed.

Lemma sound_purge g owner batch lease_seconds dry_run turns : (forall i, quiet (turns i)) ->
  sound (purge_expired_records g (cut g) owner batch lease_seconds dry_run turns).
Proof.
  intros Hq. unfold purge_expired_records. apply sound_bind; [apply sound_after; [done|intros; apply sound_find_one]|]. intros held.
  apply sound_bind; [apply sound_after; [done|intros; apply sound_find_all]|]. intros found.
  apply sound_bind; [by apply sound_purge_each|]. intros counts.
  apply sound_bind; [|intros; apply sound_ret]. apply sound_if; [apply sound_ret|]. by apply sound_after; [|intros; apply sound_lease].
Qed.

Lemma sound_finally {A} (m : dbm A) (k : dbm bool) : sound m -> sound k ->
  sound (fun db => let '(r, db) := m db in match k db with (Ok _, db) => (r, db) | (Raise e, db) => (Raise e, db) end).
Proof.
  intros Hm Hk db HP. specialize (Hm db HP). unfold wp in *. destruct (m db) as [r db1]. destruct Hm as [Hg HP1].
  specialize (Hk db1 HP1). unfold wp in Hk.
  destruct (k db1) as [[b|e] db2]; destruct Hk; split; done.
Qed.

Definition growing_days (config : retention) (g : growing) : Z :=
  match g with GAudit => rt_audit config | GEvents => rt_event config | GOperations => rt_run config end.

Lemma sound_maintain config owner timestamp batch_size lease_seconds dry_run turns :
  (forall g, cut g = timestamp - growing_days config g * US_PER_DAY) -> (forall p i, quiet (turns p i)) ->
  sound (maintain_growth_records config owner timestamp batch_size lease_seconds dry_run turns).
Proof.
  intros Hc Hq. apply sound_bind; [apply sound_after; [done|intros; apply sound_take]|]. intros leased.
  apply sound_if; [apply sound_ret|]. apply (sound_finally (_ : dbm growth_result) (_ : dbm bool)).
  - apply sound_bind; [apply sound_if; [by apply sound_runs|apply sound_ret]|]. intros [[a b] c].
    repeat (apply sound_bind; [apply sound_if; [apply sound_bind; [|intros; apply sound_ret]|apply sound_ret]|intros ?]);
      [| | |apply sound_ret].
    all: cbv zeta.
    + pose proof (Hc GAudit) as Hg. cbn [growing_days] in Hg. rewrite <- Hg. by apply sound_purge.
    + pose proof (Hc GEvents) as Hg. cbn [growing_days] in Hg. rewrite <- Hg. by apply sound_purge.
    + pose proof (Hc GOperations) as Hg. cbn [growing_days] in Hg. rewrite <- Hg. by apply sound_purge.
  - by apply sound_after; [|intros; apply sound_lease].
Qed.
End keeps.

(** ** A chunk of a run *)

Lemma wp_fence owner lease_seconds now (Q : result exn bool -> database -> Prop) db :
  (forall db' d, frame [RecordMaintenance] db db' -> d ∈ content db RecordMaintenance -> live_lease owner now d = true -> Q (Ok true) db') ->
  Q (Ok false) db -> wp (_fence owner lease_seconds now) Q db.
Proof.
  intros Hy Hn. apply wp_update_one; [|done]. intros d db' (Hq & (l & r & E & _) & Ho). apply (Hy _ d); [by apply frame_one| |done].
  rewrite E. apply elem_of_middle.
Qed.

Lemma wp_exists c q (Q : result exn bool -> database -> Prop) db :
  (forall d, d ∈ content db c -> q d = true -> Q (Ok true) db) -> (no_match q (content db c) -> Q (Ok false) db) ->
  wp (exists_one c q) Q db.
Proof. intros Hy Hn. apply wp_bind, wp_find_one; cbn [on_ok]; [intros d Hd Hq; by eapply wp_ret, Hy|intros Hno; by apply wp_ret, Hn]. Qed.

(** No reference is left on an ended run. *)
Record releasable (run : pydict) (db : database) : Prop := {
  rel_ended : truthy run.["endedAt"] = true;
  rel_proof : no_match (fun d => of_run run.["taskId"] run.["id"] d && proof_pending d) (content db Files);
  rel_task : forall d, d ∈ content db Tasks -> d.["id"] = run.["taskId"] ->
    NoDup (map (fun d : pydict => d.["id"]) (content db Tasks)) -> d.["runId"] <> run.["id"];
  rel_locks : no_match (of_run run.["taskId"] run.["id"]) (content db EndpointLocks);
  rel_commands : no_match (fun d => of_run run.["taskId"] run.["id"] d && open_command d) (content db Commands);
  rel_operations : no_match (fun d => of_run run.["taskId"] run.["id"] d && open_operation d) (content db Operations) }.

Lemma wp_archive_refusal run (Q : result exn (option string) -> database -> Prop) db :
  (forall r db', frame [Tasks] db db' -> (r = None -> releasable run db) -> Q (Ok r) db') -> wp (archive_refusal run) Q db.
Proof.
  intros HQ. unfold archive_refusal. cbv zeta. wp_step; [by apply wp_ret, HQ|]. wp_step. apply wp_exists; unfold on_ok.
  { intros d _ _. by apply wp_ret, HQ. }
  intros Hproof. wp_step. assert (Hrest : forall task db1, frame [Tasks] db db1 ->
    (match task with
     | Some d => exists t, t ∈ content db Tasks /\ t.["id"] = run.["taskId"] /\ d.["runId"] = t.["runId"]
     | None => no_match (fun d => fld d "id" run.["taskId"]) (content db Tasks) end) ->
    wp (if match task with Some d => fld d "runId" run.["id"] | None => false end then st_ret (Some "任务仍引用运行")
      else
        let! locked := exists_one EndpointLocks (of_run run.["taskId"] run.["id"]) in
        if locked then st_ret (Some "运行锁仍存在")
        else
          let! command := exists_one Commands (fun d => of_run run.["taskId"] run.["id"] d && open_command d) in
          if command then st_ret (Some "存在未结算命令")
          else
            let! operation := exists_one Operations (fun d => of_run run.["taskId"] run.["id"] d && open_operation d) in
            if operation then st_ret (Some "存在未结算操作") else st_ret None) Q db1).
  { intros task db1 Hf Htask. wp_step; [by apply wp_ret, HQ|]. wp_step. apply wp_exists; unfold on_ok; [intros; by apply wp_ret, HQ|].
    intros Hlocks. wp_step. apply wp_exists; unfold on_ok; [intros; by apply wp_ret, HQ|]. intros Hcommands. wp_step.
    apply wp_exists; unfold on_ok; [intros; by apply wp_ret, HQ|]. intros Hoperations. apply wp_ret, HQ; [done|]. intros _.
    breflect. rewrite !Hf in * by set_solver. split; [by destruct (truthy run.["endedAt"])|done| |done|done|done].
    intros d Hd Hid Hn. destruct task as [d'|].
    - destruct Htask as (t & Ht & Hid' & Er). assert (t = d) as -> by (apply (NoDup_map_eq _ _ _ _ Hn); [done|done|congruence]).
      rewrite <- Er. by apply fld_false.
    - specialize (Htask d Hd). cbn in Htask. by apply fld_false in Htask. }
  apply wp_update; unfold on_ok.
  - intros d db' (Hq%fld_true & (l & r & E & E') & Ho). apply (Hrest (Some (dict_inc "recordArchiveRevision" 1 d))); [by apply frame_one|].
    exists d. rewrite E, get_inc_ne by done. split; [apply elem_of_middle|done].
  - intros Hno. by apply (Hrest None).
Qed.

Definition pinned (now : Z) (db : database) (identifier : pyval) : Prop :=
  exists d, d ∈ content db Idempotency /\ pin_of identifier now d = true.

Lemma wp_unpinned rows now (Q : result exn (list pydict) -> database -> Prop) db :
  (forall l, sublist l rows -> (forall d, d ∈ l -> ~ pinned now db d.["id"]) -> Q (Ok l) db) -> wp (unpinned rows now) Q db.
Proof.
  revert Q. induction rows as [|row rows IH]; intros Q HQ; cbn [unpinned].
  - apply wp_ret, HQ; [constructor|by intros d ?%elem_of_nil].
  - wp_step. apply wp_exists; unfold on_ok; [intros d Hd Hp|intros Hno]; wp_step; apply IH; unfold on_ok; intros l Hs Hl; apply wp_ret, HQ.
    + by constructor.
    + done.
    + by constructor.
    + intros d [->|Hd]%elem_of_cons; [|by apply Hl]. intros (d' & Hd' & Hp). by rewrite (Hno d' Hd') in Hp.
Qed.

(** What a batch holds: commands of the run, each at most once. *)
Record batch_ok (run : pydict) (now : Z) (selected : list pydict) (db : database) : Prop := {
  bt_commands : forall d, d ∈ selected -> d ∈ content db Commands /\ of_run run.["taskId"] run.["id"] d = true;
  bt_free : forall d, d ∈ selected -> ~ pinned now db d.["id"];
  bt_once : NoDup (map (fun d : pydict => d.["id"]) (content db Commands)) -> NoDup selected }.

Lemma wp_next_batch run now (Q : result exn (list pydict * list pydict) -> database -> Prop) db :
  (forall rows selected, sublist selected rows -> batch_ok run now selected db -> Q (Ok (rows, selected)) db) ->
  wp (next_batch run.["taskId"] run.["id"] now) Q db.
Proof.
  intros HQ. unfold next_batch. wp_step. assert (Hrest : forall archive, wp (let! found := find_all Commands (fun d =>
      of_run run.["taskId"] run.["id"] d && (negb (truthy match archive with Some d => d.["commandCursor"] | None => PNone end)
      || match d.["id"], match archive with Some d => d.["commandCursor"] | None => PNone end with PStr s, PStr t => negb (str_leb s t) | _, _ => false end)) in
    let rows := take CHUNK_SIZE (sort_by (fun d : pydict => text d.["id"]) str_leb found) in
    let! selected := unpinned rows now in st_ret (rows, selected)) Q db).
  { intros archive. wp_step. apply wp_find_all; unfold on_ok. intros found Hp. cbv zeta. wp_step. apply wp_unpinned; unfold on_ok.
    intros selected Hs Hfree. apply wp_ret, HQ; [done|].
    assert (Hsub : forall d, d ∈ selected -> d ∈ found).
    { intros d Hd. rewrite <- (sort_by_perm (fun d : pydict => text d.["id"]) str_leb). eapply (subseteq_take CHUNK_SIZE).
      by eapply elem_of_submseteq; [|apply sublist_submseteq]. }
    split; [|done|].
    - intros d Hd%Hsub. rewrite Hp in Hd. apply list_elem_of_filter in Hd as [[Hq _]%andb_prop Hd]. done.
    - intros Hn%NoDup_fmap_1. eapply sublist_NoDup; [|exact Hs]. eapply sublist_NoDup; [|apply sublist_take].
      rewrite sort_by_perm, Hp. by apply NoDup_filter. }
  apply wp_find_one; unfold on_ok; [intros d _ _; apply (Hrest (Some d))|intros _; apply (Hrest None)].
Qed.

(** How many commands of a status an archive row counts, and how many a list holds. *)
Definition archived_count (s : string) (row : pydict) : Z :=
  match row.["commandStatuses"] with PDict l => default 0 (as_int l.[s]) | _ => 0 end.

Definition count_status (s : string) (l : list pydict) : Z := zlen (filter (fun d => fld d "status" (PStr s) = true) l).

Lemma archived_inc s d st : (exists t, st = PStr t) ->
  archived_count s (inc_status d st) = archived_count s d + if bool_decide (st = PStr s) then 1 else 0.
Proof.
  intros [t ->]. unfold inc_status, archived_count. dget. cbn [text].
  set (l := match d.["commandStatuses"] with PDict l => l | _ => [] end).
  assert (El : match d.["commandStatuses"] with PDict l => default 0 (as_int l.[s]) | _ => 0 end = default 0 (as_int l.[s])).
  { unfold l. by destruct d.["commandStatuses"]. }
  rewrite El. destruct (decide (t = s)) as [->|Hne].
  - unfold dict_inc. rewrite get_set_eq, bool_decide_eq_true_2 by done. cbn. fold (default 0 (as_int l.[s])). lia.
  - rewrite get_inc_ne by (cbn; congruence). rewrite bool_decide_eq_false_2 by congruence. lia.
Qed.

Lemma archived_inc_all s l : Forall (fun c : pydict => exists t, c.["status"] = PStr t) l -> forall d,
  archived_count s (foldl inc_status d (map (fun c : pydict => c.["status"]) l)) = archived_count s d + count_status s l.
Proof.
  unfold count_status. induction 1 as [|c l Hc Hl IH]; intros d; cbn [map foldl]; [by rewrite Z.add_0_r|].
  rewrite IH, archived_inc by done. rewrite filter_cons. fold (fld c "status" (PStr s)). destruct (fld c "status" (PStr s)) eqn:Ef.
  - rewrite decide_True by done. autorewrite with zlen. lia.
  - rewrite decide_False by done. lia.
Qed.

Lemma archived_other s k v d : k <> "commandStatuses" -> archived_count s (dict_set d k v) = archived_count s d.
Proof. intros Hk. unfold archived_count. by rewrite get_set_ne by congruence. Qed.

Lemma archived_inc_counts s l b d : Forall (fun c : pydict => exists t, c.["status"] = PStr t) l ->
  archived_count s (inc_counts l b d) = archived_count s d + count_status s l.
Proof.
  intros Hl. unfold inc_counts. assert (Hb : forall d', archived_count s (match b with Some n => dict_inc "budgetCount" n d' | None => d' end)
    = archived_count s d'). { intros d'. destruct b; [by apply archived_other|done]. }
  rewrite Hb, archived_inc_all by done. unfold dict_inc. by rewrite archived_other.
Qed.

(** Terminal states are texts. *)
Lemma terminal_text c : open_command c = false -> exists t, c.["status"] = PStr t.
Proof.
  unfold open_command, fld_in, COMMAND_TERMINALS. cbn [map existsb]. rewrite negb_false_iff. unfold fld.
  repeat case_bool_decide; eauto; discriminate.
Qed.

(** What the writes of a chunk leave. *)
Record chunk_done (run : pydict) (selected : list pydict) (finished : bool) (db db' : database) : Prop := {
  cd_commands : content db' Commands = filter (fun d => of_run run.["taskId"] run.["id"] d
    && fld_in d "id" (map (fun c : pydict => c.["id"]) selected) = false) (content db Commands);
  cd_budgets : exists q, content db' Budgets = filter (fun d => q d = false) (content db Budgets)
    /\ (forall d, q d = true -> no_match (of_run run.["taskId"] run.["id"]) (content db' Commands)
                 /\ exists b, b ∈ content db Budgets /\ budget_of run.["id"] b = true /\ d.["_id"] = b.["_id"]);
  cd_archive : exists l a a' r, content db' RunArchives = l ++ a' :: r
    /\ (content db RunArchives = l ++ a :: r
        \/ (r = [] /\ content db RunArchives = l /\ forall s, archived_count s a = 0))
    /\ a.["runId"] = run.["id"] /\ a'.["runId"] = run.["id"]
    /\ (forall s, archived_count s a' = archived_count s a + count_status s selected)
    /\ (finished = true -> a'.["state"] = PStr "ARCHIVED");
  cd_runs : content db' Runs = content db Runs \/ (finished = true /\ exists l d r,
    content db Runs = l ++ d :: r /\ d.["id"] = run.["id"] /\ content db' Runs = l ++ r);
  cd_finished : finished = true -> no_match (of_run run.["taskId"] run.["id"]) (content db' Commands)
    /\ no_match (budget_of run.["id"]) (content db' Budgets);
  cd_frame : frame [RunArchives; Commands; Budgets; Runs] db db' }.

Lemma fld_in_true d k l : fld_in d k l = true <-> exists v, v ∈ l /\ d.[k] = v.
Proof.
  unfold fld_in. rewrite existsb_exists. setoid_rewrite <- list_elem_of_In. split; intros (v & Hv & E); exists v; by rewrite fld_true in *.
Qed.

Lemma wp_delete_batch run selected (Q : result exn Z -> database -> Prop) db :
  (forall n db', content db' Commands = filter (fun d => of_run run.["taskId"] run.["id"] d
     && fld_in d "id" (map (fun c : pydict => c.["id"]) selected) = false) (content db Commands) ->
     frame [Commands] db db' -> Q (Ok n) db') ->
  wp (delete_batch run selected) Q db.
Proof.
  intros HQ. unfold delete_batch. case_bool_decide as Hs.
  - subst selected. apply wp_ret, HQ; [|done]. symmetry. apply filter_all. intros d _. cbn. by rewrite andb_false_r.
  - apply wp_delete_many. intros db' E Ho. apply HQ; [done|by apply frame_one].
Qed.

Lemma wp_delete_budgets run remaining (Q : result exn (option Z) -> database -> Prop) db :
  (forall n q db', content db' Budgets = filter (fun d => q d = false) (content db Budgets) ->
     (forall d, q d = true -> remaining = false /\ exists b, b ∈ content db Budgets /\ budget_of run.["id"] b = true /\ d.["_id"] = b.["_id"]) ->
     frame [Budgets] db db' -> Q (Ok n) db') ->
  wp (delete_budgets run remaining) Q db.
Proof.
  intros HQ. unfold delete_budgets. assert (Hno : Q (Ok None) db /\ Q (Ok (Some 0)) db).
  { split; apply (HQ _ (fun _ => false)); try done; symmetry; by apply filter_all. }
  destruct Hno as [Hnone Hzero]. destruct remaining; [by apply wp_ret|]. wp_step. apply wp_find_all; unfold on_ok. intros found Hp. cbv zeta. wp_step. case_bool_decide as Hb.
  - rewrite Hb. apply wp_ret; unfold on_ok. by apply wp_ret.
  - apply wp_delete_many; unfold on_ok. intros db' E Ho. apply wp_ret, (HQ _ _ _ E); [|by apply frame_one].
    intros d (v & Hv & Ev)%fld_in_true. split; [done|]. apply list_elem_of_fmap in Hv as (b & -> & Hb'). exists b.
    apply subseteq_take in Hb'. rewrite Hp in Hb'. apply list_elem_of_filter in Hb' as [? ?]. done.
Qed.

Lemma archive_fields s rows finished timestamp d :
  let d' := set_all (archive_changes rows finished timestamp) d in
  archived_count s d' = archived_count s d /\ d'.["runId"] = d.["runId"]
  /\ (finished = true -> d'.["state"] = PStr "ARCHIVED").
Proof.
  unfold set_all, archive_changes. destruct finished; cbn [app foldl fst snd]; rewrite !archived_other by done; dget; done.
Qed.

Lemma inc_counts_run l b d : (inc_counts l b d).["runId"] = d.["runId"].
Proof.
  assert (Hf : forall (sts : list pyval) d', (foldl inc_status d' sts).["runId"] = d'.["runId"]).
  { induction sts as [|st sts IH]; intros d'; cbn; [done|]. rewrite IH. unfold inc_status. by dget. }
  unfold inc_counts. destruct b; rewrite ?get_inc_ne by done; rewrite Hf; by rewrite get_inc_ne.
Qed.

(** The archive row takes the batch, the run goes after the last of it. *)
Lemma wp_close_chunk run timestamp rows selected budgets finished (Q : result exn (bool * string) -> database -> Prop) db :
  Forall (fun c : pydict => exists t, c.["status"] = PStr t) selected ->
  (exists a, a ∈ content db RunArchives /\ a.["runId"] = run.["id"]) ->
  (forall reason db' l a a' r, content db RunArchives = l ++ a :: r -> content db' RunArchives = l ++ a' :: r ->
     a.["runId"] = run.["id"] -> a'.["runId"] = run.["id"] ->
     (forall s, archived_count s a' = archived_count s a + count_status s selected) ->
     (finished = true -> a'.["state"] = PStr "ARCHIVED") ->
     (content db' Runs = content db Runs \/ (finished = true /\ exists l d r,
        content db Runs = l ++ d :: r /\ d.["id"] = run.["id"] /\ content db' Runs = l ++ r)) ->
     frame [RunArchives; Runs] db db' -> Q (Ok (finished, reason)) db') ->
  wp (close_chunk run timestamp rows selected budgets finished) Q db.
Proof.
  intros Hst (a0 & Ha0 & Hr0) HQ. unfold close_chunk. wp_step. apply wp_update_one; unfold on_ok.
  2:{ intros Hno. specialize (Hno a0 Ha0). cbn in Hno. by apply fld_false in Hno. }
  intros a db1 (Hq & (l & r & E & E') & Ho). apply fld_true in Hq.
  assert (Hdone : forall reason db', content db' RunArchives = content db1 RunArchives ->
    (content db' Runs = content db1 Runs \/ (finished = true /\ exists l d r,
        content db1 Runs = l ++ d :: r /\ d.["id"] = run.["id"] /\ content db' Runs = l ++ r)) ->
    frame [Runs] db1 db' -> Q (Ok (finished, reason)) db').
  { intros reason db' Ea Er Hf. assert (Hfields := fun s => archive_fields s rows finished timestamp (inc_counts selected budgets a)).
    eapply (HQ reason db' l a); [done|by rewrite Ea, E'|done| | | | |].
    - destruct (Hfields "") as (_ & -> & _). by rewrite inc_counts_run.
    - intros s. destruct (Hfields s) as (-> & _ & _). by apply archived_inc_counts.
    - by destruct (Hfields "") as (_ & _ & ?).
    - by rewrite <- (Ho Runs).
    - eapply frame_weaken; [eapply frame_trans; [by apply frame_one|exact Hf]|set_solver]. }
  wp_step. wp_step.
  - apply wp_delete; unfold on_ok.
    + intros l' d r' db' Hd El Er Ho'. apply wp_ret, Hdone; [by apply Ho'| |by apply frame_one]. right. split; [done|].
      apply andb_prop in Hd as [Hd%fld_true _]. by exists l', d, r'.
    + intros _. apply wp_ret, Hdone; [done|by left|done].
  - apply wp_ret; unfold on_ok. apply wp_ret, Hdone; [done|by left|done].
Qed.

(** The archive row of a chunk, before and after. *)
Definition archive_step (run : pydict) (selected : list pydict) (finished : bool) (db db' : database) : Prop :=
  exists l a a' r, content db RunArchives = l ++ a :: r /\ content db' RunArchives = l ++ a' :: r
    /\ a.["runId"] = run.["id"] /\ a'.["runId"] = run.["id"]
    /\ (forall s, archived_count s a' = archived_count s a + count_status s selected)
    /\ (finished = true -> a'.["state"] = PStr "ARCHIVED").

Lemma wp_empty_batch run timestamp rows selected (Q : result exn (bool * string) -> database -> Prop) db :
  Forall (fun c : pydict => exists t, c.["status"] = PStr t) selected ->
  (exists a, a ∈ content db RunArchives /\ a.["runId"] = run.["id"]) ->
  (forall finished reason db', chunk_done run selected finished db db' -> archive_step run selected finished db db' ->
     Q (Ok (finished, reason)) db') ->
  wp (empty_batch run timestamp rows selected) Q db.
Proof.
  intros Hst Harch HQ. unfold empty_batch. wp_step. apply wp_delete_batch; unfold on_ok. intros _ db1 Ecmd Hf1. wp_step.
  assert (Hrest : forall remaining : bool, (remaining = false -> no_match (of_run run.["taskId"] run.["id"]) (content db1 Commands)) ->
    wp (let! budgets := delete_budgets run remaining in
        let! budget_left := exists_one Budgets (budget_of run.["id"]) in
        close_chunk run timestamp rows selected budgets (negb remaining && negb budget_left)) Q db1).
  { intros remaining Hrem. wp_step. apply wp_delete_budgets; unfold on_ok. intros n q db2 Eb Hq Hf2. wp_step.
    assert (Hlast : forall left : bool, (left = false -> no_match (budget_of run.["id"]) (content db2 Budgets)) ->
      wp (close_chunk run timestamp rows selected n (negb remaining && negb left)) Q db2).
    { intros left Hleft. assert (Hf : frame [Commands; Budgets] db db2).
      { eapply frame_weaken; [eapply frame_trans; [exact Hf1|exact Hf2]|set_solver]. }
      apply wp_close_chunk; [done|by rewrite (Hf RunArchives) by set_solver|]. intros reason db3 l a a' r E E' Ha Ha' Hc Hs Hr Hf3.
      assert (Ec : content db3 Commands = content db1 Commands) by (rewrite (Hf3 Commands), (Hf2 Commands) by set_solver; done).
      rewrite (Hf RunArchives) in E by set_solver. rewrite (Hf Runs) in Hr by set_solver.
      apply HQ; [|by exists l, a, a', r]. split.
      - by rewrite Ec.
      - exists q. rewrite (Hf3 Budgets) by set_solver. rewrite Eb, (Hf1 Budgets) by set_solver. split; [done|].
        intros d Hd. destruct (Hq d Hd) as (Hr0 & b & Hb & Hb'). rewrite (Hf1 Budgets) in Hb by set_solver. rewrite Ec. eauto.
      - exists l, a, a', r. rewrite E'. split_and!; [done|by left|done..].
      - done.
      - intros [Hr1 Hl1]%andb_prop. rewrite Ec, (Hf3 Budgets) by set_solver. split; [by apply Hrem, negb_true_iff|by apply Hleft, negb_true_iff].
      - eapply frame_weaken; [eapply frame_trans; [exact Hf|exact Hf3]|set_solver]. }
    apply wp_exists; unfold on_ok; [intros; by apply Hlast|intros Hno; by apply Hlast]. }
  apply wp_exists; unfold on_ok; [intros; by apply Hrest|intros Hno; by apply Hrest].
Qed.

Lemma wp_write_chunk run timestamp rows selected (Q : result exn (bool * string) -> database -> Prop) db :
  Forall (fun c : pydict => exists t, c.["status"] = PStr t) selected ->
  (forall finished reason db', chunk_done run selected finished db db' -> Q (Ok (finished, reason)) db') ->
  wp (write_chunk run timestamp rows selected) Q db.
Proof.
  intros Hst HQ. unfold write_chunk. wp_step. apply wp_upsert; unfold on_ok.
  - intros d db1 (Hq%fld_true & (l0 & r0 & E0 & E0') & Ho). assert (Ea : content db1 RunArchives = content db RunArchives) by congruence.
    apply wp_empty_batch; [done|exists d; rewrite Ea, E0; split; [apply elem_of_middle|done]|].
    intros finished reason db' Hd (l & a & a' & r & E & E' & Hrest). apply HQ. destruct Hd. rewrite !Ho in * by done.
    split; [done|done| |done|done|].
    + exists l, a, a', r. split; [done|]. split; [left; congruence|done].
    + eapply frame_weaken; [eapply frame_trans; [by apply (frame_one RunArchives)|done]|set_solver].
  - intros db1 Hno _ E1 Ho. apply wp_empty_batch; [done| |].
    { exists (run_archive_row run.["id"] run.["taskId"] run timestamp). rewrite E1. split; [apply elem_of_app; right; by left|done]. }
    intros finished reason db' Hd (l & a & a' & r & E & E' & Ha & Hrest). apply HQ. destruct Hd. rewrite !Ho in * by done.
    split; [done|done| |done|done|].
    + rewrite E1 in E. destruct r as [|x r _] using rev_ind.
      * apply app_inj_tail in E as [El <-]. exists l, (run_archive_row run.["id"] run.["taskId"] run timestamp), a', []. split; [done|].
        split; [by right|done].
      * exfalso. rewrite app_comm_cons, app_assoc in E. apply app_inj_tail in E as [E _].
        specialize (Hno a). rewrite E in Hno. specialize (Hno (elem_of_middle _ _ _)). cbn in Hno. by apply fld_false in Hno.
    + eapply frame_weaken; [eapply frame_trans; [by apply (frame_one RunArchives)|done]|set_solver].
  - intros d' Hno Hd' Hc. exfalso. specialize (Hno d' Hd'). cbn in Hno. unfold clash in Hc. cbn in Hc.
    rewrite andb_true_r in Hc. change (fld d' "runId" run.["id"] = true) in Hc. congruence.
Qed.

(** One transaction on a run: nothing but fences, or a chunk of a run that nothing needs. *)
Record run_chunk (cutoff : Z) (owner : string) (run : pydict) (selected : list pydict) (finished : bool) (now : Z) (db db1 db' : database) : Prop := {
  rc_fences : frame [RecordMaintenance; Tasks] db db1;
  rc_run : run ∈ content db Runs;
  rc_cutoff : time_lt run "endedAt" cutoff = true;
  rc_releasable : releasable run db;
  rc_lease : exists lease, lease ∈ content db RecordMaintenance /\ live_lease owner now lease = true;
  rc_batch : batch_ok run now selected db1;
  rc_done : chunk_done run selected finished db1 db' }.

Lemma wp_archive_run run_id cutoff owner lease_seconds timestamp dry_run now (Q : result exn (bool * string) -> database -> Prop) db :
  (forall r db', frame [RecordMaintenance; Tasks] db db' -> Q (Ok r) db') ->
  (forall run selected finished reason db1 db', run_chunk cutoff owner run selected finished now db db1 db' -> Q (Ok (finished, reason)) db') ->
  wp (archive_run_commit run_id cutoff owner lease_seconds timestamp dry_run now) Q db.
Proof.
  intros Hidle HQ. unfold archive_run_commit. wp_step. apply wp_fence; unfold on_ok; [|by apply wp_ret, Hidle].
  intros db0 lease Hf0 Hl Hlive. cbn [negb]. assert (Hf0' : frame [RecordMaintenance; Tasks] db db0) by (eapply frame_weaken; [exact Hf0|set_solver]).
  wp_step. apply wp_find_one; unfold on_ok; [|intros _; by apply wp_ret, Hidle]. intros run Hrun [Hid%fld_true Hcut]%andb_prop.
  unfold archive_chunk. wp_step. apply wp_archive_refusal; unfold on_ok. intros refusal db1 Hf1 Hrel.
  assert (Hf : frame [RecordMaintenance; Tasks] db db1) by (eapply frame_weaken; [eapply frame_trans; [exact Hf0|exact Hf1]|set_solver]).
  destruct refusal as [reason|]; [by apply wp_ret, Hidle|]. specialize (Hrel eq_refl). wp_step.
  apply wp_next_batch; unfold on_ok. intros rows selected Hsub Hbatch. wp_step; [by apply wp_ret, Hidle|]. apply wp_write_chunk.
  - apply Forall_forall. intros c Hc. apply (bt_commands _ _ _ _ Hbatch) in Hc as [Hc Hof]. apply terminal_text.
    rewrite (Hf1 Commands) in Hc by set_solver. pose proof (rel_commands _ _ Hrel c Hc) as Ho. cbn in Ho. by rewrite Hof in Ho.
  - intros finished reason db' Hdone. apply (HQ run selected finished reason db1). split; try done; [by rewrite <- (Hf0 Runs) by set_solver| |by exists lease].
    destruct Hrel as [R1 R2 R3 R4 R5 R6]. rewrite !Hf0 in * by set_solver. by split.
Qed.

(** ** The summary of a run accounts for its commands *)

Definition rows_of (c : cname) (q : pydict -> bool) (db : database) : list pydict := filter (fun d => q d = true) (content db c).

(** Counted by an archive row of the run, or still in the store. *)
Definition tally (run_id : pyval) (s : string) (db : database) : Z :=
  zsum (map (archived_count s) (rows_of RunArchives (fun d => fld d "runId" run_id) db))
  + count_status s (rows_of Commands (fun d => fld d "runId" run_id) db).

(** The run is gone and only its summary is left. *)
Definition archived_run (task_id run_id : pyval) (db : database) : Prop :=
  no_match (of_run task_id run_id) (content db Commands) /\ no_match (budget_of run_id) (content db Budgets)
  /\ exists a, a ∈ content db RunArchives /\ a.["runId"] = run_id /\ a.["state"] = PStr "ARCHIVED".

Record run_accounted (task_id run_id : pyval) (total : string -> Z) (db : database) : Prop := {
  ra_ids : NoDup (map (fun d : pydict => d.["id"]) (content db Commands));
  ra_tally : forall s, tally run_id s db = total s;
  ra_task : forall d, d ∈ content db Runs -> d.["id"] = run_id -> d.["taskId"] = task_id;
  ra_kept : (exists d, d ∈ content db Runs /\ d.["id"] = run_id) \/ archived_run task_id run_id db }.

(** The rest of the program leaves the ended run [run_id] alone: its commands, its
    budgets, its row and its summary. *)
Record leaves_run (run_id : pyval) (others : database -> database) : Prop := {
  lr_ids : forall db, NoDup (map (fun d : pydict => d.["id"]) (content db Commands)) ->
    NoDup (map (fun d : pydict => d.["id"]) (content (others db) Commands));
  lr_commands : forall db, rows_of Commands (fun d => fld d "runId" run_id) (others db) = rows_of Commands (fun d => fld d "runId" run_id) db;
  lr_budgets : forall db, rows_of Budgets (budget_of run_id) (others db) = rows_of Budgets (budget_of run_id) db;
  lr_archives : forall db, rows_of RunArchives (fun d => fld d "runId" run_id) (others db) = rows_of RunArchives (fun d => fld d "runId" run_id) db;
  lr_runs : forall db, rows_of Runs (fun d => fld d "id" run_id) (others db) = rows_of Runs (fun d => fld d "id" run_id) db }.

Lemma elem_rows c q db d : d ∈ rows_of c q db <-> q d = true /\ d ∈ content db c.
Proof. unfold rows_of. by rewrite list_elem_of_filter. Qed.

Lemma elem_rows_key c k v db d : d ∈ rows_of c (fun d => fld d k v) db <-> d.[k] = v /\ d ∈ content db c.
Proof. rewrite elem_rows. cbn. by rewrite fld_true. Qed.

Lemma no_match_rows c (p q : pydict -> bool) db : (forall d, p d = true -> q d = true) ->
  no_match p (content db c) <-> no_match p (rows_of c q db).
Proof.
  intros Hpq. split; intros Hno d Hd; [apply elem_rows in Hd as [_ Hd]; by apply Hno|].
  destruct (p d) eqn:Ep; [|done]. rewrite (Hno d) in Ep; [done|]. by apply elem_rows; auto.
Qed.

Lemma run_accounted_rows task_id run_id total db db' :
  NoDup (map (fun d : pydict => d.["id"]) (content db' Commands)) ->
  rows_of Commands (fun d => fld d "runId" run_id) db' = rows_of Commands (fun d => fld d "runId" run_id) db ->
  rows_of Budgets (budget_of run_id) db' = rows_of Budgets (budget_of run_id) db ->
  rows_of RunArchives (fun d => fld d "runId" run_id) db' = rows_of RunArchives (fun d => fld d "runId" run_id) db ->
  rows_of Runs (fun d => fld d "id" run_id) db' = rows_of Runs (fun d => fld d "id" run_id) db ->
  run_accounted task_id run_id total db -> run_accounted task_id run_id total db'.
Proof.
  intros Hn Ec Eb Ea Er [Hi Ht Hk Hp]. split; [done| | |].
  - intros s. unfold tally. rewrite Ec, Ea. apply Ht.
  - intros d Hd Hid. apply Hk; [|done]. apply (elem_rows_key Runs "id" run_id). rewrite <- Er. by apply elem_rows_key.
  - destruct Hp as [(d & Hd & Hid)|(Hc & Hb & a & Ha & Hid & Hs)].
    + left. exists d. split; [|done]. apply (elem_rows_key Runs "id" run_id). rewrite Er. by apply elem_rows_key.
    + right. split_and!.
      * apply (no_match_rows Commands _ (fun d => fld d "runId" run_id)); [by intros d [_ ?]%andb_prop|]. rewrite Ec.
        apply no_match_rows; [by intros d [_ ?]%andb_prop|done].
      * apply (no_match_rows Budgets _ (budget_of run_id)); [done|]. rewrite Eb. by apply no_match_rows.
      * exists a. split; [|done]. apply (elem_rows_key RunArchives "runId" run_id). rewrite Ea. by apply elem_rows_key.
Qed.

Lemma run_accounted_frame cs task_id run_id total db db' : frame cs db db' ->
  bool_decide (Commands ∉ cs /\ Budgets ∉ cs /\ RunArchives ∉ cs /\ Runs ∉ cs) = true ->
  run_accounted task_id run_id total db -> run_accounted task_id run_id total db'.
Proof.
  intros Hf (Hc & Hb & Ha & Hr)%bool_decide_eq_true Hok. eapply run_accounted_rows; [| | | | |exact Hok]; unfold rows_of; rewrite Hf by done; try done.
  apply Hok.
Qed.

Lemma count_status_app s l k : count_status s (l ++ k) = count_status s l + count_status s k.
Proof. unfold count_status. rewrite filter_app. by autorewrite with zlen. Qed.

Lemma count_status_perm s l k : l ≡ₚ k -> count_status s l = count_status s k.
Proof. intros Hp. unfold count_status, zlen. by rewrite Hp. Qed.

Lemma filter_split {A} (p q : A -> bool) l : (forall x, q x = true -> p x = true) ->
  filter (fun x => p x = true) l ≡ₚ filter (fun x => q x = true) l ++ filter (fun x => p x = true) (filter (fun x => q x = false) l).
Proof.
  intros Hpq. induction l as [|x l IH]; [done|]. rewrite !filter_cons. destruct (q x) eqn:Eq.
  - rewrite Hpq by done. rewrite !decide_True, decide_False by done. cbn. by rewrite IH.
  - rewrite (decide_False (P := false = true)), (decide_True (P := false = false)) by done. rewrite filter_cons.
    destruct (decide (p x = true)); [|done]. rewrite IH. apply Permutation_middle.
Qed.

(** The deleted commands are the batch. *)
Definition in_batch (run : pydict) (selected : list pydict) (d : pydict) : bool :=
  of_run run.["taskId"] run.["id"] d && fld_in d "id" (map (fun c : pydict => c.["id"]) selected).

Lemma deleted_batch run now selected db : NoDup (map (fun d : pydict => d.["id"]) (content db Commands)) ->
  batch_ok run now selected db -> filter (fun d => in_batch run selected d = true) (content db Commands) ≡ₚ selected.
Proof.
  intros Hn Hb. apply NoDup_Permutation; [apply NoDup_filter; by eapply NoDup_fmap_1|by apply Hb|]. intros x.
  rewrite list_elem_of_filter. split.
  - intros [[Hr (v & Hv & Ev)%fld_in_true]%andb_prop Hx]. apply list_elem_of_fmap in Hv as (c & -> & Hc).
    destruct (bt_commands _ _ _ _ Hb c Hc) as [Hc' _]. by rewrite (NoDup_map_eq _ _ _ _ Hn Hx Hc' Ev).
  - intros Hx. destruct (bt_commands _ _ _ _ Hb x Hx) as [Hx' Hr]. split; [|done]. unfold in_batch. rewrite Hr.
    apply fld_in_true. exists x.["id"]. split; [|done]. by apply (list_elem_of_fmap_2 (fun c : pydict => c.["id"])).
Qed.

Lemma of_run_id task_id run_id d : of_run task_id run_id d = true -> d.["runId"] = run_id.
Proof. unfold of_run. rewrite andb_true_iff, !fld_true. tauto. Qed.

Lemma commands_split run now selected db l' s : NoDup (map (fun d : pydict => d.["id"]) (content db Commands)) ->
  batch_ok run now selected db -> l' = filter (fun d => in_batch run selected d = false) (content db Commands) ->
  count_status s (filter (fun d => fld d "runId" run.["id"] = true) (content db Commands))
  = count_status s selected + count_status s (filter (fun d => fld d "runId" run.["id"] = true) l').
Proof.
  intros Hn Hb ->. rewrite <- count_status_app. apply count_status_perm. rewrite <- (deleted_batch run now selected db Hn Hb).
  apply filter_split. intros d [Hr%of_run_id _]%andb_prop. by apply fld_true.
Qed.

(** Another run's batch leaves the commands of a run. *)
Lemma commands_other run selected run_id (l : list pydict) : run.["id"] <> run_id ->
  filter (fun d => fld d "runId" run_id = true) (filter (fun d => in_batch run selected d = false) l)
  = filter (fun d => fld d "runId" run_id = true) l.
Proof.
  intros Hne. apply list_filter_filter_l. intros d Hd%fld_true. destruct (in_batch run selected d) eqn:Eb; [|done].
  apply andb_prop in Eb as [Hr%of_run_id _]. congruence.
Qed.

(** The counts of the archive rows of a run move by the batch of the run. *)
Lemma archives_move run selected finished db db' run_id s : chunk_done run selected finished db db' ->
  zsum (map (archived_count s) (rows_of RunArchives (fun d => fld d "runId" run_id) db'))
  = zsum (map (archived_count s) (rows_of RunArchives (fun d => fld d "runId" run_id) db))
    + if bool_decide (run.["id"] = run_id) then count_status s selected else 0.
Proof.
  intros [_ _ (l & a & a' & r & E' & E & Ha & Ha' & Hc & _) _ _ _]. unfold rows_of. rewrite E'.
  assert (Hrow : forall d : pydict, d.["runId"] = run.["id"] ->
    zsum (map (archived_count s) (filter (fun d => fld d "runId" run_id = true) [d])) = if bool_decide (run.["id"] = run_id) then archived_count s d else 0).
  { intros d Hd. rewrite filter_cons. case_bool_decide as Er; [rewrite decide_True by (apply fld_true; congruence)|rewrite decide_False
      by (rewrite fld_true; congruence)]; cbn; lia. }
  change (a' :: r) with ([a'] ++ r). rewrite !filter_app, !map_app, !zsum_app, Hrow by done.
  destruct E as [-> | (-> & -> & Hz)].
  - change (a :: r) with ([a] ++ r). rewrite !filter_app, !map_app, !zsum_app, Hrow by done. rewrite Hc. case_bool_decide; lia.
  - cbn. rewrite Hc, Hz. case_bool_decide; lia.
Qed.

Lemma chunk_accounts task_id run_id total now run selected finished db db' : run_accounted task_id run_id total db ->
  run ∈ content db Runs -> batch_ok run now selected db -> chunk_done run selected finished db db' ->
  run_accounted task_id run_id total db'.
Proof.
  intros [Hi Ht Hk Hp] Hrun Hb Hd. assert (Ec : content db' Commands = filter (fun d => in_batch run selected d = false) (content db Commands)) by exact (cd_commands _ _ _ _ _ Hd).
  assert (Hsub : forall d, d ∈ content db' Commands -> d ∈ content db Commands).
  { intros d. rewrite Ec. by intros [_ ?]%list_elem_of_filter. }
  split.
  - rewrite Ec. apply (sublist_NoDup _ _ Hi), (fmap_sublist (fun d : pydict => d.["id"])), sublist_filter.
  - intros s. rewrite <- Ht. unfold tally. rewrite (archives_move _ _ _ _ _ _ _ Hd). unfold rows_of. case_bool_decide as Er.
    + subst run_id. rewrite (commands_split run now selected db (content db' Commands) s) by done. lia.
    + rewrite Ec, commands_other by done. lia.
  - intros d Hd' Hid. apply Hk; [|done]. destruct (cd_runs _ _ _ _ _ Hd) as [E|(_ & l & x & r & E & _ & E')]; [by rewrite <- E|].
    rewrite E. rewrite E' in Hd'. set_solver.
  - destruct (decide (run.["id"] = run_id)) as [<-|Hne].
    + rewrite <- (Hk run Hrun eq_refl). destruct (cd_runs _ _ _ _ _ Hd) as [E|(Hfin & _)].
      * left. exists run. by rewrite E.
      * right. destruct (cd_finished _ _ _ _ _ Hd Hfin) as [Hc Hbud]. split_and!; [done|done|].
        destruct (cd_archive _ _ _ _ _ Hd) as (l & a & a' & r & E' & _ & _ & Ha' & _ & Hs). exists a'. rewrite E'.
        split; [apply elem_of_middle|auto].
    + destruct Hp as [(d & Hd' & Hid)|(Hc & Hbud & a0 & Ha0 & Hid & Hs)].
      * left. exists d. split; [|done]. destruct (cd_runs _ _ _ _ _ Hd) as [->|(_ & l & x & r & E & Ex & ->)]; [done|].
        rewrite E in Hd'. set_solver.
      * right. split_and!; [by intros d Hd'%Hsub; apply Hc| |].
        -- destruct (cd_budgets _ _ _ _ _ Hd) as (q & -> & _). intros d [_ Hd']%list_elem_of_filter. by apply Hbud.
        -- exists a0. split; [|done]. destruct (cd_archive _ _ _ _ _ Hd) as (l & a & a' & r & -> & E & Ha & _).
           destruct E as [E|(-> & E & _)]; rewrite E in Ha0; set_solver.
Qed.

(** ** What the purge spares *)

(** Nothing refers to the record any more. *)
Record unneeded (g : growing) (now : Z) (db : database) (d : pydict) : Prop := {
  un_settled : g = GOperations -> open_operation d = false;
  un_pinned : let identifier := if is_audit g then d.["targetId"] else d.["id"] in
    truthy identifier = true -> ~ pinned now db identifier;
  un_target : g = GAudit -> truthy d.["targetId"] = true ->
    no_match (fun c => fld c "id" d.["targetId"] && open_command c) (content db Commands)
    /\ no_match (fun o => fld o "id" d.["targetId"] && open_operation o) (content db Operations);
  un_size : g = GAudit -> json_size (PDict (audit_summary d)) <= 16384;
  un_task : truthy d.["taskId"] = true -> forall t, t ∈ content db Tasks -> t.["id"] = d.["taskId"] ->
    NoDup (map (fun t : pydict => t.["id"]) (content db Tasks)) -> truthy t.["nodeId"] = false /\ truthy t.["resourceHealthRecovery"] = false
    /\ fld_in t "desiredState" [PStr "RUNNING"; PStr "PAUSED"] = false
    /\ (g = GOperations -> t.["controlOperationId"] <> d.["id"]);
  un_run : truthy d.["runId"] = true ->
    no_match (fun c => fld c "runId" d.["runId"] && open_command c) (content db Commands)
    /\ no_match (fun l => fld l "runId" d.["runId"]) (content db EndpointLocks)
    /\ (forall r, r ∈ content db Runs -> r.["id"] = d.["runId"] ->
         NoDup (map (fun r : pydict => r.["id"]) (content db Runs)) -> truthy r.["endedAt"] = true) }.

Lemma wp_exists_if b c q (Q : result exn bool -> database -> Prop) db :
  (b = true -> forall d, d ∈ content db c -> q d = true -> Q (Ok true) db) ->
  ((b = true -> no_match q (content db c)) -> Q (Ok false) db) -> wp (exists_if b c q) Q db.
Proof. intros Hy Hn. destruct b; [apply wp_exists; eauto|]. by apply wp_ret, Hn. Qed.

Lemma wp_audit_needed d (Q : result exn bool -> database -> Prop) db :
  Q (Ok true) db ->
  (json_size (PDict (audit_summary d)) <= 16384 -> (truthy d.["targetId"] = true ->
    no_match (fun c => fld c "id" d.["targetId"] && open_command c) (content db Commands)
    /\ no_match (fun o => fld o "id" d.["targetId"] && open_operation o) (content db Operations)) -> Q (Ok false) db) ->
  wp (audit_needed d) Q db.
Proof.
  intros Hy Hn. unfold audit_needed. cbv zeta. wp_step; [by apply wp_ret|]. wp_step.
  apply wp_exists_if; unfold on_ok; [intros; by apply wp_ret|]. intros Hc. apply wp_exists_if; [done|]. intros Ho.
  apply Hn; [blia|auto].
Qed.

Lemma wp_run_needs d (Q : result exn bool -> database -> Prop) db :
  Q (Ok true) db ->
  ((truthy d.["runId"] = true ->
    no_match (fun c => fld c "runId" d.["runId"] && open_command c) (content db Commands)
    /\ no_match (fun l => fld l "runId" d.["runId"]) (content db EndpointLocks)
    /\ (forall r, r ∈ content db Runs -> r.["id"] = d.["runId"] ->
         NoDup (map (fun r : pydict => r.["id"]) (content db Runs)) -> truthy r.["endedAt"] = true)) -> Q (Ok false) db) ->
  wp (run_needs d) Q db.
Proof.
  intros Hy Hn. unfold run_needs. cbv zeta. wp_step; [|by apply wp_ret, Hn]. wp_step.
  assert (Hrest : forall run, (forall r, r ∈ content db Runs -> r.["id"] = d.["runId"] ->
      NoDup (map (fun r : pydict => r.["id"]) (content db Runs)) -> run = Some r) ->
    wp (if match run with Some d => negb (truthy d.["endedAt"]) | None => false end then st_ret true
        else let! command := exists_one Commands (fun c => fld c "runId" d.["runId"] && open_command c) in
             if command then st_ret true else exists_one EndpointLocks (fun l => fld l "runId" d.["runId"])) Q db).
  { intros run Hrun. wp_step; [by apply wp_ret|]. wp_step. apply wp_exists; unfold on_ok; [intros; by apply wp_ret|].
    intros Hc. apply wp_exists; [done|]. intros Hl. apply Hn. intros _. split_and!; [done|done|]. intros r Hr Hid Hu.
    rewrite (Hrun r Hr Hid Hu) in *. by apply negb_false_iff. }
  apply wp_find_one; unfold on_ok.
  - intros r Hr Hid%fld_true. apply (Hrest (Some r)). intros r' Hr' Hid' Hu. f_equal. by apply (NoDup_map_eq _ _ _ _ Hu); [| |congruence].
  - intros Hno. apply (Hrest None). intros r Hr Hid. specialize (Hno r Hr). cbn in Hno. by apply fld_false in Hno.
Qed.

Definition task_free (g : growing) (d t : pydict) : Prop :=
  truthy t.["nodeId"] = false /\ truthy t.["resourceHealthRecovery"] = false
  /\ fld_in t "desiredState" [PStr "RUNNING"; PStr "PAUSED"] = false
  /\ (g = GOperations -> t.["controlOperationId"] <> d.["id"]).

Lemma wp_task_needs g d identifier (Q : result exn bool -> database -> Prop) db :
  (g = GOperations -> identifier = d.["id"]) ->
  (forall b db', frame [Tasks] db db' ->
    (b = false -> truthy d.["taskId"] = true -> forall t, t ∈ content db Tasks -> t.["id"] = d.["taskId"] ->
     NoDup (map (fun t : pydict => t.["id"]) (content db Tasks)) -> task_free g d t) ->
    Q (Ok b) db') ->
  wp (task_needs g identifier d) Q db.
Proof.
  intros Hi HQ. unfold task_needs. wp_step; [|by apply wp_ret, HQ]. wp_step. apply wp_update; unfold on_ok.
  - intros t db' (Hid%fld_true & (l & r & E & E') & Ho). apply wp_ret, HQ; [by apply frame_one|]. intros Hb _ t' Ht' Hid' Hu.
    assert (t' = t) as -> by (apply (NoDup_map_eq _ _ _ _ Hu); [done|rewrite E; apply elem_of_middle|congruence]).
    unfold fld_in, fld in *. rewrite !get_inc_ne in Hb by done. repeat setoid_rewrite get_inc_ne in Hb; try done.
    apply orb_false_elim in Hb as [Hb Hd]. apply orb_false_elim in Hb as [Hb Hr]. apply orb_false_elim in Hb as [Hc Hn].
    unfold task_free. split_and!; [done|done|done|]. intros ->. rewrite Hi in Hc by done. by apply fld_false.
  - intros Hno. apply wp_ret, HQ; [done|]. intros _ _ t Ht Hid. specialize (Hno t Ht). cbn in Hno. by apply fld_false in Hno.
Qed.

Lemma wp_protected g d now (Q : result exn bool -> database -> Prop) db :
  (forall b db', frame [Tasks] db db' -> (b = false -> unneeded g now db d) -> Q (Ok b) db') ->
  wp (_protected g d now) Q db.
Proof.
  intros HQ. assert (Hyes : forall db', frame [Tasks] db db' -> Q (Ok true) db') by (intros; by apply HQ).
  unfold _protected. destruct (match g with GOperations => open_operation d | _ => false end) eqn:Eo; [by apply wp_ret, Hyes|].
  cbv zeta. wp_step. apply wp_exists_if; unfold on_ok; [intros; by apply wp_ret, Hyes|]. intros Hpin. wp_step.
  assert (Hrest : (g = GAudit -> json_size (PDict (audit_summary d)) <= 16384 /\ (truthy d.["targetId"] = true ->
      no_match (fun c => fld c "id" d.["targetId"] && open_command c) (content db Commands)
      /\ no_match (fun o => fld o "id" d.["targetId"] && open_operation o) (content db Operations))) ->
    wp (let! needed := task_needs g (if is_audit g then d.["targetId"] else d.["id"]) d in
        if needed then st_ret true else run_needs d) Q db).
  { intros Haudit. wp_step. apply wp_task_needs; unfold on_ok; [by intros ->|]. intros b db1 Hf Htask.
    wp_step; [by apply wp_ret, Hyes|]. apply wp_run_needs; [by apply Hyes|]. intros Hrun. apply HQ; [done|]. intros _. split.
    - by intros ->.
    - intros identifier Ht (x & Hx & Hp). by pose proof (eq_trans (eq_sym Hp) (Hpin Ht x Hx)).
    - intros Hg Ht. by apply Haudit.
    - intros Hg. by apply Haudit.
    - intros Ht t Htk Hid. by apply (Htask eq_refl Ht t).
    - rewrite (Hf Commands), (Hf EndpointLocks), (Hf Runs) in Hrun by set_solver. done. }
  destruct (is_audit g) eqn:Eg.
  - apply wp_audit_needed; unfold on_ok; [by apply wp_ret, Hyes|]. intros Hsize Htarget. by apply Hrest.
  - apply wp_ret; unfold on_ok. apply Hrest. by intros ->.
Qed.

Definition purge_cnames : list cname := [RecordMaintenance; Tasks; Audit; Events; Operations; AuditChunks; PurgeDays].

Lemma archive_audit_touches d day now : touches purge_cnames (archive_audit d day now).
Proof. unfold archive_audit. repeat first [touch_step | progress cbv zeta]. Qed.

Lemma protected_touches g d now : touches purge_cnames (_protected g d now).
Proof. unfold _protected, audit_needed, task_needs, run_needs, exists_if, exists_one. repeat first [touch_step | progress cbv zeta]. Qed.

Lemma count_touches g day now : touches purge_cnames (count_deleted g day now).
Proof. unfold count_deleted. repeat first [touch_step | progress cbv zeta]. Qed.

Lemma purge_touches g cutoff owner lease_seconds candidate dry_run now :
  touches purge_cnames (purge_commit g cutoff owner lease_seconds candidate dry_run now).
Proof.
  unfold purge_commit, _fence. cbv zeta. repeat first [touch_step | apply protected_touches | apply archive_audit_touches
    | apply count_touches | progress cbv zeta]. destruct g; apply touches_delete; by apply (bool_decide_unpack _).
Qed.

Lemma wp_final {A} (m : dbm A) (Q : database -> Prop) db : wp m (fun _ db' => Q db') db -> Q (m db).2.
Proof. unfold wp. by destruct (m db). Qed.

(** What holds before a transaction and after its callback holds after it. *)
Lemma transaction_keeps {A} (m : dbm A) f (Q : database -> Prop) db : Q db -> wp m (fun _ db' => Q db') db -> Q (transaction f m db).2.
Proof.
  intros Hdb Hm. apply wp_final, wp_transaction. eapply wp_mono; [exact Hm|].
  intros [a|e] db' HQ; [|done]. by destruct f as [|[]].
Qed.

(** A live lease of the owner. *)
Definition leased (owner : string) (now : Z) (db : database) : Prop :=
  exists lease, lease ∈ content db RecordMaintenance /\ live_lease owner now lease = true.

Lemma purge_removes g cutoff owner lease_seconds candidate dry_run now db :
  NoDup (map (fun d : pydict => d.["_id"]) (content db (collection_of g))) ->
  wp (purge_commit g cutoff owner lease_seconds candidate dry_run now) (fun _ db' =>
    forall d, d ∈ content db (collection_of g) -> d ∈ content db' (collection_of g)
      \/ (dry_run = false /\ time_lt d "createdAt" cutoff = true /\ unneeded g now db d /\ leased owner now db)) db.
Proof.
  intros Hu. assert (Hc : bool_decide (collection_of g ∉ [RecordMaintenance; Tasks; AuditChunks; PurgeDays]) = true) by by destruct g.
  apply bool_decide_eq_true in Hc. unfold purge_commit. cbv zeta. wp_step. apply wp_fence; unfold on_ok; [|apply wp_ret; by left].
  intros db0 lease Hf0 Hl Hlive. cbn [negb]. wp_step. apply wp_find_one; unfold on_ok; [|intros _; apply wp_ret; rewrite Hf0 by set_solver; by left].
  intros doc Hdoc [_ Hcut]%andb_prop. wp_step. apply wp_protected; unfold on_ok.
  intros b db1 Hf1 Hun. assert (E1 : content db1 (collection_of g) = content db (collection_of g)) by (rewrite Hf1, Hf0 by set_solver; done).
  wp_step; [apply wp_ret; rewrite E1; by left|]. specialize (Hun eq_refl). wp_step; [apply wp_ret; rewrite E1; by left|]. wp_step.
  apply wp_delete; unfold on_ok; [|intros _; apply wp_ret; rewrite E1; by left]. cbn [negb]. intros l d' r db2 Hid%fld_true El Er Ho.
  assert (Hdel : forall x, x ∈ content db (collection_of g) -> x ∈ content db2 (collection_of g)
    \/ (time_lt x "createdAt" cutoff = true /\ unneeded g now db x /\ leased owner now db)).
  { intros x Hx. rewrite <- E1, El in Hx. rewrite Er. destruct (decide (x = d')) as [->|Hne]; [|set_solver]. right.
    rewrite Hf0 in Hdoc by set_solver.
    assert (d' = doc) as -> by (apply (NoDup_map_eq _ _ _ _ Hu); [rewrite <- E1, El; apply elem_of_middle|done|done]).
    split_and!; [done| |by exists lease]. destruct Hun as [U1 U2 U3 U4 U5 U6]. unfold pinned in *.
    rewrite ?Hf0 in * by set_solver. by split. }
  assert (Hfin : forall X, touches [AuditChunks; PurgeDays] X -> wp X (fun (_ : result exn bool) db' => forall d, d ∈ content db (collection_of g) ->
    d ∈ content db' (collection_of g) \/ (false = false /\ time_lt d "createdAt" cutoff = true /\ unneeded g now db d /\ leased owner now db)) db2).
  { intros X HX. eapply wp_mono; [apply HX|]. cbn. intros r3 db3 Hf3 x Hx. rewrite Hf3 by set_solver. destruct (Hdel x Hx); [by left|by right]. }
  apply (Hfin (let! _ := if is_audit g then archive_audit doc (utc_day (created_at doc)) now else st_ret tt in
               let! _ := count_deleted g (utc_day (created_at doc)) now in st_ret true)).
  unfold archive_audit, count_deleted. repeat first [touch_step | progress cbv zeta].
Qed.

Lemma archive_removes run_id cutoff owner lease_seconds timestamp dry_run now db :
  wp (archive_run_commit run_id cutoff owner lease_seconds timestamp dry_run now) (fun _ db' =>
    (forall c, c ∈ content db Commands -> c ∈ content db' Commands \/ exists run, run ∈ content db Runs
       /\ of_run run.["taskId"] run.["id"] c = true /\ time_lt run "endedAt" cutoff = true /\ releasable run db /\ leased owner now db
       /\ ~ pinned now db c.["id"])
    /\ (forall b, b ∈ content db Budgets -> b ∈ content db' Budgets \/ exists run, run ∈ content db Runs
       /\ budget_of run.["id"] b = true /\ time_lt run "endedAt" cutoff = true /\ releasable run db /\ leased owner now db
       /\ no_match (of_run run.["taskId"] run.["id"]) (content db' Commands))) db.
Proof.
  apply wp_archive_run.
  - intros r db' Hf. rewrite !Hf by set_solver. split; intros; by left.
  - intros run selected finished reason db1 db' [Hf Hrun Hcut Hrel Hl Hb Hd]. split.
    + intros c Hc. rewrite (cd_commands _ _ _ _ _ Hd), Hf by set_solver. rewrite list_elem_of_filter.
      fold (in_batch run selected c). destruct (in_batch run selected c) eqn:E; [|by left]. right. exists run.
      apply andb_prop in E as [Hr (v & Hv & Ev)%fld_in_true]. split_and!; [done..|].
      apply list_elem_of_fmap in Hv as (d & -> & Hd'). rewrite Ev. pose proof (bt_free _ _ _ _ Hb d Hd') as Hp.
      unfold pinned in *. by rewrite Hf in Hp by set_solver.
    + intros b Hbud. destruct (cd_budgets _ _ _ _ _ Hd) as (q & E & Hq). rewrite E, Hf by set_solver. rewrite list_elem_of_filter.
      destruct (q b) eqn:Eq; [|by left]. right. exists run. destruct (Hq b Eq) as (Hno & b' & _ & Hof & Eb).
      split_and!; try done. unfold budget_of in *. by rewrite Eb.
Qed.

(** C26: what the maintenance of growing records removes is no longer needed.  Whatever the
    owner, the fate of the transaction and the moment, a purged audit record, event or
    operation is older than its cutoff, settled, not named by a valid idempotency record,
    and neither its task, its run nor its target is still at work; a removed command
    belongs to a run that ended before the cutoff, left no lock, no open command, no open
    operation and no closing proof to recover, is not the run of its task, and no valid
    idempotency record names the command; a removed budget belongs to such a run, all of
    whose commands are gone.
    A dry run removes no growing record, and nothing is removed without a live lease. *)
Theorem maintenance_spares_needed db f owner lease_seconds dry_run now cutoff :
  (forall g candidate, NoDup (map (fun d : pydict => d.["_id"]) (content db (collection_of g))) ->
     let db' := (transaction f (purge_commit g cutoff owner lease_seconds candidate dry_run now) db).2 in
     forall d, d ∈ content db (collection_of g) -> d ∈ content db' (collection_of g)
       \/ (dry_run = false /\ time_lt d "createdAt" cutoff = true /\ unneeded g now db d /\ leased owner now db))
  /\ (forall run_id timestamp,
     let db' := (transaction f (archive_run_commit run_id cutoff owner lease_seconds timestamp dry_run now) db).2 in
     (forall c, c ∈ content db Commands -> c ∈ content db' Commands \/ exists run, run ∈ content db Runs
        /\ of_run run.["taskId"] run.["id"] c = true /\ time_lt run "endedAt" cutoff = true /\ releasable run db /\ leased owner now db
        /\ ~ pinned now db c.["id"])
     /\ (forall b, b ∈ content db Budgets -> b ∈ content db' Budgets \/ exists run, run ∈ content db Runs
        /\ budget_of run.["id"] b = true /\ time_lt run "endedAt" cutoff = true /\ releasable run db /\ leased owner now db
       /\ no_match (of_run run.["taskId"] run.["id"]) (content db' Commands))).
Proof.
  split.
  - intros g candidate Hg. apply (transaction_keeps _ f (fun db' => forall d, _ -> d ∈ content db' (collection_of g) \/ _) db); [by left|].
    by apply purge_removes.
  - intros run_id timestamp. apply (transaction_keeps _ f (fun db' => (forall c, _ -> c ∈ content db' Commands \/ _)
      /\ forall b, _ -> b ∈ content db' Budgets \/ exists run, _ /\ _ /\ _ /\ _ /\ _ /\ no_match (of_run run.["taskId"] run.["id"]) (content db' Commands)) db);
      [split; by left|]. apply archive_removes.
Qed.

(** C27: the summary of a run accounts for its commands.  However often the maintenance
    runs, whoever holds its lease, whatever runs in between (leaving the ended run alone)
    and however each transaction ends, for every status the commands counted by the
    archive of the run and those still stored are as many as at first; and the run itself
    is only gone when its archive is closed and neither a command nor a budget is left. *)
Theorem run_archive_conserves config owner timestamp batch_size lease_seconds dry_run turns task_id run_id total db :
  (forall p i, leaves_run run_id (t_others (turns p i))) -> run_accounted task_id run_id total db ->
  run_accounted task_id run_id total (maintain_growth_records config owner timestamp batch_size lease_seconds dry_run turns db).2.
Proof.
  intros Hq Hok. apply wp_final.
  apply (wp_mono _ (fun r db' => good (fun _ => True) r /\ run_accounted task_id run_id total db')); [|by intros r db' [_ ?]].
  apply (sound_maintain (run_accounted task_id run_id total) (fun _ => True) (fun t => leaves_run run_id (t_others t)) (fun _ => True))
    with (cut := fun g => timestamp - growing_days config g * US_PER_DAY); try done.
  - intros t db1 [L1 L2 L3 L4 L5] Hok1. eapply run_accounted_rows; eauto. apply L1, Hok1.
  - intros db1 db2 Hf. by apply (run_accounted_frame _ _ _ _ _ _ Hf).
  - intros rid cutoff o ls ts dry now _ db1 Hok1. apply wp_archive_run.
    + intros r db2 Hf. split; [done|]. intros _. by apply (run_accounted_frame _ _ _ _ _ _ Hf).
    + intros run selected finished reason db2 db3 [Hf Hrun _ _ _ Hb Hd]. split; [done|]. intros _.
      apply (chunk_accounts _ _ _ now run selected finished db2); [by apply (run_accounted_frame _ _ _ _ _ _ Hf)|by rewrite Hf by set_solver|done|done].
  - intros g o ls candidate dry now _ db1 Hok1. eapply wp_mono; [apply purge_touches|]. intros r db2 Hf. split; [by destruct r|]. intros _.
    by apply (run_accounted_frame _ _ _ _ _ _ Hf).
Qed.

(** ** Every purged audit record has its summary *)

Lemma day_length t : length (String.list_byte_of_string (utc_day t)) = 10%nat.
Proof.
  unfold utc_day. destruct (civil_of_days (t / US_PER_DAY)) as [[y m] d].
  rewrite String.list_byte_of_string_of_list_byte, length_map, !length_app, !zpad_length. reflexivity.
Qed.

Lemma app_inj_length (a b x y : string) : String.length a = String.length b -> a +:+ x = b +:+ y -> a = b /\ x = y.
Proof.
  revert b. induction a as [|c a IH]; intros [|c' b]; cbn; try discriminate; [done|]. intros [= Hl] [= -> E].
  destruct (IH b Hl E) as [-> ->]. done.
Qed.

Lemma string_length_app (a b : string) : String.length (a +:+ b) = (String.length a + String.length b)%nat.
Proof. induction a as [|c a IH]; [done|]. change (S (String.length (a +:+ b)) = S (String.length a + String.length b)). by rewrite IH. Qed.

Lemma string_length_bytes a : String.length a = length (String.list_byte_of_string a).
Proof. unfold String.list_byte_of_string. rewrite length_map. induction a as [|c a IH]; cbn; congruence. Qed.

Lemma day_id_inj g t t' : day_id g (utc_day t) = day_id g (utc_day t') -> utc_day t = utc_day t'.
Proof. unfold day_id. intros E. by do 2 apply (inj _) in E. Qed.

Lemma day_id_other g day day' : is_audit g = false -> day_id g day <> day_id GAudit day'.
Proof. by destruct g. Qed.

Lemma day_chunk_inj t t' part part' : chunk_id (utc_day t) part = chunk_id (utc_day t') part' -> utc_day t = utc_day t' /\ part = part'.
Proof.
  unfold chunk_id. intros E. apply app_inj_length in E as [Ed E].
  - apply (inj _) in E. apply (inj pretty) in E. apply (day_id_inj GAudit) in Ed. done.
  - unfold day_id. rewrite !string_length_app, !(string_length_bytes (utc_day _)), !day_length. done.
Qed.

(** The records purged of a day. *)
Definition purged_on (db : database) (day : string) : Z :=
  match List.find (fun d => fld d "_id" (PStr (day_id GAudit day))) (content db PurgeDays) with
  | Some d => default 0 (as_int d.["deleted"])
  | None => 0
  end.

Section trail.
(** The retention of audit records in days: no round has a shorter one. *)
Variable days : Z.

(** A chunk describes itself, holds 1 to 100 records, they are among the purged ones of
    its day, and it expires at least the retention and 365 days after a moment of it. *)
Record chunk_holds (purged : string -> Z) (c : pydict) (t part : Z) (records : list pyval) : Prop := {
  ch_id : c.["_id"] = PStr (chunk_id (utc_day t) part);
  ch_day : c.["day"] = PStr (utc_day t);
  ch_part : c.["part"] = PInt part;
  ch_payload : c.["payload"] = PList records;
  ch_count : c.["count"] = PInt (zlen records);
  ch_digest : c.["sha256"] = PStr (json_sha256 (PList records));
  ch_size : 1 <= zlen records <= 100;
  ch_purged : 100 * part + zlen records <= purged (utc_day t);
  ch_expires : exists e, c.["expiresAt"] = stamp e /\ t + (days + 365) * US_PER_DAY <= e }.

(** The summary of a record is in a chunk of its day. *)
Definition summarised (db : database) (d : pydict) : Prop :=
  exists c, c ∈ content db AuditChunks /\ c.["day"] = PStr (utc_day (created_at d))
    /\ PDict (audit_summary d) ∈ list_value c.["payload"].

(** The time that a summary is promised is over: the retention and 365 days after a
    moment of the record's day. *)
Definition outlived (T : Z) (d : pydict) : Prop :=
  exists u, utc_day u = utc_day (created_at d) /\ u + (days + 365) * US_PER_DAY <= T.

(** The store accounts for the rows at a moment not after [T]. *)
Record audit_accounted (rows : list pydict) (T : Z) (db : database) : Prop := {
  aa_audit : NoDup (map (fun d : pydict => d.["_id"]) (content db Audit));
  aa_days : NoDup (map (fun d : pydict => d.["_id"]) (content db PurgeDays));
  aa_ids : NoDup (map (fun d : pydict => d.["_id"]) (content db AuditChunks));
  aa_chunks : forall c, c ∈ content db AuditChunks -> exists t part records, chunk_holds (purged_on db) c t part records;
  aa_rows : forall d, d ∈ rows -> d ∈ content db Audit
    \/ (time_lt d "createdAt" (T - days * US_PER_DAY) = true /\ (summarised db d \/ outlived T d)) }.

(** The rest of the program writes audit records but removes none; the index of the
    chunks deletes those that have expired. *)
Record leaves_audit (rows : list pydict) (t : turn) : Prop := {
  la_audit : forall db, NoDup (map (fun d : pydict => d.["_id"]) (content db Audit)) ->
    NoDup (map (fun d : pydict => d.["_id"]) (content (t_others t db) Audit));
  la_rows : forall db d, d ∈ rows -> d ∈ content db Audit -> d ∈ content (t_others t db) Audit;
  la_days : forall db, content (t_others t db) PurgeDays = content db PurgeDays;
  la_chunks : forall db, sublist (content (t_others t db) AuditChunks) (content db AuditChunks);
  la_expired : forall db c, c ∈ content db AuditChunks ->
    c ∈ content (t_others t db) AuditChunks \/ time_le c "expiresAt" (t_now t) = true }.

Lemma time_lt_le k t t' d : t <= t' -> time_lt d k t = true -> time_lt d k t' = true.
Proof. unfold time_lt. destruct (d.[k]); try done. intros ? ?. blia. Qed.

Lemma outlived_le T T' d : T <= T' -> outlived T d -> outlived T' d.
Proof. intros Hle (u & Hu & Ht). exists u. split; [done|lia]. Qed.

Lemma audit_accounted_later rows T T' db : T <= T' -> audit_accounted rows T db -> audit_accounted rows T' db.
Proof.
  intros Hle [A1 A2 A3 A4 A5]. split; try done. intros d Hd. destruct (A5 d Hd) as [?|[Hlt Hs]]; [by left|right].
  split; [eapply time_lt_le; [|exact Hlt]; lia|]. destruct Hs as [?|Ho]; [by left|right]. by eapply outlived_le.
Qed.

Lemma purged_found db d day : NoDup (map (fun d : pydict => d.["_id"]) (content db PurgeDays)) -> d ∈ content db PurgeDays ->
  d.["_id"] = PStr (day_id GAudit day) -> purged_on db day = default 0 (as_int d.["deleted"]).
Proof.
  intros Hn Hd Hid. unfold purged_on. destruct (List.find _ _) as [d'|] eqn:E.
  - apply List.find_some in E as [Hd' Hid'%fld_true]. apply list_elem_of_In in Hd'.
    by rewrite (NoDup_map_eq _ _ _ _ Hn Hd' Hd) by congruence.
  - exfalso. apply list_elem_of_In in Hd. apply (List.find_none _ _ E) in Hd. by apply fld_false in Hd.
Qed.

Lemma purged_none db day : no_match (fun d => fld d "_id" (PStr (day_id GAudit day))) (content db PurgeDays) -> purged_on db day = 0.
Proof.
  intros Hno. unfold purged_on. destruct (List.find _ _) as [d'|] eqn:E; [|done]. apply List.find_some in E as [Hd' Hid'].
  apply list_elem_of_In in Hd'. specialize (Hno d' Hd'). cbn in Hno. congruence.
Qed.

Lemma find_middle (q : pydict -> bool) l d d' r : q d = false -> q d' = false -> List.find q (l ++ d :: r) = List.find q (l ++ d' :: r).
Proof. intros Hd Hd'. induction l as [|x l IH]; cbn; [by rewrite Hd, Hd'|]. by rewrite IH. Qed.

Lemma find_snoc (q : pydict -> bool) l d : q d = false -> List.find q (l ++ [d]) = List.find q l.
Proof. intros Hd. induction l as [|x l IH]; cbn; [by rewrite Hd|]. by rewrite IH. Qed.

Lemma map_middle {A B} (f : A -> B) l x y r : f x = f y -> map f (l ++ x :: r) = map f (l ++ y :: r).
Proof. intros E. rewrite !map_app. cbn. by rewrite E. Qed.

Lemma wp_count_deleted g t now (Q : result exn unit -> database -> Prop) db :
  NoDup (map (fun d : pydict => d.["_id"]) (content db PurgeDays)) ->
  (forall db', frame [PurgeDays] db db' -> NoDup (map (fun d : pydict => d.["_id"]) (content db' PurgeDays)) ->
    (forall t', purged_on db' (utc_day t') = purged_on db (utc_day t') + if is_audit g && bool_decide (utc_day t' = utc_day t) then 1 else 0) ->
    Q (Ok tt) db') ->
  wp (count_deleted g (utc_day t) now) Q db.
Proof.
  intros Hn HQ. assert (Hother : forall t', is_audit g && bool_decide (utc_day t' = utc_day t) = false ->
    PStr (day_id g (utc_day t)) <> PStr (day_id GAudit (utc_day t'))).
  { intros t' Hb [= E]. destruct (is_audit g) eqn:Eg; [|by apply (day_id_other g _ _ Eg) in E].
    assert (g = GAudit) as -> by by destruct g. apply day_id_inj in E. by rewrite bool_decide_eq_true_2 in Hb. }
  assert (Hsame : forall t', is_audit g && bool_decide (utc_day t' = utc_day t) = true ->
    PStr (day_id g (utc_day t)) = PStr (day_id GAudit (utc_day t'))).
  { intros t' [Hg ->%bool_decide_eq_true]%andb_prop. by destruct g. }
  unfold count_deleted. cbv zeta. apply wp_upsert.
  - intros d db' (Hid%fld_true & (l & r & E & E') & Ho). set (d' := set_all _ _) in E'.
    assert (Hid' : d'.["_id"] = d.["_id"]) by (unfold d', set_all; cbn [foldl fst snd]; by dget).
    assert (Hdel : d'.["deleted"] = PInt (default 0 (as_int d.["deleted"]) + 1)).
    { unfold d', set_all, dict_inc. cbn [foldl fst snd]. by rewrite get_set_ne, get_set_eq. }
    assert (Hn' : NoDup (map (fun d : pydict => d.["_id"]) (content db' PurgeDays))).
    { rewrite E', (map_middle (fun d : pydict => d.["_id"]) l d' d r Hid'), <- E. done. }
    apply HQ; [by apply frame_one|done|]. intros t'. destruct (is_audit g && _) eqn:Eb.
    + rewrite (purged_found db' d'), (purged_found db d), Hdel; [done|done| |rewrite Hid; by apply Hsame|done| |rewrite Hid', Hid; by apply Hsame].
      * rewrite E. apply elem_of_middle.
      * rewrite E'. apply elem_of_middle.
    + unfold purged_on. rewrite E, E', (find_middle _ l d' d r); [by rewrite Z.add_0_r| |]; apply fld_false; rewrite ?Hid', Hid; by apply Hother.
  - intros db' Hno _ E Ho. assert (Hn' : NoDup (map (fun d : pydict => d.["_id"]) (content db' PurgeDays))).
    { rewrite E, map_app, NoDup_app. split_and!; [done| |apply NoDup_singleton]. intros x Hx ->%list_elem_of_singleton.
      apply list_elem_of_fmap in Hx as (d & Ed & Hd). specialize (Hno d Hd). cbn in Hno. apply fld_false in Hno. by rewrite <- Ed in Hno. }
    apply HQ; [by apply frame_one|done|]. intros t'. destruct (is_audit g && _) eqn:Eb.
    + rewrite (purged_none db) by (intros d Hd; rewrite <- (Hsame t' Eb); by apply Hno).
      erewrite purged_found; [| |rewrite E; apply elem_of_app; right; by left|by apply Hsame]; done.
    + unfold purged_on. rewrite E, find_snoc; [by rewrite Z.add_0_r|]. apply fld_false. by apply Hother.
  - intros d Hno Hd Hc. exfalso. specialize (Hno d Hd). cbn in Hno, Hc. rewrite andb_true_r in Hc.
    change (fld d "_id" (PStr (day_id g (utc_day t))) = true) in Hc. congruence.
Qed.

Definition in_chunk (db : database) (day : string) (v : pyval) : Prop :=
  exists c, c ∈ content db AuditChunks /\ c.["day"] = PStr day /\ v ∈ list_value c.["payload"].

(** The counters after one more record of a day. *)
Definition one_more (purged : string -> Z) (day day' : string) : Z := purged day' + if bool_decide (day' = day) then 1 else 0.

Lemma chunk_holds_mono purged purged' c t part records : (forall t, purged (utc_day t) <= purged' (utc_day t)) ->
  chunk_holds purged c t part records -> chunk_holds purged' c t part records.
Proof. intros Hle [? ? ? ? ? ? ? ? ?]. split; try done. specialize (Hle t). lia. Qed.

Lemma one_more_le purged day day' : purged day' <= one_more purged day day'.
Proof. unfold one_more. case_bool_decide; lia. Qed.

(** A chunk row with one summary more. *)
Lemma chunk_grows purged c t part records summary now : zlen records < 100 -> 100 * part + zlen records <= purged (utc_day t) ->
  c.["_id"] = PStr (chunk_id (utc_day t) part) -> c.["day"] = PStr (utc_day t) -> c.["part"] = PInt part ->
  (exists e, c.["expiresAt"] = stamp e /\ t + (days + 365) * US_PER_DAY <= e) ->
  chunk_holds (one_more purged (utc_day t)) (set_all (chunk_values (records ++ [summary]) now) c) t part (records ++ [summary]).
Proof.
  intros Hlt Hle Hid Hday Hpart Hexp. unfold set_all, chunk_values. cbn [foldl fst snd]. pose proof (zlen_nonneg records).
  split; dget; try done; autorewrite with zlen; [lia|]. unfold one_more. rewrite bool_decide_eq_true_2 by done. lia.
Qed.

Record chunk_added (db db' : database) (t : Z) (summary : pyval) : Prop := {
  ad_ids : NoDup (map (fun d : pydict => d.["_id"]) (content db' AuditChunks));
  ad_chunks : forall c, c ∈ content db' AuditChunks -> exists t' part records, chunk_holds (one_more (purged_on db) (utc_day t)) c t' part records;
  ad_new : in_chunk db' (utc_day t) summary;
  ad_old : forall day v, in_chunk db day v -> in_chunk db' day v;
  ad_frame : frame [AuditChunks] db db' }.

Lemma chunk_updated db db' t t0 l c r part records summary now : utc_day t0 = utc_day t ->
  NoDup (map (fun d : pydict => d.["_id"]) (content db AuditChunks)) ->
  (forall c, c ∈ content db AuditChunks -> exists t part records, chunk_holds (purged_on db) c t part records) ->
  content db AuditChunks = l ++ c :: r -> content db' AuditChunks = l ++ set_all (chunk_values (records ++ [summary]) now) c :: r ->
  (forall c', c' <> AuditChunks -> content db' c' = content db c') ->
  chunk_holds (purged_on db) c t0 part records -> zlen records < 100 -> chunk_added db db' t summary.
Proof.
  intros Ed Hn Hchunks E E' Ho [Ci Cd Cp Cl _ _ Cs Cu Ce] Hlt.
  pose proof (chunk_grows (purged_on db) c t0 part records summary now Hlt Cu Ci Cd Cp Ce) as Hg. rewrite Ed in Hg. set (c' := set_all _ c) in *.
  assert (Hin : forall x, x ∈ content db' AuditChunks -> x = c' \/ x ∈ content db AuditChunks) by (intros x; rewrite E, E'; set_solver).
  split; [| | | |by apply frame_one].
  - rewrite E', (map_middle (fun d : pydict => d.["_id"]) l c' c r), <- E; [done|]. by rewrite (ch_id _ _ _ _ _ Hg).
  - intros x [->|Hx]%Hin; [by eauto|]. destruct (Hchunks x Hx) as (t' & part' & records' & Hh). exists t', part', records'.
    eapply chunk_holds_mono; [|exact Hh]. intros t1. apply one_more_le.
  - exists c'. rewrite E'. split; [apply elem_of_middle|]. split; [rewrite <- Ed; apply Hg|]. rewrite (ch_payload _ _ _ _ _ Hg). cbn. set_solver.
  - intros day v (x & Hx & Hday & Hv). rewrite E in Hx. apply elem_of_app in Hx as [Hx|[->|Hx]%elem_of_cons].
    + exists x. rewrite E'. set_solver.
    + exists c'. rewrite E'. split; [apply elem_of_middle|]. rewrite Cl in Hv. rewrite (ch_payload _ _ _ _ _ Hg), (ch_day _ _ _ _ _ Hg). cbn in *.
      split; [congruence|set_solver].
    + exists x. rewrite E'. set_solver.
Qed.

Lemma chunk_inserted db db' t part summary now : t + days * US_PER_DAY <= now ->
  NoDup (map (fun d : pydict => d.["_id"]) (content db AuditChunks)) ->
  (forall c, c ∈ content db AuditChunks -> exists t part records, chunk_holds (purged_on db) c t part records) ->
  no_match (fun d => fld d "_id" (PStr (chunk_id (utc_day t) part))) (content db AuditChunks) ->
  100 * part <= purged_on db (utc_day t) ->
  content db' AuditChunks = content db AuditChunks ++ [[("_id", PStr (chunk_id (utc_day t) part)); ("day", PStr (utc_day t)); ("part", PInt part);
    ("createdAt", stamp now); ("expiresAt", stamp (now + ARCHIVE_DAYS * US_PER_DAY))] ++ chunk_values [summary] now] ->
  frame [AuditChunks] db db' -> chunk_added db db' t summary.
Proof.
  intros Hold Hn Hchunks Hno Hle E Hf. set (c' := [_; _; _; _; _] ++ _) in E.
  assert (Hg : chunk_holds (one_more (purged_on db) (utc_day t)) c' t part [summary]).
  { split; try done; [change (zlen [summary]) with 1; unfold one_more; rewrite bool_decide_eq_true_2 by done; lia|].
    exists (now + ARCHIVE_DAYS * US_PER_DAY). split; [done|]. unfold ARCHIVE_DAYS. lia. }
  assert (Hin : forall x, x ∈ content db' AuditChunks -> x = c' \/ x ∈ content db AuditChunks) by (intros x; rewrite E; set_solver).
  split; [| | | |done].
  - rewrite E, map_app, NoDup_app. split_and!; [done| |apply NoDup_singleton]. intros x Hx ->%list_elem_of_singleton.
    apply list_elem_of_fmap in Hx as (d & Ed & Hd). specialize (Hno d Hd). cbn in Hno. apply fld_false in Hno. by rewrite <- Ed in Hno.
  - intros x [->|Hx]%Hin; [by eauto|]. destruct (Hchunks x Hx) as (t' & part' & records' & Hh). exists t', part', records'.
    eapply chunk_holds_mono; [|exact Hh]. intros t1. apply one_more_le.
  - exists c'. rewrite E. split; [set_solver|]. split; [apply Hg|]. rewrite (ch_payload _ _ _ _ _ Hg). cbn. set_solver.
  - intros day v (x & Hx & Hday & Hv). exists x. rewrite E. set_solver.
Qed.

Lemma wp_archive_audit d t now (Q : result exn unit -> database -> Prop) db :
  NoDup (map (fun d : pydict => d.["_id"]) (content db PurgeDays)) -> NoDup (map (fun d : pydict => d.["_id"]) (content db AuditChunks)) ->
  (forall c, c ∈ content db AuditChunks -> exists t part records, chunk_holds (purged_on db) c t part records) ->
  json_size (PDict (audit_summary d)) <= 16384 -> t + days * US_PER_DAY <= now ->
  (forall db', chunk_added db db' t (PDict (audit_summary d)) -> Q (Ok tt) db') ->
  wp (archive_audit d (utc_day t) now) Q db.
Proof.
  intros Hnd Hnc Hchunks Hsize Hold HQ. unfold archive_audit. wp_step.
  set (summary := PDict (audit_summary d)) in *. set (part := purged_on db (utc_day t) / 100).
  assert (Hpart : 100 * part <= purged_on db (utc_day t) < 100 * part + 100) by (unfold part; Z.to_euclidean_division_equations; lia).
  assert (Hrest : forall counter : option pydict, match counter with Some d => default 0 (as_int d.["deleted"]) | None => 0 end = purged_on db (utc_day t) ->
    wp (let part := match counter with Some d => default 0 (as_int d.["deleted"]) | None => 0 end / 100 in
        let identifier := PStr (chunk_id (utc_day t) part) in
        let! existing := find_one AuditChunks (fun d => fld d "_id" identifier) in
        let records := match existing with Some d => list_value d.["payload"] | None => [] end in
        let summary := PDict (audit_summary d) in
        let! _ := raise_if ((16384 <? json_size summary) || (100 <=? zlen records)) (ValueError "审计摘要超出有界归档大小") in
        let values := chunk_values (records ++ [summary]) now in
        upsert_one AuditChunks (fun d => fld d "_id" identifier) (set_all values)
          ([("_id", identifier); ("day", PStr (utc_day t)); ("part", PInt part); ("createdAt", stamp now);
            ("expiresAt", stamp (now + ARCHIVE_DAYS * US_PER_DAY))] ++ values)) Q db).
  { intros counter ->. fold part summary. cbv zeta. wp_step. apply wp_find_one; unfold on_ok.
    - intros c0 Hc0 Hid0%fld_true. destruct (Hchunks c0 Hc0) as (t0 & part0 & records & [Ci Cd Cp Cl Cc Ch Cs Cu Ce]).
      assert (Hid : chunk_id (utc_day t0) part0 = chunk_id (utc_day t) part) by congruence. apply day_chunk_inj in Hid as [Ed ->].
      assert (Hh : chunk_holds (purged_on db) c0 t0 part records) by by split. rewrite Ed in *. rewrite Cl. cbn [list_value].
      wp_step. wp_step; [blia|]. apply wp_upsert.
      + intros d' db' (Hid'%fld_true & (l & r & E & E') & Ho).
        assert (d' = c0) as -> by (apply (NoDup_map_eq _ _ _ _ Hnc); [rewrite E; apply elem_of_middle|done|congruence]).
        apply HQ. apply (chunk_updated db db' t t0 l c0 r part records summary now); by auto with lia.
      + intros db' Hno. exfalso. specialize (Hno c0 Hc0). cbn in Hno. apply fld_false in Hno. congruence.
      + intros d' Hno. exfalso. specialize (Hno c0 Hc0). cbn in Hno. apply fld_false in Hno. congruence.
    - intros Hno0. wp_step. wp_step; [change (zlen []) with 0 in *; blia|]. cbn [app]. apply wp_upsert.
      + intros d' db' (Hid' & (l & r & E & _) & _). exfalso. specialize (Hno0 d'). rewrite Hno0 in Hid'; [done|]. rewrite E. apply elem_of_middle.
      + intros db' _ _ E Ho. apply HQ. eapply (chunk_inserted db db' t part); [done|done|done|exact Hno0|lia|exact E|by apply frame_one].
      + intros c _ Hc Hcl. exfalso. specialize (Hno0 c Hc). destruct (Hchunks c Hc) as (t0 & part0 & records & [Ci Cd Cp _ _ _ _ _ _]).
        cbn in Hno0. change (fld c "_id" (PStr (chunk_id (utc_day t) part)) || (fld c "day" (PStr (utc_day t)) && fld c "part" (PInt part)) = true) in Hcl.
        apply orb_prop in Hcl as [Hcl|[Hd%fld_true Hp%fld_true]%andb_prop]; [congruence|].
        apply fld_false in Hno0. apply Hno0. rewrite Ci. rewrite Cd in Hd. rewrite Cp in Hp. congruence. }
  apply wp_find_one; unfold on_ok.
  - intros c Hc Hid%fld_true. apply (Hrest (Some c)). symmetry. by apply purged_found.
  - intros Hno. apply (Hrest None). symmetry. by apply purged_none.
Qed.

Lemma audit_accounted_frame cs rows T db db' : frame cs db db' ->
  bool_decide (Audit ∉ cs /\ PurgeDays ∉ cs /\ AuditChunks ∉ cs) = true ->
  audit_accounted rows T db -> audit_accounted rows T db'.
Proof.
  intros Hf (Ha & Hd & Hc)%bool_decide_eq_true [A1 A2 A3 A4 A5].
  split; unfold summarised, purged_on in *; rewrite ?Hf by done; done.
Qed.

(** The errors of the driver. *)
Definition driver_error (e : exn) : Prop := e = PyMongoError \/ e = DuplicateKeyError.

Lemma count_accounts g rows T t now db : is_audit g = false -> audit_accounted rows T db ->
  wp (let! _ := count_deleted g (utc_day t) now in st_ret true) (fun r db' => good driver_error r /\ (is_ok r -> audit_accounted rows T db')) db.
Proof.
  intros Hg [A1 A2 A3 A4 A5]. wp_step. apply wp_count_deleted; [done|]. unfold on_ok. intros db' Hf Hn Hp. apply wp_ret. split; [done|]. intros _.
  rewrite Hg in Hp. cbn [andb] in Hp.
  split; unfold summarised in *; rewrite ?(Hf Audit), ?(Hf AuditChunks) by set_solver; try done.
  intros c Hc. destruct (A4 c Hc) as (t' & part & records & Hh). exists t', part, records. eapply chunk_holds_mono; [|exact Hh].
  intros t1. rewrite Hp. lia.
Qed.

(** An audit record leaves and its summary enters. *)
Lemma archive_accounts rows T cutoff d now db0 db l r : cutoff + days * US_PER_DAY <= now -> now <= T -> audit_accounted rows T db0 -> time_lt d "createdAt" cutoff = true ->
  json_size (PDict (audit_summary d)) <= 16384 -> content db0 Audit = l ++ d :: r -> content db Audit = l ++ r -> frame [Audit] db0 db ->
  wp (let! _ := archive_audit d (utc_day (created_at d)) now in
      let! _ := count_deleted GAudit (utc_day (created_at d)) now in st_ret true)
    (fun r db' => good driver_error r /\ (is_ok r -> audit_accounted rows T db')) db.
Proof.
  intros Hold HT [A1 A2 A3 A4 A5] Hcut Hsize El Er Hf0. wp_step.
  assert (Hcr : created_at d < cutoff) by (unfold created_at, time_lt in *; destruct (d.["createdAt"]); try done; blia).
  assert (Ep : forall day, purged_on db day = purged_on db0 day) by (intros day; unfold purged_on; by rewrite Hf0 by set_solver).
  apply wp_archive_audit; [by rewrite Hf0 by set_solver|by rewrite Hf0 by set_solver| |done|lia|].
  { intros c Hc. rewrite Hf0 in Hc by set_solver. destruct (A4 c Hc) as (t' & part & records & Hh). exists t', part, records.
    eapply chunk_holds_mono; [|exact Hh]. intros t1. by rewrite Ep. }
  unfold on_ok. intros db1 [D1 D2 D3 D4 D5]. wp_step. apply wp_count_deleted; [by rewrite (D5 PurgeDays), Hf0 by set_solver|].
  unfold on_ok. intros db2 Hf2 Hn2 Hp2. apply wp_ret. split; [done|]. intros _.
  assert (Ea : content db2 Audit = l ++ r) by (rewrite Hf2, D5 by set_solver; done).
  assert (Ec : content db2 AuditChunks = content db1 AuditChunks) by (apply Hf2; set_solver).
  split; [| done | by rewrite Ec | |].
  - rewrite Ea. apply (sublist_NoDup _ _ A1), (fmap_sublist (fun d : pydict => d.["_id"])). rewrite El.
    apply sublist_app; [done|by apply sublist_cons].
  - rewrite Ec. intros c Hc. destruct (D2 c Hc) as (t' & part & records & Hh). exists t', part, records.
    eapply chunk_holds_mono; [|exact Hh]. intros t1. rewrite Hp2. unfold one_more, purged_on. rewrite (D5 PurgeDays) by set_solver. cbn. done.
  - assert (Hkeep : forall x, in_chunk db1 (utc_day (created_at x)) (PDict (audit_summary x)) -> summarised db2 x).
    { intros x (c & Hc & Hday & Hv). exists c. by rewrite Ec. }
    intros x Hx. destruct (A5 x Hx) as [Hin|[Hlt [(c & Hc & Hday & Hv)|Ho]]]; [| |right; split; [done|by right]].
    + rewrite El in Hin. rewrite Ea. destruct (decide (x = d)) as [->|Hne]; [right|left; set_solver].
      split; [|left; by apply Hkeep]. eapply time_lt_le; [|exact Hcut]. lia.
    + right. split; [done|]. left. apply Hkeep, D4. exists c. by rewrite Hf0 by set_solver.
Qed.

Lemma purge_accounts rows T cut g owner lease_seconds candidate dry_run now : cut GAudit + days * US_PER_DAY <= now -> now <= T ->
  commits (audit_accounted rows T) driver_error (purge_commit g (cut g) owner lease_seconds candidate dry_run now).
Proof.
  intros Hold HT db Hok. unfold purge_commit. cbv zeta. wp_step. apply wp_fence; unfold on_ok; [|by apply wp_ret].
  intros db0 lease Hf0 _ _. cbn [negb]. assert (Hok0 : audit_accounted rows T db0) by by apply (audit_accounted_frame _ _ _ _ _ Hf0).
  wp_step. apply wp_find_one; unfold on_ok; [|intros _; by apply wp_ret]. intros doc Hdoc [Hid Hcut]%andb_prop. wp_step.
  apply wp_protected; unfold on_ok. intros b db1 Hf1 Hun.
  assert (Hok1 : audit_accounted rows T db1) by by apply (audit_accounted_frame _ _ _ _ _ Hf1).
  wp_step; [by apply wp_ret|]. specialize (Hun eq_refl). wp_step; [by apply wp_ret|]. wp_step.
  apply wp_delete; unfold on_ok; [|intros _; by apply wp_ret]. cbn [negb]. intros l d' r db2 Hq%fld_true El Er Ho.
  destruct (is_audit g) eqn:Eg.
  - assert (g = GAudit) as -> by by destruct g. cbn [collection_of] in *.
    assert (d' = doc) as -> by (apply (NoDup_map_eq _ _ _ _ (aa_audit _ _ _ Hok1)); [rewrite El; apply elem_of_middle|by rewrite Hf1 by set_solver|done]).
    apply (archive_accounts rows T (cut GAudit) doc now db1 db2 l r); try done; [by apply un_size in Hun|by apply frame_one].
  - wp_step. apply wp_ret; unfold on_ok. apply count_accounts; [done|].
    apply (audit_accounted_frame [Events; Operations] _ _ db1); [|done|done]. intros c Hc. apply Ho. intros ->. destruct g; set_solver.
Qed.

(** What the others and the index of the chunks do. *)
Lemma others_account rows T t db : leaves_audit rows t -> t_now t <= T -> audit_accounted rows T db -> audit_accounted rows T (t_others t db).
Proof.
  intros [L1 L2 L3 L4 L5] HT [A1 A2 A3 A4 A5]. split.
  - by apply L1.
  - by rewrite L3.
  - apply (sublist_NoDup _ _ A3), (fmap_sublist (fun d : pydict => d.["_id"])), L4.
  - intros c Hc. destruct (A4 c) as (t' & part & records & Hh); [by eapply elem_of_sublist; [|apply L4]|]. exists t', part, records.
    eapply chunk_holds_mono; [|exact Hh]. intros t1. unfold purged_on. by rewrite L3.
  - intros d Hd. destruct (A5 d Hd) as [Hin|[Hlt Hs]]; [left; by apply L2|right; split; [done|]]. destruct Hs as [(c & Hc & Hday & Hv)|]; [|by right].
    destruct (L5 db c Hc) as [Hk|Hexp]; [left; by exists c|right]. destruct (A4 c Hc) as (t0 & part & records & Hh). exists t0.
    rewrite (ch_day _ _ _ _ _ Hh) in Hday. split; [congruence|]. destruct (ch_expires _ _ _ _ _ Hh) as (e & Ee & Hle).
    unfold time_le in Hexp. rewrite Ee in Hexp. cbn in Hexp. blia.
Qed.

(** C28: no audit record is lost without a trace before its time.  Let [days] be the
    shortest retention of audit records and [T] a moment not before the steps of the
    round.  However often the maintenance runs, whoever holds its lease and however
    each transaction ends, and with the index of the chunks deleting what has expired,
    each of the given audit records is still stored; or it is older than its retention
    and its summary is in a chunk of its day, or the retention and 365 days have passed
    since a moment of that day.  Every chunk names its day and part, tells the number
    and the digest of its records, holds 1 to 100 of them and no more than the day's
    counter says; and the round raises no error but the driver's: a full chunk never
    refuses a record. *)
Theorem audit_purge_accounted config owner timestamp batch_size lease_seconds dry_run turns rows T0 T db :
  days <= rt_audit config -> T0 <= T ->
  (forall p i, leaves_audit rows (turns p i) /\ timestamp <= t_now (turns p i) <= T) ->
  audit_accounted rows T0 db ->
  let '(r, db') := maintain_growth_records config owner timestamp batch_size lease_seconds dry_run turns db in
  audit_accounted rows T db' /\ (forall e, r = Raise e -> driver_error e).
Proof.
  intros Hdays HT Hq Hok%(audit_accounted_later _ _ _ _ HT). set (cut := fun g => timestamp - growing_days config g * US_PER_DAY).
  assert (Hs : sound (audit_accounted rows T) driver_error (maintain_growth_records config owner timestamp batch_size lease_seconds dry_run turns)).
  { apply (sound_maintain _ _ (fun t => leaves_audit rows t /\ timestamp <= t_now t <= T) (fun now => timestamp <= now <= T)) with (cut := cut); try done.
    - by intros t [_ ?].
    - intros t db1 [Hl Hnow]. apply (others_account rows T t); [done|lia].
    - intros db1 db2 Hf. by apply (audit_accounted_frame _ _ _ _ _ Hf).
    - by left.
    - intros rid cutoff o ls ts dry now _ db1 Hok1. apply wp_archive_run.
      + intros r db2 Hf. split; [done|]. intros _. by apply (audit_accounted_frame _ _ _ _ _ Hf).
      + intros run selected finished reason db2 db3 [Hf _ _ _ _ _ Hd]. split; [done|]. intros _.
        apply (audit_accounted_frame _ _ _ _ _ (cd_frame _ _ _ _ _ Hd)); [done|]. by apply (audit_accounted_frame _ _ _ _ _ Hf).
    - intros g o ls candidate dry now Hnow. apply purge_accounts; [|lia]. unfold cut. cbn [growing_days]. assert (0 < US_PER_DAY) by done. nia. }
  specialize (Hs db Hok). unfold wp in Hs. destruct (maintain_growth_records _ _ _ _ _ _ _ db) as [r db']. destruct Hs as [Hg Hok'].
  split; [done|]. by intros e ->.
Qed.
End trail.
End growth.

(** ** A round on a small store *)

#[local] Instance sample_codec : RecordCodec := {|
  json_size v := match v with PDict l => zlen l | _ => 0 end;
  json_sha256 v := match v with PList l => pretty (zlen l) | _ => "" end |}.

Definition day_of (n : Z) : pyval := stamp (n * US_PER_DAY).

Definition old_login : pydict :=
  [("_id", PStr "a1"); ("id", PStr "a1"); ("actor", PStr "admin"); ("action", PStr "login_failed"); ("createdAt", day_of 10)].
Definition new_login : pydict :=
  [("_id", PStr "a2"); ("id", PStr "a2"); ("actor", PStr "admin"); ("action", PStr "login"); ("createdAt", day_of 390)].
Definition ended_run : pydict := [("id", PStr "r1"); ("taskId", PStr "t1"); ("startedAt", day_of 15); ("endedAt", day_of 20)].
Definition old_command (id status : string) : pydict :=
  [("id", PStr id); ("taskId", PStr "t1"); ("runId", PStr "r1"); ("status", PStr status)].

Definition sample_store : @database list_mongo := fun c =>
  match c with
  | Audit => [old_login; new_login]
  | Runs => [ended_run]
  | Commands => [old_command "c1" "SENT"; old_command "c2" "FAILED"; old_command "c3" "SENT"]
  | Budgets => [[("_id", PStr "r1:0")]]
  | Tasks => [[("id", PStr "t1"); ("desiredState", PStr "STOPPED")]]
  | _ => []
  end.

Definition sample_config : retention := Retention 30 30 0.
Definition sample_turns : nat -> nat -> @turn list_mongo := fun _ _ => @Turn list_mongo (fun db => db) (400 * US_PER_DAY) Committed.
Definition sample_round := @maintain_growth_records list_mongo sample_codec sample_config "me" (400 * US_PER_DAY) 100 120 false sample_turns sample_store.
Definition sample_total (s : string) : Z := if String.eqb s "SENT" then 2 else if String.eqb s "FAILED" then 1 else 0.

Definition sample_content := @content list_mongo sample_round.2.

Lemma run_archive_conserves_witness :
  sample_round.1 = Ok (GrowthResult true 1 0 1 0 0 0) /\ sample_content Commands = [] /\ sample_content Runs = [] /\ sample_content Budgets = []
  /\ @run_accounted list_mongo (PStr "t1") (PStr "r1") sample_total sample_store
  /\ @run_accounted list_mongo (PStr "t1") (PStr "r1") sample_total sample_round.2.
Proof.
  assert (Hok : @run_accounted list_mongo (PStr "t1") (PStr "r1") sample_total sample_store).
  { split.
    - apply (bool_decide_unpack _). vm_compute. done.
    - intros s. unfold tally, sample_total.
      replace (rows_of Commands (fun d => fld d "runId" (PStr "r1")) sample_store) with (@content list_mongo sample_store Commands)
        by (vm_compute; reflexivity).
      destruct (String.eqb_spec s "SENT") as [->|H1]; [vm_compute; reflexivity|].
      destruct (String.eqb_spec s "FAILED") as [->|H2]; [vm_compute; reflexivity|].
      change (0 + count_status s (@content list_mongo sample_store Commands) = 0). unfold count_status. rewrite filter_none; [done|].
      intros x Hx Hs%fld_true. cbn in Hx. rewrite !elem_of_cons, elem_of_nil in Hx. destruct Hx as [->|[->|[->|[]]]]; by injection Hs as <-.
    - intros d Hd _. by apply list_elem_of_singleton in Hd as ->.
    - left. exists ended_run. by split; [left|]. }
  split_and!; [vm_compute; reflexivity..|done|].
  apply (@run_archive_conserves list_mongo sample_codec list_mongo_laws sample_config "me" (400 * US_PER_DAY) 100 120 false sample_turns); [|done].
  intros p i. by split.
Defined.

Lemma sample_audit : @audit_accounted list_mongo sample_codec 30 [old_login; new_login] (390 * US_PER_DAY) sample_store.
Proof.
  split; try (apply (bool_decide_unpack _); vm_compute; done).
  - intros c Hc. by apply elem_of_nil in Hc.
  - intros d Hd. by left.
Qed.

Lemma audit_purge_accounted_witness :
  sample_content Audit = [new_login]
  /\ map (fun c => list_value c.["payload"]) (sample_content AuditChunks) = [[PDict (audit_summary old_login)]]
  /\ @audit_accounted list_mongo sample_codec 30 [old_login; new_login] (400 * US_PER_DAY) sample_round.2.
Proof.
  split_and!; [vm_compute; reflexivity..|].
  pose proof (@audit_purge_accounted list_mongo sample_codec list_mongo_laws 30 sample_config "me" (400 * US_PER_DAY) 100 120 false sample_turns
    [old_login; new_login] (390 * US_PER_DAY) (400 * US_PER_DAY) sample_store) as Hround. cbv zeta in Hround.
  fold sample_round in Hround. destruct sample_round as [r db']. apply Hround; [done|done| |apply sample_audit].
  intros p i. split; [|done]. split; try done. intros db c Hc. by left.
Defined.

(** The round after its lease is taken. *)
Definition leased_store : @database list_mongo := fun c =>
  match c with
  | RecordMaintenance => [[("_id", GROWTH); ("owner", PStr "me"); ("expiresAt", day_of 401)]]
  | _ => sample_store c
  end.

Definition purge_login : @database list_mongo :=
  (@transaction list_mongo bool Committed (@purge_commit list_mongo sample_codec GAudit (370 * US_PER_DAY) "me" 120 old_login false (400 * US_PER_DAY))
    leased_store).2.

Lemma maintenance_spares_needed_witness :
  @content list_mongo purge_login Audit = [new_login]
  /\ @unneeded list_mongo sample_codec GAudit (400 * US_PER_DAY) leased_store old_login
  /\ (@transaction list_mongo (bool * string) Committed (@archive_run_commit list_mongo (PStr "r1") (370 * US_PER_DAY) "me" 120 0 false (400 * US_PER_DAY))
       leased_store).1 = Ok (true, "已归档")
  /\ @releasable list_mongo ended_run leased_store.
Proof.
  pose proof (@maintenance_spares_needed list_mongo sample_codec list_mongo_laws leased_store Committed "me" 120 false (400 * US_PER_DAY) (370 * US_PER_DAY))
    as [Hpurge Harchive].
  split_and!; [vm_compute; reflexivity| |vm_compute; reflexivity|].
  - destruct (Hpurge GAudit old_login) with (d := old_login) as [Hin|(_ & _ & Hun & _)]; [|by left| |done].
    + apply (bool_decide_unpack _). vm_compute. done.
    + exfalso. revert Hin. apply (bool_decide_unpack _). vm_compute. done.
  - destruct (proj1 (Harchive (PStr "r1") 0) (old_command "c1" "SENT")) as [Hin|(run & Hrun & _ & _ & Hrel & _)]; [by left| |].
    + exfalso. revert Hin. apply (bool_decide_unpack _). vm_compute. done.
    + by apply list_elem_of_singleton in Hrun as ->.
Defined.
